(* ===== verification/_CoqProject ===== *)
-Q . S2P
Prelude.v
Asm.v
PpuInstruction.v
PpuContext.v
PpuArith.v
PpuLogic.v
PpuCr.v
PpuBranch.v
PpuLoadStore.v
PpuVecMem.v
Simd.v
SimdOps.v
SimdSpec.v
SimdWide.v
SimdPack.v
SimdShift.v
PpuVector.v
PpuVectorSpec.v
PpuVectorOps.v
PpuVectorMove.v
PpuDecoder.v
PpuVectorTable.v
PpuInterp.v
SpuOpcode.v
SpuThread.v
SpuOps.v
SpuSpec.v
SpuQuad.v
SpuProgram.v
SpuShuffle.v
SpuMasks.v
SpuAnalysis.v
SpuLoop.v
SpuChannel.v
SpuMailbox.v
IdManager.v
Lv2Obj.v
Lv2Sema.v
Lv2Create.v
Lv2Mutex.v
Lv2RwLock.v
Lv2EventFlag.v
Lv2Cond.v
Lv2Syscalls.v
Lv2EventQueue.v
Lv2EventPort.v
Lv2LwMutex.v
Lv2LwCond.v
Lv2LwCreate.v
StdMap.v
RxMemory.v
MemTable.v
MemResource.v
OrbisMem.v
FileStream.v
Psf.v
PsfSpec.v
PsfLoad.v
