(* ===== verification/Prelude.v ===== *)
(** * RPCSX: a verification development of the PS3 emulation core

    RPCSX emulates the PlayStation 3 (and, with a second kernel, later
    consoles) on a host machine.  This library models the parts that carry the
    emulator's own logic - the PPU instruction semantics, decoder and
    interpreter step, the SPU interpreter with its decoder and static analysis,
    the channels and mailboxes of the SPU, the LV2 kernel's sleep queues, object
    ids, semaphores, mutexes, read-write locks, condition variables, event flags, event queues and ports, lightweight
    mutexes and conditions, the memory tables, the allocation of the PS4
    kernel's physical and flexible memory, and the reader and writer of
    PARAM.SFO files - as executable Rocq definitions translated from the C++
    under src/, and proves what makes them correct.

    ** How the parts interact

    The PPU interpreter (src/rpcs3/Emu/Cell/PPUInterpreter.cpp) decodes an
    instruction word through the table of src/rpcsx/cpu/cell/ppu/src/Decoder.cpp
    and calls the matching semantic function of
    src/rpcsx/cpu/cell/ppu/semantic/ppu.cpp, which works on the PPUContext
    registers and, through rpcsx_vm_read and rpcsx_vm_write, on guest memory.
    The SPU interpreter runs on its own 256 KB local store: old_interpreter
    (SPUCommonRecompiler.cpp) fetches a word, looks its function up in the
    table of SPUOpcodes.h and calls it; the functions of SPUInterpreter.cpp
    work on the 128 vector registers of spu_thread with the same vector
    operations as the PPU (rx/simd.hpp), and reach the rest of the system
    through channels (SPUThread.h), which other threads push to and pop from and
    at which the SPU waits.  The recompilers decide what a word reads, writes and
    branches to with op_register_targets and op_branch_targets.
    Guest programs enter the LV2 kernel (src/kernel/cellos/) by system calls;
    kernel objects are found through ids (src/rpcs3/Emu/IdManager.h), shared
    between processes through IPC keys (src/rpcs3/Emu/IPC.h), and keep their
    sleeping threads in queues threaded through the threads themselves
    (lv2_obj in include/cellos/sys_sync.h).  A condition variable belongs to a
    mutex: waiting releases it, and waking takes it or joins its queue.  An
    event port holds a reference to an event queue, which buffers what is sent
    or hands it to a sleeping receiver.  A lightweight mutex is taken in guest
    memory; the kernel only parks the threads that find it taken and stores the
    signals of unlocks, and a lightweight condition moves its waiters to the
    queue of the mutex.  rx::MemoryAreaTable (src/rx/include/rx/MemoryTable.hpp)
    records which address ranges are mapped; MemoryTableWithPayload of the same
    header maps ranges to values, kernel::AllocableResource
    (src/kernel/include/kernel/MemoryResource.hpp) allocates in such a table, and
    the PS4 kernel keeps its physical memory (src/kernel/orbis/src/pmem.cpp) and,
    inside a range of it, its flexible memory (fmem.cpp) as two such resources.
    The loader of PARAM.SFO
    (src/rpcs3/Loader/PSF.cpp) reads a registry of typed entries from a stream
    (src/rpcs3/util/File.h) and writes it back.

    ** Files

    - Prelude: machine integers ([wrap], [sext] and the range predicates),
      shared tactics and hint databases, bit and digit-sequence lemmas.
    - Asm: the rotations of rx/asm.hpp.
    - PpuInstruction: rx::BitField and the fields of Instruction.hpp.
    - PpuContext: CrField, PPUContext, CR packing; [wf_ctx] (every register in
      its machine range, CR bits 0 or 1) and its preservation by every setter.
    - PpuArith, PpuLogic: the integer arithmetic, logical, rotate and shift
      instructions, one definition per SEMANTIC of ppu.cpp.
    - PpuCr: compares, CR logic, moves to and from CR and the special
      registers, traps; [outcome] is a context or the exception the semantic
      function raises.
    - PpuBranch: B, BC, BCLR, BCCTR.
    - PpuLoadStore, PpuVecMem: guest memory as bytes at 64-bit offsets, the
      scalar, string, multiple, double-precision and vector loads and stores.
      Memories are compared by [mem_eq], an equivalence with Proper instances.
    - Simd: a v128 as a 128-bit integer, its elements ([lane], [slane]) and the
      compiler intrinsics by their documented element semantics; SimdOps: one
      definition per gv_ function of src/rx/include/rx/simd.hpp (integers);
      SimdSpec, SimdWide, SimdPack, SimdShift: the element equations of these
      functions, the same for SSE2, SSSE3 and SSE4.1, the three levels modelled.
    - PpuVector: the integer vector instructions of ppu.cpp; PpuVectorSpec
      (saturation), PpuVectorOps (elementwise, products, compares) and
      PpuVectorMove (permutes, shifts, packs): what they compute.
    - PpuDecoder: the Opcode enumeration, the table construction loop by loop,
      getOpcode, fixOpcode.
    - PpuVectorTable: the dispatch of the vector opcodes.
    - PpuInterp: the dispatch of decoded opcodes to the definitions above, the
      HLE lookup and PPUInterpreter::interpret.
    - SpuOpcode: spu_opcode_t, spu_itype and spu_iflag, the decoder table, the
      branch and register targets of a word.
    - SpuThread: the registers, local store and interrupt state of spu_thread;
      [wf_spu].
    - SpuOps: the interpreter functions of SPUInterpreter.cpp, one definition
      each, the table of them and the loop.
    - SpuSpec: the element instructions against a table of element functions;
      SpuQuad: the quadword shifts and rotates on 128-bit numbers; SpuShuffle:
      the byte shuffle, its assembled versions and insertion into memory;
      SpuMasks: mask expansion and gathering.
    - SpuProgram: machine-code sequences run from the local store by the loop.
    - SpuAnalysis: what an instruction can do to the thread, by rule
      ([outcome]), and from it the type invariant and the soundness of the
      static targets; SpuLoop: interrupts, and the end of the local store.
    - SpuChannel: spu_channel, its atomic operations and the threads that run
      them, with the abstract cell they implement; SpuMailbox: the same for
      spu_channel_4_t, with the queue of four values it implements.
    - IdManager: id_traits, id_map, allocate_id, create_id, lookup, withdraw.
    - Lv2Obj: threads in a shared store, cpu_flag, and lv2_obj::unqueue,
      schedule and emplace as loops over pointers.
    - Lv2Sema: lv2_sema and the atomic regions of its syscalls.
    - Lv2Create: lv2_obj::create, on_id_destroy and ipc_manager over explicit
      object references; the class [Lv2Object] states what the template asks
      of an object type.
    - Lv2Mutex: lv2_mutex and the atomic regions of its syscalls, with the
      abstract lock they implement.
    - Lv2RwLock: lv2_rwlock and the atomic regions of its syscalls, with the
      abstract read-write lock they implement.
    - Lv2EventFlag: lv2_event_flag, the wait, set, clear and cancel syscalls
      as atomic regions; the lock-free set loop over observed patterns.
    - Lv2Cond: lv2_cond and the atomic regions of its syscalls, over a mutex
      given by the interface [CondMutex] with its laws; Lv2Mutex's state is
      the instance.
    - Lv2Syscalls: the create and destroy syscalls of semaphores, mutexes,
      read-write locks and event flags, with the instances of [Lv2Object].
    - Lv2EventQueue: lv2_event_queue and the critical sections of its syscalls,
      with the bounded mailbox they implement; Lv2EventPort: ports, and the
      creation and destruction of queues, over ids and the IPC table.
    - Lv2LwMutex: lv2_lwmutex, every atomic operation of its syscalls, and the
      parking place they implement; Lv2LwCond: lv2_lwcond over it, with the
      modes of signaling; Lv2LwCreate: their creation through the id manager.
    - StdMap: std::map as a list with increasing keys, and the state along a
      table of points; RxMemory: AddressRange, alignment, MemoryAreaTable.
    - MemTable: Payload and MemoryTableWithPayload; MemResource:
      AllocableResource for an interface of allocations with its laws
      ([AllocationInfo], [AllocationLaws]); OrbisMem: pmem and fmem.
    - FileStream: fs::container_stream and the typed reads of fs::file.
    - Psf: psf::entry, psf::registry, load, save_object and check_registry;
      PsfSpec: the byte layout and the round trip; PsfLoad: load on any bytes.

    ** How code is represented

    Integers are [Z] kept in the range of their type; every conversion and
    every operation that can leave the range is a [wrap] or [sext] written
    out.  Register files are lists, bit operations those of [Z].  A semantic
    function is a function from contexts (and memory) to contexts or an
    exception.  Code that can fail an ensure or an assertion, or dereference a
    dangling pointer, returns [option] or the reply [Fatal], and the theorems
    show that this does not happen.  Kernel syscalls run concurrently: each
    atomic region (a compare-and-swap, or a critical section of the object's
    mutex) is one function on the shared state, values read outside a region
    are arguments, and the theorems quantify over all sequences of regions.
    std::map is a list of pairs with increasing keys.

    Parameters ([env] in PpuInterp): the time base read by MFTB, whether the
    host is x64 (MFOCRF has two bodies), the uninitialised byte STVRX copies,
    the vector instruction set of the build ([isa]: SSE2, SSSE3 or SSE4.1),
    the functions registered for an address and the HLE function table, and
    the semantics of the opcodes that are not modelled.  The theorems assume
    only that these functions map well-formed states to well-formed states.
    For the SPU ([Spu.env]): the channel and event functions, the MFC queue,
    the state check between instructions, whether the configured decoder
    supports interrupts, and the floating-point intrinsics of the processor
    ([fpu]); the class [EnvOk] states what is assumed of them: the functions
    keep the thread well-formed and leave the registers alone, and the
    intrinsics make 128-bit vectors of 128-bit vectors.  For event queues: what
    the SPU side does with an event sent to a sleeping SPU thread.

    ** What the theorems show

    - Instructions: the add and subtract family implements one addition with
      carry, overflow and record forms; multiplication, division, rotates and
      shifts agree with arithmetic on Z bit for bit, with the undefined cases
      spelled out; CR and special-register moves round-trip; branches implement
      the architecture's BO table; stores and loads round-trip, the string
      loops move the same byte string, and pairs of partial vector accesses
      make the unaligned access.
    - Vector instructions: saturating results are the exact values clamped to
      the element, and the sticky saturation vector records exactly the
      clamped elements; elementwise, multiply and compare instructions equal
      arithmetic on the elements; permutes, merges and splats in the
      architecture's element order; octet and bit shifts together shift the
      whole register; unpacking is undone by packing.  The branches for SSE2,
      SSSE3 and SSE4.1 agree.
    - Decoder and interpreter: what every 32-bit word decodes to; the registers
      stay in their ranges; non-branches advance the
      instruction address by four on top of their own effect.
    - SPU: every element instruction computes its reference function on each
      element, also when the target is an operand that the loop overwrites;
      quadword shifts act on 128-bit numbers; the three versions of the shuffle
      agree; the instruction sequences for 32-bit products, 128-bit sums,
      shifts by any count and stores of single elements do what they are for,
      as machine code run by the interpreter; gathering and expanding masks are
      inverse.  Every word decodes to the entry whose bits it has.  The branch
      targets the recompilers rely on are the addresses at which execution goes
      on, but for the last word of the local store and the instructions that
      are repeated; the register targets are sound for every word.  Interrupt
      delivery and return restore each other.
      A channel is a cell of one value that is handed directly to a waiting SPU,
      for any number of pushing threads, in every interleaving in which nothing
      falls between the store to jostling_value and the compare-and-swap that
      begins a wait; the inbound mailbox is a queue of four values that hands a
      push directly to a waiting SPU, outside three windows of its lock-free
      code, in each of which it is shown to fail.
    - Kernel: the pointer loops of the sleep queues implement list removal,
      selection by the protocol and insertion; ids implement a finite map and
      are not reused by the next object; reference counts and the IPC table are
      exact; semaphores keep counter and queue consistent and conserve units
      under every interleaving; mutex regions implement an abstract recursive
      lock, and mutual exclusion holds in every reachable state.
    - Read-write locks: the regions implement an abstract lock with readers, a
      writer and waiters, except the timeout of the last writer in front of a
      reader that is being saved, which is shown never to end; no reachable state
      has a writer beside another holder, and unlocking serves every waiter it
      admits.
    - Event flags: no sleeping thread is left with a satisfied pattern; setting
      bits commits the pattern of serving the waiters one after the other and
      wakes those served, after at most as many failed rounds as bits were
      removed meanwhile; when a later round clears the whole pattern, a waiter
      that only an earlier round had marked can be woken too.
    - Condition variables: condition and mutex together implement a monitor;
      a thread that returns from a wait holds the mutex, alone, at the depth it
      came with, or once when the wait was restarted.
    - Event queues and ports: the regions implement a bounded mailbox; over
      every interleaving each accepted event is delivered, cleared or buffered,
      once and in order; a connected port delivers to its queue, with the
      documented source, until it is disconnected.
    - Lightweight mutexes and conditions: the regions implement a parking place;
      the kernel never admits more threads than unlocks, and over every
      interleaving, the steps inside a signal included, a waiter of a condition
      is in its queue, in the queue of the mutex, runs, or is being moved by the
      thread that signals; the one ensure that can fail is the wait_only of
      try_own, when the mutex holds a stored signal; signal_all serves the waiters
      in the order of the protocol.
    - Memory: map and unmap are union and difference of address sets; the table
      with payloads is a map from addresses to values, kept canonical by merging.
      Allocations return aligned free ranges when there are any on the searched
      side of the hint, and change nothing else (a downward search from a hint
      needs the area of the hint to begin aligned); destroying the flexible memory gives back what it took.
    - PARAM.SFO: a registry that is saved is loaded back; load on arbitrary
      bytes gives an ordered registry of typed entries or an error.
    - Some theorems state defects of the code: dead record opcodes and
      unreachable overflow forms of the decoder, the mtcrf mnemonic, the
      misplaced bytes of STVRX, the results VMSUMUHS and VPKSWUS lose, the id
      counter lost by failed creations, the read before begin() in unmap, the
      readers a timed-out writer leaves asleep, the event-flag waiter woken by a
      stale result, the recursion count a restarted wait loses, the SPU program counter that leaves the local
      store, the event port freed under its sender, the PARAM.SFO entry whose
      limit is too small and ends the process, the report of a rejected integer
      entry by check_registry, the stack allocation with a hint that overlaps
      the area in front, the failed ensure of a push to a channel on which a wait
      has only begun, the value a stopped push_wait leaves pending, and what the
      mailbox does in its three windows: the value it loses when a push and a pop
      meet at a full one, the wait that nobody ends, and the 0 nobody pushed.

    ** Fuel

    Queue walks take the size of the thread store as fuel; [seg_length] shows
    that a queue is never longer.  The loops that serve, drain or re-own queues
    take the store size plus one, that of _sys_lwcond_signal_all too, and the
    loop that cancels the receivers of an event queue the store size.  The
    loops of PARAM.SFO recurse on the entries or on the indices of the file.
    The retry loop of sys_event_flag_set recurses on the list of patterns it
    observes.  The erase loops of the memory tables, the iteration over areas and
    the searches of an allocation take the number of points.  The string
    instructions recurse on the byte count.
    [old_interpreter] counts the turns of the SPU's endless loop; theorems about
    it hold for every number of turns or name the number at which the sequence
    is done.  No theorem is conditional on fuel: each states that the result is
    reached.

    ** Not modelled

    The PPU's scalar and vector floating-point instructions, and what the
    floating-point intrinsics of the SPU's compute; the AVX, VNNI and ARM
    branches of the vector operations; reservations (LWARX, STWCX, DCBZ) and SC;
    the recompilers; the SPU's events, MFC and the dispatch of channel numbers
    (SpuChannel and SpuMailbox stand beside [Spu.env], whose channel functions
    stay parameters), and the ARM builds of its interpreter; page protection; the
    LV2 scheduler (sleep, awake, schedule_all), which appears as the set of threads
    it was told to run; savestates; files of the host; graphics, audio, input,
    firmware modules, loaders of other formats, the later consoles' kernel apart
    from its physical and flexible memory, and the user interface; serialization
    of tables, and allocations that listen to truncations.

    ** Plan

    Next: the scheduler queue g_ppu of lv2.cpp; creation and destruction of
    condition variables; the direct and virtual memory of the PS4 kernel over
    MemResource; the dispatch of channel numbers to SpuChannel and SpuMailbox, and
    the SPU's events. *)

From stdpp Require Import base numbers list gmap tactics.
From Stdlib Require Import Lia.

(** ** Machine integers

    A w-bit C++ integer is a [Z]; [wrap n] is the conversion to an unsigned
    n-bit type, [sext n] the conversion to a signed one.  Both are the
    modular conversions of C++20, so every cast of the sources is one of
    them. *)

Open Scope Z_scope.

Definition wrap (n x : Z) : Z := x mod 2 ^ n.

Definition sext (n x : Z) : Z :=
  let y := wrap n x in if y <? 2 ^ (n - 1) then y else y - 2 ^ n.

Abbreviation u8 := (wrap 8).
Abbreviation u16 := (wrap 16).
Abbreviation u32 := (wrap 32).
Abbreviation u64 := (wrap 64).
Abbreviation u128 := (wrap 128).
Abbreviation s8 := (sext 8).
Abbreviation s16 := (sext 16).
Abbreviation s32 := (sext 32).
Abbreviation s64 := (sext 64).
Abbreviation s128 := (sext 128).

(** Range predicates of the unsigned and signed n-bit types. *)
Definition urange (n x : Z) : Prop := 0 <= x < 2 ^ n.

Definition srange (n x : Z) : Prop := - 2 ^ (n - 1) <= x < 2 ^ (n - 1).

(** Shifts and complement at a width. *)
Definition shl (n x s : Z) : Z := wrap n (Z.shiftl x s).

Definition lnot_w (n x : Z) : Z := wrap n (Z.lnot x).

(** The C bit operators, in a scope of their own. *)
Declare Scope mach_scope.
Delimit Scope mach_scope with mach.
Infix "&&&" := Z.land (at level 40, left associativity) : mach_scope.
Infix "|||" := Z.lor (at level 50, left associativity) : mach_scope.
Infix "^^^" := Z.lxor (at level 50, left associativity) : mach_scope.
Infix ">>>" := Z.shiftr (at level 40, left associativity) : mach_scope.

Definition b2z (b : bool) : Z := if b then 1 else 0.

(** ** Automation *)

Create HintDb mach discriminated.
Create Rewrite HintDb ppu.

(** Case analysis on the boolean comparisons of [Z] in the context. *)
Ltac zbool :=
  repeat match goal with
    | H : context [?a =? ?b] |- _ => destruct (Z.eqb_spec a b)
    | |- context [?a =? ?b] => destruct (Z.eqb_spec a b)
    | H : context [?a <? ?b] |- _ => destruct (Z.ltb_spec a b)
    | |- context [?a <? ?b] => destruct (Z.ltb_spec a b)
    | H : context [?a <=? ?b] |- _ => destruct (Z.leb_spec a b)
    | |- context [?a <=? ?b] => destruct (Z.leb_spec a b)
    end.

(** Enumerate the values of [x] from [lo], [n] of them; the range hypotheses
    close the rest. *)
Ltac zenum x lo n :=
  lazymatch n with
  | O => exfalso; lia
  | S ?m => destruct (Z.eq_dec x lo) as [->|?];
            [|let lo' := eval cbv in (lo + 1) in zenum x lo' m]
  end.

(** Destruct every [if] and [match] scrutinee of the goal. *)
Ltac cases :=
  repeat (case_match; simplify_eq/=).

(** ** Lemmas on machine integers *)

Lemma pow2_pos n : 0 <= n -> 0 < 2 ^ n.
Proof. intros; apply Z.pow_pos_nonneg; lia. Qed.

Lemma wrap_range n x : 0 <= n -> urange n (wrap n x).
Proof. intros. apply Z.mod_pos_bound, pow2_pos. lia. Qed.

Lemma wrap_id n x : urange n x -> wrap n x = x.
Proof. intros. apply Z.mod_small. done. Qed.

Lemma wrap_wrap n x : 0 <= n -> wrap n (wrap n x) = wrap n x.
Proof. intros. by apply wrap_id, wrap_range. Qed.

Lemma wrap_eq n x : 0 <= n -> exists q, wrap n x = x - q * 2 ^ n.
Proof.
  intros. exists (x / 2 ^ n). unfold wrap.
  pose proof (Z.div_mod x (2 ^ n)). pose proof (pow2_pos n). lia.
Qed.

(** Congruence: a value that differs by a multiple of [2 ^ n] wraps to the
    same result. *)
Lemma wrap_add_mul n x q : 0 <= n -> wrap n (x + q * 2 ^ n) = wrap n x.
Proof. intros. unfold wrap. rewrite Z.mod_add; [done|]. pose proof (pow2_pos n). lia. Qed.

Lemma wrap_unique n x y q :
  0 <= n -> urange n y -> x = y + q * 2 ^ n -> wrap n x = y.
Proof. intros Hn Hy ->. rewrite wrap_add_mul by done. by apply wrap_id. Qed.

(** A value below twice the modulus wraps at most once. *)
Lemma wrap_once n x :
  0 <= n -> 0 <= x < 2 * 2 ^ n -> wrap n x = if x <? 2 ^ n then x else x - 2 ^ n.
Proof.
  intros Hn Hx. destruct (Z.ltb_spec x (2 ^ n)).
  - apply wrap_id. unfold urange; lia.
  - apply (wrap_unique n x _ 1); unfold urange; lia.
Qed.

Lemma wrap_add_l n x y : 0 <= n -> wrap n (wrap n x + y) = wrap n (x + y).
Proof.
  intros Hn. destruct (wrap_eq n x Hn) as [q ->].
  replace (x - q * 2 ^ n + y) with (x + y + (- q) * 2 ^ n) by lia.
  by apply wrap_add_mul.
Qed.

Lemma wrap_add_r n x y : 0 <= n -> wrap n (x + wrap n y) = wrap n (x + y).
Proof. intros. rewrite Z.add_comm, wrap_add_l by done. f_equal; lia. Qed.

Lemma wrap_sub_r n x y : 0 <= n -> wrap n (x - wrap n y) = wrap n (x - y).
Proof.
  intros Hn. destruct (wrap_eq n y Hn) as [q ->].
  replace (x - (y - q * 2 ^ n)) with (x - y + q * 2 ^ n) by lia.
  by apply wrap_add_mul.
Qed.

Lemma wrap_sub_l n x y : 0 <= n -> wrap n (wrap n x - y) = wrap n (x - y).
Proof. intros. rewrite <- !Z.add_opp_r. by apply wrap_add_l. Qed.

Lemma wrap_mul_l n x y : 0 <= n -> wrap n (wrap n x * y) = wrap n (x * y).
Proof.
  intros Hn. destruct (wrap_eq n x Hn) as [q ->].
  replace ((x - q * 2 ^ n) * y) with (x * y + (- q * y) * 2 ^ n) by lia.
  by apply wrap_add_mul.
Qed.

Lemma sext_range n x : 0 < n -> srange n (sext n x).
Proof.
  intros. unfold sext, srange. pose proof (wrap_range n x) as Hr.
  unfold urange in Hr. assert (2 ^ n = 2 * 2 ^ (n - 1)) as He.
  { rewrite <- Z.pow_succ_r by lia. f_equal; lia. }
  zbool; lia.
Qed.

Lemma sext_eq n x : 0 < n -> exists q, sext n x = x - q * 2 ^ n.
Proof.
  intros. destruct (wrap_eq n x) as [q Hq]; [lia|]. unfold sext.
  rewrite Hq. case_match; [by exists q | exists (q + 1); lia].
Qed.

Lemma sext_id n x : 0 < n -> srange n x -> sext n x = x.
Proof.
  intros Hn Hx. pose proof (sext_range n x Hn) as Hr.
  destruct (sext_eq n x Hn) as [q Hq]. unfold srange in *.
  assert (2 ^ n = 2 * 2 ^ (n - 1)) as He.
  { rewrite <- Z.pow_succ_r by lia. f_equal; lia. }
  assert (q = 0) by nia. subst. lia.
Qed.

Lemma wrap_sext n x : 0 < n -> wrap n (sext n x) = wrap n x.
Proof.
  intros Hn. destruct (sext_eq n x Hn) as [q ->].
  replace (x - q * 2 ^ n) with (x + (- q) * 2 ^ n) by lia.
  apply wrap_add_mul; lia.
Qed.

Lemma sext_wrap n x : 0 <= n -> sext n (wrap n x) = sext n x.
Proof. intros. unfold sext. by rewrite wrap_wrap. Qed.

Lemma sext_neg n x :
  0 < n -> urange n x -> sext n x = x - b2z (2 ^ (n - 1) <=? x) * 2 ^ n.
Proof.
  intros Hn Hx. unfold sext. rewrite wrap_id by done.
  zbool; simpl; lia.
Qed.

Lemma urange_mono n m x : 0 <= n <= m -> urange n x -> urange m x.
Proof.
  intros ? [??]. split; [done|].
  eapply Z.lt_le_trans; [done|]. apply Z.pow_le_mono_r; lia.
Qed.

(** C++ division of two n-bit signed values stays in range but for the one
    overflowing quotient. *)
Lemma quot_srange n a b :
  0 < n -> srange n a -> b <> 0 -> ~ (a = - 2 ^ (n - 1) /\ b = -1) ->
  srange n (Z.quot a b).
Proof.
  unfold srange. intros Hn Ha Hb Ho. pose proof (pow2_pos (n - 1)) as Hp.
  destruct (decide (b = 1)) as [->|]; [rewrite Z.quot_1_r; lia|].
  destruct (decide (b = -1)) as [->|].
  - change (-1) with (- (1)). rewrite Z.quot_opp_r, Z.quot_1_r by lia. lia.
  - assert (Z.abs b * Z.abs (Z.quot a b) <= Z.abs a) as Hq.
    { rewrite <- Z.quot_abs by done. apply Z.mul_quot_le; lia. }
    nia.
Qed.

(** ** Bits *)

Lemma testbit_wrap n x i :
  0 <= n -> Z.testbit (wrap n x) i = (i <? n) && Z.testbit x i.
Proof.
  intros. unfold wrap. destruct (Z.ltb_spec i n); simpl.
  - destruct (Z.le_gt_cases 0 i).
    + apply Z.mod_pow2_bits_low; lia.
    + by rewrite !Z.testbit_neg_r by lia.
  - apply Z.mod_pow2_bits_high; lia.
Qed.

Lemma urange_testbit n x i :
  0 <= n -> urange n x -> n <= i -> Z.testbit x i = false.
Proof.
  intros. rewrite <- (wrap_id n x), testbit_wrap by done. by zbool; [lia|].
Qed.

Lemma urange_bits n x :
  0 <= n -> 0 <= x -> (forall i, n <= i -> Z.testbit x i = false) -> urange n x.
Proof.
  intros Hn Hx Hb. assert (wrap n x = x) as <-; [|by apply wrap_range].
  apply Z.bits_inj'. intros i Hi. rewrite testbit_wrap by done.
  zbool; [done|]. by rewrite Hb.
Qed.

Lemma land_urange n x y : 0 <= n -> 0 <= y -> urange n x -> urange n (Z.land x y).
Proof.
  intros Hn Hy Hx. apply urange_bits; [done| |].
  - apply Z.land_nonneg. right; lia.
  - intros i Hi. by rewrite Z.land_spec, (urange_testbit n x).
Qed.

Lemma land_urange2 n x y : 0 <= n -> urange n x -> urange n y -> urange n (Z.land x y).
Proof. intros Hn Hx [Hy _]. by apply land_urange. Qed.

Lemma lor_urange n x y : 0 <= n -> urange n x -> urange n y -> urange n (Z.lor x y).
Proof.
  intros Hn Hx Hy. apply urange_bits; [done| |].
  - apply Z.lor_nonneg; unfold urange in *; lia.
  - intros i Hi. by rewrite Z.lor_spec, (urange_testbit n x), (urange_testbit n y).
Qed.

Lemma lxor_urange n x y : 0 <= n -> urange n x -> urange n y -> urange n (Z.lxor x y).
Proof.
  intros Hn Hx Hy. apply urange_bits; [done| |].
  - apply Z.lxor_nonneg; unfold urange in *; lia.
  - intros i Hi. by rewrite Z.lxor_spec, (urange_testbit n x), (urange_testbit n y).
Qed.

Lemma shiftr_urange n x s : 0 <= n -> 0 <= s -> urange n x -> urange n (Z.shiftr x s).
Proof.
  intros Hn Hs Hx. apply urange_bits; [done| |].
  - apply Z.shiftr_nonneg. apply Hx.
  - intros i Hi. rewrite Z.shiftr_spec by lia. apply (urange_testbit n); auto. lia.
Qed.

Lemma shl_range n x s : 0 <= n -> urange n (shl n x s).
Proof. intros. by apply wrap_range. Qed.

Lemma lnot_w_range n x : 0 <= n -> urange n (lnot_w n x).
Proof. intros. by apply wrap_range. Qed.

Lemma lnot_w_eq n x : urange n x -> lnot_w n x = 2 ^ n - 1 - x.
Proof.
  intros Hx. unfold lnot_w, wrap, urange in *.
  symmetry. apply (Z.mod_unique _ _ (-1)); [left; lia|].
  unfold Z.lnot. lia.
Qed.

(** The top bit decides the sign. *)
Lemma testbit_top n x :
  0 < n -> urange n x -> Z.testbit x (n - 1) = (2 ^ (n - 1) <=? x).
Proof.
  intros Hn [Hx1 Hx2]. assert (2 ^ n = 2 * 2 ^ (n - 1)) as He.
  { rewrite <- Z.pow_succ_r by lia. f_equal; lia. }
  pose proof (pow2_pos (n - 1)) as Hp.
  destruct (Z.leb_spec (2 ^ (n - 1)) x).
  - apply Z.testbit_true; [lia|].
    rewrite <- (Z.div_unique x (2 ^ (n - 1)) 1 (x - 2 ^ (n - 1))) by lia. done.
  - apply Z.testbit_false; [lia|]. by rewrite Z.div_small by lia.
Qed.

Lemma shiftr_top n x :
  0 < n -> urange n x -> Z.shiftr x (n - 1) = b2z (2 ^ (n - 1) <=? x).
Proof.
  intros Hn [Hx1 Hx2]. rewrite Z.shiftr_div_pow2 by lia.
  assert (2 ^ n = 2 * 2 ^ (n - 1)) as He.
  { rewrite <- Z.pow_succ_r by lia. f_equal; lia. }
  pose proof (pow2_pos (n - 1)) as Hp. zbool; simpl.
  - symmetry. apply (Z.div_unique _ _ _ (x - 2 ^ (n - 1))); lia.
  - by apply Z.div_small.
Qed.

Lemma testbit_sext n x j :
  0 < n -> 0 <= j ->
  Z.testbit (sext n x) j = if j <? n then Z.testbit x j else Z.testbit x (n - 1).
Proof.
  intros Hn Hj. rewrite <- sext_wrap by lia.
  assert (forall k, k < n -> Z.testbit x k = Z.testbit (wrap n x) k) as Hw.
  { intros k Hk. rewrite testbit_wrap by lia. zbool; [done|lia]. }
  rewrite (Hw (n - 1)) by lia. pose proof (wrap_range n x) as Hr.
  set (y := wrap n x) in *. rewrite testbit_top by auto with lia.
  rewrite sext_neg by auto with lia.
  destruct (Z.leb_spec (2 ^ (n - 1)) y); cbn [b2z]; rewrite ?Z.mul_1_l, ?Z.mul_0_l.
  - replace (y - 2 ^ n) with (Z.lnot (lnot_w n y)).
    2:{ rewrite lnot_w_eq by auto with lia. unfold Z.lnot; lia. }
    rewrite Z.lnot_spec by done. unfold lnot_w. rewrite testbit_wrap by lia.
    zbool; cbn [andb negb]; [|done]. rewrite Z.lnot_spec, negb_involutive by done.
    by rewrite Hw.
  - replace (y - 0) with y by lia. zbool; [by rewrite Hw|].
    apply (urange_testbit n); auto with lia.
Qed.

Lemma b2z_range b : 0 <= b2z b <= 1.
Proof. destruct b; simpl; lia. Qed.

#[export] Hint Resolve wrap_range sext_range shl_range lnot_w_range land_urange
  lor_urange lxor_urange shiftr_urange : mach.

#[export] Hint Extern 2 (_ <= _)%Z => lia : mach.
#[export] Hint Extern 2 (_ < _)%Z => lia : mach.

(** Range side conditions. *)
Ltac ranges :=
  first [done | solve [auto with mach] | solve [unfold urange, srange in *; simpl in *; lia]].

(** ** Digit sequences

    [le_radix k l] is the integer whose digits, least significant first, are
    the k-bit numbers of [l]; memory images use [k = 8], packed flag arrays
    [k = 1]. *)

Fixpoint le_radix (k : Z) (l : list Z) : Z :=
  match l with
  | [] => 0
  | d :: l' => d + 2 ^ k * le_radix k l'
  end.

Fixpoint le_split (k : Z) (n : nat) (v : Z) : list Z :=
  match n with
  | O => []
  | S n' => wrap k v :: le_split k n' (Z.shiftr v k)
  end.

(** Big-endian memory images. *)
Definition be_val (l : list Z) : Z := le_radix 8 (rev l).

Definition be_split (n : nat) (v : Z) : list Z := rev (le_split 8 n v).

Definition le_val (l : list Z) : Z := le_radix 8 l.

Lemma le_radix_range k l :
  0 <= k -> Forall (urange k) l -> urange (k * Z.of_nat (length l)) (le_radix k l).
Proof.
  intros Hk HF. induction HF as [|d l Hd HF IH]; simpl le_radix; simpl length.
  - unfold urange. rewrite Z.mul_0_r. simpl. lia.
  - unfold urange in *.
    replace (k * Z.of_nat (S (length l))) with (k + k * Z.of_nat (length l)) by lia.
    rewrite Z.pow_add_r by lia. pose proof (pow2_pos k). nia.
Qed.

(** A low digit and shifted high digits do not overlap. *)
Lemma add_shifted_lor k d x :
  0 <= k -> urange k d -> d + 2 ^ k * x = Z.lor d (Z.shiftl x k).
Proof.
  intros Hk Hd. rewrite (Z.mul_comm (2 ^ k)), <- Z.shiftl_mul_pow2 by lia.
  assert (Z.land d (Z.shiftl x k) = 0) as Hz.
  { apply Z.bits_inj'. intros j Hj.
    rewrite Z.land_spec, Z.bits_0, Z.shiftl_spec by done.
    destruct (Z.lt_ge_cases j k).
    - rewrite (Z.testbit_neg_r _ (j - k)) by lia. apply andb_false_r.
    - by rewrite (urange_testbit k d) by (done || lia). }
  by rewrite Z.add_nocarry_lxor, Z.lxor_lor.
Qed.

Lemma testbit_le_radix k l i :
  0 < k -> 0 <= i -> Forall (urange k) l ->
  Z.testbit (le_radix k l) i = Z.testbit (default 0 (l !! Z.to_nat (i / k))) (i mod k).
Proof.
  intros Hk Hi HF. revert i Hi. induction HF as [|d l Hd HF IH]; intros i Hi; simpl le_radix.
  - by rewrite lookup_nil, !Z.testbit_0_l.
  - rewrite add_shifted_lor, Z.lor_spec, Z.shiftl_spec by (done || lia).
    destruct (Z.lt_ge_cases i k).
    + rewrite Z.div_small, Z.mod_small by lia. simpl.
      rewrite (Z.testbit_neg_r _ (i - k)) by lia. apply orb_false_r.
    + rewrite (urange_testbit k d) by (done || lia). cbn [orb].
      rewrite IH by lia. assert (0 <= (i - k) / k) by (apply Z.div_pos; lia).
      replace (i / k) with ((i - k) / k + 1)
        by (rewrite <- Z.div_add by lia; f_equal; lia).
      replace (i mod k) with ((i - k) mod k)
        by (rewrite <- (Z.mod_add _ 1) by lia; f_equal; lia).
      by replace (Z.to_nat ((i - k) / k + 1)) with (S (Z.to_nat ((i - k) / k))) by lia.
Qed.

Lemma le_split_length k n v : length (le_split k n v) = n.
Proof. revert v. induction n as [|n IH]; intros v; simpl; auto. Qed.

Lemma le_split_Forall k n v : 0 <= k -> Forall (urange k) (le_split k n v).
Proof.
  intros Hk. revert v. induction n as [|n IH]; intros v; simpl; constructor; auto.
  by apply wrap_range.
Qed.

(** Combining the digits of a value gives it back, truncated. *)
Lemma le_radix_split k n v :
  0 <= k -> le_radix k (le_split k n v) = wrap (k * Z.of_nat n) v.
Proof.
  intros Hk. revert v. induction n as [|n IH]; intros v; simpl le_split; simpl le_radix.
  - rewrite Z.mul_0_r. unfold wrap. by rewrite Z.mod_1_r.
  - rewrite IH, add_shifted_lor by (done || by apply wrap_range).
    apply Z.bits_inj'. intros i Hi.
    rewrite Z.lor_spec, Z.shiftl_spec, !testbit_wrap by lia.
    destruct (Z.lt_ge_cases i k).
    + rewrite (Z.testbit_neg_r _ (i - k)) by lia. zbool; try lia.
      by rewrite andb_false_r, orb_false_r.
    + rewrite Z.shiftr_spec by lia. replace (i - k + k) with i by lia.
      zbool; simpl; lia || done.
Qed.

(** Splitting the combination of digits gives them back. *)
Lemma le_split_radix k l :
  0 <= k -> Forall (urange k) l -> le_split k (length l) (le_radix k l) = l.
Proof.
  intros Hk HF. induction HF as [|d l Hd HF IH]; simpl; [done|].
  assert (2 ^ k <> 0) by (pose proof (pow2_pos k); lia). f_equal.
  - rewrite (Z.mul_comm (2 ^ k)), wrap_add_mul by lia. by apply wrap_id.
  - rewrite Z.shiftr_div_pow2, (Z.mul_comm (2 ^ k)), Z.div_add by lia.
    rewrite Z.div_small by done. rewrite Z.add_0_l. done.
Qed.

(** The same for big-endian images. *)
Lemma be_val_split n v : be_val (be_split n v) = wrap (8 * Z.of_nat n) v.
Proof. unfold be_val, be_split. rewrite rev_involutive. by apply le_radix_split. Qed.

Lemma be_split_length n v : length (be_split n v) = n.
Proof. unfold be_split. by rewrite length_rev, le_split_length. Qed.

Lemma be_split_Forall n v : Forall (urange 8) (be_split n v).
Proof. unfold be_split. apply Forall_rev. by apply le_split_Forall. Qed.

Lemma be_split_val l : Forall (urange 8) l -> be_split (length l) (be_val l) = l.
Proof.
  intros. unfold be_split, be_val. rewrite <- (length_rev l), le_split_radix.
  - apply rev_involutive.
  - lia.
  - by apply Forall_rev.
Qed.

Lemma be_val_range l : Forall (urange 8) l -> urange (8 * Z.of_nat (length l)) (be_val l).
Proof.
  intros. unfold be_val. rewrite <- length_rev. apply le_radix_range; [lia|].
  by apply Forall_rev.
Qed.

#[export] Hint Resolve be_split_Forall le_split_Forall : mach.

(** ** Arrays of registers *)

(** Reading and writing a register array at an instruction field. *)
Definition rget (l : list Z) (i : Z) : Z := l !!! Z.to_nat i.

Definition rset (l : list Z) (i v : Z) : list Z := <[Z.to_nat i := v]> l.

Lemma rget_rset_eq l i v : (Z.to_nat i < length l)%nat -> rget (rset l i v) i = v.
Proof. intros. unfold rget, rset. by apply list_lookup_total_insert_eq. Qed.

Lemma rget_rset_ne l i j v : 0 <= i -> 0 <= j -> i <> j -> rget (rset l i v) j = rget l j.
Proof. intros. unfold rget, rset. apply list_lookup_total_insert_ne. lia. Qed.

Lemma rset_length l i v : length (rset l i v) = length l.
Proof. apply length_insert. Qed.

Lemma rget_Forall (P : Z -> Prop) l i :
  Forall P l -> (Z.to_nat i < length l)%nat -> P (rget l i).
Proof.
  intros HF Hi. unfold rget. rewrite Forall_lookup in HF. eapply HF.
  by apply list_lookup_lookup_total_lt.
Qed.

Lemma rset_Forall (P : Z -> Prop) l i v : Forall P l -> P v -> Forall P (rset l i v).
Proof. intros. by apply Forall_insert. Qed.

#[export] Hint Resolve rset_Forall : mach.
