(* ===== verification/Asm.v ===== *)
(** * Bit operations of [rx/asm.hpp]

    The rotations the scalar and vector instructions use, and the lemmas on
    masking and narrowing that reduce their counts. *)

From stdpp Require Import base numbers list tactics.
From Stdlib Require Import Lia.
From S2P Require Import Prelude.
Open Scope Z_scope.
Open Scope mach_scope.

(** [rol16], [rol32] and [rol64]. *)
Definition rol16 (x n : Z) : Z := shl 16 x (n &&& 15) ||| (x >>> ((- n) &&& 15)).

Definition rol32 (x n : Z) : Z := shl 32 x (n &&& 31) ||| (x >>> (u32 (0 - n) &&& 31)).

Definition rol64 (x n : Z) : Z := shl 64 x (n &&& 63) ||| (x >>> (u64 (0 - n) &&& 63)).

(** ** Lemmas *)

Lemma land_low k x : 0 <= k -> x &&& (2 ^ k - 1) = x mod 2 ^ k.
Proof.
  intros. replace (2 ^ k - 1) with (Z.ones k) by (rewrite Z.ones_equiv; lia).
  by apply Z.land_ones.
Qed.

Lemma land_7 x : x &&& 7 = x mod 8.
Proof. apply (land_low 3). lia. Qed.

Lemma land_15 x : x &&& 15 = x mod 16.
Proof. apply (land_low 4). lia. Qed.

Lemma land_31 x : x &&& 31 = x mod 32.
Proof. apply (land_low 5). lia. Qed.

Lemma land_63 x : x &&& 63 = x mod 64.
Proof. apply (land_low 6). lia. Qed.

Lemma land_127 x : x &&& 127 = x mod 128.
Proof. apply (land_low 7). lia. Qed.

Lemma wrap_wrap_le n m x : 0 <= n <= m -> wrap n (wrap m x) = wrap n x.
Proof.
  intros H. apply Z.bits_inj'. intros i Hi. rewrite !testbit_wrap by lia.
  zbool; simpl; lia || done.
Qed.

(** Narrowing a rotation: its left half need not be narrowed before. *)
Lemma wrap_lor_shl w x n y : 0 <= w -> wrap w (shl w x n ||| y) = wrap w (Z.shiftl x n ||| y).
Proof.
  intros Hw. apply Z.bits_inj'. intros i Hi. unfold shl. rewrite !testbit_wrap, !Z.lor_spec, testbit_wrap by done.
  destruct (i <? w); reflexivity.
Qed.
