(* ===== verification/PpuInstruction.v ===== *)
(** * PPU instruction words

    [rx/BitField.h] (the bit-field accessors) and
    [rpcsx/cpu/cell/ppu/Instruction.hpp] (the fields of a PowerPC instruction
    word).  A field is read with [BitField.extract_u] or [extract_s] and
    written with [BitField.store]; the theorems are the read-over-write laws
    every client of the accessors relies on. *)

From stdpp Require Import base numbers tactics.
From Stdlib Require Import Lia.
From S2P Require Import Prelude.
Open Scope Z_scope.
Open Scope mach_scope.

(** ** BitField.h, at datatype width [w] (bitmax), position [i], size [n] *)
Module BitField.

(** [vmask = mask1 >> (bitmax - bitsize)]. *)
Definition vmask (w n : Z) : Z := (2 ^ w - 1) >>> (w - n).

(** [data_mask()]. *)
Definition data_mask (w i n : Z) : Z := shl w (vmask w n) i.

(** [extract] of an unsigned field. *)
Definition extract_u (w i n data : Z) : Z := ((wrap w data) >>> i) &&& vmask w n.

(** [extract] of a signed field: shift the field to the top of the word as an
    unsigned value, then shift it down arithmetically. *)
Definition extract_s (w i n data : Z) : Z :=
  (sext w (shl w (wrap w data) (w - i - n))) >>> (w - n).

(** [insert]. *)
Definition insert (w i n value : Z) : Z := Z.shiftl (value &&& vmask w n) i.

(** [operator=]. *)
Definition store (w i n data value : Z) : Z :=
  wrap w ((data &&& lnot_w w (data_mask w i n)) ||| insert w i n value).

#[global] Arguments extract_u : simpl never.
#[global] Arguments extract_s : simpl never.

End BitField.

(** ** Instruction.hpp *)
Module Instruction.

(** [bf<T, I, N>] numbers bits from the most significant one: it is
    [BitField<T, 32 - N - I, N>]. *)
Definition bf_u (i n raw : Z) : Z := BitField.extract_u 32 (32 - n - i) n raw.

Definition bf_s (i n raw : Z) : Z := BitField.extract_s 32 (32 - n - i) n raw.

Definition main (raw : Z) : Z := bf_u 0 6 raw.

(** [BitFieldPack] concatenates its fields from left to right. *)
Definition sh64 (raw : Z) : Z := (Z.shiftl (bf_u 30 1 raw) 5) ||| bf_u 16 5 raw.

Definition mbe64 (raw : Z) : Z := (Z.shiftl (bf_u 26 1 raw) 5) ||| bf_u 21 5 raw.

Definition vuimm (raw : Z) : Z := bf_u 11 5 raw.

Definition vs (raw : Z) : Z := bf_u 6 5 raw.

Definition vsh (raw : Z) : Z := bf_u 22 4 raw.

Definition oe (raw : Z) : Z := bf_u 21 1 raw.

Definition spr (raw : Z) : Z := bf_u 11 10 raw.

Definition vc (raw : Z) : Z := bf_u 21 5 raw.

Definition vb (raw : Z) : Z := bf_u 16 5 raw.

Definition va (raw : Z) : Z := bf_u 11 5 raw.

Definition vd (raw : Z) : Z := bf_u 6 5 raw.

Definition lk (raw : Z) : Z := bf_u 31 1 raw.

Definition aa (raw : Z) : Z := bf_u 30 1 raw.

Definition rb (raw : Z) : Z := bf_u 16 5 raw.

Definition ra (raw : Z) : Z := bf_u 11 5 raw.

Definition rd (raw : Z) : Z := bf_u 6 5 raw.

Definition uimm16 (raw : Z) : Z := bf_u 16 16 raw.

Definition l11 (raw : Z) : Z := bf_u 11 1 raw.

Definition rs (raw : Z) : Z := bf_u 6 5 raw.

(** Signed 5-bit immediate of the vector splats. *)
Definition vsimm (raw : Z) : Z := bf_s 11 5 raw.

Definition simm16 (raw : Z) : Z := bf_s 16 16 raw.

Definition crfs (raw : Z) : Z := bf_u 11 3 raw.

Definition l10 (raw : Z) : Z := bf_u 10 1 raw.

Definition crfd (raw : Z) : Z := bf_u 6 3 raw.

Definition crbb (raw : Z) : Z := bf_u 16 5 raw.

Definition crba (raw : Z) : Z := bf_u 11 5 raw.

Definition crbd (raw : Z) : Z := bf_u 6 5 raw.

Definition rc (raw : Z) : Z := bf_u 31 1 raw.

Definition me32 (raw : Z) : Z := bf_u 26 5 raw.

Definition mb32 (raw : Z) : Z := bf_u 21 5 raw.

Definition sh32 (raw : Z) : Z := bf_u 16 5 raw.

Definition bi (raw : Z) : Z := bf_u 11 5 raw.

Definition bo (raw : Z) : Z := bf_u 6 5 raw.

Definition frb (raw : Z) : Z := bf_u 16 5 raw.

Definition frd (raw : Z) : Z := bf_u 6 5 raw.

Definition crm (raw : Z) : Z := bf_u 12 8 raw.

Definition frs (raw : Z) : Z := bf_u 6 5 raw.

(** [BitFieldPack<bf<int32_t, 16, 14>, BitFieldFixed<uint32_t, 0, 2>>]: the
    14-bit signed displacement times four. *)
Definition bt14 (raw : Z) : Z := s32 ((shl 32 (u32 (bf_s 16 14 raw)) 2) ||| 0).

Definition bt24 (raw : Z) : Z := s32 ((shl 32 (u32 (bf_s 6 24 raw)) 2) ||| 0).

End Instruction.

(** ** Laws of the accessors *)
Section BitFieldLaws.

Context (w i n : Z).
Hypothesis Hw : 0 < n /\ 0 <= i /\ i + n <= w.

Lemma vmask_ones : BitField.vmask w n = 2 ^ n - 1.
Proof.
  unfold BitField.vmask. rewrite Z.shiftr_div_pow2 by lia.
  replace (2 ^ w) with (2 ^ (w - n) * 2 ^ n).
  2:{ rewrite <- Z.pow_add_r by lia. f_equal; lia. }
  pose proof (pow2_pos (w - n)). pose proof (pow2_pos n).
  symmetry. apply (Z.div_unique _ _ _ (2 ^ (w - n) - 1)); nia.
Qed.

Lemma testbit_vmask j : 0 <= j -> Z.testbit (BitField.vmask w n) j = (j <? n).
Proof.
  intros Hj. rewrite vmask_ones.
  replace (2 ^ n - 1) with (Z.ones n) by (rewrite Z.ones_equiv; lia).
  destruct (Z.ltb_spec j n).
  - apply Z.ones_spec_low; lia.
  - apply Z.ones_spec_high; lia.
Qed.

Lemma extract_u_range d : urange n (BitField.extract_u w i n d).
Proof.
  unfold BitField.extract_u. rewrite vmask_ones.
  replace (2 ^ n - 1) with (Z.ones n) by (rewrite Z.ones_equiv; lia).
  rewrite Z.land_ones by lia. apply Z.mod_pos_bound, pow2_pos; lia.
Qed.

Lemma testbit_extract_u d j :
  0 <= j -> Z.testbit (BitField.extract_u w i n d) j = (j <? n) && Z.testbit d (j + i).
Proof.
  intros Hj. unfold BitField.extract_u.
  rewrite Z.land_spec, testbit_vmask, Z.shiftr_spec, testbit_wrap by lia.
  zbool; simpl; try lia; by rewrite ?andb_true_r, ?andb_false_r.
Qed.

Lemma testbit_insert v j :
  0 <= j -> Z.testbit (BitField.insert w i n v) j =
    (i <=? j) && (j <? i + n) && Z.testbit v (j - i).
Proof.
  intros Hj. unfold BitField.insert. rewrite Z.shiftl_spec by done.
  destruct (Z.leb_spec i j); simpl; [|by apply Z.testbit_neg_r; lia].
  rewrite Z.land_spec, testbit_vmask by lia.
  zbool; try lia; by rewrite ?andb_true_r, ?andb_false_r.
Qed.

Lemma testbit_store d v j :
  0 <= j -> Z.testbit (BitField.store w i n d v) j =
    (j <? w) && (if (i <=? j) && (j <? i + n) then Z.testbit v (j - i) else Z.testbit d j).
Proof.
  intros Hj. unfold BitField.store, BitField.data_mask, shl, lnot_w.
  rewrite testbit_wrap, Z.lor_spec, testbit_insert, Z.land_spec, testbit_wrap,
    Z.lnot_spec, testbit_wrap, Z.shiftl_spec by lia.
  destruct (Z.leb_spec i j).
  - rewrite testbit_vmask by lia.
    zbool; simpl; try lia; by rewrite ?andb_true_r, ?andb_false_r, ?orb_false_r.
  - rewrite (Z.testbit_neg_r _ (j - i)) by lia.
    zbool; simpl; try lia; by rewrite ?andb_true_r, ?andb_false_r, ?orb_false_r.
Qed.

(** The signed accessor is the sign extension of the unsigned one. *)
Lemma extract_s_sext d :
  BitField.extract_s w i n d = sext n (BitField.extract_u w i n d).
Proof.
  apply Z.bits_inj'. intros j Hj. unfold BitField.extract_s.
  rewrite Z.shiftr_spec, !testbit_sext, !testbit_extract_u by lia.
  unfold shl. rewrite !testbit_wrap, !Z.shiftl_spec, !testbit_wrap by lia.
  replace (j + (w - n) - (w - i - n)) with (j + i) by lia.
  replace (w - 1 - (w - i - n)) with (n - 1 + i) by lia.
  zbool; simpl; try lia; done.
Qed.

End BitFieldLaws.

(** Writing a field and reading it back gives the written value truncated
    to the field's width (sign-extended for a signed field), and a field that
    does not overlap the written one is unchanged. *)
Theorem bitfield_store_extract w i n i' n' d v :
  0 < n -> 0 <= i -> i + n <= w -> 0 < n' -> 0 <= i' -> i' + n' <= w ->
  i' + n' <= i \/ i + n <= i' ->
  BitField.extract_u w i n (BitField.store w i n d v) = wrap n v /\
  BitField.extract_s w i n (BitField.store w i n d v) = sext n v /\
  BitField.extract_u w i' n' (BitField.store w i n d v) = BitField.extract_u w i' n' d /\
  BitField.extract_s w i' n' (BitField.store w i n d v) = BitField.extract_s w i' n' d.
Proof.
  intros Hn Hi Hw Hn' Hi' Hw' Hdisj.
  assert (BitField.extract_u w i n (BitField.store w i n d v) = wrap n v) as H1.
  { apply Z.bits_inj'. intros j Hj.
    rewrite testbit_extract_u, testbit_store, testbit_wrap by lia.
    replace (j + i - i) with j by lia. zbool; simpl; try lia; done. }
  assert (BitField.extract_u w i' n' (BitField.store w i n d v)
          = BitField.extract_u w i' n' d) as H2.
  { apply Z.bits_inj'. intros j Hj.
    rewrite !testbit_extract_u, testbit_store by lia. zbool; simpl; try lia; done. }
  rewrite !extract_s_sext, H1, H2, sext_wrap by lia. done.
Qed.

Lemma bitfield_store_extract_witness :
  BitField.extract_u 32 21 5 (BitField.store 32 21 5 0x7c421378 37) = 5 /\
  BitField.extract_u 32 16 5 (BitField.store 32 21 5 0x7c421378 37) = 2.
Proof.
  destruct (bitfield_store_extract 32 21 5 16 5 0x7c421378 37)
    as (H1 & _ & H3 & _); try lia.
  split; [exact H1 | rewrite H3; reflexivity].
Defined.
