(* ===== verification/PpuContext.v ===== *)
(** * PPU context

    [rpcsx/cpu/cell/ppu/PPUContext.hpp]: the register file of a PPU thread,
    the unpacked condition register and its 4-byte fields, and the helpers of
    [semantic/ppu.cpp] every instruction shares.  The well-formedness
    invariant [wf_ctx] says that every register holds a value of its C++ type
    and that every byte of the unpacked CR is 0 or 1. *)

From stdpp Require Import base numbers list tactics.
From Stdlib Require Import Lia.
From S2P Require Import Prelude PpuInstruction.
Open Scope Z_scope.
Open Scope mach_scope.

(** ** CrField: four bytes lt, gt, eq, so *)
Module CrField.

Definition t := list Z.

Definition set (lt gt eq so : bool) : t := [b2z lt; b2z gt; b2z eq; b2z so].

Definition update (lhs rhs : Z) (so : bool) : t :=
  [b2z (lhs <? rhs); b2z (rhs <? lhs); b2z (lhs =? rhs); b2z so].

Definition From (lt gt eq so : bool) : t := set lt gt eq so.

End CrField.

(** ** The context *)
Record PPUContext := mkPPUContext {
  gpr : list Z;      (* uint64_t[32] *)
  fpr : list Z;      (* double[32], as its 64-bit pattern *)
  vr : list Z;       (* v128[32] *)
  cr : list Z;       (* cr_bits: uint8_t[32], also CrField[8] *)
  lr : Z;            (* uint64_t *)
  ctr : Z;           (* uint64_t *)
  vrsave : Z;        (* uint32_t *)
  cia : Z;           (* uint32_t *)
  xer_so : bool;
  xer_ov : bool;
  xer_ca : bool;
  xer_cnt : Z;       (* uint8_t *)
  nj : bool;
  sat : Z;           (* v128 *)
  jm_mask : Z        (* uint32_t *)
}.

(** The initial context of a thread. *)
Definition init_ctx : PPUContext :=
  mkPPUContext (replicate 32 0) (replicate 32 0) (replicate 32 0) (replicate 32 0)
    0 0 0xffffffff 0 false false false 0 true 0 0x7f800000.

Definition with_gpr (v : list Z) (c : PPUContext) : PPUContext :=
  mkPPUContext v (fpr c) (vr c) (cr c) (lr c) (ctr c) (vrsave c) (cia c)
    (xer_so c) (xer_ov c) (xer_ca c) (xer_cnt c) (nj c) (sat c) (jm_mask c).

Definition with_fpr (v : list Z) (c : PPUContext) : PPUContext :=
  mkPPUContext (gpr c) v (vr c) (cr c) (lr c) (ctr c) (vrsave c) (cia c)
    (xer_so c) (xer_ov c) (xer_ca c) (xer_cnt c) (nj c) (sat c) (jm_mask c).

Definition with_vr (v : list Z) (c : PPUContext) : PPUContext :=
  mkPPUContext (gpr c) (fpr c) v (cr c) (lr c) (ctr c) (vrsave c) (cia c)
    (xer_so c) (xer_ov c) (xer_ca c) (xer_cnt c) (nj c) (sat c) (jm_mask c).

Definition with_cr (v : list Z) (c : PPUContext) : PPUContext :=
  mkPPUContext (gpr c) (fpr c) (vr c) v (lr c) (ctr c) (vrsave c) (cia c)
    (xer_so c) (xer_ov c) (xer_ca c) (xer_cnt c) (nj c) (sat c) (jm_mask c).

Definition with_lr (v : Z) (c : PPUContext) : PPUContext :=
  mkPPUContext (gpr c) (fpr c) (vr c) (cr c) v (ctr c) (vrsave c) (cia c)
    (xer_so c) (xer_ov c) (xer_ca c) (xer_cnt c) (nj c) (sat c) (jm_mask c).

Definition with_ctr (v : Z) (c : PPUContext) : PPUContext :=
  mkPPUContext (gpr c) (fpr c) (vr c) (cr c) (lr c) v (vrsave c) (cia c)
    (xer_so c) (xer_ov c) (xer_ca c) (xer_cnt c) (nj c) (sat c) (jm_mask c).

Definition with_vrsave (v : Z) (c : PPUContext) : PPUContext :=
  mkPPUContext (gpr c) (fpr c) (vr c) (cr c) (lr c) (ctr c) v (cia c)
    (xer_so c) (xer_ov c) (xer_ca c) (xer_cnt c) (nj c) (sat c) (jm_mask c).

Definition with_cia (v : Z) (c : PPUContext) : PPUContext :=
  mkPPUContext (gpr c) (fpr c) (vr c) (cr c) (lr c) (ctr c) (vrsave c) v
    (xer_so c) (xer_ov c) (xer_ca c) (xer_cnt c) (nj c) (sat c) (jm_mask c).

Definition with_xer (so ov ca : bool) (cnt : Z) (c : PPUContext) : PPUContext :=
  mkPPUContext (gpr c) (fpr c) (vr c) (cr c) (lr c) (ctr c) (vrsave c) (cia c)
    so ov ca cnt (nj c) (sat c) (jm_mask c).

(** The vector status registers: [nj], [sat], [jm_mask]. *)
Definition with_vscr (nj : bool) (sat jm_mask : Z) (c : PPUContext) : PPUContext :=
  mkPPUContext (gpr c) (fpr c) (vr c) (cr c) (lr c) (ctr c) (vrsave c) (cia c)
    (xer_so c) (xer_ov c) (xer_ca c) (xer_cnt c) nj sat jm_mask.

Definition with_sat (v : Z) (c : PPUContext) : PPUContext := with_vscr (nj c) v (jm_mask c) c.

Definition with_ca (ca : bool) (c : PPUContext) : PPUContext :=
  with_xer (xer_so c) (xer_ov c) ca (xer_cnt c) c.

(** [setOV]. *)
Definition setOV (bit : bool) (c : PPUContext) : PPUContext :=
  with_xer (xer_so c || bit) bit (xer_ca c) (xer_cnt c) c.

(** [context.gpr[i]] and its assignment. *)
Definition R (c : PPUContext) (i : Z) : Z := rget (gpr c) i.

Definition setR (i v : Z) (c : PPUContext) : PPUContext := with_gpr (rset (gpr c) i v) c.

(** [context.cr.fields[k]] aliases bytes 4k .. 4k+3 of [cr.bits]. *)
Definition cr_field (c : PPUContext) (k : Z) : CrField.t :=
  take 4 (drop (Z.to_nat (4 * k)) (cr c)).

Definition set_cr_field (k : Z) (f : CrField.t) (c : PPUContext) : PPUContext :=
  with_cr (take (Z.to_nat (4 * k)) (cr c) ++ f ++ drop (Z.to_nat (4 * k + 4)) (cr c)) c.

(** [cr_bits::pack]: the bits shifted in from the most significant one, in a
    [uint32_t]. *)
Definition pack (bits : list Z) : Z :=
  fold_left (fun result bit => (shl 32 result 1) ||| bit) bits 0.

(** [cr_bits::unpack]: [n] bits of [value], most significant first. *)
Fixpoint unpack (n : nat) (value : Z) : list Z :=
  match n with
  | O => []
  | S n' => b2z (negb (value &&& 0x80000000 =? 0)) :: unpack n' (shl 32 value 1)
  end.

(** The record form of an instruction: [cr.fields[0].update<s64>(v, 0, so)]. *)
Definition update_cr0 (v : Z) (c : PPUContext) : PPUContext :=
  set_cr_field 0 (CrField.update (s64 v) 0 (xer_so c)) c.

(** [if (inst.rc) ...]. *)
Definition record_if (f : Z) (v : Z) (c : PPUContext) : PPUContext :=
  if f =? 0 then c else update_cr0 v c.

(** [if (inst.oe) context.setOV(...)]. *)
Definition overflow_if (f : Z) (ov : bool) (c : PPUContext) : PPUContext :=
  if f =? 0 then c else setOV ov c.

(** ** Well-formed contexts *)

Definition is_bit (x : Z) : Prop := x = 0 \/ x = 1.

Record wf_ctx (c : PPUContext) : Prop := {
  wf_gpr_len : length (gpr c) = 32%nat;
  wf_gpr : Forall (urange 64) (gpr c);
  wf_fpr_len : length (fpr c) = 32%nat;
  wf_fpr : Forall (urange 64) (fpr c);
  wf_vr_len : length (vr c) = 32%nat;
  wf_vr : Forall (urange 128) (vr c);
  wf_cr_len : length (cr c) = 32%nat;
  wf_cr : Forall is_bit (cr c);
  wf_lr : urange 64 (lr c);
  wf_ctr : urange 64 (ctr c);
  wf_vrsave : urange 32 (vrsave c);
  wf_cia : urange 32 (cia c);
  wf_cnt : urange 8 (xer_cnt c);
  wf_sat : urange 128 (sat c);
  wf_jm_mask : urange 32 (jm_mask c)
}.

(** ** Lemmas *)

Lemma is_bit_b2z b : is_bit (b2z b).
Proof. unfold is_bit. destruct b; auto. Qed.

Lemma CrField_set_bits lt gt eq so : Forall is_bit (CrField.set lt gt eq so).
Proof. repeat first [apply Forall_nil_2 | apply Forall_cons_2; [apply is_bit_b2z|]]. Qed.

Lemma CrField_update_bits a b so : Forall is_bit (CrField.update a b so).
Proof. repeat first [apply Forall_nil_2 | apply Forall_cons_2; [apply is_bit_b2z|]]. Qed.

Lemma R_range c i : wf_ctx c -> urange 5 i -> urange 64 (R c i).
Proof.
  intros [] Hi. apply (rget_Forall (urange 64)); [done|]. unfold urange in Hi. lia.
Qed.

Lemma R_setR_eq c i v : wf_ctx c -> urange 5 i -> R (setR i v c) i = v.
Proof.
  intros [] Hi. unfold R, setR; simpl. apply rget_rset_eq. unfold urange in Hi. lia.
Qed.

Lemma R_setR_ne c i j v : urange 5 i -> urange 5 j -> i <> j -> R (setR i v c) j = R c j.
Proof. unfold urange. intros. unfold R, setR; simpl. apply rget_rset_ne; lia. Qed.

(** The record and overflow epilogues leave the general registers alone, and
    the record epilogue leaves XER alone. *)
Lemma R_record_if f v c i : R (record_if f v c) i = R c i.
Proof. unfold record_if. by destruct (f =? 0). Qed.

Lemma R_overflow_if f v c i : R (overflow_if f v c) i = R c i.
Proof. unfold overflow_if. by destruct (f =? 0). Qed.

Lemma R_with_ca b c i : R (with_ca b c) i = R c i.
Proof. done. Qed.

Lemma xer_ov_record_if f v c : xer_ov (record_if f v c) = xer_ov c.
Proof. unfold record_if. by destruct (f =? 0). Qed.

Lemma xer_so_record_if f v c : xer_so (record_if f v c) = xer_so c.
Proof. unfold record_if. by destruct (f =? 0). Qed.

Lemma xer_ca_record_if f v c : xer_ca (record_if f v c) = xer_ca c.
Proof. unfold record_if. by destruct (f =? 0). Qed.

Lemma xer_ov_overflow_if f v c : f <> 0 -> xer_ov (overflow_if f v c) = v.
Proof. intros. unfold overflow_if. by destruct (Z.eqb_spec f 0). Qed.

#[export] Hint Rewrite R_record_if R_overflow_if R_with_ca xer_ov_record_if
  xer_so_record_if xer_ca_record_if : ppu.

(** The 5-bit register fields of an instruction are in range. *)
Lemma bf_u_5_range i raw : 0 <= i <= 27 -> urange 5 (Instruction.bf_u i 5 raw).
Proof. intros. apply extract_u_range. lia. Qed.

#[export] Hint Resolve is_bit_b2z CrField_set_bits CrField_update_bits : mach.

(** ** Preservation of well-formedness by the setters

    The hint database [wf] closes the goals [wf_ctx (...)] of the instruction
    lemmas. *)

Create HintDb wf discriminated.

Lemma init_ctx_wf : wf_ctx init_ctx.
Proof.
  constructor; try reflexivity; try (apply Forall_replicate);
    unfold urange, is_bit; simpl; lia.
Qed.

Lemma setR_wf c i v : wf_ctx c -> urange 64 v -> wf_ctx (setR i v c).
Proof.
  intros [] Hv. constructor; simpl; rewrite ?rset_length; auto with mach.
Qed.

Lemma set_cr_field_wf k f c :
  wf_ctx c -> 0 <= k < 8 -> length f = 4%nat -> Forall is_bit f ->
  wf_ctx (set_cr_field k f c).
Proof.
  intros [] Hk Hl Hf. constructor; try done; unfold set_cr_field; cbn [cr with_cr].
  - rewrite !length_app, length_take, length_drop. lia.
  - rewrite !Forall_app. split_and!; [by apply Forall_take | done | by apply Forall_drop].
Qed.

Lemma with_xer_wf so ov ca cnt c : wf_ctx c -> urange 8 cnt -> wf_ctx (with_xer so ov ca cnt c).
Proof. intros [] ?. by constructor. Qed.

Lemma with_ca_wf ca c : wf_ctx c -> wf_ctx (with_ca ca c).
Proof. intros Hc. apply with_xer_wf; [done | apply Hc]. Qed.

Lemma setOV_wf b c : wf_ctx c -> wf_ctx (setOV b c).
Proof. intros Hc. apply with_xer_wf; [done | apply Hc]. Qed.

Lemma update_cr0_wf v c : wf_ctx c -> wf_ctx (update_cr0 v c).
Proof. intros. apply set_cr_field_wf; auto with mach. Qed.

Lemma record_if_wf f v c : wf_ctx c -> wf_ctx (record_if f v c).
Proof. intros. unfold record_if. destruct (f =? 0); [done | by apply update_cr0_wf]. Qed.

Lemma overflow_if_wf f b c : wf_ctx c -> wf_ctx (overflow_if f b c).
Proof. intros. unfold overflow_if. destruct (f =? 0); [done | by apply setOV_wf]. Qed.

Lemma with_lr_wf v c : wf_ctx c -> urange 64 v -> wf_ctx (with_lr v c).
Proof. intros [] ?. by constructor. Qed.

Lemma with_ctr_wf v c : wf_ctx c -> urange 64 v -> wf_ctx (with_ctr v c).
Proof. intros [] ?. by constructor. Qed.

Lemma with_vrsave_wf v c : wf_ctx c -> urange 32 v -> wf_ctx (with_vrsave v c).
Proof. intros [] ?. by constructor. Qed.

Lemma with_cia_wf v c : wf_ctx c -> urange 32 v -> wf_ctx (with_cia v c).
Proof. intros [] ?. by constructor. Qed.

Lemma with_vscr_wf b s k c : wf_ctx c -> urange 128 s -> urange 32 k -> wf_ctx (with_vscr b s k c).
Proof. intros [] ??. by constructor. Qed.

Lemma with_sat_wf v c : wf_ctx c -> urange 128 v -> wf_ctx (with_sat v c).
Proof. intros Hc ?. apply with_vscr_wf; [done..|apply Hc]. Qed.

#[export] Hint Resolve with_vscr_wf with_sat_wf setR_wf with_ca_wf setOV_wf record_if_wf overflow_if_wf
  update_cr0_wf with_lr_wf with_ctr_wf with_vrsave_wf with_cia_wf : wf.

(** A context with two sample registers, for the witnesses. *)
Definition sample_ctx (a b : Z) : PPUContext := setR 4 a (setR 5 b init_ctx).

Lemma sample_ctx_wf a b : urange 64 a -> urange 64 b -> wf_ctx (sample_ctx a b).
Proof. intros. by do 2 (apply setR_wf; [|done]); apply init_ctx_wf. Qed.
