(* ===== verification/PpuArith.v ===== *)
(** * PPU fixed-point arithmetic

    The add, subtract, multiply, divide and negate instructions of
    [semantic/ppu.cpp], with carry, overflow and record forms.  Each
    instruction is a function of the context and the raw instruction word.
    Signed products that exceed [s64] are taken modulo [2 ^ 64]. *)

From stdpp Require Import base numbers list tactics.
From Stdlib Require Import Lia.
From S2P Require Import Prelude PpuInstruction PpuContext.
Import Instruction.
Open Scope Z_scope.
Open Scope mach_scope.

(** ** Shared helpers of the sources *)

(** [add_flags_result_t(T a, T b)]: sum and carry. *)
Definition add_flags (a b : Z) : Z * bool :=
  let result := u64 (a + b) in (result, result <? a).

(** [add_flags_result_t(T a, T b, bool c)]: two additions, carries or-ed. *)
Definition add_flags_c (a b : Z) (c : bool) : Z * bool :=
  let '(result, carry) := add_flags a b in
  let '(result', carry') := add_flags result (b2z c) in
  (result', carry || carry').

(** [umulh64] and [mulh64] of [rx/asm.hpp]. *)
Definition umulh64 (x y : Z) : Z := u64 ((x * y) >>> 64).

Definition mulh64 (x y : Z) : Z := s64 ((x * y) >>> 64).

(** The sign-comparison overflow test of the addition instructions, on the
    two addends and the stored result. *)
Definition add_overflow (a b r : Z) : bool :=
  ((a >>> 63) =? (b >>> 63)) && negb ((a >>> 63) =? (r >>> 63)).

(** ** Immediate forms *)

Definition MULLI (c : PPUContext) (inst : Z) : PPUContext :=
  setR (rd inst) (u64 (s64 (R c (ra inst)) * simm16 inst)) c.

Definition SUBFIC (c : PPUContext) (inst : Z) : PPUContext :=
  let a := R c (ra inst) in
  let i := simm16 inst in
  let '(result, carry) := add_flags_c (lnot_w 64 a) (u64 i) true in
  with_ca carry (setR (rd inst) result c).

Definition ADDIC (c : PPUContext) (inst : Z) : PPUContext :=
  let a := R c (ra inst) in
  let i := simm16 inst in
  let '(result, carry) := add_flags a (u64 i) in
  let c1 := with_ca carry (setR (rd inst) result c) in
  record_if (main inst &&& 1) result c1.

Definition ADDI (c : PPUContext) (inst : Z) : PPUContext :=
  setR (rd inst)
    (if ra inst =? 0 then u64 (simm16 inst) else u64 (R c (ra inst) + simm16 inst)) c.

Definition ADDIS (c : PPUContext) (inst : Z) : PPUContext :=
  setR (rd inst)
    (if ra inst =? 0 then u64 (s32 (simm16 inst * 65536))
     else u64 (R c (ra inst) + s32 (simm16 inst * 65536))) c.

(** ** Register forms *)

Definition ADD (c : PPUContext) (inst : Z) : PPUContext :=
  let RA := R c (ra inst) in
  let RB := R c (rb inst) in
  let c1 := setR (rd inst) (u64 (RA + RB)) c in
  let c2 := overflow_if (oe inst) (add_overflow RA RB (R c1 (rd inst))) c1 in
  record_if (rc inst) (R c2 (rd inst)) c2.

Definition ADDC (c : PPUContext) (inst : Z) : PPUContext :=
  let RA := R c (ra inst) in
  let RB := R c (rb inst) in
  let '(result, carry) := add_flags RA RB in
  let c1 := with_ca carry (setR (rd inst) result c) in
  let c2 := overflow_if (oe inst) (add_overflow RA RB (R c1 (rd inst))) c1 in
  record_if (rc inst) result c2.

Definition ADDE (c : PPUContext) (inst : Z) : PPUContext :=
  let RA := R c (ra inst) in
  let RB := R c (rb inst) in
  let '(result, carry) := add_flags_c RA RB (xer_ca c) in
  let c1 := with_ca carry (setR (rd inst) result c) in
  let c2 := overflow_if (oe inst) (add_overflow RA RB (R c1 (rd inst))) c1 in
  record_if (rc inst) result c2.

Definition ADDZE (c : PPUContext) (inst : Z) : PPUContext :=
  let RA := R c (ra inst) in
  let '(result, carry) := add_flags_c RA 0 (xer_ca c) in
  let c1 := with_ca carry (setR (rd inst) result c) in
  let c2 := overflow_if (oe inst)
              (((RA >>> 63) =? 0) && negb ((RA >>> 63) =? (result >>> 63))) c1 in
  record_if (rc inst) result c2.

Definition ADDME (c : PPUContext) (inst : Z) : PPUContext :=
  let RA := R c (ra inst) in
  let '(result, carry) := add_flags_c RA (2 ^ 64 - 1) (xer_ca c) in
  let c1 := with_ca carry (setR (rd inst) result c) in
  let c2 := overflow_if (oe inst)
              (((RA >>> 63) =? 1) && negb ((RA >>> 63) =? (result >>> 63))) c1 in
  record_if (rc inst) result c2.

Definition SUBF (c : PPUContext) (inst : Z) : PPUContext :=
  let RA := R c (ra inst) in
  let RB := R c (rb inst) in
  let c1 := setR (rd inst) (u64 (RB - RA)) c in
  let c2 := overflow_if (oe inst) (add_overflow (lnot_w 64 RA) RB (R c1 (rd inst))) c1 in
  record_if (rc inst) (R c2 (rd inst)) c2.

Definition SUBFC (c : PPUContext) (inst : Z) : PPUContext :=
  let RA := R c (ra inst) in
  let RB := R c (rb inst) in
  let '(result, carry) := add_flags_c (lnot_w 64 RA) RB true in
  let c1 := with_ca carry (setR (rd inst) result c) in
  let c2 := overflow_if (oe inst) (add_overflow (lnot_w 64 RA) RB (R c1 (rd inst))) c1 in
  record_if (rc inst) result c2.

Definition SUBFE (c : PPUContext) (inst : Z) : PPUContext :=
  let RA := R c (ra inst) in
  let RB := R c (rb inst) in
  let '(result, carry) := add_flags_c (lnot_w 64 RA) RB (xer_ca c) in
  let c1 := with_ca carry (setR (rd inst) result c) in
  let c2 := overflow_if (oe inst) (add_overflow (lnot_w 64 RA) RB (R c1 (rd inst))) c1 in
  record_if (rc inst) result c2.

Definition SUBFZE (c : PPUContext) (inst : Z) : PPUContext :=
  let RA := R c (ra inst) in
  let nRA := lnot_w 64 RA in
  let '(result, carry) := add_flags_c nRA 0 (xer_ca c) in
  let c1 := with_ca carry (setR (rd inst) result c) in
  let c2 := overflow_if (oe inst)
              (((nRA >>> 63) =? 0) && negb ((nRA >>> 63) =? (result >>> 63))) c1 in
  record_if (rc inst) result c2.

Definition SUBFME (c : PPUContext) (inst : Z) : PPUContext :=
  let RA := R c (ra inst) in
  let nRA := lnot_w 64 RA in
  let '(result, carry) := add_flags_c nRA (2 ^ 64 - 1) (xer_ca c) in
  let c1 := with_ca carry (setR (rd inst) result c) in
  let c2 := overflow_if (oe inst)
              (((nRA >>> 63) =? 1) && negb ((nRA >>> 63) =? (result >>> 63))) c1 in
  record_if (rc inst) result c2.

Definition NEG (c : PPUContext) (inst : Z) : PPUContext :=
  let RA := R c (ra inst) in
  let c1 := setR (rd inst) (u64 (0 - RA)) c in
  let c2 := overflow_if (oe inst) (RA =? 2 ^ 63) c1 in
  record_if (rc inst) (R c2 (rd inst)) c2.

(** ** Multiplication *)

Definition MULHDU (c : PPUContext) (inst : Z) : PPUContext :=
  let c1 := setR (rd inst) (umulh64 (R c (ra inst)) (R c (rb inst))) c in
  record_if (rc inst) (R c1 (rd inst)) c1.

Definition MULHWU (c : PPUContext) (inst : Z) : PPUContext :=
  let a := u32 (R c (ra inst)) in
  let b := u32 (R c (rb inst)) in
  let c1 := setR (rd inst) ((u64 (a * b)) >>> 32) c in
  record_if (rc inst) (R c1 (rd inst)) c1.

Definition MULHD (c : PPUContext) (inst : Z) : PPUContext :=
  let c1 := setR (rd inst) (u64 (mulh64 (s64 (R c (ra inst))) (s64 (R c (rb inst))))) c in
  record_if (rc inst) (R c1 (rd inst)) c1.

Definition MULHW (c : PPUContext) (inst : Z) : PPUContext :=
  let a := s32 (R c (ra inst)) in
  let b := s32 (R c (rb inst)) in
  let c1 := setR (rd inst) (u64 ((a * b) >>> 32)) c in
  record_if (rc inst) (R c1 (rd inst)) c1.

Definition MULLD (c : PPUContext) (inst : Z) : PPUContext :=
  let RA := s64 (R c (ra inst)) in
  let RB := s64 (R c (rb inst)) in
  let c1 := setR (rd inst) (u64 (RA * RB)) c in
  let high := mulh64 RA RB in
  let c2 := overflow_if (oe inst)
              (negb (high =? (s64 (R c1 (rd inst))) >>> 63)) c1 in
  record_if (rc inst) (R c2 (rd inst)) c2.

Definition MULLW (c : PPUContext) (inst : Z) : PPUContext :=
  let c1 := setR (rd inst) (u64 (s32 (R c (ra inst)) * s32 (R c (rb inst)))) c in
  let c2 := overflow_if (oe inst)
              ((s64 (R c1 (rd inst)) <? - 2 ^ 31) || (2 ^ 31 - 1 <? s64 (R c1 (rd inst)))) c1 in
  record_if (rc inst) (R c2 (rd inst)) c2.

(** ** Division *)

Definition DIVDU (c : PPUContext) (inst : Z) : PPUContext :=
  let RA := R c (ra inst) in
  let RB := R c (rb inst) in
  let c1 := setR (rd inst) (if RB =? 0 then 0 else RA / RB) c in
  let c2 := overflow_if (oe inst) (RB =? 0) c1 in
  record_if (rc inst) (R c2 (rd inst)) c2.

Definition DIVWU (c : PPUContext) (inst : Z) : PPUContext :=
  let RA := u32 (R c (ra inst)) in
  let RB := u32 (R c (rb inst)) in
  let c1 := setR (rd inst) (if RB =? 0 then 0 else RA / RB) c in
  let c2 := overflow_if (oe inst) (RB =? 0) c1 in
  record_if (rc inst) (R c2 (rd inst)) c2.

Definition DIVD (c : PPUContext) (inst : Z) : PPUContext :=
  let RA := s64 (R c (ra inst)) in
  let RB := s64 (R c (rb inst)) in
  let o := (RB =? 0) || ((RA =? - 2 ^ 63) && (RB =? -1)) in
  let c1 := setR (rd inst) (if o then 0 else u64 (Z.quot RA RB)) c in
  let c2 := overflow_if (oe inst) o c1 in
  record_if (rc inst) (R c2 (rd inst)) c2.

Definition DIVW (c : PPUContext) (inst : Z) : PPUContext :=
  let RA := s32 (R c (ra inst)) in
  let RB := s32 (R c (rb inst)) in
  let o := (RB =? 0) || ((RA =? - 2 ^ 31) && (RB =? -1)) in
  let c1 := setR (rd inst) (if o then 0 else u32 (Z.quot RA RB)) c in
  let c2 := overflow_if (oe inst) o c1 in
  record_if (rc inst) (R c2 (rd inst)) c2.

(** ** Reference semantics

    The architecture describes every instruction of the add and subtract
    family as one addition [x + y + cin] of 64-bit values. *)
Definition isa_add (set_ca : bool) (oe rc d x y : Z) (cin : bool) (c : PPUContext)
    : PPUContext :=
  let sum := x + y + b2z cin in
  let r := sum mod 2 ^ 64 in
  let ssum := s64 x + s64 y + b2z cin in
  let c1 := setR d r c in
  let c2 := if set_ca then with_ca (2 ^ 64 <=? sum) c1 else c1 in
  let c3 := if oe =? 0 then c2
            else setOV (negb ((- 2 ^ 63 <=? ssum) && (ssum <? 2 ^ 63))) c2 in
  if rc =? 0 then c3 else update_cr0 r c3.

(** ** Lemmas *)

Lemma add_flags_spec a b :
  urange 64 a -> urange 64 b -> add_flags a b = (u64 (a + b), 2 ^ 64 <=? a + b).
Proof.
  unfold urange. intros Ha Hb. unfold add_flags. f_equal.
  rewrite wrap_once by lia. zbool; lia.
Qed.

Lemma add_flags_c_spec a b cin :
  urange 64 a -> urange 64 b ->
  add_flags_c a b cin = (u64 (a + b + b2z cin), 2 ^ 64 <=? a + b + b2z cin).
Proof.
  intros Ha Hb. unfold add_flags_c. rewrite add_flags_spec by done.
  pose proof (b2z_range cin) as Hc.
  rewrite add_flags_spec by ranges.
  rewrite wrap_add_l by lia. f_equal. unfold urange in *.
  rewrite (wrap_once 64 (a + b)) by lia. zbool; simpl; lia.
Qed.

Lemma add_overflow_spec a b cin :
  urange 64 a -> urange 64 b ->
  add_overflow a b (u64 (a + b + b2z cin)) =
    negb ((- 2 ^ 63 <=? s64 a + s64 b + b2z cin) && (s64 a + s64 b + b2z cin <? 2 ^ 63)).
Proof.
  intros Ha Hb. pose proof (wrap_range 64 (a + b + b2z cin)) as Hr.
  pose proof (b2z_range cin) as Hc.
  unfold add_overflow. change 63 with (64 - 1) at 1 2 3 4.
  rewrite !shiftr_top, !sext_neg by ranges.
  unfold urange in *. clear Hr. rewrite wrap_once by lia.
  change (2 ^ (64 - 1)) with (2 ^ 63).
  zbool; cbn [b2z negb andb] in *; try done; exfalso; lia.
Qed.

Section AddFamily.

Context (c : PPUContext) (d x y : Z).
Hypothesis Hwf : wf_ctx c.
Hypothesis Hd : urange 5 d.
Hypothesis Hx : urange 64 x.
Hypothesis Hy : urange 64 y.

(** The carrying instructions: sum and carry from [add_flags_c]. *)
Lemma isa_add_carrying oe rc cin :
  (let '(result, carry) := add_flags_c x y cin in
   let c1 := with_ca carry (setR d result c) in
   record_if rc result (overflow_if oe (add_overflow x y result) c1))
  = isa_add true oe rc d x y cin c.
Proof.
  rewrite add_flags_c_spec by done. cbv zeta. rewrite add_overflow_spec by done.
  unfold isa_add, record_if, overflow_if. done.
Qed.

(** The same when the overflow test rereads the destination register. *)
Lemma isa_add_carrying_reread oe rc cin :
  (let '(result, carry) := add_flags_c x y cin in
   let c1 := with_ca carry (setR d result c) in
   record_if rc result (overflow_if oe (add_overflow x y (R c1 d)) c1))
  = isa_add true oe rc d x y cin c.
Proof.
  rewrite <- isa_add_carrying. destruct (add_flags_c x y cin) as [r ca]. cbv zeta.
  change (R (with_ca ca (setR d r c)) d) with (R (setR d r c) d).
  by rewrite R_setR_eq.
Qed.

(** The carry-less instructions store the wrapped sum and reread it. *)
Lemma isa_add_plain oe rc r cin :
  r = u64 (x + y + b2z cin) ->
  (let c1 := setR d r c in
   let c2 := overflow_if oe (add_overflow x y (R c1 d)) c1 in
   record_if rc (R c2 d) c2)
  = isa_add false oe rc d x y cin c.
Proof.
  intros ->. pose proof (R_setR_eq c d (u64 (x + y + b2z cin)) Hwf Hd) as HR.
  cbv zeta. rewrite HR, add_overflow_spec by done.
  unfold isa_add, record_if, overflow_if.
  destruct (oe =? 0); destruct (rc =? 0); first [done | f_equal; exact HR].
Qed.

End AddFamily.

Lemma add_flags_no_carry a b :
  urange 64 a -> urange 64 b -> add_flags a b = add_flags_c a b false.
Proof.
  intros. rewrite add_flags_c_spec, add_flags_spec by done. simpl. by rewrite Z.add_0_r.
Qed.

Lemma neg_overflow a :
  urange 64 a ->
  (a =? 2 ^ 63) = add_overflow (lnot_w 64 a) 0 (u64 (0 - a)).
Proof.
  intros Ha. assert (urange 64 (lnot_w 64 a)) as Hn by ranges.
  replace (u64 (0 - a)) with (u64 (lnot_w 64 a + 0 + b2z true)).
  - rewrite add_overflow_spec, !sext_neg, lnot_w_eq by ranges.
    change (2 ^ (64 - 1)) with (2 ^ 63). unfold urange in *.
    zbool; cbn [b2z negb andb] in *; try done; exfalso; lia.
  - rewrite lnot_w_eq by done.
    replace (2 ^ 64 - 1 - a + 0 + b2z true) with (0 - a + 1 * 2 ^ 64) by (cbn [b2z]; lia).
    apply wrap_add_mul; lia.
Qed.

Lemma reg_ranges c inst :
  wf_ctx c ->
  urange 64 (R c (ra inst)) /\ urange 64 (R c (rb inst)) /\ urange 5 (rd inst) /\
  urange 64 (lnot_w 64 (R c (ra inst))).
Proof.
  intros Hwf. repeat split; try (apply R_range; [done|]); try apply bf_u_5_range; try lia;
  apply lnot_w_range; lia.
Qed.

(** C11: the thirteen add and subtract instructions implement the
    architecture's single addition: the result modulo 2^64, the carry out of
    bit 0, the signed overflow with its sticky copy in SO, and CR0 comparing
    the signed result with zero. *)
Theorem add_family_refines c inst :
  wf_ctx c ->
  let RA := R c (ra inst) in
  let RB := R c (rb inst) in
  let nRA := lnot_w 64 RA in
  let SI := u64 (simm16 inst) in
  let CA := xer_ca c in
  let full x y cin := isa_add true (oe inst) (rc inst) (rd inst) x y cin c in
  let plain x y cin := isa_add false (oe inst) (rc inst) (rd inst) x y cin c in
  ADD c inst = plain RA RB false /\
  SUBF c inst = plain nRA RB true /\
  NEG c inst = plain nRA 0 true /\
  ADDC c inst = full RA RB false /\
  SUBFC c inst = full nRA RB true /\
  ADDE c inst = full RA RB CA /\
  SUBFE c inst = full nRA RB CA /\
  ADDZE c inst = full RA 0 CA /\
  SUBFZE c inst = full nRA 0 CA /\
  ADDME c inst = full RA (2 ^ 64 - 1) CA /\
  SUBFME c inst = full nRA (2 ^ 64 - 1) CA /\
  ADDIC c inst = isa_add true 0 (main inst &&& 1) (rd inst) RA SI false c /\
  SUBFIC c inst = isa_add true 0 0 (rd inst) nRA SI true c.
Proof.
  intros Hwf. cbv zeta. destruct (reg_ranges c inst Hwf) as (Ha & Hb & Hd & Hn).
  assert (urange 64 (u64 (simm16 inst))) as Hi by ranges.
  assert (urange 64 0 /\ urange 64 (2 ^ 64 - 1)) as [H0 H1] by (unfold urange; lia).
  repeat match goal with |- _ /\ _ => split end.
  - apply (isa_add_plain c _ _ _ Hwf Hd Ha Hb). by rewrite Z.add_0_r.
  - apply (isa_add_plain c _ _ _ Hwf Hd Hn Hb).
    rewrite lnot_w_eq by done.
    rewrite <- (wrap_add_mul 64 (R c (rb inst) - R c (ra inst)) 1) by lia. f_equal. cbn [b2z]. lia.
  - rewrite <- (isa_add_plain c _ _ _ Hwf Hd Hn H0 _ _ (u64 (0 - R c (ra inst)))).
    + unfold NEG. rewrite (neg_overflow _ Ha), R_setR_eq by done. done.
    + rewrite lnot_w_eq by done.
      rewrite <- (wrap_add_mul 64 (0 - R c (ra inst)) 1) by lia. f_equal. cbn [b2z]. lia.
  - unfold ADDC. rewrite add_flags_no_carry by done.
    apply (isa_add_carrying_reread c _ _ _ Hwf Hd Ha Hb).
  - apply (isa_add_carrying_reread c _ _ _ Hwf Hd Hn Hb).
  - apply (isa_add_carrying_reread c _ _ _ Hwf Hd Ha Hb).
  - apply (isa_add_carrying_reread c _ _ _ Hwf Hd Hn Hb).
  - apply (isa_add_carrying c _ _ _ Ha H0).
  - apply (isa_add_carrying c _ _ _ Hn H0).
  - apply (isa_add_carrying c _ _ _ Ha H1).
  - apply (isa_add_carrying c _ _ _ Hn H1).
  - unfold ADDIC. rewrite add_flags_no_carry by done.
    rewrite <- (isa_add_carrying c (rd inst) _ _ Ha Hi 0 _ false).
    by destruct add_flags_c.
  - unfold SUBFIC. pose proof (isa_add_carrying c (rd inst) _ _ Hn Hi 0 0 true) as E.
    rewrite <- E. by destruct add_flags_c.
Qed.

(** [addo. r3, r4, r5] on the largest positive value and one. *)
Lemma add_family_refines_witness :
  let c := sample_ctx (2 ^ 63 - 1) 1 in
  let c' := ADD c 0x7c642e15 in
  wf_ctx c /\ R c' 3 = 2 ^ 63 /\ xer_ov c' = true /\ xer_so c' = true /\
  cr_field c' 0 = [1; 0; 0; 1].
Proof.
  cbv zeta. assert (wf_ctx (sample_ctx (2 ^ 63 - 1) 1)) as Hwf
    by (apply sample_ctx_wf; unfold urange; lia).
  destruct (add_family_refines _ 0x7c642e15 Hwf) as (-> & _).
  split; [exact Hwf | vm_compute; repeat split].
Defined.

(** ** Multiplication and division *)

Lemma mulh64_spec x y :
  srange 64 x -> srange 64 y -> mulh64 x y = (x * y) / 2 ^ 64.
Proof.
  unfold srange. intros Hx Hy. unfold mulh64. rewrite Z.shiftr_div_pow2 by lia.
  apply sext_id; [lia|]. unfold srange.
  assert (- 2 ^ 126 <= x * y <= 2 ^ 126) by nia.
  split; [apply Z.div_le_lower_bound | apply Z.div_lt_upper_bound]; lia.
Qed.

(** The sign of the low doubleword, replicated, is the high doubleword
    exactly when the product fits. *)
Lemma mul_fits p h :
  h = p / 2 ^ 64 -> (h =? s64 (u64 p) / 2 ^ 63) = ((- 2 ^ 63 <=? p) && (p <? 2 ^ 63)).
Proof.
  intros ->. rewrite sext_wrap by lia.
  destruct (sext_eq 64 p) as [q Hq]; [lia|].
  pose proof (sext_range 64 p) as Hr. unfold srange in Hr.
  set (y := s64 p) in *. clearbody y.
  assert (p / 2 ^ 64 = q + y / 2 ^ 64) as ->.
  { replace p with (q * 2 ^ 64 + y) by lia. apply Z.div_add_l. lia. }
  change (64 - 1) with 63 in Hr.
  assert (y / 2 ^ 63 = y / 2 ^ 64) as ->.
  { destruct (Z.le_gt_cases 0 y).
    - by rewrite !Z.div_small by lia.
    - rewrite <- (Z.div_unique y (2 ^ 63) (-1) (y + 2 ^ 63)) by lia.
      by rewrite <- (Z.div_unique y (2 ^ 64) (-1) (y + 2 ^ 64)) by lia. }
  zbool; simpl; try lia; done.
Qed.

(** The multiplication instructions: MULLD and MULHD (MULHDU) give the
    low and the high doubleword of the exact signed (unsigned) product,
    MULLW the exact product of the low words and MULHW (MULHWU) its high
    word; with OE set, MULLD and MULLW report overflow exactly when the
    product does not fit 64 respectively 32 signed bits. *)
Theorem mul_family_spec c inst :
  wf_ctx c ->
  let a := R c (ra inst) in
  let b := R c (rb inst) in
  let d := rd inst in
  R (MULLD c inst) d = (s64 a * s64 b) mod 2 ^ 64 /\
  R (MULHD c inst) d = ((s64 a * s64 b) / 2 ^ 64) mod 2 ^ 64 /\
  R (MULHDU c inst) d = (a * b) / 2 ^ 64 /\
  R (MULLW c inst) d = (s32 a * s32 b) mod 2 ^ 64 /\
  R (MULHW c inst) d = ((s32 a * s32 b) / 2 ^ 32) mod 2 ^ 64 /\
  R (MULHWU c inst) d = (u32 a * u32 b) / 2 ^ 32 /\
  (oe inst <> 0 ->
   xer_ov (MULLD c inst) = negb ((- 2 ^ 63 <=? s64 a * s64 b) && (s64 a * s64 b <? 2 ^ 63)) /\
   xer_ov (MULLW c inst) = negb ((- 2 ^ 31 <=? s32 a * s32 b) && (s32 a * s32 b <? 2 ^ 31))).
Proof.
  intros Hwf. cbv zeta. destruct (reg_ranges c inst Hwf) as (Ha & Hb & Hd & _).
  pose proof (sext_range 64 (R c (ra inst)) eq_refl) as Hsa.
  pose proof (sext_range 64 (R c (rb inst)) eq_refl) as Hsb.
  pose proof (sext_range 32 (R c (ra inst)) eq_refl) as Hwa.
  pose proof (sext_range 32 (R c (rb inst)) eq_refl) as Hwb.
  pose proof (wrap_range 32 (R c (ra inst))) as Hua.
  pose proof (wrap_range 32 (R c (rb inst))) as Hub.
  unfold MULLD, MULHD, MULHDU, MULLW, MULHW, MULHWU, umulh64.
  autorewrite with ppu. rewrite !R_setR_eq by done.
  rewrite mulh64_spec, !Z.shiftr_div_pow2 by (done || lia).
  unfold srange, urange in *. repeat split.
  - apply wrap_id. split; [apply Z.div_pos | apply Z.div_lt_upper_bound]; nia.
  - f_equal. apply wrap_id. unfold urange; nia.
  - rewrite xer_ov_overflow_if by done. f_equal.
    by apply mul_fits.
  - rewrite xer_ov_overflow_if by done. rewrite !sext_wrap, sext_id by (unfold srange; nia).
    zbool; simpl; lia || done.
Qed.

(** [mulldo r3, r4, r5] on a product that does not fit. *)
Lemma mul_family_spec_witness :
  let c := sample_ctx (2 ^ 62) 2 in
  wf_ctx c /\ oe 0x7c642dd2 <> 0 /\ xer_ov (MULLD c 0x7c642dd2) = true.
Proof.
  cbv zeta. assert (wf_ctx (sample_ctx (2 ^ 62) 2)) as Hwf
    by (apply sample_ctx_wf; unfold urange; lia).
  destruct (mul_family_spec _ 0x7c642dd2 Hwf) as (_ & _ & _ & _ & _ & _ & H).
  destruct H as [H _]; [done|]. split; [exact Hwf|]. split; [done|].
  rewrite H. reflexivity.
Defined.

(** The division instructions never divide by zero nor overflow: DIVD
    and DIVW truncate toward zero, DIVDU and DIVWU divide unsigned, the
    undefined cases (zero divisor, most negative value by minus one) give
    zero, and with OE set they are exactly the cases that set OV. *)
Theorem div_family_spec c inst :
  wf_ctx c ->
  let a := R c (ra inst) in
  let b := R c (rb inst) in
  let d := rd inst in
  (s64 b <> 0 -> ~ (s64 a = - 2 ^ 63 /\ s64 b = -1) ->
     s64 (R (DIVD c inst) d) = Z.quot (s64 a) (s64 b)) /\
  (s32 b <> 0 -> ~ (s32 a = - 2 ^ 31 /\ s32 b = -1) ->
     s32 (R (DIVW c inst) d) = Z.quot (s32 a) (s32 b)) /\
  (b <> 0 -> R (DIVDU c inst) d = a / b) /\
  (u32 b <> 0 -> R (DIVWU c inst) d = u32 a / u32 b) /\
  (oe inst <> 0 ->
     (xer_ov (DIVD c inst) = true <-> s64 b = 0 \/ (s64 a = - 2 ^ 63 /\ s64 b = -1)) /\
     (xer_ov (DIVW c inst) = true <-> s32 b = 0 \/ (s32 a = - 2 ^ 31 /\ s32 b = -1)) /\
     (xer_ov (DIVDU c inst) = true <-> b = 0) /\
     (xer_ov (DIVWU c inst) = true <-> u32 b = 0)) /\
  (s64 b = 0 -> R (DIVD c inst) d = 0) /\ (b = 0 -> R (DIVDU c inst) d = 0).
Proof.
  intros Hwf. cbv zeta. destruct (reg_ranges c inst Hwf) as (Ha & Hb & Hd & _).
  unfold DIVD, DIVW, DIVDU, DIVWU. autorewrite with ppu. rewrite !R_setR_eq by done.
  pose proof (sext_range 64 (R c (ra inst)) eq_refl) as Hsa.
  pose proof (sext_range 32 (R c (ra inst)) eq_refl) as Hwa.
  repeat match goal with |- _ /\ _ => split end.
  - intros H0 Ho. destruct (Z.eqb_spec (s64 (R c (rb inst))) 0); [done|].
    cbn [orb]. rewrite (proj2 (andb_false_iff _ _)) by (zbool; tauto).
    rewrite sext_wrap by lia. apply sext_id; [lia|]. by apply quot_srange.
  - intros H0 Ho. destruct (Z.eqb_spec (s32 (R c (rb inst))) 0); [done|].
    cbn [orb]. rewrite (proj2 (andb_false_iff _ _)) by (zbool; tauto).
    rewrite sext_wrap by lia. apply sext_id; [lia|]. by apply quot_srange.
  - intros. by destruct (Z.eqb_spec (R c (rb inst)) 0).
  - intros. by destruct (Z.eqb_spec (u32 (R c (rb inst))) 0).
  - intros Hoe. rewrite !xer_ov_overflow_if by done.
    rewrite !orb_true_iff, !andb_true_iff, !Z.eqb_eq. done.
  - intros ->. done.
  - intros ->. done.
Qed.

(** [divdo r3, r4, r5]: the overflowing quotient, and an ordinary one. *)
Lemma div_family_spec_witness :
  let c := sample_ctx (2 ^ 63) (2 ^ 64 - 1) in
  let c' := sample_ctx (2 ^ 64 - 7) 2 in
  wf_ctx c /\ wf_ctx c' /\ xer_ov (DIVD c 0x7c642fd2) = true /\
  s64 (R (DIVD c' 0x7c642fd2) 3) = -3.
Proof.
  cbv zeta.
  assert (wf_ctx (sample_ctx (2 ^ 63) (2 ^ 64 - 1))) as Hwf
    by (apply sample_ctx_wf; unfold urange; lia).
  assert (wf_ctx (sample_ctx (2 ^ 64 - 7) 2)) as Hwf'
    by (apply sample_ctx_wf; unfold urange; lia).
  destruct (div_family_spec _ 0x7c642fd2 Hwf) as (_ & _ & _ & _ & H & _).
  destruct (div_family_spec _ 0x7c642fd2 Hwf') as (H' & _).
  split; [exact Hwf|]. split; [exact Hwf'|]. split.
  - apply H; [done|]. right. split; reflexivity.
  - apply H'; [done|]. intros [E _]. discriminate E.
Defined.
