(* ===== verification/PpuLogic.v ===== *)
(** * PPU logical, rotate and shift instructions

    The logical immediates and register forms, the rotate-and-mask family
    with [ppu_rotate_mask], the shifts and the count-leading-zeros and
    sign-extension instructions of [semantic/ppu.cpp]. *)

From stdpp Require Import base numbers list tactics.
From Stdlib Require Import Lia.
From S2P Require Import Prelude Asm PpuInstruction PpuContext PpuArith.
Import Instruction.
Open Scope Z_scope.
Open Scope mach_scope.

(** ** Helpers of the sources *)

(** [ppu_rotate_mask(u32 mb, u32 me)]. *)
Definition ppu_rotate_mask (mb me : Z) : Z :=
  let mask := shl 64 (2 ^ 64 - 1) (lnot_w 32 (u32 (me - mb)) &&& 63) in
  (mask >>> (mb &&& 63)) ||| shl 64 mask (u32 (64 - mb) &&& 63).

Definition dup32 (x : Z) : Z := x ||| shl 64 x 32.

(** [std::countl_zero] at width [w]. *)
Definition countl_zero (w x : Z) : Z := if x =? 0 then w else w - 1 - Z.log2 x.

(** ** Logical immediates *)

Definition ORI (c : PPUContext) (inst : Z) : PPUContext :=
  setR (ra inst) (R c (rs inst) ||| uimm16 inst) c.

Definition ORIS (c : PPUContext) (inst : Z) : PPUContext :=
  setR (ra inst) (R c (rs inst) ||| shl 64 (uimm16 inst) 16) c.

Definition XORI (c : PPUContext) (inst : Z) : PPUContext :=
  setR (ra inst) (R c (rs inst) ^^^ uimm16 inst) c.

Definition XORIS (c : PPUContext) (inst : Z) : PPUContext :=
  setR (ra inst) (R c (rs inst) ^^^ shl 64 (uimm16 inst) 16) c.

Definition ANDI (c : PPUContext) (inst : Z) : PPUContext :=
  let c1 := setR (ra inst) (R c (rs inst) &&& uimm16 inst) c in
  update_cr0 (R c1 (ra inst)) c1.

Definition ANDIS (c : PPUContext) (inst : Z) : PPUContext :=
  let c1 := setR (ra inst) (R c (rs inst) &&& shl 64 (uimm16 inst) 16) c in
  update_cr0 (R c1 (ra inst)) c1.

(** ** Register forms: store, then the record form rereads [ra] *)
Definition logic_op (v : Z) (c : PPUContext) (inst : Z) : PPUContext :=
  let c1 := setR (ra inst) v c in record_if (rc inst) (R c1 (ra inst)) c1.

Definition AND (c : PPUContext) (inst : Z) : PPUContext :=
  logic_op (R c (rs inst) &&& R c (rb inst)) c inst.

Definition ANDC (c : PPUContext) (inst : Z) : PPUContext :=
  logic_op (R c (rs inst) &&& lnot_w 64 (R c (rb inst))) c inst.

Definition OR (c : PPUContext) (inst : Z) : PPUContext :=
  logic_op (R c (rs inst) ||| R c (rb inst)) c inst.

Definition ORC (c : PPUContext) (inst : Z) : PPUContext :=
  logic_op (R c (rs inst) ||| lnot_w 64 (R c (rb inst))) c inst.

Definition XOR (c : PPUContext) (inst : Z) : PPUContext :=
  logic_op (R c (rs inst) ^^^ R c (rb inst)) c inst.

Definition NAND (c : PPUContext) (inst : Z) : PPUContext :=
  logic_op (lnot_w 64 (R c (rs inst) &&& R c (rb inst))) c inst.

Definition NOR (c : PPUContext) (inst : Z) : PPUContext :=
  logic_op (lnot_w 64 (R c (rs inst) ||| R c (rb inst))) c inst.

Definition EQV (c : PPUContext) (inst : Z) : PPUContext :=
  logic_op (lnot_w 64 (R c (rs inst) ^^^ R c (rb inst))) c inst.

Definition EXTSB (c : PPUContext) (inst : Z) : PPUContext :=
  logic_op (u64 (s8 (R c (rs inst)))) c inst.

Definition EXTSH (c : PPUContext) (inst : Z) : PPUContext :=
  logic_op (u64 (s16 (R c (rs inst)))) c inst.

Definition EXTSW (c : PPUContext) (inst : Z) : PPUContext :=
  logic_op (u64 (s32 (R c (rs inst)))) c inst.

Definition CNTLZW (c : PPUContext) (inst : Z) : PPUContext :=
  logic_op (countl_zero 32 (u32 (R c (rs inst)))) c inst.

Definition CNTLZD (c : PPUContext) (inst : Z) : PPUContext :=
  logic_op (countl_zero 64 (R c (rs inst))) c inst.

(** ** Rotates *)

Definition RLWIMI (c : PPUContext) (inst : Z) : PPUContext :=
  let mask := ppu_rotate_mask (32 + mb32 inst) (32 + me32 inst) in
  logic_op ((R c (ra inst) &&& lnot_w 64 mask)
            ||| (dup32 (rol32 (u32 (R c (rs inst))) (sh32 inst)) &&& mask)) c inst.

Definition RLWINM (c : PPUContext) (inst : Z) : PPUContext :=
  logic_op (dup32 (rol32 (u32 (R c (rs inst))) (sh32 inst))
            &&& ppu_rotate_mask (32 + mb32 inst) (32 + me32 inst)) c inst.

Definition RLWNM (c : PPUContext) (inst : Z) : PPUContext :=
  logic_op (dup32 (rol32 (u32 (R c (rs inst))) (u32 (R c (rb inst) &&& 0x1f)))
            &&& ppu_rotate_mask (32 + mb32 inst) (32 + me32 inst)) c inst.

Definition RLDICL (c : PPUContext) (inst : Z) : PPUContext :=
  logic_op (rol64 (R c (rs inst)) (sh64 inst) &&& ((2 ^ 64 - 1) >>> mbe64 inst)) c inst.

Definition RLDICR (c : PPUContext) (inst : Z) : PPUContext :=
  logic_op (rol64 (R c (rs inst)) (sh64 inst)
            &&& shl 64 (2 ^ 64 - 1) (mbe64 inst ^^^ 63)) c inst.

Definition RLDIC (c : PPUContext) (inst : Z) : PPUContext :=
  logic_op (rol64 (R c (rs inst)) (sh64 inst)
            &&& ppu_rotate_mask (mbe64 inst) (sh64 inst ^^^ 63)) c inst.

Definition RLDIMI (c : PPUContext) (inst : Z) : PPUContext :=
  let mask := ppu_rotate_mask (mbe64 inst) (sh64 inst ^^^ 63) in
  logic_op ((R c (ra inst) &&& lnot_w 64 mask)
            ||| (rol64 (R c (rs inst)) (sh64 inst) &&& mask)) c inst.

Definition RLDCL (c : PPUContext) (inst : Z) : PPUContext :=
  logic_op (rol64 (R c (rs inst)) (R c (rb inst) &&& 0x3f)
            &&& ((2 ^ 64 - 1) >>> mbe64 inst)) c inst.

Definition RLDCR (c : PPUContext) (inst : Z) : PPUContext :=
  logic_op (rol64 (R c (rs inst)) (R c (rb inst) &&& 0x3f)
            &&& shl 64 (2 ^ 64 - 1) (mbe64 inst ^^^ 63)) c inst.

(** ** Shifts *)

Definition SLW (c : PPUContext) (inst : Z) : PPUContext :=
  logic_op (u32 (shl 64 (R c (rs inst)) (R c (rb inst) &&& 0x3f))) c inst.

Definition SRW (c : PPUContext) (inst : Z) : PPUContext :=
  logic_op ((R c (rs inst) &&& 0xffffffff) >>> (R c (rb inst) &&& 0x3f)) c inst.

Definition SLD (c : PPUContext) (inst : Z) : PPUContext :=
  let n := u32 (R c (rb inst) &&& 0x7f) in
  logic_op (if n &&& 0x40 =? 0 then shl 64 (R c (rs inst)) n else 0) c inst.

Definition SRD (c : PPUContext) (inst : Z) : PPUContext :=
  let n := u32 (R c (rb inst) &&& 0x7f) in
  logic_op (if n &&& 0x40 =? 0 then (R c (rs inst)) >>> n else 0) c inst.

(** The algebraic right shifts also set CA; [with_ca] precedes the record
    form, as in the sources. *)
Definition sra_op (v : Z) (ca : bool) (c : PPUContext) (inst : Z) : PPUContext :=
  let c1 := with_ca ca (setR (ra inst) v c) in
  record_if (rc inst) (R c1 (ra inst)) c1.

Definition SRAW (c : PPUContext) (inst : Z) : PPUContext :=
  let RS := s32 (R c (rs inst)) in
  let shift := u8 (R c (rb inst) &&& 63) in
  if 31 <? shift then
    sra_op (u64 (0 - b2z (RS <? 0))) (RS <? 0) c inst
  else
    let r := u64 (RS >>> shift) in
    sra_op r ((RS <? 0) && negb (shl 64 r shift =? u64 RS)) c inst.

Definition SRAD (c : PPUContext) (inst : Z) : PPUContext :=
  let RS := s64 (R c (rs inst)) in
  let shift := u8 (R c (rb inst) &&& 127) in
  if 63 <? shift then
    sra_op (u64 (0 - b2z (RS <? 0))) (RS <? 0) c inst
  else
    let r := u64 (RS >>> shift) in
    sra_op r ((RS <? 0) && negb (shl 64 r shift =? u64 RS)) c inst.

Definition SRAWI (c : PPUContext) (inst : Z) : PPUContext :=
  let RS := s32 (u32 (R c (rs inst))) in
  let r := u64 (RS >>> sh32 inst) in
  sra_op r ((RS <? 0) && negb (u32 (shl 64 r (sh32 inst)) =? u32 RS)) c inst.

Definition SRADI (c : PPUContext) (inst : Z) : PPUContext :=
  let sh := sh64 inst in
  let RS := s64 (R c (rs inst)) in
  let r := u64 (RS >>> sh) in
  sra_op r ((RS <? 0) && negb (shl 64 r sh =? u64 RS)) c inst.

(** ** Reference semantics of the rotates

    Bits are numbered from the least significant one, [p = 63 - i] is the
    architecture's number of bit [i]. *)

(** MASK(mb, me): the bits from [mb] to [me], cyclically. *)
Definition MASK (mb me i : Z) : bool :=
  let p := 63 - i in
  if mb <=? me then (mb <=? p) && (p <=? me) else (mb <=? p) || (p <=? me).

(** Bit [i] of ROTL64(x, n) and of ROTL32(x, n), which replicates the rotated
    word. *)
Definition ROTL64 (x n i : Z) : bool := Z.testbit x ((i - n) mod 64).

Definition ROTL32 (x n i : Z) : bool := Z.testbit x ((i - n) mod 32).

(** ** Lemmas *)

(** The two halves of a rotation. *)
Lemma testbit_rotate w x s i :
  0 < w -> urange w x -> 0 <= s < w -> 0 <= i < w ->
  Z.testbit (shl w x s ||| (x >>> ((- s) mod w))) i = Z.testbit x ((i - s) mod w).
Proof.
  intros Hw Hx Hs Hi. unfold shl.
  assert (0 <= (- s) mod w < w) by (apply Z.mod_pos_bound; lia).
  rewrite Z.lor_spec, testbit_wrap, Z.shiftl_spec, Z.shiftr_spec by lia.
  destruct (Z.ltb_spec i w); [|lia]. cbn [andb].
  destruct (decide (s = 0)) as [->|Hs0].
  { rewrite Z.mod_0_l, Z.sub_0_r, Z.add_0_r by lia.
    rewrite Z.mod_small by lia. apply orb_diag. }
  rewrite <- (Z.mod_unique (- s) w (-1) (w - s)) by lia.
  destruct (Z.le_gt_cases s i).
  - rewrite (urange_testbit w x (i + (w - s))) by (done || lia).
    by rewrite Z.mod_small, orb_false_r by lia.
  - rewrite (Z.testbit_neg_r x (i - s)) by lia. cbn [orb].
    rewrite <- (Z.mod_unique (i - s) w (-1) (i + (w - s))) by lia. done.
Qed.

Lemma testbit_rol64 x n i :
  urange 64 x -> 0 <= n -> 0 <= i < 64 -> Z.testbit (rol64 x n) i = ROTL64 x n i.
Proof.
  intros Hx Hn Hi. unfold rol64, ROTL64. rewrite !land_63.
  replace (u64 (0 - n) mod 64) with ((- (n mod 64)) mod 64).
  - rewrite testbit_rotate by (done || lia || (apply Z.mod_pos_bound; lia)).
    f_equal. by rewrite Zminus_mod_idemp_r.
  - destruct (wrap_eq 64 (0 - n)) as [q ->]; [lia|].
    replace (0 - n - q * 2 ^ 64) with (- n + - (q * 2 ^ 58) * 64) by lia.
    rewrite Z.mod_add by lia. rewrite <- (Z.sub_0_l (n mod 64)).
    by rewrite Zminus_mod_idemp_r, Z.sub_0_l.
Qed.

Lemma testbit_rol32 x n i :
  urange 32 x -> 0 <= n -> 0 <= i < 32 -> Z.testbit (rol32 x n) i = ROTL32 x n i.
Proof.
  intros Hx Hn Hi. unfold rol32, ROTL32. rewrite !land_31.
  replace (u32 (0 - n) mod 32) with ((- (n mod 32)) mod 32).
  - rewrite testbit_rotate by (done || lia || (apply Z.mod_pos_bound; lia)).
    f_equal. by rewrite Zminus_mod_idemp_r.
  - destruct (wrap_eq 32 (0 - n)) as [q ->]; [lia|].
    replace (0 - n - q * 2 ^ 32) with (- n + - (q * 2 ^ 27) * 32) by lia.
    rewrite Z.mod_add by lia. rewrite <- (Z.sub_0_l (n mod 32)).
    by rewrite Zminus_mod_idemp_r, Z.sub_0_l.
Qed.

Lemma rol_range w x a b :
  0 <= w -> 0 <= b -> urange w x -> urange w (shl w x a ||| (x >>> b)).
Proof. intros. apply lor_urange; ranges. Qed.

(** Replicating a rotated word: bit [i] of either half. *)
Lemma testbit_dup_rol32 x n i :
  0 <= n -> 0 <= i < 64 ->
  Z.testbit (dup32 (rol32 (u32 x) n)) i = ROTL32 x n i.
Proof.
  intros Hn Hi. assert (urange 32 (u32 x)) as Hx by ranges.
  assert (urange 32 (rol32 (u32 x) n)) as Hr.
  { apply rol_range; try done; try lia. rewrite land_31. apply Z.mod_pos_bound; lia. }
  assert (forall j, Z.testbit (u32 x) (j mod 32) = Z.testbit x (j mod 32)) as Hlow.
  { intros j. assert (0 <= j mod 32 < 32) by (apply Z.mod_pos_bound; lia).
    rewrite testbit_wrap by lia. by zbool; [|lia]. }
  unfold dup32, shl. rewrite Z.lor_spec, testbit_wrap, Z.shiftl_spec by lia.
  destruct (Z.ltb_spec i 64); [|lia]. cbn [andb].
  destruct (Z.le_gt_cases 32 i).
  - rewrite (urange_testbit 32 (rol32 (u32 x) n) i) by (done || lia). cbn [orb].
    rewrite testbit_rol32 by (done || lia). unfold ROTL32. rewrite Hlow. f_equal.
    replace (i - n) with (i - 32 - n + 1 * 32) by lia. by rewrite Z.mod_add by lia.
  - rewrite (Z.testbit_neg_r _ (i - 32)) by lia. rewrite orb_false_r.
    rewrite testbit_rol32 by (done || lia). unfold ROTL32. by rewrite Hlow.
Qed.

Lemma testbit_all_ones j : 0 <= j -> Z.testbit (2 ^ 64 - 1) j = (j <? 64).
Proof.
  intros. change (2 ^ 64 - 1) with (Z.ones 64).
  destruct (Z.ltb_spec j 64); [apply Z.ones_spec_low | apply Z.ones_spec_high]; lia.
Qed.

Lemma testbit_ones_shl s j :
  0 <= s -> 0 <= j -> Z.testbit (shl 64 (2 ^ 64 - 1) s) j = (s <=? j) && (j <? 64).
Proof.
  intros. unfold shl. rewrite testbit_wrap, Z.shiftl_spec by lia.
  destruct (Z.leb_spec s j).
  - rewrite testbit_all_ones by lia. zbool; simpl; lia || done.
  - rewrite Z.testbit_neg_r by lia. by rewrite andb_false_r.
Qed.

Lemma mask_shift mb me :
  0 <= mb < 64 -> 0 <= me < 64 ->
  lnot_w 32 (u32 (me - mb)) &&& 63 = if mb <=? me then 63 - (me - mb) else mb - me - 1.
Proof.
  intros Hmb Hme. rewrite land_63, lnot_w_eq by ranges.
  destruct (wrap_eq 32 (me - mb)) as [q ->]; [lia|].
  zbool.
  - symmetry. apply (Z.mod_unique _ _ (2 ^ 26 - 1 + q * 2 ^ 26)); lia.
  - symmetry. apply (Z.mod_unique _ _ (2 ^ 26 + q * 2 ^ 26)); lia.
Qed.

(** [ppu_rotate_mask] is the architecture's cyclic mask. *)
Lemma ppu_rotate_mask_spec mb me i :
  0 <= mb < 64 -> 0 <= me < 64 -> 0 <= i < 64 ->
  Z.testbit (ppu_rotate_mask mb me) i = MASK mb me i /\ urange 64 (ppu_rotate_mask mb me).
Proof.
  intros Hmb Hme Hi. unfold ppu_rotate_mask. rewrite mask_shift by done.
  rewrite !land_63, (Z.mod_small mb) by lia.
  rewrite (wrap_id 32 (64 - mb)) by (unfold urange; lia).
  assert (0 <= (64 - mb) mod 64) by (apply Z.mod_pos_bound; lia).
  split.
  - unfold shl at 2. rewrite Z.lor_spec, Z.shiftr_spec, testbit_wrap, Z.shiftl_spec by lia.
    assert ((64 - mb) mod 64 = if mb =? 0 then 0 else 64 - mb) as ->.
    { zbool; [by subst|]. apply Z.mod_small; lia. }
    assert (forall s j, 0 <= s -> j < 0 -> Z.testbit (shl 64 (2 ^ 64 - 1) s) j = false)
      as Hneg by (intros; by apply Z.testbit_neg_r).
    unfold MASK.
    destruct (Z.eqb_spec mb 0) as [->|];
      [rewrite !testbit_ones_shl by (zbool; lia); zbool; simpl; lia || done|].
    destruct (Z.le_gt_cases 0 (i - (64 - mb))).
    + rewrite !testbit_ones_shl by (zbool; lia). zbool; simpl; lia || done.
    + rewrite (Hneg _ (i - (64 - mb))) by (zbool; lia).
      rewrite testbit_ones_shl by (zbool; lia). zbool; simpl; lia || done.
  - apply lor_urange; ranges.
Qed.

Lemma ppu_rotate_mask_range mb me : urange 64 (ppu_rotate_mask mb me).
Proof.
  apply lor_urange; [lia | | ranges]. apply shiftr_urange; [lia | | ranges].
  rewrite land_63. apply Z.mod_pos_bound; lia.
Qed.

(** Field ranges the family relies on. *)
Lemma field6_range hi lo :
  urange 1 hi -> urange 5 lo -> urange 6 (Z.shiftl hi 5 ||| lo).
Proof.
  intros Hh Hl. apply lor_urange; [lia| |by apply (urange_mono 5); [lia|]].
  rewrite Z.shiftl_mul_pow2 by lia. unfold urange in *. lia.
Qed.

Lemma rotate_fields inst :
  urange 5 (mb32 inst) /\ urange 5 (me32 inst) /\ urange 5 (sh32 inst) /\
  urange 6 (sh64 inst) /\ urange 6 (mbe64 inst).
Proof.
  repeat match goal with |- _ /\ _ => split end;
    try (apply bf_u_5_range; lia);
    apply field6_range; try (apply bf_u_5_range; lia); apply extract_u_range; lia.
Qed.

Lemma lxor_63 x : urange 6 x -> x ^^^ 63 = 63 - x.
Proof.
  intros Hx. pose proof (lnot_w_eq 6 x Hx) as E.
  replace (x ^^^ 63) with (lnot_w 6 x); [rewrite E; lia|].
  apply Z.bits_inj'. intros j Hj. unfold lnot_w.
  rewrite testbit_wrap, Z.lnot_spec, Z.lxor_spec by lia.
  change 63 with (Z.ones 6). destruct (Z.ltb_spec j 6).
  - rewrite Z.ones_spec_low by lia. by destruct (Z.testbit x j).
  - rewrite Z.ones_spec_high by lia. rewrite (urange_testbit 6 x) by (done || lia). done.
Qed.

Lemma R_logic_op c inst v : wf_ctx c -> R (logic_op v c inst) (ra inst) = v.
Proof.
  intros. unfold logic_op. rewrite R_record_if. apply R_setR_eq; [done|].
  apply bf_u_5_range; lia.
Qed.

(** Selecting by a mask. *)
Lemma testbit_blend a b m i :
  0 <= i < 64 ->
  Z.testbit ((a &&& lnot_w 64 m) ||| (b &&& m)) i =
    if Z.testbit m i then Z.testbit b i else Z.testbit a i.
Proof.
  intros Hi. unfold lnot_w.
  rewrite Z.lor_spec, !Z.land_spec, testbit_wrap, Z.lnot_spec by lia.
  destruct (Z.ltb_spec i 64); [|lia].
  by destruct (Z.testbit m i), (Z.testbit a i), (Z.testbit b i).
Qed.

(** C33: bit by bit, the nine rotate instructions are the architecture's
    rotate-then-mask (or rotate-then-insert) with the cyclic mask MASK(mb,
    me): word forms rotate the replicated low word, doubleword forms the
    whole register, and the immediate and register rotate counts are reduced
    modulo the rotated width. *)
Theorem rotate_family_spec c inst i :
  wf_ctx c -> 0 <= i < 64 ->
  let S := R c (rs inst) in
  let A := R c (ra inst) in
  let B := R c (rb inst) in
  let bit f := Z.testbit (R (f c inst) (ra inst)) i in
  let w := MASK (32 + mb32 inst) (32 + me32 inst) i in
  let ins := MASK (mbe64 inst) (63 - sh64 inst) i in
  bit RLWINM = ROTL32 S (sh32 inst) i && w /\
  bit RLWNM = ROTL32 S B i && w /\
  bit RLWIMI = (if w then ROTL32 S (sh32 inst) i else Z.testbit A i) /\
  bit RLDICL = ROTL64 S (sh64 inst) i && MASK (mbe64 inst) 63 i /\
  bit RLDICR = ROTL64 S (sh64 inst) i && MASK 0 (mbe64 inst) i /\
  bit RLDIC = ROTL64 S (sh64 inst) i && ins /\
  bit RLDIMI = (if ins then ROTL64 S (sh64 inst) i else Z.testbit A i) /\
  bit RLDCL = ROTL64 S B i && MASK (mbe64 inst) 63 i /\
  bit RLDCR = ROTL64 S B i && MASK 0 (mbe64 inst) i.
Proof.
  intros Hwf Hi. cbv zeta.
  destruct (rotate_fields inst) as (Hmb & Hme & Hsh & H6 & Hm6).
  assert (urange 64 (R c (rs inst))) as HS by (apply R_range, bf_u_5_range; [done|lia]).
  assert (urange 64 (R c (rb inst))) as HB by (apply R_range, bf_u_5_range; [done|lia]).
  unfold RLWINM, RLWNM, RLWIMI, RLDICL, RLDICR, RLDIC, RLDIMI, RLDCL, RLDCR.
  rewrite !R_logic_op, !lxor_63 by done.
  rewrite !testbit_blend, !Z.land_spec by done.
  unfold urange in *.
  assert (0 <= R c (rb inst) &&& 31 /\ 0 <= R c (rb inst) &&& 63) as [HB31 HB63]
    by (rewrite land_31, land_63; split; apply Z.mod_pos_bound; lia).
  destruct (ppu_rotate_mask_spec (32 + mb32 inst) (32 + me32 inst) i) as [-> _]; [lia..|].
  destruct (ppu_rotate_mask_spec (mbe64 inst) (63 - sh64 inst) i) as [-> _]; [lia..|].
  rewrite !testbit_dup_rol32, !testbit_rol64 by (done || lia || (apply wrap_range; lia)).
  rewrite testbit_ones_shl, Z.shiftr_spec, testbit_all_ones by lia.
  assert (MASK (mbe64 inst) 63 i = (i + mbe64 inst <? 64)) as ->
    by (unfold MASK; zbool; simpl; lia || done).
  assert (MASK 0 (mbe64 inst) i = (63 - mbe64 inst <=? i) && (i <? 64)) as ->
    by (unfold MASK; zbool; simpl; lia || done).
  assert (ROTL64 (R c (rs inst)) (R c (rb inst) &&& 63) i
          = ROTL64 (R c (rs inst)) (R c (rb inst)) i) as ->
    by (unfold ROTL64; by rewrite land_63, Zminus_mod_idemp_r).
  assert (ROTL32 (R c (rs inst)) (u32 (R c (rb inst) &&& 31)) i
          = ROTL32 (R c (rs inst)) (R c (rb inst)) i) as ->.
  { unfold ROTL32. rewrite land_31, wrap_id, Zminus_mod_idemp_r; [done|].
    pose proof (Z.mod_pos_bound (R c (rb inst)) 32). unfold urange; lia. }
  repeat split.
Qed.

(** [rlwinm r3, r4, 8, 24, 31] (extract the top byte). *)
Lemma rotate_family_spec_witness :
  let c := sample_ctx 0xab000000 0 in
  let inst := 0x5483463e in
  wf_ctx c /\ R (RLWINM c inst) 3 = 0xab /\
  Z.testbit (R (RLWINM c inst) (ra inst)) 7 = true.
Proof.
  cbv zeta. assert (wf_ctx (sample_ctx 0xab000000 0)) as Hwf
    by (apply sample_ctx_wf; unfold urange; lia).
  destruct (rotate_family_spec _ 0x5483463e 7 Hwf) as (H & _); [lia|].
  split; [exact Hwf|]. split; [reflexivity|]. etransitivity; [exact H|]. reflexivity.
Defined.

(** ** Shifts and bit counts *)

(** Shifting a signed value down and up again at width [w] loses exactly the
    low bits: the comparison the carry of the algebraic shifts is built on. *)
Lemma shift_back w v n :
  0 <= n < w -> w <= 64 -> (wrap w (shl 64 (u64 (v >>> n)) n) =? wrap w v) = (v mod 2 ^ n =? 0).
Proof.
  intros Hn Hw. unfold shl. rewrite wrap_wrap_le by lia.
  rewrite Z.shiftr_div_pow2, Z.shiftl_mul_pow2 by lia.
  replace (wrap w (u64 (v / 2 ^ n) * 2 ^ n)) with (wrap w (v - v mod 2 ^ n)).
  2:{ rewrite <- (wrap_wrap_le w 64 (u64 (v / 2 ^ n) * 2 ^ n)) by lia.
      rewrite wrap_mul_l, wrap_wrap_le by lia. f_equal.
      assert (2 ^ n <> 0) as Hz by (pose proof (pow2_pos n); lia).
      pose proof (Z.div_mod v (2 ^ n) Hz). lia. }
  pose proof (Z.mod_pos_bound v (2 ^ n)) as Hm. pose proof (pow2_pos n) as Hp.
  assert (2 ^ n < 2 ^ w) by (apply Z.pow_lt_mono_r; lia).
  destruct (Z.eqb_spec (v mod 2 ^ n) 0) as [->|Hne].
  - rewrite Z.sub_0_r. apply Z.eqb_refl.
  - apply Z.eqb_neq. intros E.
    destruct (wrap_eq w (v - v mod 2 ^ n)) as [q1 E1]; [lia|].
    destruct (wrap_eq w v) as [q2 E2]; [lia|].
    assert (v mod 2 ^ n = (q2 - q1) * 2 ^ w) as Em by lia.
    specialize (Hm (Hp ltac:(lia))). set (k := q2 - q1) in *. set (P := 2 ^ w) in *.
    assert (k <= 0 \/ 1 <= k) as [|] by lia; nia.
Qed.

(** Past the sign bit an algebraic shift leaves only the sign. *)
Lemma sra_far w v n :
  0 < w <= n -> srange w v ->
  v / 2 ^ n = 0 - b2z (v <? 0) /\ (v <? 0) = (v <? 0) && negb (v mod 2 ^ n =? 0).
Proof.
  unfold srange. intros Hw Hv. assert (2 ^ (w - 1) < 2 ^ n) by (apply Z.pow_lt_mono_r; lia).
  destruct (Z.ltb_spec v 0); cbn [b2z andb].
  - rewrite <- (Z.div_unique v (2 ^ n) (-1) (v + 2 ^ n)) by lia.
    rewrite <- (Z.mod_unique v (2 ^ n) (-1) (v + 2 ^ n)) by lia.
    split; [done|]. zbool; lia || done.
  - by rewrite Z.div_small by lia.
Qed.

Lemma R_sra_op c inst v ca :
  wf_ctx c -> R (sra_op v ca c inst) (ra inst) = v /\ xer_ca (sra_op v ca c inst) = ca.
Proof.
  intros. unfold sra_op. autorewrite with ppu. split; [|done].
  apply R_setR_eq; [done|]. apply bf_u_5_range; lia.
Qed.

Lemma land_bit6 n : 0 <= n < 128 -> (n &&& 64 =? 0) = (n <? 64).
Proof.
  intros Hn. assert (n &&& 64 = if Z.testbit n 6 then 64 else 0) as ->.
  { apply Z.bits_inj'. intros i Hi. rewrite Z.land_spec.
    change 64 with (2 ^ 6). rewrite Z.pow2_bits_eqb by lia.
    destruct (Z.eqb_spec 6 i) as [<-|].
    - rewrite andb_true_r. by destruct (Z.testbit n 6).
    - rewrite andb_false_r. destruct (Z.testbit n 6).
      + rewrite Z.pow2_bits_eqb by lia. by zbool; [lia|].
      + by rewrite Z.bits_0. }
  change 6 with (7 - 1). rewrite testbit_top by (lia || (unfold urange; lia)).
  change (2 ^ (7 - 1)) with 64. zbool; lia || done.
Qed.

Lemma shl_far w x n : 0 <= w <= n -> wrap w (x * 2 ^ n) = 0.
Proof.
  intros. replace (2 ^ n) with (2 ^ (n - w) * 2 ^ w).
  - rewrite Z.mul_assoc. unfold wrap. apply Z.mod_mul. pose proof (pow2_pos w). lia.
  - rewrite <- Z.pow_add_r by lia. f_equal; lia.
Qed.

Lemma shr_far w x n : 0 <= w <= n -> urange w x -> x / 2 ^ n = 0.
Proof.
  intros Hw [??]. apply Z.div_small. assert (2 ^ w <= 2 ^ n); [|lia].
  apply Z.pow_le_mono_r; lia.
Qed.

(** The sign-propagating shift of either width, as the sources test it. *)
Lemma sra_cases w v n c inst :
  0 < w <= 64 -> srange w v -> 0 <= n -> wf_ctx c ->
  let res := if w - 1 <? n then sra_op (u64 (0 - b2z (v <? 0))) (v <? 0) c inst
             else sra_op (u64 (v >>> n))
                    ((v <? 0) && negb (shl 64 (u64 (v >>> n)) n =? u64 v)) c inst in
  R res (ra inst) = u64 (v / 2 ^ n) /\
  xer_ca res = (v <? 0) && negb (v mod 2 ^ n =? 0).
Proof.
  intros Hw Hv Hn Hwf. destruct (Z.ltb_spec (w - 1) n); cbv zeta.
  - destruct (sra_far w v n) as [-> <-]; [lia|done|]. by apply R_sra_op.
  - destruct (R_sra_op c inst (u64 (v >>> n))
      ((v <? 0) && negb (shl 64 (u64 (v >>> n)) n =? u64 v)) Hwf) as [-> ->].
    rewrite Z.shiftr_div_pow2 by lia. split; [done|].
    rewrite <- (shift_back 64) by lia. unfold shl. rewrite wrap_wrap by lia.
    by rewrite Z.shiftr_div_pow2 by lia.
Qed.

(** The count operands the sources compute. *)
Lemma shift_counts b :
  urange 64 b ->
  b &&& 0x3f = b mod 64 /\ u8 (b &&& 127) = b mod 128 /\
  u32 (b &&& 0x7f) = b mod 128 /\ u8 (b &&& 63) = b mod 64 /\
  0 <= b mod 64 < 64 /\ 0 <= b mod 128 < 128.
Proof.
  intros Hb. rewrite land_63, land_127.
  pose proof (Z.mod_pos_bound b 64 eq_refl). pose proof (Z.mod_pos_bound b 128 eq_refl).
  rewrite !wrap_id by (unfold urange; lia). done.
Qed.

Lemma countl_zero_spec w x :
  0 < w -> urange w x ->
  (x = 0 -> countl_zero w x = w) /\
  (x <> 0 -> 2 ^ (w - 1 - countl_zero w x) <= x < 2 ^ (w - countl_zero w x)).
Proof.
  intros Hw [Hx Hx']. unfold countl_zero. zbool; split; intros; try done.
  pose proof (Z.log2_spec x). replace (w - 1 - (w - 1 - Z.log2 x)) with (Z.log2 x) by lia.
  replace (w - (w - 1 - Z.log2 x)) with (Z.succ (Z.log2 x)) by lia. apply Z.log2_spec. lia.
Qed.

(** The immediate word shift compares the low words. *)
Lemma srawi_cases v n c inst :
  0 <= n < 32 -> wf_ctx c ->
  let res := sra_op (u64 (v >>> n))
               ((v <? 0) && negb (u32 (shl 64 (u64 (v >>> n)) n) =? u32 v)) c inst in
  R res (ra inst) = u64 (v / 2 ^ n) /\
  xer_ca res = (v <? 0) && negb (v mod 2 ^ n =? 0).
Proof.
  intros Hn Hwf. cbv zeta. rewrite shift_back by lia.
  rewrite <- Z.shiftr_div_pow2 by lia. by apply R_sra_op.
Qed.

(** The shifts and bit counts: SLW, SRW, SLD and SRD multiply or divide
    by the power of two and drop what leaves the operand's width, for counts
    up to 63 respectively 127; SRAW, SRAWI, SRAD and SRADI divide the signed
    operand rounding toward minus infinity and set CA exactly when a negative
    operand loses a one bit; CNTLZW and CNTLZD give the exact number of
    leading zeros. *)
Theorem shift_family_spec c inst :
  wf_ctx c ->
  let S := R c (rs inst) in
  let n6 := R c (rb inst) mod 64 in
  let n7 := R c (rb inst) mod 128 in
  let out f := R (f c inst) (ra inst) in
  let sra f v n := out f = u64 (v / 2 ^ n) /\
                   xer_ca (f c inst) = (v <? 0) && negb (v mod 2 ^ n =? 0) in
  let lz w f x := (x = 0 -> out f = w) /\
                  (x <> 0 -> 2 ^ (w - 1 - out f) <= x < 2 ^ (w - out f)) in
  out SLW = (S * 2 ^ n6) mod 2 ^ 32 /\
  out SRW = (S mod 2 ^ 32) / 2 ^ n6 /\
  out SLD = (S * 2 ^ n7) mod 2 ^ 64 /\
  out SRD = S / 2 ^ n7 /\
  sra SRAW (s32 S) n6 /\ sra SRAWI (s32 S) (sh32 inst) /\
  sra SRAD (s64 S) n7 /\ sra SRADI (s64 S) (sh64 inst) /\
  lz 32 CNTLZW (u32 S) /\ lz 64 CNTLZD S.
Proof.
  intros Hwf. cbv zeta.
  destruct (rotate_fields inst) as (_ & _ & Hsh & H6 & _).
  assert (urange 64 (R c (rs inst))) as HS by (apply R_range, bf_u_5_range; [done|lia]).
  assert (urange 64 (R c (rb inst))) as HB by (apply R_range, bf_u_5_range; [done|lia]).
  destruct (shift_counts _ HB) as (E6 & E7 & E8 & E9 & H6b & H7b).
  pose proof (sra_cases 32 (s32 (R c (rs inst))) (R c (rb inst) mod 64) c inst) as Hsraw.
  pose proof (sra_cases 64 (s64 (R c (rs inst))) (R c (rb inst) mod 128) c inst) as Hsrad.
  pose proof (sra_cases 64 (s64 (R c (rs inst))) (sh64 inst) c inst) as Hsradi.
  pose proof (srawi_cases (s32 (R c (rs inst))) (sh32 inst) c inst) as Hsrawi.
  cbv zeta in Hsraw, Hsrad, Hsradi, Hsrawi. unfold urange in Hsh, H6.
  specialize (Hsraw ltac:(lia) ltac:(ranges) ltac:(lia) Hwf).
  specialize (Hsrad ltac:(lia) ltac:(ranges) ltac:(lia) Hwf).
  specialize (Hsradi ltac:(lia) ltac:(ranges) ltac:(lia) Hwf).
  specialize (Hsrawi ltac:(lia) Hwf).
  destruct (Z.ltb_spec (64 - 1) (sh64 inst)); [lia|].
  unfold SLW, SRW, SLD, SRD, CNTLZW, CNTLZD, SRAW, SRAD, SRAWI, SRADI.
  rewrite !R_logic_op, E7, E9, sext_wrap by (done || lia).
  split_and!.
  - rewrite E6. unfold shl. rewrite wrap_wrap_le, Z.shiftl_mul_pow2 by lia. done.
  - rewrite E6, Z.shiftr_div_pow2 by lia. f_equal. by apply (land_low 32).
  - rewrite E8, land_bit6 by done. unfold shl. destruct (Z.ltb_spec (R c (rb inst) mod 128) 64).
    + by rewrite Z.shiftl_mul_pow2 by lia.
    + by rewrite <- (shl_far 64 (R c (rs inst)) (R c (rb inst) mod 128)) by lia.
  - rewrite E8, land_bit6 by done. destruct (Z.ltb_spec (R c (rb inst) mod 128) 64).
    + by rewrite Z.shiftr_div_pow2 by lia.
    + by rewrite (shr_far 64) by (done || lia).
  - apply Hsraw.
  - apply Hsraw.
  - apply Hsrawi.
  - apply Hsrawi.
  - apply Hsrad.
  - apply Hsrad.
  - apply Hsradi.
  - apply Hsradi.
  - apply countl_zero_spec; [lia|ranges].
  - apply countl_zero_spec; [lia|ranges].
  - by apply countl_zero_spec.
  - by apply countl_zero_spec.
Qed.

(** [srawi. r3, r4, 1] on an odd negative word. *)
Lemma shift_family_spec_witness :
  let c := sample_ctx 0xfffffffd 0 in
  let inst := 0x7c830e71 in
  wf_ctx c /\ R (SRAWI c inst) 3 = 2 ^ 64 - 2 /\ xer_ca (SRAWI c inst) = true.
Proof.
  cbv zeta. assert (wf_ctx (sample_ctx 0xfffffffd 0)) as Hwf
    by (apply sample_ctx_wf; unfold urange; lia).
  destruct (shift_family_spec _ 0x7c830e71 Hwf) as (_ & _ & _ & _ & _ & (H1 & H2) & _).
  split; [exact Hwf|]. split; [etransitivity; [exact H1|]; reflexivity|].
  etransitivity; [exact H2|]. reflexivity.
Defined.
