(* ===== verification/PpuCr.v ===== *)
(** * PPU condition register, special registers and traps

    The compare and CR-logical instructions, the moves to and from CR, XER,
    LR, CTR and VRSAVE, and the trap instructions of [semantic/ppu.cpp].
    [rpcsx_trap] and [rpcsx_invalid_instruction] do not return: instructions
    that call them give an [outcome]. *)

From stdpp Require Import base numbers list tactics.
From Stdlib Require Import Lia.
From S2P Require Import Prelude Asm PpuInstruction PpuContext PpuArith PpuLogic.
Import Instruction.
Open Scope Z_scope.
Open Scope mach_scope.

(** [rpcsx_trap], [rpcsx_invalid_instruction] and
    [rpcsx_unimplemented_instruction] throw. *)
Inductive outcome :=
  | Next (c : PPUContext)
  | Trap
  | InvalidInstruction
  | UnimplementedInstruction.

(** ** Compares *)

Definition CMPLI (c : PPUContext) (inst : Z) : PPUContext :=
  if l10 inst =? 0 then
    set_cr_field (crfd inst) (CrField.update (u32 (R c (ra inst))) (uimm16 inst) (xer_so c)) c
  else
    set_cr_field (crfd inst) (CrField.update (R c (ra inst)) (uimm16 inst) (xer_so c)) c.

Definition CMPI (c : PPUContext) (inst : Z) : PPUContext :=
  if l10 inst =? 0 then
    set_cr_field (crfd inst) (CrField.update (s32 (R c (ra inst))) (simm16 inst) (xer_so c)) c
  else
    set_cr_field (crfd inst) (CrField.update (s64 (R c (ra inst))) (simm16 inst) (xer_so c)) c.

Definition CMP (c : PPUContext) (inst : Z) : PPUContext :=
  if l10 inst =? 0 then
    set_cr_field (crfd inst)
      (CrField.update (s32 (R c (ra inst))) (s32 (R c (rb inst))) (xer_so c)) c
  else
    set_cr_field (crfd inst)
      (CrField.update (s64 (R c (ra inst))) (s64 (R c (rb inst))) (xer_so c)) c.

Definition CMPL (c : PPUContext) (inst : Z) : PPUContext :=
  if l10 inst =? 0 then
    set_cr_field (crfd inst)
      (CrField.update (u32 (R c (ra inst))) (u32 (R c (rb inst))) (xer_so c)) c
  else
    set_cr_field (crfd inst)
      (CrField.update (R c (ra inst)) (R c (rb inst)) (xer_so c)) c.

(** ** CR logic: bytes combined with C's integer operators, [^ true] flips
    the low bit *)

Definition CRb (c : PPUContext) (i : Z) : Z := rget (cr c) i.

Definition setCRb (i v : Z) (c : PPUContext) : PPUContext := with_cr (rset (cr c) i v) c.

Definition CRNOR (c : PPUContext) (inst : Z) : PPUContext :=
  setCRb (crbd inst) ((CRb c (crba inst) ||| CRb c (crbb inst)) ^^^ 1) c.

Definition CRANDC (c : PPUContext) (inst : Z) : PPUContext :=
  setCRb (crbd inst) (CRb c (crba inst) &&& (CRb c (crbb inst) ^^^ 1)) c.

Definition CRXOR (c : PPUContext) (inst : Z) : PPUContext :=
  setCRb (crbd inst) (CRb c (crba inst) ^^^ CRb c (crbb inst)) c.

Definition CRNAND (c : PPUContext) (inst : Z) : PPUContext :=
  setCRb (crbd inst) ((CRb c (crba inst) &&& CRb c (crbb inst)) ^^^ 1) c.

Definition CRAND (c : PPUContext) (inst : Z) : PPUContext :=
  setCRb (crbd inst) (CRb c (crba inst) &&& CRb c (crbb inst)) c.

Definition CREQV (c : PPUContext) (inst : Z) : PPUContext :=
  setCRb (crbd inst) ((CRb c (crba inst) ^^^ CRb c (crbb inst)) ^^^ 1) c.

Definition CRORC (c : PPUContext) (inst : Z) : PPUContext :=
  setCRb (crbd inst) (CRb c (crba inst) ||| (CRb c (crbb inst) ^^^ 1)) c.

Definition CROR (c : PPUContext) (inst : Z) : PPUContext :=
  setCRb (crbd inst) (CRb c (crba inst) ||| CRb c (crbb inst)) c.

Definition MCRF (c : PPUContext) (inst : Z) : PPUContext :=
  set_cr_field (crfd inst) (cr_field c (crfs inst)) c.

(** ** Moving the condition register *)

(** The SSE2 intrinsics of the x86-64 path, on a 128-bit value:
    [_mm_slli_epi64] shifts each doubleword, [_mm_movemask_epi8] gathers the
    top bit of each byte. *)
Definition mm_slli_epi64 (v n : Z) : Z :=
  shl 64 (u64 v) n ||| Z.shiftl (shl 64 (u64 (v >>> 64)) n) 64.

Definition mm_movemask_epi8 (v : Z) : Z :=
  le_radix 1 ((fun i => b2z (Z.testbit v (8 * Z.of_nat i + 7))) <$> seq 0 16).

(** [MFCR], both branches of [#if defined(ARCH_X64)]. *)
Definition MFCR_value (ARCH_X64 : bool) (c : PPUContext) : Z :=
  if ARCH_X64 then
    let lane0 := be_val (take 16 (cr c)) in
    let lane1 := be_val (drop 16 (cr c)) in
    let mh := mm_movemask_epi8 (mm_slli_epi64 lane0 7) in
    let ml := mm_movemask_epi8 (mm_slli_epi64 lane1 7) in
    shl 32 mh 16 ||| ml
  else pack (cr c).

Definition MFCR (ARCH_X64 : bool) (c : PPUContext) (inst : Z) : PPUContext :=
  setR (rd inst) (MFCR_value ARCH_X64 c) c.

(** The field index of the one-field moves. *)
Definition crIndex (inst : Z) : Z := countl_zero 32 (crm inst) &&& 7.

Definition MFOCRF (ARCH_X64 : bool) (c : PPUContext) (inst : Z) : PPUContext :=
  if l11 inst =? 0 then MFCR ARCH_X64 c inst
  else
    let f := cr_field c (crIndex inst) in
    let v := Z.shiftl (rget f 0) 3 ||| Z.shiftl (rget f 1) 2 ||| Z.shiftl (rget f 2) 1
             ||| Z.shiftl (rget f 3) 0 in
    setR (rd inst) (shl 32 v ((crIndex inst * 4) ^^^ 0x1c)) c.

Definition s_table : list CrField.t := [
  CrField.From false false false false; CrField.From false false false true;
  CrField.From false false true false; CrField.From false false true true;
  CrField.From false true false false; CrField.From false true false true;
  CrField.From false true true false; CrField.From false true true true;
  CrField.From true false false false; CrField.From true false false true;
  CrField.From true false true false; CrField.From true false true true;
  CrField.From true true false false; CrField.From true true false true;
  CrField.From true true true false; CrField.From true true true true].

(** One iteration of the MTCRF loop, [for (u32 i = 0; i < 8; i++)]. *)
Definition mtcrf_field (s i : Z) (c : PPUContext) : PPUContext :=
  let v := (s >>> ((i * 4) ^^^ 0x1c)) &&& 0xf in
  set_cr_field i (s_table !!! Z.to_nat v) c.

Definition MTOCRF (c : PPUContext) (inst : Z) : PPUContext :=
  let s := R c (rs inst) in
  if l11 inst =? 0 then
    fold_left (fun c i =>
      if crm inst &&& (128 >>> i) =? 0 then c else mtcrf_field s i c)
      (seqZ 0 8) c
  else mtcrf_field s (crIndex inst) c.

(** ** Special purpose registers; [tb] is the value of [rpcsx_get_tb()] *)

Definition spr_number (inst : Z) : Z :=
  (spr inst >>> 5) ||| Z.shiftl (spr inst &&& 0x1f) 5.

Definition MFSPR (tb : Z) (c : PPUContext) (inst : Z) : outcome :=
  let n := spr_number inst in
  if n =? 0x001 then
    Next (setR (rd inst) (Z.shiftl (b2z (xer_so c)) 31 ||| Z.shiftl (b2z (xer_ov c)) 30
                          ||| Z.shiftl (b2z (xer_ca c)) 29 ||| xer_cnt c) c)
  else if n =? 0x008 then Next (setR (rd inst) (lr c) c)
  else if n =? 0x009 then Next (setR (rd inst) (ctr c) c)
  else if n =? 0x100 then Next (setR (rd inst) (vrsave c) c)
  else if n =? 0x10C then Next (setR (rd inst) tb c)
  else if n =? 0x10D then Next (setR (rd inst) (tb >>> 32) c)
  else InvalidInstruction.

Definition MFTB (tb : Z) (c : PPUContext) (inst : Z) : outcome :=
  let n := spr_number inst in
  if n =? 0x10C then Next (setR (rd inst) tb c)
  else if n =? 0x10D then Next (setR (rd inst) (tb >>> 32) c)
  else InvalidInstruction.

Definition MTSPR (c : PPUContext) (inst : Z) : outcome :=
  let n := spr_number inst in
  let value := R c (rs inst) in
  if n =? 0x001 then
    Next (with_xer (negb (value &&& 0x80000000 =? 0)) (negb (value &&& 0x40000000 =? 0))
                   (negb (value &&& 0x20000000 =? 0)) (value &&& 0x7f) c)
  else if n =? 0x008 then Next (with_lr value c)
  else if n =? 0x009 then Next (with_ctr value c)
  else if n =? 0x100 then Next (with_vrsave (u32 value) c)
  else InvalidInstruction.

(** ** Traps: five tests in sequence, the first that holds throws *)

Fixpoint trap_seq (tests : list bool) (c : PPUContext) : outcome :=
  match tests with
  | [] => Next c
  | t :: tests' => if t then Trap else trap_seq tests' c
  end.

Definition bit_set (x m : Z) : bool := negb (x &&& m =? 0).

Definition TDI (c : PPUContext) (inst : Z) : outcome :=
  let a := s64 (R c (ra inst)) in
  let i := s16 (simm16 inst) in
  trap_seq [bit_set (bo inst) 0x10 && (a <? i); bit_set (bo inst) 0x8 && (i <? a);
            bit_set (bo inst) 0x4 && (a =? i); bit_set (bo inst) 0x2 && (u64 a <? u64 i);
            bit_set (bo inst) 0x1 && (u64 i <? u64 a)] c.

Definition TWI (c : PPUContext) (inst : Z) : outcome :=
  let a := s32 (R c (ra inst)) in
  let i := s16 (simm16 inst) in
  trap_seq [bit_set (bo inst) 0x10 && (a <? i); bit_set (bo inst) 0x8 && (i <? a);
            bit_set (bo inst) 0x4 && (a =? i); bit_set (bo inst) 0x2 && (u32 a <? u32 i);
            bit_set (bo inst) 0x1 && (u32 i <? u32 a)] c.

Definition TW (c : PPUContext) (inst : Z) : outcome :=
  let a := s32 (R c (ra inst)) in
  let b := s32 (R c (rb inst)) in
  trap_seq [bit_set (bo inst) 0x10 && (a <? b); bit_set (bo inst) 0x8 && (b <? a);
            bit_set (bo inst) 0x4 && (a =? b); bit_set (bo inst) 0x2 && (u32 a <? u32 b);
            bit_set (bo inst) 0x1 && (u32 b <? u32 a)] c.

Definition TD (c : PPUContext) (inst : Z) : outcome :=
  let a := s64 (R c (ra inst)) in
  let b := s64 (R c (rb inst)) in
  trap_seq [bit_set (bo inst) 0x10 && (a <? b); bit_set (bo inst) 0x8 && (b <? a);
            bit_set (bo inst) 0x4 && (a =? b); bit_set (bo inst) 0x2 && (u64 a <? u64 b);
            bit_set (bo inst) 0x1 && (u64 b <? u64 a)] c.

(** ** Lemmas: reading CR bytes after an update *)

Lemma cr_length_set k f c :
  length (cr c) = 32%nat -> 0 <= k < 8 -> length f = 4%nat ->
  length (cr (set_cr_field k f c)) = 32%nat.
Proof.
  intros Hl Hk Hf. unfold set_cr_field. cbn [cr with_cr]. rewrite !length_app, length_take, length_drop. lia.
Qed.

Lemma CRb_set_cr_field k f c i :
  length (cr c) = 32%nat -> 0 <= k < 8 -> length f = 4%nat -> 0 <= i < 32 ->
  CRb (set_cr_field k f c) i = if i / 4 =? k then rget f (i mod 4) else CRb c i.
Proof.
  intros Hl Hk Hf Hi. unfold CRb, rget, set_cr_field. cbn [cr with_cr].
  pose proof (Z.div_mod i 4 ltac:(lia)) as Hdm.
  pose proof (Z.mod_pos_bound i 4 eq_refl) as Hm.
  rewrite !list_lookup_total_alt.
  destruct (Z.eqb_spec (i / 4) k) as [Hq|Hq].
  - rewrite lookup_app_r by (rewrite length_take; lia).
    rewrite length_take, lookup_app_l by lia. do 2 f_equal. lia.
  - destruct (Z.lt_ge_cases i (4 * k)).
    + rewrite lookup_app_l by (rewrite length_take; lia).
      f_equal. apply lookup_take_lt. lia.
    + rewrite !lookup_app_r; rewrite ?length_take; [|lia|lia].
      rewrite lookup_drop. do 2 f_equal. lia.
Qed.

Lemma CRb_cr_field c k m :
  length (cr c) = 32%nat -> 0 <= k < 8 -> 0 <= m < 4 ->
  rget (cr_field c k) m = CRb c (4 * k + m).
Proof.
  intros. unfold CRb, cr_field, rget. rewrite !list_lookup_total_alt. f_equal.
  rewrite lookup_take_lt, lookup_drop by lia. f_equal. lia.
Qed.

Lemma cr_field_length c k :
  length (cr c) = 32%nat -> 0 <= k < 8 -> length (cr_field c k) = 4%nat.
Proof. intros. unfold cr_field. rewrite length_take, length_drop. lia. Qed.

Lemma CRb_bit c i : wf_ctx c -> 0 <= i < 32 -> is_bit (CRb c i).
Proof. intros [] ?. apply (rget_Forall is_bit); [done|lia]. Qed.

Lemma bit_b2z x : is_bit x -> x = b2z (Z.testbit x 0).
Proof. by intros [-> | ->]. Qed.

Lemma is_bit_urange x : is_bit x <-> urange 1 x.
Proof. unfold is_bit, urange. lia. Qed.

Lemma bits_urange k l : 1 <= k -> Forall is_bit l -> Forall (urange k) (rev l).
Proof.
  intros Hk HF. apply Forall_rev. rewrite Forall_forall in *. intros x Hx.
  apply (urange_mono 1); [lia|]. by apply is_bit_urange, HF.
Qed.

(** [pack] is the binary number of the bits, most significant first. *)
Lemma pack_radix l :
  Forall is_bit l -> (length l <= 32)%nat -> pack l = le_radix 1 (rev l).
Proof.
  induction l as [|b l IH] using rev_ind; [done|].
  intros [HF Hb]%Forall_app Hlen. assert (is_bit b) by (by inversion Hb).
  rewrite length_app in Hlen. simpl in Hlen.
  unfold pack. rewrite fold_left_app. simpl. fold (pack l).
  rewrite IH by (done || lia). rewrite rev_unit. simpl le_radix.
  assert (urange (1 * Z.of_nat (length (rev l))) (le_radix 1 (rev l))) as Hr.
  { apply le_radix_range; [lia|]. by apply bits_urange. }
  rewrite length_rev in Hr. rewrite (add_shifted_lor 1) by (lia || by apply is_bit_urange).
  rewrite Z.lor_comm. f_equal. unfold shl. apply wrap_id.
  rewrite Z.shiftl_mul_pow2 by lia. unfold urange in *.
  assert (2 ^ (1 * Z.of_nat (length l)) <= 2 ^ 31) by (apply Z.pow_le_mono_r; lia). lia.
Qed.

Lemma lookup_rev_total (l : list Z) i n :
  length l = n -> (i < n)%nat -> default 0 (rev l !! i) = l !!! (n - 1 - i)%nat.
Proof.
  intros Hn Hi. rewrite rev_alt. change (rev_append l []) with (reverse l). rewrite reverse_lookup by lia.
  replace (length l - S i)%nat with (n - 1 - i)%nat by lia.
  by rewrite list_lookup_lookup_total_lt by lia.
Qed.

Lemma testbit_pack c j :
  wf_ctx c -> 0 <= j -> Z.testbit (pack (cr c)) j = (j <? 32) && Z.testbit (CRb c (31 - j)) 0.
Proof.
  intros [] Hj. rewrite pack_radix by (done || lia).
  rewrite testbit_le_radix by (lia || by apply bits_urange).
  rewrite Z.div_1_r, Z.mod_1_r. destruct (Z.ltb_spec j 32).
  - rewrite (lookup_rev_total _ _ 32) by lia. unfold CRb, rget. cbn [andb]. do 2 f_equal. lia.
  - rewrite lookup_ge_None_2 by (rewrite length_rev; lia). done.
Qed.

(** ** The vector path of MFCR *)

Lemma testbit_slli_epi64 v i :
  0 <= i < 16 -> Z.testbit (mm_slli_epi64 v 7) (8 * i + 7) = Z.testbit v (8 * i).
Proof.
  intros Hi. unfold mm_slli_epi64, shl. rewrite Z.lor_spec, Z.shiftl_spec by lia.
  rewrite testbit_wrap, Z.shiftl_spec, testbit_wrap by lia.
  destruct (Z.lt_ge_cases i 8).
  - rewrite (Z.testbit_neg_r _ (8 * i + 7 - 64)) by lia. rewrite orb_false_r.
    replace (8 * i + 7 - 7) with (8 * i) by lia. zbool; simpl; lia || done.
  - rewrite testbit_wrap, Z.shiftl_spec, testbit_wrap, Z.shiftr_spec by lia.
    replace (8 * i + 7 - 64 - 7 + 64) with (8 * i) by lia. zbool; simpl; lia || done.
Qed.

Lemma testbit_movemask v j :
  0 <= j -> Z.testbit (mm_movemask_epi8 v) j = (j <? 16) && Z.testbit v (8 * j + 7).
Proof.
  intros Hj. unfold mm_movemask_epi8. rewrite testbit_le_radix; [|lia|done|].
  - rewrite Z.div_1_r, Z.mod_1_r, list_lookup_fmap. destruct (Z.ltb_spec j 16).
    + rewrite lookup_seq_lt by lia. simpl. rewrite Z2Nat.id by lia.
      by destruct (Z.testbit v (8 * j + 7)).
    + rewrite lookup_seq_ge by lia. done.
  - apply Forall_fmap, Forall_true. intros. apply is_bit_urange, is_bit_b2z.
Qed.

Lemma testbit_lane l j :
  Forall is_bit l -> length l = 16%nat -> 0 <= j ->
  Z.testbit (mm_movemask_epi8 (mm_slli_epi64 (be_val l) 7)) j =
    (j <? 16) && Z.testbit (rget l (15 - j)) 0.
Proof.
  intros HF Hl Hj. rewrite testbit_movemask by done. destruct (Z.ltb_spec j 16); [|done].
  rewrite testbit_slli_epi64 by lia. unfold be_val. rewrite testbit_le_radix; [|lia|lia|].
  - rewrite (Z.mul_comm 8), Z.div_mul, Z.mod_mul by lia.
    rewrite (lookup_rev_total _ _ 16) by lia. unfold rget. cbn [andb]. do 2 f_equal. lia.
  - by apply bits_urange.
Qed.

(** The two branches of the conditional compilation agree. *)
Lemma MFCR_value_pack b c : wf_ctx c -> MFCR_value b c = pack (cr c).
Proof.
  intros Hwf. destruct b; [|done]. unfold MFCR_value. pose proof Hwf as [].
  assert (Forall is_bit (take 16 (cr c)) /\ Forall is_bit (drop 16 (cr c))) as [Ht Hd]
    by (split; [by apply Forall_take | by apply Forall_drop]).
  apply Z.bits_inj'. intros j Hj. rewrite testbit_pack, Z.lor_spec by done.
  rewrite testbit_lane by first [done | lia | rewrite length_drop; lia].
  unfold shl. rewrite testbit_wrap, Z.shiftl_spec by lia. unfold CRb, rget.
  destruct (Z.lt_ge_cases j 16).
  - rewrite (Z.testbit_neg_r _ (j - 16)) by lia. rewrite andb_false_r.
    rewrite lookup_total_drop. zbool; simpl; try lia. do 2 f_equal. lia.
  - rewrite testbit_lane by first [done | lia | rewrite length_take; lia]. unfold rget.
    zbool; cbn [andb orb]; try lia; []. rewrite orb_false_r, lookup_total_take, decide_True by lia.
    do 2 f_equal. lia.
Qed.

(** ** Moves to CR *)

Lemma s_table_spec v m :
  0 <= v < 16 -> 0 <= m < 4 ->
  rget (s_table !!! Z.to_nat v : CrField.t) m = b2z (Z.testbit v (3 - m)) /\
  length (s_table !!! Z.to_nat v : CrField.t) = 4%nat /\
  Forall is_bit (s_table !!! Z.to_nat v : CrField.t).
Proof.
  intros Hv Hm.
  split_and!.
  - zenum v 0 16%nat; zenum m 0 4%nat; reflexivity.
  - zenum v 0 16%nat; reflexivity.
  - zenum v 0 16%nat; apply CrField_set_bits.
Qed.

Lemma field_shift i : 0 <= i < 8 -> (i * 4) ^^^ 0x1c = 28 - 4 * i.
Proof.
  intros Hi. zenum i 0 8%nat; reflexivity.
Qed.

Lemma mtcrf_nibble s i m :
  0 <= i < 8 -> 0 <= m < 4 ->
  let v := (s >>> ((i * 4) ^^^ 0x1c)) &&& 0xf in
  0 <= v < 16 /\ Z.testbit v (3 - m) = Z.testbit s (31 - (4 * i + m)).
Proof.
  intros Hi Hm. cbv zeta. rewrite field_shift, (land_low 4) by lia.
  split; [by apply Z.mod_pos_bound|].
  rewrite Z.mod_pow2_bits_low, Z.shiftr_spec by lia. f_equal. lia.
Qed.

Lemma CRb_mtcrf_field s i c j :
  length (cr c) = 32%nat -> 0 <= i < 8 -> 0 <= j < 32 ->
  CRb (mtcrf_field s i c) j =
    (if j / 4 =? i then b2z (Z.testbit s (31 - j)) else CRb c j) /\
  length (cr (mtcrf_field s i c)) = 32%nat.
Proof.
  intros Hl Hi Hj. pose proof (Z.mod_pos_bound j 4 eq_refl) as Hm.
  destruct (mtcrf_nibble s i (j mod 4) Hi Hm) as [Hv Hb].
  destruct (s_table_spec _ (j mod 4) Hv Hm) as (Ht & Hlen & _).
  unfold mtcrf_field. cbv zeta in *. split; [|by apply cr_length_set].
  rewrite CRb_set_cr_field by done. destruct (Z.eqb_spec (j / 4) i) as [<-|]; [|done].
  rewrite Ht, Hb. do 3 f_equal. rewrite <- Z.div_mod; lia.
Qed.

(** Running the MTCRF loop over any list of field numbers. *)
Lemma CRb_mtcrf_loop s (sel : Z -> bool) l c j :
  length (cr c) = 32%nat -> Forall (fun i : Z => 0 <= i < 8) l -> 0 <= j < 32 ->
  let c' := fold_left (fun c i => if sel i then c else mtcrf_field s i c) l c in
  CRb c' j = (if decide (j / 4 ∈ l) then
                if sel (j / 4) then CRb c j else b2z (Z.testbit s (31 - j))
              else CRb c j) /\
  length (cr c') = 32%nat.
Proof.
  intros Hl HF Hj. revert c Hl. induction HF as [|i l Hi HF IH]; intros c Hl; simpl.
  - done.
  - destruct (CRb_mtcrf_field s i c j Hl Hi Hj) as [Hb Hl'].
    assert (CRb (if sel i then c else mtcrf_field s i c) j =
            if decide (j / 4 = i) then
              if sel (j / 4) then CRb c j else b2z (Z.testbit s (31 - j))
            else CRb c j) as Hstep.
    { destruct (decide (j / 4 = i)) as [<-|Hne].
      - destruct (sel (j / 4)); [done|]. by rewrite Hb, Z.eqb_refl.
      - destruct (sel i); [done|]. by rewrite Hb, (proj2 (Z.eqb_neq _ _) Hne). }
    destruct (IH (if sel i then c else mtcrf_field s i c)) as [IH1 IH2].
    { by destruct (sel i). }
    split; [|done]. rewrite IH1, Hstep.
    pose proof (elem_of_cons l (j / 4) i) as Hin.
    destruct (decide (j / 4 ∈ l)), (decide (j / 4 = i)), (decide (j / 4 ∈ i :: l));
      try tauto; destruct (sel (j / 4)); done.
Qed.

Lemma crm_range inst : urange 8 (crm inst).
Proof. apply extract_u_range. lia. Qed.

Lemma crm_bit inst i :
  0 <= i < 8 -> (crm inst &&& (128 >>> i) =? 0) = negb (Z.testbit (crm inst) (7 - i)).
Proof.
  intros Hi. replace (128 >>> i) with (2 ^ (7 - i)).
  2:{ change 128 with (2 ^ 7). rewrite Z.shiftr_div_pow2 by lia.
      replace 7 with (7 - i + i) at 2 by lia. rewrite Z.pow_add_r by lia.
      rewrite Z.div_mul; [done|]. pose proof (pow2_pos i). lia. }
  destruct (Z.testbit (crm inst) (7 - i)) eqn:E; simpl.
  - apply Z.eqb_neq. intros H0.
    assert (Z.testbit (crm inst &&& 2 ^ (7 - i)) (7 - i) = true) as H1.
    { rewrite Z.land_spec, E, Z.pow2_bits_true by lia. done. }
    by rewrite H0, Z.bits_0 in H1.
  - apply Z.eqb_eq, Z.bits_inj'. intros j Hj. rewrite Z.land_spec, Z.bits_0.
    rewrite Z.pow2_bits_eqb by lia.
    destruct (Z.eqb_spec (7 - i) j) as [<-|]; [by rewrite E | apply andb_false_r].
Qed.

(** A one-hot mask selects its own field. *)
Lemma crIndex_onehot inst k :
  0 <= k < 8 -> crm inst = 2 ^ (7 - k) -> crIndex inst = k.
Proof.
  intros Hk Hc. unfold crIndex, countl_zero. rewrite Hc, Z.log2_pow2 by lia.
  pose proof (pow2_pos (7 - k)). destruct (Z.eqb_spec (2 ^ (7 - k)) 0); [lia|].
  rewrite (land_low 3) by lia. symmetry. apply (Z.mod_unique _ _ 3); lia.
Qed.

Lemma crIndex_range inst : 0 <= crIndex inst < 8.
Proof. unfold crIndex. rewrite (land_low 3) by lia. by apply Z.mod_pos_bound. Qed.

Lemma div4_range j : 0 <= j < 32 -> 0 <= j / 4 < 8.
Proof. intros. split; [apply Z.div_pos | apply Z.div_lt_upper_bound]; lia. Qed.

(** Bit [j] of CR after [mtcrf]/[mtocrf]: replaced where the field is
    selected. *)
Lemma CRb_MTOCRF c inst j :
  wf_ctx c -> 0 <= j < 32 ->
  l11 inst = 0 \/ (exists k, 0 <= k < 8 /\ crm inst = 2 ^ (7 - k)) ->
  CRb (MTOCRF c inst) j =
    if Z.testbit (crm inst) (7 - j / 4) then b2z (Z.testbit (R c (rs inst)) (31 - j))
    else CRb c j.
Proof.
  intros [] Hj Hmode. pose proof (div4_range j Hj) as Hq. unfold MTOCRF.
  destruct (Z.eqb_spec (l11 inst) 0) as [H0|H0].
  - destruct (CRb_mtcrf_loop (R c (rs inst))
      (fun i => crm inst &&& (128 >>> i) =? 0) (seqZ 0 8) c j) as [-> _]; try done.
    { by repeat constructor. }
    rewrite decide_True by (apply elem_of_seqZ; lia). rewrite crm_bit by done.
    by destruct (Z.testbit (crm inst) (7 - j / 4)).
  - destruct Hmode as [|(k & Hk & Hc)]; [done|].
    rewrite (crIndex_onehot inst k) by done.
    destruct (CRb_mtcrf_field (R c (rs inst)) k c j) as [-> _]; try done.
    rewrite Hc, Z.pow2_bits_eqb by lia. zbool; lia || done.
Qed.

Lemma mtcrf_field_wf s i c : wf_ctx c -> 0 <= i < 8 -> wf_ctx (mtcrf_field s i c).
Proof.
  intros Hc Hi. destruct (mtcrf_nibble s i 0) as [Hv _]; [done|lia|].
  destruct (s_table_spec _ 0 Hv) as (_ & Hl & Hb); [lia|]. by apply set_cr_field_wf.
Qed.

Lemma MTOCRF_wf c inst : wf_ctx c -> wf_ctx (MTOCRF c inst).
Proof.
  intros Hc. unfold MTOCRF. destruct (l11 inst =? 0).
  - generalize (R c (rs inst)) as s. intros s.
    assert (Forall (fun i : Z => 0 <= i < 8) (seqZ 0 8)) as HF by (by repeat constructor).
    revert c Hc. induction HF as [|i l Hi HF IH]; intros c Hc; simpl; [done|].
    apply IH. destruct (crm inst &&& (128 >>> i) =? 0); [done|]. by apply mtcrf_field_wf.
  - apply mtcrf_field_wf; [done | apply crIndex_range].
Qed.

(** The value [mfocrf] builds from a field's four bytes. *)
Lemma testbit_field_value f sh j :
  is_bit (rget f 0) -> is_bit (rget f 1) -> is_bit (rget f 2) -> is_bit (rget f 3) ->
  0 <= sh <= 28 -> 0 <= j ->
  Z.testbit (shl 32 (Z.shiftl (rget f 0) 3 ||| Z.shiftl (rget f 1) 2
                     ||| Z.shiftl (rget f 2) 1 ||| Z.shiftl (rget f 3) 0) sh) j =
    (sh <=? j) && (j <? sh + 4) && Z.testbit (rget f (3 - (j - sh))) 0.
Proof.
  intros H0 H1 H2 H3 Hsh Hj. unfold shl. rewrite testbit_wrap, Z.shiftl_spec by lia.
  destruct (Z.leb_spec sh j); cbn [andb].
  - set (d := j - sh). destruct (Z.ltb_spec j (sh + 4)); cbn [andb].
    + assert (0 <= d < 4) as Hd by lia. destruct (Z.ltb_spec j 32); [|lia]. cbn [andb].
      clearbody d. zenum d 0 4%nat;
        match goal with |- context [3 - ?x] =>
          let y := eval cbv in (3 - x) in change (3 - x) with y end; destruct H0 as [-> | ->], H1 as [-> | ->],
        H2 as [-> | ->], H3 as [-> | ->]; reflexivity.
    + rewrite (urange_testbit 4 _ d); [apply andb_false_r | lia | | lia].
      unfold urange. destruct H0 as [-> | ->], H1 as [-> | ->],
        H2 as [-> | ->], H3 as [-> | ->]; (split; [discriminate | reflexivity]).
  - rewrite Z.testbit_neg_r by lia. apply andb_false_r.
Qed.

(** Moves between CR and the general registers: the vectorised MFCR of
    x86-64 computes the same word as the portable loop; MTCRF and one-hot
    MTOCRF replace exactly the selected fields by the register's bits; a full
    MTCRF read back by MFCR gives the low word of the source register; and a
    one-hot MFOCRF gives the field in its architectural position with the
    other bits zero. *)
Theorem cr_moves_spec c inst b :
  wf_ctx c ->
  MFCR_value b c = pack (cr c) /\
  (l11 inst = 0 \/ (exists k, 0 <= k < 8 /\ crm inst = 2 ^ (7 - k)) ->
   forall j, 0 <= j < 32 ->
     CRb (MTOCRF c inst) j =
       if Z.testbit (crm inst) (7 - j / 4) then b2z (Z.testbit (R c (rs inst)) (31 - j))
       else CRb c j) /\
  (l11 inst = 0 -> crm inst = 255 ->
   MFCR_value b (MTOCRF c inst) = u32 (R c (rs inst))) /\
  (l11 inst <> 0 -> forall k, 0 <= k < 8 -> crm inst = 2 ^ (7 - k) -> forall j, 0 <= j < 32 ->
   Z.testbit (R (MFOCRF b c inst) (rd inst)) j =
     (j / 4 =? 7 - k) && Z.testbit (pack (cr c)) j).
Proof.
  intros Hwf. split_and!.
  - by apply MFCR_value_pack.
  - intros. by apply CRb_MTOCRF.
  - intros H0 Hm. rewrite MFCR_value_pack by (by apply MTOCRF_wf).
    apply Z.bits_inj'. intros j Hj. rewrite testbit_pack by (done || by apply MTOCRF_wf).
    rewrite testbit_wrap by lia. destruct (Z.ltb_spec j 32); [|done]. cbn [andb].
    rewrite CRb_MTOCRF by (done || lia || by left). rewrite Hm.
    assert (0 <= (31 - j) / 4 < 8) by (apply div4_range; lia).
    change 255 with (Z.ones 8). rewrite Z.ones_spec_low by lia.
    replace (31 - (31 - j)) with j by lia. by destruct (Z.testbit _ j).
  - intros H1 k Hk Hc j Hj. pose proof (wf_cr_len c Hwf) as Hl.
    unfold MFOCRF. destruct (Z.eqb_spec (l11 inst) 0); [done|].
    rewrite (crIndex_onehot inst k), field_shift by done.
    rewrite R_setR_eq by (done || apply bf_u_5_range; lia).
    rewrite testbit_field_value by
      first [lia | rewrite CRb_cr_field by (done || lia); apply CRb_bit; [done|lia]].
    rewrite testbit_pack by (done || lia). destruct (Z.ltb_spec j 32); [|lia]. cbn [andb].
    destruct (Z.eqb_spec (j / 4) (7 - k)) as [E|E];
      pose proof (Z.div_mod j 4 ltac:(lia)) as Hd; pose proof (Z.mod_pos_bound j 4 eq_refl).
    + rewrite CRb_cr_field by (done || lia). zbool; try lia. cbn [andb]. do 2 f_equal. lia.
    + zbool; try lia; done.
Qed.

(** [mtcrf 255, r4] then [mfcr]. *)
Lemma cr_moves_spec_witness :
  let c := sample_ctx 0xabc12345678 0 in
  wf_ctx c /\ MFCR_value true (MTOCRF c 0x7c8ff120) = 0x12345678.
Proof.
  cbv zeta. assert (wf_ctx (sample_ctx 0xabc12345678 0)) as Hwf
    by (apply sample_ctx_wf; unfold urange; lia).
  destruct (cr_moves_spec _ 0x7c8ff120 true Hwf) as (_ & _ & H & _).
  split; [exact Hwf|]. etransitivity; [apply H; reflexivity|]. reflexivity.
Defined.

(** ** Compares *)

Lemma crfd_range inst : 0 <= crfd inst < 8.
Proof. apply (extract_u_range 32 23 3). lia. Qed.

Lemma CRb_compare c k a b so j :
  wf_ctx c -> 0 <= k < 8 -> 0 <= j < 32 ->
  CRb (set_cr_field k (CrField.update a b so) c) j =
    if j / 4 =? k then
      b2z (if j mod 4 =? 0 then a <? b else if j mod 4 =? 1 then b <? a
           else if j mod 4 =? 2 then a =? b else so)
    else CRb c j.
Proof.
  intros [] Hk Hj. rewrite CRb_set_cr_field by done. destruct (j / 4 =? k); [|done].
  pose proof (Z.mod_pos_bound j 4 eq_refl). set (m := j mod 4) in *. clearbody m.
  zenum m 0 4%nat; reflexivity.
Qed.

Lemma quot4 k m : 0 <= m < 4 -> (4 * k + m) / 4 = k /\ (4 * k + m) mod 4 = m.
Proof.
  intros. split; symmetry; [apply (Z.div_unique _ _ _ m) | apply (Z.mod_unique _ _ k)]; lia.
Qed.

(** Exactly one of LT, GT and EQ. *)
Lemma compare_one k a b so c :
  wf_ctx c -> 0 <= k < 8 ->
  let c' := set_cr_field k (CrField.update a b so) c in
  CRb c' (4 * k) + CRb c' (4 * k + 1) + CRb c' (4 * k + 2) = 1.
Proof.
  intros Hwf Hk. cbv zeta. rewrite !CRb_compare by (done || lia).
  pose proof (quot4 k 0) as H0. rewrite Z.add_0_r in H0.
  destruct H0 as [-> ->]; [lia|]. destruct (quot4 k 1) as [-> ->]; [lia|].
  destruct (quot4 k 2) as [-> ->]; [lia|]. rewrite Z.eqb_refl.
  simpl. zbool; simpl; lia.
Qed.

(** The four compare instructions write the field crfd with LT, GT, EQ of
    the operands, taken as signed or unsigned words or doublewords as the L
    bit says, and a copy of SO; exactly one of LT, GT, EQ is set; no other CR
    bit changes. *)
Theorem compare_spec c inst j :
  wf_ctx c -> 0 <= j < 32 ->
  let A := R c (ra inst) in
  let B := R c (rb inst) in
  let L := negb (l10 inst =? 0) in
  let k := crfd inst in
  let result f a b :=
    CRb (f c inst) j =
      (if j / 4 =? k then
         b2z (if j mod 4 =? 0 then a <? b else if j mod 4 =? 1 then b <? a
              else if j mod 4 =? 2 then a =? b else xer_so c)
       else CRb c j) /\
    CRb (f c inst) (4 * k) + CRb (f c inst) (4 * k + 1) + CRb (f c inst) (4 * k + 2) = 1 in
  result CMP (if L then s64 A else s32 A) (if L then s64 B else s32 B) /\
  result CMPI (if L then s64 A else s32 A) (simm16 inst) /\
  result CMPL (if L then A else u32 A) (if L then B else u32 B) /\
  result CMPLI (if L then A else u32 A) (uimm16 inst).
Proof.
  intros Hwf Hj. cbv zeta. pose proof (crfd_range inst) as Hk.
  pose proof (fun a b so => compare_one (crfd inst) a b so c Hwf Hk) as Hone.
  unfold CMP, CMPI, CMPL, CMPLI. destruct (l10 inst =? 0); simpl negb; cbv iota;
    (split_and!; [by apply CRb_compare | apply Hone | by apply CRb_compare | apply Hone
                 | by apply CRb_compare | apply Hone | by apply CRb_compare | apply Hone]).
Qed.

(** [cmpw cr1, r4, r5] and [cmplw cr1, r4, r5] on minus one and one. *)
Lemma compare_spec_witness :
  let c := sample_ctx (2 ^ 64 - 1) 1 in
  wf_ctx c /\ CRb (CMP c 0x7c842800) 4 = 1 /\ CRb (CMPL c 0x7c842840) 4 = 0.
Proof.
  cbv zeta. assert (wf_ctx (sample_ctx (2 ^ 64 - 1) 1)) as Hwf
    by (apply sample_ctx_wf; unfold urange; lia).
  destruct (compare_spec _ 0x7c842800 4 Hwf) as ((H1 & _) & _); [lia|].
  destruct (compare_spec _ 0x7c842840 4 Hwf) as (_ & _ & (H2 & _) & _); [lia|].
  split; [exact Hwf|]. split; [rewrite H1 | rewrite H2]; reflexivity.
Defined.

(** ** Special registers *)

Lemma bit_set_testbit x k : 0 <= k -> bit_set x (2 ^ k) = Z.testbit x k.
Proof.
  intros Hk. unfold bit_set.
  assert (x &&& 2 ^ k = if Z.testbit x k then 2 ^ k else 0) as ->.
  { apply Z.bits_inj'. intros i Hi. rewrite Z.land_spec, Z.pow2_bits_eqb by done.
    destruct (Z.eqb_spec k i) as [<-|].
    - rewrite andb_true_r. destruct (Z.testbit x k) eqn:E.
      + by rewrite Z.pow2_bits_true.
      + by rewrite Z.bits_0.
    - rewrite andb_false_r. destruct (Z.testbit x k).
      + by rewrite Z.pow2_bits_false.
      + by rewrite Z.bits_0. }
  pose proof (pow2_pos k Hk). destruct (Z.testbit x k); [|done].
  destruct (Z.eqb_spec (2 ^ k) 0); [lia | done].
Qed.

(** The XER image of the three flags and the byte count. *)
Lemma xer_image v :
  urange 64 v ->
  Z.shiftl (b2z (bit_set v (2 ^ 31))) 31 ||| Z.shiftl (b2z (bit_set v (2 ^ 30))) 30
  ||| Z.shiftl (b2z (bit_set v (2 ^ 29))) 29 ||| (v &&& 0x7f) = v &&& 0xe000007f.
Proof.
  intros Hv. rewrite !bit_set_testbit by lia.
  replace (v &&& 0xe000007f) with
    ((v &&& 2 ^ 31) ||| (v &&& 2 ^ 30) ||| (v &&& 2 ^ 29) ||| (v &&& 0x7f)).
  2:{ rewrite <- !Z.land_lor_distr_r. reflexivity. }
  assert (forall k, 0 <= k -> Z.shiftl (b2z (Z.testbit v k)) k = v &&& 2 ^ k) as Hk.
  { intros k Hk. apply Z.bits_inj'. intros i Hi.
    rewrite Z.land_spec, Z.pow2_bits_eqb, Z.shiftl_spec by done.
    destruct (Z.eqb_spec k i) as [<-|].
    - rewrite Z.sub_diag, andb_true_r. by destruct (Z.testbit v k).
    - rewrite andb_false_r. destruct (Z.testbit v k); cbn [b2z]; [|apply Z.bits_0].
      destruct (Z.lt_ge_cases i k); [apply Z.testbit_neg_r; lia|].
      change 1 with (2 ^ 0). apply Z.pow2_bits_false. lia. }
  by rewrite !Hk by lia.
Qed.

(** Special registers: what MTSPR stores MFSPR reads back: LR and CTR in
    full, VRSAVE its low word, XER its three flags and seven-bit count with
    the reserved bits dropped; any other register number is reported as an
    invalid instruction by both, but for the two time base halves, which only
    MFSPR and MFTB read. *)
Theorem spr_roundtrip c inst tb :
  wf_ctx c ->
  let v := R c (rs inst) in
  let n := spr_number inst in
  let readback expected :=
    exists c', MTSPR c inst = Next c' /\
      exists c'', MFSPR tb c' inst = Next c'' /\ R c'' (rd inst) = expected in
  (n = 1 -> readback (v &&& 0xe000007f)) /\
  (n = 8 -> readback v) /\ (n = 9 -> readback v) /\
  (n = 0x100 -> readback (u32 v)) /\
  (n <> 1 -> n <> 8 -> n <> 9 -> n <> 0x100 -> MTSPR c inst = InvalidInstruction /\
     (n <> 0x10C -> n <> 0x10D ->
        MFSPR tb c inst = InvalidInstruction /\ MFTB tb c inst = InvalidInstruction) /\
     (n = 0x10C \/ n = 0x10D -> MFTB tb c inst = MFSPR tb c inst)).
Proof.
  intros Hwf. cbv zeta.
  assert (urange 5 (rd inst)) as Hd by (apply bf_u_5_range; lia).
  assert (urange 64 (R c (rs inst))) as Hv by (apply R_range, bf_u_5_range; [done|lia]).
  assert (wf_ctx (with_xer (negb (R c (rs inst) &&& 0x80000000 =? 0))
     (negb (R c (rs inst) &&& 0x40000000 =? 0)) (negb (R c (rs inst) &&& 0x20000000 =? 0))
     (R c (rs inst) &&& 0x7f) c)) as Hx.
  { apply with_xer_wf; [done|]. rewrite (land_low 7) by lia.
    apply (urange_mono 7); [lia|]. apply wrap_range. lia. }
  unfold MTSPR, MFSPR, MFTB. split_and!; intros Hn; try rewrite Hn; cbn [Z.eqb Pos.eqb].
  - do 2 (eexists; split; [done|]). rewrite R_setR_eq by done. by apply xer_image.
  - do 2 (eexists; split; [done|]). rewrite R_setR_eq; auto with wf.
  - do 2 (eexists; split; [done|]). rewrite R_setR_eq; auto with wf.
  - do 2 (eexists; split; [done|]). rewrite R_setR_eq; auto with wf mach.
  - intros. zbool; try done; split_and!; intros; try done; lia.
Qed.

(** [mtspr XER, r4] and [mfspr r4, XER]: reserved bits read as zero. *)
Lemma spr_roundtrip_witness :
  let c := sample_ctx 0xffffffff 0 in
  wf_ctx c /\ spr_number 0x7c8103a6 = 1 /\
  exists c', MTSPR c 0x7c8103a6 = Next c' /\
    exists c'', MFSPR 0 c' 0x7c8103a6 = Next c'' /\ R c'' 4 = 0xe000007f.
Proof.
  cbv zeta. assert (wf_ctx (sample_ctx 0xffffffff 0)) as Hwf
    by (apply sample_ctx_wf; unfold urange; lia).
  destruct (spr_roundtrip _ 0x7c8103a6 0 Hwf) as (H & _).
  split; [exact Hwf|]. split; [reflexivity|]. exact (H eq_refl).
Defined.

(** ** Traps *)

Lemma trap_seq_existsb l c : trap_seq l c = if existsb id l then Trap else Next c.
Proof. induction l as [|t l IH]; simpl; [done|]. by destruct t. Qed.

(** A trap instruction traps exactly when one of the conditions its TO
    field selects holds (signed less, greater, equal, unsigned less,
    greater) on the register and the register or sign-extended immediate
    operand, as words for TW and TWI and as doublewords for TD and TDI; when
    it does not trap it changes nothing. *)
Theorem trap_spec c inst :
  wf_ctx c ->
  let A := R c (ra inst) in
  let B := R c (rb inst) in
  let I := simm16 inst in
  let TO k a b := Z.testbit (bo inst) k && (a <? b) in
  let out signed unsigned a b :=
    if TO 4 (signed a) (signed b) || TO 3 (signed b) (signed a)
       || (Z.testbit (bo inst) 2 && (signed a =? signed b))
       || TO 1 (unsigned a) (unsigned b) || TO 0 (unsigned b) (unsigned a)
    then Trap else Next c in
  TD c inst = out (sext 64) (wrap 64) A B /\
  TW c inst = out (sext 32) (wrap 32) A B /\
  TDI c inst = out (sext 64) (wrap 64) A I /\
  TWI c inst = out (sext 32) (wrap 32) A I.
Proof.
  intros Hwf. cbv zeta.
  assert (srange 16 (simm16 inst)) as Hi.
  { unfold simm16, bf_s. rewrite extract_s_sext by lia. apply sext_range. lia. }
  assert (srange 64 (simm16 inst) /\ srange 32 (simm16 inst)) as [Hi64 Hi32]
    by (unfold srange in *; simpl in *; lia).
  unfold TD, TW, TDI, TWI. rewrite !trap_seq_existsb. cbn [existsb id].
  pose proof (bit_set_testbit (bo inst) 4 ltac:(lia)) as B4.
  pose proof (bit_set_testbit (bo inst) 3 ltac:(lia)) as B3.
  pose proof (bit_set_testbit (bo inst) 2 ltac:(lia)) as B2.
  pose proof (bit_set_testbit (bo inst) 1 ltac:(lia)) as B1.
  pose proof (bit_set_testbit (bo inst) 0 ltac:(lia)) as B0.
  change (2 ^ 4) with 16 in B4. change (2 ^ 3) with 8 in B3. change (2 ^ 2) with 4 in B2.
  change (2 ^ 1) with 2 in B1. change (2 ^ 0) with 1 in B0. rewrite B4, B3, B2, B1, B0.
  rewrite (sext_id 16 (simm16 inst)), (sext_id 64 (simm16 inst)),
    (sext_id 32 (simm16 inst)), !wrap_sext by (done || lia).
  rewrite <- !orb_assoc, !orb_false_r. done.
Qed.

(** [tweqi r4, 5] traps on five and falls through on six. *)
Lemma trap_spec_witness :
  wf_ctx (sample_ctx 5 0) /\ wf_ctx (sample_ctx 6 0) /\
  TWI (sample_ctx 5 0) 0x0c840005 = Trap /\
  TWI (sample_ctx 6 0) 0x0c840005 = Next (sample_ctx 6 0).
Proof.
  assert (wf_ctx (sample_ctx 5 0)) as H5 by (apply sample_ctx_wf; unfold urange; lia).
  assert (wf_ctx (sample_ctx 6 0)) as H6 by (apply sample_ctx_wf; unfold urange; lia).
  destruct (trap_spec _ 0x0c840005 H5) as (_ & _ & _ & E5).
  destruct (trap_spec _ 0x0c840005 H6) as (_ & _ & _ & E6).
  split_and!; [exact H5 | exact H6 | rewrite E5; reflexivity | rewrite E6; reflexivity].
Defined.

(** ** CR logic *)

Lemma setCRb_wf i v c : wf_ctx c -> is_bit v -> wf_ctx (setCRb i v c).
Proof. intros [] Hv. constructor; simpl; rewrite ?rset_length; auto with mach. Qed.

(** The CR logical instructions are the Boolean operations on CR bits:
    on a well-formed CR they write 0 or 1 to bit crbd as the truth table of
    the operation says, and change no other bit. *)
Theorem cr_logic_spec c inst j :
  wf_ctx c -> 0 <= j < 32 ->
  let a := negb (CRb c (crba inst) =? 0) in
  let b := negb (CRb c (crbb inst) =? 0) in
  let writes f v :=
    wf_ctx (f c inst) /\ CRb (f c inst) j = (if j =? crbd inst then b2z v else CRb c j) in
  writes CRAND (a && b) /\ writes CROR (a || b) /\ writes CRXOR (xorb a b) /\
  writes CRNAND (negb (a && b)) /\ writes CRNOR (negb (a || b)) /\
  writes CREQV (eqb a b) /\ writes CRANDC (a && negb b) /\ writes CRORC (a || negb b).
Proof.
  intros Hwf Hj. cbv zeta.
  assert (0 <= crba inst < 32 /\ 0 <= crbb inst < 32 /\ 0 <= crbd inst < 32)
    as (Ha & Hb & Hd) by (split_and!; apply (extract_u_range 32 _ 5); lia).
  assert (forall v, CRb (setCRb (crbd inst) v c) j = if j =? crbd inst then v else CRb c j) as Hw.
  { intros v. unfold CRb, setCRb; simpl. pose proof (wf_cr_len c Hwf).
    destruct (Z.eqb_spec j (crbd inst)) as [->|].
    - apply rget_rset_eq. lia.
    - apply rget_rset_ne; lia. }
  unfold CRAND, CROR, CRXOR, CRNAND, CRNOR, CREQV, CRANDC, CRORC. rewrite !Hw.
  destruct (CRb_bit c (crba inst) Hwf Ha) as [-> | ->],
    (CRb_bit c (crbb inst) Hwf Hb) as [-> | ->]; simpl;
    split_and!; try done; apply setCRb_wf; unfold is_bit; auto.
Qed.

(** [crnor 2, 0, 1] on a cleared CR. *)
Lemma cr_logic_spec_witness :
  wf_ctx init_ctx /\ CRb (CRNOR init_ctx 0x4c400842) 2 = 1 /\
  CRb (CRNOR init_ctx 0x4c400842) 3 = 0.
Proof.
  pose proof init_ctx_wf as Hwf.
  destruct (cr_logic_spec _ 0x4c400842 2 Hwf) as (_ & _ & _ & _ & (_ & H) & _); [lia|].
  destruct (cr_logic_spec _ 0x4c400842 3 Hwf) as (_ & _ & _ & _ & (_ & H') & _); [lia|].
  split_and!; [exact Hwf | rewrite H; reflexivity | rewrite H'; reflexivity].
Defined.
