(* ===== verification/PpuBranch.v ===== *)
(** * PPU branches

    [BC], [B], [BCLR] and [BCCTR] of [semantic/ppu.cpp].  Targets and the
    current instruction address are 32-bit, LR and CTR 64-bit; the branch
    decrements CTR, tests the condition bit and links exactly as the sources
    do.  The theorems compare the branch conditions with the architecture's
    table of BO encodings and show that a call returns behind itself. *)

From stdpp Require Import base numbers list tactics.
From Stdlib Require Import Lia.
From S2P Require Import Prelude PpuInstruction PpuContext PpuArith PpuLogic PpuCr.
Import Instruction.
Open Scope Z_scope.
Open Scope mach_scope.

(** The counter update and the branch decision shared by [BC] and [BCLR]:
    the new CTR and whether the branch is taken. *)
Definition branch_cond (bo crBit ctr : Z) : Z * bool :=
  let bo0 := bit_set bo 0x10 in
  let bo1 := bit_set bo 0x08 in
  let bo2 := bit_set bo 0x04 in
  let bo3 := bit_set bo 0x02 in
  let ctr' := u64 (ctr - b2z (xorb bo2 true)) in
  let ctr_ok := bo2 || xorb (negb (ctr' =? 0)) bo3 in
  let cond_ok := bo0 || xorb (negb (crBit =? 0)) (xorb bo1 true) in
  (ctr', ctr_ok && cond_ok).

(** [if (lk) lr = nextInst]. *)
Definition link_if (lk nextInst : Z) (c : PPUContext) : PPUContext :=
  if lk =? 0 then c else with_lr nextInst c.

Definition BC (c : PPUContext) (inst : Z) : PPUContext :=
  let target := u32 ((if aa inst =? 0 then cia c else 0) + bt14 inst) in
  let '(ctr', taken) := branch_cond (bo inst) (CRb c (bi inst)) (ctr c) in
  let nextInst := u32 (cia c + 4) in
  let c1 := link_if (lk inst) nextInst (with_ctr ctr' c) in
  with_cia (if taken then target else nextInst) c1.

Definition B (c : PPUContext) (inst : Z) : PPUContext :=
  let target := u32 ((if aa inst =? 0 then cia c else 0) + bt24 inst) in
  let nextInst := u32 (cia c + 4) in
  with_cia target (link_if (lk inst) nextInst c).

Definition BCLR (c : PPUContext) (inst : Z) : PPUContext :=
  let '(ctr', taken) := branch_cond (bo inst) (CRb c (bi inst)) (ctr c) in
  let target := u32 (lr c) &&& 0xfffffffc in
  let nextInst := u32 (cia c + 4) in
  let c1 := link_if (lk inst) nextInst (with_ctr ctr' c) in
  with_cia (if taken then target else nextInst) c1.

Definition BCCTR (c : PPUContext) (inst : Z) : PPUContext :=
  let target := u32 (ctr c) &&& 0xfffffffc in
  let nextInst := u32 (cia c + 4) in
  let c1 := link_if (lk inst) nextInst c in
  with_cia (if bit_set (bo inst) 0x10 || (CRb c (bi inst) =? b2z (bit_set (bo inst) 0x8))
            then target else nextInst) c1.

(** ** Reference: the architecture's BO encodings

    What a BO value asks for: whether CTR is decremented, the required result
    of [CTR = 0] after the decrement, and the required condition bit. *)
Record bo_meaning := {
  bo_ctr : option bool;   (* Some z: decrement, branch needs (CTR = 0) = z *)
  bo_cr : option bool     (* Some b: branch needs CR bit = b *)
}.

Definition bo_table (bo : Z) : bo_meaning :=
  match Z.to_nat (bo / 2) with
  | 0%nat => Build_bo_meaning (Some false) (Some false)    (* 0000z *)
  | 1%nat => Build_bo_meaning (Some true) (Some false)     (* 0001z *)
  | 2%nat | 3%nat => Build_bo_meaning None (Some false)    (* 001at *)
  | 4%nat => Build_bo_meaning (Some false) (Some true)     (* 0100z *)
  | 5%nat => Build_bo_meaning (Some true) (Some true)      (* 0101z *)
  | 6%nat | 7%nat => Build_bo_meaning None (Some true)     (* 011at *)
  | 8%nat | 12%nat => Build_bo_meaning (Some false) None   (* 1a00t *)
  | 9%nat | 13%nat => Build_bo_meaning (Some true) None    (* 1a01t *)
  | _ => Build_bo_meaning None None                        (* 1z1zz *)
  end.

Definition bo_new_ctr (m : bo_meaning) (ctr : Z) : Z :=
  match bo_ctr m with Some _ => u64 (ctr - 1) | None => ctr end.

Definition bo_taken (m : bo_meaning) (crBit ctr : Z) : bool :=
  match bo_ctr m with Some z => eqb (bo_new_ctr m ctr =? 0) z | None => true end &&
  match bo_cr m with Some b => eqb (crBit =? 1) b | None => true end.

(** ** Lemmas *)

Lemma bo_table_bits b :
  urange 5 b ->
  bo_table b = Build_bo_meaning
    (if bit_set b 4 then None else Some (bit_set b 2))
    (if bit_set b 16 then None else Some (bit_set b 8)).
Proof.
  unfold urange. change (2 ^ 5) with 32. intros Hb. zenum b 0 32%nat; reflexivity.
Qed.

Lemma branch_cond_table b crBit ctr :
  urange 5 b -> is_bit crBit -> urange 64 ctr ->
  branch_cond b crBit ctr = (bo_new_ctr (bo_table b) ctr, bo_taken (bo_table b) crBit ctr).
Proof.
  intros Hb Hcr Hctr. rewrite bo_table_bits by done.
  unfold branch_cond, bo_taken, bo_new_ctr. cbv zeta. cbn [bo_ctr bo_cr].
  assert (u64 (ctr - b2z (xorb true true)) = ctr) as E0
    by (cbn [xorb b2z]; rewrite Z.sub_0_r; by apply wrap_id).
  destruct (bit_set b 4); rewrite ?E0; cbn [xorb b2z]; f_equal;
    [|destruct (u64 (ctr - 1) =? 0)];
    destruct (bit_set b 2), (bit_set b 16), (bit_set b 8), Hcr as [-> | ->]; reflexivity.
Qed.

(** A word-aligned value survives the clearing of the low two bits. *)
Lemma land_align4 x : urange 32 x -> x &&& 0xfffffffc = x - x mod 4.
Proof.
  intros Hx. assert (x - x mod 4 = Z.shiftl (Z.shiftr x 2) 2) as ->.
  { rewrite Z.shiftr_div_pow2, Z.shiftl_mul_pow2 by lia.
    pose proof (Z.div_mod x 4). change (2 ^ 2) with 4. lia. }
  apply Z.bits_inj'. intros i Hi. rewrite Z.land_spec, Z.shiftl_spec by done.
  change 0xfffffffc with (Z.shiftl (Z.ones 30) 2). rewrite Z.shiftl_spec by done.
  destruct (Z.lt_ge_cases i 2).
  - rewrite !(Z.testbit_neg_r _ (i - 2)) by lia. apply andb_false_r.
  - rewrite Z.shiftr_spec by lia. replace (i - 2 + 2) with i by lia.
    destruct (Z.lt_ge_cases i 32).
    + rewrite Z.ones_spec_low by lia. apply andb_true_r.
    + by rewrite (urange_testbit 32 x) by (done || lia).
Qed.

Lemma branch_fields inst : urange 5 (bo inst) /\ urange 5 (bi inst).
Proof. split; apply bf_u_5_range; lia. Qed.

(** The 14-bit displacement field is a multiple of four, sign extended. *)
Lemma bt_value n i raw :
  0 < n <= 30 -> 0 <= i -> n + i <= 32 ->
  s32 (shl 32 (u32 (bf_s i n raw)) 2 ||| 0) = 4 * bf_s i n raw.
Proof.
  intros Hn Hi Hni. rewrite Z.lor_0_r. unfold shl.
  rewrite sext_wrap, Z.shiftl_mul_pow2 by lia.
  rewrite <- (sext_wrap 32 (u32 _ * _)), wrap_mul_l, sext_wrap by lia.
  unfold bf_s. rewrite extract_s_sext by lia. rewrite sext_id; [lia..|].
  pose proof (sext_range n (BitField.extract_u 32 (32 - n - i) n raw)) as Hr.
  unfold srange in *. assert (2 ^ (n - 1) <= 2 ^ 29) by (apply Z.pow_le_mono_r; lia).
  change (2 ^ (32 - 1)) with (2 ^ 31). lia.
Qed.

(** C12: the branch instructions implement the architecture's table of BO
    encodings for every BO value, CTR and condition bit: the decrement of
    CTR, the branch decision, the target (relative or absolute displacement
    times four, LR or CTR with the low two bits cleared) and the link; BCCTR
    for the BO values that leave CTR alone, the others being invalid forms. *)
Theorem branch_spec c inst :
  wf_ctx c ->
  let next := (cia c + 4) mod 2 ^ 32 in
  let base := if aa inst =? 0 then cia c else 0 in
  let m := bo_table (bo inst) in
  let crBit := CRb c (bi inst) in
  let taken := bo_taken m crBit (ctr c) in
  let ctr' := bo_new_ctr m (ctr c) in
  let link c := if lk inst =? 0 then c else with_lr next c in
  B c inst = with_cia ((base + 4 * bf_s 6 24 inst) mod 2 ^ 32) (link c) /\
  BC c inst = with_cia (if taken then (base + 4 * bf_s 16 14 inst) mod 2 ^ 32 else next)
                (link (with_ctr ctr' c)) /\
  BCLR c inst = with_cia (if taken then u32 (lr c) - lr c mod 4 else next)
                  (link (with_ctr ctr' c)) /\
  (bo_ctr m = None ->
   BCCTR c inst = with_cia (if taken then u32 (ctr c) - ctr c mod 4 else next) (link c)).
Proof.
  intros Hwf. cbv zeta. destruct (branch_fields inst) as [Hbo Hbi].
  assert (is_bit (CRb c (bi inst))) as Hcr by (apply CRb_bit; [done | exact Hbi]).
  pose proof (branch_cond_table _ _ _ Hbo Hcr (wf_ctr c Hwf)) as Hbc.
  assert (forall x, u32 x &&& 0xfffffffc = u32 x - x mod 4) as Hal.
  { intros x. rewrite land_align4 by ranges. f_equal. unfold wrap.
    change 4 with (2 ^ 2). change (2 ^ 32) with (2 ^ 2 * 2 ^ 30).
    symmetry. apply Z.bits_inj'. intros i Hi.
    replace (2 ^ 2 * 2 ^ 30) with (2 ^ 32) by reflexivity.
    rewrite <- !Z.land_ones by lia. rewrite <- Z.land_assoc.
    by replace (Z.land (Z.ones 32) (Z.ones 2)) with (Z.ones 2) by reflexivity. }
  unfold B, BC, BCLR, BCCTR, link_if, bt14, bt24.
  rewrite !Hbc, !Hal, !bt_value by lia. split_and!; try done.
  intros Hnone. do 2 f_equal. unfold bo_taken. rewrite Hnone. cbn [andb].
  rewrite bo_table_bits by done. cbn [bo_cr].
  destruct (bit_set (bo inst) 16), (bit_set (bo inst) 8), Hcr as [-> | ->]; reflexivity.
Qed.

(** [bdnz] at 0x1000 with CTR = 1 falls through and clears CTR. *)
Lemma branch_spec_witness :
  let c := with_cia 0x1000 (with_ctr 1 init_ctx) in
  wf_ctx c /\ BC c 0x4200fff8 = with_cia 0x1004 (with_ctr 0 c).
Proof.
  cbv zeta. assert (wf_ctx (with_cia 0x1000 (with_ctr 1 init_ctx))) as Hwf.
  { apply with_cia_wf; [apply with_ctr_wf; [apply init_ctx_wf|]|]; unfold urange; lia. }
  destruct (branch_spec _ 0x4200fff8 Hwf) as (_ & H & _).
  split; [exact Hwf|]. rewrite H. reflexivity.
Defined.

(** A call returns behind itself: a linking branch (relative, absolute,
    conditional or through CTR) at a word-aligned address stores the address
    of the next instruction in LR, whatever it branches to, and an
    unconditional BLR executed later with that LR continues there. *)
Theorem call_return c c' call ret f :
  wf_ctx c -> cia c mod 4 = 0 ->
  f = B \/ f = BC \/ f = BCLR \/ f = BCCTR ->
  lk call <> 0 ->
  wf_ctx c' -> lr c' = lr (f c call) -> bo ret = 20 ->
  lr (f c call) = u32 (cia c + 4) /\ cia (BCLR c' ret) = u32 (cia c + 4).
Proof.
  intros Hwf Hal Hf Hlk Hwf' Hlr Hbo.
  assert (lr (f c call) = u32 (cia c + 4)) as Hcall.
  { unfold B, BC, BCLR, BCCTR, link_if in *.
    destruct Hf as [-> | [-> | [-> | ->]]]; try destruct branch_cond;
      destruct (Z.eqb_spec (lk call) 0); done. }
  split; [done|]. destruct (branch_fields ret) as [Hb Hbi].
  unfold BCLR. rewrite branch_cond_table;
    [|done | apply CRb_bit; [done | exact Hbi] | apply Hwf'].
  rewrite Hbo, Hlr, Hcall. cbn [bo_taken bo_table bo_ctr bo_cr]. change (bo_taken _ _ _) with true.
  cbn [with_cia cia]. rewrite wrap_wrap by lia. rewrite land_align4 by ranges.
  assert (u32 (cia c + 4) mod 4 = 0) as ->; [|lia].
  destruct (wrap_eq 32 (cia c + 4)) as [q ->]; [lia|].
  replace (cia c + 4 - q * 2 ^ 32) with (cia c + (1 - q * 2 ^ 30) * 4) by lia.
  by rewrite Z.mod_add by lia.
Qed.

(** [bl +0x100] at 0x2000, then [blr]. *)
Lemma call_return_witness :
  let c := with_cia 0x2000 init_ctx in
  let c' := B c 0x48000101 in
  wf_ctx c /\ wf_ctx c' /\ cia c' = 0x2100 /\ cia (BCLR c' 0x4e800020) = 0x2004.
Proof.
  cbv zeta. assert (wf_ctx (with_cia 0x2000 init_ctx)) as Hwf.
  { apply with_cia_wf; [apply init_ctx_wf|]; unfold urange; lia. }
  assert (wf_ctx (B (with_cia 0x2000 init_ctx) 0x48000101)) as Hwf'.
  { vm_compute B. apply with_cia_wf with (v := 0x2100)
      (c := with_lr 0x2004 (with_cia 0x2000 init_ctx)); [apply with_lr_wf; [exact Hwf|]|];
      unfold urange; lia. }
  destruct (call_return (with_cia 0x2000 init_ctx) (B (with_cia 0x2000 init_ctx) 0x48000101)
              0x48000101 0x4e800020 B Hwf eq_refl (or_introl eq_refl) ltac:(discriminate)
              Hwf' eq_refl eq_refl) as [_ H].
  split_and!; [exact Hwf | exact Hwf' | reflexivity | exact H].
Defined.
