(* ===== verification/PpuLoadStore.v ===== *)
(** * PPU loads and stores

    The fixed-point, byte-reversed, multiple, string and double-precision
    loads and stores of [semantic/ppu.cpp] over a byte-addressed
    memory.  [rpcsx_vm_read] and [rpcsx_vm_write]
    ([rpcs3/Emu/Cell/PPUInterpreter.cpp]) copy bytes at [g_base_addr + vaddr];
    a memory is the function from the offset to the byte, and every offset is
    taken to be mapped.  [vm::read<T>] and [vm::write<T>] convert through
    [be_t] unless [T] is [le_t] or one byte wide. *)

From stdpp Require Import base numbers list tactics.
From Stdlib Require Import Lia.
From S2P Require Import Prelude Asm PpuInstruction PpuContext PpuArith PpuLogic PpuCr.
Import Instruction.
Open Scope Z_scope.
Open Scope mach_scope.

(** ** Memory *)

Definition mem := Z -> Z.

Definition state : Type := PPUContext * mem.

(** [std::memcpy(dest, vm::g_base_addr + vaddr, size)]. *)
Definition rpcsx_vm_read (m : mem) (vaddr : Z) (size : nat) : list Z :=
  (fun i => m (u64 (vaddr + Z.of_nat i))) <$> seq 0 size.

(** [std::memcpy(vm::g_base_addr + vaddr, src, size)]: the byte at [a] comes
    from the source when [a] lies in the copied range. *)
Definition rpcsx_vm_write (m : mem) (vaddr : Z) (src : list Z) : mem :=
  fun a => default (m a) (src !! Z.to_nat (u64 (a - vaddr))).

(** [vm::read<T>] for the big-endian and little-endian types of [size]
    bytes, unsigned and signed: [ppu_feed_data<T>]. *)
Definition feed (size : nat) (m : mem) (addr : Z) : Z := be_val (rpcsx_vm_read m addr size).

Definition feed_s (size : nat) (m : mem) (addr : Z) : Z :=
  u64 (sext (8 * Z.of_nat size) (feed size m addr)).

Definition feed_le (size : nat) (m : mem) (addr : Z) : Z :=
  le_val (rpcsx_vm_read m addr size).

(** [vm::write<T>]. *)
Definition vm_write (size : nat) (m : mem) (addr v : Z) : mem :=
  rpcsx_vm_write m addr (be_split size v).

Definition vm_write_le (size : nat) (m : mem) (addr v : Z) : mem :=
  rpcsx_vm_write m addr (le_split 8 size v).

(** ** Effective addresses *)

(** [inst.ra ? gpr[ra] + gpr[rb] : gpr[rb]]. *)
Definition EA_x (c : PPUContext) (inst : Z) : Z :=
  if ra inst =? 0 then R c (rb inst) else u64 (R c (ra inst) + R c (rb inst)).

(** [gpr[ra] + gpr[rb]]. *)
Definition EA_xu (c : PPUContext) (inst : Z) : Z := u64 (R c (ra inst) + R c (rb inst)).

(** [inst.ra ? gpr[ra] + simm16 : simm16]. *)
Definition EA_d (c : PPUContext) (inst : Z) : Z :=
  if ra inst =? 0 then u64 (simm16 inst) else u64 (R c (ra inst) + simm16 inst).

(** [gpr[ra] + simm16]. *)
Definition EA_du (c : PPUContext) (inst : Z) : Z := u64 (R c (ra inst) + simm16 inst).

(** [(simm16 & ~3) + (inst.ra ? gpr[ra] : 0)] and [gpr[ra] + (simm16 & ~3)]. *)
Definition EA_ds (c : PPUContext) (inst : Z) : Z :=
  u64 ((simm16 inst &&& Z.lnot 3) + (if ra inst =? 0 then 0 else R c (ra inst))).

Definition EA_dsu (c : PPUContext) (inst : Z) : Z :=
  u64 (R c (ra inst) + (simm16 inst &&& Z.lnot 3)).

(** Assigning the loaded value, and the update forms, which then write the
    address back to [ra]. *)
Definition load (v inst : Z) (s : state) : state := (setR (rd inst) v (fst s), snd s).

Definition load_update (v addr inst : Z) (s : state) : state :=
  (setR (ra inst) addr (setR (rd inst) v (fst s)), snd s).

Definition store (size : nat) (v addr : Z) (s : state) : state :=
  (fst s, vm_write size (snd s) addr v).

Definition store_le (size : nat) (v addr : Z) (s : state) : state :=
  (fst s, vm_write_le size (snd s) addr v).

Definition store_update (size : nat) (v addr inst : Z) (s : state) : state :=
  (setR (ra inst) addr (fst s), vm_write size (snd s) addr v).

(** ** Fixed-point loads *)

Definition LBZ (s : state) (inst : Z) : state :=
  let addr := EA_d (fst s) inst in load (feed 1 (snd s) addr) inst s.

Definition LBZU (s : state) (inst : Z) : state :=
  let addr := EA_du (fst s) inst in load_update (feed 1 (snd s) addr) addr inst s.

Definition LBZX (s : state) (inst : Z) : state :=
  let addr := EA_x (fst s) inst in load (feed 1 (snd s) addr) inst s.

Definition LBZUX (s : state) (inst : Z) : state :=
  let addr := EA_xu (fst s) inst in load_update (feed 1 (snd s) addr) addr inst s.

Definition LHZ (s : state) (inst : Z) : state :=
  let addr := EA_d (fst s) inst in load (feed 2 (snd s) addr) inst s.

Definition LHZU (s : state) (inst : Z) : state :=
  let addr := EA_du (fst s) inst in load_update (feed 2 (snd s) addr) addr inst s.

Definition LHZX (s : state) (inst : Z) : state :=
  let addr := EA_x (fst s) inst in load (feed 2 (snd s) addr) inst s.

Definition LHZUX (s : state) (inst : Z) : state :=
  let addr := EA_x (fst s) inst in load_update (feed 2 (snd s) addr) addr inst s.

Definition LHA (s : state) (inst : Z) : state :=
  let addr := EA_d (fst s) inst in load (feed_s 2 (snd s) addr) inst s.

Definition LHAU (s : state) (inst : Z) : state :=
  let addr := EA_du (fst s) inst in load_update (feed_s 2 (snd s) addr) addr inst s.

Definition LHAX (s : state) (inst : Z) : state :=
  let addr := EA_x (fst s) inst in load (feed_s 2 (snd s) addr) inst s.

Definition LHAUX (s : state) (inst : Z) : state :=
  let addr := EA_x (fst s) inst in load_update (feed_s 2 (snd s) addr) addr inst s.

Definition LWZ (s : state) (inst : Z) : state :=
  let addr := EA_d (fst s) inst in load (feed 4 (snd s) addr) inst s.

Definition LWZU (s : state) (inst : Z) : state :=
  let addr := EA_du (fst s) inst in load_update (feed 4 (snd s) addr) addr inst s.

Definition LWZX (s : state) (inst : Z) : state :=
  let addr := EA_x (fst s) inst in load (feed 4 (snd s) addr) inst s.

Definition LWZUX (s : state) (inst : Z) : state :=
  let addr := EA_xu (fst s) inst in load_update (feed 4 (snd s) addr) addr inst s.

Definition LWA (s : state) (inst : Z) : state :=
  let addr := EA_ds (fst s) inst in load (feed_s 4 (snd s) addr) inst s.

Definition LWAX (s : state) (inst : Z) : state :=
  let addr := EA_x (fst s) inst in load (feed_s 4 (snd s) addr) inst s.

Definition LWAUX (s : state) (inst : Z) : state :=
  let addr := EA_x (fst s) inst in load_update (feed_s 4 (snd s) addr) addr inst s.

Definition LD (s : state) (inst : Z) : state :=
  let addr := EA_ds (fst s) inst in load (feed 8 (snd s) addr) inst s.

Definition LDU (s : state) (inst : Z) : state :=
  let addr := EA_dsu (fst s) inst in load_update (feed 8 (snd s) addr) addr inst s.

Definition LDX (s : state) (inst : Z) : state :=
  let addr := EA_x (fst s) inst in load (feed 8 (snd s) addr) inst s.

Definition LDUX (s : state) (inst : Z) : state :=
  let addr := EA_xu (fst s) inst in load_update (feed 8 (snd s) addr) addr inst s.

Definition LHBRX (s : state) (inst : Z) : state :=
  let addr := EA_x (fst s) inst in load (feed_le 2 (snd s) addr) inst s.

Definition LWBRX (s : state) (inst : Z) : state :=
  let addr := EA_x (fst s) inst in load (feed_le 4 (snd s) addr) inst s.

Definition LDBRX (s : state) (inst : Z) : state :=
  let addr := EA_x (fst s) inst in load (feed_le 8 (snd s) addr) inst s.

(** ** Fixed-point stores *)

Definition STB (s : state) (inst : Z) : state :=
  let addr := EA_d (fst s) inst in store 1 (u8 (R (fst s) (rs inst))) addr s.

Definition STBU (s : state) (inst : Z) : state :=
  let addr := EA_du (fst s) inst in store_update 1 (u8 (R (fst s) (rs inst))) addr inst s.

Definition STBX (s : state) (inst : Z) : state :=
  let addr := EA_x (fst s) inst in store 1 (u8 (R (fst s) (rs inst))) addr s.

Definition STBUX (s : state) (inst : Z) : state :=
  let addr := EA_xu (fst s) inst in store_update 1 (u8 (R (fst s) (rs inst))) addr inst s.

Definition STH (s : state) (inst : Z) : state :=
  let addr := EA_d (fst s) inst in store 2 (u16 (R (fst s) (rs inst))) addr s.

Definition STHU (s : state) (inst : Z) : state :=
  let addr := EA_du (fst s) inst in store_update 2 (u16 (R (fst s) (rs inst))) addr inst s.

Definition STHX (s : state) (inst : Z) : state :=
  let addr := EA_x (fst s) inst in store 2 (u16 (R (fst s) (rs inst))) addr s.

Definition STHUX (s : state) (inst : Z) : state :=
  let addr := EA_xu (fst s) inst in store_update 2 (u16 (R (fst s) (rs inst))) addr inst s.

Definition STW (s : state) (inst : Z) : state :=
  let addr := EA_d (fst s) inst in store 4 (u32 (R (fst s) (rs inst))) addr s.

Definition STWU (s : state) (inst : Z) : state :=
  let addr := EA_du (fst s) inst in store_update 4 (u32 (R (fst s) (rs inst))) addr inst s.

Definition STWX (s : state) (inst : Z) : state :=
  let addr := EA_x (fst s) inst in store 4 (u32 (R (fst s) (rs inst))) addr s.

Definition STWUX (s : state) (inst : Z) : state :=
  let addr := EA_xu (fst s) inst in store_update 4 (u32 (R (fst s) (rs inst))) addr inst s.

Definition STD (s : state) (inst : Z) : state :=
  let addr := EA_ds (fst s) inst in store 8 (R (fst s) (rs inst)) addr s.

Definition STDU (s : state) (inst : Z) : state :=
  let addr := EA_dsu (fst s) inst in store_update 8 (R (fst s) (rs inst)) addr inst s.

Definition STDX (s : state) (inst : Z) : state :=
  let addr := EA_x (fst s) inst in store 8 (R (fst s) (rs inst)) addr s.

Definition STDUX (s : state) (inst : Z) : state :=
  let addr := EA_xu (fst s) inst in store_update 8 (R (fst s) (rs inst)) addr inst s.

Definition STHBRX (s : state) (inst : Z) : state :=
  let addr := EA_x (fst s) inst in store_le 2 (u16 (R (fst s) (rs inst))) addr s.

Definition STWBRX (s : state) (inst : Z) : state :=
  let addr := EA_x (fst s) inst in store_le 4 (u32 (R (fst s) (rs inst))) addr s.

Definition STDBRX (s : state) (inst : Z) : state :=
  let addr := EA_x (fst s) inst in store_le 8 (R (fst s) (rs inst)) addr s.

(** ** Multiple and string forms *)

(** [for (u32 i = inst.rd; i < 32; ++i, addr += 4)]. *)
Fixpoint lmw_loop (n : nat) (i addr : Z) (s : state) : state :=
  match n with
  | O => s
  | S n' => lmw_loop n' (i + 1) (u64 (addr + 4)) (setR i (feed 4 (snd s) addr) (fst s), snd s)
  end.

Definition LMW (s : state) (inst : Z) : state :=
  lmw_loop (Z.to_nat (32 - rd inst)) (rd inst) (EA_d (fst s) inst) s.

Fixpoint stmw_loop (n : nat) (i addr : Z) (s : state) : state :=
  match n with
  | O => s
  | S n' => stmw_loop n' (i + 1) (u64 (addr + 4)) (store 4 (u32 (R (fst s) i)) addr s)
  end.

Definition STMW (s : state) (inst : Z) : state :=
  stmw_loop (Z.to_nat (32 - rs inst)) (rs inst) (EA_d (fst s) inst) s.

(** The inner loop of [LSWI] on the last one to three bytes: [buf], [i] and
    [addr] are the source's variables. *)
Fixpoint lswi_tail (N : nat) (buf i addr : Z) (m : mem) : Z :=
  match N with
  | O => buf
  | S N' => lswi_tail N' (buf ||| shl 32 (feed 1 m addr) (i * 8)) (i - 1) (u64 (addr + 1)) m
  end.

(** The outer loop [while (N > 0)]: whole words while [N > 3]. *)
Fixpoint lswi_loop (N : nat) (reg addr : Z) (s : state) : state :=
  match N with
  | O => s
  | S (S (S (S N'))) =>
      lswi_loop N' ((reg + 1) mod 32) (u64 (addr + 4))
        (setR reg (feed 4 (snd s) addr) (fst s), snd s)
  | _ => (setR reg (lswi_tail N 0 3 addr (snd s)) (fst s), snd s)
  end.

(** [inst.rb ? inst.rb : 32]. *)
Definition string_count (inst : Z) : Z := if rb inst =? 0 then 32 else rb inst.

(** [inst.ra ? gpr[ra] : 0]. *)
Definition EA_0 (c : PPUContext) (inst : Z) : Z := if ra inst =? 0 then 0 else R c (ra inst).

Definition LSWI (s : state) (inst : Z) : state :=
  lswi_loop (Z.to_nat (string_count inst)) (rd inst) (EA_0 (fst s) inst) s.

(** The byte loop of [LSWX], [byte] counting up to [count]. *)
Fixpoint lswx_tail (n : nat) (byte value addr : Z) (m : mem) : Z :=
  match n with
  | O => value
  | S n' => lswx_tail n' (byte + 1)
              (value ||| shl 32 (feed 1 m (u64 (addr + byte))) ((3 ^^^ byte) * 8)) addr m
  end.

Fixpoint lswx_loop (count : nat) (reg addr : Z) (s : state) : state :=
  match count with
  | S (S (S (S n'))) =>
      lswx_loop n' ((reg + 1) &&& 31) (u64 (addr + 4))
        (setR reg (feed 4 (snd s) addr) (fst s), snd s)
  | O => s
  | _ => (setR reg (lswx_tail count 0 0 addr (snd s)) (fst s), snd s)
  end.

Definition LSWX (s : state) (inst : Z) : state :=
  lswx_loop (Z.to_nat (xer_cnt (fst s) &&& 0x7f)) (rd inst) (EA_x (fst s) inst) s.

Fixpoint stswi_tail (N : nat) (buf addr : Z) (m : mem) : mem :=
  match N with
  | O => m
  | S N' => stswi_tail N' (shl 32 buf 8) (u64 (addr + 1))
              (vm_write 1 m addr ((0xff000000 &&& buf) >>> 24))
  end.

Fixpoint stswi_loop (N : nat) (reg addr : Z) (s : state) : state :=
  match N with
  | O => s
  | S (S (S (S N'))) =>
      stswi_loop N' ((reg + 1) mod 32) (u64 (addr + 4)) (store 4 (u32 (R (fst s) reg)) addr s)
  | _ => (fst s, stswi_tail N (u32 (R (fst s) reg)) addr (snd s))
  end.

Definition STSWI (s : state) (inst : Z) : state :=
  stswi_loop (Z.to_nat (string_count inst)) (rd inst) (EA_0 (fst s) inst) s.

Fixpoint stswx_tail (n : nat) (byte value addr : Z) (m : mem) : mem :=
  match n with
  | O => m
  | S n' => stswx_tail n' (byte + 1) value addr
              (vm_write 1 m (u64 (addr + byte)) (u8 (value >>> ((3 ^^^ byte) * 8))))
  end.

Fixpoint stswx_loop (count : nat) (reg addr : Z) (s : state) : state :=
  match count with
  | S (S (S (S n'))) =>
      stswx_loop n' ((reg + 1) &&& 31) (u64 (addr + 4)) (store 4 (u32 (R (fst s) reg)) addr s)
  | O => s
  | _ => (fst s, stswx_tail count 0 (u32 (R (fst s) reg)) addr (snd s))
  end.

Definition STSWX (s : state) (inst : Z) : state :=
  stswx_loop (Z.to_nat (xer_cnt (fst s) &&& 0x7f)) (rs inst) (EA_x (fst s) inst) s.

(** ** Double-precision registers, as 64-bit patterns *)

Definition LFD (s : state) (inst : Z) : state :=
  let addr := EA_d (fst s) inst in
  (with_fpr (rset (fpr (fst s)) (frd inst) (feed 8 (snd s) addr)) (fst s), snd s).

Definition LFDU (s : state) (inst : Z) : state :=
  let addr := EA_du (fst s) inst in
  (setR (ra inst) addr (with_fpr (rset (fpr (fst s)) (frd inst) (feed 8 (snd s) addr)) (fst s)), snd s).

Definition LFDX (s : state) (inst : Z) : state :=
  let addr := EA_x (fst s) inst in
  (with_fpr (rset (fpr (fst s)) (frd inst) (feed 8 (snd s) addr)) (fst s), snd s).

Definition LFDUX (s : state) (inst : Z) : state :=
  let addr := EA_xu (fst s) inst in
  (setR (ra inst) addr (with_fpr (rset (fpr (fst s)) (frd inst) (feed 8 (snd s) addr)) (fst s)), snd s).

Definition STFD (s : state) (inst : Z) : state :=
  let addr := EA_d (fst s) inst in store 8 (rget (fpr (fst s)) (frs inst)) addr s.

Definition STFDU (s : state) (inst : Z) : state :=
  let addr := EA_du (fst s) inst in store_update 8 (rget (fpr (fst s)) (frs inst)) addr inst s.

Definition STFDX (s : state) (inst : Z) : state :=
  let addr := EA_x (fst s) inst in store 8 (rget (fpr (fst s)) (frs inst)) addr s.

Definition STFDUX (s : state) (inst : Z) : state :=
  let addr := EA_xu (fst s) inst in store_update 8 (rget (fpr (fst s)) (frs inst)) addr inst s.

Definition STFIWX (s : state) (inst : Z) : state :=
  let addr := EA_x (fst s) inst in store 4 (u32 (rget (fpr (fst s)) (frs inst))) addr s.

(** ** Memory laws *)

(** Memories are compared on the 64-bit offsets. *)
Definition mem_eq (m1 m2 : mem) : Prop := forall a, urange 64 a -> m1 a = m2 a.

#[export] Instance mem_eq_equiv : Equivalence mem_eq.
Proof.
  split.
  - by intros m a Ha.
  - intros m1 m2 H a Ha. symmetry. by apply H.
  - intros m1 m2 m3 H1 H2 a Ha. etransitivity; [by apply H1 | by apply H2].
Qed.

#[export] Instance vm_read_proper : Proper (mem_eq ==> eq ==> eq ==> eq) rpcsx_vm_read.
Proof.
  intros m1 m2 H a _ <- n _ <-. unfold rpcsx_vm_read. apply list_fmap_ext.
  intros i x _. apply H. ranges.
Qed.

#[export] Instance vm_write_proper : Proper (mem_eq ==> eq ==> eq ==> mem_eq) rpcsx_vm_write.
Proof.
  intros m1 m2 H a _ <- l _ <- x Hx. unfold rpcsx_vm_write. by rewrite (H x Hx).
Qed.

(** Distance from the start of a copied range. *)
Lemma offset_in a k : 0 <= k < 2 ^ 64 -> u64 (u64 (a + k) - a) = k.
Proof.
  intros Hk. rewrite wrap_sub_l by lia. replace (a + k - a) with k by lia.
  by apply wrap_id.
Qed.

Lemma offset_add x a k : u64 (x - u64 (a + k)) = u64 (u64 (x - a) - k).
Proof. rewrite wrap_sub_r, wrap_sub_l by lia. f_equal. lia. Qed.

Lemma vm_read_length m a n : length (rpcsx_vm_read m a n) = n.
Proof. unfold rpcsx_vm_read. by rewrite length_fmap, length_seq. Qed.

Lemma vm_read_lookup m a n i :
  (i < n)%nat -> rpcsx_vm_read m a n !! i = Some (m (u64 (a + Z.of_nat i))).
Proof. intros. unfold rpcsx_vm_read. by rewrite list_lookup_fmap, lookup_seq_lt. Qed.

Lemma vm_read_write_same m a l :
  Z.of_nat (length l) <= 2 ^ 64 ->
  rpcsx_vm_read (rpcsx_vm_write m a l) a (length l) = l.
Proof.
  intros Hl. apply list_eq. intros i. destruct (decide (i < length l)%nat) as [Hi|Hi].
  - rewrite vm_read_lookup by done. unfold rpcsx_vm_write.
    rewrite offset_in, Nat2Z.id by lia. destruct (lookup_lt_is_Some_2 l i Hi) as [v Hv].
    by rewrite Hv.
  - rewrite !lookup_ge_None_2; rewrite ?vm_read_length; try done; lia.
Qed.

(** A read that does not overlap the written range is unaffected. *)
Lemma vm_read_write_disjoint m a l b n :
  (forall i, (i < n)%nat -> Z.of_nat (length l) <= u64 (b + Z.of_nat i - a)) ->
  rpcsx_vm_read (rpcsx_vm_write m a l) b n = rpcsx_vm_read m b n.
Proof.
  intros Hd. apply list_eq. intros i. destruct (decide (i < n)%nat) as [Hi|Hi].
  - rewrite !vm_read_lookup by done. unfold rpcsx_vm_write. f_equal.
    rewrite wrap_sub_l by lia. specialize (Hd i Hi).
    rewrite lookup_ge_None_2 by lia. done.
  - rewrite !lookup_ge_None_2; rewrite ?vm_read_length; try done; lia.
Qed.

(** Two adjacent writes are one. *)
Lemma vm_write_app m a l1 l2 :
  Z.of_nat (length l1 + length l2) <= 2 ^ 64 ->
  mem_eq (rpcsx_vm_write (rpcsx_vm_write m a l1) (u64 (a + Z.of_nat (length l1))) l2)
         (rpcsx_vm_write m a (l1 ++ l2)).
Proof.
  intros Hl x Hx. unfold rpcsx_vm_write. rewrite offset_add.
  set (d := u64 (x - a)). assert (urange 64 d) as Hd by (apply wrap_range; lia). clearbody d.
  unfold urange in Hd. destruct (Z.lt_ge_cases d (Z.of_nat (length l1))) as [Hlt|Hge].
  - rewrite lookup_app_l by lia.
    rewrite (lookup_ge_None_2 l2); [done|].
    rewrite (wrap_unique 64 (d - Z.of_nat (length l1)) (d - Z.of_nat (length l1) + 2 ^ 64) (-1));
      unfold urange; lia.
  - rewrite wrap_id by (unfold urange; lia). rewrite lookup_app_r by lia.
    rewrite (lookup_ge_None_2 l1) by lia. simpl.
    by replace (Z.to_nat (d - Z.of_nat (length l1))) with (Z.to_nat d - length l1)%nat by lia.
Qed.

Lemma vm_write_nil m a : mem_eq (rpcsx_vm_write m a []) m.
Proof. intros x Hx. unfold rpcsx_vm_write. by rewrite lookup_nil. Qed.

(** ** Round trips of the scalar forms *)

Lemma feed_vm_write n m a v :
  Z.of_nat n <= 2 ^ 64 -> feed n (vm_write n m a v) a = wrap (8 * Z.of_nat n) v.
Proof.
  intros Hn. unfold feed, vm_write.
  pose proof (vm_read_write_same m a (be_split n v)) as H. rewrite be_split_length in H.
  rewrite H by done. apply be_val_split.
Qed.

Lemma feed_le_vm_write_le n m a v :
  Z.of_nat n <= 2 ^ 64 -> feed_le n (vm_write_le n m a v) a = wrap (8 * Z.of_nat n) v.
Proof.
  intros Hn. unfold feed_le, vm_write_le, le_val.
  pose proof (vm_read_write_same m a (le_split 8 n v)) as H. rewrite le_split_length in H.
  rewrite H by done. by apply le_radix_split.
Qed.

(** Reading back with the other byte order reverses the bytes. *)
Lemma feed_le_vm_write n m a v :
  Z.of_nat n <= 2 ^ 64 -> feed_le n (vm_write n m a v) a = be_val (le_split 8 n v).
Proof.
  intros Hn. unfold feed_le, vm_write, le_val.
  pose proof (vm_read_write_same m a (be_split n v)) as H. rewrite be_split_length in H.
  rewrite H by done. done.
Qed.

Lemma le_split_wrap k n v :
  0 <= k -> le_split k n (wrap (k * Z.of_nat n) v) = le_split k n v.
Proof.
  intros Hk. revert v. induction n as [|n IH]; intros v; cbn [le_split]; [done|]. f_equal.
  - apply wrap_wrap_le. lia.
  - rewrite <- (IH (v >>> k)). f_equal. apply Z.bits_inj'. intros i Hi.
    rewrite Z.shiftr_spec, !testbit_wrap, Z.shiftr_spec by lia.
    zbool; cbn [andb]; try done; lia.
Qed.

Lemma rd_range inst : urange 5 (rd inst).
Proof. apply bf_u_5_range. lia. Qed.

Lemma ra_range inst : urange 5 (ra inst).
Proof. apply bf_u_5_range. lia. Qed.

Lemma rs_R_range c inst : wf_ctx c -> urange 64 (R c (rs inst)).
Proof. intros. apply R_range; [done|]. apply bf_u_5_range. lia. Qed.

#[export] Hint Resolve rd_range ra_range rs_R_range : mach.

(** The effective addresses are 64-bit. *)
Lemma EA_range c inst :
  wf_ctx c ->
  urange 64 (EA_x c inst) /\ urange 64 (EA_xu c inst) /\ urange 64 (EA_d c inst) /\
  urange 64 (EA_du c inst) /\ urange 64 (EA_ds c inst) /\ urange 64 (EA_dsu c inst) /\
  urange 64 (EA_0 c inst).
Proof.
  intros Hwf. unfold EA_x, EA_xu, EA_d, EA_du, EA_ds, EA_dsu, EA_0.
  assert (urange 64 (R c (rb inst))) by (apply R_range; [done|]; apply bf_u_5_range; lia).
  assert (urange 64 (R c (ra inst))) by (apply R_range; [done|]; apply bf_u_5_range; lia).
  split_and!; destruct (ra inst =? 0); ranges.
Qed.

(** What a scalar store writes the matching load reads back, truncated
    to the stored width and zero- or sign-extended to 64 bits, for bytes,
    halfwords, words and doublewords in displacement and indexed forms, for
    the byte-reversed pairs, and bit for bit for double-precision registers;
    a byte-reversed load of a plainly stored word is the byte-swapped
    register; a store leaves every register alone. *)
Theorem store_load_roundtrip s inst :
  wf_ctx (fst s) ->
  let v := R (fst s) (rs inst) in
  let reads st ld expected :=
    fst (st s inst) = fst s /\ R (fst (ld (st s inst) inst)) (rd inst) = expected in
  reads STB LBZ (u8 v) /\ reads STBX LBZX (u8 v) /\
  reads STH LHZ (u16 v) /\ reads STHX LHZX (u16 v) /\
  reads STH LHA (u64 (s16 v)) /\ reads STHX LHAX (u64 (s16 v)) /\
  reads STW LWZ (u32 v) /\ reads STWX LWZX (u32 v) /\ reads STWX LWAX (u64 (s32 v)) /\
  reads STD LD v /\ reads STDX LDX v /\
  reads STHBRX LHBRX (u16 v) /\ reads STWBRX LWBRX (u32 v) /\ reads STDBRX LDBRX v /\
  reads STWX LWBRX (be_val (le_split 8 4 v)) /\
  rget (fpr (fst (LFD (STFD s inst) inst))) (frd inst) = rget (fpr (fst s)) (frs inst).
Proof.
  intros Hwf. cbv zeta. destruct s as [c m]. cbn [fst] in Hwf.
  pose proof (rs_R_range c inst Hwf) as Hv.
  pose proof (le_split_wrap 8 4 (R c (rs inst)) ltac:(lia)) as Ele.
  split_and!; try done;
    lazymatch goal with |- R (fst (?ld _ _)) _ = _ => unfold ld | _ => idtac end;
    lazymatch goal with |- context [snd (?st _ _)] => unfold st | _ => idtac end;
    unfold load, store, store_le; cbn [fst snd];
    try (rewrite R_setR_eq by (done || apply rd_range);
         unfold feed_s; rewrite ?feed_vm_write, ?feed_le_vm_write_le, ?feed_le_vm_write by lia;
         cbn [Z.of_nat Z.mul Pos.mul Pos.of_succ_nat Pos.succ];
         rewrite ?wrap_wrap, ?sext_wrap, ?wrap_id by (done || lia); congruence).
  - rewrite R_setR_eq, feed_le_vm_write by (done || lia || apply rd_range).
    f_equal. exact Ele.
  - unfold LFD, STFD, store; cbn [fst snd fpr with_fpr].
    rewrite feed_vm_write, rget_rset_eq; [|rewrite (wf_fpr_len c Hwf)|lia].
    + apply wrap_id. apply (rget_Forall (urange 64)); [apply Hwf|].
      rewrite (wf_fpr_len c Hwf).
      pose proof (rd_range inst : urange 5 (frs inst)) as []. lia.
    + pose proof (rd_range inst : urange 5 (frd inst)) as []. lia.
Qed.

(** [std r4, 8(r5)] then [ld]; [sth] then [lha] of a negative halfword. *)
Lemma store_load_roundtrip_witness :
  let s := (sample_ctx 0x89abcdef 0x1000, fun _ : Z => 0) in
  wf_ctx (fst s) /\ R (fst (LD (STD s 0xf8850008) 0xf8850008)) 4 = 0x89abcdef /\
  R (fst (LHA (STH s 0xb0850002) 0xb0850002)) 4 = 2 ^ 64 - 0x3211.
Proof.
  cbv zeta. assert (wf_ctx (sample_ctx 0x89abcdef 0x1000)) as Hwf
    by (apply sample_ctx_wf; unfold urange; lia).
  pose proof (store_load_roundtrip (sample_ctx 0x89abcdef 0x1000, fun _ : Z => 0) 0xf8850008 Hwf)
    as (_ & _ & _ & _ & _ & _ & _ & _ & _ & H1 & _).
  pose proof (store_load_roundtrip (sample_ctx 0x89abcdef 0x1000, fun _ : Z => 0) 0xb0850002 Hwf)
    as (_ & _ & _ & _ & H2 & _).
  split_and!; [exact Hwf | etransitivity; [apply H1|]; reflexivity
              | etransitivity; [apply H2|]; reflexivity].
Defined.

(** ** String instructions

    Reference: [n] consecutive bytes correspond to the low words of
    consecutive registers (modulo 32), most significant byte first, the last
    word left-justified. *)

Fixpoint string_bytes (c : PPUContext) (reg : Z) (n : nat) : list Z :=
  match n with
  | S (S (S (S n'))) => be_split 4 (R c reg) ++ string_bytes c ((reg + 1) mod 32) n'
  | _ => take n (be_split 4 (R c reg))
  end.

Fixpoint string_load (c : PPUContext) (reg : Z) (l : list Z) : PPUContext :=
  match l with
  | b0 :: b1 :: b2 :: b3 :: l' =>
      string_load (setR reg (be_val [b0; b1; b2; b3]) c) ((reg + 1) mod 32) l'
  | [] => c
  | _ => setR reg (be_val (take 4 (l ++ [0; 0; 0]))) c
  end.

Definition wf_mem (m : mem) : Prop := forall a, urange 8 (m a).

(** Induction by whole words. *)
Lemma nat_ind4 (P : nat -> Prop) :
  P 0%nat -> P 1%nat -> P 2%nat -> P 3%nat -> (forall n, P n -> P (S (S (S (S n))))) ->
  forall n, P n.
Proof.
  intros H0 H1 H2 H3 HS. assert (forall n, P n /\ P (S n) /\ P (S (S n)) /\ P (S (S (S n)))) as H.
  { induction n as [|n (? & ? & ? & ?)]; auto. }
  intros n. apply H.
Qed.

Lemma be_split_4 v : be_split 4 v = [u8 (v >>> 24); u8 (v >>> 16); u8 (v >>> 8); u8 v].
Proof.
  unfold be_split. cbn [le_split rev app]. rewrite !Z.shiftr_shiftr by lia. done.
Qed.

Lemma be_split_4_wrap v : be_split 4 (u32 v) = be_split 4 v.
Proof. unfold be_split. f_equal. apply (le_split_wrap 8 4). lia. Qed.

Lemma byte_of_shl v k : 8 <= k <= 24 -> u8 (shl 32 v 8 >>> k) = u8 (v >>> (k - 8)).
Proof.
  intros Hk. apply Z.bits_inj'. intros i Hi. unfold shl.
  rewrite !testbit_wrap, !Z.shiftr_spec, testbit_wrap, Z.shiftl_spec by lia.
  destruct (Z.ltb_spec i 8), (Z.ltb_spec (i + k) 32); cbn [andb]; try done; try lia.
  f_equal. lia.
Qed.

Lemma byte_of_shl_0 v : u8 (shl 32 v 8) = 0.
Proof.
  apply Z.bits_inj'. intros i Hi. unfold shl.
  rewrite !testbit_wrap, Z.shiftl_spec, Z.bits_0 by lia.
  destruct (Z.ltb_spec i 8); [|done]. rewrite Z.testbit_neg_r by lia. by rewrite andb_false_r.
Qed.

(** The byte loops write the leading bytes of the big-endian word. *)
Lemma stswi_tail_spec n buf addr m :
  (n <= 4)%nat -> urange 32 buf ->
  mem_eq (stswi_tail n buf addr m) (rpcsx_vm_write m addr (take n (be_split 4 buf))).
Proof.
  revert buf addr m. induction n as [|n IH]; intros buf addr m Hn Hb; cbn [stswi_tail].
  - by rewrite vm_write_nil.
  - rewrite IH by (lia || apply shl_range; lia). unfold vm_write.
    pose proof (vm_write_app m addr (be_split 1 ((0xff000000 &&& buf) >>> 24))
                  (take n (be_split 4 (shl 32 buf 8)))) as Happ.
    rewrite be_split_length in Happ. change (Z.of_nat 1) with 1 in Happ. rewrite Happ.
    2:{ rewrite length_take, be_split_length. lia. }
    assert (be_split 1 ((0xff000000 &&& buf) >>> 24) = [u8 (buf >>> 24)]) as ->.
    { unfold be_split. cbn [le_split rev app]. f_equal. apply Z.bits_inj'. intros i Hi.
      rewrite !testbit_wrap, !Z.shiftr_spec, Z.land_spec by lia.
      destruct (Z.ltb_spec i 8); [|done]. cbn [andb].
      replace 0xff000000 with (Z.shiftl (Z.ones 8) 24) by reflexivity.
      rewrite Z.shiftl_spec, Z.ones_spec_low by lia. done. }
    assert (be_split 4 (shl 32 buf 8) = [u8 (buf >>> 16); u8 (buf >>> 8); u8 buf; 0]) as ->.
    { by rewrite be_split_4, !byte_of_shl, byte_of_shl_0 by lia. }
    rewrite be_split_4. do 3 (destruct n as [|n]; [done|]). destruct n; [done|lia].
Qed.

Lemma stswx_tail_spec n byte value addr m :
  0 <= byte -> byte + Z.of_nat n <= 4 ->
  mem_eq (stswx_tail n byte value addr m)
    (rpcsx_vm_write m (u64 (addr + byte)) (take n (drop (Z.to_nat byte) (be_split 4 value)))).
Proof.
  revert byte m. induction n as [|n IH]; intros byte m Hb Hn; cbn [stswx_tail].
  - by rewrite vm_write_nil.
  - rewrite IH by lia. unfold vm_write.
    pose proof (vm_write_app m (u64 (addr + byte)) (be_split 1 (u8 (value >>> ((3 ^^^ byte) * 8))))
                  (take n (drop (Z.to_nat (byte + 1)) (be_split 4 value)))) as Happ.
    rewrite be_split_length, wrap_add_l in Happ by lia. change (Z.of_nat 1) with 1 in Happ.
    rewrite <- Z.add_assoc in Happ. rewrite Happ.
    2:{ rewrite length_take, length_drop, be_split_length. lia. }
    assert (be_split 1 (u8 (value >>> ((3 ^^^ byte) * 8))) ++
            take n (drop (Z.to_nat (byte + 1)) (be_split 4 value)) =
            take (S n) (drop (Z.to_nat byte) (be_split 4 value))) as ->; [|done].
    unfold be_split at 1. cbn [le_split rev app]. rewrite wrap_wrap, be_split_4 by lia.
    zenum byte 0 4%nat; reflexivity.
Qed.

Lemma string_bytes_length c n : forall reg, length (string_bytes c reg n) = n.
Proof.
  induction n as [| | | |n IH] using nat_ind4; intros reg; cbn [string_bytes];
    rewrite ?length_take, ?be_split_length; try done.
  by rewrite length_app, be_split_length, IH.
Qed.

(** One whole word, then the rest. *)
Lemma string_step c reg addr m m' n :
  Z.of_nat n + 4 <= 2 ^ 64 ->
  mem_eq m' (rpcsx_vm_write (vm_write 4 m addr (u32 (R c reg))) (u64 (addr + 4))
               (string_bytes c ((reg + 1) mod 32) n)) ->
  mem_eq m' (rpcsx_vm_write m addr (string_bytes c reg (S (S (S (S n)))))).
Proof.
  intros Hn ->. unfold vm_write. rewrite be_split_4_wrap.
  pose proof (vm_write_app m addr (be_split 4 (R c reg))
                (string_bytes c ((reg + 1) mod 32) n)) as H.
  rewrite be_split_length, string_bytes_length in H. change (Z.of_nat 4) with 4 in H.
  apply H. lia.
Qed.

Lemma stswi_loop_spec c n : forall reg addr m,
  Z.of_nat n <= 2 ^ 32 ->
  fst (stswi_loop n reg addr (c, m)) = c /\
  mem_eq (snd (stswi_loop n reg addr (c, m))) (rpcsx_vm_write m addr (string_bytes c reg n)).
Proof.
  induction n as [| | | |n IH] using nat_ind4; intros reg addr m Hn;
    cbn [stswi_loop fst snd].
  - split; [done|]. cbn [string_bytes take]. by rewrite vm_write_nil.
  - split; [done|]. rewrite stswi_tail_spec by (lia || apply wrap_range; lia).
    by rewrite be_split_4_wrap.
  - split; [done|]. rewrite stswi_tail_spec by (lia || apply wrap_range; lia).
    by rewrite be_split_4_wrap.
  - split; [done|]. rewrite stswi_tail_spec by (lia || apply wrap_range; lia).
    by rewrite be_split_4_wrap.
  - unfold store at 1 2. cbn [fst snd].
    destruct (IH ((reg + 1) mod 32) (u64 (addr + 4)) (vm_write 4 m addr (u32 (R c reg))))
      as [H1 H2]; [lia|].
    split; [done|]. eapply string_step; [lia|]. exact H2.
Qed.

Lemma stswx_loop_spec c n : forall reg addr m,
  Z.of_nat n <= 2 ^ 32 -> urange 64 addr ->
  fst (stswx_loop n reg addr (c, m)) = c /\
  mem_eq (snd (stswx_loop n reg addr (c, m))) (rpcsx_vm_write m addr (string_bytes c reg n)).
Proof.
  induction n as [| | | |n IH] using nat_ind4; intros reg addr m Hn Ha;
    cbn [stswx_loop fst snd].
  - split; [done|]. cbn [string_bytes take]. by rewrite vm_write_nil.
  - split; [done|]. rewrite stswx_tail_spec by lia.
    by rewrite be_split_4_wrap, Z.add_0_r, wrap_id.
  - split; [done|]. rewrite stswx_tail_spec by lia.
    by rewrite be_split_4_wrap, Z.add_0_r, wrap_id.
  - split; [done|]. rewrite stswx_tail_spec by lia.
    by rewrite be_split_4_wrap, Z.add_0_r, wrap_id.
  - unfold store at 1 2. cbn [fst snd]. rewrite land_31.
    destruct (IH ((reg + 1) mod 32) (u64 (addr + 4)) (vm_write 4 m addr (u32 (R c reg))))
      as [H1 H2]; [lia|apply wrap_range; lia|].
    split; [done|]. eapply string_step; [lia|]. exact H2.
Qed.

(** ** String loads *)

Lemma feed_1 m a : urange 64 a -> feed 1 m a = m a.
Proof.
  intros Ha. unfold feed, be_val, rpcsx_vm_read.
  cbn [seq fmap list_fmap rev app le_radix Z.of_nat].
  change (Z.of_nat 0) with 0. rewrite (Z.add_0_r a), (wrap_id 64 a) by done. lia.
Qed.

(** Or-ing the shifted bytes of a word. *)
Lemma or_bytes b0 b1 b2 b3 :
  urange 8 b0 -> urange 8 b1 -> urange 8 b2 -> urange 8 b3 ->
  shl 32 b0 24 ||| shl 32 b1 16 ||| shl 32 b2 8 ||| b3 = be_val [b0; b1; b2; b3].
Proof.
  intros H0 H1 H2 H3. unfold be_val. cbn [rev app le_radix].
  rewrite (Z.mul_0_r (2 ^ 8)), (Z.add_0_r b0).
  rewrite !add_shifted_lor by (done || lia).
  rewrite !Z.shiftl_lor, !Z.shiftl_shiftl by lia. unfold shl.
  assert (forall b k, urange 8 b -> 0 <= k <= 24 -> u32 (Z.shiftl b k) = Z.shiftl b k) as Hs.
  { intros b k Hb Hk. apply wrap_id. rewrite Z.shiftl_mul_pow2 by lia. unfold urange in *.
    assert (0 < 2 ^ k <= 2 ^ 24) by (split; [apply pow2_pos; lia | apply Z.pow_le_mono_r; lia]).
    change (2 ^ 8) with 256 in *. change (2 ^ 32) with (256 * 2 ^ 24). nia. }
  rewrite !Hs by (done || lia).
  apply Z.bits_inj'. intros i Hi. rewrite !Z.lor_spec.
  change (8 + 8) with 16. change (8 + 16) with 24.
  by repeat match goal with |- context [Z.testbit ?x i] => destruct (Z.testbit x i) end.
Qed.

Section StringLoads.

Context (m : mem).
Hypothesis Hm : wf_mem m.

Lemma u64_shift2 a i j : u64 (u64 (a + i) + j) = u64 (a + (i + j)).
Proof. rewrite wrap_add_l by lia. f_equal. lia. Qed.

Lemma lswi_tail_spec n addr :
  (1 <= n <= 3)%nat -> urange 64 addr ->
  lswi_tail n 0 3 addr m = be_val (take 4 (rpcsx_vm_read m addr n ++ [0; 0; 0])).
Proof.
  intros Hn Ha. assert (urange 8 0) as H0 by (unfold urange; lia).
  assert (shl 32 0 16 = 0 /\ shl 32 0 8 = 0) as [Ez1 Ez2] by done.
  destruct n as [|[|[|[|n]]]]; try lia; cbn [lswi_tail];
    rewrite !feed_1 by (done || apply wrap_range; lia);
    unfold rpcsx_vm_read; cbn [seq fmap list_fmap app take Z.of_nat Pos.of_succ_nat Pos.succ];
    rewrite ?u64_shift2, Z.add_0_r, (wrap_id 64 addr) by done;
    rewrite <- or_bytes by (done || apply Hm);
    rewrite ?Ez1, ?Ez2, ?Z.lor_0_r, ?Z.lor_0_l; reflexivity.
Qed.

Lemma lswx_tail_spec n addr :
  (1 <= n <= 3)%nat -> urange 64 addr ->
  lswx_tail n 0 0 addr m = be_val (take 4 (rpcsx_vm_read m addr n ++ [0; 0; 0])).
Proof.
  intros Hn Ha. assert (urange 8 0) as H0 by (unfold urange; lia).
  assert (shl 32 0 16 = 0 /\ shl 32 0 8 = 0) as [Ez1 Ez2] by done.
  destruct n as [|[|[|[|n]]]]; try lia; cbn [lswx_tail];
    rewrite !feed_1 by (done || apply wrap_range; lia);
    unfold rpcsx_vm_read; cbn [seq fmap list_fmap app take Z.of_nat Pos.of_succ_nat Pos.succ];
    rewrite ?Z.add_0_r, ?(wrap_id 64 addr) by done;
    rewrite <- or_bytes by (done || apply Hm);
    rewrite ?Ez1, ?Ez2, ?Z.lor_0_r, ?Z.lor_0_l; reflexivity.
Qed.

Lemma vm_read_S4 addr n :
  urange 64 addr ->
  rpcsx_vm_read m addr (S (S (S (S n)))) =
    m addr :: m (u64 (addr + 1)) :: m (u64 (addr + 2)) :: m (u64 (addr + 3)) ::
    rpcsx_vm_read m (u64 (addr + 4)) n.
Proof.
  intros Ha. unfold rpcsx_vm_read. cbn [seq fmap list_fmap].
  rewrite Z.add_0_r, wrap_id by done. do 4 f_equal.
  change (list_fmap Z Z) with (@fmap list list_fmap Z Z).
  change (seq 4 n) with (seq (4 + 0) n). rewrite <- (fmap_add_seq 4 0 n). rewrite <- list_fmap_compose. apply list_fmap_ext.
  intros i x _. unfold compose. rewrite u64_shift2. do 2 f_equal. lia.
Qed.

Lemma feed_4 addr :
  urange 64 addr ->
  feed 4 m addr = be_val [m addr; m (u64 (addr + 1)); m (u64 (addr + 2)); m (u64 (addr + 3))].
Proof. intros. unfold feed. by rewrite vm_read_S4. Qed.

Lemma lswi_loop_spec n : forall c reg addr,
  urange 64 addr ->
  lswi_loop n reg addr (c, m) = (string_load c reg (rpcsx_vm_read m addr n), m).
Proof.
  induction n as [| | | |n IH] using nat_ind4; intros c reg addr Ha; cbn [lswi_loop fst snd].
  - done.
  - by rewrite lswi_tail_spec by (done || lia).
  - by rewrite lswi_tail_spec by (done || lia).
  - by rewrite lswi_tail_spec by (done || lia).
  - rewrite IH, vm_read_S4, feed_4 by (done || apply wrap_range; lia). done.
Qed.

Lemma lswx_loop_spec n : forall c reg addr,
  urange 64 addr ->
  lswx_loop n reg addr (c, m) = (string_load c reg (rpcsx_vm_read m addr n), m).
Proof.
  induction n as [| | | |n IH] using nat_ind4; intros c reg addr Ha; cbn [lswx_loop fst snd].
  - done.
  - by rewrite lswx_tail_spec by (done || lia).
  - by rewrite lswx_tail_spec by (done || lia).
  - by rewrite lswx_tail_spec by (done || lia).
  - rewrite IH, vm_read_S4, feed_4, land_31 by (done || apply wrap_range; lia). done.
Qed.

Lemma lmw_loop_spec n : forall c reg addr,
  urange 64 addr -> 0 <= reg -> reg + Z.of_nat n <= 32 ->
  lmw_loop n reg addr (c, m) = (string_load c reg (rpcsx_vm_read m addr (4 * n)), m).
Proof.
  induction n as [|n IH]; intros c reg addr Ha Hr Hn; cbn [lmw_loop fst snd]; [done|].
  replace (4 * S n)%nat with (S (S (S (S (4 * n))))) by lia.
  rewrite vm_read_S4, feed_4 by done. cbn [string_load].
  rewrite IH by (lia || apply wrap_range; lia).
  destruct n as [|n]; [done|]. by rewrite Z.mod_small by lia.
Qed.

End StringLoads.

Lemma stmw_loop_spec c n : forall reg addr m,
  0 <= reg -> reg + Z.of_nat n <= 32 ->
  fst (stmw_loop n reg addr (c, m)) = c /\
  mem_eq (snd (stmw_loop n reg addr (c, m)))
    (rpcsx_vm_write m addr (string_bytes c reg (4 * n))).
Proof.
  induction n as [|n IH]; intros reg addr m Hr Hn; cbn [stmw_loop fst snd].
  - split; [done|]. cbn [string_bytes take Nat.mul]. by rewrite vm_write_nil.
  - replace (4 * S n)%nat with (S (S (S (S (4 * n))))) by lia.
    unfold store at 1 2. cbn [fst snd].
    destruct (IH (reg + 1) (u64 (addr + 4)) (vm_write 4 m addr (u32 (R c reg))))
      as [H1 H2]; [lia|lia|].
    split; [done|]. eapply string_step; [lia|]. rewrite H2.
    destruct n as [|n]; [done|]. by rewrite (Z.mod_small (reg + 1)) by lia.
Qed.

(** The string and multiple instructions, six different loops, move the
    same byte string: STSWI, STSWX and STMW write exactly the bytes of the
    low words of consecutive registers (modulo 32), most significant first,
    and nothing else; LSWI, LSWX and LMW load consecutive registers from
    consecutive bytes, the last partial word left-justified and zero-filled;
    none of them changes memory (loads) or registers (stores). *)
Theorem string_family_spec c m inst :
  wf_ctx c -> wf_mem m ->
  let n := Z.to_nat (string_count inst) in
  let x := Z.to_nat (xer_cnt c &&& 0x7f) in
  let w := (4 * Z.to_nat (32 - rd inst))%nat in
  let writes st addr n :=
    fst (st (c, m) inst) = c /\
    mem_eq (snd (st (c, m) inst)) (rpcsx_vm_write m addr (string_bytes c (rd inst) n)) in
  let loads ld addr n :=
    ld (c, m) inst = (string_load c (rd inst) (rpcsx_vm_read m addr n), m) in
  writes STSWI (EA_0 c inst) n /\ writes STSWX (EA_x c inst) x /\ writes STMW (EA_d c inst) w /\
  loads LSWI (EA_0 c inst) n /\ loads LSWX (EA_x c inst) x /\ loads LMW (EA_d c inst) w.
Proof.
  intros Hwf Hm. cbv zeta.
  destruct (EA_range c inst Hwf) as (Hx & _ & Hd & _ & _ & _ & H0).
  pose proof (rd_range inst) as Hrd. unfold urange in Hrd. change (2 ^ 5) with 32 in Hrd.
  assert (Z.of_nat (Z.to_nat (string_count inst)) <= 2 ^ 32) as Hn.
  { unfold string_count. pose proof (bf_u_5_range 16 inst ltac:(lia)) as Hb.
    change (bf_u 16 5 inst) with (rb inst) in Hb. unfold urange in Hb.
    destruct (rb inst =? 0); lia. }
  assert (Z.of_nat (Z.to_nat (xer_cnt c &&& 0x7f)) <= 2 ^ 32) as Hc.
  { rewrite land_127. pose proof (Z.mod_pos_bound (xer_cnt c) 128). lia. }
  split_and!.
  - by apply stswi_loop_spec.
  - by apply stswi_loop_spec.
  - by apply stswx_loop_spec.
  - by apply stswx_loop_spec.
  - apply stmw_loop_spec; unfold rs, rd in *; lia.
  - apply stmw_loop_spec; unfold rs, rd in *; lia.
  - by apply lswi_loop_spec.
  - by apply lswx_loop_spec.
  - apply lmw_loop_spec; done || lia.
Qed.

(** [stswi r4, r5, 6]: six bytes of r4 and r5. *)
Lemma string_family_spec_witness :
  let c := sample_ctx 0x11223344 0x1000 in
  let m := fun _ : Z => 0 in
  wf_ctx c /\ wf_mem m /\
  rpcsx_vm_read (snd (STSWI (c, m) 0x7c8535aa)) 0x1000 6 = [0x11; 0x22; 0x33; 0x44; 0; 0].
Proof.
  cbv zeta. assert (wf_ctx (sample_ctx 0x11223344 0x1000)) as Hwf
    by (apply sample_ctx_wf; unfold urange; lia).
  assert (wf_mem (fun _ : Z => 0)) as Hm by (intros a; unfold urange; lia).
  destruct (string_family_spec _ _ 0x7c8535aa Hwf Hm) as ((_ & H) & _).
  split_and!; [exact Hwf | exact Hm |].
  rewrite (vm_read_proper _ _ H _ _ eq_refl _ _ eq_refl). reflexivity.
Defined.
