(* ===== verification/PpuVecMem.v ===== *)
(** * PPU vector loads and stores

    The aligned, element and unaligned (left and right) vector loads and
    stores of [semantic/ppu.cpp] over the memory of [PpuLoadStore].  A vector
    register is a 128-bit number whose most significant byte is the first in
    guest memory.  The theorems are the idioms programs use the unaligned
    forms for. *)

From stdpp Require Import base numbers list tactics.
From Stdlib Require Import Lia.
From S2P Require Import Prelude Asm PpuInstruction PpuContext PpuArith PpuLogic PpuLoadStore.
Import Instruction.
Open Scope Z_scope.
Open Scope mach_scope.

(** ** Vector loads and stores *)

Definition V (c : PPUContext) (i : Z) : Z := rget (vr c) i.

Definition setV (i v : Z) (s : state) : state := (with_vr (rset (vr (fst s)) i v) (fst s), snd s).

(** Byte [k] of a vector register in memory order of the host, and [u8r],
    which counts from the other end. *)
Definition v_u8 (v k : Z) : Z := u8 (v >>> (8 * k)).

Definition v_u8r (v k : Z) : Z := v_u8 v (15 - k).

Definition align16 (a : Z) : Z := a &&& (2 ^ 64 - 16).

Definition LVX (s : state) (inst : Z) : state :=
  let addr := align16 (EA_x (fst s) inst) in setV (vd inst) (feed 16 (snd s) addr) s.

Definition LVXL (s : state) (inst : Z) : state :=
  let addr := align16 (EA_x (fst s) inst) in setV (vd inst) (feed 16 (snd s) addr) s.

Definition LVEBX (s : state) (inst : Z) : state :=
  let addr := align16 (EA_x (fst s) inst) in setV (vd inst) (feed 16 (snd s) addr) s.

Definition LVEHX (s : state) (inst : Z) : state :=
  let addr := align16 (EA_x (fst s) inst) in setV (vd inst) (feed 16 (snd s) addr) s.

Definition LVEWX (s : state) (inst : Z) : state :=
  let addr := align16 (EA_x (fst s) inst) in setV (vd inst) (feed 16 (snd s) addr) s.

Definition STVX (s : state) (inst : Z) : state :=
  let addr := align16 (EA_x (fst s) inst) in store 16 (V (fst s) (vs inst)) addr s.

Definition STVXL (s : state) (inst : Z) : state :=
  let addr := align16 (EA_x (fst s) inst) in store 16 (V (fst s) (vs inst)) addr s.

Definition STVEBX (s : state) (inst : Z) : state :=
  let addr := EA_x (fst s) inst in
  let eb := u8 (addr &&& 0xf) in
  store 1 (v_u8 (V (fst s) (vs inst)) (15 - eb)) addr s.

Definition STVEHX (s : state) (inst : Z) : state :=
  let addr := EA_x (fst s) inst &&& (2 ^ 64 - 2) in
  let eb := u8 ((addr &&& 0xf) >>> 1) in
  store 2 (u16 (V (fst s) (vs inst) >>> (16 * (7 - eb)))) addr s.

Definition STVEWX (s : state) (inst : Z) : state :=
  let addr := EA_x (fst s) inst &&& (2 ^ 64 - 4) in
  let eb := u8 ((addr &&& 0xf) >>> 2) in
  store 4 (u32 (V (fst s) (vs inst) >>> (32 * (3 - eb)))) addr s.

(** Unaligned vector loads. *)
Definition LVLX (s : state) (inst : Z) : state :=
  let addr := EA_x (fst s) inst in
  let data := feed 16 (snd s) (align16 addr) in
  setV (vd inst) (shl 128 data ((addr &&& 15) * 8)) s.

Definition LVLXL (s : state) (inst : Z) : state :=
  let addr := EA_x (fst s) inst in
  let data := feed 16 (snd s) (align16 addr) in
  setV (vd inst) (shl 128 data ((addr &&& 15) * 8)) s.

Definition LVRX (s : state) (inst : Z) : state :=
  let addr := EA_x (fst s) inst in
  if addr &&& 15 =? 0 then setV (vd inst) 0 s
  else
    let data := feed 16 (snd s) (align16 addr) in
    setV (vd inst) ((data >>> ((lnot_w 64 addr &&& 15) * 8)) >>> 8) s.

Definition LVRXL (s : state) (inst : Z) : state :=
  let addr := EA_x (fst s) inst in
  if addr &&& 15 =? 0 then setV (vd inst) 0 s
  else
    let data := feed 16 (snd s) (align16 addr) in
    setV (vd inst) ((data >>> ((lnot_w 64 addr &&& 15) * 8)) >>> 8) s.

(** Unaligned vector stores.  [STVLX] fills a buffer and copies it. *)
Definition STVLX (s : state) (inst : Z) : state :=
  let addr := u64 (EA_0 (fst s) inst + R (fst s) (rb inst)) in
  let tail := u32 (addr &&& 15) in
  let data := (fun j => v_u8r (V (fst s) (vs inst)) j) <$> seqZ 0 (16 - tail) in
  (fst s, rpcsx_vm_write (snd s) addr data).

(** [STVLXL] writes byte by byte, [j] counting up. *)
Definition STVLXL (s : state) (inst : Z) : state :=
  let addr := u64 (EA_0 (fst s) inst + R (fst s) (rb inst)) in
  let tail := u32 (addr &&& 15) in
  (fst s, fold_left (fun m j => vm_write 1 m (u64 (addr + j)) (v_u8r (V (fst s) (vs inst)) j))
            (seqZ 0 (16 - tail)) (snd s)).

(** [STVRXL] writes byte by byte, [i] counting down from 15 to [16 - tail]. *)
Definition STVRXL (s : state) (inst : Z) : state :=
  let addr := u64 (EA_0 (fst s) inst + R (fst s) (rb inst)) in
  let tail := u32 (addr &&& 15) in
  (fst s, fold_left (fun m i => vm_write 1 m (u64 (addr - 16 + i)) (v_u8r (V (fst s) (vs inst)) i))
            (rev (seqZ (16 - tail) tail)) (snd s)).

(** [STVRX] copies [tail + 1] bytes of a buffer of which only the bytes above
    [15 - tail] were written: [uninit] is the indeterminate byte. *)
Definition STVRX (uninit : Z) (s : state) (inst : Z) : state :=
  let addr := u64 (EA_0 (fst s) inst + R (fst s) (rb inst)) in
  let tail := u32 (addr &&& 15) in
  let data := uninit :: ((fun i => v_u8r (V (fst s) (vs inst)) i) <$> seqZ (16 - tail) tail) in
  (fst s, rpcsx_vm_write (snd s) (u64 (addr - 16)) data).

(** The permute-control constants: [s_lvsl_base] plus the byte [k] in every
    lane. *)
Definition lvs_const (k : Z) : Z := be_val ((fun i => u8 (i + k)) <$> seqZ 0 16).

Definition LVSL (s : state) (inst : Z) : state :=
  let addr := EA_x (fst s) inst in setV (vd inst) (lvs_const (addr mod 16)) s.

Definition LVSR (s : state) (inst : Z) : state :=
  let addr := EA_x (fst s) inst in setV (vd inst) (lvs_const (16 - addr mod 16)) s.

(** ** Lemmas *)

Lemma testbit_feed16 m a i :
  wf_mem m -> 0 <= i ->
  Z.testbit (feed 16 m a) i = (i <? 128) && Z.testbit (m (u64 (a + 15 - i / 8))) (i mod 8).
Proof.
  intros Hm Hi. unfold feed, be_val.
  rewrite testbit_le_radix; [|lia|done|].
  2:{ apply Forall_rev. unfold rpcsx_vm_read. apply Forall_fmap, Forall_true. intros. apply Hm. }
  assert (0 <= i / 8) as Hq by (apply Z.div_pos; lia).
  pose proof (Z.div_mod i 8 ltac:(lia)) as Hd. pose proof (Z.mod_pos_bound i 8 eq_refl).
  destruct (Z.ltb_spec i 128); cbn [andb].
  - rewrite rev_alt. change (rev_append ?l []) with (reverse l).
    rewrite reverse_lookup by (rewrite vm_read_length; lia).
    rewrite vm_read_length, vm_read_lookup by lia. cbn [default from_option id]. do 3 f_equal. lia.
  - rewrite lookup_ge_None_2 by (rewrite length_rev, vm_read_length; lia). apply Z.bits_0.
Qed.

Lemma align16_eq a : urange 64 a -> align16 a = a - a mod 16.
Proof.
  intros Ha. unfold align16. assert (a - a mod 16 = Z.shiftl (Z.shiftr a 4) 4) as ->.
  { rewrite Z.shiftr_div_pow2, Z.shiftl_mul_pow2 by lia. change (2 ^ 4) with 16.
    pose proof (Z.div_mod a 16). lia. }
  apply Z.bits_inj'. intros i Hi. rewrite Z.land_spec, Z.shiftl_spec by done.
  replace (2 ^ 64 - 16) with (Z.shiftl (Z.ones 60) 4) by reflexivity.
  rewrite Z.shiftl_spec by done. destruct (Z.lt_ge_cases i 4).
  - rewrite !(Z.testbit_neg_r _ (i - 4)) by lia. apply andb_false_r.
  - rewrite Z.shiftr_spec by lia. replace (i - 4 + 4) with i by lia.
    destruct (Z.lt_ge_cases i 64).
    + rewrite Z.ones_spec_low by lia. apply andb_true_r.
    + by rewrite (urange_testbit 64 a) by (done || lia).
Qed.

Lemma V_setV (s : state) i v : wf_ctx (fst s) -> urange 5 i -> V (fst (setV i v s)) i = v.
Proof.
  intros Hwf Hi. unfold V, setV. cbn [fst vr with_vr]. apply rget_rset_eq.
  rewrite (wf_vr_len _ Hwf). unfold urange in Hi. lia.
Qed.

(** Shifting whole bytes. *)
Lemma byte_index i k : 0 <= k -> (i + 8 * k) / 8 = i / 8 + k /\ (i + 8 * k) mod 8 = i mod 8.
Proof.
  intros. replace (i + 8 * k) with (i + k * 8) by lia. by rewrite Z.div_add, Z.mod_add by lia.
Qed.

(** Bits of the two unaligned loads. *)
Lemma testbit_lvlx m a i :
  wf_mem m -> urange 64 a -> 0 <= i < 128 ->
  Z.testbit (shl 128 (feed 16 m (align16 a)) ((a &&& 15) * 8)) i =
    (8 * (a mod 16) <=? i) && Z.testbit (m (u64 (a + 15 - i / 8))) (i mod 8).
Proof.
  intros Hm Ha Hi. rewrite align16_eq, land_15 by done. set (k := a mod 16).
  assert (0 <= k < 16) as Hk by (by apply Z.mod_pos_bound).
  unfold shl. rewrite testbit_wrap, Z.shiftl_spec by lia.
  destruct (Z.leb_spec (8 * k) i) as [Hle|Hlt].
  - rewrite testbit_feed16 by (done || lia).
    destruct (byte_index (i - k * 8) k) as [E1 E2]; [lia|].
    replace (i - k * 8 + 8 * k) with i in E1, E2 by lia.
    destruct (Z.ltb_spec i 128), (Z.ltb_spec (i - k * 8) 128); try lia. cbn [andb].
    rewrite <- E2. do 3 f_equal. lia.
  - rewrite Z.testbit_neg_r by lia. apply andb_false_r.
Qed.

Lemma testbit_lvrx m a i :
  wf_mem m -> urange 64 a -> a mod 16 <> 0 -> 0 <= i < 128 ->
  Z.testbit ((feed 16 m (align16 a) >>> ((lnot_w 64 a &&& 15) * 8)) >>> 8) i =
    (i <? 8 * (a mod 16)) && Z.testbit (m (u64 (a - 1 - i / 8))) (i mod 8).
Proof.
  intros Hm Ha Hne Hi. rewrite align16_eq, land_15 by done.
  assert (lnot_w 64 a mod 16 = 15 - a mod 16) as ->.
  { rewrite lnot_w_eq by done. symmetry.
    apply (Z.mod_unique _ _ (2 ^ 60 - 1 - a / 16)); pose proof (Z.mod_pos_bound a 16);
      pose proof (Z.div_mod a 16); lia. }
  set (k := a mod 16) in *. assert (0 <= k < 16) as Hk by (by apply Z.mod_pos_bound).
  rewrite !Z.shiftr_spec, testbit_feed16 by (done || lia).
  destruct (byte_index i (16 - k)) as [E1 E2]; [lia|].
  replace (i + 8 + (15 - k) * 8) with (i + 8 * (16 - k)) by lia. rewrite E1, E2.
  destruct (Z.ltb_spec (i + 8 * (16 - k)) 128), (Z.ltb_spec i (8 * k)); try lia; [].
  cbn [andb]. do 3 f_equal. lia.
Qed.

(** The unaligned vector load idiom: the left load at an address or-ed
    with the right load sixteen bytes on is the sixteen bytes at that
    address, whatever its alignment. *)
Theorem lvlx_lvrx_unaligned (s : state) i1 i2 :
  wf_ctx (fst s) -> wf_mem (snd s) ->
  EA_x (fst s) i2 = u64 (EA_x (fst s) i1 + 16) ->
  V (fst (LVLX s i1)) (vd i1) ||| V (fst (LVRX s i2)) (vd i2)
    = feed 16 (snd s) (EA_x (fst s) i1).
Proof.
  intros Hwf Hm Hea. destruct s as [c m]. cbn [fst snd] in *.
  destruct (EA_range c i1 Hwf) as (Ha & _). destruct (EA_range c i2 Hwf) as (Hb & _).
  assert (forall i, urange 5 (vd i)) as Hvd by (intros; apply bf_u_5_range; lia).
  unfold LVLX, LVRX. cbn [fst snd]. rewrite V_setV by done.
  set (a := EA_x c i1) in *. set (b := EA_x c i2) in *.
  assert (b mod 16 = a mod 16) as Hmod.
  { rewrite Hea. destruct (wrap_eq 64 (a + 16)) as [q ->]; [lia|].
    replace (a + 16 - q * 2 ^ 64) with (a + (1 - q * 2 ^ 60) * 16) by lia.
    by rewrite Z.mod_add by lia. }
  apply Z.bits_inj'. intros i Hi. rewrite Z.lor_spec, (testbit_feed16 m a) by done.
  destruct (Z.ltb_spec i 128) as [Hlt|Hge]; cbn [andb].
  - rewrite testbit_lvlx by (done || lia). rewrite land_15.
    destruct (Z.eqb_spec (b mod 16) 0) as [H0|H0].
    + rewrite V_setV, Z.bits_0, orb_false_r by done. rewrite <- Hmod, H0.
      destruct (Z.leb_spec (8 * 0) i); [done|lia].
    + rewrite V_setV, testbit_lvrx by (done || lia). rewrite Hmod.
      assert (u64 (b - 1 - i / 8) = u64 (a + 15 - i / 8)) as ->.
      { rewrite Hea. rewrite <- !Z.sub_add_distr, wrap_sub_l by lia. f_equal. lia. }
      destruct (Z.leb_spec (8 * (a mod 16)) i), (Z.ltb_spec i (8 * (a mod 16)));
        try lia; cbn [andb orb]; by rewrite ?orb_false_r.
  - rewrite (urange_testbit 128 (shl _ _ _)) by (done || ranges || lia). cbn [orb].
    destruct (b &&& 15 =? 0); rewrite V_setV by done; [apply Z.bits_0|].
    rewrite !Z.shiftr_spec by (lia || rewrite land_15; pose proof (Z.mod_pos_bound (lnot_w 64 b) 16); lia).
    rewrite testbit_feed16 by (done || rewrite land_15; pose proof (Z.mod_pos_bound (lnot_w 64 b) 16); lia).
    rewrite land_15. pose proof (Z.mod_pos_bound (lnot_w 64 b) 16).
    destruct (Z.ltb_spec (i + 8 + lnot_w 64 b mod 16 * 8) 128); [lia|done].
Qed.

(** [lvlx v1, 0, r4] and [lvrx v2, r4, r5] at 0x1003. *)
Lemma lvlx_lvrx_unaligned_witness :
  let s := (sample_ctx 0x1003 16, fun a : Z => a mod 256) in
  wf_ctx (fst s) /\ wf_mem (snd s) /\
  V (fst (LVLX s 0x7c20240e)) 1 ||| V (fst (LVRX s 0x7c442c4e)) 2
    = 0x030405060708090a0b0c0d0e0f101112.
Proof.
  cbv zeta. assert (wf_ctx (sample_ctx 0x1003 16)) as Hwf
    by (apply sample_ctx_wf; unfold urange; lia).
  assert (wf_mem (fun a : Z => a mod 256)) as Hm by (intros a; by apply Z.mod_pos_bound).
  split_and!; [exact Hwf | exact Hm |].
  etransitivity; [apply (lvlx_lvrx_unaligned (sample_ctx 0x1003 16, fun a : Z => a mod 256)
    0x7c20240e 0x7c442c4e Hwf Hm); reflexivity|]. reflexivity.
Defined.

(** ** Unaligned stores *)

(** A loop of one-byte stores at distinct offsets, in any order. *)
Lemma byte_loop_spec (f : Z -> Z) base l m x :
  Forall (fun j : Z => 0 <= j < 2 ^ 64) l -> (forall j, urange 8 (f j)) -> urange 64 x ->
  fold_left (fun m j => vm_write 1 m (u64 (base + j)) (f j)) l m x =
    if decide (u64 (x - base) ∈ l) then f (u64 (x - base)) else m x.
Proof.
  intros HF Hf Hx. revert m. induction HF as [|j l Hj HF IH]; intros m; cbn [fold_left].
  - rewrite decide_False; [done|]. apply not_elem_of_nil.
  - rewrite IH. unfold vm_write, rpcsx_vm_write. rewrite offset_add.
    set (d := u64 (x - base)). assert (urange 64 d) as Hd by (apply wrap_range; lia).
    clearbody d. unfold urange in Hd.
    assert (be_split 1 (f j) = [f j]) as ->.
    { unfold be_split. cbn [le_split rev app]. by rewrite wrap_id. }
    pose proof (elem_of_cons l d j) as Hin.
    destruct (decide (d ∈ l)) as [Hl|Hl], (decide (d ∈ j :: l)) as [Hl'|Hl']; try tauto.
    + assert (d = j) as -> by tauto. rewrite Z.sub_diag. done.
    + assert (u64 (d - j) <> 0) as Hne.
      { intros E. destruct (wrap_eq 64 (d - j)) as [q Eq]; [lia|].
        assert (d <> j) by tauto. rewrite E in Eq. lia. }
      pose proof (wrap_range 64 (d - j) ltac:(lia)) as [? ?].
      rewrite lookup_ge_None_2 by (simpl; lia). done.
Qed.

Lemma v_u8r_range v k : urange 8 (v_u8r v k).
Proof. apply wrap_range. lia. Qed.

Lemma be_split_16 v i :
  0 <= i < 16 -> be_split 16 v !! Z.to_nat i = Some (v_u8r v i).
Proof.
  intros Hi. unfold be_split, v_u8r, v_u8. cbn [le_split rev app].
  rewrite !Z.shiftr_shiftr by lia. zenum i 0 16%nat; reflexivity.
Qed.

(** The byte a left or right store puts at offset [d] from the base. *)
Definition stv_addr (c : PPUContext) (inst : Z) : Z := u64 (EA_0 c inst + R c (rb inst)).

Lemma stvlx_spec (s : state) inst x :
  urange 64 x ->
  let a := stv_addr (fst s) inst in
  let d := u64 (x - a) in
  let expected := if d <? 16 - a mod 16 then v_u8r (V (fst s) (vs inst)) d else snd s x in
  snd (STVLX s inst) x = expected /\ snd (STVLXL s inst) x = expected.
Proof.
  intros Hx. cbv zeta. unfold STVLX, STVLXL. cbv zeta. cbn [snd].
  change (u64 (EA_0 (fst s) inst + R (fst s) (rb inst))) with (stv_addr (fst s) inst).
  set (a := stv_addr (fst s) inst). rewrite !land_15.
  pose proof (Z.mod_pos_bound a 16 eq_refl) as Hk.
  rewrite (wrap_id 32 (a mod 16)) by (unfold urange; lia).
  pose proof (wrap_range 64 (x - a) ltac:(lia)) as Hd. unfold urange in Hd. split.
  - unfold rpcsx_vm_write. rewrite list_lookup_fmap.
    destruct (Z.ltb_spec (u64 (x - a)) (16 - a mod 16)).
    + rewrite lookup_seqZ_lt by lia. cbn. f_equal. lia.
    + rewrite lookup_seqZ_ge by lia. done.
  - rewrite byte_loop_spec; [|..|done].
    + destruct (decide _) as [Hin|Hin], (Z.ltb_spec (u64 (x - a)) (16 - a mod 16));
        rewrite ?elem_of_seqZ in Hin; try done; lia.
    + apply list.Forall_forall. intros j Hj%elem_of_seqZ. lia.
    + intros. apply v_u8r_range.
Qed.

Lemma stvrxl_spec (s : state) inst x :
  urange 64 x ->
  let a := stv_addr (fst s) inst in
  let d := u64 (x - (a - 16)) in
  snd (STVRXL s inst) x =
    if (16 - a mod 16 <=? d) && (d <? 16) then v_u8r (V (fst s) (vs inst)) d else snd s x.
Proof.
  intros Hx. cbv zeta. unfold STVRXL. cbv zeta. cbn [snd].
  change (u64 (EA_0 (fst s) inst + R (fst s) (rb inst))) with (stv_addr (fst s) inst).
  set (a := stv_addr (fst s) inst). rewrite !land_15.
  pose proof (Z.mod_pos_bound a 16 eq_refl) as Hk.
  rewrite (wrap_id 32 (a mod 16)) by (unfold urange; lia).
  rewrite byte_loop_spec; [|..|done].
  - assert (u64 (x - (a - 16)) ∈ rev (seqZ (16 - a mod 16) (a mod 16)) <->
            16 - a mod 16 <= u64 (x - (a - 16)) < 16 - a mod 16 + a mod 16) as Hr
      by (rewrite list_elem_of_In, <- in_rev, <- list_elem_of_In; apply elem_of_seqZ).
    destruct (decide _) as [Hin|Hin]; rewrite Hr in Hin; destruct (Z.leb_spec (16 - a mod 16) (u64 (x - (a - 16)))),
      (Z.ltb_spec (u64 (x - (a - 16))) 16); cbn [andb]; try done; lia.
  - apply Forall_rev, list.Forall_forall. intros j Hj%elem_of_seqZ. lia.
  - intros. apply v_u8r_range.
Qed.

(** The unaligned vector store idiom: the left store at an address and
    the right store (STVRXL) sixteen bytes on write exactly the register's
    sixteen bytes at that address; the two left-store implementations, one
    through a buffer and one byte by byte, agree. *)
Theorem stvlx_stvrxl_unaligned (s : state) i1 i2 :
  wf_ctx (fst s) ->
  vs i1 = vs i2 -> stv_addr (fst s) i2 = u64 (stv_addr (fst s) i1 + 16) ->
  mem_eq (snd (STVLX s i1)) (snd (STVLXL s i1)) /\
  mem_eq (snd (STVRXL (STVLX s i1) i2))
    (rpcsx_vm_write (snd s) (stv_addr (fst s) i1) (be_split 16 (V (fst s) (vs i1)))).
Proof.
  intros Hwf Hvs Hea. split.
  { intros x Hx. destruct (stvlx_spec s i1 x Hx) as [-> ->]. done. }
  intros x Hx. rewrite stvrxl_spec by done. change (fst (STVLX s i1)) with (fst s).
  destruct (stvlx_spec s i1 x Hx) as [-> _]. rewrite Hea, <- Hvs. cbv zeta.
  set (a := stv_addr (fst s) i1). assert (urange 64 a) as Ha by (apply wrap_range; lia).
  assert (u64 (a + 16) mod 16 = a mod 16) as ->.
  { destruct (wrap_eq 64 (a + 16)) as [q ->]; [lia|].
    replace (a + 16 - q * 2 ^ 64) with (a + (1 - q * 2 ^ 60) * 16) by lia.
    by rewrite Z.mod_add by lia. }
  assert (u64 (x - (u64 (a + 16) - 16)) = u64 (x - a)) as ->.
  { replace (x - (u64 (a + 16) - 16)) with (x + 16 - u64 (a + 16)) by lia.
    rewrite wrap_sub_r by lia. f_equal. lia. }
  pose proof (wrap_range 64 (x - a) ltac:(lia)) as [Hd0 _].
  unfold rpcsx_vm_write. destruct (Z.ltb_spec (u64 (x - a)) 16).
  - rewrite be_split_16 by lia. cbn [from_option id]. zbool; cbn [andb]; done || lia.
  - rewrite lookup_ge_None_2 by (rewrite be_split_length; lia). rewrite andb_false_r.
    pose proof (Z.mod_pos_bound a 16 eq_refl). zbool; done || lia.
Qed.

(** [stvlx v1, 0, r4] and [stvrxl v1, r4, r5] at 0x1003. *)
Lemma stvlx_stvrxl_unaligned_witness :
  let c := with_vr (rset (vr init_ctx) 1 0x000102030405060708090a0b0c0d0e0f) (sample_ctx 0x1003 16) in
  let s := (c, fun _ : Z => 0xff) in
  wf_ctx c /\
  rpcsx_vm_read (snd (STVRXL (STVLX s 0x7c20250e) 0x7c242f4e)) 0x1002 18 =
    [0xff; 0; 1; 2; 3; 4; 5; 6; 7; 8; 9; 10; 11; 12; 13; 14; 15; 0xff].
Proof.
  cbv zeta.
  set (c := with_vr (rset (vr init_ctx) 1 0x000102030405060708090a0b0c0d0e0f)
              (sample_ctx 0x1003 16)).
  assert (wf_ctx (sample_ctx 0x1003 16)) as Hs by (apply sample_ctx_wf; unfold urange; lia).
  assert (wf_ctx c) as Hwf.
  { destruct Hs. unfold c. constructor; try done. simpl vr.
    apply (rset_Forall (urange 128)); [apply init_ctx_wf | unfold urange; lia]. }
  split; [exact Hwf|].
  destruct (stvlx_stvrxl_unaligned (c, fun _ : Z => 0xff) 0x7c20250e 0x7c242f4e Hwf
              eq_refl eq_refl) as [_ H].
  rewrite (vm_read_proper _ _ H _ _ eq_refl _ _ eq_refl). reflexivity.
Defined.

(** STVRX, unlike STVRXL, misplaces its bytes: at any address that is
    one to seven bytes past a 16-byte boundary the bytes between the boundary
    and the address, where the architecture puts the register's last bytes,
    are left unchanged, whatever the uninitialised buffer byte is. *)
Theorem stvrx_misplaced uninit (s : state) inst x :
  let a := stv_addr (fst s) inst in
  1 <= a mod 16 <= 7 -> urange 64 x -> u64 (x - (a - a mod 16)) < a mod 16 ->
  snd (STVRX uninit s inst) x = snd s x /\
  snd (STVRXL s inst) x =
    v_u8r (V (fst s) (vs inst)) (16 - a mod 16 + u64 (x - (a - a mod 16))).
Proof.
  cbv zeta. set (a := stv_addr (fst s) inst). intros Hk Hx Hlt.
  assert (urange 64 a) as Ha by (apply wrap_range; lia).
  set (e := u64 (x - (a - a mod 16))) in *.
  assert (0 <= e) as He by apply (wrap_range 64 _ ltac:(lia)).
  assert (u64 (x - (a - 16)) = 16 - a mod 16 + e) as Hd.
  { unfold e. rewrite <- (wrap_id 64 (16 - a mod 16 + u64 _)) by (unfold urange; fold e; lia).
    rewrite wrap_add_r by lia. f_equal. lia. }
  split.
  - unfold STVRX. cbv zeta. cbn [snd].
    change (u64 (EA_0 (fst s) inst + R (fst s) (rb inst))) with a. rewrite land_15.
    rewrite (wrap_id 32 (a mod 16)) by (unfold urange; lia).
    unfold rpcsx_vm_write. rewrite lookup_ge_None_2; [done|].
    cbn [length]. rewrite length_fmap, length_seqZ, wrap_sub_r by lia.
    rewrite Hd. lia.
  - rewrite stvrxl_spec by done. fold a. rewrite Hd.
    zbool; cbn [andb]; done || lia.
Qed.

(** [stvrx v1, 0, r4] at 0x1003 leaves 0x1000 alone. *)
Lemma stvrx_misplaced_witness :
  let c := with_vr (rset (vr init_ctx) 1 0x000102030405060708090a0b0c0d0e0f) (sample_ctx 0x1003 16) in
  let s := (c, fun _ : Z => 0xff) in
  snd (STVRX 0 s 0x7c20254e) 0x1000 = 0xff /\ snd (STVRXL s 0x7c20254e) 0x1000 = 13.
Proof.
  cbv zeta.
  set (c := with_vr (rset (vr init_ctx) 1 0x000102030405060708090a0b0c0d0e0f)
              (sample_ctx 0x1003 16)).
  assert (stv_addr c 0x7c20254e = 0x1003) as Ea by reflexivity.
  destruct (stvrx_misplaced 0 (c, fun _ : Z => 0xff) 0x7c20254e 0x1000) as [H1 H2].
  - cbn [fst]. rewrite Ea. split; by vm_compute.
  - unfold urange. lia.
  - cbn [fst]. rewrite Ea. reflexivity.
  - split; [rewrite H1; reflexivity | rewrite H2; reflexivity].
Defined.
