(* ===== verification/Simd.v ===== *)
(** * 128-bit vectors

    The model of [rx::v128] ([rx/v128.hpp]): a vector is an unsigned 128-bit
    [Z], and element [i] of a [w]-bit view is the digit of weight [2 ^ (w i)],
    as the union's little-endian arrays [_u8], [_s16], [_u32] and so on give
    it ([u8r] and its kin count from the other end).  The SSE intrinsics
    [rx/simd.hpp] calls are lane functions with the documented meaning of each
    intrinsic; [isa] is the instruction set the build selects. *)

From stdpp Require Import base numbers list tactics.
From Stdlib Require Import Lia.
From S2P Require Import Prelude.
Open Scope Z_scope.
Open Scope mach_scope.

(** ** Lanes *)

(** [v._uW[i]] and [v._sW[i]]. *)
Definition lane (w v i : Z) : Z := wrap w (v >>> (w * i)).

Definition slane (w v i : Z) : Z := sext w (v >>> (w * i)).

(** A reversed view: element 0 is the most significant. *)
Definition laner (w v i : Z) : Z := lane w v (128 / w - 1 - i).

(** The vector whose [w]-bit elements are [f 0, f 1, ...], truncated. *)
Definition vmake (w : Z) (f : Z -> Z) : Z :=
  le_radix w ((fun i => wrap w (f i)) <$> seqZ 0 (128 / w)).

(** Elementwise functions of the unsigned and of the signed elements. *)
Definition vmap (w : Z) (f : Z -> Z) (a : Z) : Z := vmake w (fun i => f (lane w a i)).

Definition vzip (w : Z) (f : Z -> Z -> Z) (a b : Z) : Z :=
  vmake w (fun i => f (lane w a i) (lane w b i)).

Definition vmaps (w : Z) (f : Z -> Z) (a : Z) : Z := vmake w (fun i => f (slane w a i)).

Definition vzips (w : Z) (f : Z -> Z -> Z) (a b : Z) : Z :=
  vmake w (fun i => f (slane w a i) (slane w b i)).

(** Saturation to the signed and the unsigned range, and the all-ones mask of
    a comparison. *)
Definition clamp_s (w x : Z) : Z := Z.max (- 2 ^ (w - 1)) (Z.min x (2 ^ (w - 1) - 1)).

Definition clamp_u (w x : Z) : Z := Z.max 0 (Z.min x (2 ^ w - 1)).

Definition mask (b : bool) : Z := if b then -1 else 0.

(** ** Intrinsics *)

(** The three levels [simd.hpp] distinguishes for x64 builds below AVX; its
    AVX, AVX-512, VNNI and ARM branches are not modelled. *)
Inductive isa := SSE2 | SSSE3 | SSE4_1.

Definition has_sse41 (m : isa) : bool := match m with SSE4_1 => true | _ => false end.

Definition has_ssse3 (m : isa) : bool := match m with SSE2 => false | _ => true end.

Definition mm_set1_epi (w x : Z) : Z := vmake w (fun _ => x).

Definition mm_setzero : Z := 0.

Definition mm_and (a b : Z) : Z := a &&& b.

Definition mm_or (a b : Z) : Z := a ||| b.

Definition mm_xor (a b : Z) : Z := a ^^^ b.

Definition mm_andnot (a b : Z) : Z := Z.ldiff b a.

Definition mm_slli_epi (w a n : Z) : Z := vmap w (fun x => if w <=? n then 0 else Z.shiftl x n) a.

Definition mm_srli_epi (w a n : Z) : Z := vmap w (fun x => if w <=? n then 0 else x >>> n) a.

Definition mm_srai_epi (w a n : Z) : Z := vmaps w (fun x => x >>> Z.min n (w - 1)) a.

Definition mm_slli_si128 (a n : Z) : Z := if 15 <? n then 0 else u128 (Z.shiftl a (8 * n)).

Definition mm_srli_si128 (a n : Z) : Z := if 15 <? n then 0 else a >>> (8 * n).

Definition mm_add_epi (w : Z) : Z -> Z -> Z := vzip w Z.add.

Definition mm_sub_epi (w : Z) : Z -> Z -> Z := vzip w Z.sub.

Definition mm_adds_epi (w : Z) : Z -> Z -> Z := vzips w (fun x y => clamp_s w (x + y)).

Definition mm_subs_epi (w : Z) : Z -> Z -> Z := vzips w (fun x y => clamp_s w (x - y)).

Definition mm_adds_epu (w : Z) : Z -> Z -> Z := vzip w (fun x y => clamp_u w (x + y)).

Definition mm_subs_epu (w : Z) : Z -> Z -> Z := vzip w (fun x y => clamp_u w (x - y)).

Definition mm_max_epu (w : Z) : Z -> Z -> Z := vzip w Z.max.

Definition mm_min_epu (w : Z) : Z -> Z -> Z := vzip w Z.min.

Definition mm_max_epi (w : Z) : Z -> Z -> Z := vzips w Z.max.

Definition mm_min_epi (w : Z) : Z -> Z -> Z := vzips w Z.min.

Definition mm_cmpeq_epi (w : Z) : Z -> Z -> Z := vzip w (fun x y => mask (x =? y)).

Definition mm_cmpgt_epi (w : Z) : Z -> Z -> Z := vzips w (fun x y => mask (y <? x)).

Definition mm_avg_epu (w : Z) : Z -> Z -> Z := vzip w (fun x y => (x + y + 1) >>> 1).

Definition mm_mullo_epi (w : Z) : Z -> Z -> Z := vzips w Z.mul.

Definition mm_mulhi_epi16 : Z -> Z -> Z := vzips 16 (fun x y => (x * y) >>> 16).

Definition mm_mulhi_epu16 : Z -> Z -> Z := vzip 16 (fun x y => (x * y) >>> 16).

(** Sums of products of adjacent signed halfwords, in words. *)
Definition mm_madd_epi16 (a b : Z) : Z :=
  vmake 32 (fun i => slane 16 a (2 * i) * slane 16 b (2 * i)
                   + slane 16 a (2 * i + 1) * slane 16 b (2 * i + 1)).

(** Unsigned bytes of [a] times signed bytes of [b], adjacent products added
    with signed saturation. *)
Definition mm_maddubs_epi16 (a b : Z) : Z :=
  vmake 16 (fun i => clamp_s 16 (lane 8 a (2 * i) * slane 8 b (2 * i)
                                 + lane 8 a (2 * i + 1) * slane 8 b (2 * i + 1))).

Definition mm_mul_epu32 (a b : Z) : Z := vmake 64 (fun i => lane 32 a (2 * i) * lane 32 b (2 * i)).

Definition mm_shuffle_epi32 (a imm : Z) : Z :=
  vmake 32 (fun i => lane 32 a ((imm >>> (2 * i)) &&& 3)).

(** Packing the [w]-bit elements of [lo] and [hi] into half the width, with
    signed or unsigned saturation of signed elements. *)
Definition mm_packs_epi (w lo hi : Z) : Z :=
  let n := 128 / w in
  vmake (w / 2) (fun i => clamp_s (w / 2) (if i <? n then slane w lo i else slane w hi (i - n))).

Definition mm_packus_epi (w lo hi : Z) : Z :=
  let n := 128 / w in
  vmake (w / 2) (fun i => clamp_u (w / 2) (if i <? n then slane w lo i else slane w hi (i - n))).

(** Interleaving the low or the high half of the elements. *)
Definition mm_unpacklo_epi (w a b : Z) : Z :=
  vmake w (fun i => if i mod 2 =? 0 then lane w a (i / 2) else lane w b (i / 2)).

Definition mm_unpackhi_epi (w a b : Z) : Z :=
  let h := 128 / w / 2 in
  vmake w (fun i => if i mod 2 =? 0 then lane w a (h + i / 2) else lane w b (h + i / 2)).

(** Sign extension of the low [w]-bit elements to twice the width. *)
Definition mm_cvtepi (w a : Z) : Z := vmake (2 * w) (fun i => slane w a i).

Definition mm_blendv_epi8 (f t c : Z) : Z :=
  vmake 8 (fun i => if slane 8 c i <? 0 then lane 8 t i else lane 8 f i).

Definition mm_cvtsi128_si64 (a : Z) : Z := slane 64 a 0.

Definition mm_testz_si128 (a b : Z) : bool := a &&& b =? 0.

Definition mm_test_all_ones (a : Z) : bool := a =? 2 ^ 128 - 1.

Definition mm_shuffle_epi8 (a c : Z) : Z :=
  vmake 8 (fun i => if slane 8 c i <? 0 then 0 else lane 8 a (lane 8 c i &&& 15)).

(** [_mm_loadu_si64(a._bytes + 8)]. *)
Definition mm_loadu_hi64 (a : Z) : Z := lane 64 a 1.

(** ** Lemmas on lanes *)

(** The element widths. *)
Definition width (w : Z) : Prop := w = 8 \/ w = 16 \/ w = 32 \/ w = 64.

Lemma width_8 : width 8. Proof. unfold width. lia. Qed.
Lemma width_16 : width 16. Proof. unfold width. lia. Qed.
Lemma width_32 : width 32. Proof. unfold width. lia. Qed.
Lemma width_64 : width 64. Proof. unfold width. lia. Qed.

Create HintDb lanes discriminated.
#[export] Hint Resolve width_8 width_16 width_32 width_64 : lanes.

Lemma width_cnt w : width w -> 0 < w /\ 0 < 128 / w /\ w * (128 / w) = 128.
Proof. intros [->|[->|[->| ->]]]; done. Qed.

Lemma lane_range w v i : 0 <= w -> urange w (lane w v i).
Proof. intros. by apply wrap_range. Qed.

Lemma slane_range w v i : 0 < w -> srange w (slane w v i).
Proof. intros. by apply sext_range. Qed.

Lemma slane_lane w v i : 0 < w -> slane w v i = sext w (lane w v i).
Proof. intros. unfold slane, lane. by rewrite sext_wrap by lia. Qed.

Lemma wrap_slane w v i : 0 < w -> wrap w (slane w v i) = lane w v i.
Proof. intros. unfold slane, lane. by apply wrap_sext. Qed.

Lemma testbit_in_lane w v i j :
  0 < w -> 0 <= i -> 0 <= j ->
  Z.testbit (lane w v i) j = (j <? w) && Z.testbit v (w * i + j).
Proof.
  intros. unfold lane. rewrite testbit_wrap, Z.shiftr_spec by lia. do 2 f_equal. lia.
Qed.

Lemma lanes_Forall w f : 0 <= w -> Forall (urange w) ((fun i => wrap w (f i)) <$> seqZ 0 (128 / w)).
Proof. intros. apply Forall_fmap, Forall_true. intros. by apply wrap_range. Qed.

Lemma vmake_range w f : width w -> urange 128 (vmake w f).
Proof.
  intros (Hw & Hn & He)%width_cnt. rewrite <- He. unfold vmake.
  pose proof (le_radix_range w _ ltac:(lia) (lanes_Forall w f ltac:(lia))) as Hr.
  rewrite length_fmap, length_seqZ, Z2Nat.id in Hr by lia. exact Hr.
Qed.

Lemma testbit_vmake w f p :
  width w -> 0 <= p ->
  Z.testbit (vmake w f) p = (p <? 128) && Z.testbit (f (p / w)) (p mod w).
Proof.
  intros Hw Hp. destruct (width_cnt w Hw) as (H0 & Hn & He). destruct (Z.ltb_spec p 128); cbn [andb].
  - unfold vmake. rewrite testbit_le_radix by (try apply lanes_Forall; lia).
    assert (0 <= p / w < 128 / w) as Hq.
    { split; [apply Z.div_pos; lia|]. apply Z.div_lt_upper_bound; lia. }
    rewrite list_lookup_fmap, lookup_seqZ_lt by lia. cbn [fmap option_fmap option_map default from_option id].
    rewrite Z.add_0_l, Z2Nat.id, testbit_wrap by lia.
    pose proof (Z.mod_pos_bound p w ltac:(lia)). zbool; [done|lia].
  - apply (urange_testbit 128); [lia|by apply vmake_range|lia].
Qed.

Lemma lane_vmake w f i : width w -> 0 <= i < 128 / w -> lane w (vmake w f) i = wrap w (f i).
Proof.
  intros Hw Hi. destruct (width_cnt w Hw) as (H0 & Hn & He).
  apply Z.bits_inj'. intros j Hj. rewrite testbit_in_lane, testbit_wrap by lia.
  destruct (Z.ltb_spec j w); [|done]. cbn [andb]. rewrite testbit_vmake by (done || nia).
  rewrite (Z.mul_comm w i), Z.div_add_l, Z.div_small, Z.add_0_r by lia.
  rewrite Z.add_comm, Z.mod_add, Z.mod_small by lia. zbool; [done|nia].
Qed.

Lemma slane_vmake w f i : width w -> 0 <= i < 128 / w -> slane w (vmake w f) i = sext w (f i).
Proof.
  intros Hw Hi. destruct (width_cnt w Hw) as (H0 & _).
  rewrite slane_lane, lane_vmake, sext_wrap by (done || lia). done.
Qed.

(** Two vectors with the same elements are equal. *)
Lemma vec_ext w a b :
  width w -> urange 128 a -> urange 128 b ->
  (forall i, 0 <= i < 128 / w -> lane w a i = lane w b i) -> a = b.
Proof.
  intros Hw Ha Hb Hl. destruct (width_cnt w Hw) as (H0 & Hn & He).
  apply Z.bits_inj'. intros p Hp. destruct (Z.lt_ge_cases p 128).
  - assert (0 <= p / w < 128 / w) as Hq.
    { split; [apply Z.div_pos; lia|]. apply Z.div_lt_upper_bound; lia. }
    pose proof (Z.mod_pos_bound p w ltac:(lia)) as Hm.
    specialize (Hl _ Hq). apply (f_equal (fun v => Z.testbit v (p mod w))) in Hl.
    rewrite !testbit_in_lane in Hl by lia. destruct (Z.ltb_spec (p mod w) w); [|lia].
    cbn [andb] in Hl. by rewrite <- (Z.div_mod p w) in Hl by lia.
  - by rewrite !(urange_testbit 128) by (done || lia).
Qed.

(** Building a vector from its own elements. *)
Lemma vmake_lane w a : width w -> urange 128 a -> vmake w (lane w a) = a.
Proof.
  intros Hw Ha. apply (vec_ext w); [done|by apply vmake_range|done|]. intros i Hi.
  destruct (width_cnt w Hw) as (H0 & _).
  rewrite lane_vmake by done. apply wrap_id, lane_range. lia.
Qed.

Lemma vmake_ext w f g :
  width w -> (forall i, 0 <= i < 128 / w -> wrap w (f i) = wrap w (g i)) -> vmake w f = vmake w g.
Proof.
  intros Hw H. apply (vec_ext w); [done|by apply vmake_range..|]. intros i Hi.
  rewrite !lane_vmake by done. by apply H.
Qed.

(** Bitwise operations act elementwise. *)
Lemma lane_land w a b i : 0 <= w -> lane w (a &&& b) i = lane w a i &&& lane w b i.
Proof.
  intros. unfold lane. rewrite Z.shiftr_land. apply Z.bits_inj'. intros j Hj.
  rewrite !Z.land_spec, !testbit_wrap, Z.land_spec by done. zbool; by destruct (Z.testbit _ _).
Qed.

Lemma lane_lor w a b i : 0 <= w -> lane w (a ||| b) i = lane w a i ||| lane w b i.
Proof.
  intros. unfold lane. rewrite Z.shiftr_lor. apply Z.bits_inj'. intros j Hj.
  rewrite !Z.lor_spec, !testbit_wrap, Z.lor_spec by done. by zbool.
Qed.

Lemma lane_lxor w a b i : 0 <= w -> lane w (a ^^^ b) i = lane w a i ^^^ lane w b i.
Proof.
  intros. unfold lane. rewrite Z.shiftr_lxor. apply Z.bits_inj'. intros j Hj.
  rewrite !Z.lxor_spec, !testbit_wrap, Z.lxor_spec by done. by zbool.
Qed.

Lemma lane_ldiff w a b i : 0 <= w -> lane w (Z.ldiff a b) i = Z.ldiff (lane w a i) (lane w b i).
Proof.
  intros. unfold lane. rewrite Z.shiftr_ldiff. apply Z.bits_inj'. intros j Hj.
  rewrite !Z.ldiff_spec, !testbit_wrap, Z.ldiff_spec by done. by zbool.
Qed.

Lemma ldiff_urange n x y : 0 <= n -> urange n x -> urange n (Z.ldiff x y).
Proof.
  intros Hn Hx. apply urange_bits; [done| |].
  - apply Z.ldiff_nonneg. left. apply Hx.
  - intros i Hi. by rewrite Z.ldiff_spec, (urange_testbit n x).
Qed.

Lemma urange_128_0 : urange 128 0. Proof. done. Qed.

#[export] Hint Resolve vmake_range ldiff_urange urange_128_0 width_8 width_16 width_32 width_64 : mach.

(** Elements of the lane functions. *)
Lemma lane_vmap w f a i : width w -> 0 <= i < 128 / w -> lane w (vmap w f a) i = wrap w (f (lane w a i)).
Proof. intros. unfold vmap. by rewrite lane_vmake. Qed.

Lemma lane_vzip w f a b i :
  width w -> 0 <= i < 128 / w -> lane w (vzip w f a b) i = wrap w (f (lane w a i) (lane w b i)).
Proof. intros. unfold vzip. by rewrite lane_vmake. Qed.

Lemma lane_vmaps w f a i :
  width w -> 0 <= i < 128 / w -> lane w (vmaps w f a) i = wrap w (f (sext w (lane w a i))).
Proof.
  intros Hw ?. destruct (width_cnt w Hw) as (? & _).
  unfold vmaps. by rewrite lane_vmake, slane_lane by done.
Qed.

Lemma lane_vzips w f a b i :
  width w -> 0 <= i < 128 / w ->
  lane w (vzips w f a b) i = wrap w (f (sext w (lane w a i)) (sext w (lane w b i))).
Proof.
  intros Hw ?. destruct (width_cnt w Hw) as (? & _).
  unfold vzips. by rewrite lane_vmake, !slane_lane by done.
Qed.
