(* ===== verification/SimdOps.v ===== *)
(** * Vector operations

    The integer part of [rx/simd.hpp]: one definition per [gv_] function, each
    with the branches its preprocessor conditions select for the instruction
    set [m], and the operators of [v128].  A [v128] argument that the code
    overloads on (a count against a vector of counts) has the suffix [v]. *)

From stdpp Require Import base numbers list tactics.
From Stdlib Require Import Lia.
From S2P Require Import Prelude Asm Simd.
Open Scope Z_scope.
Open Scope mach_scope.

(** ** Operators of [v128] *)

Definition v_or (a b : Z) : Z := mm_or a b.

Definition v_and (a b : Z) : Z := mm_and a b.

Definition v_xor (a b : Z) : Z := mm_xor a b.

Definition v_not (a : Z) : Z := mm_xor a (mm_set1_epi 32 (-1)).

(** ** Constants and bitwise operations *)

Definition gv_bcst8 (value : Z) : Z := mm_set1_epi 8 value.

Definition gv_bcst16 (value : Z) : Z := mm_set1_epi 16 value.

Definition gv_bcst32 (value : Z) : Z := mm_set1_epi 32 value.

Definition gv_bcst64 (value : Z) : Z := mm_set1_epi 64 value.

Definition gv_and32 (a b : Z) : Z := mm_and a b.

Definition gv_andfs (a b : Z) : Z := mm_and a b.

Definition gv_andn32 (a b : Z) : Z := mm_andnot a b.

Definition gv_andnfs (a b : Z) : Z := mm_andnot a b.

Definition gv_or32 (a b : Z) : Z := mm_or a b.

Definition gv_orfs (a b : Z) : Z := mm_or a b.

Definition gv_xor32 (a b : Z) : Z := mm_xor a b.

Definition gv_xorfs (a b : Z) : Z := mm_xor a b.

Definition gv_not32 (a : Z) : Z := mm_xor a (mm_set1_epi 32 (-1)).

Definition gv_notfs (a : Z) : Z := mm_xor a (mm_set1_epi 32 (-1)).

Definition gv_andn (a b : Z) : Z := mm_andnot a b.

(** ** Shifts of every element by one count *)

Definition gv_shl16 (a count : Z) : Z := if 16 <=? count then 0 else mm_slli_epi 16 a count.

Definition gv_shl32 (a count : Z) : Z := if 32 <=? count then 0 else mm_slli_epi 32 a count.

Definition gv_shl64 (a count : Z) : Z := if 64 <=? count then 0 else mm_slli_epi 64 a count.

Definition gv_shr16 (a count : Z) : Z := if 16 <=? count then 0 else mm_srli_epi 16 a count.

Definition gv_shr32 (a count : Z) : Z := if 32 <=? count then 0 else mm_srli_epi 32 a count.

Definition gv_shr64 (a count : Z) : Z := if 64 <=? count then 0 else mm_srli_epi 64 a count.

Definition gv_sar16 (a count : Z) : Z :=
  let count := if 16 <=? count then 15 else count in mm_srai_epi 16 a count.

Definition gv_sar32 (a count : Z) : Z :=
  let count := if 32 <=? count then 31 else count in mm_srai_epi 32 a count.

(** The shift of the compiler's vector type [__v2di]. *)
Definition gv_sar64 (a count : Z) : Z :=
  let count := if 64 <=? count then 63 else count in vmaps 64 (fun x => x >>> count) a.

(** ** Arithmetic *)

Definition gv_add8 (a b : Z) : Z := mm_add_epi 8 a b.

Definition gv_add16 (a b : Z) : Z := mm_add_epi 16 a b.

Definition gv_add32 (a b : Z) : Z := mm_add_epi 32 a b.

Definition gv_add64 (a b : Z) : Z := mm_add_epi 64 a b.

Definition gv_adds_s8 (a b : Z) : Z := mm_adds_epi 8 a b.

Definition gv_adds_s16 (a b : Z) : Z := mm_adds_epi 16 a b.

Definition gv_adds_s32 (a b : Z) : Z :=
  let s := mm_add_epi 32 a b in
  let m := v_and (v_xor a s) (v_xor b s) in
  let x := mm_srai_epi 32 m 31 in
  let y := mm_srai_epi 32 (mm_and s m) 31 in
  mm_xor (mm_xor (mm_srli_epi 32 x 1) y) (mm_or s x).

Definition gv_addus_u8 (a b : Z) : Z := mm_adds_epu 8 a b.

Definition gv_addus_u16 (a b : Z) : Z := mm_adds_epu 16 a b.

Definition gv_addus_u32 (m : isa) (a b : Z) : Z :=
  if has_sse41 m then mm_add_epi 32 a (mm_min_epu 32 (v_not a) b)
  else
    let s := mm_add_epi 32 a b in
    mm_or s (mm_cmpgt_epi 32 (mm_xor b (mm_set1_epi 32 (- 2 ^ 31)))
                             (mm_xor a (mm_set1_epi 32 (2 ^ 31 - 1)))).

Definition gv_sub8 (a b : Z) : Z := mm_sub_epi 8 a b.

Definition gv_sub16 (a b : Z) : Z := mm_sub_epi 16 a b.

Definition gv_sub32 (a b : Z) : Z := mm_sub_epi 32 a b.

Definition gv_sub64 (a b : Z) : Z := mm_sub_epi 64 a b.

Definition gv_subs_s8 (a b : Z) : Z := mm_subs_epi 8 a b.

Definition gv_subs_s16 (a b : Z) : Z := mm_subs_epi 16 a b.

Definition gv_subs_s32 (a b : Z) : Z :=
  let d := mm_sub_epi 32 a b in
  let m := v_and (v_xor a b) (v_xor a d) in
  let x := mm_srai_epi 32 m 31 in
  mm_or (mm_andnot x d)
        (mm_and x (mm_xor (mm_srli_epi 32 x 1) (mm_srai_epi 32 a 31))).

Definition gv_subus_u8 (a b : Z) : Z := mm_subs_epu 8 a b.

Definition gv_subus_u16 (a b : Z) : Z := mm_subs_epu 16 a b.

Definition gv_subus_u32 (m : isa) (a b : Z) : Z :=
  if has_sse41 m then mm_sub_epi 32 a (mm_min_epu 32 a b)
  else
    let sign := mm_set1_epi 32 (- 2 ^ 31) in
    mm_andnot (mm_cmpgt_epi 32 (mm_xor b sign) (mm_xor a sign)) (mm_sub_epi 32 a b).

(** ** Minimum and maximum *)

Definition gv_maxu8 (a b : Z) : Z := mm_max_epu 8 a b.

Definition gv_maxu16 (m : isa) (a b : Z) : Z :=
  if has_sse41 m then mm_max_epu 16 a b else mm_add_epi 16 (mm_subs_epu 16 a b) b.

Definition gv_maxu32 (m : isa) (a b : Z) : Z :=
  if has_sse41 m then mm_max_epu 32 a b
  else
    let s := mm_set1_epi 32 (- 2 ^ 31) in
    let m := mm_cmpgt_epi 32 (mm_xor a s) (mm_xor b s) in
    mm_or (mm_and m a) (mm_andnot m b).

Definition gv_maxs8 (m : isa) (a b : Z) : Z :=
  if has_sse41 m then mm_max_epi 8 a b
  else let m := mm_cmpgt_epi 8 a b in mm_or (mm_and m a) (mm_andnot m b).

Definition gv_maxs16 (a b : Z) : Z := mm_max_epi 16 a b.

Definition gv_maxs32 (m : isa) (a b : Z) : Z :=
  if has_sse41 m then mm_max_epi 32 a b
  else let m := mm_cmpgt_epi 32 a b in mm_or (mm_and m a) (mm_andnot m b).

Definition gv_minu8 (a b : Z) : Z := mm_min_epu 8 a b.

Definition gv_minu16 (m : isa) (a b : Z) : Z :=
  if has_sse41 m then mm_min_epu 16 a b else mm_sub_epi 16 a (mm_subs_epu 16 a b).

Definition gv_minu32 (m : isa) (a b : Z) : Z :=
  if has_sse41 m then mm_min_epu 32 a b
  else
    let s := mm_set1_epi 32 (- 2 ^ 31) in
    let m := mm_cmpgt_epi 32 (mm_xor a s) (mm_xor b s) in
    mm_or (mm_andnot m a) (mm_and m b).

Definition gv_mins8 (m : isa) (a b : Z) : Z :=
  if has_sse41 m then mm_min_epi 8 a b
  else let m := mm_cmpgt_epi 8 a b in mm_or (mm_andnot m a) (mm_and m b).

Definition gv_mins16 (a b : Z) : Z := mm_min_epi 16 a b.

Definition gv_mins32 (m : isa) (a b : Z) : Z :=
  if has_sse41 m then mm_min_epi 32 a b
  else let m := mm_cmpgt_epi 32 a b in mm_or (mm_andnot m a) (mm_and m b).

(** ** Comparisons *)

Definition gv_eq8 (a b : Z) : Z := mm_cmpeq_epi 8 a b.

Definition gv_eq16 (a b : Z) : Z := mm_cmpeq_epi 16 a b.

Definition gv_eq32 (a b : Z) : Z := mm_cmpeq_epi 32 a b.

Definition gv_gtu8 (a b : Z) : Z :=
  mm_cmpeq_epi 8 (mm_cmpeq_epi 8 a (mm_min_epu 8 a b)) mm_setzero.

Definition gv_gtu16 (m : isa) (a b : Z) : Z :=
  if has_sse41 m then mm_cmpeq_epi 16 (mm_cmpeq_epi 16 a (mm_min_epu 16 a b)) mm_setzero
  else mm_cmpeq_epi 16 (mm_cmpeq_epi 16 (mm_subs_epu 16 a b) mm_setzero) mm_setzero.

Definition gv_gtu32 (m : isa) (a b : Z) : Z :=
  if has_sse41 m then mm_cmpeq_epi 32 (mm_cmpeq_epi 32 a (mm_min_epu 32 a b)) mm_setzero
  else
    let sign := mm_set1_epi 32 (- 2 ^ 31) in
    mm_cmpgt_epi 32 (mm_xor a sign) (mm_xor b sign).

Definition gv_geu8 (a b : Z) : Z := mm_cmpeq_epi 8 b (mm_min_epu 8 a b).

Definition gv_geu16 (m : isa) (a b : Z) : Z :=
  if has_sse41 m then mm_cmpeq_epi 16 b (mm_min_epu 16 a b)
  else mm_cmpeq_epi 16 (mm_subs_epu 16 b a) mm_setzero.

Definition gv_geu32 (m : isa) (a b : Z) : Z :=
  if has_sse41 m then mm_cmpeq_epi 32 b (mm_min_epu 32 a b)
  else
    let sign := mm_set1_epi 32 (- 2 ^ 31) in
    mm_cmpeq_epi 32 (mm_cmpgt_epi 32 (mm_xor b sign) (mm_xor a sign)) mm_setzero.

Definition gv_gts8 (a b : Z) : Z := mm_cmpgt_epi 8 a b.

Definition gv_gts16 (a b : Z) : Z := mm_cmpgt_epi 16 a b.

Definition gv_gts32 (a b : Z) : Z := mm_cmpgt_epi 32 a b.

(** ** Averages *)

Definition gv_avgu8 (a b : Z) : Z := mm_avg_epu 8 a b.

Definition gv_avgu16 (a b : Z) : Z := mm_avg_epu 16 a b.

Definition gv_avgu32 (m : isa) (a b : Z) : Z :=
  let ones := mm_set1_epi 32 (-1) in
  let summ := gv_sub32 (gv_add32 a b) ones in
  let carry := mm_slli_epi 32 (gv_geu32 m a summ) 31 in
  mm_or carry (mm_srli_epi 32 summ 1).

Definition gv_avgs8 (a b : Z) : Z :=
  let sign := mm_set1_epi 8 (- 2 ^ 7) in
  v_xor (gv_avgu8 (v_xor a sign) (v_xor b sign)) sign.

Definition gv_avgs16 (a b : Z) : Z :=
  let sign := mm_set1_epi 16 (- 2 ^ 15) in
  v_xor (gv_avgu16 (v_xor a sign) (v_xor b sign)) sign.

Definition gv_avgs32 (m : isa) (a b : Z) : Z :=
  let sign := mm_set1_epi 32 (- 2 ^ 31) in
  v_xor (gv_avgu32 m (v_xor a sign) (v_xor b sign)) sign.

(** ** Products *)

Definition gv_rmuladds_hds16 (a b c : Z) : Z :=
  let x80 := mm_set1_epi 16 0x80 in
  let al := mm_unpacklo_epi 16 a x80 in
  let ah := mm_unpackhi_epi 16 a x80 in
  let bl := mm_unpacklo_epi 16 b x80 in
  let bh := mm_unpackhi_epi 16 b x80 in
  let ml := mm_srai_epi 32 (mm_madd_epi16 al bl) 15 in
  let mh := mm_srai_epi 32 (mm_madd_epi16 ah bh) 15 in
  let cl := mm_srai_epi 32 (mm_unpacklo_epi 16 mm_setzero c) 16 in
  let ch := mm_srai_epi 32 (mm_unpackhi_epi 16 mm_setzero c) 16 in
  let sl := mm_add_epi 32 ml cl in
  let sh := mm_add_epi 32 mh ch in
  mm_packs_epi 32 sl sh.

Definition gv_rmuls_hds16 (a b : Z) : Z :=
  let x80 := mm_set1_epi 16 0x80 in
  let al := mm_unpacklo_epi 16 a x80 in
  let ah := mm_unpackhi_epi 16 a x80 in
  let bl := mm_unpacklo_epi 16 b x80 in
  let bh := mm_unpackhi_epi 16 b x80 in
  let ml := mm_srai_epi 32 (mm_madd_epi16 al bl) 15 in
  let mh := mm_srai_epi 32 (mm_madd_epi16 ah bh) 15 in
  mm_packs_epi 32 ml mh.

Definition gv_muls_hds16 (a b : Z) : Z :=
  let m := mm_or (mm_srli_epi 16 (mm_mullo_epi 16 a b) 15)
                 (mm_slli_epi 16 (mm_mulhi_epi16 a b) 1) in
  let s := mm_cmpeq_epi 16 m (mm_set1_epi 16 (-0x8000)) in
  mm_xor m s.

Definition gv_muladd16 (a b c : Z) : Z := mm_add_epi 16 (mm_mullo_epi 16 a b) c.

Definition gv_mul16 (a b : Z) : Z := mm_mullo_epi 16 a b.

Definition gv_mul32 (m : isa) (a b : Z) : Z :=
  if has_sse41 m then mm_mullo_epi 32 a b
  else
    let lows := mm_shuffle_epi32 (mm_mul_epu32 a b) 8 in
    let highs :=
      mm_shuffle_epi32 (mm_mul_epu32 (mm_srli_epi 64 a 32) (mm_srli_epi 64 b 32)) 8 in
    mm_unpacklo_epi 32 lows highs.

Definition gv_hadds8x2 (m : isa) (a : Z) : Z :=
  if has_ssse3 m then mm_maddubs_epi16 (mm_set1_epi 8 1) a
  else mm_add_epi 16 (mm_srai_epi 16 a 8) (mm_srai_epi 16 (mm_slli_epi 16 a 8) 8).

Definition gv_hadds8x4 (m : isa) (a c : Z) : Z :=
  if has_ssse3 m then
    mm_add_epi 32
      (mm_madd_epi16 (mm_maddubs_epi16 (mm_set1_epi 8 1) a) (mm_set1_epi 16 1)) c
  else
    mm_add_epi 32
      (mm_madd_epi16
         (mm_add_epi 16 (mm_srai_epi 16 a 8) (mm_srai_epi 16 (mm_slli_epi 16 a 8) 8))
         (mm_set1_epi 16 1)) c.

Definition gv_haddu8x2 (m : isa) (a : Z) : Z :=
  if has_ssse3 m then mm_maddubs_epi16 a (mm_set1_epi 8 1)
  else mm_add_epi 16 (mm_srli_epi 16 a 8) (mm_and a (mm_set1_epi 16 0x00ff)).

Definition gv_haddu8x4 (m : isa) (a : Z) : Z :=
  if has_ssse3 m then
    mm_madd_epi16 (mm_maddubs_epi16 a (mm_set1_epi 8 1)) (mm_set1_epi 16 1)
  else
    mm_madd_epi16 (mm_add_epi 16 (mm_srli_epi 16 a 8) (mm_and a (mm_set1_epi 16 0x00ff)))
                  (mm_set1_epi 16 1).

Definition gv_hadds16x2 (a c : Z) : Z := mm_add_epi 32 (mm_madd_epi16 a (mm_set1_epi 16 1)) c.

Definition gv_dotu8s8x4 (a b c : Z) : Z :=
  let ah := mm_srli_epi 16 a 8 in
  let al := mm_and a (mm_set1_epi 16 0x00ff) in
  let bh := mm_srai_epi 16 b 8 in
  let bl := mm_srai_epi 16 (mm_slli_epi 16 b 8) 8 in
  let mh := mm_madd_epi16 ah bh in
  let ml := mm_madd_epi16 al bl in
  let x := mm_add_epi 32 mh ml in
  mm_add_epi 32 c x.

Definition gv_dotu8x4 (a b c : Z) : Z :=
  let ah := mm_srli_epi 16 a 8 in
  let al := mm_and a (mm_set1_epi 16 0x00ff) in
  let bh := mm_srli_epi 16 b 8 in
  let bl := mm_and b (mm_set1_epi 16 0x00ff) in
  let mh := mm_madd_epi16 ah bh in
  let ml := mm_madd_epi16 al bl in
  let x := mm_add_epi 32 mh ml in
  mm_add_epi 32 c x.

Definition gv_dots16x2_2 (a b : Z) : Z := mm_madd_epi16 a b.

Definition gv_dots16x2 (a b c : Z) : Z := gv_add32 c (gv_dots16x2_2 a b).

Definition gv_dotu16x2 (a b : Z) : Z :=
  let ml := mm_mullo_epi 16 a b in
  let mh := mm_mulhi_epu16 a b in
  let ls := mm_add_epi 32 (mm_srli_epi 32 ml 16) (mm_and ml (mm_set1_epi 32 0x0000ffff)) in
  let hs := mm_add_epi 32 (mm_slli_epi 32 mh 16) (mm_and mh (mm_set1_epi 32 0xffff0000)) in
  mm_add_epi 32 ls hs.

Definition gv_dots_u8s8x4 (a b c : Z) : Z :=
  let ah := mm_srli_epi 16 a 8 in
  let al := mm_and a (mm_set1_epi 16 0x00ff) in
  let bh := mm_srai_epi 16 b 8 in
  let bl := mm_srai_epi 16 (mm_slli_epi 16 b 8) 8 in
  let mh := mm_madd_epi16 ah bh in
  let ml := mm_madd_epi16 al bl in
  gv_adds_s32 c (mm_add_epi 32 mh ml).

(** ** Tests and selections *)

Definition gv_testz (m : isa) (a : Z) : bool :=
  if has_sse41 m then mm_testz_si128 a a else mm_cvtsi128_si64 (mm_packs_epi 32 a a) =? 0.

Definition gv_testall0 (m : isa) (a : Z) : bool :=
  if has_sse41 m then mm_testz_si128 a (mm_set1_epi 32 (-1))
  else mm_cvtsi128_si64 (mm_packs_epi 32 a a) =? 0.

Definition gv_testall1 (m : isa) (a : Z) : bool :=
  if has_sse41 m then mm_test_all_ones a else mm_cvtsi128_si64 (mm_packs_epi 32 a a) =? -1.

Definition v_eq (m : isa) (a b : Z) : bool := gv_testz m (mm_xor a b).

Definition gv_select8 (m : isa) (_cmp _true _false : Z) : Z :=
  if has_sse41 m then mm_blendv_epi8 _false _true _cmp
  else v_or (v_and _cmp _true) (gv_andn _cmp _false).

Definition gv_signselect8 (m : isa) (bits _true _false : Z) : Z :=
  if has_sse41 m then mm_blendv_epi8 _false _true bits
  else gv_select8 m (gv_gts8 (gv_bcst8 0) bits) _true _false.

Definition gv_select16 (m : isa) (_cmp _true _false : Z) : Z :=
  if has_sse41 m then mm_blendv_epi8 _false _true _cmp
  else v_or (v_and _cmp _true) (gv_andn _cmp _false).

Definition gv_select32 (m : isa) (_cmp _true _false : Z) : Z :=
  if has_sse41 m then mm_blendv_epi8 _false _true _cmp
  else v_or (v_and _cmp _true) (gv_andn _cmp _false).

Definition gv_dots_s16x2 (m : isa) (a b c : Z) : Z :=
  let ab := gv_dots16x2_2 a b in
  let s0 := gv_adds_s32 ab c in
  let s1 := gv_eq32 ab (gv_bcst32 0x80000000) in
  let s2 := gv_select32 m (gv_gts32 (gv_bcst32 0) c) (gv_xor32 c (gv_bcst32 0x80000000))
                        (gv_bcst32 0x7fffffff) in
  gv_select32 m s1 s2 s0.

Definition gv_mul_even_s16 (a b : Z) : Z :=
  let c := mm_set1_epi 32 0x0000ffff in mm_madd_epi16 (mm_and a c) (mm_and b c).

Definition gv_mul_even_u16 (m : isa) (a b : Z) : Z :=
  if has_sse41 m then
    let c := gv_bcst32 0x0000ffff in gv_mul32 m (v_and a c) (v_and b c)
  else
    let ml := mm_mullo_epi 16 a b in
    let mh := mm_mulhi_epu16 a b in
    mm_or (mm_and ml (mm_set1_epi 32 0x0000ffff)) (mm_slli_epi 32 mh 16).

Definition gv_mul_odds_s16 (a b : Z) : Z :=
  mm_madd_epi16 (mm_srli_epi 32 a 16) (mm_srli_epi 32 b 16).

Definition gv_mul_odds_u16 (m : isa) (a b : Z) : Z :=
  if has_sse41 m then gv_mul32 m (gv_shr32 a 16) (gv_shr32 b 16)
  else
    let ml := mm_mullo_epi 16 a b in
    let mh := mm_mulhi_epu16 a b in
    mm_or (mm_and mh (mm_set1_epi 32 0xffff0000)) (mm_srli_epi 32 ml 16).

(** ** Packing, unpacking and extension *)

Definition gv_packss_s16 (low high : Z) : Z := mm_packs_epi 16 low high.

Definition gv_packus_s16 (low high : Z) : Z := mm_packus_epi 16 low high.

Definition gv_packus_u16 (m : isa) (low high : Z) : Z :=
  if has_sse41 m then
    mm_packus_epi 16 (mm_min_epu 16 low (mm_set1_epi 16 0xff))
                     (mm_min_epu 16 high (mm_set1_epi 16 0xff))
  else
    mm_packus_epi 16 (mm_sub_epi 16 low (mm_subs_epu 16 low (mm_set1_epi 16 0xff)))
                     (mm_sub_epi 16 high (mm_subs_epu 16 high (mm_set1_epi 16 0xff))).

Definition gv_packtu16 (low high : Z) : Z :=
  mm_packus_epi 16 (v_and low (mm_set1_epi 16 0xff)) (v_and high (mm_set1_epi 16 0xff)).

Definition gv_packss_s32 (low high : Z) : Z := mm_packs_epi 32 low high.

Definition gv_packus_s32 (m : isa) (low high : Z) : Z :=
  if has_sse41 m then mm_packus_epi 32 low high
  else
    let s := mm_srai_epi 16 (mm_packs_epi 32 low high) 15 in
    let r := gv_add16 (mm_packs_epi 32 (gv_sub32 low (gv_bcst32 0x8000))
                                       (gv_sub32 high (gv_bcst32 0x8000)))
                      (gv_bcst16 0x8000) in
    gv_andn s r.

Definition gv_packus_u32 (m : isa) (low high : Z) : Z :=
  if has_sse41 m then
    mm_packus_epi 32 (mm_min_epu 32 low (mm_set1_epi 32 0xffff))
                     (mm_min_epu 32 high (mm_set1_epi 32 0xffff))
  else
    let s := mm_cmpgt_epi 16 (mm_packs_epi 32 (mm_srli_epi 32 low 16) (mm_srli_epi 32 high 16))
                          mm_setzero in
    let r := mm_packs_epi 32 (mm_srai_epi 32 (mm_slli_epi 32 low 16) 16)
                             (mm_srai_epi 32 (mm_slli_epi 32 high 16) 16) in
    mm_or r s.

Definition gv_packtu32 (m : isa) (low high : Z) : Z :=
  if has_sse41 m then
    mm_packus_epi 32 (v_and low (mm_set1_epi 32 0xffff)) (v_and high (mm_set1_epi 32 0xffff))
  else
    mm_packs_epi 32 (mm_srai_epi 32 (mm_slli_epi 32 low 16) 16)
                    (mm_srai_epi 32 (mm_slli_epi 32 high 16) 16).

Definition gv_unpacklo8 (lows highs : Z) : Z := mm_unpacklo_epi 8 lows highs.

Definition gv_extend_lo_s8 (m : isa) (vec : Z) : Z :=
  if has_sse41 m then mm_cvtepi 8 vec else mm_srai_epi 16 (mm_unpacklo_epi 8 vec vec) 8.

Definition gv_extend_hi_s8 (m : isa) (vec : Z) : Z :=
  if has_sse41 m then mm_cvtepi 8 (mm_loadu_hi64 vec)
  else mm_srai_epi 16 (mm_unpackhi_epi 8 vec vec) 8.

Definition gv_unpacklo16 (lows highs : Z) : Z := mm_unpacklo_epi 16 lows highs.

Definition gv_extend_lo_s16 (m : isa) (vec : Z) : Z :=
  if has_sse41 m then mm_cvtepi 16 vec else mm_srai_epi 32 (mm_unpacklo_epi 16 vec vec) 16.

Definition gv_extend_hi_s16 (m : isa) (vec : Z) : Z :=
  if has_sse41 m then mm_cvtepi 16 (mm_loadu_hi64 vec)
  else mm_srai_epi 32 (mm_unpackhi_epi 16 vec vec) 16.

Definition gv_unpacklo32 (lows highs : Z) : Z := mm_unpacklo_epi 32 lows highs.

Definition gv_unpackhi8 (lows highs : Z) : Z := mm_unpackhi_epi 8 lows highs.

Definition gv_unpackhi16 (lows highs : Z) : Z := mm_unpackhi_epi 16 lows highs.

Definition gv_unpackhi32 (lows highs : Z) : Z := mm_unpackhi_epi 32 lows highs.

(** ** Shifts and rotates by a count per element *)

Definition gv_shl8v (m : isa) (a b : Z) : Z :=
  let x1 := gv_add8 a a in
  let r1 := gv_signselect8 m (gv_shl64 b 7) x1 a in
  let x2 := gv_and32 (gv_shl64 r1 2) (gv_bcst8 0xfc) in
  let r2 := gv_signselect8 m (gv_shl64 b 6) x2 r1 in
  let x3 := gv_and32 (gv_shl64 r2 4) (gv_bcst8 0xf0) in
  gv_signselect8 m (gv_shl64 b 5) x3 r2.

Definition gv_shl16v (a b : Z) : Z := vzip 16 (fun x n => Z.shiftl x (n &&& 15)) a b.

Definition gv_shl32v (a b : Z) : Z := vzip 32 (fun x n => Z.shiftl x (n &&& 31)) a b.

Definition gv_shr8v (m : isa) (a b : Z) : Z :=
  let x1 := gv_and32 (gv_shr64 a 1) (gv_bcst8 0x7f) in
  let r1 := gv_signselect8 m (gv_shl64 b 7) x1 a in
  let x2 := gv_and32 (gv_shr64 r1 2) (gv_bcst8 0x3f) in
  let r2 := gv_signselect8 m (gv_shl64 b 6) x2 r1 in
  let x3 := gv_and32 (gv_shr64 r2 4) (gv_bcst8 0x0f) in
  gv_signselect8 m (gv_shl64 b 5) x3 r2.

Definition gv_shr16v (a b : Z) : Z := vzip 16 (fun x n => x >>> (n &&& 15)) a b.

Definition gv_shr32v (a b : Z) : Z := vzip 32 (fun x n => x >>> (n &&& 31)) a b.

Definition gv_sar8v (a b : Z) : Z := vzips 8 (fun x n => x >>> (n &&& 7)) a b.

Definition gv_sar16v (a b : Z) : Z := vzips 16 (fun x n => x >>> (n &&& 15)) a b.

Definition gv_sar32v (a b : Z) : Z := vzips 32 (fun x n => x >>> (n &&& 31)) a b.

(** [rol16] and [rol32] of [rx/asm.hpp]. *)
Definition gv_rol8v (m : isa) (a b : Z) : Z :=
  let x1 := gv_sub8 (gv_add8 a a) (gv_gts8 (gv_bcst8 0) a) in
  let r1 := gv_signselect8 m (gv_shl64 b 7) x1 a in
  let c2 := gv_bcst8 0x3 in
  let x2 := gv_or32 (gv_and32 (gv_shr64 r1 6) c2) (gv_andn32 c2 (gv_shl64 r1 2)) in
  let r2 := gv_signselect8 m (gv_shl64 b 6) x2 r1 in
  let c3 := gv_bcst8 0xf in
  let x3 := gv_or32 (gv_and32 (gv_shr64 r2 4) c3) (gv_andn32 c3 (gv_shl64 r2 4)) in
  gv_signselect8 m (gv_shl64 b 5) x3 r2.

Definition gv_rol16v (a b : Z) : Z := vzip 16 rol16 a b.

Definition gv_rol16 (Count a : Z) : Z :=
  let count := u8 Count &&& 0xf in mm_or (mm_srli_epi 16 a (16 - count)) (mm_slli_epi 16 a count).

Definition gv_rol32v (a b : Z) : Z := vzip 32 rol32 a b.

Definition gv_rol32 (Count a : Z) : Z :=
  let count := u8 Count &&& 0x1f in mm_or (mm_srli_epi 32 a (32 - count)) (mm_slli_epi 32 a count).

(** Funnel shifts of bytes. *)
Definition gv_fshl8 (m : isa) (a b c : Z) : Z :=
  let x1 := gv_sub8 (gv_add8 a a) (gv_gts8 (gv_bcst8 0) b) in
  let s1 := gv_shl64 c 7 in
  let r1 := gv_signselect8 m s1 x1 a in
  let b1 := gv_signselect8 m s1 (gv_shl64 b 1) b in
  let c2 := gv_bcst8 0x3 in
  let x2 := gv_and32 (gv_shr64 b1 6) c2 in
  let x2 := gv_or32 x2 (gv_andn32 c2 (gv_shl64 r1 2)) in
  let s2 := gv_shl64 c 6 in
  let r2 := gv_signselect8 m s2 x2 r1 in
  let b2 := gv_signselect8 m s2 (gv_shl64 b1 2) b1 in
  let c3 := gv_bcst8 0xf in
  let x3 := gv_and32 (gv_shr64 b2 4) c3 in
  let x3 := gv_or32 x3 (gv_andn32 c3 (gv_shl64 r2 4)) in
  gv_signselect8 m (gv_shl64 c 5) x3 r2.

Definition gv_fshr8 (m : isa) (a b c : Z) : Z :=
  let c1 := gv_bcst8 0x7f in
  let x1 := gv_and32 (gv_shr64 b 1) c1 in
  let x1 := gv_or32 x1 (gv_andn32 c1 (gv_shl64 a 7)) in
  let s1 := gv_shl64 c 7 in
  let r1 := gv_signselect8 m s1 x1 b in
  let a1 := gv_signselect8 m s1 (gv_shr64 a 1) a in
  let c2 := gv_bcst8 0x3f in
  let x2 := gv_and32 (gv_shr64 r1 2) c2 in
  let x2 := gv_or32 x2 (gv_andn32 c2 (gv_shl64 a1 6)) in
  let s2 := gv_shl64 c 6 in
  let r2 := gv_signselect8 m s2 x2 r1 in
  let a2 := gv_signselect8 m s2 (gv_shr64 a1 2) a1 in
  let c3 := gv_bcst8 0x0f in
  let x3 := gv_and32 (gv_shr64 r2 4) c3 in
  let x3 := gv_or32 x3 (gv_andn32 c3 (gv_shl64 a2 4)) in
  gv_signselect8 m (gv_shl64 c 5) x3 r2.

(** Byte shifts of the whole vector. *)
Definition gv_shuffle_left (Count a : Z) : Z := if 15 <? Count then 0 else mm_slli_si128 a Count.

Definition gv_shuffle_right (Count a : Z) : Z := if 15 <? Count then 0 else mm_srli_si128 a Count.

(** Byte reversal of the words. *)
Definition gv_rev32 (m : isa) (vec : Z) : Z :=
  if has_ssse3 m then
    mm_shuffle_epi8 vec
      (le_radix 8 [3; 2; 1; 0; 7; 6; 5; 4; 11; 10; 9; 8; 15; 14; 13; 12])
  else gv_rol32 16 (gv_rol16 8 vec).

Definition gv_to_be32 (m : isa) (vec : Z) : Z := gv_rev32 m vec.
