(* ===== verification/SimdSpec.v ===== *)
(** * What the vector operations compute

    Each [gv_] function equals an elementwise reference function, whatever the
    instruction set: the bit tricks of the SSE2 branches, the saturation
    masks, and the horizontal sums.  The equations are stated with the lane
    functions of Simd on exact integers. *)

From stdpp Require Import base numbers list tactics.
From Stdlib Require Import Lia.
From S2P Require Import Prelude Simd SimdOps.
Open Scope Z_scope.
Open Scope mach_scope.

Create HintDb simd discriminated.
#[export] Hint Unfold mm_set1_epi mm_setzero mm_and mm_or mm_xor mm_andnot mm_slli_epi mm_srli_epi
  mm_srai_epi mm_add_epi mm_sub_epi mm_adds_epi mm_subs_epi mm_adds_epu mm_subs_epu mm_max_epu
  mm_min_epu mm_max_epi mm_min_epi mm_cmpeq_epi mm_cmpgt_epi mm_avg_epu mm_mullo_epi
  mm_mulhi_epi16 mm_mulhi_epu16 v_or v_and v_xor v_not gv_bcst8 gv_bcst16 gv_bcst32 gv_bcst64
  gv_and32 gv_andfs gv_andn32 gv_andnfs gv_or32 gv_orfs gv_xor32 gv_xorfs gv_not32 gv_notfs gv_andn
  gv_add8 gv_add16 gv_add32 gv_add64 gv_sub8 gv_sub16 gv_sub32 gv_sub64 : simd.

(** ** Scalar facts *)

(** Complementing the sign bit turns the unsigned order into the signed one. *)
Lemma lxor_sign w x : 0 < w -> urange w x -> x ^^^ 2 ^ (w - 1) = wrap w (x + 2 ^ (w - 1)).
Proof.
  intros Hw Hx. apply Z.bits_inj'. intros j Hj.
  assert (2 ^ w = 2 * 2 ^ (w - 1)) as He by (rewrite <- Z.pow_succ_r by lia; f_equal; lia).
  pose proof (pow2_pos (w - 1) ltac:(lia)) as Hp.
  pose proof (testbit_top w x Hw Hx) as Ht.
  rewrite Z.lxor_spec, Z.pow2_bits_eqb by lia.
  destruct (Z.leb_spec (2 ^ (w - 1)) x) as [Hge|Hlt].
  - rewrite (wrap_unique w _ (x - 2 ^ (w - 1)) 1) by (unfold urange in *; lia).
    assert (Z.ldiff x (2 ^ (w - 1)) = x - 2 ^ (w - 1)) as <-.
    { symmetry. apply Z.sub_nocarry_ldiff, Z.bits_inj'. intros k Hk.
      rewrite Z.ldiff_spec, Z.pow2_bits_eqb, Z.bits_0 by lia.
      destruct (Z.eqb_spec (w - 1) k); [subst; by rewrite Ht|done]. }
    rewrite Z.ldiff_spec, Z.pow2_bits_eqb by lia.
    destruct (Z.eqb_spec (w - 1) j); [subst; by rewrite Ht|].
    by rewrite xorb_false_r, andb_true_r.
  - rewrite wrap_id by (unfold urange in *; lia).
    rewrite Z.add_nocarry_lxor, Z.lxor_spec, Z.pow2_bits_eqb by
      (lia || (apply Z.bits_inj'; intros k Hk; rewrite Z.land_spec, Z.pow2_bits_eqb, Z.bits_0 by lia;
               destruct (Z.eqb_spec (w - 1) k); [subst; by rewrite Ht|by rewrite andb_false_r])).
    done.
Qed.

Lemma sext_flip w x : 0 < w -> urange w x -> sext w (x ^^^ wrap w (- 2 ^ (w - 1))) = x - 2 ^ (w - 1).
Proof.
  intros Hw Hx.
  assert (2 ^ w = 2 * 2 ^ (w - 1)) as He by (rewrite <- Z.pow_succ_r by lia; f_equal; lia).
  pose proof (pow2_pos (w - 1) ltac:(lia)) as Hp.
  rewrite (wrap_unique w _ (2 ^ (w - 1)) (-1)) by (unfold urange; lia).
  rewrite lxor_sign, sext_wrap by (done || lia).
  replace (x + 2 ^ (w - 1)) with (x - 2 ^ (w - 1) + 1 * 2 ^ w) by lia.
  rewrite <- sext_wrap, wrap_add_mul, sext_wrap by lia. apply sext_id; [done|].
  unfold srange, urange in *. lia.
Qed.

Lemma lxor_ones w x : 0 <= w -> urange w x -> x ^^^ wrap w (-1) = 2 ^ w - 1 - x.
Proof.
  intros Hw Hx. rewrite <- lnot_w_eq by done. apply Z.bits_inj'. intros j Hj. unfold lnot_w.
  rewrite Z.lxor_spec, !testbit_wrap, Z.lnot_spec, Z.bits_m1 by done.
  destruct (Z.ltb_spec j w); cbn [andb]; [apply xorb_true_r|].
  by rewrite (urange_testbit w x).
Qed.

(** Complementing every bit but the sign reverses the order. *)
Lemma sext_flip_not w x :
  0 < w -> urange w x -> sext w (x ^^^ wrap w (2 ^ (w - 1) - 1)) = 2 ^ (w - 1) - 1 - x.
Proof.
  intros Hw Hx.
  assert (2 ^ w = 2 * 2 ^ (w - 1)) as He by (rewrite <- Z.pow_succ_r by lia; f_equal; lia).
  pose proof (pow2_pos (w - 1) ltac:(lia)) as Hp.
  assert (wrap w (2 ^ (w - 1) - 1) = wrap w (- 2 ^ (w - 1)) ^^^ wrap w (-1)) as ->.
  { rewrite lxor_ones by (lia || apply wrap_range; lia).
    rewrite (wrap_unique w (- _) (2 ^ (w - 1)) (-1)), wrap_id by (unfold urange; lia). lia. }
  rewrite <- Z.lxor_assoc. set (z := x ^^^ wrap w (- 2 ^ (w - 1))).
  assert (urange w z) as Hz by (apply lxor_urange; [lia|done|apply wrap_range; lia]).
  assert (sext w z = x - 2 ^ (w - 1)) as Hsz by (by apply sext_flip).
  rewrite lxor_ones by (done || lia).
  rewrite sext_neg in * by (done || unfold urange in *; lia).
  unfold urange in *. zbool; cbn [b2z] in *; lia.
Qed.

(** Comparison masks select. *)
Lemma land_mask w b y : 0 <= w -> urange w y -> wrap w (mask b) &&& y = if b then y else 0.
Proof.
  intros Hw Hy. destruct b; cbn [mask].
  - apply Z.bits_inj'. intros j Hj. rewrite Z.land_spec, testbit_wrap, Z.bits_m1 by done.
    destruct (Z.ltb_spec j w); [done|]. by rewrite (urange_testbit w y).
  - unfold wrap. by rewrite Zmod_0_l.
Qed.

Lemma ldiff_mask w b y : 0 <= w -> urange w y -> Z.ldiff y (wrap w (mask b)) = if b then 0 else y.
Proof.
  intros Hw Hy. destruct b; cbn [mask].
  - apply Z.bits_inj'. intros j Hj. rewrite Z.ldiff_spec, testbit_wrap, Z.bits_m1, Z.bits_0 by done.
    destruct (Z.ltb_spec j w); [by rewrite andb_false_r|]. by rewrite (urange_testbit w y).
  - unfold wrap. by rewrite Zmod_0_l, Z.ldiff_0_r.
Qed.

Lemma lor_mask w b y :
  0 <= w -> urange w y -> y ||| wrap w (mask b) = if b then 2 ^ w - 1 else y.
Proof.
  intros Hw Hy. destruct b; cbn [mask].
  - replace (2 ^ w - 1) with (Z.ones w) by (rewrite Z.ones_equiv; lia).
    apply Z.bits_inj'. intros j Hj. rewrite Z.lor_spec, testbit_wrap, Z.bits_m1 by done.
    destruct (Z.ltb_spec j w); [by rewrite Z.ones_spec_low, orb_true_r by lia|].
    by rewrite Z.ones_spec_high, (urange_testbit w y) by (done || lia).
  - unfold wrap. by rewrite Zmod_0_l, Z.lor_0_r.
Qed.

Lemma mask_eq0 w b : 0 < w -> (wrap w (mask b) =? 0) = negb b.
Proof.
  intros Hw. pose proof (Z.pow_gt_1 2 w). destruct b; cbn [mask negb].
  - rewrite (wrap_unique w (-1) (2 ^ w - 1) (-1)) by (unfold urange; lia). zbool; lia || done.
  - unfold wrap. by rewrite Zmod_0_l.
Qed.

(** The arithmetic shift that spreads the sign bit. *)
Lemma srai_mask w n x :
  0 < w -> n = w - 1 -> urange w x ->
  wrap w (sext w x >>> Z.min n (w - 1)) = wrap w (mask (Z.testbit x (w - 1))).
Proof.
  intros Hw -> Hx. rewrite Z.min_id, testbit_top by done. f_equal.
  assert (2 ^ w = 2 * 2 ^ (w - 1)) as He by (rewrite <- Z.pow_succ_r by lia; f_equal; lia).
  pose proof (pow2_pos (w - 1) ltac:(lia)) as Hp. unfold urange in Hx.
  rewrite sext_neg, Z.shiftr_div_pow2 by (done || lia).
  destruct (Z.leb_spec (2 ^ (w - 1)) x); cbn [b2z mask].
  - symmetry. apply (Z.div_unique _ _ _ (x - 2 ^ (w - 1))); lia.
  - apply Z.div_small. lia.
Qed.

(** ** Automation: equality of vectors by lanes *)

Lemma lane_0 w i : lane w 0 i = 0.
Proof. unfold lane, wrap. by rewrite Z.shiftr_0_l, Zmod_0_l. Qed.

Ltac vrange :=
  repeat first
    [ assumption | apply vmake_range; solve [auto with lanes]
    | apply land_urange2; [lia| |] | apply lor_urange; [lia| |] | apply lxor_urange; [lia| |]
    | apply ldiff_urange; [lia|] | exact urange_128_0 ].

(** Push [lane] through the operations; [Hi] bounds the lane. *)
Ltac lane_push :=
  repeat first
    [ rewrite lane_0 | rewrite lane_land by lia | rewrite lane_lor by lia | rewrite lane_lxor by lia
    | rewrite lane_ldiff by lia
    | rewrite lane_vmap by (assumption || solve [auto with lanes])
    | rewrite lane_vzip by (assumption || solve [auto with lanes])
    | rewrite lane_vmaps by (assumption || solve [auto with lanes])
    | rewrite lane_vzips by (assumption || solve [auto with lanes])
    | rewrite lane_vmake by (assumption || solve [auto with lanes]) ].

(** Name the lanes of a vector and keep their ranges. *)
Ltac name_lane w a i x :=
  let H := fresh "H" x in
  pose proof (lane_range w a i ltac:(lia)) as H; set (x := lane w a i) in *; clearbody x.

Ltac by_lanes w i :=
  autounfold with simd; cbv zeta;
  apply (vec_ext w); [solve [auto with lanes] | vrange | vrange | intros i ?Hi]; lane_push.

(** Linear arithmetic through the machine conversions. *)
Ltac mlia :=
  unfold clamp_s, clamp_u, urange, srange, sext, wrap in *; zbool;
  Z.to_euclidean_division_equations; lia.

(** Evaluate operations on numerals. *)
Ltac pos_cst p := lazymatch p with xH => idtac | xO ?q => pos_cst q | xI ?q => pos_cst q end.

Ltac z_cst t := lazymatch t with Z0 => idtac | Zpos ?p => pos_cst p | Zneg ?p => pos_cst p end.

Ltac eval_op t := let v := eval vm_compute in t in progress change t with v.

Ltac eval_consts :=
  repeat match goal with
    | |- context [?f ?a ?b] =>
        lazymatch f with
        | wrap => idtac | sext => idtac | Z.shiftr => idtac | Z.shiftl => idtac | Z.lxor => idtac
        | Z.land => idtac | Z.lor => idtac | Z.ldiff => idtac | Z.leb => idtac | Z.ltb => idtac
        | Z.eqb => idtac | Z.add => idtac | Z.sub => idtac | Z.mul => idtac | Z.pow => idtac
        | Z.min => idtac | Z.max => idtac | Z.div => idtac | Z.modulo => idtac
        end; z_cst a; z_cst b; eval_op (f a b)
    | |- context [mask ?b] => lazymatch b with true => idtac | false => idtac end; eval_op (mask b)
    end.

(** Range side conditions of lane values. *)
Ltac lrange :=
  repeat first
    [ assumption | apply wrap_range; lia | apply land_urange2; [lia| |] | apply lor_urange; [lia| |]
    | apply lxor_urange; [lia| |] | apply ldiff_urange; [lia|] ].

(** Sign bits of bitwise combinations, as comparisons. *)
Ltac sign_bits w :=
  rewrite ?Z.land_spec, ?Z.lxor_spec, ?Z.lor_spec;
  rewrite ?(testbit_top w) by (lia || lrange).

Lemma gv_adds_s32_eq a b :
  urange 128 a -> urange 128 b ->
  gv_adds_s32 a b = vzips 32 (fun x y => clamp_s 32 (x + y)) a b.
Proof.
  intros Ha Hb. unfold gv_adds_s32. by_lanes 32 i. name_lane 32 a i x. name_lane 32 b i y.
  remember (u32 (x + y)) as s eqn:Es.
  assert (urange 32 s) as Hs by (subst s; apply wrap_range; lia).
  rewrite !srai_mask, lor_mask by (lia || lrange). sign_bits 32. change (32 - 1) with 31.
  eval_consts. zbool; cbn [andb xorb]; eval_consts; rewrite ?Z.lxor_0_l; mlia.
Qed.

(** Finish a lane goal: masks, sign flips, then case analysis. *)
Ltac lane_fin w :=
  rewrite ?srai_mask by (lia || lrange);
  rewrite ?land_mask, ?ldiff_mask, ?lor_mask by (lia || lrange);
  rewrite ?(sext_flip w), ?(sext_flip_not w) by (lia || lrange);
  rewrite ?lxor_ones, ?mask_eq0 by (lia || lrange);
  eval_consts; zbool; cbn [andb orb negb]; eval_consts;
  rewrite ?Z.lor_0_l, ?Z.lor_0_r, ?Z.lxor_0_l; mlia.

(** A binary operation with one or two branches. *)
Ltac binop w f m :=
  intros; unfold f; try destruct (has_sse41 m);
  let i := fresh "i" in by_lanes w i;
  repeat match goal with
    | |- context [lane w ?v i] => let x := fresh "x" in name_lane w v i x
    end; lane_fin w.

Section Ops.
Context (m : isa) (a b : Z).
Hypothesis Ha : urange 128 a.
Hypothesis Hb : urange 128 b.

Lemma gv_subs_s32_eq : gv_subs_s32 a b = vzips 32 (fun x y => clamp_s 32 (x - y)) a b.
Proof.
  unfold gv_subs_s32. by_lanes 32 i. name_lane 32 a i x. name_lane 32 b i y.
  remember (u32 (x - y)) as s eqn:Es.
  assert (urange 32 s) as Hs by (subst s; apply wrap_range; lia).
  rewrite !srai_mask, ldiff_mask, land_mask by (lia || lrange). sign_bits 32. change (32 - 1) with 31.
  eval_consts. zbool; cbn [andb xorb]; eval_consts; rewrite ?Z.lor_0_r; mlia.
Qed.

Lemma gv_addus_u32_eq : gv_addus_u32 m a b = vzip 32 (fun x y => clamp_u 32 (x + y)) a b.
Proof. binop 32 gv_addus_u32 m. Qed.

Lemma gv_subus_u32_eq : gv_subus_u32 m a b = vzip 32 (fun x y => clamp_u 32 (x - y)) a b.
Proof. binop 32 gv_subus_u32 m. Qed.

Lemma gv_maxu16_eq : gv_maxu16 m a b = vzip 16 Z.max a b.
Proof. binop 16 gv_maxu16 m. Qed.

Lemma gv_maxu32_eq : gv_maxu32 m a b = vzip 32 Z.max a b.
Proof. binop 32 gv_maxu32 m. Qed.

Lemma gv_maxs8_eq : gv_maxs8 m a b = vzips 8 Z.max a b.
Proof. binop 8 gv_maxs8 m. Qed.

Lemma gv_maxs32_eq : gv_maxs32 m a b = vzips 32 Z.max a b.
Proof. binop 32 gv_maxs32 m. Qed.

Lemma gv_minu16_eq : gv_minu16 m a b = vzip 16 Z.min a b.
Proof. binop 16 gv_minu16 m. Qed.

Lemma gv_minu32_eq : gv_minu32 m a b = vzip 32 Z.min a b.
Proof. binop 32 gv_minu32 m. Qed.

Lemma gv_mins8_eq : gv_mins8 m a b = vzips 8 Z.min a b.
Proof. binop 8 gv_mins8 m. Qed.

Lemma gv_mins32_eq : gv_mins32 m a b = vzips 32 Z.min a b.
Proof. binop 32 gv_mins32 m. Qed.

Lemma gv_gtu8_eq : gv_gtu8 a b = vzip 8 (fun x y => mask (y <? x)) a b.
Proof. binop 8 gv_gtu8 m. Qed.

Lemma gv_gtu16_eq : gv_gtu16 m a b = vzip 16 (fun x y => mask (y <? x)) a b.
Proof. binop 16 gv_gtu16 m. Qed.

Lemma gv_gtu32_eq : gv_gtu32 m a b = vzip 32 (fun x y => mask (y <? x)) a b.
Proof. binop 32 gv_gtu32 m. Qed.

Lemma gv_geu8_eq : gv_geu8 a b = vzip 8 (fun x y => mask (y <=? x)) a b.
Proof. binop 8 gv_geu8 m. Qed.

Lemma gv_geu16_eq : gv_geu16 m a b = vzip 16 (fun x y => mask (y <=? x)) a b.
Proof. binop 16 gv_geu16 m. Qed.

Lemma gv_geu32_eq : gv_geu32 m a b = vzip 32 (fun x y => mask (y <=? x)) a b.
Proof. binop 32 gv_geu32 m. Qed.

End Ops.

(** The rounded average without the carry bit. *)
Lemma gv_avgu32_eq m a b :
  urange 128 a -> urange 128 b -> gv_avgu32 m a b = vzip 32 (fun x y => (x + y + 1) >>> 1) a b.
Proof.
  intros Ha Hb. unfold gv_avgu32. rewrite gv_geu32_eq by (autounfold with simd; vrange).
  by_lanes 32 i. name_lane 32 a i x. name_lane 32 b i y.
  rewrite wrap_sub_r, wrap_sub_l by lia. rewrite !Z.shiftr_div_pow2 by lia.
  eval_consts. destruct (Z.leb_spec (u32 (x + y - -1)) x); eval_consts; [|rewrite Z.lor_0_l; mlia].
  rewrite Z.lor_comm. change 2147483648 with (Z.shiftl 1 31).
  rewrite <- add_shifted_lor by mlia. eval_consts. mlia.
Qed.

Lemma lxor_smin w x : 0 < w -> urange w x -> x ^^^ wrap w (- 2 ^ (w - 1)) = wrap w (x + 2 ^ (w - 1)).
Proof.
  intros Hw Hx. pose proof (pow2_pos (w - 1) ltac:(lia)) as Hp.
  assert (2 ^ w = 2 * 2 ^ (w - 1)) as He by (rewrite <- Z.pow_succ_r by lia; f_equal; lia).
  rewrite (wrap_unique w (- _) (2 ^ (w - 1)) (-1)) by (unfold urange; lia). by apply lxor_sign.
Qed.

(** The signed averages flip the sign bits around the unsigned one. *)
Ltac signed_avg w :=
  let i := fresh "i" in by_lanes w i;
  repeat match goal with
    | |- context [lane w ?v i] => let x := fresh "x" in name_lane w v i x
    end;
  rewrite ?(lxor_smin w) by (lia || lrange); rewrite !Z.shiftr_div_pow2 by lia; mlia.

Lemma gv_avgs8_eq a b :
  urange 128 a -> urange 128 b -> gv_avgs8 a b = vzips 8 (fun x y => (x + y + 1) >>> 1) a b.
Proof. intros Ha Hb. unfold gv_avgs8, gv_avgu8. signed_avg 8. Qed.

Lemma gv_avgs16_eq a b :
  urange 128 a -> urange 128 b -> gv_avgs16 a b = vzips 16 (fun x y => (x + y + 1) >>> 1) a b.
Proof. intros Ha Hb. unfold gv_avgs16, gv_avgu16. signed_avg 16. Qed.

Lemma gv_avgs32_eq m a b :
  urange 128 a -> urange 128 b -> gv_avgs32 m a b = vzips 32 (fun x y => (x + y + 1) >>> 1) a b.
Proof.
  intros Ha Hb. unfold gv_avgs32. rewrite gv_avgu32_eq by (autounfold with simd; vrange). signed_avg 32.
Qed.
