(* ===== verification/SimdWide.v ===== *)
(** * Operations that change the element width

    Products, horizontal sums, packing, unpacking and the byte shifts of
    [rx/simd.hpp]: what each computes, as exact arithmetic on the elements it
    reads.  The first part relates the views of one vector at two widths. *)

From stdpp Require Import base numbers list tactics.
From Stdlib Require Import Lia.
From S2P Require Import Prelude Asm Simd SimdOps SimdSpec.
Open Scope Z_scope.
Open Scope mach_scope.

(** ** Lanes of two widths *)

Lemma lane_even w v i : 0 < w -> 0 <= i -> lane w v (2 * i) = wrap w (lane (2 * w) v i).
Proof.
  intros. apply Z.bits_inj'. intros j Hj. rewrite testbit_wrap, !testbit_in_lane by lia.
  zbool; try lia; cbn [andb]; try done. f_equal. lia.
Qed.

Lemma lane_odd w v i : 0 < w -> 0 <= i -> lane w v (2 * i + 1) = lane (2 * w) v i >>> w.
Proof.
  intros. apply Z.bits_inj'. intros j Hj. rewrite Z.shiftr_spec, !testbit_in_lane by lia.
  zbool; try lia; cbn [andb]; try done. f_equal. lia.
Qed.

Lemma lane_halves w v i :
  0 < w -> 0 <= i -> lane (2 * w) v i = lane w v (2 * i) + 2 ^ w * lane w v (2 * i + 1).
Proof.
  intros. rewrite lane_even, lane_odd, Z.shiftr_div_pow2 by lia. unfold wrap.
  rewrite Z.add_comm. apply Z.div_mod. pose proof (pow2_pos w). lia.
Qed.

Lemma slane_halves w v i :
  0 < w -> 0 <= i -> slane (2 * w) v i = lane w v (2 * i) + 2 ^ w * slane w v (2 * i + 1).
Proof.
  intros. rewrite (slane_lane (2 * w)), (slane_lane w), lane_halves by lia.
  pose proof (lane_range w v (2 * i) ltac:(lia)) as Hx. pose proof (lane_range w v (2 * i + 1) ltac:(lia)) as Hy.
  set (x := lane w v (2 * i)) in *. set (y := lane w v (2 * i + 1)) in *.
  assert (2 ^ w = 2 * 2 ^ (w - 1)) as He by (rewrite <- Z.pow_succ_r by lia; f_equal; lia).
  assert (2 ^ (2 * w) = 2 ^ w * 2 ^ w) as He2 by (rewrite <- Z.pow_add_r by lia; f_equal; lia).
  assert (2 ^ (2 * w - 1) = 2 ^ w * 2 ^ (w - 1)) as He3 by (rewrite <- Z.pow_add_r by lia; f_equal; lia).
  pose proof (pow2_pos (w - 1) ltac:(lia)) as Hp. unfold urange in *.
  rewrite !sext_neg by (unfold urange; nia). zbool; cbn [b2z]; nia.
Qed.

(** The shifts that isolate the bytes of a halfword or the halves of a word. *)
Lemma srli_half v i : 0 <= i ->
  lane 16 v i >>> 8 = lane 8 v (2 * i + 1) /\ lane 32 v i >>> 16 = lane 16 v (2 * i + 1) /\
  lane 64 v i >>> 32 = lane 32 v (2 * i + 1).
Proof.
  intros. pose proof (lane_odd 8 v i) as H8. pose proof (lane_odd 16 v i) as H16.
  pose proof (lane_odd 32 v i) as H32. rewrite H8, H16, H32 by lia. done.
Qed.

Lemma srai_hi w v i :
  0 < w -> 0 <= i -> sext (2 * w) (lane (2 * w) v i) >>> w = slane w v (2 * i + 1).
Proof.
  intros. rewrite <- slane_lane, slane_halves, Z.shiftr_div_pow2 by lia.
  pose proof (lane_range w v (2 * i) ltac:(lia)) as Hx. unfold urange in Hx.
  rewrite (Z.mul_comm (2 ^ w)), Z.div_add, Z.div_small by lia. lia.
Qed.

Lemma srai_slli w v i :
  0 < w -> 0 <= i ->
  sext (2 * w) (wrap (2 * w) (Z.shiftl (lane (2 * w) v i) w)) >>> w = slane w v (2 * i).
Proof.
  intros. rewrite sext_wrap by lia. rewrite lane_halves, Z.shiftl_mul_pow2, slane_lane by lia.
  pose proof (lane_range w v (2 * i) ltac:(lia)) as Hx. set (x := lane w v (2 * i)) in *.
  set (y := lane w v (2 * i + 1)). clearbody x y.
  assert (2 ^ (2 * w) = 2 ^ w * 2 ^ w) as He2 by (rewrite <- Z.pow_add_r by lia; f_equal; lia).
  assert (2 ^ w = 2 * 2 ^ (w - 1)) as He by (rewrite <- Z.pow_succ_r by lia; f_equal; lia).
  assert (2 ^ (2 * w - 1) = 2 ^ w * 2 ^ (w - 1)) as He3 by (rewrite <- Z.pow_add_r by lia; f_equal; lia).
  pose proof (pow2_pos (w - 1) ltac:(lia)) as Hp.
  replace ((x + 2 ^ w * y) * 2 ^ w) with (x * 2 ^ w + y * 2 ^ (2 * w)) by lia.
  rewrite <- sext_wrap, wrap_add_mul, sext_wrap by lia. unfold urange in Hx.
  rewrite !sext_neg by (unfold urange; nia). rewrite Z.shiftr_div_pow2 by lia.
  replace (2 ^ (2 * w - 1) <=? x * 2 ^ w) with (2 ^ (w - 1) <=? x) by (zbool; nia || done).
  symmetry. apply (Z.div_unique _ _ _ 0); nia.
Qed.

Lemma land_lo w v i : 0 < w -> 0 <= i -> lane (2 * w) v i &&& (2 ^ w - 1) = lane w v (2 * i).
Proof.
  intros. rewrite lane_even by lia. replace (2 ^ w - 1) with (Z.ones w) by (rewrite Z.ones_equiv; lia).
  by rewrite Z.land_ones by lia.
Qed.

(** ** Products and horizontal sums *)

Definition sum2 (f : Z -> Z) (i : Z) : Z := f (2 * i) + f (2 * i + 1).

Definition sum4 (f : Z -> Z) (i : Z) : Z :=
  f (4 * i) + f (4 * i + 1) + f (4 * i + 2) + f (4 * i + 3).

Ltac cnts := change (128 / 8) with 16 in *; change (128 / 16) with 8 in *;
  change (128 / 32) with 4 in *; change (128 / 64) with 2 in *.

Ltac idx4 i :=
  replace (2 * (2 * i + 1) + 1) with (4 * i + 3) by lia;
  replace (2 * (2 * i + 1)) with (4 * i + 2) by lia;
  replace (2 * (2 * i) + 1) with (4 * i + 1) by lia;
  replace (2 * (2 * i)) with (4 * i) by lia.

(** Bytes of a halfword, zero- and sign-extended. *)
Section Bytes.
Context (a i : Z).
Hypothesis Hi : 0 <= i < 8.

Lemma sext_16_lane8 j : s16 (lane 8 a j) = lane 8 a j.
Proof. apply sext_id; [lia|]. pose proof (lane_range 8 a j). unfold urange, srange in *. lia. Qed.

Lemma sext_16_slane8 j : s16 (slane 8 a j) = slane 8 a j.
Proof. apply sext_id; [lia|]. pose proof (slane_range 8 a j). unfold srange in *. lia. Qed.

Lemma bytes_hi_u : slane 16 (mm_srli_epi 16 a 8) i = lane 8 a (2 * i + 1).
Proof.
  unfold mm_srli_epi, vmap. rewrite slane_vmake by (auto with lanes).
  change (16 <=? 8) with false. cbv iota. destruct (srli_half a i) as (-> & _); [lia|]. apply sext_16_lane8.
Qed.

Lemma bytes_lo_u : slane 16 (mm_and a (mm_set1_epi 16 0x00ff)) i = lane 8 a (2 * i).
Proof.
  unfold mm_and, mm_set1_epi. rewrite slane_lane, lane_land, lane_vmake by (lia || auto with lanes).
  pose proof (land_lo 8 a i) as E. change (u16 255) with (2 ^ 8 - 1). change (2 * 8) with 16 in E.
  rewrite E by lia. apply sext_16_lane8.
Qed.

Lemma bytes_hi_s : slane 16 (mm_srai_epi 16 a 8) i = slane 8 a (2 * i + 1).
Proof.
  unfold mm_srai_epi, vmaps. rewrite slane_vmake by (auto with lanes). rewrite slane_lane by lia.
  pose proof (srai_hi 8 a i) as E. change (2 * 8) with 16 in E. change (Z.min 8 (16 - 1)) with 8.
  rewrite E by lia. apply sext_16_slane8.
Qed.

Lemma bytes_lo_s : slane 16 (mm_srai_epi 16 (mm_slli_epi 16 a 8) 8) i = slane 8 a (2 * i).
Proof.
  unfold mm_srai_epi, mm_slli_epi, vmaps. rewrite slane_vmake by (auto with lanes).
  rewrite slane_lane, lane_vmap by (lia || auto with lanes). change (16 <=? 8) with false. cbv iota.
  pose proof (srai_slli 8 a i) as E. change (2 * 8) with 16 in E. change (Z.min 8 (16 - 1)) with 8.
  rewrite E by lia. apply sext_16_slane8.
Qed.

End Bytes.

Lemma lane_madd a b i :
  0 <= i < 4 -> lane 32 (mm_madd_epi16 a b) i = u32 (sum2 (fun j => slane 16 a j * slane 16 b j) i).
Proof. intros. unfold mm_madd_epi16. by rewrite lane_vmake by auto with lanes. Qed.

Lemma slane_set1 w x i : width w -> 0 <= i < 128 / w -> slane w (mm_set1_epi w x) i = sext w x.
Proof. intros. unfold mm_set1_epi. by rewrite slane_vmake. Qed.

Lemma lane_add32 a b i : 0 <= i < 4 -> lane 32 (mm_add_epi 32 a b) i = u32 (lane 32 a i + lane 32 b i).
Proof. intros. unfold mm_add_epi. by rewrite lane_vzip by auto with lanes. Qed.

#[export] Hint Unfold mm_madd_epi16 : simd.

(** Reduce an equation of word vectors to their elements. *)
Ltac by_words i :=
  apply (vec_ext 32); [solve [auto with lanes] | autounfold with simd; vrange | autounfold with simd; vrange | intros i ?Hi];
  cnts; rewrite ?lane_vmake by auto with lanes.

Ltac wrap_norm := repeat first [rewrite Z.add_assoc | rewrite wrap_add_l by lia | rewrite wrap_add_r by lia]; f_equal.

Ltac bytes := rewrite ?bytes_lo_s, ?bytes_hi_u, ?bytes_lo_u, ?bytes_hi_s by lia.

Lemma gv_dotu8s8x4_eq a b c :
  gv_dotu8s8x4 a b c =
    vmake 32 (fun i => lane 32 c i + sum4 (fun j => lane 8 a j * slane 8 b j) i).
Proof.
  unfold gv_dotu8s8x4. cbv zeta. by_words i. rewrite !lane_add32, !lane_madd by lia.
  unfold sum2, sum4. bytes. idx4 i. wrap_norm. lia.
Qed.

Lemma gv_dotu8x4_eq a b c :
  gv_dotu8x4 a b c =
    vmake 32 (fun i => lane 32 c i + sum4 (fun j => lane 8 a j * lane 8 b j) i).
Proof.
  unfold gv_dotu8x4. cbv zeta. by_words i. rewrite !lane_add32, !lane_madd by lia.
  unfold sum2, sum4. bytes. idx4 i. wrap_norm. lia.
Qed.

Lemma gv_dots16x2_eq a b c :
  gv_dots16x2 a b c =
    vmake 32 (fun i => lane 32 c i + sum2 (fun j => slane 16 a j * slane 16 b j) i).
Proof.
  unfold gv_dots16x2, gv_dots16x2_2, gv_add32. by_words i.
  rewrite lane_add32, lane_madd by lia. by wrap_norm.
Qed.

Lemma gv_hadds16x2_eq a c :
  gv_hadds16x2 a c = vmake 32 (fun i => lane 32 c i + sum2 (slane 16 a) i).
Proof.
  unfold gv_hadds16x2. by_words i. rewrite lane_add32, lane_madd by lia. unfold sum2.
  rewrite !slane_set1 by (cnts; lia || auto with lanes). change (s16 1) with 1. wrap_norm. lia.
Qed.

(** The sum of products of unsigned bytes by one and of signed bytes by one
    does not saturate. *)
Lemma maddubs_ones_l a i :
  0 <= i < 8 -> slane 16 (mm_maddubs_epi16 (mm_set1_epi 8 1) a) i = sum2 (slane 8 a) i.
Proof.
  intros. unfold mm_maddubs_epi16. rewrite slane_vmake by (cnts; lia || auto with lanes).
  unfold mm_set1_epi. rewrite !lane_vmake by (cnts; lia || auto with lanes). change (u8 1) with 1.
  unfold sum2. pose proof (slane_range 8 a (2 * i) ltac:(lia)). pose proof (slane_range 8 a (2 * i + 1) ltac:(lia)).
  unfold srange in *. rewrite sext_id; unfold clamp_s, srange; lia.
Qed.

Lemma maddubs_ones_r a i :
  0 <= i < 8 -> slane 16 (mm_maddubs_epi16 a (mm_set1_epi 8 1)) i = sum2 (lane 8 a) i.
Proof.
  intros. unfold mm_maddubs_epi16. rewrite slane_vmake by (cnts; lia || auto with lanes).
  rewrite !slane_set1 by (cnts; lia || auto with lanes). change (s8 1) with 1.
  unfold sum2. pose proof (lane_range 8 a (2 * i) ltac:(lia)). pose proof (lane_range 8 a (2 * i + 1) ltac:(lia)).
  unfold urange in *. rewrite sext_id; unfold clamp_s, srange; lia.
Qed.

Lemma slane_add16 a b i : 0 <= i < 8 -> slane 16 (mm_add_epi 16 a b) i = s16 (slane 16 a i + slane 16 b i).
Proof.
  intros. unfold mm_add_epi, vzip. rewrite slane_vmake by (cnts; lia || auto with lanes).
  rewrite <- !wrap_slane by lia. rewrite <- sext_wrap by lia.
  by rewrite wrap_add_l, wrap_add_r, sext_wrap by lia.
Qed.

Lemma hadds8_eq a i :
  0 <= i < 8 ->
  slane 16 (mm_add_epi 16 (mm_srai_epi 16 a 8) (mm_srai_epi 16 (mm_slli_epi 16 a 8) 8)) i = sum2 (slane 8 a) i.
Proof.
  intros. rewrite slane_add16 by lia. bytes. unfold sum2.
  pose proof (slane_range 8 a (2 * i) ltac:(lia)). pose proof (slane_range 8 a (2 * i + 1) ltac:(lia)).
  unfold srange in *. rewrite sext_id; unfold srange; lia.
Qed.

Lemma haddu8_eq a i :
  0 <= i < 8 ->
  slane 16 (mm_add_epi 16 (mm_srli_epi 16 a 8) (mm_and a (mm_set1_epi 16 0x00ff))) i = sum2 (lane 8 a) i.
Proof.
  intros. rewrite slane_add16 by lia. bytes. unfold sum2.
  pose proof (lane_range 8 a (2 * i) ltac:(lia)). pose proof (lane_range 8 a (2 * i + 1) ltac:(lia)).
  unfold urange in *. rewrite sext_id; unfold srange; lia.
Qed.

Lemma gv_hadds8x4_eq m a c :
  gv_hadds8x4 m a c = vmake 32 (fun i => lane 32 c i + sum4 (slane 8 a) i).
Proof.
  unfold gv_hadds8x4. destruct (has_ssse3 m); by_words i; rewrite lane_add32, lane_madd by lia;
    unfold sum2 at 1; rewrite !slane_set1 by (cnts; lia || auto with lanes); change (s16 1) with 1;
    rewrite ?maddubs_ones_l, ?hadds8_eq by lia; unfold sum2, sum4; idx4 i; wrap_norm; lia.
Qed.

Lemma gv_haddu8x4_eq m a : gv_haddu8x4 m a = vmake 32 (sum4 (lane 8 a)).
Proof.
  unfold gv_haddu8x4. destruct (has_ssse3 m); by_words i; rewrite lane_madd by lia;
    unfold sum2 at 1; rewrite !slane_set1 by (cnts; lia || auto with lanes); change (s16 1) with 1;
    rewrite ?maddubs_ones_r, ?haddu8_eq by lia; unfold sum2, sum4; idx4 i; f_equal; lia.
Qed.

Lemma gv_hadds8x2_eq m a : gv_hadds8x2 m a = vmake 16 (sum2 (slane 8 a)).
Proof.
  unfold gv_hadds8x2. destruct (has_ssse3 m);
    (apply (vec_ext 16); [auto with lanes | autounfold with simd; vrange | vrange | intros i Hi]);
    rewrite lane_vmake, <- (wrap_slane 16) by (lia || auto with lanes); cnts;
    rewrite ?maddubs_ones_l, ?hadds8_eq by lia; done.
Qed.

Lemma gv_haddu8x2_eq m a : gv_haddu8x2 m a = vmake 16 (sum2 (lane 8 a)).
Proof.
  unfold gv_haddu8x2. destruct (has_ssse3 m);
    (apply (vec_ext 16); [auto with lanes | autounfold with simd; vrange | vrange | intros i Hi]);
    rewrite lane_vmake, <- (wrap_slane 16) by (lia || auto with lanes); cnts;
    rewrite ?maddubs_ones_r, ?haddu8_eq by lia; done.
Qed.

(** ** Halfword products *)

(** The halves of a word, as the masks and shifts of the code leave them. *)
Section Halves.
Context (v i : Z).
Hypothesis Hi : 0 <= i < 4.

Lemma halves_hi : lane 32 (mm_srli_epi 32 v 16) i = lane 16 v (2 * i + 1).
Proof.
  unfold mm_srli_epi. rewrite lane_vmap by auto with lanes. change (32 <=? 16) with false. cbv iota.
  destruct (srli_half v i) as (_ & -> & _); [lia|]. apply wrap_id.
  apply (urange_mono 16); [lia|]. apply lane_range. lia.
Qed.

Lemma halves_lo : lane 32 (mm_and v (mm_set1_epi 32 0x0000ffff)) i = lane 16 v (2 * i).
Proof.
  unfold mm_and, mm_set1_epi. rewrite lane_land, lane_vmake by (lia || auto with lanes).
  pose proof (land_lo 16 v i) as E. change (u32 65535) with (2 ^ 16 - 1). apply E; lia.
Qed.

Lemma halves_shl : lane 32 (mm_slli_epi 32 v 16) i = 2 ^ 16 * lane 16 v (2 * i).
Proof.
  unfold mm_slli_epi. rewrite lane_vmap by auto with lanes. change (32 <=? 16) with false. cbv iota.
  pose proof (lane_halves 16 v i) as E. change (2 * 16) with 32 in E. rewrite E by lia.
  rewrite Z.shiftl_mul_pow2 by lia. pose proof (lane_range 16 v (2 * i) ltac:(lia)) as Hx.
  apply (wrap_unique _ _ _ (lane 16 v (2 * i + 1))); unfold urange in *; lia.
Qed.

Lemma halves_top : lane 32 (mm_and v (mm_set1_epi 32 0xffff0000)) i = 2 ^ 16 * lane 16 v (2 * i + 1).
Proof.
  unfold mm_and, mm_set1_epi. rewrite lane_land, lane_vmake by (lia || auto with lanes).
  pose proof (lane_odd 16 v i) as E. change (2 * 16) with 32 in E. rewrite E by lia.
  pose proof (lane_range 32 v i ltac:(lia)) as Hx. set (x := lane 32 v i) in *. clearbody x.
  replace (2 ^ 16 * (x >>> 16)) with (Z.shiftl (x >>> 16) 16) by (rewrite Z.shiftl_mul_pow2; lia).
  apply Z.bits_inj'. intros j Hj. rewrite Z.land_spec, Z.shiftl_spec by lia.
  change (u32 4294901760) with (Z.shiftl (Z.ones 16) 16). rewrite Z.shiftl_spec by lia.
  destruct (Z.lt_ge_cases j 16).
  - rewrite !(Z.testbit_neg_r _ (j - 16)) by lia. apply andb_false_r.
  - rewrite Z.shiftr_spec by lia. replace (j - 16 + 16) with j by lia.
    destruct (Z.lt_ge_cases j 32); [by rewrite Z.ones_spec_low, andb_true_r by lia|].
    by rewrite (urange_testbit 32 x) by (done || lia).
Qed.

End Halves.

(** The low bits of a signed and of an unsigned product agree. *)
Lemma wrap_mul_sext w x y : 0 < w -> wrap w (sext w x * sext w y) = wrap w (x * y).
Proof.
  intros. destruct (sext_eq w x) as [p ->]; [lia|]. destruct (sext_eq w y) as [q ->]; [lia|].
  replace ((x - p * 2 ^ w) * (y - q * 2 ^ w))
    with (x * y + (p * q * 2 ^ w - p * y - q * x) * 2 ^ w) by ring. apply wrap_add_mul. lia.
Qed.

(** The low and high parts of an unsigned product. *)
Lemma mul16_parts a b j :
  0 <= j < 8 ->
  lane 16 (mm_mullo_epi 16 a b) j + 2 ^ 16 * lane 16 (mm_mulhi_epu16 a b) j = lane 16 a j * lane 16 b j.
Proof.
  intros. unfold mm_mullo_epi, mm_mulhi_epu16. rewrite lane_vzips, lane_vzip by auto with lanes.
  name_lane 16 a j x. name_lane 16 b j y. rewrite Z.shiftr_div_pow2 by lia.
  rewrite wrap_mul_sext by lia.
  unfold urange in *. assert (0 <= x * y < 2 ^ 32) by nia.
  generalize dependent (x * y). intros p Hp. mlia.
Qed.

Ltac halves := rewrite ?halves_hi, ?halves_lo, ?halves_shl, ?halves_top by lia.

Lemma gv_dotu16x2_eq a b :
  gv_dotu16x2 a b = vmake 32 (sum2 (fun j => lane 16 a j * lane 16 b j)).
Proof.
  unfold gv_dotu16x2. cbv zeta. by_words i. rewrite !lane_add32 by lia. halves.
  unfold sum2. rewrite <- !mul16_parts by lia. wrap_norm. lia.
Qed.

(** Products of the even and of the odd halfwords. *)
Definition even_prod (e : Z -> Z -> Z -> Z) (a b : Z) : Z :=
  vmake 32 (fun i => e 16 a (2 * i) * e 16 b (2 * i)).

Definition odds_prod (e : Z -> Z -> Z -> Z) (a b : Z) : Z :=
  vmake 32 (fun i => e 16 a (2 * i + 1) * e 16 b (2 * i + 1)).

Lemma lor_halves x y : urange 16 x -> urange 16 y -> x ||| 2 ^ 16 * y = x + 2 ^ 16 * y.
Proof.
  intros. rewrite add_shifted_lor by (done || lia). f_equal. rewrite Z.shiftl_mul_pow2; lia.
Qed.

Lemma lane32_vmake64 f j : 0 <= j < 2 -> lane 32 (vmake 64 f) (2 * j) = u32 (f j).
Proof.
  intros. pose proof (lane_even 32 (vmake 64 f) j) as E. change (2 * 32) with 64 in E.
  rewrite E, lane_vmake by (cnts; lia || auto with lanes). by rewrite wrap_wrap_le by lia.
Qed.

Lemma lane32_srli64 v j : 0 <= j < 2 -> lane 32 (mm_srli_epi 64 v 32) (2 * j) = lane 32 v (2 * j + 1).
Proof.
  intros. unfold mm_srli_epi, vmap. rewrite lane32_vmake64 by lia. change (64 <=? 32) with false. cbv iota.
  destruct (srli_half v j) as (_ & _ & ->); [lia|]. apply wrap_id, lane_range. lia.
Qed.

Lemma mul_epu32_lanes a b :
  let p := mm_mul_epu32 a b in
  lane 32 p 0 = u32 (lane 32 a 0 * lane 32 b 0) /\ lane 32 p 2 = u32 (lane 32 a 2 * lane 32 b 2).
Proof.
  split; [exact (lane32_vmake64 (fun i => lane 32 a (2 * i) * lane 32 b (2 * i)) 0 ltac:(lia))
         |exact (lane32_vmake64 (fun i => lane 32 a (2 * i) * lane 32 b (2 * i)) 1 ltac:(lia))].
Qed.

Lemma mul_epu32_hi a b :
  let p := mm_mul_epu32 (mm_srli_epi 64 a 32) (mm_srli_epi 64 b 32) in
  lane 32 p 0 = u32 (lane 32 a 1 * lane 32 b 1) /\ lane 32 p 2 = u32 (lane 32 a 3 * lane 32 b 3).
Proof.
  destruct (mul_epu32_lanes (mm_srli_epi 64 a 32) (mm_srli_epi 64 b 32)) as [H0 H2]. cbv zeta.
  rewrite H0, H2.
  assert (forall v, lane 32 (mm_srli_epi 64 v 32) 0 = lane 32 v 1) as E0
    by exact (fun v => lane32_srli64 v 0 ltac:(lia)).
  assert (forall v, lane 32 (mm_srli_epi 64 v 32) 2 = lane 32 v 3) as E2
    by exact (fun v => lane32_srli64 v 1 ltac:(lia)).
  by rewrite !E0, !E2.
Qed.

(** The low word of a word product: the SSE2 branch multiplies even and odd
    words apart. *)
Lemma gv_mul32_eq m a b : gv_mul32 m a b = vzip 32 Z.mul a b.
Proof.
  unfold gv_mul32. destruct (has_sse41 m).
  - by_words i. unfold mm_mullo_epi. rewrite lane_vzips, lane_vzip by auto with lanes.
    apply wrap_mul_sext. lia.
  - cbv zeta. unfold mm_unpacklo_epi, mm_shuffle_epi32. by_words i.
    rewrite lane_vzip by auto with lanes.
    assert (i = 0 \/ i = 1 \/ i = 2 \/ i = 3) as Hc by lia.
    destruct (mul_epu32_lanes a b) as (L0 & L2). destruct (mul_epu32_hi a b) as (H0 & H2).
    destruct Hc as [->|[->|[->| ->]]]; eval_consts; cbv iota;
      rewrite lane_vmake by (cnts; lia || auto with lanes); eval_consts;
      rewrite ?L0, ?L2, ?H0, ?H2; by rewrite !wrap_wrap by lia.
Qed.

Lemma gv_mul_even_u16_eq m a b : gv_mul_even_u16 m a b = even_prod lane a b.
Proof.
  unfold gv_mul_even_u16, even_prod. destruct (has_sse41 m).
  - cbv zeta. unfold gv_bcst32, v_and. rewrite gv_mul32_eq. by_words i.
    rewrite lane_vzip by auto with lanes. by halves.
  - cbv zeta. by_words i. unfold mm_or. rewrite lane_lor by lia. halves.
    rewrite lor_halves, <- mul16_parts by (lia || apply lane_range; lia). symmetry. apply wrap_id.
    pose proof (lane_range 16 (mm_mullo_epi 16 a b) (2 * i) ltac:(lia)).
    pose proof (lane_range 16 (mm_mulhi_epu16 a b) (2 * i) ltac:(lia)). unfold urange in *. lia.
Qed.

Lemma gv_shr32_16 v : gv_shr32 v 16 = mm_srli_epi 32 v 16.
Proof. done. Qed.

Lemma gv_mul_odds_u16_eq m a b : gv_mul_odds_u16 m a b = odds_prod lane a b.
Proof.
  unfold gv_mul_odds_u16, odds_prod. destruct (has_sse41 m).
  - rewrite !gv_shr32_16, gv_mul32_eq. by_words i. rewrite lane_vzip by auto with lanes. by halves.
  - cbv zeta. by_words i. unfold mm_or. rewrite lane_lor by lia. halves.
    rewrite Z.lor_comm, lor_halves, <- mul16_parts by (lia || apply lane_range; lia). symmetry. apply wrap_id.
    pose proof (lane_range 16 (mm_mullo_epi 16 a b) (2 * i + 1) ltac:(lia)).
    pose proof (lane_range 16 (mm_mulhi_epu16 a b) (2 * i + 1) ltac:(lia)). unfold urange in *. lia.
Qed.

(** The halfwords of a word whose other half is cleared. *)
Lemma slane_lo_only v i :
  0 <= i < 4 -> let u := mm_and v (mm_set1_epi 32 0x0000ffff) in
  slane 16 u (2 * i) = slane 16 v (2 * i) /\ slane 16 u (2 * i + 1) = 0.
Proof.
  intros Hi. cbv zeta. rewrite !slane_lane by lia.
  set (u := mm_and v _). pose proof (halves_lo v i Hi) as E. fold u in E.
  pose proof (lane_even 16 u i) as Ee. pose proof (lane_odd 16 u i) as Eo.
  change (2 * 16) with 32 in *. rewrite Ee, Eo, E by lia.
  pose proof (lane_range 16 v (2 * i) ltac:(lia)) as Hr. rewrite wrap_id by done. split; [done|].
  rewrite Z.shiftr_div_pow2, Z.div_small by (unfold urange in *; lia). done.
Qed.

Lemma slane_hi_only v i :
  0 <= i < 4 -> let u := mm_srli_epi 32 v 16 in
  slane 16 u (2 * i) = slane 16 v (2 * i + 1) /\ slane 16 u (2 * i + 1) = 0.
Proof.
  intros Hi. cbv zeta. rewrite !slane_lane by lia.
  set (u := mm_srli_epi 32 v 16). pose proof (halves_hi v i Hi) as E. fold u in E.
  pose proof (lane_even 16 u i) as Ee. pose proof (lane_odd 16 u i) as Eo.
  change (2 * 16) with 32 in *. rewrite Ee, Eo, E by lia.
  pose proof (lane_range 16 v (2 * i + 1) ltac:(lia)) as Hr. rewrite wrap_id by done. split; [done|].
  rewrite Z.shiftr_div_pow2, Z.div_small by (unfold urange in *; lia). done.
Qed.

Lemma gv_mul_even_s16_eq a b : gv_mul_even_s16 a b = even_prod slane a b.
Proof.
  unfold gv_mul_even_s16, even_prod. cbv zeta. by_words i. rewrite lane_madd by lia. unfold sum2.
  destruct (slane_lo_only a i Hi) as [-> ->]. destruct (slane_lo_only b i Hi) as [-> ->]. f_equal. lia.
Qed.

Lemma gv_mul_odds_s16_eq a b : gv_mul_odds_s16 a b = odds_prod slane a b.
Proof.
  unfold gv_mul_odds_s16, odds_prod. by_words i. rewrite lane_madd by lia. unfold sum2.
  destruct (slane_hi_only a i Hi) as [-> ->]. destruct (slane_hi_only b i Hi) as [-> ->]. f_equal. lia.
Qed.

(** ** Saturating products *)

Lemma srange_mul x y :
  srange 16 x -> srange 16 y -> - (2 ^ 15 * (2 ^ 15 - 1)) <= x * y <= 2 ^ 30.
Proof. unfold srange. cbn. nia. Qed.

(** [ssat((a * b * 2) >> 16)]: only the product of two minimal halfwords
    saturates, and the code detects it by its bit pattern. *)
Lemma gv_muls_hds16_eq a b :
  gv_muls_hds16 a b = vzips 16 (fun x y => clamp_s 16 ((x * y * 2) >>> 16)) a b.
Proof.
  unfold gv_muls_hds16, mm_mulhi_epi16. by_lanes 16 i.
  pose proof (sext_range 16 (lane 16 a i) ltac:(lia)) as Hx.
  pose proof (sext_range 16 (lane 16 b i) ltac:(lia)) as Hy.
  pose proof (srange_mul _ _ Hx Hy) as Hp. set (p := s16 (lane 16 a i) * s16 (lane 16 b i)) in *.
  clearbody p. clear Hx Hy. rewrite !Z.shiftr_div_pow2, Z.shiftl_mul_pow2 by lia. eval_consts. cbv iota.
  assert (u16 (u16 p / 32768) ||| u16 (u16 (p / 65536) * 2) = u16 (p / 32768)) as ->.
  { pose proof (add_shifted_lor 1 (u16 (u16 p / 32768)) (u16 (p / 65536) mod 32768)) as E.
    rewrite Z.shiftl_mul_pow2 in E by lia. change (2 ^ 1) with 2 in E.
    replace (u16 (u16 (p / 65536) * 2)) with (u16 (p / 65536) mod 32768 * 2) by mlia.
    rewrite <- E by mlia. mlia. }
  destruct (Z.eqb_spec (u16 (p / 32768)) 32768); cbn [mask].
  - rewrite lxor_ones by (lia || lrange). mlia.
  - change (u16 0) with 0. rewrite Z.lxor_0_r. mlia.
Qed.

Lemma slane_unpacklo w a b i :
  width w -> 0 <= i -> 2 * i + 1 < 128 / w ->
  let u := mm_unpacklo_epi w a b in
  slane w u (2 * i) = slane w a i /\ slane w u (2 * i + 1) = slane w b i.
Proof.
  intros Hw Hi Hn. destruct (width_cnt w Hw) as (H0 & _). unfold mm_unpacklo_epi.
  cbv zeta. rewrite !slane_vmake by (done || lia).
  rewrite (Z.mul_comm 2 i), Z.mod_mul, Z.div_mul by lia. cbn [Z.eqb].
  rewrite Z.add_comm, Z.mod_add, Z.div_add by lia. change (1 mod 2 =? 0) with false. change (1 / 2) with 0.
  cbv iota. rewrite Z.add_0_l, <- !slane_lane by lia. done.
Qed.

Lemma slane_unpackhi w a b i :
  width w -> 0 <= i -> 2 * i + 1 < 128 / w ->
  let u := mm_unpackhi_epi w a b in
  slane w u (2 * i) = slane w a (128 / w / 2 + i) /\ slane w u (2 * i + 1) = slane w b (128 / w / 2 + i).
Proof.
  intros Hw Hi Hn. destruct (width_cnt w Hw) as (H0 & _). unfold mm_unpackhi_epi.
  cbv zeta. rewrite !slane_vmake by (done || lia).
  rewrite (Z.mul_comm 2 i), Z.mod_mul, Z.div_mul by lia. cbn [Z.eqb].
  rewrite (Z.add_comm (i * 2) 1), Z.mod_add, Z.div_add by lia.
  change (1 mod 2 =? 0) with false. change (1 / 2) with 0.
  cbv iota. rewrite Z.add_0_l, <- !slane_lane by lia. done.
Qed.

(** A rounded product of halfwords, before packing. *)
Definition rmul (x y : Z) : Z := (x * y + 0x4000) >>> 15.

Lemma rmul_half (u v a b : Z) i j :
  0 <= i < 4 ->
  slane 16 u (2 * i) = slane 16 a j -> slane 16 u (2 * i + 1) = 0x80 ->
  slane 16 v (2 * i) = slane 16 b j -> slane 16 v (2 * i + 1) = 0x80 ->
  slane 32 (mm_srai_epi 32 (mm_madd_epi16 u v) 15) i = rmul (slane 16 a j) (slane 16 b j).
Proof.
  intros Hi E1 E2 E3 E4. unfold mm_srai_epi, vmaps, mm_madd_epi16.
  rewrite !slane_vmake by (cnts; lia || auto with lanes). rewrite E1, E2, E3, E4.
  pose proof (srange_mul _ _ (slane_range 16 a j ltac:(lia)) (slane_range 16 b j ltac:(lia))) as Hp.
  unfold rmul. change (128 * 128) with 0x4000. change (Z.min 15 (32 - 1)) with 15.
  set (p := slane 16 a j * slane 16 b j) in *. clearbody p.
  rewrite (sext_id 32 (p + 0x4000)) by (unfold srange; lia). apply sext_id; [lia|].
  rewrite Z.shiftr_div_pow2 by lia. unfold srange. mlia.
Qed.

Lemma lane_packs w lo hi i :
  width w -> w <> 8 -> 0 <= i < 128 / (w / 2) ->
  lane (w / 2) (mm_packs_epi w lo hi) i =
    wrap (w / 2) (clamp_s (w / 2) (if i <? 128 / w then slane w lo i else slane w hi (i - 128 / w))).
Proof.
  intros Hw Hne Hi. unfold mm_packs_epi. cbv zeta. rewrite lane_vmake; [done| |done].
  destruct Hw as [->|[->|[->| ->]]]; [done|..]; unfold width; cbn; tauto.
Qed.

Lemma lane_packus w lo hi i :
  width w -> w <> 8 -> 0 <= i < 128 / (w / 2) ->
  lane (w / 2) (mm_packus_epi w lo hi) i =
    wrap (w / 2) (clamp_u (w / 2) (if i <? 128 / w then slane w lo i else slane w hi (i - 128 / w))).
Proof.
  intros Hw Hne Hi. unfold mm_packus_epi. cbv zeta. rewrite lane_vmake; [done| |done].
  destruct Hw as [->|[->|[->| ->]]]; [done|..]; unfold width; cbn; tauto.
Qed.

(** The products of a vector and one with 0x80 beside every element. *)
Lemma rmul_lanes a b i :
  0 <= i < 4 ->
  let x80 := mm_set1_epi 16 0x80 in
  slane 32 (mm_srai_epi 32 (mm_madd_epi16 (mm_unpacklo_epi 16 a x80) (mm_unpacklo_epi 16 b x80)) 15) i
    = rmul (slane 16 a i) (slane 16 b i) /\
  slane 32 (mm_srai_epi 32 (mm_madd_epi16 (mm_unpackhi_epi 16 a x80) (mm_unpackhi_epi 16 b x80)) 15) i
    = rmul (slane 16 a (4 + i)) (slane 16 b (4 + i)).
Proof.
  intros Hi x80.
  assert (forall j, 0 <= j < 8 -> slane 16 x80 j = 0x80) as Hx
    by (intros; unfold x80; by rewrite slane_set1 by (cnts; lia || auto with lanes)).
  assert (2 * i + 1 < 128 / 16) as Hn by (cnts; lia).
  destruct (slane_unpacklo 16 a x80 i width_16 ltac:(lia) Hn) as [A1 A2].
  destruct (slane_unpacklo 16 b x80 i width_16 ltac:(lia) Hn) as [B1 B2].
  destruct (slane_unpackhi 16 a x80 i width_16 ltac:(lia) Hn) as [C1 C2].
  destruct (slane_unpackhi 16 b x80 i width_16 ltac:(lia) Hn) as [D1 D2].
  change (128 / 16 / 2) with 4 in *. rewrite Hx in A2, B2, C2, D2 by lia.
  split; by apply rmul_half.
Qed.

Lemma gv_rmuls_hds16_eq a b :
  gv_rmuls_hds16 a b = vzips 16 (fun x y => clamp_s 16 ((x * y * 2 + 0x8000) >>> 16)) a b.
Proof.
  unfold gv_rmuls_hds16. cbv zeta.
  apply (vec_ext 16); [auto with lanes | apply vmake_range; auto with lanes | vrange | intros i Hi]. cnts.
  pose proof (lane_packs 32) as E. change (32 / 2) with 16 in E.
  rewrite E, lane_vzips by (cnts; lia || auto with lanes). clear E. cnts.
  rewrite <- !slane_lane by lia. f_equal. f_equal.
  assert (forall x y, rmul x y = (x * y * 2 + 0x8000) >>> 16) as Hr.
  { intros. unfold rmul. rewrite !Z.shiftr_div_pow2 by lia. generalize (x * y). intros. mlia. }
  rewrite <- Hr. destruct (Z.ltb_spec i 4).
  - by destruct (rmul_lanes a b i) as [-> _]; [lia|].
  - destruct (rmul_lanes a b (i - 4)) as [_ ->]; [lia|]. by replace (4 + (i - 4)) with i by lia.
Qed.

Lemma srai_unpack16 u i :
  0 <= i < 4 -> slane 32 (mm_srai_epi 32 u 16) i = slane 16 u (2 * i + 1).
Proof.
  intros. unfold mm_srai_epi, vmaps. rewrite slane_vmake by (cnts; lia || auto with lanes).
  rewrite slane_lane by lia. pose proof (srai_hi 16 u i) as E. change (2 * 16) with 32 in E.
  change (Z.min 16 (32 - 1)) with 16. rewrite E by lia. apply sext_id; [lia|].
  pose proof (slane_range 16 u (2 * i + 1)). unfold srange in *. lia.
Qed.

Lemma slane_add32 a b i : 0 <= i < 4 -> slane 32 (mm_add_epi 32 a b) i = s32 (slane 32 a i + slane 32 b i).
Proof.
  intros. unfold mm_add_epi, vzip. rewrite slane_vmake by (cnts; lia || auto with lanes).
  rewrite <- !wrap_slane by lia. rewrite <- sext_wrap by lia.
  by rewrite wrap_add_l, wrap_add_r, sext_wrap by lia.
Qed.

Lemma rmul_bounds x y : srange 16 x -> srange 16 y -> -2 ^ 15 <= rmul x y <= 2 ^ 15.
Proof.
  intros Hx Hy. pose proof (srange_mul _ _ Hx Hy). unfold rmul. rewrite Z.shiftr_div_pow2 by lia.
  generalize dependent (x * y). intros p Hp. mlia.
Qed.

Lemma gv_rmuladds_hds16_eq a b c :
  gv_rmuladds_hds16 a b c =
    vmake 16 (fun i => clamp_s 16 ((slane 16 a i * slane 16 b i * 2 + Z.shiftl (slane 16 c i) 16 + 0x8000) >>> 16)).
Proof.
  unfold gv_rmuladds_hds16. cbv zeta.
  apply (vec_ext 16); [auto with lanes | apply vmake_range; auto with lanes | vrange | intros i Hi]. cnts.
  pose proof (lane_packs 32) as E. change (32 / 2) with 16 in E.
  rewrite E, lane_vmake by (cnts; lia || auto with lanes). clear E. cnts. do 2 f_equal.
  assert (forall x y z, (x * y * 2 + Z.shiftl z 16 + 0x8000) >>> 16 = rmul x y + z) as Hr.
  { intros. unfold rmul. rewrite !Z.shiftr_div_pow2, Z.shiftl_mul_pow2 by lia. generalize (x * y). intros. mlia. }
  rewrite Hr.
  assert (forall j, s32 (rmul (slane 16 a j) (slane 16 b j) + slane 16 c j)
                    = rmul (slane 16 a j) (slane 16 b j) + slane 16 c j) as Hs.
  { intros j. pose proof (rmul_bounds _ _ (slane_range 16 a j ltac:(lia)) (slane_range 16 b j ltac:(lia))).
    pose proof (slane_range 16 c j ltac:(lia)). apply sext_id; unfold srange in *; lia. }
  assert (forall j, 0 <= j < 4 -> slane 32 (mm_srai_epi 32 (mm_unpacklo_epi 16 mm_setzero c) 16) j = slane 16 c j
      /\ slane 32 (mm_srai_epi 32 (mm_unpackhi_epi 16 mm_setzero c) 16) j = slane 16 c (4 + j)) as Hc.
  { intros j Hj. rewrite !srai_unpack16 by lia. split.
    - apply (slane_unpacklo 16 mm_setzero c j width_16); cnts; lia.
    - apply (slane_unpackhi 16 mm_setzero c j width_16); cnts; lia. }
  destruct (Z.ltb_spec i 4).
  - rewrite slane_add32 by lia. destruct (rmul_lanes a b i) as [-> _]; [lia|].
    destruct (Hc i) as [-> _]; [lia|]. apply Hs.
  - rewrite slane_add32 by lia. destruct (rmul_lanes a b (i - 4)) as [_ ->]; [lia|].
    destruct (Hc (i - 4)) as [_ ->]; [lia|]. replace (4 + (i - 4)) with i by lia. apply Hs.
Qed.

(** ** Tests and selections *)

(** A selection by comparison masks. *)
Definition is_mask (w v : Z) : Prop :=
  urange 128 v /\ forall i, 0 <= i < 128 / w -> lane w v i = 0 \/ lane w v i = 2 ^ w - 1.

Definition vselect (w cmp t f : Z) : Z :=
  vmake w (fun i => if lane w cmp i =? 0 then lane w f i else lane w t i).

Lemma vzip_mask w (p : Z -> Z -> bool) a b : width w -> is_mask w (vzip w (fun x y => mask (p x y)) a b).
Proof.
  intros Hw. destruct (width_cnt w Hw) as (H0 & _). split; [by apply vmake_range|]. intros i Hi.
  rewrite lane_vzip by done. destruct (p _ _); cbn [mask]; [right|left].
  - apply (wrap_unique w _ _ (-1)); [lia| |lia]. pose proof (pow2_pos w). unfold urange. lia.
  - unfold wrap. by rewrite Zmod_0_l.
Qed.

Lemma vzips_mask w (p : Z -> Z -> bool) a b : width w -> is_mask w (vzips w (fun x y => mask (p x y)) a b).
Proof.
  intros Hw. destruct (width_cnt w Hw) as (H0 & _). split; [by apply vmake_range|]. intros i Hi.
  rewrite lane_vzips by done. destruct (p _ _); cbn [mask]; [right|left].
  - apply (wrap_unique w _ _ (-1)); [lia| |lia]. pose proof (pow2_pos w). unfold urange. lia.
  - unfold wrap. by rewrite Zmod_0_l.
Qed.

(** Bits of an all-zeros or all-ones lane. *)
Lemma mask_bit w v i j :
  width w -> is_mask w v -> 0 <= i < 128 / w -> 0 <= j < w ->
  Z.testbit v (w * i + j) = negb (lane w v i =? 0).
Proof.
  intros Hw [_ Hm] Hi Hj. destruct (width_cnt w Hw) as (H0 & _).
  pose proof (testbit_in_lane w v i j H0 ltac:(lia) ltac:(lia)) as E.
  destruct (Z.ltb_spec j w); [|lia]. cbn [andb] in E. rewrite <- E.
  destruct (Hm i Hi) as [-> | ->]; [by rewrite Z.bits_0|].
  replace (2 ^ w - 1) with (Z.ones w) by (rewrite Z.ones_equiv; lia).
  rewrite Z.ones_spec_low by lia. rewrite Z.ones_equiv. pose proof (Z.pow_gt_1 2 w). zbool; lia || done.
Qed.

Lemma select_bits w cmp t f :
  width w -> is_mask w cmp -> urange 128 t -> urange 128 f ->
  v_or (v_and cmp t) (gv_andn cmp f) = vselect w cmp t f.
Proof.
  intros Hw Hm Ht Hf. destruct (width_cnt w Hw) as (H0 & _ & He). pose proof Hm as [Hc Hl].
  unfold v_or, v_and, gv_andn, mm_or, mm_and, mm_andnot.
  apply (vec_ext w); [done|vrange|by apply vmake_range|]. intros i Hi. unfold vselect.
  rewrite lane_lor, lane_land, lane_ldiff, lane_vmake by (done || lia).
  assert (forall v, wrap w (lane w v i) = lane w v i) as Hw' by (intros; apply wrap_id, lane_range; lia).
  destruct (Hl i Hi) as [-> | ->]; cbn [Z.eqb].
  - by rewrite Hw', Z.ldiff_0_r.
  - pose proof (Z.pow_gt_1 2 w). destruct (Z.eqb_spec (2 ^ w - 1) 0); [lia|]. rewrite Hw'.
    assert (2 ^ w - 1 = wrap w (mask true)) as ->.
    { symmetry. apply (wrap_unique w _ _ (-1)); unfold urange; cbn [mask]; lia. }
    rewrite land_mask, ldiff_mask by (lia || apply lane_range; lia). apply Z.lor_0_r.
Qed.

Lemma testbit_lane_pos w v p :
  0 < w -> 0 <= p -> Z.testbit (lane w v (p / w)) (p mod w) = Z.testbit v p.
Proof.
  intros. pose proof (Z.mod_pos_bound p w ltac:(lia)). assert (0 <= p / w) by (apply Z.div_pos; lia).
  rewrite testbit_in_lane by lia. destruct (Z.ltb_spec (p mod w) w); [|lia]. cbn [andb].
  f_equal. symmetry. apply Z.div_mod. lia.
Qed.

Lemma sign_slane w v i : 0 < w -> 0 <= i -> (slane w v i <? 0) = Z.testbit v (w * i + (w - 1)).
Proof.
  intros. pose proof (lane_range w v i ltac:(lia)) as Hr.
  pose proof (testbit_in_lane w v i (w - 1) ltac:(lia) ltac:(lia) ltac:(lia)) as E.
  destruct (Z.ltb_spec (w - 1) w); [|lia]. cbn [andb] in E. rewrite <- E, testbit_top by (done || lia).
  rewrite slane_lane, sext_neg by (done || lia).
  assert (2 ^ w = 2 * 2 ^ (w - 1)) as He by (rewrite <- Z.pow_succ_r by lia; f_equal; lia).
  pose proof (pow2_pos (w - 1) ltac:(lia)). unfold urange in Hr. zbool; cbn [b2z] in *; lia || done.
Qed.

(** Byte [p / 8] of a blend is chosen by the sign of the control byte. *)
Lemma testbit_blendv f t c p :
  0 <= p < 128 ->
  Z.testbit (mm_blendv_epi8 f t c) p = if Z.testbit c (8 * (p / 8) + 7) then Z.testbit t p else Z.testbit f p.
Proof.
  intros. unfold mm_blendv_epi8. rewrite testbit_vmake by (lia || auto with lanes).
  destruct (Z.ltb_spec p 128); [|lia]. cbn [andb]. assert (0 <= p / 8) by (apply Z.div_pos; lia).
  rewrite sign_slane by lia. change (8 - 1) with 7. destruct (Z.testbit c _); by apply testbit_lane_pos; lia.
Qed.

Lemma testbit_vselect w cmp t f p :
  width w -> 0 <= p < 128 ->
  Z.testbit (vselect w cmp t f) p = if lane w cmp (p / w) =? 0 then Z.testbit f p else Z.testbit t p.
Proof.
  intros Hw Hp. destruct (width_cnt w Hw) as (H0 & _). unfold vselect. rewrite testbit_vmake by (done || lia).
  destruct (Z.ltb_spec p 128); [|lia]. cbn [andb]. destruct (_ =? 0); by apply testbit_lane_pos; lia.
Qed.

Lemma blendv_eq w cmp t f :
  width w -> is_mask w cmp -> mm_blendv_epi8 f t cmp = vselect w cmp t f.
Proof.
  intros Hw Hm. destruct (width_cnt w Hw) as (H0 & Hn & He). apply Z.bits_inj'. intros p Hp.
  destruct (Z.lt_ge_cases p 128) as [Hlt|Hge].
  - rewrite testbit_blendv, testbit_vselect by (done || lia).
    assert (0 <= p / w < 128 / w) as Hq.
    { split; [apply Z.div_pos; lia|]. apply Z.div_lt_upper_bound; lia. }
    pose proof (mask_bit w cmp (p / w) (8 * (p / 8) + 7 - w * (p / w)) Hw Hm Hq) as E.
    replace (w * (p / w) + (8 * (p / 8) + 7 - w * (p / w))) with (8 * (p / 8) + 7) in E by lia.
    rewrite E by (destruct Hw as [->|[->|[->| ->]]]; Z.to_euclidean_division_equations; lia).
    by destruct (_ =? 0).
  - by rewrite !(urange_testbit 128) by (done || lia || apply vmake_range; auto with lanes).
Qed.

Lemma gv_select8_eq m cmp t f :
  is_mask 8 cmp -> urange 128 t -> urange 128 f -> gv_select8 m cmp t f = vselect 8 cmp t f.
Proof.
  intros. unfold gv_select8. destruct (has_sse41 m); [apply blendv_eq | apply select_bits]; auto with lanes.
Qed.

Lemma gv_select16_eq m cmp t f :
  is_mask 16 cmp -> urange 128 t -> urange 128 f -> gv_select16 m cmp t f = vselect 16 cmp t f.
Proof.
  intros. unfold gv_select16. destruct (has_sse41 m); [apply blendv_eq | apply select_bits]; auto with lanes.
Qed.

Lemma gv_select32_eq m cmp t f :
  is_mask 32 cmp -> urange 128 t -> urange 128 f -> gv_select32 m cmp t f = vselect 32 cmp t f.
Proof.
  intros. unfold gv_select32. destruct (has_sse41 m); [apply blendv_eq | apply select_bits]; auto with lanes.
Qed.

(** The sum of two products of halfwords added to a word with saturation; the
    one sum of products that leaves the word range is corrected for. *)
Lemma gv_dots_s16x2_eq m a b c :
  urange 128 c ->
  gv_dots_s16x2 m a b c =
    vmake 32 (fun i => clamp_s 32 (slane 32 c i + sum2 (fun j => slane 16 a j * slane 16 b j) i)).
Proof.
  intros Hc. unfold gv_dots_s16x2, gv_dots16x2_2. cbv zeta.
  rewrite (gv_select32_eq m (gv_gts32 _ _)) by
    (unfold gv_gts32, mm_cmpgt_epi; first [apply vzips_mask; auto with lanes | autounfold with simd; vrange]).
  rewrite gv_select32_eq by
    (unfold gv_eq32, gv_adds_s32, mm_cmpeq_epi; first [apply vzip_mask; auto with lanes | autounfold with simd; vrange]).
  rewrite gv_adds_s32_eq by (autounfold with simd; vrange).
  by_words i. unfold vselect, gv_eq32, gv_gts32. rewrite !lane_vmake by auto with lanes.
  autounfold with simd. lane_push. rewrite !mask_eq0 by lia.
  unfold sum2. pose proof (fun j => srange_mul _ _ (slane_range 16 a j ltac:(lia)) (slane_range 16 b j ltac:(lia))) as Hp.
  pose proof (Hp (2 * i)) as Hp0. pose proof (Hp (2 * i + 1)) as Hp1. clear Hp.
  set (p := slane 16 a (2 * i) * slane 16 b (2 * i) + slane 16 a (2 * i + 1) * slane 16 b (2 * i + 1)) in *.
  assert (- (2 ^ 16 * (2 ^ 15 - 1)) <= p <= 2 ^ 31) as Hb by lia. clearbody p. clear Hp0 Hp1.
  rewrite slane_lane by lia. name_lane 32 c i z.
  pose proof (lxor_sign 32 z) as Ez. change (2 ^ (32 - 1)) with 2147483648 in Ez.
  eval_consts. rewrite Ez by (lia || done). clear Ez.
  destruct (Z.eqb_spec (u32 p) 2147483648); cbn [negb]; [|mlia].
  destruct (Z.ltb_spec (s32 z) 0); cbn [negb]; mlia.
Qed.

Lemma gv_dots_u8s8x4_eq a b c :
  urange 128 c ->
  gv_dots_u8s8x4 a b c =
    vmake 32 (fun i => clamp_s 32 (slane 32 c i + sum4 (fun j => lane 8 a j * slane 8 b j) i)).
Proof.
  intros Hc. unfold gv_dots_u8s8x4. cbv zeta. rewrite gv_adds_s32_eq by (autounfold with simd; vrange).
  by_words i. rewrite lane_vzips by auto with lanes. rewrite <- !slane_lane by lia.
  do 3 f_equal. rewrite slane_lane, lane_add32, !lane_madd by lia. unfold sum2, sum4. bytes. idx4 i.
  assert (forall j, -2 ^ 15 <= lane 8 a j * slane 8 b j <= 2 ^ 15) as Hb.
  { intros j. pose proof (lane_range 8 a j ltac:(lia)). pose proof (slane_range 8 b j ltac:(lia)).
    unfold urange, srange in *. cbn in *. nia. }
  pose proof (Hb (4 * i)). pose proof (Hb (4 * i + 1)). pose proof (Hb (4 * i + 2)). pose proof (Hb (4 * i + 3)).
  rewrite wrap_add_l, wrap_add_r, sext_wrap by lia. rewrite sext_id; [lia..|]. unfold srange. lia.
Qed.

(** The four packed halfwords the SSE2 tests read. *)
Lemma pack_low64 a :
  lane 64 (mm_packs_epi 32 a a) 0 =
    u16 (clamp_s 16 (slane 32 a 0)) + 2 ^ 16 * u16 (clamp_s 16 (slane 32 a 1)) +
    2 ^ 32 * u16 (clamp_s 16 (slane 32 a 2)) + 2 ^ 48 * u16 (clamp_s 16 (slane 32 a 3)).
Proof.
  set (v := mm_packs_epi 32 a a).
  assert (forall i, 0 <= i < 4 -> lane 16 v i = u16 (clamp_s 16 (slane 32 a i))) as Hl.
  { intros i Hi. pose proof (lane_packs 32 a a i) as E. change (32 / 2) with 16 in E. unfold v.
    rewrite E by (cnts; lia || auto with lanes). cnts. by destruct (Z.ltb_spec i 4); [|lia]. }
  pose proof (lane_halves 32 v 0 ltac:(lia) ltac:(lia)) as E. pose proof (lane_halves 16 v 0 ltac:(lia) ltac:(lia)) as E0.
  pose proof (lane_halves 16 v 1 ltac:(lia) ltac:(lia)) as E1.
  change (lane (2 * 32) v 0) with (lane 64 v 0) in E. change (lane 32 v (2 * 0)) with (lane 32 v 0) in E.
  change (lane 32 v (2 * 0 + 1)) with (lane 32 v 1) in E. change (2 * 16) with 32 in *.
  change (2 * 0) with 0 in E0. change (2 * 1) with 2 in E1. change (0 + 1) with 1 in E0. change (2 + 1) with 3 in E1.
  rewrite !Hl in E0, E1 by lia. rewrite E, E0, E1. lia.
Qed.

Lemma digits64 y0 y1 y2 y3 k :
  (k = 0 \/ k = -1) -> urange 16 y0 -> urange 16 y1 -> urange 16 y2 -> urange 16 y3 ->
  s64 (y0 + 2 ^ 16 * y1 + 2 ^ 32 * y2 + 2 ^ 48 * y3) = k <->
  (y0 = u16 k /\ y1 = u16 k /\ y2 = u16 k /\ y3 = u16 k).
Proof.
  unfold urange. intros Hk H0 H1 H2 H3. rewrite sext_neg by (unfold urange; lia).
  destruct Hk as [-> | ->]; eval_consts; zbool; cbn [b2z]; lia.
Qed.

Lemma pack_test a (k : Z) :
  (k = 0 \/ k = -1) -> urange 128 a ->
  (mm_cvtsi128_si64 (mm_packs_epi 32 a a) =? k) = (a =? u128 k).
Proof.
  intros Hk Ha. unfold mm_cvtsi128_si64. rewrite slane_lane, pack_low64 by lia.
  pose proof (fun i => slane_range 32 a i ltac:(lia)) as Hs.
  assert (a = u128 k <-> forall i, 0 <= i < 4 -> slane 32 a i = k) as Heq.
  { assert (forall i, 0 <= i < 4 -> lane 32 (u128 k) i = u32 k) as Hc.
    { intros i Hi. assert (i = 0 \/ i = 1 \/ i = 2 \/ i = 3) as Hd by lia.
      destruct Hk as [-> | ->], Hd as [->|[->|[->| ->]]]; reflexivity. }
    split.
    - intros -> i Hi. rewrite slane_lane, Hc, sext_wrap by lia. destruct Hk as [-> | ->]; reflexivity.
    - intros H. apply (vec_ext 32); [auto with lanes|done|apply wrap_range; lia|]. intros i Hi. cnts.
      rewrite Hc, <- (wrap_slane 32), H by lia. done. }
  pose proof (Hs 0) as H0. pose proof (Hs 1) as H1. pose proof (Hs 2) as H2. pose proof (Hs 3) as H3.
  set (x0 := slane 32 a 0) in *. set (x1 := slane 32 a 1) in *.
  set (x2 := slane 32 a 2) in *. set (x3 := slane 32 a 3) in *.
  assert ((forall i, 0 <= i < 4 -> slane 32 a i = k) <-> (x0 = k /\ x1 = k /\ x2 = k /\ x3 = k)) as Hall.
  { split; [intros H; split_and!; apply H; lia|]. intros (E0 & E1 & E2 & E3) i Hi.
    assert (i = 0 \/ i = 1 \/ i = 2 \/ i = 3) as Hd by lia.
    destruct Hd as [->|[->|[->| ->]]]; assumption. }
  rewrite Hall in Heq. clear Hall Hs. clearbody x0 x1 x2 x3.
  assert (forall x, srange 32 x -> u16 (clamp_s 16 x) = u16 k <-> x = k) as Hc.
  { intros x Hx. destruct Hk as [-> | ->]; mlia. }
  rewrite <- (Hc x0), <- (Hc x1), <- (Hc x2), <- (Hc x3) in Heq by done.
  pose proof (digits64 (u16 (clamp_s 16 x0)) (u16 (clamp_s 16 x1)) (u16 (clamp_s 16 x2)) (u16 (clamp_s 16 x3)) k Hk)
    as Hd.
  rewrite <- Hd in Heq by (apply wrap_range; lia).
  apply eq_bool_prop_intro. rewrite !Is_true_true, !Z.eqb_eq. symmetry. exact Heq.
Qed.

Lemma gv_testz_eq m a : urange 128 a -> gv_testz m a = (a =? 0).
Proof.
  intros. unfold gv_testz, mm_testz_si128. destruct (has_sse41 m); [by rewrite Z.land_diag|].
  apply pack_test; auto.
Qed.

Lemma ones_set1 : mm_set1_epi 32 (-1) = 2 ^ 128 - 1.
Proof. reflexivity. Qed.

Lemma gv_testall0_eq m a : urange 128 a -> gv_testall0 m a = (a =? 0).
Proof.
  intros Ha. unfold gv_testall0, mm_testz_si128. destruct (has_sse41 m); [|by apply pack_test; auto].
  rewrite ones_set1. change (2 ^ 128 - 1) with (Z.ones 128). rewrite Z.land_ones by lia.
  by rewrite Z.mod_small by exact Ha.
Qed.

Lemma gv_testall1_eq m a : urange 128 a -> gv_testall1 m a = (a =? 2 ^ 128 - 1).
Proof.
  intros. unfold gv_testall1, mm_test_all_ones. destruct (has_sse41 m); [done|]. apply pack_test; auto.
Qed.

Lemma v_eq_eq m a b : urange 128 a -> urange 128 b -> v_eq m a b = (a =? b).
Proof.
  intros. unfold v_eq, mm_xor. rewrite gv_testz_eq by (apply lxor_urange; done || lia).
  destruct (Z.eqb_spec a b) as [->|Hne]; [by rewrite Z.lxor_nilpotent|].
  destruct (Z.eqb_spec (a ^^^ b) 0) as [E|]; [|done]. by apply Z.lxor_eq in E.
Qed.
