(* ===== verification/SimdPack.v ===== *)
(** * Packing, extension and byte shifts

    The operations of [rx/simd.hpp] that pack and unpack elements, and those
    that shift or rotate each byte by its own count with steps of one, two and
    four bits on 64-bit elements: what each byte of the result is. *)

From stdpp Require Import base numbers list tactics.
From Stdlib Require Import Lia.
From S2P Require Import Prelude Simd SimdOps SimdSpec SimdWide.
Open Scope Z_scope.
Open Scope mach_scope.

(** ** Packing *)

(** Element [i] of two vectors of [w]-bit elements, the low one first. *)
Definition elem2 (e : Z -> Z -> Z -> Z) (w lo hi i : Z) : Z :=
  if i <? 128 / w then e w lo i else e w hi (i - 128 / w).

Definition vpack (w : Z) (e : Z -> Z -> Z -> Z) (f : Z -> Z) (lo hi : Z) : Z :=
  vmake (w / 2) (fun i => f (elem2 e w lo hi i)).

Lemma lane_vpack w e f lo hi i :
  width w -> w <> 8 -> 0 <= i < 128 / (w / 2) ->
  lane (w / 2) (vpack w e f lo hi) i = wrap (w / 2) (f (elem2 e w lo hi i)).
Proof.
  intros Hw Hne Hi. unfold vpack. rewrite lane_vmake; [done| |done].
  destruct Hw as [->|[->|[->| ->]]]; [done|..]; unfold width; cbn; tauto.
Qed.

(** Push signed elements through elementwise operations. *)
Ltac slane_push w :=
  rewrite ?(slane_lane w) by lia; autounfold with simd; lane_push.

Lemma gv_packss_s16_eq lo hi : gv_packss_s16 lo hi = vpack 16 slane (clamp_s 8) lo hi.
Proof. reflexivity. Qed.

Lemma gv_packus_s16_eq lo hi : gv_packus_s16 lo hi = vpack 16 slane (clamp_u 8) lo hi.
Proof. reflexivity. Qed.

Lemma gv_packss_s32_eq lo hi : gv_packss_s32 lo hi = vpack 32 slane (clamp_s 16) lo hi.
Proof. reflexivity. Qed.

(** Compare two vectors of packed elements; [i] is the packed position. *)
Ltac by_packed w h i :=
  apply (vec_ext h); [solve [auto with lanes] | apply vmake_range; solve [auto with lanes]
    | apply vmake_range; solve [auto with lanes] | intros i ?Hi];
  cnts; unfold vpack, mm_packus_epi, mm_packs_epi; change (16 / 2) with 8; change (32 / 2) with 16; cbv zeta;
  rewrite !lane_vmake by (cnts; lia || auto with lanes); unfold elem2; cnts.

Ltac packed_fin w :=
  match goal with |- context [?i <? ?n] => destruct (Z.ltb_spec i n) end;
  autounfold with simd; rewrite ?(slane_lane w) by lia;
  repeat first
    [ rewrite lane_land by lia
    | rewrite lane_vmap by (cnts; lia || auto with lanes) | rewrite lane_vzip by (cnts; lia || auto with lanes)
    | rewrite lane_vmaps by (cnts; lia || auto with lanes) | rewrite lane_vmake by (cnts; lia || auto with lanes) ];
  match goal with |- context [lane w ?v ?j] => let x := fresh "x" in name_lane w v j x end.

Lemma gv_packus_u16_eq m lo hi : gv_packus_u16 m lo hi = vpack 16 lane (Z.min 255) lo hi.
Proof.
  unfold gv_packus_u16. destruct (has_sse41 m); by_packed 16 8 i; packed_fin 16; eval_consts; mlia.
Qed.

Lemma land_255 x : 0 <= x -> x &&& 255 = x mod 256.
Proof. intros. change 255 with (Z.ones 8). apply Z.land_ones. lia. Qed.

Lemma gv_packtu16_eq lo hi : gv_packtu16 lo hi = vpack 16 lane id lo hi.
Proof.
  unfold gv_packtu16. by_packed 16 8 i; packed_fin 16; eval_consts; unfold id;
    rewrite land_255 by (unfold urange in *; lia); mlia.
Qed.

Lemma land_65535 x : 0 <= x -> x &&& 65535 = x mod 65536.
Proof. intros. change 65535 with (Z.ones 16). apply Z.land_ones. lia. Qed.

Lemma gv_packtu32_eq m lo hi : gv_packtu32 m lo hi = vpack 32 lane id lo hi.
Proof.
  unfold gv_packtu32. destruct (has_sse41 m); by_packed 32 16 i; packed_fin 32; eval_consts; cbv iota; unfold id;
    rewrite ?land_65535, ?Z.shiftr_div_pow2, ?Z.shiftl_mul_pow2 by (unfold urange in *; lia); mlia.
Qed.

Lemma packus_u32_word x :
  urange 32 x ->
  u16 (clamp_s 16 (s32 (u32 (s32 (u32 (x * 65536)) / 65536))))
    ||| u16 (mask (0 <? s16 (u16 (clamp_s 16 (s32 (u32 (x / 65536)))))))
  = u16 (Z.min 65535 x).
Proof.
  intros Hx. assert (s32 (u32 (s32 (u32 (x * 65536)) / 65536)) = s16 x) as -> by mlia.
  assert (s16 (u16 (clamp_s 16 (s32 (u32 (x / 65536))))) = Z.min 32767 (x / 65536)) as -> by mlia.
  rewrite lor_mask by (lia || lrange). destruct (Z.ltb_spec 0 (Z.min 32767 (x / 65536))); mlia.
Qed.

Lemma gv_packus_u32_eq m lo hi : gv_packus_u32 m lo hi = vpack 32 lane (Z.min 65535) lo hi.
Proof.
  unfold gv_packus_u32. destruct (has_sse41 m).
  - by_packed 32 16 i; packed_fin 32; eval_consts; mlia.
  - cbv zeta. unfold mm_or, mm_cmpgt_epi.
    apply (vec_ext 16); [auto with lanes|vrange; apply vmake_range; auto with lanes|
      apply vmake_range; auto with lanes|intros i Hi].
    rewrite lane_lor, lane_vzips by (lia || auto with lanes). rewrite lane_0. unfold mm_packs_epi, vpack.
    change (32 / 2) with 16. cbv zeta. rewrite !lane_vmake by (cnts; lia || auto with lanes). unfold elem2. cnts.
    packed_fin 32; rewrite ?Z.shiftr_div_pow2, ?Z.shiftl_mul_pow2 by lia; eval_consts; cbv iota;
      by apply packus_u32_word.
Qed.

Lemma gv_packus_s32_eq m lo hi : gv_packus_s32 m lo hi = vpack 32 slane (clamp_u 16) lo hi.
Proof.
  unfold gv_packus_s32. destruct (has_sse41 m); [reflexivity|].
  cbv zeta. unfold gv_andn, mm_andnot, gv_add16, mm_add_epi, gv_bcst16, mm_set1_epi, mm_srai_epi.
  apply (vec_ext 16); [auto with lanes|vrange; apply vmake_range; auto with lanes|
      apply vmake_range; auto with lanes|intros i Hi].
  rewrite lane_ldiff, lane_vzip, lane_vmaps by (lia || auto with lanes). unfold mm_packs_epi, vpack.
  change (32 / 2) with 16. cbv zeta. rewrite !lane_vmake by (cnts; lia || auto with lanes). unfold elem2. cnts.
  rewrite srai_mask, ldiff_mask, testbit_top by (lia || lrange).
  packed_fin 32; eval_consts; zbool; mlia.
Qed.

(** ** Sign extension of half the elements *)

Lemma gv_extend_lo_s8_eq m v : gv_extend_lo_s8 m v = vmake 16 (fun i => slane 8 v i).
Proof.
  unfold gv_extend_lo_s8. destruct (has_sse41 m); [reflexivity|].
  unfold mm_srai_epi, vmaps. apply vmake_ext; [auto with lanes|]. intros i Hi. cnts. f_equal.
  rewrite slane_lane by lia. pose proof (srai_hi 8 (mm_unpacklo_epi 8 v v) i) as E. change (2 * 8) with 16 in E.
  change (Z.min 8 (16 - 1)) with 8. rewrite E by lia. apply (slane_unpacklo 8 v v i); cnts; lia || auto with lanes.
Qed.

Lemma gv_extend_lo_s16_eq m v : gv_extend_lo_s16 m v = vmake 32 (fun i => slane 16 v i).
Proof.
  unfold gv_extend_lo_s16. destruct (has_sse41 m); [reflexivity|].
  unfold mm_srai_epi, vmaps. apply vmake_ext; [auto with lanes|]. intros i Hi. cnts. f_equal.
  rewrite slane_lane by lia. pose proof (srai_hi 16 (mm_unpacklo_epi 16 v v) i) as E. change (2 * 16) with 32 in E.
  change (Z.min 16 (32 - 1)) with 16. rewrite E by lia. apply (slane_unpacklo 16 v v i); cnts; lia || auto with lanes.
Qed.

Lemma slane_loadu_hi64 w v i :
  (w = 8 \/ w = 16) -> 0 <= i < 64 / w -> slane w (mm_loadu_hi64 v) i = slane w v (64 / w + i).
Proof.
  intros Hw Hi. rewrite !slane_lane by lia. f_equal. unfold mm_loadu_hi64.
  assert (w * (64 / w) = 64) as He by (destruct Hw as [-> | ->]; reflexivity).
  assert (0 < 64 / w) by (destruct Hw as [-> | ->]; reflexivity).
  apply Z.bits_inj'. intros j Hj. rewrite !testbit_in_lane by nia.
  destruct (Z.ltb_spec j w); [|done]. cbn [andb]. destruct (Z.ltb_spec (w * i + j) 64); [|nia]. cbn [andb].
  f_equal. lia.
Qed.

Lemma gv_extend_hi_s8_eq m v : gv_extend_hi_s8 m v = vmake 16 (fun i => slane 8 v (8 + i)).
Proof.
  unfold gv_extend_hi_s8. destruct (has_sse41 m).
  - unfold mm_cvtepi. change (2 * 8) with 16. apply vmake_ext; [auto with lanes|]. intros i Hi. cnts.
    rewrite slane_loadu_hi64; [done|auto|]. change (64 / 8) with 8. lia.
  - unfold mm_srai_epi, vmaps. apply vmake_ext; [auto with lanes|]. intros i Hi. cnts. f_equal.
    rewrite slane_lane by lia. pose proof (srai_hi 8 (mm_unpackhi_epi 8 v v) i) as E. change (2 * 8) with 16 in E.
    change (Z.min 8 (16 - 1)) with 8. rewrite E by lia.
    apply (slane_unpackhi 8 v v i); cnts; lia || auto with lanes.
Qed.

Lemma gv_extend_hi_s16_eq m v : gv_extend_hi_s16 m v = vmake 32 (fun i => slane 16 v (4 + i)).
Proof.
  unfold gv_extend_hi_s16. destruct (has_sse41 m).
  - unfold mm_cvtepi. change (2 * 16) with 32. apply vmake_ext; [auto with lanes|]. intros i Hi. cnts.
    rewrite slane_loadu_hi64; [done|auto|]. change (64 / 16) with 4. lia.
  - unfold mm_srai_epi, vmaps. apply vmake_ext; [auto with lanes|]. intros i Hi. cnts. f_equal.
    rewrite slane_lane by lia. pose proof (srai_hi 16 (mm_unpackhi_epi 16 v v) i) as E. change (2 * 16) with 32 in E.
    change (Z.min 16 (32 - 1)) with 16. rewrite E by lia.
    apply (slane_unpackhi 16 v v i); cnts; lia || auto with lanes.
Qed.
