(* ===== verification/SimdShift.v ===== *)
(** * Byte shifts

    [gv_shl8], [gv_shr8], [gv_rol8] and the funnel shifts move each byte by
    its own count in steps of one, two and four bits, on 64-bit elements whose
    stray bits a mask removes.  Each byte of the result is the shift or rotate
    of that byte alone. *)

From stdpp Require Import base numbers list tactics.
From Stdlib Require Import Lia.
From S2P Require Import Prelude Simd SimdOps SimdSpec SimdWide SimdPack.
Open Scope Z_scope.
Open Scope mach_scope.

(** Bit [j] of byte [k]. *)
Definition bit (v k j : Z) : bool := Z.testbit v (8 * k + j).

Section Bits.
Context (k j : Z).
Hypothesis Hk : 0 <= k < 16.
Hypothesis Hj : 0 <= j < 8.

Lemma bit_and a b : bit (mm_and a b) k j = bit a k j && bit b k j.
Proof. apply Z.land_spec. Qed.

Lemma bit_or a b : bit (mm_or a b) k j = bit a k j || bit b k j.
Proof. apply Z.lor_spec. Qed.

Lemma bit_andn a b : bit (mm_andnot a b) k j = bit b k j && negb (bit a k j).
Proof. apply Z.ldiff_spec. Qed.

Lemma bit_vmake8 f : bit (vmake 8 f) k j = Z.testbit (f k) j.
Proof.
  unfold bit. rewrite testbit_vmake by (lia || auto with lanes).
  destruct (Z.ltb_spec (8 * k + j) 128); [|lia]. cbn [andb].
  replace ((8 * k + j) / 8) with k by (Z.to_euclidean_division_equations; lia).
  by replace ((8 * k + j) mod 8) with j by (Z.to_euclidean_division_equations; lia).
Qed.

Lemma bit_shl64 v n : 0 <= n <= j -> bit (gv_shl64 v n) k j = bit v k (j - n).
Proof.
  intros Hn. unfold gv_shl64, mm_slli_epi, vmap, bit. destruct (Z.leb_spec 64 n); [lia|].
  rewrite testbit_vmake by (lia || auto with lanes). destruct (Z.ltb_spec (8 * k + j) 128); [|lia].
  cbn [andb]. rewrite Z.shiftl_spec by (apply Z.mod_pos_bound; lia).
  assert (n <= (8 * k + j) mod 64) by (Z.to_euclidean_division_equations; lia).
  rewrite testbit_in_lane by (apply Z.div_pos || idtac; lia).
  destruct (Z.ltb_spec ((8 * k + j) mod 64 - n) 64); [|Z.to_euclidean_division_equations; lia].
  cbn [andb]. f_equal. Z.to_euclidean_division_equations; lia.
Qed.

Lemma bit_shr64 v n : 0 <= n -> j + n < 8 -> bit (gv_shr64 v n) k j = bit v k (j + n).
Proof.
  intros Hn Hjn. unfold gv_shr64, mm_srli_epi, vmap, bit. destruct (Z.leb_spec 64 n); [lia|].
  rewrite testbit_vmake by (lia || auto with lanes). destruct (Z.ltb_spec (8 * k + j) 128); [|lia].
  cbn [andb]. rewrite Z.shiftr_spec by (apply Z.mod_pos_bound; lia).
  rewrite testbit_in_lane by (apply Z.div_pos || apply Z.add_nonneg_nonneg || idtac; (lia || apply Z.mod_pos_bound; lia)).
  destruct (Z.ltb_spec ((8 * k + j) mod 64 + n) 64); [|Z.to_euclidean_division_equations; lia].
  cbn [andb]. f_equal. Z.to_euclidean_division_equations; lia.
Qed.

Lemma bit_bcst8 c : bit (gv_bcst8 c) k j = Z.testbit c j.
Proof. apply bit_vmake8. Qed.

Lemma bit_add8 a : bit (gv_add8 a a) k j = negb (j =? 0) && bit a k (j - 1).
Proof.
  unfold gv_add8, mm_add_epi, vzip. rewrite bit_vmake8.
  replace (lane 8 a k + lane 8 a k) with (Z.shiftl (lane 8 a k) 1) by (rewrite Z.shiftl_mul_pow2; lia).
  rewrite Z.shiftl_spec by lia. destruct (Z.eqb_spec j 0) as [->|]; [done|].
  rewrite testbit_in_lane by lia. destruct (Z.ltb_spec (j - 1) 8); [|lia]. done.
Qed.

Lemma bit_double a b :
  bit (gv_sub8 (gv_add8 a a) (gv_gts8 (gv_bcst8 0) b)) k j = if j =? 0 then bit b k 7 else bit a k (j - 1).
Proof.
  unfold gv_sub8, mm_sub_epi, vzip. rewrite bit_vmake8. unfold gv_add8, mm_add_epi, gv_gts8, mm_cmpgt_epi.
  rewrite lane_vzip, lane_vzips by (cnts; lia || auto with lanes). unfold gv_bcst8, mm_set1_epi.
  rewrite lane_vmake by (cnts; lia || auto with lanes). change (s8 (u8 0)) with 0.
  rewrite <- slane_lane, sign_slane by lia. change (8 * k + (8 - 1)) with (8 * k + 7).
  fold (bit b k 7). set (x := lane 8 a k). assert (urange 8 x) as Hx by (apply lane_range; lia).
  transitivity (Z.testbit (Z.lor (b2z (bit b k 7)) (Z.shiftl x 1)) j).
  - transitivity (Z.testbit (u8 (u8 (x + x) - u8 (mask (bit b k 7)))) j).
    { rewrite testbit_wrap by lia. destruct (Z.ltb_spec j 8); [done|lia]. }
    transitivity (Z.testbit (u8 (Z.lor (b2z (bit b k 7)) (Z.shiftl x 1))) j).
    2:{ rewrite testbit_wrap by lia. destruct (Z.ltb_spec j 8); [done|lia]. }
    f_equal. rewrite wrap_sub_l, wrap_sub_r by lia. f_equal.
    rewrite <- (add_shifted_lor 1) by (lia || destruct (bit b k 7); done).
    destruct (bit b k 7); cbn [mask b2z]; lia.
  - rewrite Z.lor_spec, Z.shiftl_spec by lia. destruct (Z.eqb_spec j 0) as [->|Hn].
    + rewrite (Z.testbit_neg_r _ (0 - 1)), orb_false_r by lia. by destruct (bit b k 7).
    + unfold x. rewrite testbit_in_lane by lia. destruct (Z.ltb_spec (j - 1) 8); [|lia]. cbn [andb].
      assert (Z.testbit (b2z (bit b k 7)) j = false) as ->; [|done].
      apply (urange_testbit 1); [lia| |lia]. by destruct (bit b k 7).
Qed.

Lemma bit_signselect m s t f :
  bit (gv_signselect8 m s t f) k j = if bit s k 7 then bit t k j else bit f k j.
Proof.
  assert (bit (mm_blendv_epi8 f t s) k j = if bit s k 7 then bit t k j else bit f k j) as Hb.
  { unfold bit. rewrite testbit_blendv by lia.
    by replace ((8 * k + j) / 8) with k by (Z.to_euclidean_division_equations; lia). }
  unfold gv_signselect8. destruct (has_sse41 m) eqn:Em; [done|].
  unfold gv_select8. rewrite Em. unfold v_or, v_and, gv_andn. rewrite bit_or, bit_and, bit_andn.
  assert (bit (gv_gts8 (gv_bcst8 0) s) k j = bit s k 7) as ->.
  { unfold gv_gts8, mm_cmpgt_epi, vzips. rewrite bit_vmake8. unfold gv_bcst8.
    rewrite slane_set1 by (cnts; lia || auto with lanes). change (s8 0) with 0. rewrite sign_slane by lia.
    change (8 * k + (8 - 1)) with (8 * k + 7). fold (bit s k 7).
    destruct (bit s k 7); cbn [mask]; [by rewrite Z.bits_m1 by lia | by rewrite Z.bits_0]. }
  destruct (bit s k 7); cbn [andb negb]; by rewrite ?andb_false_r, ?andb_true_r, ?orb_false_r.
Qed.

End Bits.

(** Two vectors with the same bits in every byte are equal. *)
Lemma bit_ext a b :
  urange 128 a -> urange 128 b ->
  (forall k j, 0 <= k < 16 -> 0 <= j < 8 -> bit a k j = bit b k j) -> a = b.
Proof.
  intros Ha Hb H. apply Z.bits_inj'. intros p Hp. destruct (Z.lt_ge_cases p 128).
  - specialize (H (p / 8) (p mod 8)). unfold bit in H. rewrite <- !Z.div_mod in H by lia.
    apply H; Z.to_euclidean_division_equations; lia.
  - by rewrite !(urange_testbit 128) by (done || lia).
Qed.

(** The count of a byte from its three low bits. *)
Lemma count7 c k :
  0 <= k < 16 -> lane 8 c k &&& 7 = b2z (bit c k 0) + 2 * b2z (bit c k 1) + 4 * b2z (bit c k 2).
Proof.
  intros Hk. assert (forall j, 0 <= j < 8 -> bit c k j = Z.testbit (lane 8 c k) j) as Hb.
  { intros j Hj. rewrite testbit_in_lane by lia. by destruct (Z.ltb_spec j 8); [|lia]. }
  rewrite !Hb by lia. change 7 with (Z.ones 3). rewrite Z.land_ones by lia. generalize (lane 8 c k). intros x.
  change b2z with Z.b2z. rewrite !Z.testbit_spec' by lia. change (2 ^ 0) with 1. rewrite Z.div_1_r.
  Z.to_euclidean_division_equations; lia.
Qed.

Lemma shl64_range v n : urange 128 (gv_shl64 v n).
Proof. unfold gv_shl64. destruct (_ <=? _); [done|]. apply vmake_range. auto with lanes. Qed.

Lemma shr64_range v n : urange 128 (gv_shr64 v n).
Proof. unfold gv_shr64. destruct (_ <=? _); [done|]. apply vmake_range. auto with lanes. Qed.

Lemma signselect_range m s t f : urange 128 t -> urange 128 f -> urange 128 (gv_signselect8 m s t f).
Proof.
  intros. unfold gv_signselect8. destruct (has_sse41 m) eqn:E; [apply vmake_range; auto with lanes|].
  unfold gv_select8. rewrite E. unfold v_or, v_and, gv_andn, mm_or, mm_and, mm_andnot, gv_gts8, mm_cmpgt_epi.
  vrange.
Qed.

(** Evaluate one bit of a byte shift: [j] is a numeral. *)
Ltac bit_step :=
  first
    [ rewrite bit_signselect by lia | rewrite bit_and by lia | rewrite bit_or by lia | rewrite bit_andn by lia
    | rewrite bit_bcst8 by lia | rewrite bit_double by lia | rewrite bit_add8 by lia
    | rewrite bit_shl64 by lia | rewrite bit_shr64 by lia ];
  repeat match goal with |- context [Z.testbit ?c ?j] => z_cst c; z_cst j; eval_op (Z.testbit c j) end;
  rewrite ?andb_true_r, ?andb_false_r; cbn [andb orb negb]; eval_consts; cbv iota.

Ltac lane_bit :=
  rewrite ?Z.lor_spec, ?Z.shiftl_spec, ?Z.shiftr_spec by lia; eval_consts;
  repeat match goal with
    | |- context [Z.testbit ?x (Zneg ?p)] => rewrite (Z.testbit_neg_r x (Zneg p)) by lia
    end;
  rewrite ?testbit_in_lane by lia; eval_consts; cbn [andb]; rewrite ?orb_false_r, ?orb_false_l.

(** A byte shift by the count [c]: every bit position, every count. *)
Ltac byte_shift c :=
  let k := fresh "k" in let j := fresh "j" in let Hk := fresh in let Hj := fresh in
  apply bit_ext; [|apply vmake_range; auto with lanes|intros k j Hk Hj];
  [repeat first [assumption | apply signselect_range | apply land_urange2; [lia| |] | apply lor_urange; [lia| |]
     | apply ldiff_urange; [lia|] | apply shl64_range | apply shr64_range | apply vmake_range; solve [auto with lanes]]
  |unfold vzip; rewrite bit_vmake8 by lia; rewrite count7 by lia;
   unfold gv_and32, gv_or32, gv_andn32;
   assert (j = 0 \/ j = 1 \/ j = 2 \/ j = 3 \/ j = 4 \/ j = 5 \/ j = 6 \/ j = 7) as ?Hd by lia;
   destruct_or!; subst j; repeat bit_step;
   destruct (bit c k 0), (bit c k 1), (bit c k 2); cbn [b2z]; eval_consts; lane_bit; try reflexivity].

Lemma gv_shl8v_eq m a b :
  urange 128 a -> gv_shl8v m a b = vzip 8 (fun x n => Z.shiftl x (n &&& 7)) a b.
Proof.
  intros Ha. unfold gv_shl8v. cbv zeta. byte_shift b.
Qed.

Lemma gv_shr8v_eq m a b :
  urange 128 a -> gv_shr8v m a b = vzip 8 (fun x n => x >>> (n &&& 7)) a b.
Proof. intros Ha. unfold gv_shr8v. cbv zeta. byte_shift b. Qed.

Lemma gv_rol8v_eq m a b :
  urange 128 a ->
  gv_rol8v m a b = vzip 8 (fun x n => Z.shiftl x (n &&& 7) ||| (x >>> (8 - (n &&& 7)))) a b.
Proof. intros Ha. unfold gv_rol8v. cbv zeta. byte_shift b. Qed.

(** The comments of the funnel shifts, for every byte. *)
Lemma gv_fshl8_eq m a b c :
  urange 128 a -> urange 128 b ->
  gv_fshl8 m a b c =
    vmake 8 (fun i => Z.shiftl (lane 8 a i) (lane 8 c i &&& 7) ||| (lane 8 b i >>> (8 - (lane 8 c i &&& 7)))).
Proof. intros Ha Hb. unfold gv_fshl8. cbv zeta. byte_shift c. Qed.

Lemma gv_fshr8_eq m a b c :
  urange 128 a -> urange 128 b ->
  gv_fshr8 m a b c =
    vmake 8 (fun i => (lane 8 b i >>> (lane 8 c i &&& 7)) ||| Z.shiftl (lane 8 a i) (8 - (lane 8 c i &&& 7))).
Proof. intros Ha Hb. unfold gv_fshr8. cbv zeta. byte_shift c. Qed.

(** Rotating an element by half its width swaps its halves. *)
Lemma swap_halves w v i :
  width w -> w <> 64 -> 0 <= i < 128 / (2 * w) ->
  let u := mm_or (mm_srli_epi (2 * w) v (2 * w - w)) (mm_slli_epi (2 * w) v w) in
  lane w u (2 * i) = lane w v (2 * i + 1) /\ lane w u (2 * i + 1) = lane w v (2 * i).
Proof.
  intros Hw Hne Hi u. destruct (width_cnt w Hw) as (H0 & _).
  assert (width (2 * w)) as Hw2 by (destruct Hw as [->|[->|[->| ->]]]; unfold width; cbn; tauto).
  rewrite (lane_even w u i), !lane_odd by lia.
  assert (lane (2 * w) u i = lane w v (2 * i + 1) + 2 ^ w * lane w v (2 * i)) as ->.
  { unfold u, mm_or, mm_srli_epi, mm_slli_epi. rewrite lane_lor, !lane_vmap by (done || lia).
    replace (2 * w - w) with w by lia. destruct (Z.leb_spec (2 * w) w); [lia|].
    rewrite <- lane_odd by lia. pose proof (lane_halves w v i ltac:(lia) ltac:(lia)) as E.
    pose proof (lane_range w v (2 * i) ltac:(lia)) as Hx. pose proof (lane_range w v (2 * i + 1) ltac:(lia)) as Hy.
    rewrite E, Z.shiftl_mul_pow2 by lia. set (x := lane w v (2 * i)) in *. set (y := lane w v (2 * i + 1)) in *.
    assert (2 ^ (2 * w) = 2 ^ w * 2 ^ w) as He by (rewrite <- Z.pow_add_r by lia; f_equal; lia).
    rewrite (wrap_id _ y) by (apply (urange_mono w); [lia|done]).
    rewrite (wrap_unique (2 * w) _ (2 ^ w * x) y) by (unfold urange in *; nia).
    rewrite add_shifted_lor by (done || lia). f_equal. rewrite Z.shiftl_mul_pow2; lia. }
  pose proof (lane_range w v (2 * i) ltac:(lia)) as Hx. pose proof (lane_range w v (2 * i + 1) ltac:(lia)) as Hy.
  rewrite (lane_odd w v i) in Hy by lia. rewrite (lane_odd w v i) by lia. unfold urange in *.
  rewrite (Z.mul_comm (2 ^ w)), wrap_add_mul, wrap_id by (done || lia). split; [done|].
  rewrite Z.shiftr_div_pow2, Z.div_add, Z.div_small by lia. lia.
Qed.

(** The byte reversal of words, in both branches. *)
Lemma gv_rev32_eq m v :
  urange 128 v -> gv_rev32 m v = vmake 8 (fun i => lane 8 v (4 * (i / 4) + (3 - i mod 4))).
Proof.
  intros Hv. unfold gv_rev32. destruct (has_ssse3 m).
  - unfold mm_shuffle_epi8. apply vmake_ext; [auto with lanes|]. intros i Hi. cnts. f_equal.
    zenum i 0 16%nat; reflexivity.
  - set (u := gv_rol16 8 v).
    pose proof (fun i => swap_halves 8 v i width_8 ltac:(lia)) as H1. fold (gv_rol16 8 v) in H1.
    pose proof (fun i => swap_halves 16 u i width_16 ltac:(lia)) as H2.
    change (mm_or (mm_srli_epi (2 * 8) v (2 * 8 - 8)) (mm_slli_epi (2 * 8) v 8)) with u in H1.
    change (mm_or (mm_srli_epi (2 * 16) u (2 * 16 - 16)) (mm_slli_epi (2 * 16) u 16)) with (gv_rol32 16 u) in H2.
    change (128 / (2 * 8)) with 8 in H1. change (128 / (2 * 16)) with 4 in H2. cbv zeta in H1, H2.
    assert (forall i, 0 <= i < 8 -> forall x, lane 8 x (2 * i) = u8 (lane 16 x i) /\ lane 8 x (2 * i + 1) = lane 16 x i >>> 8) as Hb.
    { intros i Hi x. split; [apply (lane_even 8) | apply (lane_odd 8)]; lia. }
    apply (vec_ext 8); [auto with lanes|unfold gv_rol32, mm_or; cbv zeta; vrange|apply vmake_range; auto with lanes|].
    intros i Hi. cnts. rewrite lane_vmake by (cnts; lia || auto with lanes).
    rewrite (wrap_id 8) by (apply lane_range; lia).
    assert (exists q r, i = 4 * q + r /\ 0 <= q < 4 /\ 0 <= r < 4) as (q & r & -> & Hq & Hr)
      by (exists (i / 4), (i mod 4); Z.to_euclidean_division_equations; lia).
    replace ((4 * q + r) / 4) with q by (Z.to_euclidean_division_equations; lia).
    replace ((4 * q + r) mod 4) with r by (Z.to_euclidean_division_equations; lia).
    destruct (H2 q Hq) as [E0 E1]. destruct (H1 (2 * q) ltac:(lia)) as [A0 A1].
    destruct (H1 (2 * q + 1) ltac:(lia)) as [B0 B1].
    destruct (Hb (2 * q) ltac:(lia) (gv_rol32 16 u)) as [C0 C1]. destruct (Hb (2 * q + 1) ltac:(lia) (gv_rol32 16 u)) as [D0 D1].
    rewrite E0 in C0, C1. rewrite E1 in D0, D1.
    destruct (Hb (2 * q) ltac:(lia) u) as [F0 F1]. destruct (Hb (2 * q + 1) ltac:(lia) u) as [G0 G1].
    rewrite <- G0 in C0. rewrite <- G1 in C1. rewrite <- F0 in D0. rewrite <- F1 in D1.
    rewrite B0 in C0. rewrite B1 in C1. rewrite A0 in D0. rewrite A1 in D1.
    assert (r = 0 \/ r = 1 \/ r = 2 \/ r = 3) as Hc by lia. destruct Hc as [->|[->|[->| ->]]].
    + replace (4 * q + 0) with (2 * (2 * q)) by lia. rewrite C0. f_equal. lia.
    + replace (4 * q + 1) with (2 * (2 * q) + 1) by lia. rewrite C1. f_equal. lia.
    + replace (4 * q + 2) with (2 * (2 * q + 1)) by lia. rewrite D0. f_equal. lia.
    + replace (4 * q + 3) with (2 * (2 * q + 1) + 1) by lia. rewrite D1. f_equal. lia.
Qed.
