(* ===== verification/PpuVector.v ===== *)
(** * PPU vector instructions

    The integer VMX instructions of [semantic/ppu.cpp] over the vector
    operations of [SimdOps]: one definition per SEMANTIC function with the
    operands its decoder passes.  [m] is the instruction set of the build.
    The saturating instructions accumulate into the sticky vector [sat], whose
    being non-zero is the SAT bit of VSCR; the compares set CR field 6 when
    the instruction's record bit (its [oe] field) is set. *)

From stdpp Require Import base numbers list tactics.
From Stdlib Require Import Lia.
From S2P Require Import Prelude PpuInstruction PpuContext Simd SimdOps.
Import Instruction.
Open Scope Z_scope.
Open Scope mach_scope.

(** ** Operands *)

(** [context.vr[i]] and its assignment. *)
Definition VR (c : PPUContext) (i : Z) : Z := rget (vr c) i.

Definition set_vr (i v : Z) (c : PPUContext) : PPUContext := with_vr (rset (vr c) i v) c.

(** The decoder shapes: [d] from [b], from [a] and [b], and from [a], [b] and
    [c]. *)
Definition vop1 (f : Z -> Z) (c : PPUContext) (inst : Z) : PPUContext :=
  set_vr (vd inst) (f (VR c (vb inst))) c.

Definition vop2 (f : Z -> Z -> Z) (c : PPUContext) (inst : Z) : PPUContext :=
  set_vr (vd inst) (f (VR c (va inst)) (VR c (vb inst))) c.

Definition vop3 (f : Z -> Z -> Z -> Z) (c : PPUContext) (inst : Z) : PPUContext :=
  set_vr (vd inst) (f (VR c (va inst)) (VR c (vb inst)) (VR c (vc inst))) c.

(** The shapes that also pass [context.sat] by reference: [f] gives [d] and
    the new [sat]. *)
Definition vsat2 (f : Z -> Z -> Z -> Z * Z) (c : PPUContext) (inst : Z) : PPUContext :=
  let '(d, s) := f (VR c (va inst)) (VR c (vb inst)) (sat c) in
  set_vr (vd inst) d (with_sat s c).

Definition vsat3 (f : Z -> Z -> Z -> Z -> Z * Z) (c : PPUContext) (inst : Z) : PPUContext :=
  let '(d, s) := f (VR c (va inst)) (VR c (vb inst)) (VR c (vc inst)) (sat c) in
  set_vr (vd inst) d (with_sat s c).

(** The compares: [cr6] is CR field 6 or null. *)
Definition vcmp (m : isa) (f : Z -> Z -> Z) (c : PPUContext) (inst : Z) : PPUContext :=
  let r := f (VR c (va inst)) (VR c (vb inst)) in
  let c := if oe inst =? 0 then c
           else set_cr_field 6 (CrField.set (gv_testall1 m r) false (gv_testall0 m r) false) c in
  set_vr (vd inst) r c.

(** ** VSCR *)

Definition MFVSCR (m : isa) (c : PPUContext) (inst : Z) : PPUContext :=
  let sat_bit := b2z (negb (gv_testz m (sat c))) in
  set_vr (vd inst) (Z.shiftl (u64 (Z.shiftl (sat_bit ||| Z.shiftl (b2z (nj c)) 16) 32)) 64) c.

Definition MTVSCR (c : PPUContext) (inst : Z) : PPUContext :=
  let vscr := lane 32 (VR c (vb inst)) 3 in
  let n := negb (vscr &&& 0x10000 =? 0) in
  with_vscr n (vscr &&& 1) (if n then 0x7f800000 else 0x7fffffff) c.

(** ** Sums and differences *)

Definition VADDCUW (m : isa) : PPUContext -> Z -> PPUContext :=
  vop2 (fun a b => gv_sub32 (gv_geu32 m (gv_not32 a) b) (gv_bcst32 (u32 (-1)))).

Definition VADDSBS : PPUContext -> Z -> PPUContext :=
  vsat2 (fun a b sat =>
    let r := gv_adds_s8 a b in (r, gv_or32 (gv_xor32 (gv_add8 a b) r) sat)).

Definition VADDSHS : PPUContext -> Z -> PPUContext :=
  vsat2 (fun a b sat =>
    let r := gv_adds_s16 a b in (r, gv_or32 (gv_xor32 (gv_add16 a b) r) sat)).

Definition VADDSWS : PPUContext -> Z -> PPUContext :=
  vsat2 (fun a b sat =>
    let r := gv_adds_s32 a b in (r, gv_or32 (gv_xor32 (gv_add32 a b) r) sat)).

Definition VADDUBM : PPUContext -> Z -> PPUContext := vop2 gv_add8.

Definition VADDUBS : PPUContext -> Z -> PPUContext :=
  vsat2 (fun a b sat =>
    let r := gv_addus_u8 a b in (r, gv_or32 (gv_xor32 (gv_add8 a b) r) sat)).

Definition VADDUHM : PPUContext -> Z -> PPUContext := vop2 gv_add16.

Definition VADDUHS : PPUContext -> Z -> PPUContext :=
  vsat2 (fun a b sat =>
    let r := gv_addus_u16 a b in (r, gv_or32 (gv_xor32 (gv_add16 a b) r) sat)).

Definition VADDUWM : PPUContext -> Z -> PPUContext := vop2 gv_add32.

Definition VADDUWS (m : isa) : PPUContext -> Z -> PPUContext :=
  vsat2 (fun a b sat =>
    let r := gv_addus_u32 m a b in (r, gv_or32 (gv_xor32 (gv_add32 a b) r) sat)).

Definition VSUBCUW (m : isa) : PPUContext -> Z -> PPUContext :=
  vop2 (fun a b => gv_shr32 (gv_geu32 m a b) 31).

Definition VSUBSBS : PPUContext -> Z -> PPUContext :=
  vsat2 (fun a b sat =>
    let r := gv_subs_s8 a b in (r, gv_or32 (gv_xor32 (gv_sub8 a b) r) sat)).

Definition VSUBSHS : PPUContext -> Z -> PPUContext :=
  vsat2 (fun a b sat =>
    let r := gv_subs_s16 a b in (r, gv_or32 (gv_xor32 (gv_sub16 a b) r) sat)).

Definition VSUBSWS : PPUContext -> Z -> PPUContext :=
  vsat2 (fun a b sat =>
    let r := gv_subs_s32 a b in (r, gv_or32 (gv_xor32 (gv_sub32 a b) r) sat)).

Definition VSUBUBM : PPUContext -> Z -> PPUContext := vop2 gv_sub8.

Definition VSUBUBS : PPUContext -> Z -> PPUContext :=
  vsat2 (fun a b sat =>
    let r := gv_subus_u8 a b in (r, gv_or32 (gv_xor32 (gv_sub8 a b) r) sat)).

Definition VSUBUHM : PPUContext -> Z -> PPUContext := vop2 gv_sub16.

Definition VSUBUHS : PPUContext -> Z -> PPUContext :=
  vsat2 (fun a b sat =>
    let r := gv_subus_u16 a b in (r, gv_or32 (gv_xor32 (gv_sub16 a b) r) sat)).

Definition VSUBUWM : PPUContext -> Z -> PPUContext := vop2 gv_sub32.

Definition VSUBUWS (m : isa) : PPUContext -> Z -> PPUContext :=
  vsat2 (fun a b sat =>
    let r := gv_subus_u32 m a b in (r, gv_or32 (gv_xor32 (gv_sub32 a b) r) sat)).

(** ** Bitwise operations, averages, minimum and maximum *)

Definition VAND : PPUContext -> Z -> PPUContext := vop2 gv_andfs.

Definition VANDC : PPUContext -> Z -> PPUContext := vop2 (fun a b => gv_andnfs b a).

Definition VNOR : PPUContext -> Z -> PPUContext := vop2 (fun a b => gv_notfs (gv_orfs a b)).

Definition VOR : PPUContext -> Z -> PPUContext := vop2 gv_orfs.

Definition VXOR : PPUContext -> Z -> PPUContext := vop2 gv_xorfs.

Definition VSEL : PPUContext -> Z -> PPUContext :=
  vop3 (fun a b c => let x := gv_andfs b c in gv_orfs x (gv_andnfs c a)).

Definition VAVGSB : PPUContext -> Z -> PPUContext := vop2 gv_avgs8.

Definition VAVGSH : PPUContext -> Z -> PPUContext := vop2 gv_avgs16.

Definition VAVGSW (m : isa) : PPUContext -> Z -> PPUContext := vop2 (gv_avgs32 m).

Definition VAVGUB : PPUContext -> Z -> PPUContext := vop2 gv_avgu8.

Definition VAVGUH : PPUContext -> Z -> PPUContext := vop2 gv_avgu16.

Definition VAVGUW (m : isa) : PPUContext -> Z -> PPUContext := vop2 (gv_avgu32 m).

Definition VMAXSB (m : isa) : PPUContext -> Z -> PPUContext := vop2 (gv_maxs8 m).

Definition VMAXSH : PPUContext -> Z -> PPUContext := vop2 gv_maxs16.

Definition VMAXSW (m : isa) : PPUContext -> Z -> PPUContext := vop2 (gv_maxs32 m).

Definition VMAXUB : PPUContext -> Z -> PPUContext := vop2 gv_maxu8.

Definition VMAXUH (m : isa) : PPUContext -> Z -> PPUContext := vop2 (gv_maxu16 m).

Definition VMAXUW (m : isa) : PPUContext -> Z -> PPUContext := vop2 (gv_maxu32 m).

Definition VMINSB (m : isa) : PPUContext -> Z -> PPUContext := vop2 (gv_mins8 m).

Definition VMINSH : PPUContext -> Z -> PPUContext := vop2 gv_mins16.

Definition VMINSW (m : isa) : PPUContext -> Z -> PPUContext := vop2 (gv_mins32 m).

Definition VMINUB : PPUContext -> Z -> PPUContext := vop2 gv_minu8.

Definition VMINUH (m : isa) : PPUContext -> Z -> PPUContext := vop2 (gv_minu16 m).

Definition VMINUW (m : isa) : PPUContext -> Z -> PPUContext := vop2 (gv_minu32 m).

(** ** Compares *)

Definition VCMPEQUB (m : isa) : PPUContext -> Z -> PPUContext := vcmp m gv_eq8.

Definition VCMPEQUH (m : isa) : PPUContext -> Z -> PPUContext := vcmp m gv_eq16.

Definition VCMPEQUW (m : isa) : PPUContext -> Z -> PPUContext := vcmp m gv_eq32.

Definition VCMPGTSB (m : isa) : PPUContext -> Z -> PPUContext := vcmp m gv_gts8.

Definition VCMPGTSH (m : isa) : PPUContext -> Z -> PPUContext := vcmp m gv_gts16.

Definition VCMPGTSW (m : isa) : PPUContext -> Z -> PPUContext := vcmp m gv_gts32.

Definition VCMPGTUB (m : isa) : PPUContext -> Z -> PPUContext := vcmp m gv_gtu8.

Definition VCMPGTUH (m : isa) : PPUContext -> Z -> PPUContext := vcmp m (gv_gtu16 m).

Definition VCMPGTUW (m : isa) : PPUContext -> Z -> PPUContext := vcmp m (gv_gtu32 m).

(** ** Products *)

Definition VMHADDSHS : PPUContext -> Z -> PPUContext :=
  vsat3 (fun a b c sat =>
    let m := gv_muls_hds16 a b in
    let f := gv_gts16 (gv_bcst16 0) c in
    let x := gv_eq16 (gv_maxs16 a b) (gv_bcst16 0x8000) in
    let r := gv_sub16 (gv_adds_s16 m c) (gv_and32 x f) in
    let s := gv_add16 m c in
    (r, gv_or32 (gv_or32 (gv_andn32 f x) (gv_andn32 x (gv_xor32 s r))) sat)).

Definition VMHRADDSHS : PPUContext -> Z -> PPUContext :=
  vsat3 (fun a b c sat =>
    let m := gv_rmuls_hds16 a b in
    let f := gv_gts16 (gv_bcst16 0) c in
    let x := gv_eq16 (gv_maxs16 a b) (gv_bcst16 0x8000) in
    let r := gv_sub16 (gv_adds_s16 m c) (gv_and32 x f) in
    let s := gv_add16 m c in
    (r, gv_or32 (gv_or32 (gv_andn32 f x) (gv_andn32 x (gv_xor32 s r))) sat)).

Definition VMLADDUHM : PPUContext -> Z -> PPUContext := vop3 gv_muladd16.

Definition VMSUMMBM : PPUContext -> Z -> PPUContext := vop3 (fun a b c => gv_dotu8s8x4 b a c).

Definition VMSUMSHM : PPUContext -> Z -> PPUContext := vop3 gv_dots16x2.

Definition VMSUMSHS (m : isa) : PPUContext -> Z -> PPUContext :=
  vsat3 (fun a b c sat =>
    let r := gv_dots_s16x2 m a b c in
    let s := gv_dots16x2 a b c in
    (r, gv_or32 (gv_xor32 s r) sat)).

Definition VMSUMUBM : PPUContext -> Z -> PPUContext := vop3 gv_dotu8x4.

Definition VMSUMUHM : PPUContext -> Z -> PPUContext :=
  vop3 (fun a b c => gv_add32 c (gv_dotu16x2 a b)).

(** The body of [VMSUMUHS]: the value it assigns to [d], and [sat]. *)
Definition VMSUMUHS_sem (m : isa) (a b c sat : Z) : Z * Z :=
  let m1 := gv_mul_even_u16 m a b in
  let m2 := gv_mul_odds_u16 m a b in
  let s1 := gv_add32 m1 m2 in
  let x1 := gv_gtu32 m m1 s1 in
  let s2 := gv_or32 (gv_add32 s1 c) x1 in
  let x2 := gv_gtu32 m s1 s2 in
  (gv_or32 s2 x2, gv_or32 (gv_or32 x1 x2) sat).

(** Its parameter [d] is a copy: the assignment does not reach the context. *)
Definition VMSUMUHS (m : isa) (c : PPUContext) (inst : Z) : PPUContext :=
  with_sat (snd (VMSUMUHS_sem m (VR c (va inst)) (VR c (vb inst)) (VR c (vc inst)) (sat c))) c.

Definition VMULESB : PPUContext -> Z -> PPUContext :=
  vop2 (fun a b => gv_mul16 (gv_sar16 a 8) (gv_sar16 b 8)).

Definition VMULESH : PPUContext -> Z -> PPUContext := vop2 gv_mul_odds_s16.

Definition VMULEUB : PPUContext -> Z -> PPUContext :=
  vop2 (fun a b => gv_mul16 (gv_shr16 a 8) (gv_shr16 b 8)).

Definition VMULEUH (m : isa) : PPUContext -> Z -> PPUContext := vop2 (gv_mul_odds_u16 m).

Definition VMULOSB : PPUContext -> Z -> PPUContext :=
  vop2 (fun a b => gv_mul16 (gv_sar16 (gv_shl16 a 8) 8) (gv_sar16 (gv_shl16 b 8) 8)).

Definition VMULOSH : PPUContext -> Z -> PPUContext := vop2 gv_mul_even_s16.

Definition VMULOUB : PPUContext -> Z -> PPUContext :=
  vop2 (fun a b => let mask := gv_bcst16 0x00ff in gv_mul16 (gv_and32 a mask) (gv_and32 b mask)).

Definition VMULOUH (m : isa) : PPUContext -> Z -> PPUContext := vop2 (gv_mul_even_u16 m).

(** ** Merging, packing and unpacking *)

Definition VMRGHB : PPUContext -> Z -> PPUContext := vop2 (fun a b => gv_unpackhi8 b a).

Definition VMRGHH : PPUContext -> Z -> PPUContext := vop2 (fun a b => gv_unpackhi16 b a).

Definition VMRGHW : PPUContext -> Z -> PPUContext := vop2 (fun a b => gv_unpackhi32 b a).

Definition VMRGLB : PPUContext -> Z -> PPUContext := vop2 (fun a b => gv_unpacklo8 b a).

Definition VMRGLH : PPUContext -> Z -> PPUContext := vop2 (fun a b => gv_unpacklo16 b a).

Definition VMRGLW : PPUContext -> Z -> PPUContext := vop2 (fun a b => gv_unpacklo32 b a).

(** [d._u8[i] = ab[~c._u8[i] & 0x1f]], where [ab] is the bytes of [b] then
    those of [a]. *)
Definition VPERM : PPUContext -> Z -> PPUContext :=
  vop3 (fun a b c =>
    let ab i := if i <? 16 then lane 8 b i else lane 8 a (i - 16) in
    vmake 8 (fun i => ab (Z.lnot (lane 8 c i) &&& 0x1f))).

Definition VPKPX : PPUContext -> Z -> PPUContext :=
  vop2 (fun a b =>
    let a1 := gv_sar32 (gv_shl32 a 7) (7 + 9) in
    let b1 := gv_sar32 (gv_shl32 b 7) (7 + 9) in
    let a2 := gv_sar32 (gv_shl32 a 16) (16 + 3) in
    let b2 := gv_sar32 (gv_shl32 b 16) (16 + 3) in
    let p1 := gv_packss_s32 b1 a1 in
    let p2 := gv_packss_s32 b2 a2 in
    gv_or32 (gv_or32 (gv_and32 p1 (gv_bcst16 0xfc00))
                     (gv_shl16 (gv_and32 p1 (gv_bcst16 0x7c)) 3))
            (gv_and32 p2 (gv_bcst16 0x1f))).

Definition VPKSHSS : PPUContext -> Z -> PPUContext :=
  vsat2 (fun a b sat =>
    (gv_packss_s16 b a,
     gv_or32 (gv_shr16 (v_or (gv_add16 a (gv_bcst16 0x80)) (gv_add16 b (gv_bcst16 0x80))) 8) sat)).

Definition VPKSHUS : PPUContext -> Z -> PPUContext :=
  vsat2 (fun a b sat => (gv_packus_s16 b a, gv_or32 (gv_shr16 (v_or a b) 8) sat)).

Definition VPKSWSS : PPUContext -> Z -> PPUContext :=
  vsat2 (fun a b sat =>
    (gv_packss_s32 b a,
     gv_or32 (gv_shr32 (v_or (gv_add32 a (gv_bcst32 0x8000)) (gv_add32 b (gv_bcst32 0x8000))) 16)
             sat)).

(** The parameter [sat] is a copy: only [d] reaches the context. *)
Definition VPKSWUS (m : isa) : PPUContext -> Z -> PPUContext :=
  vop2 (fun a b => gv_packus_s32 m b a).

Definition VPKUHUM : PPUContext -> Z -> PPUContext := vop2 (fun a b => gv_packtu16 b a).

Definition VPKUHUS (m : isa) : PPUContext -> Z -> PPUContext :=
  vsat2 (fun a b sat => (gv_packus_u16 m b a, gv_or32 (gv_shr16 (v_or a b) 8) sat)).

Definition VPKUWUM (m : isa) : PPUContext -> Z -> PPUContext := vop2 (fun a b => gv_packtu32 m b a).

Definition VPKUWUS (m : isa) : PPUContext -> Z -> PPUContext :=
  vsat2 (fun a b sat => (gv_packus_u32 m b a, gv_or32 (gv_shr32 (v_or a b) 16) sat)).

(** The pixel expansion [VUPKHPX] and [VUPKLPX] share. *)
Definition unpack_px (x : Z) : Z :=
  let y := gv_or32 (gv_and32 (gv_shl32 x 6) (gv_bcst32 0x1f0000))
                   (gv_and32 (gv_shl32 x 3) (gv_bcst32 0x1f00)) in
  gv_or32 y (gv_and32 x (gv_bcst32 0xff00001f)).

Definition VUPKHPX (m : isa) : PPUContext -> Z -> PPUContext :=
  vop1 (fun b => unpack_px (gv_extend_hi_s16 m b)).

Definition VUPKHSB (m : isa) : PPUContext -> Z -> PPUContext := vop1 (gv_extend_hi_s8 m).

Definition VUPKHSH (m : isa) : PPUContext -> Z -> PPUContext := vop1 (gv_extend_hi_s16 m).

Definition VUPKLPX (m : isa) : PPUContext -> Z -> PPUContext :=
  vop1 (fun b => unpack_px (gv_extend_lo_s16 m b)).

Definition VUPKLSB (m : isa) : PPUContext -> Z -> PPUContext := vop1 (gv_extend_lo_s8 m).

Definition VUPKLSH (m : isa) : PPUContext -> Z -> PPUContext := vop1 (gv_extend_lo_s16 m).

(** ** Shifts, rotates and splats *)

Definition VRLB (m : isa) : PPUContext -> Z -> PPUContext := vop2 (gv_rol8v m).

Definition VRLH : PPUContext -> Z -> PPUContext := vop2 gv_rol16v.

Definition VRLW : PPUContext -> Z -> PPUContext := vop2 gv_rol32v.

Definition VSL (m : isa) : PPUContext -> Z -> PPUContext :=
  vop2 (fun a b => gv_fshl8 m a (gv_shuffle_left 1 a) b).

Definition VSLB (m : isa) : PPUContext -> Z -> PPUContext := vop2 (gv_shl8v m).

Definition VSLDOI_IMPL (Count a b : Z) : Z :=
  gv_or32 (gv_shuffle_left Count a) (gv_shuffle_right (16 - Count) b).

(** The switch has a case for each count below 16. *)
Definition VSLDOI (c : PPUContext) (inst : Z) : PPUContext :=
  if vsh inst <? 16
  then set_vr (vd inst) (VSLDOI_IMPL (vsh inst) (VR c (va inst)) (VR c (vb inst))) c
  else c.

Definition VSLH : PPUContext -> Z -> PPUContext := vop2 gv_shl16v.

Definition VSLO : PPUContext -> Z -> PPUContext :=
  vop2 (fun a b => u128 (Z.shiftl a (lane 8 b 0 &&& 0x78))).

Definition VSLW : PPUContext -> Z -> PPUContext := vop2 gv_shl32v.

Definition VSPLTB (c : PPUContext) (inst : Z) : PPUContext :=
  set_vr (vd inst) (gv_bcst8 (laner 8 (VR c (vb inst)) (vuimm inst &&& 15))) c.

Definition VSPLTH (c : PPUContext) (inst : Z) : PPUContext :=
  set_vr (vd inst) (gv_bcst16 (laner 16 (VR c (vb inst)) (vuimm inst &&& 7))) c.

Definition VSPLTISB (c : PPUContext) (inst : Z) : PPUContext :=
  set_vr (vd inst) (gv_bcst8 (u8 (vsimm inst))) c.

Definition VSPLTISH (c : PPUContext) (inst : Z) : PPUContext :=
  set_vr (vd inst) (gv_bcst16 (u16 (vsimm inst))) c.

Definition VSPLTISW (c : PPUContext) (inst : Z) : PPUContext :=
  set_vr (vd inst) (gv_bcst32 (u32 (vsimm inst))) c.

Definition VSPLTW (c : PPUContext) (inst : Z) : PPUContext :=
  set_vr (vd inst) (gv_bcst32 (laner 32 (VR c (vb inst)) (vuimm inst &&& 3))) c.

Definition VSR (m : isa) : PPUContext -> Z -> PPUContext :=
  vop2 (fun a b => gv_fshr8 m (gv_shuffle_right 1 a) a b).

Definition VSRAB : PPUContext -> Z -> PPUContext := vop2 gv_sar8v.

Definition VSRAH : PPUContext -> Z -> PPUContext := vop2 gv_sar16v.

Definition VSRAW : PPUContext -> Z -> PPUContext := vop2 gv_sar32v.

Definition VSRB (m : isa) : PPUContext -> Z -> PPUContext := vop2 (gv_shr8v m).

Definition VSRH : PPUContext -> Z -> PPUContext := vop2 gv_shr16v.

Definition VSRO : PPUContext -> Z -> PPUContext := vop2 (fun a b => a >>> (lane 8 b 0 &&& 0x78)).

Definition VSRW : PPUContext -> Z -> PPUContext := vop2 gv_shr32v.

(** ** Sums across *)

Definition INT32_MAX : Z := 2 ^ 31 - 1.

Definition INT32_MIN : Z := - 2 ^ 31.

Definition VSUMSWS : PPUContext -> Z -> PPUContext :=
  vsat2 (fun a b sat =>
    let sum := slane 32 b 0 + slane 32 a 0 + slane 32 a 1 + slane 32 a 2 + slane 32 a 3 in
    let sat1 := Z.ldiff sat 0xff ||| 1 in
    if INT32_MAX <? sum then (u32 INT32_MAX, sat1)
    else if sum <? INT32_MIN then (u32 INT32_MIN, sat1)
    else (u32 sum, sat)).

(** A 64-bit sum, saturated to a word. *)
Definition sat_word (y : Z) : Z :=
  if INT32_MAX <? y then INT32_MAX else if y <? INT32_MIN then u32 INT32_MIN else u32 y.

Definition VSUM2SWS : PPUContext -> Z -> PPUContext :=
  vsat2 (fun a b sat =>
    let y := vmake 64 (fun i => slane 32 a (2 * i) + slane 32 a (2 * i + 1) + slane 32 b (2 * i)) in
    let r := vmaps 64 sat_word y in
    (r, gv_or32 (gv_shr64 (gv_add64 y (gv_bcst64 0x80000000)) 32) sat)).

Definition VSUM4SBS (m : isa) : PPUContext -> Z -> PPUContext :=
  vsat2 (fun a b sat =>
    let r := gv_dots_u8s8x4 (gv_bcst8 1) a b in
    (r, gv_or32 (gv_xor32 (gv_hadds8x4 m a b) r) sat)).

Definition VSUM4SHS (m : isa) : PPUContext -> Z -> PPUContext :=
  vsat2 (fun a b sat =>
    let r := gv_dots_s16x2 m a (gv_bcst16 1) b in
    (r, gv_or32 (gv_xor32 (gv_hadds16x2 a b) r) sat)).

Definition VSUM4UBS (m : isa) : PPUContext -> Z -> PPUContext :=
  vsat2 (fun a b sat =>
    let x := gv_haddu8x4 m a in
    let r := gv_addus_u32 m x b in
    (r, gv_or32 (gv_xor32 (gv_add32 x b) r) sat)).
