(* ===== verification/PpuVectorSpec.v ===== *)
(** * What the vector instructions compute

    The instructions of PpuVector against the architecture: saturating
    results are the exact ones clamped to the element and the sticky bit
    records exactly the elements that were clamped; elementwise, product and
    compare instructions; byte permutations in the architecture's big-endian
    element order; whole-register shifts; unpacking undone by packing.  Every
    statement holds for each instruction set. *)

From stdpp Require Import base numbers list tactics.
From Stdlib Require Import Lia.
From S2P Require Import Prelude PpuInstruction PpuContext Simd SimdOps SimdSpec SimdWide SimdPack SimdShift.
From S2P Require Import PpuVector.
Import Instruction.
Open Scope Z_scope.
Open Scope mach_scope.

(** ** Registers *)

Lemma VR_range c i : wf_ctx c -> urange 5 i -> urange 128 (VR c i).
Proof. intros [] Hi. apply (rget_Forall (urange 128)); [done|]. unfold urange in Hi. lia. Qed.

Lemma VR_set_vr i v c : wf_ctx c -> urange 5 i -> VR (set_vr i v c) i = v.
Proof.
  intros Hc Hi. unfold VR, set_vr. cbn [vr with_vr]. apply rget_rset_eq.
  rewrite (wf_vr_len _ Hc). unfold urange in Hi. lia.
Qed.

Lemma set_vr_wf i v c : wf_ctx c -> urange 128 v -> wf_ctx (set_vr i v c).
Proof. intros [] Hv. constructor; simpl; rewrite ?rset_length; auto with mach. Qed.

#[export] Hint Resolve set_vr_wf : wf.

Lemma field5 i raw : 0 <= i <= 27 -> urange 5 (bf_u i 5 raw).
Proof. apply bf_u_5_range. Qed.

Lemma va_range inst : urange 5 (va inst). Proof. apply field5. lia. Qed.
Lemma vb_range inst : urange 5 (vb inst). Proof. apply field5. lia. Qed.
Lemma vc_range inst : urange 5 (vc inst). Proof. apply field5. lia. Qed.
Lemma vd_range inst : urange 5 (vd inst). Proof. apply field5. lia. Qed.

(** A context with three vector registers set. *)
Definition vec_ctx (a b d : Z) : PPUContext := set_vr 1 a (set_vr 2 b (set_vr 3 d init_ctx)).

Lemma vec_ctx_wf a b d : urange 128 a -> urange 128 b -> urange 128 d -> wf_ctx (vec_ctx a b d).
Proof. intros. unfold vec_ctx. by repeat apply set_vr_wf; try apply init_ctx_wf. Qed.

(** ** Saturation *)

(** The element view and the clamping of a signed or unsigned result. *)
Definition view (sg : bool) : Z -> Z -> Z -> Z := if sg then slane else lane.

Definition clamp (sg : bool) (w x : Z) : Z := if sg then clamp_s w x else clamp_u w x.

Definition conv (sg : bool) (w x : Z) : Z := if sg then sext w x else wrap w x.

(** [f] gives a result vector and the sticky vector: its elements are the
    exact values clamped, and stickiness is kept or set by a clamped
    element. *)
Definition saturates (w : Z) (sg : bool) (exact : Z -> Z) (s : Z) (r : Z * Z) : Prop :=
  fst r = vmake w (fun i => clamp sg w (exact i)) /\ urange 128 (snd r) /\
  (snd r = 0 <-> s = 0 /\ forall i, 0 <= i < 128 / w -> clamp sg w (exact i) = exact i).

(** The effect of a saturating instruction on the context. *)
Definition saturating (w : Z) (sg : bool) (exact : Z -> Z -> Z -> Z -> Z)
    (F : PPUContext -> Z -> PPUContext) : Prop :=
  forall c inst, wf_ctx c ->
  let e := exact (VR c (va inst)) (VR c (vb inst)) (VR c (vc inst)) in
  let c' := F c inst in
  (forall i, 0 <= i < 128 / w -> view sg w (VR c' (vd inst)) i = clamp sg w (e i)) /\
  (sat c' = 0 <-> sat c = 0 /\ forall i, 0 <= i < 128 / w -> clamp sg w (e i) = e i) /\
  c' = set_vr (vd inst) (VR c' (vd inst)) (with_sat (sat c') c).

Lemma clamp_view sg w x : 0 < w -> conv sg w (clamp sg w x) = clamp sg w x.
Proof.
  intros Hw. pose proof (pow2_pos (w - 1) ltac:(lia)). pose proof (pow2_pos w ltac:(lia)).
  destruct sg; cbn [conv clamp].
  - apply sext_id; [done|]. unfold srange, clamp_s. lia.
  - apply wrap_id. unfold urange, clamp_u. lia.
Qed.

Lemma view_vmake sg w f i :
  width w -> 0 <= i < 128 / w -> view sg w (vmake w f) i = conv sg w (f i).
Proof. intros. destruct sg; [by apply slane_vmake | by apply lane_vmake]. Qed.

(** Reduce an instruction to its semantic function. *)
Lemma vsat2_saturating w sg exact f :
  width w ->
  (forall a b s, urange 128 a -> urange 128 b -> urange 128 s ->
     saturates w sg (exact a b) s (f a b s)) ->
  saturating w sg (fun a b _ => exact a b) (vsat2 f).
Proof.
  intros Hw Hf c inst Hc. cbv zeta. pose proof (width_cnt w Hw) as (H0 & _).
  specialize (Hf (VR c (va inst)) (VR c (vb inst)) (sat c)
                (VR_range _ _ Hc (va_range _)) (VR_range _ _ Hc (vb_range _)) (wf_sat _ Hc)).
  unfold vsat2. destruct (f _ _ _) as [d s]. destruct Hf as (Hd & Hr & Hs). cbn [fst snd] in *.
  assert (wf_ctx (with_sat s c)) as Hc' by (by apply with_sat_wf).
  rewrite VR_set_vr by (done || apply vd_range). split_and!; [|exact Hs|done].
  intros i Hi. rewrite Hd, view_vmake by done. by apply clamp_view.
Qed.

Lemma vsat3_saturating w sg exact f :
  width w ->
  (forall a b c s, urange 128 a -> urange 128 b -> urange 128 c -> urange 128 s ->
     saturates w sg (exact a b c) s (f a b c s)) ->
  saturating w sg exact (vsat3 f).
Proof.
  intros Hw Hf c inst Hc. cbv zeta. pose proof (width_cnt w Hw) as (H0 & _).
  specialize (Hf (VR c (va inst)) (VR c (vb inst)) (VR c (vc inst)) (sat c)
                (VR_range _ _ Hc (va_range _)) (VR_range _ _ Hc (vb_range _))
                (VR_range _ _ Hc (vc_range _)) (wf_sat _ Hc)).
  unfold vsat3. destruct (f _ _ _ _) as [d s]. destruct Hf as (Hd & Hr & Hs). cbn [fst snd] in *.
  assert (wf_ctx (with_sat s c)) as Hc' by (by apply with_sat_wf).
  rewrite VR_set_vr by (done || apply vd_range). split_and!; [|exact Hs|done].
  intros i Hi. rewrite Hd, view_vmake by done. by apply clamp_view.
Qed.

(** A vector is zero when its elements are. *)
Lemma vec_zero w v : width w -> urange 128 v -> v = 0 <-> forall i, 0 <= i < 128 / w -> lane w v i = 0.
Proof.
  intros Hw Hv. split; [intros -> i _; apply lane_0|]. intros H.
  apply (vec_ext w); [done..|]. intros i Hi. by rewrite H, lane_0.
Qed.

Lemma lor_zero a b : 0 <= a -> 0 <= b -> a ||| b = 0 <-> a = 0 /\ b = 0.
Proof. intros. apply Z.lor_eq_0_iff. Qed.

(** The pattern of most instructions: [r] is the clamped result, [p] the
    modular one, and the sticky vector collects [p ^ r].  The exact value is
    near enough to the element's range for the two to differ when it is
    clamped. *)
Lemma sticky_xor w sg exact s p :
  width w -> urange 128 s -> urange 128 p ->
  (forall i, 0 <= i < 128 / w -> lane w p i = wrap w (exact i)) ->
  (forall i, 0 <= i < 128 / w -> - 2 ^ w < exact i - clamp sg w (exact i) < 2 ^ w) ->
  let r := vmake w (fun i => clamp sg w (exact i)) in
  saturates w sg exact s (r, gv_or32 (gv_xor32 p r) s).
Proof.
  intros Hw Hs Hrp Hp Hb r. pose proof (width_cnt w Hw) as (H0 & _).
  assert (urange 128 r) as Hr by (by apply vmake_range).
  unfold saturates, gv_or32, gv_xor32, mm_or, mm_xor. cbn [fst snd].
  split_and!; [done|vrange|]. rewrite Z.lor_eq_0_iff, (and_comm _ (s = 0)). apply and_iff_compat_l.
  split.
  - intros E%Z.lxor_eq i Hi. apply (f_equal (fun v => lane w v i)) in E. unfold r in E.
    rewrite lane_vmake, Hp in E by done. specialize (Hb i Hi).
    destruct (wrap_eq w (exact i)) as [q1 E1]; [lia|].
    destruct (wrap_eq w (clamp sg w (exact i))) as [q2 E2]; [lia|].
    assert (exact i - clamp sg w (exact i) = (q1 - q2) * 2 ^ w) as Ed by lia.
    pose proof (pow2_pos w ltac:(lia)). assert (q1 - q2 = 0) as E0 by nia. rewrite E0 in Ed. lia.
  - intros E. assert (p = r) as ->; [|apply Z.lxor_nilpotent].
    apply (vec_ext w); [done..|]. intros i Hi. unfold r. by rewrite lane_vmake, Hp, E.
Qed.

(** Adding and subtracting elements. *)
Definition add_exact (sg : bool) (w a b i : Z) : Z := view sg w a i + view sg w b i.

Definition sub_exact (sg : bool) (w a b i : Z) : Z := view sg w a i - view sg w b i.

Lemma view_bounds (sg : bool) w v i :
  0 < w -> (if sg then - 2 ^ (w - 1) else 0) <= view sg w v i < (if sg then 2 ^ (w - 1) else 2 ^ w).
Proof. intros. destruct sg; [apply slane_range | apply lane_range]; lia. Qed.

Lemma wrap_view sg w v i : 0 < w -> wrap w (view sg w v i) = lane w v i.
Proof. intros. destruct sg; [by apply wrap_slane|]. apply wrap_id, lane_range. lia. Qed.

Lemma wrap_add_view sg w a b i :
  0 < w -> wrap w (lane w a i + lane w b i) = wrap w (add_exact sg w a b i).
Proof.
  intros. unfold add_exact. rewrite <- !(wrap_view sg w) by lia. by rewrite wrap_add_l, wrap_add_r by lia.
Qed.

Lemma wrap_sub_view sg w a b i :
  0 < w -> wrap w (lane w a i - lane w b i) = wrap w (sub_exact sg w a b i).
Proof.
  intros. unfold sub_exact. rewrite <- !(wrap_view sg w) by lia. by rewrite wrap_sub_l, wrap_sub_r by lia.
Qed.

Lemma add_exact_near sg w a b i :
  0 < w -> - 2 ^ w < add_exact sg w a b i - clamp sg w (add_exact sg w a b i) < 2 ^ w.
Proof.
  intros. unfold add_exact. pose proof (view_bounds sg w a i ltac:(lia)). pose proof (view_bounds sg w b i ltac:(lia)).
  assert (2 ^ w = 2 * 2 ^ (w - 1)) by (rewrite <- Z.pow_succ_r by lia; f_equal; lia).
  pose proof (pow2_pos (w - 1) ltac:(lia)). destruct sg; cbn [clamp]; unfold clamp_s, clamp_u; lia.
Qed.

Lemma sub_exact_near sg w a b i :
  0 < w -> - 2 ^ w < sub_exact sg w a b i - clamp sg w (sub_exact sg w a b i) < 2 ^ w.
Proof.
  intros. unfold sub_exact. pose proof (view_bounds sg w a i ltac:(lia)). pose proof (view_bounds sg w b i ltac:(lia)).
  assert (2 ^ w = 2 * 2 ^ (w - 1)) by (rewrite <- Z.pow_succ_r by lia; f_equal; lia).
  pose proof (pow2_pos (w - 1) ltac:(lia)). destruct sg; cbn [clamp]; unfold clamp_s, clamp_u; lia.
Qed.

(** The two shapes of the family, from the equation of the saturating
    operation. *)
Lemma add_family w sg F r :
  F = vsat2 (fun a b s => let r := r a b in (r, gv_or32 (gv_xor32 (mm_add_epi w a b) r) s)) ->
  width w ->
  (forall a b, urange 128 a -> urange 128 b -> r a b = vmake w (fun i => clamp sg w (add_exact sg w a b i))) ->
  saturating w sg (fun a b _ => add_exact sg w a b) F.
Proof.
  intros -> Hw Hr. pose proof (width_cnt w Hw) as (H0 & _).
  apply vsat2_saturating; [done|]. intros a b s Ha Hb Hs. cbv zeta. rewrite Hr by done.
  apply sticky_xor; [done|done|by apply vmake_range| |].
  - intros i Hi. unfold mm_add_epi. rewrite lane_vzip by done. by apply wrap_add_view.
  - intros. by apply add_exact_near.
Qed.

Lemma sub_family w sg F r :
  F = vsat2 (fun a b s => let r := r a b in (r, gv_or32 (gv_xor32 (mm_sub_epi w a b) r) s)) ->
  width w ->
  (forall a b, urange 128 a -> urange 128 b -> r a b = vmake w (fun i => clamp sg w (sub_exact sg w a b i))) ->
  saturating w sg (fun a b _ => sub_exact sg w a b) F.
Proof.
  intros -> Hw Hr. pose proof (width_cnt w Hw) as (H0 & _).
  apply vsat2_saturating; [done|]. intros a b s Ha Hb Hs. cbv zeta. rewrite Hr by done.
  apply sticky_xor; [done|done|by apply vmake_range| |].
  - intros i Hi. unfold mm_sub_epi. rewrite lane_vzip by done. by apply wrap_sub_view.
  - intros. by apply sub_exact_near.
Qed.

(** C31: the saturating vector additions and subtractions of bytes, halfwords
    and words: every element of the result is the exact sum or difference
    clamped to the element's signed or unsigned range, the sticky saturation
    vector becomes non-zero exactly when some element was clamped and is
    otherwise kept, and nothing else of the context changes; for every
    instruction set of the build. *)
Theorem vec_addsub_saturates (m : isa) :
  saturating 8 true (fun a b _ => add_exact true 8 a b) VADDSBS /\
  saturating 16 true (fun a b _ => add_exact true 16 a b) VADDSHS /\
  saturating 32 true (fun a b _ => add_exact true 32 a b) VADDSWS /\
  saturating 8 false (fun a b _ => add_exact false 8 a b) VADDUBS /\
  saturating 16 false (fun a b _ => add_exact false 16 a b) VADDUHS /\
  saturating 32 false (fun a b _ => add_exact false 32 a b) (VADDUWS m) /\
  saturating 8 true (fun a b _ => sub_exact true 8 a b) VSUBSBS /\
  saturating 16 true (fun a b _ => sub_exact true 16 a b) VSUBSHS /\
  saturating 32 true (fun a b _ => sub_exact true 32 a b) VSUBSWS /\
  saturating 8 false (fun a b _ => sub_exact false 8 a b) VSUBUBS /\
  saturating 16 false (fun a b _ => sub_exact false 16 a b) VSUBUHS /\
  saturating 32 false (fun a b _ => sub_exact false 32 a b) (VSUBUWS m).
Proof.
  split_and!;
    (first [eapply add_family | eapply sub_family]; [reflexivity|auto with lanes|intros a b Ha Hb]);
    first [reflexivity | by rewrite gv_adds_s32_eq | by rewrite gv_subs_s32_eq
          | by rewrite gv_addus_u32_eq | by rewrite gv_subus_u32_eq].
Qed.

(** [vaddsbs v4, v1, v2]: 127 + 1 in the last byte saturates. *)
Lemma vec_addsub_saturates_witness :
  let c := vec_ctx 0x7f 1 0 in
  view true 8 (VR (VADDSBS c 0x10811300) 4) 0 = 127 /\ sat (VADDSBS c 0x10811300) <> 0.
Proof.
  intros c. assert (wf_ctx c) as Hc by (apply vec_ctx_wf; unfold urange; lia).
  destruct (vec_addsub_saturates SSE2) as [H _]. destruct (H c 0x10811300 Hc) as (E & S & _). split.
  - etransitivity; [apply (E 0 ltac:(split; reflexivity || lia))|vm_compute; reflexivity].
  - intros E0. apply S in E0 as [_ E0]. specialize (E0 0 ltac:(split; reflexivity || lia)). vm_compute in E0. discriminate E0.
Defined.

(** ** Multiply-add with saturation *)

(** The body VMHADDSHS and VMHRADDSHS share after the product [m]. *)
Definition mhadd (m a b c sat : Z) : Z * Z :=
  let f := gv_gts16 (gv_bcst16 0) c in
  let x := gv_eq16 (gv_maxs16 a b) (gv_bcst16 0x8000) in
  let r := gv_sub16 (gv_adds_s16 m c) (gv_and32 x f) in
  let s := gv_add16 m c in
  (r, gv_or32 (gv_or32 (gv_andn32 f x) (gv_andn32 x (gv_xor32 s r))) sat).

(** One element: [q] is the product, [z] the addend; the product leaves the
    halfword range only upwards and by one. *)
Section MhaddElement.
Context (q z : Z).
Hypothesis Hq : -2 ^ 15 <= q <= 2 ^ 15.
Hypothesis Hz : srange 16 z.
Let x : Z := u16 (mask (q =? 2 ^ 15)).
Let f : Z := u16 (mask (z <? 0)).
Let r : Z := u16 (u16 (clamp_s 16 (clamp_s 16 q + z)) - (x &&& f)).

Lemma mhadd_r : r = u16 (clamp_s 16 (q + z)).
Proof.
  unfold r, x, f. rewrite land_mask by (lia || lrange). unfold srange in Hz.
  destruct (Z.eqb_spec q (2 ^ 15)), (Z.ltb_spec z 0); cbn [mask]; mlia.
Qed.

Lemma mhadd_sticky :
  Z.ldiff x f ||| Z.ldiff (u16 (clamp_s 16 q + z) ^^^ r) x = 0 <-> clamp_s 16 (q + z) = q + z.
Proof.
  rewrite mhadd_r, Z.lor_eq_0_iff. unfold x, f. rewrite !ldiff_mask by (lia || lrange).
  unfold srange in Hz. assert (forall u v : Z, u ^^^ v = 0 <-> u = v) as Hx.
  { intros. split; [apply Z.lxor_eq|intros ->; apply Z.lxor_nilpotent]. }
  destruct (Z.eqb_spec q (2 ^ 15)), (Z.ltb_spec z 0); cbn [mask]; rewrite ?Hx; mlia.
Qed.

End MhaddElement.

(** The sticky vector collects a vector whose elements are zero where [P]
    holds. *)
Lemma sticky_or w (P : Z -> Prop) v s :
  width w -> urange 128 v -> (forall i, 0 <= i < 128 / w -> lane w v i = 0 <-> P i) ->
  gv_or32 v s = 0 <-> s = 0 /\ forall i, 0 <= i < 128 / w -> P i.
Proof.
  intros Hw Hv H. unfold gv_or32, mm_or. rewrite Z.lor_eq_0_iff, (vec_zero w), (and_comm _ (s = 0)) by done.
  split; intros [H1 H2]; (split; [done|]); intros i Hi; destruct (H i Hi); auto.
Qed.

(** A product of halfwords that leaves their range only for two minimal
    ones. *)
Definition mh_product (q : Z -> Z -> Z) : Prop :=
  forall x y, srange 16 x -> srange 16 y ->
  -2 ^ 15 <= q x y <= 2 ^ 15 /\ (q x y = 2 ^ 15 <-> Z.max x y = -2 ^ 15).

Section Mhadd.
Context (q : Z -> Z -> Z) (a b c s : Z).
Hypothesis Hq : mh_product q.
Let exact (i : Z) : Z := q (slane 16 a i) (slane 16 b i).
Let m : Z := vzips 16 (fun x y => clamp_s 16 (q x y)) a b.
Let x : Z := gv_eq16 (gv_maxs16 a b) (gv_bcst16 0x8000).
Let f : Z := gv_gts16 (gv_bcst16 0) c.
Let r : Z := gv_sub16 (gv_adds_s16 m c) (gv_and32 x f).

Lemma exact_product i : -2 ^ 15 <= exact i <= 2 ^ 15 /\ (exact i = 2 ^ 15 <-> Z.max (slane 16 a i) (slane 16 b i) = -2 ^ 15).
Proof. apply Hq; apply slane_range; lia. Qed.

Lemma lane_mh_x i : 0 <= i < 128 / 16 -> lane 16 x i = u16 (mask (exact i =? 2 ^ 15)).
Proof.
  intros Hi. unfold x, gv_eq16, gv_maxs16, mm_cmpeq_epi, mm_max_epi, gv_bcst16, mm_set1_epi. lane_push.
  rewrite <- !slane_lane by lia. do 2 f_equal.
  pose proof (slane_range 16 a i ltac:(lia)) as H1. pose proof (slane_range 16 b i ltac:(lia)) as H2.
  destruct (exact_product i) as [_ E]. unfold srange in *. generalize dependent (exact i).
  intros p E. change (u16 0x8000) with 32768. zbool; try done; exfalso; mlia.
Qed.

Lemma lane_mh_f i : 0 <= i < 128 / 16 -> lane 16 f i = u16 (mask (slane 16 c i <? 0)).
Proof.
  intros Hi. unfold f, gv_gts16, mm_cmpgt_epi, gv_bcst16, mm_set1_epi. lane_push. by rewrite <- slane_lane by lia.
Qed.

Lemma slane_mh_m i : 0 <= i < 128 / 16 -> slane 16 m i = clamp_s 16 (exact i).
Proof.
  intros Hi. unfold m, vzips. rewrite slane_vmake by auto with lanes. apply sext_id; [lia|].
  unfold srange, clamp_s. lia.
Qed.

Lemma lane_mh_r i :
  0 <= i < 128 / 16 ->
  lane 16 r i = u16 (u16 (clamp_s 16 (clamp_s 16 (exact i) + slane 16 c i)) - (lane 16 x i &&& lane 16 f i)).
Proof.
  intros Hi. unfold r, gv_adds_s16, mm_adds_epi, gv_sub16, mm_sub_epi, gv_and32, mm_and.
  rewrite lane_vzip, lane_land, lane_vzips by (done || lia || auto with lanes).
  by rewrite <- !slane_lane, slane_mh_m by (done || lia).
Qed.

Lemma mhadd_saturates :
  urange 128 a -> urange 128 b -> urange 128 c -> urange 128 s ->
  saturates 16 true (fun i => exact i + slane 16 c i) s (mhadd m a b c s).
Proof.
  intros Ha Hb Hc Hs. unfold mhadd. cbv zeta. fold x f r.
  assert (urange 128 x) as Rx by (unfold x; autounfold with simd; unfold gv_eq16, mm_cmpeq_epi; vrange).
  assert (urange 128 f) as Rf by (unfold f; autounfold with simd; unfold gv_gts16, mm_cmpgt_epi; vrange).
  assert (urange 128 r) as Rr by (apply vmake_range; auto with lanes).
  assert (forall i, srange 16 (slane 16 c i)) as Hz by (intros; apply slane_range; lia).
  unfold saturates. cbn [fst snd]. split_and!.
  - apply (vec_ext 16); [auto with lanes|done|apply vmake_range; auto with lanes|].
    intros i Hi. rewrite lane_vmake, lane_mh_r, lane_mh_x, lane_mh_f by (done || auto with lanes).
    apply mhadd_r; [apply exact_product|apply Hz].
  - unfold gv_or32, gv_andn32, gv_xor32, mm_or, mm_andnot, mm_xor. vrange.
  - apply sticky_or; [auto with lanes|unfold gv_or32, gv_andn32, gv_xor32, mm_or, mm_andnot, mm_xor; vrange|].
    intros i Hi. unfold gv_or32, gv_andn32, gv_xor32, mm_or, mm_andnot, mm_xor, gv_add16, mm_add_epi.
    rewrite lane_lor, !lane_ldiff, lane_lxor, lane_vzip, lane_mh_r, lane_mh_x, lane_mh_f
      by (done || lia || auto with lanes).
    rewrite <- (wrap_slane 16 m), <- (wrap_slane 16 c), slane_mh_m, wrap_add_l, wrap_add_r by (done || lia).
    apply mhadd_sticky; [apply exact_product|apply Hz].
Qed.

End Mhadd.

Lemma mh_product_hd : mh_product (fun x y => (x * y * 2) >>> 16).
Proof.
  intros x y Hx Hy. pose proof (srange_mul x y Hx Hy) as Hp. unfold srange in *.
  assert (x * y = 2 ^ 30 <-> Z.max x y = -2 ^ 15) as Hmax by (cbn in *; nia).
  assert (x * y = 2 ^ 30 \/ x * y <= 2 ^ 30 - 2 ^ 15) as Hgap by (cbn in *; nia).
  rewrite <- Hmax, Z.shiftr_div_pow2 by lia. clear Hmax Hx Hy. generalize dependent (x * y). intros p Hp Hg. mlia.
Qed.

Lemma mh_product_rhd : mh_product (fun x y => (x * y * 2 + 0x8000) >>> 16).
Proof.
  intros x y Hx Hy. pose proof (srange_mul x y Hx Hy) as Hp. unfold srange in *.
  assert (x * y = 2 ^ 30 <-> Z.max x y = -2 ^ 15) as Hmax by (cbn in *; nia).
  assert (x * y = 2 ^ 30 \/ x * y <= 2 ^ 30 - 2 ^ 15) as Hgap by (cbn in *; nia).
  rewrite <- Hmax, Z.shiftr_div_pow2 by lia. clear Hmax Hx Hy. generalize dependent (x * y). intros p Hp Hg. mlia.
Qed.

(** ** Sums across with saturation *)

Definition msum_exact (a b c i : Z) : Z := slane 32 c i + sum2 (fun j => slane 16 a j * slane 16 b j) i.

Lemma sum2_bounds a b i : - 2 ^ 31 <= sum2 (fun j => slane 16 a j * slane 16 b j) i <= 2 ^ 31.
Proof.
  unfold sum2.
  pose proof (fun j => srange_mul _ _ (slane_range 16 a j ltac:(lia)) (slane_range 16 b j ltac:(lia))) as Hp.
  pose proof (Hp (2 * i)). pose proof (Hp (2 * i + 1)). lia.
Qed.

Lemma wrap_word_add v i x : 0 <= i < 4 -> u32 (lane 32 v i + x) = u32 (slane 32 v i + x).
Proof. intros. rewrite <- (wrap_slane 32) by lia. by apply wrap_add_l. Qed.

Lemma msum_saturates m a b c s :
  urange 128 c -> urange 128 s ->
  saturates 32 true (msum_exact a b c) s
    (let r := gv_dots_s16x2 m a b c in (r, gv_or32 (gv_xor32 (gv_dots16x2 a b c) r) s)).
Proof.
  intros Hc Hs. cbv zeta. rewrite gv_dots_s16x2_eq, gv_dots16x2_eq by done.
  apply sticky_xor; [auto with lanes|done|apply vmake_range; auto with lanes| |].
  - intros i Hi. rewrite lane_vmake by auto with lanes. cnts. by apply wrap_word_add.
  - intros i Hi. unfold msum_exact. pose proof (sum2_bounds a b i). pose proof (slane_range 32 c i ltac:(lia)).
    unfold srange, clamp, clamp_s in *. lia.
Qed.

Lemma vmake_same w f g : width w -> (forall i, 0 <= i < 128 / w -> f i = g i) -> vmake w f = vmake w g.
Proof. intros Hw H. apply vmake_ext; [done|]. intros i Hi. by rewrite H. Qed.

Definition sum4s_exact (a b i : Z) : Z := slane 32 b i + sum4 (slane 8 a) i.

Lemma sum4_slane_bounds a i : -512 <= sum4 (slane 8 a) i <= 508.
Proof.
  unfold sum4. pose proof (fun j => slane_range 8 a j ltac:(lia)) as H. unfold srange in H. cbn in H.
  pose proof (H (4 * i)). pose proof (H (4 * i + 1)). pose proof (H (4 * i + 2)). pose proof (H (4 * i + 3)). lia.
Qed.

Lemma sum4sbs_saturates m a b s :
  urange 128 b -> urange 128 s ->
  saturates 32 true (sum4s_exact a b) s
    (let r := gv_dots_u8s8x4 (gv_bcst8 1) a b in (r, gv_or32 (gv_xor32 (gv_hadds8x4 m a b) r) s)).
Proof.
  intros Hb Hs. cbv zeta. rewrite gv_dots_u8s8x4_eq, gv_hadds8x4_eq by done.
  rewrite (vmake_same 32 (fun i => clamp_s 32 (slane 32 b i + sum4 (fun j => lane 8 (gv_bcst8 1) j * slane 8 a j) i))
             (fun i => clamp true 32 (sum4s_exact a b i))).
  - apply sticky_xor; [auto with lanes|done|apply vmake_range; auto with lanes| |].
    + intros i Hi. rewrite lane_vmake by auto with lanes. cnts. by apply wrap_word_add.
    + intros i Hi. unfold sum4s_exact. pose proof (sum4_slane_bounds a i). pose proof (slane_range 32 b i ltac:(lia)).
      unfold srange, clamp, clamp_s in *. lia.
  - auto with lanes.
  - intros i Hi. cnts. cbn [clamp]. unfold sum4s_exact, sum4, gv_bcst8, mm_set1_epi.
    rewrite !lane_vmake by (cnts; lia || auto with lanes). change (u8 1) with 1. f_equal. lia.
Qed.

Definition sum4h_exact (a b i : Z) : Z := slane 32 b i + sum2 (slane 16 a) i.

Lemma sum4shs_saturates m a b s :
  urange 128 b -> urange 128 s ->
  saturates 32 true (sum4h_exact a b) s
    (let r := gv_dots_s16x2 m a (gv_bcst16 1) b in (r, gv_or32 (gv_xor32 (gv_hadds16x2 a b) r) s)).
Proof.
  intros Hb Hs. cbv zeta. rewrite gv_dots_s16x2_eq, gv_hadds16x2_eq by done.
  rewrite (vmake_same 32 (fun i => clamp_s 32 (slane 32 b i + sum2 (fun j => slane 16 a j * slane 16 (gv_bcst16 1) j) i))
             (fun i => clamp true 32 (sum4h_exact a b i))).
  - apply sticky_xor; [auto with lanes|done|apply vmake_range; auto with lanes| |].
    + intros i Hi. rewrite lane_vmake by auto with lanes. cnts. by apply wrap_word_add.
    + intros i Hi. unfold sum4h_exact, sum2. pose proof (fun j => slane_range 16 a j ltac:(lia)) as H.
      pose proof (H (2 * i)). pose proof (H (2 * i + 1)). pose proof (slane_range 32 b i ltac:(lia)).
      unfold srange, clamp, clamp_s in *. lia.
  - auto with lanes.
  - intros i Hi. cnts. cbn [clamp]. unfold sum4h_exact, sum2, gv_bcst16.
    rewrite !slane_set1 by (cnts; lia || auto with lanes). change (s16 1) with 1. f_equal. lia.
Qed.

Definition sum4u_exact (a b i : Z) : Z := sum4 (lane 8 a) i + lane 32 b i.

Lemma sum4ubs_saturates m a b s :
  urange 128 b -> urange 128 s ->
  saturates 32 false (sum4u_exact a b) s
    (let x := gv_haddu8x4 m a in
     let r := gv_addus_u32 m x b in (r, gv_or32 (gv_xor32 (gv_add32 x b) r) s)).
Proof.
  intros Hb Hs. cbv zeta. rewrite gv_haddu8x4_eq. set (x := vmake 32 _).
  assert (urange 128 x) as Rx by (apply vmake_range; auto with lanes).
  pose proof (fun j => lane_range 8 a j ltac:(lia)) as H. unfold urange in H. cbn in H.
  assert (forall i, 0 <= sum4 (lane 8 a) i <= 1020) as H4.
  { intros i. unfold sum4. pose proof (H (4 * i)). pose proof (H (4 * i + 1)). pose proof (H (4 * i + 2)).
    pose proof (H (4 * i + 3)). lia. }
  assert (forall i, 0 <= i < 128 / 32 -> lane 32 x i = sum4 (lane 8 a) i) as Hx.
  { intros i Hi. unfold x. rewrite lane_vmake by auto with lanes. apply wrap_id. specialize (H4 i). unfold urange. lia. }
  clearbody x. rewrite gv_addus_u32_eq by done. unfold vzip.
  rewrite (vmake_same 32 (fun i => clamp_u 32 (lane 32 x i + lane 32 b i)) (fun i => clamp false 32 (sum4u_exact a b i))).
  - apply sticky_xor; [auto with lanes|done|apply vmake_range; auto with lanes| |].
    + intros i Hi. unfold gv_add32, mm_add_epi. rewrite lane_vzip by auto with lanes. by rewrite Hx.
    + intros i Hi. unfold sum4u_exact. specialize (H4 i). pose proof (lane_range 32 b i ltac:(lia)).
      unfold urange, clamp, clamp_u in *. lia.
  - auto with lanes.
  - intros i Hi. by rewrite Hx.
Qed.

(** The sum across in the rightmost word, the others zero. *)
Definition sumsws_exact (a b i : Z) : Z :=
  if i =? 0 then slane 32 b 0 + slane 32 a 0 + slane 32 a 1 + slane 32 a 2 + slane 32 a 3 else 0.

(** The sums of word pairs in the right words of the doublewords. *)
Definition sum2sws_exact (a b i : Z) : Z :=
  if i mod 2 =? 0 then slane 32 a i + slane 32 a (i + 1) + slane 32 b i else 0.

Lemma vmake_first x f :
  urange 32 x -> (forall i, 0 < i < 4 -> u32 (f i) = 0) -> u32 (f 0) = x -> vmake 32 f = x.
Proof.
  intros Hx Hf H0. apply (vec_ext 32); [auto with lanes|apply vmake_range; auto with lanes| |].
  - by apply (urange_mono 32); [lia|].
  - intros i Hi. rewrite lane_vmake by auto with lanes. cnts. unfold lane.
    destruct (Z.eq_dec i 0) as [->|Hn].
    + rewrite H0, Z.shiftr_0_r. symmetry. by apply wrap_id.
    + rewrite Hf by lia. rewrite Z.shiftr_div_pow2 by lia. unfold urange in Hx.
      rewrite Z.div_small; [done|]. pose proof (Z.pow_le_mono_r 2 32 (32 * i)). lia.
Qed.

Lemma sumsws_saturates a b s :
  urange 128 s ->
  saturates 32 true (sumsws_exact a b) s
    (let sum := slane 32 b 0 + slane 32 a 0 + slane 32 a 1 + slane 32 a 2 + slane 32 a 3 in
     let sat1 := Z.ldiff s 0xff ||| 1 in
     if INT32_MAX <? sum then (u32 INT32_MAX, sat1)
     else if sum <? INT32_MIN then (u32 INT32_MIN, sat1)
     else (u32 sum, s)).
Proof.
  intros Hs. cbv zeta. set (sum := slane 32 b 0 + _ + _ + _ + _).
  assert (Z.ldiff s 0xff ||| 1 <> 0) as Hne.
  { intros E. apply (f_equal (fun v => Z.testbit v 0)) in E. by rewrite Z.lor_spec, orb_true_r in E. }
  assert (urange 128 (Z.ldiff s 0xff ||| 1)) as Hr by (apply lor_urange; [lia|apply ldiff_urange; done || lia|done]).
  assert ((forall i, 0 <= i < 128 / 32 -> clamp true 32 (sumsws_exact a b i) = sumsws_exact a b i)
          <-> clamp_s 32 sum = sum) as Hall.
  { cnts. split; [intros H; exact (H 0 ltac:(lia))|]. intros E i Hi. unfold sumsws_exact. fold sum.
    by destruct (i =? 0). }
  assert (forall x, urange 32 x -> x = u32 (clamp_s 32 sum) -> x = vmake 32 (fun i => clamp true 32 (sumsws_exact a b i))) as Hv.
  { intros x Hx E. symmetry. apply vmake_first; [done| |by rewrite E]. intros i Hi. unfold sumsws_exact.
    destruct (Z.eqb_spec i 0); [lia|done]. }
  unfold saturates. rewrite Hall. clearbody sum. unfold INT32_MAX, INT32_MIN in *.
  destruct (Z.ltb_spec (2 ^ 31 - 1) sum); [|destruct (Z.ltb_spec sum (- 2 ^ 31))]; cbn [fst snd]; split_and!;
    first [apply Hv; [apply wrap_range; lia|unfold clamp_s; f_equal; lia] | assumption | unfold clamp_s in *; lia].
Qed.

Lemma sum2sws_saturates a b s :
  urange 128 s ->
  saturates 32 true (sum2sws_exact a b) s
    (let y := vmake 64 (fun i => slane 32 a (2 * i) + slane 32 a (2 * i + 1) + slane 32 b (2 * i)) in
     let r := vmaps 64 sat_word y in
     (r, gv_or32 (gv_shr64 (gv_add64 y (gv_bcst64 0x80000000)) 32) s)).
Proof.
  intros Hs. cbv zeta. set (e i := slane 32 a (2 * i) + slane 32 a (2 * i + 1) + slane 32 b (2 * i)).
  assert (forall i, - 3 * 2 ^ 31 <= e i < 3 * 2 ^ 31) as He.
  { intros i. unfold e. pose proof (fun v j => slane_range 32 v j ltac:(lia)) as H. unfold srange in H. cbn in H.
    pose proof (H a (2 * i)). pose proof (H a (2 * i + 1)). pose proof (H b (2 * i)). lia. }
  assert (forall i, sum2sws_exact a b (2 * i) = e i /\ sum2sws_exact a b (2 * i + 1) = 0) as Hx.
  { intros i. unfold sum2sws_exact.
    replace ((2 * i) mod 2) with 0 by (Z.to_euclidean_division_equations; lia).
    by replace ((2 * i + 1) mod 2) with 1 by (Z.to_euclidean_division_equations; lia). }
  unfold saturates. cbn [fst snd]. split_and!.
  - apply (vec_ext 64); [auto with lanes|apply vmake_range; auto with lanes..|]. intros j Hj. cnts.
    unfold vmaps. rewrite lane_vmake, slane_vmake by (cnts; lia || auto with lanes).
    pose proof (lane_halves 32 (vmake 32 (fun i => clamp true 32 (sum2sws_exact a b i))) j) as E.
    change (2 * 32) with 64 in E. rewrite E, !lane_vmake by (cnts; lia || auto with lanes).
    destruct (Hx j) as [-> ->]. cbn [clamp]. specialize (He j). change (u32 (clamp_s 32 0)) with 0.
    rewrite (sext_id 64 (e j)) by (unfold srange; lia). clear -He. generalize dependent (e j). intros v Hv.
    unfold sat_word, INT32_MAX, INT32_MIN. mlia.
  - apply lor_urange; [lia|apply shr64_range|done].
  - set (n := gv_shr64 _ _).
    assert (forall j, 0 <= j < 2 -> lane 64 n j = 0 <-> clamp_s 32 (e j) = e j) as Hn.
    { intros j Hj. unfold n, gv_shr64, mm_srli_epi, gv_add64, mm_add_epi, gv_bcst64, mm_set1_epi.
      change (64 <=? 32) with false. cbv iota. rewrite lane_vmap, lane_vzip, !lane_vmake by (cnts; lia || auto with lanes).
      specialize (He j). clear -He. generalize dependent (e j). intros v Hv. rewrite Z.shiftr_div_pow2 by lia.
      eval_consts. mlia. }
    rewrite (sticky_or 64 (fun j => clamp_s 32 (e j) = e j)) by (auto with lanes || apply shr64_range || (intros; cnts; auto)).
    apply and_iff_compat_l. cnts. split; intros H j Hj.
    + destruct (Hx (j / 2)) as [E0 E1]. pose proof (Z.div_mod j 2 ltac:(lia)) as Hd.
      pose proof (Z.mod_pos_bound j 2 ltac:(lia)).
      assert (0 <= j / 2 < 2) as Hr by (Z.to_euclidean_division_equations; lia). specialize (H _ Hr).
      assert (j = 2 * (j / 2) \/ j = 2 * (j / 2) + 1) as [-> | ->] by lia; [rewrite E0 | rewrite E1]; cbn [clamp]; done.
    + destruct (Hx j) as [E0 _]. rewrite <- E0. apply (H (2 * j)). lia.
Qed.

(** The saturating multiply-add and sum-across instructions compute the
    exact integer result - rounded or truncated halfword products plus an
    addend, sums of two halfword products, sums of four bytes, of two
    halfwords, of two or of four words - clamped to the element, and make the
    sticky vector non-zero exactly when an element was clamped. *)
Theorem vec_sum_saturates (m : isa) :
  saturating 16 true (fun a b c i => ((slane 16 a i * slane 16 b i * 2) >>> 16) + slane 16 c i) VMHADDSHS /\
  saturating 16 true (fun a b c i => ((slane 16 a i * slane 16 b i * 2 + 0x8000) >>> 16) + slane 16 c i) VMHRADDSHS /\
  saturating 32 true msum_exact (VMSUMSHS m) /\
  saturating 32 true (fun a b _ => sum4s_exact a b) (VSUM4SBS m) /\
  saturating 32 true (fun a b _ => sum4h_exact a b) (VSUM4SHS m) /\
  saturating 32 false (fun a b _ => sum4u_exact a b) (VSUM4UBS m) /\
  saturating 32 true (fun a b _ => sumsws_exact a b) VSUMSWS /\
  saturating 32 true (fun a b _ => sum2sws_exact a b) VSUM2SWS.
Proof.
  split_and!; (apply vsat3_saturating || apply vsat2_saturating); try (by auto with lanes).
  - intros a b c s Ha Hb Hc Hs. pose proof (mhadd_saturates _ a b c s mh_product_hd Ha Hb Hc Hs) as H.
    rewrite <- gv_muls_hds16_eq in H. exact H.
  - intros a b c s Ha Hb Hc Hs. pose proof (mhadd_saturates _ a b c s mh_product_rhd Ha Hb Hc Hs) as H.
    rewrite <- gv_rmuls_hds16_eq in H. exact H.
  - intros. by apply msum_saturates.
  - intros. by apply sum4sbs_saturates.
  - intros. by apply sum4shs_saturates.
  - intros. by apply sum4ubs_saturates.
  - intros. by apply sumsws_saturates.
  - intros. by apply sum2sws_saturates.
Qed.

(** [vmsumshs v4, v1, v2, v3] on minimal halfwords: 2^31 saturates. *)
Lemma vec_sum_saturates_witness :
  let c := vec_ctx 0x80008000 0x80008000 0 in
  view true 32 (VR (VMSUMSHS SSE2 c 0x108110e9) 4) 0 = 2 ^ 31 - 1 /\ sat (VMSUMSHS SSE2 c 0x108110e9) <> 0.
Proof.
  intros c. assert (wf_ctx c) as Hc by (apply vec_ctx_wf; unfold urange; lia).
  destruct (vec_sum_saturates SSE2) as (_ & _ & H & _). destruct (H c 0x108110e9 Hc) as (E & S & _). split.
  - etransitivity; [apply (E 0 ltac:(split; reflexivity || lia))|vm_compute; reflexivity].
  - intros E0. apply S in E0 as [_ E0]. specialize (E0 0 ltac:(split; reflexivity || lia)). vm_compute in E0. discriminate E0.
Defined.

(** ** Packing with saturation *)

Lemma elem2_all w e (Q : Z -> Prop) lo hi :
  w = 16 \/ w = 32 ->
  (forall i, 0 <= i < 128 / (w / 2) -> Q (elem2 e w lo hi i)) <->
  (forall j, 0 <= j < 128 / w -> Q (e w lo j) /\ Q (e w hi j)).
Proof.
  intros Hw. assert (128 / (w / 2) = 2 * (128 / w)) as He by (destruct Hw as [-> | ->]; reflexivity).
  rewrite He. unfold elem2. set (n := 128 / w) in *. split.
  - intros H j Hj. pose proof (H j ltac:(lia)) as H1. pose proof (H (n + j) ltac:(lia)) as H2.
    destruct (Z.ltb_spec j n); [|lia]. destruct (Z.ltb_spec (n + j) n); [lia|].
    by replace (n + j - n) with j in H2 by lia.
  - intros H i Hi. destruct (Z.ltb_spec i n); [apply (H i); lia | apply (H (i - n)); lia].
Qed.

Lemma shr_or_zero w k x y :
  0 <= k <= w -> urange w x -> urange w y ->
  wrap w ((x ||| y) >>> k) = 0 <-> x < 2 ^ k /\ y < 2 ^ k.
Proof.
  intros Hk Hx Hy. assert (urange w (x ||| y)) as Hr by (by apply lor_urange; [lia|..]).
  rewrite wrap_id by (apply shiftr_urange; done || lia).
  rewrite Z.shiftr_lor, Z.lor_eq_0_iff, !Z.shiftr_div_pow2 by lia.
  unfold urange in *. pose proof (pow2_pos k ltac:(lia)). rewrite !Z.div_small_iff by lia. lia.
Qed.

(** A pack of two vectors by [clamp], with a sticky vector that flags the
    elements [f] maps out of range. *)
Lemma pack_saturates w sg e f a b s :
  (w = 16 \/ w = 32) -> urange 128 a -> urange 128 b -> urange 128 s ->
  (forall v i, 0 <= i < 128 / w -> urange 128 v -> urange w (lane w (f v) i) /\
     (lane w (f v) i < 2 ^ (w / 2) <-> clamp sg (w / 2) (e w v i) = e w v i)) ->
  (forall v, urange 128 v -> urange 128 (f v)) ->
  saturates (w / 2) sg (elem2 e w b a) s
    (vpack w e (clamp sg (w / 2)) b a, gv_or32 (mm_srli_epi w (v_or (f a) (f b)) (w / 2)) s).
Proof.
  intros Hw Ha Hb Hs Hf Hr.
  assert (width w /\ width (w / 2) /\ (w <=? w / 2) = false /\ 0 <= w / 2 <= w) as (Hw1 & Hw2 & Hle & Hk).
  { destruct Hw as [-> | ->]; split_and!; auto with lanes; done. }
  unfold saturates. cbn [fst snd]. split_and!; [done| |].
  - apply lor_urange; [lia|by apply vmake_range|done].
  - rewrite (sticky_or w (fun j => clamp sg (w / 2) (e w b j) = e w b j /\ clamp sg (w / 2) (e w a j) = e w a j)).
    + apply and_iff_compat_l. symmetry. exact (elem2_all w e (fun x => clamp sg (w / 2) x = x) b a Hw).
    + done.
    + by apply vmake_range.
    + intros j Hj. unfold mm_srli_epi. rewrite lane_vmap by done. rewrite Hle. unfold v_or, mm_or.
      rewrite lane_lor by lia. destruct (Hf a j Hj Ha) as [Ra Ea]. destruct (Hf b j Hj Hb) as [Rb Eb].
      rewrite shr_or_zero by done. rewrite Ea, Eb. tauto.
Qed.

Lemma vpack_clamp_u w lo hi :
  0 < w -> vpack w lane (Z.min (2 ^ (w / 2) - 1)) lo hi = vpack w lane (clamp false (w / 2)) lo hi.
Proof.
  intros Hw. unfold vpack, vmake. f_equal. apply list_fmap_ext. intros k i _. f_equal. cbn [clamp].
  assert (0 <= elem2 lane w lo hi i) as Hn.
  { unfold elem2. destruct (_ <? _); apply lane_range; lia. }
  unfold clamp_u. pose proof (pow2_pos (w / 2) ltac:(apply Z.div_pos; lia)). lia.
Qed.

(** The signed packs of signed halfwords and words. *)
Lemma pkshss_saturates a b s :
  urange 128 a -> urange 128 b -> urange 128 s ->
  saturates 8 true (elem2 slane 16 b a) s
    (gv_packss_s16 b a,
     gv_or32 (gv_shr16 (v_or (gv_add16 a (gv_bcst16 0x80)) (gv_add16 b (gv_bcst16 0x80))) 8) s).
Proof.
  intros Ha Hb Hs.
  apply (pack_saturates 16 true slane (fun v => gv_add16 v (gv_bcst16 0x80))); auto.
  - intros v i Hi Hv. unfold gv_add16, mm_add_epi, gv_bcst16, mm_set1_epi. rewrite slane_lane by lia. lane_push.
    name_lane 16 v i x. split; [lrange|]. cbn [clamp]. change (16 / 2) with 8. eval_consts. mlia.
  - intros. apply vmake_range. auto with lanes.
Qed.

Lemma pkswss_saturates a b s :
  urange 128 a -> urange 128 b -> urange 128 s ->
  saturates 16 true (elem2 slane 32 b a) s
    (gv_packss_s32 b a,
     gv_or32 (gv_shr32 (v_or (gv_add32 a (gv_bcst32 0x8000)) (gv_add32 b (gv_bcst32 0x8000))) 16) s).
Proof.
  intros Ha Hb Hs.
  apply (pack_saturates 32 true slane (fun v => gv_add32 v (gv_bcst32 0x8000))); auto.
  - intros v i Hi Hv. unfold gv_add32, mm_add_epi, gv_bcst32, mm_set1_epi. rewrite slane_lane by lia. lane_push.
    name_lane 32 v i x. split; [lrange|]. cbn [clamp]. change (32 / 2) with 16. eval_consts. mlia.
  - intros. apply vmake_range. auto with lanes.
Qed.

(** The saturating packs: each byte or halfword of the result is an
    element of the concatenated operands (the first operand on the left)
    clamped to the narrower signed or unsigned range, and the sticky vector
    becomes non-zero exactly when an element did not fit. *)
Theorem vec_pack_saturates (m : isa) :
  saturating 8 true (fun a b _ => elem2 slane 16 b a) VPKSHSS /\
  saturating 8 false (fun a b _ => elem2 slane 16 b a) VPKSHUS /\
  saturating 16 true (fun a b _ => elem2 slane 32 b a) VPKSWSS /\
  saturating 8 false (fun a b _ => elem2 lane 16 b a) (VPKUHUS m) /\
  saturating 16 false (fun a b _ => elem2 lane 32 b a) (VPKUWUS m).
Proof.
  split_and!; apply vsat2_saturating; try (by auto with lanes); intros a b s Ha Hb Hs.
  - by apply pkshss_saturates.
  - apply (pack_saturates 16 false slane id); auto. intros v i Hi Hv. unfold id. rewrite slane_lane by lia.
    name_lane 16 v i x. split; [done|]. cbn [clamp]. change (16 / 2) with 8. mlia.
  - by apply pkswss_saturates.
  - rewrite gv_packus_u16_eq. change 255 with (2 ^ (16 / 2) - 1). rewrite vpack_clamp_u by lia.
    apply (pack_saturates 16 false lane id); auto. intros v i Hi Hv. unfold id.
    name_lane 16 v i x. split; [done|]. cbn [clamp]. change (16 / 2) with 8. mlia.
  - rewrite gv_packus_u32_eq. change 65535 with (2 ^ (32 / 2) - 1). rewrite vpack_clamp_u by lia.
    apply (pack_saturates 32 false lane id); auto. intros v i Hi Hv. unfold id.
    name_lane 32 v i x. split; [done|]. cbn [clamp]. change (32 / 2) with 16. mlia.
Qed.

(** [vpkshss v4, v1, v2]: the halfword -129 packs to -128. *)
Lemma vec_pack_saturates_witness :
  let c := vec_ctx 0 0xff7f 0 in
  view true 8 (VR (VPKSHSS c 0x1081118e) 4) 0 = -128 /\ sat (VPKSHSS c 0x1081118e) <> 0.
Proof.
  intros c. assert (wf_ctx c) as Hc by (apply vec_ctx_wf; unfold urange; lia).
  destruct (vec_pack_saturates SSE2) as [H _]. destruct (H c 0x1081118e Hc) as (E & S & _). split.
  - etransitivity; [apply (E 0 ltac:(split; reflexivity || lia))|vm_compute; reflexivity].
  - intros E0. apply S in E0 as [_ E0]. specialize (E0 0 ltac:(split; reflexivity || lia)). vm_compute in E0. discriminate E0.
Defined.
