(* ===== verification/PpuVectorOps.v ===== *)
(** * Vector arithmetic, compares and data movement

    The vector instructions that do not saturate: elementwise arithmetic,
    products and compares against exact integer arithmetic, then the
    instructions that move bytes, in the big-endian numbering of the
    architecture where element 0 is the leftmost, the whole-register shifts,
    and unpacking undone by packing. *)

From stdpp Require Import base numbers list tactics.
From Stdlib Require Import Lia.
From S2P Require Import Prelude Asm PpuInstruction PpuContext Simd SimdOps SimdSpec SimdWide SimdPack SimdShift.
From S2P Require Import PpuVector PpuVectorSpec.
Import Instruction.
Open Scope Z_scope.
Open Scope mach_scope.

(** ** Elementwise instructions *)

(** [F] assigns [g] of the operands to the destination and does nothing
    else. *)
Definition computes2 (g : Z -> Z -> Z) (F : PPUContext -> Z -> PPUContext) : Prop :=
  forall c inst, wf_ctx c -> F c inst = set_vr (vd inst) (g (VR c (va inst)) (VR c (vb inst))) c.

Definition computes3 (g : Z -> Z -> Z -> Z) (F : PPUContext -> Z -> PPUContext) : Prop :=
  forall c inst, wf_ctx c ->
  F c inst = set_vr (vd inst) (g (VR c (va inst)) (VR c (vb inst)) (VR c (vc inst))) c.

Lemma vop2_computes f g :
  (forall a b, urange 128 a -> urange 128 b -> f a b = g a b) -> computes2 g (vop2 f).
Proof.
  intros H c inst Hc. unfold vop2. rewrite H; [done|..]; apply VR_range; auto using va_range, vb_range.
Qed.

Lemma vop3_computes f g :
  (forall a b c, urange 128 a -> urange 128 b -> urange 128 c -> f a b c = g a b c) -> computes3 g (vop3 f).
Proof.
  intros H c inst Hc. unfold vop3. rewrite H; [done|..]; apply VR_range; auto using va_range, vb_range, vc_range.
Qed.

(** Elements of the result from elements of the operands. *)
Definition velem (sg : bool) (w : Z) (f : Z -> Z -> Z) (a b : Z) : Z :=
  vmake w (fun i => f (view sg w a i) (view sg w b i)).

(** Rounded average, rotation left and shifts by a count modulo the width. *)
Definition avg (x y : Z) : Z := (x + y + 1) / 2.

Definition rotl (w x n : Z) : Z := Z.shiftl x (n mod w) ||| (x >>> (w - n mod w)).

Definition shl_mod (w x n : Z) : Z := x * 2 ^ (n mod w).

Definition shr_mod (w x n : Z) : Z := x / 2 ^ (n mod w).

Lemma vaddcuw_eq m a b :
  urange 128 a -> urange 128 b ->
  gv_sub32 (gv_geu32 m (gv_not32 a) b) (gv_bcst32 (u32 (-1))) = velem false 32 (fun x y => b2z (2 ^ 32 <=? x + y)) a b.
Proof.
  intros Ha Hb. rewrite gv_geu32_eq by (autounfold with simd; vrange). unfold velem, view. by_lanes 32 i.
  name_lane 32 a i x. name_lane 32 b i y. rewrite lxor_ones by (lia || done). eval_consts.
  unfold b2z, mask. zbool; mlia.
Qed.

Lemma vsubcuw_eq m a b :
  urange 128 a -> urange 128 b ->
  gv_shr32 (gv_geu32 m a b) 31 = velem false 32 (fun x y => b2z (y <=? x)) a b.
Proof.
  intros Ha Hb. rewrite gv_geu32_eq by done. unfold velem, view, gv_shr32. change (32 <=? 31) with false. cbv iota.
  by_lanes 32 i. name_lane 32 a i x. name_lane 32 b i y. unfold mask, b2z. by zbool.
Qed.

Lemma shiftr_1 x : x >>> 1 = x / 2.
Proof. by rewrite Z.shiftr_div_pow2 by lia. Qed.

Lemma rol_eq k x n :
  0 < k -> urange (2 ^ k) x ->
  wrap (2 ^ k) (Z.shiftl x (n mod 2 ^ k) ||| (x >>> ((- n) mod 2 ^ k))) = wrap (2 ^ k) (rotl (2 ^ k) x n).
Proof.
  intros Hk Hx. unfold rotl. pose proof (pow2_pos k ltac:(lia)) as Hp.
  destruct (Z.eq_dec (n mod 2 ^ k) 0) as [E|E].
  - rewrite (Z.mod_opp_l_z n) by lia. rewrite E, Z.shiftl_0_r, Z.shiftr_0_r, Z.lor_diag, Z.sub_0_r.
    f_equal. rewrite Z.shiftr_div_pow2 by lia. unfold urange in Hx. rewrite Z.div_small by lia. by rewrite Z.lor_0_r.
  - by rewrite Z.mod_opp_l_nz by lia.
Qed.

Lemma velem_ext sg w f g a b :
  width w -> (forall i, 0 <= i < 128 / w -> let x := view sg w a i in let y := view sg w b i in wrap w (f x y) = wrap w (g x y)) ->
  velem sg w f a b = velem sg w g a b.
Proof. intros Hw H. unfold velem. apply vmake_ext; [done|]. intros i Hi. by apply H. Qed.

Lemma gv_rol16v_eq a b : gv_rol16v a b = velem false 16 (rotl 16) a b.
Proof.
  unfold gv_rol16v, velem, vzip. apply vmake_ext; [auto with lanes|]. intros i Hi. unfold rol16.
  rewrite wrap_lor_shl, !land_15 by lia. apply (rol_eq 4); [lia|]. apply lane_range. lia.
Qed.

Lemma gv_rol32v_eq a b : gv_rol32v a b = velem false 32 (rotl 32) a b.
Proof.
  unfold gv_rol32v, velem, vzip. apply vmake_ext; [auto with lanes|]. intros i Hi. unfold rol32.
  rewrite wrap_lor_shl, !land_31, Z.sub_0_l by lia.
  change (u32 (- lane 32 b i) mod 32) with (wrap 5 (u32 (- lane 32 b i))). rewrite wrap_wrap_le by lia. apply (rol_eq 5); [lia|]. apply lane_range. lia.
Qed.

#[local] Opaque vmake.

(** The operations whose branches differ, by their equations. *)
Ltac op_eq :=
  first [ reflexivity | by apply vaddcuw_eq | by apply vsubcuw_eq | apply gv_rol16v_eq | apply gv_rol32v_eq
        | by apply gv_maxu16_eq | by apply gv_maxu32_eq | by apply gv_maxs8_eq | by apply gv_maxs32_eq
        | by apply gv_minu16_eq | by apply gv_minu32_eq | by apply gv_mins8_eq | by apply gv_mins32_eq ].

(** Rewriting the reference functions on an element. *)
Ltac elem_eq sg w :=
  apply (velem_ext sg w); [auto with lanes|]; intros i Hi; cbv zeta; unfold avg, shl_mod, shr_mod, rotl;
  rewrite ?land_7, ?land_15, ?land_31, ?shiftr_1, ?Z.shiftl_mul_pow2, ?Z.shiftr_div_pow2
    by (lia || apply Z.mod_pos_bound; lia); reflexivity.

(** Close an entry of the table: the equation of the vector operation, then
    the reference function on each element. *)
Ltac entry :=
  lazymatch goal with
  | |- computes2 _ (?F _) => unfold F
  | |- computes2 _ ?F => unfold F
  end;
  apply vop2_computes; intros a b Ha Hb;
  first [ op_eq
        | lazymatch goal with
          | |- _ = velem ?sg ?w _ _ _ =>
              first [ rewrite gv_avgu32_eq by done | rewrite gv_avgs8_eq by done | rewrite gv_avgs16_eq by done
                    | rewrite gv_avgs32_eq by done | rewrite gv_shl8v_eq by done | rewrite gv_shr8v_eq by done
                    | rewrite gv_rol8v_eq by done | idtac ];
              elem_eq sg w
          end ].

(** C32: the elementwise instructions that do not saturate: modular sums and
    differences, carries and borrows, rounded averages, minima and maxima,
    shifts and rotates by a count per element, each equal to the function on
    integers the architecture names, with SSE2, SSSE3 and SSE4.1 (the x64
    levels of [isa]; the AVX and ARM branches are not modelled). *)
Theorem vec_elementwise_spec (m : isa) :
  Forall (fun '(g, F) => computes2 g F)
    [ (velem false 8 Z.add, VADDUBM); (velem false 16 Z.add, VADDUHM); (velem false 32 Z.add, VADDUWM);
      (velem false 8 Z.sub, VSUBUBM); (velem false 16 Z.sub, VSUBUHM); (velem false 32 Z.sub, VSUBUWM);
      (velem false 32 (fun x y => b2z (2 ^ 32 <=? x + y)), VADDCUW m);
      (velem false 32 (fun x y => b2z (y <=? x)), VSUBCUW m);
      (velem true 8 avg, VAVGSB); (velem true 16 avg, VAVGSH); (velem true 32 avg, VAVGSW m);
      (velem false 8 avg, VAVGUB); (velem false 16 avg, VAVGUH); (velem false 32 avg, VAVGUW m);
      (velem true 8 Z.max, VMAXSB m); (velem true 16 Z.max, VMAXSH); (velem true 32 Z.max, VMAXSW m);
      (velem false 8 Z.max, VMAXUB); (velem false 16 Z.max, VMAXUH m); (velem false 32 Z.max, VMAXUW m);
      (velem true 8 Z.min, VMINSB m); (velem true 16 Z.min, VMINSH); (velem true 32 Z.min, VMINSW m);
      (velem false 8 Z.min, VMINUB); (velem false 16 Z.min, VMINUH m); (velem false 32 Z.min, VMINUW m);
      (velem false 8 (shl_mod 8), VSLB m); (velem false 16 (shl_mod 16), VSLH); (velem false 32 (shl_mod 32), VSLW);
      (velem false 8 (shr_mod 8), VSRB m); (velem false 16 (shr_mod 16), VSRH); (velem false 32 (shr_mod 32), VSRW);
      (velem true 8 (shr_mod 8), VSRAB); (velem true 16 (shr_mod 16), VSRAH); (velem true 32 (shr_mod 32), VSRAW);
      (velem false 8 (rotl 8), VRLB m); (velem false 16 (rotl 16), VRLH); (velem false 32 (rotl 32), VRLW) ].
Proof.
  repeat (apply Forall_cons_2; [entry|]). apply Forall_nil_2.
Qed.

(** [vaddubm v4, v1, v2]: 255 + 2 wraps. *)
Lemma vec_elementwise_spec_witness :
  let c := vec_ctx 0xff 2 0 in VR (VADDUBM c 0x10811000) 4 = 1.
Proof.
  intros c. assert (wf_ctx c) as Hc by (apply vec_ctx_wf; unfold urange; lia).
  pose proof (Forall_inv (vec_elementwise_spec SSE2)) as H.
  etransitivity; [apply (f_equal (fun c => VR c 4) (H c 0x10811000 Hc))|vm_compute; reflexivity].
Defined.

(** ** Products *)

(** Element [i] counted from the left, as the architecture does. *)
Definition elt (sg : bool) (w v i : Z) : Z := view sg w v (128 / w - 1 - i).

(** An even or odd multiply: the exact product of elements [2 i + k]. *)
Definition multiplies (sg : bool) (w k : Z) (F : PPUContext -> Z -> PPUContext) : Prop :=
  forall c inst, wf_ctx c ->
  (forall i, 0 <= i < 128 / (2 * w) ->
     elt sg (2 * w) (VR (F c inst) (vd inst)) i
       = elt sg w (VR c (va inst)) (2 * i + k) * elt sg w (VR c (vb inst)) (2 * i + k)) /\
  F c inst = set_vr (vd inst) (VR (F c inst) (vd inst)) c.

Lemma multiplies_intro sg w k f :
  (w = 8 \/ w = 16) -> (k = 0 \/ k = 1) ->
  (forall a b i, urange 128 a -> urange 128 b -> 0 <= i < 128 / (2 * w) ->
     lane (2 * w) (f a b) i =
       wrap (2 * w) (view sg w a (2 * i + (1 - k)) * view sg w b (2 * i + (1 - k)))) ->
  multiplies sg w k (vop2 f).
Proof.
  intros Hw Hk H c inst Hc. unfold vop2. rewrite VR_set_vr by (done || apply vd_range). split; [|done].
  intros i Hi. unfold elt.
  assert (128 / w - 1 - (2 * i + k) = 2 * (128 / (2 * w) - 1 - i) + (1 - k)) as ->
    by (destruct Hw as [-> | ->]; Z.to_euclidean_division_equations; lia).
  specialize (H _ _ (128 / (2 * w) - 1 - i) (VR_range _ _ Hc (va_range inst)) (VR_range _ _ Hc (vb_range inst)) ltac:(lia)).
  set (d := f _ _) in *. set (j := 128 / (2 * w) - 1 - i) in *.
  pose proof (view_bounds sg w (VR c (va inst)) (2 * j + (1 - k)) ltac:(lia)) as Hx.
  pose proof (view_bounds sg w (VR c (vb inst)) (2 * j + (1 - k)) ltac:(lia)) as Hy.
  set (x := view sg w (VR c (va inst)) _) in *. set (y := view sg w (VR c (vb inst)) _) in *. clearbody x y d j.
  destruct sg; cbn [view] in *.
  - rewrite slane_lane, H, sext_wrap by lia. apply sext_id; [lia|]. unfold srange.
    destruct Hw as [-> | ->]; cbn in *; nia.
  - rewrite H. apply wrap_id. unfold urange. destruct Hw as [-> | ->]; cbn in *; nia.
Qed.

Lemma lane_mul16 u v i x y :
  0 <= i < 8 -> slane 16 u i = x -> slane 16 v i = y -> lane 16 (gv_mul16 u v) i = u16 (x * y).
Proof.
  intros Hi <- <-. unfold gv_mul16, mm_mullo_epi. rewrite lane_vzips by (cnts; lia || auto with lanes).
  by rewrite <- !slane_lane by lia.
Qed.

(** The even and odd multiplies: element [i] of the result is the exact
    product, at twice the width, of the even (or odd) numbered elements of
    the operands counted from the left, signed or unsigned, for bytes and
    halfwords and for SSE2, SSSE3 and SSE4.1. *)
Theorem vec_multiply_spec (m : isa) :
  multiplies true 8 0 VMULESB /\ multiplies true 8 1 VMULOSB /\
  multiplies false 8 0 VMULEUB /\ multiplies false 8 1 VMULOUB /\
  multiplies true 16 0 VMULESH /\ multiplies true 16 1 VMULOSH /\
  multiplies false 16 0 (VMULEUH m) /\ multiplies false 16 1 (VMULOUH m).
Proof.
  split_and!; apply multiplies_intro; auto; intros a b i Ha Hb Hi;
    [change (128 / (2 * 8)) with 8 in Hi; change (2 * 8) with 16 .. |
     change (128 / (2 * 16)) with 4 in Hi; change (2 * 16) with 32 |
     change (128 / (2 * 16)) with 4 in Hi; change (2 * 16) with 32 |
     change (128 / (2 * 16)) with 4 in Hi; change (2 * 16) with 32 |
     change (128 / (2 * 16)) with 4 in Hi; change (2 * 16) with 32 ];
    change (1 - 0) with 1; change (1 - 1) with 0; rewrite ?Z.add_0_r; cbn [view].
  - apply lane_mul16; [done| |]; by apply bytes_hi_s.
  - apply lane_mul16; [done| |]; by apply bytes_lo_s.
  - apply lane_mul16; [done| |]; by apply bytes_hi_u.
  - apply lane_mul16; [done| |]; by apply bytes_lo_u.
  - rewrite gv_mul_odds_s16_eq. unfold odds_prod. by rewrite lane_vmake by (cnts; lia || auto with lanes).
  - rewrite gv_mul_even_s16_eq. unfold even_prod. by rewrite lane_vmake by (cnts; lia || auto with lanes).
  - rewrite gv_mul_odds_u16_eq. unfold odds_prod. by rewrite lane_vmake by (cnts; lia || auto with lanes).
  - rewrite gv_mul_even_u16_eq. unfold even_prod. by rewrite lane_vmake by (cnts; lia || auto with lanes).
Qed.

(** [vmulosb v4, v1, v2]: the last bytes -2 and 3. *)
Lemma vec_multiply_spec_witness :
  let c := vec_ctx 0xfe 3 0 in elt true 16 (VR (VMULOSB c 0x10811108) 4) 7 = -6.
Proof.
  intros c. assert (wf_ctx c) as Hc by (apply vec_ctx_wf; unfold urange; lia).
  destruct (vec_multiply_spec SSE2) as (_ & H & _). destruct (H c 0x10811108 Hc) as [E _].
  etransitivity; [apply (E 7 ltac:(split; reflexivity || lia))|vm_compute; reflexivity].
Defined.

(** The modular multiply-sums: the accumulator plus the products of the
    elements under each word, modulo the word. *)
Lemma vec_msum_spec :
  computes3 (fun a b c => vmake 16 (fun i => slane 16 a i * slane 16 b i + lane 16 c i)) VMLADDUHM /\
  computes3 (fun a b c => vmake 32 (fun i => lane 32 c i + sum4 (fun j => slane 8 a j * lane 8 b j) i)) VMSUMMBM /\
  computes3 (fun a b c => vmake 32 (fun i => lane 32 c i + sum4 (fun j => lane 8 a j * lane 8 b j) i)) VMSUMUBM /\
  computes3 (fun a b c => vmake 32 (fun i => lane 32 c i + sum2 (fun j => slane 16 a j * slane 16 b j) i)) VMSUMSHM /\
  computes3 (fun a b c => vmake 32 (fun i => lane 32 c i + sum2 (fun j => lane 16 a j * lane 16 b j) i)) VMSUMUHM.
Proof.
  split_and!; apply vop3_computes; intros a b c Ha Hb Hc.
  - unfold gv_muladd16, mm_add_epi, mm_mullo_epi, vzip. apply vmake_ext; [auto with lanes|]. intros i Hi.
    rewrite lane_vzips, <- !slane_lane, wrap_add_l by (done || lia || auto with lanes). done.
  - rewrite gv_dotu8s8x4_eq. apply vmake_same; [auto with lanes|]. intros. unfold sum4. lia.
  - apply gv_dotu8x4_eq.
  - apply gv_dots16x2_eq.
  - rewrite gv_dotu16x2_eq. unfold gv_add32, mm_add_epi, vzip. apply vmake_ext; [auto with lanes|]. intros i Hi.
    by rewrite lane_vmake, wrap_add_r by (done || lia || auto with lanes).
Qed.

(** ** Compares *)

(** The elements all, and none, satisfying a relation. *)
Definition all_elems (w : Z) (r : Z -> bool) : bool := forallb r (seqZ 0 (128 / w)).

Definition none_elems (w : Z) (r : Z -> bool) : bool := forallb (fun i => negb (r i)) (seqZ 0 (128 / w)).

(** A compare writes a mask per element; its record form sets CR field 6 to
    "all true" and "all false". *)
Definition compares (sg : bool) (w : Z) (p : Z -> Z -> bool) (F : PPUContext -> Z -> PPUContext) : Prop :=
  forall c inst, wf_ctx c ->
  let r i := p (view sg w (VR c (va inst)) i) (view sg w (VR c (vb inst)) i) in
  let c6 := if oe inst =? 0 then c
            else set_cr_field 6 (CrField.set (all_elems w r) false (none_elems w r) false) c in
  F c inst = set_vr (vd inst) (vmake w (fun i => mask (r i))) c6.

Lemma all_elems_spec w r : width w -> (vmake w (fun i => mask (r i)) =? 2 ^ 128 - 1) = all_elems w r.
Proof.
  intros Hw. pose proof (width_cnt w Hw) as (H0 & _). pose proof (Z.pow_gt_1 2 w ltac:(lia)) as Hp.
  assert (urange 128 (2 ^ 128 - 1)) as Ho by (unfold urange; lia).
  assert (forall i, 0 <= i < 128 / w -> lane w (2 ^ 128 - 1) i = 2 ^ w - 1) as Hl.
  { intros i Hi. change (2 ^ 128 - 1) with (Z.ones 128). replace (2 ^ w - 1) with (Z.ones w) by (rewrite Z.ones_equiv; lia).
    pose proof (width_cnt w Hw) as (_ & _ & He). apply Z.bits_inj'. intros j Hj. rewrite testbit_in_lane by lia.
    destruct (Z.ltb_spec j w); cbn [andb]; [rewrite !Z.ones_spec_low by nia | rewrite Z.ones_spec_high by lia]; done. }
  assert (forall b, wrap w (mask b) = 2 ^ w - 1 <-> b = true) as Hm.
  { intros b. pose proof (mask_eq0 w b H0) as E. destruct b; cbn [mask negb] in *.
    - split; [done|]. intros _. apply (wrap_unique w _ _ (-1)); unfold urange; lia.
    - apply Z.eqb_eq in E. rewrite E. split; [lia|done]. }
  apply eq_bool_prop_intro. rewrite !Is_true_true, Z.eqb_eq. unfold all_elems. rewrite forallb_forall.
  split.
  - intros E i Hi%list_elem_of_In%elem_of_seqZ. apply Hm. rewrite <- (Hl i) by lia. rewrite <- E.
    by rewrite lane_vmake by (done || lia).
  - intros H. apply (vec_ext w); [done|by apply vmake_range|done|]. intros i Hi.
    rewrite lane_vmake, Hl by done. apply Hm, H, list_elem_of_In, elem_of_seqZ. lia.
Qed.

Lemma none_elems_spec w r : width w -> (vmake w (fun i => mask (r i)) =? 0) = none_elems w r.
Proof.
  intros Hw. pose proof (width_cnt w Hw) as (H0 & _).
  apply eq_bool_prop_intro. rewrite !Is_true_true, Z.eqb_eq. unfold none_elems. rewrite forallb_forall.
  rewrite (vec_zero w) by (done || by apply vmake_range). split.
  - intros E i Hi%list_elem_of_In%elem_of_seqZ. specialize (E i ltac:(lia)). rewrite lane_vmake in E by (done || lia).
    apply Z.eqb_eq in E. by rewrite mask_eq0 in E by lia.
  - intros H i Hi. rewrite lane_vmake by done. apply Z.eqb_eq. rewrite mask_eq0 by lia.
    apply H, list_elem_of_In, elem_of_seqZ. lia.
Qed.

Lemma vcmp_compares m sg w p f :
  width w ->
  (forall a b, urange 128 a -> urange 128 b -> f a b = vmake w (fun i => mask (p (view sg w a i) (view sg w b i)))) ->
  compares sg w p (vcmp m f).
Proof.
  intros Hw H c inst Hc. cbv zeta. unfold vcmp. rewrite H by (apply VR_range; auto using va_range, vb_range).
  rewrite gv_testall1_eq, gv_testall0_eq by (by apply vmake_range).
  by rewrite all_elems_spec, none_elems_spec by done.
Qed.

(** The integer compares: every element of the result is all ones where
    the relation holds and zero elsewhere, and with the record bit CR field 6
    reports exactly whether it held for all elements and for none. *)
Theorem vec_compare_spec (m : isa) :
  compares false 8 Z.eqb (VCMPEQUB m) /\ compares false 16 Z.eqb (VCMPEQUH m) /\
  compares false 32 Z.eqb (VCMPEQUW m) /\
  compares true 8 (fun x y => y <? x) (VCMPGTSB m) /\ compares true 16 (fun x y => y <? x) (VCMPGTSH m) /\
  compares true 32 (fun x y => y <? x) (VCMPGTSW m) /\
  compares false 8 (fun x y => y <? x) (VCMPGTUB m) /\ compares false 16 (fun x y => y <? x) (VCMPGTUH m) /\
  compares false 32 (fun x y => y <? x) (VCMPGTUW m).
Proof.
  split_and!; apply vcmp_compares; auto with lanes; intros a b Ha Hb;
    first [reflexivity | by apply gv_gtu8_eq | by apply gv_gtu16_eq | by apply gv_gtu32_eq].
Qed.

(** [vcmpequb. v4, v1, v2] on equal registers: all ones, and "all true" in
    CR field 6. *)
Lemma vec_compare_spec_witness :
  let c := vec_ctx 7 7 0 in
  VR (VCMPEQUB SSE4_1 c 0x10811406) 4 = 2 ^ 128 - 1 /\ cr_field (VCMPEQUB SSE4_1 c 0x10811406) 6 = [1; 0; 0; 0].
Proof.
  intros c. assert (wf_ctx c) as Hc by (apply vec_ctx_wf; unfold urange; lia).
  destruct (vec_compare_spec SSE4_1) as [H _]. pose proof (H c 0x10811406 Hc) as E. cbv zeta in E.
  split; rewrite E; vm_compute; reflexivity.
Defined.
