(* ===== verification/PpuVectorMove.v ===== *)
(** * Vector data movement

    Permutes, merges, splats, byte and bit shifts of whole registers in the
    big-endian numbering of the architecture, where element 0 is the leftmost;
    unpacking undone by packing; and the two instructions whose results are
    lost. *)

From stdpp Require Import base numbers list tactics.
From Stdlib Require Import Lia.
From S2P Require Import Prelude Asm PpuInstruction PpuContext Simd SimdOps SimdSpec SimdWide SimdPack SimdShift.
From S2P Require Import PpuVector PpuVectorSpec PpuVectorOps.
Import Instruction.
Open Scope Z_scope.
Open Scope mach_scope.

(** ** Moving elements *)

(** Element [k] of the concatenation of [a] and [b], from the left. *)
Definition elt2 (w a b k : Z) : Z :=
  let n := 128 / w in if k <? n then elt false w a k else elt false w b (k - n).

(** [F] writes [f inst a b c i] to position [i], from the left, and does
    nothing else. *)
Definition moves (w : Z) (f : Z -> Z -> Z -> Z -> Z -> Z) (F : PPUContext -> Z -> PPUContext) : Prop :=
  forall c inst, wf_ctx c ->
  (forall i, 0 <= i < 128 / w ->
     elt false w (VR (F c inst) (vd inst)) i = f inst (VR c (va inst)) (VR c (vb inst)) (VR c (vc inst)) i) /\
  F c inst = set_vr (vd inst) (VR (F c inst) (vd inst)) c.

Lemma moves_intro w f F g :
  (forall c inst, F c inst = set_vr (vd inst) (g (VR c (va inst)) (VR c (vb inst)) (VR c (vc inst)) inst) c) ->
  (forall a b c inst i, urange 128 a -> urange 128 b -> urange 128 c -> 0 <= i < 128 / w ->
     elt false w (g a b c inst) i = f inst a b c i) ->
  moves w f F.
Proof.
  intros HF H c inst Hc. rewrite HF, VR_set_vr by (done || apply vd_range). split; [|done].
  intros i Hi. apply H; try done; apply VR_range; auto using va_range, vb_range, vc_range.
Qed.

Lemma elt_vmake w f i : width w -> 0 <= i < 128 / w -> elt false w (vmake w f) i = wrap w (f (128 / w - 1 - i)).
Proof. intros. unfold elt, view. apply lane_vmake; [done|lia]. Qed.

Lemma wrap_elt w v i : 0 < w -> wrap w (elt false w v i) = elt false w v i.
Proof. intros. apply wrap_id. apply lane_range. lia. Qed.

(** A byte shift of the whole register. *)
Lemma lane_shl8 v k i :
  0 <= k <= 16 -> 0 <= i < 16 ->
  lane 8 (u128 (Z.shiftl v (8 * k))) i = if i <? k then 0 else lane 8 v (i - k).
Proof.
  intros Hk Hi. apply Z.bits_inj'. intros j Hj. rewrite testbit_in_lane, testbit_wrap by lia.
  destruct (Z.ltb_spec j 8); cbn [andb].
  - destruct (Z.ltb_spec (8 * i + j) 128); [|lia]. cbn [andb]. rewrite Z.shiftl_spec by lia.
    destruct (Z.ltb_spec i k); [by rewrite Z.testbit_neg_r, Z.bits_0 by lia|].
    rewrite testbit_in_lane by lia. destruct (Z.ltb_spec j 8); [|lia]. cbn [andb]. f_equal. lia.
  - destruct (_ <? k); [by rewrite Z.bits_0|]. symmetry. apply (urange_testbit 8); [lia|apply lane_range; lia|lia].
Qed.

Lemma lane_shr8 v k i :
  urange 128 v -> 0 <= k -> 0 <= i < 16 ->
  lane 8 (v >>> (8 * k)) i = if i + k <? 16 then lane 8 v (i + k) else 0.
Proof.
  intros Hv Hk Hi. apply Z.bits_inj'. intros j Hj. rewrite testbit_in_lane, Z.shiftr_spec by lia.
  destruct (Z.ltb_spec (i + k) 16).
  - rewrite testbit_in_lane by lia. do 2 f_equal. lia.
  - rewrite Z.bits_0, (urange_testbit 128 v) by (done || lia). apply andb_false_r.
Qed.

Lemma lane_shuffle_left k v i :
  0 <= k <= 16 -> 0 <= i < 16 -> lane 8 (gv_shuffle_left k v) i = if i <? k then 0 else lane 8 v (i - k).
Proof.
  intros Hk Hi. unfold gv_shuffle_left, mm_slli_si128. destruct (Z.ltb_spec 15 k).
  - rewrite lane_0. destruct (Z.ltb_spec i k); [done|lia].
  - by apply lane_shl8.
Qed.

Lemma lane_shuffle_right k v i :
  urange 128 v -> 0 <= k <= 16 -> 0 <= i < 16 ->
  lane 8 (gv_shuffle_right k v) i = if i + k <? 16 then lane 8 v (i + k) else 0.
Proof.
  intros Hv Hk Hi. unfold gv_shuffle_right, mm_srli_si128. destruct (Z.ltb_spec 15 k).
  - rewrite lane_0. destruct (Z.ltb_spec (i + k) 16); [lia|done].
  - by apply lane_shr8; [|lia|].
Qed.

(** The position from the left that the complement of a control byte picks. *)
Lemma perm_index x : urange 8 x -> Z.lnot x &&& 0x1f = 31 - x mod 32.
Proof.
  intros Hx. change 31 with (Z.ones 5) at 1. rewrite Z.land_ones by lia. unfold Z.lnot, urange in *. change (2 ^ 5) with 32.
  Z.to_euclidean_division_equations. lia.
Qed.

Lemma elt2_byte a b k :
  0 <= k < 32 ->
  (let ab i := if i <? 16 then lane 8 b i else lane 8 a (i - 16) in ab (31 - k)) = elt2 8 a b k.
Proof.
  intros Hk. cbv zeta. unfold elt2, elt, view. cnts. destruct (Z.ltb_spec k 16), (Z.ltb_spec (31 - k) 16); try lia; f_equal; lia.
Qed.

(** The permute, a byte at a time. *)
Lemma vperm_moves : moves 8 (fun _ a b c i => elt2 8 a b (elt false 8 c i mod 32)) VPERM.
Proof.
  apply (moves_intro _ _ _ (fun a b c _ =>
           vmake 8 (fun i => (fun i => if i <? 16 then lane 8 b i else lane 8 a (i - 16)) (Z.lnot (lane 8 c i) &&& 0x1f)))).
  - done.
  - intros a b c inst i Ha Hb Hc Hi. rewrite elt_vmake by (done || auto with lanes).
    rewrite perm_index by (apply lane_range; lia). cnts. change (lane 8 c (16 - 1 - i)) with (elt false 8 c i).
    rewrite <- elt2_byte by (apply Z.mod_pos_bound; lia). cbv zeta. apply wrap_id.
    destruct (_ <? 16); apply lane_range; lia.
Qed.

Lemma vsh_range inst : 0 <= vsh inst < 16.
Proof. exact (extract_u_range 32 6 4 ltac:(lia) inst). Qed.

Lemma vsldoi_moves : moves 8 (fun inst a b _ i => elt2 8 a b (i + vsh inst)) VSLDOI.
Proof.
  apply (moves_intro _ _ _ (fun a b _ inst => VSLDOI_IMPL (vsh inst) a b)).
  - intros c' inst'. unfold VSLDOI. pose proof (vsh_range inst'). destruct (Z.ltb_spec (vsh inst') 16); [done|lia].
  - intros a b _ inst' i Ha Hb _ Hi. pose proof (vsh_range inst'). cnts.
    unfold VSLDOI_IMPL, gv_or32, mm_or, elt, view, elt2.
    cnts. rewrite lane_lor, lane_shuffle_left, lane_shuffle_right by (done || lia).
    destruct (Z.ltb_spec (16 - 1 - i) (vsh inst')), (Z.ltb_spec (16 - 1 - i + (16 - vsh inst')) 16),
      (Z.ltb_spec (i + vsh inst') 16); try lia; unfold elt, view; cnts; rewrite ?Z.lor_0_l, ?Z.lor_0_r; f_equal; lia.
Qed.

(** Merges interleave the left or the right halves. *)
Definition merged (w off a b i : Z) : Z :=
  if i mod 2 =? 0 then elt false w a (off + i / 2) else elt false w b (off + i / 2).

Lemma mrgh_moves w F :
  width w -> w <> 64 ->
  (forall c inst, F c inst = set_vr (vd inst) (mm_unpackhi_epi w (VR c (vb inst)) (VR c (va inst))) c) ->
  moves w (fun _ a b _ i => merged w 0 a b i) F.
Proof.
  intros Hw Hne HF. apply (moves_intro _ _ _ (fun a b _ _ => mm_unpackhi_epi w b a)); [done|].
  intros a b _ _ i Ha Hb _ Hi. unfold mm_unpackhi_epi. cbv zeta. rewrite elt_vmake by done. unfold merged.
  assert (exists n, 128 / w = 2 * n /\ 128 / w / 2 = n) as (n & En & Eh).
  { destruct Hw as [->|[->|[->| ->]]]; [exists 8|exists 4|exists 2|done]; done. }
  rewrite Eh, En in *. unfold elt, view. rewrite En. pose proof (width_cnt w Hw) as (H0 & _).
  rewrite wrap_id by (destruct (_ =? 0); apply lane_range; lia).
  destruct (Z.eqb_spec ((2 * n - 1 - i) mod 2) 0), (Z.eqb_spec (i mod 2) 0); try (exfalso; Z.to_euclidean_division_equations; lia);
    f_equal; Z.to_euclidean_division_equations; lia.
Qed.

Lemma mrgl_moves w F :
  width w -> w <> 64 ->
  (forall c inst, F c inst = set_vr (vd inst) (mm_unpacklo_epi w (VR c (vb inst)) (VR c (va inst))) c) ->
  moves w (fun _ a b _ i => merged w (128 / w / 2) a b i) F.
Proof.
  intros Hw Hne HF. apply (moves_intro _ _ _ (fun a b _ _ => mm_unpacklo_epi w b a)); [done|].
  intros a b _ _ i Ha Hb _ Hi. unfold mm_unpacklo_epi. rewrite elt_vmake by done. unfold merged.
  assert (exists n, 128 / w = 2 * n /\ 128 / w / 2 = n) as (n & En & Eh).
  { destruct Hw as [->|[->|[->| ->]]]; [exists 8|exists 4|exists 2|done]; done. }
  rewrite Eh, En in *. unfold elt, view. rewrite En. pose proof (width_cnt w Hw) as (H0 & _).
  rewrite wrap_id by (destruct (_ =? 0); apply lane_range; lia).
  destruct (Z.eqb_spec ((2 * n - 1 - i) mod 2) 0), (Z.eqb_spec (i mod 2) 0); try (exfalso; Z.to_euclidean_division_equations; lia);
    f_equal; Z.to_euclidean_division_equations; lia.
Qed.

(** Splats. *)
Lemma splat_moves w k F :
  width w ->
  (forall c inst, F c inst = set_vr (vd inst) (mm_set1_epi w (laner w (VR c (vb inst)) (k inst))) c) ->
  moves w (fun inst _ b _ _ => elt false w b (k inst)) F.
Proof.
  intros Hw HF. apply (moves_intro _ _ _ (fun _ b _ inst => mm_set1_epi w (laner w b (k inst)))); [done|].
  intros a b _ inst i Ha Hb _ Hi. unfold mm_set1_epi. rewrite elt_vmake by done.
  pose proof (width_cnt w Hw) as (H0 & _). by apply wrap_id, lane_range; lia.
Qed.

(** Byte shifts of the register by the count in its operand. *)
Definition octets (b : Z) : Z := elt false 8 b 15 / 8 mod 16.

Lemma octets_eq b : lane 8 b 0 &&& 0x78 = 8 * octets b.
Proof.
  unfold octets, elt, view. change (128 / 8 - 1 - 15) with 0. generalize (lane 8 b 0). intros x.
  change 0x78 with (Z.shiftl (Z.ones 4) 3). replace (8 * (x / 8 mod 16)) with (Z.shiftl ((x >>> 3) &&& Z.ones 4) 3).
  2:{ rewrite Z.shiftl_mul_pow2, Z.land_ones, Z.shiftr_div_pow2 by lia. change (2 ^ 3) with 8. change (2 ^ 4) with 16. lia. }
  apply Z.bits_inj'. intros j Hj. rewrite Z.land_spec, !Z.shiftl_spec by lia.
  destruct (Z.lt_ge_cases j 3); [rewrite !(Z.testbit_neg_r _ (j - 3)) by lia; apply andb_false_r|].
  rewrite Z.land_spec, Z.shiftr_spec by lia. by replace (j - 3 + 3) with j by lia.
Qed.

Lemma octets_range b : 0 <= octets b < 16.
Proof. apply Z.mod_pos_bound. lia. Qed.

Lemma vslo_moves : moves 8 (fun _ a b _ i => if i + octets b <? 16 then elt false 8 a (i + octets b) else 0) VSLO.
Proof.
  apply (moves_intro _ _ _ (fun a b _ _ => u128 (Z.shiftl a (lane 8 b 0 &&& 0x78)))); [done|].
  intros a b _ _ i Ha Hb _ Hi. rewrite octets_eq. pose proof (octets_range b). cnts. unfold elt, view. cnts.
  rewrite lane_shl8 by lia. destruct (Z.ltb_spec (16 - 1 - i) (octets b)), (Z.ltb_spec (i + octets b) 16); try lia; f_equal; lia.
Qed.

Lemma vsro_moves : moves 8 (fun _ a b _ i => if octets b <=? i then elt false 8 a (i - octets b) else 0) VSRO.
Proof.
  apply (moves_intro _ _ _ (fun a b _ _ => a >>> (lane 8 b 0 &&& 0x78))); [done|].
  intros a b _ _ i Ha Hb _ Hi. rewrite octets_eq. pose proof (octets_range b). cnts. unfold elt, view. cnts.
  rewrite lane_shr8 by (done || lia).
  destruct (Z.ltb_spec (16 - 1 - i + octets b) 16), (Z.leb_spec (octets b) i); try lia; f_equal; lia.
Qed.

(** The instructions that move elements, in the left-to-right numbering of
    the architecture: a permute picks bytes of the concatenated operands by
    its control bytes modulo 32, a shift double by octet immediate takes
    sixteen consecutive bytes of them, merges interleave the left or right
    halves, splats replicate one element, and the octet shifts move every
    byte by the count in bits 121 to 124 of the operand, filling with zero. *)
Theorem vec_move_spec :
  moves 8 (fun _ a b c i => elt2 8 a b (elt false 8 c i mod 32)) VPERM /\
  moves 8 (fun inst a b _ i => elt2 8 a b (i + vsh inst)) VSLDOI /\
  moves 8 (fun _ a b _ => merged 8 0 a b) VMRGHB /\ moves 8 (fun _ a b _ => merged 8 8 a b) VMRGLB /\
  moves 16 (fun _ a b _ => merged 16 0 a b) VMRGHH /\ moves 16 (fun _ a b _ => merged 16 4 a b) VMRGLH /\
  moves 32 (fun _ a b _ => merged 32 0 a b) VMRGHW /\ moves 32 (fun _ a b _ => merged 32 2 a b) VMRGLW /\
  moves 8 (fun inst _ b _ _ => elt false 8 b (vuimm inst mod 16)) VSPLTB /\
  moves 16 (fun inst _ b _ _ => elt false 16 b (vuimm inst mod 8)) VSPLTH /\
  moves 32 (fun inst _ b _ _ => elt false 32 b (vuimm inst mod 4)) VSPLTW /\
  moves 8 (fun _ a b _ i => if i + octets b <? 16 then elt false 8 a (i + octets b) else 0) VSLO /\
  moves 8 (fun _ a b _ i => if octets b <=? i then elt false 8 a (i - octets b) else 0) VSRO.
Proof.
  split_and!.
  - exact vperm_moves.
  - exact vsldoi_moves.
  - by apply mrgh_moves; auto with lanes.
  - by apply (mrgl_moves 8); auto with lanes.
  - by apply mrgh_moves; auto with lanes.
  - by apply (mrgl_moves 16); auto with lanes.
  - by apply mrgh_moves; auto with lanes.
  - by apply (mrgl_moves 32); auto with lanes.
  - apply (splat_moves 8 (fun inst => vuimm inst mod 16)); [auto with lanes|]. intros c inst. unfold VSPLTB. by rewrite land_15.
  - apply (splat_moves 16 (fun inst => vuimm inst mod 8)); [auto with lanes|]. intros c inst. unfold VSPLTH. by rewrite land_7.
  - apply (splat_moves 32 (fun inst => vuimm inst mod 4)); [auto with lanes|]. intros c inst. unfold VSPLTW.
    by rewrite (land_low 2 (vuimm inst) ltac:(lia) : vuimm inst &&& 3 = vuimm inst mod 4).
  - exact vslo_moves.
  - exact vsro_moves.
Qed.

(** [vperm v4, v1, v2, v3] with the control bytes 31, 30, ..., 16 reverses
    [v2]. *)
Lemma vec_move_spec_witness :
  let c := vec_ctx 0 0x000102030405060708090a0b0c0d0e0f 0x1f1e1d1c1b1a19181716151413121110 in
  elt false 8 (VR (VPERM c 0x108110eb) 4) 0 = 15 /\ elt false 8 (VR (VPERM c 0x108110eb) 4) 15 = 0.
Proof.
  intros c. assert (wf_ctx c) as Hc by (apply vec_ctx_wf; unfold urange; lia).
  destruct vec_move_spec as [H _]. destruct (H c 0x108110eb Hc) as [E _].
  split; [etransitivity; [apply (E 0 ltac:(split; reflexivity || lia))|vm_compute; reflexivity]|].
  etransitivity; [apply (E 15 ltac:(split; reflexivity || lia))|vm_compute; reflexivity].
Defined.

(** ** Shifts of the whole register *)

(** Every byte of the operand holds the same count modulo eight. *)
Definition uniform (b n : Z) : Prop := forall i, 0 <= i < 16 -> elt false 8 b i mod 8 = n.

Lemma uniform_count b n k : uniform b n -> 0 <= k < 16 -> lane 8 b k &&& 7 = n.
Proof.
  intros H Hk. rewrite land_7. specialize (H (15 - k) ltac:(lia)). unfold elt, view in H. cnts.
  by replace (16 - 1 - (15 - k)) with k in H by lia.
Qed.

Lemma uniform_range b n : uniform b n -> 0 <= n < 8.
Proof. intros H. rewrite <- (H 0) by lia. apply Z.mod_pos_bound. lia. Qed.

Lemma vsl_value m a b n :
  urange 128 a -> uniform b n -> gv_fshl8 m a (gv_shuffle_left 1 a) b = u128 (Z.shiftl a n).
Proof.
  intros Ha Hb. pose proof (uniform_range b n Hb) as Hn.
  assert (urange 128 (gv_shuffle_left 1 a)) as Hs by (apply wrap_range; lia).
  rewrite gv_fshl8_eq by done. apply bit_ext; [apply vmake_range; auto with lanes|apply wrap_range; lia|].
  intros k j Hk Hj. rewrite bit_vmake8, (uniform_count b n), lane_shuffle_left by (done || lia).
  unfold bit. rewrite testbit_wrap, Z.lor_spec, !Z.shiftl_spec, Z.shiftr_spec by lia.
  destruct (Z.ltb_spec (8 * k + j) 128); [|lia]. cbn [andb].
  destruct (Z.le_gt_cases n j).
  - rewrite testbit_in_lane by lia. destruct (Z.ltb_spec (j - n) 8); [|lia]. cbn [andb].
    assert (Z.testbit (if k <? 1 then 0 else lane 8 a (k - 1)) (j + (8 - n)) = false) as ->.
    { destruct (k <? 1); [apply Z.bits_0|]. apply (urange_testbit 8); [lia|apply lane_range; lia|lia]. }
    rewrite orb_false_r. f_equal. lia.
  - rewrite Z.testbit_neg_r by lia. cbn [orb]. destruct (Z.ltb_spec k 1).
    + by rewrite Z.bits_0, Z.testbit_neg_r by lia.
    + rewrite testbit_in_lane by lia. destruct (Z.ltb_spec (j + (8 - n)) 8); [|lia]. cbn [andb]. f_equal. lia.
Qed.

Lemma vsr_value m a b n :
  urange 128 a -> uniform b n -> gv_fshr8 m (gv_shuffle_right 1 a) a b = a >>> n.
Proof.
  intros Ha Hb. pose proof (uniform_range b n Hb) as Hn.
  assert (urange 128 (gv_shuffle_right 1 a)) as Hs by (apply shiftr_urange; done || lia).
  rewrite gv_fshr8_eq by done.
  apply bit_ext; [apply vmake_range; auto with lanes|apply shiftr_urange; done || lia|].
  intros k j Hk Hj. rewrite bit_vmake8, (uniform_count b n), lane_shuffle_right by (done || lia).
  unfold bit. rewrite Z.lor_spec, Z.shiftl_spec, !Z.shiftr_spec by lia.
  destruct (Z.lt_ge_cases (j + n) 8).
  - rewrite testbit_in_lane by lia. destruct (Z.ltb_spec (j + n) 8); [|lia]. cbn [andb].
    rewrite (Z.testbit_neg_r _ (j - (8 - n))), orb_false_r by lia. f_equal. lia.
  - rewrite (testbit_in_lane 8 a k (j + n)) by lia. destruct (Z.ltb_spec (j + n) 8); [lia|]. cbn [andb orb].
    destruct (Z.ltb_spec (k + 1) 16).
    + rewrite testbit_in_lane by lia. destruct (Z.ltb_spec (j - (8 - n)) 8); [|lia]. cbn [andb]. f_equal. lia.
    + rewrite Z.bits_0. symmetry. apply (urange_testbit 128); done || lia.
Qed.

Lemma count_split b n : uniform b n -> elt false 8 b 15 mod 128 = 8 * octets b + n.
Proof.
  intros H. specialize (H 15 ltac:(lia)). unfold octets. revert H. generalize (elt false 8 b 15). intros x <-.
  Z.to_euclidean_division_equations. lia.
Qed.

Lemma VR_set_ne i j v c : urange 5 i -> urange 5 j -> i <> j -> VR (set_vr i v c) j = VR c j.
Proof. unfold urange. intros. unfold VR, set_vr; cbn [vr with_vr]. apply rget_rset_ne; lia. Qed.

(** Two instructions, the second reading the result of the first and the same
    count. *)
Lemma shift_pair (f : Z -> Z -> Z) v c i1 i2 :
  wf_ctx c -> urange 128 v -> va i2 = vd i1 -> vb i2 = vb i1 -> vd i1 <> vb i1 ->
  VR (set_vr (vd i2) (f (VR (set_vr (vd i1) v c) (va i2)) (VR (set_vr (vd i1) v c) (vb i2))) (set_vr (vd i1) v c))
     (vd i2) = f v (VR c (vb i1)).
Proof.
  intros Hc Hv -> -> Hne. pose proof (vd_range i1) as H1. pose proof (vb_range i1) as H2. pose proof (vd_range i2) as H3.
  generalize dependent (vd i1). generalize dependent (vb i1). generalize dependent (vd i2). intros d2 H3 b1 H2 d1 Hne H1.
  rewrite VR_set_vr by (done || by apply set_vr_wf). by rewrite VR_set_vr, VR_set_ne.
Qed.

(** The 128-bit shift idiom: an octet shift followed by a bit shift with
    the same count operand, the count replicated in its bytes, shifts the
    whole register left (or right) by the count modulo 128, whatever the
    instruction set. *)
Theorem vec_shift128 (m : isa) c i1 i2 n :
  wf_ctx c -> uniform (VR c (vb i1)) n ->
  va i2 = vd i1 -> vb i2 = vb i1 -> vd i1 <> vb i1 ->
  let count := elt false 8 (VR c (vb i1)) 15 mod 128 in
  VR (VSL m (VSLO c i1) i2) (vd i2) = u128 (Z.shiftl (VR c (va i1)) count) /\
  VR (VSR m (VSRO c i1) i2) (vd i2) = VR c (va i1) >>> count.
Proof.
  intros Hc Hu Ha Hb Hne count. unfold count. rewrite (count_split _ n) by done.
  pose proof (VR_range c (va i1) Hc (va_range i1)) as Ra. pose proof (uniform_range _ _ Hu) as Hn.
  pose proof (octets_range (VR c (vb i1))) as Ho. unfold VSL, VSR, VSLO, VSRO, vop2. rewrite !octets_eq.
  set (a := VR c (va i1)) in *. set (b := VR c (vb i1)) in *.
  assert (urange 128 (u128 (Z.shiftl a (8 * octets b)))) as R1 by (apply wrap_range; lia).
  assert (urange 128 (a >>> (8 * octets b))) as R2 by (apply shiftr_urange; done || lia).
  pose proof (shift_pair (fun a b => gv_fshl8 m a (gv_shuffle_left 1 a) b) _ c i1 i2 Hc R1 Ha Hb Hne) as E1.
  pose proof (shift_pair (fun a b => gv_fshr8 m (gv_shuffle_right 1 a) a b) _ c i1 i2 Hc R2 Ha Hb Hne) as E2.
  cbv beta in E1, E2. rewrite E1, E2. fold b. split.
  - rewrite (vsl_value m _ b n) by done. apply Z.bits_inj'. intros j Hj.
    rewrite !testbit_wrap, !Z.shiftl_spec, testbit_wrap by lia. destruct (Z.ltb_spec j 128); [|done]. cbn [andb].
    destruct (Z.ltb_spec (j - n) 128); [|lia]. cbn [andb].
    destruct (Z.lt_ge_cases (j - n) 0); [rewrite !Z.testbit_neg_r by lia; done|].
    rewrite Z.shiftl_spec by lia. f_equal. lia.
  - rewrite (vsr_value m _ b n) by done. rewrite Z.shiftr_shiftr by lia. f_equal.
Qed.


(** [vslo v3, v1, v2; vsl v4, v3, v2] with the count 77. *)
Lemma vec_shift128_witness :
  let c := vec_ctx 0x0123456789abcdef0123456789abcdef 0x4d4d4d4d4d4d4d4d4d4d4d4d4d4d4d4d 0 in
  VR (VSL SSE2 (VSLO c 0x1061140c) 0x108311c4) 4 = u128 (Z.shiftl 0x0123456789abcdef0123456789abcdef 77).
Proof.
  intros c. assert (wf_ctx c) as Hc by (apply vec_ctx_wf; unfold urange; lia).
  assert (uniform (VR c (vb 0x1061140c)) 5) as Hu.
  { intros i Hi. zenum i 0 16%nat; reflexivity. }
  assert (vd 0x1061140c <> vb 0x1061140c) as Hne by (vm_compute; congruence).
  pose proof (vec_shift128 SSE2 c 0x1061140c 0x108311c4 5 Hc Hu eq_refl eq_refl Hne) as [H _]. exact H.
Defined.

(** ** Unpacking and packing *)

(** Three instructions: two unary ones on the same operand, and one that reads
    both results, with the sticky vector. *)
Lemma unpack_pack_chain (f g : Z -> Z) (h : Z -> Z -> Z -> Z * Z) c i1 i2 i3 :
  wf_ctx c -> (forall v, urange 128 (f v)) -> (forall v, urange 128 (g v)) ->
  vb i2 = vb i1 -> vd i1 <> vb i1 -> vd i1 <> vd i2 -> va i3 = vd i1 -> vb i3 = vd i2 ->
  let r := h (f (VR c (vb i1))) (g (VR c (vb i1))) (sat c) in
  urange 128 (snd r) ->
  let c' := vsat2 h (vop1 g (vop1 f c i1) i2) i3 in
  VR c' (vd i3) = fst r /\ sat c' = snd r.
Proof.
  intros Hc Hf Hg Eb Hne Hd Ea3 Eb3 r Hr. cbv zeta. unfold vsat2, vop1. rewrite Ea3, Eb3, Eb.
  assert (wf_ctx (set_vr (vd i1) (f (VR c (vb i1))) c)) as W1 by auto with wf.
  pose proof (vd_range i1) as R1. pose proof (vb_range i1) as R2. pose proof (vd_range i2) as R3.
  pose proof (vd_range i3) as R4. clear Ea3 Eb3 Eb.
  generalize dependent (vd i1). generalize dependent (vd i2). generalize dependent (vd i3).
  revert r Hr R2. generalize (vb i1). intros b1 r Hr R2 d3 R4 d2 R3 d1 Hne Hd W1 R1.
  rewrite (VR_set_ne d1 b1) by done.
  rewrite (VR_set_ne d2 d1) by (done || congruence). rewrite (VR_set_vr d1) by done.
  rewrite (VR_set_vr d2) by done. cbn [sat set_vr with_vr]. fold r. destruct r as [x s]. cbn [fst snd] in *.
  rewrite VR_set_vr; [done| |done]. apply with_sat_wf; auto with wf.
Qed.

(** The elements of a vector of [w]-bit elements, extended and packed again. *)
Lemma pack_unpack w v lo hi :
  (w = 16 \/ w = 32) -> urange 128 v ->
  lo = vmake w (fun i => slane (w / 2) v i) -> hi = vmake w (fun i => slane (w / 2) v (128 / w + i)) ->
  vpack w slane (clamp_s (w / 2)) lo hi = v /\
  forall i, 0 <= i < 128 / w -> srange (w / 2) (slane w lo i) /\ srange (w / 2) (slane w hi i).
Proof.
  intros Hw Hv -> ->.
  assert (width w /\ width (w / 2) /\ w <> 8 /\ 0 < w / 2 < w /\ 128 / (w / 2) = 2 * (128 / w)) as (W1 & W2 & Hne & Hh & Hn).
  { destruct Hw as [-> | ->]; split_and!; auto with lanes; done. }
  assert (forall j i, 0 <= i < 128 / w -> slane w (vmake w (fun i => slane (w / 2) v (j + i))) i = slane (w / 2) v (j + i)) as Hs.
  { intros j i Hi. rewrite slane_vmake by done. apply sext_id; [lia|].
    pose proof (slane_range (w / 2) v (j + i) ltac:(lia)) as [H1 H2].
    pose proof (Z.pow_le_mono_r 2 (w / 2 - 1) (w - 1)). unfold srange. lia. }
  assert (forall i, 0 <= i < 128 / w -> slane w (vmake w (fun i => slane (w / 2) v i)) i = slane (w / 2) v i) as H0.
  { intros i Hi. rewrite slane_vmake by done. apply sext_id; [lia|].
    pose proof (slane_range (w / 2) v i ltac:(lia)) as [H1 H2].
    pose proof (Z.pow_le_mono_r 2 (w / 2 - 1) (w - 1)). unfold srange. lia. }
  split.
  - apply (vec_ext (w / 2)); [done|by apply vmake_range|done|]. intros i Hi.
    rewrite lane_vpack by done. rewrite Hn in Hi. unfold elem2.
    assert (forall k, wrap (w / 2) (clamp_s (w / 2) (slane (w / 2) v k)) = lane (w / 2) v k) as Hc.
    { intros k. rewrite <- wrap_slane by lia. f_equal. pose proof (slane_range (w / 2) v k ltac:(lia)).
      unfold clamp_s, srange in *. lia. }
    destruct (Z.ltb_spec i (128 / w)); [rewrite H0 by lia; apply Hc|].
    rewrite Hs by lia. replace (128 / w + (i - 128 / w)) with i by lia. apply Hc.
  - intros i Hi. rewrite H0, Hs by done. split; apply slane_range; lia.
Qed.

(** The signed saturating pack of the extended halves clamps nothing. *)
Lemma pack_unpack_saturates w v s r :
  (w = 16 \/ w = 32) -> urange 128 v ->
  saturates (w / 2) true
    (elem2 slane w (vmake w (fun i => slane (w / 2) v i)) (vmake w (fun i => slane (w / 2) v (128 / w + i)))) s r ->
  fst r = v /\ urange 128 (snd r) /\ (snd r = 0 <-> s = 0).
Proof.
  intros Hw Hv (H1 & H2 & H3).
  destruct (pack_unpack w v _ _ Hw Hv eq_refl eq_refl) as [E1 E2].
  split_and!; [by rewrite H1|done|]. rewrite H3. split; [by intros []|]. intros Hs. split; [done|].
  apply (elem2_all w slane (fun x => clamp true (w / 2) x = x)); [done|]. intros j Hj.
  destruct (E2 j Hj) as [A B]. cbn [clamp]. unfold clamp_s, srange in *. split; lia.
Qed.

(** The instruction sequence, from the equations of its operations. *)
Lemma unpack_pack_family w (f g : Z -> Z) (h : Z -> Z -> Z -> Z * Z) c i1 i2 i3 :
  (w = 16 \/ w = 32) ->
  (forall v, f v = vmake w (fun i => slane (w / 2) v (128 / w + i))) ->
  (forall v, g v = vmake w (fun i => slane (w / 2) v i)) ->
  (forall a b s, urange 128 a -> urange 128 b -> urange 128 s ->
     saturates (w / 2) true (elem2 slane w b a) s (h a b s)) ->
  wf_ctx c -> vb i2 = vb i1 -> vd i1 <> vb i1 -> vd i1 <> vd i2 -> va i3 = vd i1 -> vb i3 = vd i2 ->
  let c' := vsat2 h (vop1 g (vop1 f c i1) i2) i3 in
  VR c' (vd i3) = VR c (vb i1) /\ (sat c' = 0 <-> sat c = 0).
Proof.
  intros Hw Hf Hg Hh Hc H1 H2 H3 H4 H5. cbv zeta.
  assert (width w) as Ww by (destruct Hw as [-> | ->]; auto with lanes).
  assert (forall v, urange 128 (f v)) as Rf by (intros; rewrite Hf; by apply vmake_range).
  assert (forall v, urange 128 (g v)) as Rg by (intros; rewrite Hg; by apply vmake_range).
  pose proof (VR_range c (vb i1) Hc (vb_range i1)) as Hv.
  specialize (Hh _ _ _ (Rf (VR c (vb i1))) (Rg (VR c (vb i1))) (wf_sat _ Hc)).
  rewrite Hf, Hg in Hh. destruct (pack_unpack_saturates w _ _ _ Hw Hv Hh) as (E1 & E2 & E3).
  rewrite <- Hf, <- Hg in E1, E2, E3.
  destruct (unpack_pack_chain f g h c i1 i2 i3 Hc Rf Rg H1 H2 H3 H4 H5 E2) as [-> ->]. done.
Qed.

(** Unpacking the two halves of a register to twice the width and packing
    the results again with signed saturation gives the register back and does
    not set the sticky saturation vector, for bytes and for halfwords, with
    SSE2, SSSE3 and SSE4.1. *)
Theorem vec_unpack_pack (m : isa) c i1 i2 i3 :
  wf_ctx c -> vb i2 = vb i1 -> vd i1 <> vb i1 -> vd i1 <> vd i2 -> va i3 = vd i1 -> vb i3 = vd i2 ->
  let c1 := VPKSHSS (VUPKLSB m (VUPKHSB m c i1) i2) i3 in
  let c2 := VPKSWSS (VUPKLSH m (VUPKHSH m c i1) i2) i3 in
  (VR c1 (vd i3) = VR c (vb i1) /\ (sat c1 = 0 <-> sat c = 0)) /\
  (VR c2 (vd i3) = VR c (vb i1) /\ (sat c2 = 0 <-> sat c = 0)).
Proof.
  intros. split.
  - apply (unpack_pack_family 16); try done; [tauto| | |].
    + apply gv_extend_hi_s8_eq.
    + apply gv_extend_lo_s8_eq.
    + apply pkshss_saturates.
  - apply (unpack_pack_family 32); try done; [tauto| | |].
    + apply gv_extend_hi_s16_eq.
    + apply gv_extend_lo_s16_eq.
    + apply pkswss_saturates.
Qed.

(** [vupkhsb v3, v1; vupklsb v4, v1; vpkshss v5, v3, v4]. *)
Lemma vec_unpack_pack_witness :
  let c := vec_ctx 0x0123456789abcdef0123456789abcdef 0 0 in
  VR (VPKSHSS (VUPKLSB SSSE3 (VUPKHSB SSSE3 c 0x10600a0e) 0x10800a8e) 0x10a3218e) 5
  = 0x0123456789abcdef0123456789abcdef.
Proof.
  intros c. assert (wf_ctx c) as Hc by (apply vec_ctx_wf; unfold urange; lia).
  refine (proj1 (proj1 (vec_unpack_pack SSSE3 c 0x10600a0e 0x10800a8e 0x10a3218e Hc eq_refl _ _ eq_refl eq_refl)));
    vm_compute; congruence.
Defined.

(** ** Results that are lost *)

Definition msumu_exact (a b c i : Z) : Z := lane 32 c i + sum2 (fun j => lane 16 a j * lane 16 b j) i.

(** One word of [VMSUMUHS_sem]: the carries out of the two additions, as
    masks, and the clamped sum. *)
Lemma msumuhs_word x y z :
  0 <= x <= 65535 * 65535 -> 0 <= y <= 65535 * 65535 -> urange 32 z ->
  let s1 := u32 (x + y) in
  let x1 := u32 (mask (s1 <? x)) in
  let s2 := u32 (s1 + z) ||| x1 in
  let x2 := u32 (mask (s2 <? s1)) in
  s2 ||| x2 = u32 (clamp_u 32 (z + (x + y))) /\
  (x1 ||| x2 = 0 <-> clamp_u 32 (z + (x + y)) = z + (x + y)).
Proof.
  intros Hx Hy Hz. cbv zeta. rewrite Z.lor_eq_0_iff.
  rewrite (lor_mask 32 _ (u32 (u32 (x + y) + z))) by (lia || apply wrap_range; lia).
  assert (forall b, u32 (mask b) = 0 <-> b = false) as Hm by (by intros []).
  assert ((u32 (x + y) <? x) = (2 ^ 32 <=? x + y)) as -> by mlia.
  destruct (Z.leb_spec (2 ^ 32) (x + y)) as [H|H].
  - rewrite lor_mask by (lia || done). rewrite !Hm. split; [|split; [by intros []|mlia]].
    assert ((2 ^ 32 - 1 <? u32 (x + y)) = false) as -> by mlia. mlia.
  - rewrite lor_mask by (lia || apply wrap_range; lia). rewrite !Hm, (wrap_id 32 (x + y)) by (unfold urange; lia).
    split; [|split]; mlia.
Qed.

Lemma msumuhs_saturates m a b c s :
  urange 128 c -> urange 128 s -> saturates 32 false (msumu_exact a b c) s (VMSUMUHS_sem m a b c s).
Proof.
  intros Hc Hs. unfold VMSUMUHS_sem. cbv zeta. rewrite gv_mul_even_u16_eq, gv_mul_odds_u16_eq.
  set (m1 := even_prod lane a b). set (m2 := odds_prod lane a b).
  assert (urange 128 m1 /\ urange 128 m2) as [R1 R2] by (split; apply vmake_range; auto with lanes).
  rewrite !gv_gtu32_eq by (autounfold with simd; vrange).
  assert (forall j, 0 <= lane 16 a j * lane 16 b j <= 65535 * 65535) as Hp.
  { intros j. pose proof (lane_range 16 a j ltac:(lia)). pose proof (lane_range 16 b j ltac:(lia)). unfold urange in *. nia. }
  assert (forall i, 0 <= i < 128 / 32 -> lane 32 m1 i = lane 16 a (2 * i) * lane 16 b (2 * i) /\
            lane 32 m2 i = lane 16 a (2 * i + 1) * lane 16 b (2 * i + 1)) as Hm.
  { intros i Hi. unfold m1, m2, even_prod, odds_prod. rewrite !lane_vmake by auto with lanes.
    pose proof (Hp (2 * i)). pose proof (Hp (2 * i + 1)). rewrite !wrap_id by (unfold urange; lia). done. }
  assert (forall i, 0 <= i < 128 / 32 -> let x := lane 32 m1 i in let y := lane 32 m2 i in
            0 <= x <= 65535 * 65535 /\ 0 <= y <= 65535 * 65535 /\ msumu_exact a b c i = lane 32 c i + (x + y)) as W.
  { intros i Hi. destruct (Hm i Hi) as [-> ->]. pose proof (Hp (2 * i)). pose proof (Hp (2 * i + 1)). done. }
  clear Hm Hp. clearbody m1 m2. unfold saturates. cbn [fst snd]. split_and!.
  - by_lanes 32 i. destruct (W i Hi) as (Hx & Hy & ->). cbn [clamp].
    apply (msumuhs_word _ _ _ Hx Hy (lane_range 32 c i ltac:(lia))).
  - autounfold with simd; vrange.
  - apply (sticky_or 32); [auto with lanes|autounfold with simd; vrange|]. intros i Hi.
    autounfold with simd. lane_push. destruct (W i Hi) as (Hx & Hy & ->). cbn [clamp].
    apply (msumuhs_word _ _ _ Hx Hy (lane_range 32 c i ltac:(lia))).
Qed.

(** Two instructions lose a result.  The unsigned halfword multiply-sum
    with saturation computes the exact sums clamped to words, and sets the
    sticky vector when one was clamped, but its destination is a copy: no
    vector register changes.  The unsigned pack of signed words writes the
    clamped halfwords, but its sticky vector is a copy: saturation is never
    recorded. *)
Theorem vec_lost_results (m : isa) c inst :
  wf_ctx c ->
  let a := VR c (va inst) in let b := VR c (vb inst) in
  let r := VMSUMUHS_sem m a b (VR c (vc inst)) (sat c) in
  let c1 := VMSUMUHS m c inst in
  let c2 := VPKSWUS m c inst in
  saturates 32 false (msumu_exact a b (VR c (vc inst))) (sat c) r /\
  sat c1 = snd r /\ vr c1 = vr c /\
  (forall i, 0 <= i < 8 -> lane 16 (VR c2 (vd inst)) i = clamp_u 16 (elem2 slane 32 b a i)) /\
  sat c2 = sat c.
Proof.
  intros Hc. cbv zeta. split_and!.
  - apply msumuhs_saturates; [|by apply wf_sat]. apply VR_range; [done|apply vc_range].
  - done.
  - done.
  - intros i Hi. unfold VPKSWUS, vop2.
    pose proof (vd_range inst) as Hd. revert Hd. generalize (vd inst). intros d Hd.
    rewrite VR_set_vr, gv_packus_s32_eq by done. rewrite (lane_vpack 32) by (auto with lanes; done).
    exact (clamp_view false 16 _ ltac:(lia)).
  - done.
Qed.

(** [vmsumuhs v4, v1, v2, v3] on all-ones operands should give all ones, and
    [vpkswus v4, v1, v2] on negative words saturates: register 4 and the
    sticky vector stay zero. *)
Lemma vec_lost_results_witness :
  let c := vec_ctx (2 ^ 128 - 1) (2 ^ 128 - 1) 0 in
  fst (VMSUMUHS_sem SSE4_1 (VR c 1) (VR c 2) (VR c 3) (sat c)) = 2 ^ 128 - 1 /\
  VR (VMSUMUHS SSE4_1 c 0x108110e7) 4 = 0 /\ sat (VPKSWUS SSE4_1 c 0x1081114e) = 0.
Proof.
  intros c. assert (wf_ctx c) as Hc by (apply vec_ctx_wf; unfold urange; lia).
  pose proof (vec_lost_results SSE4_1 c 0x108110e7 Hc) as ([E _] & _ & E1 & _).
  pose proof (vec_lost_results SSE4_1 c 0x1081114e Hc) as (_ & _ & _ & _ & E2).
  split_and!; [exact E| |exact E2]. unfold VR. rewrite E1. reflexivity.
Defined.
