(* ===== verification/PpuDecoder.v ===== *)
(** * PPU instruction decoder

    [rpcsx/cpu/cell/ppu/Opcode.hpp] (the opcode enumeration), [src/Decoder.cpp]
    (the decoder table, built by [fill_table] from nine groups of encodings,
    and [fixOpcode], which names the simplified mnemonics) and [Decoder.hpp]
    ([getOpcode], the table lookup).  The 131072-entry array is a function
    from the index; the loops that fill it are folds.  The theorems show what
    the filled table contains for every instruction word. *)

From stdpp Require Import base numbers list tactics.
From Stdlib Require Import Lia.
From S2P Require Import Prelude Asm PpuInstruction PpuContext PpuArith PpuLogic PpuCr.
Import Instruction.
Open Scope Z_scope.
Open Scope mach_scope.

Module Opcode.

(** [enum class Opcode]: the enumerators in order. *)
Inductive t : Set :=
  | Invalid | MFVSCR | MTVSCR | VADDCUW | VADDFP | VADDSBS | VADDSHS | VADDSWS | VADDUBM
  | VADDUBS | VADDUHM | VADDUHS | VADDUWM | VADDUWS | VAND | VANDC | VAVGSB | VAVGSH
  | VAVGSW | VAVGUB | VAVGUH | VAVGUW | VCFSX | VCFUX | VCMPBFP | VCMPBFP_ | VCMPEQFP
  | VCMPEQFP_ | VCMPEQUB | VCMPEQUB_ | VCMPEQUH | VCMPEQUH_ | VCMPEQUW | VCMPEQUW_
  | VCMPGEFP | VCMPGEFP_ | VCMPGTFP | VCMPGTFP_ | VCMPGTSB | VCMPGTSB_ | VCMPGTSH
  | VCMPGTSH_ | VCMPGTSW | VCMPGTSW_ | VCMPGTUB | VCMPGTUB_ | VCMPGTUH | VCMPGTUH_
  | VCMPGTUW | VCMPGTUW_ | VCTSXS | VCTUXS | VEXPTEFP | VLOGEFP | VMADDFP | VMAXFP | VMAXSB
  | VMAXSH | VMAXSW | VMAXUB | VMAXUH | VMAXUW | VMHADDSHS | VMHRADDSHS | VMINFP | VMINSB
  | VMINSH | VMINSW | VMINUB | VMINUH | VMINUW | VMLADDUHM | VMRGHB | VMRGHH | VMRGHW
  | VMRGLB | VMRGLH | VMRGLW | VMSUMMBM | VMSUMSHM | VMSUMSHS | VMSUMUBM | VMSUMUHM
  | VMSUMUHS | VMULESB | VMULESH | VMULEUB | VMULEUH | VMULOSB | VMULOSH | VMULOUB
  | VMULOUH | VNMSUBFP | VNOR | VOR | VPERM | VPKPX | VPKSHSS | VPKSHUS | VPKSWSS | VPKSWUS
  | VPKUHUM | VPKUHUS | VPKUWUM | VPKUWUS | VREFP | VRFIM | VRFIN | VRFIP | VRFIZ | VRLB
  | VRLH | VRLW | VRSQRTEFP | VSEL | VSL | VSLB | VSLDOI | VSLH | VSLO | VSLW | VSPLTB
  | VSPLTH | VSPLTISB | VSPLTISH | VSPLTISW | VSPLTW | VSR | VSRAB | VSRAH | VSRAW | VSRB
  | VSRH | VSRO | VSRW | VSUBCUW | VSUBFP | VSUBSBS | VSUBSHS | VSUBSWS | VSUBUBM | VSUBUBS
  | VSUBUHM | VSUBUHS | VSUBUWM | VSUBUWS | VSUMSWS | VSUM2SWS | VSUM4SBS | VSUM4SHS
  | VSUM4UBS | VUPKHPX | VUPKHSB | VUPKHSH | VUPKLPX | VUPKLSB | VUPKLSH | VXOR | TDI | TWI
  | MULLI | SUBFIC | CMPLI | CMPI | ADDIC | ADDI | ADDIS | BC | SC | B | MCRF | BCLR | RFID
  | CRNOR | RFSCV | CRANDC | ISYNC | CRXOR | CRNAND | CRAND | HRFID | CREQV | URFID | STOP
  | CRORC | CROR | BCCTR | RLWIMI | RLWINM | RLWNM | ORI | ORIS | XORI | XORIS | ANDI
  | ANDIS | RLDICL | RLDICR | RLDIC | RLDIMI | RLDCL | RLDCR | CMP | TW | LVSL | LVEBX
  | SUBFC | MULHDU | ADDC | MULHWU | MFOCRF | LWARX | LDX | LWZX | SLW | CNTLZW | SLD | AND
  | CMPL | LVSR | LVEHX | SUBF | LDUX | DCBST | LWZUX | CNTLZD | ANDC | TD | LVEWX | MULHD
  | MULHW | LDARX | DCBF | LBZX | LVX | NEG | LBZUX | NOR | STVEBX | SUBFE | ADDE | MTOCRF
  | STDX | STWCX | STWX | STVEHX | STDUX | STWUX | STVEWX | SUBFZE | ADDZE | STDCX | STBX
  | STVX | MULLD | SUBFME | ADDME | MULLW | DCBTST | STBUX | ADD | DCBT | LHZX | EQV
  | ECIWX | LHZUX | XOR | MFSPR | LWAX | DST | LHAX | LVXL | MFTB | LWAUX | DSTST | LHAUX
  | STHX | ORC | ECOWX | STHUX | OR | DIVDU | DIVWU | MTSPR | DCBI | NAND | STVXL | DIVD
  | DIVW | LVLX | LDBRX | LSWX | LWBRX | LFSX | SRW | SRD | LVRX | LSWI | LFSUX | SYNC
  | LFDX | LFDUX | STVLX | STDBRX | STSWX | STWBRX | STFSX | STVRX | STFSUX | STSWI | STFDX
  | STFDUX | LVLXL | LHBRX | SRAW | SRAD | LVRXL | DSS | SRAWI | SRADI | EIEIO | STVLXL
  | STHBRX | EXTSH | STVRXL | EXTSB | STFIWX | EXTSW | ICBI | DCBZ | LWZ | LWZU | LBZ
  | LBZU | STW | STWU | STB | STBU | LHZ | LHZU | LHA | LHAU | STH | STHU | LMW | STMW
  | LFS | LFSU | LFD | LFDU | STFS | STFSU | STFD | STFDU | LD | LDU | LWA | STD | STDU
  | FDIVS | FSUBS | FADDS | FSQRTS | FRES | FMULS | FMADDS | FMSUBS | FNMSUBS | FNMADDS
  | MTFSB1 | MCRFS | MTFSB0 | MTFSFI | MFFS | MTFSF | FCMPU | FRSP | FCTIW | FCTIWZ | FDIV
  | FSUB | FADD | FSQRT | FSEL | FMUL | FRSQRTE | FMSUB | FMADD | FNMSUB | FNMADD | FCMPO
  | FNEG | FMR | FNABS | FABS | FCTID | FCTIDZ | FCFID | UNK | SUBFCO | ADDCO | SUBFO
  | NEGO | SUBFEO | ADDEO | SUBFZEO | ADDZEO | SUBFMEO | MULLDO | ADDMEO | MULLWO | ADDO
  | DIVDUO | DIVWUO | DIVDO | DIVWO | SUBFCO_ | ADDCO_ | SUBFO_ | NEGO_ | SUBFEO_ | ADDEO_
  | SUBFZEO_ | ADDZEO_ | SUBFMEO_ | MULLDO_ | ADDMEO_ | MULLWO_ | ADDO_ | DIVDUO_ | DIVWUO_
  | DIVDO_ | DIVWO_ | RLWIMI_ | RLWINM_ | RLWNM_ | RLDICL_ | RLDICR_ | RLDIC_ | RLDIMI_
  | RLDCL_ | RLDCR_ | SUBFC_ | MULHDU_ | ADDC_ | MULHWU_ | SLW_ | CNTLZW_ | SLD_ | AND_
  | SUBF_ | CNTLZD_ | ANDC_ | MULHD_ | MULHW_ | NEG_ | NOR_ | SUBFE_ | ADDE_ | SUBFZE_
  | ADDZE_ | MULLD_ | SUBFME_ | ADDME_ | MULLW_ | ADD_ | EQV_ | XOR_ | ORC_ | OR_ | DIVDU_
  | DIVWU_ | NAND_ | DIVD_ | DIVW_ | SRW_ | SRD_ | SRAW_ | SRAD_ | SRAWI_ | SRADI_ | EXTSH_
  | EXTSB_ | EXTSW_ | FDIVS_ | FSUBS_ | FADDS_ | FSQRTS_ | FRES_ | FMULS_ | FMADDS_
  | FMSUBS_ | FNMSUBS_ | FNMADDS_ | MTFSB1_ | MTFSB0_ | MTFSFI_ | MFFS_ | MTFSF_ | FRSP_
  | FCTIW_ | FCTIWZ_ | FDIV_ | FSUB_ | FADD_ | FSQRT_ | FSEL_ | FMUL_ | FRSQRTE_ | FMSUB_
  | FMADD_ | FNMSUB_ | FNMADD_ | FNEG_ | FMR_ | FNABS_ | FABS_ | FCTID_ | FCTIDZ_ | FCFID_
  | LI | LIS | NOP | MR | CLRLDI | ROTLDI | SRDI | CMPD | CMPW | CMPLD | CMPLW | NOT
  | MTCRF | MFXER | MFLR | MFCTR | MFTBU | CCTPL | CCTPM | CCTPH | DB8CYC | DB10CYC
  | DB12CYC | DB16CYC | CRNOT | BDNZF | BDZF | BDNZT | BDZT | BDZ | BDZ_P | BDZ_M | BDNZ
  | BDNZ_P | BDNZ_M | BGE | BGE_P | BGE_M | BLE | BLE_P | BLE_M | BNE | BNE_P | BNE_M | BNS
  | BNS_P | BNS_M | BLT | BLT_P | BLT_M | BGT | BGT_P | BGT_M | BEQ | BEQ_P | BEQ_M | BSO
  | BSO_P | BSO_M | BDNZFL | BDZFL | BDNZTL | BDZTL | BDZL | BDZL_P | BDZL_M | BDNZL
  | BDNZL_P | BDNZL_M | BGEL | BGEL_P | BGEL_M | BLEL | BLEL_P | BLEL_M | BNEL | BNEL_P
  | BNEL_M | BNSL | BNSL_P | BNSL_M | BLTL | BLTL_P | BLTL_M | BGTL | BGTL_P | BGTL_M
  | BEQL | BEQL_P | BEQL_M | BSOL | BSOL_P | BSOL_M | BDNZFA | BDZFA | BDNZTA | BDZTA
  | BDZA | BDZA_P | BDZA_M | BDNZA | BDNZA_P | BDNZA_M | BGEA | BGEA_P | BGEA_M | BLEA
  | BLEA_P | BLEA_M | BNEA | BNEA_P | BNEA_M | BNSA | BNSA_P | BNSA_M | BLTA | BLTA_P
  | BLTA_M | BGTA | BGTA_P | BGTA_M | BEQA | BEQA_P | BEQA_M | BSOA | BSOA_P | BSOA_M
  | BDNZFLA | BDZFLA | BDNZTLA | BDZTLA | BDZLA | BDZLA_P | BDZLA_M | BDNZLA | BDNZLA_P
  | BDNZLA_M | BGELA | BGELA_P | BGELA_M | BLELA | BLELA_P | BLELA_M | BNELA | BNELA_P
  | BNELA_M | BNSLA | BNSLA_P | BNSLA_M | BLTLA | BLTLA_P | BLTLA_M | BGTLA | BGTLA_P
  | BGTLA_M | BEQLA | BEQLA_P | BEQLA_M | BSOLA | BSOLA_P | BSOLA_M | BDNZFLR | BDZFLR
  | BDNZTLR | BDZTLR | BDZLR | BDZLR_P | BDZLR_M | BDNZLR | BDNZLR_P | BDNZLR_M | BGELR
  | BGELR_P | BGELR_M | BLELR | BLELR_P | BLELR_M | BNELR | BNELR_P | BNELR_M | BNSLR
  | BNSLR_P | BNSLR_M | BLTLR | BLTLR_P | BLTLR_M | BGTLR | BGTLR_P | BGTLR_M | BEQLR
  | BEQLR_P | BEQLR_M | BSOLR | BSOLR_P | BSOLR_M | BDNZFCTR | BDZFCTR | BDNZTCTR | BDZTCTR
  | BDZCTR | BDZCTR_P | BDZCTR_M | BDNZCTR | BDNZCTR_P | BDNZCTR_M | BGECTR | BGECTR_P
  | BGECTR_M | BLECTR | BLECTR_P | BLECTR_M | BNECTR | BNECTR_P | BNECTR_M | BNSCTR
  | BNSCTR_P | BNSCTR_M | BLTCTR | BLTCTR_P | BLTCTR_M | BGTCTR | BGTCTR_P | BGTCTR_M
  | BEQCTR | BEQCTR_P | BEQCTR_M | BSOCTR | BSOCTR_P | BSOCTR_M | BDNZFCTRL | BDZFCTRL
  | BDNZTCTRL | BDZTCTRL | BDZCTRL | BDZCTRL_P | BDZCTRL_M | BDNZCTRL | BDNZCTRL_P
  | BDNZCTRL_M | BGECTRL | BGECTRL_P | BGECTRL_M | BLECTRL | BLECTRL_P | BLECTRL_M
  | BNECTRL | BNECTRL_P | BNECTRL_M | BNSCTRL | BNSCTRL_P | BNSCTRL_M | BLTCTRL | BLTCTRL_P
  | BLTCTRL_M | BGTCTRL | BGTCTRL_P | BGTCTRL_M | BEQCTRL | BEQCTRL_P | BEQCTRL_M | BSOCTRL
  | BSOCTRL_P | BSOCTRL_M | BDNZFLRL | BDZFLRL | BDNZTLRL | BDZTLRL | BDZLRL | BDZLRL_P
  | BDZLRL_M | BDNZLRL | BDNZLRL_P | BDNZLRL_M | BGELRL | BGELRL_P | BGELRL_M | BLELRL
  | BLELRL_P | BLELRL_M | BNELRL | BNELRL_P | BNELRL_M | BNSLRL | BNSLRL_P | BNSLRL_M
  | BLTLRL | BLTLRL_P | BLTLRL_M | BGTLRL | BGTLRL_P | BGTLRL_M | BEQLRL | BEQLRL_P
  | BEQLRL_M | BSOLRL | BSOLRL_P | BSOLRL_M | BL | BA | BLA | BCL | BCA | BCLA | BLR | BTLR
  | BFLR | BCTRL | BCCTRL | BTCTRL | BFCTRL | _count.

(** The enumerators as a list; an opcode is its position. *)
Definition all : list t :=
  [
   Invalid; MFVSCR; MTVSCR; VADDCUW; VADDFP; VADDSBS; VADDSHS; VADDSWS; VADDUBM; VADDUBS;
   VADDUHM; VADDUHS; VADDUWM; VADDUWS; VAND; VANDC; VAVGSB; VAVGSH; VAVGSW; VAVGUB; VAVGUH;
   VAVGUW; VCFSX; VCFUX; VCMPBFP; VCMPBFP_; VCMPEQFP; VCMPEQFP_; VCMPEQUB; VCMPEQUB_;
   VCMPEQUH; VCMPEQUH_; VCMPEQUW; VCMPEQUW_; VCMPGEFP; VCMPGEFP_; VCMPGTFP; VCMPGTFP_;
   VCMPGTSB; VCMPGTSB_; VCMPGTSH; VCMPGTSH_; VCMPGTSW; VCMPGTSW_; VCMPGTUB; VCMPGTUB_;
   VCMPGTUH; VCMPGTUH_; VCMPGTUW; VCMPGTUW_; VCTSXS; VCTUXS; VEXPTEFP; VLOGEFP; VMADDFP;
   VMAXFP; VMAXSB; VMAXSH; VMAXSW; VMAXUB; VMAXUH; VMAXUW; VMHADDSHS; VMHRADDSHS; VMINFP;
   VMINSB; VMINSH; VMINSW; VMINUB; VMINUH; VMINUW; VMLADDUHM; VMRGHB; VMRGHH; VMRGHW;
   VMRGLB; VMRGLH; VMRGLW; VMSUMMBM; VMSUMSHM; VMSUMSHS; VMSUMUBM; VMSUMUHM; VMSUMUHS;
   VMULESB; VMULESH; VMULEUB; VMULEUH; VMULOSB; VMULOSH; VMULOUB; VMULOUH; VNMSUBFP; VNOR;
   VOR; VPERM; VPKPX; VPKSHSS; VPKSHUS; VPKSWSS; VPKSWUS; VPKUHUM; VPKUHUS; VPKUWUM;
   VPKUWUS; VREFP; VRFIM; VRFIN; VRFIP; VRFIZ; VRLB; VRLH; VRLW; VRSQRTEFP; VSEL; VSL;
   VSLB; VSLDOI; VSLH; VSLO; VSLW; VSPLTB; VSPLTH; VSPLTISB; VSPLTISH; VSPLTISW; VSPLTW;
   VSR; VSRAB; VSRAH; VSRAW; VSRB; VSRH; VSRO; VSRW; VSUBCUW; VSUBFP; VSUBSBS; VSUBSHS;
   VSUBSWS; VSUBUBM; VSUBUBS; VSUBUHM; VSUBUHS; VSUBUWM; VSUBUWS; VSUMSWS; VSUM2SWS;
   VSUM4SBS; VSUM4SHS; VSUM4UBS; VUPKHPX; VUPKHSB; VUPKHSH; VUPKLPX; VUPKLSB; VUPKLSH;
   VXOR; TDI; TWI; MULLI; SUBFIC; CMPLI; CMPI; ADDIC; ADDI; ADDIS; BC; SC; B; MCRF; BCLR;
   RFID; CRNOR; RFSCV; CRANDC; ISYNC; CRXOR; CRNAND; CRAND; HRFID; CREQV; URFID; STOP;
   CRORC; CROR; BCCTR; RLWIMI; RLWINM; RLWNM; ORI; ORIS; XORI; XORIS; ANDI; ANDIS; RLDICL;
   RLDICR; RLDIC; RLDIMI; RLDCL; RLDCR; CMP; TW; LVSL; LVEBX; SUBFC; MULHDU; ADDC; MULHWU;
   MFOCRF; LWARX; LDX; LWZX; SLW; CNTLZW; SLD; AND; CMPL; LVSR; LVEHX; SUBF; LDUX; DCBST;
   LWZUX; CNTLZD; ANDC; TD; LVEWX; MULHD; MULHW; LDARX; DCBF; LBZX; LVX; NEG; LBZUX; NOR;
   STVEBX; SUBFE; ADDE; MTOCRF; STDX; STWCX; STWX; STVEHX; STDUX; STWUX; STVEWX; SUBFZE;
   ADDZE; STDCX; STBX; STVX; MULLD; SUBFME; ADDME; MULLW; DCBTST; STBUX; ADD; DCBT; LHZX;
   EQV; ECIWX; LHZUX; XOR; MFSPR; LWAX; DST; LHAX; LVXL; MFTB; LWAUX; DSTST; LHAUX; STHX;
   ORC; ECOWX; STHUX; OR; DIVDU; DIVWU; MTSPR; DCBI; NAND; STVXL; DIVD; DIVW; LVLX; LDBRX;
   LSWX; LWBRX; LFSX; SRW; SRD; LVRX; LSWI; LFSUX; SYNC; LFDX; LFDUX; STVLX; STDBRX; STSWX;
   STWBRX; STFSX; STVRX; STFSUX; STSWI; STFDX; STFDUX; LVLXL; LHBRX; SRAW; SRAD; LVRXL;
   DSS; SRAWI; SRADI; EIEIO; STVLXL; STHBRX; EXTSH; STVRXL; EXTSB; STFIWX; EXTSW; ICBI;
   DCBZ; LWZ; LWZU; LBZ; LBZU; STW; STWU; STB; STBU; LHZ; LHZU; LHA; LHAU; STH; STHU; LMW;
   STMW; LFS; LFSU; LFD; LFDU; STFS; STFSU; STFD; STFDU; LD; LDU; LWA; STD; STDU; FDIVS;
   FSUBS; FADDS; FSQRTS; FRES; FMULS; FMADDS; FMSUBS; FNMSUBS; FNMADDS; MTFSB1; MCRFS;
   MTFSB0; MTFSFI; MFFS; MTFSF; FCMPU; FRSP; FCTIW; FCTIWZ; FDIV; FSUB; FADD; FSQRT; FSEL;
   FMUL; FRSQRTE; FMSUB; FMADD; FNMSUB; FNMADD; FCMPO; FNEG; FMR; FNABS; FABS; FCTID;
   FCTIDZ; FCFID; UNK; SUBFCO; ADDCO; SUBFO; NEGO; SUBFEO; ADDEO; SUBFZEO; ADDZEO; SUBFMEO;
   MULLDO; ADDMEO; MULLWO; ADDO; DIVDUO; DIVWUO; DIVDO; DIVWO; SUBFCO_; ADDCO_; SUBFO_;
   NEGO_; SUBFEO_; ADDEO_; SUBFZEO_; ADDZEO_; SUBFMEO_; MULLDO_; ADDMEO_; MULLWO_; ADDO_;
   DIVDUO_; DIVWUO_; DIVDO_; DIVWO_; RLWIMI_; RLWINM_; RLWNM_; RLDICL_; RLDICR_; RLDIC_;
   RLDIMI_; RLDCL_; RLDCR_; SUBFC_; MULHDU_; ADDC_; MULHWU_; SLW_; CNTLZW_; SLD_; AND_;
   SUBF_; CNTLZD_; ANDC_; MULHD_; MULHW_; NEG_; NOR_; SUBFE_; ADDE_; SUBFZE_; ADDZE_;
   MULLD_; SUBFME_; ADDME_; MULLW_; ADD_; EQV_; XOR_; ORC_; OR_; DIVDU_; DIVWU_; NAND_;
   DIVD_; DIVW_; SRW_; SRD_; SRAW_; SRAD_; SRAWI_; SRADI_; EXTSH_; EXTSB_; EXTSW_; FDIVS_;
   FSUBS_; FADDS_; FSQRTS_; FRES_; FMULS_; FMADDS_; FMSUBS_; FNMSUBS_; FNMADDS_; MTFSB1_;
   MTFSB0_; MTFSFI_; MFFS_; MTFSF_; FRSP_; FCTIW_; FCTIWZ_; FDIV_; FSUB_; FADD_; FSQRT_;
   FSEL_; FMUL_; FRSQRTE_; FMSUB_; FMADD_; FNMSUB_; FNMADD_; FNEG_; FMR_; FNABS_; FABS_;
   FCTID_; FCTIDZ_; FCFID_; LI; LIS; NOP; MR; CLRLDI; ROTLDI; SRDI; CMPD; CMPW; CMPLD;
   CMPLW; NOT; MTCRF; MFXER; MFLR; MFCTR; MFTBU; CCTPL; CCTPM; CCTPH; DB8CYC; DB10CYC;
   DB12CYC; DB16CYC; CRNOT; BDNZF; BDZF; BDNZT; BDZT; BDZ; BDZ_P; BDZ_M; BDNZ; BDNZ_P;
   BDNZ_M; BGE; BGE_P; BGE_M; BLE; BLE_P; BLE_M; BNE; BNE_P; BNE_M; BNS; BNS_P; BNS_M; BLT;
   BLT_P; BLT_M; BGT; BGT_P; BGT_M; BEQ; BEQ_P; BEQ_M; BSO; BSO_P; BSO_M; BDNZFL; BDZFL;
   BDNZTL; BDZTL; BDZL; BDZL_P; BDZL_M; BDNZL; BDNZL_P; BDNZL_M; BGEL; BGEL_P; BGEL_M;
   BLEL; BLEL_P; BLEL_M; BNEL; BNEL_P; BNEL_M; BNSL; BNSL_P; BNSL_M; BLTL; BLTL_P; BLTL_M;
   BGTL; BGTL_P; BGTL_M; BEQL; BEQL_P; BEQL_M; BSOL; BSOL_P; BSOL_M; BDNZFA; BDZFA; BDNZTA;
   BDZTA; BDZA; BDZA_P; BDZA_M; BDNZA; BDNZA_P; BDNZA_M; BGEA; BGEA_P; BGEA_M; BLEA;
   BLEA_P; BLEA_M; BNEA; BNEA_P; BNEA_M; BNSA; BNSA_P; BNSA_M; BLTA; BLTA_P; BLTA_M; BGTA;
   BGTA_P; BGTA_M; BEQA; BEQA_P; BEQA_M; BSOA; BSOA_P; BSOA_M; BDNZFLA; BDZFLA; BDNZTLA;
   BDZTLA; BDZLA; BDZLA_P; BDZLA_M; BDNZLA; BDNZLA_P; BDNZLA_M; BGELA; BGELA_P; BGELA_M;
   BLELA; BLELA_P; BLELA_M; BNELA; BNELA_P; BNELA_M; BNSLA; BNSLA_P; BNSLA_M; BLTLA;
   BLTLA_P; BLTLA_M; BGTLA; BGTLA_P; BGTLA_M; BEQLA; BEQLA_P; BEQLA_M; BSOLA; BSOLA_P;
   BSOLA_M; BDNZFLR; BDZFLR; BDNZTLR; BDZTLR; BDZLR; BDZLR_P; BDZLR_M; BDNZLR; BDNZLR_P;
   BDNZLR_M; BGELR; BGELR_P; BGELR_M; BLELR; BLELR_P; BLELR_M; BNELR; BNELR_P; BNELR_M;
   BNSLR; BNSLR_P; BNSLR_M; BLTLR; BLTLR_P; BLTLR_M; BGTLR; BGTLR_P; BGTLR_M; BEQLR;
   BEQLR_P; BEQLR_M; BSOLR; BSOLR_P; BSOLR_M; BDNZFCTR; BDZFCTR; BDNZTCTR; BDZTCTR; BDZCTR;
   BDZCTR_P; BDZCTR_M; BDNZCTR; BDNZCTR_P; BDNZCTR_M; BGECTR; BGECTR_P; BGECTR_M; BLECTR;
   BLECTR_P; BLECTR_M; BNECTR; BNECTR_P; BNECTR_M; BNSCTR; BNSCTR_P; BNSCTR_M; BLTCTR;
   BLTCTR_P; BLTCTR_M; BGTCTR; BGTCTR_P; BGTCTR_M; BEQCTR; BEQCTR_P; BEQCTR_M; BSOCTR;
   BSOCTR_P; BSOCTR_M; BDNZFCTRL; BDZFCTRL; BDNZTCTRL; BDZTCTRL; BDZCTRL; BDZCTRL_P;
   BDZCTRL_M; BDNZCTRL; BDNZCTRL_P; BDNZCTRL_M; BGECTRL; BGECTRL_P; BGECTRL_M; BLECTRL;
   BLECTRL_P; BLECTRL_M; BNECTRL; BNECTRL_P; BNECTRL_M; BNSCTRL; BNSCTRL_P; BNSCTRL_M;
   BLTCTRL; BLTCTRL_P; BLTCTRL_M; BGTCTRL; BGTCTRL_P; BGTCTRL_M; BEQCTRL; BEQCTRL_P;
   BEQCTRL_M; BSOCTRL; BSOCTRL_P; BSOCTRL_M; BDNZFLRL; BDZFLRL; BDNZTLRL; BDZTLRL; BDZLRL;
   BDZLRL_P; BDZLRL_M; BDNZLRL; BDNZLRL_P; BDNZLRL_M; BGELRL; BGELRL_P; BGELRL_M; BLELRL;
   BLELRL_P; BLELRL_M; BNELRL; BNELRL_P; BNELRL_M; BNSLRL; BNSLRL_P; BNSLRL_M; BLTLRL;
   BLTLRL_P; BLTLRL_M; BGTLRL; BGTLRL_P; BGTLRL_M; BEQLRL; BEQLRL_P; BEQLRL_M; BSOLRL;
   BSOLRL_P; BSOLRL_M; BL; BA; BLA; BCL; BCA; BCLA; BLR; BTLR; BFLR; BCTRL; BCCTRL; BTCTRL;
   BFCTRL; _count].

(** The numeric value of an enumerator. *)
Definition index (o : t) : N :=
  match o with
  | Invalid => 0 | MFVSCR => 1 | MTVSCR => 2 | VADDCUW => 3 | VADDFP => 4 | VADDSBS => 5
  | VADDSHS => 6 | VADDSWS => 7 | VADDUBM => 8 | VADDUBS => 9 | VADDUHM => 10
  | VADDUHS => 11 | VADDUWM => 12 | VADDUWS => 13 | VAND => 14 | VANDC => 15 | VAVGSB => 16
  | VAVGSH => 17 | VAVGSW => 18 | VAVGUB => 19 | VAVGUH => 20 | VAVGUW => 21 | VCFSX => 22
  | VCFUX => 23 | VCMPBFP => 24 | VCMPBFP_ => 25 | VCMPEQFP => 26 | VCMPEQFP_ => 27
  | VCMPEQUB => 28 | VCMPEQUB_ => 29 | VCMPEQUH => 30 | VCMPEQUH_ => 31 | VCMPEQUW => 32
  | VCMPEQUW_ => 33 | VCMPGEFP => 34 | VCMPGEFP_ => 35 | VCMPGTFP => 36 | VCMPGTFP_ => 37
  | VCMPGTSB => 38 | VCMPGTSB_ => 39 | VCMPGTSH => 40 | VCMPGTSH_ => 41 | VCMPGTSW => 42
  | VCMPGTSW_ => 43 | VCMPGTUB => 44 | VCMPGTUB_ => 45 | VCMPGTUH => 46 | VCMPGTUH_ => 47
  | VCMPGTUW => 48 | VCMPGTUW_ => 49 | VCTSXS => 50 | VCTUXS => 51 | VEXPTEFP => 52
  | VLOGEFP => 53 | VMADDFP => 54 | VMAXFP => 55 | VMAXSB => 56 | VMAXSH => 57
  | VMAXSW => 58 | VMAXUB => 59 | VMAXUH => 60 | VMAXUW => 61 | VMHADDSHS => 62
  | VMHRADDSHS => 63 | VMINFP => 64 | VMINSB => 65 | VMINSH => 66 | VMINSW => 67
  | VMINUB => 68 | VMINUH => 69 | VMINUW => 70 | VMLADDUHM => 71 | VMRGHB => 72
  | VMRGHH => 73 | VMRGHW => 74 | VMRGLB => 75 | VMRGLH => 76 | VMRGLW => 77
  | VMSUMMBM => 78 | VMSUMSHM => 79 | VMSUMSHS => 80 | VMSUMUBM => 81 | VMSUMUHM => 82
  | VMSUMUHS => 83 | VMULESB => 84 | VMULESH => 85 | VMULEUB => 86 | VMULEUH => 87
  | VMULOSB => 88 | VMULOSH => 89 | VMULOUB => 90 | VMULOUH => 91 | VNMSUBFP => 92
  | VNOR => 93 | VOR => 94 | VPERM => 95 | VPKPX => 96 | VPKSHSS => 97 | VPKSHUS => 98
  | VPKSWSS => 99 | VPKSWUS => 100 | VPKUHUM => 101 | VPKUHUS => 102 | VPKUWUM => 103
  | VPKUWUS => 104 | VREFP => 105 | VRFIM => 106 | VRFIN => 107 | VRFIP => 108
  | VRFIZ => 109 | VRLB => 110 | VRLH => 111 | VRLW => 112 | VRSQRTEFP => 113 | VSEL => 114
  | VSL => 115 | VSLB => 116 | VSLDOI => 117 | VSLH => 118 | VSLO => 119 | VSLW => 120
  | VSPLTB => 121 | VSPLTH => 122 | VSPLTISB => 123 | VSPLTISH => 124 | VSPLTISW => 125
  | VSPLTW => 126 | VSR => 127 | VSRAB => 128 | VSRAH => 129 | VSRAW => 130 | VSRB => 131
  | VSRH => 132 | VSRO => 133 | VSRW => 134 | VSUBCUW => 135 | VSUBFP => 136
  | VSUBSBS => 137 | VSUBSHS => 138 | VSUBSWS => 139 | VSUBUBM => 140 | VSUBUBS => 141
  | VSUBUHM => 142 | VSUBUHS => 143 | VSUBUWM => 144 | VSUBUWS => 145 | VSUMSWS => 146
  | VSUM2SWS => 147 | VSUM4SBS => 148 | VSUM4SHS => 149 | VSUM4UBS => 150 | VUPKHPX => 151
  | VUPKHSB => 152 | VUPKHSH => 153 | VUPKLPX => 154 | VUPKLSB => 155 | VUPKLSH => 156
  | VXOR => 157 | TDI => 158 | TWI => 159 | MULLI => 160 | SUBFIC => 161 | CMPLI => 162
  | CMPI => 163 | ADDIC => 164 | ADDI => 165 | ADDIS => 166 | BC => 167 | SC => 168
  | B => 169 | MCRF => 170 | BCLR => 171 | RFID => 172 | CRNOR => 173 | RFSCV => 174
  | CRANDC => 175 | ISYNC => 176 | CRXOR => 177 | CRNAND => 178 | CRAND => 179
  | HRFID => 180 | CREQV => 181 | URFID => 182 | STOP => 183 | CRORC => 184 | CROR => 185
  | BCCTR => 186 | RLWIMI => 187 | RLWINM => 188 | RLWNM => 189 | ORI => 190 | ORIS => 191
  | XORI => 192 | XORIS => 193 | ANDI => 194 | ANDIS => 195 | RLDICL => 196 | RLDICR => 197
  | RLDIC => 198 | RLDIMI => 199 | RLDCL => 200 | RLDCR => 201 | CMP => 202 | TW => 203
  | LVSL => 204 | LVEBX => 205 | SUBFC => 206 | MULHDU => 207 | ADDC => 208 | MULHWU => 209
  | MFOCRF => 210 | LWARX => 211 | LDX => 212 | LWZX => 213 | SLW => 214 | CNTLZW => 215
  | SLD => 216 | AND => 217 | CMPL => 218 | LVSR => 219 | LVEHX => 220 | SUBF => 221
  | LDUX => 222 | DCBST => 223 | LWZUX => 224 | CNTLZD => 225 | ANDC => 226 | TD => 227
  | LVEWX => 228 | MULHD => 229 | MULHW => 230 | LDARX => 231 | DCBF => 232 | LBZX => 233
  | LVX => 234 | NEG => 235 | LBZUX => 236 | NOR => 237 | STVEBX => 238 | SUBFE => 239
  | ADDE => 240 | MTOCRF => 241 | STDX => 242 | STWCX => 243 | STWX => 244 | STVEHX => 245
  | STDUX => 246 | STWUX => 247 | STVEWX => 248 | SUBFZE => 249 | ADDZE => 250
  | STDCX => 251 | STBX => 252 | STVX => 253 | MULLD => 254 | SUBFME => 255 | ADDME => 256
  | MULLW => 257 | DCBTST => 258 | STBUX => 259 | ADD => 260 | DCBT => 261 | LHZX => 262
  | EQV => 263 | ECIWX => 264 | LHZUX => 265 | XOR => 266 | MFSPR => 267 | LWAX => 268
  | DST => 269 | LHAX => 270 | LVXL => 271 | MFTB => 272 | LWAUX => 273 | DSTST => 274
  | LHAUX => 275 | STHX => 276 | ORC => 277 | ECOWX => 278 | STHUX => 279 | OR => 280
  | DIVDU => 281 | DIVWU => 282 | MTSPR => 283 | DCBI => 284 | NAND => 285 | STVXL => 286
  | DIVD => 287 | DIVW => 288 | LVLX => 289 | LDBRX => 290 | LSWX => 291 | LWBRX => 292
  | LFSX => 293 | SRW => 294 | SRD => 295 | LVRX => 296 | LSWI => 297 | LFSUX => 298
  | SYNC => 299 | LFDX => 300 | LFDUX => 301 | STVLX => 302 | STDBRX => 303 | STSWX => 304
  | STWBRX => 305 | STFSX => 306 | STVRX => 307 | STFSUX => 308 | STSWI => 309
  | STFDX => 310 | STFDUX => 311 | LVLXL => 312 | LHBRX => 313 | SRAW => 314 | SRAD => 315
  | LVRXL => 316 | DSS => 317 | SRAWI => 318 | SRADI => 319 | EIEIO => 320 | STVLXL => 321
  | STHBRX => 322 | EXTSH => 323 | STVRXL => 324 | EXTSB => 325 | STFIWX => 326
  | EXTSW => 327 | ICBI => 328 | DCBZ => 329 | LWZ => 330 | LWZU => 331 | LBZ => 332
  | LBZU => 333 | STW => 334 | STWU => 335 | STB => 336 | STBU => 337 | LHZ => 338
  | LHZU => 339 | LHA => 340 | LHAU => 341 | STH => 342 | STHU => 343 | LMW => 344
  | STMW => 345 | LFS => 346 | LFSU => 347 | LFD => 348 | LFDU => 349 | STFS => 350
  | STFSU => 351 | STFD => 352 | STFDU => 353 | LD => 354 | LDU => 355 | LWA => 356
  | STD => 357 | STDU => 358 | FDIVS => 359 | FSUBS => 360 | FADDS => 361 | FSQRTS => 362
  | FRES => 363 | FMULS => 364 | FMADDS => 365 | FMSUBS => 366 | FNMSUBS => 367
  | FNMADDS => 368 | MTFSB1 => 369 | MCRFS => 370 | MTFSB0 => 371 | MTFSFI => 372
  | MFFS => 373 | MTFSF => 374 | FCMPU => 375 | FRSP => 376 | FCTIW => 377 | FCTIWZ => 378
  | FDIV => 379 | FSUB => 380 | FADD => 381 | FSQRT => 382 | FSEL => 383 | FMUL => 384
  | FRSQRTE => 385 | FMSUB => 386 | FMADD => 387 | FNMSUB => 388 | FNMADD => 389
  | FCMPO => 390 | FNEG => 391 | FMR => 392 | FNABS => 393 | FABS => 394 | FCTID => 395
  | FCTIDZ => 396 | FCFID => 397 | UNK => 398 | SUBFCO => 399 | ADDCO => 400 | SUBFO => 401
  | NEGO => 402 | SUBFEO => 403 | ADDEO => 404 | SUBFZEO => 405 | ADDZEO => 406
  | SUBFMEO => 407 | MULLDO => 408 | ADDMEO => 409 | MULLWO => 410 | ADDO => 411
  | DIVDUO => 412 | DIVWUO => 413 | DIVDO => 414 | DIVWO => 415 | SUBFCO_ => 416
  | ADDCO_ => 417 | SUBFO_ => 418 | NEGO_ => 419 | SUBFEO_ => 420 | ADDEO_ => 421
  | SUBFZEO_ => 422 | ADDZEO_ => 423 | SUBFMEO_ => 424 | MULLDO_ => 425 | ADDMEO_ => 426
  | MULLWO_ => 427 | ADDO_ => 428 | DIVDUO_ => 429 | DIVWUO_ => 430 | DIVDO_ => 431
  | DIVWO_ => 432 | RLWIMI_ => 433 | RLWINM_ => 434 | RLWNM_ => 435 | RLDICL_ => 436
  | RLDICR_ => 437 | RLDIC_ => 438 | RLDIMI_ => 439 | RLDCL_ => 440 | RLDCR_ => 441
  | SUBFC_ => 442 | MULHDU_ => 443 | ADDC_ => 444 | MULHWU_ => 445 | SLW_ => 446
  | CNTLZW_ => 447 | SLD_ => 448 | AND_ => 449 | SUBF_ => 450 | CNTLZD_ => 451
  | ANDC_ => 452 | MULHD_ => 453 | MULHW_ => 454 | NEG_ => 455 | NOR_ => 456
  | SUBFE_ => 457 | ADDE_ => 458 | SUBFZE_ => 459 | ADDZE_ => 460 | MULLD_ => 461
  | SUBFME_ => 462 | ADDME_ => 463 | MULLW_ => 464 | ADD_ => 465 | EQV_ => 466
  | XOR_ => 467 | ORC_ => 468 | OR_ => 469 | DIVDU_ => 470 | DIVWU_ => 471 | NAND_ => 472
  | DIVD_ => 473 | DIVW_ => 474 | SRW_ => 475 | SRD_ => 476 | SRAW_ => 477 | SRAD_ => 478
  | SRAWI_ => 479 | SRADI_ => 480 | EXTSH_ => 481 | EXTSB_ => 482 | EXTSW_ => 483
  | FDIVS_ => 484 | FSUBS_ => 485 | FADDS_ => 486 | FSQRTS_ => 487 | FRES_ => 488
  | FMULS_ => 489 | FMADDS_ => 490 | FMSUBS_ => 491 | FNMSUBS_ => 492 | FNMADDS_ => 493
  | MTFSB1_ => 494 | MTFSB0_ => 495 | MTFSFI_ => 496 | MFFS_ => 497 | MTFSF_ => 498
  | FRSP_ => 499 | FCTIW_ => 500 | FCTIWZ_ => 501 | FDIV_ => 502 | FSUB_ => 503
  | FADD_ => 504 | FSQRT_ => 505 | FSEL_ => 506 | FMUL_ => 507 | FRSQRTE_ => 508
  | FMSUB_ => 509 | FMADD_ => 510 | FNMSUB_ => 511 | FNMADD_ => 512 | FNEG_ => 513
  | FMR_ => 514 | FNABS_ => 515 | FABS_ => 516 | FCTID_ => 517 | FCTIDZ_ => 518
  | FCFID_ => 519 | LI => 520 | LIS => 521 | NOP => 522 | MR => 523 | CLRLDI => 524
  | ROTLDI => 525 | SRDI => 526 | CMPD => 527 | CMPW => 528 | CMPLD => 529 | CMPLW => 530
  | NOT => 531 | MTCRF => 532 | MFXER => 533 | MFLR => 534 | MFCTR => 535 | MFTBU => 536
  | CCTPL => 537 | CCTPM => 538 | CCTPH => 539 | DB8CYC => 540 | DB10CYC => 541
  | DB12CYC => 542 | DB16CYC => 543 | CRNOT => 544 | BDNZF => 545 | BDZF => 546
  | BDNZT => 547 | BDZT => 548 | BDZ => 549 | BDZ_P => 550 | BDZ_M => 551 | BDNZ => 552
  | BDNZ_P => 553 | BDNZ_M => 554 | BGE => 555 | BGE_P => 556 | BGE_M => 557 | BLE => 558
  | BLE_P => 559 | BLE_M => 560 | BNE => 561 | BNE_P => 562 | BNE_M => 563 | BNS => 564
  | BNS_P => 565 | BNS_M => 566 | BLT => 567 | BLT_P => 568 | BLT_M => 569 | BGT => 570
  | BGT_P => 571 | BGT_M => 572 | BEQ => 573 | BEQ_P => 574 | BEQ_M => 575 | BSO => 576
  | BSO_P => 577 | BSO_M => 578 | BDNZFL => 579 | BDZFL => 580 | BDNZTL => 581
  | BDZTL => 582 | BDZL => 583 | BDZL_P => 584 | BDZL_M => 585 | BDNZL => 586
  | BDNZL_P => 587 | BDNZL_M => 588 | BGEL => 589 | BGEL_P => 590 | BGEL_M => 591
  | BLEL => 592 | BLEL_P => 593 | BLEL_M => 594 | BNEL => 595 | BNEL_P => 596
  | BNEL_M => 597 | BNSL => 598 | BNSL_P => 599 | BNSL_M => 600 | BLTL => 601
  | BLTL_P => 602 | BLTL_M => 603 | BGTL => 604 | BGTL_P => 605 | BGTL_M => 606
  | BEQL => 607 | BEQL_P => 608 | BEQL_M => 609 | BSOL => 610 | BSOL_P => 611
  | BSOL_M => 612 | BDNZFA => 613 | BDZFA => 614 | BDNZTA => 615 | BDZTA => 616
  | BDZA => 617 | BDZA_P => 618 | BDZA_M => 619 | BDNZA => 620 | BDNZA_P => 621
  | BDNZA_M => 622 | BGEA => 623 | BGEA_P => 624 | BGEA_M => 625 | BLEA => 626
  | BLEA_P => 627 | BLEA_M => 628 | BNEA => 629 | BNEA_P => 630 | BNEA_M => 631
  | BNSA => 632 | BNSA_P => 633 | BNSA_M => 634 | BLTA => 635 | BLTA_P => 636
  | BLTA_M => 637 | BGTA => 638 | BGTA_P => 639 | BGTA_M => 640 | BEQA => 641
  | BEQA_P => 642 | BEQA_M => 643 | BSOA => 644 | BSOA_P => 645 | BSOA_M => 646
  | BDNZFLA => 647 | BDZFLA => 648 | BDNZTLA => 649 | BDZTLA => 650 | BDZLA => 651
  | BDZLA_P => 652 | BDZLA_M => 653 | BDNZLA => 654 | BDNZLA_P => 655 | BDNZLA_M => 656
  | BGELA => 657 | BGELA_P => 658 | BGELA_M => 659 | BLELA => 660 | BLELA_P => 661
  | BLELA_M => 662 | BNELA => 663 | BNELA_P => 664 | BNELA_M => 665 | BNSLA => 666
  | BNSLA_P => 667 | BNSLA_M => 668 | BLTLA => 669 | BLTLA_P => 670 | BLTLA_M => 671
  | BGTLA => 672 | BGTLA_P => 673 | BGTLA_M => 674 | BEQLA => 675 | BEQLA_P => 676
  | BEQLA_M => 677 | BSOLA => 678 | BSOLA_P => 679 | BSOLA_M => 680 | BDNZFLR => 681
  | BDZFLR => 682 | BDNZTLR => 683 | BDZTLR => 684 | BDZLR => 685 | BDZLR_P => 686
  | BDZLR_M => 687 | BDNZLR => 688 | BDNZLR_P => 689 | BDNZLR_M => 690 | BGELR => 691
  | BGELR_P => 692 | BGELR_M => 693 | BLELR => 694 | BLELR_P => 695 | BLELR_M => 696
  | BNELR => 697 | BNELR_P => 698 | BNELR_M => 699 | BNSLR => 700 | BNSLR_P => 701
  | BNSLR_M => 702 | BLTLR => 703 | BLTLR_P => 704 | BLTLR_M => 705 | BGTLR => 706
  | BGTLR_P => 707 | BGTLR_M => 708 | BEQLR => 709 | BEQLR_P => 710 | BEQLR_M => 711
  | BSOLR => 712 | BSOLR_P => 713 | BSOLR_M => 714 | BDNZFCTR => 715 | BDZFCTR => 716
  | BDNZTCTR => 717 | BDZTCTR => 718 | BDZCTR => 719 | BDZCTR_P => 720 | BDZCTR_M => 721
  | BDNZCTR => 722 | BDNZCTR_P => 723 | BDNZCTR_M => 724 | BGECTR => 725 | BGECTR_P => 726
  | BGECTR_M => 727 | BLECTR => 728 | BLECTR_P => 729 | BLECTR_M => 730 | BNECTR => 731
  | BNECTR_P => 732 | BNECTR_M => 733 | BNSCTR => 734 | BNSCTR_P => 735 | BNSCTR_M => 736
  | BLTCTR => 737 | BLTCTR_P => 738 | BLTCTR_M => 739 | BGTCTR => 740 | BGTCTR_P => 741
  | BGTCTR_M => 742 | BEQCTR => 743 | BEQCTR_P => 744 | BEQCTR_M => 745 | BSOCTR => 746
  | BSOCTR_P => 747 | BSOCTR_M => 748 | BDNZFCTRL => 749 | BDZFCTRL => 750
  | BDNZTCTRL => 751 | BDZTCTRL => 752 | BDZCTRL => 753 | BDZCTRL_P => 754
  | BDZCTRL_M => 755 | BDNZCTRL => 756 | BDNZCTRL_P => 757 | BDNZCTRL_M => 758
  | BGECTRL => 759 | BGECTRL_P => 760 | BGECTRL_M => 761 | BLECTRL => 762
  | BLECTRL_P => 763 | BLECTRL_M => 764 | BNECTRL => 765 | BNECTRL_P => 766
  | BNECTRL_M => 767 | BNSCTRL => 768 | BNSCTRL_P => 769 | BNSCTRL_M => 770
  | BLTCTRL => 771 | BLTCTRL_P => 772 | BLTCTRL_M => 773 | BGTCTRL => 774
  | BGTCTRL_P => 775 | BGTCTRL_M => 776 | BEQCTRL => 777 | BEQCTRL_P => 778
  | BEQCTRL_M => 779 | BSOCTRL => 780 | BSOCTRL_P => 781 | BSOCTRL_M => 782
  | BDNZFLRL => 783 | BDZFLRL => 784 | BDNZTLRL => 785 | BDZTLRL => 786 | BDZLRL => 787
  | BDZLRL_P => 788 | BDZLRL_M => 789 | BDNZLRL => 790 | BDNZLRL_P => 791
  | BDNZLRL_M => 792 | BGELRL => 793 | BGELRL_P => 794 | BGELRL_M => 795 | BLELRL => 796
  | BLELRL_P => 797 | BLELRL_M => 798 | BNELRL => 799 | BNELRL_P => 800 | BNELRL_M => 801
  | BNSLRL => 802 | BNSLRL_P => 803 | BNSLRL_M => 804 | BLTLRL => 805 | BLTLRL_P => 806
  | BLTLRL_M => 807 | BGTLRL => 808 | BGTLRL_P => 809 | BGTLRL_M => 810 | BEQLRL => 811
  | BEQLRL_P => 812 | BEQLRL_M => 813 | BSOLRL => 814 | BSOLRL_P => 815 | BSOLRL_M => 816
  | BL => 817 | BA => 818 | BLA => 819 | BCL => 820 | BCA => 821 | BCLA => 822 | BLR => 823
  | BTLR => 824 | BFLR => 825 | BCTRL => 826 | BCCTRL => 827 | BTCTRL => 828
  | BFCTRL => 829 | _count => 830
  end%N.

Lemma all_index o : all !! N.to_nat (index o) = Some o.
Proof. destruct o; reflexivity. Qed.

#[global] Instance index_inj : Inj (=) (=) index.
Proof.
  intros a b H. apply (inj Some). by rewrite <- (all_index a), <- (all_index b), H.
Qed.

#[global] Instance eq_dec : EqDecision t.
Proof.
  refine (fun a b => match decide (index a = index b) with
                     | left H => left (inj index _ _ H)
                     | right H => right _ end).
  abstract congruence.
Defined.

End Opcode.

(** ** Decoder.cpp *)

Record InstructionEncodingInfo := mkInfo {
  value : Z;
  opcode : Opcode.t;
  rcOpcode : Opcode.t;
  magn : Z
}.

(** The [GET] and [GETRC] macros with the three-argument constructor, and the
    four-argument constructor. *)
Definition GET (v : Z) (o : Opcode.t) : InstructionEncodingInfo := mkInfo v o o 0.

Definition GETRC (v : Z) (o rc : Opcode.t) : InstructionEncodingInfo := mkInfo v o rc 0.

Definition magn_of (m : Z) (e : InstructionEncodingInfo) : InstructionEncodingInfo :=
  mkInfo (value e) (opcode e) (rcOpcode e) m.

(** The array, and the assignment [result[idx] = op]. *)
Definition DecoderTable := Z -> Opcode.t.

Definition tset (idx : Z) (op : Opcode.t) (result : DecoderTable) : DecoderTable :=
  fun x => if x =? idx then op else result x.

(** The lambda [fill_table]; [sh] is unsigned, [-1] is the main table. *)
Definition fill_table (main_op count sh : Z) (entries : list InstructionEncodingInfo)
    (result : DecoderTable) : DecoderTable :=
  if u32 sh <? 11 then
    fold_left (fun t v =>
      fold_left (fun t i =>
        fold_left (fun t j =>
          let k := Z.shiftl (Z.shiftl i (count - magn v) ||| value v) sh ||| j in
          tset (Z.shiftl k 6 ||| main_op) (if i &&& 1 =? 0 then opcode v else rcOpcode v) t)
          (seqZ 0 (2 ^ sh)) t)
        (seqZ 0 (2 ^ (magn v + (11 - sh - count)))) t)
      entries result
  else
    fold_left (fun t v =>
      fold_left (fun t i =>
        tset (Z.shiftl i 6 ||| value v) (if i &&& 1 =? 0 then opcode v else rcOpcode v) t)
        (seqZ 0 (2 ^ 11)) t)
      entries result.

Definition main_entries : list InstructionEncodingInfo :=
  [
   GET 0x02 Opcode.TDI; GET 0x03 Opcode.TWI; GET 0x07 Opcode.MULLI; GET 0x08 Opcode.SUBFIC;
   GET 0x0a Opcode.CMPLI; GET 0x0b Opcode.CMPI; GET 0x0c Opcode.ADDIC;
   GET 0x0d Opcode.ADDIC; GET 0x0e Opcode.ADDI; GET 0x0f Opcode.ADDIS; GET 0x10 Opcode.BC;
   GET 0x11 Opcode.SC; GET 0x12 Opcode.B; GETRC 0x14 Opcode.RLWIMI Opcode.RLWIMI_;
   GETRC 0x15 Opcode.RLWINM Opcode.RLWINM_; GETRC 0x17 Opcode.RLWNM Opcode.RLWNM_;
   GET 0x18 Opcode.ORI; GET 0x19 Opcode.ORIS; GET 0x1a Opcode.XORI; GET 0x1b Opcode.XORIS;
   GET 0x1c Opcode.ANDI; GET 0x1d Opcode.ANDIS; GET 0x20 Opcode.LWZ; GET 0x21 Opcode.LWZU;
   GET 0x22 Opcode.LBZ; GET 0x23 Opcode.LBZU; GET 0x24 Opcode.STW; GET 0x25 Opcode.STWU;
   GET 0x26 Opcode.STB; GET 0x27 Opcode.STBU; GET 0x28 Opcode.LHZ; GET 0x29 Opcode.LHZU;
   GET 0x2a Opcode.LHA; GET 0x2b Opcode.LHAU; GET 0x2c Opcode.STH; GET 0x2d Opcode.STHU;
   GET 0x2e Opcode.LMW; GET 0x2f Opcode.STMW; GET 0x30 Opcode.LFS; GET 0x31 Opcode.LFSU;
   GET 0x32 Opcode.LFD; GET 0x33 Opcode.LFDU; GET 0x34 Opcode.STFS; GET 0x35 Opcode.STFSU;
   GET 0x36 Opcode.STFD; GET 0x37 Opcode.STFDU].

Definition group_04 : list InstructionEncodingInfo :=
  [
   GET 0x0 Opcode.VADDUBM; GET 0x2 Opcode.VMAXUB; GET 0x4 Opcode.VRLB;
   GET 0x006 Opcode.VCMPEQUB; GET 0x406 Opcode.VCMPEQUB_; GET 0x8 Opcode.VMULOUB;
   GET 0xa Opcode.VADDFP; GET 0xc Opcode.VMRGHB; GET 0xe Opcode.VPKUHUM;
   magn_of 5 (GET 0x20 Opcode.VMHADDSHS); magn_of 5 (GET 0x21 Opcode.VMHRADDSHS);
   magn_of 5 (GET 0x22 Opcode.VMLADDUHM); magn_of 5 (GET 0x24 Opcode.VMSUMUBM);
   magn_of 5 (GET 0x25 Opcode.VMSUMMBM); magn_of 5 (GET 0x26 Opcode.VMSUMUHM);
   magn_of 5 (GET 0x27 Opcode.VMSUMUHS); magn_of 5 (GET 0x28 Opcode.VMSUMSHM);
   magn_of 5 (GET 0x29 Opcode.VMSUMSHS); magn_of 5 (GET 0x2a Opcode.VSEL);
   magn_of 5 (GET 0x2b Opcode.VPERM); magn_of 5 (GET 0x2c Opcode.VSLDOI);
   magn_of 5 (GET 0x2e Opcode.VMADDFP); magn_of 5 (GET 0x2f Opcode.VNMSUBFP);
   GET 0x40 Opcode.VADDUHM; GET 0x42 Opcode.VMAXUH; GET 0x44 Opcode.VRLH;
   GET 0x046 Opcode.VCMPEQUH; GET 0x446 Opcode.VCMPEQUH_; GET 0x48 Opcode.VMULOUH;
   GET 0x4a Opcode.VSUBFP; GET 0x4c Opcode.VMRGHH; GET 0x4e Opcode.VPKUWUM;
   GET 0x80 Opcode.VADDUWM; GET 0x82 Opcode.VMAXUW; GET 0x84 Opcode.VRLW;
   GET 0x086 Opcode.VCMPEQUW; GET 0x486 Opcode.VCMPEQUW_; GET 0x8c Opcode.VMRGHW;
   GET 0x8e Opcode.VPKUHUS; GET 0x0c6 Opcode.VCMPEQFP; GET 0x4c6 Opcode.VCMPEQFP_;
   GET 0xce Opcode.VPKUWUS; GET 0x102 Opcode.VMAXSB; GET 0x104 Opcode.VSLB;
   GET 0x108 Opcode.VMULOSB; GET 0x10a Opcode.VREFP; GET 0x10c Opcode.VMRGLB;
   GET 0x10e Opcode.VPKSHUS; GET 0x142 Opcode.VMAXSH; GET 0x144 Opcode.VSLH;
   GET 0x148 Opcode.VMULOSH; GET 0x14a Opcode.VRSQRTEFP; GET 0x14c Opcode.VMRGLH;
   GET 0x14e Opcode.VPKSWUS; GET 0x180 Opcode.VADDCUW; GET 0x182 Opcode.VMAXSW;
   GET 0x184 Opcode.VSLW; GET 0x18a Opcode.VEXPTEFP; GET 0x18c Opcode.VMRGLW;
   GET 0x18e Opcode.VPKSHSS; GET 0x1c4 Opcode.VSL; GET 0x1c6 Opcode.VCMPGEFP;
   GET 0x5c6 Opcode.VCMPGEFP_; GET 0x1ca Opcode.VLOGEFP; GET 0x1ce Opcode.VPKSWSS;
   GET 0x200 Opcode.VADDUBS; GET 0x202 Opcode.VMINUB; GET 0x204 Opcode.VSRB;
   GET 0x206 Opcode.VCMPGTUB; GET 0x606 Opcode.VCMPGTUB_; GET 0x208 Opcode.VMULEUB;
   GET 0x20a Opcode.VRFIN; GET 0x20c Opcode.VSPLTB; GET 0x20e Opcode.VUPKHSB;
   GET 0x240 Opcode.VADDUHS; GET 0x242 Opcode.VMINUH; GET 0x244 Opcode.VSRH;
   GET 0x246 Opcode.VCMPGTUH; GET 0x646 Opcode.VCMPGTUH_; GET 0x248 Opcode.VMULEUH;
   GET 0x24a Opcode.VRFIZ; GET 0x24c Opcode.VSPLTH; GET 0x24e Opcode.VUPKHSH;
   GET 0x280 Opcode.VADDUWS; GET 0x282 Opcode.VMINUW; GET 0x284 Opcode.VSRW;
   GET 0x286 Opcode.VCMPGTUW; GET 0x686 Opcode.VCMPGTUW_; GET 0x28a Opcode.VRFIP;
   GET 0x28c Opcode.VSPLTW; GET 0x28e Opcode.VUPKLSB; GET 0x2c4 Opcode.VSR;
   GET 0x2c6 Opcode.VCMPGTFP; GET 0x6c6 Opcode.VCMPGTFP_; GET 0x2ca Opcode.VRFIM;
   GET 0x2ce Opcode.VUPKLSH; GET 0x300 Opcode.VADDSBS; GET 0x302 Opcode.VMINSB;
   GET 0x304 Opcode.VSRAB; GET 0x306 Opcode.VCMPGTSB; GET 0x706 Opcode.VCMPGTSB_;
   GET 0x308 Opcode.VMULESB; GET 0x30a Opcode.VCFUX; GET 0x30c Opcode.VSPLTISB;
   GET 0x30e Opcode.VPKPX; GET 0x340 Opcode.VADDSHS; GET 0x342 Opcode.VMINSH;
   GET 0x344 Opcode.VSRAH; GET 0x346 Opcode.VCMPGTSH; GET 0x746 Opcode.VCMPGTSH_;
   GET 0x348 Opcode.VMULESH; GET 0x34a Opcode.VCFSX; GET 0x34c Opcode.VSPLTISH;
   GET 0x34e Opcode.VUPKHPX; GET 0x380 Opcode.VADDSWS; GET 0x382 Opcode.VMINSW;
   GET 0x384 Opcode.VSRAW; GET 0x386 Opcode.VCMPGTSW; GET 0x786 Opcode.VCMPGTSW_;
   GET 0x38a Opcode.VCTUXS; GET 0x38c Opcode.VSPLTISW; GET 0x3c6 Opcode.VCMPBFP;
   GET 0x7c6 Opcode.VCMPBFP_; GET 0x3ca Opcode.VCTSXS; GET 0x3ce Opcode.VUPKLPX;
   GET 0x400 Opcode.VSUBUBM; GET 0x402 Opcode.VAVGUB; GET 0x404 Opcode.VAND;
   GET 0x40a Opcode.VMAXFP; GET 0x40c Opcode.VSLO; GET 0x440 Opcode.VSUBUHM;
   GET 0x442 Opcode.VAVGUH; GET 0x444 Opcode.VANDC; GET 0x44a Opcode.VMINFP;
   GET 0x44c Opcode.VSRO; GET 0x480 Opcode.VSUBUWM; GET 0x482 Opcode.VAVGUW;
   GET 0x484 Opcode.VOR; GET 0x4c4 Opcode.VXOR; GET 0x502 Opcode.VAVGSB;
   GET 0x504 Opcode.VNOR; GET 0x542 Opcode.VAVGSH; GET 0x580 Opcode.VSUBCUW;
   GET 0x582 Opcode.VAVGSW; GET 0x600 Opcode.VSUBUBS; GET 0x604 Opcode.MFVSCR;
   GET 0x608 Opcode.VSUM4UBS; GET 0x640 Opcode.VSUBUHS; GET 0x644 Opcode.MTVSCR;
   GET 0x648 Opcode.VSUM4SHS; GET 0x680 Opcode.VSUBUWS; GET 0x688 Opcode.VSUM2SWS;
   GET 0x700 Opcode.VSUBSBS; GET 0x708 Opcode.VSUM4SBS; GET 0x740 Opcode.VSUBSHS;
   GET 0x780 Opcode.VSUBSWS; GET 0x788 Opcode.VSUMSWS].

Definition group_13 : list InstructionEncodingInfo :=
  [
   GET 0x000 Opcode.MCRF; GET 0x010 Opcode.BCLR; GET 0x012 Opcode.RFID;
   GET 0x021 Opcode.CRNOR; GET 0x052 Opcode.RFSCV; GET 0x081 Opcode.CRANDC;
   GET 0x096 Opcode.ISYNC; GET 0x0c1 Opcode.CRXOR; GET 0x0e1 Opcode.CRNAND;
   GET 0x101 Opcode.CRAND; GET 0x112 Opcode.HRFID; GET 0x121 Opcode.CREQV;
   GET 0x132 Opcode.URFID; GET 0x172 Opcode.STOP; GET 0x1a1 Opcode.CRORC;
   GET 0x1c1 Opcode.CROR; GET 0x210 Opcode.BCCTR].

Definition group_1e : list InstructionEncodingInfo :=
  [
   GETRC 0x0 Opcode.RLDICL Opcode.RLDICL_; GETRC 0x1 Opcode.RLDICL Opcode.RLDICL_;
   GETRC 0x2 Opcode.RLDICR Opcode.RLDICR_; GETRC 0x3 Opcode.RLDICR Opcode.RLDICR_;
   GETRC 0x4 Opcode.RLDIC Opcode.RLDIC_; GETRC 0x5 Opcode.RLDIC Opcode.RLDIC_;
   GETRC 0x6 Opcode.RLDIMI Opcode.RLDIMI_; GETRC 0x7 Opcode.RLDIMI Opcode.RLDIMI_;
   GETRC 0x8 Opcode.RLDCL Opcode.RLDCL_; GETRC 0x9 Opcode.RLDCR Opcode.RLDCR_].

Definition group_1f : list InstructionEncodingInfo :=
  [
   GET 0x000 Opcode.CMP; GET 0x004 Opcode.TW; GET 0x006 Opcode.LVSL;
   GET 0x007 Opcode.LVEBX; GETRC 0x008 Opcode.SUBFC Opcode.SUBFC_;
   GETRC 0x208 Opcode.SUBFCO Opcode.SUBFCO_; GETRC 0x009 Opcode.MULHDU Opcode.MULHDU_;
   GETRC 0x00a Opcode.ADDC Opcode.ADDC_; GETRC 0x20a Opcode.ADDCO Opcode.ADDCO_;
   GETRC 0x00b Opcode.MULHWU Opcode.MULHWU_; GET 0x013 Opcode.MFOCRF;
   GET 0x014 Opcode.LWARX; GET 0x015 Opcode.LDX; GET 0x017 Opcode.LWZX;
   GETRC 0x018 Opcode.SLW Opcode.SLW_; GETRC 0x01a Opcode.CNTLZW Opcode.CNTLZW_;
   GETRC 0x01b Opcode.SLD Opcode.SLD_; GETRC 0x01c Opcode.AND Opcode.AND_;
   GET 0x020 Opcode.CMPL; GET 0x026 Opcode.LVSR; GET 0x027 Opcode.LVEHX;
   GETRC 0x028 Opcode.SUBF Opcode.SUBF_; GETRC 0x228 Opcode.SUBFO Opcode.SUBFO_;
   GET 0x035 Opcode.LDUX; GET 0x036 Opcode.DCBST; GET 0x037 Opcode.LWZUX;
   GETRC 0x03a Opcode.CNTLZD Opcode.CNTLZD_; GETRC 0x03c Opcode.ANDC Opcode.ANDC_;
   GET 0x044 Opcode.TD; GET 0x047 Opcode.LVEWX; GETRC 0x049 Opcode.MULHD Opcode.MULHD_;
   GETRC 0x04b Opcode.MULHW Opcode.MULHW_; GET 0x054 Opcode.LDARX; GET 0x056 Opcode.DCBF;
   GET 0x057 Opcode.LBZX; GET 0x067 Opcode.LVX; GETRC 0x068 Opcode.NEG Opcode.NEG_;
   GETRC 0x268 Opcode.NEGO Opcode.NEGO_; GET 0x077 Opcode.LBZUX;
   GETRC 0x07c Opcode.NOR Opcode.NOR_; GET 0x087 Opcode.STVEBX;
   GETRC 0x088 Opcode.SUBFE Opcode.SUBFE_; GETRC 0x288 Opcode.SUBFEO Opcode.SUBFEO_;
   GETRC 0x08a Opcode.ADDE Opcode.ADDE_; GETRC 0x28a Opcode.ADDEO Opcode.ADDEO_;
   GET 0x090 Opcode.MTOCRF; GET 0x095 Opcode.STDX; GET 0x096 Opcode.STWCX;
   GET 0x097 Opcode.STWX; GET 0x0a7 Opcode.STVEHX; GET 0x0b5 Opcode.STDUX;
   GET 0x0b7 Opcode.STWUX; GET 0x0c7 Opcode.STVEWX;
   GETRC 0x0c8 Opcode.SUBFZE Opcode.SUBFZE_; GETRC 0x2c8 Opcode.SUBFZEO Opcode.SUBFZEO_;
   GETRC 0x0ca Opcode.ADDZE Opcode.ADDZE_; GETRC 0x2ca Opcode.ADDZEO Opcode.ADDZEO_;
   GET 0x0d6 Opcode.STDCX; GET 0x0d7 Opcode.STBX; GET 0x0e7 Opcode.STVX;
   GETRC 0x0e8 Opcode.SUBFME Opcode.SUBFME_; GETRC 0x2e8 Opcode.SUBFMEO Opcode.SUBFMEO_;
   GETRC 0x0e9 Opcode.MULLD Opcode.MULLD_; GETRC 0x2e9 Opcode.MULLDO Opcode.MULLDO_;
   GETRC 0x0ea Opcode.ADDME Opcode.ADDME_; GETRC 0x2ea Opcode.ADDMEO Opcode.ADDMEO_;
   GETRC 0x0eb Opcode.MULLW Opcode.MULLW_; GETRC 0x2eb Opcode.MULLWO Opcode.MULLWO_;
   GET 0x0f6 Opcode.DCBTST; GET 0x0f7 Opcode.STBUX; GETRC 0x10a Opcode.ADD Opcode.ADD_;
   GETRC 0x30a Opcode.ADDO Opcode.ADDO_; GET 0x116 Opcode.DCBT; GET 0x117 Opcode.LHZX;
   GETRC 0x11c Opcode.EQV Opcode.EQV_; GET 0x136 Opcode.ECIWX; GET 0x137 Opcode.LHZUX;
   GETRC 0x13c Opcode.XOR Opcode.XOR_; GET 0x153 Opcode.MFSPR; GET 0x155 Opcode.LWAX;
   GET 0x156 Opcode.DST; GET 0x157 Opcode.LHAX; GET 0x167 Opcode.LVXL;
   GET 0x173 Opcode.MFTB; GET 0x175 Opcode.LWAUX; GET 0x176 Opcode.DSTST;
   GET 0x177 Opcode.LHAUX; GET 0x197 Opcode.STHX; GETRC 0x19c Opcode.ORC Opcode.ORC_;
   GET 0x1b6 Opcode.ECOWX; GET 0x1b7 Opcode.STHUX; GETRC 0x1bc Opcode.OR Opcode.OR_;
   GETRC 0x1c9 Opcode.DIVDU Opcode.DIVDU_; GETRC 0x3c9 Opcode.DIVDUO Opcode.DIVDUO_;
   GETRC 0x1cb Opcode.DIVWU Opcode.DIVWU_; GETRC 0x3cb Opcode.DIVWUO Opcode.DIVWUO_;
   GET 0x1d3 Opcode.MTSPR; GET 0x1d6 Opcode.DCBI; GETRC 0x1dc Opcode.NAND Opcode.NAND_;
   GET 0x1e7 Opcode.STVXL; GETRC 0x1e9 Opcode.DIVD Opcode.DIVD_;
   GETRC 0x3e9 Opcode.DIVDO Opcode.DIVDO_; GETRC 0x1eb Opcode.DIVW Opcode.DIVW_;
   GETRC 0x3eb Opcode.DIVWO Opcode.DIVWO_; GET 0x207 Opcode.LVLX; GET 0x214 Opcode.LDBRX;
   GET 0x215 Opcode.LSWX; GET 0x216 Opcode.LWBRX; GET 0x217 Opcode.LFSX;
   GETRC 0x218 Opcode.SRW Opcode.SRW_; GETRC 0x21b Opcode.SRD Opcode.SRD_;
   GET 0x227 Opcode.LVRX; GET 0x237 Opcode.LFSUX; GET 0x255 Opcode.LSWI;
   GET 0x256 Opcode.SYNC; GET 0x257 Opcode.LFDX; GET 0x277 Opcode.LFDUX;
   GET 0x287 Opcode.STVLX; GET 0x294 Opcode.STDBRX; GET 0x295 Opcode.STSWX;
   GET 0x296 Opcode.STWBRX; GET 0x297 Opcode.STFSX; GET 0x2a7 Opcode.STVRX;
   GET 0x2b7 Opcode.STFSUX; GET 0x2d5 Opcode.STSWI; GET 0x2d7 Opcode.STFDX;
   GET 0x2f7 Opcode.STFDUX; GET 0x307 Opcode.LVLXL; GET 0x316 Opcode.LHBRX;
   GETRC 0x318 Opcode.SRAW Opcode.SRAW_; GETRC 0x31a Opcode.SRAD Opcode.SRAD_;
   GET 0x327 Opcode.LVRXL; GET 0x336 Opcode.DSS; GETRC 0x338 Opcode.SRAWI Opcode.SRAWI_;
   GETRC 0x33a Opcode.SRADI Opcode.SRADI_; GETRC 0x33b Opcode.SRADI Opcode.SRADI_;
   GET 0x356 Opcode.EIEIO; GET 0x387 Opcode.STVLXL; GET 0x396 Opcode.STHBRX;
   GETRC 0x39a Opcode.EXTSH Opcode.EXTSH_; GET 0x3a7 Opcode.STVRXL;
   GETRC 0x3ba Opcode.EXTSB Opcode.EXTSB_; GET 0x3d7 Opcode.STFIWX;
   GETRC 0x3da Opcode.EXTSW Opcode.EXTSW_; GET 0x3d6 Opcode.ICBI; GET 0x3f6 Opcode.DCBZ].

Definition group_3a : list InstructionEncodingInfo :=
  [
   GET 0x0 Opcode.LD; GET 0x1 Opcode.LDU; GET 0x2 Opcode.LWA].

Definition group_3b : list InstructionEncodingInfo :=
  [
   magn_of 5 (GETRC 0x12 Opcode.FDIVS Opcode.FDIVS_);
   magn_of 5 (GETRC 0x14 Opcode.FSUBS Opcode.FSUBS_);
   magn_of 5 (GETRC 0x15 Opcode.FADDS Opcode.FADDS_);
   magn_of 5 (GETRC 0x16 Opcode.FSQRTS Opcode.FSQRTS_);
   magn_of 5 (GETRC 0x18 Opcode.FRES Opcode.FRES_);
   magn_of 5 (GETRC 0x19 Opcode.FMULS Opcode.FMULS_);
   magn_of 5 (GETRC 0x1c Opcode.FMSUBS Opcode.FMSUBS_);
   magn_of 5 (GETRC 0x1d Opcode.FMADDS Opcode.FMADDS_);
   magn_of 5 (GETRC 0x1e Opcode.FNMSUBS Opcode.FNMSUBS_);
   magn_of 5 (GETRC 0x1f Opcode.FNMADDS Opcode.FNMADDS_)].

Definition group_3e : list InstructionEncodingInfo :=
  [
   GET 0x0 Opcode.STD; GET 0x1 Opcode.STDU].

Definition group_3f : list InstructionEncodingInfo :=
  [
   GETRC 0x026 Opcode.MTFSB1 Opcode.MTFSB1_; GET 0x040 Opcode.MCRFS;
   GETRC 0x046 Opcode.MTFSB0 Opcode.MTFSB0_; GETRC 0x086 Opcode.MTFSFI Opcode.MTFSFI_;
   GETRC 0x247 Opcode.MFFS Opcode.MFFS_; GETRC 0x2c7 Opcode.MTFSF Opcode.MTFSF_;
   GET 0x000 Opcode.FCMPU; GETRC 0x00c Opcode.FRSP Opcode.FRSP_;
   GETRC 0x00e Opcode.FCTIW Opcode.FCTIW_; GETRC 0x00f Opcode.FCTIWZ Opcode.FCTIWZ_;
   magn_of 5 (GETRC 0x012 Opcode.FDIV Opcode.FDIV_);
   magn_of 5 (GETRC 0x014 Opcode.FSUB Opcode.FSUB_);
   magn_of 5 (GETRC 0x015 Opcode.FADD Opcode.FADD_);
   magn_of 5 (GETRC 0x016 Opcode.FSQRT Opcode.FSQRT_);
   magn_of 5 (GETRC 0x017 Opcode.FSEL Opcode.FSEL_);
   magn_of 5 (GETRC 0x019 Opcode.FMUL Opcode.FMUL_);
   magn_of 5 (GETRC 0x01a Opcode.FRSQRTE Opcode.FRSQRTE_);
   magn_of 5 (GETRC 0x01c Opcode.FMSUB Opcode.FMSUB_);
   magn_of 5 (GETRC 0x01d Opcode.FMADD Opcode.FMADD_);
   magn_of 5 (GETRC 0x01e Opcode.FNMSUB Opcode.FNMSUB_);
   magn_of 5 (GETRC 0x01f Opcode.FNMADD Opcode.FNMADD_); GET 0x020 Opcode.FCMPO;
   GETRC 0x028 Opcode.FNEG Opcode.FNEG_; GETRC 0x048 Opcode.FMR Opcode.FMR_;
   GETRC 0x088 Opcode.FNABS Opcode.FNABS_; GETRC 0x108 Opcode.FABS Opcode.FABS_;
   GETRC 0x32e Opcode.FCTID Opcode.FCTID_; GETRC 0x32f Opcode.FCTIDZ Opcode.FCTIDZ_;
   GETRC 0x34e Opcode.FCFID Opcode.FCFID_].

Definition buildOpcodeTable : DecoderTable :=
  fill_table 0x3f 10 1 group_3f
    (fill_table 0x3e 2 0 group_3e
      (fill_table 0x3b 10 1 group_3b
        (fill_table 0x3a 2 0 group_3a
          (fill_table 0x1f 10 1 group_1f
            (fill_table 0x1e 4 1 group_1e
              (fill_table 0x13 10 1 group_13
                (fill_table 0x04 11 0 group_04
                  (fill_table 0x00 6 (-1) main_entries
                    (fun _ => Opcode.Invalid))))))))).

(** ** Decoder.hpp *)

Definition decode (inst : Z) : Z := ((inst >>> 26) ||| shl 32 inst 6) &&& 0x1ffff.

Definition getOpcode (instruction : Z) : Opcode.t := buildOpcodeTable (decode instruction).

(** ** fixOpcode *)

Definition fixOpcode (op : Opcode.t) (instruction : Z) : Opcode.t :=
  match op with
  | Opcode.ADDI => if ra instruction =? 0 then Opcode.LI else op
  | Opcode.ADDIS => if ra instruction =? 0 then Opcode.LIS else op
  | Opcode.CRNOR => if crba instruction =? crbb instruction then Opcode.CRNOT else op
  | Opcode.B =>
      if negb (aa instruction =? 0) && negb (lk instruction =? 0) then Opcode.BLA
      else if negb (lk instruction =? 0) then Opcode.BL
      else if negb (aa instruction =? 0) then Opcode.BA
      else op
  | Opcode.ORI =>
      if (rs instruction =? 0) && (ra instruction =? 0) && (uimm16 instruction =? 0)
      then Opcode.NOP
      else if uimm16 instruction =? 0 then Opcode.MR
      else op
  | Opcode.ORIS =>
      if (rs instruction =? 0) && (ra instruction =? 0) && (uimm16 instruction =? 0)
      then Opcode.NOP
      else op
  | Opcode.RLDICL =>
      if sh64 instruction =? 0 then Opcode.CLRLDI
      else if mbe64 instruction =? 0 then Opcode.ROTLDI
      else if mbe64 instruction =? u32 (64 - sh64 instruction) then Opcode.SRDI
      else op
  | Opcode.CMP => if negb (l10 instruction =? 0) then Opcode.CMPD else Opcode.CMPW
  | Opcode.CMPL => if negb (l10 instruction =? 0) then Opcode.CMPLD else Opcode.CMPLW
  | Opcode.NOR => if rs instruction =? rb instruction then Opcode.NOT else op
  | Opcode.MTOCRF => if l10 instruction =? 0 then Opcode.MTCRF else op
  | Opcode.MFSPR =>
      let n := spr_number instruction in
      if n =? 1 then Opcode.MFXER
      else if n =? 8 then Opcode.MFLR
      else if n =? 9 then Opcode.MFCTR
      else op
  | Opcode.MFTB =>
      let n := spr_number instruction in
      if n =? 268 then Opcode.MFTB else if n =? 269 then Opcode.MFTBU else op
  | Opcode.OR =>
      if rs instruction =? rb instruction then
        if instruction =? 0x7c210b78 then Opcode.CCTPL
        else if instruction =? 0x7c421378 then Opcode.CCTPM
        else if instruction =? 0x7c631b78 then Opcode.CCTPH
        else if instruction =? 0x7f9ce378 then Opcode.DB8CYC
        else if instruction =? 0x7fbdeb78 then Opcode.DB10CYC
        else if instruction =? 0x7fdef378 then Opcode.DB12CYC
        else if instruction =? 0x7ffffb78 then Opcode.DB16CYC
        else Opcode.MR
      else op
  | _ => op
  end.

(** ** Reference: searching the groups

    An index holds the primary opcode in its low six bits and bits 21..31 of
    the instruction above them. *)

Definition entry_matches (main_op count sh : Z) (v : InstructionEncodingInfo) (x : Z) : bool :=
  (x mod 64 =? main_op) && ((x / 64 / 2 ^ sh) mod 2 ^ (count - magn v) =? value v).

(** The bit the source tests to choose the record opcode: the lowest bit
    above the matched field. *)
Definition entry_op (count sh : Z) (v : InstructionEncodingInfo) (x : Z) : Opcode.t :=
  if (x / 64 / 2 ^ sh / 2 ^ (count - magn v)) mod 2 =? 0 then opcode v else rcOpcode v.

Definition search (main_op count sh : Z) (entries : list InstructionEncodingInfo)
    (x : Z) (d : Opcode.t) : Opcode.t :=
  fold_left (fun r v => if entry_matches main_op count sh v x then entry_op count sh v x else r)
    entries d.

(** The main table matches the primary opcode alone and tests bit 31. *)
Definition main_search (entries : list InstructionEncodingInfo) (x : Z) (d : Opcode.t) : Opcode.t :=
  fold_left (fun r v => if x mod 64 =? value v
                        then if (x / 64) mod 2 =? 0 then opcode v else rcOpcode v else r)
    entries d.

(** An entry fits its group. *)
Definition entry_wf (count sh : Z) (v : InstructionEncodingInfo) : bool :=
  (0 <=? magn v) && (magn v <? count) && (0 <=? sh) && (sh + count <=? 11) &&
  (0 <=? value v) && (value v <? 2 ^ (count - magn v)).

(** ** Lemmas *)

(** A fold of assignments that all store [o] at [x] or leave [x] alone. *)
Lemma fold_tset {A} (g : A -> DecoderTable -> DecoderTable) (P : A -> bool) l t x o :
  (forall a t, a ∈ l -> g a t x = if P a then o else t x) ->
  fold_left (fun t a => g a t) l t x = if existsb P l then o else t x.
Proof.
  revert t. induction l as [|a l IH]; intros t Hg; cbn [fold_left existsb]; [done|].
  rewrite IH.
  - rewrite Hg by (apply elem_of_cons; by left).
    destruct (existsb P l), (P a); done.
  - intros a' t' Ha'. apply Hg. apply elem_of_cons. by right.
Qed.

Lemma existsb_seqZ (P : Z -> bool) n j :
  (forall i, 0 <= i < n -> P i = true <-> i = j) -> existsb P (seqZ 0 n) = (0 <=? j) && (j <? n).
Proof.
  intros H. apply eq_true_iff_eq. rewrite existsb_exists, andb_true_iff, Z.leb_le, Z.ltb_lt.
  split.
  - intros (i & Hi & HP). apply list_elem_of_In, elem_of_seqZ in Hi.
    apply H in HP; lia.
  - intros Hj. exists j. split.
    + apply list_elem_of_In, elem_of_seqZ. lia.
    + by apply H.
Qed.

Lemma shl_or_add x k d : 0 <= k -> 0 <= d < 2 ^ k -> Z.shiftl x k ||| d = d + 2 ^ k * x.
Proof. intros. rewrite Z.lor_comm. symmetry. by apply add_shifted_lor. Qed.

Lemma land_1 i : i &&& 1 = i mod 2.
Proof. apply (land_low 1). lia. Qed.

(** Decomposition of an index. *)
Lemma index_fields x i v j a b m :
  0 <= a -> 0 <= b -> 0 <= m < 64 -> 0 <= j < 2 ^ a -> 0 <= v < 2 ^ b ->
  x = m + 64 * (j + 2 ^ a * (v + 2 ^ b * i)) <->
  x mod 64 = m /\ (x / 64) mod 2 ^ a = j /\ (x / 64 / 2 ^ a) mod 2 ^ b = v /\
  i = x / 64 / 2 ^ a / 2 ^ b.
Proof.
  intros Ha Hb Hm Hj Hv. pose proof (pow2_pos a Ha). pose proof (pow2_pos b Hb). split.
  - intros ->.
    assert ((m + 64 * (j + 2 ^ a * (v + 2 ^ b * i))) / 64 = j + 2 ^ a * (v + 2 ^ b * i)) as ->
      by (symmetry; apply (Z.div_unique _ _ _ m); lia).
    assert ((j + 2 ^ a * (v + 2 ^ b * i)) / 2 ^ a = v + 2 ^ b * i) as ->
      by (symmetry; apply (Z.div_unique _ _ _ j); lia).
    split_and!.
    + symmetry. apply (Z.mod_unique _ _ (j + 2 ^ a * (v + 2 ^ b * i))); lia.
    + symmetry. apply (Z.mod_unique _ _ (v + 2 ^ b * i)); lia.
    + symmetry. apply (Z.mod_unique _ _ i); lia.
    + apply (Z.div_unique _ _ _ v); lia.
  - intros (H1 & H2 & H3 & H4).
    pose proof (Z.div_mod x 64). pose proof (Z.div_mod (x / 64) (2 ^ a)).
    pose proof (Z.div_mod (x / 64 / 2 ^ a) (2 ^ b)).
    assert (x / 64 / 2 ^ a = v + 2 ^ b * i) as E by lia. rewrite E in *. lia.
Qed.

(** One entry of a group, at any index of the table. *)
Lemma fill_entry main_op count sh v t x :
  entry_wf count sh v = true -> 0 <= main_op < 64 -> 0 <= x < 2 ^ 17 ->
  fold_left (fun t i =>
    fold_left (fun t j =>
      let k := Z.shiftl (Z.shiftl i (count - magn v) ||| value v) sh ||| j in
      tset (Z.shiftl k 6 ||| main_op) (if i &&& 1 =? 0 then opcode v else rcOpcode v) t)
      (seqZ 0 (2 ^ sh)) t)
    (seqZ 0 (2 ^ (magn v + (11 - sh - count)))) t x =
  if entry_matches main_op count sh v x then entry_op count sh v x else t x.
Proof.
  unfold entry_wf. rewrite !andb_true_iff, !Z.leb_le, !Z.ltb_lt.
  intros (((((Hm0 & Hm1) & Hs0) & Hsc) & Hv0) & Hv1) Hmain Hx.
  set (b := count - magn v) in *. assert (0 < b) as Hb by lia.
  set (n := magn v + (11 - sh - count)). assert (b + n = 11 - sh) as Hbn by lia.
  assert (0 <= n) as Hn0 by lia. clearbody n.
  pose proof (pow2_pos b ltac:(lia)) as Hpb. pose proof (pow2_pos sh Hs0) as Hps.
  set (i0 := x / 64 / 2 ^ sh / 2 ^ b).
  assert (0 <= i0 < 2 ^ n) as Hi0.
  { unfold i0. split; [repeat apply Z.div_pos; lia|].
    rewrite !Z.div_div by lia. apply Z.div_lt_upper_bound; [lia|].
    change 64 with (2 ^ 6). rewrite <- !Z.pow_add_r by lia.
    replace (6 + (sh + b) + n) with 17 by lia. lia. }
  (* the inner loop *)
  assert (forall i t', 0 <= i < 2 ^ n ->
    fold_left (fun t j =>
      let k := Z.shiftl (Z.shiftl i b ||| value v) sh ||| j in
      tset (Z.shiftl k 6 ||| main_op) (if i &&& 1 =? 0 then opcode v else rcOpcode v) t)
      (seqZ 0 (2 ^ sh)) t' x =
    if (i =? i0) && entry_matches main_op count sh v x then entry_op count sh v x else t' x) as Hin.
  { intros i t' Hi. set (j0 := (x / 64) mod 2 ^ sh).
    assert (0 <= j0 < 2 ^ sh) as Hj0 by (apply Z.mod_pos_bound; lia).
    set (o := if i &&& 1 =? 0 then opcode v else rcOpcode v).
    set (idx := fun j => Z.shiftl (Z.shiftl (Z.shiftl i b ||| value v) sh ||| j) 6 ||| main_op).
    assert (forall j, 0 <= j < 2 ^ sh -> (x =? idx j) = true <->
              j = j0 /\ (i = i0 /\ entry_matches main_op count sh v x = true)) as Hidx.
    { intros j Hj. unfold idx. rewrite !shl_or_add by (lia || (change (2 ^ 6) with 64; lia)).
      rewrite Z.eqb_eq. change (2 ^ 6) with 64.
      rewrite (index_fields x i (value v) j sh b main_op) by lia.
      unfold entry_matches. fold b. rewrite andb_true_iff, !Z.eqb_eq. fold i0 j0. intuition lia. }
    rewrite (fold_tset (fun j => tset (idx j) o) (fun j => x =? idx j) _ _ _ o).
    2:{ intros j t'' _. done. }
    destruct ((i =? i0) && entry_matches main_op count sh v x) eqn:E.
    - apply andb_true_iff in E as [->%Z.eqb_eq E].
      rewrite (existsb_seqZ _ _ j0) by (intros j Hj; rewrite Hidx by done; intuition).
      destruct (Z.leb_spec 0 j0), (Z.ltb_spec j0 (2 ^ sh)); try lia. cbn [andb].
      unfold o, entry_op. by rewrite land_1.
    - rewrite (existsb_seqZ _ _ (-1)); [done|]. intros j Hj. rewrite Hidx by done.
      apply andb_false_iff in E. rewrite Z.eqb_neq in E. split; [|lia].
      intros (_ & -> & E'). destruct E; congruence. }
  rewrite (fold_tset _ (fun i => (i =? i0) && entry_matches main_op count sh v x) _ _ _
             (entry_op count sh v x)).
  2:{ intros i t' Hi%elem_of_seqZ. apply Hin. lia. }
  destruct (entry_matches main_op count sh v x).
  - rewrite (existsb_seqZ _ _ i0) by (intros; rewrite andb_true_r; lia).
    destruct (Z.leb_spec 0 i0), (Z.ltb_spec i0 (2 ^ n)); try lia. done.
  - rewrite (existsb_seqZ _ _ (-1)); [done|]. intros. rewrite andb_false_r. lia.
Qed.

Lemma fold_left_fill (f : DecoderTable -> InstructionEncodingInfo -> DecoderTable) g l t x :
  (forall v t, v ∈ l -> f t v x = g (t x) v) ->
  fold_left f l t x = fold_left g l (t x).
Proof.
  revert t. induction l as [|v l IH]; intros t H; cbn [fold_left]; [done|].
  rewrite IH; [rewrite H; [done|apply elem_of_cons; by left]|].
  intros w t' Hw. apply H, elem_of_cons. by right.
Qed.

Lemma fill_table_spec main_op count sh es t x :
  forallb (entry_wf count sh) es = true -> 0 <= sh < 11 -> 0 <= main_op < 64 ->
  0 <= x < 2 ^ 17 ->
  fill_table main_op count sh es t x = search main_op count sh es x (t x).
Proof.
  intros Hwf Hsh Hm Hx. unfold fill_table, search.
  rewrite wrap_id by (unfold urange; lia). destruct (Z.ltb_spec sh 11); [|lia].
  apply fold_left_fill. intros v t' Hv. apply fill_entry; try done.
  eapply forallb_forall; [exact Hwf|]. by apply list_elem_of_In.
Qed.

Lemma fill_main_spec es t x :
  forallb (fun v => (0 <=? value v) && (value v <? 64)) es = true -> 0 <= x < 2 ^ 17 ->
  fill_table 0 6 (-1) es t x = main_search es x (t x).
Proof.
  intros Hwf Hx. unfold fill_table, main_search. change (u32 (-1) <? 11) with false. cbv iota.
  apply fold_left_fill. intros v t' Hv.
  assert (0 <= value v < 64) as Hval.
  { pose proof (proj1 (forallb_forall _ _) Hwf v (proj1 (list_elem_of_In _ _) Hv)) as H.
    cbn beta in H. lia. }
  set (i0 := x / 64). assert (0 <= i0 < 2 ^ 11) as Hi0.
  { unfold i0. split; [apply Z.div_pos; lia | apply Z.div_lt_upper_bound; lia]. }
  rewrite (fold_tset _ (fun i => (i =? i0) && (x mod 64 =? value v)) _ _ _
             (if i0 mod 2 =? 0 then opcode v else rcOpcode v)).
  - destruct (x mod 64 =? value v).
    + rewrite (existsb_seqZ _ _ i0) by (intros; rewrite andb_true_r; lia).
      destruct (Z.leb_spec 0 i0), (Z.ltb_spec i0 (2 ^ 11)); try lia. done.
    + rewrite (existsb_seqZ _ _ (-1)); [done|]. intros. rewrite andb_false_r. lia.
  - intros i t'' Hi%elem_of_seqZ. unfold tset.
    rewrite shl_or_add, land_1 by (lia || (change (2 ^ 6) with 64; lia)).
    change (2 ^ 6) with 64. pose proof (Z.div_mod x 64 ltac:(lia)).
    destruct (Z.eqb_spec x (value v + 64 * i)) as [E|E].
    + assert (i = i0) as -> by (unfold i0; apply (Z.div_unique _ _ _ (value v)); lia).
      assert (x mod 64 = value v) as -> by (symmetry; apply (Z.mod_unique _ _ i0); lia).
      by rewrite !Z.eqb_refl.
    + destruct (Z.eqb_spec i i0) as [->|], (Z.eqb_spec (x mod 64) (value v)); cbn [andb]; try done.
      unfold i0 in E. lia.
Qed.

(** The index of an instruction word. *)
Lemma decode_fields inst :
  urange 32 inst ->
  0 <= decode inst < 2 ^ 17 /\ decode inst mod 64 = inst / 2 ^ 26 /\
  decode inst / 64 = inst mod 2 ^ 11.
Proof.
  intros Hi. assert (decode inst = inst / 2 ^ 26 + 64 * (inst mod 2 ^ 11)) as ->.
  { unfold decode. rewrite (land_low 17) by lia.
    assert (inst / 2 ^ 26 + 64 * (inst mod 2 ^ 11)
            = Z.lor (inst >>> 26) (Z.shiftl (wrap 11 inst) 6)) as ->.
    { rewrite <- Z.shiftr_div_pow2 by lia. change 64 with (2 ^ 6).
      apply add_shifted_lor; [lia|]. rewrite Z.shiftr_div_pow2 by lia.
      unfold urange in *. split; [apply Z.div_pos | apply Z.div_lt_upper_bound]; lia. }
    change ((?a) mod 2 ^ 17) with (wrap 17 a). apply Z.bits_inj'. intros j Hj. unfold shl.
    rewrite testbit_wrap, !Z.lor_spec, testbit_wrap, !Z.shiftl_spec, Z.shiftr_spec by lia.
    destruct (Z.ltb_spec j 17), (Z.ltb_spec j 32); try lia; cbn [andb].
    - destruct (Z.lt_ge_cases j 6).
      + by rewrite !(Z.testbit_neg_r _ (j - 6)) by lia.
      + rewrite testbit_wrap by lia. destruct (Z.ltb_spec (j - 6) 11); [done|lia].
    - rewrite (urange_testbit 32 inst (j + 26)) by (done || lia). rewrite testbit_wrap by lia.
      destruct (Z.ltb_spec (j - 6) 11); [lia|done].
    - rewrite (urange_testbit 32 inst (j + 26)) by (done || lia). rewrite testbit_wrap by lia.
      destruct (Z.ltb_spec (j - 6) 11); [lia|done]. }
  pose proof (Z.mod_pos_bound inst (2 ^ 11) ltac:(lia)) as Hm.
  assert (0 <= inst / 2 ^ 26 < 64) as Hd.
  { unfold urange in Hi. split; [apply Z.div_pos | apply Z.div_lt_upper_bound]; lia. }
  split_and!; try lia.
  - rewrite (Z.mul_comm 64), Z.mod_add, Z.mod_small by lia. done.
  - rewrite (Z.mul_comm 64), Z.div_add, Z.div_small by lia. lia.
Qed.

(** ** Entries do not clash *)

(** Two entries of a group either never match the same word or decode it
    alike. *)
Definition compat (count : Z) (v w : InstructionEncodingInfo) : bool :=
  let b := Z.min (count - magn v) (count - magn w) in
  negb (value v mod 2 ^ b =? value w mod 2 ^ b) ||
  ((magn v =? magn w) && bool_decide (opcode v = opcode w) &&
   bool_decide (rcOpcode v = rcOpcode w)).

Fixpoint no_clash (count : Z) (es : list InstructionEncodingInfo) : bool :=
  match es with
  | [] => true
  | v :: l => forallb (compat count v) l && no_clash count l
  end.

Lemma mod_mod_pow x a b : 0 <= a <= b -> (x mod 2 ^ b) mod 2 ^ a = x mod 2 ^ a.
Proof. intros. by apply wrap_wrap_le. Qed.

Lemma compat_sound main_op count sh v w x :
  entry_wf count sh v = true -> entry_wf count sh w = true -> compat count v w = true ->
  entry_matches main_op count sh v x = true -> entry_matches main_op count sh w x = true ->
  entry_op count sh w x = entry_op count sh v x.
Proof.
  unfold entry_wf, compat, entry_matches, entry_op.
  rewrite !andb_true_iff, !orb_true_iff, !andb_true_iff, !bool_decide_eq_true, !Z.eqb_eq,
    negb_true_iff, Z.eqb_neq, !Z.leb_le, !Z.ltb_lt.
  intros Hv Hw Hc [_ Hmv] [_ Hmw]. destruct Hc as [Hc|((-> & ->) & ->)]; [|done].
  exfalso. apply Hc. rewrite <- Hmv, <- Hmw, !mod_mod_pow by lia. done.
Qed.

Lemma search_keep main_op count sh l x o :
  (forall w, w ∈ l -> entry_matches main_op count sh w x = true -> entry_op count sh w x = o) ->
  search main_op count sh l x o = o.
Proof.
  unfold search. induction l as [|w l IH]; intros H; cbn [fold_left]; [done|].
  assert ((if entry_matches main_op count sh w x then entry_op count sh w x else o) = o) as ->.
  { destruct (entry_matches main_op count sh w x) eqn:E; [|done].
    apply H; [apply elem_of_cons; by left|done]. }
  apply IH. intros w' Hw'. apply H, elem_of_cons. by right.
Qed.

Lemma search_hit main_op count sh es v x d :
  forallb (entry_wf count sh) es = true -> no_clash count es = true -> v ∈ es ->
  entry_matches main_op count sh v x = true ->
  search main_op count sh es x d = entry_op count sh v x.
Proof.
  intros Hwf Hnc Hv Hm. revert d. induction es as [|w es IH]; intros d.
  { by apply not_elem_of_nil in Hv. }
  cbn [forallb no_clash] in Hwf, Hnc. apply andb_true_iff in Hwf as [Hw Hwf].
  apply andb_true_iff in Hnc as [Hc Hnc]. apply elem_of_cons in Hv as [->|Hv].
  - unfold search. cbn [fold_left]. rewrite Hm.
    apply (search_keep main_op count sh es x). intros w' Hw' Hm'.
    apply list_elem_of_In in Hw'.
    eapply (compat_sound main_op); [done| |..|done|done].
    + by eapply forallb_forall in Hwf.
    + by eapply forallb_forall in Hc.
  - unfold search. cbn [fold_left]. by apply IH.
Qed.

Lemma search_miss main_op count sh es x d :
  (forall v, v ∈ es -> entry_matches main_op count sh v x = false) ->
  search main_op count sh es x d = d.
Proof. intros H. apply search_keep. intros w Hw E. rewrite H in E; done. Qed.

Lemma search_other main_op count sh es x d :
  x mod 64 <> main_op -> search main_op count sh es x d = d.
Proof.
  intros H. apply search_miss. intros v _. unfold entry_matches.
  destruct (Z.eqb_spec (x mod 64) main_op); [done|done].
Qed.

(** The groups in the order the source fills them, after the main table. *)
Definition groups : list (Z * Z * Z * list InstructionEncodingInfo) :=
  [(0x04, 11, 0, group_04); (0x13, 10, 1, group_13); (0x1e, 4, 1, group_1e);
   (0x1f, 10, 1, group_1f); (0x3a, 2, 0, group_3a); (0x3b, 10, 1, group_3b);
   (0x3e, 2, 0, group_3e); (0x3f, 10, 1, group_3f)].

Definition group_ok (g : Z * Z * Z * list InstructionEncodingInfo) : bool :=
  let '(main_op, count, sh, es) := g in
  (0 <=? main_op) && (main_op <? 64) && (0 <=? sh) && (sh <? 11) &&
  forallb (entry_wf count sh) es && no_clash count es.

Lemma groups_ok : forallb group_ok groups = true.
Proof. vm_compute. reflexivity. Qed.

Lemma fill_group main_op count sh es t x :
  (main_op, count, sh, es) ∈ groups -> 0 <= x < 2 ^ 17 ->
  fill_table main_op count sh es t x = search main_op count sh es x (t x).
Proof.
  intros Hg Hx.
  pose proof (proj1 (forallb_forall _ _) groups_ok _ (proj1 (list_elem_of_In _ _) Hg)) as H.
  unfold group_ok in H. rewrite !andb_true_iff, !Z.leb_le, !Z.ltb_lt in H.
  apply fill_table_spec; tauto || lia.
Qed.

Lemma elem_of_groups g : In g groups -> g ∈ groups.
Proof. apply list_elem_of_In. Qed.

(** The table is the search through the groups over the main table. *)
Lemma table_search x :
  0 <= x < 2 ^ 17 ->
  buildOpcodeTable x =
    fold_left (fun d g => let '(main_op, count, sh, es) := g in search main_op count sh es x d)
      groups (main_search main_entries x Opcode.Invalid).
Proof.
  intros Hx. unfold buildOpcodeTable.
  rewrite !fill_group by (done || (apply elem_of_groups; unfold groups; simpl In; tauto)).
  rewrite fill_main_spec by done. reflexivity.
Qed.

Lemma main_search_other es x d :
  (forall v, v ∈ es -> x mod 64 <> value v) -> main_search es x d = d.
Proof.
  unfold main_search. revert d. induction es as [|v es IH]; intros d H; cbn [fold_left]; [done|].
  rewrite IH by (intros w Hw; apply H, elem_of_cons; by right).
  destruct (Z.eqb_spec (x mod 64) (value v)); [|done].
  exfalso. apply (H v); [apply elem_of_cons; by left | done].
Qed.

Lemma main_search_hit es v x d :
  NoDup (value <$> es) -> v ∈ es -> x mod 64 = value v ->
  main_search es x d = if (x / 64) mod 2 =? 0 then opcode v else rcOpcode v.
Proof.
  intros Hnd Hv Hx. revert d. induction es as [|w es IH]; intros d.
  { by apply not_elem_of_nil in Hv. }
  rewrite fmap_cons in Hnd. inversion Hnd as [|? ? Hn Hnd']; subst.
  apply elem_of_cons in Hv as [->|Hv].
  - unfold main_search. cbn [fold_left]. rewrite Hx, Z.eqb_refl. rewrite <- Hx.
    apply (main_search_other es x). intros u Hu E. apply Hn. rewrite <- Hx, E.
    by apply list_elem_of_fmap_2.
  - unfold main_search. cbn [fold_left]. by apply IH.
Qed.

Lemma main_values : NoDup (value <$> main_entries).
Proof. apply (bool_decide_unpack _). vm_compute. exact I. Qed.

(** No primary opcode of the main table starts a group. *)
Lemma main_group_disjoint v : v ∈ main_entries ->
  forall main_op count sh es, (main_op, count, sh, es) ∈ groups -> value v <> main_op.
Proof.
  assert (forallb (fun v => forallb (fun g => negb (value v =? g.1.1.1)) groups) main_entries
          = true) as H by (vm_compute; reflexivity).
  intros Hv main_op count sh es Hg. rewrite forallb_forall in H.
  specialize (H v (proj1 (list_elem_of_In _ _) Hv)). rewrite forallb_forall in H.
  specialize (H _ (proj1 (list_elem_of_In _ _) Hg)). cbn in H.
  by apply negb_true_iff, Z.eqb_neq in H.
Qed.

(** Only the group of its primary opcode decides a word. *)
Lemma groups_fold main_op count sh es x d :
  (main_op, count, sh, es) ∈ groups -> x mod 64 = main_op ->
  exists d', fold_left (fun d g => let '(mo, co, s, e) := g in search mo co s e x d) groups d
             = search main_op count sh es x d'.
Proof.
  intros Hg. apply list_elem_of_In in Hg. unfold groups in *. cbn [In] in Hg.
  destruct_or! Hg; simplify_eq; intros Hx; cbn [fold_left];
    eexists; rewrite ?search_other by lia; reflexivity.
Qed.

Lemma groups_fold_other x d :
  (forall main_op count sh es, (main_op, count, sh, es) ∈ groups -> x mod 64 <> main_op) ->
  fold_left (fun d g => let '(mo, co, s, e) := g in search mo co s e x d) groups d = d.
Proof.
  generalize groups as gs. intros gs H. revert d.
  induction gs as [|[[[mo co] s] e] gs IH]; intros d; cbn [fold_left]; [done|].
  rewrite search_other by (apply (H mo co s e), elem_of_cons; by left).
  apply IH. intros. eapply H, elem_of_cons; by right.
Qed.

(** The field a group matches, in the index and in the word. *)
Lemma field_of_index inst a b :
  0 <= a -> 0 <= b -> a + b <= 11 ->
  (inst mod 2 ^ 11 / 2 ^ a) mod 2 ^ b = (inst / 2 ^ a) mod 2 ^ b.
Proof.
  intros Ha Hb Hab. rewrite <- !Z.shiftr_div_pow2 by done.
  apply Z.bits_inj'. intros i Hi.
  assert (forall x n, x mod 2 ^ n = wrap n x) as W by done. rewrite !W.
  rewrite !testbit_wrap, !Z.shiftr_spec, testbit_wrap by lia.
  destruct (Z.ltb_spec i b); [|done].
  destruct (Z.ltb_spec (i + a) 11); [done|lia].
Qed.

Lemma group_facts main_op count sh es :
  (main_op, count, sh, es) ∈ groups ->
  0 <= sh < 11 /\ forallb (entry_wf count sh) es = true /\ no_clash count es = true.
Proof.
  intros Hg.
  pose proof (proj1 (forallb_forall _ _) groups_ok _ (proj1 (list_elem_of_In _ _) Hg)) as H.
  unfold group_ok in H. rewrite !andb_true_iff, !Z.leb_le, !Z.ltb_lt in H. tauto.
Qed.

Lemma entry_bounds count sh es v :
  forallb (entry_wf count sh) es = true -> v ∈ es ->
  0 <= magn v < count /\ 0 <= sh /\ sh + count <= 11.
Proof.
  intros Hwf Hv.
  pose proof (proj1 (forallb_forall _ _) Hwf _ (proj1 (list_elem_of_In _ _) Hv)) as H.
  unfold entry_wf in H. rewrite !andb_true_iff, !Z.leb_le, !Z.ltb_lt in H. lia.
Qed.

(** A word that no entry matches keeps the default. *)
Lemma search_inv main_op count sh es x d :
  search main_op count sh es x d = d \/
  exists v, v ∈ es /\ entry_matches main_op count sh v x = true.
Proof.
  destruct (existsb (fun v => entry_matches main_op count sh v x) es) eqn:E.
  - right. apply existsb_exists in E as (v & Hv & Hm). exists v.
    by rewrite list_elem_of_In.
  - left. apply search_miss. intros v Hv. apply not_true_iff_false. intros Hm.
    rewrite <- not_true_iff_false, existsb_exists in E. apply E. exists v.
    by rewrite <- list_elem_of_In.
Qed.

Lemma groups_inv x gs d :
  fold_left (fun d g => let '(mo, co, s, e) := g in search mo co s e x d) gs d = d \/
  exists main_op count sh es v, (main_op, count, sh, es) ∈ gs /\ v ∈ es /\
    entry_matches main_op count sh v x = true.
Proof.
  revert d. induction gs as [|[[[mo co] s] e] gs IH]; intros d; cbn [fold_left]; [by left|].
  destruct (search_inv mo co s e x d) as [->|(v & Hv & Hm)].
  - destruct (IH d) as [->|(mo' & co' & s' & e' & v & Hg & Hv & Hm)]; [by left|].
    right. exists mo', co', s', e', v. rewrite elem_of_cons. auto.
  - right. exists mo, co, s, e, v. rewrite elem_of_cons. auto.
Qed.

Lemma main_search_inv es x d :
  main_search es x d = d \/ exists v, v ∈ es /\ x mod 64 = value v.
Proof.
  destruct (existsb (fun v => x mod 64 =? value v) es) eqn:E.
  - right. apply existsb_exists in E as (v & Hv & Hm%Z.eqb_eq). exists v.
    by rewrite list_elem_of_In.
  - left. apply main_search_other. intros v Hv Hm.
    rewrite <- not_true_iff_false, existsb_exists in E. apply E. exists v.
    by rewrite <- list_elem_of_In, Z.eqb_eq.
Qed.

(** A word that matches an entry of a group. *)
Lemma decode_group inst :
  urange 32 inst -> forall main_op count sh es v,
  (main_op, count, sh, es) ∈ groups -> v ∈ es -> inst / 2 ^ 26 = main_op ->
  (inst / 2 ^ sh) mod 2 ^ (count - magn v) = value v ->
  getOpcode inst =
    if (inst mod 2 ^ 11 / 2 ^ sh / 2 ^ (count - magn v)) mod 2 =? 0
    then opcode v else rcOpcode v.
Proof.
  intros Hi main_op count sh es v Hg Hv Hmain Hf.
  destruct (decode_fields inst Hi) as (Hx & Hmod & Hdiv).
  unfold getOpcode. rewrite table_search by done.
  destruct (groups_fold main_op count sh es (decode inst)
              (main_search main_entries (decode inst) Opcode.Invalid)) as [d' ->];
    [done | congruence|].
  destruct (group_facts _ _ _ _ Hg) as (Hsh & Hwf & Hnc).
  pose proof (entry_bounds _ _ _ _ Hwf Hv) as Hb.
  rewrite (search_hit main_op count sh es v) by
    (try done; unfold entry_matches; rewrite Hmod, Hdiv, Hmain, field_of_index, Hf by lia;
     by rewrite !Z.eqb_refl).
  unfold entry_op. by rewrite Hdiv.
Qed.

(** C27: the decoder table, for every instruction word: a word whose primary
    opcode selects a group and whose extended opcode field equals an entry's
    value gets that entry's opcode, the record opcode exactly when the bit
    just above the matched field is set; a word whose primary opcode is in
    the main table gets its entry, the record opcode exactly when Rc is set;
    and every word that is not Invalid matches one of the entries. *)
Theorem decoder_spec inst :
  urange 32 inst ->
  (forall main_op count sh es v,
     (main_op, count, sh, es) ∈ groups -> v ∈ es -> inst / 2 ^ 26 = main_op ->
     (inst / 2 ^ sh) mod 2 ^ (count - magn v) = value v ->
     getOpcode inst =
       if (inst mod 2 ^ 11 / 2 ^ sh / 2 ^ (count - magn v)) mod 2 =? 0
       then opcode v else rcOpcode v) /\
  (forall v, v ∈ main_entries -> inst / 2 ^ 26 = value v ->
     getOpcode inst = if inst mod 2 =? 0 then opcode v else rcOpcode v) /\
  (getOpcode inst <> Opcode.Invalid ->
     (exists v, v ∈ main_entries /\ inst / 2 ^ 26 = value v) \/
     (exists main_op count sh es v,
        (main_op, count, sh, es) ∈ groups /\ v ∈ es /\ inst / 2 ^ 26 = main_op /\
        (inst / 2 ^ sh) mod 2 ^ (count - magn v) = value v)).
Proof.
  intros Hi. destruct (decode_fields inst Hi) as (Hx & Hmod & Hdiv).
  split; [by eapply decode_group|]. unfold getOpcode. rewrite table_search by done. split.
  - intros v Hv Hmain. rewrite groups_fold_other.
    + rewrite (main_search_hit _ v) by (done || apply main_values || congruence).
      rewrite Hdiv.
      assert ((inst mod 2 ^ 11) mod 2 = inst mod 2) as -> by (apply (mod_mod_pow inst 1 11); lia).
      done.
    + intros main_op count sh es Hg. rewrite Hmod, Hmain. by eapply main_group_disjoint.
  - intros Hne.
    destruct (groups_inv (decode inst) groups
                (main_search main_entries (decode inst) Opcode.Invalid))
      as [E|(main_op & count & sh & es & v & Hg & Hv & Hm)].
    + left. rewrite E in Hne. destruct (main_search_inv main_entries (decode inst) Opcode.Invalid)
        as [E'|(v & Hv & Hm)]; [done|]. exists v. by rewrite <- Hmod.
    + right. exists main_op, count, sh, es, v.
      destruct (group_facts _ _ _ _ Hg) as (Hsh & Hwf & Hnc).
      pose proof (entry_bounds _ _ _ _ Hwf Hv) as Hb.
      unfold entry_matches in Hm. rewrite andb_true_iff, !Z.eqb_eq, Hmod, Hdiv in Hm.
      rewrite field_of_index in Hm by lia. tauto.
Qed.

(** [add. r3, r4, r5], [rlwinm. r3, r4, 8, 24, 31] and an unassigned word. *)
Lemma decoder_spec_witness :
  urange 32 0x7c642a15 /\ getOpcode 0x7c642a15 = Opcode.ADD /\
  getOpcode 0x5483463f = Opcode.RLWINM_.
Proof.
  assert (urange 32 0x7c642a15) as H1 by (unfold urange; lia).
  assert (urange 32 0x5483463f) as H2 by (unfold urange; lia).
  destruct (decoder_spec _ H1) as (D1 & _ & _). destruct (decoder_spec _ H2) as (_ & D2 & _).
  split_and!; [exact H1 | |].
  - etransitivity; [apply (D1 0x1f 10 1 group_1f (GETRC 0x10a Opcode.ADD Opcode.ADD_));
      [ apply elem_of_groups; unfold groups; simpl In; tauto
      | apply (list_elem_of_lookup_2 _ 70); reflexivity
      | reflexivity | reflexivity ]|]. reflexivity.
  - etransitivity; [apply (D2 (GETRC 0x15 Opcode.RLWINM Opcode.RLWINM_));
      [ apply (list_elem_of_lookup_2 _ 14); reflexivity | reflexivity ]|]. reflexivity.
Defined.

(** The record opcodes of the 10-bit groups are dead: the source tests
    the loop counter above the matched field instead of the Rc bit below it,
    so a word of group 0x13 or 0x1f decodes to the plain opcode whether Rc is
    clear or set. *)
Theorem rc_never_decoded inst main_op es v :
  urange 32 inst -> (main_op, 10, 1, es) ∈ groups -> v ∈ es -> magn v = 0 ->
  inst / 2 ^ 26 = main_op -> (inst / 2) mod 2 ^ 10 = value v ->
  getOpcode inst = opcode v.
Proof.
  intros Hi Hg Hv Hm Hmain Hf.
  rewrite (decode_group inst Hi main_op 10 1 es v) by (done || by rewrite Hm).
  rewrite Hm. change (10 - 0) with 10.
  rewrite (Z.div_small (inst mod 2 ^ 11 / 2 ^ 1)); [done|].
  pose proof (Z.mod_pos_bound inst (2 ^ 11) ltac:(lia)).
  split; [apply Z.div_pos; lia | apply Z.div_lt_upper_bound; lia].
Qed.

(** [or. r3, r4, r5] decodes to OR, not OR_. *)
Lemma rc_never_decoded_witness :
  urange 32 0x7c832b79 /\ rc 0x7c832b79 = 1 /\ getOpcode 0x7c832b79 = Opcode.OR.
Proof.
  assert (urange 32 0x7c832b79) as Hi by (unfold urange; lia).
  split_and!; [exact Hi | reflexivity |].
  apply (rc_never_decoded 0x7c832b79 0x1f group_1f (GETRC 0x1bc Opcode.OR Opcode.OR_) Hi);
    try reflexivity.
  - apply elem_of_groups; unfold groups; simpl In; tauto.
  - apply (list_elem_of_lookup_2 _ 91); reflexivity.
Defined.

(** The L bit of the compares is the lowest bit of the register field. *)
Lemma l10_rs inst : l10 inst = rs inst mod 2.
Proof.
  change (rs inst mod 2) with (wrap 1 (rs inst)).
  apply Z.bits_inj'. intros j Hj. unfold l10, rs, bf_u.
  rewrite testbit_wrap, !testbit_extract_u by lia.
  destruct (Z.ltb_spec j 1), (Z.ltb_spec j 5); try lia; done.
Qed.

(** [fixOpcode] decides between the mtcrf and mtocrf mnemonics by the
    low bit of the source register number, while the instruction itself tests
    bit 11: [mtcrf 255, r5], which moves all eight fields, is named mtocrf,
    and [mtocrf 128, r4], which moves one, is named mtcrf. *)
Theorem fixOpcode_mtcrf_by_register inst :
  (fixOpcode Opcode.MTOCRF inst = Opcode.MTCRF <-> rs inst mod 2 = 0) /\
  (l11 0x7caff120 = 0 /\ fixOpcode Opcode.MTOCRF 0x7caff120 = Opcode.MTOCRF) /\
  (l11 0x7c980120 = 1 /\ fixOpcode Opcode.MTOCRF 0x7c980120 = Opcode.MTCRF).
Proof.
  split; [|done]. cbn [fixOpcode]. rewrite l10_rs.
  destruct (Z.eqb_spec (rs inst mod 2) 0); intuition congruence.
Qed.
