(* ===== verification/PpuVectorTable.v ===== *)
(** * The vector entries of the dispatch table

    The decoders [PPUInterpreter]'s constructor stores for the integer vector
    opcodes, a record compare sharing the decoder of its plain form, and what
    they all keep: registers in range and the instruction address. *)

From stdpp Require Import base numbers list tactics.
From Stdlib Require Import Lia.
From S2P Require Import Prelude Asm PpuInstruction PpuContext Simd SimdOps SimdSpec SimdWide SimdShift.
From S2P Require Import PpuVector PpuVectorSpec PpuVectorMove PpuDecoder.
Import Instruction.
Open Scope Z_scope.
Open Scope mach_scope.

Definition vector_impl (m : isa) (op : Opcode.t) : option (PPUContext -> Z -> PPUContext) :=
  match op with
  | Opcode.MFVSCR => Some (MFVSCR m)
  | Opcode.MTVSCR => Some MTVSCR
  | Opcode.VADDCUW => Some (VADDCUW m)
  | Opcode.VADDSBS => Some VADDSBS
  | Opcode.VADDSHS => Some VADDSHS
  | Opcode.VADDSWS => Some VADDSWS
  | Opcode.VADDUBM => Some VADDUBM
  | Opcode.VADDUBS => Some VADDUBS
  | Opcode.VADDUHM => Some VADDUHM
  | Opcode.VADDUHS => Some VADDUHS
  | Opcode.VADDUWM => Some VADDUWM
  | Opcode.VADDUWS => Some (VADDUWS m)
  | Opcode.VSUBCUW => Some (VSUBCUW m)
  | Opcode.VSUBSBS => Some VSUBSBS
  | Opcode.VSUBSHS => Some VSUBSHS
  | Opcode.VSUBSWS => Some VSUBSWS
  | Opcode.VSUBUBM => Some VSUBUBM
  | Opcode.VSUBUBS => Some VSUBUBS
  | Opcode.VSUBUHM => Some VSUBUHM
  | Opcode.VSUBUHS => Some VSUBUHS
  | Opcode.VSUBUWM => Some VSUBUWM
  | Opcode.VSUBUWS => Some (VSUBUWS m)
  | Opcode.VAND => Some VAND
  | Opcode.VANDC => Some VANDC
  | Opcode.VNOR => Some VNOR
  | Opcode.VOR => Some VOR
  | Opcode.VXOR => Some VXOR
  | Opcode.VSEL => Some VSEL
  | Opcode.VAVGSB => Some VAVGSB
  | Opcode.VAVGSH => Some VAVGSH
  | Opcode.VAVGSW => Some (VAVGSW m)
  | Opcode.VAVGUB => Some VAVGUB
  | Opcode.VAVGUH => Some VAVGUH
  | Opcode.VAVGUW => Some (VAVGUW m)
  | Opcode.VMAXSB => Some (VMAXSB m)
  | Opcode.VMAXSH => Some VMAXSH
  | Opcode.VMAXSW => Some (VMAXSW m)
  | Opcode.VMAXUB => Some VMAXUB
  | Opcode.VMAXUH => Some (VMAXUH m)
  | Opcode.VMAXUW => Some (VMAXUW m)
  | Opcode.VMINSB => Some (VMINSB m)
  | Opcode.VMINSH => Some VMINSH
  | Opcode.VMINSW => Some (VMINSW m)
  | Opcode.VMINUB => Some VMINUB
  | Opcode.VMINUH => Some (VMINUH m)
  | Opcode.VMINUW => Some (VMINUW m)
  | Opcode.VCMPEQUB | Opcode.VCMPEQUB_ => Some (VCMPEQUB m)
  | Opcode.VCMPEQUH | Opcode.VCMPEQUH_ => Some (VCMPEQUH m)
  | Opcode.VCMPEQUW | Opcode.VCMPEQUW_ => Some (VCMPEQUW m)
  | Opcode.VCMPGTSB | Opcode.VCMPGTSB_ => Some (VCMPGTSB m)
  | Opcode.VCMPGTSH | Opcode.VCMPGTSH_ => Some (VCMPGTSH m)
  | Opcode.VCMPGTSW | Opcode.VCMPGTSW_ => Some (VCMPGTSW m)
  | Opcode.VCMPGTUB | Opcode.VCMPGTUB_ => Some (VCMPGTUB m)
  | Opcode.VCMPGTUH | Opcode.VCMPGTUH_ => Some (VCMPGTUH m)
  | Opcode.VCMPGTUW | Opcode.VCMPGTUW_ => Some (VCMPGTUW m)
  | Opcode.VMHADDSHS => Some VMHADDSHS
  | Opcode.VMHRADDSHS => Some VMHRADDSHS
  | Opcode.VMLADDUHM => Some VMLADDUHM
  | Opcode.VMSUMMBM => Some VMSUMMBM
  | Opcode.VMSUMSHM => Some VMSUMSHM
  | Opcode.VMSUMSHS => Some (VMSUMSHS m)
  | Opcode.VMSUMUBM => Some VMSUMUBM
  | Opcode.VMSUMUHM => Some VMSUMUHM
  | Opcode.VMSUMUHS => Some (VMSUMUHS m)
  | Opcode.VMULESB => Some VMULESB
  | Opcode.VMULESH => Some VMULESH
  | Opcode.VMULEUB => Some VMULEUB
  | Opcode.VMULEUH => Some (VMULEUH m)
  | Opcode.VMULOSB => Some VMULOSB
  | Opcode.VMULOSH => Some VMULOSH
  | Opcode.VMULOUB => Some VMULOUB
  | Opcode.VMULOUH => Some (VMULOUH m)
  | Opcode.VMRGHB => Some VMRGHB
  | Opcode.VMRGHH => Some VMRGHH
  | Opcode.VMRGHW => Some VMRGHW
  | Opcode.VMRGLB => Some VMRGLB
  | Opcode.VMRGLH => Some VMRGLH
  | Opcode.VMRGLW => Some VMRGLW
  | Opcode.VPERM => Some VPERM
  | Opcode.VPKPX => Some VPKPX
  | Opcode.VPKSHSS => Some VPKSHSS
  | Opcode.VPKSHUS => Some VPKSHUS
  | Opcode.VPKSWSS => Some VPKSWSS
  | Opcode.VPKSWUS => Some (VPKSWUS m)
  | Opcode.VPKUHUM => Some VPKUHUM
  | Opcode.VPKUHUS => Some (VPKUHUS m)
  | Opcode.VPKUWUM => Some (VPKUWUM m)
  | Opcode.VPKUWUS => Some (VPKUWUS m)
  | Opcode.VUPKHPX => Some (VUPKHPX m)
  | Opcode.VUPKHSB => Some (VUPKHSB m)
  | Opcode.VUPKHSH => Some (VUPKHSH m)
  | Opcode.VUPKLPX => Some (VUPKLPX m)
  | Opcode.VUPKLSB => Some (VUPKLSB m)
  | Opcode.VUPKLSH => Some (VUPKLSH m)
  | Opcode.VRLB => Some (VRLB m)
  | Opcode.VRLH => Some VRLH
  | Opcode.VRLW => Some VRLW
  | Opcode.VSL => Some (VSL m)
  | Opcode.VSLB => Some (VSLB m)
  | Opcode.VSLDOI => Some VSLDOI
  | Opcode.VSLH => Some VSLH
  | Opcode.VSLO => Some VSLO
  | Opcode.VSLW => Some VSLW
  | Opcode.VSPLTB => Some VSPLTB
  | Opcode.VSPLTH => Some VSPLTH
  | Opcode.VSPLTISB => Some VSPLTISB
  | Opcode.VSPLTISH => Some VSPLTISH
  | Opcode.VSPLTISW => Some VSPLTISW
  | Opcode.VSPLTW => Some VSPLTW
  | Opcode.VSR => Some (VSR m)
  | Opcode.VSRAB => Some VSRAB
  | Opcode.VSRAH => Some VSRAH
  | Opcode.VSRAW => Some VSRAW
  | Opcode.VSRB => Some (VSRB m)
  | Opcode.VSRH => Some VSRH
  | Opcode.VSRO => Some VSRO
  | Opcode.VSRW => Some VSRW
  | Opcode.VSUMSWS => Some VSUMSWS
  | Opcode.VSUM2SWS => Some VSUM2SWS
  | Opcode.VSUM4SBS => Some (VSUM4SBS m)
  | Opcode.VSUM4SHS => Some (VSUM4SHS m)
  | Opcode.VSUM4UBS => Some (VSUM4UBS m)
  | _ => None
  end.

(** ** Ranges *)

Ltac head t := lazymatch t with ?f _ => head f | _ => t end.

(** A value built by vector operations is a 128-bit one. *)
Ltac range128 :=
  repeat first
    [ assumption
    | lazymatch goal with
      | |- urange 128 (vmake _ _) => apply vmake_range; solve [auto with lanes]
      | |- urange 128 (VR _ _) =>
          apply VR_range; [assumption|solve [auto using va_range, vb_range, vc_range, vd_range]]
      | |- urange 128 (sat _) => by apply wf_sat
      | |- urange 128 (wrap 32 _) => apply (urange_mono 32 128); [lia|]; apply wrap_range; lia
      | |- urange 128 (wrap _ _) => apply wrap_range; lia
      | |- urange 128 (_ &&& _) => apply land_urange2; [lia| |]
      | |- urange 128 (_ ||| _) => apply lor_urange; [lia| |]
      | |- urange 128 (_ ^^^ _) => apply lxor_urange; [lia| |]
      | |- urange 128 (Z.ldiff _ _) => apply ldiff_urange; [lia|]
      | |- urange _ (_ >>> (lane 8 ?b 0 &&& 0x78)) =>
          apply shiftr_urange; [lia|rewrite octets_eq; pose proof (octets_range b); lia|]
      | |- urange _ (_ >>> _) => apply shiftr_urange; [lia|lia|]
      | |- urange _ (if ?b then _ else _) => destruct b
      | |- urange _ (match ?x with _ => _ end) => destruct x
      | |- urange _ 0 => exact urange_128_0
      | |- urange _ 1 => done
      | |- urange 128 ?t => let h := head t in progress unfold h; cbv beta zeta
      end ].

Lemma vop1_wf f c inst : wf_ctx c -> (forall b, urange 128 b -> urange 128 (f b)) -> wf_ctx (vop1 f c inst).
Proof. intros Hc Hf. apply set_vr_wf; [done|]. apply Hf, VR_range; [done|apply vb_range]. Qed.

Lemma vop2_wf f c inst :
  wf_ctx c -> (forall a b, urange 128 a -> urange 128 b -> urange 128 (f a b)) -> wf_ctx (vop2 f c inst).
Proof. intros Hc Hf. apply set_vr_wf; [done|]. apply Hf; apply VR_range; auto using va_range, vb_range. Qed.

Lemma vop3_wf f c inst :
  wf_ctx c -> (forall a b d, urange 128 a -> urange 128 b -> urange 128 d -> urange 128 (f a b d)) ->
  wf_ctx (vop3 f c inst).
Proof. intros Hc Hf. apply set_vr_wf; [done|]. apply Hf; apply VR_range; auto using va_range, vb_range, vc_range. Qed.

Definition range_pair (r : Z * Z) : Prop := urange 128 (fst r) /\ urange 128 (snd r).

Lemma vsat2_wf f c inst :
  wf_ctx c ->
  (forall a b s, urange 128 a -> urange 128 b -> urange 128 s -> range_pair (f a b s)) -> wf_ctx (vsat2 f c inst).
Proof.
  intros Hc Hf. unfold vsat2. specialize (Hf (VR c (va inst)) (VR c (vb inst)) (sat c)).
  destruct (f _ _ _) as [d s]. destruct Hf as [H1 H2]; [range128..|]. cbn [fst snd] in *. auto using set_vr_wf, with_sat_wf.
Qed.

Lemma vsat3_wf f c inst :
  wf_ctx c ->
  (forall a b d s, urange 128 a -> urange 128 b -> urange 128 d -> urange 128 s -> range_pair (f a b d s)) ->
  wf_ctx (vsat3 f c inst).
Proof.
  intros Hc Hf. unfold vsat3. specialize (Hf (VR c (va inst)) (VR c (vb inst)) (VR c (vc inst)) (sat c)).
  destruct (f _ _ _ _) as [d s]. destruct Hf as [H1 H2]; [range128..|]. cbn [fst snd] in *. auto using set_vr_wf, with_sat_wf.
Qed.

Lemma vcmp_wf m f c inst :
  wf_ctx c -> (forall a b, urange 128 (f a b)) -> wf_ctx (vcmp m f c inst).
Proof.
  intros Hc Hf. unfold vcmp. cbv zeta. apply set_vr_wf; [|apply Hf].
  destruct (_ =? _); [done|]. apply set_cr_field_wf; auto with mach.
Qed.

Lemma vscr_wf m c inst : wf_ctx c -> wf_ctx (MFVSCR m c inst) /\ wf_ctx (MTVSCR c inst).
Proof.
  intros Hc. split.
  - apply set_vr_wf; [done|]. rewrite Z.shiftl_mul_pow2 by lia.
    pose proof (wrap_range 64 (Z.shiftl (b2z (negb (gv_testz m (sat c))) ||| Z.shiftl (b2z (nj c)) 16) 32)
      ltac:(lia)) as [H1 H2]. unfold urange in *. cbn in *. lia.
  - apply with_vscr_wf; [done| |].
    + apply land_urange; [lia..|]. apply (urange_mono 32); [lia|]. apply lane_range. lia.
    + destruct (negb _); unfold urange; lia.
Qed.

Lemma vsldoi_wf c inst : wf_ctx c -> wf_ctx (VSLDOI c inst).
Proof. intros Hc. pose proof (vsh_range inst). unfold VSLDOI. destruct (_ <? _); [|done]. apply set_vr_wf; [done|]. range128. Qed.

Lemma vmsumuhs_wf m c inst : wf_ctx c -> wf_ctx (VMSUMUHS m c inst).
Proof.
  intros Hc. apply with_sat_wf; [done|]. apply msumuhs_saturates; [apply VR_range; [done|apply vc_range]|by apply wf_sat].
Qed.

Lemma vector_impl_wf m op f c inst : vector_impl m op = Some f -> wf_ctx c -> wf_ctx (f c inst).
Proof.
  intros E Hc. destruct op; try discriminate E; injection E as <-;
    first [ by apply vscr_wf | by apply vsldoi_wf | by apply vmsumuhs_wf
          | lazymatch goal with |- wf_ctx (?t _ _) => let h := head t in unfold h end ];
    first [ assumption
          | apply set_vr_wf; [done|]; range128
          | apply vop2_wf; [done|]; intros a b Ha Hb; range128
          | apply vop1_wf; [done|]; intros b Hb; range128
          | apply vop3_wf; [done|]; intros a b d Ha Hb Hd; range128
          | apply vsat2_wf; [done|]; intros a b s Ha Hb Hs; cbv zeta; repeat case_match; split; cbn [fst snd]; range128
          | apply vsat3_wf; [done|]; intros a b d s Ha Hb Hd Hs; cbv zeta; split; cbn [fst snd]; range128
          | apply vcmp_wf; [done|]; intros a b; range128 ].
Qed.

Lemma vector_impl_cia m op f c inst : vector_impl m op = Some f -> cia (f c inst) = cia c.
Proof.
  intros E. destruct op; try discriminate E; injection E as <-;
    lazymatch goal with |- cia (?t _ _) = _ => let h := head t in unfold h end;
    unfold vsat2, vsat3, vcmp; repeat case_match; reflexivity.
Qed.
