(* ===== verification/PpuInterp.v ===== *)
(** * PPU interpreter

    [PPUInterpreter] of [rpcs3/Emu/Cell/PPUInterpreter.cpp]: the dispatch
    table filled by its constructor, the HLE function lookup of
    [PPUFunction.h] and [interpret], which decodes an instruction word,
    executes it and steps the current instruction address.  The instructions
    that are not modelled, the functions registered in the executable-memory
    table and the HLE functions are parameters. *)

From stdpp Require Import base numbers list tactics.
From Stdlib Require Import Lia.
From S2P Require Import Prelude Asm PpuInstruction PpuContext PpuArith PpuLogic PpuCr PpuBranch.
From S2P Require Import PpuLoadStore PpuVecMem Simd PpuDecoder PpuVectorTable.
Import Instruction.
Open Scope Z_scope.
Open Scope mach_scope.

(** The exceptions the instructions throw. *)
Inductive exn := TrapException | Invalid | Unimplemented.

Inductive result :=
  | Done (s : state)
  | Throw (e : exn).

Definition of_outcome (o : outcome) (m : mem) : result :=
  match o with
  | Next c => Done (c, m)
  | Trap => Throw TrapException
  | InvalidInstruction => Throw Invalid
  | UnimplementedInstruction => Throw Unimplemented
  end.

Definition ppu_func := state -> Z -> result.

(** What the interpreter depends on: the time base, the conditional
    compilation switch, the indeterminate byte of [STVRX], the vector
    instruction set of the build, the instructions outside the model, the function registered for an address
    ([vm::g_exec_addr]) and the HLE function table with its address. *)
Record env := mkEnv {
  get_tb : Z;
  arch_x64 : bool;
  uninit : Z;
  simd : isa;
  ext : Opcode.t -> ppu_func;
  exec_fn : Z -> option ppu_func;
  hle_addr : Z;
  hle_funcs : list (option ppu_func)
}.

(** [impl[op](context, inst)]: the constructor stores the decoder of each
    opcode, a record opcode sharing the decoder of its plain form. *)
Definition impl (env : env) (op : Opcode.t) (s : state) (inst : Z) : result :=
  match op with
  | Opcode.MULLI => Done (MULLI (fst s) inst, snd s)
  | Opcode.SUBFIC => Done (SUBFIC (fst s) inst, snd s)
  | Opcode.ADDIC => Done (ADDIC (fst s) inst, snd s)
  | Opcode.ADDI => Done (ADDI (fst s) inst, snd s)
  | Opcode.ADDIS => Done (ADDIS (fst s) inst, snd s)
  | Opcode.ADD | Opcode.ADD_ => Done (ADD (fst s) inst, snd s)
  | Opcode.ADDC | Opcode.ADDC_ => Done (ADDC (fst s) inst, snd s)
  | Opcode.ADDE | Opcode.ADDE_ => Done (ADDE (fst s) inst, snd s)
  | Opcode.ADDZE | Opcode.ADDZE_ => Done (ADDZE (fst s) inst, snd s)
  | Opcode.ADDME | Opcode.ADDME_ => Done (ADDME (fst s) inst, snd s)
  | Opcode.SUBF | Opcode.SUBF_ => Done (SUBF (fst s) inst, snd s)
  | Opcode.SUBFC | Opcode.SUBFC_ => Done (SUBFC (fst s) inst, snd s)
  | Opcode.SUBFE | Opcode.SUBFE_ => Done (SUBFE (fst s) inst, snd s)
  | Opcode.SUBFZE | Opcode.SUBFZE_ => Done (SUBFZE (fst s) inst, snd s)
  | Opcode.SUBFME | Opcode.SUBFME_ => Done (SUBFME (fst s) inst, snd s)
  | Opcode.NEG | Opcode.NEG_ => Done (NEG (fst s) inst, snd s)
  | Opcode.MULHDU | Opcode.MULHDU_ => Done (MULHDU (fst s) inst, snd s)
  | Opcode.MULHWU | Opcode.MULHWU_ => Done (MULHWU (fst s) inst, snd s)
  | Opcode.MULHD | Opcode.MULHD_ => Done (MULHD (fst s) inst, snd s)
  | Opcode.MULHW | Opcode.MULHW_ => Done (MULHW (fst s) inst, snd s)
  | Opcode.MULLD | Opcode.MULLD_ => Done (MULLD (fst s) inst, snd s)
  | Opcode.MULLW | Opcode.MULLW_ => Done (MULLW (fst s) inst, snd s)
  | Opcode.DIVDU | Opcode.DIVDU_ => Done (DIVDU (fst s) inst, snd s)
  | Opcode.DIVWU | Opcode.DIVWU_ => Done (DIVWU (fst s) inst, snd s)
  | Opcode.DIVD | Opcode.DIVD_ => Done (DIVD (fst s) inst, snd s)
  | Opcode.DIVW | Opcode.DIVW_ => Done (DIVW (fst s) inst, snd s)
  | Opcode.ORI => Done (ORI (fst s) inst, snd s)
  | Opcode.ORIS => Done (ORIS (fst s) inst, snd s)
  | Opcode.XORI => Done (XORI (fst s) inst, snd s)
  | Opcode.XORIS => Done (XORIS (fst s) inst, snd s)
  | Opcode.ANDI => Done (ANDI (fst s) inst, snd s)
  | Opcode.ANDIS => Done (ANDIS (fst s) inst, snd s)
  | Opcode.AND | Opcode.AND_ => Done (AND (fst s) inst, snd s)
  | Opcode.ANDC | Opcode.ANDC_ => Done (ANDC (fst s) inst, snd s)
  | Opcode.OR | Opcode.OR_ => Done (OR (fst s) inst, snd s)
  | Opcode.ORC | Opcode.ORC_ => Done (ORC (fst s) inst, snd s)
  | Opcode.XOR | Opcode.XOR_ => Done (XOR (fst s) inst, snd s)
  | Opcode.NAND | Opcode.NAND_ => Done (NAND (fst s) inst, snd s)
  | Opcode.NOR | Opcode.NOR_ => Done (NOR (fst s) inst, snd s)
  | Opcode.EQV | Opcode.EQV_ => Done (EQV (fst s) inst, snd s)
  | Opcode.EXTSB | Opcode.EXTSB_ => Done (EXTSB (fst s) inst, snd s)
  | Opcode.EXTSH | Opcode.EXTSH_ => Done (EXTSH (fst s) inst, snd s)
  | Opcode.EXTSW | Opcode.EXTSW_ => Done (EXTSW (fst s) inst, snd s)
  | Opcode.CNTLZW | Opcode.CNTLZW_ => Done (CNTLZW (fst s) inst, snd s)
  | Opcode.CNTLZD | Opcode.CNTLZD_ => Done (CNTLZD (fst s) inst, snd s)
  | Opcode.RLWIMI | Opcode.RLWIMI_ => Done (RLWIMI (fst s) inst, snd s)
  | Opcode.RLWINM | Opcode.RLWINM_ => Done (RLWINM (fst s) inst, snd s)
  | Opcode.RLWNM | Opcode.RLWNM_ => Done (RLWNM (fst s) inst, snd s)
  | Opcode.RLDICL | Opcode.RLDICL_ => Done (RLDICL (fst s) inst, snd s)
  | Opcode.RLDICR | Opcode.RLDICR_ => Done (RLDICR (fst s) inst, snd s)
  | Opcode.RLDIC | Opcode.RLDIC_ => Done (RLDIC (fst s) inst, snd s)
  | Opcode.RLDIMI | Opcode.RLDIMI_ => Done (RLDIMI (fst s) inst, snd s)
  | Opcode.RLDCL | Opcode.RLDCL_ => Done (RLDCL (fst s) inst, snd s)
  | Opcode.RLDCR | Opcode.RLDCR_ => Done (RLDCR (fst s) inst, snd s)
  | Opcode.SLW | Opcode.SLW_ => Done (SLW (fst s) inst, snd s)
  | Opcode.SRW | Opcode.SRW_ => Done (SRW (fst s) inst, snd s)
  | Opcode.SLD | Opcode.SLD_ => Done (SLD (fst s) inst, snd s)
  | Opcode.SRD | Opcode.SRD_ => Done (SRD (fst s) inst, snd s)
  | Opcode.SRAW | Opcode.SRAW_ => Done (SRAW (fst s) inst, snd s)
  | Opcode.SRAD | Opcode.SRAD_ => Done (SRAD (fst s) inst, snd s)
  | Opcode.SRAWI | Opcode.SRAWI_ => Done (SRAWI (fst s) inst, snd s)
  | Opcode.SRADI | Opcode.SRADI_ => Done (SRADI (fst s) inst, snd s)
  | Opcode.CMPLI => Done (CMPLI (fst s) inst, snd s)
  | Opcode.CMPI => Done (CMPI (fst s) inst, snd s)
  | Opcode.CMP => Done (CMP (fst s) inst, snd s)
  | Opcode.CMPL => Done (CMPL (fst s) inst, snd s)
  | Opcode.CRNOR => Done (CRNOR (fst s) inst, snd s)
  | Opcode.CRANDC => Done (CRANDC (fst s) inst, snd s)
  | Opcode.CRXOR => Done (CRXOR (fst s) inst, snd s)
  | Opcode.CRNAND => Done (CRNAND (fst s) inst, snd s)
  | Opcode.CRAND => Done (CRAND (fst s) inst, snd s)
  | Opcode.CREQV => Done (CREQV (fst s) inst, snd s)
  | Opcode.CRORC => Done (CRORC (fst s) inst, snd s)
  | Opcode.CROR => Done (CROR (fst s) inst, snd s)
  | Opcode.MCRF => Done (MCRF (fst s) inst, snd s)
  | Opcode.MTOCRF => Done (MTOCRF (fst s) inst, snd s)
  | Opcode.BC => Done (BC (fst s) inst, snd s)
  | Opcode.B => Done (B (fst s) inst, snd s)
  | Opcode.BCLR => Done (BCLR (fst s) inst, snd s)
  | Opcode.BCCTR => Done (BCCTR (fst s) inst, snd s)
  | Opcode.LBZ => Done (LBZ s inst)
  | Opcode.LBZU => Done (LBZU s inst)
  | Opcode.LBZX => Done (LBZX s inst)
  | Opcode.LBZUX => Done (LBZUX s inst)
  | Opcode.LHZ => Done (LHZ s inst)
  | Opcode.LHZU => Done (LHZU s inst)
  | Opcode.LHZX => Done (LHZX s inst)
  | Opcode.LHZUX => Done (LHZUX s inst)
  | Opcode.LHA => Done (LHA s inst)
  | Opcode.LHAU => Done (LHAU s inst)
  | Opcode.LHAX => Done (LHAX s inst)
  | Opcode.LHAUX => Done (LHAUX s inst)
  | Opcode.LWZ => Done (LWZ s inst)
  | Opcode.LWZU => Done (LWZU s inst)
  | Opcode.LWZX => Done (LWZX s inst)
  | Opcode.LWZUX => Done (LWZUX s inst)
  | Opcode.LWA => Done (LWA s inst)
  | Opcode.LWAX => Done (LWAX s inst)
  | Opcode.LWAUX => Done (LWAUX s inst)
  | Opcode.LD => Done (LD s inst)
  | Opcode.LDU => Done (LDU s inst)
  | Opcode.LDX => Done (LDX s inst)
  | Opcode.LDUX => Done (LDUX s inst)
  | Opcode.LHBRX => Done (LHBRX s inst)
  | Opcode.LWBRX => Done (LWBRX s inst)
  | Opcode.LDBRX => Done (LDBRX s inst)
  | Opcode.STB => Done (STB s inst)
  | Opcode.STBU => Done (STBU s inst)
  | Opcode.STBX => Done (STBX s inst)
  | Opcode.STBUX => Done (STBUX s inst)
  | Opcode.STH => Done (STH s inst)
  | Opcode.STHU => Done (STHU s inst)
  | Opcode.STHX => Done (STHX s inst)
  | Opcode.STHUX => Done (STHUX s inst)
  | Opcode.STW => Done (STW s inst)
  | Opcode.STWU => Done (STWU s inst)
  | Opcode.STWX => Done (STWX s inst)
  | Opcode.STWUX => Done (STWUX s inst)
  | Opcode.STD => Done (STD s inst)
  | Opcode.STDU => Done (STDU s inst)
  | Opcode.STDX => Done (STDX s inst)
  | Opcode.STDUX => Done (STDUX s inst)
  | Opcode.STHBRX => Done (STHBRX s inst)
  | Opcode.STWBRX => Done (STWBRX s inst)
  | Opcode.STDBRX => Done (STDBRX s inst)
  | Opcode.LMW => Done (LMW s inst)
  | Opcode.STMW => Done (STMW s inst)
  | Opcode.LSWI => Done (LSWI s inst)
  | Opcode.LSWX => Done (LSWX s inst)
  | Opcode.STSWI => Done (STSWI s inst)
  | Opcode.STSWX => Done (STSWX s inst)
  | Opcode.LFD => Done (LFD s inst)
  | Opcode.LFDU => Done (LFDU s inst)
  | Opcode.LFDX => Done (LFDX s inst)
  | Opcode.LFDUX => Done (LFDUX s inst)
  | Opcode.STFD => Done (STFD s inst)
  | Opcode.STFDU => Done (STFDU s inst)
  | Opcode.STFDX => Done (STFDX s inst)
  | Opcode.STFDUX => Done (STFDUX s inst)
  | Opcode.STFIWX => Done (STFIWX s inst)
  | Opcode.LVX => Done (LVX s inst)
  | Opcode.LVXL => Done (LVXL s inst)
  | Opcode.LVEBX => Done (LVEBX s inst)
  | Opcode.LVEHX => Done (LVEHX s inst)
  | Opcode.LVEWX => Done (LVEWX s inst)
  | Opcode.STVX => Done (STVX s inst)
  | Opcode.STVXL => Done (STVXL s inst)
  | Opcode.STVEBX => Done (STVEBX s inst)
  | Opcode.STVEHX => Done (STVEHX s inst)
  | Opcode.STVEWX => Done (STVEWX s inst)
  | Opcode.LVLX => Done (LVLX s inst)
  | Opcode.LVLXL => Done (LVLXL s inst)
  | Opcode.LVRX => Done (LVRX s inst)
  | Opcode.LVRXL => Done (LVRXL s inst)
  | Opcode.STVLX => Done (STVLX s inst)
  | Opcode.STVLXL => Done (STVLXL s inst)
  | Opcode.STVRXL => Done (STVRXL s inst)
  | Opcode.LVSL => Done (LVSL s inst)
  | Opcode.LVSR => Done (LVSR s inst)
  | Opcode.STVRX => Done (STVRX (uninit env) s inst)
  | Opcode.MFOCRF => Done (MFOCRF (arch_x64 env) (fst s) inst, snd s)
  | Opcode.TDI => of_outcome (TDI (fst s) inst) (snd s)
  | Opcode.TWI => of_outcome (TWI (fst s) inst) (snd s)
  | Opcode.TW => of_outcome (TW (fst s) inst) (snd s)
  | Opcode.TD => of_outcome (TD (fst s) inst) (snd s)
  | Opcode.MTSPR => of_outcome (MTSPR (fst s) inst) (snd s)
  | Opcode.MFSPR => of_outcome (MFSPR (get_tb env) (fst s) inst) (snd s)
  | Opcode.MFTB => of_outcome (MFTB (get_tb env) (fst s) inst) (snd s)
  | Opcode.DCBST | Opcode.DCBF | Opcode.DCBT | Opcode.DCBTST | Opcode.DST | Opcode.DSTST
  | Opcode.DSS | Opcode.ICBI | Opcode.ISYNC | Opcode.SYNC | Opcode.EIEIO | Opcode.DCBI => Done s
  | Opcode.ECIWX | Opcode.ECOWX | Opcode.RFID | Opcode.RFSCV | Opcode.HRFID | Opcode.STOP
  | Opcode.URFID
  | Opcode.SUBFCO | Opcode.SUBFCO_ | Opcode.ADDCO | Opcode.ADDCO_ | Opcode.SUBFO
  | Opcode.SUBFO_ | Opcode.NEGO | Opcode.NEGO_ | Opcode.SUBFEO | Opcode.SUBFEO_
  | Opcode.ADDEO | Opcode.ADDEO_ | Opcode.SUBFZEO | Opcode.SUBFZEO_ | Opcode.ADDZEO
  | Opcode.ADDZEO_ | Opcode.SUBFMEO | Opcode.SUBFMEO_ | Opcode.MULLDO | Opcode.MULLDO_
  | Opcode.ADDMEO | Opcode.ADDMEO_ | Opcode.MULLWO | Opcode.MULLWO_ | Opcode.ADDO
  | Opcode.ADDO_ | Opcode.DIVDUO | Opcode.DIVDUO_ | Opcode.DIVWUO | Opcode.DIVWUO_
  | Opcode.DIVDO | Opcode.DIVDO_ | Opcode.DIVWO | Opcode.DIVWO_ =>
      Throw Unimplemented
  | op =>
      match vector_impl (simd env) op with
      | Some f => Done (f (fst s) inst, snd s)
      | None => ext env op s inst
      end
  end.

(** [ppu_function_manager::is_func]. *)
Definition is_func (addr size cia : Z) : bool :=
  if negb (cia mod 4 =? 0) || (addr =? 0) || (cia <? addr) then false
  else (cia - addr) / 8 <? size.

(** The HLE function placed at [cia], if any. *)
Definition hle_function (env : env) (cia : Z) : option ppu_func :=
  if is_func (hle_addr env) (Z.of_nat (length (hle_funcs env))) cia then
    let index := u32 (cia - hle_addr env) / 8 in
    if (cia mod 8 =? 4) && (index <? Z.of_nat (length (hle_funcs env)))
    then default None (hle_funcs env !! Z.to_nat index)
    else None
  else None.

Definition is_branch (op : Opcode.t) : bool :=
  match op with
  | Opcode.B | Opcode.BC | Opcode.BCLR | Opcode.BCCTR => true
  | _ => false
  end.

(** [PPUInterpreter::interpret]. *)
Definition interpret (env : env) (s : state) (inst : Z) : result :=
  let op := getOpcode inst in
  let instructionAddress := cia (fst s) in
  match exec_fn env instructionAddress with
  | Some fn => fn s inst
  | None =>
      match hle_function env instructionAddress with
      | Some f => f s inst
      | None =>
          match impl env op s inst with
          | Throw e => Throw e
          | Done s' =>
              if (cia (fst s') =? instructionAddress) && negb (is_branch op)
              then Done (with_cia (u32 (cia (fst s') + 4)) (fst s'), snd s')
              else Done s'
          end
      end
  end.

(** ** Well-formedness is preserved *)

Definition wf_state (s : state) : Prop := wf_ctx (fst s) /\ wf_mem (snd s).

Lemma rb_range inst : urange 5 (rb inst).
Proof. apply bf_u_5_range. lia. Qed.

Lemma rs_range inst : urange 5 (rs inst).
Proof. apply bf_u_5_range. lia. Qed.

Lemma R_field c inst :
  wf_ctx c -> urange 64 (R c (ra inst)) /\ urange 64 (R c (rb inst)) /\ urange 64 (R c (rs inst)).
Proof. intros. split_and!; apply R_range; auto using ra_range, rb_range, rs_range. Qed.

Lemma uimm16_range64 inst : urange 64 (uimm16 inst).
Proof. apply (urange_mono 16); [lia|]. apply extract_u_range. lia. Qed.

Lemma div_urange n x y : 0 <= n -> urange n x -> 0 < y -> urange n (x / y).
Proof.
  intros Hn [Hx0 Hx1] Hy. split; [by apply Z.div_pos|].
  apply Z.div_lt_upper_bound; [done|]. nia.
Qed.

Lemma countl_zero_range w x n : 0 <= n -> 0 <= w < 2 ^ n -> urange w x -> urange n (countl_zero w x).
Proof.
  intros Hn Hw [Hx0 Hx1]. unfold countl_zero, urange. destruct (Z.eqb_spec x 0); [lia|].
  assert (Z.log2 x < w) by (apply Z.log2_lt_pow2; lia). pose proof (Z.log2_nonneg x). lia.
Qed.

Lemma u32_range64 x : urange 64 (u32 x).
Proof. apply (urange_mono 32); [lia|]. apply wrap_range. lia. Qed.

Lemma rol64_range x n : urange 64 x -> urange 64 (rol64 x n).
Proof.
  intros. apply rol_range; [lia| |done]. rewrite land_63. apply Z.mod_pos_bound. lia.
Qed.

Lemma dup32_range x n : urange 64 (dup32 (rol32 (u32 x) n)).
Proof.
  apply lor_urange; [lia| |apply shl_range; lia]. apply (urange_mono 32); [lia|].
  apply rol_range; [lia| |apply wrap_range; lia]. rewrite land_31. apply Z.mod_pos_bound. lia.
Qed.

(** Range goals of register values. *)
Ltac vrange :=
  repeat lazymatch goal with
    | |- urange _ (if ?b then _ else _) => destruct b eqn:?
    | |- urange _ (wrap 32 _) => apply u32_range64
    | |- urange _ (wrap _ _) => apply wrap_range; lia
    | |- urange _ (shl _ _ _) => apply shl_range; lia
    | |- urange _ (lnot_w _ _) => apply lnot_w_range; lia
    | |- urange _ (_ ||| _) => apply lor_urange; [lia| |]
    | |- urange _ (_ ^^^ _) => apply lxor_urange; [lia| |]
    | |- urange _ (_ &&& _) => apply land_urange2; [lia| |]
    | |- urange _ (uimm16 _) => apply uimm16_range64
    | |- urange _ (ppu_rotate_mask _ _) => apply ppu_rotate_mask_range
    | |- urange _ (R _ (ra _)) => apply R_range; [assumption | apply ra_range]
    | |- urange _ (R _ (rb _)) => apply R_range; [assumption | apply rb_range]
    | |- urange _ (R _ (rs _)) => apply R_range; [assumption | apply rs_range]
    | |- urange _ (rol64 _ _) => apply rol64_range
    | |- urange _ (dup32 _) => apply dup32_range
    | |- urange _ 0 => unfold urange; lia
    | |- urange _ (2 ^ 64 - 1) => unfold urange; lia
  end.

(** Goals [wf_ctx]: peel the setters, then the values. *)
Ltac wf_ctx_tac :=
  repeat lazymatch goal with
    | |- wf_ctx (record_if _ _ _) => apply record_if_wf
    | |- wf_ctx (overflow_if _ _ _) => apply overflow_if_wf
    | |- wf_ctx (with_ca _ _) => apply with_ca_wf
    | |- wf_ctx (update_cr0 _ _) => apply update_cr0_wf
    | |- wf_ctx (setR _ _ _) => apply setR_wf
    | |- wf_ctx (if ?b then _ else _) => destruct b eqn:?
    | |- wf_ctx _ => assumption
  end; vrange.

Lemma add_flags_range a b : urange 64 (fst (add_flags a b)).
Proof. apply wrap_range. lia. Qed.

Lemma add_flags_c_range a b c : urange 64 (fst (add_flags_c a b c)).
Proof. unfold add_flags_c, add_flags. cbn [fst]. apply wrap_range. lia. Qed.

Lemma arith_wf c inst :
  wf_ctx c ->
  Forall (fun f => wf_ctx (f c inst))
    [MULLI; SUBFIC; ADDIC; ADDI; ADDIS; ADD; ADDC; ADDE; ADDZE; ADDME; SUBF; SUBFC; SUBFE;
     SUBFZE; SUBFME; NEG; MULHDU; MULHWU; MULHD; MULHW; MULLD; MULLW; DIVDU; DIVWU; DIVD; DIVW].
Proof.
  intros Hwf. repeat apply Forall_cons_2; try apply Forall_nil_2;
  lazymatch goal with |- wf_ctx (?f _ _) => unfold f end; cbv zeta;
  try (match goal with |- context [add_flags ?a ?b] =>
         pose proof (add_flags_range a b); destruct (add_flags a b) end; cbn [fst] in *);
  try (match goal with |- context [add_flags_c ?a ?b ?d] =>
         pose proof (add_flags_c_range a b d); destruct (add_flags_c a b d) end; cbn [fst] in *);
  wf_ctx_tac; try assumption.
  - apply wrap_range. lia.
  - apply shiftr_urange; vrange; lia.
  - destruct (R_field c inst Hwf) as (Ha & [Hb0 _] & _). apply div_urange; [lia|done|lia].
  - apply div_urange; [lia | apply u32_range64 |].
    pose proof (wrap_range 32 (R c (rb inst)) ltac:(lia)) as []. lia.
Qed.

Lemma logic_wf c inst :
  wf_ctx c ->
  Forall (fun f => wf_ctx (f c inst))
    [ORI; ORIS; XORI; XORIS; ANDI; ANDIS; AND; ANDC; OR; ORC; XOR; NAND; NOR; EQV; EXTSB;
     EXTSH; EXTSW; CNTLZW; CNTLZD; RLWIMI; RLWINM; RLWNM; RLDICL; RLDICR; RLDIC; RLDIMI;
     RLDCL; RLDCR; SLW; SRW; SLD; SRD; SRAW; SRAD; SRAWI; SRADI].
Proof.
  intros Hwf. destruct (rotate_fields inst) as (_ & _ & Hsh & [Hs _] & [Hm _]).
  repeat apply Forall_cons_2; try apply Forall_nil_2;
  lazymatch goal with |- wf_ctx (?f _ _) => unfold f end; cbv zeta;
  unfold logic_op, sra_op; wf_ctx_tac.
  - apply countl_zero_range; [lia | lia | apply wrap_range; lia].
  - apply countl_zero_range; [lia | lia | vrange].
  - apply shiftr_urange; vrange; lia.
  - apply shiftr_urange; vrange; lia.
  - apply shiftr_urange; [lia | rewrite land_63; apply Z.mod_pos_bound; lia | vrange].
    unfold urange; lia.
  - apply shiftr_urange; [lia | apply wrap_range; lia | vrange].
Qed.

Lemma cr_wf c inst :
  wf_ctx c ->
  Forall (fun f => wf_ctx (f c inst))
    [CMPLI; CMPI; CMP; CMPL; CRNOR; CRANDC; CRXOR; CRNAND; CRAND; CREQV; CRORC; CROR; MCRF;
     MTOCRF].
Proof.
  intros Hwf.
  assert (is_bit (CRb c (crba inst)) /\ is_bit (CRb c (crbb inst))) as [Ha Hb]
    by (split; apply CRb_bit; try done; apply (extract_u_range 32 _ 5); lia).
  assert (forall a b, wf_ctx (set_cr_field (crfd inst) (CrField.update a b (xer_so c)) c)) as Hcmp
    by (intros; apply set_cr_field_wf; auto with mach; apply crfd_range).
  assert (0 <= crfs inst < 8) by (apply (extract_u_range 32 18 3); lia).
  repeat apply Forall_cons_2; try apply Forall_nil_2.
  1-4: unfold CMPLI, CMPI, CMP, CMPL; destruct (l10 inst =? 0); apply Hcmp.
  1-8: lazymatch goal with |- wf_ctx (?f _ _) => unfold f end; apply setCRb_wf; [done|];
       destruct Ha as [-> | ->], Hb as [-> | ->]; first [by left | by right].
  - apply set_cr_field_wf; [done | apply crfd_range | apply cr_field_length; [apply Hwf|done] |].
    apply Forall_take, Forall_drop, Hwf.
  - by apply MTOCRF_wf.
Qed.

Lemma branch_wf c inst :
  wf_ctx c -> Forall (fun f => wf_ctx (f c inst)) [BC; B; BCLR; BCCTR].
Proof.
  intros Hwf. assert (forall v c', wf_ctx c' -> urange 32 v ->
    wf_ctx (link_if (lk inst) v c')) as Hl.
  { intros v c' Hc' Hv. unfold link_if. destruct (lk inst =? 0); [done|].
    apply with_lr_wf; [done|]. apply (urange_mono 32); [lia|done]. }
  assert (forall x, urange 32 (u32 x &&& 0xfffffffc)) as Hand
    by (intros; apply land_urange2; [lia | apply wrap_range; lia | unfold urange; lia]).
  assert (forall x, urange 32 (u32 x)) as Hu by (intros; apply wrap_range; lia).
  assert (wf_ctx (with_ctr (fst (branch_cond (bo inst) (CRb c (bi inst)) (ctr c))) c)) as Hc.
  { apply with_ctr_wf; [done|]. unfold branch_cond. cbn [fst]. apply wrap_range. lia. }
  repeat apply Forall_cons_2; try apply Forall_nil_2;
    lazymatch goal with |- wf_ctx (?f _ _) => unfold f end;
    try (destruct (branch_cond (bo inst) _ _) as [ctr' taken]; cbn [fst] in Hc);
    apply with_cia_wf; auto; repeat case_match; auto.
Qed.

(** ** Memory instructions *)

Lemma wf_mem_write m a l : wf_mem m -> Forall (urange 8) l -> wf_mem (rpcsx_vm_write m a l).
Proof.
  intros Hm Hl x. unfold rpcsx_vm_write. destruct (l !! _) eqn:E; [|apply Hm].
  rewrite Forall_lookup in Hl. by eapply Hl.
Qed.

Lemma wf_vm_write n m a v : wf_mem m -> wf_mem (vm_write n m a v).
Proof. intros. apply wf_mem_write; auto with mach. Qed.

Lemma wf_vm_write_le n m a v : wf_mem m -> wf_mem (vm_write_le n m a v).
Proof. intros. apply wf_mem_write; [done|]. apply le_split_Forall. lia. Qed.

Lemma vm_read_Forall m a n : wf_mem m -> Forall (urange 8) (rpcsx_vm_read m a n).
Proof. intros Hm. apply Forall_fmap, Forall_true. intros. apply Hm. Qed.

Lemma feed_range n k m a : wf_mem m -> 8 * Z.of_nat n <= k -> urange k (feed n m a).
Proof.
  intros Hm Hk. apply (urange_mono (8 * Z.of_nat n)); [lia|]. unfold feed.
  rewrite <- (vm_read_length m a n) at 1. by apply be_val_range, vm_read_Forall.
Qed.

Lemma feed_le_range n k m a : wf_mem m -> 8 * Z.of_nat n <= k -> urange k (feed_le n m a).
Proof.
  intros Hm Hk. apply (urange_mono (8 * Z.of_nat n)); [lia|]. unfold feed_le, le_val.
  rewrite <- (vm_read_length m a n) at 1. apply le_radix_range; [lia|]. by apply vm_read_Forall.
Qed.

Lemma feed_s_range n m a : urange 64 (feed_s n m a).
Proof. apply wrap_range. lia. Qed.

Lemma setfpr_wf i v c : wf_ctx c -> urange 64 v -> wf_ctx (with_fpr (rset (fpr c) i v) c).
Proof. intros [] Hv. constructor; simpl; rewrite ?rset_length; auto with mach. Qed.

Lemma setV_wf i v s : wf_state s -> urange 128 v -> wf_state (setV i v s).
Proof.
  intros [[] Hm] Hv. split; [|done].
  constructor; simpl; rewrite ?rset_length; auto with mach.
Qed.

Lemma scalar_mem_wf s inst :
  wf_state s ->
  Forall (fun f => wf_state (f s inst))
    [LBZ; LBZU; LBZX; LBZUX; LHZ; LHZU; LHZX; LHZUX; LHA; LHAU; LHAX; LHAUX; LWZ; LWZU;
     LWZX; LWZUX; LWA; LWAX; LWAUX; LD; LDU; LDX; LDUX; LHBRX; LWBRX; LDBRX; STB; STBU;
     STBX; STBUX; STH; STHU; STHX; STHUX; STW; STWU; STWX; STWUX; STD; STDU; STDX; STDUX;
     STHBRX; STWBRX; STDBRX; LFD; LFDU; LFDX; LFDUX; STFD; STFDU; STFDX; STFDUX; STFIWX].
Proof.
  intros [Hc Hm]. destruct (EA_range (fst s) inst Hc) as (Hx & Hxu & Hd & Hdu & Hds & Hdsu & _).
  repeat apply Forall_cons_2; try apply Forall_nil_2;
    lazymatch goal with |- wf_state (?f _ _) => unfold f end; cbv zeta;
    unfold load, load_update, store, store_le, store_update; split; cbn [fst snd];
    try apply wf_vm_write; try apply wf_vm_write_le; try done;
    repeat first [apply setR_wf | apply setfpr_wf];
    first [done | by apply feed_range | by apply feed_le_range | apply feed_s_range].
Qed.

(** The reference forms of the string loops stay in range. *)
Lemma string_load_wf c reg l : wf_ctx c -> Forall (urange 8) l -> wf_ctx (string_load c reg l).
Proof.
  assert (forall l', Forall (urange 8) l' -> (length l' <= 4)%nat -> urange 64 (be_val l')) as Hb.
  { intros l' Hl' Hlen. apply (urange_mono (8 * Z.of_nat (length l'))); [lia|].
    by apply be_val_range. }
  remember (length l) as n eqn:Hn. revert c reg l Hn.
  induction n as [| | | |n IH] using nat_ind4; intros c reg l Hn Hc Hl;
    destruct l as [|b0 [|b1 [|b2 [|b3 l]]]]; simplify_eq/=; try done;
    repeat match goal with H : Forall _ (_ :: _) |- _ => inversion H; clear H; subst end.
  1-3: apply setR_wf; [done|]; apply Hb; [|simpl; lia];
       repeat first [apply Forall_nil_2 | apply Forall_cons_2; [first [done | unfold urange; lia]|]].
  apply IH; try done. apply setR_wf; [done|]. apply Hb; [|simpl; lia].
  repeat first [apply Forall_nil_2 | apply Forall_cons_2; [done|]].
Qed.

Lemma string_mem_wf c m inst :
  wf_state (c, m) -> Forall (fun f => wf_state (f (c, m) inst)) [LMW; LSWI; LSWX].
Proof.
  intros [Hc Hm]. cbn [fst snd] in *.
  destruct (EA_range c inst Hc) as (Hx & _ & Hd & _ & _ & _ & H0).
  pose proof (rd_range inst) as [Hr1 Hr2]. change (2 ^ 5) with 32 in Hr2.
  repeat apply Forall_cons_2; try apply Forall_nil_2;
    [unfold LMW; rewrite lmw_loop_spec by (done || cbn [fst]; lia)
    |unfold LSWI; rewrite lswi_loop_spec by done
    |unfold LSWX; rewrite lswx_loop_spec by done];
    (split; [apply string_load_wf; [done | by apply vm_read_Forall] | done]).
Qed.

Lemma stswi_tail_wf n : forall buf addr m, wf_mem m -> wf_mem (stswi_tail n buf addr m).
Proof. induction n as [|n IH]; intros; cbn [stswi_tail]; auto using wf_vm_write. Qed.

Lemma stswx_tail_wf n : forall byte v addr m, wf_mem m -> wf_mem (stswx_tail n byte v addr m).
Proof. induction n as [|n IH]; intros; cbn [stswx_tail]; auto using wf_vm_write. Qed.

Lemma store_loops_wf n : forall reg addr s, wf_state s ->
  wf_state (stswi_loop n reg addr s) /\ wf_state (stswx_loop n reg addr s) /\
  wf_state (stmw_loop n reg addr s).
Proof.
  intros reg addr s Hs. split_and!; revert reg addr s Hs.
  - induction n as [| | | |n IH] using nat_ind4; intros reg addr s [Hc Hm]; cbn [stswi_loop];
      try (split; [done | cbn [snd]; auto using stswi_tail_wf]).
    apply IH. split; [done|]. by apply wf_vm_write.
  - induction n as [| | | |n IH] using nat_ind4; intros reg addr s [Hc Hm]; cbn [stswx_loop];
      try (split; [done | cbn [snd]; auto using stswx_tail_wf]).
    apply IH. split; [done|]. by apply wf_vm_write.
  - induction n as [|n IH]; intros reg addr s [Hc Hm]; cbn [stmw_loop]; [done|].
    apply IH. split; [done|]. by apply wf_vm_write.
Qed.

Lemma string_store_wf s inst :
  wf_state s -> Forall (fun f => wf_state (f s inst)) [STMW; STSWI; STSWX].
Proof.
  intros Hs. repeat apply Forall_cons_2; try apply Forall_nil_2; by apply store_loops_wf.
Qed.

Lemma byte_fold_wf (f g : Z -> Z) l m :
  wf_mem m -> wf_mem (fold_left (fun m j => vm_write 1 m (f j) (g j)) l m).
Proof.
  revert m. induction l as [|j l IH]; intros m Hm; cbn [fold_left]; [done|].
  apply IH. by apply wf_vm_write.
Qed.

Lemma lvs_const_range k : urange 128 (lvs_const k).
Proof.
  unfold lvs_const. apply (urange_mono (8 * Z.of_nat (length ((fun i => u8 (i + k)) <$> seqZ 0 16)))).
  - rewrite length_fmap, length_seqZ. lia.
  - apply be_val_range. apply Forall_fmap, Forall_true. intros. apply wrap_range. lia.
Qed.

Lemma vector_mem_wf s inst b :
  wf_state s -> urange 8 b ->
  Forall (fun f => wf_state (f s inst))
    [LVX; LVXL; LVEBX; LVEHX; LVEWX; STVX; STVXL; STVEBX; STVEHX; STVEWX; LVLX; LVLXL; LVRX;
     LVRXL; STVLX; STVLXL; STVRXL; STVRX b; LVSL; LVSR].
Proof.
  intros Hs Hb. pose proof Hs as [Hc Hm].
  assert (forall a, urange 128 (feed 16 (snd s) a)) as Hf by (intros; by apply feed_range).
  assert (forall x, 0 <= (x &&& 15) * 8) as H15
    by (intros x; rewrite land_15; pose proof (Z.mod_pos_bound x 16); lia).
  repeat apply Forall_cons_2; try apply Forall_nil_2;
    lazymatch goal with
    | |- wf_state (STVRX _ _ _) => unfold STVRX
    | |- wf_state (?f _ _) => unfold f
    end; cbv zeta;
    lazymatch goal with
    | |- wf_state (setV _ (feed _ _ _) _) => apply setV_wf; [done | apply Hf]
    | |- wf_state (setV _ (lvs_const _) _) => apply setV_wf; [done | apply lvs_const_range]
    | |- wf_state (setV _ (shl _ _ _) _) => apply setV_wf; [done | apply shl_range; lia]
    | |- wf_state (store _ _ _ _) => split; [done | by apply wf_vm_write]
    | |- wf_state (_, fold_left _ _ _) =>
        split; [done | cbn [snd];
          refine (byte_fold_wf _ _ _ _ _); done]
    | _ => idtac
    end.
  - destruct (_ =? 0); (apply setV_wf; [done|]); [unfold urange; lia|].
    apply shiftr_urange; [lia | lia |]. apply shiftr_urange; [lia | apply H15 | apply Hf].
  - destruct (_ =? 0); (apply setV_wf; [done|]); [unfold urange; lia|].
    apply shiftr_urange; [lia | lia |]. apply shiftr_urange; [lia | apply H15 | apply Hf].
  - split; [done|]. apply wf_mem_write; [done|]. apply Forall_fmap, Forall_true.
    intros. apply v_u8r_range.
  - split; [done|]. apply wf_mem_write; [done|]. constructor; [done|].
    apply Forall_fmap, Forall_true. intros. apply v_u8r_range.
Qed.

Lemma pack_range c : wf_ctx c -> urange 32 (pack (cr c)).
Proof.
  intros Hc. apply urange_bits; [lia| |].
  - rewrite pack_radix; [|apply Hc|rewrite (wf_cr_len c Hc); lia].
    apply (le_radix_range 1); [lia|]. apply bits_urange; [lia | apply Hc].
  - intros i Hi. rewrite testbit_pack by (done || lia). destruct (Z.ltb_spec i 32); [lia|done].
Qed.

Lemma MFOCRF_wf b c inst : wf_ctx c -> wf_ctx (MFOCRF b c inst).
Proof.
  intros Hc. unfold MFOCRF, MFCR. destruct (l11 inst =? 0); cbv zeta; apply setR_wf; try done.
  - rewrite MFCR_value_pack by done. apply (urange_mono 32); [lia|]. by apply pack_range.
  - apply (urange_mono 32); [lia|]. apply shl_range. lia.
Qed.

(** The outcomes that return return well-formed contexts. *)
Definition wf_outcome (o : outcome) : Prop :=
  match o with Next c => wf_ctx c | _ => True end.

Lemma spr_wf tb c inst :
  wf_ctx c -> urange 64 tb ->
  wf_outcome (MFSPR tb c inst) /\ wf_outcome (MFTB tb c inst) /\ wf_outcome (MTSPR c inst).
Proof.
  intros Hc Ht. assert (urange 64 (tb >>> 32)) as Ht' by (apply shiftr_urange; done).
  assert (urange 64 (R c (rs inst))) as Hs by (apply R_range; [done | apply rs_range]).
  assert (urange 64 (vrsave c)) as Hv by (apply (urange_mono 32); [lia | apply Hc]).
  assert (urange 64 (Z.shiftl (b2z (xer_so c)) 31 ||| Z.shiftl (b2z (xer_ov c)) 30
            ||| Z.shiftl (b2z (xer_ca c)) 29 ||| xer_cnt c)) as Hx.
  { assert (forall b k, 0 <= k <= 31 -> urange 64 (Z.shiftl (b2z b) k)) as Hb.
    { intros b k Hk. apply (urange_mono 32); [lia|]. rewrite Z.shiftl_mul_pow2 by lia.
      pose proof (b2z_range b). unfold urange.
      assert (0 < 2 ^ k <= 2 ^ 31) by (split; [apply pow2_pos; lia | apply Z.pow_le_mono_r; lia]).
      change (2 ^ 32) with (2 * 2 ^ 31). nia. }
    repeat (apply lor_urange; [lia| |]); try (apply Hb; lia).
    apply (urange_mono 8); [lia | apply Hc]. }
  unfold MFSPR, MFTB, MTSPR. split_and!; repeat case_match; cbn [wf_outcome]; try done;
    try (apply setR_wf; first [done | apply Hc]).
  - apply with_xer_wf; [done|]. rewrite (land_low 7) by lia.
    apply (urange_mono 7); [lia|]. apply wrap_range. lia.
  - by apply with_lr_wf.
  - by apply with_ctr_wf.
  - apply with_vrsave_wf; [done|]. apply wrap_range. lia.
Qed.

Lemma trap_wf c inst :
  wf_ctx c -> Forall (fun f => wf_outcome (f c inst)) [TDI; TWI; TW; TD].
Proof.
  intros Hc. assert (forall l, wf_outcome (trap_seq l c)) as H.
  { induction l as [|t l IH]; cbn; [done|]. by destruct t. }
  repeat apply Forall_cons_2; try apply Forall_nil_2; apply H.
Qed.

(** ** The interpreter preserves well-formedness *)

Definition wf_result (r : result) : Prop :=
  match r with Done s => wf_state s | Throw _ => True end.

(** What is assumed of the code outside the model: it keeps register and
    memory values in range. *)
Definition wf_func (f : ppu_func) : Prop := forall s inst, wf_state s -> wf_result (f s inst).

Record wf_env (env : env) : Prop := {
  wf_tb : urange 64 (get_tb env);
  wf_uninit : urange 8 (uninit env);
  wf_ext : forall op, wf_func (ext env op);
  wf_exec : forall a f, exec_fn env a = Some f -> wf_func f;
  wf_hle : forall f, Some f ∈ hle_funcs env -> wf_func f
}.

(** Position of a function in a literal list, by name. *)
Ltac in_list :=
  lazymatch goal with
  | |- In ?f (?g :: _) => tryif constr_eq f g then (left; reflexivity) else (right; in_list)
  end.

Lemma of_outcome_wf o m : wf_outcome o -> wf_mem m -> wf_result (of_outcome o m).
Proof. destruct o; done. Qed.

(** The opcodes left to the vector table and to the code outside the model. *)
Lemma ext_wf env op s inst :
  wf_env env -> wf_state s ->
  wf_result (match vector_impl (simd env) op with
             | Some f => Done (f (fst s) inst, snd s)
             | None => ext env op s inst
             end).
Proof.
  intros He Hs. destruct (vector_impl _ _) as [f|] eqn:E; [|by apply (wf_ext _ He op)].
  destruct Hs as [Hc Hm]. split; [|done]. by eapply vector_impl_wf.
Qed.

Lemma impl_wf env op s inst : wf_env env -> wf_state s -> wf_result (impl env op s inst).
Proof.
  intros He Hs. destruct s as [c m]. pose proof Hs as [Hc Hm]. cbn [fst snd] in Hc, Hm.
  pose proof (proj1 (List.Forall_forall _ _) (arith_wf c inst Hc)) as HA.
  pose proof (proj1 (List.Forall_forall _ _) (logic_wf c inst Hc)) as HL.
  pose proof (proj1 (List.Forall_forall _ _) (cr_wf c inst Hc)) as HC.
  pose proof (proj1 (List.Forall_forall _ _) (branch_wf c inst Hc)) as HB.
  pose proof (proj1 (List.Forall_forall _ _) (scalar_mem_wf _ inst Hs)) as HM.
  pose proof (proj1 (List.Forall_forall _ _) (string_mem_wf _ _ inst Hs)) as HS.
  pose proof (proj1 (List.Forall_forall _ _) (string_store_wf _ inst Hs)) as HT.
  pose proof (proj1 (List.Forall_forall _ _)
                (vector_mem_wf _ inst (uninit env) Hs (wf_uninit _ He))) as HV.
  pose proof (proj1 (List.Forall_forall _ _) (trap_wf c inst Hc)) as HR.
  destruct (spr_wf (get_tb env) c inst Hc (wf_tb _ He)) as (S1 & S2 & S3).
  pose proof (fun op => ext_wf env op (c, m) inst He Hs) as HX.
  unfold impl. cbn [fst snd].
  destruct op;
    lazymatch goal with
    | |- wf_result (match vector_impl _ ?o with _ => _ end) => apply (HX o)
    | |- wf_result (Throw _) => exact I
    | |- wf_result (Done (c, m)) => exact Hs
    | |- wf_result (of_outcome (MFSPR _ _ _) _) => by apply of_outcome_wf
    | |- wf_result (of_outcome (MFTB _ _ _) _) => by apply of_outcome_wf
    | |- wf_result (of_outcome (MTSPR _ _) _) => by apply of_outcome_wf
    | |- wf_result (of_outcome (?f _ _) _) =>
        apply of_outcome_wf; [apply (HR f); in_list | done]
    | |- wf_result (Done (MFOCRF _ _ _, _)) => split; [by apply MFOCRF_wf | done]
    | |- wf_result (Done (STVRX ?u _ _)) => apply (HV (STVRX u)); in_list
    | |- wf_result (Done (?f _ _, _)) =>
        (split; [|done]); cbn [fst];
        first [apply (HA f); in_list | apply (HL f); in_list | apply (HC f); in_list
              | apply (HB f); in_list]
    | |- wf_result (Done (?f _ _)) =>
        first [apply (HM f); in_list | apply (HS f); in_list | apply (HT f); in_list
              | apply (HV f); in_list]
    end.
Qed.

(** Type safety of the interpreter: on any 32-bit instruction word, from
    a state whose registers and memory hold values of their C++ types and
    whose CR bytes are all 0 or 1, a step that does not throw ends in such a
    state, provided the code outside the model does the same. *)
Theorem interpret_wf env s inst :
  wf_env env -> wf_state s -> wf_result (interpret env s inst).
Proof.
  intros He Hs. unfold interpret.
  destruct (exec_fn env (cia (fst s))) as [f|] eqn:Ef; [by apply (wf_exec _ He _ _ Ef)|].
  destruct (hle_function env (cia (fst s))) as [f|] eqn:Eh.
  - apply (wf_hle _ He f); [|done]. unfold hle_function in Eh. repeat case_match; try done.
    destruct (hle_funcs env !! _) eqn:El; [|done]. cbn in Eh. subst.
    by eapply list_elem_of_lookup_2.
  - pose proof (impl_wf env (getOpcode inst) s inst He Hs) as Hi.
    destruct (impl env (getOpcode inst) s inst) as [s'|e]; [|done].
    destruct (_ && _); [|done]. destruct Hi as [Hc Hm].
    split; [|done]. apply with_cia_wf; [done|]. apply wrap_range. lia.
Qed.

(** An environment with nothing registered and every other instruction
    invalid. *)
Definition bare_env : env := mkEnv 0 true 0 SSE2 (fun _ _ _ => Throw Invalid) (fun _ => None) 0 [].

Lemma bare_env_wf : wf_env bare_env.
Proof.
  constructor; try done; try (unfold urange; cbn; lia).
  intros f Hf. by apply not_elem_of_nil in Hf.
Qed.

Lemma interpret_wf_witness :
  let s := (sample_ctx 5 7, fun _ : Z => 0) in
  wf_env bare_env /\ wf_state s /\ wf_result (interpret bare_env s 0x7c642a14).
Proof.
  cbv zeta. assert (wf_state (sample_ctx 5 7, fun _ : Z => 0)) as Hs.
  { split; [apply sample_ctx_wf; unfold urange; lia | intros a; unfold urange; cbn; lia]. }
  split_and!; [exact bare_env_wf | exact Hs | exact (interpret_wf _ _ _ bare_env_wf Hs)].
Defined.

(** ** Sequential execution *)

Lemma cia_record_if f v c : cia (record_if f v c) = cia c.
Proof. unfold record_if. by destruct (f =? 0). Qed.

Lemma cia_overflow_if f v c : cia (overflow_if f v c) = cia c.
Proof. unfold overflow_if. by destruct (f =? 0). Qed.

Lemma arith_cia c inst :
  Forall (fun f => cia (f c inst) = cia c)
    [MULLI; SUBFIC; ADDIC; ADDI; ADDIS; ADD; ADDC; ADDE; ADDZE; ADDME; SUBF; SUBFC; SUBFE;
     SUBFZE; SUBFME; NEG; MULHDU; MULHWU; MULHD; MULHW; MULLD; MULLW; DIVDU; DIVWU; DIVD;
     DIVW].
Proof.
  repeat apply Forall_cons_2; try apply Forall_nil_2;
    lazymatch goal with |- cia (?f _ _) = _ => unfold f end; cbv zeta;
    try destruct (add_flags _ _); try destruct (add_flags_c _ _ _);
    rewrite ?cia_record_if, ?cia_overflow_if; reflexivity.
Qed.

Lemma logic_cia c inst :
  Forall (fun f => cia (f c inst) = cia c)
    [ORI; ORIS; XORI; XORIS; ANDI; ANDIS; AND; ANDC; OR; ORC; XOR; NAND; NOR; EQV; EXTSB;
     EXTSH; EXTSW; CNTLZW; CNTLZD; RLWIMI; RLWINM; RLWNM; RLDICL; RLDICR; RLDIC; RLDIMI;
     RLDCL; RLDCR; SLW; SRW; SLD; SRD; SRAW; SRAD; SRAWI; SRADI].
Proof.
  repeat apply Forall_cons_2; try apply Forall_nil_2;
    lazymatch goal with |- cia (?f _ _) = _ => unfold f end; cbv zeta;
    unfold logic_op, sra_op;
    repeat lazymatch goal with |- cia (if ?b then _ else _) = _ => destruct b end;
    rewrite ?cia_record_if; reflexivity.
Qed.

Lemma MTOCRF_cia c inst : cia (MTOCRF c inst) = cia c.
Proof.
  unfold MTOCRF. destruct (l11 inst =? 0); [|done]. generalize (R c (rs inst)) as v. intros v.
  assert (forall l c', cia (fold_left (fun c i =>
    if crm inst &&& (128 >>> i) =? 0 then c else mtcrf_field v i c) l c') = cia c') as H.
  { induction l as [|i l IH]; intros c'; cbn [fold_left]; [done|]. rewrite IH.
    by destruct (_ =? 0). }
  apply H.
Qed.

Lemma cr_cia c inst :
  Forall (fun f => cia (f c inst) = cia c)
    [CMPLI; CMPI; CMP; CMPL; CRNOR; CRANDC; CRXOR; CRNAND; CRAND; CREQV; CRORC; CROR; MCRF;
     MTOCRF].
Proof.
  repeat apply Forall_cons_2; try apply Forall_nil_2;
    lazymatch goal with |- cia (MTOCRF _ _) = _ => apply MTOCRF_cia
                      | |- cia (?f _ _) = _ => unfold f end;
    try (destruct (l10 inst =? 0)); reflexivity.
Qed.

Lemma scalar_mem_cia s inst :
  Forall (fun f => cia (fst (f s inst)) = cia (fst s))
    [LBZ; LBZU; LBZX; LBZUX; LHZ; LHZU; LHZX; LHZUX; LHA; LHAU; LHAX; LHAUX; LWZ; LWZU;
     LWZX; LWZUX; LWA; LWAX; LWAUX; LD; LDU; LDX; LDUX; LHBRX; LWBRX; LDBRX; STB; STBU;
     STBX; STBUX; STH; STHU; STHX; STHUX; STW; STWU; STWX; STWUX; STD; STDU; STDX; STDUX;
     STHBRX; STWBRX; STDBRX; LFD; LFDU; LFDX; LFDUX; STFD; STFDU; STFDX; STFDUX; STFIWX].
Proof. repeat apply Forall_cons_2; try apply Forall_nil_2; reflexivity. Qed.

Lemma vector_mem_cia s inst b :
  Forall (fun f => cia (fst (f s inst)) = cia (fst s))
    [LVX; LVXL; LVEBX; LVEHX; LVEWX; STVX; STVXL; STVEBX; STVEHX; STVEWX; LVLX; LVLXL; LVRX;
     LVRXL; STVLX; STVLXL; STVRXL; STVRX b; LVSL; LVSR].
Proof.
  repeat apply Forall_cons_2; try apply Forall_nil_2;
    lazymatch goal with
    | |- cia (fst (LVRX _ _)) = _ => unfold LVRX; cbv zeta; destruct (_ =? 0)
    | |- cia (fst (LVRXL _ _)) = _ => unfold LVRXL; cbv zeta; destruct (_ =? 0)
    | _ => idtac
    end; reflexivity.
Qed.

Lemma string_cia s inst :
  Forall (fun f => cia (fst (f s inst)) = cia (fst s)) [LMW; LSWI; LSWX; STMW; STSWI; STSWX].
Proof.
  assert (forall n r a s, cia (fst (lmw_loop n r a s)) = cia (fst s)) as H1
    by (induction n as [|n IH]; intros; cbn [lmw_loop]; [done | by rewrite IH]).
  assert (forall n r a s, cia (fst (stmw_loop n r a s)) = cia (fst s)) as H2
    by (induction n as [|n IH]; intros; cbn [stmw_loop]; [done | by rewrite IH]).
  assert (forall n r a s, cia (fst (lswi_loop n r a s)) = cia (fst s)) as H3
    by (induction n as [| | | |n IH] using nat_ind4; intros; cbn [lswi_loop]; try done;
        by rewrite IH).
  assert (forall n r a s, cia (fst (lswx_loop n r a s)) = cia (fst s)) as H4
    by (induction n as [| | | |n IH] using nat_ind4; intros; cbn [lswx_loop]; try done;
        by rewrite IH).
  assert (forall n r a s, cia (fst (stswi_loop n r a s)) = cia (fst s)) as H5
    by (induction n as [| | | |n IH] using nat_ind4; intros; cbn [stswi_loop]; try done;
        by rewrite IH).
  assert (forall n r a s, cia (fst (stswx_loop n r a s)) = cia (fst s)) as H6
    by (induction n as [| | | |n IH] using nat_ind4; intros; cbn [stswx_loop]; try done;
        by rewrite IH).
  repeat apply Forall_cons_2; try apply Forall_nil_2;
    [apply H1 | apply H3 | apply H4 | apply H2 | apply H5 | apply H6].
Qed.

(** The opcodes with a modelled implementation that is not a branch. *)
Definition straight_line (op : Opcode.t) : bool :=
  negb (is_branch op) &&
  match op with
  | Opcode.MULLI | Opcode.SUBFIC | Opcode.ADDIC | Opcode.ADDI | Opcode.ADDIS | Opcode.ADD
  | Opcode.ADD_ | Opcode.ADDC | Opcode.ADDC_ | Opcode.ADDE | Opcode.ADDE_ | Opcode.ADDZE
  | Opcode.ADDZE_ | Opcode.ADDME | Opcode.ADDME_ | Opcode.SUBF | Opcode.SUBF_
  | Opcode.SUBFC | Opcode.SUBFC_ | Opcode.SUBFE | Opcode.SUBFE_ | Opcode.SUBFZE
  | Opcode.SUBFZE_ | Opcode.SUBFME | Opcode.SUBFME_ | Opcode.NEG | Opcode.NEG_
  | Opcode.MULHDU | Opcode.MULHDU_ | Opcode.MULHWU | Opcode.MULHWU_ | Opcode.MULHD
  | Opcode.MULHD_ | Opcode.MULHW | Opcode.MULHW_ | Opcode.MULLD | Opcode.MULLD_
  | Opcode.MULLW | Opcode.MULLW_ | Opcode.DIVDU | Opcode.DIVDU_ | Opcode.DIVWU
  | Opcode.DIVWU_ | Opcode.DIVD | Opcode.DIVD_ | Opcode.DIVW | Opcode.DIVW_ | Opcode.ORI
  | Opcode.ORIS | Opcode.XORI | Opcode.XORIS | Opcode.ANDI | Opcode.ANDIS | Opcode.AND
  | Opcode.AND_ | Opcode.ANDC | Opcode.ANDC_ | Opcode.OR | Opcode.OR_ | Opcode.ORC
  | Opcode.ORC_ | Opcode.XOR | Opcode.XOR_ | Opcode.NAND | Opcode.NAND_ | Opcode.NOR
  | Opcode.NOR_ | Opcode.EQV | Opcode.EQV_ | Opcode.EXTSB | Opcode.EXTSB_ | Opcode.EXTSH
  | Opcode.EXTSH_ | Opcode.EXTSW | Opcode.EXTSW_ | Opcode.CNTLZW | Opcode.CNTLZW_
  | Opcode.CNTLZD | Opcode.CNTLZD_ | Opcode.RLWIMI | Opcode.RLWIMI_ | Opcode.RLWINM
  | Opcode.RLWINM_ | Opcode.RLWNM | Opcode.RLWNM_ | Opcode.RLDICL | Opcode.RLDICL_
  | Opcode.RLDICR | Opcode.RLDICR_ | Opcode.RLDIC | Opcode.RLDIC_ | Opcode.RLDIMI
  | Opcode.RLDIMI_ | Opcode.RLDCL | Opcode.RLDCL_ | Opcode.RLDCR | Opcode.RLDCR_
  | Opcode.SLW | Opcode.SLW_ | Opcode.SRW | Opcode.SRW_ | Opcode.SLD | Opcode.SLD_
  | Opcode.SRD | Opcode.SRD_ | Opcode.SRAW | Opcode.SRAW_ | Opcode.SRAD | Opcode.SRAD_
  | Opcode.SRAWI | Opcode.SRAWI_ | Opcode.SRADI | Opcode.SRADI_ | Opcode.CMPLI
  | Opcode.CMPI | Opcode.CMP | Opcode.CMPL | Opcode.CRNOR | Opcode.CRANDC | Opcode.CRXOR
  | Opcode.CRNAND | Opcode.CRAND | Opcode.CREQV | Opcode.CRORC | Opcode.CROR
  | Opcode.MCRF | Opcode.MTOCRF | Opcode.LBZ | Opcode.LBZU | Opcode.LBZX | Opcode.LBZUX
  | Opcode.LHZ | Opcode.LHZU | Opcode.LHZX | Opcode.LHZUX | Opcode.LHA | Opcode.LHAU
  | Opcode.LHAX | Opcode.LHAUX | Opcode.LWZ | Opcode.LWZU | Opcode.LWZX | Opcode.LWZUX
  | Opcode.LWA | Opcode.LWAX | Opcode.LWAUX | Opcode.LD | Opcode.LDU | Opcode.LDX
  | Opcode.LDUX | Opcode.LHBRX | Opcode.LWBRX | Opcode.LDBRX | Opcode.STB | Opcode.STBU
  | Opcode.STBX | Opcode.STBUX | Opcode.STH | Opcode.STHU | Opcode.STHX | Opcode.STHUX
  | Opcode.STW | Opcode.STWU | Opcode.STWX | Opcode.STWUX | Opcode.STD | Opcode.STDU
  | Opcode.STDX | Opcode.STDUX | Opcode.STHBRX | Opcode.STWBRX | Opcode.STDBRX
  | Opcode.LMW | Opcode.STMW | Opcode.LSWI | Opcode.LSWX | Opcode.STSWI | Opcode.STSWX
  | Opcode.LFD | Opcode.LFDU | Opcode.LFDX | Opcode.LFDUX | Opcode.STFD | Opcode.STFDU
  | Opcode.STFDX | Opcode.STFDUX | Opcode.STFIWX | Opcode.LVX | Opcode.LVXL
  | Opcode.LVEBX | Opcode.LVEHX | Opcode.LVEWX | Opcode.STVX | Opcode.STVXL
  | Opcode.STVEBX | Opcode.STVEHX | Opcode.STVEWX | Opcode.LVLX | Opcode.LVLXL
  | Opcode.LVRX | Opcode.LVRXL | Opcode.STVLX | Opcode.STVLXL | Opcode.STVRXL
  | Opcode.STVRX | Opcode.LVSL | Opcode.LVSR | Opcode.MFOCRF | Opcode.MFSPR | Opcode.MFTB
  | Opcode.MTSPR | Opcode.TDI | Opcode.TWI | Opcode.TW | Opcode.TD | Opcode.DCBST
  | Opcode.DCBF | Opcode.DCBT | Opcode.DCBTST | Opcode.DST | Opcode.DSTST | Opcode.DSS
  | Opcode.ICBI | Opcode.ISYNC | Opcode.SYNC | Opcode.EIEIO | Opcode.DCBI => true
  | op => bool_decide (is_Some (vector_impl SSE2 op))
  end.

Lemma spr_cia tb c inst c' :
  MFSPR tb c inst = Next c' \/ MFTB tb c inst = Next c' \/ MTSPR c inst = Next c' ->
  cia c' = cia c.
Proof.
  unfold MFSPR, MFTB, MTSPR. intros [H|[H|H]]; repeat case_match; by simplify_eq.
Qed.

Lemma trap_cia l c c' : trap_seq l c = Next c' -> c' = c.
Proof. induction l as [|t l IH]; cbn; [congruence|]. by destruct t. Qed.

Lemma MFOCRF_cia b c inst : cia (MFOCRF b c inst) = cia c.
Proof. unfold MFOCRF. destruct (l11 inst =? 0); reflexivity. Qed.

Lemma of_outcome_done o m s' : of_outcome o m = Done s' -> o = Next (fst s') /\ snd s' = m.
Proof. destruct o; intros [= <-]; done. Qed.

Lemma impl_cia env op s inst s' :
  straight_line op = true -> impl env op s inst = Done s' -> cia (fst s') = cia (fst s).
Proof.
  intros Hop Hi. destruct s as [c m].
  pose proof (proj1 (List.Forall_forall _ _) (arith_cia c inst)) as HA.
  pose proof (proj1 (List.Forall_forall _ _) (logic_cia c inst)) as HL.
  pose proof (proj1 (List.Forall_forall _ _) (cr_cia c inst)) as HC.
  pose proof (proj1 (List.Forall_forall _ _) (scalar_mem_cia (c, m) inst)) as HM.
  pose proof (proj1 (List.Forall_forall _ _) (string_cia (c, m) inst)) as HS.
  pose proof (proj1 (List.Forall_forall _ _) (vector_mem_cia (c, m) inst (uninit env))) as HV.
  unfold impl in Hi. cbn [fst snd] in *.
  destruct op; cbn in Hop; try discriminate Hop;
    lazymatch type of Hi with
    | match vector_impl ?i ?o with _ => _ end = _ =>
        cbn [vector_impl] in Hi; injection Hi as <-; apply (vector_impl_cia i o); reflexivity
    | of_outcome (trap_seq _ _) _ = _ => idtac
    | of_outcome (MFSPR ?t _ _) _ = _ =>
        apply of_outcome_done in Hi as [Hi _]; apply (spr_cia t c inst); auto
    | of_outcome (MFTB ?t _ _) _ = _ =>
        apply of_outcome_done in Hi as [Hi _]; apply (spr_cia t c inst); auto
    | of_outcome (MTSPR _ _) _ = _ =>
        apply of_outcome_done in Hi as [Hi _]; apply (spr_cia 0 c inst); auto
    | of_outcome _ _ = _ =>
        apply of_outcome_done in Hi as [Hi _]; apply trap_cia in Hi; by rewrite Hi
    | Done (c, m) = _ => injection Hi as <-; reflexivity
    | Done (MFOCRF _ _ _, _) = _ => injection Hi as <-; apply MFOCRF_cia
    | Done (STVRX ?u _ _) = _ => injection Hi as <-; apply (HV (STVRX u)); in_list
    | Done (?f _ _, _) = _ =>
        injection Hi as <-; cbn [fst];
        first [apply (HA f); in_list | apply (HL f); in_list | apply (HC f); in_list]
    | Done (?f _ _) = _ =>
        injection Hi as <-;
        first [apply (HM f); in_list | apply (HS f); in_list | apply (HV f); in_list]
    end.
Qed.

(** Sequential execution: every modelled instruction that is not a
    branch, if it does not throw, moves the current instruction address to
    the next word and leaves nothing else of the address behind: the step is
    the instruction's own effect followed by that increment. *)
Theorem interpret_sequential env s inst :
  exec_fn env (cia (fst s)) = None -> hle_function env (cia (fst s)) = None ->
  straight_line (getOpcode inst) = true ->
  match impl env (getOpcode inst) s inst with
  | Done s' => interpret env s inst = Done (with_cia (u32 (cia (fst s) + 4)) (fst s'), snd s')
  | Throw e => interpret env s inst = Throw e
  end.
Proof.
  intros Hx Hh Hop. unfold interpret. rewrite Hx, Hh.
  destruct (impl env (getOpcode inst) s inst) as [s'|e] eqn:Hi; [|done].
  rewrite (impl_cia _ _ _ _ _ Hop Hi), Z.eqb_refl.
  unfold straight_line in Hop. apply andb_true_iff in Hop as [-> _]. done.
Qed.

(** The decoding of [add r3, r4, r5] and [addo r3, r4, r5]. *)
Lemma getOpcode_add : getOpcode 0x7c642a14 = Opcode.ADD.
Proof.
  apply (decode_group 0x7c642a14 ltac:(unfold urange; lia) 0x1f 10 1 group_1f
           (GETRC 0x10a Opcode.ADD Opcode.ADD_)); try reflexivity.
  - apply elem_of_groups; unfold groups; simpl In; tauto.
  - apply (list_elem_of_lookup_2 _ 70); reflexivity.
Qed.

(** [add r3, r4, r5] at 0x1000. *)
Lemma interpret_sequential_witness :
  let s := (with_cia 0x1000 (sample_ctx 5 7), fun _ : Z => 0) in
  interpret bare_env s 0x7c642a14 =
    Done (with_cia 0x1004 (ADD (fst s) 0x7c642a14), snd s).
Proof.
  cbv zeta.
  pose proof (interpret_sequential bare_env (with_cia 0x1000 (sample_ctx 5 7), fun _ : Z => 0)
                0x7c642a14 eq_refl eq_refl) as H.
  rewrite getOpcode_add in H. exact (H eq_refl).
Defined.

(** The seventeen extended opcodes with OE set. *)
Definition oe_xo : list Z :=
  [0x208; 0x20a; 0x228; 0x268; 0x288; 0x28a; 0x2c8; 0x2ca; 0x2e8; 0x2e9; 0x2ea; 0x2eb; 0x30a;
   0x3c9; 0x3cb; 0x3e9; 0x3eb].

Definition is_oe_opcode (op : Opcode.t) : bool :=
  match op with
  | Opcode.SUBFCO | Opcode.SUBFCO_ | Opcode.ADDCO | Opcode.ADDCO_ | Opcode.SUBFO
  | Opcode.SUBFO_ | Opcode.NEGO | Opcode.NEGO_ | Opcode.SUBFEO | Opcode.SUBFEO_
  | Opcode.ADDEO | Opcode.ADDEO_ | Opcode.SUBFZEO | Opcode.SUBFZEO_ | Opcode.ADDZEO
  | Opcode.ADDZEO_ | Opcode.SUBFMEO | Opcode.SUBFMEO_ | Opcode.MULLDO | Opcode.MULLDO_
  | Opcode.ADDMEO | Opcode.ADDMEO_ | Opcode.MULLWO | Opcode.MULLWO_ | Opcode.ADDO
  | Opcode.ADDO_ | Opcode.DIVDUO | Opcode.DIVDUO_ | Opcode.DIVWUO | Opcode.DIVWUO_
  | Opcode.DIVDO | Opcode.DIVDO_ | Opcode.DIVWO | Opcode.DIVWO_ => true
  | _ => false
  end.

Lemma impl_oe env op s inst : is_oe_opcode op = true -> impl env op s inst = Throw Unimplemented.
Proof. destruct op; cbn; intros H; first [discriminate H | reflexivity]. Qed.

(** Each of them is an entry of group 0x1f. *)
Lemma oe_entry xo :
  xo ∈ oe_xo -> exists v, v ∈ group_1f /\ value v = xo /\ magn v = 0 /\ is_oe_opcode (opcode v) = true.
Proof.
  assert (forallb (fun xo => existsb (fun v => (value v =? xo) && (magn v =? 0) &&
            is_oe_opcode (opcode v)) group_1f) oe_xo = true) as H by (vm_compute; reflexivity).
  intros Hxo. rewrite forallb_forall in H.
  specialize (H xo (proj1 (list_elem_of_In _ _) Hxo)).
  apply existsb_exists in H as (v & Hv & Hp). exists v.
  rewrite !andb_true_iff, !Z.eqb_eq in Hp. rewrite list_elem_of_In. tauto.
Qed.

(** The overflow-enabled arithmetic instructions are not executable:
    although ADD, SUBF, NEG, MULLD, DIVD and their relatives implement the
    OE bit, the decoder sends every such word with OE set to a separate
    opcode whose implementation throws. *)
Theorem oe_forms_unimplemented env s inst :
  urange 32 inst -> inst / 2 ^ 26 = 0x1f -> (inst / 2) mod 2 ^ 10 ∈ oe_xo ->
  exec_fn env (cia (fst s)) = None -> hle_function env (cia (fst s)) = None ->
  oe inst = 1 /\ interpret env s inst = Throw Unimplemented.
Proof.
  intros Hi Hmain Hxo Hx Hh. destruct (oe_entry _ Hxo) as (v & Hv & Hval & Hm & Ho). split.
  - unfold oe, bf_u. change (32 - 1 - 21) with 10.
    assert (Z.testbit ((inst / 2) mod 2 ^ 10) 9 = true) as Hb.
    { unfold oe_xo in Hxo. repeat (apply elem_of_cons in Hxo as [->|Hxo]; [reflexivity|]).
      by apply not_elem_of_nil in Hxo. }
    rewrite Z.mod_pow2_bits_low in Hb by lia. change 2 with (2 ^ 1) in Hb.
    rewrite Z.div_pow2_bits in Hb by lia. apply Z.bits_inj'. intros j Hj.
    rewrite testbit_extract_u by lia. destruct (Z.ltb_spec j 1).
    + assert (j = 0) as -> by lia. exact Hb.
    + symmetry. change 1 with (2 ^ 0). apply Z.pow2_bits_false. lia.
  - unfold interpret. rewrite Hx, Hh.
    rewrite (decode_group inst Hi 0x1f 10 1 group_1f v); try done.
    + rewrite Hm. change (10 - 0) with 10.
      rewrite (Z.div_small (inst mod 2 ^ 11 / 2 ^ 1)).
      * cbn [Z.eqb]. change (0 mod 2 =? 0) with true. cbv iota. by rewrite impl_oe.
      * pose proof (Z.mod_pos_bound inst (2 ^ 11) ltac:(lia)).
        split; [apply Z.div_pos; lia | apply Z.div_lt_upper_bound; lia].
    + apply elem_of_groups; unfold groups; simpl In; tauto.
    + by rewrite Hm, Hval.
Qed.

(** [addo r3, r4, r5]. *)
Lemma oe_forms_unimplemented_witness :
  let s := (sample_ctx 1 2, fun _ : Z => 0) in
  urange 32 0x7c642e14 /\ interpret bare_env s 0x7c642e14 = Throw Unimplemented.
Proof.
  cbv zeta. assert (urange 32 0x7c642e14) as Hi by (unfold urange; lia).
  split; [exact Hi|].
  apply (oe_forms_unimplemented bare_env (sample_ctx 1 2, fun _ : Z => 0) 0x7c642e14 Hi eq_refl);
    [|reflexivity|reflexivity].
  apply (list_elem_of_lookup_2 _ 12). reflexivity.
Defined.
