(* ===== verification/SpuOpcode.v ===== *)
(** * SPU instruction words and decoder

    [spu_opcode_t], the branch and local-store address helpers and
    [spu_decoder] of [Emu/Cell/SPUOpcodes.h]; the instruction types and
    register-use flags of [SPUAnalyser.h]; [op_branch_targets] and
    [op_register_targets] of [SPUThread.cpp], the static facts the SPU
    recompilers rely on. *)

From stdpp Require Import base numbers list tactics.
From Stdlib Require Import Lia.
From S2P Require Import Prelude PpuInstruction.
Open Scope Z_scope.
Open Scope mach_scope.

(** ** Fields *)

Module SpuOp.

(** [bf_t<u32, I, N>] and [bf_t<s32, I, N>] of a 32-bit word, bit 0 the least
    significant. *)
Definition bf_t_u (i n raw : Z) : Z := BitField.extract_u 32 i n raw.

Definition bf_t_s (i n raw : Z) : Z := BitField.extract_s 32 i n raw.

Definition rt (raw : Z) : Z := bf_t_u 0 7 raw.

Definition rc (raw : Z) : Z := bf_t_u 0 7 raw.

Definition ra (raw : Z) : Z := bf_t_u 7 7 raw.

Definition rb (raw : Z) : Z := bf_t_u 14 7 raw.

Definition rt4 (raw : Z) : Z := bf_t_u 21 7 raw.

Definition e (raw : Z) : Z := bf_t_u 18 1 raw.

Definition d (raw : Z) : Z := bf_t_u 19 1 raw.

Definition i7 (raw : Z) : Z := bf_t_u 14 7 raw.

Definition i8 (raw : Z) : Z := bf_t_u 14 8 raw.

Definition si10 (raw : Z) : Z := bf_t_s 14 10 raw.

Definition i16 (raw : Z) : Z := bf_t_u 7 16 raw.

Definition si16 (raw : Z) : Z := bf_t_s 7 16 raw.

Definition i18 (raw : Z) : Z := bf_t_u 7 18 raw.

(** [op.rt = 0] and [op.rt4 = 0]. *)
Definition clear_rt (raw : Z) : Z := BitField.store 32 0 7 raw 0.

Definition clear_rt4 (raw : Z) : Z := BitField.store 32 21 7 raw 0.

End SpuOp.

(** ** Addresses *)

Definition SPU_LS_SIZE : Z := 0x40000.

Definition spu_branch_target (pc imm : Z) : Z := u32 (pc + Z.shiftl imm 2) &&& 0x3fffc.

Definition spu_ls_target (pc imm : Z) : Z := u32 (pc + Z.shiftl imm 2) &&& 0x3fff0.

Definition spu_decode (inst : Z) : Z := inst >>> 21.

(** ** Instruction types *)

Module spu_itype.

(** The names of the instructions; [spu_itype::type] numbers them. *)
Inductive t :=
  | UNK | HEQ | HEQI | HGT | HGTI | HLGT | HLGTI | HBR | HBRA | HBRR | STOP | STOPD | LNOP
  | NOP | SYNC | DSYNC | MTSPR | WRCH | STQD | STQX | STQA | STQR | LQD | LQX | LQA | LQR
  | MFSPR | RDCH | RCHCNT | BR | BRA | BRNZ | BRZ | BRHNZ | BRHZ | BRSL | BRASL | IRET
  | BI | BISLED | BISL | BIZ | BINZ | BIHZ | BIHNZ | ILH | ILHU | IL | ILA | FSMBI | AH
  | AHI | A | AI | SFH | SFHI | SF | SFI | ADDX | CG | CGX | SFX | BG | BGX | MPY | MPYU
  | MPYI | MPYUI | MPYH | MPYS | MPYHH | MPYHHA | MPYHHU | MPYHHAU | CBD | CHD | CWD | CDD
  | CBX | CHX | CWX | CDX | CLZ | CNTB | FSMB | FSMH | FSM | GBB | GBH | GB | AVGB | ABSDB
  | SUMB | XSBH | XSHW | XSWD | AND | ANDC | ANDBI | ANDHI | ANDI | OR | ORC | ORBI | ORHI
  | IOHL | ORI | ORX | XOR | XORBI | XORHI | XORI | NAND | NOR | EQV | MPYA | SELB | SHUFB
  | FMA | FNMS | FMS | FA | FS | FM | FREST | FRSQEST | FI | CSFLT | CUFLT | FRDS | CFLTS
  | CFLTU | FCEQ | FCMEQ | FCGT | FCMGT | FSCRWR | FSCRRD | DFA | DFS | DFM | DFMA | DFNMS
  | DFMS | DFNMA | FESD | DFCEQ | DFCMEQ | DFCGT | DFCMGT | DFTSV | SHLH | SHLHI | SHL
  | SHLI | SHLQBI | SHLQBII | SHLQBY | SHLQBYI | SHLQBYBI | ROTH | ROTHI | ROT | ROTI
  | ROTQBY | ROTQBYI | ROTQBYBI | ROTQBI | ROTQBII | ROTHM | ROTHMI | ROTM | ROTMI
  | ROTQMBY | ROTQMBYI | ROTQMBYBI | ROTQMBI | ROTQMBII | ROTMAH | ROTMAHI | ROTMA
  | ROTMAI | CEQB | CEQBI | CEQH | CEQHI | CEQ | CEQI | CGTB | CGTBI | CGTH | CGTHI | CGT
  | CGTI | CLGTB | CLGTBI | CLGTH | CLGTHI | CLGT | CLGTI.

Definition value (x : t) : Z :=
  match x with
  | UNK => 0 | HEQ => 1 | HEQI => 2 | HGT => 3 | HGTI => 4 | HLGT => 5 | HLGTI => 6 | HBR => 7
  | HBRA => 8 | HBRR => 9 | STOP => 10 | STOPD => 11 | LNOP => 12 | NOP => 13 | SYNC => 14
  | DSYNC => 15 | MTSPR => 16 | WRCH => 17 | STQD => 18 | STQX => 19 | STQA => 20 | STQR => 21
  | LQD => 22 | LQX => 23 | LQA => 24 | LQR => 25 | MFSPR => 26 | RDCH => 27 | RCHCNT => 28
  | BR => 29 | BRA => 30 | BRNZ => 31 | BRZ => 32 | BRHNZ => 33 | BRHZ => 34 | BRSL => 35
  | BRASL => 36 | IRET => 37 | BI => 38 | BISLED => 39 | BISL => 40 | BIZ => 41 | BINZ => 42
  | BIHZ => 43 | BIHNZ => 44 | ILH => 45 | ILHU => 46 | IL => 47 | ILA => 48 | FSMBI => 49
  | AH => 50 | AHI => 51 | A => 52 | AI => 53 | SFH => 54 | SFHI => 55 | SF => 56 | SFI => 57
  | ADDX => 58 | CG => 59 | CGX => 60 | SFX => 61 | BG => 62 | BGX => 63 | MPY => 64
  | MPYU => 65 | MPYI => 66 | MPYUI => 67 | MPYH => 68 | MPYS => 69 | MPYHH => 70
  | MPYHHA => 71 | MPYHHU => 72 | MPYHHAU => 73 | CBD => 74 | CHD => 75 | CWD => 76
  | CDD => 77 | CBX => 78 | CHX => 79 | CWX => 80 | CDX => 81 | CLZ => 82 | CNTB => 83
  | FSMB => 84 | FSMH => 85 | FSM => 86 | GBB => 87 | GBH => 88 | GB => 89 | AVGB => 90
  | ABSDB => 91 | SUMB => 92 | XSBH => 93 | XSHW => 94 | XSWD => 95 | AND => 96 | ANDC => 97
  | ANDBI => 98 | ANDHI => 99 | ANDI => 100 | OR => 101 | ORC => 102 | ORBI => 103
  | ORHI => 104 | IOHL => 105 | ORI => 106 | ORX => 107 | XOR => 108 | XORBI => 109
  | XORHI => 110 | XORI => 111 | NAND => 112 | NOR => 113 | EQV => 114 | MPYA => 115
  | SELB => 116 | SHUFB => 117 | FMA => 118 | FNMS => 119 | FMS => 120 | FA => 121 | FS => 122
  | FM => 123 | FREST => 124 | FRSQEST => 125 | FI => 126 | CSFLT => 127 | CUFLT => 128
  | FRDS => 129 | CFLTS => 130 | CFLTU => 131 | FCEQ => 132 | FCMEQ => 133 | FCGT => 134
  | FCMGT => 135 | FSCRWR => 136 | FSCRRD => 137 | DFA => 138 | DFS => 139 | DFM => 140
  | DFMA => 141 | DFNMS => 142 | DFMS => 143 | DFNMA => 144 | FESD => 145 | DFCEQ => 146
  | DFCMEQ => 147 | DFCGT => 148 | DFCMGT => 149 | DFTSV => 150 | SHLH => 151 | SHLHI => 152
  | SHL => 153 | SHLI => 154 | SHLQBI => 155 | SHLQBII => 156 | SHLQBY => 157 | SHLQBYI => 158
  | SHLQBYBI => 159 | ROTH => 160 | ROTHI => 161 | ROT => 162 | ROTI => 163 | ROTQBY => 164
  | ROTQBYI => 165 | ROTQBYBI => 166 | ROTQBI => 167 | ROTQBII => 168 | ROTHM => 169
  | ROTHMI => 170 | ROTM => 171 | ROTMI => 172 | ROTQMBY => 173 | ROTQMBYI => 174
  | ROTQMBYBI => 175 | ROTQMBI => 176 | ROTQMBII => 177 | ROTMAH => 178 | ROTMAHI => 179
  | ROTMA => 180 | ROTMAI => 181 | CEQB => 182 | CEQBI => 183 | CEQH => 184 | CEQHI => 185
  | CEQ => 186 | CEQI => 187 | CGTB => 188 | CGTBI => 189 | CGTH => 190 | CGTHI => 191
  | CGT => 192 | CGTI => 193 | CLGTB => 194 | CLGTBI => 195 | CLGTH => 196 | CLGTHI => 197
  | CLGT => 198 | CLGTI => 199
  end.

(** The names in order. *)
Definition names : list t :=
  [UNK ; HEQ ; HEQI ; HGT ; HGTI ; HLGT ; HLGTI ; HBR ; HBRA ; HBRR ; STOP ; STOPD ; LNOP
  ; NOP ; SYNC ; DSYNC ; MTSPR ; WRCH ; STQD ; STQX ; STQA ; STQR ; LQD ; LQX ; LQA ; LQR
  ; MFSPR ; RDCH ; RCHCNT ; BR ; BRA ; BRNZ ; BRZ ; BRHNZ ; BRHZ ; BRSL ; BRASL ; IRET
  ; BI ; BISLED ; BISL ; BIZ ; BINZ ; BIHZ ; BIHNZ ; ILH ; ILHU ; IL ; ILA ; FSMBI ; AH
  ; AHI ; A ; AI ; SFH ; SFHI ; SF ; SFI ; ADDX ; CG ; CGX ; SFX ; BG ; BGX ; MPY ; MPYU
  ; MPYI ; MPYUI ; MPYH ; MPYS ; MPYHH ; MPYHHA ; MPYHHU ; MPYHHAU ; CBD ; CHD ; CWD ; CDD
  ; CBX ; CHX ; CWX ; CDX ; CLZ ; CNTB ; FSMB ; FSMH ; FSM ; GBB ; GBH ; GB ; AVGB ; ABSDB
  ; SUMB ; XSBH ; XSHW ; XSWD ; AND ; ANDC ; ANDBI ; ANDHI ; ANDI ; OR ; ORC ; ORBI ; ORHI
  ; IOHL ; ORI ; ORX ; XOR ; XORBI ; XORHI ; XORI ; NAND ; NOR ; EQV ; MPYA ; SELB ; SHUFB
  ; FMA ; FNMS ; FMS ; FA ; FS ; FM ; FREST ; FRSQEST ; FI ; CSFLT ; CUFLT ; FRDS ; CFLTS
  ; CFLTU ; FCEQ ; FCMEQ ; FCGT ; FCMGT ; FSCRWR ; FSCRRD ; DFA ; DFS ; DFM ; DFMA ; DFNMS
  ; DFMS ; DFNMA ; FESD ; DFCEQ ; DFCMEQ ; DFCGT ; DFCMGT ; DFTSV ; SHLH ; SHLHI ; SHL
  ; SHLI ; SHLQBI ; SHLQBII ; SHLQBY ; SHLQBYI ; SHLQBYBI ; ROTH ; ROTHI ; ROT ; ROTI
  ; ROTQBY ; ROTQBYI ; ROTQBYBI ; ROTQBI ; ROTQBII ; ROTHM ; ROTHMI ; ROTM ; ROTMI
  ; ROTQMBY ; ROTQMBYI ; ROTQMBYBI ; ROTQMBI ; ROTQMBII ; ROTMAH ; ROTMAHI ; ROTMA
  ; ROTMAI ; CEQB ; CEQBI ; CEQH ; CEQHI ; CEQ ; CEQI ; CGTB ; CGTBI ; CGTH ; CGTHI ; CGT
  ; CGTI ; CLGTB ; CLGTBI ; CLGTH ; CLGTHI ; CLGT ; CLGTI].

Lemma names_value x : names !! Z.to_nat (value x) = Some x.
Proof. destruct x; reflexivity. Qed.

Lemma value_inj x y : value x = value y -> x = y.
Proof. intros E. pose proof (names_value x) as H. rewrite E, names_value in H. congruence. Qed.

#[global] Instance t_eq_dec : EqDecision t.
Proof.
  refine (fun x y => match decide (value x = value y) with
                     | left E => left (value_inj x y E)
                     | right N => right _
                     end).
  congruence.
Defined.

Definition between (lo hi x : t) : bool := (value lo <=? value x) && (value x <=? value hi).

(** The tags: ranges of the enumeration. *)
Definition branch : t -> bool := between BR BIHNZ.

Definition floating : t -> bool := between FMA FCMGT.

Definition quadrop : t -> bool := between MPYA FMS.

Definition xfloat : t -> bool := between FMA FRDS.

Definition memory : t -> bool := between STQD LQR.

Definition compare : t -> bool := between CEQB CLGTI.

Definition integer : t -> bool := between AH SHUFB.

Definition shiftrot : t -> bool := between SHLH ROTMAI.

Definition constant : t -> bool := between ILH FSMBI.

Definition zregmod : t -> bool := between HEQ STQR.

Definition pure : t -> bool := between ILH CLGTI.

End spu_itype.

(** ** Register use *)

Module spu_iflag.
Import spu_itype.

Definition use_ra : Z := Z.shiftl 1 8.

Definition use_rb : Z := Z.shiftl 1 9.

Definition use_rc : Z := Z.shiftl 1 10.

Definition flag (x : t) : Z :=
  match x with
  | UNK => 0 | HBR => 1 | HBRA => 2 | HBRR => 3 | STOP => 4 | STOPD => 5 | LNOP => 6
  | NOP => 7 | SYNC => 8 | DSYNC => 9 | MFSPR => 10 | MTSPR => 11 | DFCEQ => 12 | DFCMEQ => 13
  | DFCGT => 14 | DFCMGT => 15 | DFTSV => 16 | RDCH => 17 | RCHCNT => 18 | LQA => 19
  | LQR => 20 | ILH => 21 | ILHU => 22 | IL => 23 | ILA => 24 | FSMBI => 25 | BR => 26
  | BRA => 27 | BRSL => 28 | BRASL => 29 | IRET => 30 | FSCRRD => 31 | WRCH => use_rc
  | IOHL => use_rc + 1 | STQA => use_rc + 2 | STQR => use_rc + 3 | BRNZ => use_rc + 4
  | BRZ => use_rc + 5 | BRHNZ => use_rc + 6 | BRHZ => use_rc + 7 | STQD => (use_ra ||| use_rc)
  | BIZ => (use_ra ||| use_rc) + 1 | BINZ => (use_ra ||| use_rc) + 2
  | BIHZ => (use_ra ||| use_rc) + 3 | BIHNZ => (use_ra ||| use_rc) + 4
  | STQX => (use_ra ||| use_rb ||| use_rc) | ADDX => (use_ra ||| use_rb ||| use_rc) + 1
  | CGX => (use_ra ||| use_rb ||| use_rc) + 2 | SFX => (use_ra ||| use_rb ||| use_rc) + 3
  | BGX => (use_ra ||| use_rb ||| use_rc) + 4 | MPYHHA => (use_ra ||| use_rb ||| use_rc) + 5
  | MPYHHAU => (use_ra ||| use_rb ||| use_rc) + 6 | MPYA => (use_ra ||| use_rb ||| use_rc) + 7
  | SELB => (use_ra ||| use_rb ||| use_rc) + 8 | SHUFB => (use_ra ||| use_rb ||| use_rc) + 9
  | DFMA => (use_ra ||| use_rb ||| use_rc) + 10 | DFNMS => (use_ra ||| use_rb ||| use_rc) + 11
  | DFMS => (use_ra ||| use_rb ||| use_rc) + 12 | DFNMA => (use_ra ||| use_rb ||| use_rc) + 13
  | FMA => (use_ra ||| use_rb ||| use_rc) + 14 | FNMS => (use_ra ||| use_rb ||| use_rc) + 15
  | FMS => (use_ra ||| use_rb ||| use_rc) + 16 | HEQI => use_ra | HGTI => use_ra + 1
  | HLGTI => use_ra + 2 | LQD => use_ra + 3 | CBD => use_ra + 4 | CHD => use_ra + 5
  | CWD => use_ra + 6 | CDD => use_ra + 7 | AHI => use_ra + 8 | AI => use_ra + 9
  | SFHI => use_ra + 10 | SFI => use_ra + 11 | MPYI => use_ra + 12 | MPYUI => use_ra + 13
  | CLZ => use_ra + 14 | CNTB => use_ra + 15 | FSMB => use_ra + 16 | FSMH => use_ra + 17
  | FSM => use_ra + 18 | GBB => use_ra + 19 | GBH => use_ra + 20 | GB => use_ra + 21
  | XSBH => use_ra + 22 | XSHW => use_ra + 23 | XSWD => use_ra + 24 | ANDBI => use_ra + 25
  | ANDHI => use_ra + 26 | ANDI => use_ra + 27 | ORBI => use_ra + 28 | ORHI => use_ra + 29
  | ORI => use_ra + 30 | ORX => use_ra + 31 | XORBI => use_ra + 32 | XORHI => use_ra + 33
  | XORI => use_ra + 34 | SHLHI => use_ra + 35 | SHLI => use_ra + 36 | SHLQBII => use_ra + 37
  | SHLQBYI => use_ra + 38 | ROTHI => use_ra + 39 | ROTI => use_ra + 40
  | ROTQBYI => use_ra + 41 | ROTQBII => use_ra + 42 | ROTHMI => use_ra + 43
  | ROTMI => use_ra + 44 | ROTQMBYI => use_ra + 45 | ROTQMBII => use_ra + 46
  | ROTMAHI => use_ra + 47 | ROTMAI => use_ra + 48 | CEQBI => use_ra + 49
  | CEQHI => use_ra + 50 | CEQI => use_ra + 51 | CGTBI => use_ra + 52 | CGTHI => use_ra + 53
  | CGTI => use_ra + 54 | CLGTBI => use_ra + 55 | CLGTHI => use_ra + 56 | CLGTI => use_ra + 57
  | BI => use_ra + 58 | BISLED => use_ra + 59 | BISL => use_ra + 60 | FREST => use_ra + 61
  | FRSQEST => use_ra + 62 | CSFLT => use_ra + 63 | CFLTS => use_ra + 64
  | CUFLT => use_ra + 65 | CFLTU => use_ra + 66 | FRDS => use_ra + 67 | FESD => use_ra + 68
  | FSCRWR => use_ra + 69 | HEQ => (use_ra ||| use_rb) | HGT => (use_ra ||| use_rb) + 1
  | HLGT => (use_ra ||| use_rb) + 2 | LQX => (use_ra ||| use_rb) + 3
  | CBX => (use_ra ||| use_rb) + 4 | CHX => (use_ra ||| use_rb) + 5
  | CWX => (use_ra ||| use_rb) + 6 | CDX => (use_ra ||| use_rb) + 7
  | AH => (use_ra ||| use_rb) + 8 | A => (use_ra ||| use_rb) + 9
  | SFH => (use_ra ||| use_rb) + 10 | SF => (use_ra ||| use_rb) + 11
  | CG => (use_ra ||| use_rb) + 12 | BG => (use_ra ||| use_rb) + 13
  | MPYHHU => (use_ra ||| use_rb) + 14 | MPY => (use_ra ||| use_rb) + 15
  | MPYU => (use_ra ||| use_rb) + 16 | MPYH => (use_ra ||| use_rb) + 17
  | MPYS => (use_ra ||| use_rb) + 18 | MPYHH => (use_ra ||| use_rb) + 19
  | AVGB => (use_ra ||| use_rb) + 20 | ABSDB => (use_ra ||| use_rb) + 21
  | SUMB => (use_ra ||| use_rb) + 22 | AND => (use_ra ||| use_rb) + 23
  | ANDC => (use_ra ||| use_rb) + 24 | OR => (use_ra ||| use_rb) + 25
  | ORC => (use_ra ||| use_rb) + 26 | XOR => (use_ra ||| use_rb) + 27
  | NAND => (use_ra ||| use_rb) + 28 | NOR => (use_ra ||| use_rb) + 29
  | EQV => (use_ra ||| use_rb) + 30 | SHLH => (use_ra ||| use_rb) + 31
  | SHL => (use_ra ||| use_rb) + 32 | SHLQBI => (use_ra ||| use_rb) + 33
  | SHLQBY => (use_ra ||| use_rb) + 34 | SHLQBYBI => (use_ra ||| use_rb) + 35
  | ROTH => (use_ra ||| use_rb) + 36 | ROT => (use_ra ||| use_rb) + 37
  | ROTQBY => (use_ra ||| use_rb) + 38 | ROTQBYBI => (use_ra ||| use_rb) + 39
  | ROTQBI => (use_ra ||| use_rb) + 40 | ROTHM => (use_ra ||| use_rb) + 41
  | ROTM => (use_ra ||| use_rb) + 42 | ROTQMBY => (use_ra ||| use_rb) + 43
  | ROTQMBYBI => (use_ra ||| use_rb) + 44 | ROTQMBI => (use_ra ||| use_rb) + 45
  | ROTMAH => (use_ra ||| use_rb) + 46 | ROTMA => (use_ra ||| use_rb) + 47
  | CEQB => (use_ra ||| use_rb) + 48 | CEQH => (use_ra ||| use_rb) + 49
  | CEQ => (use_ra ||| use_rb) + 50 | CGTB => (use_ra ||| use_rb) + 51
  | CGTH => (use_ra ||| use_rb) + 52 | CGT => (use_ra ||| use_rb) + 53
  | CLGTB => (use_ra ||| use_rb) + 54 | CLGTH => (use_ra ||| use_rb) + 55
  | CLGT => (use_ra ||| use_rb) + 56 | FA => (use_ra ||| use_rb) + 57
  | DFA => (use_ra ||| use_rb) + 58 | FS => (use_ra ||| use_rb) + 59
  | DFS => (use_ra ||| use_rb) + 60 | FM => (use_ra ||| use_rb) + 61
  | DFM => (use_ra ||| use_rb) + 62 | FI => (use_ra ||| use_rb) + 63
  | FCEQ => (use_ra ||| use_rb) + 64 | FCMEQ => (use_ra ||| use_rb) + 65
  | FCGT => (use_ra ||| use_rb) + 66 | FCMGT => (use_ra ||| use_rb) + 67
  end.

End spu_iflag.

(** ** The decoder table *)

(** The initializer list: the table entries [value << magn .. ] of each
    instruction. *)
Definition instructions : list (Z * Z * spu_itype.t) :=
  [
    (0, 0x0, spu_itype.STOP); (0, 0x1, spu_itype.LNOP); (0, 0x2, spu_itype.SYNC);
    (0, 0x3, spu_itype.DSYNC); (0, 0xc, spu_itype.MFSPR); (0, 0xd, spu_itype.RDCH);
    (0, 0xf, spu_itype.RCHCNT); (0, 0x40, spu_itype.SF); (0, 0x41, spu_itype.OR);
    (0, 0x42, spu_itype.BG); (0, 0x48, spu_itype.SFH); (0, 0x49, spu_itype.NOR);
    (0, 0x53, spu_itype.ABSDB); (0, 0x58, spu_itype.ROT); (0, 0x59, spu_itype.ROTM);
    (0, 0x5a, spu_itype.ROTMA); (0, 0x5b, spu_itype.SHL); (0, 0x5c, spu_itype.ROTH);
    (0, 0x5d, spu_itype.ROTHM); (0, 0x5e, spu_itype.ROTMAH); (0, 0x5f, spu_itype.SHLH);
    (0, 0x78, spu_itype.ROTI); (0, 0x79, spu_itype.ROTMI); (0, 0x7a, spu_itype.ROTMAI);
    (0, 0x7b, spu_itype.SHLI); (0, 0x7c, spu_itype.ROTHI); (0, 0x7d, spu_itype.ROTHMI);
    (0, 0x7e, spu_itype.ROTMAHI); (0, 0x7f, spu_itype.SHLHI); (0, 0xc0, spu_itype.A);
    (0, 0xc1, spu_itype.AND); (0, 0xc2, spu_itype.CG); (0, 0xc8, spu_itype.AH);
    (0, 0xc9, spu_itype.NAND); (0, 0xd3, spu_itype.AVGB); (0, 0x10c, spu_itype.MTSPR);
    (0, 0x10d, spu_itype.WRCH); (0, 0x128, spu_itype.BIZ); (0, 0x129, spu_itype.BINZ);
    (0, 0x12a, spu_itype.BIHZ); (0, 0x12b, spu_itype.BIHNZ); (0, 0x140, spu_itype.STOPD);
    (0, 0x144, spu_itype.STQX); (0, 0x1a8, spu_itype.BI); (0, 0x1a9, spu_itype.BISL);
    (0, 0x1aa, spu_itype.IRET); (0, 0x1ab, spu_itype.BISLED); (0, 0x1ac, spu_itype.HBR);
    (0, 0x1b0, spu_itype.GB); (0, 0x1b1, spu_itype.GBH); (0, 0x1b2, spu_itype.GBB);
    (0, 0x1b4, spu_itype.FSM); (0, 0x1b5, spu_itype.FSMH); (0, 0x1b6, spu_itype.FSMB);
    (0, 0x1b8, spu_itype.FREST); (0, 0x1b9, spu_itype.FRSQEST); (0, 0x1c4, spu_itype.LQX);
    (0, 0x1cc, spu_itype.ROTQBYBI); (0, 0x1cd, spu_itype.ROTQMBYBI);
    (0, 0x1cf, spu_itype.SHLQBYBI); (0, 0x1d4, spu_itype.CBX); (0, 0x1d5, spu_itype.CHX);
    (0, 0x1d6, spu_itype.CWX); (0, 0x1d7, spu_itype.CDX); (0, 0x1d8, spu_itype.ROTQBI);
    (0, 0x1d9, spu_itype.ROTQMBI); (0, 0x1db, spu_itype.SHLQBI); (0, 0x1dc, spu_itype.ROTQBY);
    (0, 0x1dd, spu_itype.ROTQMBY); (0, 0x1df, spu_itype.SHLQBY); (0, 0x1f0, spu_itype.ORX);
    (0, 0x1f4, spu_itype.CBD); (0, 0x1f5, spu_itype.CHD); (0, 0x1f6, spu_itype.CWD);
    (0, 0x1f7, spu_itype.CDD); (0, 0x1f8, spu_itype.ROTQBII); (0, 0x1f9, spu_itype.ROTQMBII);
    (0, 0x1fb, spu_itype.SHLQBII); (0, 0x1fc, spu_itype.ROTQBYI);
    (0, 0x1fd, spu_itype.ROTQMBYI); (0, 0x1ff, spu_itype.SHLQBYI); (0, 0x201, spu_itype.NOP);
    (0, 0x240, spu_itype.CGT); (0, 0x241, spu_itype.XOR); (0, 0x248, spu_itype.CGTH);
    (0, 0x249, spu_itype.EQV); (0, 0x250, spu_itype.CGTB); (0, 0x253, spu_itype.SUMB);
    (0, 0x258, spu_itype.HGT); (0, 0x2a5, spu_itype.CLZ); (0, 0x2a6, spu_itype.XSWD);
    (0, 0x2ae, spu_itype.XSHW); (0, 0x2b4, spu_itype.CNTB); (0, 0x2b6, spu_itype.XSBH);
    (0, 0x2c0, spu_itype.CLGT); (0, 0x2c1, spu_itype.ANDC); (0, 0x2c2, spu_itype.FCGT);
    (0, 0x2c3, spu_itype.DFCGT); (0, 0x2c4, spu_itype.FA); (0, 0x2c5, spu_itype.FS);
    (0, 0x2c6, spu_itype.FM); (0, 0x2c8, spu_itype.CLGTH); (0, 0x2c9, spu_itype.ORC);
    (0, 0x2ca, spu_itype.FCMGT); (0, 0x2cb, spu_itype.DFCMGT); (0, 0x2cc, spu_itype.DFA);
    (0, 0x2cd, spu_itype.DFS); (0, 0x2ce, spu_itype.DFM); (0, 0x2d0, spu_itype.CLGTB);
    (0, 0x2d8, spu_itype.HLGT); (0, 0x35c, spu_itype.DFMA); (0, 0x35d, spu_itype.DFMS);
    (0, 0x35e, spu_itype.DFNMS); (0, 0x35f, spu_itype.DFNMA); (0, 0x3c0, spu_itype.CEQ);
    (0, 0x3ce, spu_itype.MPYHHU); (0, 0x340, spu_itype.ADDX); (0, 0x341, spu_itype.SFX);
    (0, 0x342, spu_itype.CGX); (0, 0x343, spu_itype.BGX); (0, 0x346, spu_itype.MPYHHA);
    (0, 0x34e, spu_itype.MPYHHAU); (0, 0x398, spu_itype.FSCRRD); (0, 0x3b8, spu_itype.FESD);
    (0, 0x3b9, spu_itype.FRDS); (0, 0x3ba, spu_itype.FSCRWR); (0, 0x3bf, spu_itype.DFTSV);
    (0, 0x3c2, spu_itype.FCEQ); (0, 0x3c3, spu_itype.DFCEQ); (0, 0x3c4, spu_itype.MPY);
    (0, 0x3c5, spu_itype.MPYH); (0, 0x3c6, spu_itype.MPYHH); (0, 0x3c7, spu_itype.MPYS);
    (0, 0x3c8, spu_itype.CEQH); (0, 0x3ca, spu_itype.FCMEQ); (0, 0x3cb, spu_itype.DFCMEQ);
    (0, 0x3cc, spu_itype.MPYU); (0, 0x3d0, spu_itype.CEQB); (0, 0x3d4, spu_itype.FI);
    (0, 0x3d8, spu_itype.HEQ); (1, 0x1d8, spu_itype.CFLTS); (1, 0x1d9, spu_itype.CFLTU);
    (1, 0x1da, spu_itype.CSFLT); (1, 0x1db, spu_itype.CUFLT); (2, 0x40, spu_itype.BRZ);
    (2, 0x41, spu_itype.STQA); (2, 0x42, spu_itype.BRNZ); (2, 0x44, spu_itype.BRHZ);
    (2, 0x46, spu_itype.BRHNZ); (2, 0x47, spu_itype.STQR); (2, 0x60, spu_itype.BRA);
    (2, 0x61, spu_itype.LQA); (2, 0x62, spu_itype.BRASL); (2, 0x64, spu_itype.BR);
    (2, 0x65, spu_itype.FSMBI); (2, 0x66, spu_itype.BRSL); (2, 0x67, spu_itype.LQR);
    (2, 0x81, spu_itype.IL); (2, 0x82, spu_itype.ILHU); (2, 0x83, spu_itype.ILH);
    (2, 0xc1, spu_itype.IOHL); (3, 0x4, spu_itype.ORI); (3, 0x5, spu_itype.ORHI);
    (3, 0x6, spu_itype.ORBI); (3, 0xc, spu_itype.SFI); (3, 0xd, spu_itype.SFHI);
    (3, 0x14, spu_itype.ANDI); (3, 0x15, spu_itype.ANDHI); (3, 0x16, spu_itype.ANDBI);
    (3, 0x1c, spu_itype.AI); (3, 0x1d, spu_itype.AHI); (3, 0x24, spu_itype.STQD);
    (3, 0x34, spu_itype.LQD); (3, 0x44, spu_itype.XORI); (3, 0x45, spu_itype.XORHI);
    (3, 0x46, spu_itype.XORBI); (3, 0x4c, spu_itype.CGTI); (3, 0x4d, spu_itype.CGTHI);
    (3, 0x4e, spu_itype.CGTBI); (3, 0x4f, spu_itype.HGTI); (3, 0x5c, spu_itype.CLGTI);
    (3, 0x5d, spu_itype.CLGTHI); (3, 0x5e, spu_itype.CLGTBI); (3, 0x5f, spu_itype.HLGTI);
    (3, 0x74, spu_itype.MPYI); (3, 0x75, spu_itype.MPYUI); (3, 0x7c, spu_itype.CEQI);
    (3, 0x7d, spu_itype.CEQHI); (3, 0x7e, spu_itype.CEQBI); (3, 0x7f, spu_itype.HEQI);
    (4, 0x8, spu_itype.HBRA); (4, 0x9, spu_itype.HBRR); (4, 0x21, spu_itype.ILA);
    (7, 0x8, spu_itype.SELB); (7, 0xb, spu_itype.SHUFB); (7, 0xc, spu_itype.MPYA);
    (7, 0xd, spu_itype.FNMS); (7, 0xe, spu_itype.FMA); (7, 0xf, spu_itype.FMS)
  ].

(** [m_table[entry.value << entry.magn | i] = entry.pointer], for every
    [i < 1 << magn]. *)
Definition write_entry (table : list spu_itype.t) (x : Z * Z * spu_itype.t) : list spu_itype.t :=
  let '(magn, v, p) := x in
  foldl (fun tb i => <[Z.to_nat (Z.shiftl v magn ||| i) := p]> tb) table (seqZ 0 (Z.shiftl 1 magn)).

Definition m_table : list spu_itype.t :=
  foldl write_entry (replicate (Z.to_nat 2048) spu_itype.UNK) instructions.

(** [spu_decoder::decode]. *)
Definition decode (inst : Z) : spu_itype.t :=
  default spu_itype.UNK (m_table !! Z.to_nat (spu_decode inst)).

(** ** Static targets *)

Definition umax : Z := 2 ^ 32 - 1.

(** [op_branch_targets]: where execution can continue, [umax] for nowhere or
    an unknown address. *)
Definition op_branch_targets (pc op : Z) : Z * Z :=
  let next := spu_branch_target (u32 (pc + 4)) 0 in
  match decode op with
  | spu_itype.BR | spu_itype.BRSL => (spu_branch_target pc (SpuOp.i16 op), umax)
  | spu_itype.BRA | spu_itype.BRASL => (spu_branch_target 0 (SpuOp.i16 op), umax)
  | spu_itype.BRNZ | spu_itype.BRZ | spu_itype.BRHNZ | spu_itype.BRHZ =>
      let t := spu_branch_target pc (SpuOp.i16 op) in
      (next, if next =? t then umax else t)
  | spu_itype.IRET | spu_itype.BI | spu_itype.BISLED | spu_itype.BISL | spu_itype.BIZ
  | spu_itype.BINZ | spu_itype.BIHZ | spu_itype.BIHNZ | spu_itype.UNK => (umax, umax)
  | _ => (next, umax)
  end.

(** [op_register_targets]: the register written, the registers read (128 for
    none) and the word with the target field cleared. *)
Definition op_register_targets (op : Z) : Z * (Z * Z * Z) * Z :=
  let type := decode op in
  if spu_itype.zregmod type then (umax, (128, 128, 128), 0)
  else
    let quad := spu_itype.quadrop type in
    let f := spu_iflag.flag type in
    let use bit r := if f &&& bit =? 0 then 128 else r in
    (if quad then SpuOp.rt4 op else SpuOp.rt op,
     (use spu_iflag.use_ra (SpuOp.ra op), use spu_iflag.use_rb (SpuOp.rb op), use spu_iflag.use_rc (SpuOp.rc op)),
     if quad then SpuOp.clear_rt4 op else SpuOp.clear_rt op).

(** ** The table, entry by entry *)

(** The word [inst] has the opcode bits of an entry. *)
Definition matches (x : Z * Z * spu_itype.t) (inst : Z) : bool :=
  let '(magn, v, _) := x in inst >>> (21 + magn) =? v.

(** What the table should hold at index [k]. *)
Definition entry_ok (k : Z) : bool :=
  let n := default spu_itype.UNK (m_table !! Z.to_nat k) in
  forallb (fun '(magn, v, p) => negb (k >>> magn =? v) || bool_decide (n = p)) instructions &&
  (existsb (fun '(magn, v, _) => k >>> magn =? v) instructions || bool_decide (n = spu_itype.UNK)).

Lemma table_ok : forallb entry_ok (seqZ 0 2048) = true.
Proof. vm_compute. reflexivity. Qed.

Lemma spu_decode_range inst : urange 32 inst -> 0 <= spu_decode inst < 2048.
Proof.
  intros [H0 H1]. unfold spu_decode. rewrite Z.shiftr_div_pow2 by lia.
  split; [apply Z.div_pos; lia | apply Z.div_lt_upper_bound; lia].
Qed.

Lemma matches_index x inst :
  x ∈ instructions -> matches x inst = (spu_decode inst >>> fst (fst x) =? snd (fst x)).
Proof.
  intros Hx. destruct x as [[magn v] p]. unfold matches, spu_decode. cbn [fst snd].
  rewrite Z.shiftr_shiftr; [done|].
  assert (Forall (fun x => 0 <= fst (fst x)) instructions) as H by (repeat constructor; cbn; lia).
  rewrite List.Forall_forall in H. apply (H _ (proj1 (list_elem_of_In _ _) Hx)).
Qed.

Lemma decode_entry_ok inst : urange 32 inst -> entry_ok (spu_decode inst) = true.
Proof.
  intros H%spu_decode_range. pose proof table_ok as T. rewrite forallb_forall in T.
  apply T, list_elem_of_In, elem_of_seqZ. lia.
Qed.

(** The decoder: a word is decoded to the entry whose opcode bits it has,
    there is at most one, and words that match none are unknown. *)
Lemma decode_spec inst n :
  urange 32 inst ->
  decode inst = n <->
  (exists x, x ∈ instructions /\ matches x inst = true /\ snd x = n) \/
  (n = spu_itype.UNK /\ forall x, x ∈ instructions -> matches x inst = false).
Proof.
  intros Hi. pose proof (decode_entry_ok inst Hi) as E. unfold entry_ok in E.
  fold (decode inst) in E. apply andb_true_iff in E as [E1 E2]. rewrite forallb_forall in E1.
  assert (forall x, x ∈ instructions -> matches x inst = true -> decode inst = snd x) as H1.
  { intros x Hx Hm. rewrite matches_index in Hm by done. destruct x as [[magn v] p]. cbn [fst snd] in *.
    specialize (E1 _ (proj1 (list_elem_of_In _ _) Hx)). cbn in E1. rewrite Hm in E1.
    by apply bool_decide_eq_true in E1. }
  split.
  - intros <-. apply orb_true_iff in E2 as [E2|E2].
    + left. apply existsb_exists in E2 as [[[magn v] p] [Hx Hm]]. apply list_elem_of_In in Hx.
      exists (magn, v, p). assert (matches (magn, v, p) inst = true) as Hm' by (by rewrite matches_index).
      split_and!; [done|done|]. symmetry. by apply (H1 (magn, v, p)).
    + apply bool_decide_eq_true in E2.
      destruct (existsb (fun x => matches x inst) instructions) eqn:Ex.
      * left. apply existsb_exists in Ex as [x [Hx Hm]]. apply list_elem_of_In in Hx.
        exists x. split_and!; [done|done|]. symmetry. by apply H1.
      * right. split; [done|]. intros x Hx. destruct (matches x inst) eqn:Em; [|done].
        assert (existsb (fun x => matches x inst) instructions = true); [|congruence].
        apply existsb_exists. exists x. split; [by apply list_elem_of_In|done].
  - intros [(x & Hx & Hm & <-)|[-> H]]; [by apply H1|]. apply orb_true_iff in E2 as [E2|E2].
    + apply existsb_exists in E2 as [x [Hx Hm]]. apply list_elem_of_In in Hx.
      specialize (H x Hx). rewrite matches_index in H by done. destruct x as [[magn v] p]. cbn in *. congruence.
    + by apply bool_decide_eq_true in E2.
Qed.

(** Every instruction but the unknown one has exactly one entry. *)
Lemma instructions_complete :
  NoDup (snd <$> instructions) /\ forall n, n <> spu_itype.UNK -> n ∈ snd <$> instructions.
Proof.
  split.
  - apply (bool_decide_unpack _). vm_compute. reflexivity.
  - intros n Hn. apply (bool_decide_unpack _). destruct n; try (vm_compute; reflexivity). done.
Qed.

(** The SPU decoder: a 32-bit word decodes to an instruction exactly when
    it carries the opcode bits of that instruction's entry, and to the unknown
    instruction exactly when it carries those of none, although entries of six
    different widths are written over one another in one table of 2048; every
    instruction of the enumeration but the unknown one has exactly one
    entry. *)
Theorem spu_decoder_spec inst :
  urange 32 inst ->
  (forall n, decode inst = n <->
    (exists x, x ∈ instructions /\ matches x inst = true /\ snd x = n) \/
    (n = spu_itype.UNK /\ forall x, x ∈ instructions -> matches x inst = false)) /\
  NoDup (snd <$> instructions) /\
  (forall n, n <> spu_itype.UNK -> n ∈ snd <$> instructions).
Proof. intros Hi. split; [intros n; by apply decode_spec | apply instructions_complete]. Qed.

(** The word [0x18010183], [A r3, r3, r4]. *)
Lemma spu_decoder_spec_witness :
  urange 32 0x18010183 /\ decode 0x18010183 = spu_itype.A /\
  exists x, x ∈ instructions /\ matches x 0x18010183 = true /\ snd x = spu_itype.A.
Proof.
  assert (urange 32 0x18010183) as H by (unfold urange; lia).
  destruct (spu_decoder_spec 0x18010183 H) as [D _].
  split_and!; [done | vm_compute; reflexivity |].
  destruct (proj1 (D spu_itype.A)) as [E|[E _]]; [vm_compute; reflexivity | exact E | discriminate].
Defined.
