(* ===== verification/SpuThread.v ===== *)
(** * The SPU thread

    The part of [spu_thread] the interpreter works on: the 128 registers, the
    program counter, the local store with its big-endian references, the
    interrupt state, and the helpers of [SPUThread.cpp] the instructions call.
    An interpreter function returns [bool], leaves through the escape of the
    runtime ([g_escape]), or throws; [result] has a case for each. *)

From stdpp Require Import base numbers list tactics.
From Stdlib Require Import Lia.
From S2P Require Import Prelude PpuInstruction Simd SpuOpcode.
Open Scope Z_scope.
Open Scope mach_scope.

Module Spu.

(** ** State *)

Record spu_thread := mkSpu {
  gpr : list Z;
  pc : Z;
  srr0 : Z;
  ls : Z -> Z;
  interrupts_enabled : bool;
  ch_count : bool;
  ch_mask : Z;
  state : Z
}.

Definition with_gpr (v : list Z) (s : spu_thread) : spu_thread :=
  mkSpu v (pc s) (srr0 s) (ls s) (interrupts_enabled s) (ch_count s) (ch_mask s) (state s).

Definition with_pc (v : Z) (s : spu_thread) : spu_thread :=
  mkSpu (gpr s) v (srr0 s) (ls s) (interrupts_enabled s) (ch_count s) (ch_mask s) (state s).

Definition with_srr0 (v : Z) (s : spu_thread) : spu_thread :=
  mkSpu (gpr s) (pc s) v (ls s) (interrupts_enabled s) (ch_count s) (ch_mask s) (state s).

Definition with_ls (v : Z -> Z) (s : spu_thread) : spu_thread :=
  mkSpu (gpr s) (pc s) (srr0 s) v (interrupts_enabled s) (ch_count s) (ch_mask s) (state s).

Definition with_intr (v : bool) (s : spu_thread) : spu_thread :=
  mkSpu (gpr s) (pc s) (srr0 s) (ls s) v (ch_count s) (ch_mask s) (state s).

Definition with_state (v : Z) (s : spu_thread) : spu_thread :=
  mkSpu (gpr s) (pc s) (srr0 s) (ls s) (interrupts_enabled s) (ch_count s) (ch_mask s) v.

(** [spu.gpr[i]] and its assignment. *)
Definition G (s : spu_thread) (i : Z) : Z := rget (gpr s) i.

Definition setG (i v : Z) (s : spu_thread) : spu_thread := with_gpr (rset (gpr s) i v) s.

(** [spu.gpr[i]._uW[k] = x]. *)
Definition vset (w v k x : Z) : Z := vmake w (fun j => if j =? k then x else lane w v j).

Definition setLane (w i k x : Z) (s : spu_thread) : spu_thread := setG i (vset w (G s i) k x) s.

(** ** Local store *)

(** [_ref<T>(lsa)] for a big-endian [T] of [size] bytes, read and assigned. *)
Definition ls_ref (size : nat) (m : Z -> Z) (lsa : Z) : Z :=
  be_val ((fun i => m (lsa mod SPU_LS_SIZE + Z.of_nat i)) <$> seq 0 size).

Definition ls_set (size : nat) (m : Z -> Z) (lsa v : Z) : Z -> Z :=
  let b := lsa mod SPU_LS_SIZE in
  fun a => if (b <=? a) && (a <? b + Z.of_nat size)
           then default 0 (be_split size v !! Z.to_nat (a - b)) else m a.

(** [v128::from32r(x)]. *)
Definition from32r (x : Z) : Z := Z.shiftl x 96.

(** ** Results *)

(** The function returned true or false, or left through [g_escape] (a halt,
    or an interrupt taken inside a channel function) or an exception. *)
Inductive result :=
  | Ret (advance : bool) (s : spu_thread)
  | Escaped (s : spu_thread)
  | Throw.

(** A call of a function of the thread, which has the same three exits. *)
Inductive call (A : Type) :=
  | Returns (x : A) (s : spu_thread)
  | Escapes (s : spu_thread)
  | Throws.
#[global] Arguments Returns {A} x s.
#[global] Arguments Escapes {A} s.
#[global] Arguments Throws {A}.

Definition after_call {A} (c : call A) (k : A -> spu_thread -> result) : result :=
  match c with
  | Returns x s => k x s
  | Escapes s => Escaped s
  | Throws => Throw
  end.

(** The floating-point intrinsics of the processor, on vectors of four singles
    ([ps]) or two doubles ([pd]): those of two operands and of one. *)
Inductive fp_op2 :=
  | ADD_PS | SUB_PS | MUL_PS | MAX_PS | CMPEQ_PS | CMPNEQ_PS | CMPLT_PS | CMPGE_PS | CMPUNORD_PS | ADD_PD | SUB_PD | MUL_PD.

Inductive fp_op1 := CVTEPI32_PS | CVTTPS_EPI32 | CVTPS_PD | CVTPD_PS.

Record fpu := mkFpu { fp2 : fp_op2 -> Z -> Z -> Z; fp1 : fp_op1 -> Z -> Z }.

(** What the interpreter depends on: the channel and event functions, the
    MFC queue, whether the configured decoder supports interrupts, the
    instruction set, and the floating-point unit. *)
Record env := mkEnv {
  simd : isa;
  intr_decoder : bool;
  stop_and_signal : Z -> spu_thread -> call bool;
  get_ch_value : Z -> spu_thread -> call Z;
  get_ch_count : Z -> spu_thread -> Z;
  set_ch_value : Z -> Z -> spu_thread -> call bool;
  get_events_count : spu_thread -> bool * spu_thread;
  do_mfc : spu_thread -> spu_thread;
  check_state : spu_thread -> call bool;
  fp : fpu
}.

(** ** Interrupts *)

(** [cpu_flag::pending]. *)
Definition pending : Z := Z.shiftl 1 10.

(** [SPU_EVENT_INTR_BUSY_CHECK]: the implemented events but
    [SPU_EVENT_SN]. *)
Definition SPU_EVENT_INTR_BUSY_CHECK : Z :=
  Z.ldiff (0x400 ||| 0x20 ||| 0x2 ||| 0x200 ||| 0x100) 0x2.

(** [spu_thread::set_interrupt_status]; [None] is the exception. *)
Definition set_interrupt_status (ev : env) (enable : bool) (s : spu_thread) : option spu_thread :=
  if enable && negb (ch_mask s &&& SPU_EVENT_INTR_BUSY_CHECK =? 0) then
    if negb (intr_decoder ev) then None
    else Some (with_intr enable (with_state (state s ||| pending) s))
  else Some (with_intr enable s).

(** [spu_thread::check_mfc_interrupts]. *)
Definition check_mfc_interrupts (next_pc : Z) (s : spu_thread) : bool * spu_thread :=
  if ch_count s && interrupts_enabled s then
    let br := ls_ref 4 (ls s) 0 in
    let target := if br &&& 0xfd80007f =? 0x30000000 then (br >>> 5) &&& 0x3fffc else 0 in
    (true, with_pc target (with_srr0 next_pc (with_intr false s)))
  else (false, s).

(** [spu_interpreter::set_interrupt_status]. *)
Definition op_interrupt_status (ev : env) (op : Z) (s : spu_thread) : option spu_thread :=
  let after (o : option spu_thread) :=
    s ← o;
    let '(fired, s1) := check_mfc_interrupts (pc s) s in
    Some (if fired && negb (state s1 &&& pending =? 0) then do_mfc ev s1 else s1) in
  if negb (SpuOp.e op =? 0) then
    if negb (SpuOp.d op =? 0) then None else after (set_interrupt_status ev true s)
  else if negb (SpuOp.d op =? 0) then after (set_interrupt_status ev false s)
  else after (Some s).

(** ** Well-formed threads *)

Record wf_spu (s : spu_thread) : Prop := {
  wf_len : length (gpr s) = 128%nat;
  wf_gpr : Forall (urange 128) (gpr s);
  wf_pc : urange 32 (pc s) /\ pc s mod 4 = 0;
  wf_srr0 : urange 32 (srr0 s) /\ srr0 s mod 4 = 0;
  wf_ls : forall a, urange 8 (ls s a);
  wf_state : urange 32 (state s)
}.

(** The register fields. *)
Lemma reg_field i raw : 0 <= i <= 25 -> urange 7 (SpuOp.bf_t_u i 7 raw).
Proof. intros. apply extract_u_range. lia. Qed.

Lemma rt_range op : urange 7 (SpuOp.rt op). Proof. apply reg_field. lia. Qed.
Lemma rc_range op : urange 7 (SpuOp.rc op). Proof. apply reg_field. lia. Qed.
Lemma spu_ra_range op : urange 7 (SpuOp.ra op). Proof. apply reg_field. lia. Qed.
Lemma spu_rb_range op : urange 7 (SpuOp.rb op). Proof. apply reg_field. lia. Qed.
Lemma rt4_range op : urange 7 (SpuOp.rt4 op). Proof. apply reg_field. lia. Qed.

Create HintDb spu discriminated.
#[export] Hint Resolve rt_range rc_range spu_ra_range spu_rb_range rt4_range wf_len wf_gpr : spu.

Lemma G_range s i : wf_spu s -> urange 7 i -> urange 128 (G s i).
Proof.
  intros Hs Hi. unfold G. apply rget_Forall; [apply Hs|]. rewrite (wf_len _ Hs). unfold urange in Hi.
  change 128%nat with (Z.to_nat 128). lia.
Qed.

Lemma G_setG_eq s i v : wf_spu s -> urange 7 i -> G (setG i v s) i = v.
Proof.
  intros Hs Hi. unfold G, setG. cbn [gpr with_gpr]. apply rget_rset_eq. rewrite (wf_len _ Hs). unfold urange in Hi.
  change 128%nat with (Z.to_nat 128). lia.
Qed.

Lemma G_setG_ne s i j v : urange 7 i -> urange 7 j -> i <> j -> G (setG i v s) j = G s j.
Proof. intros Hi Hj Hn. unfold G, setG. cbn [gpr with_gpr]. apply rget_rset_ne; unfold urange in *; lia. Qed.

Lemma setG_setG s i v w : setG i v (setG i w s) = setG i v s.
Proof. unfold setG, with_gpr. cbn. unfold rset. by rewrite list_insert_insert_eq. Qed.

(** Writing a register back. *)
Lemma setG_same s i : wf_spu s -> urange 7 i -> setG i (G s i) s = s.
Proof.
  intros Hs Hi. unfold setG, G, rset, rget. rewrite list_insert_id; [by destruct s|].
  apply list_lookup_lookup_total_lt. rewrite (wf_len _ Hs). unfold urange in Hi.
  change 128%nat with (Z.to_nat 128). lia.
Qed.

Lemma wf_setG s i v : wf_spu s -> urange 128 v -> wf_spu (setG i v s).
Proof.
  intros Hs Hv. destruct Hs. constructor; cbn; auto.
  - by rewrite rset_length.
  - by apply rset_Forall.
Qed.

Lemma wf_with_pc s v : wf_spu s -> urange 32 v -> v mod 4 = 0 -> wf_spu (with_pc v s).
Proof. intros [] Hv Hm. by constructor. Qed.

Lemma vset_range w v k x : width w -> urange 128 (vset w v k x).
Proof. intros. by apply vmake_range. Qed.

#[export] Hint Resolve G_range wf_setG vset_range : spu.

End Spu.
