(* ===== verification/SpuOps.v ===== *)
(** * SPU instructions

    The interpreter functions of [Emu/Cell/SPUInterpreter.cpp], one definition
    per function template, for x64 builds; the floating-point intrinsics are
    those of the environment.  Loops that assign the elements of
    the target one by one are modelled as such, so that a source register that
    is also the target is read as the code reads it. *)

From stdpp Require Import base numbers list tactics.
From Stdlib Require Import Lia.
From S2P Require Import Prelude Asm Simd SimdOps SpuOpcode SpuThread.
Open Scope Z_scope.
Open Scope mach_scope.

(** ** More intrinsics *)

(** [_mm_set_epi32] and its kin: the elements from the most significant. *)
Definition mm_set_epi (w : Z) (l : list Z) : Z := vmake w (fun i => default 0 (rev l !! Z.to_nat i)).

Definition mm_movemask (w a : Z) : Z :=
  le_radix 1 ((fun i => b2z (slane w a i <? 0)) <$> seqZ 0 (128 / w)).

Definition mm_shufflelo_epi16 (a imm : Z) : Z :=
  vmake 16 (fun i => if i <? 4 then lane 16 a ((imm >>> (2 * i)) &&& 3) else lane 16 a i).

Definition mm_shufflehi_epi16 (a imm : Z) : Z :=
  vmake 16 (fun i => if i <? 4 then lane 16 a i else lane 16 a (4 + ((imm >>> (2 * (i - 4))) &&& 3))).

(** [_mm_loadu_si128] of an array of vectors at a byte offset. *)
Definition mm_loadu (buf : list Z) (off : Z) : Z := u128 (le_radix 128 buf >>> (8 * off)).

(** ** Tables of [SPUThread.cpp] *)

Definition spu_frest_fraction_lut : list Z :=
  [
    0x7ffbe0; 0x7f87a6; 0x70ef72; 0x708b40; 0x638b12; 0x633aea; 0x5792c4; 0x574aa0; 0x4cca7e;
    0x4c9262; 0x430a44; 0x42d62a; 0x3a2e12; 0x39fdfa; 0x3215e4; 0x31f1d2; 0x2aa9be; 0x2a85ac;
    0x23d59a; 0x23bd8e; 0x1d8576; 0x1d8576; 0x17ad5a; 0x17ad5a; 0x124543; 0x124543; 0x0d392d;
    0x0d392d; 0x08851a; 0x08851a; 0x041d07; 0x041d07
  ].

Definition spu_frest_exponent_lut : list Z :=
  [
    0x7f800000; 0x7e000000; 0x7d800000; 0x7d000000; 0x7c800000; 0x7c000000; 0x7b800000;
    0x7b000000; 0x7a800000; 0x7a000000; 0x79800000; 0x79000000; 0x78800000; 0x78000000;
    0x77800000; 0x77000000; 0x76800000; 0x76000000; 0x75800000; 0x75000000; 0x74800000;
    0x74000000; 0x73800000; 0x73000000; 0x72800000; 0x72000000; 0x71800000; 0x71000000;
    0x70800000; 0x70000000; 0x6f800000; 0x6f000000; 0x6e800000; 0x6e000000; 0x6d800000;
    0x6d000000; 0x6c800000; 0x6c000000; 0x6b800000; 0x6b000000; 0x6a800000; 0x6a000000;
    0x69800000; 0x69000000; 0x68800000; 0x68000000; 0x67800000; 0x67000000; 0x66800000;
    0x66000000; 0x65800000; 0x65000000; 0x64800000; 0x64000000; 0x63800000; 0x63000000;
    0x62800000; 0x62000000; 0x61800000; 0x61000000; 0x60800000; 0x60000000; 0x5f800000;
    0x5f000000; 0x5e800000; 0x5e000000; 0x5d800000; 0x5d000000; 0x5c800000; 0x5c000000;
    0x5b800000; 0x5b000000; 0x5a800000; 0x5a000000; 0x59800000; 0x59000000; 0x58800000;
    0x58000000; 0x57800000; 0x57000000; 0x56800000; 0x56000000; 0x55800000; 0x55000000;
    0x54800000; 0x54000000; 0x53800000; 0x53000000; 0x52800000; 0x52000000; 0x51800000;
    0x51000000; 0x50800000; 0x50000000; 0x4f800000; 0x4f000000; 0x4e800000; 0x4e000000;
    0x4d800000; 0x4d000000; 0x4c800000; 0x4c000000; 0x4b800000; 0x4b000000; 0x4a800000;
    0x4a000000; 0x49800000; 0x49000000; 0x48800000; 0x48000000; 0x47800000; 0x47000000;
    0x46800000; 0x46000000; 0x45800000; 0x45000000; 0x44800000; 0x44000000; 0x43800000;
    0x43000000; 0x42800000; 0x42000000; 0x41800000; 0x41000000; 0x40800000; 0x40000000;
    0x3f800000; 0x3f000000; 0x3e800000; 0x3e000000; 0x3d800000; 0x3d000000; 0x3c800000;
    0x3c000000; 0x3b800000; 0x3b000000; 0x3a800000; 0x3a000000; 0x39800000; 0x39000000;
    0x38800000; 0x38000000; 0x37800000; 0x37000000; 0x36800000; 0x36000000; 0x35800000;
    0x35000000; 0x34800000; 0x34000000; 0x33800000; 0x33000000; 0x32800000; 0x32000000;
    0x31800000; 0x31000000; 0x30800000; 0x30000000; 0x2f800000; 0x2f000000; 0x2e800000;
    0x2e000000; 0x2d800000; 0x2d000000; 0x2c800000; 0x2c000000; 0x2b800000; 0x2b000000;
    0x2a800000; 0x2a000000; 0x29800000; 0x29000000; 0x28800000; 0x28000000; 0x27800000;
    0x27000000; 0x26800000; 0x26000000; 0x25800000; 0x25000000; 0x24800000; 0x24000000;
    0x23800000; 0x23000000; 0x22800000; 0x22000000; 0x21800000; 0x21000000; 0x20800000;
    0x20000000; 0x1f800000; 0x1f000000; 0x1e800000; 0x1e000000; 0x1d800000; 0x1d000000;
    0x1c800000; 0x1c000000; 0x1b800000; 0x1b000000; 0x1a800000; 0x1a000000; 0x19800000;
    0x19000000; 0x18800000; 0x18000000; 0x17800000; 0x17000000; 0x16800000; 0x16000000;
    0x15800000; 0x15000000; 0x14800000; 0x14000000; 0x13800000; 0x13000000; 0x12800000;
    0x12000000; 0x11800000; 0x11000000; 0x10800000; 0x10000000; 0x0f800000; 0x0f000000;
    0x0e800000; 0x0e000000; 0x0d800000; 0x0d000000; 0x0c800000; 0x0c000000; 0x0b800000;
    0x0b000000; 0x0a800000; 0x0a000000; 0x09800000; 0x09000000; 0x08800000; 0x08000000;
    0x07800000; 0x07000000; 0x06800000; 0x06000000; 0x05800000; 0x05000000; 0x04800000;
    0x04000000; 0x03800000; 0x03000000; 0x02800000; 0x02000000; 0x01800000; 0x01000000;
    0x00800000; 0x00000000; 0x00000000; 0x00000000
  ].

Definition spu_frsqest_fraction_lut : list Z :=
  [
    0x350160; 0x34e954; 0x2f993d; 0x2f993d; 0x2aa523; 0x2aa523; 0x26190d; 0x26190d; 0x21e4f9;
    0x21e4f9; 0x1e00e9; 0x1e00e9; 0x1a5cd9; 0x1a5cd9; 0x16f8cb; 0x16f8cb; 0x13ccc0; 0x13ccc0;
    0x10ccb3; 0x10ccb3; 0x0e00aa; 0x0e00aa; 0x0b58a1; 0x0b58a1; 0x08d498; 0x08d498; 0x067491;
    0x067491; 0x043089; 0x043089; 0x020c83; 0x020c83; 0x7ffdf4; 0x7fd1de; 0x7859c8; 0x783dba;
    0x71559c; 0x71559c; 0x6ae57c; 0x6ae57c; 0x64f561; 0x64f561; 0x5f7149; 0x5f7149; 0x5a4d33;
    0x5a4d33; 0x55811f; 0x55811f; 0x51050f; 0x51050f; 0x4cc8fe; 0x4cc8fe; 0x48d0f0; 0x48d0f0;
    0x4510e4; 0x4510e4; 0x4180d7; 0x4180d7; 0x3e24cc; 0x3e24cc; 0x3af4c3; 0x3af4c3; 0x37e8ba;
    0x37e8ba
  ].

Definition spu_frsqest_exponent_lut : list Z :=
  [
    0x7f800000; 0x5e800000; 0x5e800000; 0x5e000000; 0x5e000000; 0x5d800000; 0x5d800000;
    0x5d000000; 0x5d000000; 0x5c800000; 0x5c800000; 0x5c000000; 0x5c000000; 0x5b800000;
    0x5b800000; 0x5b000000; 0x5b000000; 0x5a800000; 0x5a800000; 0x5a000000; 0x5a000000;
    0x59800000; 0x59800000; 0x59000000; 0x59000000; 0x58800000; 0x58800000; 0x58000000;
    0x58000000; 0x57800000; 0x57800000; 0x57000000; 0x57000000; 0x56800000; 0x56800000;
    0x56000000; 0x56000000; 0x55800000; 0x55800000; 0x55000000; 0x55000000; 0x54800000;
    0x54800000; 0x54000000; 0x54000000; 0x53800000; 0x53800000; 0x53000000; 0x53000000;
    0x52800000; 0x52800000; 0x52000000; 0x52000000; 0x51800000; 0x51800000; 0x51000000;
    0x51000000; 0x50800000; 0x50800000; 0x50000000; 0x50000000; 0x4f800000; 0x4f800000;
    0x4f000000; 0x4f000000; 0x4e800000; 0x4e800000; 0x4e000000; 0x4e000000; 0x4d800000;
    0x4d800000; 0x4d000000; 0x4d000000; 0x4c800000; 0x4c800000; 0x4c000000; 0x4c000000;
    0x4b800000; 0x4b800000; 0x4b000000; 0x4b000000; 0x4a800000; 0x4a800000; 0x4a000000;
    0x4a000000; 0x49800000; 0x49800000; 0x49000000; 0x49000000; 0x48800000; 0x48800000;
    0x48000000; 0x48000000; 0x47800000; 0x47800000; 0x47000000; 0x47000000; 0x46800000;
    0x46800000; 0x46000000; 0x46000000; 0x45800000; 0x45800000; 0x45000000; 0x45000000;
    0x44800000; 0x44800000; 0x44000000; 0x44000000; 0x43800000; 0x43800000; 0x43000000;
    0x43000000; 0x42800000; 0x42800000; 0x42000000; 0x42000000; 0x41800000; 0x41800000;
    0x41000000; 0x41000000; 0x40800000; 0x40800000; 0x40000000; 0x40000000; 0x3f800000;
    0x3f800000; 0x3f000000; 0x3f000000; 0x3e800000; 0x3e800000; 0x3e000000; 0x3e000000;
    0x3d800000; 0x3d800000; 0x3d000000; 0x3d000000; 0x3c800000; 0x3c800000; 0x3c000000;
    0x3c000000; 0x3b800000; 0x3b800000; 0x3b000000; 0x3b000000; 0x3a800000; 0x3a800000;
    0x3a000000; 0x3a000000; 0x39800000; 0x39800000; 0x39000000; 0x39000000; 0x38800000;
    0x38800000; 0x38000000; 0x38000000; 0x37800000; 0x37800000; 0x37000000; 0x37000000;
    0x36800000; 0x36800000; 0x36000000; 0x36000000; 0x35800000; 0x35800000; 0x35000000;
    0x35000000; 0x34800000; 0x34800000; 0x34000000; 0x34000000; 0x33800000; 0x33800000;
    0x33000000; 0x33000000; 0x32800000; 0x32800000; 0x32000000; 0x32000000; 0x31800000;
    0x31800000; 0x31000000; 0x31000000; 0x30800000; 0x30800000; 0x30000000; 0x30000000;
    0x2f800000; 0x2f800000; 0x2f000000; 0x2f000000; 0x2e800000; 0x2e800000; 0x2e000000;
    0x2e000000; 0x2d800000; 0x2d800000; 0x2d000000; 0x2d000000; 0x2c800000; 0x2c800000;
    0x2c000000; 0x2c000000; 0x2b800000; 0x2b800000; 0x2b000000; 0x2b000000; 0x2a800000;
    0x2a800000; 0x2a000000; 0x2a000000; 0x29800000; 0x29800000; 0x29000000; 0x29000000;
    0x28800000; 0x28800000; 0x28000000; 0x28000000; 0x27800000; 0x27800000; 0x27000000;
    0x27000000; 0x26800000; 0x26800000; 0x26000000; 0x26000000; 0x25800000; 0x25800000;
    0x25000000; 0x25000000; 0x24800000; 0x24800000; 0x24000000; 0x24000000; 0x23800000;
    0x23800000; 0x23000000; 0x23000000; 0x22800000; 0x22800000; 0x22000000; 0x22000000;
    0x21800000; 0x21800000; 0x21000000; 0x21000000; 0x20800000; 0x20800000; 0x20000000;
    0x20000000; 0x1f800000; 0x1f800000; 0x1f000000
  ].

Module spu_interpreter.
Import Spu SpuOp.

Definition instr := spu_thread -> Z -> result.

(** The shapes of the register instructions: [gpr[rt]] from [gpr[ra]] and
    [gpr[rb]], from [gpr[ra]], from the word only, and with the old value of
    the target. *)
Definition rr (f : Z -> Z -> Z) : instr :=
  fun s op => Ret true (setG (rt op) (f (G s (ra op)) (G s (rb op))) s).

Definition r1 (f : Z -> Z -> Z) : instr :=
  fun s op => Ret true (setG (rt op) (f op (G s (ra op))) s).

Definition imm (f : Z -> Z) : instr := fun s op => Ret true (setG (rt op) (f op) s).

Definition rrt (f : Z -> Z -> Z -> Z) : instr :=
  fun s op => Ret true (setG (rt op) (f (G s (ra op)) (G s (rb op)) (G s (rt op))) s).

Definition rrrr (f : Z -> Z -> Z -> Z) : instr :=
  fun s op => Ret true (setG (rt4 op) (f (G s (ra op)) (G s (rb op)) (G s (rc op))) s).

(** The preferred slots: [_u32[3]], [_s32[3]] and [_u16[6]]. *)
Definition word3 (v : Z) : Z := lane 32 v 3.

Definition sword3 (v : Z) : Z := slane 32 v 3.

Definition half6 (v : Z) : Z := lane 16 v 6.

(** ** No operation *)

Definition nop : instr := fun s _ => Ret true s.

Definition LNOP : instr := nop.

Definition NOP : instr := nop.

Definition SYNC : instr := nop.

Definition DSYNC : instr := nop.

Definition MTSPR : instr := nop.

Definition FSCRWR : instr := nop.

Definition HBR : instr := nop.

Definition HBRA : instr := nop.

Definition HBRR : instr := nop.

(** Unknown and unimplemented instructions log and return false. *)
Definition unimplemented : instr := fun s _ => Ret false s.

Definition UNK : instr := unimplemented.

Definition DFCGT : instr := unimplemented.

Definition DFCMGT : instr := unimplemented.

Definition DFTSV : instr := unimplemented.

Definition DFCEQ : instr := unimplemented.

Definition DFCMEQ : instr := unimplemented.

Definition MFSPR : instr := imm (fun _ => 0).

Definition FSCRRD : instr := imm (fun _ => 0).

(** ** Channels *)

(** After a channel function: stop with the address advanced when a state
    flag is set. *)
Definition after_channel (s : spu_thread) : result :=
  if state s =? 0 then Ret true s else Ret false (with_pc (u32 (pc s + 4)) s).

Definition STOP (ev : env) : instr := fun s op =>
  after_call (stop_and_signal ev (op &&& 0x3fff) s) (fun advance_pc s1 =>
    if advance_pc then after_channel s1 else Ret false s1).

Definition STOPD (ev : env) : instr := fun s _ =>
  after_call (stop_and_signal ev 0x3fff s) Ret.

Definition RDCH (ev : env) : instr := fun s op =>
  after_call (get_ch_value ev (ra op) s) (fun result s1 =>
    if result <? 0 then Ret false s1 else after_channel (setG (rt op) (from32r (u32 result)) s1)).

Definition RCHCNT (ev : env) : instr := fun s op =>
  Ret true (setG (rt op) (from32r (get_ch_count ev (ra op) s)) s).

Definition WRCH (ev : env) : instr := fun s op =>
  after_call (set_ch_value ev (ra op) (word3 (G s (rt op))) s) (fun advance_pc s1 =>
    if advance_pc then after_channel s1 else Ret false s1).

(** ** Additions and subtractions *)

Definition SF : instr := rr (fun a b => gv_sub32 b a).

Definition SFH : instr := rr (fun a b => gv_sub16 b a).

Definition A : instr := rr (fun a b => gv_add32 a b).

Definition AH : instr := rr (fun a b => gv_add16 a b).

Definition BG (m : isa) : instr := rr (fun a b => mm_add_epi 32 (gv_gtu32 m a b) (mm_set1_epi 32 1)).

Definition CG : instr :=
  rr (fun a b =>
    let a := mm_xor a (mm_set1_epi 32 0x7fffffff) in
    let b := mm_xor b (mm_set1_epi 32 0x80000000) in
    mm_srli_epi 32 (mm_cmpgt_epi 32 b a) 31).

Definition ADDX : instr := rrt (fun a b t => gv_add32 (gv_add32 a b) (v_and t (mm_set1_epi 32 1))).

Definition SFX : instr := rrt (fun a b t => gv_sub32 (gv_sub32 b a) (gv_andn t (mm_set1_epi 32 1))).

(** [for (i = 0; i < 4; i++) gpr[rt]._u32[i] = f(gpr[ra], gpr[rb], gpr[rt])]. *)
Definition word_loop (f : Z -> Z -> Z -> Z -> Z) (s : spu_thread) (op : Z) : spu_thread :=
  foldl (fun s i => setLane 32 (rt op) i (f i (G s (ra op)) (G s (rb op)) (G s (rt op))) s) s [0; 1; 2; 3].

Definition CGX : instr := fun s op =>
  Ret true (word_loop (fun i a b t => u64 ((lane 32 t i &&& 1) + lane 32 a i + lane 32 b i) >>> 32) s op).

Definition BGX : instr := fun s op =>
  Ret true (word_loop (fun i a b t =>
    let result := s64 (u64 (lane 32 b i - lane 32 a i - (1 - (lane 32 t i &&& 1)))) in
    b2z (0 <=? result)) s op).

Definition AI : instr := r1 (fun op a => mm_add_epi 32 (mm_set1_epi 32 (si10 op)) a).

Definition AHI : instr := r1 (fun op a => mm_add_epi 16 (mm_set1_epi 16 (si10 op)) a).

Definition SFI : instr := r1 (fun op a => mm_sub_epi 32 (mm_set1_epi 32 (si10 op)) a).

Definition SFHI : instr := r1 (fun op a => mm_sub_epi 16 (mm_set1_epi 16 (si10 op)) a).

(** ** Logic *)

Definition AND : instr := rr (fun a b => v_and a b).

Definition ANDC : instr := rr (fun a b => gv_andn b a).

Definition OR : instr := rr (fun a b => v_or a b).

Definition ORC : instr := rr (fun a b => v_or a (v_not b)).

Definition XOR : instr := rr (fun a b => v_xor a b).

Definition NAND : instr := rr (fun a b => v_not (v_and a b)).

Definition NOR : instr := rr (fun a b => v_not (v_or a b)).

Definition EQV : instr := rr (fun a b => v_not (v_xor a b)).

Definition ANDI : instr := r1 (fun op a => mm_and a (mm_set1_epi 32 (si10 op))).

Definition ANDHI : instr := r1 (fun op a => mm_and a (mm_set1_epi 16 (si10 op))).

Definition ANDBI : instr := r1 (fun op a => mm_and a (mm_set1_epi 8 (i8 op))).

Definition ORI : instr := r1 (fun op a => mm_or a (mm_set1_epi 32 (si10 op))).

Definition ORHI : instr := r1 (fun op a => mm_or a (mm_set1_epi 16 (si10 op))).

Definition ORBI : instr := r1 (fun op a => mm_or a (mm_set1_epi 8 (i8 op))).

Definition XORI : instr := r1 (fun op a => mm_xor a (mm_set1_epi 32 (si10 op))).

Definition XORHI : instr := r1 (fun op a => mm_xor a (mm_set1_epi 16 (si10 op))).

Definition XORBI : instr := r1 (fun op a => mm_xor a (mm_set1_epi 8 (i8 op))).

Definition SELB : instr := rrrr (fun a b c => v_or (v_and c b) (gv_andn c a)).

Definition ORX : instr := r1 (fun op a => from32r (lane 32 a 0 ||| lane 32 a 1 ||| lane 32 a 2 ||| lane 32 a 3)).

(** ** Constants *)

Definition IL : instr := imm (fun op => mm_set1_epi 32 (si16 op)).

Definition ILHU : instr := imm (fun op => mm_set1_epi 32 (Z.shiftl (i16 op) 16)).

Definition ILH : instr := imm (fun op => mm_set1_epi 16 (i16 op)).

Definition ILA : instr := imm (fun op => mm_set1_epi 32 (i18 op)).

Definition IOHL : instr := fun s op =>
  Ret true (setG (rt op) (mm_or (G s (rt op)) (mm_set1_epi 32 (i16 op))) s).

(** The byte masks [_mm_set_epi8(-128, 64, ..., 1, -128, ..., 1)]. *)
Definition byte_bits : Z := mm_set_epi 8 [-128; 64; 32; 16; 8; 4; 2; 1; -128; 64; 32; 16; 8; 4; 2; 1].

Definition FSMBI : instr :=
  imm (fun op =>
    let vsrc := mm_set_epi 32 [0; 0; 0; i16 op] in
    let bits := mm_shuffle_epi32 (mm_shufflelo_epi16 (mm_unpacklo_epi 8 vsrc vsrc) 0x50) 0x50 in
    mm_cmpeq_epi 8 (mm_and bits byte_bits) byte_bits).

(** ** Gather and form select masks *)

Definition GB : instr := r1 (fun _ a => from32r (mm_movemask 32 (mm_slli_epi 32 a 31))).

Definition GBH : instr :=
  r1 (fun _ a => from32r (mm_movemask 8 (mm_packs_epi 16 (mm_slli_epi 16 a 15) mm_setzero))).

Definition GBB : instr := r1 (fun _ a => from32r (mm_movemask 8 (mm_slli_epi 64 a 7))).

Definition FSM : instr :=
  r1 (fun _ a =>
    let bits := mm_shuffle_epi32 a 0xff in
    let mask := mm_set_epi 32 [8; 4; 2; 1] in
    mm_cmpeq_epi 32 (mm_and bits mask) mask).

Definition FSMH : instr :=
  r1 (fun _ vsrc =>
    let bits := mm_shuffle_epi32 (mm_unpackhi_epi 16 vsrc vsrc) 0xaa in
    let mask := mm_set_epi 16 [128; 64; 32; 16; 8; 4; 2; 1] in
    mm_cmpeq_epi 16 (mm_and bits mask) mask).

Definition FSMB : instr :=
  r1 (fun _ vsrc =>
    let bits := mm_shuffle_epi32 (mm_shufflehi_epi16 (mm_unpackhi_epi 8 vsrc vsrc) 0x50) 0xfa in
    mm_cmpeq_epi 8 (mm_and bits byte_bits) byte_bits).

(** ** Bytes and counts *)

Definition ABSDB : instr := rr (fun a b => gv_sub8 (gv_maxu8 a b) (gv_minu8 a b)).

Definition AVGB : instr := rr (fun a b => mm_avg_epu 8 a b).

Definition SUMB : instr :=
  rr (fun a b =>
    let m1 := mm_set1_epi 16 0xff in
    let m2 := mm_set1_epi 32 0xffff in
    let a1 := mm_srli_epi 16 a 8 in
    let a2 := mm_and a m1 in
    let b1 := mm_srli_epi 16 b 8 in
    let b2 := mm_and b m1 in
    let sa := mm_add_epi 16 a1 a2 in
    let sb := mm_add_epi 16 b1 b2 in
    let s2 := mm_and sa m2 in
    let s1 := mm_srli_epi 32 sa 16 in
    let s4 := mm_andnot m2 sb in
    let s3 := mm_slli_epi 32 sb 16 in
    mm_or (mm_add_epi 16 s1 s2) (mm_add_epi 16 s3 s4)).

Definition countl_zero32 (x : Z) : Z := if x =? 0 then 32 else 31 - Z.log2 x.

Definition CLZ : instr := fun s op =>
  Ret true (word_loop (fun i a _ _ => countl_zero32 (lane 32 a i)) s op).

Definition CNTB : instr :=
  r1 (fun _ a =>
    let mask1 := mm_set1_epi 8 0x55 in
    let sum1 := mm_add_epi 8 (mm_and (mm_srli_epi 64 a 1) mask1) (mm_and a mask1) in
    let mask2 := mm_set1_epi 8 0x33 in
    let sum2 := mm_add_epi 8 (mm_and (mm_srli_epi 64 sum1 2) mask2) (mm_and sum1 mask2) in
    let mask3 := mm_set1_epi 8 0x0f in
    mm_add_epi 8 (mm_and (mm_srli_epi 64 sum2 4) mask3) (mm_and sum2 mask3)).

Definition XSBH : instr := r1 (fun _ a => mm_srai_epi 16 (mm_slli_epi 16 a 8) 8).

Definition XSHW : instr := r1 (fun _ a => mm_srai_epi 32 (mm_slli_epi 32 a 16) 16).

Definition XSWD : instr := fun s op =>
  let s1 := setLane 64 (rt op) 0 (slane 32 (G s (ra op)) 0) s in
  Ret true (setLane 64 (rt op) 1 (slane 32 (G s1 (ra op)) 2) s1).

(** ** Compares *)

Definition CEQ : instr := rr (fun a b => mm_cmpeq_epi 32 a b).

Definition CGT : instr := rr (fun a b => mm_cmpgt_epi 32 a b).

Definition CEQH : instr := rr (fun a b => mm_cmpeq_epi 16 a b).

Definition CGTH : instr := rr (fun a b => mm_cmpgt_epi 16 a b).

Definition CEQB : instr := rr (fun a b => mm_cmpeq_epi 8 a b).

Definition CGTB : instr := rr (fun a b => mm_cmpgt_epi 8 a b).

Definition CLGT (m : isa) : instr := rr (gv_gtu32 m).

Definition CLGTH (m : isa) : instr := rr (gv_gtu16 m).

Definition CLGTB : instr := rr gv_gtu8.

Definition CEQI : instr := r1 (fun op a => mm_cmpeq_epi 32 a (mm_set1_epi 32 (si10 op))).

Definition CGTI : instr := r1 (fun op a => mm_cmpgt_epi 32 a (mm_set1_epi 32 (si10 op))).

Definition CEQHI : instr := r1 (fun op a => mm_cmpeq_epi 16 a (mm_set1_epi 16 (si10 op))).

Definition CGTHI : instr := r1 (fun op a => mm_cmpgt_epi 16 a (mm_set1_epi 16 (si10 op))).

Definition CEQBI : instr := r1 (fun op a => mm_cmpeq_epi 8 a (mm_set1_epi 8 (i8 op))).

Definition CGTBI : instr := r1 (fun op a => mm_cmpgt_epi 8 a (mm_set1_epi 8 (i8 op))).

Definition CLGTI : instr :=
  r1 (fun op a =>
    mm_cmpgt_epi 32 (mm_xor a (mm_set1_epi 32 0x80000000)) (mm_set1_epi 32 (u32 (si10 op) ^^^ 0x80000000))).

Definition CLGTHI : instr :=
  r1 (fun op a =>
    mm_cmpgt_epi 16 (mm_xor a (mm_set1_epi 32 0x80008000)) (mm_set1_epi 16 (si10 op ^^^ 0x8000))).

Definition CLGTBI : instr :=
  r1 (fun op a => mm_cmpgt_epi 8 (mm_xor a (mm_set1_epi 32 0x80808080)) (mm_set1_epi 8 (i8 op ^^^ 0x80))).

(** ** Conditional halts *)

Definition halt_if (c : bool) (s : spu_thread) : result := if c then Escaped s else Ret true s.

Definition HEQ : instr := fun s op => halt_if (sword3 (G s (ra op)) =? sword3 (G s (rb op))) s.

Definition HEQI : instr := fun s op => halt_if (sword3 (G s (ra op)) =? si10 op) s.

Definition HGT : instr := fun s op => halt_if (sword3 (G s (rb op)) <? sword3 (G s (ra op))) s.

Definition HGTI : instr := fun s op => halt_if (si10 op <? sword3 (G s (ra op))) s.

Definition HLGT : instr := fun s op => halt_if (word3 (G s (rb op)) <? word3 (G s (ra op))) s.

Definition HLGTI : instr := fun s op => halt_if (u32 (si10 op) <? word3 (G s (ra op))) s.

(** ** Products *)

Definition MPY : instr :=
  rr (fun a b => let mask := mm_set1_epi 32 0xffff in mm_madd_epi16 (mm_and a mask) (mm_and b mask)).

Definition MPYU : instr :=
  rr (fun a b => mm_or (mm_slli_epi 32 (mm_mulhi_epu16 a b) 16)
                       (mm_and (mm_mullo_epi 16 a b) (mm_set1_epi 32 0xffff))).

Definition MPYH : instr := rr (fun a b => mm_slli_epi 32 (mm_mullo_epi 16 (mm_srli_epi 32 a 16) b) 16).

Definition MPYHH : instr := rr (fun a b => mm_madd_epi16 (mm_srli_epi 32 a 16) (mm_srli_epi 32 b 16)).

Definition mpyhhu (a b : Z) : Z :=
  mm_or (mm_srli_epi 32 (mm_mullo_epi 16 a b) 16)
        (mm_and (mm_mulhi_epu16 a b) (mm_set1_epi 32 0xffff0000)).

Definition MPYHHU : instr := rr mpyhhu.

Definition MPYS : instr := rr (fun a b => mm_srai_epi 32 (mm_slli_epi 32 (mm_mulhi_epi16 a b) 16) 16).

Definition MPYHHA : instr :=
  rrt (fun a b t => mm_add_epi 32 t (mm_madd_epi16 (mm_srli_epi 32 a 16) (mm_srli_epi 32 b 16))).

Definition MPYHHAU : instr := rrt (fun a b t => mm_add_epi 32 t (mpyhhu a b)).

Definition MPYA : instr :=
  rrrr (fun a b c =>
    let mask := mm_set1_epi 32 0xffff in mm_add_epi 32 c (mm_madd_epi16 (mm_and a mask) (mm_and b mask))).

Definition MPYI : instr := r1 (fun op a => mm_madd_epi16 a (mm_set1_epi 32 (si10 op &&& 0xffff))).

Definition MPYUI : instr :=
  r1 (fun op a =>
    let i := mm_set1_epi 32 (si10 op &&& 0xffff) in
    mm_or (mm_slli_epi 32 (mm_mulhi_epu16 a i) 16) (mm_mullo_epi 16 a i)).

(** ** Element shifts and rotates *)

Definition ROT : instr := rr (vzip 32 rol32).

Definition ROTM : instr := rr (vzip 32 (fun a b => a >>> (u32 (0 - b) &&& 0x3f))).

Definition ROTMA : instr :=
  rr (fun a b => vmake 32 (fun i => slane 32 a i >>> (u32 (0 - lane 32 b i) &&& 0x3f))).

Definition SHL : instr := rr (vzip 32 (fun a b => u64 (Z.shiftl a (b &&& 0x3f)))).

Definition ROTH : instr := rr (vzip 16 rol16).

Definition ROTHM : instr := rr (vzip 16 (fun a b => a >>> ((0 - b) &&& 0x1f))).

Definition ROTMAH : instr :=
  rr (fun a b => vmake 16 (fun i => slane 16 a i >>> ((0 - lane 16 b i) &&& 0x1f))).

Definition SHLH : instr := rr (vzip 16 (fun a b => u32 (Z.shiftl a (b &&& 0x1f)))).

Definition ROTI : instr :=
  r1 (fun op a => let n := i7 op &&& 0x1f in mm_or (mm_slli_epi 32 a n) (mm_srli_epi 32 a (32 - n))).

Definition ROTMI : instr := r1 (fun op a => mm_srli_epi 32 a (u32 (0 - i7 op) &&& 0x3f)).

Definition ROTMAI : instr := r1 (fun op a => mm_srai_epi 32 a (u32 (0 - i7 op) &&& 0x3f)).

Definition SHLI : instr := r1 (fun op a => mm_slli_epi 32 a (i7 op &&& 0x3f)).

Definition ROTHI : instr :=
  r1 (fun op a => let n := i7 op &&& 0xf in mm_or (mm_slli_epi 16 a n) (mm_srli_epi 16 a (16 - n))).

Definition ROTHMI : instr := r1 (fun op a => mm_srli_epi 16 a (u32 (0 - i7 op) &&& 0x1f)).

Definition ROTMAHI : instr := r1 (fun op a => mm_srai_epi 16 a (u32 (0 - i7 op) &&& 0x1f)).

Definition SHLHI : instr := r1 (fun op a => mm_slli_epi 16 a (i7 op &&& 0x1f)).

(** ** Quadword shifts and rotates *)

(** The buffers [{a, a}], [{a, 0, 0}] and [{0, 0, a}], read at an offset. *)
Definition rot_bytes (a n : Z) : Z := mm_loadu [a; a] (16 - n).

Definition rotm_bytes (a n : Z) : Z := mm_loadu [a; 0; 0] n.

Definition shl_bytes (a n : Z) : Z := mm_loadu [0; 0; a] (32 - n).

Definition rot_bits (a n : Z) : Z :=
  mm_or (mm_slli_epi 64 a n) (mm_srli_epi 64 (mm_shuffle_epi32 a 0x4e) (64 - n)).

Definition rotm_bits (a n : Z) : Z :=
  mm_or (mm_srli_epi 64 a n) (mm_slli_epi 64 (mm_srli_si128 a 8) (64 - n)).

Definition shl_bits (a n : Z) : Z :=
  mm_or (mm_slli_epi 64 a n) (mm_srli_epi 64 (mm_slli_si128 a 8) (64 - n)).

Definition ROTQBYBI : instr := rr (fun a b => rot_bytes a ((word3 b >>> 3) &&& 0xf)).

Definition ROTQMBYBI : instr := rr (fun a b => rotm_bytes a (u32 (0 - (word3 b >>> 3)) &&& 0x1f)).

Definition SHLQBYBI : instr := rr (fun a b => shl_bytes a ((word3 b >>> 3) &&& 0x1f)).

Definition ROTQBI : instr := rr (fun a b => rot_bits a (sword3 b &&& 0x7)).

Definition ROTQMBI : instr := rr (fun a b => rotm_bits a (s32 (- sword3 b) &&& 0x7)).

Definition SHLQBI : instr := rr (fun a b => shl_bits a (word3 b &&& 0x7)).

Definition ROTQBY : instr := rr (fun a b => rot_bytes a (word3 b &&& 0xf)).

Definition ROTQMBY : instr := rr (fun a b => rotm_bytes a (u32 (0 - word3 b) &&& 0x1f)).

Definition SHLQBY : instr := rr (fun a b => shl_bytes a (word3 b &&& 0x1f)).

Definition ROTQBII : instr := r1 (fun op a => rot_bits a (i7 op &&& 0x7)).

Definition ROTQMBII : instr := r1 (fun op a => rotm_bits a (u32 (0 - i7 op) &&& 0x7)).

Definition SHLQBII : instr := r1 (fun op a => shl_bits a (i7 op &&& 0x7)).

Definition ROTQBYI : instr := r1 (fun op a => rot_bytes a (i7 op &&& 0xf)).

Definition ROTQMBYI : instr := r1 (fun op a => rotm_bytes a (u32 (0 - i7 op) &&& 0x1f)).

Definition SHLQBYI : instr := r1 (fun op a => shl_bytes a (i7 op &&& 0x1f)).

(** ** Shuffle *)

(** The bytes of [ab] are those of [gpr[rb]] then those of [gpr[ra]]. *)
Definition shufb (a b c : Z) : Z :=
  let x := mm_andnot c (mm_set1_epi 8 0x1f) in
  let ab i := if i <? 16 then lane 8 b i else lane 8 a (i - 16) in
  let res := vmake 8 (fun i => ab (lane 8 x i)) in
  let xc0 := mm_set1_epi 8 (s8 0xc0) in
  let xe0 := mm_set1_epi 8 (s8 0xe0) in
  let cmp0 := mm_cmpgt_epi 8 mm_setzero c in
  let cmp1 := mm_cmpeq_epi 8 (mm_and c xc0) xc0 in
  let cmp2 := mm_cmpeq_epi 8 (mm_and c xe0) xc0 in
  mm_or (mm_andnot cmp0 res) (mm_avg_epu 8 cmp1 cmp2).

Definition SHUFB : instr := rrrr shufb.

(** [optimized_shufb], the assembly for hosts with AVX and for hosts with
    SSSE3: one binding per instruction. *)
Definition shufb_avx (va vb vc : Z) : Z :=
  let v5 := mm_and vc (mm_set1_epi 8 0xe0) in
  let vc := mm_xor vc (mm_set1_epi 8 0x0f) in
  let va := mm_shuffle_epi8 va vc in
  let vt := mm_slli_epi 32 vc 3 in
  let vm := mm_set1_epi 8 0xc0 in
  let v5 := mm_cmpeq_epi 8 v5 vm in
  let vb := mm_shuffle_epi8 vb vc in
  let vc := mm_and vc vm in
  let vb := mm_blendv_epi8 va vb vt in
  let vt := mm_cmpeq_epi 8 vc vm in
  let vt := mm_avg_epu 8 vt v5 in
  mm_or vt vb.

Definition shufb_ssse3 (va vb vc : Z) : Z :=
  let v5 := mm_and vc (mm_set1_epi 8 0xe0) in
  let vm := mm_set1_epi 8 0xc0 in
  let vt := mm_and vc vm in
  let vc := mm_xor vc (mm_set1_epi 8 0x0f) in
  let va := mm_shuffle_epi8 va vc in
  let vb := mm_shuffle_epi8 vb vc in
  let vc := mm_slli_epi 32 vc 3 in
  let v5 := mm_cmpeq_epi 8 v5 vm in
  let vt := mm_cmpeq_epi 8 vt vm in
  let vm := mm_cmpeq_epi 8 vm vm in
  let vc := mm_cmpgt_epi 8 vc vm in
  let va := mm_and va vc in
  let vc := mm_andnot vc vb in
  let vc := mm_or vc va in
  let vt := mm_avg_epu 8 vt v5 in
  mm_or vt vc.

Definition optimized_shufb (has_avx : bool) : instr := rrrr (if has_avx then shufb_avx else shufb_ssse3).

(** ** Insertion masks *)

(** [v128::from64(0x18191A1B1C1D1E1F, 0x1011121314151617)]. *)
Definition insert_base : Z := 0x101112131415161718191a1b1c1d1e1f.

(** The stack pointer test, then [gpr[rt]] and its element [t]. *)
Definition generate_control (w x : Z) (addr : spu_thread -> Z -> Z) : instr := fun s op =>
  if (ra op =? 1) && negb (word3 (G s 1) &&& 0xf =? 0) then Throw
  else
    let t := (Z.lnot (addr s op) &&& (16 - w / 8)) >>> Z.log2 (w / 8) in
    Ret true (setLane w (rt op) t x (setG (rt op) insert_base s)).

Definition addr_x (s : spu_thread) (op : Z) : Z := u32 (word3 (G s (rb op)) + word3 (G s (ra op))).

Definition addr_d (s : spu_thread) (op : Z) : Z := u32 (i7 op + word3 (G s (ra op))).

Definition CBX : instr := generate_control 8 0x03 addr_x.

Definition CHX : instr := generate_control 16 0x0203 addr_x.

Definition CWX : instr := generate_control 32 0x00010203 addr_x.

Definition CDX : instr := generate_control 64 0x0001020304050607 addr_x.

Definition CBD : instr := generate_control 8 0x03 addr_d.

Definition CHD : instr := generate_control 16 0x0203 addr_d.

Definition CWD : instr := generate_control 32 0x00010203 addr_d.

Definition CDD : instr := generate_control 64 0x0001020304050607 addr_d.

(** ** Loads and stores *)

Definition store_q (addr : spu_thread -> Z -> Z) : instr := fun s op =>
  Ret true (with_ls (ls_set 16 (ls s) (addr s op) (G s (rt op))) s).

Definition load_q (addr : spu_thread -> Z -> Z) : instr := fun s op =>
  Ret true (setG (rt op) (ls_ref 16 (ls s) (addr s op)) s).

Definition ea_x (s : spu_thread) (op : Z) : Z := u32 (word3 (G s (ra op)) + word3 (G s (rb op))) &&& 0x3fff0.

Definition ea_d (s : spu_thread) (op : Z) : Z := s32 (sword3 (G s (ra op)) + si10 op * 16) &&& 0x3fff0.

Definition ea_a (s : spu_thread) (op : Z) : Z := spu_ls_target 0 (i16 op).

Definition ea_r (s : spu_thread) (op : Z) : Z := spu_ls_target (pc s) (i16 op).

Definition STQX : instr := store_q ea_x.

Definition STQD : instr := store_q ea_d.

Definition STQA : instr := store_q ea_a.

Definition STQR : instr := store_q ea_r.

Definition LQX : instr := load_q ea_x.

Definition LQD : instr := load_q ea_d.

Definition LQA : instr := load_q ea_a.

Definition LQR : instr := load_q ea_r.

(** ** Branches *)

Definition branch_if (c : bool) (target : Z) (s : spu_thread) : result :=
  if c then Ret false (with_pc target s) else Ret true s.

Definition BRZ : instr := fun s op => branch_if (word3 (G s (rt op)) =? 0) (spu_branch_target (pc s) (i16 op)) s.

Definition BRNZ : instr := fun s op =>
  branch_if (negb (word3 (G s (rt op)) =? 0)) (spu_branch_target (pc s) (i16 op)) s.

Definition BRHZ : instr := fun s op => branch_if (half6 (G s (rt op)) =? 0) (spu_branch_target (pc s) (i16 op)) s.

Definition BRHNZ : instr := fun s op =>
  branch_if (negb (half6 (G s (rt op)) =? 0)) (spu_branch_target (pc s) (i16 op)) s.

Definition BR : instr := fun s op => Ret false (with_pc (spu_branch_target (pc s) (i16 op)) s).

Definition BRA : instr := fun s op => Ret false (with_pc (spu_branch_target 0 (i16 op)) s).

(** The link value [v128::from32r(spu_branch_target(spu.pc + 4))]. *)
Definition link (s : spu_thread) : Z := from32r (spu_branch_target (u32 (pc s + 4)) 0).

Definition BRSL : instr := fun s op =>
  let target := spu_branch_target (pc s) (i16 op) in
  Ret false (with_pc target (setG (rt op) (link s) s)).

Definition BRASL : instr := fun s op =>
  let target := spu_branch_target 0 (i16 op) in
  Ret false (with_pc target (setG (rt op) (link s) s)).

(** A taken indirect branch: the target, then the interrupt bits. *)
Definition jump (ev : env) (op target : Z) (s : spu_thread) : result :=
  match op_interrupt_status ev op (with_pc target s) with
  | Some s1 => Ret false s1
  | None => Throw
  end.

Definition indirect (s : spu_thread) (op : Z) : Z := spu_branch_target (word3 (G s (ra op))) 0.

Definition BIZ (ev : env) : instr := fun s op =>
  if word3 (G s (rt op)) =? 0 then jump ev op (indirect s op) s else Ret true s.

Definition BINZ (ev : env) : instr := fun s op =>
  if negb (word3 (G s (rt op)) =? 0) then jump ev op (indirect s op) s else Ret true s.

Definition BIHZ (ev : env) : instr := fun s op =>
  if half6 (G s (rt op)) =? 0 then jump ev op (indirect s op) s else Ret true s.

Definition BIHNZ (ev : env) : instr := fun s op =>
  if negb (half6 (G s (rt op)) =? 0) then jump ev op (indirect s op) s else Ret true s.

Definition BI (ev : env) : instr := fun s op => jump ev op (indirect s op) s.

Definition BISL (ev : env) : instr := fun s op =>
  let target := indirect s op in jump ev op target (setG (rt op) (link s) s).

Definition IRET (ev : env) : instr := fun s op => jump ev op (srr0 s) s.

Definition BISLED (ev : env) : instr := fun s op =>
  let target := indirect s op in
  let s1 := setG (rt op) (link s) s in
  let '(count, s2) := get_events_count ev s1 in
  if count then jump ev op target s2 else Ret true s2.

(** ** Estimates *)

Definition FREST : instr :=
  r1 (fun _ a =>
    let fraction_index := v_and (mm_srli_epi 32 a 18) (mm_set1_epi 32 0x1f) in
    let exponent_index := v_and (mm_srli_epi 32 a 23) (mm_set1_epi 32 0xff) in
    let sign := v_and a (mm_set1_epi 32 0x80000000) in
    vmake 32 (fun i =>
      spu_frest_fraction_lut !!! Z.to_nat (lane 32 fraction_index i)
      ||| spu_frest_exponent_lut !!! Z.to_nat (lane 32 exponent_index i) ||| lane 32 sign i)).

Definition FRSQEST : instr :=
  r1 (fun _ a =>
    let fraction_index := v_and (mm_srli_epi 32 a 18) (mm_set1_epi 32 0x3f) in
    let exponent_index := v_and (mm_srli_epi 32 a 23) (mm_set1_epi 32 0xff) in
    vmake 32 (fun i =>
      spu_frsqest_fraction_lut !!! Z.to_nat (lane 32 fraction_index i)
      ||| spu_frsqest_exponent_lut !!! Z.to_nat (lane 32 exponent_index i))).

(** ** Floating point *)

Definition mm_add_ps (f : fpu) : Z -> Z -> Z := fp2 f ADD_PS.

Definition mm_sub_ps (f : fpu) : Z -> Z -> Z := fp2 f SUB_PS.

Definition mm_mul_ps (f : fpu) : Z -> Z -> Z := fp2 f MUL_PS.

Definition mm_max_ps (f : fpu) : Z -> Z -> Z := fp2 f MAX_PS.

Definition mm_cmpeq_ps (f : fpu) : Z -> Z -> Z := fp2 f CMPEQ_PS.

Definition mm_cmpneq_ps (f : fpu) : Z -> Z -> Z := fp2 f CMPNEQ_PS.

Definition mm_cmplt_ps (f : fpu) : Z -> Z -> Z := fp2 f CMPLT_PS.

Definition mm_cmpge_ps (f : fpu) : Z -> Z -> Z := fp2 f CMPGE_PS.

Definition mm_cmpunord_ps (f : fpu) : Z -> Z -> Z := fp2 f CMPUNORD_PS.

Definition mm_add_pd (f : fpu) : Z -> Z -> Z := fp2 f ADD_PD.

Definition mm_sub_pd (f : fpu) : Z -> Z -> Z := fp2 f SUB_PD.

Definition mm_mul_pd (f : fpu) : Z -> Z -> Z := fp2 f MUL_PD.

Definition mm_cvtepi32_ps (f : fpu) : Z -> Z := fp1 f CVTEPI32_PS.

Definition mm_cvttps_epi32 (f : fpu) : Z -> Z := fp1 f CVTTPS_EPI32.

Definition mm_cvtps_pd (f : fpu) : Z -> Z := fp1 f CVTPS_PD.

Definition mm_cvtpd_ps (f : fpu) : Z -> Z := fp1 f CVTPD_PS.

Definition mm_shuffle_ps (a b imm : Z) : Z :=
  vmake 32 (fun i => lane 32 (if i <? 2 then a else b) ((imm >>> (2 * i)) &&& 3)).

(** The bits of the single 2^i; below the smallest 0, above the largest
    infinity. *)
Definition f32_exp2 (i : Z) : Z :=
  if i <? -149 then 0 else if i <? -126 then Z.shiftl 1 (i + 149)
  else if i <? 128 then Z.shiftl (i + 127) 23 else 0x7f800000.

(** [g_spu_imm.scale[i]]. *)
Definition spu_scale (i : Z) : Z := mm_set1_epi 32 (f32_exp2 i).

Definition all_exp_bits : Z := mm_set1_epi 32 0x7f800000.

Definition sign_bits : Z := mm_set1_epi 32 0x80000000.

Definition FCGT (f : fpu) : instr :=
  rr (fun a b =>
    let zero := mm_setzero in
    let nan_check_a := mm_cmpunord_ps f a zero in
    let nan_check_b := mm_cmpunord_ps f b zero in
    let last_exp_bit := mm_set1_epi 32 0x00800000 in
    let lowered_a := mm_andnot last_exp_bit a in
    let lowered_b := mm_andnot last_exp_bit b in
    let denorm_check_a := mm_cmpeq_ps f zero (mm_and all_exp_bits a) in
    let denorm_check_b := mm_cmpeq_ps f zero (mm_and all_exp_bits b) in
    let a_final1 := mm_or (mm_and nan_check_a lowered_a) (mm_andnot nan_check_a a) in
    let b_final1 := mm_or (mm_and nan_check_b lowered_b) (mm_andnot nan_check_b b) in
    let final_a := mm_andnot denorm_check_a a_final1 in
    let final_b := mm_andnot denorm_check_b b_final1 in
    mm_cmplt_ps f final_b final_a).

Definition FA (f : fpu) : instr := rr (fun a b => mm_add_ps f a b).

Definition FS (f : fpu) : instr := rr (fun a b => mm_sub_ps f a b).

Definition FM (f : fpu) : instr :=
  rr (fun a b =>
    let zero := mm_setzero in
    let denorm_check_a := mm_cmpeq_ps f zero (mm_and all_exp_bits a) in
    let denorm_check_b := mm_cmpeq_ps f zero (mm_and all_exp_bits b) in
    let denorm_operand_mask := mm_or denorm_check_a denorm_check_b in
    let primary_result := mm_mul_ps f a b in
    let denom_result_mask := mm_cmpeq_ps f zero (mm_and all_exp_bits primary_result) in
    let flushed_result := mm_andnot (mm_or denom_result_mask denorm_operand_mask) primary_result in
    let nan_check := mm_cmpeq_ps f (mm_and primary_result all_exp_bits) all_exp_bits in
    let sign_mask := mm_xor (mm_and sign_bits a) (mm_and sign_bits b) in
    let extended_result := mm_or sign_mask (mm_andnot sign_bits primary_result) in
    let final_extended := mm_andnot denorm_operand_mask extended_result in
    mm_or (mm_andnot nan_check flushed_result) (mm_and nan_check final_extended)).

Definition FCMGT (f : fpu) : instr :=
  rr (fun a b =>
    let zero := mm_setzero in
    let nan_check_a := mm_cmpunord_ps f a zero in
    let nan_check_b := mm_cmpunord_ps f b zero in
    let denorm_check_a := mm_cmpeq_ps f zero (mm_and all_exp_bits a) in
    let denorm_check_b := mm_cmpeq_ps f zero (mm_and all_exp_bits b) in
    let final_a := mm_andnot denorm_check_a a in
    let final_b := mm_andnot denorm_check_b b in
    let nan_mask := mm_andnot nan_check_b (mm_xor nan_check_a nan_check_b) in
    let sign_mask := mm_set1_epi 32 0x7fffffff in
    let comparison := mm_cmplt_ps f (mm_and final_b sign_mask) (mm_and final_a sign_mask) in
    mm_or comparison nan_mask).

Definition FCEQ (f : fpu) : instr := rr (fun a b => mm_cmpeq_ps f b a).

Definition FCMEQ (f : fpu) : instr :=
  rr (fun a b => let mask := mm_set1_epi 32 0x7fffffff in mm_cmpeq_ps f (mm_and b mask) (mm_and a mask)).

Definition DFA (f : fpu) : instr := rr (fun a b => mm_add_pd f a b).

Definition DFS (f : fpu) : instr := rr (fun a b => mm_sub_pd f a b).

Definition DFM (f : fpu) : instr := rr (fun a b => mm_mul_pd f a b).

Definition DFMA (f : fpu) : instr := rrt (fun a b t => mm_add_pd f (mm_mul_pd f a b) t).

Definition DFMS (f : fpu) : instr := rrt (fun a b t => mm_sub_pd f (mm_mul_pd f a b) t).

Definition DFNMS (f : fpu) : instr := rrt (fun a b t => mm_sub_pd f t (mm_mul_pd f a b)).

Definition DFNMA (f : fpu) : instr :=
  rrt (fun a b t => mm_xor (mm_add_pd f (mm_mul_pd f a b) t) (mm_set1_epi 64 0x8000000000000000)).

Definition FESD (f : fpu) : instr := r1 (fun _ a => mm_cvtps_pd f (mm_shuffle_ps a a 0x8d)).

Definition FRDS (f : fpu) : instr := r1 (fun _ a => let t := mm_cvtpd_ps f a in mm_shuffle_ps t t 0x72).

(** The constants are the singles 2^-13 and 2^-19. *)
Definition FI (f : fpu) : instr :=
  rr (fun a b =>
    let mask_se := mm_set1_epi 32 0xff800000 in
    let mask_bf := mm_set1_epi 32 0x007ffc00 in
    let mask_sf := mm_set1_epi 32 0x000003ff in
    let mask_yf := mm_set1_epi 32 0x0007ffff in
    let base := mm_or (mm_and b mask_bf) (mm_set1_epi 32 0x3f800000) in
    let step := mm_mul_ps f (mm_cvtepi32_ps f (mm_and b mask_sf)) (spu_scale (-13)) in
    let y := mm_mul_ps f (mm_cvtepi32_ps f (mm_and a mask_yf)) (spu_scale (-19)) in
    mm_or (mm_and mask_se b) (mm_andnot mask_se (mm_sub_ps f base (mm_mul_ps f step y)))).

Definition CFLTS (f : fpu) : instr :=
  r1 (fun op a =>
    let scaled := mm_mul_ps f a (spu_scale (173 - i8 op)) in
    mm_xor (mm_cvttps_epi32 f scaled) (mm_cmpge_ps f scaled (spu_scale 31))).

Definition CFLTU (f : fpu) : instr :=
  r1 (fun op a =>
    let scaled1 := mm_max_ps f (mm_mul_ps f a (spu_scale (173 - i8 op))) mm_setzero in
    let scaled2 := mm_and (mm_sub_ps f scaled1 (spu_scale 31)) (mm_cmpge_ps f scaled1 (spu_scale 31)) in
    mm_or (mm_or (mm_cvttps_epi32 f scaled1) (mm_cvttps_epi32 f scaled2)) (mm_cmpge_ps f scaled1 (spu_scale 32))).

Definition CSFLT (f : fpu) : instr :=
  r1 (fun op a => mm_mul_ps f (mm_cvtepi32_ps f a) (spu_scale (i8 op - 155))).

Definition CUFLT (f : fpu) : instr :=
  r1 (fun op a =>
    let fix_bits := mm_and (mm_srai_epi 32 a 31) (spu_scale 31) in
    mm_mul_ps f (mm_add_ps f (mm_cvtepi32_ps f (mm_and a (mm_set1_epi 32 0x7fffffff))) fix_bits) (spu_scale (i8 op - 155))).

(** The operands of FMA and its kin: 0 in the place of an extended value. *)
Definition not_extended (f : fpu) (a : Z) : Z :=
  let test_a := mm_and a all_exp_bits in
  let mask_a := mm_cmpneq_ps f test_a all_exp_bits in
  mm_and a mask_a.

Definition FNMS (f : fpu) : instr :=
  rrrr (fun a b c => mm_sub_ps f c (mm_mul_ps f (not_extended f a) (not_extended f b))).

Definition FMA (f : fpu) : instr :=
  rrrr (fun a b c => mm_add_ps f (mm_mul_ps f (not_extended f a) (not_extended f b)) c).

Definition FMS (f : fpu) : instr :=
  rrrr (fun a b c => mm_sub_ps f (mm_mul_ps f (not_extended f a) (not_extended f b)) c).

(** ** Dispatch *)

(** The function [spu_interpreter_rt] stores for each instruction. *)
Definition ptrs (ev : env) (n : spu_itype.t) : instr :=
  match n with
  | spu_itype.UNK => UNK | spu_itype.HEQ => HEQ | spu_itype.HEQI => HEQI | spu_itype.HGT => HGT
  | spu_itype.HGTI => HGTI | spu_itype.HLGT => HLGT | spu_itype.HLGTI => HLGTI
  | spu_itype.HBR => HBR | spu_itype.HBRA => HBRA | spu_itype.HBRR => HBRR
  | spu_itype.STOP => STOP ev | spu_itype.STOPD => STOPD ev | spu_itype.LNOP => LNOP
  | spu_itype.NOP => NOP | spu_itype.SYNC => SYNC | spu_itype.DSYNC => DSYNC
  | spu_itype.MTSPR => MTSPR | spu_itype.WRCH => WRCH ev | spu_itype.STQD => STQD
  | spu_itype.STQX => STQX | spu_itype.STQA => STQA | spu_itype.STQR => STQR | spu_itype.LQD => LQD
  | spu_itype.LQX => LQX | spu_itype.LQA => LQA | spu_itype.LQR => LQR | spu_itype.MFSPR => MFSPR
  | spu_itype.RDCH => RDCH ev | spu_itype.RCHCNT => RCHCNT ev | spu_itype.BR => BR
  | spu_itype.BRA => BRA | spu_itype.BRNZ => BRNZ | spu_itype.BRZ => BRZ | spu_itype.BRHNZ => BRHNZ
  | spu_itype.BRHZ => BRHZ | spu_itype.BRSL => BRSL | spu_itype.BRASL => BRASL
  | spu_itype.IRET => IRET ev | spu_itype.BI => BI ev | spu_itype.BISLED => BISLED ev
  | spu_itype.BISL => BISL ev | spu_itype.BIZ => BIZ ev | spu_itype.BINZ => BINZ ev
  | spu_itype.BIHZ => BIHZ ev | spu_itype.BIHNZ => BIHNZ ev | spu_itype.ILH => ILH
  | spu_itype.ILHU => ILHU | spu_itype.IL => IL | spu_itype.ILA => ILA | spu_itype.FSMBI => FSMBI
  | spu_itype.AH => AH | spu_itype.AHI => AHI | spu_itype.A => A | spu_itype.AI => AI
  | spu_itype.SFH => SFH | spu_itype.SFHI => SFHI | spu_itype.SF => SF | spu_itype.SFI => SFI
  | spu_itype.ADDX => ADDX | spu_itype.CG => CG | spu_itype.CGX => CGX | spu_itype.SFX => SFX
  | spu_itype.BG => BG (simd ev) | spu_itype.BGX => BGX | spu_itype.MPY => MPY
  | spu_itype.MPYU => MPYU | spu_itype.MPYI => MPYI | spu_itype.MPYUI => MPYUI
  | spu_itype.MPYH => MPYH | spu_itype.MPYS => MPYS | spu_itype.MPYHH => MPYHH
  | spu_itype.MPYHHA => MPYHHA | spu_itype.MPYHHU => MPYHHU | spu_itype.MPYHHAU => MPYHHAU
  | spu_itype.CBD => CBD | spu_itype.CHD => CHD | spu_itype.CWD => CWD | spu_itype.CDD => CDD
  | spu_itype.CBX => CBX | spu_itype.CHX => CHX | spu_itype.CWX => CWX | spu_itype.CDX => CDX
  | spu_itype.CLZ => CLZ | spu_itype.CNTB => CNTB | spu_itype.FSMB => FSMB | spu_itype.FSMH => FSMH
  | spu_itype.FSM => FSM | spu_itype.GBB => GBB | spu_itype.GBH => GBH | spu_itype.GB => GB
  | spu_itype.AVGB => AVGB | spu_itype.ABSDB => ABSDB | spu_itype.SUMB => SUMB
  | spu_itype.XSBH => XSBH | spu_itype.XSHW => XSHW | spu_itype.XSWD => XSWD | spu_itype.AND => AND
  | spu_itype.ANDC => ANDC | spu_itype.ANDBI => ANDBI | spu_itype.ANDHI => ANDHI
  | spu_itype.ANDI => ANDI | spu_itype.OR => OR | spu_itype.ORC => ORC | spu_itype.ORBI => ORBI
  | spu_itype.ORHI => ORHI | spu_itype.IOHL => IOHL | spu_itype.ORI => ORI | spu_itype.ORX => ORX
  | spu_itype.XOR => XOR | spu_itype.XORBI => XORBI | spu_itype.XORHI => XORHI
  | spu_itype.XORI => XORI | spu_itype.NAND => NAND | spu_itype.NOR => NOR | spu_itype.EQV => EQV
  | spu_itype.MPYA => MPYA | spu_itype.SELB => SELB | spu_itype.SHUFB => SHUFB
  | spu_itype.FMA => FMA (fp ev) | spu_itype.FNMS => FNMS (fp ev)
  | spu_itype.FMS => FMS (fp ev) | spu_itype.FA => FA (fp ev)
  | spu_itype.FS => FS (fp ev) | spu_itype.FM => FM (fp ev)
  | spu_itype.FREST => FREST | spu_itype.FRSQEST => FRSQEST
  | spu_itype.FI => FI (fp ev) | spu_itype.CSFLT => CSFLT (fp ev)
  | spu_itype.CUFLT => CUFLT (fp ev) | spu_itype.FRDS => FRDS (fp ev)
  | spu_itype.CFLTS => CFLTS (fp ev) | spu_itype.CFLTU => CFLTU (fp ev)
  | spu_itype.FCEQ => FCEQ (fp ev) | spu_itype.FCMEQ => FCMEQ (fp ev)
  | spu_itype.FCGT => FCGT (fp ev) | spu_itype.FCMGT => FCMGT (fp ev)
  | spu_itype.FSCRWR => FSCRWR | spu_itype.FSCRRD => FSCRRD
  | spu_itype.DFA => DFA (fp ev) | spu_itype.DFS => DFS (fp ev)
  | spu_itype.DFM => DFM (fp ev) | spu_itype.DFMA => DFMA (fp ev)
  | spu_itype.DFNMS => DFNMS (fp ev) | spu_itype.DFMS => DFMS (fp ev)
  | spu_itype.DFNMA => DFNMA (fp ev) | spu_itype.FESD => FESD (fp ev)
  | spu_itype.DFCEQ => DFCEQ | spu_itype.DFCMEQ => DFCMEQ | spu_itype.DFCGT => DFCGT
  | spu_itype.DFCMGT => DFCMGT | spu_itype.DFTSV => DFTSV | spu_itype.SHLH => SHLH
  | spu_itype.SHLHI => SHLHI | spu_itype.SHL => SHL | spu_itype.SHLI => SHLI
  | spu_itype.SHLQBI => SHLQBI | spu_itype.SHLQBII => SHLQBII | spu_itype.SHLQBY => SHLQBY
  | spu_itype.SHLQBYI => SHLQBYI | spu_itype.SHLQBYBI => SHLQBYBI | spu_itype.ROTH => ROTH
  | spu_itype.ROTHI => ROTHI | spu_itype.ROT => ROT | spu_itype.ROTI => ROTI
  | spu_itype.ROTQBY => ROTQBY | spu_itype.ROTQBYI => ROTQBYI | spu_itype.ROTQBYBI => ROTQBYBI
  | spu_itype.ROTQBI => ROTQBI | spu_itype.ROTQBII => ROTQBII | spu_itype.ROTHM => ROTHM
  | spu_itype.ROTHMI => ROTHMI | spu_itype.ROTM => ROTM | spu_itype.ROTMI => ROTMI
  | spu_itype.ROTQMBY => ROTQMBY | spu_itype.ROTQMBYI => ROTQMBYI
  | spu_itype.ROTQMBYBI => ROTQMBYBI | spu_itype.ROTQMBI => ROTQMBI
  | spu_itype.ROTQMBII => ROTQMBII | spu_itype.ROTMAH => ROTMAH | spu_itype.ROTMAHI => ROTMAHI
  | spu_itype.ROTMA => ROTMA | spu_itype.ROTMAI => ROTMAI | spu_itype.CEQB => CEQB
  | spu_itype.CEQBI => CEQBI | spu_itype.CEQH => CEQH | spu_itype.CEQHI => CEQHI
  | spu_itype.CEQ => CEQ | spu_itype.CEQI => CEQI | spu_itype.CGTB => CGTB
  | spu_itype.CGTBI => CGTBI | spu_itype.CGTH => CGTH | spu_itype.CGTHI => CGTHI
  | spu_itype.CGT => CGT | spu_itype.CGTI => CGTI | spu_itype.CLGTB => CLGTB
  | spu_itype.CLGTBI => CLGTBI | spu_itype.CLGTH => CLGTH (simd ev) | spu_itype.CLGTHI => CLGTHI
  | spu_itype.CLGT => CLGT (simd ev) | spu_itype.CLGTI => CLGTI
  end.

(** [table.decode(op)(spu, {op})]. *)
Definition exec (ev : env) (s : spu_thread) (op : Z) : result := ptrs ev (decode op) s op.

(** One turn of the loop of [old_interpreter]: [None] leaves the loop, the
    flags checked first; the word is fetched from the mirrored mapping of the
    local store, which ends at twice its size. *)
Definition fetch (s : spu_thread) : option Z :=
  if pc s <? 2 * SPU_LS_SIZE then Some (ls_ref 4 (ls s) (pc s)) else None.

Definition advance (s : spu_thread) : spu_thread := with_pc (u32 (pc s + 4)) s.

Inductive turn :=
  | Continue (s : spu_thread)
  | Break (s : spu_thread)
  | Escape (s : spu_thread)
  | Exception
  | Fault.

Definition interpret_turn (ev : env) (s : spu_thread) : turn :=
  match (if state s =? 0 then Returns false s else check_state ev s) with
  | Escapes s1 => Escape s1
  | Throws => Exception
  | Returns true s1 => Break s1
  | Returns false s1 =>
      match fetch s1 with
      | None => Fault
      | Some op =>
          match exec ev s1 op with
          | Ret true s2 => Continue (advance s2)
          | Ret false s2 => Continue s2
          | Escaped s2 => Escape s2
          | Throw => Exception
          end
      end
  end.

(** [n] turns of [old_interpreter]. *)
Fixpoint old_interpreter (n : nat) (ev : env) (s : spu_thread) : turn :=
  match n with
  | O => Continue s
  | S n =>
      match interpret_turn ev s with
      | Continue s1 => old_interpreter n ev s1
      | t => t
      end
  end.

End spu_interpreter.
