(* ===== verification/SpuSpec.v ===== *)
(** * What the SPU element instructions compute

    A reference semantics of the instructions that work on the elements of a
    register one by one: for each, the element width and a function of the
    instruction word and of the elements of [ra], [rb] and [rt], on exact
    integers.  The interpreter's vector code, with its masks, bit tricks and
    loops that overwrite a source register, computes that function in every
    element. *)

From stdpp Require Import base numbers list tactics.
From Stdlib Require Import Lia.
From S2P Require Import Prelude Asm PpuInstruction Simd SimdOps SimdSpec SimdWide SimdShift SpuOpcode SpuThread SpuOps.
Import Spu SpuOp spu_interpreter.
Open Scope Z_scope.
Open Scope mach_scope.

(** ** Reference semantics *)

Definition popcount8 (x : Z) : Z := foldr Z.add 0 ((fun j => b2z (Z.testbit x j)) <$> seqZ 0 8).

(** The sum of the bytes of a word. *)
Definition byte_sum (x : Z) : Z := u8 x + u8 (x >>> 8) + u8 (x >>> 16) + u8 (x >>> 24).

Definition rotl (w x n : Z) : Z := Z.shiftl x (n mod w) ||| (x >>> (w - n mod w)).

(** The element width and the element function of an instruction: the word,
    then the elements of [ra], [rb] and [rt]. *)
Definition element (n : spu_itype.t) : option (Z * (Z -> Z -> Z -> Z -> Z)) :=
  match n with
  | spu_itype.A => Some (32, fun _ x y _ => x + y)
  | spu_itype.AH => Some (16, fun _ x y _ => x + y)
  | spu_itype.SF => Some (32, fun _ x y _ => y - x)
  | spu_itype.SFH => Some (16, fun _ x y _ => y - x)
  | spu_itype.AI => Some (32, fun op x _ _ => x + si10 op)
  | spu_itype.AHI => Some (16, fun op x _ _ => x + si10 op)
  | spu_itype.SFI => Some (32, fun op x _ _ => si10 op - x)
  | spu_itype.SFHI => Some (16, fun op x _ _ => si10 op - x)
  | spu_itype.CG => Some (32, fun _ x y _ => (x + y) / 2 ^ 32)
  | spu_itype.BG => Some (32, fun _ x y _ => b2z (x <=? y))
  | spu_itype.ADDX => Some (32, fun _ x y t => x + y + t mod 2)
  | spu_itype.SFX => Some (32, fun _ x y t => y - x - (1 - t mod 2))
  | spu_itype.CGX => Some (32, fun _ x y t => (x + y + t mod 2) / 2 ^ 32)
  | spu_itype.BGX => Some (32, fun _ x y t => b2z (0 <=? y - x - (1 - t mod 2)))
  | spu_itype.AND => Some (32, fun _ x y _ => x &&& y)
  | spu_itype.ANDC => Some (32, fun _ x y _ => x &&& Z.lnot y)
  | spu_itype.OR => Some (32, fun _ x y _ => x ||| y)
  | spu_itype.ORC => Some (32, fun _ x y _ => x ||| Z.lnot y)
  | spu_itype.XOR => Some (32, fun _ x y _ => x ^^^ y)
  | spu_itype.NAND => Some (32, fun _ x y _ => Z.lnot (x &&& y))
  | spu_itype.NOR => Some (32, fun _ x y _ => Z.lnot (x ||| y))
  | spu_itype.EQV => Some (32, fun _ x y _ => Z.lnot (x ^^^ y))
  | spu_itype.ANDI => Some (32, fun op x _ _ => x &&& si10 op)
  | spu_itype.ANDHI => Some (16, fun op x _ _ => x &&& si10 op)
  | spu_itype.ANDBI => Some (8, fun op x _ _ => x &&& i8 op)
  | spu_itype.ORI => Some (32, fun op x _ _ => x ||| si10 op)
  | spu_itype.ORHI => Some (16, fun op x _ _ => x ||| si10 op)
  | spu_itype.ORBI => Some (8, fun op x _ _ => x ||| i8 op)
  | spu_itype.XORI => Some (32, fun op x _ _ => x ^^^ si10 op)
  | spu_itype.XORHI => Some (16, fun op x _ _ => x ^^^ si10 op)
  | spu_itype.XORBI => Some (8, fun op x _ _ => x ^^^ i8 op)
  | spu_itype.SELB => Some (32, fun _ x y t => (t &&& y) ||| (Z.lnot t &&& x))
  | spu_itype.IL => Some (32, fun op _ _ _ => si16 op)
  | spu_itype.ILHU => Some (32, fun op _ _ _ => i16 op * 2 ^ 16)
  | spu_itype.ILH => Some (16, fun op _ _ _ => i16 op)
  | spu_itype.ILA => Some (32, fun op _ _ _ => i18 op)
  | spu_itype.IOHL => Some (32, fun op _ _ t => t ||| i16 op)
  | spu_itype.AVGB => Some (8, fun _ x y _ => (x + y + 1) / 2)
  | spu_itype.ABSDB => Some (8, fun _ x y _ => Z.abs (x - y))
  | spu_itype.SUMB => Some (32, fun _ x y _ => byte_sum x + 2 ^ 16 * byte_sum y)
  | spu_itype.CLZ => Some (32, fun _ x _ _ => if x =? 0 then 32 else 31 - Z.log2 x)
  | spu_itype.CNTB => Some (8, fun _ x _ _ => popcount8 x)
  | spu_itype.XSBH => Some (16, fun _ x _ _ => s8 x)
  | spu_itype.XSHW => Some (32, fun _ x _ _ => s16 x)
  | spu_itype.XSWD => Some (64, fun _ x _ _ => s32 x)
  | spu_itype.CEQ => Some (32, fun _ x y _ => mask (x =? y))
  | spu_itype.CEQH => Some (16, fun _ x y _ => mask (x =? y))
  | spu_itype.CEQB => Some (8, fun _ x y _ => mask (x =? y))
  | spu_itype.CGT => Some (32, fun _ x y _ => mask (s32 y <? s32 x))
  | spu_itype.CGTH => Some (16, fun _ x y _ => mask (s16 y <? s16 x))
  | spu_itype.CGTB => Some (8, fun _ x y _ => mask (s8 y <? s8 x))
  | spu_itype.CLGT => Some (32, fun _ x y _ => mask (y <? x))
  | spu_itype.CLGTH => Some (16, fun _ x y _ => mask (y <? x))
  | spu_itype.CLGTB => Some (8, fun _ x y _ => mask (y <? x))
  | spu_itype.CEQI => Some (32, fun op x _ _ => mask (s32 x =? si10 op))
  | spu_itype.CEQHI => Some (16, fun op x _ _ => mask (s16 x =? si10 op))
  | spu_itype.CEQBI => Some (8, fun op x _ _ => mask (x =? i8 op))
  | spu_itype.CGTI => Some (32, fun op x _ _ => mask (si10 op <? s32 x))
  | spu_itype.CGTHI => Some (16, fun op x _ _ => mask (si10 op <? s16 x))
  | spu_itype.CGTBI => Some (8, fun op x _ _ => mask (s8 (i8 op) <? s8 x))
  | spu_itype.CLGTI => Some (32, fun op x _ _ => mask (u32 (si10 op) <? x))
  | spu_itype.CLGTHI => Some (16, fun op x _ _ => mask (u16 (si10 op) <? x))
  | spu_itype.CLGTBI => Some (8, fun op x _ _ => mask (i8 op <? x))
  | spu_itype.MPY => Some (32, fun _ x y _ => s16 x * s16 y)
  | spu_itype.MPYU => Some (32, fun _ x y _ => u16 x * u16 y)
  | spu_itype.MPYH => Some (32, fun _ x y _ => (x >>> 16) * u16 y * 2 ^ 16)
  | spu_itype.MPYHH => Some (32, fun _ x y _ => s16 (x >>> 16) * s16 (y >>> 16))
  | spu_itype.MPYHHU => Some (32, fun _ x y _ => (x >>> 16) * (y >>> 16))
  | spu_itype.MPYS => Some (32, fun _ x y _ => (s16 x * s16 y) / 2 ^ 16)
  | spu_itype.MPYHHA => Some (32, fun _ x y t => t + s16 (x >>> 16) * s16 (y >>> 16))
  | spu_itype.MPYHHAU => Some (32, fun _ x y t => t + (x >>> 16) * (y >>> 16))
  | spu_itype.MPYA => Some (32, fun _ x y t => t + s16 x * s16 y)
  | spu_itype.MPYI => Some (32, fun op x _ _ => s16 x * si10 op)
  | spu_itype.MPYUI => Some (32, fun op x _ _ => u16 x * u16 (si10 op))
  | spu_itype.ROT => Some (32, fun _ x y _ => rotl 32 x y)
  | spu_itype.ROTM => Some (32, fun _ x y _ => x >>> ((- y) mod 64))
  | spu_itype.ROTMA => Some (32, fun _ x y _ => s32 x >>> ((- y) mod 64))
  | spu_itype.SHL => Some (32, fun _ x y _ => Z.shiftl x (y mod 64))
  | spu_itype.ROTH => Some (16, fun _ x y _ => rotl 16 x y)
  | spu_itype.ROTHM => Some (16, fun _ x y _ => x >>> ((- y) mod 32))
  | spu_itype.ROTMAH => Some (16, fun _ x y _ => s16 x >>> ((- y) mod 32))
  | spu_itype.SHLH => Some (16, fun _ x y _ => Z.shiftl x (y mod 32))
  | spu_itype.ROTI => Some (32, fun op x _ _ => rotl 32 x (i7 op))
  | spu_itype.ROTMI => Some (32, fun op x _ _ => x >>> ((- i7 op) mod 64))
  | spu_itype.ROTMAI => Some (32, fun op x _ _ => s32 x >>> ((- i7 op) mod 64))
  | spu_itype.SHLI => Some (32, fun op x _ _ => Z.shiftl x (i7 op mod 64))
  | spu_itype.ROTHI => Some (16, fun op x _ _ => rotl 16 x (i7 op))
  | spu_itype.ROTHMI => Some (16, fun op x _ _ => x >>> ((- i7 op) mod 32))
  | spu_itype.ROTMAHI => Some (16, fun op x _ _ => s16 x >>> ((- i7 op) mod 32))
  | spu_itype.SHLHI => Some (16, fun op x _ _ => Z.shiftl x (i7 op mod 32))
  | _ => None
  end.

(** The register an instruction writes. *)
Definition target (n : spu_itype.t) (op : Z) : Z := if spu_itype.quadrop n then rt4 op else rt op.

(** Execution of an element function. *)
Definition element_exec (w : Z) (f : Z -> Z -> Z -> Z -> Z) (n : spu_itype.t) (s : spu_thread) (op : Z) : spu_thread :=
  setG (target n op)
    (vmake w (fun i => f op (lane w (G s (ra op)) i) (lane w (G s (rb op)) i) (lane w (G s (rt op)) i))) s.

(** [F], a function of the word and of three registers, is [f] in every
    element. *)
Definition elementwise (w : Z) (f : Z -> Z -> Z -> Z -> Z) (F : Z -> Z -> Z -> Z -> Z) : Prop :=
  forall op a b t, urange 128 a -> urange 128 b -> urange 128 t ->
  F op a b t = vmake w (fun i => f op (lane w a i) (lane w b i) (lane w t i)).

(** ** Tactics *)

Ltac name_lanes w i :=
  repeat match goal with
    | |- context [lane w ?v i] => let x := fresh "x" in name_lane w v i x
    end.

(** Goals about elements, after unfolding the instruction to lane functions. *)
Ltac elements w :=
  intros op a b t ?Ha ?Hb ?Ht; let i := fresh "i" in by_lanes w i; name_lanes w i.

(** Equality of bitwise expressions on [w]-bit values. *)
Ltac bitwise w :=
  let j := fresh "j" in let Hj := fresh "Hj" in
  apply Z.bits_inj'; intros j Hj;
  repeat first
    [ rewrite testbit_wrap by lia | rewrite Z.land_spec | rewrite Z.lor_spec | rewrite Z.lxor_spec
    | rewrite Z.ldiff_spec | rewrite Z.lnot_spec by lia | rewrite Z.bits_m1 by lia ];
  let Hw := fresh in
  destruct (Z.ltb_spec j w) as [Hw|Hw]; cbn [andb orb negb];
  [ repeat match goal with |- context [Z.testbit ?x j] => destruct (Z.testbit x j) end; reflexivity
  | repeat match goal with H : urange w ?x |- _ => rewrite (urange_testbit w x j) by (lia || assumption); clear H end; reflexivity ].

(** ** Sums and logic *)

Lemma si10_range op : srange 10 (si10 op).
Proof. unfold si10, bf_t_s. rewrite extract_s_sext by lia. apply sext_range. lia. Qed.

Lemma field_range i n op : 0 <= i -> 0 < n -> i + n <= 32 -> urange n (bf_t_u i n op).
Proof. intros. apply extract_u_range. lia. Qed.

Ltac fields op :=
  pose proof (si10_range op) as ?Hsi; pose proof (field_range 14 7 op ltac:(lia) ltac:(lia) ltac:(lia)) as ?Hi7;
  pose proof (field_range 14 8 op ltac:(lia) ltac:(lia) ltac:(lia)) as ?Hi8;
  fold (i7 op) in *; fold (i8 op) in *.

Lemma elem_bitwise :
  elementwise 32 (fun _ x y _ => x &&& y) (fun _ a b _ => v_and a b) /\
  elementwise 32 (fun _ x y _ => x &&& Z.lnot y) (fun _ a b _ => gv_andn b a) /\
  elementwise 32 (fun _ x y _ => x ||| y) (fun _ a b _ => v_or a b) /\
  elementwise 32 (fun _ x y _ => x ||| Z.lnot y) (fun _ a b _ => v_or a (v_not b)) /\
  elementwise 32 (fun _ x y _ => x ^^^ y) (fun _ a b _ => v_xor a b) /\
  elementwise 32 (fun _ x y _ => Z.lnot (x &&& y)) (fun _ a b _ => v_not (v_and a b)) /\
  elementwise 32 (fun _ x y _ => Z.lnot (x ||| y)) (fun _ a b _ => v_not (v_or a b)) /\
  elementwise 32 (fun _ x y _ => Z.lnot (x ^^^ y)) (fun _ a b _ => v_not (v_xor a b)) /\
  elementwise 32 (fun _ x y t => (t &&& y) ||| (Z.lnot t &&& x)) (fun _ a b c => v_or (v_and c b) (gv_andn c a)).
Proof. split_and!; elements 32; bitwise 32. Qed.

Lemma elem_logic_imm :
  elementwise 32 (fun op x _ _ => x &&& si10 op) (fun op a _ _ => mm_and a (mm_set1_epi 32 (si10 op))) /\
  elementwise 16 (fun op x _ _ => x &&& si10 op) (fun op a _ _ => mm_and a (mm_set1_epi 16 (si10 op))) /\
  elementwise 8 (fun op x _ _ => x &&& i8 op) (fun op a _ _ => mm_and a (mm_set1_epi 8 (i8 op))) /\
  elementwise 32 (fun op x _ _ => x ||| si10 op) (fun op a _ _ => mm_or a (mm_set1_epi 32 (si10 op))) /\
  elementwise 16 (fun op x _ _ => x ||| si10 op) (fun op a _ _ => mm_or a (mm_set1_epi 16 (si10 op))) /\
  elementwise 8 (fun op x _ _ => x ||| i8 op) (fun op a _ _ => mm_or a (mm_set1_epi 8 (i8 op))) /\
  elementwise 32 (fun op x _ _ => x ^^^ si10 op) (fun op a _ _ => mm_xor a (mm_set1_epi 32 (si10 op))) /\
  elementwise 16 (fun op x _ _ => x ^^^ si10 op) (fun op a _ _ => mm_xor a (mm_set1_epi 16 (si10 op))) /\
  elementwise 8 (fun op x _ _ => x ^^^ i8 op) (fun op a _ _ => mm_xor a (mm_set1_epi 8 (i8 op))) /\
  elementwise 32 (fun op _ _ t => t ||| i16 op) (fun op _ _ t => mm_or t (mm_set1_epi 32 (i16 op))).
Proof.
  split_and!.
  1,4,7,10: elements 32; bitwise 32.
  1,3,5: elements 16; bitwise 16.
  all: elements 8; bitwise 8.
Qed.

Lemma ldiff_1 x : Z.ldiff 1 x = 1 - x mod 2.
Proof.
  assert (1 - x mod 2 = b2z (negb (Z.testbit x 0))) as ->.
  { pose proof (Z.bit0_mod x) as H. destruct (Z.testbit x 0); cbn in *; lia. }
  apply Z.bits_inj'. intros j Hj. rewrite Z.ldiff_spec. destruct (Z.eqb_spec j 0) as [->|Hn].
  - by destruct (Z.testbit x 0).
  - rewrite (urange_testbit 1 1) by (done || lia). symmetry. apply (urange_testbit 1); [lia| |lia].
    by destruct (Z.testbit x 0).
Qed.

Lemma elem_sums m :
  elementwise 32 (fun _ x y _ => x + y) (fun _ a b _ => gv_add32 a b) /\
  elementwise 16 (fun _ x y _ => x + y) (fun _ a b _ => gv_add16 a b) /\
  elementwise 32 (fun _ x y _ => y - x) (fun _ a b _ => gv_sub32 b a) /\
  elementwise 16 (fun _ x y _ => y - x) (fun _ a b _ => gv_sub16 b a) /\
  elementwise 32 (fun op x _ _ => x + si10 op) (fun op a _ _ => mm_add_epi 32 (mm_set1_epi 32 (si10 op)) a) /\
  elementwise 16 (fun op x _ _ => x + si10 op) (fun op a _ _ => mm_add_epi 16 (mm_set1_epi 16 (si10 op)) a) /\
  elementwise 32 (fun op x _ _ => si10 op - x) (fun op a _ _ => mm_sub_epi 32 (mm_set1_epi 32 (si10 op)) a) /\
  elementwise 16 (fun op x _ _ => si10 op - x) (fun op a _ _ => mm_sub_epi 16 (mm_set1_epi 16 (si10 op)) a) /\
  elementwise 32 (fun _ x y t => x + y + t mod 2)
    (fun _ a b t => gv_add32 (gv_add32 a b) (v_and t (mm_set1_epi 32 1))) /\
  elementwise 32 (fun _ x y t => y - x - (1 - t mod 2))
    (fun _ a b t => gv_sub32 (gv_sub32 b a) (gv_andn t (mm_set1_epi 32 1))) /\
  elementwise 32 (fun _ x y _ => b2z (x <=? y))
    (fun _ a b _ => mm_add_epi 32 (gv_gtu32 m a b) (mm_set1_epi 32 1)) /\
  elementwise 32 (fun _ x y _ => (x + y) / 2 ^ 32)
    (fun _ a b _ =>
      mm_srli_epi 32 (mm_cmpgt_epi 32 (mm_xor b (mm_set1_epi 32 0x80000000)) (mm_xor a (mm_set1_epi 32 0x7fffffff))) 31).
Proof.
  assert (forall x, x &&& 1 = x mod 2) as H1 by (intros; apply (land_low 1); lia).
  split_and!.
  1,3: elements 32; reflexivity.
  1,2: elements 16; reflexivity.
  1,3: elements 32; rewrite ?wrap_add_l, ?wrap_sub_l by lia; f_equal; lia.
  1,2: elements 16; rewrite ?wrap_add_l, ?wrap_sub_l by lia; f_equal; lia.
  - elements 32. rewrite (wrap_id 32 1), H1 by done. mlia.
  - elements 32. rewrite (wrap_id 32 1), ldiff_1 by done. mlia.
  - intros op a b t Ha Hb Ht. rewrite gv_gtu32_eq by done. by_lanes 32 i. name_lanes 32 i.
    zbool; try lia; reflexivity.
  - elements 32. change (u32 2147483648) with (wrap 32 (- 2 ^ (32 - 1))).
    change (u32 2147483647) with (wrap 32 (2 ^ (32 - 1) - 1)).
    rewrite sext_flip, sext_flip_not by (done || lia). cbn [Z.leb Z.compare]. eval_consts. unfold urange in *.
    match goal with |- context [?u <? ?v] => destruct (Z.ltb_spec u v) end; eval_consts; mlia.
Qed.

(** ** Compares *)

Lemma sext_si10 w op : 10 <= w -> sext w (si10 op) = si10 op.
Proof.
  intros. pose proof (si10_range op) as [H1 H2]. apply sext_id; [lia|].
  pose proof (Z.pow_le_mono_r 2 (10 - 1) (w - 1)). unfold srange. lia.
Qed.

Lemma wrap_lxor w x y : 0 <= w -> wrap w (x ^^^ y) = wrap w x ^^^ wrap w y.
Proof.
  intros. apply Z.bits_inj'. intros j Hj. rewrite Z.lxor_spec, !testbit_wrap, Z.lxor_spec by done. by zbool.
Qed.

Lemma set1_repeat :
  mm_set1_epi 32 0x80008000 = mm_set1_epi 16 (- 2 ^ (16 - 1)) /\
  mm_set1_epi 32 0x80808080 = mm_set1_epi 8 (- 2 ^ (8 - 1)).
Proof. split; reflexivity. Qed.

Lemma eqb_sext w x y : 0 < w -> urange w x -> srange w y -> (x =? wrap w y) = (sext w x =? y).
Proof.
  intros Hw Hx Hy. apply Bool.eq_iff_eq_true. rewrite !Z.eqb_eq. split.
  - intros ->. rewrite sext_wrap by lia. by apply sext_id.
  - intros <-. by rewrite wrap_sext, wrap_id by (done || lia).
Qed.

Lemma elem_compares m :
  elementwise 32 (fun _ x y _ => mask (x =? y)) (fun _ a b _ => mm_cmpeq_epi 32 a b) /\
  elementwise 16 (fun _ x y _ => mask (x =? y)) (fun _ a b _ => mm_cmpeq_epi 16 a b) /\
  elementwise 8 (fun _ x y _ => mask (x =? y)) (fun _ a b _ => mm_cmpeq_epi 8 a b) /\
  elementwise 32 (fun _ x y _ => mask (s32 y <? s32 x)) (fun _ a b _ => mm_cmpgt_epi 32 a b) /\
  elementwise 16 (fun _ x y _ => mask (s16 y <? s16 x)) (fun _ a b _ => mm_cmpgt_epi 16 a b) /\
  elementwise 8 (fun _ x y _ => mask (s8 y <? s8 x)) (fun _ a b _ => mm_cmpgt_epi 8 a b) /\
  elementwise 32 (fun _ x y _ => mask (y <? x)) (fun _ a b _ => gv_gtu32 m a b) /\
  elementwise 16 (fun _ x y _ => mask (y <? x)) (fun _ a b _ => gv_gtu16 m a b) /\
  elementwise 8 (fun _ x y _ => mask (y <? x)) (fun _ a b _ => gv_gtu8 a b).
Proof.
  split_and!; intros op a b t Ha Hb Ht.
  4: by_lanes 32 i; reflexivity. 4: by_lanes 16 i; reflexivity. 4: by_lanes 8 i; reflexivity.
  1,2,3: reflexivity.
  - by rewrite gv_gtu32_eq.
  - by rewrite gv_gtu16_eq.
  - by rewrite gv_gtu8_eq.
Qed.

Lemma elem_compares_imm :
  elementwise 32 (fun op x _ _ => mask (s32 x =? si10 op)) (fun op a _ _ => mm_cmpeq_epi 32 a (mm_set1_epi 32 (si10 op))) /\
  elementwise 16 (fun op x _ _ => mask (s16 x =? si10 op)) (fun op a _ _ => mm_cmpeq_epi 16 a (mm_set1_epi 16 (si10 op))) /\
  elementwise 8 (fun op x _ _ => mask (x =? i8 op)) (fun op a _ _ => mm_cmpeq_epi 8 a (mm_set1_epi 8 (i8 op))) /\
  elementwise 32 (fun op x _ _ => mask (si10 op <? s32 x)) (fun op a _ _ => mm_cmpgt_epi 32 a (mm_set1_epi 32 (si10 op))) /\
  elementwise 16 (fun op x _ _ => mask (si10 op <? s16 x)) (fun op a _ _ => mm_cmpgt_epi 16 a (mm_set1_epi 16 (si10 op))) /\
  elementwise 8 (fun op x _ _ => mask (s8 (i8 op) <? s8 x)) (fun op a _ _ => mm_cmpgt_epi 8 a (mm_set1_epi 8 (i8 op))) /\
  elementwise 32 (fun op x _ _ => mask (u32 (si10 op) <? x))
    (fun op a _ _ => mm_cmpgt_epi 32 (mm_xor a (mm_set1_epi 32 0x80000000)) (mm_set1_epi 32 (u32 (si10 op) ^^^ 0x80000000))) /\
  elementwise 16 (fun op x _ _ => mask (u16 (si10 op) <? x))
    (fun op a _ _ => mm_cmpgt_epi 16 (mm_xor a (mm_set1_epi 32 0x80008000)) (mm_set1_epi 16 (si10 op ^^^ 0x8000))) /\
  elementwise 8 (fun op x _ _ => mask (i8 op <? x))
    (fun op a _ _ => mm_cmpgt_epi 8 (mm_xor a (mm_set1_epi 32 0x80808080)) (mm_set1_epi 8 (i8 op ^^^ 0x80))).
Proof.
  destruct set1_repeat as [E16 E8]. rewrite E16, E8.
  assert (forall w op, 10 <= w -> srange w (si10 op)) as Hsr.
  { intros w op Hw. pose proof (si10_range op) as [H1 H2]. pose proof (Z.pow_le_mono_r 2 (10 - 1) (w - 1)). unfold srange. lia. }
  assert (forall op, u8 (i8 op) = i8 op) as Hi by (intros; apply wrap_id, field_range; lia).
  split_and!;
    [elements 32|elements 16|elements 8|elements 32|elements 16|elements 8|elements 32|elements 16|elements 8].
  - by rewrite eqb_sext by first [lia | assumption | apply Hsr; lia].
  - by rewrite eqb_sext by first [lia | assumption | apply Hsr; lia].
  - by rewrite Hi.
  - by rewrite sext_wrap, sext_si10 by lia.
  - by rewrite sext_wrap, sext_si10 by lia.
  - by rewrite Hi.
  - change (u32 2147483648) with (wrap 32 (- 2 ^ (32 - 1))) at 1. rewrite sext_flip by (done || lia).
    rewrite wrap_lxor, wrap_wrap by lia. change (u32 2147483648) with (wrap 32 (- 2 ^ (32 - 1))).
    rewrite sext_flip by (lia || lrange). do 2 f_equal. zbool; lia || done.
  - rewrite sext_flip by (done || lia).
    rewrite wrap_lxor by lia. change (u16 32768) with (wrap 16 (- 2 ^ (16 - 1))).
    rewrite sext_flip by (lia || lrange). do 2 f_equal. zbool; lia || done.
  - rewrite sext_flip by (done || lia).
    rewrite wrap_lxor, Hi by lia. change (u8 128) with (wrap 8 (- 2 ^ (8 - 1))).
    rewrite sext_flip by (lia || apply field_range; lia). do 2 f_equal. zbool; lia || done.
Qed.

(** ** Products *)

(** The halves of a word, unsigned and signed. *)
Lemma word_halves v i :
  0 <= i < 4 ->
  u16 (lane 32 v i) = lane 16 v (2 * i) /\ lane 32 v i >>> 16 = lane 16 v (2 * i + 1) /\
  s16 (lane 32 v i) = slane 16 v (2 * i) /\ s16 (lane 32 v i >>> 16) = slane 16 v (2 * i + 1).
Proof.
  intros Hi. pose proof (lane_even 16 v i) as E. pose proof (lane_odd 16 v i) as O.
  change (2 * 16) with 32 in *. rewrite !slane_lane, E, O, sext_wrap by lia. done.
Qed.

Ltac word_elements :=
  intros op a b t ?Ha ?Hb ?Ht; apply vmake_ext; [auto with lanes|]; intros i Hi; cnts;
  destruct (word_halves a i Hi) as (?Ea & ?Oa & ?Sa & ?Ta); destruct (word_halves b i Hi) as (?Eb & ?Ob & ?Sb & ?Tb);
  rewrite ?Ta, ?Tb, ?Oa, ?Ob, ?Sa, ?Sb, ?Ea, ?Eb.

Lemma mul_even_s : elementwise 32 (fun _ x y _ => s16 x * s16 y) (fun _ a b _ => gv_mul_even_s16 a b).
Proof. intros op a b t Ha Hb Ht. rewrite gv_mul_even_s16_eq. revert op a b t Ha Hb Ht. word_elements. done. Qed.

Lemma mul_odds_s : elementwise 32 (fun _ x y _ => s16 (x >>> 16) * s16 (y >>> 16)) (fun _ a b _ => gv_mul_odds_s16 a b).
Proof. intros op a b t Ha Hb Ht. rewrite gv_mul_odds_s16_eq. revert op a b t Ha Hb Ht. word_elements. done. Qed.

Lemma mul_even_u : elementwise 32 (fun _ x y _ => u16 x * u16 y) (fun _ a b _ => gv_mul_even_u16 SSE2 a b).
Proof. intros op a b t Ha Hb Ht. rewrite gv_mul_even_u16_eq. revert op a b t Ha Hb Ht. word_elements. done. Qed.

Lemma mul_odds_u : elementwise 32 (fun _ x y _ => (x >>> 16) * (y >>> 16)) (fun _ a b _ => gv_mul_odds_u16 SSE2 a b).
Proof. intros op a b t Ha Hb Ht. rewrite gv_mul_odds_u16_eq. revert op a b t Ha Hb Ht. word_elements. done. Qed.

(** Adding a third register. *)
Lemma elem_accumulate f F :
  elementwise 32 (fun op x y _ => f op x y) (fun op a b _ => F op a b) ->
  elementwise 32 (fun op x y t => t + f op x y) (fun op a b t => mm_add_epi 32 t (F op a b)).
Proof.
  intros H op a b t Ha Hb Ht. rewrite (H op a b t) by done. by_lanes 32 i. by rewrite wrap_add_r by lia.
Qed.

Lemma elem_products :
  elementwise 32 (fun _ x y _ => s16 x * s16 y)
    (fun _ a b _ => let mask := mm_set1_epi 32 0xffff in mm_madd_epi16 (mm_and a mask) (mm_and b mask)) /\
  elementwise 32 (fun _ x y _ => u16 x * u16 y)
    (fun _ a b _ => mm_or (mm_slli_epi 32 (mm_mulhi_epu16 a b) 16) (mm_and (mm_mullo_epi 16 a b) (mm_set1_epi 32 0xffff))) /\
  elementwise 32 (fun _ x y _ => s16 (x >>> 16) * s16 (y >>> 16))
    (fun _ a b _ => mm_madd_epi16 (mm_srli_epi 32 a 16) (mm_srli_epi 32 b 16)) /\
  elementwise 32 (fun _ x y _ => (x >>> 16) * (y >>> 16)) (fun _ a b _ => mpyhhu a b) /\
  elementwise 32 (fun _ x y t => t + s16 (x >>> 16) * s16 (y >>> 16))
    (fun _ a b t => mm_add_epi 32 t (mm_madd_epi16 (mm_srli_epi 32 a 16) (mm_srli_epi 32 b 16))) /\
  elementwise 32 (fun _ x y t => t + (x >>> 16) * (y >>> 16)) (fun _ a b t => mm_add_epi 32 t (mpyhhu a b)) /\
  elementwise 32 (fun _ x y t => t + s16 x * s16 y)
    (fun _ a b c => let mask := mm_set1_epi 32 0xffff in mm_add_epi 32 c (mm_madd_epi16 (mm_and a mask) (mm_and b mask))).
Proof.
  assert (elementwise 32 (fun _ x y _ => (x >>> 16) * (y >>> 16)) (fun _ a b _ => mpyhhu a b)) as Hu.
  { intros op a b t Ha Hb Ht. unfold mpyhhu, mm_or. rewrite Z.lor_comm. by apply (mul_odds_u op a b t). }
  split_and!.
  - exact mul_even_s.
  - intros op a b t Ha Hb Ht. unfold mm_or. rewrite Z.lor_comm. by apply (mul_even_u op a b t).
  - exact mul_odds_s.
  - exact Hu.
  - apply (elem_accumulate (fun _ x y => s16 (x >>> 16) * s16 (y >>> 16))), mul_odds_s.
  - apply (elem_accumulate (fun _ x y => (x >>> 16) * (y >>> 16)) (fun _ => mpyhhu)), Hu.
  - apply (elem_accumulate (fun _ x y => s16 x * s16 y) (fun _ => gv_mul_even_s16)), mul_even_s.
Qed.

(** A word whose high half is zero, as the immediate operand has it. *)
Lemma low_half x i :
  0 <= i < 4 -> let v := mm_set1_epi 32 (x &&& 0xffff) in
  lane 16 v (2 * i) = u16 x /\ lane 16 v (2 * i + 1) = 0 /\ slane 16 v (2 * i) = s16 x /\ slane 16 v (2 * i + 1) = 0.
Proof.
  intros Hi v. pose proof (lane_even 16 v i) as E. pose proof (lane_odd 16 v i) as O.
  change (2 * 16) with 32 in *.
  assert (lane 32 v i = u16 x) as L.
  { unfold v, mm_set1_epi. rewrite lane_vmake by auto with lanes. rewrite (land_low 16) by lia.
    apply wrap_id, (urange_mono 16), wrap_range; lia. }
  rewrite L in E, O. rewrite !slane_lane, E, O, wrap_wrap, sext_wrap by lia.
  assert (u16 x >>> 16 = 0) as ->; [|done].
  rewrite Z.shiftr_div_pow2 by lia. apply Z.div_small, wrap_range. lia.
Qed.

(** The low half of a high product, sign-extended. *)
Lemma mpys_word x y : srange 16 x -> srange 16 y -> s16 ((x * y) >>> 16) = (x * y) / 2 ^ 16.
Proof.
  intros Hx Hy. rewrite Z.shiftr_div_pow2 by lia. apply sext_id; [lia|]. unfold srange in *.
  assert (- 2 ^ 30 <= x * y <= 2 ^ 30) by nia. Z.to_euclidean_division_equations; lia.
Qed.

Lemma elem_products_more :
  elementwise 32 (fun _ x y _ => (x >>> 16) * u16 y * 2 ^ 16)
    (fun _ a b _ => mm_slli_epi 32 (mm_mullo_epi 16 (mm_srli_epi 32 a 16) b) 16) /\
  elementwise 32 (fun _ x y _ => (s16 x * s16 y) / 2 ^ 16)
    (fun _ a b _ => mm_srai_epi 32 (mm_slli_epi 32 (mm_mulhi_epi16 a b) 16) 16) /\
  elementwise 32 (fun op x _ _ => s16 x * si10 op)
    (fun op a _ _ => mm_madd_epi16 a (mm_set1_epi 32 (si10 op &&& 0xffff))) /\
  elementwise 32 (fun op x _ _ => u16 x * u16 (si10 op))
    (fun op a _ _ =>
      let i := mm_set1_epi 32 (si10 op &&& 0xffff) in
      mm_or (mm_slli_epi 32 (mm_mulhi_epu16 a i) 16) (mm_mullo_epi 16 a i)).
Proof.
  split_and!; intros op a b t Ha Hb Ht.
  - by_words i. destruct (word_halves b i Hi) as (-> & _). destruct (word_halves a i Hi) as (_ & -> & _).
    rewrite halves_shl by lia. unfold mm_mullo_epi. rewrite lane_vzips by (cnts; lia || auto with lanes).
    rewrite wrap_mul_sext by lia. pose proof (lane_even 16 (mm_srli_epi 32 a 16) i) as E.
    change (2 * 16) with 32 in E. rewrite E, halves_hi, (wrap_id 16 (lane 16 a _)) by (lia || apply lane_range; lia).
    generalize (lane 16 a (2 * i + 1) * lane 16 b (2 * i)). intros p. mlia.
  - by_words i. destruct (word_halves b i Hi) as (_ & _ & -> & _). destruct (word_halves a i Hi) as (_ & _ & -> & _).
    unfold mm_srai_epi. rewrite lane_vmaps by (cnts; lia || auto with lanes). change (Z.min 16 (32 - 1)) with 16.
    unfold mm_slli_epi. rewrite lane_vmap by (cnts; lia || auto with lanes). cbn [Z.leb Z.compare Pos.compare Pos.compare_cont].
    pose proof (srai_slli 16 (mm_mulhi_epi16 a b) i) as E. change (2 * 16) with 32 in E. rewrite E by lia.
    unfold mm_mulhi_epi16, vzips. rewrite slane_vmake by (cnts; lia || auto with lanes).
    by rewrite mpys_word by (apply slane_range; lia).
  - by_words i. destruct (word_halves a i Hi) as (_ & _ & -> & _). rewrite lane_madd by lia. unfold sum2.
    destruct (low_half (si10 op) i Hi) as (_ & _ & -> & ->). rewrite sext_si10 by lia. f_equal. lia.
  - cbv zeta. set (v := mm_set1_epi 32 _). by_words i. destruct (word_halves a i Hi) as (-> & _).
    destruct (low_half (si10 op) i Hi) as (L & L1 & _). fold v in L, L1. rewrite <- L, <- mul16_parts by lia.
    unfold mm_or. rewrite lane_lor, halves_shl by lia.
    assert (lane 32 (mm_mullo_epi 16 a v) i = lane 16 (mm_mullo_epi 16 a v) (2 * i)) as ->.
    { pose proof (lane_halves 16 (mm_mullo_epi 16 a v) i) as E. change (2 * 16) with 32 in E. rewrite E by lia.
      assert (lane 16 (mm_mullo_epi 16 a v) (2 * i + 1) = 0) as ->; [|lia].
      unfold mm_mullo_epi. by rewrite lane_vzips, L1, wrap_mul_sext, Z.mul_0_r by (cnts; lia || auto with lanes). }
    rewrite Z.lor_comm, lor_halves by (apply lane_range; lia). symmetry. apply wrap_id.
    pose proof (lane_range 16 (mm_mullo_epi 16 a v) (2 * i) ltac:(lia)).
    pose proof (lane_range 16 (mm_mulhi_epu16 a v) (2 * i) ltac:(lia)). unfold urange in *. lia.
Qed.

(** ** Bytes *)

(** A 64-bit shift under a byte mask that keeps the bits of the same byte. *)
Lemma shr_masked v n c k :
  0 <= n < 8 -> urange (8 - n) c -> 0 <= k < 16 ->
  lane 8 (mm_and (mm_srli_epi 64 v n) (mm_set1_epi 8 c)) k = (lane 8 v k >>> n) &&& c.
Proof.
  intros Hn Hc Hk.
  assert (mm_srli_epi 64 v n = gv_shr64 v n) as -> by (unfold gv_shr64; zbool; lia || done).
  apply Z.bits_inj'. intros j Hj. destruct (Z.lt_ge_cases j (8 - n)) as [Hl|Hl].
  - rewrite Z.land_spec, Z.shiftr_spec, !testbit_in_lane by lia.
    replace (j <? 8) with true by (zbool; done || lia). replace (j + n <? 8) with true by (zbool; done || lia).
    cbn [andb]. change (bit (mm_and (gv_shr64 v n) (gv_bcst8 c)) k j = bit v k (j + n) && Z.testbit c j).
    by rewrite bit_and, bit_shr64, bit_bcst8 by lia.
  - rewrite Z.land_spec, (urange_testbit (8 - n) c), andb_false_r, testbit_in_lane by (done || lia).
    destruct (Z.ltb_spec j 8); [|done]. cbn [andb].
    change (bit (mm_and (gv_shr64 v n) (gv_bcst8 c)) k j = false).
    by rewrite bit_and, bit_bcst8, (urange_testbit (8 - n) c), andb_false_r by (done || lia).
Qed.

Lemma popcount_table :
  forallb (fun x =>
    let s1 := u8 (((x >>> 1) &&& 0x55) + (x &&& 0x55)) in
    let s2 := u8 (((s1 >>> 2) &&& 0x33) + (s1 &&& 0x33)) in
    u8 (((s2 >>> 4) &&& 0x0f) + (s2 &&& 0x0f)) =? popcount8 x) (seqZ 0 256) = true.
Proof. vm_compute. reflexivity. Qed.

Lemma popcount_spec x :
  urange 8 x ->
  let s1 := u8 (((x >>> 1) &&& 0x55) + (x &&& 0x55)) in
  let s2 := u8 (((s1 >>> 2) &&& 0x33) + (s1 &&& 0x33)) in
  u8 (((s2 >>> 4) &&& 0x0f) + (s2 &&& 0x0f)) = popcount8 x.
Proof.
  intros Hx. pose proof popcount_table as T. rewrite forallb_forall in T. apply Z.eqb_eq, T.
  apply list_elem_of_In, elem_of_seqZ. unfold urange in Hx. lia.
Qed.

Lemma popcount8_range x : 0 <= popcount8 x <= 8.
Proof.
  unfold popcount8. change (seqZ 0 8) with [0; 1; 2; 3; 4; 5; 6; 7]. cbn [fmap list_fmap foldr].
  repeat match goal with |- context [b2z ?b] => pose proof (b2z_range b); generalize dependent (b2z b); intros end. lia.
Qed.

Lemma lane_add8 a b k : 0 <= k < 16 -> lane 8 (mm_add_epi 8 a b) k = u8 (lane 8 a k + lane 8 b k).
Proof. intros. unfold mm_add_epi. by rewrite lane_vzip by (cnts; lia || auto with lanes). Qed.

Lemma lane_mask8 a c k : 0 <= k < 16 -> urange 8 c -> lane 8 (mm_and a (mm_set1_epi 8 c)) k = lane 8 a k &&& c.
Proof.
  intros. unfold mm_and, mm_set1_epi. by rewrite lane_land, lane_vmake, (wrap_id 8 c) by (cnts; done || lia || auto with lanes).
Qed.

Lemma elem_cntb :
  elementwise 8 (fun _ x _ _ => popcount8 x)
    (fun _ a _ _ =>
      let mask1 := mm_set1_epi 8 0x55 in
      let sum1 := mm_add_epi 8 (mm_and (mm_srli_epi 64 a 1) mask1) (mm_and a mask1) in
      let mask2 := mm_set1_epi 8 0x33 in
      let sum2 := mm_add_epi 8 (mm_and (mm_srli_epi 64 sum1 2) mask2) (mm_and sum1 mask2) in
      let mask3 := mm_set1_epi 8 0x0f in
      mm_add_epi 8 (mm_and (mm_srli_epi 64 sum2 4) mask3) (mm_and sum2 mask3)).
Proof.
  intros op a b t Ha Hb Ht. cbv zeta. apply (vec_ext 8); [auto with lanes|unfold mm_add_epi; vrange..|]. intros k Hk. cnts.
  rewrite lane_vmake by (cnts; lia || auto with lanes).
  repeat first [rewrite lane_add8 by lia | rewrite shr_masked by (lia || done) | rewrite lane_mask8 by (lia || done)].
  pose proof (lane_range 8 a k ltac:(lia)) as Hx. rewrite popcount_spec by done. symmetry. apply wrap_id.
  pose proof (popcount8_range (lane 8 a k)). unfold urange. lia.
Qed.

(** The bytes of a word, and their sums in the halfwords. *)
Lemma byte_sum_lanes v i : 0 <= i < 4 -> byte_sum (lane 32 v i) = sum4 (lane 8 v) i.
Proof.
  intros Hi. unfold byte_sum, sum4.
  assert (forall j, 0 <= j < 4 -> u8 (lane 32 v i >>> (8 * j)) = lane 8 v (4 * i + j)) as H.
  { intros j Hj. apply Z.bits_inj'. intros k Hk. rewrite testbit_wrap, Z.shiftr_spec, !testbit_in_lane by lia.
    destruct (Z.ltb_spec k 8); [|done]. cbn [andb]. destruct (Z.ltb_spec (k + 8 * j) 32); [|lia]. cbn [andb]. f_equal. lia. }
  pose proof (H 0) as H0. rewrite Z.shiftr_0_r, Z.add_0_r in H0. rewrite H0 by lia.
  pose proof (H 1 ltac:(lia)) as H1. pose proof (H 2 ltac:(lia)) as H2. pose proof (H 3 ltac:(lia)) as H3.
  change (8 * 1) with 8 in H1. change (8 * 2) with 16 in H2. change (8 * 3) with 24 in H3. by rewrite H1, H2, H3.
Qed.

Lemma lane_add16 a b k : 0 <= k < 8 -> lane 16 (mm_add_epi 16 a b) k = u16 (lane 16 a k + lane 16 b k).
Proof. intros. unfold mm_add_epi. by rewrite lane_vzip by (cnts; lia || auto with lanes). Qed.

Lemma pair_sum v k :
  0 <= k < 8 ->
  lane 16 (mm_add_epi 16 (mm_srli_epi 16 v 8) (mm_and v (mm_set1_epi 16 0xff))) k = sum2 (lane 8 v) k.
Proof.
  intros Hk. rewrite <- wrap_slane, haddu8_eq by lia. apply wrap_id. unfold sum2.
  pose proof (lane_range 8 v (2 * k) ltac:(lia)). pose proof (lane_range 8 v (2 * k + 1) ltac:(lia)).
  unfold urange in *. lia.
Qed.

(** The halfwords a word shift or mask moves or clears. *)
Lemma word_moves v i :
  0 <= i < 4 ->
  lane 16 (mm_srli_epi 32 v 16) (2 * i) = lane 16 v (2 * i + 1) /\ lane 16 (mm_srli_epi 32 v 16) (2 * i + 1) = 0 /\
  lane 16 (mm_and v (mm_set1_epi 32 0xffff)) (2 * i) = lane 16 v (2 * i) /\
  lane 16 (mm_and v (mm_set1_epi 32 0xffff)) (2 * i + 1) = 0 /\
  lane 16 (mm_slli_epi 32 v 16) (2 * i) = 0 /\ lane 16 (mm_slli_epi 32 v 16) (2 * i + 1) = lane 16 v (2 * i) /\
  lane 16 (mm_andnot (mm_set1_epi 32 0xffff) v) (2 * i) = 0 /\
  lane 16 (mm_andnot (mm_set1_epi 32 0xffff) v) (2 * i + 1) = lane 16 v (2 * i + 1).
Proof.
  intros Hi. pose proof (fun u => lane_even 16 u i) as E. pose proof (fun u => lane_odd 16 u i) as O.
  change (2 * 16) with 32 in *.
  pose proof (lane_range 16 v (2 * i) ltac:(lia)) as R0. pose proof (lane_range 16 v (2 * i + 1) ltac:(lia)) as R1.
  assert (lane 32 (mm_andnot (mm_set1_epi 32 0xffff) v) i = 2 ^ 16 * lane 16 v (2 * i + 1)) as D.
  { rewrite <- halves_top by lia. unfold mm_andnot, mm_and, mm_set1_epi.
    rewrite lane_ldiff, lane_land, !lane_vmake by (lia || auto with lanes). name_lane 32 v i x.
    change (u32 0xffff0000) with (u32 0xffffffff ^^^ u32 0xffff). change (u32 0xffffffff) with (u32 (-1)). bitwise 32. }
  rewrite !(E (mm_srli_epi _ _ _)), !(O (mm_srli_epi _ _ _)), !(E (mm_slli_epi _ _ _)), !(O (mm_slli_epi _ _ _)),
    !(E (mm_and _ _)), !(O (mm_and _ _)), !(E (mm_andnot _ _)), !(O (mm_andnot _ _)), D by lia. halves.
  rewrite !Z.shiftr_div_pow2 by lia. unfold urange in *. split_and!; mlia.
Qed.

Lemma elem_sumb :
  elementwise 32 (fun _ x y _ => byte_sum x + 2 ^ 16 * byte_sum y)
    (fun _ a b _ =>
      let m1 := mm_set1_epi 16 0xff in
      let m2 := mm_set1_epi 32 0xffff in
      let sa := mm_add_epi 16 (mm_srli_epi 16 a 8) (mm_and a m1) in
      let sb := mm_add_epi 16 (mm_srli_epi 16 b 8) (mm_and b m1) in
      mm_or (mm_add_epi 16 (mm_srli_epi 32 sa 16) (mm_and sa m2))
            (mm_add_epi 16 (mm_slli_epi 32 sb 16) (mm_andnot m2 sb))).
Proof.
  intros op a b t Ha Hb Ht. cbv zeta. set (sa := mm_add_epi 16 (mm_srli_epi 16 a 8) _).
  set (sb := mm_add_epi 16 (mm_srli_epi 16 b 8) _).
  apply (vec_ext 32); [auto with lanes|unfold mm_or, mm_add_epi; vrange..|]. intros i Hi. cnts.
  rewrite lane_vmake, !byte_sum_lanes by (cnts; lia || auto with lanes).
  pose proof (fun u => lane_halves 16 u i) as E. change (2 * 16) with 32 in E. rewrite E by lia. clear E.
  destruct (word_moves sa i Hi) as (A0 & A1 & A2 & A3 & _). destruct (word_moves sb i Hi) as (_ & _ & _ & _ & B0 & B1 & B2 & B3).
  unfold mm_or. rewrite !lane_lor, !lane_add16, A0, A1, A2, A3, B0, B1, B2, B3 by lia.
  unfold sa, sb. rewrite !pair_sum by lia. unfold sum2, sum4. idx4 i.
  rewrite Z.add_0_l, Z.lor_0_l, Z.lor_0_r.
  repeat match goal with |- context [lane 8 ?v ?k] => let x := fresh "x" in name_lane 8 v k x end. mlia.
Qed.

Lemma elem_bytes :
  elementwise 8 (fun _ x y _ => (x + y + 1) / 2) (fun _ a b _ => mm_avg_epu 8 a b) /\
  elementwise 8 (fun _ x y _ => Z.abs (x - y)) (fun _ a b _ => gv_sub8 (gv_maxu8 a b) (gv_minu8 a b)) /\
  elementwise 16 (fun _ x _ _ => s8 x) (fun _ a _ _ => mm_srai_epi 16 (mm_slli_epi 16 a 8) 8) /\
  elementwise 32 (fun _ x _ _ => s16 x) (fun _ a _ _ => mm_srai_epi 32 (mm_slli_epi 32 a 16) 16).
Proof.
  split_and!.
  - elements 8. rewrite Z.shiftr_div_pow2 by lia. done.
  - unfold gv_maxu8, gv_minu8. elements 8. mlia.
  - intros op a b t Ha Hb Ht. by_lanes 16 k. cnts. cbn [Z.leb Z.compare Pos.compare Pos.compare_cont].
    pose proof (srai_slli 8 a k) as E. change (2 * 8) with 16 in E. change (Z.min 8 (16 - 1)) with 8. rewrite E by lia.
    pose proof (lane_even 8 a k) as E2. change (2 * 8) with 16 in E2. by rewrite slane_lane, E2, sext_wrap by lia.
  - intros op a b t Ha Hb Ht. by_lanes 32 k. cnts. cbn [Z.leb Z.compare Pos.compare Pos.compare_cont].
    pose proof (srai_slli 16 a k) as E. change (2 * 16) with 32 in E. change (Z.min 16 (32 - 1)) with 16. rewrite E by lia.
    by destruct (word_halves a k ltac:(lia)) as (_ & _ & -> & _).
Qed.

(** ** Shifts *)

Lemma wrap_mod w k x : 0 <= k <= w -> wrap w x mod 2 ^ k = x mod 2 ^ k.
Proof. intros. change (wrap k (wrap w x) = wrap k x). by apply wrap_wrap_le. Qed.

(** The counts the code takes from a field or an element. *)
Lemma neg_count w k x : 0 <= k <= w -> wrap w (0 - x) &&& (2 ^ k - 1) = (- x) mod 2 ^ k.
Proof. intros. rewrite land_low, wrap_mod by lia. f_equal. Qed.

(** A rotation whose right shift is by the complement of the count. *)
Lemma rotl_spec w x y n :
  0 < w -> urange w x -> n = (- y) mod w ->
  wrap w (Z.shiftl x (y mod w) ||| (x >>> n)) = wrap w (rotl w x y).
Proof.
  intros Hw Hx ->. unfold rotl. destruct (Z.eq_dec (y mod w) 0) as [E|E].
  - rewrite Z.mod_opp_l_z, E, Z.shiftl_0_r, Z.shiftr_0_r, Z.sub_0_r by lia.
    rewrite Z.lor_diag. f_equal. rewrite Z.shiftr_div_pow2 by lia.
    rewrite Z.div_small by apply Hx. by rewrite Z.lor_0_r.
  - by rewrite Z.mod_opp_l_nz by lia.
Qed.

Lemma shiftr_large w x n : 0 <= w <= n -> urange w x -> x >>> n = 0.
Proof.
  intros Hw Hx. rewrite Z.shiftr_div_pow2 by lia. apply Z.div_small.
  pose proof (Z.pow_le_mono_r 2 w n). unfold urange in Hx. lia.
Qed.

Lemma shiftl_large w x n : 0 <= w <= n -> wrap w (Z.shiftl x n) = 0.
Proof.
  intros. rewrite Z.shiftl_mul_pow2 by lia. replace n with (n - w + w) by lia.
  rewrite Z.pow_add_r, Z.mul_assoc by lia. apply Z.mod_mul. pose proof (pow2_pos w). lia.
Qed.

Lemma srai_large w x n : 0 < w -> srange w x -> 0 <= n -> x >>> Z.min n (w - 1) = x >>> n.
Proof.
  intros Hw Hx Hn. destruct (Z.le_gt_cases n (w - 1)); [by rewrite Z.min_l|].
  rewrite Z.min_r, !Z.shiftr_div_pow2 by lia. pose proof (Z.pow_le_mono_r 2 (w - 1) n). unfold srange in Hx.
  destruct (Z.lt_ge_cases x 0).
  - by rewrite <- (Z.div_unique x (2 ^ (w - 1)) (-1) (x + 2 ^ (w - 1))), <- (Z.div_unique x (2 ^ n) (-1) (x + 2 ^ n)) by lia.
  - rewrite !Z.div_small; lia.
Qed.

(** The immediate shifts, whose counts may reach the width. *)
Lemma slli_wide w x n : 0 <= w -> wrap w (if w <=? n then 0 else Z.shiftl x n) = wrap w (Z.shiftl x n).
Proof. intros. destruct (Z.leb_spec w n); [by rewrite shiftl_large by lia|done]. Qed.

Lemma srli_wide w x n : 0 <= w -> urange w x -> (if w <=? n then 0 else x >>> n) = x >>> n.
Proof. intros. destruct (Z.leb_spec w n); [by rewrite (shiftr_large w)|done]. Qed.

Lemma elem_shifts :
  elementwise 32 (fun _ x y _ => rotl 32 x y) (fun _ a b _ => vzip 32 rol32 a b) /\
  elementwise 32 (fun _ x y _ => x >>> ((- y) mod 64)) (fun _ a b _ => vzip 32 (fun a b => a >>> (u32 (0 - b) &&& 0x3f)) a b) /\
  elementwise 32 (fun _ x y _ => s32 x >>> ((- y) mod 64))
    (fun _ a b _ => vmake 32 (fun i => slane 32 a i >>> (u32 (0 - lane 32 b i) &&& 0x3f))) /\
  elementwise 32 (fun _ x y _ => Z.shiftl x (y mod 64))
    (fun _ a b _ => vzip 32 (fun a b => u64 (Z.shiftl a (b &&& 0x3f))) a b) /\
  elementwise 16 (fun _ x y _ => rotl 16 x y) (fun _ a b _ => vzip 16 rol16 a b) /\
  elementwise 16 (fun _ x y _ => x >>> ((- y) mod 32)) (fun _ a b _ => vzip 16 (fun a b => a >>> ((0 - b) &&& 0x1f)) a b) /\
  elementwise 16 (fun _ x y _ => s16 x >>> ((- y) mod 32))
    (fun _ a b _ => vmake 16 (fun i => slane 16 a i >>> ((0 - lane 16 b i) &&& 0x1f))) /\
  elementwise 16 (fun _ x y _ => Z.shiftl x (y mod 32))
    (fun _ a b _ => vzip 16 (fun a b => u32 (Z.shiftl a (b &&& 0x1f))) a b).
Proof.
  pose proof (neg_count 32 6) as N6. pose proof (neg_count 32 5) as N5. change (2 ^ 6 - 1) with 63 in N6.
  change (2 ^ 5 - 1) with 31 in N5.
  split_and!;
    [elements 32|elements 32| |elements 32|elements 16|elements 16| |elements 16].
  - unfold rol32. rewrite wrap_lor_shl, land_31 by lia. apply rotl_spec; [lia|done|]. apply N5. lia.
  - by rewrite N6 by lia.
  - intros op a b t Ha Hb Ht. apply vmake_ext; [auto with lanes|]. intros k Hk. by rewrite slane_lane, N6 by lia.
  - by rewrite land_63, wrap_wrap_le by lia.
  - unfold rol16. rewrite wrap_lor_shl, !land_15 by lia. by apply rotl_spec.
  - by rewrite land_31.
  - intros op a b t Ha Hb Ht. apply vmake_ext; [auto with lanes|]. intros k Hk. by rewrite slane_lane, land_31 by lia.
  - by rewrite land_31, wrap_wrap_le by lia.
Qed.

Lemma wrap_lor w x y : 0 <= w -> wrap w (x ||| y) = wrap w x ||| wrap w y.
Proof.
  intros. apply Z.bits_inj'. intros j Hj. rewrite Z.lor_spec, !testbit_wrap, Z.lor_spec by done. by zbool.
Qed.

Lemma elem_shifts_imm :
  elementwise 32 (fun op x _ _ => rotl 32 x (i7 op))
    (fun op a _ _ => let n := i7 op &&& 0x1f in mm_or (mm_slli_epi 32 a n) (mm_srli_epi 32 a (32 - n))) /\
  elementwise 32 (fun op x _ _ => x >>> ((- i7 op) mod 64)) (fun op a _ _ => mm_srli_epi 32 a (u32 (0 - i7 op) &&& 0x3f)) /\
  elementwise 32 (fun op x _ _ => s32 x >>> ((- i7 op) mod 64)) (fun op a _ _ => mm_srai_epi 32 a (u32 (0 - i7 op) &&& 0x3f)) /\
  elementwise 32 (fun op x _ _ => Z.shiftl x (i7 op mod 64)) (fun op a _ _ => mm_slli_epi 32 a (i7 op &&& 0x3f)) /\
  elementwise 16 (fun op x _ _ => rotl 16 x (i7 op))
    (fun op a _ _ => let n := i7 op &&& 0xf in mm_or (mm_slli_epi 16 a n) (mm_srli_epi 16 a (16 - n))) /\
  elementwise 16 (fun op x _ _ => x >>> ((- i7 op) mod 32)) (fun op a _ _ => mm_srli_epi 16 a (u32 (0 - i7 op) &&& 0x1f)) /\
  elementwise 16 (fun op x _ _ => s16 x >>> ((- i7 op) mod 32)) (fun op a _ _ => mm_srai_epi 16 a (u32 (0 - i7 op) &&& 0x1f)) /\
  elementwise 16 (fun op x _ _ => Z.shiftl x (i7 op mod 32)) (fun op a _ _ => mm_slli_epi 16 a (i7 op &&& 0x1f)).
Proof.
  pose proof (neg_count 32 6) as N6. pose proof (neg_count 32 5) as N5. change (2 ^ 6 - 1) with 63 in N6.
  change (2 ^ 5 - 1) with 31 in N5.
  split_and!; intros op a b t Ha Hb Ht.
  all: cbv zeta; rewrite ?N5, ?N6 by lia; rewrite ?land_31, ?land_15, ?land_63.
  1,2,3,4: by_lanes 32 k; name_lanes 32 k. 5,6,7,8: by_lanes 16 k; name_lanes 16 k.
  all: rewrite ?slli_wide, ?srli_wide, ?srai_large by (done || lia || (apply sext_range; lia) || (apply Z.mod_pos_bound; lia)).
  all: try reflexivity.
  all: unfold rotl; by rewrite wrap_lor by lia.
Qed.

(** ** Loops over the words *)

Lemma lane_vset w v k x j :
  width w -> 0 <= j < 128 / w -> lane w (vset w v k x) j = if j =? k then wrap w x else lane w v j.
Proof.
  intros Hw Hj. destruct (width_cnt w Hw) as (H0 & _). unfold vset. rewrite lane_vmake by done.
  destruct (j =? k); [done|]. apply wrap_id, lane_range. lia.
Qed.

(** The register after the first [k] assignments of the loop. *)
Definition partial (g : Z -> Z) (t k : Z) : Z := vmake 32 (fun j => if j <? k then g j else lane 32 t j).

Lemma lane_partial g t k j :
  0 <= j < 4 -> lane 32 (partial g t k) j = if j <? k then u32 (g j) else lane 32 t j.
Proof.
  intros. unfold partial. rewrite lane_vmake by (cnts; lia || auto with lanes).
  destruct (j <? k); [done|]. apply wrap_id, lane_range. lia.
Qed.

(** Each element of the result depends on the same elements of the operands,
    which no earlier assignment has changed, so the loop computes the element
    function of the old registers even when the target is an operand. *)
Lemma word_loop_spec f g s op :
  wf_spu s ->
  (forall i a b t, 0 <= i < 4 -> f i a b t = g (lane 32 a i) (lane 32 b i) (lane 32 t i)) ->
  word_loop f s op =
    setG (rt op) (vmake 32 (fun i => g (lane 32 (G s (ra op)) i) (lane 32 (G s (rb op)) i) (lane 32 (G s (rt op)) i))) s.
Proof.
  intros Hs Hf. set (h i := g (lane 32 (G s (ra op)) i) (lane 32 (G s (rb op)) i) (lane 32 (G s (rt op)) i)).
  set (t := G s (rt op)). set (S k := setG (rt op) (partial h t k) s).
  assert (S 0 = s) as S0.
  { unfold S. rewrite <- (setG_same s (rt op)) at 2 by (done || apply rt_range). f_equal. fold t.
    apply (vec_ext 32); [auto with lanes|apply vmake_range; auto with lanes|apply G_range; auto with spu|].
    intros i Hi. rewrite lane_partial by (cnts; lia). zbool; lia || done. }
  assert (forall i r, 0 <= i < 4 -> urange 7 r -> lane 32 (G (S i) r) i = lane 32 (G s r) i) as Hold.
  { intros i r Hi Hr. unfold S. destruct (decide (r = rt op)) as [->|Hn].
    - rewrite G_setG_eq, lane_partial by (done || lia || apply rt_range). zbool; lia || done.
    - by rewrite G_setG_ne by (done || congruence || apply rt_range). }
  assert (forall i, 0 <= i < 4 ->
    setLane 32 (rt op) i (f i (G (S i) (ra op)) (G (S i) (rb op)) (G (S i) (rt op))) (S i) = S (i + 1)) as Hstep.
  { intros i Hi. rewrite Hf, !Hold by (lia || auto with spu). fold (h i). unfold setLane, S.
    rewrite setG_setG, G_setG_eq by (done || apply rt_range). f_equal.
    apply (vec_ext 32); [auto with lanes|apply vmake_range; auto with lanes..|]. intros j Hj. cnts.
    rewrite lane_vset, !lane_partial by (cnts; lia || auto with lanes).
    destruct (Z.eqb_spec j i) as [->|]; zbool; lia || done. }
  transitivity (S 4).
  { unfold word_loop. rewrite <- S0 at 1. cbn [foldl].
    rewrite (Hstep 0) by lia. change (0 + 1) with 1. rewrite (Hstep 1) by lia. change (1 + 1) with 2.
    rewrite (Hstep 2) by lia. change (2 + 1) with 3. by rewrite (Hstep 3) by lia. }
  unfold S. by f_equal.
Qed.

(** The low word of a doubleword. *)
Lemma slane32_even v i : 0 <= i < 2 -> slane 32 v (2 * i) = s32 (lane 64 v i).
Proof.
  intros. pose proof (lane_even 32 v i) as E. change (2 * 32) with 64 in E.
  by rewrite slane_lane, E, sext_wrap by lia.
Qed.

Lemma xswd_spec s op :
  wf_spu s -> XSWD s op = Ret true (setG (rt op) (vmake 64 (fun i => s32 (lane 64 (G s (ra op)) i))) s).
Proof.
  intros Hs. unfold XSWD. f_equal. set (s1 := setLane 64 (rt op) 0 _ s).
  assert (lane 64 (G s1 (ra op)) 1 = lane 64 (G s (ra op)) 1) as E.
  { unfold s1, setLane. destruct (decide (ra op = rt op)) as [->|Hn].
    - rewrite G_setG_eq by (done || apply rt_range). by rewrite lane_vset by (cnts; lia || auto with lanes).
    - by rewrite G_setG_ne by (congruence || apply rt_range || apply spu_ra_range). }
  pose proof (slane32_even (G s1 (ra op)) 1 ltac:(lia)) as L1. rewrite E in L1.
  pose proof (slane32_even (G s (ra op)) 0 ltac:(lia)) as L0. change (2 * 1) with 2 in L1. change (2 * 0) with 0 in L0.
  rewrite L1. unfold s1, setLane. rewrite setG_setG, G_setG_eq, L0 by (done || apply rt_range). f_equal.
  apply (vec_ext 64); [auto with lanes|apply vmake_range; auto with lanes..|]. intros i Hi. cnts.
  rewrite !lane_vset, lane_vmake by (cnts; lia || auto with lanes).
  assert (i = 0 \/ i = 1) as [-> | ->] by lia; done.
Qed.

(** ** The table *)

Lemma carry_word x y t :
  urange 32 x -> urange 32 y -> u64 ((t &&& 1) + x + y) >>> 32 = (x + y + t mod 2) / 2 ^ 32.
Proof.
  intros Hx Hy. rewrite (land_low 1) by lia. change (2 ^ 1) with 2.
  pose proof (Z.mod_pos_bound t 2 ltac:(lia)) as Ht. generalize dependent (t mod 2). intros c Hc. unfold urange in *.
  rewrite wrap_id, Z.shiftr_div_pow2 by (unfold urange; lia). f_equal. lia.
Qed.

Lemma borrow_word x y t :
  urange 32 x -> urange 32 y -> s64 (u64 (y - x - (1 - (t &&& 1)))) = y - x - (1 - t mod 2).
Proof.
  intros Hx Hy. rewrite (land_low 1) by lia. change (2 ^ 1) with 2.
  pose proof (Z.mod_pos_bound t 2 ltac:(lia)) as Ht. generalize dependent (t mod 2). intros c Hc. unfold urange in *.
  by rewrite sext_wrap, sext_id by (unfold srange; lia).
Qed.

(** The element function of [n], applied by the function the table stores. *)
Definition follows (ev : env) (n : spu_itype.t) (w : Z) (f : Z -> Z -> Z -> Z -> Z) : Prop :=
  forall s op, wf_spu s -> ptrs ev n s op = Ret true (element_exec w f n s op).

Section Shapes.
Context (ev : env) (n : spu_itype.t) (w : Z) (f : Z -> Z -> Z -> Z -> Z) (F : Z -> Z -> Z -> Z -> Z).
Hypothesis HF : elementwise w f F.

(** An instruction that applies [F] to the word and the registers. *)
Lemma shape_ok :
  (forall s op, ptrs ev n s op = Ret true (setG (target n op) (F op (G s (ra op)) (G s (rb op)) (G s (rt op))) s)) ->
  follows ev n w f.
Proof.
  intros H s op Hs. rewrite H. unfold element_exec. do 2 f_equal.
  apply HF; auto with spu.
Qed.

End Shapes.

Lemma element_follows ev n :
  match element n with Some (w, f) => follows ev n w f | None => True end.
Proof.
  destruct elem_bitwise as (? & ? & ? & ? & ? & ? & ? & ? & ?).
  destruct elem_logic_imm as (? & ? & ? & ? & ? & ? & ? & ? & ? & ?).
  destruct (elem_sums (simd ev)) as (? & ? & ? & ? & ? & ? & ? & ? & ? & ? & ? & ?).
  destruct (elem_compares (simd ev)) as (? & ? & ? & ? & ? & ? & ? & ? & ?).
  destruct elem_compares_imm as (? & ? & ? & ? & ? & ? & ? & ? & ?).
  destruct elem_products as (? & ? & ? & ? & ? & ? & ?). destruct elem_products_more as (? & ? & ? & ?).
  destruct elem_bytes as (? & ? & ? & ?). pose proof elem_cntb. pose proof elem_sumb.
  destruct elem_shifts as (? & ? & ? & ? & ? & ? & ? & ?). destruct elem_shifts_imm as (? & ? & ? & ? & ? & ? & ? & ?).
  destruct n; cbv beta iota delta [element]; try exact I.
  all: try (eapply shape_ok; [eassumption|intros s op; reflexivity]).
  all: intros s op Hs; unfold element_exec, target; cbn [ptrs].
  1,2,3,4: unfold ILH, ILHU, IL, ILA, imm; do 2 f_equal; apply vmake_ext; auto with lanes;
    intros; by rewrite ?Z.shiftl_mul_pow2 by lia.
  4: exact (xswd_spec s op Hs).
  - unfold CGX. f_equal. rewrite (word_loop_spec _ (fun x y t => u64 ((t &&& 1) + x + y) >>> 32)) by done.
    f_equal. apply vmake_ext; [auto with lanes|]. intros i Hi. by rewrite carry_word by (apply lane_range; lia).
  - unfold BGX. f_equal. rewrite (word_loop_spec _ (fun x y t => b2z (0 <=? s64 (u64 (y - x - (1 - (t &&& 1))))))) by done.
    f_equal. apply vmake_ext; [auto with lanes|]. intros i Hi. by rewrite borrow_word by (apply lane_range; lia).
  - unfold CLZ. f_equal. by rewrite (word_loop_spec _ (fun x _ _ => countl_zero32 x)) by done.
Qed.

(** Ranges of numerals. *)
Ltac in_range := split; [vm_compute; discriminate | vm_compute; reflexivity].

(** A thread and an environment for the examples. *)
Definition ex_env : env :=
  mkEnv SSE2 false (fun _ s => Returns true s) (fun _ s => Returns 0 s) (fun _ _ => 1)
    (fun _ _ s => Returns true s) (fun s => (false, s)) (fun s => s) (fun s => Returns false s)
    (mkFpu (fun _ a b => a &&& b) (fun _ a => a)).

Definition ex_spu (a b t : Z) : spu_thread :=
  mkSpu (rset (rset (rset (replicate 128 0) 1 a) 2 b) 3 t) 0 0 (fun _ => 0) false false 0 0.

Lemma ex_spu_wf a b t : urange 128 a -> urange 128 b -> urange 128 t -> wf_spu (ex_spu a b t).
Proof.
  intros. constructor; cbn [gpr pc srr0 ls state ex_spu]; try done.
  repeat apply rset_Forall; try done. by apply Forall_replicate.
Qed.

(** C20: Every element instruction of the SPU, ninety of them (sums, carries and borrows, logic
    and select, immediates, compares, products, counts, byte averages,
    differences and sums, sign extensions, element shifts and rotates)
    executes as the reference element function of the table [element]: the
    target register gets that function of the old elements of the operands,
    including when the target is one of them, every other part of the thread
    is unchanged, and the program counter is to be advanced. *)
Theorem spu_element_spec (ev : env) (s : spu_thread) (op w : Z) (f : Z -> Z -> Z -> Z -> Z) :
  wf_spu s -> element (decode op) = Some (w, f) ->
  exec ev s op = Ret true (element_exec w f (decode op) s op).
Proof.
  intros Hs E. pose proof (element_follows ev (decode op)) as H. rewrite E in H. by apply H.
Qed.

(** [sumb $3, $1, $2], then [cgx $1, $1, $2] with the target among the
    operands. *)
Lemma spu_element_spec_witness :
  exec ex_env (ex_spu (2 ^ 128 - 1) 0x01020304 0) 0x4a608083 =
    Ret true (setG 3 0x000003fc000003fc000003fc000a03fc (ex_spu (2 ^ 128 - 1) 0x01020304 0)) /\
  exec ex_env (ex_spu (2 ^ 128 - 1) 1 0) 0x68408081 =
    Ret true (setG 1 0x00000001000000010000000100000001 (ex_spu (2 ^ 128 - 1) 1 0)).
Proof.
  assert (decode 0x4a608083 = spu_itype.SUMB) as D1 by (vm_compute; reflexivity).
  assert (decode 0x68408081 = spu_itype.CGX) as D2 by (vm_compute; reflexivity).
  assert (element (decode 0x4a608083) = Some (32, fun _ x y _ => byte_sum x + 2 ^ 16 * byte_sum y)) as E1
    by (rewrite D1; reflexivity).
  assert (element (decode 0x68408081) = Some (32, fun _ x y t => (x + y + t mod 2) / 2 ^ 32)) as E2
    by (rewrite D2; reflexivity).
  assert (forall b, 0 <= b < 2 ^ 32 -> wf_spu (ex_spu (2 ^ 128 - 1) b 0)) as Hwf
    by (intros; apply ex_spu_wf; unfold urange; lia).
  split.
  - rewrite (spu_element_spec ex_env _ _ _ _ (Hwf 0x01020304 ltac:(lia)) E1).
    rewrite D1. vm_compute. reflexivity.
  - rewrite (spu_element_spec ex_env _ _ _ _ (Hwf 1 ltac:(lia)) E2).
    rewrite D2. vm_compute. reflexivity.
Defined.
