(* ===== verification/SpuQuad.v ===== *)
(** * SPU quadword shifts and rotates

    The shifts of a whole register, by bytes (an unaligned read of a buffer
    that holds the register and zeros or two copies of it) and by bits (two
    64-bit shifts), as functions of the 128-bit number. *)

From stdpp Require Import base numbers list tactics.
From Stdlib Require Import Lia.
From S2P Require Import Prelude Asm Simd SimdOps SimdSpec SimdWide SpuOpcode SpuThread SpuOps SpuSpec.
Import Spu SpuOp spu_interpreter.
Open Scope Z_scope.
Open Scope mach_scope.

(** Rotation of a 128-bit number to the left. *)
Definition rot128 (a n : Z) : Z := u128 (rotl 128 a n).

(** ** Bits of the building blocks *)

Lemma testbit_rot128 a n p :
  urange 128 a -> 0 <= p -> Z.testbit (rot128 a n) p = (p <? 128) && Z.testbit a ((p - n) mod 128).
Proof.
  intros Ha Hp. unfold rot128, rotl. rewrite testbit_wrap by lia. destruct (Z.ltb_spec p 128); [|done]. cbn [andb].
  pose proof (Z.mod_pos_bound n 128 ltac:(lia)) as Hn. rewrite Z.lor_spec, Z.shiftl_spec, Z.shiftr_spec by lia.
  destruct (Z.le_gt_cases (n mod 128) p).
  - rewrite (urange_testbit 128 a (p + _)), orb_false_r by (done || lia).
    f_equal. rewrite Zminus_mod, (Z.mod_small p) by lia. symmetry. apply Z.mod_small. lia.
  - rewrite (Z.testbit_neg_r a (p - _)), orb_false_l by lia. f_equal.
    rewrite Zminus_mod, (Z.mod_small p) by lia. apply (Z.mod_unique_pos _ _ (-1)); lia.
Qed.

Lemma rot128_range a n : urange 128 (rot128 a n).
Proof. apply wrap_range. lia. Qed.

(** Rotations add up. *)
Lemma rot128_rot128 a n m : urange 128 a -> rot128 (rot128 a n) m = rot128 a (n + m).
Proof.
  intros Ha. apply Z.bits_inj'. intros p Hp. rewrite (testbit_rot128 _ m), (testbit_rot128 _ (n + m)) by (done || apply rot128_range).
  destruct (Z.ltb_spec p 128); [|done]. cbn [andb].
  pose proof (Z.mod_pos_bound (p - m) 128 ltac:(lia)) as Hm. rewrite testbit_rot128 by (done || lia).
  destruct (Z.ltb_spec ((p - m) mod 128) 128); [|lia]. cbn [andb]. f_equal.
  rewrite Zminus_mod_idemp_l. f_equal. lia.
Qed.

Lemma rot128_mod a n : rot128 a (n mod 128) = rot128 a n.
Proof. unfold rot128, rotl. by rewrite Zmod_mod. Qed.

(** The unaligned read. *)
Lemma testbit_loadu buf off p :
  Forall (urange 128) buf -> 0 <= off -> 0 <= p ->
  Z.testbit (mm_loadu buf off) p =
    (p <? 128) && Z.testbit (default 0 (buf !! Z.to_nat ((p + 8 * off) / 128))) ((p + 8 * off) mod 128).
Proof.
  intros Hb Ho Hp. unfold mm_loadu. rewrite testbit_wrap, Z.shiftr_spec by lia. f_equal.
  by rewrite testbit_le_radix by (done || lia).
Qed.

(** The buffers hold vectors. *)
Ltac buf := repeat first [apply Forall_nil_2 | apply Forall_cons_2; [done|]].

Lemma rot_bytes_spec a n : urange 128 a -> 0 <= n < 16 -> rot_bytes a n = rot128 a (8 * n).
Proof.
  intros Ha Hn. apply Z.bits_inj'. intros p Hp. unfold rot_bytes.
  rewrite testbit_loadu, testbit_rot128 by (done || lia || buf).
  destruct (Z.ltb_spec p 128); [|done]. cbn [andb].
  assert ((p + 8 * (16 - n)) mod 128 = (p - 8 * n) mod 128) as ->.
  { replace (p + 8 * (16 - n)) with (p - 8 * n + 1 * 128) by lia. by rewrite Z.mod_add. }
  assert ((p + 8 * (16 - n)) / 128 = 0 \/ (p + 8 * (16 - n)) / 128 = 1) as [-> | ->]
    by (Z.to_euclidean_division_equations; lia); done.
Qed.

Lemma rotm_bytes_spec a n : urange 128 a -> 0 <= n < 32 -> rotm_bytes a n = a >>> (8 * n).
Proof.
  intros Ha Hn. apply Z.bits_inj'. intros p Hp. unfold rotm_bytes.
  rewrite testbit_loadu, Z.shiftr_spec by (done || lia || buf).
  destruct (Z.lt_ge_cases (p + 8 * n) 128).
  - destruct (Z.ltb_spec p 128); [|lia]. rewrite Z.div_small, Z.mod_small by lia. done.
  - rewrite (urange_testbit 128 a) by (done || lia). destruct (Z.ltb_spec p 128); [|done]. cbn [andb].
    assert ((p + 8 * n) / 128 = 1 \/ (p + 8 * n) / 128 = 2) as [-> | ->]
      by (Z.to_euclidean_division_equations; lia); apply Z.bits_0.
Qed.

Lemma shl_bytes_spec a n : urange 128 a -> 0 <= n < 32 -> shl_bytes a n = u128 (Z.shiftl a (8 * n)).
Proof.
  intros Ha Hn. apply Z.bits_inj'. intros p Hp. unfold shl_bytes.
  rewrite testbit_loadu, testbit_wrap, Z.shiftl_spec by (done || lia || buf).
  destruct (Z.ltb_spec p 128); [|done]. cbn [andb].
  destruct (Z.le_gt_cases (8 * n) p).
  - replace (p + 8 * (32 - n)) with (p - 8 * n + 2 * 128) by lia.
    by rewrite Z.div_add, Z.mod_add, Z.div_small, Z.mod_small by lia.
  - rewrite (Z.testbit_neg_r a) by lia.
    assert ((p + 8 * (32 - n)) / 128 = 0 \/ (p + 8 * (32 - n)) / 128 = 1) as [-> | ->]
      by (Z.to_euclidean_division_equations; lia); apply Z.bits_0.
Qed.

(** The bit shifts of the 64-bit halves. *)
Lemma testbit_slli64 a n p :
  0 <= n -> 0 <= p < 128 ->
  Z.testbit (mm_slli_epi 64 a n) p = (n <=? p mod 64) && Z.testbit a (p - n).
Proof.
  intros Hn Hp. unfold mm_slli_epi, vmap. rewrite testbit_vmake by (lia || auto with lanes).
  destruct (Z.ltb_spec p 128); [|lia]. cbn [andb]. pose proof (Z.mod_pos_bound p 64 ltac:(lia)) as Hm.
  destruct (Z.leb_spec 64 n); [rewrite Z.bits_0; zbool; lia || done|].
  rewrite Z.shiftl_spec by lia. destruct (Z.leb_spec n (p mod 64)); cbn [andb].
  - rewrite testbit_in_lane by (lia || apply Z.div_pos; lia). destruct (Z.ltb_spec (p mod 64 - n) 64); [|lia].
    cbn [andb]. f_equal. Z.to_euclidean_division_equations; lia.
  - apply Z.testbit_neg_r. lia.
Qed.

Lemma testbit_srli64 a n p :
  0 <= n -> 0 <= p < 128 ->
  Z.testbit (mm_srli_epi 64 a n) p = (p mod 64 + n <? 64) && Z.testbit a (p + n).
Proof.
  intros Hn Hp. unfold mm_srli_epi, vmap. rewrite testbit_vmake by (lia || auto with lanes).
  destruct (Z.ltb_spec p 128); [|lia]. cbn [andb]. pose proof (Z.mod_pos_bound p 64 ltac:(lia)) as Hm.
  destruct (Z.leb_spec 64 n); [rewrite Z.bits_0; zbool; lia || done|].
  rewrite Z.shiftr_spec by lia. rewrite testbit_in_lane by (lia || apply Z.div_pos; lia). f_equal.
  f_equal. Z.to_euclidean_division_equations; lia.
Qed.

Lemma swap_doublewords a p : urange 128 a -> 0 <= p < 128 -> Z.testbit (mm_shuffle_epi32 a 0x4e) p = Z.testbit a ((p + 64) mod 128).
Proof.
  intros Ha Hp. unfold mm_shuffle_epi32. rewrite testbit_vmake by (lia || auto with lanes).
  destruct (Z.ltb_spec p 128); [|lia]. cbn [andb].
  assert ((0x4e >>> (2 * (p / 32))) &&& 3 = (p / 32 + 2) mod 4) as ->.
  { assert (p / 32 = 0 \/ p / 32 = 1 \/ p / 32 = 2 \/ p / 32 = 3) as [->|[->|[->| ->]]]
      by (Z.to_euclidean_division_equations; lia); reflexivity. }
  rewrite testbit_in_lane by (Z.to_euclidean_division_equations; lia).
  destruct (Z.ltb_spec (p mod 32) 32); [|Z.to_euclidean_division_equations; lia]. cbn [andb].
  f_equal. Z.to_euclidean_division_equations; lia.
Qed.

Lemma rot_bits_spec a n : urange 128 a -> 0 <= n < 8 -> rot_bits a n = rot128 a n.
Proof.
  intros Ha Hn. assert (urange 128 (rot_bits a n)) as Hr.
  { unfold rot_bits, mm_or, mm_slli_epi, mm_srli_epi, vmap. vrange. }
  apply Z.bits_inj'. intros p Hp. destruct (Z.lt_ge_cases p 128).
  2:{ by rewrite !(urange_testbit 128) by (done || apply rot128_range). }
  unfold rot_bits, mm_or. rewrite Z.lor_spec, testbit_slli64, testbit_srli64, testbit_rot128 by (done || lia).
  destruct (Z.ltb_spec p 128); [|lia]. cbn [andb].
  destruct (Z.leb_spec n (p mod 64)).
  - destruct (Z.ltb_spec (p mod 64 + (64 - n)) 64); [lia|]. cbn [andb]. rewrite orb_false_r. f_equal.
    Z.to_euclidean_division_equations; lia.
  - destruct (Z.ltb_spec (p mod 64 + (64 - n)) 64); [|lia]. cbn [andb orb].
    rewrite swap_doublewords by (done || (Z.to_euclidean_division_equations; lia)). f_equal.
    Z.to_euclidean_division_equations; lia.
Qed.

Lemma rotm_bits_spec a n : urange 128 a -> 0 <= n < 8 -> rotm_bits a n = a >>> n.
Proof.
  intros Ha Hn. assert (urange 128 (rotm_bits a n)) as Hr.
  { unfold rotm_bits, mm_or, mm_slli_epi, mm_srli_epi, vmap. vrange. }
  apply Z.bits_inj'. intros p Hp. rewrite Z.shiftr_spec by lia. destruct (Z.lt_ge_cases p 128).
  2:{ by rewrite !(urange_testbit 128) by (done || lia). }
  unfold rotm_bits, mm_or, mm_srli_si128. change (15 <? 8) with false. cbv iota.
  rewrite Z.lor_spec, testbit_slli64, testbit_srli64 by lia. change (8 * 8) with 64.
  destruct (Z.ltb_spec (p mod 64 + n) 64); destruct (Z.leb_spec (64 - n) (p mod 64)); try lia; cbn [andb orb].
  - apply orb_false_r.
  - rewrite Z.shiftr_spec by (Z.to_euclidean_division_equations; lia). f_equal. lia.
Qed.

Lemma shl_bits_spec a n : urange 128 a -> 0 <= n < 8 -> shl_bits a n = u128 (Z.shiftl a n).
Proof.
  intros Ha Hn. assert (urange 128 (shl_bits a n)) as Hr.
  { unfold shl_bits, mm_or, mm_slli_epi, mm_srli_epi, vmap. vrange. }
  apply Z.bits_inj'. intros p Hp. destruct (Z.lt_ge_cases p 128).
  2:{ by rewrite !(urange_testbit 128) by (done || lia || apply wrap_range; lia). }
  rewrite testbit_wrap, Z.shiftl_spec by lia. destruct (Z.ltb_spec p 128); [|lia]. cbn [andb].
  unfold shl_bits, mm_or, mm_slli_si128. change (15 <? 8) with false. cbv iota.
  rewrite Z.lor_spec, testbit_slli64, testbit_srli64 by lia. change (8 * 8) with 64.
  destruct (Z.leb_spec n (p mod 64)); destruct (Z.ltb_spec (p mod 64 + (64 - n)) 64); try lia; cbn [andb orb].
  - apply orb_false_r.
  - rewrite testbit_wrap, Z.shiftl_spec by (Z.to_euclidean_division_equations; lia).
    destruct (Z.ltb_spec (p + (64 - n)) 128); cbn [andb]; [f_equal; lia|].
    Z.to_euclidean_division_equations; lia.
Qed.

(** ** The instructions *)

(** The function of the word and of the registers [ra] and [rb]; a count is
    taken from the preferred word of [rb] or from the word. *)
Definition quad (n : spu_itype.t) : option (Z -> Z -> Z -> Z) :=
  match n with
  | spu_itype.ROTQBY => Some (fun _ a b => rot128 a (8 * word3 b))
  | spu_itype.ROTQBYI => Some (fun op a _ => rot128 a (8 * i7 op))
  | spu_itype.ROTQBYBI => Some (fun _ a b => rot128 a (8 * (word3 b / 8)))
  | spu_itype.ROTQBI => Some (fun _ a b => rot128 a (word3 b mod 8))
  | spu_itype.ROTQBII => Some (fun op a _ => rot128 a (i7 op mod 8))
  | spu_itype.SHLQBY => Some (fun _ a b => u128 (Z.shiftl a (8 * (word3 b mod 32))))
  | spu_itype.SHLQBYI => Some (fun op a _ => u128 (Z.shiftl a (8 * (i7 op mod 32))))
  | spu_itype.SHLQBYBI => Some (fun _ a b => u128 (Z.shiftl a (8 * (word3 b / 8 mod 32))))
  | spu_itype.SHLQBI => Some (fun _ a b => u128 (Z.shiftl a (word3 b mod 8)))
  | spu_itype.SHLQBII => Some (fun op a _ => u128 (Z.shiftl a (i7 op mod 8)))
  | spu_itype.ROTQMBY => Some (fun _ a b => a >>> (8 * ((- word3 b) mod 32)))
  | spu_itype.ROTQMBYI => Some (fun op a _ => a >>> (8 * ((- i7 op) mod 32)))
  | spu_itype.ROTQMBYBI => Some (fun _ a b => a >>> (8 * ((- (word3 b / 8)) mod 32)))
  | spu_itype.ROTQMBI => Some (fun _ a b => a >>> ((- word3 b) mod 8))
  | spu_itype.ROTQMBII => Some (fun op a _ => a >>> ((- i7 op) mod 8))
  | _ => None
  end.

Lemma sword3_mod v : sword3 v mod 8 = word3 v mod 8 /\ (- sword3 v) mod 8 = (- word3 v) mod 8.
Proof.
  unfold sword3, word3. rewrite slane_lane by lia. destruct (sext_eq 32 (lane 32 v 3)) as [q ->]; [lia|].
  change (2 ^ 32) with (2 ^ 29 * 8). split; Z.to_euclidean_division_equations; lia.
Qed.

Lemma neg_s32 x : s32 (- x) mod 8 = (- x) mod 8.
Proof.
  destruct (sext_eq 32 (- x)) as [q ->]; [lia|]. change (2 ^ 32) with (2 ^ 29 * 8).
  Z.to_euclidean_division_equations; lia.
Qed.

Lemma rot128_bytes a n : rot128 a (8 * (n mod 16)) = rot128 a (8 * n).
Proof.
  rewrite <- (rot128_mod a (8 * (n mod 16))), <- (rot128_mod a (8 * n)). f_equal.
  Z.to_euclidean_division_equations; lia.
Qed.

(** Writing the value a register function gives. *)
Definition quad_exec (f : Z -> Z -> Z -> Z) (s : spu_thread) (op : Z) : spu_thread :=
  setG (rt op) (f op (G s (ra op)) (G s (rb op))) s.

Lemma quad_follows ev n f s op :
  wf_spu s -> quad n = Some f -> ptrs ev n s op = Ret true (quad_exec f s op).
Proof.
  intros Hs E. pose proof (G_range s (ra op) Hs (spu_ra_range op)) as Ha.
  pose proof (neg_count 32 5) as N5. pose proof (neg_count 32 3) as N3.
  change (2 ^ 5 - 1) with 31 in N5. change (2 ^ 3 - 1) with 7 in N3. change (2 ^ 5) with 32 in N5. change (2 ^ 3) with 8 in N3.
  destruct n; try discriminate E; cbv beta iota delta [quad] in E; inversion E as [E']; clear E; subst f;
    unfold quad_exec; cbn [ptrs];
    unfold ROTQBY, ROTQBYI, ROTQBYBI, ROTQBI, ROTQBII, SHLQBY, SHLQBYI, SHLQBYBI, SHLQBI, SHLQBII,
      ROTQMBY, ROTQMBYI, ROTQMBYBI, ROTQMBI, ROTQMBII, rr, r1; do 2 f_equal;
    rewrite ?N5, ?N3 by lia; rewrite ?land_7, ?land_15, ?land_31.
  all: rewrite ?(Z.shiftr_div_pow2 (word3 _)) by lia; change (2 ^ 3) with 8.
  all: rewrite ?neg_s32; rewrite ?(proj1 (sword3_mod _)), ?(proj2 (sword3_mod _)).
  all: rewrite ?rot_bytes_spec, ?rotm_bytes_spec, ?shl_bytes_spec, ?rot_bits_spec, ?rotm_bits_spec, ?shl_bits_spec
    by (done || apply Z.mod_pos_bound; lia); rewrite ?rot128_bytes; reflexivity.
Qed.

(** The fifteen quadword shift and rotate instructions: the byte forms,
    the byte-from-bit-count forms and the bit forms, with the count in a
    register or in the word, rotate or shift the register as a 128-bit number
    by exactly the count the instruction set defines. *)
Theorem spu_quad_spec (ev : env) (s : spu_thread) (op : Z) (f : Z -> Z -> Z -> Z) :
  wf_spu s -> quad (decode op) = Some f -> exec ev s op = Ret true (quad_exec f s op).
Proof. intros Hs E. by apply quad_follows. Qed.

(** [rotqbybi $3, $1, $2] by 12 bits' worth of bytes. *)
Lemma spu_quad_spec_witness :
  exec ex_env (ex_spu 0x0102030405060708090a0b0c0d0e0f10 (Z.shiftl 12 96) 0) 0x39808083 =
    Ret true (setG 3 0x02030405060708090a0b0c0d0e0f1001 (ex_spu 0x0102030405060708090a0b0c0d0e0f10 (Z.shiftl 12 96) 0)).
Proof.
  assert (decode 0x39808083 = spu_itype.ROTQBYBI) as D by (vm_compute; reflexivity).
  assert (quad (decode 0x39808083) = Some (fun _ a b => rot128 a (8 * (word3 b / 8)))) as E by (rewrite D; reflexivity).
  assert (wf_spu (ex_spu 0x0102030405060708090a0b0c0d0e0f10 (Z.shiftl 12 96) 0)) as Hwf by (apply ex_spu_wf; in_range).
  rewrite (spu_quad_spec ex_env _ _ _ Hwf E).
  vm_compute. reflexivity.
Defined.
