(* ===== verification/SpuProgram.v ===== *)
(** * SPU programs in the local store

    Instruction words from their fields, straight-line code in the local store
    run by the interpreter loop, and the multi-instruction idioms the
    instruction set is designed for: 32-bit products from 16-bit ones, 128-bit
    sums from carries, shifts of a register by any number of bits. *)

From stdpp Require Import base numbers list tactics.
From Stdlib Require Import Lia.
From S2P Require Import Prelude Asm PpuInstruction Simd SimdOps SimdSpec SimdWide SpuOpcode SpuThread SpuOps SpuSpec SpuQuad.
Import Spu SpuOp spu_interpreter.
Open Scope Z_scope.
Open Scope mach_scope.

(** ** Encoding *)

(** The RR and RI7 forms, with the count in the place of [rb]; the RI10 form;
    the RRR form. *)
Definition rr_word (opc b a t : Z) : Z := opc * 2 ^ 21 + b * 2 ^ 14 + a * 2 ^ 7 + t.

Definition ri10_word (opc i a t : Z) : Z := opc * 2 ^ 24 + wrap 10 i * 2 ^ 14 + a * 2 ^ 7 + t.

Definition rrr_word (opc t b a c : Z) : Z := opc * 2 ^ 28 + t * 2 ^ 21 + b * 2 ^ 14 + a * 2 ^ 7 + c.

Lemma bf_div i n raw : 0 <= i -> 0 < n -> i + n <= 32 -> urange 32 raw -> bf_t_u i n raw = raw / 2 ^ i mod 2 ^ n.
Proof.
  intros Hi Hn Hw Hr. unfold bf_t_u, BitField.extract_u. rewrite (vmask_ones 32 i n), wrap_id, land_low by (done || lia).
  by rewrite Z.shiftr_div_pow2 by lia.
Qed.

Section Fields.
Context (opc b a t : Z).
Hypothesis Hb : urange 7 b.
Hypothesis Ha : urange 7 a.
Hypothesis Ht : urange 7 t.

Lemma rr_fields :
  urange 11 opc ->
  let op := rr_word opc b a t in
  rt op = t /\ ra op = a /\ rb op = b /\ i7 op = b /\ spu_decode op = opc.
Proof.
  intros Ho. unfold rr_word, spu_decode. cbv zeta. unfold urange in *. unfold rt, ra, rb, i7.
  rewrite !bf_div, Z.shiftr_div_pow2 by (unfold urange; lia).
  split_and!; Z.to_euclidean_division_equations; lia.
Qed.

Lemma ri10_fields i :
  urange 8 opc -> srange 10 i ->
  let op := ri10_word opc i a t in
  rt op = t /\ ra op = a /\ si10 op = i /\ spu_decode op >>> 3 = opc.
Proof.
  intros Ho Hi. unfold ri10_word, spu_decode. cbv zeta. pose proof (wrap_range 10 i ltac:(lia)) as Hr.
  pose proof (sext_wrap 10 i ltac:(lia)) as Hs. rewrite (sext_id 10 i) in Hs by (done || lia).
  set (k := wrap 10 i) in *. clearbody k. unfold si10, bf_t_s. rewrite extract_s_sext by lia.
  change (BitField.extract_u 32 14 10) with (bf_t_u 14 10).
  unfold urange in *. unfold rt, ra. rewrite !bf_div, Z.shiftr_shiftr, Z.shiftr_div_pow2 by (unfold urange; lia).
  split_and!; [| |rewrite <- Hs; f_equal|]; Z.to_euclidean_division_equations; lia.
Qed.

Lemma rrr_fields c :
  urange 4 opc -> urange 7 c ->
  let op := rrr_word opc t b a c in
  rt4 op = t /\ ra op = a /\ rb op = b /\ rc op = c /\ rt op = c /\ spu_decode op >>> 7 = opc.
Proof.
  intros Ho Hc. unfold rrr_word, spu_decode. cbv zeta. unfold urange in *. unfold rt4, rt, rc, ra, rb.
  rewrite !bf_div, Z.shiftr_shiftr, Z.shiftr_div_pow2 by (unfold urange; lia).
  split_and!; Z.to_euclidean_division_equations; lia.
Qed.

End Fields.

(** Every word with the opcode bits of a table entry decodes to it. *)
Definition decodes (magn opc : Z) (n : spu_itype.t) : bool :=
  forallb (fun k => bool_decide (m_table !! Z.to_nat k = Some n)) (seqZ (Z.shiftl opc magn) (2 ^ magn)).

Lemma decode_opc magn opc n op :
  0 <= magn -> 0 <= spu_decode op -> spu_decode op >>> magn = opc -> decodes magn opc n = true -> decode op = n.
Proof.
  intros Hm Hd <- H. unfold decodes in H. rewrite forallb_forall in H. specialize (H (spu_decode op)).
  rewrite Z.shiftl_mul_pow2, Z.shiftr_div_pow2 in H by lia. unfold decode.
  assert (In (spu_decode op) (seqZ (spu_decode op / 2 ^ magn * 2 ^ magn) (2 ^ magn))) as Hin.
  { apply list_elem_of_In, elem_of_seqZ. pose proof (pow2_pos magn Hm). Z.to_euclidean_division_equations; lia. }
  specialize (H Hin). apply bool_decide_eq_true in H. by rewrite H.
Qed.

(** ** Straight-line code *)

(** The words of a program at an address of the local store, which the thread
    runs without a state flag set. *)
Fixpoint words_at (m : Z -> Z) (pc : Z) (l : list Z) : Prop :=
  match l with
  | [] => True
  | op :: l => ls_ref 4 m pc = op /\ words_at m (pc + 4) l
  end.

Definition runs (s : spu_thread) (l : list Z) : Prop :=
  wf_spu s /\ state s = 0 /\ pc s + 4 * Z.of_nat (length l) <= SPU_LS_SIZE /\ words_at (ls s) (pc s) l.

(** One register instruction. *)
Lemma run_step ev s op l i v :
  runs s (op :: l) -> exec ev s op = Ret true (setG i v s) -> urange 128 v ->
  old_interpreter (length (op :: l)) ev s = old_interpreter (length l) ev (with_pc (pc s + 4) (setG i v s)) /\
  runs (with_pc (pc s + 4) (setG i v s)) l.
Proof.
  intros (Hwf & Hst & Hpc & Hw & Hl) He Hv. cbn [length] in *. unfold SPU_LS_SIZE in Hpc.
  destruct (wf_pc s Hwf) as [Hr Hm]. unfold urange in Hr.
  assert (advance (setG i v s) = with_pc (pc s + 4) (setG i v s)) as Ea.
  { unfold advance. f_equal. cbn [pc setG with_gpr]. apply wrap_id. unfold urange. lia. }
  split.
  - cbn [old_interpreter]. unfold interpret_turn. rewrite Hst. cbn [Z.eqb]. unfold fetch.
    destruct (Z.ltb_spec (pc s) (2 * SPU_LS_SIZE)); [|unfold SPU_LS_SIZE in *; lia]. by rewrite Hw, He, Ea.
  - split; [|split; [exact Hst|split; [|exact Hl]]].
    + apply wf_with_pc; [by apply wf_setG|unfold urange; lia|]. rewrite <- Hm, <- (Z.mod_add (pc s) 1 4) by lia. done.
    + cbn [pc with_pc]. unfold SPU_LS_SIZE. lia.
Qed.

(** The interpreter runs the whole program, one turn per word, and stops
    right behind it in a thread that satisfies [P]. *)
Definition achieves (ev : env) (s : spu_thread) (l : list Z) (P : spu_thread -> Prop) : Prop :=
  exists s', old_interpreter (length l) ev s = Continue s' /\ wf_spu s' /\
    pc s' = pc s + 4 * Z.of_nat (length l) /\ P s'.

Lemma achieves_nil ev s (P : spu_thread -> Prop) : runs s [] -> P s -> achieves ev s [] P.
Proof. intros H HP. exists s. split_and!; [done|apply H|cbn; lia|done]. Qed.

(** The rule for a register instruction. *)
Lemma achieves_cons ev s op l i v P :
  runs s (op :: l) -> exec ev s op = Ret true (setG i v s) -> urange 7 i -> urange 128 v ->
  (forall s1, runs s1 l -> G s1 i = v -> (forall r, urange 7 r -> r <> i -> G s1 r = G s r) -> ls s1 = ls s -> achieves ev s1 l P) ->
  achieves ev s (op :: l) P.
Proof.
  intros Hr He Hi Hv Hl. destruct (run_step ev s op l i v Hr He Hv) as [Hs Hr'].
  destruct (Hl _ Hr') as (s' & H1 & H2 & H3 & H4).
  - exact (G_setG_eq s i v (proj1 Hr) Hi).
  - intros r Hrr Hn. exact (G_setG_ne s i r v Hi Hrr (not_eq_sym Hn)).
  - done.
  - exists s'. split_and!; [by rewrite Hs|done| |done]. rewrite H3. cbn [pc with_pc length]. lia.
Qed.

(** The rule for a store at the end. *)
Lemma achieves_store ev s op m (P : spu_thread -> Prop) :
  runs s [op] -> exec ev s op = Ret true (with_ls m s) -> (forall a, urange 8 (m a)) ->
  (forall s1, ls s1 = m -> gpr s1 = gpr s -> P s1) -> achieves ev s [op] P.
Proof.
  intros (Hwf & Hst & Hpc & Hw & _) He Hm HP. exists (advance (with_ls m s)). cbn [length] in *. unfold SPU_LS_SIZE in Hpc.
  destruct (wf_pc s Hwf) as [Hr Hmod]. unfold urange in Hr.
  assert (pc (advance (with_ls m s)) = pc s + 4) as Ea by (cbn; apply wrap_id; unfold urange; lia).
  split; [|split; [|split; [rewrite Ea; lia|by apply HP]]].
  - cbn [old_interpreter]. unfold interpret_turn. rewrite Hst. cbn [Z.eqb]. unfold fetch.
    destruct (Z.ltb_spec (pc s) (2 * SPU_LS_SIZE)); [|unfold SPU_LS_SIZE in *; lia]. by rewrite Hw, He.
  - unfold advance. cbn [pc with_ls]. destruct Hwf as [W1 W2 W3 W4 W5 W6].
    constructor; [exact W1|exact W2| |exact W4|exact Hm|exact W6]. cbn [pc with_pc]. rewrite wrap_id by (unfold urange; lia).
    split; [unfold urange; lia|]. by rewrite <- Hmod, <- (Z.mod_add (pc s) 1 4) by lia.
Qed.

(** ** Instructions by their fields *)

Lemma decode_rr opc b a t n :
  urange 7 b -> urange 7 a -> urange 7 t -> urange 11 opc -> decodes 0 opc n = true -> decode (rr_word opc b a t) = n.
Proof.
  intros Hb Ha Ht Ho H. destruct (rr_fields opc b a t Hb Ha Ht Ho) as (_ & _ & _ & _ & E).
  apply (decode_opc 0 opc); [done| |by rewrite Z.shiftr_0_r|done]. rewrite E. apply Ho.
Qed.

Lemma exec_element_rr ev s opc b a t n w f :
  wf_spu s -> urange 7 b -> urange 7 a -> urange 7 t -> urange 11 opc -> decodes 0 opc n = true ->
  element n = Some (w, f) -> spu_itype.quadrop n = false ->
  exec ev s (rr_word opc b a t) =
    Ret true (setG t (vmake w (fun i => f (rr_word opc b a t) (lane w (G s a) i) (lane w (G s b) i) (lane w (G s t) i))) s).
Proof.
  intros Hs Hb Ha Ht Ho Hd He Hq. destruct (rr_fields opc b a t Hb Ha Ht Ho) as (Et & Ea & Eb & _ & _).
  pose proof (element_follows ev n) as H. rewrite He in H. unfold exec. rewrite (decode_rr opc b a t n) by done.
  rewrite H by done. unfold element_exec, target. by rewrite Hq, Et, Ea, Eb.
Qed.

Lemma exec_quad_rr ev s opc b a t n f :
  wf_spu s -> urange 7 b -> urange 7 a -> urange 7 t -> urange 11 opc -> decodes 0 opc n = true -> quad n = Some f ->
  exec ev s (rr_word opc b a t) = Ret true (setG t (f (rr_word opc b a t) (G s a) (G s b)) s).
Proof.
  intros Hs Hb Ha Ht Ho Hd He. destruct (rr_fields opc b a t Hb Ha Ht Ho) as (Et & Ea & Eb & _ & _).
  unfold exec. rewrite (decode_rr opc b a t n), (quad_follows ev n f) by done. unfold quad_exec. by rewrite Et, Ea, Eb.
Qed.

Lemma exec_sfi ev s i a t :
  wf_spu s -> urange 7 a -> urange 7 t -> srange 10 i ->
  exec ev s (ri10_word 0x0c i a t) = Ret true (setG t (vmake 32 (fun k => i - lane 32 (G s a) k)) s).
Proof.
  intros Hs Ha Ht Hi. destruct (ri10_fields 0x0c 0 a t ltac:(in_range) Ha Ht i ltac:(in_range) Hi) as (Et & Ea & Ei & Ed).
  unfold exec. assert (decode (ri10_word 0x0c i a t) = spu_itype.SFI) as ->.
  { apply (decode_opc 3 0x0c); [lia| |done|vm_compute; reflexivity]. apply Z.shiftr_nonneg. unfold ri10_word.
    pose proof (wrap_range 10 i ltac:(lia)). unfold urange in *. lia. }
  pose proof (element_follows ev spu_itype.SFI s (ri10_word 0x0c i a t) Hs) as H. rewrite H.
  unfold element_exec, target. cbn [spu_itype.quadrop]. by rewrite Ea, Et, Ei.
Qed.

(** Mnemonics. *)
Definition mpyh (t a b : Z) : Z := rr_word 0x3c5 b a t.
Definition mpyu (t a b : Z) : Z := rr_word 0x3cc b a t.
Definition add (t a b : Z) : Z := rr_word 0xc0 b a t.
Definition cg (t a b : Z) : Z := rr_word 0xc2 b a t.
Definition cgx (t a b : Z) : Z := rr_word 0x342 b a t.
Definition addx (t a b : Z) : Z := rr_word 0x340 b a t.
Definition shlqbyi (t a i : Z) : Z := rr_word 0x1ff i a t.
Definition rotqbybi (t a b : Z) : Z := rr_word 0x1cc b a t.
Definition rotqbi (t a b : Z) : Z := rr_word 0x1d8 b a t.
Definition shlqbybi (t a b : Z) : Z := rr_word 0x1cf b a t.
Definition shlqbi (t a b : Z) : Z := rr_word 0x1db b a t.
Definition rotqmbybi (t a b : Z) : Z := rr_word 0x1cd b a t.
Definition rotqmbi (t a b : Z) : Z := rr_word 0x1d9 b a t.
Definition sfi (t a i : Z) : Z := ri10_word 0x0c i a t.

(** The range of an opcode and the table entry it selects. *)
Ltac by_opcode := [> in_range | vm_compute; reflexivity].

Section Instructions.
Context (ev : env) (s : spu_thread) (t a b : Z).
Hypothesis Hs : wf_spu s.
Hypothesis Ht : urange 7 t.
Hypothesis Ha : urange 7 a.
Hypothesis Hb : urange 7 b.

Lemma exec_mpyh : exec ev s (mpyh t a b) = Ret true (setG t (vmake 32 (fun i => (lane 32 (G s a) i >>> 16) * u16 (lane 32 (G s b) i) * 2 ^ 16)) s).
Proof. refine (exec_element_rr ev s 0x3c5 b a t spu_itype.MPYH _ _ Hs Hb Ha Ht _ _ eq_refl eq_refl); by_opcode. Qed.

Lemma exec_mpyu : exec ev s (mpyu t a b) = Ret true (setG t (vmake 32 (fun i => u16 (lane 32 (G s a) i) * u16 (lane 32 (G s b) i))) s).
Proof. refine (exec_element_rr ev s 0x3cc b a t spu_itype.MPYU _ _ Hs Hb Ha Ht _ _ eq_refl eq_refl); by_opcode. Qed.

Lemma exec_add : exec ev s (add t a b) = Ret true (setG t (vmake 32 (fun i => lane 32 (G s a) i + lane 32 (G s b) i)) s).
Proof. refine (exec_element_rr ev s 0xc0 b a t spu_itype.A _ _ Hs Hb Ha Ht _ _ eq_refl eq_refl); by_opcode. Qed.

Lemma exec_cg : exec ev s (cg t a b) = Ret true (setG t (vmake 32 (fun i => (lane 32 (G s a) i + lane 32 (G s b) i) / 2 ^ 32)) s).
Proof. refine (exec_element_rr ev s 0xc2 b a t spu_itype.CG _ _ Hs Hb Ha Ht _ _ eq_refl eq_refl); by_opcode. Qed.

Lemma exec_cgx : exec ev s (cgx t a b) = Ret true (setG t (vmake 32 (fun i => (lane 32 (G s a) i + lane 32 (G s b) i + lane 32 (G s t) i mod 2) / 2 ^ 32)) s).
Proof. refine (exec_element_rr ev s 0x342 b a t spu_itype.CGX _ _ Hs Hb Ha Ht _ _ eq_refl eq_refl); by_opcode. Qed.

Lemma exec_addx : exec ev s (addx t a b) = Ret true (setG t (vmake 32 (fun i => lane 32 (G s a) i + lane 32 (G s b) i + lane 32 (G s t) i mod 2)) s).
Proof. refine (exec_element_rr ev s 0x340 b a t spu_itype.ADDX _ _ Hs Hb Ha Ht _ _ eq_refl eq_refl); by_opcode. Qed.

Lemma exec_rotqbybi : exec ev s (rotqbybi t a b) = Ret true (setG t (rot128 (G s a) (8 * (word3 (G s b) / 8))) s).
Proof. refine (exec_quad_rr ev s 0x1cc b a t spu_itype.ROTQBYBI _ Hs Hb Ha Ht _ _ eq_refl); by_opcode. Qed.

Lemma exec_rotqbi : exec ev s (rotqbi t a b) = Ret true (setG t (rot128 (G s a) (word3 (G s b) mod 8)) s).
Proof. refine (exec_quad_rr ev s 0x1d8 b a t spu_itype.ROTQBI _ Hs Hb Ha Ht _ _ eq_refl); by_opcode. Qed.

Lemma exec_shlqbybi : exec ev s (shlqbybi t a b) = Ret true (setG t (u128 (Z.shiftl (G s a) (8 * (word3 (G s b) / 8 mod 32)))) s).
Proof. refine (exec_quad_rr ev s 0x1cf b a t spu_itype.SHLQBYBI _ Hs Hb Ha Ht _ _ eq_refl); by_opcode. Qed.

Lemma exec_shlqbi : exec ev s (shlqbi t a b) = Ret true (setG t (u128 (Z.shiftl (G s a) (word3 (G s b) mod 8))) s).
Proof. refine (exec_quad_rr ev s 0x1db b a t spu_itype.SHLQBI _ Hs Hb Ha Ht _ _ eq_refl); by_opcode. Qed.

Lemma exec_rotqmbybi : exec ev s (rotqmbybi t a b) = Ret true (setG t (G s a >>> (8 * ((- (word3 (G s b) / 8)) mod 32))) s).
Proof. refine (exec_quad_rr ev s 0x1cd b a t spu_itype.ROTQMBYBI _ Hs Hb Ha Ht _ _ eq_refl); by_opcode. Qed.

Lemma exec_rotqmbi : exec ev s (rotqmbi t a b) = Ret true (setG t (G s a >>> ((- word3 (G s b)) mod 8)) s).
Proof. refine (exec_quad_rr ev s 0x1d9 b a t spu_itype.ROTQMBI _ Hs Hb Ha Ht _ _ eq_refl); by_opcode. Qed.

End Instructions.

Lemma exec_shlqbyi ev s t a i :
  wf_spu s -> urange 7 t -> urange 7 a -> urange 7 i ->
  exec ev s (shlqbyi t a i) = Ret true (setG t (u128 (Z.shiftl (G s a) (8 * (i mod 32)))) s).
Proof.
  intros Hs Ht Ha Hi. unfold shlqbyi.
  rewrite (exec_quad_rr ev s 0x1ff i a t spu_itype.SHLQBYI _ Hs Hi Ha Ht ltac:(in_range) ltac:(vm_compute; reflexivity) eq_refl).
  destruct (rr_fields 0x1ff i a t Hi Ha Ht ltac:(in_range)) as (_ & _ & _ & E & _). by rewrite E.
Qed.

(** Run the next instruction with the lemma [L] for it. *)
Ltac step L :=
  match goal with
  | H : runs ?s _ |- achieves _ ?s (_ :: _) _ =>
      let s1 := fresh "s" in let Hr := fresh "Hr" in let Hv := fresh "Hv" in let Ho := fresh "Ho" in
      let Hl := fresh "Hl" in
      refine (achieves_cons _ _ _ _ _ _ _ H (L _ _ _ _ _ (proj1 H) _ _ _) _ _ (fun s1 Hr Hv Ho Hl => _));
      [assumption | assumption | first [assumption | in_range] | assumption
      | first [apply vmake_range; solve [auto with lanes] | apply wrap_range; lia | idtac]
      | ]
  end.

(** Read the registers of the threads on the way. *)
Ltac regs :=
  repeat match goal with
    | Ho : forall r, urange 7 r -> r <> _ -> G ?s1 r = G _ r |- context [G ?s1 ?x] =>
        rewrite (Ho x) by (assumption || congruence)
    | Hv : G ?s1 ?x = _ |- context [G ?s1 ?x] => rewrite Hv
    end.

(** Disequalities of registers from list membership. *)
Ltac distinct :=
  repeat match goal with
    | H : NoDup (_ :: _) |- _ => apply list.NoDup_cons in H as [? H]
    | H : _ ∉ _ :: _ |- _ => apply not_elem_of_cons in H as [? H]
    | H : Forall _ (_ :: _) |- _ => apply Forall_cons_1 in H as [? H]
    end.

(** ** 32-bit products *)

Definition mul_prog (t u v a b : Z) : list Z :=
  [mpyh t a b; mpyh u b a; mpyu v a b; add t t u; add t t v].

Lemma mul_words x y :
  urange 32 x -> urange 32 y ->
  u32 (u32 (u32 ((x >>> 16) * u16 y * 2 ^ 16) + u32 ((y >>> 16) * u16 x * 2 ^ 16)) + u32 (u16 x * u16 y)) = u32 (x * y).
Proof.
  intros Hx Hy. set (p := x >>> 16). set (q := u16 x). set (r := y >>> 16). set (w := u16 y).
  assert (x = p * 2 ^ 16 + q /\ y = r * 2 ^ 16 + w) as [Ex Ey].
  { unfold p, q, r, w, wrap. rewrite !Z.shiftr_div_pow2 by lia. Z.to_euclidean_division_equations; lia. }
  clearbody p q r w. subst x y. rewrite wrap_add_r, wrap_add_l, <- Z.add_assoc, wrap_add_l, Z.add_assoc by lia.
  rewrite <- Z.add_assoc, (Z.add_comm (u32 _)), Z.add_assoc, wrap_add_r by lia.
  replace ((p * 2 ^ 16 + q) * (r * 2 ^ 16 + w)) with (p * w * 2 ^ 16 + q * w + r * q * 2 ^ 16 + p * r * 2 ^ 32) by ring.
  by rewrite wrap_add_mul by lia.
Qed.

(** The sequence the instruction set intends for a 32-bit product: two
    [mpyh], one [mpyu] and two additions, as machine code in the local store,
    leave in every word of [t] the low 32 bits of the product of the words of
    [a] and [b]; only [t], [u] and [v] change. *)
Theorem spu_multiply_idiom (ev : env) (s : spu_thread) (t u v a b : Z) :
  Forall (urange 7) [t; u; v; a; b] -> NoDup [t; u; v] -> a ∉ [t; u; v] -> b ∉ [t; u; v] ->
  runs s (mul_prog t u v a b) ->
  achieves ev s (mul_prog t u v a b) (fun s' =>
    G s' t = vzip 32 Z.mul (G s a) (G s b) /\
    forall r, urange 7 r -> r ∉ [t; u; v] -> G s' r = G s r).
Proof.
  intros HF Hn Hna Hnb Hr. distinct. unfold mul_prog in *.
  step exec_mpyh. step exec_mpyh. step exec_mpyu. step exec_add. step exec_add.
  apply achieves_nil; [done|]. split.
  - regs. unfold vzip. apply vmake_ext; [auto with lanes|]. intros i Hi. rewrite !lane_vmake by (done || auto with lanes).
    apply mul_words; apply lane_range; lia.
  - intros r Hrr Hin. distinct. by regs.
Qed.

(** A thread with the program [l] at address 0. *)
Definition code (l : list Z) (a : Z) : Z := default 0 (concat (be_split 4 <$> l) !! Z.to_nat a).

Definition ex_code (l : list Z) (a b : Z) : spu_thread :=
  with_ls (code l) (ex_spu a b 0).

Lemma ex_code_runs l a b :
  urange 128 a -> urange 128 b -> Z.of_nat (length l) < 100 -> words_at (code l) 0 l -> runs (ex_code l a b) l.
Proof.
  intros Ha Hb Hl Hw. split; [|split; [done|split; [cbn; unfold SPU_LS_SIZE; lia|done]]].
  destruct (ex_spu_wf a b 0 Ha Hb urange_128_0). constructor; try done.
  intros x. cbn. unfold code. destruct (_ !! _) as [y|] eqn:E; [|done].
  apply list_elem_of_lookup_2, list_elem_of_In, in_concat in E as (c & Hc & Hy).
  apply in_map_iff in Hc as (w & <- & _). pose proof (be_split_Forall 4 w) as H. rewrite List.Forall_forall in H. by apply H.
Qed.

(** 123456789 times itself, and -1 times 7. *)
Lemma spu_multiply_idiom_witness :
  exists s', old_interpreter 5 ex_env (ex_code (mul_prog 3 4 5 1 2) 0x075bcd15ffffffff 0x075bcd1500000007) = Continue s' /\
    G s' 3 = 0x9738a3b9fffffff9.
Proof.
  edestruct (spu_multiply_idiom ex_env (ex_code (mul_prog 3 4 5 1 2) 0x075bcd15ffffffff 0x075bcd1500000007) 3 4 5 1 2)
    as (s' & H1 & _ & _ & H2 & _).
  - repeat first [apply Forall_nil_2 | apply Forall_cons_2; [in_range|]].
  - apply (bool_decide_unpack _). vm_compute. reflexivity.
  - apply (bool_decide_unpack _). vm_compute. reflexivity.
  - apply (bool_decide_unpack _). vm_compute. reflexivity.
  - apply ex_code_runs; [in_range|in_range|cbn; lia|]. repeat split; vm_compute; reflexivity.
  - exists s'. split; [exact H1|]. rewrite H2. vm_compute. reflexivity.
Defined.

(** ** 128-bit sums *)

(** The carries of the words, moved one word up twice more, then the sum. *)
Definition add128_prog (t a b : Z) : list Z :=
  [cg t a b; shlqbyi t t 4; cgx t a b; shlqbyi t t 4; cgx t a b; shlqbyi t t 4; addx t a b].

(** A register from its words. *)
Lemma four_words v :
  urange 128 v -> v = lane 32 v 0 + 2 ^ 32 * lane 32 v 1 + 2 ^ 64 * lane 32 v 2 + 2 ^ 96 * lane 32 v 3.
Proof.
  intros Hv. rewrite <- (vmake_lane 32 v) at 1 by (done || auto with lanes). unfold vmake.
  change (seqZ 0 (128 / 32)) with [0; 1; 2; 3]. cbn [fmap list_fmap le_radix].
  rewrite !(wrap_id 32) by (apply lane_range; lia). lia.
Qed.

Lemma lane_shl32 v i :
  0 <= i < 4 -> lane 32 (u128 (Z.shiftl v 32)) i = if i =? 0 then 0 else lane 32 v (i - 1).
Proof.
  intros Hi. apply Z.bits_inj'. intros j Hj. rewrite testbit_in_lane, testbit_wrap, Z.shiftl_spec by lia.
  destruct (Z.ltb_spec j 32); destruct (Z.eqb_spec i 0); rewrite ?testbit_in_lane by lia; rewrite ?Z.bits_0; cbn [andb].
  - rewrite Z.testbit_neg_r by lia. apply andb_false_r.
  - destruct (Z.ltb_spec (32 * i + j) 128); [|lia]. destruct (Z.ltb_spec j 32); [|lia]. cbn [andb]. f_equal. lia.
  - done.
  - by destruct (Z.ltb_spec j 32); [lia|].
Qed.

(** The ripple of the carries: the words of the sum. *)
Lemma ripple a b :
  urange 128 a -> urange 128 b ->
  let c0 := (lane 32 a 0 + lane 32 b 0) / 2 ^ 32 in
  let c1 := (lane 32 a 1 + lane 32 b 1 + c0) / 2 ^ 32 in
  let c2 := (lane 32 a 2 + lane 32 b 2 + c1) / 2 ^ 32 in
  u128 (a + b) =
    u32 (lane 32 a 0 + lane 32 b 0) + 2 ^ 32 * u32 (lane 32 a 1 + lane 32 b 1 + c0) +
    2 ^ 64 * u32 (lane 32 a 2 + lane 32 b 2 + c1) + 2 ^ 96 * u32 (lane 32 a 3 + lane 32 b 3 + c2).
Proof.
  intros Ha Hb. cbv zeta. rewrite (four_words a Ha), (four_words b Hb) at 1.
  repeat match goal with |- context [lane 32 ?v ?k] => let x := fresh "x" in name_lane 32 v k x end.
  unfold urange, wrap in *. Z.to_euclidean_division_equations. lia.
Qed.

(** One [cgx] after the carries [c] have moved up a word. *)
Lemma lane_carry x y c i :
  0 <= i < 4 ->
  lane 32 (vmake 32 (fun i => (lane 32 x i + lane 32 y i + lane 32 (u128 (Z.shiftl c 32)) i mod 2) / 2 ^ 32)) i =
    (lane 32 x i + lane 32 y i + (if i =? 0 then 0 else lane 32 c (i - 1) mod 2)) / 2 ^ 32.
Proof.
  intros Hi. rewrite lane_vmake, lane_shl32 by (cnts; lia || auto with lanes).
  replace ((if i =? 0 then 0 else lane 32 c (i - 1)) mod 2) with (if i =? 0 then 0 else lane 32 c (i - 1) mod 2)
    by (by destruct (i =? 0)).
  apply wrap_id. name_lane 32 x i p. name_lane 32 y i q.
  assert (0 <= (if i =? 0 then 0 else lane 32 c (i - 1) mod 2) < 2) as Hc
    by (destruct (i =? 0); [lia|apply Z.mod_pos_bound; lia]).
  generalize dependent (if i =? 0 then 0 else lane 32 c (i - 1) mod 2). intros k Hk.
  unfold urange in *. Z.to_euclidean_division_equations; lia.
Qed.

Lemma carry_bit x y k i : 0 <= k < 2 -> 0 <= (lane 32 x i + lane 32 y i + k) / 2 ^ 32 < 2.
Proof.
  intros Hk. name_lane 32 x i p. name_lane 32 y i q. unfold urange in *. Z.to_euclidean_division_equations; lia.
Qed.

(** The extended-carry instructions chain: [cg], two [cgx] and [addx], with
    the carries moved up one word by [shlqbyi] between them, add two registers
    as 128-bit numbers.  Only the target changes. *)
Theorem spu_add128_idiom (ev : env) (s : spu_thread) (t a b : Z) :
  Forall (urange 7) [t; a; b] -> a <> t -> b <> t ->
  runs s (add128_prog t a b) ->
  achieves ev s (add128_prog t a b) (fun s' =>
    G s' t = u128 (G s a + G s b) /\ forall r, urange 7 r -> r <> t -> G s' r = G s r).
Proof.
  intros HF Hna Hnb Hr. distinct. pose proof (G_range s a (proj1 Hr) ltac:(assumption)) as Ra.
  pose proof (G_range s b (proj1 Hr) ltac:(assumption)) as Rb. unfold add128_prog in *.
  step exec_cg. step exec_shlqbyi. step exec_cgx. step exec_shlqbyi. step exec_cgx. step exec_shlqbyi. step exec_addx.
  apply achieves_nil; [done|]. split; [|intros r Hrr Hne; by regs].
  regs. change (8 * (4 mod 32)) with 32. set (x := G s a) in *. set (y := G s b) in *.
  rewrite ripple by done. rewrite (four_words (vmake 32 _)) by (apply vmake_range; auto with lanes).
  rewrite !lane_vmake, !lane_shl32 by (cnts; lia || auto with lanes). cbn [Z.eqb Z.sub Z.add Z.opp Pos.sub].
  change (1 - 1) with 0. change (2 - 1) with 1. change (3 - 1) with 2.
  set (v := vmake 32 (fun i => (lane 32 x i + lane 32 y i) / 2 ^ 32)).
  assert (lane 32 v 0 = (lane 32 x 0 + lane 32 y 0) / 2 ^ 32) as E.
  { unfold v. rewrite lane_vmake by (cnts; lia || auto with lanes). pose proof (carry_bit x y 0 0 ltac:(lia)) as Hc.
    rewrite Z.add_0_r in Hc. apply wrap_id. unfold urange. lia. }
  pose proof (lane_carry x y v) as C1. set (v1 := vmake 32 _) in C1 at 1. fold v1.
  pose proof (lane_carry x y v1) as C2. set (v2 := vmake 32 _) in C2 at 1. fold v2.
  rewrite (C2 0), (C2 1), (C2 2) by lia. eval_consts. cbv iota. rewrite (C1 0), (C1 1) by lia. eval_consts. cbv iota.
  rewrite E, !Z.add_0_r. eval_consts. clear.
  pose proof (carry_bit x y 0 0 ltac:(lia)) as B0. rewrite Z.add_0_r in B0.
  change (2 ^ 32) with 4294967296 in B0. rewrite !(Z.mod_small _ 2 B0).
  pose proof (carry_bit x y _ 1 B0) as B1. change (2 ^ 32) with 4294967296 in B1. rewrite !(Z.mod_small _ 2 B1).
  pose proof (carry_bit x y _ 2 B1) as B2. change (2 ^ 32) with 4294967296 in B2. by rewrite (Z.mod_small _ 2 B2).
Qed.

(** The sum of a number with every word carrying. *)
Lemma spu_add128_idiom_witness :
  exists s', old_interpreter 7 ex_env (ex_code (add128_prog 3 1 2) 0x0123456789abcdefffffffffffffffff 1) = Continue s' /\
    G s' 3 = 0x0123456789abcdf00000000000000000.
Proof.
  edestruct (spu_add128_idiom ex_env (ex_code (add128_prog 3 1 2) 0x0123456789abcdefffffffffffffffff 1) 3 1 2)
    as (s' & H1 & _ & _ & H2 & _).
  - repeat first [apply Forall_nil_2 | apply Forall_cons_2; [in_range|]].
  - lia.
  - lia.
  - apply ex_code_runs; [in_range|in_range|cbn; lia|]. repeat split; vm_compute; reflexivity.
  - exists s'. split; [exact H1|]. rewrite H2. vm_compute. reflexivity.
Defined.

(** ** Shifts by bits *)

Definition rotl_prog (t a b : Z) : list Z := [rotqbybi t a b; rotqbi t t b].

Definition shl_prog (t a b : Z) : list Z := [shlqbybi t a b; shlqbi t t b].

(** A logical right shift needs the negated count, and for the bytes the
    count rounded up. *)
Definition shr_prog (t c a b : Z) : list Z := [sfi c b 7; rotqmbybi t a c; sfi c b 0; rotqmbi t t c].

Lemma shl_shl a n m : 0 <= n -> 0 <= m -> u128 (Z.shiftl (u128 (Z.shiftl a n)) m) = u128 (Z.shiftl a (n + m)).
Proof.
  intros Hn Hm. apply Z.bits_inj'. intros p Hp. rewrite !testbit_wrap, !Z.shiftl_spec by lia.
  destruct (Z.ltb_spec p 128); [|done]. cbn [andb]. destruct (Z.lt_ge_cases p m).
  - rewrite !Z.testbit_neg_r by lia. done.
  - rewrite testbit_wrap, Z.shiftl_spec by lia. destruct (Z.ltb_spec (p - m) 128); [|lia]. cbn [andb]. f_equal. lia.
Qed.

(** Pairs of quadword instructions shift by any number of bits: the byte
    form followed by the bit form with the same count register rotates left by
    the count and shifts left by it modulo 256; with the counts that [sfi]
    makes, the masked forms shift right by it modulo 256. *)
Theorem spu_shift_idioms (ev : env) (s : spu_thread) (t c a b : Z) :
  Forall (urange 7) [t; c; a; b] -> b <> t -> c <> a -> c <> b -> c <> t ->
  (runs s (rotl_prog t a b) ->
   achieves ev s (rotl_prog t a b) (fun s' => G s' t = rot128 (G s a) (word3 (G s b)))) /\
  (runs s (shl_prog t a b) ->
   achieves ev s (shl_prog t a b) (fun s' => G s' t = u128 (Z.shiftl (G s a) (word3 (G s b) mod 256)))) /\
  (runs s (shr_prog t c a b) ->
   achieves ev s (shr_prog t c a b) (fun s' => G s' t = G s a >>> (word3 (G s b) mod 256))).
Proof.
  intros HF Hbt Hca Hcb Hct. distinct. split_and!; intros Hr.
  - unfold rotl_prog in *. step exec_rotqbybi. step exec_rotqbi.
    apply achieves_nil; [done|]. regs.
    rewrite rot128_rot128 by (apply G_range; [apply Hr|done]). f_equal. symmetry. apply Z.div_mod. lia.
  - unfold shl_prog in *. step exec_shlqbybi. step exec_shlqbi. apply achieves_nil; [done|]. regs.
    rewrite shl_shl by (Z.to_euclidean_division_equations; lia). do 2 f_equal. Z.to_euclidean_division_equations; lia.
  - unfold shr_prog in *. assert (srange 10 7 /\ srange 10 0) as [] by (split; in_range).
    assert (forall v n, urange 128 v -> 0 <= n mod 32 -> urange 128 (v >>> (8 * (n mod 32)))) as R1
      by (intros; apply shiftr_urange; done || lia).
    step exec_sfi. step exec_rotqmbybi; [apply R1; [apply G_range; [apply Hr0|done]|apply Z.mod_pos_bound; lia]|].
    step exec_sfi. step exec_rotqmbi; [apply shiftr_urange; [lia|apply Z.mod_pos_bound; lia|apply G_range; [apply Hr2|done]]|].
    apply achieves_nil; [done|]. regs. unfold word3. rewrite !lane_vmake by (cnts; lia || auto with lanes).
    name_lane 32 (G s b) 3 n. rewrite Z.shiftr_shiftr by (apply Z.mod_pos_bound; lia). f_equal. unfold urange, wrap in *.
    change (2 ^ 32) with (2 ^ 24 * 256). Z.to_euclidean_division_equations; lia.
Qed.

(** A right shift by 20 bits. *)
Lemma spu_shift_idioms_witness :
  exists s', old_interpreter 4 ex_env
      (ex_code (shr_prog 3 4 1 2) 0x0102030405060708090a0b0c0d0e0f10 (Z.shiftl 20 96)) = Continue s' /\
    G s' 3 = 0x102030405060708090a0b0c0d0.
Proof.
  edestruct (spu_shift_idioms ex_env (ex_code (shr_prog 3 4 1 2) 0x0102030405060708090a0b0c0d0e0f10 (Z.shiftl 20 96)) 3 4 1 2)
    as (_ & _ & H).
  - repeat first [apply Forall_nil_2 | apply Forall_cons_2; [in_range|]].
  - lia.
  - lia.
  - lia.
  - lia.
  - destruct H as (s' & H1 & _ & _ & H2).
    { apply ex_code_runs; [in_range|in_range|cbn; lia|]. repeat split; vm_compute; reflexivity. }
    exists s'. split; [exact H1|]. rewrite H2. vm_compute. reflexivity.
Defined.
