(* ===== verification/SpuShuffle.v ===== *)
(** * SPU shuffles, insertion masks and bit masks

    [shufb] selects any byte of two registers or a constant; the interpreter
    function and the two assembly sequences of [optimized_shufb] agree.  The
    masks that [cbd] and its kin make, used with [shufb], insert one element
    into a quadword.  The gather and form-select-mask instructions convert
    between masks and bits. *)

From stdpp Require Import base numbers list tactics.
From Stdlib Require Import Lia.
From S2P Require Import Prelude Asm PpuInstruction Simd SimdOps SimdSpec SimdWide SimdShift SpuOpcode SpuThread SpuOps SpuSpec SpuProgram.
Import Spu SpuOp spu_interpreter.
Open Scope Z_scope.
Open Scope mach_scope.

(** ** Shuffle *)

(** Byte [j] of a register in the architecture's numbering, from the most
    significant. *)
Definition byte_at (v j : Z) : Z := lane 8 v (15 - j).

(** What a control byte selects from the bytes of [a] and [b]. *)
Definition select_byte (a b c : Z) : Z :=
  if 0xe0 <=? c then 0x80 else if 0xc0 <=? c then 0xff else if 0x80 <=? c then 0
  else let k := c mod 32 in if k <? 16 then byte_at a k else byte_at b (k - 16).

Definition shuffle (a b c : Z) : Z := vmake 8 (fun i => select_byte a b (lane 8 c i)).

(** A property of every byte, by evaluation. *)
Lemma bytes_ok (P : Z -> bool) c : forallb P (seqZ 0 256) = true -> urange 8 c -> P c = true.
Proof.
  intros H Hc. rewrite forallb_forall in H. apply H, list_elem_of_In, elem_of_seqZ. unfold urange in Hc. lia.
Qed.

(** The constant the average of the two comparisons adds, and 0. *)
Definition special (c : Z) : Z := if 0xe0 <=? c then 0x80 else if 0xc0 <=? c then 0xff else 0.

Lemma avg_special c :
  urange 8 c ->
  u8 ((u8 (mask (c &&& 0xc0 =? 0xc0)) + u8 (mask (c &&& 0xe0 =? 0xc0)) + 1) >>> 1) = special c.
Proof.
  intros Hc. apply Z.eqb_eq. revert Hc.
  apply (bytes_ok (fun c => u8 ((u8 (mask (c &&& 0xc0 =? 0xc0)) + u8 (mask (c &&& 0xe0 =? 0xc0)) + 1) >>> 1) =? special c)).
  vm_compute. reflexivity.
Qed.

(** The selected byte before the constants: index, register and sign. *)
Lemma index_special c :
  urange 8 c ->
  Z.ldiff 0x1f c = 31 - c mod 32 /\ (s8 c <? 0) = (0x80 <=? c) /\ (special c = 0 \/ (s8 c <? 0) = true) /\
  ((0x80 <=? c) = false -> special c = 0).
Proof.
  intros Hc. pose proof (bytes_ok (fun c => (Z.ldiff 0x1f c =? 31 - c mod 32) && Bool.eqb (s8 c <? 0) (0x80 <=? c)
    && ((special c =? 0) || (s8 c <? 0)) && ((0x80 <=? c) || (special c =? 0))) c ltac:(vm_compute; reflexivity) Hc) as H.
  cbv beta in H. rewrite !andb_true_iff, !orb_true_iff, !Z.eqb_eq in H. destruct H as [[[H1 H2] H3] H4].
  apply eqb_prop in H2. split_and!; [done|done|done|]. intros E. rewrite E in H4. by destruct H4.
Qed.

Lemma select_byte_range a b c : urange 8 (select_byte a b c).
Proof.
  unfold select_byte, byte_at. cbv zeta. repeat case_match; try done; apply lane_range; lia.
Qed.

(** A byte selected by its control, or the constant. *)
Lemma plain_or_special a b c y :
  urange 8 c -> (c < 0x80 -> y = select_byte a b c) ->
  (if 0x80 <=? c then 0 else y) ||| special c = select_byte a b c.
Proof.
  intros Hc Hy. destruct (index_special c Hc) as (_ & _ & _ & Z0).
  destruct (Z.leb_spec 0x80 c).
  - rewrite Z.lor_0_l. unfold special, select_byte. cbv zeta.
    destruct (Z.leb_spec 0xe0 c); [done|]. destruct (Z.leb_spec 0xc0 c); [done|]. by destruct (Z.leb_spec 0x80 c); [|lia].
  - rewrite Z0, Z.lor_0_r by done. by apply Hy.
Qed.

Lemma shufb_spec a b c : urange 128 a -> urange 128 b -> urange 128 c -> shufb a b c = shuffle a b c.
Proof.
  intros Ha Hb Hc. unfold shufb, shuffle. cbv zeta. by_lanes 8 i.
  name_lane 8 c i x. change (u8 31) with 31. change (u8 (s8 192)) with 0xc0. change (u8 (s8 224)) with 0xe0.
  destruct (index_special x Hx) as (E & S & _ & Z0). change (s8 0) with 0.
  rewrite avg_special, S, E, ldiff_mask, (wrap_id 8 (select_byte _ _ _)) by (done || lia || lrange || apply select_byte_range).
  apply plain_or_special; [done|]. intros Hlt. unfold select_byte, byte_at. cbv zeta.
  destruct (Z.leb_spec 0xe0 x); [lia|]. destruct (Z.leb_spec 0xc0 x); [lia|]. destruct (Z.leb_spec 0x80 x); [lia|].
  rewrite wrap_id by (case_match; apply lane_range; lia).
  destruct (Z.ltb_spec (31 - x mod 32) 16); destruct (Z.ltb_spec (x mod 32) 16); try lia; f_equal; lia.
Qed.

(** The control byte of the assembly: the index complemented, the sign kept,
    and the bit that picks the register moved to the sign position. *)
Lemma asm_index c :
  urange 8 c ->
  (s8 (c ^^^ 0x0f) <? 0) = (0x80 <=? c) /\ (c ^^^ 0x0f) &&& 15 = 15 - c mod 16 /\
  (c ^^^ 0x0f) &&& 0xc0 = c &&& 0xc0 /\ Z.testbit (c ^^^ 0x0f) 4 = (16 <=? c mod 32).
Proof.
  intros Hc. pose proof (bytes_ok (fun c => Bool.eqb (s8 (c ^^^ 0x0f) <? 0) (0x80 <=? c) &&
    ((c ^^^ 0x0f) &&& 15 =? 15 - c mod 16) && ((c ^^^ 0x0f) &&& 0xc0 =? c &&& 0xc0) &&
    Bool.eqb (Z.testbit (c ^^^ 0x0f) 4) (16 <=? c mod 32)) c ltac:(vm_compute; reflexivity) Hc) as H.
  cbv beta in H. rewrite !andb_true_iff, !Z.eqb_eq in H. destruct H as [[[H1 H2] H3] H4].
  apply eqb_prop in H1. apply eqb_prop in H4. done.
Qed.

(** The sign of a byte of the shifted control words. *)
Lemma shl3_sign v i : 0 <= i < 16 -> (slane 8 (mm_slli_epi 32 v 3) i <? 0) = Z.testbit (lane 8 v i) 4.
Proof.
  intros Hi. rewrite sign_slane by lia. unfold mm_slli_epi, vmap. rewrite testbit_vmake by (lia || auto with lanes).
  destruct (Z.ltb_spec (8 * i + (8 - 1)) 128); [|lia]. change (32 <=? 3) with false. cbv iota. cbn [andb].
  rewrite Z.shiftl_spec, !testbit_in_lane by (lia || (Z.to_euclidean_division_equations; lia)).
  destruct (Z.ltb_spec ((8 * i + (8 - 1)) mod 32 - 3) 32); [|Z.to_euclidean_division_equations; lia].
  change (4 <? 8) with true. cbn [andb]. f_equal. Z.to_euclidean_division_equations; lia.
Qed.

(** The common part of the two sequences: the shuffles by the complemented
    index, the choice between them, and the constants. *)
Lemma asm_byte a b c i x :
  0 <= i < 16 -> urange 8 c -> x = c ^^^ 0x0f ->
  let pa := if s8 x <? 0 then 0 else lane 8 a (x &&& 15) in
  let pb := if s8 x <? 0 then 0 else lane 8 b (x &&& 15) in
  special c ||| (if Z.testbit x 4 then pb else pa) = select_byte a b c.
Proof.
  intros Hi Hc ->. cbv zeta. destruct (asm_index c Hc) as (-> & -> & _ & ->).
  rewrite Z.lor_comm. transitivity ((if 0x80 <=? c then 0 else if 16 <=? c mod 32 then lane 8 b (15 - c mod 16) else lane 8 a (15 - c mod 16)) ||| special c).
  { f_equal. by destruct (0x80 <=? c), (16 <=? c mod 32). }
  apply plain_or_special; [done|]. intros Hlt. unfold select_byte, byte_at. cbv zeta.
  destruct (Z.leb_spec 0xe0 c); [lia|]. destruct (Z.leb_spec 0xc0 c); [lia|]. destruct (Z.leb_spec 0x80 c); [lia|].
  destruct (Z.leb_spec 16 (c mod 32)); destruct (Z.ltb_spec (c mod 32) 16); try lia; f_equal;
    Z.to_euclidean_division_equations; lia.
Qed.

Lemma lane_xor_0f c i : 0 <= i < 16 -> lane 8 (mm_xor c (mm_set1_epi 8 0x0f)) i = lane 8 c i ^^^ 0x0f.
Proof. intros. unfold mm_xor, mm_set1_epi. by rewrite lane_lxor, lane_vmake by (cnts; lia || auto with lanes). Qed.

Lemma lane_and_cst c k i : 0 <= i < 16 -> urange 8 k -> lane 8 (mm_and c (mm_set1_epi 8 k)) i = lane 8 c i &&& k.
Proof. apply lane_mask8. Qed.

(** The constants, in every byte. *)
Lemma lane_special c i :
  0 <= i < 16 -> urange 8 (lane 8 c i) ->
  lane 8 (mm_avg_epu 8 (mm_cmpeq_epi 8 (mm_and c (mm_set1_epi 8 0xc0)) (mm_set1_epi 8 0xc0))
                       (mm_cmpeq_epi 8 (mm_and c (mm_set1_epi 8 0xe0)) (mm_set1_epi 8 0xc0))) i = special (lane 8 c i).
Proof.
  intros Hi Hc. unfold mm_avg_epu, mm_cmpeq_epi, mm_set1_epi, mm_and. cnts. lane_push. by apply avg_special.
Qed.

Lemma lane_pshufb v c i :
  0 <= i < 16 -> lane 8 (mm_shuffle_epi8 v c) i = if s8 (lane 8 c i) <? 0 then 0 else lane 8 v (lane 8 c i &&& 15).
Proof.
  intros. unfold mm_shuffle_epi8. rewrite lane_vmake, slane_lane by (cnts; lia || auto with lanes).
  apply wrap_id. case_match; [done|apply lane_range; lia].
Qed.

(** Both read the comparison of the constants from the complemented control,
    which has the same two top bits. *)
Lemma top_bits c : urange 128 c ->
  mm_and (mm_xor c (mm_set1_epi 8 0x0f)) (mm_set1_epi 8 0xc0) = mm_and c (mm_set1_epi 8 0xc0).
Proof.
  intros Hc. apply (vec_ext 8); [auto with lanes|unfold mm_and, mm_xor, mm_set1_epi; vrange..|]. intros i Hi. cnts.
  rewrite !lane_mask8, lane_xor_0f by (lia || done).
  destruct (asm_index (lane 8 c i) ltac:(apply lane_range; lia)) as (_ & _ & -> & _). done.
Qed.

(** The comparison with -1 that stands for the missing blend. *)
Lemma lane_above x i :
  0 <= i < 16 ->
  lane 8 (mm_cmpgt_epi 8 (mm_slli_epi 32 x 3) (mm_cmpeq_epi 8 (mm_set1_epi 8 192) (mm_set1_epi 8 192))) i =
    u8 (mask (negb (Z.testbit (lane 8 x i) 4))).
Proof.
  intros Hi. replace (mm_cmpeq_epi 8 (mm_set1_epi 8 192) (mm_set1_epi 8 192)) with (mm_set1_epi 8 (-1)) by reflexivity.
  unfold mm_cmpgt_epi, vzips. rewrite lane_vmake, slane_set1 by (cnts; lia || auto with lanes). change (s8 (-1)) with (-1).
  rewrite <- shl3_sign by lia. do 2 f_equal. zbool; lia || done.
Qed.

Lemma shufb_avx_spec a b c : urange 128 a -> urange 128 b -> urange 128 c -> shufb_avx a b c = shuffle a b c.
Proof.
  intros Ha Hb Hc. unfold shufb_avx. cbv zeta. rewrite top_bits by done. set (x := mm_xor c _).
  apply (vec_ext 8); [auto with lanes|unfold mm_or, mm_avg_epu, mm_blendv_epi8; vrange..|]. intros i Hi. cnts.
  unfold mm_or. rewrite lane_lor, lane_special by (lia || apply lane_range; lia).
  unfold shuffle, mm_blendv_epi8. rewrite !lane_vmake, shl3_sign, !lane_pshufb by (cnts; lia || auto with lanes).
  rewrite (wrap_id 8 (select_byte _ _ _)) by apply select_byte_range.
  rewrite (wrap_id 8) by (repeat case_match; done || apply lane_range; lia).
  apply (asm_byte a b (lane 8 c i) i); [done|apply lane_range; lia|]. unfold x. by apply lane_xor_0f.
Qed.

Lemma shufb_ssse3_spec a b c : urange 128 a -> urange 128 b -> urange 128 c -> shufb_ssse3 a b c = shuffle a b c.
Proof.
  intros Ha Hb Hc. unfold shufb_ssse3. cbv zeta. set (x := mm_xor c _).
  apply (vec_ext 8); [auto with lanes| |apply vmake_range; auto with lanes|].
  { apply lor_urange; [lia|apply vmake_range; auto with lanes|]. apply lor_urange; [lia| |].
    - apply ldiff_urange; [lia|]. apply vmake_range. auto with lanes.
    - apply land_urange2; [lia| |]; apply vmake_range; auto with lanes. }
  intros i Hi. cnts.
  unfold mm_or. rewrite !lane_lor, lane_special by (lia || apply lane_range; lia).
  unfold shuffle. rewrite lane_vmake by (cnts; lia || auto with lanes).
  rewrite (wrap_id 8 (select_byte _ _ _)) by apply select_byte_range.
  unfold mm_andnot, mm_and. rewrite lane_ldiff, lane_land, lane_above, ldiff_mask, Z.land_comm, land_mask
    by (lia || apply lane_range; lia).
  rewrite !lane_pshufb by lia. rewrite <- (asm_byte a b (lane 8 c i) i (lane 8 x i)) by (lia || (apply lane_range; lia) || (unfold x; by apply lane_xor_0f)).
  f_equal. destruct (Z.testbit (lane 8 x i) 4); cbn [negb]; rewrite ?Z.lor_0_l, ?Z.lor_0_r; done.
Qed.

(** C30: The interpreter's [SHUFB], the AVX and the SSSE3 sequences that
    [optimized_shufb] assembles for it compute the same register: each byte is
    the byte of [ra] or [rb] its control byte names, or the constant 0, 0xff or
    0x80. *)
Theorem spu_shufb_agree (s : spu_thread) (op : Z) (has_avx : bool) :
  wf_spu s ->
  SHUFB s op = optimized_shufb has_avx s op /\
  SHUFB s op = Ret true (setG (rt4 op) (shuffle (G s (ra op)) (G s (rb op)) (G s (rc op))) s).
Proof.
  intros Hs. unfold SHUFB, optimized_shufb, rrrr.
  assert (urange 128 (G s (ra op)) /\ urange 128 (G s (rb op)) /\ urange 128 (G s (rc op))) as (Ha & Hb & Hc)
    by (split_and!; auto with spu).
  rewrite shufb_spec by done. destruct has_avx; [rewrite shufb_avx_spec by done|rewrite shufb_ssse3_spec by done]; done.
Qed.

(** [shufb $4, $1, $2, $3] with every kind of control byte. *)
Lemma spu_shufb_agree_witness :
  exists v,
    SHUFB (ex_spu 0x000102030405060708090a0b0c0d0e0f 0x101112131415161718191a1b1c1d1e1f 0x00ff8fc01f1001e0203f80bf7f6f0fdf) 0xb0808083 =
      Ret true (setG 4 v (ex_spu 0x000102030405060708090a0b0c0d0e0f 0x101112131415161718191a1b1c1d1e1f 0x00ff8fc01f1001e0203f80bf7f6f0fdf)) /\
    v = 0x008000ff1f100180001f00001f0f0fff.
Proof.
  set (s := ex_spu _ _ _). assert (wf_spu s) as Hs by (apply ex_spu_wf; in_range).
  destruct (spu_shufb_agree s 0xb0808083 true Hs) as [_ H].
  eexists. split; [exact H|]. vm_compute. reflexivity.
Defined.

(** ** Quadwords in the local store *)

Lemma lookup_le_split k n v i : 0 <= k -> (i < n)%nat -> le_split k n v !! i = Some (wrap k (v >>> (k * Z.of_nat i))).
Proof.
  intros Hk. revert v i. induction n as [|n IH]; intros v i Hi; [lia|]. destruct i as [|i]; cbn [le_split lookup list_lookup].
  - by rewrite Z.mul_0_r, Z.shiftr_0_r.
  - rewrite IH by lia. do 2 f_equal. rewrite Z.shiftr_shiftr by lia. f_equal. lia.
Qed.

(** The bytes of a register in memory order. *)
Lemma be_split_byte v j : 0 <= j < 16 -> be_split 16 v !! Z.to_nat j = Some (byte_at v j).
Proof.
  intros Hj. unfold be_split. rewrite rev_alt. change (rev_append (le_split 8 16 v) []) with (reverse (le_split 8 16 v)).
  rewrite reverse_lookup, le_split_length, lookup_le_split by (rewrite ?le_split_length; lia).
  unfold byte_at, lane. do 4 f_equal. lia.
Qed.

Lemma byte_at_be_val l j :
  length l = 16%nat -> Forall (urange 8) l -> 0 <= j < 16 -> byte_at (be_val l) j = l !!! Z.to_nat j.
Proof.
  intros Hl HF Hj. pose proof (be_split_byte (be_val l) j Hj) as E. rewrite <- Hl, be_split_val in E by done.
  symmetry. by apply list_lookup_total_correct.
Qed.

(** Reading and writing a quadword, byte by byte. *)
Lemma ls_ref_byte m a j :
  (forall x, urange 8 (m x)) -> 0 <= j < 16 -> byte_at (ls_ref 16 m a) j = m (a mod SPU_LS_SIZE + j).
Proof.
  intros Hm Hj. unfold ls_ref. rewrite byte_at_be_val; [|by rewrite length_fmap, length_seq| |done].
  - apply list_lookup_total_correct. rewrite list_lookup_fmap, lookup_seq_lt by lia.
    cbn [fmap option_fmap option_map]. do 3 f_equal. lia.
  - apply Forall_fmap, Forall_true. intros. apply Hm.
Qed.

Lemma ls_set_byte m a v x :
  ls_set 16 m a v x =
    if (a mod SPU_LS_SIZE <=? x) && (x <? a mod SPU_LS_SIZE + 16) then byte_at v (x - a mod SPU_LS_SIZE) else m x.
Proof.
  unfold ls_set. change (Z.of_nat 16) with 16. set (b := a mod SPU_LS_SIZE).
  destruct (Z.leb_spec b x), (Z.ltb_spec x (b + 16)); cbn [andb]; try done.
  by rewrite be_split_byte by lia.
Qed.

(** Registers with the same bytes are equal. *)
Lemma byte_ext u v : urange 128 u -> urange 128 v -> (forall j, 0 <= j < 16 -> byte_at u j = byte_at v j) -> u = v.
Proof.
  intros Hu Hv H. apply (vec_ext 8); [auto with lanes|done..|]. intros i Hi. cnts. specialize (H (15 - i) ltac:(lia)).
  unfold byte_at in H. by replace (15 - (15 - i)) with i in H by lia.
Qed.

(** ** Insertion *)

(** The element sizes: the width, the control that names the preferred slot,
    the slot's first byte, and the number of bytes. *)
Definition slots : list (Z * Z * Z * Z) :=
  [(8, 0x03, 3, 1); (16, 0x0203, 2, 2); (32, 0x00010203, 0, 4); (64, 0x0001020304050607, 0, 8)].

(** The control register for an address. *)
Definition control (w x addr : Z) : Z :=
  vset w insert_base ((Z.lnot addr &&& (16 - w / 8)) >>> Z.log2 (w / 8)) x.

(** The control byte at each place, for each alignment of the address. *)
Definition control_ok (k : Z * Z * Z * Z) (a j : Z) : bool :=
  let '(w, x, pref, n) := k in
  let start := a - a mod n in
  byte_at (control w x a) j =? if (start <=? j) && (j <? start + n) then pref + (j - start) else 16 + j.

Lemma control_table :
  forallb (fun k => forallb (fun a => forallb (control_ok k a) (seqZ 0 16)) (seqZ 0 16)) slots = true.
Proof. vm_compute. reflexivity. Qed.

Lemma control_mod w x pref n addr : (w, x, pref, n) ∈ slots -> control w x addr = control w x (addr mod 16).
Proof.
  intros Hin. unfold control. do 2 f_equal.
  assert (16 - w / 8 = 15 &&& (16 - w / 8)) as ->
    by (unfold slots in Hin; rewrite !elem_of_cons, elem_of_nil in Hin; destruct_or!; simplify_eq; reflexivity).
  rewrite !Z.land_assoc. f_equal. rewrite !land_15. unfold Z.lnot, Z.pred. Z.to_euclidean_division_equations; lia.
Qed.

Lemma in_seq16 k : 0 <= k < 16 -> In k (seqZ 0 16).
Proof. intros. apply list_elem_of_In, elem_of_seqZ. lia. Qed.

Lemma control_byte w x pref n addr j :
  (w, x, pref, n) ∈ slots -> 0 <= j < 16 ->
  let start := addr mod 16 - addr mod n in
  byte_at (control w x addr) j = if (start <=? j) && (j <? start + n) then pref + (j - start) else 16 + j.
Proof.
  intros Hin Hj. cbv zeta. rewrite (control_mod _ _ _ _ _ Hin). pose proof control_table as T.
  rewrite forallb_forall in T. specialize (T _ (proj1 (list_elem_of_In _ _) Hin)). cbv beta in T.
  rewrite forallb_forall in T. specialize (T (addr mod 16)). rewrite forallb_forall in T.
  assert (0 <= addr mod 16 < 16) as Ha by (apply Z.mod_pos_bound; lia).
  specialize (T (in_seq16 _ Ha) j (in_seq16 _ Hj)).
  unfold control_ok in T. apply Z.eqb_eq in T. rewrite T.
  assert (addr mod 16 mod n = addr mod n) as ->; [|done].
  unfold slots in Hin; rewrite !elem_of_cons, elem_of_nil in Hin; destruct_or!; simplify_eq;
    Z.to_euclidean_division_equations; lia.
Qed.

(** Insertion of the preferred element of [v] into [q]: the bytes of the
    element at the address, and no other, come from [v]. *)
Lemma insert_bytes w x pref n addr v q j :
  (w, x, pref, n) ∈ slots -> 0 <= j < 16 ->
  let start := addr mod 16 - addr mod n in
  byte_at (shuffle v q (control w x addr)) j =
    if (start <=? j) && (j <? start + n) then byte_at v (pref + (j - start)) else byte_at q j.
Proof.
  intros Hin Hj. cbv zeta. unfold shuffle, byte_at at 1. rewrite lane_vmake by (cnts; lia || auto with lanes).
  rewrite wrap_id by apply select_byte_range. fold (byte_at (control w x addr) j).
  rewrite (control_byte _ _ _ _ _ _ Hin Hj).
  assert (0 <= pref /\ pref + n <= 16) as Hp
    by (unfold slots in Hin; rewrite !elem_of_cons, elem_of_nil in Hin; destruct_or!; simplify_eq; lia).
  set (st := addr mod 16 - addr mod n).
  clearbody st. unfold select_byte. cbv zeta. destruct (Z.leb_spec st j), (Z.ltb_spec j (st + n)); cbn [andb]; zbool; try lia;
    rewrite Z.mod_small in * by lia; try lia; f_equal; lia.
Qed.

(** The instructions of the insertion sequence. *)
Definition insert_word (n p c : Z) : Z := rr_word (0x1f4 + Z.log2 n) 0 p c.

Definition lqd (t p : Z) : Z := ri10_word 0x34 0 p t.

Definition stqd (t p : Z) : Z := ri10_word 0x24 0 p t.

Definition shufb_word (t a b c : Z) : Z := rrr_word 0xb t b a c.

(** [cbd c, 0(p)] and its kin; [lqd q, 0(p)]; [shufb q, v, q, c];
    [stqd q, 0(p)]. *)
Definition insert_prog (n v p c q : Z) : list Z := [insert_word n p c; lqd q p; shufb_word q v q c; stqd q p].

(** The stack pointer test of the mask instructions passes. *)
Definition sp_ok (s : spu_thread) (p : Z) : Prop := p = 1 -> word3 (G s 1) mod 16 = 0.

Lemma exec_generate_control ev s w x pref n p c :
  (w, x, pref, n) ∈ slots -> wf_spu s -> urange 7 p -> urange 7 c -> sp_ok s p ->
  exec ev s (insert_word n p c) = Ret true (setG c (control w x (word3 (G s p))) s).
Proof.
  intros Hin Hs Hp Hc Hsp.
  assert (urange 11 (0x1f4 + Z.log2 n)) as Ho
    by (unfold slots in Hin; rewrite !elem_of_cons, elem_of_nil in Hin; destruct_or!; simplify_eq; in_range).
  destruct (rr_fields (0x1f4 + Z.log2 n) 0 p c ltac:(in_range) Hp Hc Ho) as (Et & Ea & _ & Ei & _).
  assert (exec ev s (insert_word n p c) = generate_control w x addr_d s (insert_word n p c)) as ->.
  { unfold exec, insert_word in *. unfold slots in Hin. rewrite !elem_of_cons, elem_of_nil in Hin. destruct_or!; simplify_eq.
    - change (0x1f4 + Z.log2 1) with 0x1f4. by rewrite (decode_rr 0x1f4 0 p c spu_itype.CBD) by first [assumption | in_range | (vm_compute; reflexivity)].
    - change (0x1f4 + Z.log2 2) with 0x1f5. by rewrite (decode_rr 0x1f5 0 p c spu_itype.CHD) by first [assumption | in_range | (vm_compute; reflexivity)].
    - change (0x1f4 + Z.log2 4) with 0x1f6. by rewrite (decode_rr 0x1f6 0 p c spu_itype.CWD) by first [assumption | in_range | (vm_compute; reflexivity)].
    - change (0x1f4 + Z.log2 8) with 0x1f7. by rewrite (decode_rr 0x1f7 0 p c spu_itype.CDD) by first [assumption | in_range | (vm_compute; reflexivity)]. }
  unfold generate_control, addr_d, insert_word. rewrite Ea, Ei, Et.
  assert ((p =? 1) && negb (word3 (G s 1) &&& 15 =? 0) = false) as ->.
  { destruct (Z.eqb_spec p 1) as [E|]; [|done]. rewrite land_15, Hsp by done. done. }
  unfold setLane. rewrite setG_setG, G_setG_eq by done.
  rewrite Z.add_0_l, (wrap_id 32 (word3 _)) by (apply lane_range; lia). done.
Qed.

Lemma decode_ri10 opc i a t n :
  urange 8 opc -> urange 7 a -> urange 7 t -> srange 10 i -> decodes 3 opc n = true -> decode (ri10_word opc i a t) = n.
Proof.
  intros Ho Ha Ht Hi H. destruct (ri10_fields opc 0 a t ltac:(in_range) Ha Ht i Ho Hi) as (_ & _ & _ & Ed).
  apply (decode_opc 3 opc); [lia| |done|done]. apply Z.shiftr_nonneg. unfold ri10_word.
  pose proof (wrap_range 10 i ltac:(lia)). unfold urange in *. lia.
Qed.

(** The address of the quadword. *)
Lemma ea_zero s p op :
  ra op = p -> si10 op = 0 ->
  ea_d s op mod SPU_LS_SIZE = word3 (G s p) mod SPU_LS_SIZE - word3 (G s p) mod 16.
Proof.
  intros Er Es. unfold ea_d. rewrite Er, Es. change (0 * 16) with 0. rewrite Z.add_0_r.
  unfold sword3, word3. rewrite (sext_id 32) by (lia || (apply slane_range; lia)). rewrite slane_lane by lia.
  destruct (sext_eq 32 (lane 32 (G s p) 3)) as [k ->]; [lia|]. set (v := lane 32 (G s p) 3).
  assert (forall z, z &&& 0x3fff0 = z mod 2 ^ 18 - z mod 16) as H.
  { intros z. rewrite <- (land_low 18), <- land_15 by lia. change (2 ^ 18 - 1) with 0x3ffff.
    assert (z &&& 15 = (z &&& 0x3ffff) &&& 15) as -> by (rewrite <- Z.land_assoc; done).
    rewrite Z.sub_nocarry_ldiff by (apply Z.bits_inj'; intros; rewrite Z.ldiff_spec, !Z.land_spec, Z.bits_0; by destruct (Z.testbit z n), (Z.testbit 0x3ffff n), (Z.testbit 15 n)).
    apply Z.bits_inj'. intros j Hj. rewrite Z.ldiff_spec, !Z.land_spec.
    change 0x3fff0 with (Z.ldiff 0x3ffff 15). rewrite Z.ldiff_spec.
    by destruct (Z.testbit z j), (Z.testbit 0x3ffff j), (Z.testbit 15 j). }
  rewrite H. unfold SPU_LS_SIZE. change (2 ^ 32) with (2 ^ 14 * 0x40000). change (2 ^ 18) with 0x40000.
  Z.to_euclidean_division_equations; lia.
Qed.

Section Quadwords.
Context (ev : env) (s : spu_thread) (t p : Z).
Hypothesis Hs : wf_spu s.
Hypothesis Ht : urange 7 t.
Hypothesis Hp : urange 7 p.

Lemma fields_at opc : urange 8 opc -> rt (ri10_word opc 0 p t) = t /\ ra (ri10_word opc 0 p t) = p /\ si10 (ri10_word opc 0 p t) = 0.
Proof.
  intros Ho. destruct (ri10_fields opc 0 p t ltac:(in_range) Hp Ht 0 Ho ltac:(in_range)) as (? & ? & ? & _). done.
Qed.

Lemma exec_lqd : exec ev s (lqd t p) = Ret true (setG t (ls_ref 16 (ls s) (ea_d s (lqd t p))) s).
Proof.
  unfold exec. destruct (fields_at 0x34 ltac:(in_range)) as (Et & _). fold (lqd t p) in Et.
  assert (decode (lqd t p) = spu_itype.LQD) as ->.
  { apply (decode_ri10 0x34); first [assumption | in_range | (vm_compute; reflexivity)]. }
  cbn [ptrs]. unfold LQD, load_q. by rewrite Et.
Qed.

Lemma exec_stqd : exec ev s (stqd t p) = Ret true (with_ls (ls_set 16 (ls s) (ea_d s (stqd t p)) (G s t)) s).
Proof.
  unfold exec. destruct (fields_at 0x24 ltac:(in_range)) as (Et & _). fold (stqd t p) in Et.
  assert (decode (stqd t p) = spu_itype.STQD) as ->.
  { apply (decode_ri10 0x24); first [assumption | in_range | (vm_compute; reflexivity)]. }
  cbn [ptrs]. unfold STQD, store_q. by rewrite Et.
Qed.

Lemma ea_lqd : ea_d s (lqd t p) mod SPU_LS_SIZE = word3 (G s p) mod SPU_LS_SIZE - word3 (G s p) mod 16.
Proof. destruct (fields_at 0x34 ltac:(in_range)) as (_ & Ea & Ei). by apply ea_zero. Qed.

Lemma ea_stqd : ea_d s (stqd t p) mod SPU_LS_SIZE = word3 (G s p) mod SPU_LS_SIZE - word3 (G s p) mod 16.
Proof. destruct (fields_at 0x24 ltac:(in_range)) as (_ & Ea & Ei). by apply ea_zero. Qed.

Lemma exec_shufb a c :
  urange 7 a -> urange 7 c -> exec ev s (shufb_word t a p c) = Ret true (setG t (shuffle (G s a) (G s p) (G s c)) s).
Proof.
  intros Ha Hc. destruct (rrr_fields 0xb p a t Hp Ha Ht c ltac:(in_range) Hc) as (Et & Ea & Eb & Ec & _ & Ed).
  unfold exec. assert (decode (shufb_word t a p c) = spu_itype.SHUFB) as ->.
  { apply (decode_opc 7 0xb); [lia| |exact Ed|vm_compute; reflexivity]. apply Z.shiftr_nonneg. unfold shufb_word, rrr_word.
    unfold urange in *. lia. }
  cbn [ptrs]. unfold SHUFB, rrrr, shufb_word. rewrite Et, Ea, Eb, Ec, shufb_spec by auto with spu. done.
Qed.

End Quadwords.

Lemma ls_ref_range size m a : (forall x, urange 8 (m x)) -> urange (8 * Z.of_nat size) (ls_ref size m a).
Proof.
  intros Hm. unfold ls_ref. pose proof (be_val_range ((fun i => m (a mod SPU_LS_SIZE + Z.of_nat i)) <$> seq 0 size)) as H.
  rewrite length_fmap, length_seq in H. apply H, Forall_fmap, Forall_true. intros. apply Hm.
Qed.

(** The bytes of the quadword around an address after the insertion. *)
Lemma insert_memory w x pref n (m : Z -> Z) v q addr a :
  (w, x, pref, n) ∈ slots -> 0 <= addr ->
  (forall j, 0 <= j < 16 -> byte_at q j = m (addr mod SPU_LS_SIZE - addr mod 16 + j)) ->
  (if (addr mod SPU_LS_SIZE - addr mod 16 <=? a) && (a <? addr mod SPU_LS_SIZE - addr mod 16 + 16)
   then byte_at (shuffle v q (control w x addr)) (a - (addr mod SPU_LS_SIZE - addr mod 16)) else m a) =
  (let e := addr mod SPU_LS_SIZE - addr mod n in
   if (e <=? a) && (a <? e + n) then byte_at v (pref + (a - e)) else m a).
Proof.
  intros Hin Ha Hq. cbv zeta. set (b := addr mod SPU_LS_SIZE - addr mod 16).
  assert (exists st, addr mod 16 - addr mod n = st /\ addr mod SPU_LS_SIZE - addr mod n = b + st /\ 0 <= st /\ st + n <= 16)
    as (st & E1 & E2 & Hst).
  { eexists. split; [reflexivity|]. unfold b. split; [lia|].
    unfold slots in Hin; rewrite !elem_of_cons, elem_of_nil in Hin; destruct_or!; simplify_eq;
      Z.to_euclidean_division_equations; lia. }
  rewrite E2. destruct (Z.leb_spec b a), (Z.ltb_spec a (b + 16)); cbn [andb].
  2,3,4: destruct (Z.leb_spec (b + st) a), (Z.ltb_spec a (b + st + n)); cbn [andb]; lia || done.
  rewrite (insert_bytes _ _ _ _ _ _ _ _ Hin), E1 by lia.
  destruct (Z.leb_spec st (a - b)), (Z.leb_spec (b + st) a), (Z.ltb_spec (a - b) (st + n)), (Z.ltb_spec a (b + st + n));
    try lia; cbn [andb]; [f_equal; lia|..]; rewrite Hq by lia; fold b; f_equal; lia.
Qed.

(** C23: Storing a byte, halfword, word or doubleword on the SPU: the mask
    instruction for the size, a quadword load, [shufb] and a quadword store
    write the preferred element of [v] at the address in [p] (rounded down to
    the size, inside the local store) and change no other byte of memory; only
    the two scratch registers change. *)
Theorem spu_store_element (ev : env) (s : spu_thread) (w x pref n v p c q : Z) :
  (w, x, pref, n) ∈ slots -> Forall (urange 7) [v; p; c; q] -> NoDup [c; q] -> v ∉ [c; q] -> p ∉ [c; q] ->
  sp_ok s p -> runs s (insert_prog n v p c q) ->
  achieves ev s (insert_prog n v p c q) (fun s' =>
    (forall a, ls s' a =
       let e := word3 (G s p) mod SPU_LS_SIZE - word3 (G s p) mod n in
       if (e <=? a) && (a <? e + n) then byte_at (G s v) (pref + (a - e)) else ls s a) /\
    forall r, urange 7 r -> r ∉ [c; q] -> G s' r = G s r).
Proof.
  intros Hin HF Hn Hv Hp Hsp Hr. distinct. unfold insert_prog in *.
  refine (achieves_cons _ _ _ _ _ _ _ Hr (exec_generate_control ev s w x pref n p c Hin (proj1 Hr) _ _ Hsp) _ _ _); try assumption.
  { apply vset_range. unfold slots in Hin; rewrite !elem_of_cons, elem_of_nil in Hin; destruct_or!; simplify_eq; auto with lanes. }
  intros s1 Hr1 Hv1 Ho1 Hl1.
  refine (achieves_cons _ _ _ _ _ _ _ Hr1 (exec_lqd ev s1 q p _ _) _ _ _); try assumption; try apply Hr1.
  { apply (ls_ref_range 16), Hr1. }
  intros s2 Hr2 Hv2 Ho2 Hl2.
  refine (achieves_cons _ _ _ _ _ _ _ Hr2 (exec_shufb ev s2 q q _ _ _ v c _ _) _ _ _); try assumption; try apply Hr2.
  { apply vmake_range. auto with lanes. }
  intros s3 Hr3 Hv3 Ho3 Hl3.
  refine (achieves_store _ _ _ _ _ Hr3 (exec_stqd ev s3 q p _ _) _ _); try assumption.
  { intros a. rewrite ls_set_byte. case_match; [apply lane_range; lia|apply Hr3]. }
  intros s4 Hl4 Hg4. split.
  - intros a. rewrite Hl4, ls_set_byte, Hl3, Hl2, Hl1, ea_stqd by done.
    assert (G s3 p = G s p) as -> by (by rewrite Ho3, Ho2, Ho1 by (assumption || congruence)).
    rewrite Hv3, (Ho2 v), (Ho1 v), (Ho2 c), Hv1, Hv2 by (assumption || congruence).
    apply insert_memory; [done|apply lane_range; lia|]. intros j Hj.
    rewrite ls_ref_byte, ea_lqd, Hl1, Ho1 by (done || congruence || apply Hr1). done.
  - intros r Hrr Hn'. distinct. unfold G. rewrite Hg4. fold (G s3 r).
    by rewrite Ho3, Ho2, Ho1 by (assumption || congruence).
Qed.

(** [chd $4, 0($2); lqd $5, 0($2); shufb $5, $1, $5, $4; stqd $5, 0($2)]:
    the halfword 0xbeef at address 0x106, in a store filled with the program
    and zeros. *)
Lemma spu_store_element_witness :
  exists s', old_interpreter 4 ex_env (ex_code (insert_prog 2 1 2 4 5) (Z.shiftl 0xdeadbeef 96) (Z.shiftl 0x107 96)) = Continue s' /\
    ls s' 0x105 = 0 /\ ls s' 0x106 = 0xbe /\ ls s' 0x107 = 0xef /\ ls s' 0x108 = 0.
Proof.
  edestruct (spu_store_element ex_env (ex_code (insert_prog 2 1 2 4 5) (Z.shiftl 0xdeadbeef 96) (Z.shiftl 0x107 96))
    16 0x0203 2 2 1 2 4 5) as (s' & H1 & _ & _ & H2 & _).
  - apply (bool_decide_unpack _). vm_compute. reflexivity.
  - repeat first [apply Forall_nil_2 | apply Forall_cons_2; [in_range|]].
  - apply (bool_decide_unpack _). vm_compute. reflexivity.
  - apply (bool_decide_unpack _). vm_compute. reflexivity.
  - apply (bool_decide_unpack _). vm_compute. reflexivity.
  - intros [=].
  - apply ex_code_runs; [in_range|in_range|cbn; lia|]. repeat split; vm_compute; reflexivity.
  - exists s'. rewrite !H2. split; [exact H1|]. repeat split; vm_compute; reflexivity.
Defined.
