(* ===== verification/SpuMasks.v ===== *)
(** * SPU select masks and gathered bits

    [fsm], [fsmh], [fsmb] and [fsmbi] spread bits to elements of ones and
    zeros; [gb], [gbh] and [gbb] gather the low bits of the elements. *)

From stdpp Require Import base numbers list tactics.
From Stdlib Require Import Lia.
From S2P Require Import Prelude Asm PpuInstruction Simd SimdOps SimdSpec SimdWide SimdShift SpuOpcode SpuThread SpuOps SpuSpec SpuShuffle.
Import Spu SpuOp spu_interpreter.
Open Scope Z_scope.
Open Scope mach_scope.

(** Element [i] is ones when bit [i] of [x] is set. *)
Definition spread (w x : Z) : Z := vmake w (fun i => mask (Z.testbit x i)).

(** Bit [i] is the low bit of element [i]. *)
Definition gather (w v : Z) : Z := le_radix 1 ((fun i => b2z (Z.odd (lane w v i))) <$> seqZ 0 (128 / w)).

(** ** Round trips *)

Lemma bits_Forall {A} (f : A -> bool) l : Forall (urange 1) ((fun i => b2z (f i)) <$> l).
Proof. apply Forall_fmap, Forall_true. intros x. cbn. by destruct (f x). Qed.

Lemma testbit_radix1 (f : Z -> bool) n j :
  0 <= j -> 0 <= n -> Z.testbit (le_radix 1 ((fun i => b2z (f i)) <$> seqZ 0 n)) j = (j <? n) && f j.
Proof.
  intros Hj Hn. rewrite testbit_le_radix by (lia || apply bits_Forall). rewrite Z.div_1_r, Z.mod_1_r, list_lookup_fmap.
  destruct (Z.ltb_spec j n).
  - rewrite lookup_seqZ_lt by lia. cbn [fmap option_fmap option_map default from_option id andb].
    rewrite Z.add_0_l, Z2Nat.id by lia. by destruct (f j).
  - rewrite lookup_seqZ_ge by lia. done.
Qed.

Lemma testbit_gather w v j : width w -> 0 <= j -> Z.testbit (gather w v) j = (j <? 128 / w) && Z.odd (lane w v j).
Proof. intros (? & ? & ?)%width_cnt Hj. unfold gather. by rewrite testbit_radix1 by lia. Qed.

Lemma gather_range w v : width w -> urange (128 / w) (gather w v).
Proof.
  intros Hw. destruct (width_cnt w Hw) as (? & ? & ?). apply urange_bits; [lia| |].
  - pose proof (le_radix_range 1 _ ltac:(lia) (bits_Forall (fun i => Z.odd (lane w v i)) (seqZ 0 (128 / w)))) as H'. apply H'.
  - intros j Hj. rewrite testbit_gather by (done || lia). by destruct (Z.ltb_spec j (128 / w)); [lia|].
Qed.

Lemma gather_spread w x : width w -> gather w (spread w x) = wrap (128 / w) x.
Proof.
  intros Hw. destruct (width_cnt w Hw) as (? & ? & ?). apply Z.bits_inj'. intros j Hj.
  rewrite testbit_gather, testbit_wrap by (done || lia). destruct (Z.ltb_spec j (128 / w)); [|done]. cbn [andb].
  unfold spread. rewrite lane_vmake by (done || lia). rewrite <- Z.bit0_odd, testbit_wrap by lia.
  destruct (Z.ltb_spec 0 w); [|lia]. by destruct (Z.testbit x j).
Qed.

Lemma spread_gather w v : width w -> is_mask w v -> spread w (gather w v) = v.
Proof.
  intros Hw [Hv Hm]. destruct (width_cnt w Hw) as (? & ? & ?).
  apply (vec_ext w); [done|by apply vmake_range|done|]. intros i Hi.
  unfold spread. rewrite lane_vmake, testbit_gather by (done || lia). destruct (Z.ltb_spec i (128 / w)); [|lia]. cbn [andb].
  destruct (Hm i Hi) as [-> | ->]; [unfold wrap; cbn [Z.odd mask]; by rewrite Zmod_0_l|].
  by destruct Hw as [->|[->|[->| ->]]].
Qed.

(** ** Forming masks *)

Lemma land_pow2_eqb x i : 0 <= i -> (x &&& 2 ^ i =? 2 ^ i) = Z.testbit x i.
Proof.
  intros Hi. assert (x &&& 2 ^ i = if Z.testbit x i then 2 ^ i else 0) as ->.
  { apply Z.bits_inj'. intros j Hj. rewrite Z.land_spec, Z.pow2_bits_eqb by lia. destruct (Z.eqb_spec i j) as [->|Hn].
    - destruct (Z.testbit x j); [by rewrite Z.pow2_bits_true by lia|by rewrite Z.bits_0].
    - rewrite andb_false_r. destruct (Z.testbit x i); [by rewrite Z.pow2_bits_false by lia|by rewrite Z.bits_0]. }
  pose proof (pow2_pos i Hi). destruct (Z.testbit x i); zbool; lia || done.
Qed.

(** A comparison of [bits] with the mask [m] under the mask, when element [i]
    of [m] is a single bit. *)
Lemma form_mask w bits m x (k : Z -> Z) :
  width w -> urange 128 bits -> urange 128 m ->
  (forall i, 0 <= i < 128 / w -> lane w m i = 2 ^ k i /\ 0 <= k i /\ Z.testbit (lane w bits i) (k i) = Z.testbit x i) ->
  mm_cmpeq_epi w (mm_and bits m) m = spread w x.
Proof.
  intros Hw Hb Hm H. destruct (width_cnt w Hw) as (? & _). unfold mm_cmpeq_epi, mm_and, spread. apply vmake_ext; [done|].
  intros i Hi. destruct (H i Hi) as (E & Hk & Eb). by rewrite lane_land, E, land_pow2_eqb, Eb by lia.
Qed.

Lemma lane_shuffle32 a m i :
  0 <= i < 4 -> lane 32 (mm_shuffle_epi32 a m) i = lane 32 a ((m >>> (2 * i)) &&& 3).
Proof.
  intros. unfold mm_shuffle_epi32. rewrite lane_vmake by (cnts; lia || auto with lanes). apply wrap_id, lane_range. lia.
Qed.

Lemma fsm_spec a : mm_cmpeq_epi 32 (mm_and (mm_shuffle_epi32 a 0xff) (mm_set_epi 32 [8; 4; 2; 1])) (mm_set_epi 32 [8; 4; 2; 1])
  = spread 32 (word3 a).
Proof.
  apply (form_mask 32 _ _ _ id); [auto with lanes|apply vmake_range; auto with lanes|apply vmake_range; auto with lanes|].
  intros i Hi. cnts. rewrite lane_shuffle32 by lia. unfold id.
  assert (i = 0 \/ i = 1 \/ i = 2 \/ i = 3) as [->|[->|[->| ->]]] by lia; done.
Qed.

(** Follow one bit through shuffles of concrete elements. *)
Ltac trace_bit :=
  repeat (first
    [ rewrite testbit_in_lane by lia
    | rewrite testbit_vmake by (lia || auto with lanes) ]; eval_consts; cbv iota; cbn [andb]).

Lemma byte_bits_lane i : 0 <= i < 16 -> lane 8 byte_bits i = 2 ^ (i mod 8).
Proof. intros Hi. zenum i 0 16%nat; vm_compute; reflexivity. Qed.

Lemma byte_bits_range : urange 128 byte_bits.
Proof. apply vmake_range. auto with lanes. Qed.

Lemma fsmh_spec v :
  mm_cmpeq_epi 16 (mm_and (mm_shuffle_epi32 (mm_unpackhi_epi 16 v v) 0xaa) (mm_set_epi 16 [128; 64; 32; 16; 8; 4; 2; 1]))
    (mm_set_epi 16 [128; 64; 32; 16; 8; 4; 2; 1]) = spread 16 (half6 v).
Proof.
  apply (form_mask 16 _ _ _ id); [auto with lanes|apply vmake_range; auto with lanes|apply vmake_range; auto with lanes|].
  intros i Hi. cnts. unfold id, mm_shuffle_epi32, mm_unpackhi_epi, half6.
  zenum i 0 8%nat; (split; [vm_compute; reflexivity|split; [done|]]); trace_bit; done.
Qed.

Lemma fsmb_spec v :
  mm_cmpeq_epi 8 (mm_and (mm_shuffle_epi32 (mm_shufflehi_epi16 (mm_unpackhi_epi 8 v v) 0x50) 0xfa) byte_bits) byte_bits
    = spread 8 (half6 v).
Proof.
  apply (form_mask 8 _ _ _ (fun i => i mod 8)); [auto with lanes|apply vmake_range; auto with lanes|apply byte_bits_range|].
  intros i Hi. cnts. split; [by apply byte_bits_lane|split; [apply Z.mod_pos_bound; lia|]].
  unfold mm_shuffle_epi32, mm_unpackhi_epi, mm_shufflehi_epi16, half6.
  zenum i 0 16%nat; eval_consts; trace_bit; done.
Qed.

Lemma fsmbi_spec x :
  urange 16 x ->
  let vsrc := mm_set_epi 32 [0; 0; 0; x] in
  mm_cmpeq_epi 8 (mm_and (mm_shuffle_epi32 (mm_shufflelo_epi16 (mm_unpacklo_epi 8 vsrc vsrc) 0x50) 0x50) byte_bits) byte_bits
    = spread 8 x.
Proof.
  intros Hx. cbv zeta.
  apply (form_mask 8 _ _ _ (fun i => i mod 8)); [auto with lanes|apply vmake_range; auto with lanes|apply byte_bits_range|].
  intros i Hi. cnts. split; [by apply byte_bits_lane|split; [apply Z.mod_pos_bound; lia|]].
  unfold mm_shuffle_epi32, mm_unpacklo_epi, mm_shufflelo_epi16, mm_set_epi.
  zenum i 0 16%nat; eval_consts; trace_bit; done.
Qed.

(** ** Gathering bits *)

Lemma movemask_gather w v (u : Z) :
  width w -> (forall i, 0 <= i < 128 / w -> (slane w u i <? 0) = Z.odd (lane w v i)) -> mm_movemask w u = gather w v.
Proof.
  intros Hw H. unfold mm_movemask, gather. f_equal. apply list_fmap_ext. intros k i Hi.
  apply list_elem_of_lookup_2, elem_of_seqZ in Hi. rewrite H by lia. done.
Qed.

(** The low bit of an element, moved to its sign by a shift. *)
Lemma sign_low w v i : width w -> 0 <= i < 128 / w -> (slane w (mm_slli_epi w v (w - 1)) i <? 0) = Z.odd (lane w v i).
Proof.
  intros Hw Hi. destruct (width_cnt w Hw) as (H0 & Hn & He). unfold mm_slli_epi, vmap.
  rewrite slane_vmake by done. destruct (Z.leb_spec w (w - 1)); [lia|].
  rewrite <- Z.bit0_odd. name_lane w v i x. clear Hi.
  rewrite <- (sext_wrap w) by lia. pose proof (wrap_range w (Z.shiftl x (w - 1)) ltac:(lia)) as Hr.
  rewrite sext_neg by (done || lia). pose proof (testbit_top w _ H0 Hr) as Ht.
  rewrite testbit_wrap, Z.shiftl_spec, Z.sub_diag in Ht by lia. destruct (Z.ltb_spec (w - 1) w); [|lia]. cbn [andb] in Ht.
  rewrite Ht. pose proof (pow2_pos (w - 1) ltac:(lia)). unfold urange in Hr.
  assert (2 ^ w = 2 * 2 ^ (w - 1)) as E2 by (rewrite <- Z.pow_succ_r by lia; f_equal; lia).
  zbool; cbn [b2z] in *; lia || done.
Qed.

Lemma gb_spec a : mm_movemask 32 (mm_slli_epi 32 a 31) = gather 32 a.
Proof. apply movemask_gather; [auto with lanes|]. intros i Hi. apply (sign_low 32); auto with lanes. Qed.

Lemma gbb_spec a : mm_movemask 8 (mm_slli_epi 64 a 7) = gather 8 a.
Proof.
  apply movemask_gather; [auto with lanes|]. intros i Hi. cnts. rewrite sign_slane by lia.
  change (bit (gv_shl64 a 7) i 7 = Z.odd (lane 8 a i)). rewrite bit_shl64 by lia.
  rewrite <- Z.bit0_odd, testbit_in_lane by lia. done.
Qed.

(** Packing keeps the signs, and the other half is zero. *)
Lemma gbh_spec a : mm_movemask 8 (mm_packs_epi 16 (mm_slli_epi 16 a 15) mm_setzero) = gather 16 a.
Proof.
  apply Z.bits_inj'. intros j Hj. rewrite testbit_gather by (lia || auto with lanes). unfold mm_movemask.
  rewrite testbit_radix1 by (cnts; lia). cnts. destruct (Z.ltb_spec j 16).
  2:{ destruct (Z.ltb_spec j 8); [lia|done]. }
  cbn [andb]. unfold mm_packs_epi. cbv zeta. change (16 / 2) with 8. rewrite slane_vmake by (cnts; lia || auto with lanes). cnts.
  destruct (Z.ltb_spec j 8).
  - cbn [andb]. rewrite <- (sign_low 16) by (cnts; lia || auto with lanes). change (16 - 1) with 15.
    pose proof (slane_range 16 (mm_slli_epi 16 a 15) j ltac:(lia)) as Hr. generalize dependent (slane 16 (mm_slli_epi 16 a 15) j).
    intros x Hx. unfold clamp_s, srange in *. rewrite sext_id by (unfold srange; lia). zbool; lia || done.
  - assert (slane 16 mm_setzero (j - 8) = 0) as ->; [|done]. rewrite slane_lane by lia. unfold mm_setzero. by rewrite lane_0.
Qed.

(** ** The preferred slot *)

Lemma word3_from32r x : urange 32 x -> word3 (from32r x) = x.
Proof.
  intros Hx. unfold word3, from32r, lane. change (32 * 3) with 96. rewrite Z.shiftr_shiftl_l by lia.
  change (96 - 96) with 0. rewrite Z.shiftl_0_r. by apply wrap_id.
Qed.

Lemma half6_from32r x : half6 (from32r x) = u16 x.
Proof.
  unfold half6, from32r, lane. change (16 * 6) with 96. rewrite Z.shiftr_shiftl_l by lia.
  change (96 - 96) with 0. by rewrite Z.shiftl_0_r.
Qed.

Lemma from32r_range x : urange 32 x -> urange 128 (from32r x).
Proof. intros Hx. unfold from32r. rewrite Z.shiftl_mul_pow2 by lia. unfold urange in *. lia. Qed.

Lemma i16_range op : urange 16 (i16 op).
Proof. apply field_range; lia. Qed.

(** The mask instructions.  [fsm], [fsmh] and [fsmb] spread the low 4, 8 or
    16 bits of the preferred slot, and [fsmbi] those of the word, to elements
    of ones and zeros; [gb], [gbh] and [gbb] collect the low bits of the
    elements in the preferred slot; gathering a spread mask gives the bits
    back, and spreading the gathered bits of a mask gives the mask back. *)
Theorem spu_mask_roundtrip (s : spu_thread) (op : Z) :
  let a := G s (ra op) in
  let w a := setG (rt op) a s in
  FSM s op = Ret true (w (spread 32 (word3 a))) /\ FSMH s op = Ret true (w (spread 16 (half6 a))) /\
  FSMB s op = Ret true (w (spread 8 (half6 a))) /\ FSMBI s op = Ret true (w (spread 8 (i16 op))) /\
  GB s op = Ret true (w (from32r (gather 32 a))) /\ GBH s op = Ret true (w (from32r (gather 16 a))) /\
  GBB s op = Ret true (w (from32r (gather 8 a))) /\
  word3 (from32r (gather 32 (spread 32 (word3 a)))) = word3 a mod 2 ^ 4 /\
  word3 (from32r (gather 16 (spread 16 (half6 a)))) = half6 a mod 2 ^ 8 /\
  word3 (from32r (gather 8 (spread 8 (half6 a)))) = half6 a /\
  (is_mask 32 a -> spread 32 (word3 (from32r (gather 32 a))) = a) /\
  (is_mask 16 a -> spread 16 (half6 (from32r (gather 16 a))) = a) /\
  (is_mask 8 a -> spread 8 (half6 (from32r (gather 8 a))) = a).
Proof.
  cbv zeta. set (a := G s (ra op)).
  pose proof (fun w v Hw => urange_mono (128 / w) 32 (gather w v) Hw) as Hm.
  assert (forall w v, width w -> w <> 8 \/ w = 8 -> urange 32 (gather w v)) as Hg.
  { intros w v Hw _. apply Hm; [|by apply gather_range]. destruct Hw as [->|[->|[->| ->]]]; done. }
  unfold FSM, FSMH, FSMB, FSMBI, GB, GBH, GBB, r1, imm. fold a.
  rewrite fsm_spec, fsmh_spec, fsmb_spec, fsmbi_spec, gb_spec, gbh_spec, gbb_spec by apply i16_range.
  rewrite !word3_from32r by (apply Hg; auto with lanes; lia). rewrite !half6_from32r, !gather_spread by auto with lanes.
  split_and!; try reflexivity.
  - apply wrap_id, lane_range. lia.
  - intros. apply spread_gather; auto with lanes.
  - intros. pose proof (gather_range 16 a width_16) as R. rewrite wrap_id by (apply (urange_mono 8); [lia|exact R]).
    apply spread_gather; auto with lanes.
  - intros. rewrite wrap_id by exact (gather_range 8 a width_8). apply spread_gather; auto with lanes.
Qed.

(** A mask of words, gathered and spread. *)
Lemma spu_mask_roundtrip_witness :
  spread 32 (word3 (from32r (gather 32 (G (ex_spu 0xffffffff00000000ffffffff00000000 0 0) (ra 0x80)))))
    = 0xffffffff00000000ffffffff00000000.
Proof.
  destruct (spu_mask_roundtrip (ex_spu 0xffffffff00000000ffffffff00000000 0 0) 0x80)
    as (_ & _ & _ & _ & _ & _ & _ & _ & _ & _ & H & _).
  change (G (ex_spu 0xffffffff00000000ffffffff00000000 0 0) (ra 0x80)) with 0xffffffff00000000ffffffff00000000 in *.
  apply H. split; [in_range|]. intros i Hi. cnts. zenum i 0 4%nat; [left|right|left|right]; vm_compute; reflexivity.
Defined.
