(* ===== verification/SpuAnalysis.v ===== *)
(** * SPU execution: outcomes, static targets, interrupts

    Every instruction of the table has one of a few outcomes; from this follow
    the type invariant of the interpreter loop, the soundness of the static
    analyses [op_branch_targets] and [op_register_targets] the recompilers
    use, and the behaviour of interrupts and of the end of the local store. *)

From stdpp Require Import base numbers list tactics.
From Stdlib Require Import Lia.
From S2P Require Import Prelude Asm PpuInstruction Simd SimdOps SimdSpec SimdWide SpuOpcode SpuThread SpuOps SpuSpec SpuQuad SpuProgram SpuShuffle SpuMasks.
Import Spu SpuOp spu_interpreter.
Open Scope Z_scope.
Open Scope mach_scope.

(** ** The environment *)

(** A channel, event or MFC function leaves the registers and the address. *)
Definition keeps (s s' : spu_thread) : Prop := wf_spu s' /\ gpr s' = gpr s /\ pc s' = pc s.

(** A call that returns keeps registers and address; one that escapes, having
    taken an interrupt, keeps the registers. *)
Definition call_ok {A} (s : spu_thread) (c : call A) : Prop :=
  match c with
  | Returns _ s' => keeps s s'
  | Escapes s' => wf_spu s' /\ gpr s' = gpr s
  | Throws => True
  end.

(** What the interpreter relies on: those functions keep the registers, and the
    floating-point intrinsics make vectors of vectors.  The state check between
    instructions may do anything to a well-formed thread. *)
Class EnvOk (ev : env) : Prop := {
  stop_keeps c s : wf_spu s -> call_ok s (stop_and_signal ev c s);
  rdch_keeps c s : wf_spu s -> call_ok s (get_ch_value ev c s);
  rchcnt_range c s : wf_spu s -> urange 32 (get_ch_count ev c s);
  wrch_keeps c v s : wf_spu s -> call_ok s (set_ch_value ev c v s);
  events_keeps s : wf_spu s -> keeps s (snd (get_events_count ev s));
  mfc_keeps s : wf_spu s -> keeps s (do_mfc ev s);
  check_wf s : wf_spu s -> match check_state ev s with Returns _ s' | Escapes s' => wf_spu s' | Throws => True end;
  fp2_range o a b : urange 128 a -> urange 128 b -> urange 128 (fp2 (fp ev) o a b);
  fp1_range o a : urange 128 a -> urange 128 (fp1 (fp ev) o a)
}.

Lemma target_range n op : urange 7 (target n op).
Proof. unfold target. destruct (spu_itype.quadrop n); auto with spu. Qed.

#[global] Instance ex_env_ok : EnvOk ex_env.
Proof.
  constructor; cbn; intros; try done. apply land_urange2; [lia|done..].
Qed.

(** ** Addresses *)

Lemma branch_target_ok pc imm : urange 18 (spu_branch_target pc imm) /\ spu_branch_target pc imm mod 4 = 0.
Proof.
  unfold spu_branch_target. set (z := u32 _). assert (0 <= z) as Hz by (apply wrap_range; lia).
  assert (z &&& 0x3fffc = (z &&& 0x3ffff) &&& 0x3fffc) as -> by (rewrite <- Z.land_assoc; done).
  split.
  - rewrite (land_low 18) by lia. apply land_urange; [lia|lia|]. apply Z.mod_pos_bound. lia.
  - rewrite <- (land_low 2), <- Z.land_assoc by lia. change (0x3fffc &&& (2 ^ 2 - 1)) with 0. by rewrite Z.land_0_r.
Qed.

(** An aligned address inside the store is its own target. *)
Lemma branch_target_id a : urange 18 a -> a mod 4 = 0 -> spu_branch_target a 0 = a.
Proof.
  intros Ha Hm. unfold spu_branch_target. rewrite Z.shiftl_0_l, Z.add_0_r.
  rewrite wrap_id by (apply (urange_mono 18); [lia|done]). apply Z.bits_inj'. intros j Hj. rewrite Z.land_spec.
  change 0x3fffc with (Z.ldiff (Z.ones 18) (Z.ones 2)). rewrite Z.ldiff_spec.
  destruct (Z.lt_ge_cases j 18).
  - rewrite (Z.ones_spec_low 18) by lia. destruct (Z.lt_ge_cases j 2).
    + rewrite Z.ones_spec_low by lia. cbn [negb andb]. rewrite andb_false_r. symmetry.
      rewrite <- (Z.mod_pow2_bits_low a 2 j) by lia. change (2 ^ 2) with 4. by rewrite Hm, Z.bits_0.
    + rewrite Z.ones_spec_high by lia. cbn [negb andb]. by rewrite andb_true_r.
  - by rewrite (urange_testbit 18 a) by (done || lia).
Qed.

Lemma wf_jump s pc imm : wf_spu s -> wf_spu (with_pc (spu_branch_target pc imm) s).
Proof.
  intros Hs. destruct (branch_target_ok pc imm) as [Hr Hm]. apply wf_with_pc; [done| |done].
  apply (urange_mono 18); [lia|done].
Qed.

(** ** Interrupts *)

Lemma pending_range : urange 32 pending.
Proof. in_range. Qed.

Lemma set_interrupt_status_ok ev e s s' :
  wf_spu s -> set_interrupt_status ev e s = Some s' -> keeps s s' /\ interrupts_enabled s' = e.
Proof.
  intros Hs. unfold set_interrupt_status. intros E. repeat case_match; simplify_eq; (split; [|done]); (split; [|done]);
    destruct Hs as [W1 W2 W3 W4 W5 W6]; constructor; try assumption.
  cbn. apply lor_urange; [lia|exact W6|exact pending_range].
Qed.

Lemma check_mfc_ok s b s1 :
  wf_spu s -> check_mfc_interrupts (pc s) s = (b, s1) -> wf_spu s1 /\ gpr s1 = gpr s.
Proof.
  intros Hs E. unfold check_mfc_interrupts in E. destruct (_ && _); simplify_eq; [|done]. split; [|done].
  destruct Hs as [W1 W2 W3 W4 W5 W6]. constructor; try assumption. cbn [pc with_pc].
  destruct (_ =? _); [|done]. set (z := ls_ref 4 (ls s) 0 >>> 5).
  assert (0 <= z) as Hz by (apply Z.shiftr_nonneg, (ls_ref_range 4); done).
  assert (z &&& 0x3fffc = (z &&& 0x3ffff) &&& 0x3fffc) as -> by (rewrite <- Z.land_assoc; done). split.
  - apply (urange_mono 18); [lia|]. apply land_urange; [lia|lia|]. rewrite (land_low 18) by lia. apply Z.mod_pos_bound. lia.
  - rewrite <- (land_low 2), <- Z.land_assoc by lia. change (0x3fffc &&& (2 ^ 2 - 1)) with 0. by rewrite Z.land_0_r.
Qed.

(** Side conditions that compute or are given. *)
Ltac side := first [reflexivity | assumption].

Section Outcomes.
Context (ev : env) `{Hev : !EnvOk ev}.

Lemma op_interrupt_ok op s s' :
  wf_spu s -> op_interrupt_status ev op s = Some s' -> wf_spu s' /\ gpr s' = gpr s.
Proof.
  intros Hs. unfold op_interrupt_status. cbv zeta.
  assert (forall s0, keeps s s0 -> forall s',
    (let '(fired, s1) := check_mfc_interrupts (pc s0) s0 in
     Some (if fired && negb (state s1 &&& pending =? 0) then do_mfc ev s1 else s1)) = Some s' -> wf_spu s' /\ gpr s' = gpr s) as H.
  { intros s0 (W0 & G0 & P0) s'' E. destruct (check_mfc_interrupts (pc s0) s0) as [b s1] eqn:Ec.
    destruct (check_mfc_ok s0 b s1 W0 Ec) as [W1 G1]. destruct (b && _); simplify_eq; [|by rewrite G1].
    destruct (mfc_keeps s1 W1) as (W2 & G2 & _). by rewrite G2, G1. }
  destruct (negb _); [destruct (negb _); [done|]|destruct (negb _)]; intros E.
  - destruct (set_interrupt_status ev true s) as [s0|] eqn:Es; [|done]. exact (H s0 (proj1 (set_interrupt_status_ok _ _ _ _ Hs Es)) s' E).
  - destruct (set_interrupt_status ev false s) as [s0|] eqn:Es; [|done]. exact (H s0 (proj1 (set_interrupt_status_ok _ _ _ _ Hs Es)) s' E).
  - exact (H s (conj Hs (conj eq_refl eq_refl)) s' E).
Qed.

(** ** Outcomes *)

(** The registers an instruction may change, as the analysis names them. *)
Definition frame (n : spu_itype.t) (op : Z) (s s' : spu_thread) : Prop :=
  if spu_itype.zregmod n then gpr s' = gpr s
  else forall r, urange 7 r -> r <> target n op -> G s' r = G s r.

(** The address of a direct branch. *)
Definition direct (n : spu_itype.t) (op pc : Z) : option Z :=
  match n with
  | spu_itype.BR | spu_itype.BRSL | spu_itype.BRNZ | spu_itype.BRZ | spu_itype.BRHNZ | spu_itype.BRHZ =>
      Some (spu_branch_target pc (i16 op))
  | spu_itype.BRA | spu_itype.BRASL => Some (spu_branch_target 0 (i16 op))
  | _ => None
  end.

(** The instructions that may return without completing: the unknown and
    unimplemented ones, and those that wait on a channel. *)
Definition retries (n : spu_itype.t) : bool :=
  bool_decide (n ∈ [spu_itype.UNK; spu_itype.DFCEQ; spu_itype.DFCMEQ; spu_itype.DFCGT; spu_itype.DFCMGT; spu_itype.DFTSV;
                    spu_itype.STOP; spu_itype.STOPD; spu_itype.RDCH; spu_itype.WRCH]).

Definition conditional (n : spu_itype.t) : bool :=
  bool_decide (n ∈ [spu_itype.BRNZ; spu_itype.BRZ; spu_itype.BRHNZ; spu_itype.BRHZ; spu_itype.BIZ; spu_itype.BINZ;
                    spu_itype.BIHZ; spu_itype.BIHNZ; spu_itype.BISLED]).

Inductive outcome (n : spu_itype.t) (op : Z) (s : spu_thread) : result -> Prop :=
  | out_next s' : (spu_itype.branch n = true -> conditional n = true) ->
      wf_spu s' -> frame n op s s' -> pc s' = pc s -> outcome n op s (Ret true s')
  | out_retry s' : retries n = true -> wf_spu s' -> frame n op s s' -> pc s' = pc s -> outcome n op s (Ret false s')
  | out_skip s' : retries n = true -> wf_spu s' -> frame n op s s' -> pc s' = u32 (pc s + 4) -> outcome n op s (Ret false s')
  | out_jump s' : spu_itype.branch n = true -> wf_spu s' -> frame n op s s' ->
      (forall t, direct n op (pc s) = Some t -> pc s' = t) -> outcome n op s (Ret false s')
  | out_escape s' : wf_spu s' -> gpr s' = gpr s -> outcome n op s (Escaped s')
  | out_throw : outcome n op s Throw.

Lemma frame_same n op s s' : gpr s' = gpr s -> frame n op s s'.
Proof. intros E. unfold frame. destruct (spu_itype.zregmod n); [done|]. intros r _ _. unfold G. by rewrite E. Qed.

Lemma frame_set n op s s1 v :
  spu_itype.zregmod n = false -> gpr s1 = gpr s -> frame n op s (setG (target n op) v s1).
Proof.
  intros Hz E. unfold frame. rewrite Hz. intros r Hr Hn. rewrite G_setG_ne by (done || apply target_range || congruence).
  unfold G. by rewrite E.
Qed.

(** A write to the target. *)
Lemma outcome_set n op s v :
  spu_itype.zregmod n = false -> spu_itype.branch n = false -> wf_spu s -> urange 128 v ->
  outcome n op s (Ret true (setG (target n op) v s)).
Proof.
  intros Hz Hb Hs Hv. apply out_next; [by rewrite Hb|by apply wf_setG|by apply frame_set|done].
Qed.

Lemma outcome_same n op s s' :
  spu_itype.branch n = false -> keeps s s' -> outcome n op s (Ret true s').
Proof. intros Hb (W & E & P). apply out_next; [by rewrite Hb|done|by apply frame_same|done]. Qed.

Lemma outcome_halt n op s c : spu_itype.branch n = false -> wf_spu s -> outcome n op s (halt_if c s).
Proof. intros Hb Hs. unfold halt_if. destruct c; [by apply out_escape|by apply outcome_same]. Qed.

Lemma outcome_store n op s a : spu_itype.branch n = false -> wf_spu s -> outcome n op s (store_q a s op).
Proof.
  intros Hb Hs. apply out_next; [by rewrite Hb| |by apply frame_same|done].
  destruct Hs as [W1 W2 W3 W4 W5 W6]. constructor; try assumption. intros x. cbn [ls with_ls]. rewrite ls_set_byte.
  case_match; [apply lane_range; lia|apply W5].
Qed.

Lemma outcome_after n op s s1 :
  spu_itype.branch n = false -> retries n = true -> wf_spu s1 -> frame n op s s1 -> pc s1 = pc s ->
  outcome n op s (after_channel s1).
Proof.
  intros Hb Hr W F P. unfold after_channel. destruct (_ =? _).
  - apply out_next; [by rewrite Hb|done..].
  - assert (urange 32 (u32 (pc s1 + 4)) /\ u32 (pc s1 + 4) mod 4 = 0) as [R M].
    { split; [apply wrap_range; lia|]. destruct (wf_pc _ W) as [_ M]. unfold wrap. change (2 ^ 32) with (2 ^ 30 * 4).
      Z.to_euclidean_division_equations; lia. }
    apply out_skip; [done|by apply wf_with_pc|done|by rewrite <- P].
Qed.

(** A taken indirect branch. *)
Lemma outcome_jump n op s s1 t :
  spu_itype.branch n = true -> direct n op (pc s) = None -> wf_spu s1 -> frame n op s s1 ->
  urange 32 t -> t mod 4 = 0 -> outcome n op s (jump ev op t s1).
Proof.
  intros Hb Hd W F R M. unfold jump. destruct (op_interrupt_status ev op (with_pc t s1)) as [s2|] eqn:E; [|apply out_throw].
  destruct (op_interrupt_ok op (with_pc t s1) s2 ltac:(by apply wf_with_pc) E) as [W2 G2].
  apply out_jump; [done|done| |by rewrite Hd]. cbn [gpr with_pc] in G2. unfold frame, G in *. by rewrite G2.
Qed.

Definition is_some {A} (o : option A) : bool := match o with Some _ => true | None => false end.

Lemma element_width n : match element n with Some (w, _) => width w | None => True end.
Proof. destruct n; cbv beta iota delta [element]; auto with lanes. Qed.

(** A register instruction is not a branch and writes its target. *)
Definition writes (n : spu_itype.t) : bool := negb (spu_itype.zregmod n) && negb (spu_itype.branch n).

Lemma outcome_element n op s :
  is_some (element n) = true -> writes n = true -> wf_spu s -> outcome n op s (ptrs ev n s op).
Proof.
  intros He Hw Hs. apply andb_true_iff in Hw as [Hz%negb_true_iff Hb%negb_true_iff].
  pose proof (element_follows ev n) as H. pose proof (element_width n) as W.
  destruct (element n) as [[w f]|]; [|done]. rewrite H by done. apply outcome_set; try done. by apply vmake_range.
Qed.

Lemma quad_range n f op a b : quad n = Some f -> urange 128 a -> urange 128 (f op a b).
Proof.
  intros E Ha. destruct n; try discriminate E; cbv beta iota delta [quad] in E; inversion E as [E']; clear E; subst f;
    first [apply rot128_range | apply wrap_range; lia | apply shiftr_urange; [lia|try apply Z.mul_nonneg_nonneg; try lia; apply Z.mod_pos_bound; lia|done]].
Qed.

Lemma outcome_quad n op s :
  is_some (quad n) = true -> spu_itype.quadrop n = false -> writes n = true -> wf_spu s -> outcome n op s (ptrs ev n s op).
Proof.
  intros He Hq Hw Hs. apply andb_true_iff in Hw as [Hz%negb_true_iff Hb%negb_true_iff].
  destruct (quad n) as [f|] eqn:E; [|done]. rewrite (quad_follows ev n f) by done. unfold quad_exec.
  pose proof (outcome_set n op s (f op (G s (ra op)) (G s (rb op)))) as H. unfold target in H. rewrite Hq in H.
  apply H; try done. apply (quad_range n); [done|]. auto with spu.
Qed.

Lemma outcome_control n op s w x a :
  width w -> spu_itype.quadrop n = false -> writes n = true -> wf_spu s -> outcome n op s (generate_control w x a s op).
Proof.
  intros Hwd Hq Hw Hs. apply andb_true_iff in Hw as [Hz%negb_true_iff Hb%negb_true_iff].
  unfold generate_control. destruct (_ && _); [apply out_throw|]. unfold setLane. rewrite setG_setG.
  match goal with |- outcome _ _ _ (Ret true (setG _ ?v _)) => pose proof (outcome_set n op s v) as H end.
  unfold target in H. rewrite Hq in H. apply H; try done. by apply vset_range.
Qed.

(** A taken or not taken direct branch. *)
Lemma outcome_branch n op s c t :
  spu_itype.branch n = true -> conditional n = true -> direct n op (pc s) = Some t -> wf_spu s -> wf_spu (with_pc t s) ->
  outcome n op s (branch_if c t s).
Proof.
  intros Hb Hc Hd Hs W. unfold branch_if. destruct c.
  - apply out_jump; [done|done|by apply frame_same|]. intros t' E. rewrite Hd in E. by simplify_eq.
  - apply out_next; [done|done|by apply frame_same|done].
Qed.

Lemma outcome_not_taken n op s s1 :
  conditional n = true -> wf_spu s1 -> frame n op s s1 -> pc s1 = pc s -> outcome n op s (Ret true s1).
Proof. intros Hc W F P. by apply out_next. Qed.

Lemma link_range s : urange 128 (link s).
Proof.
  apply from32r_range. destruct (branch_target_ok (u32 (pc s + 4)) 0) as [R _]. apply (urange_mono 18); [lia|done].
Qed.

Lemma indirect_ok s op : urange 32 (indirect s op) /\ indirect s op mod 4 = 0.
Proof.
  destruct (branch_target_ok (word3 (G s (ra op))) 0) as [R M]. split; [|done]. apply (urange_mono 18); [lia|done].
Qed.

Lemma gather32_range w v : width w -> urange 32 (gather w v).
Proof.
  intros Hw. apply (urange_mono (128 / w)); [|by apply gather_range]. destruct Hw as [->|[->|[->| ->]]]; done.
Qed.

(** Instructions that write a fixed range of values. *)
Lemma outcome_value n op s v :
  writes n = true -> spu_itype.quadrop n = false -> wf_spu s -> urange 128 v -> outcome n op s (Ret true (setG (rt op) v s)).
Proof.
  intros Hw Hq Hs Hv. apply andb_true_iff in Hw as [Hz%negb_true_iff Hb%negb_true_iff].
  pose proof (outcome_set n op s v) as H. unfold target in H. rewrite Hq in H. by apply H.
Qed.

(** The instructions with a fourth register. *)
Lemma outcome_value4 n op s v :
  writes n = true -> spu_itype.quadrop n = true -> wf_spu s -> urange 128 v -> outcome n op s (Ret true (setG (rt4 op) v s)).
Proof.
  intros Hw Hq Hs Hv. apply andb_true_iff in Hw as [Hz%negb_true_iff Hb%negb_true_iff].
  pose proof (outcome_set n op s v) as H. unfold target in H. rewrite Hq in H. by apply H.
Qed.

(** Vectors made of vectors by bit operations and the floating-point unit. *)
Ltac vector :=
  repeat first
    [ assumption | apply vmake_range; solve [auto with lanes] | solve [auto with spu]
    | apply land_urange2; [lia| |] | apply lor_urange; [lia| |] | apply lxor_urange; [lia| |]
    | apply ldiff_urange; [lia|] | exact urange_128_0 | apply fp2_range | apply fp1_range ].

Lemma outcome_load n op s a :
  writes n = true -> spu_itype.quadrop n = false -> wf_spu s -> outcome n op s (load_q a s op).
Proof. intros. apply outcome_value; try done. apply (ls_ref_range 16). apply wf_ls. done. Qed.

Lemma orx_range a : urange 32 (lane 32 a 0 ||| lane 32 a 1 ||| lane 32 a 2 ||| lane 32 a 3).
Proof. repeat apply lor_urange; lia || (apply lane_range; lia). Qed.

(** The target, written before a jump. *)
Lemma frame_link n op s :
  spu_itype.zregmod n = false -> spu_itype.quadrop n = false -> frame n op s (setG (rt op) (link s) s).
Proof.
  intros Hz Hq. pose proof (frame_set n op s s (link s) Hz eq_refl) as H. unfold target in H. by rewrite Hq in H.
Qed.

(** A call of the thread's functions. *)
Lemma outcome_call {A} n op s (c : call A) k :
  call_ok s c -> (forall x s1, keeps s s1 -> outcome n op s (k x s1)) -> outcome n op s (after_call c k).
Proof. intros Hc Hk. destruct c as [x s1|s1|]; cbn in *; [by apply Hk|by apply out_escape; destruct Hc|apply out_throw]. Qed.

Lemma outcome_channels op s :
  wf_spu s ->
  outcome spu_itype.STOP op s (STOP ev s op) /\ outcome spu_itype.STOPD op s (STOPD ev s op) /\
  outcome spu_itype.RDCH op s (RDCH ev s op) /\ outcome spu_itype.WRCH op s (WRCH ev s op) /\
  outcome spu_itype.RCHCNT op s (RCHCNT ev s op).
Proof.
  intros Hs. split_and!.
  - apply outcome_call; [by apply stop_keeps|]. intros [] s1 (W & E & P).
    + apply outcome_after; try done; by apply frame_same.
    + apply out_retry; try done; by apply frame_same.
  - apply outcome_call; [by apply stop_keeps|]. intros [] s1 (W & E & P); [by apply outcome_same|].
    apply out_retry; try done; by apply frame_same.
  - apply outcome_call; [by apply rdch_keeps|]. intros v s1 (W & E & P). destruct (v <? 0).
    + apply out_retry; try done; by apply frame_same.
    + apply outcome_after; try done.
      * apply wf_setG; [done|]. apply from32r_range, wrap_range. lia.
      * exact (frame_set spu_itype.RDCH op s s1 _ eq_refl E).
  - apply outcome_call; [by apply wrch_keeps|]. intros [] s1 (W & E & P).
    + apply outcome_after; try done; by apply frame_same.
    + apply out_retry; try done; by apply frame_same.
  - apply outcome_value; try done. apply from32r_range. by apply rchcnt_range.
Qed.

(** Branches. *)
Lemma outcome_branches n op s : spu_itype.branch n = true -> wf_spu s -> outcome n op s (ptrs ev n s op).
Proof.
  intros Hb Hs. destruct (indirect_ok s op) as [R M].
  assert (forall t, spu_itype.branch n = true -> direct n op (pc s) = Some (spu_branch_target (fst t) (snd t)) ->
    outcome n op s (Ret false (with_pc (spu_branch_target (fst t) (snd t)) s))) as Hd.
  { intros t _ E. apply out_jump; [done|by apply wf_jump|by apply frame_same|]. intros t' E'. rewrite E in E'. by simplify_eq. }
  destruct n; try discriminate Hb; cbn [ptrs].
  - exact (Hd (pc s, i16 op) eq_refl eq_refl).
  - exact (Hd (0, i16 op) eq_refl eq_refl).
  - by apply outcome_branch; try apply wf_jump.
  - by apply outcome_branch; try apply wf_jump.
  - by apply outcome_branch; try apply wf_jump.
  - by apply outcome_branch; try apply wf_jump.
  - apply out_jump; [done|apply wf_jump, wf_setG; [done|apply link_range]|exact (frame_link spu_itype.BRSL op s eq_refl eq_refl)|]. intros t [= <-]. done.
  - apply out_jump; [done|apply wf_jump, wf_setG; [done|apply link_range]|exact (frame_link spu_itype.BRASL op s eq_refl eq_refl)|]. intros t [= <-]. done.
  - destruct (wf_srr0 s Hs) as [R0 M0]. apply outcome_jump; try done; by apply frame_same.
  - apply outcome_jump; try done; by apply frame_same.
  - unfold BISLED. pose proof (events_keeps (setG (rt op) (link s) s) ltac:(apply wf_setG; [done|apply link_range])) as (W & E & P).
    destruct (get_events_count ev (setG (rt op) (link s) s)) as [[] s2]; cbn [snd] in *;
      assert (frame spu_itype.BISLED op s s2) as F by
        (pose proof (frame_link spu_itype.BISLED op s eq_refl eq_refl) as H; unfold frame, G in *; by rewrite E).
    + by apply outcome_jump.
    + by apply outcome_not_taken.
  - apply outcome_jump; try done; [apply wf_setG; [done|apply link_range]|exact (frame_link spu_itype.BISL op s eq_refl eq_refl)].
  - unfold BIZ. destruct (_ =? _); [apply outcome_jump|apply outcome_not_taken]; try done; by apply frame_same.
  - unfold BINZ. destruct (negb _); [apply outcome_jump|apply outcome_not_taken]; try done; by apply frame_same.
  - unfold BIHZ. destruct (_ =? _); [apply outcome_jump|apply outcome_not_taken]; try done; by apply frame_same.
  - unfold BIHNZ. destruct (negb _); [apply outcome_jump|apply outcome_not_taken]; try done; by apply frame_same.
Qed.

(** Every instruction of the table. *)
Lemma ptrs_outcome n op s : wf_spu s -> outcome n op s (ptrs ev n s op).
Proof.
  intros Hs. destruct (outcome_channels op s Hs) as (C1 & C2 & C3 & C4 & C5).
  destruct (spu_itype.branch n) eqn:Hb; [by apply outcome_branches|].
  destruct (is_some (element n) && writes n) eqn:He; [apply andb_true_iff in He as []; by apply outcome_element|].
  destruct (is_some (quad n) && writes n && negb (spu_itype.quadrop n)) eqn:Hq.
  { rewrite !andb_true_iff, negb_true_iff in Hq. destruct Hq as [[]]. by apply outcome_quad. }
  destruct n; try discriminate Hb; try discriminate He; try discriminate Hq; cbn [ptrs].
  all: try first [assumption | solve [apply outcome_halt; side] | solve [apply outcome_store; side]
    | solve [apply outcome_load; side] | solve [apply outcome_value; [reflexivity|reflexivity|exact Hs|vector]]
    | solve [apply outcome_value4; [reflexivity|reflexivity|exact Hs|vector]]
    | solve [apply outcome_same; [reflexivity|exact (conj Hs (conj eq_refl eq_refl))]]
    | solve [apply out_retry; first [apply frame_same; reflexivity | side]]
    | solve [apply outcome_control; first [exact width_8 | exact width_16 | exact width_32 | exact width_64 | side]]].
  - apply outcome_value; [reflexivity|reflexivity|exact Hs|]. rewrite gbb_spec. apply from32r_range, gather32_range. auto with lanes.
  - apply outcome_value; [reflexivity|reflexivity|exact Hs|]. rewrite gbh_spec. apply from32r_range, gather32_range. auto with lanes.
  - apply outcome_value; [reflexivity|reflexivity|exact Hs|]. rewrite gb_spec. apply from32r_range, gather32_range. auto with lanes.
  - apply outcome_value; [reflexivity|reflexivity|exact Hs|apply from32r_range, orx_range].
Qed.

#[local] Opaque decode.

(** ** The invariant of the loop *)

Lemma exec_wf op s adv s' : wf_spu s -> exec ev s op = Ret adv s' -> wf_spu s'.
Proof. intros Hs E. pose proof (ptrs_outcome (decode op) op s Hs) as H. unfold exec in E. rewrite E in H. by inversion H. Qed.

Lemma escape_wf op s s' : wf_spu s -> exec ev s op = Escaped s' -> wf_spu s'.
Proof. intros Hs E. pose proof (ptrs_outcome (decode op) op s Hs) as H. unfold exec in E. rewrite E in H. by inversion H. Qed.

Lemma wf_advance s : wf_spu s -> wf_spu (advance s).
Proof.
  intros Hs. destruct (wf_pc s Hs) as [R M]. apply wf_with_pc; [done|apply wrap_range; lia|].
  unfold wrap. change (2 ^ 32) with (2 ^ 30 * 4). Z.to_euclidean_division_equations; lia.
Qed.

(** The threads a turn can leave. *)
Definition turn_ok (t : turn) : Prop :=
  match t with Continue s | Break s | Escape s => wf_spu s | Exception | Fault => True end.

Lemma interpret_turn_ok s : wf_spu s -> turn_ok (interpret_turn ev s).
Proof.
  intros Hs. unfold interpret_turn.
  assert (match (if state s =? 0 then Returns false s else check_state ev s) with
          | Returns _ s1 | Escapes s1 => wf_spu s1 | Throws => True end) as W
    by (destruct (state s =? 0); [done|by apply check_wf]).
  destruct (if state s =? 0 then _ else _) as [[] s1|s1|]; [done| |done..]. destruct (fetch s1) as [op|]; [|done].
  destruct (exec ev s1 op) as [[] s2|s2|] eqn:E; [apply wf_advance| | |done].
  - by eapply exec_wf.
  - by eapply exec_wf.
  - by eapply escape_wf.
Qed.

Lemma old_interpreter_ok k s : wf_spu s -> turn_ok (old_interpreter k ev s).
Proof.
  revert s. induction k as [|k IH]; intros s Hs; [done|]. cbn [old_interpreter].
  pose proof (interpret_turn_ok s Hs) as H. destruct (interpret_turn ev s); try done. by apply IH.
Qed.

End Outcomes.

(** Type safety of SPU execution: with an environment that keeps the
    registers, every instruction word and any number of turns of the
    interpreter leave 128 registers of 128 bits, a word-aligned program counter
    and return address, and bytes in the local store. *)
Theorem spu_wf_invariant (ev : env) (s : spu_thread) (op : Z) (k : nat) :
  EnvOk ev -> wf_spu s ->
  match exec ev s op with Ret _ s' | Escaped s' => wf_spu s' | Throw => True end /\
  turn_ok (old_interpreter k ev s).
Proof.
  intros Hev Hs. split; [|by apply old_interpreter_ok].
  destruct (exec ev s op) as [b s'|s'|] eqn:E; [by eapply exec_wf|by eapply escape_wf|done].
Qed.

Lemma spu_wf_invariant_witness : turn_ok (old_interpreter 9 ex_env (ex_spu 1 2 3)).
Proof. apply (spu_wf_invariant ex_env (ex_spu 1 2 3) 0 9); [exact ex_env_ok|apply ex_spu_wf; in_range]. Defined.

(** ** Branch targets *)

(** The analysis by kinds of instructions: direct branches, and the rest that
    is not an unknown word or an indirect branch. *)
Lemma branch_targets_direct pc op t :
  direct (decode op) op pc = Some t ->
  op_branch_targets pc op =
    if conditional (decode op)
    then (spu_branch_target (u32 (pc + 4)) 0, if spu_branch_target (u32 (pc + 4)) 0 =? t then umax else t)
    else (t, umax).
Proof.
  unfold op_branch_targets. destruct (decode op); cbn [direct]; intros [= <-]; reflexivity.
Qed.

Lemma branch_targets_other pc op :
  direct (decode op) op pc = None -> fst (op_branch_targets pc op) <> umax ->
  spu_itype.branch (decode op) = false /\ op_branch_targets pc op = (spu_branch_target (u32 (pc + 4)) 0, umax).
Proof. unfold op_branch_targets. destruct (decode op); cbn [direct fst]; intros E Hn; done. Qed.

Lemma direct_branch n op pc t : direct n op pc = Some t -> spu_itype.branch n = true /\ retries n = false.
Proof. destruct n; done. Qed.

(** Where an instruction goes on. *)
Definition next_pc (adv : bool) (s : spu_thread) : Z := if adv then pc (advance s) else pc s.

(** A direct branch, and any other instruction that is not a branch. *)
Lemma outcome_direct n op s adv s' t :
  outcome n op s (Ret adv s') -> direct n op (pc s) = Some t ->
  (conditional n = true /\ next_pc adv s' = u32 (pc s + 4)) \/ next_pc adv s' = t.
Proof.
  intros H D. destruct (direct_branch _ _ _ _ D) as [B R]. unfold next_pc.
  inversion H as [s1 C W F P|s1 R'|s1 R'|s1 B' W F J| |]; subst s1 adv; try (rewrite R in R'; discriminate R').
  - left. split; [by apply C|]. unfold advance. cbn [pc with_pc]. by rewrite P.
  - right. by apply J.
Qed.

Lemma outcome_straight n op s adv s' :
  outcome n op s (Ret adv s') -> spu_itype.branch n = false ->
  next_pc adv s' = u32 (pc s + 4) \/ (retries n = true /\ adv = false /\ pc s' = pc s).
Proof.
  intros H B. unfold next_pc. inversion H as [s1 C W F P|s1 R' W F P|s1 R' W F P|s1 B' W F J| |]; subst s1 adv.
  - left. unfold advance. cbn [pc with_pc]. by rewrite P.
  - by right.
  - left. by rewrite P.
  - rewrite B in B'. discriminate B'.
Qed.

(** The word behind an instruction, when it is still in the local store. *)
Lemma next_in_store s :
  wf_spu s -> pc s + 4 < SPU_LS_SIZE -> spu_branch_target (u32 (pc s + 4)) 0 = u32 (pc s + 4).
Proof.
  intros [_ _ [[P0 P1] P2] _ _ _] Hl. unfold SPU_LS_SIZE in Hl. rewrite wrap_id by (split; lia). apply branch_target_id.
  - split; [lia|]. change (2 ^ 18) with 0x40000. lia.
  - rewrite Zplus_mod, P2. done.
Qed.

(** C22: [op_branch_targets] is sound.  When it names a first target, an
    instruction that returns goes on at exactly one of the addresses it names, the
    next word or the branch target, with two exceptions.  An instruction that
    falls through the last word of the local store (or runs behind it) goes on at
    pc + 4, which the interpreter does not reduce, while the target named is that
    address reduced modulo the store.  And the instructions of [retries] may
    return without completing, with the program counter where it was: STOP,
    STOPD, RDCH and WRCH that wait, and the unknown word and DFCEQ, DFCMEQ, DFCGT,
    DFCMGT and DFTSV, which the interpreter does not implement and repeats. *)
Theorem spu_branch_targets_sound (ev : env) (s : spu_thread) (op : Z) (adv : bool) (s' : spu_thread) :
  EnvOk ev -> wf_spu s -> exec ev s op = Ret adv s' ->
  let '(t0, t1) := op_branch_targets (pc s) op in
  t0 <> umax ->
  next_pc adv s' = t0 \/ next_pc adv s' = t1
  \/ (SPU_LS_SIZE <= pc s + 4 /\ next_pc adv s' = u32 (pc s + 4) /\ t0 = spu_branch_target (u32 (pc s + 4)) 0)
  \/ (retries (decode op) = true /\ adv = false /\ pc s' = pc s).
Proof.
  intros Hev Hs E. pose proof (ptrs_outcome ev (decode op) op s Hs) as H. unfold exec in E. rewrite E in H. clear E.
  assert (Hn : pc s + 4 < SPU_LS_SIZE \/ SPU_LS_SIZE <= pc s + 4) by lia.
  pose proof (next_in_store s Hs) as Hin.
  destruct (direct (decode op) op (pc s)) as [t|] eqn:D.
  - rewrite (branch_targets_direct _ _ _ D). pose proof (outcome_direct _ _ _ _ _ _ H D) as O. clear H D.
    generalize dependent (next_pc adv s'). intros x O.
    destruct (conditional (decode op)); intros _; [|destruct O as [[O _]|O]; [discriminate O|left; exact O]].
    destruct O as [[_ O]|O].
    + destruct Hn as [Hn|Hn]; [left; rewrite (Hin Hn); exact O|right; right; left; exact (conj Hn (conj O eq_refl))].
    + destruct (Z.eqb_spec (spu_branch_target (u32 (pc s + 4)) 0) t) as [Et|]; [left; congruence|right; left; exact O].
  - pose proof (branch_targets_other (pc s) op D) as Ho. destruct (op_branch_targets (pc s) op) as [t0 t1]. intros Hu.
    destruct (Ho Hu) as [B Eo]. pose proof (f_equal fst Eo) as E0. cbn [fst] in E0. rewrite E0.
    destruct (outcome_straight _ _ _ _ _ H B) as [O|O]; [|by right; right; right].
    destruct Hn as [Hn|Hn]; [left; rewrite (Hin Hn); exact O|right; right; left; exact (conj Hn (conj O eq_refl))].
Qed.

#[local] Transparent decode.

(** [brnz $3, +8] taken. *)
Lemma spu_branch_targets_sound_witness :
  exec ex_env (ex_spu 0 0 (Z.shiftl 1 96)) 0x21000103 = Ret false (with_pc 8 (ex_spu 0 0 (Z.shiftl 1 96))) /\
  op_branch_targets 0 0x21000103 = (4, 8) /\ (8 = 4 \/ 8 = 8).
Proof.
  assert (exec ex_env (ex_spu 0 0 (Z.shiftl 1 96)) 0x21000103 = Ret false (with_pc 8 (ex_spu 0 0 (Z.shiftl 1 96)))) as E
    by (vm_compute; reflexivity).
  pose proof (spu_branch_targets_sound ex_env (ex_spu 0 0 (Z.shiftl 1 96)) 0x21000103 false _ ex_env_ok
    ltac:(apply ex_spu_wf; in_range) E) as H.
  change (pc (ex_spu 0 0 (Z.shiftl 1 96))) with 0 in H.
  assert (op_branch_targets 0 0x21000103 = (4, 8)) as Et by (vm_compute; reflexivity).
  split; [exact E|]. split; [exact Et|]. rewrite Et in H.
  destruct H as [H|[H|[(H & _)|(_ & _ & H)]]]; [unfold umax; lia|left; exact H|right; exact H|unfold SPU_LS_SIZE in H; lia|discriminate H].
Defined.

(** ** Register targets *)

(** The instructions that compute a register from registers and the word: the
    pure ones, without the unimplemented ones and [fscrwr], which writes
    nothing. *)
Definition computes (n : spu_itype.t) : bool :=
  spu_itype.pure n &&
  negb (bool_decide (n ∈ [spu_itype.FSCRWR; spu_itype.DFCEQ; spu_itype.DFCMEQ; spu_itype.DFCGT; spu_itype.DFCMGT; spu_itype.DFTSV])).

Definition uses (n : spu_itype.t) (bit : Z) : bool := negb (spu_iflag.flag n &&& bit =? 0).

(** Two executions of one word that write the same value. *)
Definition same_write (n : spu_itype.t) (op : Z) (s1 s2 : spu_thread) (r1 r2 : result) : Prop :=
  (r1 = Throw /\ r2 = Throw) \/
  exists v, r1 = Ret true (setG (target n op) v s1) /\ r2 = Ret true (setG (target n op) v s2).

Section Reads.
Context (ev : env) (n : spu_itype.t) (op : Z) (s1 s2 : spu_thread).
Hypothesis W1 : wf_spu s1.
Hypothesis W2 : wf_spu s2.
Hypothesis Ea : uses n spu_iflag.use_ra = true -> G s1 (ra op) = G s2 (ra op).
Hypothesis Eb : uses n spu_iflag.use_rb = true -> G s1 (rb op) = G s2 (rb op).
Hypothesis Ec : uses n spu_iflag.use_rc = true -> G s1 (rc op) = G s2 (rc op).

Lemma reads_rr f :
  uses n spu_iflag.use_ra = true -> uses n spu_iflag.use_rb = true -> spu_itype.quadrop n = false ->
  same_write n op s1 s2 (rr f s1 op) (rr f s2 op).
Proof. intros Ua Ub Q. right. unfold target. rewrite Q. unfold rr. rewrite <- Ea, <- Eb by done. by eexists. Qed.

Lemma reads_r1 f :
  uses n spu_iflag.use_ra = true -> spu_itype.quadrop n = false -> same_write n op s1 s2 (r1 f s1 op) (r1 f s2 op).
Proof. intros Ua Q. right. unfold target. rewrite Q. unfold r1. rewrite <- Ea by done. by eexists. Qed.

Lemma reads_imm f : spu_itype.quadrop n = false -> same_write n op s1 s2 (imm f s1 op) (imm f s2 op).
Proof. intros Q. right. unfold target. rewrite Q. unfold imm. by eexists. Qed.

Lemma reads_rrt f :
  uses n spu_iflag.use_ra = true -> uses n spu_iflag.use_rb = true -> uses n spu_iflag.use_rc = true -> spu_itype.quadrop n = false ->
  same_write n op s1 s2 (rrt f s1 op) (rrt f s2 op).
Proof.
  intros Ua Ub Uc Q. right. unfold target. rewrite Q. unfold rrt. rewrite <- Ea, <- Eb by done.
  change (rt op) with (rc op). rewrite <- Ec by done. by eexists.
Qed.

Lemma reads_rrrr f :
  uses n spu_iflag.use_ra = true -> uses n spu_iflag.use_rb = true -> uses n spu_iflag.use_rc = true -> spu_itype.quadrop n = true ->
  same_write n op s1 s2 (rrrr f s1 op) (rrrr f s2 op).
Proof.
  intros Ua Ub Uc Q. right. unfold target. rewrite Q. unfold rrrr. rewrite <- Ea, <- Eb, <- Ec by done. by eexists.
Qed.

(** The loops, by their element functions. *)
Lemma reads_element w (f : Z -> Z -> Z -> Z -> Z) :
  follows ev n w f ->
  (uses n spu_iflag.use_rb = false -> forall x y y' t, f op x y t = f op x y' t) ->
  (uses n spu_iflag.use_rc = false -> forall x y t t', f op x y t = f op x y t') ->
  uses n spu_iflag.use_ra = true -> same_write n op s1 s2 (ptrs ev n s1 op) (ptrs ev n s2 op).
Proof.
  intros Hf Ib Ic Ua. right. rewrite !Hf by done. unfold element_exec. rewrite <- Ea by done.
  change (rt op) with (rc op).
  assert (forall x i, f op x (lane w (G s2 (rb op)) i) (lane w (G s2 (rc op)) i) =
                      f op x (lane w (G s1 (rb op)) i) (lane w (G s1 (rc op)) i)) as H.
  { intros x i. destruct (uses n spu_iflag.use_rb) eqn:Ub; [rewrite Eb by done|rewrite (Ib eq_refl x _ (lane w (G s1 (rb op)) i))];
      (destruct (uses n spu_iflag.use_rc) eqn:Uc; [by rewrite Ec|apply (Ic eq_refl)]). }
  eexists. split; [reflexivity|]. do 2 f_equal. unfold vmake. f_equal. apply list_fmap_ext. intros. by rewrite H.
Qed.

Lemma reads_control w x a :
  uses n spu_iflag.use_ra = true -> spu_itype.quadrop n = false -> a s1 op = a s2 op ->
  same_write n op s1 s2 (generate_control w x a s1 op) (generate_control w x a s2 op).
Proof.
  intros Ua Q E. unfold generate_control, setLane. rewrite E, !setG_setG, !G_setG_eq by auto with spu.
  assert ((ra op =? 1) && negb (word3 (G s1 1) &&& 15 =? 0) = (ra op =? 1) && negb (word3 (G s2 1) &&& 15 =? 0)) as ->.
  { destruct (Z.eqb_spec (ra op) 1) as [E1|]; [|done]. rewrite E1 in Ea. by rewrite Ea. }
  destruct (_ && _); [by left|]. right. unfold target. rewrite Q. by eexists.
Qed.

Lemma reads_iohl : n = spu_itype.IOHL -> same_write n op s1 s2 (IOHL s1 op) (IOHL s2 op).
Proof.
  intros ->. right. unfold IOHL, target. change (spu_itype.quadrop spu_itype.IOHL) with false. cbv iota.
  assert (G s1 (rt op) = G s2 (rt op)) as E by (change (rt op) with (rc op); by apply Ec). rewrite E. by eexists.
Qed.

End Reads.

Lemma ptrs_reads ev n op s1 s2 :
  computes n = true -> wf_spu s1 -> wf_spu s2 ->
  (uses n spu_iflag.use_ra = true -> G s1 (ra op) = G s2 (ra op)) ->
  (uses n spu_iflag.use_rb = true -> G s1 (rb op) = G s2 (rb op)) ->
  (uses n spu_iflag.use_rc = true -> G s1 (rc op) = G s2 (rc op)) ->
  same_write n op s1 s2 (ptrs ev n s1 op) (ptrs ev n s2 op).
Proof.
  intros Hc W1 W2 Ea Eb Ec.
  assert (forall k, uses n spu_iflag.use_ra = true -> uses n spu_iflag.use_rb = true -> k = addr_x -> k s1 op = k s2 op) as Ax
    by (intros k Ua Ub ->; unfold addr_x; by rewrite Ea, Eb).
  assert (forall k, uses n spu_iflag.use_ra = true -> k = addr_d -> k s1 op = k s2 op) as Ad
    by (intros k Ua ->; unfold addr_d; by rewrite Ea).
  destruct n; try discriminate Hc; cbn [ptrs].
  all: try first [ solve [apply reads_rr; side] | solve [apply reads_r1; side] | solve [apply reads_imm; side]
    | solve [apply reads_rrt; side] | solve [apply reads_rrrr; side]
    | solve [apply reads_iohl; side]
    | solve [apply reads_control; first [side | apply Ax; side | apply Ad; side]] ].
  - refine (reads_element ev spu_itype.CGX op s1 s2 W1 W2 Ea Eb Ec 32 _ (element_follows ev spu_itype.CGX) _ _ eq_refl); done.
  - refine (reads_element ev spu_itype.BGX op s1 s2 W1 W2 Ea Eb Ec 32 _ (element_follows ev spu_itype.BGX) _ _ eq_refl); done.
  - refine (reads_element ev spu_itype.CLZ op s1 s2 W1 W2 Ea Eb Ec 32 _ (element_follows ev spu_itype.CLZ) _ _ eq_refl); done.
  - refine (reads_element ev spu_itype.XSWD op s1 s2 W1 W2 Ea Eb Ec 64 _ (element_follows ev spu_itype.XSWD) _ _ eq_refl); done.
Qed.

Lemma computes_target n : computes n = true -> spu_itype.zregmod n = false.
Proof. destruct n; done. Qed.

#[local] Opaque decode.

(** What the analysis names. *)
Lemma register_targets_eq op :
  let n := decode op in
  op_register_targets op =
    if spu_itype.zregmod n then (umax, (128, 128, 128), 0)
    else (target n op,
          (if uses n spu_iflag.use_ra then ra op else 128, if uses n spu_iflag.use_rb then rb op else 128,
           if uses n spu_iflag.use_rc then rc op else 128),
          if spu_itype.quadrop n then clear_rt4 op else clear_rt op).
Proof.
  cbv zeta. unfold op_register_targets, target, uses. cbv zeta. generalize (decode op). intros n. destruct (spu_itype.zregmod n); [reflexivity|].
  destruct (_ =? 0), (_ =? 0), (_ =? 0); reflexivity.
Qed.

Lemma exec_writes ev op s1 s2 adv s1' :
  exec ev s1 op = Ret adv s1' -> wf_spu s1 -> same_write (decode op) op s1 s2 (exec ev s1 op) (exec ev s2 op) ->
  exec ev s2 op = Ret true (setG (target (decode op) op) (G s1' (target (decode op) op)) s2).
Proof.
  intros E W [[E1 _]|(v & E1 & E2)]; rewrite E in E1; [discriminate E1|].
  assert (s1' = setG (target (decode op) op) v s1) as -> by congruence.
  rewrite G_setG_eq by (exact W || apply target_range). exact E2.
Qed.

(** C21: [op_register_targets] is sound.  No instruction changes a register the
    analysis does not name as the target, and the ones it gives no target
    change none.  For the instructions that compute a register ([computes]:
    arithmetic, logic, shifts, masks and floating point, not loads, channel
    reads and branches), the value written depends only on the registers the analysis names as sources: a
    thread that agrees on them gets the same value in the same register. *)
Theorem spu_register_targets_sound (ev : env) (s1 s2 : spu_thread) (op : Z) (adv : bool) (s1' : spu_thread) :
  EnvOk ev -> wf_spu s1 -> wf_spu s2 -> exec ev s1 op = Ret adv s1' ->
  let '(t, (a, b, c), _) := op_register_targets op in
  (t = umax -> gpr s1' = gpr s1) /\
  (t <> umax -> forall r, urange 7 r -> r <> t -> G s1' r = G s1 r) /\
  (computes (decode op) = true -> (forall r, r ∈ [a; b; c] -> urange 7 r -> G s1 r = G s2 r) ->
   exec ev s2 op = Ret true (setG t (G s1' t) s2)).
Proof.
  intros Hev W1 W2 E. rewrite register_targets_eq. pose proof (ptrs_outcome ev (decode op) op s1 W1) as H.
  assert (frame (decode op) op s1 s1') as F by (unfold exec in E; rewrite E in H; by inversion H).
  pose proof (ptrs_reads ev (decode op) op s1 s2) as R. pose proof (computes_target (decode op)) as T. unfold frame in F.
  destruct (spu_itype.zregmod (decode op)).
  { split; [intros _; exact F|]. split; [intros Hu; by destruct Hu|]. intros C. discriminate (T C). }
  split; [|split].
  - intros Et. destruct (target_range (decode op) op) as [_ Hl]. rewrite Et in Hl. by vm_compute in Hl.
  - intros _. exact F.
  - intros C A. apply (exec_writes ev op s1 s2 adv); [exact E|exact W1|]. apply R; [exact C|exact W1|exact W2|intros U; rewrite U in A..].
    + apply A; [apply list_elem_of_here|apply spu_ra_range].
    + apply A; [apply list_elem_of_further, list_elem_of_here|apply spu_rb_range].
    + apply A; [apply list_elem_of_further, list_elem_of_further, list_elem_of_here|apply rc_range].
Qed.

#[local] Transparent decode.

(** [cgx $3, $1, $2]: the value in another thread with the same registers 1, 2
    and 3. *)
Lemma spu_register_targets_sound_witness :
  exec ex_env (setG 7 5 (ex_spu (2 ^ 128 - 1) 1 0)) 0x68408083 =
    Ret true (setG 3 1 (setG 7 5 (ex_spu (2 ^ 128 - 1) 1 0))).
Proof.
  set (s := ex_spu (2 ^ 128 - 1) 1 0). assert (wf_spu s) as W by (apply ex_spu_wf; in_range).
  assert (exec ex_env s 0x68408083 = Ret true (setG 3 1 s)) as E by (vm_compute; reflexivity).
  pose proof (spu_register_targets_sound ex_env s (setG 7 5 s) 0x68408083 true _ ex_env_ok W (wf_setG s 7 5 W ltac:(in_range)) E) as H.
  assert (op_register_targets 0x68408083 = (3, (1, 2, 3), 0x68408080)) as Et by (vm_compute; reflexivity).
  rewrite Et in H. destruct H as (_ & _ & H). rewrite H; [vm_compute; reflexivity|vm_compute; reflexivity|].
  intros r Hr R7. symmetry. apply G_setG_ne; [in_range|exact R7|]. intros <-. revert Hr. apply (bool_decide_unpack _). vm_compute. reflexivity.
Defined.
