(* ===== verification/SpuLoop.v ===== *)
(** * SPU interrupts and the end of the local store

    What the interpreter does when an event interrupts a thread, how [iret]
    resumes it, and what happens to code that runs to the end of the local
    store. *)

From stdpp Require Import base numbers list tactics.
From Stdlib Require Import Lia.
From S2P Require Import Prelude Simd SpuOpcode SpuThread SpuOps SpuSpec SpuProgram.
Import Spu SpuOp spu_interpreter.
Open Scope Z_scope.
Open Scope mach_scope.

(** ** Interrupts *)

(** The address of the handler: address 0, or the target of the branch there. *)
Definition vector (m : Z -> Z) : Z :=
  let br := ls_ref 4 m 0 in if br &&& 0xfd80007f =? 0x30000000 then (br >>> 5) &&& 0x3fffc else 0.

(** The thread at its handler. *)
Definition interrupted (next : Z) (s : spu_thread) : spu_thread :=
  with_pc (vector (ls s)) (with_srr0 next (with_intr false s)).

Lemma check_fires next s :
  check_mfc_interrupts next s =
    if ch_count s && interrupts_enabled s then (true, interrupted next s) else (false, s).
Proof. unfold check_mfc_interrupts, interrupted, vector. by destruct (ch_count s && interrupts_enabled s). Qed.

(** The enable bit of an indirect branch, without an event that the interpreter
    cannot deliver. *)
Lemma enable_bit ev op s :
  e op = 1 -> d op = 0 -> ch_mask s &&& SPU_EVENT_INTR_BUSY_CHECK = 0 ->
  op_interrupt_status ev op s =
    Some (if ch_count s
          then let s1 := interrupted (pc s) s in if state s &&& pending =? 0 then s1 else do_mfc ev s1
          else with_intr true s).
Proof.
  intros He Hd Hm. unfold op_interrupt_status, set_interrupt_status. rewrite He, Hd, Hm. cbn [Z.eqb negb andb mbind option_bind].
  rewrite check_fires. cbn [ch_count with_intr interrupts_enabled]. rewrite andb_true_r.
  destruct (ch_count s); [|done]. cbn [andb]. change (state (interrupted _ _)) with (state s).
  unfold interrupted. cbn [pc with_intr ls]. by destruct (state s &&& pending =? 0).
Qed.

(** Interrupts.  An event with interrupts enabled moves the thread to its
    handler, saves the next address and disables interrupts, so a second check
    does nothing.  From a handler that leaves the saved address, [iret] with
    the enable bit resumes there with interrupts on when no event is left, and
    starts the handler again with the same saved address when one is; with
    both the enable and the disable bit it throws. *)
Theorem spu_interrupt_return (ev : env) (next : Z) (s s2 : spu_thread) (op : Z) :
  ch_count s = true -> interrupts_enabled s = true -> decode op = spu_itype.IRET -> e op = 1 ->
  srr0 s2 = next -> ch_mask s2 &&& SPU_EVENT_INTR_BUSY_CHECK = 0 -> state s2 &&& pending = 0 ->
  check_mfc_interrupts next s = (true, interrupted next s) /\
  (forall next', check_mfc_interrupts next' (interrupted next s) = (false, interrupted next s)) /\
  (d op = 0 -> ch_count s2 = false -> exec ev s2 op = Ret false (with_intr true (with_pc next s2))) /\
  (d op = 0 -> ch_count s2 = true -> exec ev s2 op = Ret false (interrupted next (with_pc next s2))) /\
  (d op = 1 -> exec ev s2 op = Throw).
Proof.
  intros Hc Hi Ho He Hn Hm Hp. split_and!.
  - by rewrite check_fires, Hc, Hi.
  - intros next'. rewrite check_fires. cbn [interrupts_enabled interrupted with_pc with_srr0 with_intr]. by rewrite andb_false_r.
  - intros Hd Hc2. unfold exec. rewrite Ho. cbn [ptrs]. unfold IRET, jump. rewrite enable_bit by done.
    cbn [ch_count with_pc]. by rewrite Hc2, Hn.
  - intros Hd Hc2. unfold exec. rewrite Ho. cbn [ptrs]. unfold IRET, jump. rewrite enable_bit by done.
    cbn [ch_count with_pc state pc]. by rewrite Hc2, Hp, Hn.
  - intros Hd. unfold exec. rewrite Ho. cbn [ptrs]. unfold IRET, jump, op_interrupt_status. by rewrite He, Hd.
Qed.

(** [irete] from a handler at 0x100. *)
Lemma spu_interrupt_return_witness :
  exec ex_env (mkSpu (replicate 128 0) 0x100 0x2468 (fun _ => 0) false false 0 0) 0x35440000 =
    Ret false (mkSpu (replicate 128 0) 0x2468 0x2468 (fun _ => 0) true false 0 0).
Proof.
  destruct (spu_interrupt_return ex_env 0x2468 (mkSpu (replicate 128 0) 0x100 0 (fun _ => 0) true true 0 0)
    (mkSpu (replicate 128 0) 0x100 0x2468 (fun _ => 0) false false 0 0) 0x35440000) as (_ & _ & H & _).
  1-7: vm_compute; reflexivity.
  exact (H ltac:(vm_compute; reflexivity) eq_refl).
Defined.

(** ** The end of the store *)

(** A local store that holds nothing but [nop]. *)
Definition all_nops (m : Z -> Z) : Prop := forall a, a mod 4 = 0 -> ls_ref 4 m a = 0x40200000.

Definition nop_store (a : Z) : Z := if a mod 4 =? 0 then 0x40 else if a mod 4 =? 1 then 0x20 else 0.

Lemma nop_store_ok : all_nops nop_store.
Proof.
  intros a Ha. unfold ls_ref. cbn [seq fmap list_fmap].
  assert (a mod SPU_LS_SIZE mod 4 = 0) as H by (unfold SPU_LS_SIZE; Z.to_euclidean_division_equations; lia).
  set (b := a mod SPU_LS_SIZE) in *. clearbody b. unfold nop_store.
  replace ((b + Z.of_nat 0) mod 4) with 0 by (Z.to_euclidean_division_equations; lia).
  replace ((b + Z.of_nat 1) mod 4) with 1 by (Z.to_euclidean_division_equations; lia).
  replace ((b + Z.of_nat 2) mod 4) with 2 by (Z.to_euclidean_division_equations; lia).
  replace ((b + Z.of_nat 3) mod 4) with 3 by (Z.to_euclidean_division_equations; lia).
  reflexivity.
Qed.

Lemma nop_turn ev s :
  all_nops (ls s) -> state s = 0 -> pc s mod 4 = 0 -> 0 <= pc s < 2 * SPU_LS_SIZE ->
  interpret_turn ev s = Continue (with_pc (pc s + 4) s).
Proof.
  intros Hn Hs Hm Hp. unfold interpret_turn. rewrite Hs. cbn [Z.eqb]. unfold fetch.
  destruct (Z.ltb_spec (pc s) (2 * SPU_LS_SIZE)); [|lia]. rewrite Hn by done. unfold exec.
  assert (decode 0x40200000 = spu_itype.NOP) as -> by (vm_compute; reflexivity). cbn [ptrs NOP nop]. unfold NOP, nop, advance.
  do 2 f_equal. apply wrap_id. unfold urange, SPU_LS_SIZE in *. lia.
Qed.

Lemma nop_run ev n s :
  all_nops (ls s) -> state s = 0 -> pc s mod 4 = 0 -> 0 <= pc s -> pc s + 4 * Z.of_nat n <= 2 * SPU_LS_SIZE ->
  old_interpreter n ev s = Continue (with_pc (pc s + 4 * Z.of_nat n) s).
Proof.
  revert s. induction n as [|n IH]; intros s Hn Hs Hm Hp Hl.
  - cbn [old_interpreter]. rewrite Z.mul_0_r, Z.add_0_r. by destruct s.
  - cbn [old_interpreter]. rewrite nop_turn by (done || lia). rewrite IH; cbn [ls state pc with_pc]; try done; try lia.
    + unfold with_pc. cbn. do 2 f_equal. lia.
    + by rewrite <- Hm, <- (Z.mod_add (pc s) 1 4) by lia.
Qed.

(** More turns. *)
Lemma interp_plus n m ev s :
  old_interpreter (n + m) ev s =
    match old_interpreter n ev s with Continue s1 => old_interpreter m ev s1 | t => t end.
Proof.
  revert s. induction n as [|n IH]; intros s; [done|]. cbn [Nat.add old_interpreter].
  by destruct (interpret_turn ev s).
Qed.

(** The interpreter advances the program counter without wrapping it at the
    size of the local store.  Code without a branch runs through the end of the
    store into the mirror mapped above it, with addresses past the store, and
    faults at the end of the mirror. *)
Theorem spu_runs_past_store (ev : env) (s : spu_thread) :
  all_nops (ls s) -> state s = 0 -> pc s = 0 ->
  (forall n, 4 * Z.of_nat n <= 2 * SPU_LS_SIZE -> old_interpreter n ev s = Continue (with_pc (4 * Z.of_nat n) s)) /\
  (forall n, 2 * SPU_LS_SIZE < 4 * Z.of_nat n -> old_interpreter n ev s = Fault).
Proof.
  intros Hn Hs Hp. assert (forall n, 4 * Z.of_nat n <= 2 * SPU_LS_SIZE -> old_interpreter n ev s = Continue (with_pc (4 * Z.of_nat n) s)) as H.
  { intros n Hl. rewrite nop_run by (rewrite ?Hp; done || lia). by rewrite Hp, Z.add_0_l. }
  split; [done|]. intros n Hl. set (m := Z.to_nat (2 * SPU_LS_SIZE / 4)).
  assert (Z.of_nat m = 2 * SPU_LS_SIZE / 4) as Em by (unfold m; rewrite Z2Nat.id; done).
  change (2 * SPU_LS_SIZE / 4) with 0x20000 in Em. unfold SPU_LS_SIZE in Hl.
  replace n with (m + S (n - m - 1))%nat by lia. clearbody m. rewrite interp_plus, H by (unfold SPU_LS_SIZE; lia).
  cbn [old_interpreter]. unfold interpret_turn, fetch. cbn [state with_pc pc ls]. rewrite Hs. cbn [Z.eqb pc with_pc].
  destruct (Z.ltb_spec (4 * Z.of_nat m) (2 * SPU_LS_SIZE)); [unfold SPU_LS_SIZE in *; lia|done].
Qed.

(** Two turns of a store of [nop], and the fault. *)
Lemma spu_runs_past_store_witness :
  old_interpreter 2 ex_env (mkSpu (replicate 128 0) 0 0 nop_store false false 0 0)
    = Continue (mkSpu (replicate 128 0) 8 0 nop_store false false 0 0).
Proof.
  destruct (spu_runs_past_store ex_env (mkSpu (replicate 128 0) 0 0 nop_store false false 0 0)) as [H _].
  - exact nop_store_ok.
  - reflexivity.
  - reflexivity.
  - exact (H 2%nat ltac:(unfold SPU_LS_SIZE; lia)).
Defined.
