(* ===== verification/SpuChannel.v ===== *)
(** * SPU channels

    struct spu_channel of rpcs3/Emu/Cell/SPUThread.h, with pop_wait and
    push_wait of SPUThread.cpp: a channel of one value between an SPU and other
    threads.  A waiting SPU is handed the value through jostling_value, so that
    no other thread sees the channel full in between.  Each definition is one
    atomic operation, on [data] or on [jostling_value]; in pop_wait and
    push_wait the store to [jostling_value] precedes the compare-and-swap on
    [data], which is a step of its own. *)

From stdpp Require Import base numbers list tactics.
From Stdlib Require Import Lia.
From S2P Require Import Prelude.

Open Scope Z_scope.

Definition bit_wait : Z := Z.shiftl 1 32.
Definition bit_occupy : Z := Z.shiftl 1 33.
Definition bit_count : Z := Z.shiftl 1 63.
Definition occupy_ored_wait : Z := Z.lor bit_wait bit_occupy.

Definition has (d b : Z) : bool := negb (Z.land d b =? 0).

(** d & ~b *)
Definition clear_bits (d b : Z) : Z := Z.land d (lnot_w 64 b).

Definition low32 (d : Z) : Z := wrap 32 d.

Record spu_channel := mk_chan { data : Z; jostling_value : Z }.

Definition set_data (d : Z) (c : spu_channel) : spu_channel := mk_chan d (jostling_value c).
Definition set_jostling (j : Z) (c : spu_channel) : spu_channel := mk_chan (data c) j.

Record spu_channel_op_state := mk_op { old_count : bool; count : Z; op_notify : bool; op_done : bool }.

(** ** Operations of one step *)

Definition try_push (value : Z) (c : spu_channel) : spu_channel * bool :=
  if negb (has (data c) bit_count) then (set_data (Z.lor bit_count value) c, true) else (c, false).

Definition try_pop (c : spu_channel) : spu_channel * option Z :=
  if has (data c) bit_count then (set_data 0 c, Some (low32 (data c))) else (c, None).

Definition try_read (c : spu_channel) : Z * bool := (low32 (data c), has (data c) bit_count).

(** pop: the channel and the last value. *)
Definition chan_pop (c : spu_channel) : spu_channel * Z :=
  let mask := Z.lor bit_count bit_occupy in
  (set_data
     (if Z.land (data c) mask =? mask then Z.lor bit_count (low32 (jostling_value c))
      else clear_bits (data c) (Z.lor mask bit_wait)) c,
   low32 (data c)).

Definition set_value (value : Z) (cnt : bool) (c : spu_channel) : spu_channel :=
  set_data (Z.lor (Z.shiftl (if cnt then 1 else 0) 63) value) c.

Definition get_value (c : spu_channel) : Z := low32 (data c).

Definition get_count (c : spu_channel) : Z := if has (data c) bit_count then 1 else 0.

(** ** push *)

(** fetch_op on data: the old value, and whether the value was stored. *)
Definition push_data (value : Z) (to_or : bool) (c : spu_channel) : spu_channel * Z * bool :=
  let d := data c in
  if has d bit_occupy then (c, d, false)
  else (set_data (Z.lor bit_count (if to_or then Z.lor (low32 d) value else value)) c, d, true).

(** jostling_value.compare_and_swap_test(bit_occupy, value) *)
Definition push_jostle (value : Z) (c : spu_channel) : spu_channel * bool :=
  if jostling_value c =? bit_occupy then (set_jostling value c, true) else (c, false).

(** The waiting bits turned off; [None] is a failed ensure.  [old] is the
    value push_data saw. *)
Definition push_clear (old : Z) (c : spu_channel) : option spu_channel :=
  if has (data c) bit_wait && has old bit_wait then Some (set_data (clear_bits (data c) occupy_ored_wait) c) else None.

Definition push_result (old : Z) : spu_channel_op_state :=
  mk_op (negb (has old bit_count)) 1 (has old bit_wait) true.

(** ** pop_wait *)

(** The function given to fetch_op: a value there, or the store to
    jostling_value and the value of data it saw. *)
Definition pop_wait_try (pop : bool) (c : spu_channel) : spu_channel * (Z + Z) :=
  if has (data c) bit_count then (if pop then set_data 0 c else c, inl (low32 (data c)))
  else (if pop then set_jostling bit_occupy c else c, inr (data c)).

(** The compare-and-swap that begins the wait. *)
Definition pop_wait_commit (pop : bool) (seen : Z) (c : spu_channel) : spu_channel * bool :=
  if data c =? seen then (set_data (Z.lor (if pop then bit_occupy else 0) bit_wait) c, true) else (c, false).

(** The value after the waiting bit was seen cleared. *)
Definition pop_wait_take (pop : bool) (c : spu_channel) : spu_channel * Z :=
  if pop then (set_jostling 0 c, low32 (jostling_value c)) else (c, low32 (data c)).

(** A stopped thread: the content of jostling_value, or the waiting bit reset. *)
Definition pop_wait_stop (c : spu_channel) : spu_channel * Z := (set_jostling 0 c, jostling_value c).

Definition peek_wait_stop (c : spu_channel) : spu_channel := set_data (clear_bits (data c) bit_wait) c.

(** The end of an aborted wait; [None] is a failed ensure. *)
Definition pop_wait_cancel (c : spu_channel) : option spu_channel :=
  if has (data c) bit_wait then Some (set_data (clear_bits (data c) occupy_ored_wait) c) else None.

(** ** push_wait *)

(** The function given to fetch_op: done, or the store to jostling_value and
    the value of data it saw. *)
Definition push_wait_try (value : Z) (push : bool) (c : spu_channel) : spu_channel * option Z :=
  if has (data c) bit_count then (set_jostling (if push then value else low32 (data c)) c, Some (data c))
  else (if push then set_data (Z.lor bit_count value) c else c, None).

Definition push_wait_commit (push : bool) (seen : Z) (c : spu_channel) : spu_channel * bool :=
  if data c =? seen
  then (set_data (Z.lor (data c) (Z.lor (if push then bit_occupy else 0) bit_wait)) c, true)
  else (c, false).

(** A stopped thread: bit_test_reset(off_wait), and the result. *)
Definition push_wait_stop (c : spu_channel) : spu_channel * bool :=
  (set_data (clear_bits (data c) bit_wait) c, negb (has (data c) bit_wait)).

(** ** The threads at a channel the SPU reads *)

(** The SPU in pop_wait. *)
Inductive reader :=
| RIdle
| RSeen (pop : bool) (seen : Z)
| RWait (pop : bool)
| RTake (pop : bool)
| RGot (v : Z)
| RCancel.

(** A thread in push. *)
Inductive pusher :=
| PIdle
| PTry (v : Z) (to_or : bool)
| PJostle (v : Z) (to_or : bool) (old : Z)
| PClear (old : Z).

Record csys := mk_csys { chan : spu_channel; rd : reader; ps : list pusher }.

Inductive event :=
| ERecv (v : Z)
| EPeek (v : Z)
| EAborted
| EPush (v : Z) (to_or : bool)
| EFatal
| ETau.

#[global] Instance event_eq_dec : EqDecision event.
Proof. solve_decision. Defined.

Inductive action :=
| APush (i : nat) (v : Z) (to_or : bool)
| AData (i : nat)
| AJostle (i : nat)
| AClear (i : nat)
| APop (pop : bool)
| ACommit
| ACheck
| ATake
| AStop
| AGot
| ACancel.

Definition set_pusher (i : nat) (p : pusher) (c : spu_channel) (s : csys) : csys :=
  mk_csys c (rd s) (<[i := p]> (ps s)).

(** One turn of fetch_op in pop_wait. *)
Definition read_turn (pop : bool) (s : csys) : csys * event :=
  let '(c, r) := pop_wait_try pop (chan s) in
  match r with
  | inl v => (mk_csys c RIdle (ps s), if pop then ERecv v else EPeek v)
  | inr seen => (mk_csys c (RSeen pop seen) (ps s), ETau)
  end.

(** The atomic operations of a pushing thread. *)
Definition push_step (a : action) (s : csys) : option (csys * event) :=
  match a with
  | APush i v o =>
      match ps s !! i with
      | Some PIdle => Some (set_pusher i (PTry v o) (chan s) s, ETau)
      | _ => None
      end
  | AData i =>
      match ps s !! i with
      | Some (PTry v o) =>
          let '(c, old, pushed) := push_data v o (chan s) in
          Some (if pushed then (set_pusher i PIdle c s, EPush v o) else (set_pusher i (PJostle v o old) c s, ETau))
      | _ => None
      end
  | AJostle i =>
      match ps s !! i with
      | Some (PJostle v o old) =>
          let '(c, ok) := push_jostle v (chan s) in
          Some (if ok then (set_pusher i (PClear old) c s, EPush v o) else (set_pusher i (PTry v o) c s, ETau))
      | _ => None
      end
  | AClear i =>
      match ps s !! i with
      | Some (PClear old) =>
          Some (match push_clear old (chan s) with
                | Some c => (set_pusher i PIdle c s, ETau)
                | None => (s, EFatal)
                end)
      | _ => None
      end
  | _ => None
  end.

(** Those of the SPU. *)
Definition read_step (a : action) (s : csys) : option (csys * event) :=
  match a, rd s with
  | APop pop, RIdle => Some (read_turn pop s)
  | ACommit, RSeen pop seen =>
      let '(c, ok) := pop_wait_commit pop seen (chan s) in
      Some (if ok then (mk_csys c (RWait pop) (ps s), ETau) else read_turn pop s)
  | ACheck, RWait pop =>
      if has (data (chan s)) bit_wait then None else Some (mk_csys (chan s) (RTake pop) (ps s), ETau)
  | ATake, RTake pop =>
      let '(c, v) := pop_wait_take pop (chan s) in
      Some (mk_csys c RIdle (ps s), if pop then ERecv v else EPeek v)
  | AStop, RWait true =>
      let '(c, v) := pop_wait_stop (chan s) in
      Some (mk_csys c (if has v bit_occupy then RCancel else RGot (low32 v)) (ps s), ETau)
  | AStop, RWait false => Some (mk_csys (peek_wait_stop (chan s)) RIdle (ps s), EAborted)
  | AGot, RGot v => if has (data (chan s)) bit_wait then None else Some (mk_csys (chan s) RIdle (ps s), ERecv v)
  | ACancel, RCancel =>
      Some (match pop_wait_cancel (chan s) with
            | Some c => (mk_csys c RIdle (ps s), EAborted)
            | None => (s, EFatal)
            end)
  | _, _ => None
  end.

Definition chan_step (a : action) (s : csys) : option (csys * event) :=
  match a with
  | APush _ _ _ | AData _ | AJostle _ | AClear _ => push_step a s
  | _ => read_step a s
  end.

(** A schedule; steps that are not possible are skipped. *)
Fixpoint chan_run (acts : list action) (s : csys) : csys * list event :=
  match acts with
  | [] => (s, [])
  | a :: acts' =>
      match chan_step a s with
      | None => chan_run acts' s
      | Some (s1, ev) => let '(s2, evs) := chan_run acts' s1 in (s2, ev :: evs)
      end
  end.

(** No step falls between the store to jostling_value and the
    compare-and-swap of pop_wait. *)
Fixpoint calm (acts : list action) : Prop :=
  match acts with
  | [] => True
  | APop _ :: ACommit :: acts' => calm acts'
  | (APop _ | ACommit) :: _ => False
  | APush _ v _ :: acts' => urange 32 v /\ calm acts'
  | _ :: acts' => calm acts'
  end.

(** ** The abstract channel *)

Inductive receiver := Away | Waiting | Given (v : Z).

(** One value, full or not, and the receiver. *)
Record mbox := mk_mbox { full : bool; val : Z; rcv : receiver }.

Inductive mstep : mbox -> event -> mbox -> Prop :=
| m_store f x r v o : r <> Waiting -> mstep (mk_mbox f x r) (EPush v o) (mk_mbox true (if o then Z.lor x v else v) r)
| m_hand v o : mstep (mk_mbox false 0 Waiting) (EPush v o) (mk_mbox false 0 (Given v))
| m_take v : mstep (mk_mbox true v Away) (ERecv v) (mk_mbox false 0 Away)
| m_wait x : mstep (mk_mbox false x Away) ETau (mk_mbox false 0 Waiting)
| m_recv f x v : mstep (mk_mbox f x (Given v)) (ERecv v) (mk_mbox f x Away)
| m_cancel : mstep (mk_mbox false 0 Waiting) ETau (mk_mbox false 0 Away)
| m_peek x : mstep (mk_mbox true x Away) (EPeek x) (mk_mbox true x Away)
| m_drop x : mstep (mk_mbox false x Away) ETau (mk_mbox false 0 Away)
| m_abort f x : mstep (mk_mbox f x Away) EAborted (mk_mbox f x Away)
| m_quiet m : mstep m ETau m.

Inductive mtrace : mbox -> list event -> mbox -> Prop :=
| m_nil m : mtrace m [] m
| m_cons m ev m1 evs m2 : mstep m ev m1 -> mtrace m1 evs m2 -> mtrace m (ev :: evs) m2.

Definition abs (s : csys) : mbox :=
  mk_mbox (has (data (chan s)) bit_count) (low32 (data (chan s)))
    match rd s with
    | RWait true => if jostling_value (chan s) =? bit_occupy then Waiting else Given (low32 (jostling_value (chan s)))
    | RTake true => Given (low32 (jostling_value (chan s)))
    | RGot v => Given v
    | _ => Away
    end.

(** ** Invariant *)

(** data without waiting bits. *)
Definition cell (c : bool) (v : Z) : Z := Z.lor (if c then bit_count else 0) v.

Definition is_cell (d : Z) : Prop := exists c v, d = cell c v /\ urange 32 v.

Definition is_clear (p : pusher) : Prop := exists old, p = PClear old.

#[global] Instance is_clear_dec p : Decision (is_clear p).
Proof. destruct p as [| | |old]; [right|right|right|left; by exists old]; by intros [? ?]. Defined.

(** The threads between their store to jostling_value and the clearing of the
    waiting bits. *)
Definition clears (l : list pusher) : nat := length (filter is_clear l).

Definition pusher_ok (p : pusher) : Prop :=
  match p with
  | PIdle => True
  | PTry v _ => urange 32 v
  | PJostle v _ old => urange 32 v /\ old = occupy_ored_wait
  | PClear old => old = occupy_ored_wait
  end.

(** The states of the reader with those of the channel. *)
Definition reader_ok (s : csys) : Prop :=
  let d := data (chan s) in
  let j := jostling_value (chan s) in
  match rd s with
  | RIdle => is_cell d /\ j <> bit_occupy /\ clears (ps s) = O
  | RSeen _ _ => False
  | RWait true =>
      (d = occupy_ored_wait /\ j = bit_occupy /\ clears (ps s) = O)
      \/ (d = occupy_ored_wait /\ urange 32 j /\ clears (ps s) = 1%nat)
      \/ (is_cell d /\ urange 32 j /\ clears (ps s) = O)
  | RTake true => is_cell d /\ urange 32 j /\ clears (ps s) = O
  | RGot v => urange 32 v /\ j = 0 /\ ((d = occupy_ored_wait /\ clears (ps s) = 1%nat) \/ (is_cell d /\ clears (ps s) = O))
  | RCancel => d = occupy_ored_wait /\ j = 0 /\ clears (ps s) = O
  | RWait false => j <> bit_occupy /\ clears (ps s) = O /\ (d = bit_wait \/ exists v, d = cell true v /\ urange 32 v)
  | RTake false => j <> bit_occupy /\ clears (ps s) = O /\ exists v, d = cell true v /\ urange 32 v
  end.

Record chan_ok (s : csys) : Prop := { ck_ps : Forall pusher_ok (ps s); ck_rd : reader_ok s }.


(** ** Bits of data *)

Lemma has_bit d k : 0 <= k -> has d (Z.shiftl 1 k) = Z.testbit d k.
Proof.
  intros Hk. unfold has.
  replace (Z.land d (Z.shiftl 1 k)) with (if Z.testbit d k then Z.shiftl 1 k else 0).
  - rewrite Z.shiftl_1_l. pose proof (Z.pow_pos_nonneg 2 k). by destruct (Z.testbit d k); cases; lia.
  - apply Z.bits_inj'. intros n Hn. rewrite Z.land_spec, Z.shiftl_1_l, Z.pow2_bits_eqb by done.
    destruct (Z.eqb_spec k n) as [<-|Hne].
    + destruct (Z.testbit d k); [by rewrite Z.pow2_bits_true|by rewrite Z.bits_0].
    + rewrite andb_false_r. destruct (Z.testbit d k); [by apply Z.pow2_bits_false|by rewrite Z.bits_0].
Qed.

Lemma testbit_cell c v k : urange 32 v -> 32 <= k -> Z.testbit (cell c v) k = c && (k =? 63).
Proof.
  intros Hv Hk. unfold cell. rewrite Z.lor_spec.
  replace (Z.testbit v k) with false.
  2:{ symmetry. unfold urange in Hv. rewrite <- (Z.mod_small v (2 ^ 32)) by lia. apply Z.mod_pow2_bits_high; lia. }
  rewrite orb_false_r. destruct c; [|by rewrite Z.bits_0].
  unfold bit_count. rewrite Z.shiftl_1_l, Z.pow2_bits_eqb by lia. apply Z.eqb_sym.
Qed.

Lemma has_cell_count c v : urange 32 v -> has (cell c v) bit_count = c.
Proof. intros Hv. unfold bit_count. rewrite has_bit, testbit_cell by (done || lia). by destruct c. Qed.

Lemma has_cell_occupy c v : urange 32 v -> has (cell c v) bit_occupy = false.
Proof. intros Hv. unfold bit_occupy. rewrite has_bit, testbit_cell by (done || lia). by destruct c. Qed.

Lemma has_cell_wait c v : urange 32 v -> has (cell c v) bit_wait = false.
Proof. intros Hv. unfold bit_wait. rewrite has_bit, testbit_cell by (done || lia). by destruct c. Qed.

Lemma low32_value v : urange 32 v -> low32 v = v.
Proof. intros Hv. unfold low32, wrap. by apply Z.mod_small. Qed.

Lemma low32_cell c v : urange 32 v -> low32 (cell c v) = v.
Proof.
  intros Hv. unfold low32, wrap, cell.
  rewrite <- Z.land_ones, Z.land_lor_distr_l, Z.land_ones, Z.land_ones by lia.
  rewrite (Z.mod_small v) by done. by destruct c.
Qed.

Lemma has_value_occupy v : urange 32 v -> has v bit_occupy = false.
Proof. exact (has_cell_occupy false v). Qed.

Lemma value_not_occupy v : urange 32 v -> (v =? bit_occupy) = false.
Proof. intros Hv. apply Z.eqb_neq. intros ->. destruct Hv as [_ Hv]. by vm_compute in Hv. Qed.

Lemma cell_false v : cell false v = v.
Proof. done. Qed.

(** What a waiting SPU leaves in data. *)
Lemma occupied_facts :
  has occupy_ored_wait bit_count = false /\ has occupy_ored_wait bit_occupy = true
  /\ has occupy_ored_wait bit_wait = true /\ low32 occupy_ored_wait = 0
  /\ clear_bits occupy_ored_wait occupy_ored_wait = 0.
Proof. by vm_compute. Qed.

Lemma wait_facts :
  has bit_wait bit_count = false /\ has bit_wait bit_occupy = false
  /\ has bit_wait bit_wait = true /\ low32 bit_wait = 0 /\ clear_bits bit_wait bit_wait = 0.
Proof. by vm_compute. Qed.

Lemma clear_wait_cell c v : urange 32 v -> clear_bits (cell c v) bit_wait = cell c v.
Proof.
  intros Hv. apply Z.bits_inj'. intros n Hn. unfold clear_bits, lnot_w.
  rewrite Z.land_spec, testbit_wrap, Z.lnot_spec by lia.
  unfold bit_wait. rewrite Z.shiftl_1_l, Z.pow2_bits_eqb by lia.
  destruct (Z.le_gt_cases 32 n) as [Hge|Hlt].
  - rewrite testbit_cell by done. destruct c; [|done]. by cases; lia.
  - replace (32 =? n) with false by lia. replace (n <? 64) with true by lia. by rewrite andb_true_r.
Qed.

(** ** The pushing threads *)

Lemma clears_insert l i p q :
  l !! i = Some p ->
  (clears (<[i := q]> l) + (if decide (is_clear p) then 1 else 0)
   = clears l + (if decide (is_clear q) then 1 else 0))%nat.
Proof.
  unfold clears. revert i. induction l as [|x l IH]; intros [|i] Hi; simplify_eq/=.
  - rewrite !filter_cons. repeat case_decide; simpl; lia.
  - rewrite !filter_cons. specialize (IH _ Hi). repeat case_decide; simpl; lia.
Qed.

Lemma clears_same l i p q :
  l !! i = Some p -> ~ is_clear p -> ~ is_clear q -> clears (<[i := q]> l) = clears l.
Proof. intros Hi Hp Hq. pose proof (clears_insert l i p q Hi) as H. rewrite !decide_False in H by done. lia. Qed.

Lemma clears_enter l i p old :
  l !! i = Some p -> ~ is_clear p -> clears (<[i := PClear old]> l) = S (clears l).
Proof.
  intros Hi Hp. pose proof (clears_insert l i p (PClear old) Hi) as H.
  rewrite decide_False, decide_True in H by (done || by exists old). lia.
Qed.

Lemma clears_leave l i old q :
  l !! i = Some (PClear old) -> ~ is_clear q -> S (clears (<[i := q]> l)) = clears l.
Proof.
  intros Hi Hq. pose proof (clears_insert l i (PClear old) q Hi) as H.
  rewrite decide_True, decide_False in H by (done || by exists old). lia.
Qed.

Ltac not_clear := by intros [? ?].

Lemma pushers_insert s i q : chan_ok s -> pusher_ok q -> Forall pusher_ok (<[i := q]> (ps s)).
Proof. intros [Hps _] Hq. by apply Forall_insert. Qed.

Lemma pusher_at s i p : chan_ok s -> ps s !! i = Some p -> pusher_ok p.
Proof. intros [Hps _] Hi. by apply (Forall_lookup_1 _ _ _ _ Hps Hi). Qed.

(** A step with its event is one of the abstract channel. *)
Record step_ok (s : csys) (r : csys * event) : Prop := {
  so_event : r.2 <> EFatal;
  so_ok : chan_ok r.1;
  so_abs : mstep (abs s) r.2 (abs r.1)
}.

(** A thread that moves without an effect on the channel. *)
Lemma relabel_ok s i p q :
  chan_ok s -> ps s !! i = Some p -> ~ is_clear p -> ~ is_clear q -> pusher_ok q ->
  step_ok s (set_pusher i q (chan s) s, ETau).
Proof.
  intros Hok Hi Hp Hq Hpq. split; simpl; [done| |apply m_quiet].
  split; [by apply pushers_insert|].
  pose proof (ck_rd _ Hok) as Hrd. revert Hrd. unfold reader_ok, set_pusher; simpl.
  by rewrite (clears_same _ _ _ _ Hi).
Qed.

(** The cell after push_data. *)
Lemma lor_range v w : urange 32 v -> urange 32 w -> urange 32 (Z.lor v w).
Proof. intros. by apply lor_urange. Qed.

(** data can take a value: no waiting SPU is to be handed one. *)
Definition open (d : Z) (x : Z) (f : bool) : Prop :=
  urange 32 x /\ (d = cell f x \/ (d = bit_wait /\ f = false /\ x = 0)).

Lemma open_has d x f : open d x f -> has d bit_occupy = false /\ has d bit_count = f /\ low32 d = x.
Proof.
  intros [Hx [->|(-> & -> & ->)]].
  - by rewrite has_cell_occupy, has_cell_count, low32_cell.
  - by destruct wait_facts as (-> & -> & _ & -> & _).
Qed.

Lemma stored_range x v (o : bool) : urange 32 x -> urange 32 v -> urange 32 (if o then Z.lor x v else v).
Proof. intros. destruct o; [by apply lor_range|done]. Qed.

Lemma cell_open d : is_cell d -> exists x f, open d x f.
Proof. intros (f & x & -> & Hx). exists x, f. split; [done|by left]. Qed.

Lemma full_open d v : d = cell true v -> urange 32 v -> exists x f, open d x f.
Proof. intros -> Hv. apply cell_open. by exists true, v. Qed.

(** Where bit_occupy is not set, data is open and no SPU waits to be handed a
    value. *)
Lemma reader_open s :
  chan_ok s -> has (data (chan s)) bit_occupy = false ->
  (exists x f, open (data (chan s)) x f) /\ rcv (abs s) <> Waiting.
Proof.
  intros [_ Hrd] Ho. destruct occupied_facts as (_ & Hoo & _). unfold reader_ok in Hrd. unfold abs.
  destruct s as [[d j] r l0]; simpl in *.
  destruct r as [|pop seen|[]|[]|v|]; simpl in *; try done.
  - destruct Hrd as [Hd _]. split; [by apply cell_open|done].
  - destruct Hrd as [(-> & _)|[(-> & _)|(Hd & Hj & _)]]; [congruence..|].
    rewrite value_not_occupy by done. split; [by apply cell_open|done].
  - split; [|done]. destruct Hrd as (_ & _ & [->|(v & -> & Hv)]); [|by eapply full_open].
    exists 0, false. split; [by vm_compute|by right].
  - destruct Hrd as [Hd _]. split; [by apply cell_open|done].
  - split; [|done]. destruct Hrd as (_ & _ & v & -> & Hv). by eapply full_open.
  - split; [|done]. destruct Hrd as (_ & _ & [(-> & _)|(Hd & _)]); [congruence|by apply cell_open].
  - destruct Hrd as (-> & _). congruence.
Qed.

(** Where it is set, the SPU waits. *)
Lemma occupied_data s :
  chan_ok s -> has (data (chan s)) bit_occupy = true -> data (chan s) = occupy_ored_wait.
Proof.
  intros [_ Hrd] Ho. unfold reader_ok in Hrd. destruct s as [[d j] r l0]; simpl in *.
  assert (Hc : is_cell d -> False) by (intros (f & x & -> & Hx); by rewrite has_cell_occupy in Ho).
  destruct r as [|pop seen|[]|[]|v|]; simpl in *; try tauto.
  - destruct Hrd as (_ & _ & [->|(v & -> & Hv)]); [done|by rewrite has_cell_occupy in Ho].
  - destruct Hrd as (_ & _ & v & -> & Hv). by rewrite has_cell_occupy in Ho.
Qed.

(** A value stored there. *)
Lemma store_reader s w l :
  chan_ok s -> has (data (chan s)) bit_occupy = false -> urange 32 w -> clears l = clears (ps s) ->
  reader_ok (mk_csys (set_data (cell true w) (chan s)) (rd s) l).
Proof.
  intros [_ Hrd] Ho Hw Hl. destruct occupied_facts as (_ & Hoo & _).
  assert (Hc : is_cell (cell true w)) by (by exists true, w).
  unfold reader_ok in *. destruct s as [[d j] r l0]; simpl in *. rewrite Hl.
  destruct r as [|pop seen|[]|[]|v|]; simpl in *; try done.
  - tauto.
  - destruct Hrd as [(-> & _)|[(-> & _)|(Hd & Hj & Hn)]]; [congruence..|]. auto.
  - destruct Hrd as (? & ? & _). eauto 6.
  - tauto.
  - destruct Hrd as (? & ? & _). eauto.
  - destruct Hrd as (? & ? & [(-> & _)|(Hd & ?)]); [congruence|]. auto.
  - destruct Hrd as (-> & _). congruence.
Qed.

Lemma data_step_ok s i v o r :
  chan_ok s -> ps s !! i = Some (PTry v o) ->
  push_step (AData i) s = Some r -> step_ok s r.
Proof.
  intros Hok Hi Hs. pose proof (pusher_at _ _ _ Hok Hi) as Hv. simpl in Hs, Hv.
  rewrite Hi in Hs. unfold push_data in Hs.
  destruct (has (data (chan s)) bit_occupy) eqn:Ho; simplify_eq/=.
  - apply relabel_ok with (PTry v o); try done; [not_clear|not_clear|].
    split; [done|]. by apply occupied_data.
  - destruct (reader_open s Hok Ho) as ((x & f & Hop) & Hr).
    destruct (open_has _ _ _ Hop) as (_ & Hf & Hx). rewrite Hx.
    assert (Hw : urange 32 (if o then Z.lor x v else v)) by (by apply stored_range; [apply Hop|]).
    split; simpl; [done| |].
    + split; [by apply pushers_insert|]. apply (store_reader s); try done.
      by apply clears_same with (PTry v o); [|not_clear..].
    + unfold abs, set_pusher in *. simpl in *. rewrite Hf, Hx.
      fold (cell true (if o then Z.lor x v else v)). rewrite has_cell_count, low32_cell by done. by apply m_store.
Qed.

(** jostling_value is taken by a thread: only while the SPU waits to pop. *)
Lemma jostle_waiting s :
  chan_ok s -> jostling_value (chan s) = bit_occupy ->
  rd s = RWait true /\ data (chan s) = occupy_ored_wait /\ clears (ps s) = O.
Proof.
  intros [_ Hrd] Hj. unfold reader_ok in Hrd. rewrite Hj in Hrd.
  assert (Hn : urange 32 bit_occupy -> False) by (intros [_ H]; by vm_compute in H).
  assert (Hz : bit_occupy = 0 -> False) by done.
  destruct (rd s) as [|pop seen|[]|[]|v|]; tauto.
Qed.

Lemma jostle_step_ok s i v o old r :
  chan_ok s -> ps s !! i = Some (PJostle v o old) ->
  push_step (AJostle i) s = Some r -> step_ok s r.
Proof.
  intros Hok Hi Hs. pose proof (pusher_at _ _ _ Hok Hi) as [Hv ->]. simpl in Hs.
  rewrite Hi in Hs. unfold push_jostle in Hs.
  destruct (Z.eqb_spec (jostling_value (chan s)) bit_occupy) as [Hj|Hj]; simplify_eq/=.
  2:{ by apply relabel_ok with (PJostle v o occupy_ored_wait); try done; not_clear. }
  destruct (jostle_waiting s Hok Hj) as (Hr & Hd & Hc). destruct occupied_facts as (Hb1 & _ & _ & Hb2 & _).
  split; simpl; [done| |].
  - split; [by apply pushers_insert|]. unfold reader_ok; simpl. rewrite Hr, Hd. right; left.
    rewrite (clears_enter _ _ _ _ Hi), Hc; [done|not_clear].
  - unfold abs; simpl. rewrite Hr, Hd, Hj, Hb1, Hb2, Z.eqb_refl, value_not_occupy, low32_value by done. apply m_hand.
Qed.

(** A thread that has handed over its value finds the waiting bits. *)
Lemma clear_step_ok s i old r :
  chan_ok s -> ps s !! i = Some (PClear old) ->
  push_step (AClear i) s = Some r -> step_ok s r.
Proof.
  intros Hok Hi Hs. pose proof (pusher_at _ _ _ Hok Hi) as Hold. simpl in Hs, Hold. subst old.
  pose proof (clears_leave _ _ _ PIdle Hi ltac:(not_clear)) as Hc.
  destruct occupied_facts as (Hb1 & _ & Hb3 & Hb2 & Hb4).
  assert (Hz : is_cell 0) by (by exists false, 0).
  rewrite Hi in Hs. unfold push_clear in Hs. destruct Hok as [Hps Hrd]. unfold reader_ok in Hrd.
  assert (Hd : data (chan s) = occupy_ored_wait).
  { destruct (rd s) as [|pop seen|[]|[]|v|]; try done; naive_solver lia. }
  rewrite Hd, Hb3, Hb4 in Hs. simplify_eq/=.
  split; simpl; [done| |].
  - split; [by apply Forall_insert|]. unfold reader_ok; simpl. destruct (rd s) as [|pop seen|[]|[]|v|]; try done;
      naive_solver lia.
  - unfold abs; simpl. rewrite Hd, Hb1, Hb2. apply m_quiet.
Qed.

Lemma push_step_ok a s r :
  chan_ok s -> (forall i v o, a = APush i v o -> urange 32 v) -> push_step a s = Some r -> step_ok s r.
Proof.
  intros Hok Hv Hs. destruct a as [i v o|i|i|i| | | | | | |]; try done.
  - simpl in Hs. destruct (ps s !! i) as [[| | |]|] eqn:Hi; simplify_eq.
    apply relabel_ok with PIdle; try done; [not_clear..|]. by eapply Hv.
  - destruct (ps s !! i) as [[|v o| |]|] eqn:Hi; [..|by simpl in Hs; rewrite Hi in Hs]; try (by simpl in Hs; rewrite Hi in Hs).
    by eapply data_step_ok.
  - destruct (ps s !! i) as [[| |v o old|]|] eqn:Hi; try (by simpl in Hs; rewrite Hi in Hs).
    by eapply jostle_step_ok.
  - destruct (ps s !! i) as [[| | |old]|] eqn:Hi; try (by simpl in Hs; rewrite Hi in Hs).
    by eapply clear_step_ok.
Qed.

(** ** The SPU *)

(** From a full channel, or into the wait. *)
Lemma pop_full s pop v :
  chan_ok s -> rd s = RIdle -> data (chan s) = cell true v -> urange 32 v ->
  step_ok s (read_turn pop s).
Proof.
  intros [Hps Hrd] Hr Hd Hv. unfold reader_ok in Hrd. rewrite Hr in Hrd. destruct Hrd as (_ & Hj & Hc).
  unfold read_turn, pop_wait_try. rewrite Hd, has_cell_count, low32_cell by done.
  split; simpl; [by destruct pop| |].
  - split; [done|]. unfold reader_ok; simpl. destruct pop; simpl; [|rewrite Hd]; split_and!; try done;
      [by exists false, 0|by exists true, v].
  - unfold abs; simpl. rewrite Hr, Hd, has_cell_count, low32_cell by done.
    destruct pop; simpl; [apply m_take|rewrite Hd, has_cell_count, low32_cell by done; apply m_peek].
Qed.

(** APop and ACommit with nothing in between. *)
Definition pop_begin (pop : bool) (s : csys) : csys :=
  mk_csys (mk_chan (Z.lor (if pop then bit_occupy else 0) bit_wait)
             (if pop then bit_occupy else jostling_value (chan s))) (RWait pop) (ps s).

Lemma pop_empty s pop v acts :
  rd s = RIdle -> data (chan s) = v -> urange 32 v ->
  chan_run (APop pop :: ACommit :: acts) s
  = let '(s2, evs) := chan_run acts (pop_begin pop s) in (s2, ETau :: ETau :: evs).
Proof.
  intros Hr Hd Hv. cbn [chan_run chan_step read_step]. rewrite Hr. unfold read_turn, pop_wait_try.
  pose proof (has_cell_count false v Hv) as Hn. rewrite cell_false in Hn. rewrite Hd, Hn. cbn [rd chan ps].
  unfold pop_wait_commit. replace (data (if pop then _ else _) =? _) with true.
  2:{ symmetry. apply Z.eqb_eq. by destruct pop. }
  unfold pop_begin, set_data. by destruct pop; simpl; destruct (chan_run acts _).
Qed.

Lemma pop_begin_ok s pop v :
  chan_ok s -> rd s = RIdle -> data (chan s) = v -> urange 32 v ->
  chan_ok (pop_begin pop s) /\ mstep (abs s) ETau (abs (pop_begin pop s)).
Proof.
  intros [Hps Hrd] Hr Hd Hv. unfold reader_ok in Hrd. rewrite Hr in Hrd. destruct Hrd as (_ & Hj & Hc).
  destruct occupied_facts as (Hb1 & _ & _ & Hb2 & _). destruct wait_facts as (Hw1 & _ & _ & Hw2 & _).
  pose proof (has_cell_count false v Hv) as H1. pose proof (low32_cell false v Hv) as H2. rewrite cell_false in H1, H2.
  split.
  - split; [done|]. unfold reader_ok, pop_begin; simpl. destruct pop; [left|]; auto.
  - unfold abs, pop_begin; simpl. rewrite Hr, Hd, H1, H2. destruct pop; simpl.
    + change (Z.lor bit_occupy bit_wait) with occupy_ored_wait. rewrite Hb1, Hb2. apply m_wait.
    + rewrite Z.lor_0_l, Hw1, Hw2. apply m_drop.
Qed.

(** The other steps of the SPU: what it has been handed, ... *)
Lemma check_ok s pop :
  chan_ok s -> rd s = RWait pop -> has (data (chan s)) bit_wait = false ->
  step_ok s (mk_csys (chan s) (RTake pop) (ps s), ETau).
Proof.
  intros [Hps Hrd] Hr Hw. unfold reader_ok in Hrd. rewrite Hr in Hrd.
  destruct occupied_facts as (_ & _ & Hb & _). destruct wait_facts as (_ & _ & Hb' & _).
  split; simpl; [done| |].
  - split; [done|]. unfold reader_ok; simpl. destruct pop; naive_solver congruence.
  - unfold abs; simpl. rewrite Hr. destruct pop; [|apply m_quiet].
    rewrite value_not_occupy; [apply m_quiet|]. naive_solver congruence.
Qed.

Lemma chan_take_ok s pop :
  chan_ok s -> rd s = RTake pop ->
  step_ok s (let '(c, v) := pop_wait_take pop (chan s) in (mk_csys c RIdle (ps s), if pop then ERecv v else EPeek v)).
Proof.
  intros [Hps Hrd] Hr. unfold reader_ok in Hrd. rewrite Hr in Hrd. unfold pop_wait_take. destruct pop.
  - destruct Hrd as (Hd & Hj & Hc). split; simpl; [done| |].
    + by split.
    + unfold abs; simpl. rewrite Hr. apply m_recv.
  - destruct Hrd as (Hj & Hc & v & Hd & Hv). split; simpl; [done| |].
    + split; [done|]. unfold reader_ok; simpl. split_and!; try done. by exists true, v.
    + unfold abs; simpl. rewrite Hr, Hd, has_cell_count, low32_cell by done. apply m_peek.
Qed.

(** ... and the wait of a stopped thread. *)
Lemma stop_pop_ok s :
  chan_ok s -> rd s = RWait true ->
  step_ok s (let '(c, v) := pop_wait_stop (chan s) in
             (mk_csys c (if has v bit_occupy then RCancel else RGot (low32 v)) (ps s), ETau)).
Proof.
  intros [Hps Hrd] Hr. unfold reader_ok in Hrd. rewrite Hr in Hrd. unfold pop_wait_stop.
  destruct occupied_facts as (Hb1 & _ & _ & Hb2 & _).
  split; simpl; [done| |]; destruct Hrd as [(Hd & Hj & Hc)|Hrd].
  - rewrite Hj. change (has bit_occupy bit_occupy) with true. split; [done|]. unfold reader_ok; simpl. tauto.
  - assert (Hj : urange 32 (jostling_value (chan s))) by tauto.
    rewrite has_value_occupy, low32_value by done. split; [done|]. unfold reader_ok; simpl. tauto.
  - unfold abs; simpl. rewrite Hr, Hd, Hj, Hb1, Hb2, Z.eqb_refl. change (has bit_occupy bit_occupy) with true.
    apply m_cancel.
  - assert (Hj : urange 32 (jostling_value (chan s))) by tauto.
    unfold abs; simpl. rewrite Hr, value_not_occupy, has_value_occupy by done.
    rewrite (low32_value (jostling_value (chan s))) by done. apply m_quiet.
Qed.

Lemma stop_peek_ok s :
  chan_ok s -> rd s = RWait false ->
  step_ok s (mk_csys (peek_wait_stop (chan s)) RIdle (ps s), EAborted).
Proof.
  intros [Hps Hrd] Hr. unfold reader_ok in Hrd. rewrite Hr in Hrd. unfold peek_wait_stop.
  destruct wait_facts as (Hw1 & _ & _ & Hw2 & Hw4). destruct Hrd as (Hj & Hc & [Hd|(v & Hd & Hv)]).
  - rewrite Hd, Hw4. split; simpl; [done| |].
    + split; [done|]. unfold reader_ok; simpl. split_and!; try done. by exists false, 0.
    + unfold abs; simpl. rewrite Hr, Hd, Hw1, Hw2. apply m_abort.
  - rewrite Hd, clear_wait_cell by done. split; simpl; [done| |].
    + split; [done|]. unfold reader_ok; simpl. split_and!; try done. by exists true, v.
    + unfold abs; simpl. rewrite Hr, Hd. apply m_abort.
Qed.

Lemma got_ok s v :
  chan_ok s -> rd s = RGot v -> has (data (chan s)) bit_wait = false ->
  step_ok s (mk_csys (chan s) RIdle (ps s), ERecv v).
Proof.
  intros [Hps Hrd] Hr Hw. unfold reader_ok in Hrd. rewrite Hr in Hrd.
  destruct occupied_facts as (_ & _ & Hb & _). destruct Hrd as (Hv & Hj & [[Hd _]|[Hd Hc]]); [congruence|].
  split; simpl; [done| |].
  - split; [done|]. unfold reader_ok; simpl. by rewrite Hj.
  - unfold abs; simpl. rewrite Hr. apply m_recv.
Qed.

(** The ensure at the end of an aborted wait holds. *)
Lemma chan_cancel_ok s :
  chan_ok s -> rd s = RCancel ->
  step_ok s (match pop_wait_cancel (chan s) with
             | Some c => (mk_csys c RIdle (ps s), EAborted)
             | None => (s, EFatal)
             end).
Proof.
  intros [Hps Hrd] Hr. unfold reader_ok in Hrd. rewrite Hr in Hrd. destruct Hrd as (Hd & Hj & Hc).
  destruct occupied_facts as (Hb1 & _ & Hb3 & Hb2 & Hb4). unfold pop_wait_cancel. rewrite Hd, Hb3, Hb4.
  split; simpl; [done| |].
  - split; [done|]. unfold reader_ok; simpl. rewrite Hj. split_and!; try done. by exists false, 0.
  - unfold abs; simpl. rewrite Hr, Hd, Hb1, Hb2. apply m_abort.
Qed.

Lemma read_step_ok a s r :
  chan_ok s -> (forall pop, a <> APop pop) -> read_step a s = Some r -> step_ok s r.
Proof.
  intros Hok Ha Hs. unfold read_step in Hs.
  destruct a as [| | | |pop| | | | | |]; try done; [by destruct (Ha pop)|..];
    destruct (rd s) as [|pop seen|pop|pop|v|] eqn:Hr; try done.
  - pose proof (ck_rd _ Hok) as Hrd. unfold reader_ok in Hrd. by rewrite Hr in Hrd.
  - destruct (has _ bit_wait) eqn:Hw; simplify_eq. by apply check_ok.
  - destruct (pop_wait_take pop (chan s)) as [c v] eqn:Ht. simplify_eq. pose proof (chan_take_ok s pop Hok Hr) as H. by rewrite Ht in H.
  - destruct pop; [destruct (pop_wait_stop (chan s)) as [c v] eqn:Ht|]; simplify_eq; [|by apply stop_peek_ok].
    pose proof (stop_pop_ok s Hok Hr) as H. by rewrite Ht in H.
  - destruct (has _ bit_wait) eqn:Hw; simplify_eq. by apply got_ok.
  - simplify_eq. by apply chan_cancel_ok.
Qed.

(** ** Schedules *)

Definition run_ok (s : csys) (r : csys * list event) : Prop :=
  (EFatal ∉ r.2) /\ chan_ok r.1 /\ mtrace (abs s) r.2 (abs r.1).

Lemma run_ok_step s a acts r :
  chan_step a s = Some r -> step_ok s r -> run_ok r.1 (chan_run acts r.1) -> run_ok s (chan_run (a :: acts) s).
Proof.
  intros Hs [He Hok Hm] (Hf & Hk & Ht). destruct r as [s1 ev]. simpl in *. rewrite Hs.
  destruct (chan_run acts s1) as [s2 evs]. simpl in *. split_and!; [|done|by eapply m_cons].
  apply not_elem_of_cons. by split; [apply not_eq_sym|].
Qed.

(** Whether an action begins a wait. *)
Definition begins (a : action) : bool := match a with APop _ | ACommit => true | _ => false end.

Lemma step_other a s r :
  chan_ok s -> begins a = false -> (forall i v o, a = APush i v o -> urange 32 v) ->
  chan_step a s = Some r -> step_ok s r.
Proof.
  intros Hok Hb Hv Hs. unfold chan_step in Hs.
  destruct a; try done; ((by apply (push_step_ok _ _ _ Hok Hv Hs)) || (by refine (read_step_ok _ _ _ Hok _ Hs))).
Qed.

(** A pop with its commit. *)
Lemma pop_run_ok s pop acts :
  chan_ok s -> (forall s1, chan_ok s1 -> run_ok s1 (chan_run acts s1)) ->
  run_ok s (chan_run (APop pop :: ACommit :: acts) s).
Proof.
  intros Hok IH. destruct (rd s) as [|p seen|p|p|v|] eqn:Hr.
  2:{ pose proof (ck_rd _ Hok) as Hrd. unfold reader_ok in Hrd. by rewrite Hr in Hrd. }
  2-5: cbn [chan_run chan_step read_step]; rewrite Hr; by apply IH.
  pose proof (ck_rd _ Hok) as Hrd. unfold reader_ok in Hrd. rewrite Hr in Hrd.
  destruct Hrd as (([] & v & Hd & Hv) & _).
  - eapply run_ok_step; [by simpl; rewrite Hr|by eapply pop_full|].
    assert (Hi : rd (read_turn pop s).1 = RIdle).
    { unfold read_turn, pop_wait_try. by rewrite Hd, has_cell_count. }
    cbn [chan_run chan_step read_step]. rewrite Hi. apply IH.
    by eapply pop_full.
  - rewrite cell_false in Hd. rewrite (pop_empty s pop v) by done.
    destruct (pop_begin_ok s pop v Hok Hr Hd Hv) as [Hok1 Hm1].
    destruct (IH _ Hok1) as (Hf & Hk & Ht). destruct (chan_run acts _) as [s2 evs]. simpl in *.
    split_and!; [|done|].
    + simpl. by rewrite !not_elem_of_cons.
    + eapply m_cons; [apply m_quiet|]. by eapply m_cons.
Qed.

Lemma calm_run_ok n acts s : (length acts <= n)%nat -> chan_ok s -> calm acts -> run_ok s (chan_run acts s).
Proof.
  revert acts s. induction n as [|n IH]; intros [|a acts] s Hn Hok Hc; simpl in Hn; try lia.
  1-2: by split_and!; [apply not_elem_of_nil| |apply m_nil].
  destruct (begins a) eqn:Hb.
  - destruct a as [| | | |pop| | | | | |]; try done. destruct acts as [|[] acts]; try done.
    apply pop_run_ok; [done|]. intros s1 Hs1. apply IH; [simpl in *; lia|done..].
  - assert (Hc' : calm acts /\ forall i v o, a = APush i v o -> urange 32 v).
    { destruct a; simpl in Hc; try done; try (by split; [|intros]).
      destruct Hc as [Hv Hc]. split; [done|]. intros. by simplify_eq. }
    destruct Hc' as [Hc1 Hv]. destruct (chan_step a s) as [r|] eqn:Hs.
    + pose proof (step_other _ _ _ Hok Hb Hv Hs) as Hso. eapply run_ok_step; [done..|].
      apply IH; [lia|by apply Hso|done].
    + cbn [chan_run]. rewrite Hs. apply IH; [lia|done..].
Qed.

Lemma chan_ok_fresh n : chan_ok (mk_csys (mk_chan 0 0) RIdle (replicate n PIdle)).
Proof.
  split; simpl; [by apply Forall_replicate|]. unfold reader_ok; simpl. split_and!; [by exists false, 0|done|].
  unfold clears. induction n as [|n IH]; [done|]. simpl. rewrite filter_cons_False; [done|not_clear].
Qed.

(** C13: A channel the SPU reads, with any number of threads that push values to
    it and every interleaving of their atomic operations with those of pop_wait,
    in which nothing falls between the store to jostling_value and the
    compare-and-swap that begins a wait: no ensure fails, and what the threads
    see is what a cell of one value shows that is handed directly to an SPU
    that waits: a value pushed while the SPU waits is the one it receives, and the
    channel is not seen full in between; a value pushed otherwise overwrites the
    last one, or is or-ed with it; a stopped SPU has either received the value or
    taken nothing. *)
Theorem spu_channel_refines s acts :
  chan_ok s -> calm acts ->
  let '(s', evs) := chan_run acts s in
  (EFatal ∉ evs) /\ chan_ok s' /\ mtrace (abs s) evs (abs s').
Proof.
  intros Hok Hc. pose proof (calm_run_ok (length acts) acts s ltac:(done) Hok Hc) as H.
  by destruct (chan_run acts s).
Qed.

Lemma spu_channel_refines_witness :
  let '(s', evs) :=
    chan_run [APop true; ACommit; APush 0 5 false; APush 1 6 true; AData 1; AData 0; AJostle 1; AJostle 0;
              AStop; AClear 1; AData 0; AGot; APop true; ACommit]
      (mk_csys (mk_chan 0 0) RIdle [PIdle; PIdle]) in
  (EFatal ∉ evs) /\ chan_ok s' /\ mtrace (mk_mbox false 0 Away) evs (abs s').
Proof.
  apply (spu_channel_refines (mk_csys (mk_chan 0 0) RIdle [PIdle; PIdle])).
  - exact (chan_ok_fresh 2).
  - simpl. split_and!; done.
Defined.

Example channel_run_events :
  (chan_run [APop true; ACommit; APush 0 5 false; APush 1 6 true; AData 1; AData 0; AJostle 1; AJostle 0;
             AStop; AClear 1; AData 0; AGot; APop true; ACommit]
     (mk_csys (mk_chan 0 0) RIdle [PIdle; PIdle])).2
  = [ETau; ETau; ETau; ETau; ETau; ETau; EPush 6 true; ETau; ETau; ETau; EPush 5 false; ERecv 6; ERecv 5].
Proof. by vm_compute. Qed.

(** The store to jostling_value comes before the compare-and-swap.  A thread
    that saw an earlier wait then hands its value to an SPU that does not wait
    yet, finds no waiting bit, and stops at ensure(false). *)
Lemma spu_channel_early_store :
  EFatal ∈ (chan_run [APop true; ACommit; APush 0 5 false; APush 1 6 false; AData 0; AData 1; AJostle 0; AClear 0;
                      ACheck; ATake; APop true; AJostle 1; AClear 1]
              (mk_csys (mk_chan 0 0) RIdle [PIdle; PIdle])).2.
Proof. apply (bool_decide_unpack _). by vm_compute. Qed.

(** ** A channel the SPU writes *)

(** A value pushed to an empty channel is there, once. *)
Lemma try_push_pop v w c :
  urange 32 v -> urange 32 w -> data c = v ->
  let '(c1, pushed) := try_push w c in
  pushed = true /\ try_read c1 = (w, true) /\ get_count c1 = 1 /\ try_push v c1 = (c1, false)
  /\ try_pop c1 = (set_data 0 c, Some w).
Proof.
  intros Hv Hw Hd. pose proof (has_cell_count false v Hv) as Hn. rewrite cell_false in Hn.
  unfold try_push. rewrite Hd, Hn. simpl. fold (cell true w).
  unfold try_read, get_count, try_pop, set_data. simpl. by rewrite !has_cell_count, !low32_cell.
Qed.

Lemma pending_mask v d :
  d = Z.lor (cell true v) bit_occupy \/ d = Z.lor (cell true v) (Z.lor bit_occupy bit_wait) ->
  (Z.land d (Z.lor bit_count bit_occupy) =? Z.lor bit_count bit_occupy) = true.
Proof.
  intros Hd. apply Z.eqb_eq, Z.bits_inj'. intros n Hn.
  destruct Hd as [-> | ->]; unfold cell, bit_count, bit_occupy, bit_wait; rewrite !Z.shiftl_1_l;
    rewrite Z.land_spec, !Z.lor_spec, !Z.pow2_bits_eqb by lia;
    destruct (63 =? n), (33 =? n), (32 =? n), (Z.testbit v n); done.
Qed.

(** push_wait on a channel with a value: the waiting bits are set and the value
    is pending. *)
Definition push_pending (v w : Z) : spu_channel := mk_chan (Z.lor (cell true v) occupy_ored_wait) w.

Lemma push_wait_begin v w :
  urange 32 v -> forall c, data c = cell true v ->
  let '(c1, seen) := push_wait_try w true c in
  seen = Some (data c) /\ push_wait_commit true (data c) c1 = (push_pending v w, true).
Proof.
  intros Hv [d j] Hd. simpl in Hd. subst d. unfold push_wait_try. simpl. rewrite has_cell_count by done.
  split; [done|]. unfold push_wait_commit. simpl. rewrite Z.eqb_refl. unfold push_pending, set_data. simpl.
  by rewrite (Z.lor_comm bit_occupy bit_wait).
Qed.

Lemma low32_lor d b : low32 b = 0 -> low32 (Z.lor d b) = low32 d.
Proof.
  unfold low32, wrap. rewrite <- !Z.land_ones by lia. intros Hb. by rewrite Z.land_lor_distr_l, Hb, Z.lor_0_r.
Qed.

(** The next pop returns the value that was there and puts the pending one in
    its place: the channel is full throughout, and no longer waits. *)
Lemma pop_pending v w :
  urange 32 v -> urange 32 w -> chan_pop (push_pending v w) = (mk_chan (cell true w) w, v).
Proof.
  intros Hv Hw. unfold chan_pop, push_pending, set_data. simpl.
  rewrite (pending_mask v) by (right; by rewrite (Z.lor_comm bit_occupy bit_wait)).
  rewrite low32_lor, low32_cell, low32_value by done. done.
Qed.

Lemma stop_pending v w :
  urange 32 v -> push_wait_stop (push_pending v w) = (mk_chan (Z.lor (cell true v) bit_occupy) w, false).
Proof.
  intros Hv. unfold push_wait_stop, push_pending, set_data. simpl. f_equal.
  - f_equal. apply Z.bits_inj'. intros n Hn. unfold clear_bits, lnot_w, occupy_ored_wait.
    rewrite Z.land_spec, testbit_wrap, Z.lnot_spec, !Z.lor_spec by lia. unfold bit_wait, bit_occupy.
    rewrite !Z.shiftl_1_l, !Z.pow2_bits_eqb by lia.
    destruct (Z.le_gt_cases 32 n) as [Hge|Hlt].
    + rewrite testbit_cell by done. by cases; lia.
    + replace (32 =? n) with false by lia. replace (33 =? n) with false by lia. replace (n <? 64) with true by lia.
      by rewrite !orb_false_r, andb_true_r.
  - unfold bit_wait. rewrite has_bit, Z.lor_spec, testbit_cell by (done || lia). by vm_compute.
Qed.

(** A stopped push_wait reports that it did not push and clears the waiting bit
    only: the next pop still puts its value into the channel. *)
Lemma push_wait_stopped_pushes v w :
  urange 32 v -> urange 32 w ->
  let '(c, pushed) := push_wait_stop (push_pending v w) in
  pushed = false /\ chan_pop c = (mk_chan (cell true w) w, v).
Proof.
  intros Hv Hw. rewrite stop_pending by done. split; [done|]. unfold chan_pop, set_data. simpl.
  rewrite (pending_mask v) by (by left). by rewrite low32_lor, low32_cell, low32_value.
Qed.
