(* ===== verification/SpuMailbox.v ===== *)
(** * SPU mailbox of four values

    struct spu_channel_4_t of rpcs3/Emu/Cell/SPUThread.h, with push and pop_wait
    of SPUThread.cpp: the inbound mailbox of an SPU, three values in [values] and
    the fourth in [value3], which is written before the atomic operation on
    [values].  Each definition is one atomic operation, and the system below
    interleaves those of one SPU with those of any number of pushing threads.  A
    pop reads value3 inside its operation on [values]; the operation of a push
    always changes [values], so the two are one step. *)

From stdpp Require Import base numbers list tactics.
From Stdlib Require Import Lia.
From S2P Require Import Prelude.

Open Scope Z_scope.

Definition off_wait : Z := 0.
Definition off_occupy : Z := 7.
Definition mb_wait : Z := Z.shiftl 1 off_wait.
Definition mb_occupy : Z := Z.shiftl 1 off_occupy.
Definition jostling_flag : Z := Z.shiftl 1 63.

Definition has_flag (x b : Z) : bool := negb (Z.land x b =? 0).

Record sync_var_t := mk_sync {
  waiting : Z; count : Z; value3_inval : Z; value0 : Z; value1 : Z; value2 : Z
}.

Record spu_channel_4_t := mk_mb { values : sync_var_t; jostling_value : Z; value3 : Z }.

Definition set_sync (d : sync_var_t) (c : spu_channel_4_t) : spu_channel_4_t := mk_mb d (jostling_value c) (value3 c).
Definition set_jostle (j : Z) (c : spu_channel_4_t) : spu_channel_4_t := mk_mb (values c) j (value3 c).
Definition set_waiting (w : Z) (d : sync_var_t) : sync_var_t :=
  mk_sync w (count d) (value3_inval d) (value0 d) (value1 d) (value2 d).

(** (pop_value ? bit_occupy : 0) | bit_wait *)
Definition wait_bits (pop_value : bool) : Z := Z.lor (if pop_value then mb_occupy else 0) mb_wait.

#[global] Instance sync_var_eq_dec : EqDecision sync_var_t.
Proof. solve_decision. Defined.

Record op_state := mk_op { old_count : Z; new_count : Z; op_notify : bool; op_done : bool }.

Definition mb_clear : spu_channel_4_t := mk_mb (mk_sync 0 0 0 0 0 0) 0 0.

Definition set_values (cnt v0 v1 v2 v3 : Z) (c : spu_channel_4_t) : spu_channel_4_t :=
  mk_mb (mk_sync 0 (wrap 8 cnt) 0 v0 v1 v2) (jostling_value c) v3.

(** The values moved forward by one, as try_pop and pop_wait do. *)
Definition shift_values (v3 : Z) (d : sync_var_t) : sync_var_t :=
  mk_sync 0 (wrap 8 (count d - 1)) (value3_inval d) (value1 d) (value2 d) v3.

(** The count before, and the value written to out when it is not 0. *)
Definition mb_try_pop (c : spu_channel_4_t) : spu_channel_4_t * (Z * option Z) :=
  if count (values c) =? 0 then (c, (0, None))
  else (set_sync (shift_values (value3 c) (values c)) c, (count (values c), Some (value0 (values c)))).

Definition mb_try_read (c : spu_channel_4_t) : Z * option (list Z) :=
  let d := values c in
  (count d, if count d =? 0 then None else Some [value0 d; value1 d; value2 d; value3 c]).

Definition mb_get_count (c : spu_channel_4_t) : Z := count (values c).

(** ** push *)

(** value3.release *)
Definition push_release (value : Z) (c : spu_channel_4_t) : spu_channel_4_t := mk_mb (values c) (jostling_value c) value.

(** switch (data.count++) *)
Definition push_switch (value : Z) (d : sync_var_t) : sync_var_t :=
  let n := wrap 8 (count d + 1) in
  if count d =? 0 then mk_sync (waiting d) n (value3_inval d) value (value1 d) (value2 d)
  else if count d =? 1 then mk_sync (waiting d) n (value3_inval d) (value0 d) value (value2 d)
  else if count d =? 2 then mk_sync (waiting d) n (value3_inval d) (value0 d) (value1 d) value
  else mk_sync (waiting d) 4 (wrap 16 (value3_inval d + 1)) (value0 d) (value1 d) (value2 d).

(** fetch_op on values: the old values, and whether the value was stored. *)
Definition push_values (value : Z) (c : spu_channel_4_t) : spu_channel_4_t * sync_var_t * bool :=
  if has_flag (waiting (values c)) mb_occupy then (c, values c, false)
  else (set_sync (push_switch value (values c)) c, values c, true).

(** jostling_value.compare_and_swap_test(jostling_flag, value) *)
Definition push_hand (value : Z) (c : spu_channel_4_t) : spu_channel_4_t * bool :=
  if jostling_value c =? jostling_flag then (set_jostle value c, true) else (c, false).

(** The waiting byte exchanged with 0, and the result. *)
Definition push_finish (old : sync_var_t) (c : spu_channel_4_t) : spu_channel_4_t * op_state :=
  let done := mk_op (count old) (Z.min (wrap 8 (count old + 1)) 4) (has_flag (waiting old) mb_wait) true in
  if has_flag (waiting old) mb_wait then
    (set_sync (set_waiting 0 (values c)) c,
     if has_flag (waiting (values c)) mb_wait then done else mk_op (count old) (count old) false false)
  else (c, done).

(** ** pop_wait *)

(** The function given to fetch_op: the count and value there were, or the
    store to jostling_value and the values it saw. *)
Definition mb_pop_try (pop_value : bool) (c : spu_channel_4_t) : spu_channel_4_t * ((Z * Z) + sync_var_t) :=
  let d := values c in
  if count d =? 0 then (set_jostle (if pop_value then jostling_flag else 0) c, inr d)
  else (if pop_value then set_sync (shift_values (value3 c) d) c else c, inl (count d, value0 d)).

(** The compare-and-swap that begins the wait. *)
Definition mb_pop_commit (pop_value : bool) (seen : sync_var_t) (c : spu_channel_4_t) : spu_channel_4_t * bool :=
  if decide (values c = seen) then (set_sync (set_waiting (wait_bits pop_value) (values c)) c, true) else (c, false).

(** The result once the waiting byte was seen cleared; 0 is exchanged with
    jostling_value. *)
Definition mb_pop_take (pop_value : bool) (c : spu_channel_4_t) : spu_channel_4_t * (Z * Z) :=
  if pop_value then (set_jostle 0 c, (1, wrap 32 (jostling_value c))) else (c, (1, 0)).

(** A stopped thread exchanges jostling_value with 0: a value was received, or
    nothing. *)
Definition mb_stop_take (c : spu_channel_4_t) : spu_channel_4_t * option (Z * Z) :=
  (set_jostle 0 c, if has_flag (jostling_value c) jostling_flag then None else Some (1, wrap 32 (jostling_value c))).

(** It then exchanges the waiting byte with 0; true when it was still set. *)
Definition mb_stop_clear (c : spu_channel_4_t) : spu_channel_4_t * bool :=
  (set_sync (set_waiting 0 (values c)) c, has_flag (waiting (values c)) mb_wait).

(** ** The threads at a mailbox *)

(** The SPU; its waits take the value, as the one call of pop_wait does. *)
Inductive spu_at :=
| SIdle
| SSeen (seen : sync_var_t)
| SWait
| STake
| SClear.

(** A thread in push. *)
Inductive pusher4 :=
| WIdle
| WTry (v : Z)
| WReleased (v : Z)
| WHand (v : Z) (old : sync_var_t)
| WFinish (old : sync_var_t).

Record msys := mk_msys { box : spu_channel_4_t; spu : spu_at; ws : list pusher4 }.

(** EPush with a result is a value stored by a push that returned, without one
    a value whose push goes on; EDone is its result. *)
Inductive mevent :=
| EPush (v : Z) (st : option op_state)
| EDone (st : op_state)
| EPop (r : Z * option Z)
| EWait (r : Z * Z)
| ETau.

Inductive maction :=
| MPush (i : nat) (v : Z)
| MRelease (i : nat)
| MValues (i : nat)
| MHand (i : nat)
| MFinish (i : nat)
| MTryPop
| MWait
| MCommit
| MCheck
| MTake
| MStop
| MClear.

Definition set_ws (i : nat) (w : pusher4) (c : spu_channel_4_t) (s : msys) : msys :=
  mk_msys c (spu s) (<[i := w]> (ws s)).

(** The atomic operations of a pushing thread. *)
Definition push4_step (a : maction) (s : msys) : option (msys * mevent) :=
  match a with
  | MPush i v =>
      match ws s !! i with
      | Some WIdle => Some (set_ws i (WTry v) (box s) s, ETau)
      | _ => None
      end
  | MRelease i =>
      match ws s !! i with
      | Some (WTry v) => Some (set_ws i (WReleased v) (push_release v (box s)) s, ETau)
      | _ => None
      end
  | MValues i =>
      match ws s !! i with
      | Some (WReleased v) =>
          let '(c, old, pushed) := push_values v (box s) in
          Some (if pushed then
                  if has_flag (waiting old) mb_wait then (set_ws i (WFinish old) c s, EPush v None)
                  else (set_ws i WIdle c s, EPush v (Some (push_finish old c).2))
                else (set_ws i (WHand v old) c s, ETau))
      | _ => None
      end
  | MHand i =>
      match ws s !! i with
      | Some (WHand v old) =>
          let '(c, ok) := push_hand v (box s) in
          Some (if ok then (set_ws i (WFinish old) c s, EPush v None) else (set_ws i (WTry v) c s, ETau))
      | _ => None
      end
  | MFinish i =>
      match ws s !! i with
      | Some (WFinish old) => let '(c, st) := push_finish old (box s) in Some (set_ws i WIdle c s, EDone st)
      | _ => None
      end
  | _ => None
  end.

(** One turn of fetch_op in pop_wait. *)
Definition wait_turn (s : msys) : msys * mevent :=
  let '(c, r) := mb_pop_try true (box s) in
  match r with
  | inl r => (mk_msys c SIdle (ws s), EWait r)
  | inr seen => (mk_msys c (SSeen seen) (ws s), ETau)
  end.

(** The atomic operations of the SPU. *)
Definition spu4_step (a : maction) (s : msys) : option (msys * mevent) :=
  match a, spu s with
  | MTryPop, SIdle => let '(c, r) := mb_try_pop (box s) in Some (mk_msys c SIdle (ws s), EPop r)
  | MWait, SIdle => Some (wait_turn s)
  | MCommit, SSeen seen =>
      let '(c, ok) := mb_pop_commit true seen (box s) in
      Some (if ok then (mk_msys c SWait (ws s), ETau) else wait_turn s)
  | MCheck, SWait =>
      if has_flag (waiting (values (box s))) mb_wait then None else Some (mk_msys (box s) STake (ws s), ETau)
  | MTake, STake => let '(c, r) := mb_pop_take true (box s) in Some (mk_msys c SIdle (ws s), EWait r)
  | MStop, SWait =>
      let '(c, r) := mb_stop_take (box s) in
      Some (match r with
            | Some r => (mk_msys c SIdle (ws s), EWait r)
            | None => (mk_msys c SClear (ws s), ETau)
            end)
  | MClear, SClear =>
      let '(c, was) := mb_stop_clear (box s) in
      Some (if was then (mk_msys c SIdle (ws s), EWait (0, 0)) else (mk_msys c STake (ws s), ETau))
  | _, _ => None
  end.

Definition mb_step (a : maction) (s : msys) : option (msys * mevent) :=
  match a with
  | MPush _ _ | MRelease _ | MValues _ | MHand _ | MFinish _ => push4_step a s
  | _ => spu4_step a s
  end.

(** A schedule; steps that are not possible are skipped. *)
Fixpoint mb_run (acts : list maction) (s : msys) : msys * list mevent :=
  match acts with
  | [] => (s, [])
  | a :: acts' =>
      match mb_step a s with
      | None => mb_run acts' s
      | Some (s1, ev) => let '(s2, evs) := mb_run acts' s1 in (s2, ev :: evs)
      end
  end.

Definition finishing (w : pusher4) : Prop := match w with WFinish _ => True | _ => False end.

#[global] Instance finishing_dec w : Decision (finishing w).
Proof. destruct w; apply _. Defined.

(** The threads that handed a value over and have not cleared the waiting byte. *)
Definition handing (l : list pusher4) : nat := length (filter finishing l).

(** The schedules of the theorem: no step falls between the write of value3 and
    the operation on [values] of a push, nor between the store to jostling_value
    and the compare-and-swap that begins a wait; and no wait begins before the
    push that handed a value to a stopped one has cleared the waiting byte. *)
Fixpoint calm4 (acts : list maction) (s : msys) : Prop :=
  match acts with
  | [] => True
  | MRelease i as a :: MValues j as b :: acts' => i = j /\ calm4 acts' (mb_run [a; b] s).1
  | MWait as a :: MCommit as b :: acts' => (spu s = SIdle -> handing (ws s) = O) /\ calm4 acts' (mb_run [a; b] s).1
  | (MRelease _ | MValues _ | MWait | MCommit) :: _ => False
  | MPush _ v as a :: acts' => urange 32 v /\ calm4 acts' (mb_run [a] s).1
  | a :: acts' => calm4 acts' (mb_run [a] s).1
  end.

(** ** The queue it implements *)

Definition zlen (q : list Z) : Z := Z.of_nat (length q).

(** Four values; a fifth overwrites the last. *)
Definition q_push (v : Z) (q : list Z) : list Z :=
  if bool_decide (length q < 4)%nat then q ++ [v] else take 3 q ++ [v].

Inductive receiver4 := Away | Waiting | Given (v : Z) | Stopping.

Inductive qstep : list Z * receiver4 -> mevent -> list Z * receiver4 -> Prop :=
| q_store q r v :
    r <> Waiting -> r <> Stopping ->
    qstep (q, r) (EPush v (Some (mk_op (zlen q) (Z.min (zlen q + 1) 4) false true))) (q_push v q, r)
| q_hand v : qstep ([], Waiting) (EPush v None) ([], Given v)
| q_done m : qstep m (EDone (mk_op 0 1 true true)) m
| q_try_pop q : qstep (q, Away) (EPop (zlen q, head q)) (tail q, Away)
| q_take v q : qstep (v :: q, Away) (EWait (zlen (v :: q), v)) (q, Away)
| q_wait : qstep ([], Away) ETau ([], Waiting)
| q_recv q v : qstep (q, Given v) (EWait (1, v)) (q, Away)
| q_stop : qstep ([], Waiting) ETau ([], Stopping)
| q_stopped : qstep ([], Stopping) (EWait (0, 0)) ([], Away)
| q_quiet m : qstep m ETau m.

Inductive qtrace : list Z * receiver4 -> list mevent -> list Z * receiver4 -> Prop :=
| q_nil m : qtrace m [] m
| q_cons m ev m1 evs m2 : qstep m ev m1 -> qtrace m1 evs m2 -> qtrace m (ev :: evs) m2.

(** The values a mailbox holds. *)
Definition held (c : spu_channel_4_t) : list Z :=
  let d := values c in take (Z.to_nat (count d)) [value0 d; value1 d; value2 d; value3 c].

Definition mb_abs (s : msys) : list Z * receiver4 :=
  (held (box s),
   match spu s with
   | SIdle | SSeen _ => Away
   | SWait => if jostling_value (box s) =? jostling_flag then Waiting else Given (wrap 32 (jostling_value (box s)))
   | STake => Given (wrap 32 (jostling_value (box s)))
   | SClear => Stopping
   end).

(** ** Invariant *)

(** The mailbox of an SPU that waits: no value, and the waiting byte set. *)
Definition occupied (d : sync_var_t) : Prop := waiting d = wait_bits true /\ count d = 0.

Definition pusher4_ok (w : pusher4) : Prop :=
  match w with
  | WIdle => True
  | WTry v => urange 32 v
  | WReleased _ => False
  | WHand v old => urange 32 v /\ occupied old
  | WFinish old => occupied old
  end.

(** The state of the SPU with that of the mailbox. *)
Definition spu_ok (s : msys) : Prop :=
  let d := values (box s) in
  let j := jostling_value (box s) in
  match spu s with
  | SIdle => (waiting d = 0 /\ j <> jostling_flag /\ handing (ws s) = O) \/ (occupied d /\ j = 0 /\ handing (ws s) = 1%nat)
  | SSeen _ => False
  | SWait =>
      (occupied d /\ j = jostling_flag /\ handing (ws s) = O)
      \/ (occupied d /\ urange 32 j /\ handing (ws s) = 1%nat)
      \/ (waiting d = 0 /\ urange 32 j /\ handing (ws s) = O)
  | STake => waiting d = 0 /\ urange 32 j /\ handing (ws s) = O
  | SClear => occupied d /\ j = 0 /\ handing (ws s) = O
  end.

Record mb_ok (s : msys) : Prop := {
  mo_count : 0 <= count (values (box s)) <= 4;
  mo_ws : Forall pusher4_ok (ws s);
  mo_spu : spu_ok s
}.

(** ** Lists of pushing threads *)

Definition fin (w : pusher4) : nat := match w with WFinish _ => 1 | _ => 0 end%nat.

Lemma handing_insert l i w w' :
  l !! i = Some w -> (handing (<[i := w']> l) + fin w = handing l + fin w')%nat.
Proof.
  unfold handing. revert i. induction l as [|x l IH]; intros [|i] Hi; simplify_eq/=.
  - rewrite !filter_cons. destruct w, w'; simpl; repeat case_decide; simpl in *; lia || tauto.
  - specialize (IH i Hi). rewrite !filter_cons. case_decide; simpl; lia.
Qed.

(** A thread that is finishing is the only one that handed a value over. *)
Lemma handing_elem l i w : l !! i = Some w -> (fin w <= handing l)%nat.
Proof. intros Hi. pose proof (handing_insert l i w WIdle Hi) as H. unfold fin in *. simpl in H. lia. Qed.

Lemma mb_pushers_insert l i w : Forall pusher4_ok l -> pusher4_ok w -> Forall pusher4_ok (<[i := w]> l).
Proof. intros Hl Hw. by apply Forall_insert. Qed.

Lemma mb_pusher_at l i w : Forall pusher4_ok l -> l !! i = Some w -> pusher4_ok w.
Proof. intros Hl Hi. exact (Forall_lookup_1 _ _ _ _ Hl Hi). Qed.

(** ** Words *)

Lemma wrap_value v : urange 32 v -> wrap 32 v = v.
Proof. intros. by apply Z.mod_small. Qed.

Lemma value_not_flag v : urange 32 v -> (v =? jostling_flag) = false.
Proof. intros [? ?]. apply Z.eqb_neq. unfold jostling_flag. rewrite Z.shiftl_1_l. lia. Qed.

Lemma value_has_flag v : urange 32 v -> has_flag v jostling_flag = false.
Proof.
  intros Hv. unfold has_flag, jostling_flag. rewrite negb_false_iff, Z.eqb_eq. apply Z.bits_inj'. intros n Hn.
  rewrite Z.land_spec, Z.bits_0, Z.shiftl_1_l, Z.pow2_bits_eqb by lia. destruct (Z.eqb_spec 63 n) as [<-|]; [|apply andb_false_r].
  rewrite andb_true_r. rewrite <- (wrap_value v Hv). by rewrite testbit_wrap by lia.
Qed.

(** The count as one of its five values. *)
Ltac count_cases d :=
  let Hc := fresh in
  assert (Hc : count d = 0 \/ count d = 1 \/ count d = 2 \/ count d = 3 \/ count d = 4) by lia;
  destruct d as [w n i v0 v1 v2]; simpl in *; destruct Hc as [->|[->|[->|[->| ->]]]].

Lemma held_occupied c : occupied (values c) -> held c = [].
Proof. intros [_ Hc]. unfold held. by rewrite Hc. Qed.

Lemma held_empty c : count (values c) = 0 -> held c = [].
Proof. intros Hc. unfold held. by rewrite Hc. Qed.

(** ** Steps *)

Definition step4_ok (s : msys) (r : msys * mevent) : Prop := mb_ok r.1 /\ qstep (mb_abs s) r.2 (mb_abs r.1).

Lemma push_begin_ok s i v : mb_ok s -> urange 32 v -> ws s !! i = Some WIdle -> step4_ok s (set_ws i (WTry v) (box s) s, ETau).
Proof.
  intros [Hc Hw Hs] Hv Hi. pose proof (handing_insert _ _ _ (WTry v) Hi) as Hh. unfold fin in Hh. simpl in Hh.
  rewrite !Nat.add_0_r in Hh. split; [|apply q_quiet].
  split; simpl; [done|by apply mb_pushers_insert|]. unfold spu_ok in *. simpl. by rewrite Hh.
Qed.

(** The push of a free mailbox. *)
Lemma push_values_free v c :
  0 <= count (values c) <= 4 -> waiting (values c) = 0 ->
  let '(c', old, pushed) := push_values v (push_release v c) in
  pushed = true /\ waiting old = 0 /\ waiting (values c') = 0 /\ 0 <= count (values c') <= 4 /\ jostling_value c' = jostling_value c
  /\ held c' = q_push v (held c) /\ (push_finish old c').2 = mk_op (zlen (held c)) (Z.min (zlen (held c) + 1) 4) false true.
Proof. intros Hn Hw. destruct c as [d j v3]; simpl in *. by count_cases d; subst w. Qed.

Lemma push_values_occupied v c :
  occupied (values c) -> push_values v (push_release v c) = (push_release v c, values c, false).
Proof. intros [Hw _]. unfold push_values, push_release. simpl. by rewrite Hw. Qed.

(** Whether the waiting byte is clear, with what follows. *)
Lemma waiting_cases s :
  mb_ok s -> (waiting (values (box s)) = 0 /\ (mb_abs s).2 <> Waiting /\ (mb_abs s).2 <> Stopping) \/ occupied (values (box s)).
Proof.
  intros [_ _ Hs]. unfold spu_ok in Hs. unfold mb_abs. simpl. destruct (spu s); try done.
  - destruct Hs as [Hs|Hs]; [left|right]; [|tauto]. split; [tauto|done].
  - destruct Hs as [Hs|[Hs|Hs]]; [right; tauto..|left]. destruct Hs as (Hw & Hj & _). by rewrite value_not_flag.
  - left. split; [tauto|done].
  - right. tauto.
Qed.

(** The two steps of a push that is not disturbed between them. *)
Lemma push_pair_ok s i v :
  mb_ok s -> ws s !! i = Some (WTry v) ->
  exists s1 s2 ev, mb_step (MRelease i) s = Some (s1, ETau) /\ mb_step (MValues i) s1 = Some (s2, ev)
    /\ mb_ok s2 /\ qstep (mb_abs s) ev (mb_abs s2).
Proof.
  intros Hok Hi. pose proof Hok as [Hc Hw Hs]. pose proof (lookup_lt_Some _ _ _ Hi) as Hlt.
  pose proof (mb_pusher_at _ _ _ Hw Hi) as Hv. simpl in Hv.
  exists (set_ws i (WReleased v) (push_release v (box s)) s). cbn [mb_step push4_step]. rewrite Hi.
  unfold set_ws at 3. cbn [ws box]. rewrite list_lookup_insert_eq by done.
  change (box (set_ws _ _ _ s)) with (push_release v (box s)).
  destruct (waiting_cases s Hok) as [(Hz & Hr1 & Hr2)|Ho].
  - pose proof (push_values_free v (box s) Hc Hz) as Hp. destruct (push_values v _) as [[c old] pushed].
    destruct Hp as (-> & Ho & Hw' & Hc' & Hj & Hh & Hst). rewrite Ho, Hst. cbn [has_flag Z.land Z.eqb negb].
    eexists _, _. split; [reflexivity|]. split; [reflexivity|]. unfold set_ws. cbn [ws box spu]. rewrite list_insert_insert_eq.
    pose proof (handing_insert _ _ _ WIdle Hi) as Hn. unfold fin in Hn. simpl in Hn. rewrite !Nat.add_0_r in Hn. split.
    + split; simpl; [done|by apply mb_pushers_insert|]. unfold spu_ok in *. simpl. rewrite Hn, Hw', Hj.
      assert (~ occupied (values (box s))) by (intros [Hx _]; by rewrite Hz in Hx). destruct (spu s); tauto.
    + unfold mb_abs in *. simpl in *. rewrite Hh, Hj. by apply q_store.
  - rewrite (push_values_occupied v _ Ho). eexists _, _. split; [reflexivity|]. split; [reflexivity|].
    unfold set_ws. cbn [ws box spu]. rewrite list_insert_insert_eq.
    pose proof (handing_insert _ _ _ (WHand v (values (box s))) Hi) as Hn. unfold fin in Hn. simpl in Hn. rewrite !Nat.add_0_r in Hn. split.
    + split; simpl; [done|by apply mb_pushers_insert|]. unfold spu_ok in *. simpl. by rewrite Hn.
    + unfold mb_abs in *. simpl in *. rewrite (held_occupied (push_release v (box s))), held_occupied by done. apply q_quiet.
Qed.

(** jostling_value, when it holds the flag and when not. *)
Lemma mb_hand_ok s i v old :
  mb_ok s -> ws s !! i = Some (WHand v old) ->
  step4_ok s (let '(c, ok) := push_hand v (box s) in
              if ok then (set_ws i (WFinish old) c s, EPush v None) else (set_ws i (WTry v) c s, ETau)).
Proof.
  intros [Hc Hw Hs] Hi. pose proof (mb_pusher_at _ _ _ Hw Hi) as [Hv Ho]. unfold push_hand.
  destruct (Z.eqb_spec (jostling_value (box s)) jostling_flag) as [Hj|Hj].
  - pose proof (handing_insert _ _ _ (WFinish old) Hi) as Hn. unfold fin in Hn. simpl in Hn. rewrite Nat.add_0_r in Hn.
    assert (Hsw : spu s = SWait /\ occupied (values (box s)) /\ handing (ws s) = O).
    { unfold spu_ok in Hs. cbv zeta in Hs. rewrite Hj in Hs. assert (~ urange 32 jostling_flag) by (intros [_ Hx]; by vm_compute in Hx).
      assert (jostling_flag <> 0) by done. destruct (spu s); tauto. }
    destruct Hsw as (Hsw & Hoc & Hh). split; simpl.
    + split; simpl; [done|by apply mb_pushers_insert|]. unfold spu_ok. simpl. rewrite Hsw. right. left. split_and!; try done; apply Hv || lia.
    + unfold mb_abs. simpl. rewrite Hsw, Hj, Z.eqb_refl, value_not_flag, wrap_value by done.
      rewrite (held_occupied (set_jostle v (box s))), held_occupied by done. apply q_hand.
  - pose proof (handing_insert _ _ _ (WTry v) Hi) as Hn. unfold fin in Hn. simpl in Hn. rewrite !Nat.add_0_r in Hn. split; simpl.
    + split; simpl; [done|by apply mb_pushers_insert|]. unfold spu_ok in *. simpl. by rewrite Hn.
    + apply q_quiet.
Qed.

(** The waiting byte is still set: the push succeeds. *)
Lemma mb_finish_ok s i old :
  mb_ok s -> ws s !! i = Some (WFinish old) ->
  step4_ok s (let '(c, st) := push_finish old (box s) in (set_ws i WIdle c s, EDone st)).
Proof.
  intros [Hc Hw Hs] Hi. pose proof (mb_pusher_at _ _ _ Hw Hi) as [Ho1 Ho2]. unfold push_finish. rewrite Ho1, Ho2.
  change (has_flag (wait_bits true) mb_wait) with true. cbn iota.
  pose proof (handing_insert _ _ _ WIdle Hi) as Hn. unfold fin in Hn. simpl in Hn. rewrite Nat.add_0_r in Hn.
  pose proof (handing_elem _ _ _ Hi) as He. unfold fin in He. simpl in He.
  assert (Hoc : occupied (values (box s)) /\ handing (<[i := WIdle]> (ws s)) = O).
  { unfold spu_ok in Hs. destruct (spu s); split; intuition lia. }
  destruct Hoc as [Hoc Hz]. pose proof Hoc as [Hoc1 Hoc2]. rewrite Hoc1. change (has_flag (wait_bits true) mb_wait) with true. cbn iota. split; simpl.
  - split; simpl; [done|by apply mb_pushers_insert|]. unfold spu_ok in *. simpl. rewrite Hz.
    destruct (spu s); [destruct Hs as [Hs|Hs]|done|destruct Hs as [Hs|[Hs|Hs]]|..]; try (exfalso; lia).
    + left. destruct Hs as (_ & -> & _). done.
    + right. right. tauto.
  - unfold mb_abs. simpl. rewrite (held_empty (set_sync _ (box s))), (held_empty (box s)) by done. apply q_done.
Qed.

(** The pops of the SPU. *)
Lemma shift_ok c :
  0 <= count (values c) <= 4 -> count (values c) <> 0 ->
  let c' := set_sync (shift_values (value3 c) (values c)) c in
  0 <= count (values c') <= 4 /\ waiting (values c') = 0 /\ held c = value0 (values c) :: held c' /\ zlen (held c) = count (values c).
Proof. intros Hc Hn. destruct c as [d j v3]; simpl in *. by count_cases d. Qed.

Lemma try_pop_ok s :
  mb_ok s -> spu s = SIdle -> step4_ok s (let '(c, r) := mb_try_pop (box s) in (mk_msys c SIdle (ws s), EPop r)).
Proof.
  intros [Hc Hw Hs] Hi. unfold spu_ok in Hs. rewrite Hi in Hs. unfold mb_try_pop.
  destruct (Z.eqb_spec (count (values (box s))) 0) as [Hz|Hz].
  - split; [by split|]. unfold mb_abs. simpl. rewrite Hi, held_empty by done. apply (q_try_pop []).
  - destruct (shift_ok (box s) Hc Hz) as (H1 & H2 & H3 & H4). split; simpl.
    + split; simpl; [done..|]. unfold spu_ok. simpl. left. destruct Hs as [Hs|[[_ Hs] _]]; [tauto|congruence].
    + unfold mb_abs. simpl. rewrite Hi, <- H4, H3. apply (q_try_pop (_ :: _)).
Qed.

Lemma wait_full_ok s :
  mb_ok s -> spu s = SIdle -> count (values (box s)) <> 0 -> spu (wait_turn s).1 = SIdle /\ step4_ok s (wait_turn s).
Proof.
  intros [Hc Hw Hs] Hi Hz. unfold spu_ok in Hs. rewrite Hi in Hs. unfold wait_turn, mb_pop_try.
  rewrite (proj2 (Z.eqb_neq _ _) Hz). split; [done|]. destruct (shift_ok (box s) Hc Hz) as (H1 & H2 & H3 & H4). split; simpl.
  - split; simpl; [done..|]. unfold spu_ok. simpl. left. destruct Hs as [Hs|[[_ Hs] _]]; [tauto|congruence].
  - unfold mb_abs. simpl. rewrite Hi, <- H4, H3. apply q_take.
Qed.

Lemma mb_check_ok s :
  mb_ok s -> spu s = SWait -> has_flag (waiting (values (box s))) mb_wait = false ->
  step4_ok s (mk_msys (box s) STake (ws s), ETau).
Proof.
  intros [Hc Hw Hs] Hi Hf. unfold spu_ok in Hs. rewrite Hi in Hs.
  destruct Hs as [[[Ho _] _]|[[[Ho _] _]|Hs]]; [by rewrite Ho in Hf..|]. split; simpl; [by split|].
  unfold mb_abs. simpl. rewrite Hi, value_not_flag by tauto. apply q_quiet.
Qed.

Lemma mb_take_ok s :
  mb_ok s -> spu s = STake -> step4_ok s (let '(c, r) := mb_pop_take true (box s) in (mk_msys c SIdle (ws s), EWait r)).
Proof.
  intros [Hc Hw Hs] Hi. unfold spu_ok in Hs. rewrite Hi in Hs. split; simpl.
  - split; simpl; [done..|]. unfold spu_ok. simpl. left. split_and!; [tauto|done|tauto].
  - unfold mb_abs. simpl. rewrite Hi. apply q_recv.
Qed.

(** A stopped wait: the value that was handed over, or nothing. *)
Lemma mb_stop_ok s :
  mb_ok s -> spu s = SWait ->
  step4_ok s (let '(c, r) := mb_stop_take (box s) in
              match r with
              | Some r => (mk_msys c SIdle (ws s), EWait r)
              | None => (mk_msys c SClear (ws s), ETau)
              end).
Proof.
  intros [Hc Hw Hs] Hi. unfold spu_ok in Hs. rewrite Hi in Hs. unfold mb_stop_take.
  destruct Hs as [(Ho & Hj & Hh)|Hs].
  - rewrite Hj. change (has_flag jostling_flag jostling_flag) with true. cbn iota. split; simpl; [by split|].
    unfold mb_abs. simpl. rewrite Hi, Hj, Z.eqb_refl, (held_occupied (box s)), held_occupied by done. apply q_stop.
  - assert (Hj : urange 32 (jostling_value (box s))) by tauto. rewrite value_has_flag by done. split; simpl.
    + split; simpl; [done..|]. unfold spu_ok. simpl. destruct Hs as [Hs|Hs]; [right; tauto|left; split_and!; [tauto|done|tauto]].
    + unfold mb_abs. simpl. rewrite Hi, value_not_flag by done. apply q_recv.
Qed.

Lemma mb_clear_ok s :
  mb_ok s -> spu s = SClear ->
  step4_ok s (let '(c, was) := mb_stop_clear (box s) in
              if was then (mk_msys c SIdle (ws s), EWait (0, 0)) else (mk_msys c STake (ws s), ETau)).
Proof.
  intros [Hc Hw Hs] Hi. unfold spu_ok in Hs. rewrite Hi in Hs. destruct Hs as (Ho & Hj & Hh). pose proof Ho as [Ho1 Ho2].
  unfold mb_stop_clear. rewrite Ho1. change (has_flag (wait_bits true) mb_wait) with true. cbn iota. split; simpl.
  - split; simpl; [done..|]. unfold spu_ok. simpl. left. by rewrite Hj.
  - unfold mb_abs. simpl. rewrite Hi, (held_occupied (box s)), held_empty by done. apply q_stopped.
Qed.

(** ** Schedules *)

Lemma mb_run_app as1 as2 s :
  mb_run (as1 ++ as2) s = (let '(s1, e1) := mb_run as1 s in let '(s2, e2) := mb_run as2 s1 in (s2, e1 ++ e2)).
Proof.
  revert s. induction as1 as [|a as1 IH]; intros s; simpl; [by destruct (mb_run as2 s)|].
  destruct (mb_step a s) as [[s1 ev]|]; rewrite IH; [|done].
  destruct (mb_run as1 s1) as [s2 e2]. by destruct (mb_run as2 s2).
Qed.

Lemma qtrace_app m e1 m1 e2 m2 : qtrace m e1 m1 -> qtrace m1 e2 m2 -> qtrace m (e1 ++ e2) m2.
Proof. induction 1; simpl; eauto using q_cons. Qed.

Definition run4_ok (acts : list maction) (s : msys) : Prop :=
  mb_ok (mb_run acts s).1 /\ qtrace (mb_abs s) (mb_run acts s).2 (mb_abs (mb_run acts s).1).

Lemma run4_app as1 as2 s : run4_ok as1 s -> run4_ok as2 (mb_run as1 s).1 -> run4_ok (as1 ++ as2) s.
Proof.
  unfold run4_ok. rewrite mb_run_app. destruct (mb_run as1 s) as [s1 e1]. simpl.
  destruct (mb_run as2 s1) as [s2 e2]. simpl. intros [_ T1] [H2 T2]. split; [done|]. by eapply qtrace_app.
Qed.

Lemma run4_one a s : mb_ok s -> (forall r, mb_step a s = Some r -> step4_ok s r) -> run4_ok [a] s.
Proof.
  intros Hok H. unfold run4_ok. simpl. destruct (mb_step a s) as [[s1 ev]|]; simpl; [|by split; [|apply q_nil]].
  destruct (H _ eq_refl) as [H1 H2]. split; [done|]. eapply q_cons; [done|apply q_nil].
Qed.

(** The steps that may stand alone. *)
Definition alone (a : maction) : Prop :=
  match a with
  | MRelease _ | MValues _ | MWait | MCommit => False
  | MPush _ v => urange 32 v
  | _ => True
  end.

Lemma alone_ok a s r : mb_ok s -> alone a -> mb_step a s = Some r -> step4_ok s r.
Proof.
  intros Hok Ha Hs. destruct a as [i v|i|i|i|i| | | | | | |]; simpl in Ha; cbn [mb_step push4_step spu4_step] in Hs; try done.
  - destruct (ws s !! i) as [[]|] eqn:Hi; simplify_eq. by apply push_begin_ok.
  - destruct (ws s !! i) as [[]|] eqn:Hi; simplify_eq. pose proof (mb_hand_ok s i _ _ Hok Hi) as H.
    destruct (push_hand _ _) as [c ok]. by simplify_eq.
  - destruct (ws s !! i) as [[]|] eqn:Hi; simplify_eq. pose proof (mb_finish_ok s i _ Hok Hi) as H.
    destruct (push_finish _ _) as [c st]. by simplify_eq.
  - destruct (spu s) eqn:Hi; try done. pose proof (try_pop_ok s Hok Hi) as H. destruct (mb_try_pop _) as [c x]. by simplify_eq.
  - destruct (spu s) eqn:Hi; try done. destruct (has_flag _ _) eqn:Hf; simplify_eq. by apply mb_check_ok.
  - destruct (spu s) eqn:Hi; try done. pose proof (mb_take_ok s Hok Hi) as H. destruct (mb_pop_take _ _) as [c x]. by simplify_eq.
  - destruct (spu s) eqn:Hi; try done. pose proof (mb_stop_ok s Hok Hi) as H. destruct (mb_stop_take _) as [c x]. by simplify_eq.
  - destruct (spu s) eqn:Hi; try done. pose proof (mb_clear_ok s Hok Hi) as H. destruct (mb_stop_clear _) as [c x]. by simplify_eq.
Qed.

Lemma push_run_ok i s : mb_ok s -> run4_ok [MRelease i; MValues i] s.
Proof.
  intros Hok. destruct (ws s !! i) as [w|] eqn:Hi; cycle 1.
  { unfold run4_ok. simpl. rewrite Hi. simpl. rewrite ?Hi. by split; [|apply q_nil]. }
  pose proof (mb_pusher_at _ _ _ (mo_ws _ Hok) Hi) as Hw.
  destruct w as [|v|v|v old|old]; try done; try (unfold run4_ok; simpl; rewrite Hi; simpl; rewrite ?Hi; by split; [|apply q_nil]).
  destruct (push_pair_ok s i v Hok Hi) as (s1 & s2 & ev & E1 & E2 & H1 & H2).
  unfold run4_ok. cbn [mb_run]. rewrite E1, E2. simpl. split; [done|].
  eapply q_cons; [apply q_quiet|]. eapply q_cons; [done|apply q_nil].
Qed.

Lemma wait_run_ok s : mb_ok s -> (spu s = SIdle -> handing (ws s) = O) -> run4_ok [MWait; MCommit] s.
Proof.
  intros Hok Hh. destruct (spu s) as [|seen| | |] eqn:Hi.
  2:{ pose proof (mo_spu _ Hok) as Hx. unfold spu_ok in Hx. by rewrite Hi in Hx. }
  2-4: unfold run4_ok; simpl; rewrite Hi; simpl; rewrite ?Hi; by split; [|apply q_nil].
  specialize (Hh eq_refl). destruct (decide (count (values (box s)) = 0)) as [Hz|Hz].
  - assert (Hw0 : waiting (values (box s)) = 0).
    { pose proof (mo_spu _ Hok) as Hx. unfold spu_ok in Hx. rewrite Hi in Hx. destruct Hx as [Hx|Hx]; [tauto|lia]. }
    unfold run4_ok. cbn [mb_run mb_step spu4_step]. rewrite Hi. unfold wait_turn, mb_pop_try. rewrite Hz.
    cbn [Z.eqb spu box]. unfold mb_pop_commit. rewrite decide_True by done. cbn [fst snd]. split.
    + split; simpl; [lia|apply Hok|]. unfold spu_ok. simpl. by left.
    + eapply q_cons; [apply q_quiet|]. eapply q_cons; [|apply q_nil]. unfold mb_abs. simpl.
      rewrite Hi, (held_empty (box s)), held_empty by done. apply q_wait.
  - destruct (wait_full_ok s Hok Hi Hz) as [Hi' [H1 H2]]. unfold run4_ok. cbn [mb_run mb_step spu4_step]. rewrite Hi.
    destruct (wait_turn s) as [s1 ev]. simpl in *. rewrite Hi'. simpl. split; [done|]. eapply q_cons; [done|apply q_nil].
Qed.

(** How a schedule of the theorem begins. *)
Lemma calm4_cases a acts s :
  calm4 (a :: acts) s ->
  (alone a /\ calm4 acts (mb_run [a] s).1)
  \/ (exists i acts', a = MRelease i /\ acts = MValues i :: acts' /\ calm4 acts' (mb_run [a; MValues i] s).1)
  \/ (exists acts', a = MWait /\ acts = MCommit :: acts' /\ (spu s = SIdle -> handing (ws s) = O) /\ calm4 acts' (mb_run [a; MCommit] s).1).
Proof.
  destruct a; try (intros [Hv Hc]; left; by split); try (intros Hc; left; by split); try done.
  - destruct acts as [|[] acts']; try done. intros [<- Hc]. right. left. by eexists _, _.
  - destruct acts as [|[] acts']; try done. intros [Hh Hc]. right. right. by eexists.
Qed.

Lemma calm4_run_ok n acts s : (length acts <= n)%nat -> mb_ok s -> calm4 acts s -> run4_ok acts s.
Proof.
  revert acts s. induction n as [|n IH]; intros [|a acts] s Hn Hok Hc; simpl in Hn; try lia.
  1-2: by split; [|apply q_nil].
  destruct (calm4_cases a acts s Hc) as [[Ha Hc']|[(i & acts' & -> & -> & Hc')|(acts' & -> & -> & Hh & Hc')]].
  - assert (H1 : run4_ok [a] s) by (apply run4_one; [done|]; intros; by eapply alone_ok).
    apply (run4_app [a]); [done|]. apply IH; [lia|apply H1|done].
  - pose proof (push_run_ok i s Hok) as H1. apply (run4_app [_; _]); [done|]. apply IH; [simpl in Hn; lia|apply H1|done].
  - pose proof (wait_run_ok s Hok Hh) as H1. apply (run4_app [_; _]); [done|]. apply IH; [simpl in Hn; lia|apply H1|done].
Qed.

Lemma mb_ok_fresh n : mb_ok (mk_msys mb_clear SIdle (replicate n WIdle)).
Proof.
  split; simpl; [lia|by apply Forall_replicate|]. unfold spu_ok. simpl. left. split_and!; [done..|].
  unfold handing. induction n as [|n IH]; [done|]. simpl. by rewrite filter_cons_False by (by intros []).
Qed.

(** C14: The inbound mailbox with any number of threads that push values and one
    SPU that pops, waits and is stopped, their atomic operations interleaved in
    any order in which (1) nothing falls between the write of value3 and the
    operation on [values] of a push, (2) nothing falls between the store to
    jostling_value and the compare-and-swap that begins a wait, and (3) no wait
    begins while the push that handed a value to a stopped wait has yet to clear
    the waiting byte: what the threads see is a queue of four values.  Values
    leave in the order of their pushes, a push on a full mailbox replaces the last
    value, one made while the SPU waits is what the SPU receives and never enters
    the queue, a stopped wait has received the value handed to it or taken
    nothing, every push succeeds and the counts returned are those of the queue.
    [mailbox_value3_race], [mailbox_early_store] and [mailbox_stopped_wait] show
    what happens in the three windows. *)
Theorem mailbox_refines s acts :
  mb_ok s -> calm4 acts s ->
  let '(s', evs) := mb_run acts s in
  mb_ok s' /\ qtrace (mb_abs s) evs (mb_abs s').
Proof.
  intros Hok Hc. pose proof (calm4_run_ok (length acts) acts s ltac:(done) Hok Hc) as H.
  unfold run4_ok in H. by destruct (mb_run acts s).
Qed.

(** Two pushes at a waiting SPU, one of which arrives too late, more pushes than
    there are places, pops, and a stopped wait. *)
Definition mailbox_schedule : list maction :=
  [MWait; MCommit; MPush 0 1; MPush 1 2; MRelease 0; MValues 0; MRelease 1; MValues 1; MHand 1; MHand 0; MFinish 1;
   MRelease 0; MValues 0; MCheck; MTake; MPush 0 3; MRelease 0; MValues 0; MPush 1 4; MRelease 1; MValues 1;
   MPush 0 5; MRelease 0; MValues 0; MPush 0 6; MRelease 0; MValues 0; MTryPop; MTryPop; MTryPop; MWait; MCommit;
   MTryPop; MWait; MCommit; MStop; MClear].

Lemma mailbox_refines_witness :
  let '(s', evs) := mb_run mailbox_schedule (mk_msys mb_clear SIdle [WIdle; WIdle]) in
  mb_ok s' /\ qtrace ([], Away) evs (mb_abs s').
Proof.
  apply (mailbox_refines (mk_msys mb_clear SIdle [WIdle; WIdle]) mailbox_schedule).
  - exact (mb_ok_fresh 2).
  - vm_compute. intuition discriminate.
Defined.

Example mailbox_schedule_received :
  List.filter (fun ev => match ev with EPop _ | EWait _ => true | _ => false end)
    (mb_run mailbox_schedule (mk_msys mb_clear SIdle [WIdle; WIdle])).2
  = [EWait (1, 2); EPop (4, Some 1); EPop (3, Some 3); EPop (2, Some 4); EWait (1, 6); EPop (0, None); EWait (0, 0)].
Proof. by vm_compute. Qed.

(** A push that writes value3 of a full mailbox, and a pop before its operation
    on [values]: the pop moves the new value into the place of the last one,
    and the push then adds it again.  4 is lost and 5 is received twice, which no
    order of the two operations gives. *)
Lemma mailbox_value3_race :
  let full := set_values 4 1 2 3 4 mb_clear in
  held full = [1; 2; 3; 4]
  /\ held (box (mb_run [MPush 0 5; MRelease 0; MTryPop; MValues 0] (mk_msys full SIdle [WIdle])).1) = [2; 3; 5; 5].
Proof. by vm_compute. Qed.

(** A thread that saw an earlier wait hands its value over between the store to
    jostling_value and the compare-and-swap of the next one: its push reports
    failure, and the SPU waits with the value in jostling_value and nobody to
    clear its waiting byte. *)
Lemma mailbox_early_store :
  let '(s, evs) :=
    mb_run [MWait; MCommit; MPush 0 5; MPush 1 6; MRelease 0; MValues 0; MRelease 1; MValues 1; MHand 0; MFinish 0;
            MCheck; MTake; MWait; MHand 1; MFinish 1; MCommit] (mk_msys mb_clear SIdle [WIdle; WIdle]) in
  EDone (mk_op 0 0 false false) ∈ evs /\ spu s = SWait /\ ws s = [WIdle; WIdle]
  /\ waiting (values (box s)) = wait_bits true /\ jostling_value (box s) = 6.
Proof. vm_compute. split_and!; try done. repeat first [apply list_elem_of_here | apply list_elem_of_further]. Qed.

(** A stopped wait returns the value it was handed without waiting for the push
    to clear the waiting byte.  When the SPU waits again first, the push ends
    that wait instead, and the SPU receives 0, which nobody pushed. *)
Lemma mailbox_stopped_wait :
  (mb_run [MWait; MCommit; MPush 0 5; MRelease 0; MValues 0; MHand 0; MStop; MWait; MCommit; MFinish 0; MCheck; MTake]
     (mk_msys mb_clear SIdle [WIdle])).2
  = [ETau; ETau; ETau; ETau; ETau; EPush 5 None; EWait (1, 5); ETau; ETau; EDone (mk_op 0 1 true true); ETau; EWait (1, 0)].
Proof. by vm_compute. Qed.
