(* ===== verification/IdManager.v ===== *)
(** * The id manager

    rpcs3/Emu/IdManager.h and IdManager.cpp.  Kernel objects are named by
    32-bit ids: an id encodes an index into a fixed array of slots, with the
    bits of [invl_range] counting how often the slot was reused, so that an id
    that outlives its object does not name the next one.  The file models the
    arrays, the allocation policy and the accessors, and proves that they
    implement a finite map from (type, id) to objects.  [None] results of
    [allocate_id] are [ensure] failures. *)

From stdpp Require Import base numbers list gmap tactics.
From Stdlib Require Import Lia.
From S2P Require Import Prelude.

Open Scope Z_scope.

Definition umax : Z := 2 ^ 32 - 1.

(** id_traits<T>, with the type id stored in keys (typeinfo::get_type). *)
Record id_traits := mk_traits {
  tr_base : Z;
  tr_step : Z;
  tr_count : Z;
  uses_lowest_id : bool;
  invl_first : Z;
  invl_second : Z;
  tr_type : Z
}.

(** id_traits::invalid = -+!base. *)
Definition tr_invalid (tr : id_traits) : Z :=
  if tr_base tr =? 0 then umax else 0.

(** ((1u << second) - 1) << first. *)
Definition invl_mask (tr : id_traits) : Z :=
  shl 32 (wrap 32 (shl 32 1 (invl_second tr) - 1)) (invl_first tr).

Definition get_index (tr : id_traits) (id : Z) : Z :=
  let mask_out := invl_mask tr in
  let diff := wrap 32 (Z.land id (lnot_w 32 mask_out) - tr_base tr) in
  if diff mod tr_step tr =? 0 then diff / tr_step tr else tr_count tr.

(** id_key: the id last stored in a slot and the type of its object, umax when
    the slot is free. *)
Record id_key := mk_key { m_value : Z; m_base : Z }.

Definition empty_key : id_key := mk_key 0 umax.

Definition clear_key (k : id_key) : id_key := mk_key (m_value k) umax.

(** id_map<T> for the objects [A]. *)
Record id_map (A : Type) := mk_map {
  vec_data : list (option A);
  vec_keys : list id_key;
  highest_index : Z
}.

Arguments mk_map {A}.
Arguments vec_data {A}.
Arguments vec_keys {A}.
Arguments highest_index {A}.

Definition empty_map {A} (count : nat) : id_map A :=
  mk_map (replicate count None) (replicate count empty_key) 0.

(** The result of allocate_id: the slot (nullptr when out of ids), the keys,
    highest_index and g_id. *)
Record alloc := mk_alloc {
  al_slot : option nat;
  al_keys : list id_key;
  al_highest : Z;
  al_id : Z
}.

(** next | ((value + (1u << first)) & (second ? mask : 0)). *)
Definition bump (tr : id_traits) (next value : Z) : Z :=
  Z.lor next
    (Z.land (wrap 32 (value + shl 32 1 (invl_first tr)))
            (if invl_second tr =? 0 then 0 else invl_mask tr)).

(** The scan for a free id from the slot [i], [next] = base + step * i. *)
Fixpoint scan (tr : id_traits) (keys : list id_key) (i : nat) (next : Z)
    : option (nat * Z) :=
  match keys with
  | [] => None
  | k :: keys' =>
      if m_base k =? umax then Some (i, bump tr next (m_value k))
      else scan tr keys' (S i) (wrap 32 (next + tr_step tr))
  end.

(** Prepare new ID (returns no slot if out of resources). *)
Definition allocate_id (tr : id_traits) (keys : list id_key) (highest dst_id g_id : Z)
    : option alloc :=
  if negb (dst_id =? tr_invalid tr) then
    let index := get_index tr dst_id in
    if index <? tr_count tr then
      let highest' := Z.max highest (index + 1) in
      match keys !! Z.to_nat index with
      | None => None
      | Some k =>
          if negb (m_base k =? umax) then Some (mk_alloc None keys highest' g_id)
          else Some (mk_alloc (Some (Z.to_nat index))
                 (<[Z.to_nat index := mk_key dst_id (tr_type tr)]> keys) highest' dst_id)
      end
    else None
  else if negb (uses_lowest_id tr) && (highest <? tr_count tr) then
    let next := wrap 32 (tr_base tr + wrap 32 (tr_step tr * highest)) in
    Some (mk_alloc (Some (Z.to_nat highest))
            (<[Z.to_nat highest := mk_key next (tr_type tr)]> keys) (highest + 1) next)
  else
    let highest' := if uses_lowest_id tr then tr_count tr else highest in
    match scan tr (take (Z.to_nat (tr_count tr)) keys) 0 (tr_base tr) with
    | Some (i, id) =>
        Some (mk_alloc (Some i) (<[i := mk_key id (tr_type tr)]> keys) highest' id)
    | None => Some (mk_alloc None keys highest' g_id)
    end.

Section Access.

Context {A : Type}.

Implicit Types m : id_map A.

(** create_id: allocate, then store the provider's object; a provider that
    returns null gives the slot back with a default key.  The result is the
    map, the object and g_id. *)
Definition create_id (tr : id_traits) m (provider : option A) (id g_id : Z)
    : option (id_map A * option A * Z) :=
  match allocate_id tr (vec_keys m) (highest_index m) id g_id with
  | None => None
  | Some a =>
      match al_slot a with
      | None => Some (mk_map (vec_data m) (al_keys a) (al_highest a), None, al_id a)
      | Some i =>
          match provider with
          | Some obj =>
              Some (mk_map (<[i := Some obj]> (vec_data m)) (al_keys a) (al_highest a),
                    Some obj, al_id a)
          | None =>
              Some (mk_map (vec_data m) (<[i := empty_key]> (al_keys a)) (al_highest a),
                    None, al_id a)
          end
      end
  end.

(** import: the new id, or the invalid id. *)
Definition import_id (tr : id_traits) m (provider : option A) (id g_id : Z)
    : option (id_map A * Z) :=
  match create_id tr m provider id g_id with
  | None => None
  | Some (m', Some _, i) => Some (m', i)
  | Some (m', None, _) => Some (m', tr_invalid tr)
  end.

(** find_index: the object at a slot if the key agrees (the container holds
    several types, so the stored type is compared). *)
Definition find_index (tr : id_traits) m (index id : Z) : option A :=
  if highest_index m <=? index then None
  else
    match vec_data m !! Z.to_nat index, vec_keys m !! Z.to_nat index with
    | Some (Some obj), Some key =>
        if (m_base key =? tr_type tr)
           && ((invl_second tr =? 0) || (m_value key =? id))
        then Some obj else None
    | _, _ => None
    end.

(** find_id, and with it get, get_unlocked, check and check_unlocked. *)
Definition find_id (tr : id_traits) m (id : Z) : option A :=
  find_index tr m (get_index tr id) id.

Definition check_id (tr : id_traits) m (id : Z) : option A :=
  if tr_count tr <=? get_index tr id then None else find_id tr m id.

(** Clearing the slot of a found object. *)
Definition erase_slot m (i : nat) : id_map A :=
  mk_map (<[i := None]> (vec_data m)) (alter clear_key i (vec_keys m)) (highest_index m).

(** remove and the unconditional withdraw. *)
Definition remove_id (tr : id_traits) m (id : Z) : id_map A * option A :=
  match find_id tr m id with
  | Some obj => (erase_slot m (Z.to_nat (get_index tr id)), Some obj)
  | None => (m, None)
  end.

(** withdraw with a predicate: [func] may change the object and returns an
    error to keep it. *)
Definition withdraw {E} (tr : id_traits) m (id : Z) (func : A -> A * option E)
    : id_map A * option (A * option E) :=
  match check_id tr m id with
  | None => (m, None)
  | Some obj =>
      let i := Z.to_nat (get_index tr id) in
      match func obj with
      | (obj', Some e) =>
          (mk_map (<[i := Some obj']> (vec_data m)) (vec_keys m) (highest_index m),
           Some (obj', Some e))
      | (obj', None) => (erase_slot m i, Some (obj', None))
      end
  end.

(** clear: drop every object, keep the counters. *)
Definition clear_map m : id_map A :=
  mk_map ((fun _ => None) <$> vec_data m) (clear_key <$> vec_keys m) (highest_index m).

End Access.

(** The traits of the objects derived from lv2_obj (sys_sync.h): 8192 slots,
    step 0x100, eight counter bits. *)
Definition lv2_traits (base : Z) : id_traits :=
  mk_traits base 0x100 8192 false 0 8 base.

(** ** Well-formedness *)

(** The static_asserts of id_traits, plus what the id encoding relies on: the
    counter bits are zero in base + step * i. *)
Record wf_traits (tr : id_traits) : Prop := {
  wt_base : 0 <= tr_base tr;
  wt_step : 0 < tr_step tr;
  wt_count : 0 < tr_count tr;
  wt_range : tr_step tr * (tr_count tr - 1) + tr_base tr < 2 ^ 32;
  wt_type : tr_type tr <> umax;
  wt_first : 0 <= invl_first tr;
  wt_second : 0 < invl_second tr;
  wt_invl : invl_first tr + invl_second tr <= 31;
  wt_mask : forall i, 0 <= i < tr_count tr ->
    Z.land (tr_base tr + tr_step tr * i) (invl_mask tr) = 0
}.

(** The types of one container. *)
Record wf_types (tys : list id_traits) (count : Z) : Prop := {
  ty_wf : forall tr, tr ∈ tys -> wf_traits tr;
  ty_count : forall tr, tr ∈ tys -> tr_count tr = count;
  ty_inj : forall tr tr', tr ∈ tys -> tr' ∈ tys -> tr_type tr = tr_type tr' -> tr = tr'
}.

Record wf_map {A} (tys : list id_traits) (count : Z) (m : id_map A) : Prop := {
  wm_data : Z.of_nat (length (vec_data m)) = count;
  wm_keys : Z.of_nat (length (vec_keys m)) = count;
  wm_high : 0 <= highest_index m <= count;
  wm_free : forall i k, vec_keys m !! i = Some k -> m_base k = umax ->
    vec_data m !! i = Some None;
  wm_used : forall i k, vec_keys m !! i = Some k -> m_base k <> umax ->
    Z.of_nat i < highest_index m
    /\ (exists obj, vec_data m !! i = Some (Some obj))
    /\ exists tr, tr ∈ tys /\ m_base k = tr_type tr
         /\ get_index tr (m_value k) = Z.of_nat i
}.

(** ** Id arithmetic *)

Lemma mask_split x v msk :
  0 <= x < 2 ^ 32 -> 0 <= msk < 2 ^ 32 -> Z.land x msk = 0 ->
  Z.land (Z.lor x (Z.land v msk)) (lnot_w 32 msk) = x.
Proof.
  intros Hx Hm H0. apply Z.bits_inj'. intros n Hn. unfold lnot_w, wrap.
  rewrite Z.land_spec, Z.lor_spec, Z.land_spec.
  assert (E : Z.testbit (Z.land x msk) n = false) by (rewrite H0; apply Z.bits_0).
  rewrite Z.land_spec in E.
  destruct (Z.ltb_spec n 32) as [Hl|Hl].
  - rewrite Z.mod_pow2_bits_low, Z.lnot_spec by lia.
    destruct (Z.testbit x n), (Z.testbit msk n), (Z.testbit v n); done.
  - rewrite Z.mod_pow2_bits_high by lia. rewrite andb_false_r.
    symmetry. rewrite <- (Z.mod_small x (2 ^ 32)) by lia.
    apply Z.mod_pow2_bits_high. lia.
Qed.

Lemma invl_mask_range tr : 0 <= invl_mask tr < 2 ^ 32.
Proof. unfold invl_mask, shl. apply (wrap_range 32). lia. Qed.

Lemma id_in_range tr i :
  wf_traits tr -> 0 <= i < tr_count tr ->
  0 <= tr_base tr + tr_step tr * i < 2 ^ 32.
Proof. intros [] ?. nia. Qed.

(** The id of slot [i], with any counter value, names slot [i]. *)
Lemma get_index_id tr i v :
  wf_traits tr -> 0 <= i < tr_count tr ->
  get_index tr (Z.lor (tr_base tr + tr_step tr * i) (Z.land v (invl_mask tr))) = i.
Proof.
  intros Hw Hi. pose proof (id_in_range tr i Hw Hi). destruct Hw.
  unfold get_index. rewrite mask_split; [|done|apply invl_mask_range|auto].
  replace (tr_base tr + tr_step tr * i - tr_base tr) with (i * tr_step tr) by lia.
  rewrite (wrap_id 32) by (unfold urange; nia).
  rewrite Z.mod_mul, Z.div_mul by lia. done.
Qed.

Lemma get_index_id0 tr i :
  wf_traits tr -> 0 <= i < tr_count tr ->
  get_index tr (tr_base tr + tr_step tr * i) = i.
Proof.
  intros Hw Hi. pose proof (get_index_id tr i 0 Hw Hi) as E.
  by rewrite Z.land_0_l, Z.lor_0_r in E.
Qed.

Lemma bump_eq tr next v :
  wf_traits tr ->
  bump tr next v
  = Z.lor next (Z.land (wrap 32 (v + shl 32 1 (invl_first tr))) (invl_mask tr)).
Proof. intros []. unfold bump. destruct (Z.eqb_spec (invl_second tr) 0); [lia|done]. Qed.

(** Adding the counter unit flips the lowest counter bit. *)
Lemma testbit_add_pow2 v f : 0 <= f -> Z.testbit (v + 2 ^ f) f = negb (Z.testbit v f).
Proof.
  intros Hf. pose proof (pow2_pos f Hf).
  rewrite !Z.testbit_eqb by done.
  replace (v + 2 ^ f) with (v + 1 * 2 ^ f) by lia.
  rewrite Z.div_add by lia.
  pose proof (Z.mod_pos_bound (v / 2 ^ f) 2 ltac:(lia)).
  rewrite Z.add_mod by lia.
  destruct (Z.eq_dec ((v / 2 ^ f) mod 2) 0) as [->|];
    [done|]. by replace ((v / 2 ^ f) mod 2) with 1 by lia.
Qed.

Lemma invl_mask_first tr : wf_traits tr -> Z.testbit (invl_mask tr) (invl_first tr) = true.
Proof.
  intros []. unfold invl_mask, shl, wrap.
  rewrite Z.mod_pow2_bits_low, Z.shiftl_spec, Z.sub_diag by lia.
  rewrite Z.shiftl_mul_pow2, Z.mul_1_l by lia.
  rewrite (Z.mod_small (2 ^ invl_second tr)) by
    (split; [apply Z.pow_nonneg; lia|apply Z.pow_lt_mono_r; lia]).
  assert (2 ^ 1 <= 2 ^ invl_second tr < 2 ^ 32)
    by (split; [apply Z.pow_le_mono_r|apply Z.pow_lt_mono_r]; lia).
  rewrite Z.mod_small by lia.
  rewrite Z.sub_1_r, <- Z.ones_equiv. apply Z.ones_spec_low. lia.
Qed.

(** A reused slot gets an id different from the one it had. *)
Lemma bump_fresh tr i v :
  wf_traits tr -> 0 <= i < tr_count tr ->
  bump tr (tr_base tr + tr_step tr * i) v <> v.
Proof.
  intros Hw Hi Heq. pose proof (bump_eq tr (tr_base tr + tr_step tr * i) v Hw) as E.
  rewrite Heq in E. apply (f_equal (fun z => Z.testbit z (invl_first tr))) in E.
  pose proof (wt_mask _ Hw i Hi) as Hm.
  apply (f_equal (fun z => Z.testbit z (invl_first tr))) in Hm.
  pose proof (invl_mask_first tr Hw) as Hf.
  rewrite Z.land_spec, Hf, Z.bits_0, andb_true_r in Hm.
  rewrite Z.lor_spec, Hm, Z.land_spec, Hf, andb_true_r in E.
  destruct Hw. unfold wrap, shl in E.
  rewrite Z.mod_pow2_bits_low, Z.shiftl_mul_pow2, Z.mul_1_l in E by lia.
  unfold wrap in E. rewrite Z.mod_small in E by
    (split; [apply Z.pow_nonneg; lia|apply Z.pow_lt_mono_r; lia]).
  rewrite testbit_add_pow2 in E by done. cbn in E.
  destruct (Z.testbit v (invl_first tr)); done.
Qed.

(** ** Allocation *)

Definition used (k : id_key) : bool := negb (m_base k =? umax).

Lemma scan_ok tr keys i0 :
  wf_traits tr -> Z.of_nat i0 + Z.of_nat (length keys) <= tr_count tr ->
  match scan tr keys i0 (tr_base tr + tr_step tr * Z.of_nat i0) with
  | None => forall k, k ∈ keys -> used k = true
  | Some (i, id) => exists j k, i = (i0 + j)%nat /\ keys !! j = Some k /\ used k = false
      /\ id = bump tr (tr_base tr + tr_step tr * Z.of_nat i) (m_value k)
  end.
Proof.
  intros Hw. revert i0; induction keys as [|k keys IH]; intros i0 Hlen; cbn [scan].
  { intros ? []%not_elem_of_nil. }
  cbn [length] in Hlen. destruct (Z.eqb_spec (m_base k) umax) as [E|E].
  { exists 0%nat, k. rewrite Nat.add_0_r. unfold used. by rewrite E, Z.eqb_refl. }
  destruct keys as [|k' keys'] eqn:Ek.
  { cbn. intros x ->%list_elem_of_singleton. unfold used.
    by destruct (Z.eqb_spec (m_base k) umax). }
  rewrite <- Ek in *.
  replace (wrap 32 (tr_base tr + tr_step tr * Z.of_nat i0 + tr_step tr))
    with (tr_base tr + tr_step tr * Z.of_nat (S i0)).
  2: { rewrite wrap_id; [lia|]. pose proof (id_in_range tr (Z.of_nat (S i0)) Hw) as R.
       unfold urange. rewrite Nat2Z.inj_succ in R. rewrite Ek in Hlen. cbn in Hlen. lia. }
  specialize (IH (S i0)). destruct (scan _ _ _ _) as [[i id]|].
  - destruct IH as (j & x & -> & Hj & Hx & ->); [lia|].
    exists (S j), x. replace (i0 + S j)%nat with (S i0 + j)%nat by lia. done.
  - intros x Hx. apply elem_of_cons in Hx as [->|Hx]; [|apply IH; [lia|done]].
    unfold used. by destruct (Z.eqb_spec (m_base k) umax).
Qed.

(** What a successful and a failed allocation give. *)
Definition allocated (tr : id_traits) (keys : list id_key) (highest : Z)
    (dst_id : Z) (a : alloc) : Prop :=
  highest <= al_highest a <= tr_count tr
  /\ match al_slot a with
     | Some i => exists k, keys !! i = Some k /\ used k = false
         /\ Z.of_nat i < al_highest a
         /\ al_keys a = <[i := mk_key (al_id a) (tr_type tr)]> keys
         /\ get_index tr (al_id a) = Z.of_nat i
         /\ (dst_id = tr_invalid tr -> highest <= Z.of_nat i \/ al_id a <> m_value k)
     | None => al_keys a = keys
         /\ (dst_id = tr_invalid tr -> forall k, k ∈ keys -> used k = true)
     end.

Lemma allocate_ok {A} tys count (m : id_map A) tr dst_id g_id a :
  wf_types tys count -> tr ∈ tys -> wf_map tys count m ->
  allocate_id tr (vec_keys m) (highest_index m) dst_id g_id = Some a ->
  allocated tr (vec_keys m) (highest_index m) dst_id a.
Proof.
  intros Ht Hin Hm. pose proof (ty_wf _ _ Ht tr Hin) as Hw.
  pose proof (ty_count _ _ Ht tr Hin) as Hc. destruct Hm as [Hd Hk Hh Hf Hu].
  pose proof (wt_count _ Hw) as Hpos. unfold allocate_id, allocated.
  destruct (Z.eqb_spec dst_id (tr_invalid tr)) as [E|E]; cbn [negb].
  - destruct (uses_lowest_id tr) eqn:El; cbn [negb andb];
      [|destruct (Z.ltb_spec (highest_index m) (tr_count tr)) as [Hlt|Hge]].
    2: { intros [= <-]. cbn [al_highest al_slot al_keys al_id]. split; [lia|].
         destruct (lookup_lt_is_Some_2 (vec_keys m) (Z.to_nat (highest_index m)))
           as [k Ek]; [lia|].
         exists k. rewrite Z2Nat.id by lia.
         pose proof (id_in_range tr (highest_index m) Hw ltac:(lia)) as R.
         assert (EE : wrap 32 (tr_base tr + wrap 32 (tr_step tr * highest_index m))
                 = tr_base tr + tr_step tr * highest_index m).
         { pose proof (wt_base _ Hw); pose proof (wt_step _ Hw).
           assert (0 <= tr_step tr * highest_index m) by nia.
           rewrite (wrap_id 32 (tr_step tr * highest_index m)) by (unfold urange; lia).
           apply wrap_id. done. }
         rewrite EE. repeat split; try done; try lia.
         - unfold used. destruct (Z.eqb_spec (m_base k) umax) as [|N]; [done|].
           destruct (Hu _ _ Ek N) as [? _]. lia.
         - apply get_index_id0; [done|lia]. }
    all: pose proof (scan_ok tr (take (Z.to_nat (tr_count tr)) (vec_keys m)) 0 Hw) as S;
      rewrite length_take, Nat2Z.inj_0, Z.mul_0_r, Z.add_0_r in S; specialize (S ltac:(lia));
      rewrite take_ge in * by lia.
    all: destruct (scan tr (vec_keys m) 0 (tr_base tr)) as [[i id]|]; intros [= <-];
      cbn [al_highest al_slot al_keys al_id]; split; try lia; try done.
    all: destruct S as (j & k & -> & Ek & Hfree & ->); cbn [Nat.add] in *;
      pose proof (lookup_lt_Some _ _ _ Ek) as Hj; exists k;
      split; [done|]; split; [done|]; split; [lia|]; split; [done|]; split;
      [rewrite bump_eq by done; apply get_index_id; [done|lia]
      |intros _; right; apply bump_fresh; [done|lia]].
  - destruct (Z.ltb_spec (get_index tr dst_id) (tr_count tr)) as [Hlt|]; [|done].
    destruct (vec_keys m !! Z.to_nat (get_index tr dst_id)) as [k|] eqn:Ek; [|done].
    assert (Hge : 0 <= get_index tr dst_id).
    { unfold get_index. case_match; [|lia]. apply Z.div_pos; [|apply Hw].
      apply (wrap_range 32). lia. }
    fold (used k). destruct (used k) eqn:Hused; intros [= <-];
      cbn [al_highest al_slot al_keys al_id]; (split; [lia|]).
    + split; [done|]. done.
    + exists k. rewrite Z2Nat.id by lia. repeat split; try done; lia.
Qed.

(** ** The container as a map *)

Section Map.

Context {A : Type} (tys : list id_traits) (count : Z).
Context (Htys : wf_types tys count).

Implicit Types (m : id_map A) (tr : id_traits).

Lemma get_index_nonneg tr id : tr ∈ tys -> 0 <= get_index tr id.
Proof.
  intros Hin. pose proof (ty_wf _ _ Htys tr Hin) as Hw.
  unfold get_index. case_match; [|pose proof (wt_count _ Hw); lia].
  apply Z.div_pos; [|apply Hw]. apply (wrap_range 32). lia.
Qed.

(** An object is found under exactly the id and type stored in its slot. *)
Lemma find_id_slot tr m id obj :
  tr ∈ tys -> wf_map tys count m ->
  find_id tr m id = Some obj <->
  exists i, vec_keys m !! i = Some (mk_key id (tr_type tr))
       /\ vec_data m !! i = Some (Some obj).
Proof.
  intros Hin Hm. pose proof (ty_wf _ _ Htys tr Hin) as Hw.
  pose proof (get_index_nonneg tr id Hin) as Hi. unfold find_id, find_index. split.
  - case_match; [done|].
    destruct (vec_data m !! _) as [[o|]|] eqn:Ed; try done.
    destruct (vec_keys m !! _) as [[v b]|] eqn:Ek; [|done]. cbn [m_base m_value].
    pose proof (wt_second _ Hw).
    destruct (Z.eqb_spec b (tr_type tr)) as [->|]; [|done].
    destruct (Z.eqb_spec (invl_second tr) 0); [lia|].
    destruct (Z.eqb_spec v id) as [->|]; [|done].
    cbn. intros [= ->]. eauto.
  - intros (i & Hk & Hd).
    destruct (wm_used _ _ _ Hm i _ Hk) as (Hh & _ & tr' & Hin' & Ht & Hg);
      [apply Hw|]. cbn [m_base m_value] in *.
    apply (ty_inj _ _ Htys) in Ht as <-; [|done..]. rewrite Hg.
    destruct (Z.leb_spec (highest_index m) (Z.of_nat i)); [lia|].
    rewrite Nat2Z.id, Hd, Hk. cbn [m_base m_value]. rewrite !Z.eqb_refl.
    by rewrite orb_true_r.
Qed.

(** An id has one object. *)
Lemma keys_inj tr m id i j :
  tr ∈ tys -> wf_map tys count m ->
  vec_keys m !! i = Some (mk_key id (tr_type tr)) ->
  vec_keys m !! j = Some (mk_key id (tr_type tr)) -> i = j.
Proof.
  intros Hin Hm Hi Hj. pose proof (wt_type _ (ty_wf _ _ Htys tr Hin)).
  destruct (wm_used _ _ _ Hm i _ Hi) as (_ & _ & t1 & I1 & T1 & G1); [done|].
  destruct (wm_used _ _ _ Hm j _ Hj) as (_ & _ & t2 & I2 & T2 & G2); [done|].
  cbn [m_base m_value] in *.
  apply (ty_inj _ _ Htys) in T1 as <-; [|done..].
  apply (ty_inj _ _ Htys) in T2 as <-; [|done..]. lia.
Qed.

Lemma create_failed_wf m keys highest :
  wf_map tys count m -> highest_index m <= highest <= count ->
  (keys = vec_keys m
   \/ exists i k v, vec_keys m !! i = Some k /\ used k = false
                    /\ keys = <[i := mk_key v umax]> (vec_keys m)) ->
  wf_map tys count (mk_map (vec_data m) keys highest).
Proof.
  intros [Hd Hk Hh Hf Hu] Hle Hkeys.
  assert (Hsame : forall j kj, keys !! j = Some kj ->
    vec_keys m !! j = Some kj
    \/ (m_base kj = umax /\ vec_data m !! j = Some None)).
  { destruct Hkeys as [->|(i & k & v & Ei & Hfree & ->)]; [by left|].
    intros j kj. destruct (decide (i = j)) as [<-|Hne].
    - rewrite list_lookup_insert_eq by (by eapply lookup_lt_Some).
      intros [= <-]. right. split; [done|]. apply (Hf _ _ Ei).
      revert Hfree. unfold used. by destruct (Z.eqb_spec (m_base k) umax).
    - rewrite list_lookup_insert_ne by done. by left. }
  split; cbn [vec_data vec_keys highest_index]; try lia.
  - destruct Hkeys as [->|(i & k & v & _ & _ & ->)]; [done|].
    by rewrite length_insert.
  - intros j kj Ej Hb. destruct (Hsame _ _ Ej) as [E|[_ E]]; eauto.
  - intros j kj Ej Hb. destruct (Hsame _ _ Ej) as [E|[E _]]; [|done].
    destruct (Hu _ _ E Hb) as (? & ?). split; [lia|done].
Qed.

Lemma create_stored_wf m tr i id obj k highest :
  tr ∈ tys -> wf_map tys count m ->
  vec_keys m !! i = Some k -> used k = false -> get_index tr id = Z.of_nat i ->
  highest_index m <= highest <= count -> Z.of_nat i < highest ->
  let m' := mk_map (<[i := Some obj]> (vec_data m))
                   (<[i := mk_key id (tr_type tr)]> (vec_keys m)) highest in
  wf_map tys count m'.
Proof.
  intros Hin [Hd Hk Hh Hf Hu] Ei Hfree Hg Hle Hlt.
  pose proof (lookup_lt_Some _ _ _ Ei) as Hi.
  pose proof (wt_type _ (ty_wf _ _ Htys tr Hin)) as Hty.
  split; cbn [vec_data vec_keys highest_index]; rewrite ?length_insert; try lia.
  - intros j kj. destruct (decide (i = j)) as [<-|Hne].
    + rewrite list_lookup_insert_eq by done. by intros [= <-].
    + rewrite !list_lookup_insert_ne by done. apply Hf.
  - intros j kj. destruct (decide (i = j)) as [<-|Hne].
    + rewrite !list_lookup_insert_eq by lia. intros [= <-] _.
      split; [lia|]. split; [by eexists|]. by exists tr.
    + rewrite !list_lookup_insert_ne by done. intros Ej Hb.
      destruct (Hu _ _ Ej Hb) as (? & ?). split; [lia|done].
Qed.

Lemma erase_wf m i :
  wf_map tys count m -> wf_map tys count (erase_slot m i).
Proof.
  intros [Hd Hk Hh Hf Hu].
  split; cbn [erase_slot vec_data vec_keys highest_index];
    rewrite ?length_insert, ?length_alter; try lia.
  - intros j kj. destruct (decide (i = j)) as [<-|Hne].
    + rewrite list_lookup_alter_eq. intros E _.
      apply list_lookup_insert_eq. apply fmap_Some in E as (k & Ek & _).
      apply lookup_lt_Some in Ek. lia.
    + rewrite list_lookup_alter_ne, list_lookup_insert_ne by done. apply Hf.
  - intros j kj. destruct (decide (i = j)) as [<-|Hne].
    + rewrite list_lookup_alter_eq. intros E Hb.
      apply fmap_Some in E as (k & _ & ->). by destruct Hb.
    + rewrite list_lookup_alter_ne, list_lookup_insert_ne by done. apply Hu.
Qed.


(** Lookups after storing an object in a free slot. *)
Lemma create_stored_find m tr tr' i id id' obj k highest :
  tr ∈ tys -> tr' ∈ tys -> wf_map tys count m ->
  vec_keys m !! i = Some k -> used k = false -> get_index tr id = Z.of_nat i ->
  highest_index m <= highest <= count -> Z.of_nat i < highest ->
  find_id tr' (mk_map (<[i := Some obj]> (vec_data m))
                   (<[i := mk_key id (tr_type tr)]> (vec_keys m)) highest) id'
  = if (tr_type tr' =? tr_type tr) && (id' =? id) then Some obj else find_id tr' m id'.
Proof.
  intros Hin Hin' Hm Ei Hfree Hg Hle Hlt.
  pose proof (create_stored_wf m tr i id obj k highest Hin Hm Ei Hfree Hg Hle Hlt) as Hm'.
  pose proof (lookup_lt_Some _ _ _ Ei) as Hi.
  pose proof (wt_type _ (ty_wf _ _ Htys tr' Hin')) as Hty.
  pose proof (wm_data _ _ _ Hm). pose proof (wm_keys _ _ _ Hm).
  apply option_eq. intros o. rewrite find_id_slot by done.
  cbn [vec_data vec_keys]. split.
  - intros (j & Hk & Hd). destruct (decide (i = j)) as [<-|Hne].
    + rewrite list_lookup_insert_eq in Hk by lia.
      rewrite list_lookup_insert_eq in Hd by lia.
      injection Hk as -> ->. injection Hd as ->. by rewrite !Z.eqb_refl.
    + rewrite list_lookup_insert_ne in Hk by done.
      rewrite list_lookup_insert_ne in Hd by done.
      destruct ((_ =? _) && _) eqn:E.
      * apply andb_prop in E as [E1%Z.eqb_eq E2%Z.eqb_eq]. exfalso.
        destruct (wm_used _ _ _ Hm j _ Hk) as (_ & _ & t & It & Tt & Gt); [done|].
        cbn [m_base m_value] in *. rewrite E1 in Tt.
        apply (ty_inj _ _ Htys) in Tt as <-; [|done..]. subst. lia.
      * apply find_id_slot; eauto.
  - destruct ((_ =? _) && _) eqn:E.
    + apply andb_prop in E as [->%Z.eqb_eq ->%Z.eqb_eq]. intros [= ->].
      exists i. by rewrite !list_lookup_insert_eq by lia.
    + intros (j & Hk & Hd)%find_id_slot; [|done..]. exists j.
      assert (i <> j) as Hne.
      { intros <-. rewrite Ei in Hk. injection Hk as ->. revert Hfree. unfold used.
        cbn. by destruct (Z.eqb_spec (tr_type tr') umax). }
      by rewrite !list_lookup_insert_ne.
Qed.

Lemma create_failed_find m tr' keys highest id' :
  tr' ∈ tys -> wf_map tys count m -> highest_index m <= highest <= count ->
  (keys = vec_keys m
   \/ exists i k v, vec_keys m !! i = Some k /\ used k = false
                    /\ keys = <[i := mk_key v umax]> (vec_keys m)) ->
  find_id tr' (mk_map (vec_data m) keys highest) id' = find_id tr' m id'.
Proof.
  intros Hin Hm Hle Hkeys.
  pose proof (create_failed_wf m keys highest Hm Hle Hkeys) as Hm'.
  pose proof (wt_type _ (ty_wf _ _ Htys tr' Hin)) as Hty.
  apply option_eq. intros o. rewrite !find_id_slot by done. cbn [vec_data vec_keys].
  destruct Hkeys as [->|(i & k & v & Ei & Hfree & ->)]; [done|].
  pose proof (lookup_lt_Some _ _ _ Ei) as Hi.
  apply exist_proper. intros j. destruct (decide (i = j)) as [<-|Hne].
  - rewrite list_lookup_insert_eq, Ei by done. split; intros [E _]; exfalso.
    + by injection E as ? ?.
    + injection E as ->. revert Hfree. unfold used. cbn.
      by destruct (Z.eqb_spec (tr_type tr') umax).
  - by rewrite list_lookup_insert_ne.
Qed.

Lemma erase_find m tr tr' id id' obj :
  tr ∈ tys -> tr' ∈ tys -> wf_map tys count m -> find_id tr m id = Some obj ->
  find_id tr' (erase_slot m (Z.to_nat (get_index tr id))) id'
  = if (tr_type tr' =? tr_type tr) && (id' =? id) then None else find_id tr' m id'.
Proof.
  intros Hin Hin' Hm Hfind.
  pose proof (erase_wf m (Z.to_nat (get_index tr id)) Hm) as Hm'.
  pose proof (wt_type _ (ty_wf _ _ Htys tr' Hin')) as Hty'.
  apply (find_id_slot tr m id obj Hin Hm) in Hfind as (i & Hk & Hd).
  assert (Hi : Z.to_nat (get_index tr id) = i).
  { destruct (wm_used _ _ _ Hm i _ Hk) as (_ & _ & t & It & Tt & Gt);
      [apply (wt_type _ (ty_wf _ _ Htys tr Hin))|].
    cbn [m_base m_value] in *. apply (ty_inj _ _ Htys) in Tt as <-; [|done..]. lia. }
  rewrite Hi in *. apply option_eq. intros o. rewrite find_id_slot by done.
  cbn [erase_slot vec_data vec_keys]. split.
  - intros (j & Hkj & Hdj). destruct (decide (i = j)) as [<-|Hne].
    { rewrite list_lookup_alter_eq, Hk in Hkj. injection Hkj as _ E.
      by destruct Hty'. }
    rewrite list_lookup_alter_ne in Hkj by done.
    rewrite list_lookup_insert_ne in Hdj by done.
    destruct ((_ =? _) && _) eqn:E.
    + apply andb_prop in E as [E1%Z.eqb_eq E2%Z.eqb_eq]. exfalso. apply Hne.
      rewrite E1, E2 in Hkj. by eapply (keys_inj tr m id).
    + apply find_id_slot; eauto.
  - destruct ((_ =? _) && _) eqn:E; [done|].
    intros (j & Hkj & Hdj)%find_id_slot; [|done..]. exists j.
    assert (i <> j) as Hne.
    { intros <-. rewrite Hk in Hkj. injection Hkj as -> Et.
      by rewrite Et, !Z.eqb_refl in E. }
    by rewrite list_lookup_alter_ne, list_lookup_insert_ne.
Qed.

Lemma update_find m tr tr' id id' obj obj' :
  tr ∈ tys -> tr' ∈ tys -> wf_map tys count m -> find_id tr m id = Some obj ->
  let m' := mk_map (<[Z.to_nat (get_index tr id) := Some obj']> (vec_data m))
              (vec_keys m) (highest_index m) in
  wf_map tys count m'
  /\ find_id tr' m' id'
    = if (tr_type tr' =? tr_type tr) && (id' =? id) then Some obj' else find_id tr' m id'.
Proof.
  intros Hin Hin' Hm Hfind m'.
  apply (find_id_slot tr m id obj Hin Hm) in Hfind as (i & Hk & Hd).
  pose proof (wt_type _ (ty_wf _ _ Htys tr Hin)) as Hty.
  assert (Hi : Z.to_nat (get_index tr id) = i).
  { destruct (wm_used _ _ _ Hm i _ Hk) as (_ & _ & t & It & Tt & Gt); [done|].
    cbn [m_base m_value] in *. apply (ty_inj _ _ Htys) in Tt as <-; [|done..]. lia. }
  unfold m'. rewrite Hi. clear m' Hi. pose proof (lookup_lt_Some _ _ _ Hd) as Hlen.
  assert (Hm' : wf_map tys count (mk_map (<[i := Some obj']> (vec_data m))
              (vec_keys m) (highest_index m))).
  { destruct Hm as [Hd' Hk' Hh Hf Hu]. split; cbn [vec_data vec_keys highest_index];
      rewrite ?length_insert; try done.
    - intros j kj Ej Hb. destruct (decide (i = j)) as [<-|Hne].
      + rewrite Hk in Ej. by injection Ej as <-.
      + rewrite list_lookup_insert_ne by done. eauto.
    - intros j kj Ej Hb. destruct (Hu _ _ Ej Hb) as (? & ? & ?).
      split; [done|]. split; [|done]. destruct (decide (i = j)) as [<-|Hne].
      + eexists. by apply list_lookup_insert_eq.
      + by rewrite list_lookup_insert_ne. }
  split; [done|]. apply option_eq. intros o. rewrite find_id_slot by done.
  cbn [vec_data vec_keys]. split.
  - intros (j & Hkj & Hdj). destruct (decide (i = j)) as [<-|Hne].
    + rewrite list_lookup_insert_eq in Hdj by done. rewrite Hk in Hkj.
      injection Hkj as -> Et. injection Hdj as ->. by rewrite Et, !Z.eqb_refl.
    + rewrite list_lookup_insert_ne in Hdj by done.
      destruct ((_ =? _) && _) eqn:E; [|apply find_id_slot; eauto].
      apply andb_prop in E as [E1%Z.eqb_eq E2%Z.eqb_eq]. exfalso. apply Hne.
      rewrite E1, E2 in Hkj. by eapply (keys_inj tr m id).
  - destruct ((_ =? _) && _) eqn:E.
    + apply andb_prop in E as [->%Z.eqb_eq ->%Z.eqb_eq]. intros [= ->].
      exists i. by rewrite list_lookup_insert_eq.
    + intros (j & Hkj & Hdj)%find_id_slot; [|done..]. exists j.
      assert (i <> j) as Hne.
      { intros <-. rewrite Hk in Hkj. injection Hkj as -> Et.
        by rewrite Et, !Z.eqb_refl in E. }
      by rewrite list_lookup_insert_ne.
Qed.

(** No object is found under an id whose slot is free. *)
Lemma free_slot_find m tr id i k :
  tr ∈ tys -> wf_map tys count m ->
  vec_keys m !! i = Some k -> used k = false -> get_index tr id = Z.of_nat i ->
  find_id tr m id = None.
Proof.
  intros Hin Hm Ek Hfree Hg. destruct (find_id tr m id) as [o|] eqn:Ef; [|done].
  exfalso. apply (find_id_slot tr m _ o Hin Hm) in Ef as (j & Hk & Hd).
  pose proof (wt_type _ (ty_wf _ _ Htys tr Hin)) as Hty.
  destruct (wm_used _ _ _ Hm j _ Hk) as (_ & _ & t & It & Tt & Gt); [done|].
  cbn [m_base m_value] in *. apply (ty_inj _ _ Htys) in Tt as <-; [|done..].
  assert (i = j) as <- by lia. rewrite Ek in Hk. injection Hk as ->.
  revert Hfree. unfold used. cbn. by destruct (Z.eqb_spec (tr_type tr) umax).
Qed.

(** A found object sits in a slot below the count. *)
Lemma check_id_find m tr id :
  tr ∈ tys -> wf_map tys count m -> check_id tr m id = find_id tr m id.
Proof.
  intros Hin Hm. unfold check_id. destruct (Z.leb_spec (tr_count tr) (get_index tr id)); [|done].
  unfold find_id, find_index. pose proof (wm_high _ _ _ Hm).
  rewrite (ty_count _ _ Htys tr Hin) in *. by destruct (Z.leb_spec (highest_index m) (get_index tr id)); [|lia].
Qed.

End Map.

Lemma empty_map_wf {A} tys (n : nat) : wf_map (A := A) tys (Z.of_nat n) (empty_map n).
Proof.
  split; cbn [empty_map vec_data vec_keys highest_index];
    rewrite ?length_replicate; try lia.
  - intros i k (-> & Hi)%lookup_replicate _. by apply lookup_replicate_2.
  - intros i k (-> & Hi)%lookup_replicate []. done.
Qed.

Lemma lv2_traits_wf base :
  0 <= base <= 0xff000000 -> base mod 256 = 0 -> wf_traits (lv2_traits base).
Proof.
  intros Hb Hm. split; unfold lv2_traits, umax; cbn [tr_base tr_step tr_count tr_type
    invl_first invl_second]; try lia.
  intros i Hi. change (invl_mask _) with (Z.ones 8). rewrite Z.land_ones by lia.
  change (2 ^ 8) with 256. rewrite (Z.mul_comm 256), Z.mod_add by lia. done.
Qed.

Lemma lv2_types_wf bases :
  Forall (fun b => 0 <= b <= 0xff000000 /\ b mod 256 = 0) bases ->
  wf_types (lv2_traits <$> bases) 8192.
Proof.
  intros Hf. split.
  - intros tr (b & -> & Hb)%list_elem_of_fmap.
    eapply list.Forall_forall in Hf as [? ?]; [|exact Hb]. by apply lv2_traits_wf.
  - by intros tr (b & -> & Hb)%list_elem_of_fmap.
  - intros tr tr' (b & -> & Hb)%list_elem_of_fmap (b' & -> & Hb')%list_elem_of_fmap.
    cbn. by intros ->.
Qed.

(** ** Properties *)

(** Idm::create_id, on a well-formed container with the types [tys], never
    fails an [ensure] when the id is not fixed, keeps the container well formed
    and implements insertion into a map from (type, id) to objects: if it
    returns an object, that object is the provider's, its id was free, and a
    lookup afterwards finds the object under exactly this id and type and
    answers every other lookup as before; if it returns null, every lookup is as
    before, and with a provider that gives an object this happens (for ids that
    are not fixed) only when every slot holds an object. *)
Theorem create_id_refines {A} (tys : list id_traits) (count : Z) (m : id_map A)
    (tr : id_traits) (provider : option A) (dst_id g_id : Z) :
  wf_types tys count -> tr ∈ tys -> wf_map tys count m ->
  (dst_id = tr_invalid tr -> is_Some (create_id tr m provider dst_id g_id))
  /\ forall m' r id, create_id tr m provider dst_id g_id = Some (m', r, id) ->
     wf_map tys count m'
     /\ match r with
        | Some obj => provider = Some obj /\ find_id tr m id = None
            /\ forall tr' id', tr' ∈ tys ->
                 find_id tr' m' id'
                 = if (tr_type tr' =? tr_type tr) && (id' =? id) then Some obj
                   else find_id tr' m id'
        | None => (forall tr' id', tr' ∈ tys -> find_id tr' m' id' = find_id tr' m id')
            /\ (dst_id = tr_invalid tr -> is_Some provider ->
                 forall i d, vec_data m !! i = Some d -> is_Some d)
        end.
Proof.
  intros Ht Hin Hm. split.
  - intros ->. unfold create_id, allocate_id. rewrite Z.eqb_refl. cbn [negb].
    destruct (negb _ && _); [cbn; destruct provider; eauto|].
    destruct (scan _ _ _ _) as [[i id]|]; cbn; destruct provider; eauto.
  - intros m' r id. unfold create_id.
    destruct (allocate_id _ _ _ _ _) as [a|] eqn:Ea; [|done].
    pose proof (allocate_ok tys count m tr dst_id g_id a Ht Hin Hm Ea) as [Hh Hs].
    rewrite (ty_count _ _ Ht tr Hin) in Hh.
    destruct (al_slot a) as [i|].
    + destruct Hs as (k & Ek & Hfree & Hlt & Hkeys & Hg & _). rewrite Hkeys.
      destruct provider as [obj|]; intros [= <- <- <-].
      * split; [by eapply create_stored_wf|]. split; [done|]. split.
        -- by eapply free_slot_find.
        -- intros tr' id' Hin'. by eapply create_stored_find.
      * rewrite list_insert_insert_eq.
        assert (K : exists i0 k0 v, vec_keys m !! i0 = Some k0 /\ used k0 = false
          /\ <[i:=empty_key]> (vec_keys m) = <[i0 := mk_key v umax]> (vec_keys m))
          by (exists i, k, 0; done).
        split; [eapply create_failed_wf; eauto|]. split; [|by intros _ [? ?]].
        intros tr' id' Hin'. eapply create_failed_find; eauto.
    + destruct Hs as [Hkeys Hfull]. intros [= <- <- <-]. rewrite Hkeys.
      split; [eapply create_failed_wf; eauto|]. split.
      * intros tr' id' Hin'. eapply create_failed_find; eauto.
      * intros Hd _ i d Hi. pose proof (lookup_lt_Some _ _ _ Hi) as Hl.
        pose proof (wm_data _ _ _ Hm). pose proof (wm_keys _ _ _ Hm).
        destruct (lookup_lt_is_Some_2 (vec_keys m) i) as [k Ek]; [lia|].
        specialize (Hfull Hd k (list_elem_of_lookup_2 _ _ _ Ek)).
        destruct (wm_used _ _ _ Hm i k Ek) as (_ & [o Ho] & _).
        { revert Hfull. unfold used. by destruct (Z.eqb_spec (m_base k) umax). }
        rewrite Ho in Hi. injection Hi as <-. eauto.
Qed.

(** The containers of the witnesses: mutexes (0x85000000) and semaphores
    (0x96000000) share slots, as under lv2_obj; sixteen of
    them are enough here. *)
Definition small_traits (base : Z) : id_traits :=
  mk_traits base 0x100 16 false 0 8 base.

Definition sample_types : list id_traits := small_traits <$> [0x85000000; 0x96000000].

Lemma sample_types_wf : wf_types sample_types 16.
Proof.
  split.
  - intros tr (b & -> & Hb)%list_elem_of_fmap.
    pose proof (lv2_traits_wf b) as H.
    assert (0 <= b <= 0xff000000 /\ b mod 256 = 0) as [B1 B2].
    { set_unfold in Hb. by destruct_or! Hb; subst. }
    destruct (H B1 B2). split; try done; try (cbn; lia).
    intros i Hi. apply wt_mask0. cbn in *. lia.
  - by intros tr (b & -> & Hb)%list_elem_of_fmap.
  - intros tr tr' (b & -> & Hb)%list_elem_of_fmap (b' & -> & Hb')%list_elem_of_fmap.
    cbn. by intros ->.
Qed.

Lemma sample_types_sema : small_traits 0x96000000 ∈ sample_types.
Proof. unfold sample_types. cbn. set_solver. Qed.

Lemma create_id_refines_witness :
  exists m', create_id (small_traits 0x96000000) (empty_map 16) (Some 7) 0 0
       = Some (m', Some 7, 0x96000000)
  /\ find_id (small_traits 0x96000000) m' 0x96000000 = Some 7
  /\ find_id (small_traits 0x96000000) m' 0x96000001 = None.
Proof.
  destruct (create_id_refines sample_types 16 (empty_map 16)
    (small_traits 0x96000000) (Some 7) 0 0 sample_types_wf sample_types_sema
    (empty_map_wf sample_types 16)) as [[[[m' r] id] E] H]; [reflexivity|].
  specialize (H m' r id E). pose proof E as E'. vm_compute in E'.
  assert (Er : r = Some 7 /\ id = 0x96000000) by (by injection E' as _ <- <-).
  destruct Er as [-> ->]. clear E'. exists m'. split; [exact E|].
  destruct H as (_ & _ & _ & H).
  split; rewrite H by exact sample_types_sema; reflexivity.
Defined.

(** Idm::withdraw with a predicate implements lookup, conditional update
    and deletion of the map: an id that names no object changes nothing; when
    the predicate reports an error the object stays, as the predicate left it;
    otherwise exactly this id stops naming an object.  The container stays
    well formed. *)
Theorem withdraw_refines {A E} (tys : list id_traits) (count : Z) (m : id_map A)
    (tr : id_traits) (id : Z) (func : A -> A * option E) :
  wf_types tys count -> tr ∈ tys -> wf_map tys count m ->
  let '(m', r) := withdraw tr m id func in
  wf_map tys count m'
  /\ match find_id tr m id with
     | None => r = None /\ m' = m
     | Some obj => r = Some (func obj)
         /\ forall tr' id', tr' ∈ tys -> find_id tr' m' id'
              = if (tr_type tr' =? tr_type tr) && (id' =? id) then
                  match func obj with (obj', Some _) => Some obj' | (_, None) => None end
                else find_id tr' m id'
     end.
Proof.
  intros Ht Hin Hm. unfold withdraw. rewrite (check_id_find tys count) by done.
  destruct (find_id tr m id) as [obj|] eqn:Ef; [|done].
  destruct (func obj) as [obj' [e|]].
  - split; [by eapply update_find|]. split; [done|]. intros tr' id' Hin'.
    by eapply (update_find tys count Ht m tr tr' id id' obj obj').
  - split; [by apply erase_wf|]. split; [done|]. intros tr' id' Hin'.
    by eapply (erase_find tys count Ht).
Qed.

(** A container with one semaphore. *)
Definition sample_map : id_map Z :=
  match create_id (small_traits 0x96000000) (empty_map 16) (Some 7) 0 0 with
  | Some (m, _, _) => m
  | None => empty_map 16
  end.

Lemma sample_map_wf : wf_map sample_types 16 sample_map.
Proof.
  eapply (create_stored_wf sample_types 16 sample_types_wf (empty_map 16)
    (small_traits 0x96000000) 0 0x96000000 7 empty_key 1);
    try reflexivity; try (vm_compute; split; discriminate).
  - exact sample_types_sema.
  - exact (empty_map_wf sample_types 16).
Qed.

Lemma withdraw_refines_witness :
  find_id (small_traits 0x96000000)
    (fst (withdraw (E := Z) (small_traits 0x96000000) sample_map 0x96000000 (fun x => (x, None))))
    0x96000000 = None.
Proof.
  pose proof (withdraw_refines (E := Z) sample_types 16 sample_map
    (small_traits 0x96000000) 0x96000000 (fun x => (x, None)) sample_types_wf
    sample_types_sema sample_map_wf) as H.
  destruct (withdraw _ _ _ _) as [m' r]. destruct H as [_ H].
  replace (find_id _ sample_map _) with (Some 7) in H by (vm_compute; reflexivity).
  destruct H as [_ H]. cbn [fst]. rewrite H by exact sample_types_sema. reflexivity.
Defined.

(** A stale id does not name the next object of its slot: after an object
    is removed, the id of the object created next (at no fixed id) differs
    from the removed one, and the removed id still names nothing. *)
Theorem stale_id_not_reused {A} (tys : list id_traits) (count : Z) (m m2 : id_map A)
    (tr : id_traits) (id id2 g_id : Z) (old obj : A) :
  wf_types tys count -> tr ∈ tys -> wf_map tys count m ->
  find_id tr m id = Some old ->
  create_id tr (fst (remove_id tr m id)) (Some obj) (tr_invalid tr) g_id
    = Some (m2, Some obj, id2) ->
  id2 <> id /\ find_id tr m2 id = None /\ find_id tr m2 id2 = Some obj.
Proof.
  intros Ht Hin Hm Hf. unfold remove_id. rewrite Hf. cbn [fst].
  set (m1 := erase_slot _ _). intros Hc.
  assert (Hm1 : wf_map tys count m1) by by apply erase_wf.
  pose proof (erase_find tys count Ht m tr tr id id old Hin Hin Hm Hf) as Hgone.
  rewrite !Z.eqb_refl in Hgone. cbn [andb] in Hgone. fold m1 in Hgone.
  unfold create_id in Hc. destruct (allocate_id _ _ _ _ _) as [a|] eqn:Ea; [|done].
  pose proof (allocate_ok tys count m1 tr _ g_id a Ht Hin Hm1 Ea) as [Hh Hs].
  rewrite (ty_count _ _ Ht tr Hin) in Hh.
  destruct (al_slot a) as [i|]; [|done]. destruct Hs as (k & Ek & Hfree & Hlt & Hkeys & Hg & Hnew).
  rewrite Hkeys in Hc. injection Hc as <- <-.
  assert (Hne : al_id a <> id).
  { intros Heq. specialize (Hnew eq_refl).
    apply (find_id_slot tys count Ht tr m id old Hin Hm) in Hf as (j & Hk & Hd).
    destruct (wm_used _ _ _ Hm j _ Hk) as (Hj & _ & t & It & Tt & Gt);
      [apply (wt_type _ (ty_wf _ _ Ht tr Hin))|].
    cbn [m_base m_value] in *. apply (ty_inj _ _ Ht) in Tt as <-; [|done..].
    assert (i = j) as -> by (rewrite <- Heq in Gt; lia).
    destruct Hnew as [Hhi|Hv]; [cbn in Hhi; lia|]. apply Hv.
    unfold m1 in Ek. cbn [erase_slot vec_keys] in Ek. rewrite Gt, Nat2Z.id in Ek.
    rewrite list_lookup_alter_eq, Hk in Ek. injection Ek as <-. done. }
  split; [done|].
  split; rewrite (create_stored_find tys count Ht m1 tr tr i _ _ obj k) by done;
    rewrite !Z.eqb_refl; [|done].
  destruct (Z.eqb_spec id (al_id a)) as [E|]; [by destruct Hne|done].
Qed.

Lemma stale_id_not_reused_witness :
  exists m2, create_id (small_traits 0x96000000)
      (fst (remove_id (small_traits 0x96000000) sample_map 0x96000000)) (Some 8) 0 0
    = Some (m2, Some 8, 0x96000100)
  /\ find_id (small_traits 0x96000000) m2 0x96000000 = None.
Proof.
  destruct (create_id (small_traits 0x96000000)
      (fst (remove_id (small_traits 0x96000000) sample_map 0x96000000)) (Some 8) 0 0)
    as [[[m2 r] id2]|] eqn:E; [|vm_compute in E; discriminate].
  pose proof E as E'. vm_compute in E'.
  assert (Er : r = Some 8 /\ id2 = 0x96000100) by (by injection E' as _ <- <-).
  destruct Er as [-> ->]. exists m2. split; [done|].
  destruct (stale_id_not_reused sample_types 16 sample_map m2 (small_traits 0x96000000)
    0x96000000 0x96000100 0 7 8 sample_types_wf sample_types_sema sample_map_wf)
    as (_ & H & _); [vm_compute; reflexivity|exact E|exact H].
Defined.

(** A full container (every slot used once) but for slot 0. *)
Definition full_map : id_map Z :=
  mk_map (None :: replicate 8191 (Some 0))
    (empty_key :: map (fun i => mk_key (0x96000000 + 0x100 * Z.of_nat i) 0x96000000)
                    (seq 1 8191)) 8192.

Definition steps (fail_between : bool) : option (Z * Z * option Z) :=
  let tr := lv2_traits 0x96000000 in
  '(m1, _, id1) ← create_id tr full_map (Some 7) 0 0;
  let m2 := fst (remove_id tr m1 id1) in
  '(m3, _, _) ← (if fail_between then create_id tr m2 None 0 0
                 else Some (m2, None, 0));
  '(m4, _, id2) ← create_id tr m3 (Some 8) 0 0;
  Some (id1, id2, find_id tr m4 id1).

(** The reuse counter is lost when a creation fails after its id was
    allocated ( *key_ptr = {} in create_id): with every other slot taken,
    creating 7, destroying it and creating 8 gives 8 a new id and the old one
    names nothing; with one failed creation in between, 8 gets the id of 7,
    which names 8 from then on. *)
Theorem failed_create_reuses_id :
  steps false = Some (0x96000001, 0x96000002, None)
  /\ steps true = Some (0x96000001, 0x96000001, Some 8).
Proof. split; vm_compute; reflexivity. Qed.
