(* ===== verification/Lv2Obj.v ===== *)
(** * LV2 kernel objects: the sleep queues of lv2_obj

    kernel/cellos/include/cellos/sys_sync.h.  Every LV2 synchronisation
    object keeps its sleeping threads in a singly linked list threaded through
    [ppu_thread::next_cpu]; [first] points to the thread that was enqueued
    last.  The file models the list as the code has it, as pointers into the
    shared store of threads, with [unqueue], [schedule] and [emplace] as the
    loops of the header, and proves that they implement removal, selection
    and insertion on the list of waiting threads.  The cpu_flag bit set of
    rpcs3/Emu/CPU/CPUThread.h and the error codes the kernel files use are
    here too. *)

From stdpp Require Import base numbers list gmap tactics.
From Stdlib Require Import Lia.
From S2P Require Import Prelude.

Open Scope Z_scope.

(** ** Error codes and attribute constants *)

Inductive error_code :=
| CELL_OK | CELL_EAGAIN | CELL_EINVAL | CELL_ESRCH | CELL_EDEADLK | CELL_EPERM
| CELL_EBUSY | CELL_ETIMEDOUT | CELL_EFAULT | CELL_EKRESOURCE | CELL_EEXIST
| CELL_ECANCELED | CELL_EISCONN | CELL_ENOTCONN | CELL_ENOENT.

#[global] Instance error_code_eq_dec : EqDecision error_code.
Proof. solve_decision. Defined.

(** The value a syscall leaves in gpr[3]. *)
Definition error_value (e : error_code) : Z :=
  match e with
  | CELL_OK => 0
  | CELL_EAGAIN => 0x80010001
  | CELL_EINVAL => 0x80010002
  | CELL_ESRCH => 0x80010005
  | CELL_ENOENT => 0x80010006
  | CELL_EDEADLK => 0x80010008
  | CELL_EPERM => 0x80010009
  | CELL_EBUSY => 0x8001000A
  | CELL_ETIMEDOUT => 0x8001000B
  | CELL_EFAULT => 0x8001000D
  | CELL_EKRESOURCE => 0x80010011
  | CELL_ECANCELED => 0x80010013
  | CELL_EEXIST => 0x80010014
  | CELL_EISCONN => 0x80010015
  | CELL_ENOTCONN => 0x80010016
  end.

Definition SYS_SYNC_FIFO : Z := 0x1.
Definition SYS_SYNC_PRIORITY : Z := 0x2.
Definition SYS_SYNC_PRIORITY_INHERIT : Z := 0x3.
Definition SYS_SYNC_RETRY : Z := 0x4.
Definition SYS_SYNC_RECURSIVE : Z := 0x10.
Definition SYS_SYNC_NOT_RECURSIVE : Z := 0x20.
Definition SYS_SYNC_PROCESS_SHARED : Z := 0x100.
Definition SYS_SYNC_NOT_PROCESS_SHARED : Z := 0x200.
Definition SYS_SYNC_NEWLY_CREATED : Z := 0x1.
Definition SYS_SYNC_NOT_CREATE : Z := 0x2.
Definition SYS_SYNC_NOT_CARE : Z := 0x3.

(** ** cpu_flag

    A thread's [state] is a bit set; the enumerators are bit positions. *)
Inductive cpu_flag :=
| cf_stop | cf_exit | cf_wait | cf_temp | cf_pause | cf_suspend | cf_ret
| cf_again | cf_signal | cf_memory | cf_pending | cf_pending_recheck
| cf_notify | cf_yield | cf_preempt | cf_req_exit | cf_dbg_global_pause
| cf_dbg_pause | cf_dbg_step.

Definition flag_bit (f : cpu_flag) : Z :=
  match f with
  | cf_stop => 0 | cf_exit => 1 | cf_wait => 2 | cf_temp => 3 | cf_pause => 4
  | cf_suspend => 5 | cf_ret => 6 | cf_again => 7 | cf_signal => 8
  | cf_memory => 9 | cf_pending => 10 | cf_pending_recheck => 11
  | cf_notify => 12 | cf_yield => 13 | cf_preempt => 14 | cf_req_exit => 15
  | cf_dbg_global_pause => 16 | cf_dbg_pause => 17 | cf_dbg_step => 18
  end.

Definition has_flag (f : cpu_flag) (st : Z) : bool := Z.testbit st (flag_bit f).

Definition add_flag (f : cpu_flag) (st : Z) : Z := Z.setbit st (flag_bit f).

Definition del_flag (f : cpu_flag) (st : Z) : Z := Z.clearbit st (flag_bit f).

(** is_stopped(state): any of stop, exit, again, req_exit. *)
Definition is_stopped (st : Z) : bool :=
  has_flag cf_stop st || has_flag cf_exit st || has_flag cf_again st
  || has_flag cf_req_exit st.

(** is_paused(state). *)
Definition is_paused (st : Z) : bool :=
  (has_flag cf_suspend st || has_flag cf_dbg_global_pause st
   || has_flag cf_dbg_pause st) && negb (is_stopped st).

(** ** Threads and the store

    A thread pointer is an address in the store; [None] is [nullptr]. *)
Abbreviation tid := positive.
Abbreviation ptr := (option tid).

(** The fields of ppu_thread the kernel objects use: the 32-bit [id], the
    queue link, the three members of [ppu_prio_t], the flags and gpr[3]. *)
Record ppu_thread := mk_thread {
  th_id : Z;
  next_cpu : ptr;
  prio : Z;
  order : Z;
  preserve_bit : bool;
  th_state : Z;
  gpr3 : Z
}.

Definition set_next (p : ptr) (t : ppu_thread) : ppu_thread :=
  mk_thread (th_id t) p (prio t) (order t) (preserve_bit t) (th_state t) (gpr3 t).

Definition set_state (f : Z -> Z) (t : ppu_thread) : ppu_thread :=
  mk_thread (th_id t) (next_cpu t) (prio t) (order t) (preserve_bit t)
    (f (th_state t)) (gpr3 t).

Definition set_gpr3 (e : error_code) (t : ppu_thread) : ppu_thread :=
  mk_thread (th_id t) (next_cpu t) (prio t) (order t) (preserve_bit t)
    (th_state t) (error_value e).

(** cpu_flag::again - state: the flag is absent. *)
Definition again (t : ppu_thread) : bool := has_flag cf_again (th_state t).

Abbreviation store := (gmap tid ppu_thread).

(** A queue in the store: the head slot of the object and the threads. *)
Record queue := mk_queue { first : ptr; threads : store }.

(** The places a queue pointer can live in: the object's head slot or the link
    of a thread ([parent_found] in schedule). *)
Inductive slot :=
| s_first
| s_next (t : tid).

(** atomic_storage<T>::release( *slot, v). *)
Definition release (q : queue) (s : slot) (v : ptr) : queue :=
  match s with
  | s_first => mk_queue v (threads q)
  | s_next t => mk_queue (first q) (alter (set_next v) t (threads q))
  end.

(** The loops below dereference store pointers; [None] is a dangling pointer
    or a list longer than the store (a cycle). *)
Abbreviation run A := (option A).

(** *** unqueue *)

Fixpoint unqueue_loop (fuel : nat) (ModifyNode : bool) (q : queue)
    (object : tid) (it : ptr) : run (ptr * queue) :=
  match it with
  | None => Some (None, q)
  | Some c =>
      match fuel with
      | O => None
      | S fuel' =>
          n ← threads q !! c;
          let next := next_cpu n in
          if decide (next = Some object) then
            o ← threads q !! object;
            let q1 := release q (s_next c) (next_cpu o) in
            Some (Some object,
                  if ModifyNode then release q1 (s_next object) None else q1)
          else unqueue_loop fuel' ModifyNode q object next
      end
  end.

(** Find and remove the object from the linked list. *)
Definition unqueue (ModifyNode : bool) (q : queue) (object : tid)
    : run (ptr * queue) :=
  if decide (first q = Some object) then
    o ← threads q !! object;
    let q1 := release q s_first (next_cpu o) in
    Some (Some object,
          if ModifyNode then release q1 (s_next object) None else q1)
  else unqueue_loop (size (threads q)) ModifyNode q object (first q).

(** *** schedule *)

(** The FIFO branch: walk to the end of the list. *)
Fixpoint fifo_loop (fuel : nat) (q : queue) (it : tid) (parent_found : slot)
    : run (ptr * queue) :=
  match fuel with
  | O => None
  | S fuel' =>
      n ← threads q !! it;
      match next_cpu n with
      | Some next => fifo_loop fuel' q next (s_next it)
      | None =>
          Some (Some it, if again n then q else release q parent_found None)
      end
  end.

(** The test of the priority branch. *)
Definition prio_before (a b : ppu_thread) : bool :=
  (prio a <? prio b) || ((prio a =? prio b) && (order a <? order b)).

(** The priority branch: [found] is the best thread so far, [best] the value
    of its prio when it was read. *)
Fixpoint prio_loop (fuel : nat) (q : queue) (it found : tid)
    (parent_found : slot) (best : ppu_thread) : run (tid * slot) :=
  match fuel with
  | O => None
  | S fuel' =>
      n ← threads q !! it;
      match next_cpu n with
      | None => Some (found, parent_found)
      | Some next =>
          m ← threads q !! next;
          if prio_before m best
          then prio_loop fuel' q next next (s_next it) m
          else prio_loop fuel' q next found parent_found best
      end
  end.

(** Remove an object from the linked set according to the protocol. *)
Definition schedule (q : queue) (protocol : Z) (modify_node : bool)
    : run (ptr * queue) :=
  match first q with
  | None => Some (None, q)
  | Some it =>
      if protocol =? SYS_SYNC_FIFO
      then fifo_loop (size (threads q)) q it s_first
      else
        n ← threads q !! it;
        r ← prio_loop (size (threads q)) q it it s_first n;
        let '(found, parent_found) := r in
        f ← threads q !! found;
        Some (Some found,
              if again f then q
              else
                let q1 := release q parent_found (next_cpu f) in
                if modify_node then release q1 (s_next found) None else q1)
  end.

(** *** emplace *)

(** The atomic_op on prio: a thread restored from a savestate keeps its
    order once, any other takes the new tag (a 50-bit field). *)
Definition stamp (tag : Z) (t : ppu_thread) : ppu_thread :=
  if preserve_bit t
  then mk_thread (th_id t) (next_cpu t) (prio t) (order t) false (th_state t) (gpr3 t)
  else mk_thread (th_id t) (next_cpu t) (prio t) (sext 50 tag) (preserve_bit t)
         (th_state t) (gpr3 t).

(** [tag] is the value of ++g_priority_order_tag. *)
Definition emplace (q : queue) (object : tid) (tag : Z) : queue :=
  let q1 := release q (s_next object) (first q) in
  let q2 := release q1 s_first (Some object) in
  mk_queue (first q2) (alter (stamp tag) object (threads q2)).

(** *** Walks over a queue

    for (auto cpu = +sq; cpu; cpu = cpu->next_cpu) if (...) ...: does a thread
    of the queue satisfy the test? *)
Fixpoint any_loop (fuel : nat) (f : tid -> ppu_thread -> bool) (h : store) (it : ptr)
    : run bool :=
  match it with
  | None => Some false
  | Some c =>
      match fuel with
      | O => None
      | S fuel' =>
          n ← h !! c;
          if f c n then Some true else any_loop fuel' f h (next_cpu n)
      end
  end.

Definition any_waiting (f : tid -> ppu_thread -> bool) (q : queue) : run bool :=
  any_loop (size (threads q)) f (threads q) (first q).

(** The two tests the kernel files use. *)
Definition is_again (_ : tid) (n : ppu_thread) : bool := again n.

Definition is_thread (t : tid) (c : tid) (_ : ppu_thread) : bool := bool_decide (c = t).

(** *** Draining a queue

    while (auto cpu = schedule(q, SYS_SYNC_FIFO)) append(cpu): the queue left
    and the threads in the order they were taken; [None] when [fuel] rounds
    do not end the loop. *)
Fixpoint drain_loop (fuel : nat) (q : queue) (taken : list tid) : run (queue * list tid) :=
  match fuel with
  | O => None
  | S fuel' =>
      '(r, q') ← schedule q SYS_SYNC_FIFO true;
      match r with
      | None => Some (q', taken)
      | Some t => drain_loop fuel' q' (taken ++ [t])
      end
  end.

Definition drain (q : queue) : run (queue * list tid) :=
  drain_loop (S (size (threads q))) q [].

(** What a region ends with: the syscall returns, the thread sleeps, the
    syscall is left to be restarted (cpu_flag::again), a compare-and-swap
    failed and the syscall goes on, or an ensure failed or a loop over a queue
    does not end. *)
Inductive reply :=
| Returned (e : error_code)
| Blocked
| Again
| Retry
| Fatal.

#[global] Instance reply_eq_dec : EqDecision reply.
Proof. solve_decision. Defined.

(** ** The list a queue represents *)

Fixpoint seg (h : store) (p : ptr) (l : list tid) : Prop :=
  match l with
  | [] => p = None
  | x :: l' => p = Some x /\ exists n, h !! x = Some n /\ seg h (next_cpu n) l'
  end.

Definition waits (q : queue) (l : list tid) : Prop := seg (threads q) (first q) l.

(** Only links of the threads in [l] differ between the two stores. *)
Definition relinked (l : list tid) (h h' : store) : Prop :=
  forall t, set_next None <$> h' !! t = set_next None <$> h !! t
       /\ (t ∉ l -> h' !! t = h !! t).

(** The link that points to the element after [l1]. *)
Definition slot_before (l1 : list tid) : slot :=
  match list.last l1 with None => s_first | Some y => s_next y end.

Section Seg.

Implicit Types (h : store) (l : list tid) (q : queue).

Lemma seg_app h p l1 x l2 :
  seg h p (l1 ++ x :: l2) -> seg h (Some x) (x :: l2).
Proof.
  revert p; induction l1 as [|y l1 IH]; intros p; cbn [app].
  - intros Hs. pose proof Hs as [-> _]. exact Hs.
  - intros (_ & n & _ & Hs). exact (IH _ Hs).
Qed.

Lemma seg_inj h p l l' : seg h p l -> seg h p l' -> l = l'.
Proof.
  revert p l'; induction l as [|x l IH]; intros p [|y l']; cbn; try done.
  - by intros -> [? _].
  - by intros [-> _] ?.
  - intros (-> & n & Hn & Hs) ([= ->] & n' & Hn' & Hs'). simplify_eq.
    f_equal. eauto.
Qed.

Lemma seg_NoDup h p l : seg h p l -> NoDup l.
Proof.
  revert p; induction l as [|x l IH]; intros p Hs; [constructor|].
  pose proof Hs as (-> & n & Hn & Ht). constructor; [|eauto].
  intros (l1 & l2 & ->)%list_elem_of_split.
  pose proof (seg_app _ _ _ _ _ Ht) as Hx.
  pose proof (seg_inj _ _ _ _ Hs Hx) as Heq.
  apply (f_equal length) in Heq. cbn in Heq. rewrite length_app in Heq.
  cbn in Heq. lia.
Qed.

Lemma seg_dom h p l x : seg h p l -> x ∈ l -> is_Some (h !! x).
Proof.
  intros Hs (l1 & l2 & ->)%list_elem_of_split.
  apply seg_app in Hs. destruct Hs as (_ & n & Hn & _). eauto.
Qed.

(** A chain is never longer than the store, so the store's size is enough
    fuel for every walk. *)
Lemma seg_length h p l : seg h p l -> (length l <= size h)%nat.
Proof.
  intros Hs. pose proof (seg_NoDup _ _ _ Hs) as Hnd.
  rewrite <- (size_list_to_set (C := gset tid)) by done.
  rewrite <- size_dom. apply subseteq_size. intros x Hx.
  apply elem_of_dom. eapply seg_dom; [done|]. set_solver.
Qed.

Lemma seg_frame h h' p l :
  (forall t, t ∈ l -> h' !! t = h !! t) -> seg h p l -> seg h' p l.
Proof.
  revert p; induction l as [|x l IH]; intros p Heq; cbn; [done|].
  intros (-> & n & Hn & Hs). split; [done|]. exists n.
  rewrite Heq by set_solver. split; [done|]. apply IH; set_solver.
Qed.

Lemma seg_alter h p l x f :
  x ∉ l -> seg h p l -> seg (alter f x h) p l.
Proof.
  intros Hx. apply seg_frame. intros t Ht.
  apply lookup_alter_ne. set_solver.
Qed.

(** Changing fields other than the link keeps every chain. *)
Lemma seg_alter_data h p l x f :
  (forall t, next_cpu (f t) = next_cpu t) -> seg h p l -> seg (alter f x h) p l.
Proof.
  intros Hf. revert p; induction l as [|y l IH]; intros p; cbn; [done|].
  intros (-> & n & Hn & Hs). split; [done|].
  destruct (decide (x = y)) as [->|Hne].
  - exists (f n). rewrite lookup_alter_eq, Hn, Hf. auto.
  - exists n. rewrite lookup_alter_ne by done. auto.
Qed.

(** Redirecting the link of [y] replaces what follows it. *)
Lemma seg_redirect h p l1 y l2 v l3 :
  seg h p (l1 ++ y :: l2) -> y ∉ l3 -> seg h v l3 ->
  seg (alter (set_next v) y h) p (l1 ++ y :: l3).
Proof.
  revert p; induction l1 as [|z l1 IH]; intros p Hs Hy Hv.
  - destruct Hs as (-> & n & Hn & _). cbn. split; [done|].
    exists (set_next v n). rewrite lookup_alter_eq, Hn. split; [done|].
    by apply seg_alter.
  - pose proof (seg_NoDup _ _ _ Hs) as Hnd.
    destruct Hs as (-> & n & Hn & Hs). cbn [app] in Hnd |- *.
    split; [done|]. exists n.
    rewrite lookup_alter_ne by (inversion Hnd; set_solver). eauto.
Qed.

#[global] Instance relinked_refl l : Reflexive (relinked l).
Proof. by intros h t. Qed.

#[global] Instance relinked_trans l : Transitive (relinked l).
Proof.
  intros h1 h2 h3 H12 H23 t. destruct (H12 t) as [E1 F1], (H23 t) as [E2 F2].
  split; [congruence|]. intros Ht. rewrite F2, F1; auto.
Qed.

Lemma relinked_mono l l' h h' :
  (forall t, t ∈ l -> t ∈ l') -> relinked l h h' -> relinked l' h h'.
Proof. intros Hsub H t. destruct (H t) as [E F]. split; [done|]. auto. Qed.

Lemma relinked_alter l h x v :
  x ∈ l -> relinked l h (alter (set_next v) x h).
Proof.
  intros Hx t. destruct (decide (t = x)) as [->|Hne].
  - rewrite lookup_alter_eq. split; [|done]. by destruct (h !! x).
  - by rewrite lookup_alter_ne by done.
Qed.

Lemma relinked_lookup l h h' t n :
  relinked l h h' -> h !! t = Some n ->
  exists p, h' !! t = Some (set_next p n).
Proof.
  intros H Hn. destruct (H t) as [E _]. rewrite Hn in E.
  destruct (h' !! t) as [n'|]; [|done]. cbn in E.
  exists (next_cpu n'). destruct n, n'. unfold set_next in *. cbn in *. congruence.
Qed.

Lemma release_links q s v l :
  match s with s_first => True | s_next t => t ∈ l end ->
  relinked l (threads q) (threads (release q s v)).
Proof. destruct s; [done|]. apply relinked_alter. Qed.

(** Storing the successor of [x] in the slot before it removes [x]. *)
Lemma release_splice q l1 x l2 n :
  waits q (l1 ++ x :: l2) -> threads q !! x = Some n ->
  let q' := release q (slot_before l1) (next_cpu n) in
  waits q' (l1 ++ l2) /\ relinked (l1 ++ x :: l2) (threads q) (threads q').
Proof.
  unfold waits, slot_before. intros Hs Hn.
  pose proof (seg_NoDup _ _ _ Hs) as Hnd.
  pose proof (seg_app _ _ _ _ _ Hs) as (_ & n' & Hn' & Ht). simplify_eq.
  destruct (list.last l1) as [y|] eqn:Hl.
  - apply last_Some in Hl as [l0 ->]. cbn [release threads first].
    rewrite <- !app_assoc in *. cbn [app] in *. split.
    + eapply seg_redirect; [exact Hs| |exact Ht].
      apply list.NoDup_app in Hnd as (_ & _ & Hnd). inversion Hnd; set_solver.
    + apply relinked_alter. set_solver.
  - apply last_None in Hl as ->. cbn. done.
Qed.

Lemma release_detach q l x v :
  x ∉ l -> waits q l -> waits (release q (s_next x) v) l.
Proof. apply seg_alter. Qed.

End Seg.

(** ** What the queue operations do to the list *)

(** The list without [x] (a queue holds a thread at most once). *)
Definition without (x : tid) (l : list tid) : list tid := filter (fun y => y <> x) l.

(** [x] left the queue [l]: the others keep their order, no other field of any
    thread changes, and the link of [x] is reset when the operation says so. *)
Record removed (reset : bool) (q : queue) (l : list tid) (x : tid) (q' : queue)
  : Prop := {
  rm_waits : waits q' (without x l);
  rm_links : relinked l (threads q) (threads q');
  rm_node : exists n, threads q !! x = Some n
      /\ threads q' !! x = Some (set_next (if reset then None else next_cpu n) n)
}.

Lemma without_notin x l : x ∉ l -> without x l = l.
Proof.
  unfold without. induction l as [|y l IH]; intros Hx; [done|].
  rewrite filter_cons_True by set_solver. f_equal. apply IH. set_solver.
Qed.

Lemma without_split l1 x l2 :
  NoDup (l1 ++ x :: l2) -> without x (l1 ++ x :: l2) = l1 ++ l2.
Proof.
  intros Hnd. apply list.NoDup_app in Hnd as (_ & Hd & Hnd).
  inversion Hnd as [|? ? Hx _]; subst. unfold without.
  rewrite list.filter_app, filter_cons_False by tauto.
  f_equal; apply without_notin; set_solver.
Qed.

Lemma without_elem_of x y l : y ∈ without x l <-> y ∈ l /\ y <> x.
Proof. unfold without. rewrite list_elem_of_filter. tauto. Qed.

Lemma slot_before_frame q l1 x v :
  x ∉ l1 -> threads (release q (slot_before l1) v) !! x = threads q !! x.
Proof.
  unfold slot_before. destruct (list.last l1) as [y|] eqn:E; [|done].
  apply last_Some in E as [l0 ->]. intros Hx. cbn.
  apply lookup_alter_ne. set_solver.
Qed.

Lemma removal_ok (reset : bool) q l1 x l2 n :
  waits q (l1 ++ x :: l2) -> threads q !! x = Some n ->
  let q1 := release q (slot_before l1) (next_cpu n) in
  removed reset q (l1 ++ x :: l2) x
    (if reset then release q1 (s_next x) None else q1).
Proof.
  intros Hw Hn q1. pose proof (seg_NoDup _ _ _ Hw) as Hnd.
  destruct (release_splice _ _ _ _ _ Hw Hn) as [Hw1 Hl1]. fold q1 in Hw1, Hl1.
  assert (Hx : (x ∉ l1) /\ (x ∉ l2)).
  { apply list.NoDup_app in Hnd as (_ & ? & Hnd). inversion Hnd; set_solver. }
  assert (Hn1 : threads q1 !! x = Some n).
  { unfold q1. rewrite slot_before_frame; tauto. }
  split; rewrite ?without_split by done.
  - destruct reset; [|done]. apply release_detach; [set_solver|done].
  - destruct reset; [|done]. etransitivity; [exact Hl1|].
    apply release_links. set_solver.
  - exists n. split; [done|]. destruct reset.
    + cbn. by rewrite lookup_alter_eq, Hn1.
    + rewrite Hn1. by destruct n.
Qed.

Lemma unqueue_loop_ok fuel mn q l1 c l2 x :
  waits q (l1 ++ c :: l2) -> x <> c -> x ∉ l1 -> (length l2 < fuel)%nat ->
  (x ∉ l2 -> unqueue_loop fuel mn q x (Some c) = Some (None, q))
  /\ (x ∈ l2 -> exists q', unqueue_loop fuel mn q x (Some c) = Some (Some x, q')
                 /\ removed mn q (l1 ++ c :: l2) x q').
Proof.
  revert l1 c l2; induction fuel as [|fuel IH]; intros l1 c l2 Hw Hxc Hx Hf; [lia|].
  pose proof (seg_app _ _ _ _ _ Hw) as (_ & n & Hn & Hs).
  cbn [unqueue_loop]. rewrite Hn. cbn [mbind option_bind].
  destruct l2 as [|d l2].
  { cbn in Hs. rewrite Hs, decide_False by done.
    split; [by destruct fuel|intros []%not_elem_of_nil]. }
  destruct Hs as (-> & m & Hm & Hs).
  destruct (decide (x = d)) as [<-|Hne].
  - rewrite decide_True by done. rewrite Hm. cbn [mbind option_bind].
    split; [set_solver|]. intros _. eexists. split; [reflexivity|].
    pose proof (removal_ok mn q (l1 ++ [c]) x l2 m) as Hr.
    unfold slot_before in Hr. rewrite last_snoc, <- app_assoc in Hr. by apply Hr.
  - rewrite decide_False by congruence.
    assert (Hw' : waits q ((l1 ++ [c]) ++ d :: l2)) by by rewrite <- app_assoc.
    cbn in Hf. destruct (IH _ _ _ Hw' Hne) as [I1 I2]; [set_solver|lia|].
    rewrite <- app_assoc in I2. cbn [app] in I2. split.
    + intros ?. apply I1. set_solver.
    + intros ?. apply I2. set_solver.
Qed.

Lemma unqueue_ok mn q l x :
  waits q l ->
  (x ∉ l -> unqueue mn q x = Some (None, q))
  /\ (x ∈ l -> exists q', unqueue mn q x = Some (Some x, q') /\ removed mn q l x q').
Proof.
  intros Hw. unfold unqueue. pose proof (seg_length _ _ _ Hw) as Hlen.
  destruct l as [|c l].
  { unfold waits in Hw. cbn in Hw. rewrite Hw, decide_False by done.
    split; [by destruct (size _)|intros []%not_elem_of_nil]. }
  pose proof Hw as (Hf & n & Hn & _).
  destruct (decide (x = c)) as [->|Hne].
  - rewrite decide_True, Hn by done. cbn [mbind option_bind].
    split; [set_solver|]. intros _. eexists. split; [reflexivity|].
    exact (removal_ok mn q [] c l n Hw Hn).
  - rewrite decide_False by congruence. rewrite Hf.
    pose proof (unqueue_loop_ok (size (threads q)) mn q [] c l x Hw Hne) as [A B];
      [set_solver|cbn in Hlen; lia|].
    split; [intros; apply A|intros; apply B]; set_solver.
Qed.

Lemma fifo_loop_ok fuel q l1 c l2 :
  waits q (l1 ++ c :: l2) -> (length l2 < fuel)%nat ->
  exists x n, list.last (c :: l2) = Some x /\ threads q !! x = Some n
    /\ exists q', fifo_loop fuel q c (slot_before l1) = Some (Some x, q')
    /\ (if again n then q' = q else removed true q (l1 ++ c :: l2) x q').
Proof.
  revert l1 c l2; induction fuel as [|fuel IH]; intros l1 c l2 Hw Hf; [lia|].
  pose proof (seg_app _ _ _ _ _ Hw) as (_ & n & Hn & Hs).
  cbn [fifo_loop]. rewrite Hn. cbn [mbind option_bind].
  destruct l2 as [|d l2].
  - cbn in Hs. rewrite Hs. exists c, n. split; [done|]. split; [done|].
    eexists. split; [reflexivity|]. destruct (again n); [done|].
    pose proof (removal_ok false q l1 c [] n Hw Hn) as [R1 R2 R3].
    rewrite Hs in R1, R2, R3. split; [done..|].
    destruct R3 as (k & Hk & E). simplify_eq. exists n. by rewrite <- Hs at 2.
  - destruct Hs as (-> & m & Hm & Hs). cbn in Hf.
    assert (Hw' : waits q ((l1 ++ [c]) ++ d :: l2)) by by rewrite <- app_assoc.
    destruct (IH _ _ _ Hw') as (x & k & Hl & Hk & q' & E & R); [lia|].
    unfold slot_before in E at 1. rewrite last_snoc in E.
    rewrite <- app_assoc in R.
    exists x, k. split; [done|]. split; [done|]. eauto.
Qed.

(** [best] is before every thread of the prefix walked so far. *)
Definition least (h : store) (l : list tid) (x : tid) : Prop :=
  exists n, h !! x = Some n
    /\ forall y m, y ∈ l -> h !! y = Some m -> prio_before m n = false.

Lemma prio_before_trans_false a b c :
  prio_before a b = true -> prio_before c b = false -> prio_before c a = false.
Proof. unfold prio_before. intros. zbool; lia || done. Qed.

Lemma prio_loop_ok fuel q a f b c l2 n :
  waits q (a ++ f :: b ++ l2) -> list.last (f :: b) = Some c ->
  threads q !! f = Some n -> (length l2 < fuel)%nat ->
  (forall y m, y ∈ a ++ f :: b -> threads q !! y = Some m -> prio_before m n = false) ->
  exists a' x b', a ++ f :: b ++ l2 = a' ++ x :: b'
    /\ prio_loop fuel q c f (slot_before a) n = Some (x, slot_before a')
    /\ least (threads q) (a ++ f :: b ++ l2) x.
Proof.
  revert a f b c l2 n; induction fuel as [|fuel IH];
    intros a f b c l2 n Hw Hc Hn Hf Hmin; [lia|].
  apply last_Some in Hc as [w Hw'].
  assert (Hw2 : waits q ((a ++ w) ++ c :: l2)).
  { rewrite <- app_assoc. change (c :: l2) with ([c] ++ l2).
    rewrite (app_assoc w), <- Hw'. done. }
  pose proof (seg_app _ _ _ _ _ Hw2) as (_ & k & Hk & Hs).
  cbn [prio_loop]. rewrite Hk. cbn [mbind option_bind].
  destruct l2 as [|d l2].
  { cbn in Hs. rewrite Hs, app_nil_r in *. exists a, f, b.
    split; [done|]. split; [done|]. exists n. auto. }
  destruct Hs as (-> & m & Hm & _). rewrite Hm. cbn [mbind option_bind].
  cbn in Hf. destruct (prio_before m n) eqn:E.
  - destruct (IH (a ++ f :: b) d [] d l2 m) as (a' & x & b' & E1 & E2 & E3);
      try done.
    + rewrite <- app_assoc. done.
    + lia.
    + intros y k' Hy Hk'. apply elem_of_app in Hy as [Hy|Hy].
      * eapply prio_before_trans_false; eauto.
      * apply list_elem_of_singleton in Hy as ->. simplify_eq.
        unfold prio_before. zbool; lia || done.
    + rewrite <- app_assoc in E1, E3. exists a', x, b'. repeat split; try done.
      rewrite <- E2. f_equal. unfold slot_before. rewrite Hw', app_assoc, last_snoc.
      done.
  - destruct (IH a f (b ++ [d]) d l2 n) as (a' & x & b' & E1 & E2 & E3); try done.
    + rewrite <- app_assoc. done.
    + rewrite app_comm_cons, last_snoc. done.
    + lia.
    + intros y k' Hy Hk'. rewrite app_comm_cons, app_assoc in Hy.
      apply elem_of_app in Hy as [Hy|Hy]; [eauto|].
      apply list_elem_of_singleton in Hy as ->. simplify_eq. done.
    + rewrite <- app_assoc in E1, E3. eauto 10.
Qed.

Lemma any_loop_ok fuel f h p l :
  seg h p l -> (length l <= fuel)%nat ->
  exists b, any_loop fuel f h p = Some b
    /\ (b = true <-> exists x n, x ∈ l /\ h !! x = Some n /\ f x n = true).
Proof.
  revert fuel p; induction l as [|c l IH]; intros fuel p Hs Hf.
  - cbn in Hs. subst p. exists false. split; [by destruct fuel|].
    split; [done|]. intros (x & n & []%not_elem_of_nil & _).
  - destruct Hs as (-> & n & Hn & Hs). destruct fuel as [|fuel]; [cbn in Hf; lia|].
    cbn [any_loop]. rewrite Hn. cbn [mbind option_bind].
    destruct (f c n) eqn:E.
    + exists true. split; [done|]. split; [|done]. intros _. exists c, n.
      split; [left|done].
    + destruct (IH fuel (next_cpu n) Hs) as (b & Eb & Hb); [cbn in Hf; lia|].
      exists b. split; [done|]. rewrite Hb. split.
      * intros (x & k & Hx & Hk & Hfx). exists x, k. split; [by right|done].
      * intros (x & k & Hx & Hk & Hfx). apply elem_of_cons in Hx as [->|Hx]; [congruence|].
        eauto.
Qed.

Lemma any_waiting_ok f q l :
  waits q l ->
  exists b, any_waiting f q = Some b
    /\ (b = true <-> exists x n, x ∈ l /\ threads q !! x = Some n /\ f x n = true).
Proof. intros Hw. apply any_loop_ok; [exact Hw|by eapply seg_length]. Qed.

Lemma any_waiting_thread q l t :
  waits q l -> any_waiting (is_thread t) q = Some (bool_decide (t ∈ l)).
Proof.
  intros Hw. destruct (any_waiting_ok (is_thread t) q l Hw) as (b & -> & Hb).
  f_equal. destruct b.
  - destruct (proj1 Hb eq_refl) as (x & n & Hx & _ & Hf).
    unfold is_thread in Hf. apply bool_decide_eq_true in Hf as ->.
    by rewrite bool_decide_true.
  - rewrite bool_decide_false; [done|]. intros Ht.
    destruct (seg_dom _ _ _ _ Hw Ht) as [n Hn].
    enough (false = true) by done. apply Hb. exists t, n. split; [done|].
    split; [done|]. unfold is_thread. by apply bool_decide_eq_true.
Qed.

(** The thread [schedule] selects from the list [l] (most recent first). *)
Definition selects (h : store) (protocol : Z) (l : list tid) (x : tid) : Prop :=
  if protocol =? SYS_SYNC_FIFO then list.last l = Some x
  else x ∈ l /\ least h l x.

Lemma schedule_ok protocol mn q l :
  waits q l ->
  (l = [] -> schedule q protocol mn = Some (None, q))
  /\ (l <> [] -> exists x n q',
        schedule q protocol mn = Some (Some x, q')
        /\ selects (threads q) protocol l x /\ threads q !! x = Some n
        /\ (if again n then q' = q
            else removed (mn || (protocol =? SYS_SYNC_FIFO)) q l x q')).
Proof.
  intros Hw. pose proof (seg_length _ _ _ Hw) as Hlen. unfold schedule.
  destruct l as [|c l].
  { unfold waits in Hw. cbn in Hw. by rewrite Hw. }
  split; [done|]. intros _. pose proof Hw as (Hf & n & Hn & _).
  rewrite Hf. cbn in Hlen. unfold selects.
  destruct (protocol =? SYS_SYNC_FIFO).
  - destruct (fifo_loop_ok (size (threads q)) q [] c l Hw) as
      (x & k & E1 & E2 & q' & E3 & R); [lia|].
    exists x, k, q'. rewrite orb_true_r. done.
  - rewrite Hn. cbn [mbind option_bind].
    destruct (prio_loop_ok (size (threads q)) q [] c [] c l n Hw)
      as (a & x & b & E1 & E2 & E3); try done.
    { intros y m Hy Hm. apply list_elem_of_singleton in Hy as ->. simplify_eq.
      unfold prio_before. zbool; lia || done. }
    change (s_first) with (slot_before []). rewrite E2. cbn [mbind option_bind].
    cbn [app] in E1, E3. destruct E3 as (k & Hk & Hmin). rewrite Hk.
    cbn [mbind option_bind]. exists x, k. eexists. split; [reflexivity|].
    rewrite E1. split; [split; [set_solver|]|split; [done|]].
    { exists k. rewrite <- E1. auto. }
    rewrite orb_false_r. destruct (again k); [done|].
    apply removal_ok; [by rewrite <- E1|done].
Qed.

Lemma emplace_ok q l x n tag :
  waits q l -> x ∉ l -> threads q !! x = Some n ->
  let q' := emplace q x tag in
  waits q' (x :: l)
  /\ threads q' !! x = Some (stamp tag (set_next (first q) n))
  /\ (forall t, t <> x -> threads q' !! t = threads q !! t).
Proof.
  intros Hw Hx Hn. unfold emplace. cbn [release first threads].
  assert (E : alter (stamp tag) x (alter (set_next (first q)) x (threads q)) !! x
              = Some (stamp tag (set_next (first q) n))).
  { by rewrite !lookup_alter_eq, Hn. }
  split; [|split; [exact E|]].
  - split; [done|]. eexists. split; [exact E|].
    replace (next_cpu _) with (first q)
      by (unfold stamp; cbn; by destruct (preserve_bit n)).
    by apply seg_alter, seg_alter.
  - intros t Ht. cbn [threads]. by rewrite !lookup_alter_ne.
Qed.

(** *** Frames shared by the objects *)

Lemma relinked_dom l h h' : relinked l h h' -> dom h' = dom h.
Proof.
  intros H. apply set_eq. intros t. rewrite !elem_of_dom. destruct (H t) as [E _].
  destruct (h !! t), (h' !! t); try done; split; by intros [? ?].
Qed.

Lemma emplace_dom q x tag : dom (threads (emplace q x tag)) = dom (threads q).
Proof. unfold emplace. cbn. by rewrite !dom_alter_L. Qed.

Lemma length_without x l : NoDup l -> x ∈ l -> length l = S (length (without x l)).
Proof.
  intros Hnd (l1 & l2 & ->)%list_elem_of_split.
  rewrite without_split, !length_app by done. cbn. lia.
Qed.

Lemma without_nil_iff x l : NoDup l -> x ∈ l -> without x l = [] <-> length l = 1%nat.
Proof.
  intros Hnd Hx. rewrite (length_without x l Hnd Hx). split.
  - by intros ->.
  - intros [= E]. by apply length_zero_iff_nil in E.
Qed.

Lemma prio_before_links a b p q :
  prio_before (set_next p a) (set_next q b) = prio_before a b.
Proof. done. Qed.

Lemma least_relinked l h h' l' x : relinked l h h' -> least h l' x -> least h' l' x.
Proof.
  intros H (n & Hn & Hmin). destruct (relinked_lookup _ _ _ _ _ H Hn) as [p Hp].
  exists (set_next p n). split; [done|]. intros y m Hy Hm.
  destruct (H y) as [E _]. rewrite Hm in E.
  destruct (h !! y) as [m0|] eqn:Em; [|done]. specialize (Hmin y m0 Hy Em).
  destruct (relinked_lookup _ _ _ _ _ H Em) as [r Hr]. simplify_eq. done.
Qed.

Lemma relinked_sym l h h' : relinked l h h' -> relinked l h' h.
Proof. intros H t. destruct (H t) as [E F]. split; [done|]. intros Ht. by rewrite F. Qed.

Lemma selects_relinked l h h' p l' x :
  relinked l h h' -> selects h p l' x <-> selects h' p l' x.
Proof.
  intros H. unfold selects. destruct (p =? SYS_SYNC_FIFO); [done|].
  split; intros [? ?]; (split; [done|]); eapply least_relinked; eauto using relinked_sym.
Qed.

Lemma selects_elem h p l x : selects h p l x -> x ∈ l.
Proof.
  unfold selects. destruct (p =? SYS_SYNC_FIFO); [|by intros [? _]].
  intros (l' & ->)%last_Some. set_solver.
Qed.

(** The threads that [n] calls of schedule select, one after the other. *)
Fixpoint picks (h : store) (p : Z) (l ws l' : list tid) : Prop :=
  match ws with
  | [] => l' = l
  | x :: ws' => selects h p l x /\ picks h p (without x l) ws' l'
  end.

Lemma picks_relinked l0 h h' p l ws l' :
  relinked l0 h h' -> picks h p l ws l' <-> picks h' p l ws l'.
Proof.
  intros H. revert l; induction ws as [|x ws IH]; intros l; cbn; [done|].
  by rewrite selects_relinked, IH by done.
Qed.

Lemma picks_elem h p l ws l' x :
  picks h p l ws l' -> x ∈ l <-> x ∈ ws \/ x ∈ l'.
Proof.
  revert l; induction ws as [|y ws IH]; intros l; cbn.
  - intros ->. set_solver.
  - intros [Hs Hp]. apply selects_elem in Hs. specialize (IH _ Hp).
    rewrite without_elem_of in IH. destruct (decide (x = y)) as [->|]; set_solver.
Qed.

Lemma picks_disjoint h p l ws l' x : picks h p l ws l' -> x ∈ ws -> x ∉ l'.
Proof.
  revert l; induction ws as [|y ws IH]; intros l; cbn; [by intros _ ?%not_elem_of_nil|].
  intros [Hs Hp] [->|Hx]%elem_of_cons; [|by eapply IH].
  intros Hl'. assert (Hy : y ∈ without y l).
  { apply (picks_elem _ _ _ _ _ y Hp). by right. }
  by apply without_elem_of in Hy as [_ []].
Qed.

Lemma picks_NoDup h p l ws l' : picks h p l ws l' -> NoDup ws.
Proof.
  revert l; induction ws as [|y ws IH]; intros l; cbn; [constructor|].
  intros [Hs Hp]. constructor; [|by eapply IH]. intros Hy.
  assert (Hy' : y ∈ without y l) by (apply (picks_elem _ _ _ _ _ y Hp); by left).
  by apply without_elem_of in Hy' as [_ []].
Qed.

Lemma picks_length h p l ws l' :
  NoDup l -> picks h p l ws l' -> length l = (length ws + length l')%nat.
Proof.
  revert l; induction ws as [|y ws IH]; intros l Hnd; cbn; [by intros ->|].
  intros [Hs Hp]. apply selects_elem in Hs.
  rewrite (length_without y l), (IH (without y l)); try done.
  by apply list.NoDup_filter.
Qed.

(** The selection depends on the waiting threads' own fields only. *)
Definition agree (l : list tid) (h h' : store) : Prop :=
  forall y, y ∈ l -> set_next None <$> h' !! y = set_next None <$> h !! y.

Lemma selects_agree l h h' p x : agree l h h' -> selects h p l x -> selects h' p l x.
Proof.
  intros Ha. unfold selects. destruct (p =? SYS_SYNC_FIFO); [done|].
  intros (Hx & n & Hn & Hmin). split; [done|]. pose proof (Ha x Hx) as E. rewrite Hn in E.
  destruct (h' !! x) as [n'|] eqn:Hn'; [|done]. exists n'. split; [done|].
  intros y m' Hy Hm'. pose proof (Ha y Hy) as Ey. rewrite Hm' in Ey.
  destruct (h !! y) as [m|] eqn:Hm; [|done]. specialize (Hmin y m Hy Hm).
  cbn in E, Ey. apply (inj Some) in E, Ey.
  change (prio_before (set_next None m') (set_next None n') = false). by rewrite E, Ey.
Qed.

Lemma agree_without l h h' x : agree l h h' -> agree (without x l) h h'.
Proof. intros Ha y [Hy _]%without_elem_of. auto. Qed.

Lemma picks_agree l h h' p ws l' : agree l h h' -> picks h p l ws l' -> picks h' p l ws l'.
Proof.
  revert l; induction ws as [|x ws IH]; intros l Ha; cbn; [done|].
  intros [Hs Hp]. split; [by eapply selects_agree|]. apply IH; [by apply agree_without|done].
Qed.

Definition no_again (h : store) (l : list tid) : Prop :=
  forall x m, x ∈ l -> h !! x = Some m -> again m = false.

Lemma no_again_relinked l0 h h' l l' :
  relinked l0 h h' -> (forall x, x ∈ l' -> x ∈ l) -> no_again h l -> no_again h' l'.
Proof.
  intros H Hsub Hn x m Hx Hm.
  destruct (relinked_lookup _ _ _ _ _ (relinked_sym _ _ _ H) Hm) as [p Hp].
  exact (Hn x _ (Hsub x Hx) Hp).
Qed.

(** The queue is emptied, oldest thread first. *)
Lemma drain_loop_ok fuel q l taken :
  waits q l -> no_again (threads q) l -> (length l < fuel)%nat ->
  exists q', drain_loop fuel q taken = Some (q', taken ++ rev l)
    /\ waits q' [] /\ relinked l (threads q) (threads q').
Proof.
  revert fuel q taken; induction l as [|x l IH] using rev_ind; intros fuel q taken Hw Ha Hf;
    (destruct fuel as [|fuel]; [lia|]); cbn [drain_loop].
  { destruct (schedule_ok SYS_SYNC_FIFO true q [] Hw) as [-> _]; [|done].
    exists q. cbn. rewrite app_nil_r. by repeat split. }
  destruct (schedule_ok SYS_SYNC_FIFO true q (l ++ [x]) Hw) as [_ S].
  destruct S as (y & n & q' & -> & Hsel & Hn & R); [by destruct l|].
  cbn in Hsel. rewrite last_snoc in Hsel. injection Hsel as <-.
  rewrite (Ha x n) in R by set_solver. destruct R as [R1 R2 _].
  rewrite without_split, app_nil_r in R1 by exact (seg_NoDup _ _ _ Hw).
  rewrite length_app in Hf. cbn [length] in Hf. cbn [mbind option_bind].
  destruct (IH fuel q' (taken ++ [x])) as (q2 & E & W1 & W2).
  - done.
  - eapply no_again_relinked; [exact R2| |exact Ha]. set_solver.
  - lia.
  - exists q2. rewrite E, rev_app_distr, <- app_assoc. cbn. split; [done|]. split; [done|].
    etransitivity; [exact R2|]. eapply relinked_mono; [|exact W2]. set_solver.
Qed.

Lemma drain_ok q l :
  waits q l -> no_again (threads q) l ->
  exists q', drain q = Some (q', rev l) /\ waits q' [] /\ relinked l (threads q) (threads q').
Proof.
  intros Hw Ha. pose proof (seg_length _ _ _ Hw).
  by apply (drain_loop_ok (S (size (threads q))) q l []); [..|lia].
Qed.

(** schedule leaves a thread with cpu_flag::again in the queue, so the loop
    never ends once it meets one. *)
Lemma drain_stuck fuel q l taken x n :
  waits q l -> x ∈ l -> threads q !! x = Some n -> again n = true ->
  drain_loop fuel q taken = None.
Proof.
  revert q l taken n; induction fuel as [|fuel IH]; intros q l taken n Hw Hx Hn Ha; [done|].
  cbn [drain_loop]. destruct (schedule_ok SYS_SYNC_FIFO true q l Hw) as [_ S].
  destruct S as (y & m & q' & -> & Hsel & Hm & R); [by intros ->; apply not_elem_of_nil in Hx|].
  cbn [mbind option_bind]. destruct (again m) eqn:Em.
  - subst q'. by eapply IH.
  - destruct R as [R1 R2 _]. destruct (relinked_lookup _ _ _ _ _ R2 Hn) as [p Hp].
    eapply (IH q' (without y l)); [done| |exact Hp|done].
    apply without_elem_of. split; [done|]. intros ->. congruence.
Qed.

Lemma size_dom_eq (h h' : store) : dom h' = dom h -> size h' = size h.
Proof. intros E. by rewrite <- !size_dom, E. Qed.

(** ** Properties *)

(** C34: lv2_obj::schedule, on a queue that represents the list [l] of waiting
    threads (most recently enqueued first), terminates and never follows a
    dangling pointer; it returns nullptr on the empty queue, otherwise under
    SYS_SYNC_FIFO the thread that was enqueued first, and under any other
    protocol a thread no waiting thread precedes in (prio, order).  A thread
    with cpu_flag::again set stays in the queue and nothing changes; any other
    is removed, the remaining threads keep their order, no field but links
    changes in any thread, and threads outside the queue are not touched. *)
Theorem schedule_spec (q : queue) (l : list tid) (protocol : Z) (mn : bool) :
  waits q l ->
  (l = [] -> schedule q protocol mn = Some (None, q))
  /\ (l <> [] -> exists x n q',
        schedule q protocol mn = Some (Some x, q')
        /\ threads q !! x = Some n
        /\ (if protocol =? SYS_SYNC_FIFO then list.last l = Some x
            else x ∈ l /\ forall y m, y ∈ l -> threads q !! y = Some m ->
                   ~ (prio m < prio n \/ prio m = prio n /\ order m < order n))
        /\ (again n = true -> q' = q)
        /\ (again n = false ->
              waits q' (without x l) /\ relinked l (threads q) (threads q'))).
Proof.
  intros Hw. destruct (schedule_ok protocol mn q l Hw) as [A B].
  split; [exact A|]. intros Hl. destruct (B Hl) as (x & n & q' & E & S & Hn & R).
  exists x, n, q'. split; [done|]. split; [done|]. split; [|split].
  - unfold selects in S. destruct (protocol =? SYS_SYNC_FIFO); [done|].
    destruct S as [Hx (k & Hk & Hmin)]. simplify_eq. split; [done|].
    intros y m Hy Hm. specialize (Hmin y m Hy Hm). revert Hmin.
    unfold prio_before. zbool; cbn; lia || done.
  - intros Ha. by rewrite Ha in R.
  - intros Ha. rewrite Ha in R. by destruct R.
Qed.

(** A store of three threads queued 3, 2, 1 (1 arrived first); thread 2 has the
    best priority. *)
Definition sample_thread (i : Z) (next : ptr) (p o : Z) : ppu_thread :=
  mk_thread i next p o false 0 0.

Definition sample_queue : queue :=
  mk_queue (Some 3%positive)
    (<[1%positive := sample_thread 0x1000000 None 1000 1]>
    (<[2%positive := sample_thread 0x1000001 (Some 1%positive) 500 2]>
    (<[3%positive := sample_thread 0x1000002 (Some 2%positive) 500 3]> ∅))).

Lemma sample_queue_waits : waits sample_queue [3; 2; 1]%positive.
Proof. repeat (split; [done|]; eexists; split; [done|]). done. Qed.

Lemma schedule_spec_witness :
  waits sample_queue [3; 2; 1]%positive
  /\ (exists q', schedule sample_queue SYS_SYNC_PRIORITY true = Some (Some 2%positive, q')
          /\ waits q' [3; 1]%positive)
  /\ (exists q', schedule sample_queue SYS_SYNC_FIFO true = Some (Some 1%positive, q')
          /\ waits q' [3; 2]%positive).
Proof.
  split; [exact sample_queue_waits|].
  destruct (schedule_spec sample_queue _ SYS_SYNC_PRIORITY true sample_queue_waits)
    as [_ A].
  destruct (schedule_spec sample_queue _ SYS_SYNC_FIFO true sample_queue_waits)
    as [_ B].
  destruct A as (x & n & q1 & E & Hn & _ & _ & R); [done|].
  destruct B as (y & m & q2 & E' & Hm & _ & _ & R'); [done|].
  split.
  - exists q1. vm_compute in E. injection E as <- <-. vm_compute in Hn.
    injection Hn as <-. split; [reflexivity|]. exact (proj1 (R eq_refl)).
  - exists q2. vm_compute in E'. injection E' as <- <-. vm_compute in Hm.
    injection Hm as <-. split; [reflexivity|]. exact (proj1 (R' eq_refl)).
Defined.

(** Lv2_obj::emplace followed by lv2_obj::unqueue: inserting a thread that
    is not waiting makes it the head of the queue and stamps its order;
    removing any waiting thread then gives the list without it, with its link
    reset, and removing a thread that does not wait reports nullptr and changes
    nothing.  In particular emplace then unqueue of the same thread restores
    the list. *)
Theorem emplace_unqueue_spec (q : queue) (l : list tid) (x y : tid) (n : ppu_thread) (tag : Z) :
  waits q l -> x ∉ l -> threads q !! x = Some n -> preserve_bit n = false ->
  let q1 := emplace q x tag in
  waits q1 (x :: l)
  /\ order <$> threads q1 !! x = Some (sext 50 tag)
  /\ (y ∉ x :: l -> unqueue true q1 y = Some (None, q1))
  /\ (y ∈ x :: l -> exists q2, unqueue true q1 y = Some (Some y, q2)
        /\ waits q2 (without y (x :: l))
        /\ (y = x -> waits q2 l)
        /\ next_cpu <$> threads q2 !! y = Some None).
Proof.
  intros Hw Hx Hn Hp q1. destruct (emplace_ok q l x n tag Hw Hx Hn) as (A & B & C).
  fold q1 in A, B, C. split; [exact A|]. split.
  { rewrite B. unfold stamp. cbn. by rewrite Hp. }
  destruct (unqueue_ok true q1 (x :: l) y A) as [D E].
  split; [exact D|]. intros Hy. destruct (E Hy) as (q2 & E2 & [R1 R2 R3]).
  exists q2. split; [done|]. split; [done|]. split.
  - intros ->. unfold without in R1. rewrite filter_cons_False in R1 by tauto.
    fold (without x l) in R1. by rewrite without_notin in R1.
  - destruct R3 as (k & _ & ->). done.
Qed.

Definition sample_queue4 : queue :=
  mk_queue (first sample_queue)
    (<[4%positive := sample_thread 0x1000003 None 700 0]> (threads sample_queue)).

Lemma emplace_unqueue_spec_witness :
  waits (emplace sample_queue4 4 4) [4; 3; 2; 1]%positive
  /\ exists q2, unqueue true (emplace sample_queue4 4 4) 2 = Some (Some 2%positive, q2)
       /\ waits q2 [4; 3; 1]%positive.
Proof.
  destruct (emplace_unqueue_spec sample_queue4 [3; 2; 1]%positive 4 2
    (sample_thread 0x1000003 None 700 0) 4) as (A & _ & _ & B).
  - repeat (split; [done|]; eexists; split; [done|]). done.
  - set_solver.
  - reflexivity.
  - reflexivity.
  - split; [exact A|]. destruct B as (q2 & E & W & _); [set_solver|].
    exists q2. split; [exact E|]. exact W.
Defined.
