(* ===== verification/Lv2Sema.v ===== *)
(** * LV2 semaphores

    kernel/cellos/src/sys_semaphore.cpp.  A semaphore is an atomic counter and
    a sleep queue: a positive counter is the number of free units, a negative
    one minus the number of sleeping threads.  The syscalls run concurrently;
    each definition below is one atomic region of a syscall - a compare-and-swap
    on [val], or a critical section of [mutex] - and the interleavings are the
    sequences of regions.  The decrement of sys_semaphore_wait and the emplace
    after it are one region: once [val] is negative the lock-free paths fail
    and the others need the mutex.  The scheduler is represented by the set of
    threads it may run: [sleep] takes a thread out, [awake_all] puts the
    threads of g_to_awake in. *)

From stdpp Require Import base numbers list gmap tactics.
From Stdlib Require Import Lia.
From S2P Require Import Prelude Lv2Obj.

Open Scope Z_scope.

(** struct lv2_sema *)
Record lv2_sema := mk_sema {
  protocol : Z;
  key : Z;
  name : Z;
  max : Z;
  val : Z;
  sq : ptr
}.

(** The state the regions share. *)
Record kernel := mk_kernel {
  sema : lv2_sema;
  thr : store;
  order_tag : Z;
  running : gset tid
}.

Definition set_val (v : Z) (k : kernel) : kernel :=
  let s := sema k in
  mk_kernel (mk_sema (protocol s) (key s) (name s) (max s) v (sq s))
    (thr k) (order_tag k) (running k).

Definition get_queue (k : kernel) : queue := mk_queue (sq (sema k)) (thr k).

Definition set_queue (q : queue) (k : kernel) : kernel :=
  let s := sema k in
  mk_kernel (mk_sema (protocol s) (key s) (name s) (max s) (val s) (first q))
    (threads q) (order_tag k) (running k).

Definition set_running (r : gset tid) (k : kernel) : kernel :=
  mk_kernel (sema k) (thr k) (order_tag k) r.

Definition update_thread (f : ppu_thread -> ppu_thread) (t : tid) (k : kernel) : kernel :=
  mk_kernel (sema k) (alter f t (thr k)) (order_tag k) (running k).

(** sema.sleep(ppu, timeout); lv2_obj::emplace(sema.sq, &ppu). *)
Definition sleep_emplace (t : tid) (k : kernel) : kernel :=
  let tag := wrap 64 (order_tag k + 1) in
  let k1 := set_running (running k ∖ {[t]}) k in
  let k2 := set_queue (emplace (get_queue k1) t tag) k1 in
  mk_kernel (sema k2) (thr k2) tag (running k2).

(** ** sys_semaphore_wait *)

(** The lock-free attempt, with the value [seen] read before. *)
Definition wait_cas (seen : Z) (k : kernel) : kernel * reply :=
  if (0 <? seen) && (val (sema k) =? seen)
  then (set_val (sext 32 (seen - 1)) k, Returned CELL_OK)
  else (k, Retry).

(** The critical section that takes a unit or goes to sleep; gpr[3] is set to
    CELL_OK before the wait loop. *)
Definition wait_locked (t : tid) (k : kernel) : kernel * reply :=
  let v := val (sema k) in
  let k1 := set_val (sext 32 (v - 1)) k in
  if v <=? 0
  then (update_thread (set_gpr3 CELL_OK) t (sleep_emplace t k1), Blocked)
  else (k1, Returned CELL_OK).

(** The end of the wait loop: not_an_error(ppu.gpr[3]). *)
Definition wait_result (t : tid) (k : kernel) : reply :=
  match thr k !! t with
  | Some n =>
      if gpr3 n =? error_value CELL_OK then Returned CELL_OK
      else Returned CELL_ETIMEDOUT
  | None => Fatal
  end.

(** The signal was received. *)
Definition wait_signaled (t : tid) (k : kernel) : kernel * reply :=
  let k1 := update_thread (set_state (del_flag cf_signal)) t k in
  (k1, wait_result t k1).

(** The branch for a stopped thread. *)
Definition wait_stopped (t : tid) (k : kernel) : kernel * reply :=
  match any_waiting (is_thread t) (get_queue k) with
  | None => (k, Fatal)
  | Some true => (update_thread (set_state (add_flag cf_again)) t k, Again)
  | Some false => (k, wait_result t k)
  end.

(** The branch for an expired timeout. *)
Definition wait_timed_out (t : tid) (k : kernel) : kernel * reply :=
  match unqueue true (get_queue k) t with
  | None => (k, Fatal)
  | Some (None, _) => (k, wait_result t k)
  | Some (Some _, q) =>
      let k1 := set_queue q k in
      let v := val (sema k1) in
      let k2 := if v <? 0 then set_val (sext 32 (v + 1)) k1 else k1 in
      if v <? 0
      then (update_thread (set_gpr3 CELL_ETIMEDOUT) t k2, Returned CELL_ETIMEDOUT)
      else (k2, Fatal)
  end.

(** ** sys_semaphore_trywait: val.try_dec(0) *)
Definition trywait (k : kernel) : kernel * reply :=
  if 0 <? val (sema k)
  then (set_val (sext 32 (val (sema k) - 1)) k, Returned CELL_OK)
  else (k, Returned CELL_EBUSY).

(** ** sys_semaphore_post *)

(** The lock-free attempt; a count that is not positive is refused after it. *)
Definition post_cas (seen count : Z) (k : kernel) : kernel * reply :=
  if (0 <=? seen) && (0 <? count) && (count <=? sext 32 (max (sema k) - seen))
     && (val (sema k) =? seen)
  then (set_val (sext 32 (seen + count)) k, Returned CELL_OK)
  else if count <=? 0 then (k, Returned CELL_EINVAL)
  else (k, Retry).

(** for (i < to_awake) append(ensure(schedule(sq, protocol))). *)
Fixpoint wake_loop (n : nat) (k : kernel) (to_awake : list tid) : option (kernel * list tid) :=
  match n with
  | O => Some (k, to_awake)
  | S n' =>
      match schedule (get_queue k) (protocol (sema k)) true with
      | Some (Some t, q) => wake_loop n' (set_queue q k) (to_awake ++ [t])
      | _ => None
      end
  end.

(** The critical section of the post by thread [t]. *)
Definition post_locked (t : tid) (count : Z) (k : kernel) : kernel * reply :=
  match any_waiting is_again (get_queue k) with
  | None => (k, Fatal)
  | Some true => (update_thread (set_state (add_flag cf_again)) t k, Again)
  | Some false =>
      let v := val (sema k) in
      if wrap 32 count <=? wrap 32 (max (sema k) - v) then
        let k1 := set_val (sext 32 (v + count)) k in
        let to_awake := Z.min (sext 32 (- Z.min v 0)) count in
        match wake_loop (Z.to_nat to_awake) k1 [] with
        | None => (k1, Fatal)
        | Some (k2, l) => (set_running (running k2 ∪ list_to_set l) k2, Returned CELL_OK)
        end
      else (k, Returned CELL_EBUSY)
  end.

(** ** sys_semaphore_get_value and the destroy predicate *)
Definition get_value (k : kernel) : Z := Z.max 0 (val (sema k)).

(** ** The regions as events *)
Inductive event :=
| WaitCas (t : tid) (seen : Z)
| WaitLocked (t : tid)
| WaitSignaled (t : tid)
| WaitStopped (t : tid)
| WaitTimedOut (t : tid)
| TryWait (t : tid)
| PostCas (t : tid) (seen count : Z)
| PostLocked (t : tid) (count : Z).

(** A thread enters a syscall only while the scheduler runs it, and leaves the
    wait loop on a signal only after it was made runnable; post reaches its
    critical section only with a positive s32 count. *)
Definition enabled (e : event) (k : kernel) : bool :=
  match e with
  | WaitCas t _ | WaitLocked t | WaitSignaled t | TryWait t | PostCas t _ _ =>
      bool_decide (t ∈ running k)
  | WaitStopped t | WaitTimedOut t => bool_decide (is_Some (thr k !! t))
  | PostLocked t count =>
      bool_decide (t ∈ running k) && (0 <? count) && (count <? 2 ^ 31)
  end.

Definition exec (e : event) (k : kernel) : kernel * reply :=
  match e with
  | WaitCas _ seen => wait_cas seen k
  | WaitLocked t => wait_locked t k
  | WaitSignaled t => wait_signaled t k
  | WaitStopped t => wait_stopped t k
  | WaitTimedOut t => wait_timed_out t k
  | TryWait _ => trywait k
  | PostCas _ seen count => post_cas seen count k
  | PostLocked t count => post_locked t count k
  end.

(** ** Invariant

    [l] is the list of sleeping threads, most recent first. *)
Record sema_ok (k : kernel) (l : list tid) : Prop := {
  ok_queue : waits (get_queue k) l;
  ok_max : 0 < max (sema k) < 2 ^ 31;
  ok_val : (l = [] /\ 0 <= val (sema k) <= max (sema k))
           \/ (l <> [] /\ val (sema k) = - Z.of_nat (length l));
  ok_size : Z.of_nat (size (thr k)) < 2 ^ 31;
  ok_run : forall t, t ∈ running k -> (t ∉ l) /\ is_Some (thr k !! t)
}.

(** What no region changes. *)
Definition fixed (k k' : kernel) : Prop :=
  max (sema k') = max (sema k) /\ protocol (sema k') = protocol (sema k)
  /\ key (sema k') = key (sema k) /\ dom (thr k') = dom (thr k).

Lemma ok_length k l : sema_ok k l -> Z.of_nat (length l) < 2 ^ 31.
Proof. intros H. pose proof (seg_length _ _ _ (ok_queue _ _ H)). destruct H. cbn in *. lia. Qed.

Lemma ok_val_range k l : sema_ok k l -> srange 32 (val (sema k)).
Proof.
  intros H. pose proof (ok_length k l H). pose proof (ok_max _ _ H).
  unfold srange. destruct (ok_val _ _ H) as [[_ ?]|[_ ?]]; lia.
Qed.

Lemma set_val_ok k v :
  sema_ok k [] -> 0 <= v <= max (sema k) -> sema_ok (set_val v k) [].
Proof. intros [] ?. split; cbn; auto. Qed.

Lemma data_ok k l t f :
  (forall n, next_cpu (f n) = next_cpu n) -> sema_ok k l ->
  sema_ok (update_thread f t k) l.
Proof.
  intros Hf [Hq Hm Hv Hs Hr]. split; cbn; try done.
  - by apply seg_alter_data.
  - erewrite size_dom_eq; [exact Hs|apply dom_alter_L].
  - intros x Hx. destruct (Hr x Hx) as [? Hs']. split; [done|].
    apply elem_of_dom. rewrite dom_alter_L. by apply elem_of_dom.
Qed.

(** A thread goes to sleep. *)
Lemma sleep_ok k l t :
  sema_ok k l -> t ∈ running k -> val (sema k) <= 0 ->
  sema_ok (sleep_emplace t (set_val (sext 32 (val (sema k) - 1)) k)) (t :: l).
Proof.
  intros Hok Ht Hv. pose proof (ok_length k l Hok) as Hlen.
  destruct (ok_run _ _ Hok t Ht) as [Hn [n Hth]].
  destruct (emplace_ok (get_queue k) l t n (wrap 64 (order_tag k + 1))
    (ok_queue _ _ Hok) Hn Hth) as (Hw & _ & Hframe).
  assert (Hv' : val (sema k) = - Z.of_nat (length l)).
  { destruct (ok_val _ _ Hok) as [[-> ?]|[_ ?]]; [cbn|]; lia. }
  assert (Hd : dom (thr (sleep_emplace t (set_val (sext 32 (val (sema k) - 1)) k)))
               = dom (thr k)) by (cbn; by rewrite !dom_alter_L).
  destruct Hok as [Hq Hm Hval Hs Hr]. split.
  - exact Hw.
  - done.
  - right. split; [done|]. cbn [sema sleep_emplace set_queue set_running set_val val length].
    rewrite sext_id by (unfold srange; lia). lia.
  - erewrite size_dom_eq; [exact Hs|exact Hd].
  - cbn [running sleep_emplace set_queue set_running]. intros x Hx.
    assert (x <> t /\ x ∈ running k) as [Hne Hx'] by set_solver.
    destruct (Hr x Hx') as [Hnl Hs']. split; [set_solver|].
    apply elem_of_dom. rewrite Hd. by apply elem_of_dom.
Qed.

(** A removal that leaves the other threads in place. *)
Lemma set_queue_fixed l k q :
  relinked l (thr k) (threads q) -> fixed k (set_queue q k).
Proof. intros H. repeat split; try done. cbn. by eapply relinked_dom. Qed.

Lemma removed_ok k l t q v :
  sema_ok k l -> t ∈ l -> removed true (get_queue k) l t q ->
  v = val (sema k) + 1 -> sema_ok (set_val v (set_queue q k)) (without t l).
Proof.
  intros [Hq Hm Hval Hs Hr] Ht [R1 R2 R3] ->.
  pose proof (seg_NoDup _ _ _ Hq) as Hnd. pose proof (length_without t l Hnd Ht) as Hl.
  pose proof (relinked_dom _ _ _ R2) as Hdom. cbn in Hdom.
  split.
  - exact R1.
  - done.
  - cbn [sema set_val set_queue val max].
    destruct Hval as [[-> _]|[_ ->]]; [by apply not_elem_of_nil in Ht|].
    destruct (without t l) eqn:E; [left|right]; cbn [length] in *; (split; [done|lia]).
  - erewrite size_dom_eq; [exact Hs|exact Hdom].
  - intros x Hx. destruct (Hr x Hx) as [? Hs']. split.
    + rewrite without_elem_of. tauto.
    + apply elem_of_dom. cbn. rewrite Hdom. by apply elem_of_dom.
Qed.

Lemma wake_loop_ok n k l acc :
  waits (get_queue k) l -> no_again (thr k) l -> (n <= length l)%nat ->
  exists q ws l', wake_loop n k acc = Some (set_queue q k, acc ++ ws)
    /\ length ws = n /\ picks (thr k) (protocol (sema k)) l ws l'
    /\ waits q l' /\ relinked l (thr k) (threads q).
Proof.
  revert k l acc; induction n as [|n IH]; intros k l acc Hw Ha Hn.
  { exists (get_queue k), [], l. cbn. rewrite app_nil_r. split; [|done].
    destruct k as [[] ? ? ?]. done. }
  pose proof (seg_NoDup _ _ _ Hw) as Hnd.
  destruct (schedule_ok (protocol (sema k)) true (get_queue k) l Hw) as [_ S].
  destruct S as (x & m & q & E & Hsel & Hm & R); [by destruct l; cbn in Hn; [lia|]|].
  pose proof (selects_elem _ _ _ _ Hsel) as Hx.
  rewrite (Ha x m Hx Hm) in R. destruct R as [R1 R2 R3]. cbn [get_queue threads] in *.
  cbn [wake_loop]. rewrite E.
  pose proof (length_without x l Hnd Hx) as Hl.
  destruct (IH (set_queue q k) (without x l) (acc ++ [x])) as (q' & ws & l' & E' & W1 & W2 & W3 & W4).
  - by destruct q.
  - eapply (no_again_relinked l (thr k) (threads q) l); [exact R2| |done].
    intros y Hy. by apply without_elem_of in Hy as [? _].
  - lia.
  - exists q', (x :: ws), l'. rewrite E'. rewrite <- app_assoc. split; [done|].
    split; [cbn; by f_equal|]. cbn [sema set_queue protocol thr] in *. split; [|split].
    + cbn [picks]. split; [done|]. by apply (picks_relinked l (thr k) (threads q)).
    + done.
    + etransitivity; [exact R2|]. eapply relinked_mono; [|exact W4].
      intros y Hy. by apply without_elem_of in Hy as [? _].
Qed.

(** The number of threads post wakes. *)
Lemma to_awake_eq k l count :
  sema_ok k l -> 0 < count < 2 ^ 31 ->
  Z.min (sext 32 (- Z.min (val (sema k)) 0)) count
  = Z.min (Z.of_nat (length l)) count.
Proof.
  intros Hok Hc. pose proof (ok_length k l Hok) as Hlen.
  destruct (ok_val _ _ Hok) as [[-> ?]|[Hl ->]].
  - rewrite (Z.min_r (val (sema k)) 0) by lia. done.
  - rewrite (Z.min_l (- _) 0), Z.opp_involutive by lia.
    rewrite sext_id by (unfold srange; lia). done.
Qed.

Lemma post_guard k l count :
  sema_ok k l -> 0 < count < 2 ^ 31 ->
  (wrap 32 count <=? wrap 32 (max (sema k) - val (sema k)))
  = (count <=? max (sema k) - val (sema k)).
Proof.
  intros Hok Hc. pose proof (ok_length k l Hok) as Hlen.
  pose proof (ok_max _ _ Hok) as Hm.
  assert (0 <= max (sema k) - val (sema k) < 2 ^ 32).
  { destruct (ok_val _ _ Hok) as [[_ ?]|[_ ->]]; lia. }
  rewrite !(wrap_id 32) by (unfold urange; lia). done.
Qed.

(** The critical section of post. *)
Lemma post_locked_ok k l t count :
  sema_ok k l -> 0 < count < 2 ^ 31 -> no_again (thr k) l ->
  if count <=? max (sema k) - val (sema k) then
    exists k' ws l', post_locked t count k = (k', Returned CELL_OK)
      /\ sema_ok k' l' /\ fixed k k'
      /\ picks (thr k) (protocol (sema k)) l ws l'
      /\ length ws = Nat.min (length l) (Z.to_nat count)
      /\ val (sema k') = val (sema k) + count
      /\ running k' = running k ∪ list_to_set ws
      /\ relinked l (thr k) (thr k')
  else post_locked t count k = (k, Returned CELL_EBUSY).
Proof.
  intros Hok Hc Ha. unfold post_locked.
  destruct (any_waiting_ok is_again (get_queue k) l (ok_queue _ _ Hok)) as (b & -> & Hb).
  destruct b.
  { destruct (proj1 Hb eq_refl) as (x & n & Hx & Hn & E).
    unfold is_again in E. rewrite (Ha x n Hx Hn) in E. done. }
  rewrite (post_guard k l) by done.
  destruct (Z.leb_spec count (max (sema k) - val (sema k))) as [Hle|]; [|done].
  rewrite (to_awake_eq k l) by done. cbv zeta.
  pose proof (seg_NoDup _ _ _ (ok_queue _ _ Hok)) as Hnd.
  pose proof (ok_length k l Hok) as Hlen.
  assert (Hv : sext 32 (val (sema k) + count) = val (sema k) + count).
  { apply sext_id; [lia|]. pose proof (ok_val_range k l Hok) as R.
    pose proof (ok_max _ _ Hok). unfold srange in *. lia. }
  rewrite Hv. set (k1 := set_val (val (sema k) + count) k).
  destruct (wake_loop_ok (Z.to_nat (Z.min (Z.of_nat (length l)) count)) k1 l [])
    as (q & ws & l' & E & W1 & W2 & W3 & W4); [apply Hok|done|lia|].
  rewrite E. cbn [app]. eexists _, ws, l'. split; [reflexivity|].
  pose proof (picks_length _ _ _ _ _ Hnd W2) as Hl'.
  pose proof (relinked_dom _ _ _ W4) as Hdom. destruct Hok as [Hq Hm Hval Hs Hr].
  split; [split|].
  - destruct q. exact W3.
  - done.
  - cbn. destruct Hval as [[-> Hval]|[Hl Hval]].
    + left. cbn in Hl'. split; [by apply length_zero_iff_nil; lia|lia].
    + rewrite Hval. destruct (decide (l' = [])) as [->|Hne].
      * left. split; [done|]. cbn in Hl'. lia.
      * right. split; [done|]. assert (length l' <> 0)%nat by by destruct l'. lia.
  - cbn. erewrite size_dom_eq; [exact Hs|exact Hdom].
  - cbn. intros x Hx. rewrite <- elem_of_dom. replace (dom (threads q)) with (dom (thr k)).
    rewrite elem_of_dom. apply elem_of_union in Hx as [Hx|Hx].
    + destruct (Hr x Hx) as [Hx1 Hx2]. split; [|done].
      intros Hxl. apply Hx1. apply (picks_elem _ _ _ _ _ x W2). by right.
    + apply elem_of_list_to_set in Hx. split; [by eapply picks_disjoint|].
      apply (seg_dom _ _ _ _ Hq). apply (picks_elem _ _ _ _ _ x W2). by left.
  - split; [by repeat split|]. split; [exact W2|]. split; [lia|]. done.
Qed.

(** ** Runs *)

(** The units a region hands to threads and the units it adds. *)
Definition granted (e : event) (k k' : kernel) (r : reply) : Z :=
  match e with
  | WaitCas _ _ | WaitLocked _ | TryWait _ => b2z (bool_decide (r = Returned CELL_OK))
  | PostLocked _ _ => Z.of_nat (size (running k' ∖ running k))
  | _ => 0
  end.

Definition posted (e : event) (r : reply) : Z :=
  match e with
  | PostCas _ _ count | PostLocked _ count =>
      if bool_decide (r = Returned CELL_OK) then count else 0
  | _ => 0
  end.

(** A run: the state, the replies, the units granted and posted; events whose
    thread cannot take the step are skipped. *)
Fixpoint run_events (es : list event) (k : kernel) : kernel * list reply * Z * Z :=
  match es with
  | [] => (k, [], 0, 0)
  | e :: es' =>
      if enabled e k then
        let '(k1, r) := exec e k in
        let '(k2, rs, g, p) := run_events es' k1 in
        (k2, r :: rs, granted e k k1 r + g, posted e r + p)
      else run_events es' k
  end.

(** What one region guarantees. *)
Definition step_ok (e : event) (k : kernel) : Prop :=
  let '(k', r) := exec e k in
  r <> Fatal /\ fixed k k' /\ (exists l', sema_ok k' l')
  /\ get_value k' + granted e k k' r = get_value k + posted e r.

Lemma fixed_refl k : fixed k k.
Proof. by repeat split. Qed.

Lemma fixed_trans k1 k2 k3 : fixed k1 k2 -> fixed k2 k3 -> fixed k1 k3.
Proof. intros (A & B & C & D) (E & F & G & H). repeat split; congruence. Qed.

Lemma fixed_data k t f : fixed k (update_thread f t k).
Proof. repeat split. cbn. apply dom_alter_L. Qed.

Lemma wait_result_ok k t : is_Some (thr k !! t) -> wait_result t k <> Fatal.
Proof. intros [n E]. unfold wait_result. rewrite E. by case_match. Qed.

Lemma ok_positive k l : sema_ok k l -> 0 < val (sema k) -> l = [].
Proof. intros H Hv. destruct (ok_val _ _ H) as [[? _]|[? ?]]; [done|lia]. Qed.

Lemma take_ok k l e v :
  sema_ok k l -> 0 < val (sema k) -> v = val (sema k) ->
  exec e k = (set_val (sext 32 (v - 1)) k, Returned CELL_OK) ->
  granted e k (set_val (sext 32 (v - 1)) k) (Returned CELL_OK) = 1 ->
  posted e (Returned CELL_OK) = 0 -> step_ok e k.
Proof.
  intros Hok Hv -> E G P. unfold step_ok. rewrite E, G, P.
  pose proof (ok_positive k l Hok Hv) as ->. pose proof (ok_val_range k [] Hok) as R.
  destruct (ok_val _ _ Hok) as [[_ Hr]|[[] _]]; [|done].
  rewrite sext_id by (unfold srange in *; lia).
  split; [done|]. split; [by repeat split|]. split.
  - exists []. apply set_val_ok; [done|lia].
  - unfold get_value. cbn. lia.
Qed.

(** A region that changes no count. *)
Lemma idle_ok k l e k' r :
  exec e k = (k', r) -> r <> Fatal -> sema_ok k' l -> fixed k k' ->
  val (sema k') = val (sema k) -> granted e k k' r = 0 -> posted e r = 0 -> step_ok e k.
Proof.
  intros E Hr Hok Hf Hv G P. unfold step_ok. rewrite E, G, P. unfold get_value.
  rewrite Hv. eauto.
Qed.

Lemma wait_locked_step k l t :
  sema_ok k l -> t ∈ running k -> step_ok (WaitLocked t) k.
Proof.
  intros Hok Ht. destruct (Z.leb_spec (val (sema k)) 0) as [Hv|Hv].
  - unfold step_ok, exec, wait_locked. destruct (Z.leb_spec (val (sema k)) 0); [|lia].
    split; [done|]. split; [|split].
    + eapply fixed_trans; [|apply fixed_data]. repeat split. cbn. by rewrite !dom_alter_L.
    + exists (t :: l). apply data_ok; [done|]. by apply sleep_ok.
    + unfold get_value, granted. cbn. rewrite bool_decide_false by done.
      pose proof (ok_length k l Hok).
      rewrite sext_id by (destruct (ok_val _ _ Hok) as [[? ?]|[? ?]]; unfold srange; lia).
      cbn. lia.
  - eapply take_ok; [done|done|reflexivity| |done|done].
    unfold exec, wait_locked. by destruct (Z.leb_spec (val (sema k)) 0); [lia|].
Qed.

Lemma timed_out_step k l t :
  sema_ok k l -> is_Some (thr k !! t) -> step_ok (WaitTimedOut t) k.
Proof.
  intros Hok Ht. destruct (unqueue_ok true (get_queue k) l t (ok_queue _ _ Hok)) as [U1 U2].
  destruct (decide (t ∈ l)) as [Hin|Hin].
  - destruct (U2 Hin) as (q & E & R).
    assert (Hv : val (sema k) = - Z.of_nat (length l) /\ (0 < length l)%nat).
    { destruct (ok_val _ _ Hok) as [[-> _]|[Hl ->]]; [by apply not_elem_of_nil in Hin|].
      split; [done|]. destruct l; [done|cbn; lia]. }
    pose proof (ok_length k l Hok).
    unfold step_ok, exec, wait_timed_out. rewrite E. cbn [sema set_queue val].
    destruct (Z.ltb_spec (val (sema k)) 0) as [_|]; [|lia].
    rewrite sext_id by (unfold srange; lia).
    split; [done|]. split; [|split].
    + eapply fixed_trans; [|apply fixed_data]. repeat split. cbn.
      exact (relinked_dom _ _ _ (rm_links _ _ _ _ _ R)).
    + exists (without t l). apply data_ok; [done|]. by eapply removed_ok.
    + unfold get_value. cbn. lia.
  - eapply idle_ok; [unfold exec, wait_timed_out; rewrite (U1 Hin); reflexivity|..];
      try done. by apply wait_result_ok.
Qed.

Lemma stopped_step k l t :
  sema_ok k l -> is_Some (thr k !! t) -> step_ok (WaitStopped t) k.
Proof.
  intros Hok Ht. pose proof (any_waiting_thread (get_queue k) l t (ok_queue _ _ Hok)) as E.
  destruct (bool_decide (t ∈ l)).
  - eapply (idle_ok k l); [unfold exec, wait_stopped; rewrite E; reflexivity|..]; try done.
    + by apply data_ok.
    + apply fixed_data.
  - eapply (idle_ok k l); [unfold exec, wait_stopped; rewrite E; reflexivity|..]; try done.
    by apply wait_result_ok.
Qed.

Lemma post_locked_step k l t count :
  sema_ok k l -> 0 < count < 2 ^ 31 -> step_ok (PostLocked t count) k.
Proof.
  intros Hok Hc.
  destruct (any_waiting_ok is_again (get_queue k) l (ok_queue _ _ Hok)) as (b & E & Hb).
  destruct b.
  { eapply (idle_ok k l); [unfold exec, post_locked; rewrite E; reflexivity|..]; try done.
    - by apply data_ok.
    - apply fixed_data.
    - unfold granted. cbn. by rewrite difference_diag_L. }
  assert (Ha : no_again (thr k) l).
  { intros x n Hx Hn. destruct (again n) eqn:Ea; [|done].
    enough (false = true) by done. apply Hb. eauto. }
  pose proof (post_locked_ok k l t count Hok Hc Ha) as P.
  destruct (count <=? max (sema k) - val (sema k)) eqn:Eg.
  - destruct P as (k' & ws & l' & Ep & Hok' & Hf & Hp & Hl & Hv & Hrun & _).
    unfold step_ok, exec. rewrite Ep. cbn [granted posted].
    rewrite bool_decide_true by done. split; [done|]. split; [done|]. split; [eauto|].
    pose proof (seg_NoDup _ _ _ (ok_queue _ _ Hok)) as Hnd.
    assert (Hs : size (running k' ∖ running k) = length ws).
    { rewrite Hrun. rewrite <- (size_list_to_set (C := gset tid) ws) by by eapply picks_NoDup.
      f_equal. apply set_eq. intros x. rewrite elem_of_difference, elem_of_union.
      split; [tauto|]. intros Hx. split; [tauto|]. intros Hr.
      destruct (ok_run _ _ Hok x Hr) as [Hn _]. apply Hn.
      apply (picks_elem _ _ _ _ _ x Hp). left. by apply elem_of_list_to_set in Hx. }
    rewrite Hs, Hl. unfold get_value. rewrite Hv.
    destruct (ok_val _ _ Hok) as [[-> ?]|[? ->]]; cbn [length]; lia.
  - eapply (idle_ok k l); [exact P|..]; try done.
    unfold granted. by rewrite difference_diag_L.
Qed.

Lemma exec_ok k l e : sema_ok k l -> enabled e k = true -> step_ok e k.
Proof.
  intros Hok He. destruct e as [t seen|t|t|t|t|t|t seen count|t count];
    cbn [enabled] in He; repeat (apply andb_prop in He as [He ?]);
    apply bool_decide_eq_true in He.
  - destruct ((0 <? seen) && (val (sema k) =? seen)) eqn:E.
    + pose proof E as E'. apply andb_prop in E' as [H1%Z.ltb_lt H2%Z.eqb_eq].
      eapply (take_ok k l _ seen); [done|lia|done| |done|done].
      unfold exec, wait_cas. by rewrite E.
    + eapply (idle_ok k l); [unfold exec, wait_cas; rewrite E; reflexivity|..];
        done.
  - by eapply wait_locked_step.
  - destruct (ok_run _ _ Hok t He) as [_ Hs].
    eapply (idle_ok k l); [unfold exec, wait_signaled; reflexivity|..]; try done.
    + apply wait_result_ok. apply elem_of_dom. cbn. rewrite dom_alter_L.
      by apply elem_of_dom.
    + by apply data_ok.
    + apply fixed_data.
  - by eapply stopped_step.
  - by eapply timed_out_step.
  - destruct (0 <? val (sema k)) eqn:E.
    + eapply (take_ok k l _ (val (sema k))); [done|by apply Z.ltb_lt|done| |done|done].
      unfold exec, trywait. by rewrite E.
    + eapply (idle_ok k l); [unfold exec, trywait; rewrite E; reflexivity|..];
        done.
  - unfold step_ok, exec, post_cas. destruct ((0 <=? seen) && _ && _ && _) eqn:E.
    + repeat (apply andb_prop in E as [E ?]).
      pose proof (ok_max _ _ Hok) as Hm.
      assert (Hs : seen = val (sema k)) by lia. subst seen.
      destruct (ok_val _ _ Hok) as [[-> Hr]|[Hl Hr]]; [|destruct l; [done|cbn in Hr; lia]].
      assert (count <= max (sema k) - val (sema k)).
      { rewrite sext_id in * by (unfold srange; lia). lia. }
      rewrite sext_id by (unfold srange; lia).
      split; [done|]. split; [by repeat split|]. split.
      * exists []. apply set_val_ok; [done|lia].
      * unfold get_value. cbn. rewrite bool_decide_true by done. lia.
    + destruct (count <=? 0); cbn; (split; [done|]); (split; [apply fixed_refl|]);
        (split; [eauto|]); rewrite bool_decide_false by done; lia.
  - eapply post_locked_step; [done|lia].
Qed.

(** ** Properties *)

(** C5: every interleaving of the regions of semaphore syscalls, from a state
    where the counter and the queue agree, keeps them in agreement (the counter
    is within 0..max with an empty queue, or minus the number of sleeping
    threads), never fails an ensure and never follows a dangling queue pointer,
    and neither loses nor duplicates a unit: the free units plus the units
    granted to waiters equal the initial units plus the units posted. *)
Theorem sema_run_safe (es : list event) (k : kernel) (l : list tid) :
  sema_ok k l ->
  let '(k', rs, g, p) := run_events es k in
  (Fatal ∉ rs)
  /\ (exists l', sema_ok k' l')
  /\ fixed k k'
  /\ 0 <= get_value k' <= max (sema k)
  /\ get_value k' + g = get_value k + p.
Proof.
  revert k l; induction es as [|e es IH]; intros k l Hok; cbn [run_events].
  - split; [apply not_elem_of_nil|]. split; [eauto|]. split; [done|].
    unfold get_value. destruct Hok as [_ ? [[? ?]|[? ?]] _ _]; lia.
  - destruct (enabled e k) eqn:He; [|by eapply IH].
    pose proof (exec_ok k l e Hok He) as Hs. unfold step_ok in Hs.
    destruct (exec e k) as [k1 r]. destruct Hs as (Hr & Hf & [l1 Hok1] & Hc).
    specialize (IH k1 l1 Hok1). destruct (run_events es k1) as [[[k2 rs] g] p].
    destruct IH as (I1 & I2 & I3 & I4 & I5).
    split; [set_solver|]. split; [done|]. split; [by eapply fixed_trans|].
    destruct Hf as [Hm _]. rewrite Hm in I4. lia.
Qed.

Definition sample_sema (v : Z) (q : ptr) : lv2_sema := mk_sema SYS_SYNC_PRIORITY 0 0 10 v q.

(** Threads 1, 2 and 3 sleep, thread 4 runs. *)
Definition sample_kernel : kernel :=
  mk_kernel (sample_sema (-3) (Some 3%positive)) (threads sample_queue4) 4 {[4%positive]}.

Lemma sample_kernel_ok : sema_ok sample_kernel [3; 2; 1]%positive.
Proof.
  split.
  - repeat (split; [done|]; eexists; split; [done|]). done.
  - done.
  - by right.
  - done.
  - intros t Ht. change (t ∈@{gset tid} {[4%positive]}) in Ht.
    apply elem_of_singleton in Ht as ->. split; [set_solver|]. by eexists.
Qed.

Lemma sema_run_safe_witness :
  sema_ok sample_kernel [3; 2; 1]%positive
  /\ (let '(k', rs, g, p) :=
        run_events [PostLocked 4 2; WaitTimedOut 1; PostCas 4 0 3; WaitCas 2 3] sample_kernel in
      (Fatal ∉ rs) /\ get_value k' + g = get_value sample_kernel + p /\ g = 3 /\ p = 5).
Proof.
  split; [exact sample_kernel_ok|].
  pose proof (sema_run_safe
    [PostLocked 4 2; WaitTimedOut 1; PostCas 4 0 3; WaitCas 2 3] sample_kernel _
    sample_kernel_ok) as H.
  assert (Hg : (let '(_, _, g, p) := run_events
    [PostLocked 4 2; WaitTimedOut 1; PostCas 4 0 3; WaitCas 2 3] sample_kernel in (g, p))
    = (3, 5)) by (vm_compute; reflexivity).
  destruct (run_events _ _) as [[[k' rs] g] p]. injection Hg as -> ->.
  destruct H as (A & _ & _ & _ & B). done.
Defined.

(** The critical section of sys_semaphore_post for a positive count.  If a
    sleeping thread is marked cpu_flag::again the poster is marked too and
    nothing else changes; if the count exceeds max - val the result is
    CELL_EBUSY and nothing changes; otherwise the counter grows by count, the
    first min(count, sleeping) threads the protocol selects (one by one, the
    oldest under FIFO, the least (prio, order) otherwise) leave the queue and
    become runnable, all other threads keep their place, and only queue links
    of threads change. *)
Theorem post_spec (k : kernel) (l : list tid) (t : tid) (count : Z) :
  sema_ok k l -> 0 < count < 2 ^ 31 ->
  (~ no_again (thr k) l ->
     post_locked t count k = (update_thread (set_state (add_flag cf_again)) t k, Again))
  /\ (no_again (thr k) l -> max (sema k) - val (sema k) < count ->
     post_locked t count k = (k, Returned CELL_EBUSY))
  /\ (no_again (thr k) l -> count <= max (sema k) - val (sema k) ->
     exists k' ws l', post_locked t count k = (k', Returned CELL_OK)
       /\ val (sema k') = val (sema k) + count
       /\ picks (thr k) (protocol (sema k)) l ws l'
       /\ length ws = Nat.min (length l) (Z.to_nat count)
       /\ waits (get_queue k') l'
       /\ running k' = running k ∪ list_to_set ws
       /\ relinked l (thr k) (thr k')).
Proof.
  intros Hok Hc. split; [|split].
  - intros Hn. unfold post_locked.
    destruct (any_waiting_ok is_again (get_queue k) l (ok_queue _ _ Hok)) as (b & -> & Hb).
    destruct b; [done|]. destruct Hn. intros x n Hx Hn. destruct (again n) eqn:E; [|done].
    enough (false = true) by done. apply Hb. eauto.
  - intros Ha Hlt. pose proof (post_locked_ok k l t count Hok Hc Ha) as P.
    by destruct (Z.leb_spec count (max (sema k) - val (sema k))); [lia|].
  - intros Ha Hle. pose proof (post_locked_ok k l t count Hok Hc Ha) as P.
    destruct (Z.leb_spec count (max (sema k) - val (sema k))); [|lia].
    destruct P as (k' & ws & l' & E & Hok' & _ & Hp & Hl & Hv & Hr & Hrel).
    exists k', ws, l'. pose proof (ok_queue _ _ Hok'). auto 10.
Qed.

Lemma post_spec_witness :
  exists k', post_locked 4 2 sample_kernel = (k', Returned CELL_OK)
    /\ val (sema k') = -1 /\ waits (get_queue k') [1]%positive
    /\ running k' = {[4; 3; 2]}%positive.
Proof.
  destruct (post_spec sample_kernel _ 4 2 sample_kernel_ok ltac:(done)) as (_ & _ & H).
  destruct H as (k' & ws & l' & E & Hv & Hp & Hl & Hw & Hr & _).
  - intros x m Hx Hm. vm_compute in Hm. set_unfold in Hx.
    by destruct_or! Hx; subst x; vm_compute in Hm; injection Hm as <-.
  - vm_compute. discriminate.
  - exists k'. split; [done|]. split; [exact Hv|].
    pose proof E as E'. vm_compute in E'. injection E' as <-.
    split; [|vm_compute; reflexivity].
    split; [done|]. eexists. split; [vm_compute; reflexivity|]. done.
Defined.

(** The ways a sys_semaphore_wait ends.  The compare-and-swap takes a unit
    exactly when the value it saw is positive and current; the critical section
    takes a unit when one is free, otherwise it queues the thread as the most
    recent sleeper, counts it in val and takes it off the scheduler; a timeout
    of a thread still asleep removes it, returns its unit to the counter and
    ends with CELL_ETIMEDOUT, while a timeout after a post woke it changes
    nothing and ends with the result stored before, CELL_OK. *)
Theorem wait_spec (k : kernel) (l : list tid) (t : tid) (seen : Z) :
  sema_ok k l -> t ∈ dom (thr k) ->
  (snd (wait_cas seen k) = Returned CELL_OK <-> 0 < seen /\ val (sema k) = seen)
  /\ (val (sema k) > 0 ->
       wait_locked t k = (set_val (val (sema k) - 1) k, Returned CELL_OK))
  /\ (val (sema k) <= 0 -> t ∈ running k ->
       exists k', wait_locked t k = (k', Blocked) /\ waits (get_queue k') (t :: l)
         /\ val (sema k') = val (sema k) - 1
         /\ running k' = running k ∖ {[t]}
         /\ gpr3 <$> thr k' !! t = Some (error_value CELL_OK))
  /\ (t ∈ l ->
       exists k', wait_timed_out t k = (k', Returned CELL_ETIMEDOUT)
         /\ waits (get_queue k') (without t l) /\ val (sema k') = val (sema k) + 1
         /\ gpr3 <$> thr k' !! t = Some (error_value CELL_ETIMEDOUT))
  /\ (t ∉ l -> gpr3 <$> thr k !! t = Some (error_value CELL_OK) ->
       wait_timed_out t k = (k, Returned CELL_OK)).
Proof.
  intros Hok [n Hn]%elem_of_dom. pose proof (ok_length k l Hok) as Hlen.
  pose proof (ok_max _ _ Hok) as Hmax. refine (conj _ (conj _ (conj _ (conj _ _)))).
  - unfold wait_cas. destruct (Z.ltb_spec 0 seen), (Z.eqb_spec (val (sema k)) seen);
      cbn; split; try done; lia.
  - intros Hv. unfold wait_locked. destruct (Z.leb_spec (val (sema k)) 0); [lia|].
    destruct (ok_val _ _ Hok) as [[_ ?]|[_ ?]]; [|lia].
    by rewrite sext_id by (unfold srange; lia).
  - intros Hv Ht. unfold wait_locked. destruct (Z.leb_spec (val (sema k)) 0); [|lia].
    eexists. split; [reflexivity|]. split; [|split; [|split]].
    + refine (ok_queue _ _ (data_ok _ (t :: l) t _ _ _)); [done|]. by apply sleep_ok.
    + cbn. apply sext_id; [lia|].
      destruct (ok_val _ _ Hok) as [[_ ?]|[_ ?]]; unfold srange; lia.
    + done.
    + cbn. rewrite !lookup_alter_eq, Hn. done.
  - intros Ht. destruct (unqueue_ok true (get_queue k) l t (ok_queue _ _ Hok)) as [_ U].
    destruct (U Ht) as (q & E & R). pose proof R as [R1 R2 (m & Hm & Em)].
    assert (Hv : val (sema k) = - Z.of_nat (length l) /\ (0 < length l)%nat).
    { destruct (ok_val _ _ Hok) as [[-> _]|[Hl ->]]; [by apply not_elem_of_nil in Ht|].
      split; [done|]. destruct l; [done|cbn; lia]. }
    unfold wait_timed_out. rewrite E. cbn [sema set_queue val].
    destruct (Z.ltb_spec (val (sema k)) 0) as [_|]; [|lia].
    rewrite sext_id by (unfold srange; lia). eexists. split; [reflexivity|].
    split; [|split].
    + refine (ok_queue _ _ (data_ok _ (without t l) t _ _ _)); [done|].
      by eapply removed_ok.
    + done.
    + cbn. rewrite lookup_alter_eq, Em. done.
  - intros Ht Hg. destruct (unqueue_ok true (get_queue k) l t (ok_queue _ _ Hok)) as [U _].
    unfold wait_timed_out. rewrite (U Ht). unfold wait_result. rewrite Hn in *.
    injection Hg as ->. done.
Qed.

Lemma wait_spec_witness :
  exists k', wait_timed_out 2 sample_kernel = (k', Returned CELL_ETIMEDOUT)
    /\ waits (get_queue k') [3; 1]%positive /\ val (sema k') = -2.
Proof.
  destruct (wait_spec sample_kernel _ 2 0 sample_kernel_ok ltac:(vm_compute; done))
    as (_ & _ & _ & H & _).
  destruct H as (k' & E & Hw & Hv & _); [set_solver|]. by exists k'.
Defined.
