(* ===== verification/Lv2Create.v ===== *)
(** * Creation and destruction of LV2 objects

    lv2_obj::create and on_id_destroy of kernel/cellos/include/cellos/sys_sync.h
    over ipc_manager (rpcs3/Emu/IPC.h) and the id manager.  Ids hold references
    to objects; a process-shared object is also registered under its IPC key,
    so several ids can name one object, and [exists] counts them.  The file
    models the references explicitly and proves that the count is right and
    that a key is registered exactly while some id names its object. *)

From stdpp Require Import base numbers list gmap tactics.
From Stdlib Require Import Lia.
From S2P Require Import Prelude IdManager Lv2Obj.

Open Scope Z_scope.

(** An object reference (shared_ptr). *)
Abbreviation oref := positive.

(** What create and the destroy syscalls ask of an object type: the IPC key
    its constructor stored, and the error with which it refuses to be
    destroyed. *)
Class Lv2Object (A : Type) := {
  key_of : A -> Z;
  destroy_test : A -> option error_code
}.

Section Create.

Context {A : Type} {LO : Lv2Object A}.

(** The id container, the objects with their [exists] counters, m_map of the
    ipc_manager (an entry can hold a null pointer), the next fresh reference
    and g_id. *)
Record space := mk_space {
  ids : id_map oref;
  objs : gmap oref (A * Z);
  ipc : gmap Z (option oref);
  next_ref : oref;
  last_id : Z
}.

Implicit Types s : space.

Definition with_objs (o : gmap oref (A * Z)) s : space :=
  mk_space (ids s) o (ipc s) (next_ref s) (last_id s).

Definition with_ipc (m : gmap Z (option oref)) s : space :=
  mk_space (ids s) (objs s) m (next_ref s) (last_id s).

(** on_id_create: exists++. *)
Definition on_id_create (r : oref) s : space :=
  with_objs (alter (fun p => (fst p, wrap 32 (snd p + 1))) r (objs s)) s.

(** make(): a fresh object, exists = 0. *)
Definition make_object (a : A) s : space * oref :=
  (mk_space (ids s) (<[next_ref s := (a, 0)]> (objs s)) (ipc s)
     (Pos.succ (next_ref s)) (last_id s), next_ref s).

(** ipc_manager::get *)
Definition ipc_get (k : Z) s : option oref :=
  match ipc s !! k with Some p => p | None => None end.

(** ipc_manager::add with the provider that finishes construction of [r]. *)
Definition ipc_add (k : Z) (r : oref) (peek_ptr : bool) s : space * bool * option oref :=
  match ipc_get k s with
  | Some p => (with_ipc (<[k := Some p]> (ipc s)) s, false, if peek_ptr then Some p else None)
  | None => let s1 := on_id_create r s in
            (with_ipc (<[k := Some r]> (ipc s1)) s1, true, Some r)
  end.

(** ipc_manager::remove *)
Definition ipc_remove (k : Z) s : space := with_ipc (delete k (ipc s)) s.

(** The provider given to idm::import: the object to store and the error. *)
Definition provider (pshared ipc_key flags : Z) (make : A) s
    : space * option oref * error_code :=
  let '(s1, r) := make_object make s in
  if negb (pshared =? SYS_SYNC_PROCESS_SHARED) then (on_id_create r s1, Some r, CELL_OK)
  else if flags =? SYS_SYNC_NOT_CREATE then
    match ipc_get ipc_key s1 with
    | None => (s1, None, CELL_ESRCH)
    | Some p => (on_id_create p s1, Some p, CELL_OK)
    end
  else
    let '(s2, added, result) :=
      ipc_add ipc_key r (negb (flags =? SYS_SYNC_NEWLY_CREATED)) s1 in
    if negb added then
      if flags =? SYS_SYNC_NEWLY_CREATED then (s2, None, CELL_EEXIST)
      else match result with
           | Some p => (on_id_create p s2, Some p, CELL_OK)
           | None => (s2, None, CELL_OK)
           end
    else (s2, result, CELL_OK).

(** The attribute checks at the head of create. *)
Definition valid_attrs (pshared ipc_key flags : Z) (key_not_zero : bool) : bool :=
  if pshared =? SYS_SYNC_PROCESS_SHARED then
    negb (key_not_zero && (ipc_key =? 0))
    && ((flags =? SYS_SYNC_NEWLY_CREATED) || (flags =? SYS_SYNC_NOT_CARE)
        || (flags =? SYS_SYNC_NOT_CREATE))
  else pshared =? SYS_SYNC_NOT_PROCESS_SHARED.

(** lv2_obj::create; [None] is an ensure failure of allocate_id.  The provider
    runs only when an id could be allocated. *)
Definition create (tr : id_traits) (pshared ipc_key flags : Z) (make : A)
    (key_not_zero : bool) s : option (space * error_code) :=
  if negb (valid_attrs pshared ipc_key flags key_not_zero) then Some (s, CELL_EINVAL)
  else
    match allocate_id tr (vec_keys (ids s)) (highest_index (ids s)) (tr_invalid tr) (last_id s) with
    | None => None
    | Some a =>
        let '(s1, result, error) :=
          match al_slot a with
          | None => (s, None, CELL_EAGAIN)
          | Some _ => provider pshared ipc_key flags make s
          end in
        match create_id tr (ids s1) result (tr_invalid tr) (last_id s1) with
        | None => None
        | Some (m, r, g) =>
            let s2 := mk_space m (objs s1) (ipc s1) (next_ref s1) g in
            Some (s2, match r with Some _ => CELL_OK | None => error end)
        end
    end.

(** on_id_destroy with the default pshared: exists-- == 1 and a key. *)
Definition on_id_destroy (r : oref) s : space :=
  match objs s !! r with
  | None => s
  | Some (a, n) =>
      let s1 := with_objs (<[r := (a, wrap 32 (n - 1))]> (objs s)) s in
      if (n =? 1) && negb (key_of a =? 0) then ipc_remove (key_of a) s1 else s1
  end.

(** The destroy syscalls: withdraw with the object's own test, which sees the
    object and may refuse; ESRCH when the id names nothing. *)
Definition destroy (tr : id_traits) (id : Z) s
    : space * error_code :=
  match find_id tr (ids s) id with
  | None => (s, CELL_ESRCH)
  | Some r =>
      match objs s !! r with
      | None => (s, CELL_ESRCH)
      | Some (a, _) =>
          match destroy_test a with
          | Some e => (s, e)
          | None =>
              let s1 := on_id_destroy r s in
              let '(m, _) := withdraw (E := error_code) tr (ids s1) id (fun p => (p, None)) in
              (mk_space m (objs s1) (ipc s1) (next_ref s1) (last_id s1), CELL_OK)
          end
      end
  end.

(** ** Invariant *)

(** How many ids name [r]. *)
Definition refs (m : id_map oref) (r : oref) : nat :=
  length (filter (fun d => d = Some r) (vec_data m)).

Record space_ok (tys : list id_traits) (count : Z) s : Prop := {
  so_map : wf_map tys count (ids s);
  so_bound : count < 2 ^ 31;
  so_ref : forall i r, vec_data (ids s) !! i = Some (Some r) -> is_Some (objs s !! r);
  so_count : forall r a n, objs s !! r = Some (a, n) -> n = Z.of_nat (refs (ids s) r);
  so_ipc : forall k r, ipc s !! k = Some (Some r) <->
    k <> 0 /\ exists a n, objs s !! r = Some (a, n) /\ key_of a = k /\ 0 < n;
  so_nonnull : forall k, ipc s !! k <> Some None;
  so_fresh : forall r, is_Some (objs s !! r) -> (r < next_ref s)%positive
}.

Lemma refs_insert (l : list (option oref)) (h : Z) keys i d d' r :
  l !! i = Some d ->
  (refs (mk_map (<[i := d']> l) keys h) r + (if decide (d = Some r) then 1 else 0)
   = length (filter (fun d => d = Some r) l) + (if decide (d' = Some r) then 1 else 0))%nat.
Proof.
  unfold refs. cbn [vec_data]. revert i; induction l as [|x l IH]; intros i Hi; [done|].
  destruct i as [|i]; cbn in Hi.
  - injection Hi as ->. change (<[0%nat := d']> (d :: l)) with (d' :: l).
    rewrite !filter_cons.
    destruct (decide (d = Some r)), (decide (d' = Some r)); cbn [length]; lia.
  - specialize (IH i Hi). change (<[S i := d']> (x :: l)) with (x :: <[i := d']> l).
    rewrite !filter_cons. destruct (decide (x = Some r)); cbn [length]; lia.
Qed.

Lemma refs_pos tys count s i r :
  space_ok tys count s -> vec_data (ids s) !! i = Some (Some r) -> (0 < refs (ids s) r)%nat.
Proof.
  intros Hs Hi. unfold refs. apply list_elem_of_lookup_2 in Hi.
  assert (Hin : Some r ∈ filter (fun d => d = Some r) (vec_data (ids s))).
  { by apply list_elem_of_filter. }
  destruct (filter _ _); [by apply not_elem_of_nil in Hin|cbn; lia].
Qed.

Lemma refs_fresh tys count s r :
  space_ok tys count s -> objs s !! r = None -> refs (ids s) r = 0%nat.
Proof.
  intros Hs Hr. unfold refs. destruct (filter _ _) as [|x l] eqn:E; [done|]. exfalso.
  assert (Hin : x ∈ filter (fun d => d = Some r) (vec_data (ids s))) by (rewrite E; left).
  apply list_elem_of_filter in Hin as [-> (i & Hi)%list_elem_of_lookup_1].
  destruct (so_ref _ _ _ Hs _ _ Hi). congruence.
Qed.

Lemma refs_bound tys count s r : space_ok tys count s -> Z.of_nat (refs (ids s) r) <= count.
Proof.
  intros Hs. unfold refs. pose proof (length_filter (fun d => d = Some r) (vec_data (ids s))).
  pose proof (wm_data _ _ _ (so_map _ _ _ Hs)). lia.
Qed.

Lemma fresh_none tys count s : space_ok tys count s -> objs s !! next_ref s = None.
Proof.
  intros Hs. destruct (objs s !! next_ref s) eqn:E; [|done].
  pose proof (so_fresh _ _ _ Hs (next_ref s) ltac:(eauto)). lia.
Qed.

(** A new object that no id names yet. *)
Lemma make_ok tys count s a :
  space_ok tys count s -> space_ok tys count (fst (make_object a s)).
Proof.
  intros Hs. pose proof (fresh_none _ _ _ Hs) as Hf. pose proof Hs as [H1 H2 H3 H4 H5 H6 H7].
  split; cbn [make_object fst ids objs ipc next_ref]; try done.
  - intros i r Hi. destruct (H3 i r Hi) as [x Hx].
    rewrite lookup_insert_ne; [by eexists|congruence].
  - intros r b n. destruct (decide (r = next_ref s)) as [->|Hne].
    + rewrite lookup_insert_eq. intros [= <- <-]. by rewrite (refs_fresh _ _ _ _ Hs Hf).
    + rewrite lookup_insert_ne by done. apply H4.
  - intros k r. rewrite H5. apply and_iff_compat_l. split.
    + intros (b & n & Hb & Hk & Hn). exists b, n.
      rewrite lookup_insert_ne; [done|congruence].
    + intros (b & n & Hb & Hk & Hn). exists b, n. split; [|done].
      destruct (decide (r = next_ref s)) as [->|Hne].
      * rewrite lookup_insert_eq in Hb. injection Hb as <- <-. lia.
      * by rewrite lookup_insert_ne in Hb.
  - intros r. destruct (decide (r = next_ref s)) as [->|Hne]; [lia|].
    rewrite lookup_insert_ne by done. intros Hr. specialize (H7 r Hr). lia.
Qed.

(** Registration of [p] keeps the key table exact. *)
Lemma adopt_ipc tys count s p b n kk r :
  space_ok tys count s -> objs s !! p = Some (b, n) ->
  (key_of b <> 0 -> ipc_get (key_of b) s = None \/ ipc_get (key_of b) s = Some p) ->
  0 < wrap 32 (n + 1) ->
  (if key_of b =? 0 then ipc s else <[key_of b := Some p]> (ipc s)) !! kk = Some (Some r)
  <-> kk <> 0 /\ exists a x,
        alter (fun p => (fst p, wrap 32 (snd p + 1))) p (objs s) !! r = Some (a, x)
        /\ key_of a = kk /\ 0 < x.
Proof.
  intros Hs Hp Hreg Hpos. pose proof (so_ipc _ _ _ Hs) as Hipc.
  assert (Hself : exists x, alter (fun p => (fst p, wrap 32 (snd p + 1))) p (objs s) !! p
                  = Some (b, x) /\ 0 < x).
  { exists (wrap 32 (n + 1)). by rewrite lookup_alter_eq, Hp. }
  destruct Hself as (x0 & Hself & Hx0).
  destruct (decide (r = p)) as [->|Hne].
  - rewrite Hself. destruct (Z.eqb_spec (key_of b) 0) as [E|E].
    + split; [|by intros (? & a & x & [= <- <-] & <- & _)].
      intros (? & a & x & Ha & Hk & _)%Hipc. congruence.
    + destruct (decide (key_of b = kk)) as [<-|Hk].
      * rewrite lookup_insert_eq. split; [|done]. intros _. split; [done|]. eauto.
      * rewrite lookup_insert_ne by done. split.
        -- intros (? & a & x & Ha & Hk' & _)%Hipc. congruence.
        -- by intros (? & a & x & [= <- <-] & ? & _).
  - rewrite lookup_alter_ne by done. destruct (Z.eqb_spec (key_of b) 0) as [E|E].
    + apply Hipc.
    + destruct (decide (key_of b = kk)) as [<-|Hk]; [|rewrite lookup_insert_ne by done; apply Hipc].
      rewrite lookup_insert_eq. split; [congruence|]. intros Hr. apply Hipc in Hr.
      specialize (Hreg E). unfold ipc_get in Hreg. rewrite Hr in Hreg.
      destruct Hreg; congruence.
Qed.

(** An id is given to the object [p]; a keyed object is registered. *)
Lemma adopt_ok tys count s tr i id k highest p b n g reg :
  wf_types tys count -> tr ∈ tys -> space_ok tys count s ->
  vec_keys (ids s) !! i = Some k -> used k = false -> get_index tr id = Z.of_nat i ->
  highest_index (ids s) <= highest <= count -> Z.of_nat i < highest ->
  objs s !! p = Some (b, n) ->
  reg = (if key_of b =? 0 then ipc s else <[key_of b := Some p]> (ipc s)) ->
  (key_of b <> 0 -> ipc_get (key_of b) s = None \/ ipc_get (key_of b) s = Some p) ->
  let m := mk_map (<[i := Some p]> (vec_data (ids s)))
             (<[i := mk_key id (tr_type tr)]> (vec_keys (ids s))) highest in
  space_ok tys count
    (mk_space m (alter (fun p => (fst p, wrap 32 (snd p + 1))) p (objs s)) reg (next_ref s) g).
Proof.
  intros Ht Hin Hs Hk Hu Hg Hh Hi Hp -> Hreg m.
  pose proof (wm_free _ _ _ (so_map _ _ _ Hs) i k Hk) as Hd.
  assert (Hfree : vec_data (ids s) !! i = Some None).
  { apply Hd. revert Hu. unfold used. by destruct (Z.eqb_spec (m_base k) umax). }
  assert (Hrefs : forall r, refs m r
    = (refs (ids s) r + (if decide (r = p) then 1 else 0))%nat).
  { intros r. pose proof (refs_insert (vec_data (ids s)) highest
      (<[i:=mk_key id (tr_type tr)]> (vec_keys (ids s))) i None (Some p) r Hfree) as E.
    rewrite decide_False in E by done. unfold refs at 2. fold m in E.
    destruct (decide (r = p)) as [->|Hne].
    - rewrite decide_True in E by done. lia.
    - rewrite decide_False in E by congruence. lia. }
  pose proof (refs_bound _ _ _ p Hs) as Hb. pose proof Hs as [H1 H2 H3 H4 H5 H6 H7].
  pose proof (H4 _ _ _ Hp) as Hn.
  assert (Hw : wrap 32 (n + 1) = n + 1) by (apply wrap_id; unfold urange; lia).
  split; cbn [ids objs ipc next_ref].
  - by eapply create_stored_wf.
  - done.
  - intros j r Hj. rewrite <- elem_of_dom, dom_alter_L, elem_of_dom.
    destruct (decide (i = j)) as [<-|Hne].
    + unfold m in Hj. cbn in Hj.
      rewrite list_lookup_insert_eq in Hj by (by eapply lookup_lt_Some).
      injection Hj as <-. by eexists.
    + unfold m in Hj. cbn in Hj. rewrite list_lookup_insert_ne in Hj by done. eauto.
  - intros r c x. rewrite Hrefs. destruct (decide (r = p)) as [->|Hne].
    + rewrite lookup_alter_eq, Hp. cbn. intros [= <- <-]. lia.
    + rewrite lookup_alter_ne by done. intros E. rewrite (H4 _ _ _ E). lia.
  - intros kk r. apply (adopt_ipc tys count s p b n kk r Hs Hp Hreg). lia.
  - intros kk. destruct (Z.eqb_spec (key_of b) 0); [done|].
    destruct (decide (key_of b = kk)) as [->|];
      [by rewrite lookup_insert_eq|by rewrite lookup_insert_ne].
  - intros r Hr. apply H7. by rewrite <- elem_of_dom, dom_alter_L, elem_of_dom in Hr.
Qed.

(** ** What create does *)

(** The object a creation refers to when it does not make a new one. *)
Definition existing (pshared ipc_key : Z) s : option oref :=
  if pshared =? SYS_SYNC_PROCESS_SHARED then ipc_get ipc_key s else None.

(** The error of a creation whose attributes are valid and for which an id is
    free. *)
Definition attach_error (pshared ipc_key flags : Z) s : error_code :=
  match existing pshared ipc_key s with
  | Some _ => if flags =? SYS_SYNC_NEWLY_CREATED then CELL_EEXIST else CELL_OK
  | None => if (pshared =? SYS_SYNC_PROCESS_SHARED) && (flags =? SYS_SYNC_NOT_CREATE)
            then CELL_ESRCH else CELL_OK
  end.

(** The state after the provider: nothing was attached, or [p] is about to get
    an id. *)
Definition provided tys count s (p : option oref) s1 : Prop :=
  ids s1 = ids s /\ last_id s1 = last_id s
  /\ match p with
     | None => space_ok tys count s1
     | Some p => exists s0 b n, space_ok tys count s0 /\ ids s0 = ids s
         /\ objs s0 !! p = Some (b, n)
         /\ objs s1 = alter (fun p => (fst p, wrap 32 (snd p + 1))) p (objs s0)
         /\ next_ref s1 = next_ref s0
         /\ ipc s1 = (if key_of b =? 0 then ipc s0 else <[key_of b := Some p]> (ipc s0))
         /\ (key_of b <> 0 -> ipc_get (key_of b) s0 = None \/ ipc_get (key_of b) s0 = Some p)
     end.

Lemma registered_key tys count s k p :
  space_ok tys count s -> ipc_get k s = Some p ->
  k <> 0 /\ exists b n, objs s !! p = Some (b, n) /\ key_of b = k /\ ipc s !! k = Some (Some p).
Proof.
  intros Hs. unfold ipc_get. destruct (ipc s !! k) as [[q|]|] eqn:E; try done.
  intros [= ->]. apply (so_ipc _ _ _ Hs) in E as E'.
  destruct E' as (Hk & b & n & Hb & Hkb & _). eauto 10.
Qed.

(** Attaching to a registered object. *)
Lemma attach_provided tys count s s0 k p :
  space_ok tys count s0 -> ids s0 = ids s -> last_id s0 = last_id s ->
  ipc_get k s0 = Some p -> provided tys count s (Some p) (on_id_create p s0).
Proof.
  intros Hs Hi Hl Hg. destruct (registered_key _ _ _ _ _ Hs Hg) as (Hk & b & n & Hb & <- & E).
  split; [done|]. split; [done|]. exists s0, b, n.
  split; [done|]. split; [done|]. split; [done|]. split; [done|]. split; [done|].
  split; [|by right]. destruct (Z.eqb_spec (key_of b) 0); [done|]. cbn.
  symmetry. by apply insert_id.
Qed.

Lemma provider_ok tys count s pshared ipc_key flags make :
  space_ok tys count s -> valid_attrs pshared ipc_key flags true = true ->
  key_of make = (if pshared =? SYS_SYNC_PROCESS_SHARED then ipc_key else 0) ->
  let '(s1, p, e) := provider pshared ipc_key flags make s in
  e = attach_error pshared ipc_key flags s
  /\ (e = CELL_OK -> p = Some (default (next_ref s) (existing pshared ipc_key s)))
  /\ (e <> CELL_OK -> p = None)
  /\ provided tys count s p s1
  /\ (existing pshared ipc_key s = None -> e = CELL_OK ->
        fst <$> objs s1 !! next_ref s = Some make).
Proof.
  intros Hs Hv Hk. unfold provider, attach_error, existing.
  pose proof (make_ok tys count s make Hs) as Hs1.
  destruct (make_object make s) as [s1 r] eqn:Em.
  assert (E1 : ids s1 = ids s /\ last_id s1 = last_id s /\ ipc s1 = ipc s
               /\ objs s1 !! next_ref s = Some (make, 0) /\ r = next_ref s).
  { unfold make_object in Em. injection Em as <- <-. cbn. by rewrite lookup_insert_eq. }
  destruct E1 as (Ei & El & Ep & Eo & ->). cbn [fst] in Hs1. clear Em.
  assert (Hnew : forall reg, (key_of make <> 0 -> ipc_get (key_of make) s1 = None) ->
    reg = (if key_of make =? 0 then ipc s1 else <[key_of make := Some (next_ref s)]> (ipc s1)) ->
    provided tys count s (Some (next_ref s)) (with_ipc reg (on_id_create (next_ref s) s1))).
  { intros reg Hr ->. split; [done|]. split; [done|]. exists s1, make, 0. auto 10. }
  assert (Hfst : forall reg, fst <$> objs (with_ipc reg (on_id_create (next_ref s) s1)) !! next_ref s
                = Some make) by (intros; cbn; by rewrite lookup_alter_eq, Eo).
  unfold valid_attrs in Hv.
  destruct (Z.eqb_spec pshared SYS_SYNC_PROCESS_SHARED) as [E|E]; cbn [negb andb].
  2: { split; [done|]. split; [done|]. split; [done|]. split; [|by intros _ _; apply (Hfst (ipc s1))].
       apply (Hnew (ipc s1)); rewrite Hk; done. }
  apply andb_prop in Hv as [Hnz Hfl]. cbn [andb] in Hnz.
  assert (Hkz : ipc_key <> 0) by (by destruct (Z.eqb_spec ipc_key 0)).
  assert (Hg : ipc_get ipc_key s1 = ipc_get ipc_key s) by (unfold ipc_get; by rewrite Ep).
  destruct (Z.eqb_spec flags SYS_SYNC_NOT_CREATE) as [->|Hf].
  - rewrite Hg. destruct (ipc_get ipc_key s) as [p|] eqn:Eg; cbn.
    + do 3 (split; [done|]). split; [|done]. by eapply attach_provided.
    + do 3 (split; [done|]). split; [|done]. done.
  - unfold ipc_add. rewrite Hg. destruct (ipc_get ipc_key s) as [p|] eqn:Eg; cbn [negb].
    + assert (Eid : with_ipc (<[ipc_key := Some p]> (ipc s1)) s1 = s1).
      { destruct (registered_key _ _ _ _ _ Hs1 Hg) as (_ & _ & _ & _ & _ & E2).
        unfold with_ipc. rewrite insert_id by done. by destruct s1. }
      rewrite Eid. destruct (flags =? SYS_SYNC_NEWLY_CREATED); cbn [negb].
      * do 3 (split; [done|]). done.
      * do 3 (split; [done|]). split; [|done]. by eapply attach_provided.
    + cbn [default]. do 3 (split; [done|]). split; [|intros _ _; apply Hfst].
      apply Hnew; rewrite Hk; [done|]. by destruct (Z.eqb_spec ipc_key 0).
Qed.

Lemma full_iff tys count s tr a :
  wf_types tys count -> tr ∈ tys -> space_ok tys count s ->
  allocate_id tr (vec_keys (ids s)) (highest_index (ids s)) (tr_invalid tr) (last_id s) = Some a ->
  al_slot a = None <-> Forall is_Some (vec_data (ids s)).
Proof.
  intros Ht Hin Hs Ea. pose proof (so_map _ _ _ Hs) as Hm.
  pose proof (allocate_ok tys count (ids s) tr _ _ a Ht Hin Hm Ea) as [_ H].
  pose proof (wm_data _ _ _ Hm). pose proof (wm_keys _ _ _ Hm).
  destruct (al_slot a) as [i|].
  - split; [done|]. intros Hall. destruct H as (k & Hk & Hf & _).
    assert (Hd : vec_data (ids s) !! i = Some None).
    { apply (wm_free _ _ _ Hm i k Hk). revert Hf. unfold used.
      by destruct (Z.eqb_spec (m_base k) umax). }
    by destruct (Forall_lookup_1 _ _ _ _ Hall Hd).
  - split; [|done]. intros _. destruct H as [_ H]. apply Forall_lookup_2. intros i d Hd.
    destruct (lookup_lt_is_Some_2 (vec_keys (ids s)) i) as [k Hk];
      [apply lookup_lt_Some in Hd; lia|].
    specialize (H eq_refl k (list_elem_of_lookup_2 _ _ _ Hk)).
    destruct (wm_used _ _ _ Hm i k Hk) as (_ & [o Ho] & _).
    { revert H. unfold used. by destruct (Z.eqb_spec (m_base k) umax). }
    rewrite Ho in Hd. injection Hd as <-. eauto.
Qed.

(** A failed creation after an id was tried. *)
Lemma failed_ok tys count s m g :
  space_ok tys count s -> wf_map tys count m -> vec_data m = vec_data (ids s) ->
  space_ok tys count (mk_space m (objs s) (ipc s) (next_ref s) g).
Proof.
  intros [H1 H2 H3 H4 H5 H6 H7] Hm Hd. split; cbn [ids objs ipc next_ref]; try done.
  - by rewrite Hd.
  - intros r a n Hr. unfold refs. rewrite Hd. by apply H4 in Hr.
Qed.

Lemma on_id_destroy_ids r s : ids (on_id_destroy r s) = ids s.
Proof. unfold on_id_destroy. destruct (objs s !! r) as [[a n]|]; [|done]. by case_match. Qed.

(** The id at slot [i] gives up its reference. *)
Lemma drop_ok tys count s i r a n g :
  space_ok tys count s -> vec_data (ids s) !! i = Some (Some r) ->
  objs s !! r = Some (a, n) ->
  space_ok tys count
    (mk_space (erase_slot (ids s) i) (<[r := (a, n - 1)]> (objs s))
       (if (n =? 1) && negb (key_of a =? 0) then delete (key_of a) (ipc s) else ipc s)
       (next_ref s) g).
Proof.
  intros Hs Hd Hr. pose proof Hs as [H1 H2 H3 H4 H5 H6 H7].
  pose proof (H4 _ _ _ Hr) as Hn. pose proof (refs_pos _ _ _ _ _ Hs Hd) as Hpos.
  assert (Hrefs : forall r', (refs (erase_slot (ids s) i) r' + (if decide (r' = r) then 1 else 0)
                        = refs (ids s) r')%nat).
  { intros r'. pose proof (refs_insert (vec_data (ids s)) (highest_index (ids s))
      (alter clear_key i (vec_keys (ids s))) i (Some r) None r' Hd) as E.
    rewrite (decide_False (P := None = Some r')) in E by done.
    unfold refs at 2. fold (erase_slot (ids s) i) in E.
    destruct (decide (r' = r)) as [->|]; [rewrite decide_True in E by done
      |rewrite decide_False in E by congruence]; lia. }
  split; cbn [ids objs ipc next_ref].
  - by apply erase_wf.
  - done.
  - intros j r' Hj. cbn in Hj. destruct (decide (i = j)) as [<-|Hne].
    + rewrite list_lookup_insert_eq in Hj by (by eapply lookup_lt_Some). done.
    + rewrite list_lookup_insert_ne in Hj by done.
      rewrite lookup_insert_is_Some'. right. eauto.
  - intros r' b x. specialize (Hrefs r'). destruct (decide (r' = r)) as [->|Hne].
    + rewrite lookup_insert_eq. intros [= <- <-]. lia.
    + rewrite lookup_insert_ne by done. intros E. rewrite (H4 _ _ _ E). lia.
  - intros k r'. destruct (decide (r' = r)) as [->|Hne].
    + rewrite lookup_insert_eq. destruct (Z.eqb_spec n 1) as [->|Hn1]; cbn [andb].
      * split; [|by intros (_ & b & x & [= <- <-] & _ & ?)]. intros E. exfalso.
        destruct (Z.eqb_spec (key_of a) 0) as [Ez|Ez]; cbn [negb] in E.
        -- apply H5 in E as (? & b & x & Eb & Ek & _). congruence.
        -- apply lookup_delete_Some in E as [Hk E].
           apply H5 in E as (_ & b & x & Eb & Ek & _). congruence.
      * rewrite H5. apply and_iff_compat_l. split.
        -- intros (b & x & Eb & Ek & _). rewrite Hr in Eb. injection Eb as <- <-.
           exists a, (n - 1). split; [done|]. split; [done|lia].
        -- intros (b & x & [= <- <-] & Ek & _). exists a, n. split; [done|]. split; [done|lia].
    + rewrite lookup_insert_ne by done. rewrite <- H5.
      destruct ((n =? 1) && negb (key_of a =? 0)) eqn:E; [|done].
      apply andb_prop in E as [E1%Z.eqb_eq E2%negb_true_iff%Z.eqb_neq].
      rewrite lookup_delete_Some. split; [tauto|]. intros Hk. split; [|done].
      intros <-. assert (Ha : ipc s !! key_of a = Some (Some r)); [|congruence].
      apply H5. split; [done|]. exists a, n. split; [done|]. split; [done|lia].
  - intros k. case_match; [|apply H6]. intros E.
    apply lookup_delete_Some in E as [_ E]. by apply (H6 k).
  - intros r' [Hx|Hx]%lookup_insert_is_Some'; [|by apply H7].
    subst r'. apply H7. by eexists.
Qed.

Lemma destroy_ok tys count s tr id r a n :
  wf_types tys count -> tr ∈ tys -> space_ok tys count s ->
  find_id tr (ids s) id = Some r -> objs s !! r = Some (a, n) -> destroy_test a = None ->
  let '(s', e) := destroy tr id s in
  e = CELL_OK /\ space_ok tys count s'
  /\ objs s' !! r = Some (a, n - 1)
  /\ (forall tr' id', tr' ∈ tys -> find_id tr' (ids s') id'
        = if (tr_type tr' =? tr_type tr) && (id' =? id) then None
          else find_id tr' (ids s) id')
  /\ (forall r', r' <> r -> objs s' !! r' = objs s !! r')
  /\ (forall k, ipc_get k s' = if (k =? key_of a) && (n =? 1) && negb (k =? 0)
                              then None else ipc_get k s).
Proof.
  intros Ht Hin Hs Hf Hr Htest. unfold destroy. rewrite Hf, Hr, Htest.
  rewrite on_id_destroy_ids. pose proof Hs as [H1 H2 H3 H4 H5 H6 H7].
  unfold withdraw. rewrite (check_id_find tys count Ht (ids s) tr id Hin H1), Hf.
  pose proof (find_id_slot tys count Ht tr (ids s) id r Hin H1) as [Hslot _].
  destruct (Hslot Hf) as (i & Hk & Hd).
  pose proof (wt_type _ (ty_wf _ _ Ht tr Hin)) as Hty.
  assert (Hi : Z.to_nat (get_index tr id) = i).
  { destruct (wm_used _ _ _ H1 i _ Hk) as (_ & _ & t & It & Tt & Gt); [done|].
    cbn [m_base m_value] in *. apply (ty_inj _ _ Ht) in Tt as <-; [|done..]. lia. }
  pose proof (H4 _ _ _ Hr) as Hn. pose proof (refs_pos _ _ _ _ _ Hs Hd) as Hpos.
  pose proof (refs_bound _ _ _ r Hs) as Hb.
  assert (Hobjs : objs (on_id_destroy r s) = <[r := (a, n - 1)]> (objs s)
    /\ ipc (on_id_destroy r s) = (if (n =? 1) && negb (key_of a =? 0)
                                  then delete (key_of a) (ipc s) else ipc s)
    /\ next_ref (on_id_destroy r s) = next_ref s).
  { unfold on_id_destroy. rewrite Hr, (wrap_id 32 (n - 1)) by (unfold urange; lia).
    by case_match. }
  destruct Hobjs as (-> & -> & ->). rewrite Hi.
  split; [done|]. split; [|split; [|split; [|split]]]; cbn [objs ids ipc].
  - by apply drop_ok.
  - by rewrite lookup_insert_eq.
  - intros tr' id' Hin'. rewrite <- Hi. by eapply (erase_find tys count Ht).
  - intros r' Hne. by rewrite lookup_insert_ne.
  - intros k. unfold ipc_get. cbn [ipc].
    destruct (Z.eqb_spec n 1), (Z.eqb_spec (key_of a) 0), (Z.eqb_spec k (key_of a)),
      (Z.eqb_spec k 0); cbn [andb negb]; try done; try congruence.
    + subst k. by rewrite lookup_delete_eq.
    + by rewrite lookup_delete_ne.
    + by rewrite lookup_delete_ne.
Qed.

End Create.

Arguments space : clear implicits.

(** What a creation that ends in [s'] with [e] has done. *)
Definition create_result {A} {LO : Lv2Object A} (tys : list id_traits) (count : Z)
    (tr : id_traits) (pshared ipc_key flags : Z) (make : A) (s s' : space A) (e : error_code)
    : Prop :=
  space_ok tys count s'
  /\ (valid_attrs pshared ipc_key flags true = false -> e = CELL_EINVAL /\ s' = s)
  /\ (valid_attrs pshared ipc_key flags true = true ->
        (Forall is_Some (vec_data (ids s)) -> e = CELL_EAGAIN)
        /\ (~ Forall is_Some (vec_data (ids s)) -> e = attach_error pshared ipc_key flags s))
  /\ (e <> CELL_OK -> forall tr' id', tr' ∈ tys ->
        find_id tr' (ids s') id' = find_id tr' (ids s) id')
  /\ (e = CELL_OK -> exists r,
        match existing pshared ipc_key s with
        | Some q => r = q
        | None => objs s !! r = None /\ fst <$> objs s' !! r = Some make
        end
        /\ find_id tr (ids s) (last_id s') = None
        /\ forall tr' id', tr' ∈ tys -> find_id tr' (ids s') id'
             = if (tr_type tr' =? tr_type tr) && (id' =? last_id s') then Some r
               else find_id tr' (ids s) id').

Lemma create_ok {A} {LO : Lv2Object A} (tys : list id_traits) (count : Z)
    (tr : id_traits) (pshared ipc_key flags : Z) (make : A) (s : space A) :
  wf_types tys count -> tr ∈ tys -> space_ok tys count s ->
  key_of make = (if pshared =? SYS_SYNC_PROCESS_SHARED then ipc_key else 0) ->
  exists s' e, create tr pshared ipc_key flags make true s = Some (s', e)
    /\ create_result tys count tr pshared ipc_key flags make s s' e.
Proof.
  intros Ht Hin Hs Hk. unfold create, create_result.
  destruct (valid_attrs pshared ipc_key flags true) eqn:Hv; cbn [negb];
    [|by exists s, CELL_EINVAL].
  pose proof (so_map _ _ _ Hs) as Hm.
  destruct (create_id_refines tys count (ids s) tr (Some 1%positive) (tr_invalid tr)
    (last_id s) Ht Hin Hm) as [Htot _]. specialize (Htot eq_refl).
  destruct (allocate_id _ _ _ _ _) as [a|] eqn:Ea.
  2: { unfold create_id in Htot. rewrite Ea in Htot. by destruct Htot. }
  pose proof (full_iff tys count s tr a Ht Hin Hs Ea) as Hfull.
  pose proof (allocate_ok tys count (ids s) tr _ _ a Ht Hin Hm Ea) as [Hh Hslot].
  rewrite (ty_count _ _ Ht tr Hin) in Hh.
  destruct (al_slot a) as [i|] eqn:Esl.
  - pose proof (provider_ok tys count s pshared ipc_key flags make Hs Hv Hk) as P.
    destruct (provider pshared ipc_key flags make s) as [[s1 p] e].
    destruct P as (Pe & Pok & Perr & (Pi & Pl & Pp) & Pnew). rewrite Pi, Pl.
    unfold create_id. rewrite Ea, Esl.
    destruct Hslot as (k & Ek & Hfree & Hlt & Hkeys & Hg & _). rewrite Hkeys.
    assert (Hnf : ~ Forall is_Some (vec_data (ids s))) by (by intros ?%Hfull).
    destruct p as [p|].
    + assert (e = CELL_OK) as -> by (destruct (decide (e = CELL_OK)); [done|by apply Perr in n]).
      specialize (Pok eq_refl). injection Pok as Pok.
      destruct Pp as (s0 & b & n & Hs0 & Hi0 & Hb & Ho & Hn & Hipc & Hreg).
      eexists _, CELL_OK. split; [reflexivity|]. split.
      { rewrite Ho, Hn, Hipc, <- Hi0. rewrite <- Hi0 in Ek, Hh.
        eapply adopt_ok; eauto. }
      split; [done|]. split; [by split|]. split; [done|]. intros _. exists p. split.
      { destruct (existing pshared ipc_key s) as [q|]; cbn in Pok; [done|].
        subst p. split; [by eapply fresh_none|]. by apply Pnew. }
      cbn [last_id ids]. split; [by eapply free_slot_find|].
      intros tr' id' Hin'. by eapply create_stored_find.
    + rewrite list_insert_insert_eq.
      assert (K : exists i0 k0 v, vec_keys (ids s) !! i0 = Some k0 /\ used k0 = false
          /\ <[i:=empty_key]> (vec_keys (ids s)) = <[i0 := mk_key v umax]> (vec_keys (ids s)))
          by (exists i, k, 0; done).
      assert (He : e <> CELL_OK) by (intros ->; by specialize (Pok eq_refl)).
      eexists _, e. split; [reflexivity|]. split.
      { eapply (failed_ok tys count s1); [done| |by rewrite Pi].
        eapply create_failed_wf; eauto. }
      split; [done|]. split; [by split|]. split; [|done].
      intros _ tr' id' Hin'. cbn [ids]. eapply create_failed_find; eauto.
  - unfold create_id. rewrite Ea, Esl. destruct Hslot as [-> _].
    eexists _, CELL_EAGAIN. split; [reflexivity|]. split.
    { eapply (failed_ok tys count s); [done| |done]. eapply create_failed_wf; eauto. }
    split; [done|]. split.
    { intros _. split; [done|]. intros []. by apply Hfull. }
    split; [|done]. intros _ tr' id' Hin'. cbn [ids]. eapply create_failed_find; eauto.
Qed.

(** ** Properties *)

(** Lv2_obj::create.  From a state where [exists] counts the ids of every
    object and the IPC table lists exactly the live keyed objects, a creation
    always ends, keeps both facts, and returns: CELL_EINVAL for attributes that
    are not valid (and nothing changes); CELL_EAGAIN when every id is taken;
    CELL_ESRCH for SYS_SYNC_NOT_CREATE with an unregistered key; CELL_EEXIST for
    SYS_SYNC_NEWLY_CREATED with a registered one; otherwise CELL_OK, with the
    new id naming the registered object of the key, or the object just made,
    and every other id naming what it named.  On an error every id names what
    it named. *)
Theorem create_spec {A} {LO : Lv2Object A} (tys : list id_traits) (count : Z)
    (tr : id_traits) (pshared ipc_key flags : Z) (make : A) (s : space A) :
  wf_types tys count -> tr ∈ tys -> space_ok tys count s ->
  key_of make = (if pshared =? SYS_SYNC_PROCESS_SHARED then ipc_key else 0) ->
  exists s' e, create tr pshared ipc_key flags make true s = Some (s', e)
    /\ create_result tys count tr pshared ipc_key flags make s s' e.
Proof. apply create_ok. Qed.

(** An empty process, for objects that are just their key. *)
#[local] Instance key_object : Lv2Object Z := {| key_of := fun x => x; destroy_test := fun _ => None |}.

Definition empty_space (n : nat) : space Z := mk_space (empty_map n) ∅ ∅ 1%positive 0.

Lemma empty_space_ok n :
  Z.of_nat n < 2 ^ 31 -> space_ok sample_types (Z.of_nat n) (empty_space n).
Proof.
  intros Hn. split; cbn; try done.
  - apply empty_map_wf.
  - intros i r Hi. by apply lookup_replicate in Hi as [? _].
  - intros k r. split; [by rewrite lookup_empty|]. intros (_ & a & n' & E & _).
    by rewrite lookup_empty in E.
  - intros r [x E]. by rewrite lookup_empty in E.
Qed.

Lemma create_spec_witness :
  exists s1 s2, create (small_traits 0x96000000) SYS_SYNC_PROCESS_SHARED 0x42
      SYS_SYNC_NEWLY_CREATED 0x42 true (empty_space 16) = Some (s1, CELL_OK)
  /\ create (small_traits 0x96000000) SYS_SYNC_PROCESS_SHARED 0x42
      SYS_SYNC_NOT_CREATE 0x42 true s1 = Some (s2, CELL_OK)
  /\ find_id (small_traits 0x96000000) (ids s2) 0x96000000
     = find_id (small_traits 0x96000000) (ids s2) (last_id s2).
Proof.
  destruct (create_spec sample_types 16 (small_traits 0x96000000)
    SYS_SYNC_PROCESS_SHARED 0x42 SYS_SYNC_NEWLY_CREATED 0x42 (empty_space 16)
    sample_types_wf sample_types_sema (empty_space_ok 16 eq_refl) eq_refl)
    as (s1 & e1 & E1 & Hs1 & _).
  pose proof E1 as C1. vm_compute in C1. injection C1 as <- <-.
  destruct (create_spec sample_types 16 (small_traits 0x96000000)
    SYS_SYNC_PROCESS_SHARED 0x42 SYS_SYNC_NOT_CREATE 0x42 _
    sample_types_wf sample_types_sema Hs1 eq_refl)
    as (s2 & e2 & E2 & _).
  pose proof E2 as C2. vm_compute in C2. injection C2 as <- <-.
  eexists _, _. split; [exact E1|]. split; [exact E2|]. vm_compute. reflexivity.
Defined.

(** C29: the destroy syscalls.  An id that names nothing gives CELL_ESRCH, and
    an object that refuses keeps its id, both without a change; otherwise
    exactly this id stops naming the object, [exists] drops by one, and the IPC
    key of the object is unregistered exactly when the last id goes - other ids
    of a shared object keep working and its key can still be opened.  The
    reference counts and the IPC table stay exact. *)
Theorem destroy_spec {A} {LO : Lv2Object A} (tys : list id_traits) (count : Z)
    (tr : id_traits) (id : Z) (s : space A) :
  wf_types tys count -> tr ∈ tys -> space_ok tys count s ->
  let '(s', e) := destroy tr id s in
  space_ok tys count s'
  /\ match find_id tr (ids s) id with
     | None => e = CELL_ESRCH /\ s' = s
     | Some r => exists a n, objs s !! r = Some (a, n) /\ n = Z.of_nat (refs (ids s) r)
         /\ match destroy_test a with
            | Some err => e = err /\ s' = s
            | None => e = CELL_OK /\ objs s' !! r = Some (a, n - 1)
                /\ (forall tr' id', tr' ∈ tys -> find_id tr' (ids s') id'
                      = if (tr_type tr' =? tr_type tr) && (id' =? id) then None
                        else find_id tr' (ids s) id')
                /\ (key_of a <> 0 -> ipc_get (key_of a) s = Some r
                      /\ ipc_get (key_of a) s' = if n =? 1 then None else Some r)
            end
     end.
Proof.
  intros Ht Hin Hs.
  destruct (find_id tr (ids s) id) as [r|] eqn:Ef.
  2: { unfold destroy. by rewrite Ef. }
  pose proof (find_id_slot tys count Ht tr (ids s) id r Hin (so_map _ _ _ Hs)) as [Hslot _].
  destruct (Hslot Ef) as (i & _ & Hd).
  destruct (so_ref _ _ _ Hs i r Hd) as [[a n] Hr].
  pose proof (so_count _ _ _ Hs _ _ _ Hr) as Hn.
  destruct (destroy_test a) as [err|] eqn:Et.
  { unfold destroy. rewrite Ef, Hr, Et. split; [done|]. exists a, n. by rewrite Et. }
  pose proof (destroy_ok tys count s tr id r a n Ht Hin Hs Ef Hr Et) as D.
  destruct (destroy tr id s) as [s' e].
  destruct D as (-> & Hs' & Ho & Hfind & _ & Hipc).
  split; [done|]. exists a, n. rewrite Et. do 5 (split; [done|]). intros Hk.
  assert (Hg : ipc_get (key_of a) s = Some r).
  { unfold ipc_get. pose proof (refs_pos _ _ _ _ _ Hs Hd).
    assert (E : ipc s !! key_of a = Some (Some r)); [|by rewrite E].
    apply (so_ipc _ _ _ Hs). split; [done|]. exists a, n. split; [done|]. split; [done|lia]. }
  split; [done|]. rewrite Hipc, Z.eqb_refl, Hg.
  destruct (Z.eqb_spec n 1), (Z.eqb_spec (key_of a) 0); done.
Qed.

Lemma destroy_spec_witness :
  find_id (small_traits 0x96000000) (ids (fst (destroy
    (small_traits 0x96000000) 0x96000000 (empty_space 16)))) 0x96000000 = None.
Proof.
  pose proof (destroy_spec sample_types 16 (small_traits 0x96000000)
    0x96000000 (empty_space 16) sample_types_wf sample_types_sema
    (empty_space_ok 16 eq_refl)) as H.
  destruct (destroy _ _ _) as [s' e]. destruct H as [_ H].
  replace (find_id _ (ids (empty_space 16)) _) with (@None oref) in H
    by (vm_compute; reflexivity).
  destruct H as [_ ->]. vm_compute. reflexivity.
Defined.
