(* ===== verification/Lv2Mutex.v ===== *)
(** * LV2 mutexes

    kernel/cellos/include/cellos/sys_mutex.h and src/sys_mutex.cpp.  The owner
    and the head of the sleep queue form one 16-byte atomic ([control]);
    ownership is handed directly from the unlocking thread to a waiter.  Each
    definition is one atomic region of a syscall: an operation on [control], or
    a critical section of [mutex].  [interfered] says that another thread
    changed [control] between the load and the compare-and-swap of a region,
    which then fails; [retries] counts the failed rounds of an atomic_op, each
    of which takes an order tag. *)

From stdpp Require Import base numbers list gmap tactics.
From Stdlib Require Import Lia.
From S2P Require Import Prelude Lv2Obj.

Open Scope Z_scope.

(** struct lv2_mutex; [owner] and [msq] are control_data_t. *)
Record lv2_mutex := mk_mutex {
  m_protocol : Z;
  m_recursive : Z;
  m_adaptive : Z;
  m_key : Z;
  m_name : Z;
  cond_count : Z;
  lock_count : Z;
  owner : Z;
  msq : ptr
}.

(** The state the regions share. *)
Record mstate := mk_mstate {
  mx : lv2_mutex;
  mthr : store;
  mtag : Z
}.

Definition mqueue (k : mstate) : queue := mk_queue (msq (mx k)) (mthr k).

Definition set_control (o : Z) (q : queue) (k : mstate) : mstate :=
  let m := mx k in
  mk_mstate (mk_mutex (m_protocol m) (m_recursive m) (m_adaptive m) (m_key m)
               (m_name m) (cond_count m) (lock_count m) o (first q))
    (threads q) (mtag k).

Definition set_owner (o : Z) (k : mstate) : mstate := set_control o (mqueue k) k.

Definition set_lock_count (c : Z) (k : mstate) : mstate :=
  let m := mx k in
  mk_mstate (mk_mutex (m_protocol m) (m_recursive m) (m_adaptive m) (m_key m)
               (m_name m) (cond_count m) c (owner m) (msq m))
    (mthr k) (mtag k).

Definition on_thread (f : ppu_thread -> ppu_thread) (t : tid) (k : mstate) : mstate :=
  mk_mstate (mx k) (alter f t (mthr k)) (mtag k).

Definition set_mtag (tag : Z) (k : mstate) : mstate := mk_mstate (mx k) (mthr k) tag.

(** ** lv2_mutex operations; [id] is cpu.id *)

Definition try_lock (interfered : bool) (id : Z) (k : mstate) : mstate * error_code :=
  if owner (mx k) =? 0 then
    if interfered then (k, CELL_EBUSY) else (set_owner id k, CELL_OK)
  else if owner (mx k) =? id then
    if m_recursive (mx k) =? SYS_SYNC_RECURSIVE then
      if lock_count (mx k) =? 0xffffffff then (k, CELL_EKRESOURCE)
      else (set_lock_count (wrap 32 (lock_count (mx k) + 1)) k, CELL_OK)
    else (k, CELL_EDEADLK)
  else (k, CELL_EBUSY).

(** prio.order = tag, without the savestate exception of emplace. *)
Definition set_order (tag : Z) (t : ppu_thread) : ppu_thread :=
  mk_thread (th_id t) (next_cpu t) (prio t) (sext 50 tag) (preserve_bit t) (th_state t) (gpr3 t).

(** try_own: take a free mutex or enqueue the thread. *)
Definition try_own (retries : Z) (t : tid) (id : Z) (k : mstate) : mstate * bool :=
  let tag := wrap 64 (mtag k + retries + 1) in
  if negb (owner (mx k) =? 0) then
    let k1 := on_thread (set_order tag) t (set_mtag tag k) in
    let q := release (mqueue k1) (s_next t) (msq (mx k1)) in
    (set_control (owner (mx k1)) (release q s_first (Some t)) k1, false)
  else
    let k1 := set_owner id k in
    (on_thread (set_next None) t k1, true).

Definition try_unlock (interfered : bool) (id : Z) (k : mstate) : mstate * error_code :=
  if negb (owner (mx k) =? id) then (k, CELL_EPERM)
  else if negb (lock_count (mx k) =? 0) then
    (set_lock_count (wrap 32 (lock_count (mx k) - 1)) k, CELL_OK)
  else
    match msq (mx k) with
    | None => if interfered then (k, CELL_EBUSY) else (set_owner 0 k, CELL_OK)
    | Some _ => (k, CELL_EBUSY)
    end.

(** reown: pass the mutex to the next waiter; [None] is a dangling pointer. *)
Definition reown (k : mstate) : run (mstate * ptr) :=
  match msq (mx k) with
  | None => Some (set_owner 0 k, None)
  | Some _ =>
      '(res, q) ← schedule (mqueue k) (m_protocol (mx k)) false;
      r ← res;
      n ← threads q !! r;
      let k1 :=
        if decide (msq (mx k) = first q)
        then set_control (if again n then owner (mx k) else th_id n) q k
        else set_control (th_id n) q k in
      Some (if again n then k1 else on_thread (set_next None) r k1, Some r)
  end.

(** ** Syscalls *)

(** sys_mutex_lock up to the wait loop: an attempt with try_lock (repeated
    while busy waiting) ... *)
Definition lock_try (interfered : bool) (id : Z) (k : mstate) : mstate * reply :=
  match try_lock interfered id k with
  | (k1, CELL_EBUSY) => (k1, Retry)
  | (k1, e) => (k1, Returned e)
  end.

(** ... then try_own; gpr[3] is CELL_OK when the thread goes to sleep. *)
Definition lock_own (retries : Z) (t : tid) (id : Z) (k : mstate) : mstate * reply :=
  match try_own retries t id k with
  | (k1, true) => (k1, Returned CELL_OK)
  | (k1, false) => (on_thread (set_gpr3 CELL_OK) t k1, Blocked)
  end.

Definition lock_result (t : tid) (k : mstate) : reply :=
  match mthr k !! t with
  | Some n =>
      if gpr3 n =? error_value CELL_OK then Returned CELL_OK
      else Returned CELL_ETIMEDOUT
  | None => Fatal
  end.

Definition lock_signaled (t : tid) (k : mstate) : mstate * reply :=
  let k1 := on_thread (set_state (del_flag cf_signal)) t k in
  (k1, lock_result t k1).

Definition lock_stopped (t : tid) (k : mstate) : mstate * reply :=
  match any_waiting (is_thread t) (mqueue k) with
  | None => (k, Fatal)
  | Some true => (on_thread (set_state (add_flag cf_again)) t k, Again)
  | Some false => (k, lock_result t k)
  end.

(** The expired timeout: unqueue<false> works on a copy of the head, which is
    stored back only when the head itself left. *)
Definition lock_timed_out (t : tid) (k : mstate) : mstate * reply :=
  match msq (mx k) with
  | None => (k, lock_result t k)
  | Some _ =>
      match unqueue false (mqueue k) t with
      | None => (k, Fatal)
      | Some (None, _) => (k, lock_result t k)
      | Some (Some _, q) =>
          let k1 := set_control (owner (mx k)) q k in
          (on_thread (set_gpr3 CELL_ETIMEDOUT) t (on_thread (set_next None) t k1),
           Returned CELL_ETIMEDOUT)
      end
  end.

(** sys_mutex_trylock *)
Definition sys_mutex_trylock (interfered : bool) (id : Z) (k : mstate) : mstate * reply :=
  let '(k1, e) := try_lock interfered id k in (k1, Returned e).

(** sys_mutex_unlock by thread [t]; the last component is the thread passed to
    awake. *)
Definition sys_mutex_unlock (interfered : bool) (t : tid) (id : Z) (k : mstate)
    : mstate * reply * ptr :=
  match try_unlock interfered id k with
  | (k1, CELL_EBUSY) =>
      match reown k1 with
      | None => (k1, Fatal, None)
      | Some (k2, None) => (k2, Returned CELL_OK, None)
      | Some (k2, Some r) =>
          match mthr k2 !! r with
          | None => (k2, Fatal, None)
          | Some n =>
              if again n
              then (on_thread (set_state (add_flag cf_again)) t k2, Again, None)
              else (k2, Returned CELL_OK, Some r)
          end
      end
  | (k1, e) => (k1, Returned e, None)
  end.

(** The test of sys_mutex_destroy. *)
Definition mutex_destroy_test (m : lv2_mutex) : option error_code :=
  if negb (owner m =? 0) then Some CELL_EBUSY
  else if negb (cond_count m =? 0) then Some CELL_EPERM
  else None.

(** ** The regions as events *)
Inductive mevent :=
| LockTry (t : tid) (interfered : bool)
| LockOwn (t : tid) (retries : Z)
| LockSignaled (t : tid)
| LockStopped (t : tid)
| LockTimedOut (t : tid)
| TryLock (t : tid) (interfered : bool)
| Unlock (t : tid) (interfered : bool).

Definition event_thread (e : mevent) : tid :=
  match e with
  | LockTry t _ | LockOwn t _ | LockSignaled t | LockStopped t | LockTimedOut t
  | TryLock t _ | Unlock t _ => t
  end.

Definition id_of (h : store) (t : tid) : Z :=
  match h !! t with Some n => th_id n | None => 0 end.

Definition mexec (e : mevent) (k : mstate) : mstate * reply * ptr :=
  match e with
  | LockTry t i => (lock_try i (id_of (mthr k) t) k, None)
  | LockOwn t r => (lock_own r t (id_of (mthr k) t) k, None)
  | LockSignaled t => (lock_signaled t k, None)
  | LockStopped t => (lock_stopped t k, None)
  | LockTimedOut t => (lock_timed_out t k, None)
  | TryLock t i => (sys_mutex_trylock i (id_of (mthr k) t) k, None)
  | Unlock t i => sys_mutex_unlock i t (id_of (mthr k) t) k
  end.

(** ** The lock a mutex implements *)

Inductive alock :=
| AFree
| AHeld (id : Z) (depth : Z) (waiters : list tid).

Definition waiters_of (a : alock) : list tid :=
  match a with AFree => [] | AHeld _ _ w => w end.

(** The result a wait loop ends with: what gpr[3] holds. *)
Definition wait_end (r : reply) : Prop :=
  r = Returned CELL_OK \/ r = Returned CELL_ETIMEDOUT.

(** One region as seen by the users of the mutex: [h] gives the threads'
    priorities, ids and flags, [awakened] the thread that is resumed. *)
Inductive astep (h : store) (protocol recursive : Z)
  : mevent -> alock -> reply -> ptr -> alock -> Prop :=
| a_acquire t e :
    e = LockTry t false \/ e = TryLock t false \/ (exists r, e = LockOwn t r) ->
    astep h protocol recursive e AFree (Returned CELL_OK) None (AHeld (id_of h t) 0 [])
| a_recurse t e i d w :
    e = LockTry t i \/ e = TryLock t i ->
    recursive = SYS_SYNC_RECURSIVE -> 0 <= d < 0xffffffff ->
    astep h protocol recursive e (AHeld (id_of h t) d w) (Returned CELL_OK) None
      (AHeld (id_of h t) (d + 1) w)
| a_recurse_full t e i w :
    e = LockTry t i \/ e = TryLock t i -> recursive = SYS_SYNC_RECURSIVE ->
    astep h protocol recursive e (AHeld (id_of h t) 0xffffffff w)
      (Returned CELL_EKRESOURCE) None (AHeld (id_of h t) 0xffffffff w)
| a_deadlock t e i d w :
    e = LockTry t i \/ e = TryLock t i -> recursive <> SYS_SYNC_RECURSIVE ->
    astep h protocol recursive e (AHeld (id_of h t) d w) (Returned CELL_EDEADLK) None
      (AHeld (id_of h t) d w)
| a_busy t i a :
    (a = AFree /\ i = true) \/ (exists o d w, a = AHeld o d w /\ o <> id_of h t) ->
    astep h protocol recursive (TryLock t i) a (Returned CELL_EBUSY) None a
| a_retry t i a :
    (a = AFree /\ i = true) \/ (exists o d w, a = AHeld o d w /\ o <> id_of h t) ->
    astep h protocol recursive (LockTry t i) a Retry None a
| a_enqueue t r o d w :
    o <> id_of h t ->
    astep h protocol recursive (LockOwn t r) (AHeld o d w) Blocked None (AHeld o d (t :: w))
| a_timeout t o d w :
    t ∈ w ->
    astep h protocol recursive (LockTimedOut t) (AHeld o d w) (Returned CELL_ETIMEDOUT) None
      (AHeld o d (without t w))
| a_signaled t r a :
    wait_end r -> astep h protocol recursive (LockSignaled t) a r None a
| a_stopped t r a :
    (if decide (t ∈ waiters_of a) then r = Again else wait_end r) ->
    astep h protocol recursive (LockStopped t) a r None a
| a_late t r a :
    t ∉ waiters_of a -> wait_end r ->
    astep h protocol recursive (LockTimedOut t) a r None a
| a_not_owner t i a :
    (forall d w, a <> AHeld (id_of h t) d w) ->
    astep h protocol recursive (Unlock t i) a (Returned CELL_EPERM) None a
| a_leave t i d w :
    0 < d ->
    astep h protocol recursive (Unlock t i) (AHeld (id_of h t) d w) (Returned CELL_OK) None
      (AHeld (id_of h t) (d - 1) w)
| a_release t i :
    astep h protocol recursive (Unlock t i) (AHeld (id_of h t) 0 []) (Returned CELL_OK) None AFree
| a_handoff t i w x n :
    selects h protocol w x -> h !! x = Some n -> again n = false ->
    astep h protocol recursive (Unlock t i) (AHeld (id_of h t) 0 w) (Returned CELL_OK) (Some x)
      (AHeld (th_id n) 0 (without x w))
| a_restart t i w x n :
    selects h protocol w x -> h !! x = Some n -> again n = true ->
    astep h protocol recursive (Unlock t i) (AHeld (id_of h t) 0 w) Again None
      (AHeld (id_of h t) 0 w).

(** ** Invariant and abstraction *)

Record mutex_ok (k : mstate) (l : list tid) : Prop := {
  mo_queue : waits (mqueue k) l;
  mo_free : owner (mx k) = 0 -> l = [] /\ lock_count (mx k) = 0;
  mo_range : 0 <= lock_count (mx k) < 2 ^ 32;
  mo_self : forall x n, x ∈ l -> mthr k !! x = Some n -> th_id n <> owner (mx k);
  mo_ids : forall t n, mthr k !! t = Some n -> th_id n <> 0;
  mo_inj : forall t t' n n', mthr k !! t = Some n -> mthr k !! t' = Some n' ->
    th_id n = th_id n' -> t = t'
}.

Definition abs (k : mstate) (l : list tid) : alock :=
  if owner (mx k) =? 0 then AFree else AHeld (owner (mx k)) (lock_count (mx k)) l.

(** The running thread exists, sleeps in no queue unless it is in the wait
    loop, and reaches try_own only when it is not the owner. *)
Definition menabled (e : mevent) (k : mstate) (l : list tid) : Prop :=
  is_Some (mthr k !! event_thread e)
  /\ match e with
     | LockTry t _ | TryLock t _ | Unlock t _ => t ∉ l
     | LockOwn t _ => (t ∉ l) /\ owner (mx k) <> id_of (mthr k) t
     | _ => True
     end.

(** Stores that agree but for links, orders, flags and gpr[3]. *)
Definition same_ids (h h' : store) : Prop := forall t, th_id <$> h' !! t = th_id <$> h !! t.

#[global] Instance same_ids_refl : Reflexive same_ids.
Proof. by intros h t. Qed.

#[global] Instance same_ids_trans : Transitive same_ids.
Proof. intros h1 h2 h3 H12 H23 t. by rewrite H23. Qed.

Lemma same_ids_alter h f t :
  (forall n, th_id (f n) = th_id n) -> same_ids h (alter f t h).
Proof.
  intros Hf x. destruct (decide (x = t)) as [->|Hne].
  - rewrite lookup_alter_eq. destruct (h !! t); cbn; by rewrite ?Hf.
  - by rewrite lookup_alter_ne.
Qed.

Lemma same_ids_relinked l h h' : relinked l h h' -> same_ids h h'.
Proof.
  intros H t. destruct (H t) as [E _].
  destruct (h !! t) as [n|], (h' !! t) as [n'|]; try done. cbn in *.
  injection E. congruence.
Qed.

Lemma same_ids_lookup h h' t n' :
  same_ids h h' -> h' !! t = Some n' -> exists n, h !! t = Some n /\ th_id n = th_id n'.
Proof.
  intros H Hn. specialize (H t). rewrite Hn in H.
  destruct (h !! t) as [n|]; [|done]. exists n. split; [done|]. by injection H.
Qed.

Lemma id_of_same h h' t : same_ids h h' -> id_of h' t = id_of h t.
Proof.
  intros H. specialize (H t). unfold id_of.
  destruct (h !! t), (h' !! t); try done. by injection H.
Qed.

(** The invariant after a region: a new control word, queue list and count
    over a store with the same ids. *)
Lemma mutex_ok_update k l k' l' :
  mutex_ok k l -> waits (mqueue k') l' -> same_ids (mthr k) (mthr k') ->
  (owner (mx k') = 0 -> l' = [] /\ lock_count (mx k') = 0) ->
  0 <= lock_count (mx k') < 2 ^ 32 ->
  (forall x, x ∈ l' -> id_of (mthr k) x <> owner (mx k')) -> mutex_ok k' l'.
Proof.
  intros [H1 H2 H3 H4 H5 H6] Hw Hs Hf Hr Hself. split; try done.
  - intros x n Hx Hn. specialize (Hself x Hx).
    destruct (same_ids_lookup _ _ _ _ Hs Hn) as (m & Hm & <-).
    unfold id_of in Hself. by rewrite Hm in Hself.
  - intros t n Hn. destruct (same_ids_lookup _ _ _ _ Hs Hn) as (m & Hm & <-). eauto.
  - intros t t' n n' Hn Hn' E.
    destruct (same_ids_lookup _ _ _ _ Hs Hn) as (m & Hm & Em).
    destruct (same_ids_lookup _ _ _ _ Hs Hn') as (m' & Hm' & Em').
    eapply H6; eauto. congruence.
Qed.

Lemma mo_self_id k l x : mutex_ok k l -> x ∈ l -> id_of (mthr k) x <> owner (mx k).
Proof.
  intros Hok Hx. destruct (seg_dom _ _ _ _ (mo_queue _ _ Hok) Hx) as [n Hn].
  cbn in Hn. unfold id_of. rewrite Hn. by eapply mo_self.
Qed.

Lemma id_of_pos k l t : mutex_ok k l -> is_Some (mthr k !! t) -> id_of (mthr k) t <> 0.
Proof. intros Hok [n Hn]. unfold id_of. rewrite Hn. by eapply mo_ids. Qed.

(** Field updates that keep links and ids. *)
Lemma on_thread_ok k l t f :
  (forall n, next_cpu (f n) = next_cpu n) -> (forall n, th_id (f n) = th_id n) ->
  mutex_ok k l -> mutex_ok (on_thread f t k) l.
Proof.
  intros Hf Hi Hok. eapply mutex_ok_update; [exact Hok|..]; try apply Hok.
  - apply seg_alter_data; [done|]. apply Hok.
  - by apply same_ids_alter.
  - intros x Hx. exact (mo_self_id k l x Hok Hx).
Qed.

(** ** Each region implements the abstract lock *)

Definition refines (e : mevent) (k : mstate) (l : list tid) : Prop :=
  let '(k', r, aw) := mexec e k in
  exists l', mutex_ok k' l'
    /\ m_protocol (mx k') = m_protocol (mx k) /\ m_recursive (mx k') = m_recursive (mx k)
    /\ same_ids (mthr k) (mthr k')
    /\ astep (mthr k) (m_protocol (mx k)) (m_recursive (mx k)) e (abs k l) r aw (abs k' l').

Lemma abs_free k l : owner (mx k) = 0 -> abs k l = AFree.
Proof. unfold abs. by intros ->. Qed.

Lemma abs_held k l :
  owner (mx k) <> 0 -> abs k l = AHeld (owner (mx k)) (lock_count (mx k)) l.
Proof. unfold abs. by destruct (Z.eqb_spec (owner (mx k)) 0). Qed.

Lemma set_owner_ok k id :
  mutex_ok k [] -> lock_count (mx k) = 0 -> mutex_ok (set_owner id k) [].
Proof.
  intros Hok Hc. eapply mutex_ok_update; [exact Hok|apply Hok|done| |apply Hok|].
  - by cbn.
  - by intros x ?%not_elem_of_nil.
Qed.

(** try_lock and the abstract steps of both syscalls that use it. *)
Lemma try_lock_ok k l t i :
  mutex_ok k l -> is_Some (mthr k !! t) ->
  let '(k', e) := try_lock i (id_of (mthr k) t) k in
  mutex_ok k' l /\ mthr k' = mthr k /\ m_protocol (mx k') = m_protocol (mx k)
  /\ m_recursive (mx k') = m_recursive (mx k)
  /\ forall ev, ev = LockTry t i \/ ev = TryLock t i ->
     astep (mthr k) (m_protocol (mx k)) (m_recursive (mx k)) ev (abs k l)
       (if decide (e = CELL_EBUSY) then
          match ev with LockTry _ _ => Retry | _ => Returned CELL_EBUSY end
        else Returned e) None (abs k' l).
Proof.
  intros Hok Ht. pose proof (id_of_pos k l t Hok Ht) as Hid.
  pose proof (mo_range _ _ Hok) as Hr. unfold try_lock.
  destruct (Z.eqb_spec (owner (mx k)) 0) as [Ho|Ho].
  - destruct (mo_free _ _ Hok Ho) as [-> Hc]. rewrite (abs_free k) by done. destruct i.
    + do 4 (split; [done|]). rewrite (abs_free k) by done.
      intros ev [->| ->]; rewrite decide_True by done; constructor; by left.
    + split; [by apply set_owner_ok|]. do 3 (split; [done|]).
      intros ev Hev. rewrite decide_False by done. rewrite abs_held by done. cbn.
      rewrite Hc. apply a_acquire. tauto.
  - rewrite (abs_held k) by done.
    destruct (Z.eqb_spec (owner (mx k)) (id_of (mthr k) t)) as [E|E].
    + destruct (Z.eqb_spec (m_recursive (mx k)) SYS_SYNC_RECURSIVE) as [R|R].
      * destruct (Z.eqb_spec (lock_count (mx k)) 0xffffffff) as [C|C].
        -- do 4 (split; [done|]). intros ev Hev. rewrite decide_False by done.
           rewrite (abs_held k), E, C by done. by eapply a_recurse_full.
        -- rewrite wrap_id by (unfold urange; lia). split; [|do 3 (split; [done|])].
           { eapply mutex_ok_update; [exact Hok|apply Hok|done|done|cbn; lia|].
             intros x Hx. exact (mo_self_id k l x Hok Hx). }
           intros ev Hev. rewrite decide_False by done. rewrite abs_held by done.
           cbn. rewrite E. eapply a_recurse; [exact Hev|done|lia].
      * do 4 (split; [done|]). intros ev Hev. rewrite decide_False by done.
        rewrite (abs_held k), E by done. by eapply a_deadlock.
    + do 4 (split; [done|]). rewrite (abs_held k) by done.
      intros ev [->| ->]; rewrite decide_True by done; constructor; right; eauto.
Qed.

Lemma lock_try_refines k l t i : mutex_ok k l -> is_Some (mthr k !! t) -> refines (LockTry t i) k l.
Proof.
  intros Hok Ht. pose proof (try_lock_ok k l t i Hok Ht) as H.
  unfold refines, mexec, lock_try. destruct (try_lock i _ k) as [k' e].
  destruct H as (Hok' & Hthr & Hp & Hr & Ha). specialize (Ha _ (or_introl eq_refl)).
  destruct e; exists l; rewrite ?Hthr; (do 4 (split; [done|])); exact Ha.
Qed.

Lemma trylock_refines k l t i : mutex_ok k l -> is_Some (mthr k !! t) -> refines (TryLock t i) k l.
Proof.
  intros Hok Ht. pose proof (try_lock_ok k l t i Hok Ht) as H.
  unfold refines, mexec, sys_mutex_trylock. destruct (try_lock i _ k) as [k' e].
  destruct H as (Hok' & Hthr & Hp & Hr & Ha). specialize (Ha _ (or_intror eq_refl)).
  exists l. rewrite ?Hthr. do 4 (split; [done|]). destruct e; exact Ha.
Qed.

Lemma lock_own_refines k l t r :
  mutex_ok k l -> menabled (LockOwn t r) k l -> refines (LockOwn t r) k l.
Proof.
  intros Hok (Ht & Hl & Hne). cbn [event_thread] in Ht.
  pose proof (id_of_pos k l t Hok Ht) as Hid.
  unfold refines, mexec, lock_own, try_own.
  destruct (Z.eqb_spec (owner (mx k)) 0) as [Ho|Ho]; cbn [negb].
  - destruct (mo_free _ _ Hok Ho) as [-> Hc]. exists [].
    split; [|do 2 (split; [done|]); split; [by apply same_ids_alter|]].
    + eapply mutex_ok_update; [exact Hok|exact (mo_queue _ _ Hok)|by apply same_ids_alter
        |done|apply Hok|by intros x ?%not_elem_of_nil].
    + rewrite (abs_free k), abs_held by done. cbn. rewrite Hc. apply a_acquire. eauto.
  - exists (t :: l). destruct Ht as [n Hn].
    assert (Hs : same_ids (mthr k) (alter (set_gpr3 CELL_OK) t (alter (set_next (msq (mx k))) t
      (alter (set_order (wrap 64 (mtag k + r + 1))) t (mthr k))))).
    { repeat (etransitivity; [|by apply same_ids_alter]). done. }
    split; [|do 2 (split; [done|]); split; [exact Hs|]].
    + eapply mutex_ok_update; [exact Hok| |exact Hs|done|apply Hok|].
      * split; [done|]. eexists. cbn. split; [by rewrite !lookup_alter_eq, Hn|].
        cbn. do 3 (apply seg_alter; [done|]). apply Hok.
      * intros x [->|Hx]%elem_of_cons; [by cbn|]. exact (mo_self_id k l x Hok Hx).
    + rewrite !abs_held by done. cbn. by apply a_enqueue.
Qed.

Lemma lock_result_ok k t : is_Some (mthr k !! t) -> wait_end (lock_result t k).
Proof. intros [n Hn]. unfold lock_result, wait_end. rewrite Hn. case_match; auto. Qed.

Lemma waiters_abs k l : mutex_ok k l -> waiters_of (abs k l) = l.
Proof.
  intros Hok. unfold abs. destruct (Z.eqb_spec (owner (mx k)) 0) as [E|]; [|done].
  by destruct (mo_free _ _ Hok E) as [-> _].
Qed.

(** A region that leaves the mutex as it is. *)
Lemma local_refines k l e r k' :
  mutex_ok k' l -> mexec e k = (k', r, None) -> mx k' = mx k -> same_ids (mthr k) (mthr k') ->
  astep (mthr k) (m_protocol (mx k)) (m_recursive (mx k)) e (abs k l) r None (abs k l) ->
  refines e k l.
Proof.
  intros Hok E Hm Hs Ha. unfold refines. rewrite E. exists l. rewrite Hm.
  do 3 (split; [done|]). split; [done|].
  replace (abs k' l) with (abs k l) by (unfold abs; by rewrite Hm). done.
Qed.

Lemma signaled_refines k l t :
  mutex_ok k l -> is_Some (mthr k !! t) -> refines (LockSignaled t) k l.
Proof.
  intros Hok Ht. eapply (local_refines k l); [|reflexivity|done|by apply same_ids_alter|].
  - by apply on_thread_ok.
  - apply a_signaled, lock_result_ok. cbn. rewrite lookup_alter_eq. by apply fmap_is_Some.
Qed.

Lemma stopped_refines k l t :
  mutex_ok k l -> is_Some (mthr k !! t) -> refines (LockStopped t) k l.
Proof.
  intros Hok Ht. pose proof (any_waiting_thread (mqueue k) l t (mo_queue _ _ Hok)) as E.
  pose proof (waiters_abs k l Hok) as Hw. destruct (decide (t ∈ l)) as [Hin|Hin].
  - rewrite bool_decide_true in E by done.
    eapply (local_refines k l);
      [|cbn; unfold lock_stopped; rewrite E; reflexivity|done|by apply same_ids_alter|].
    + by apply on_thread_ok.
    + apply a_stopped. by rewrite Hw, decide_True.
  - rewrite bool_decide_false in E by done.
    eapply (local_refines k l);
      [done|cbn; unfold lock_stopped; rewrite E; reflexivity|done|done|].
    apply a_stopped. rewrite Hw, decide_False by done. by apply lock_result_ok.
Qed.

Lemma timed_out_refines k l t :
  mutex_ok k l -> is_Some (mthr k !! t) -> refines (LockTimedOut t) k l.
Proof.
  intros Hok Ht. destruct (unqueue_ok false (mqueue k) l t (mo_queue _ _ Hok)) as [U1 U2].
  destruct (decide (t ∈ l)) as [Hin|Hin].
  - destruct (U2 Hin) as (q & E & [R1 R2 (n & Hn & En)]).
    assert (Ho : owner (mx k) <> 0).
    { intros [-> _]%(mo_free _ _ Hok). by apply not_elem_of_nil in Hin. }
    destruct (msq (mx k)) as [p|] eqn:Ep.
    2: { pose proof (mo_queue _ _ Hok) as Hw. unfold waits in Hw. cbn in Hw. rewrite Ep in Hw.
         destruct l; [by apply not_elem_of_nil in Hin|by destruct Hw]. }
    unfold refines, mexec, lock_timed_out. rewrite Ep, E. exists (without t l).
    assert (Hs : same_ids (mthr k) (alter (set_gpr3 CELL_ETIMEDOUT) t
      (alter (set_next None) t (threads q)))).
    { do 2 (etransitivity; [|by apply same_ids_alter]). by eapply same_ids_relinked. }
    split; [|do 2 (split; [done|]); split; [exact Hs|]].
    + eapply mutex_ok_update; [exact Hok| |exact Hs|done|apply Hok|].
      * destruct q. apply seg_alter; [by intros [_ []]%without_elem_of|].
        apply seg_alter; [by intros [_ []]%without_elem_of|]. exact R1.
      * intros x [Hx _]%without_elem_of. exact (mo_self_id k l x Hok Hx).
    + rewrite !abs_held by done. cbn. by apply a_timeout.
  - eapply (local_refines k l); [done|cbn; unfold lock_timed_out; rewrite (U1 Hin)|..].
    { destruct (msq (mx k)); reflexivity. }
    all: try done. apply a_late; [by rewrite waiters_abs|by apply lock_result_ok].
Qed.

Lemma release_refines k t i :
  mutex_ok k [] -> owner (mx k) = id_of (mthr k) t -> owner (mx k) <> 0 ->
  lock_count (mx k) = 0 -> mexec (Unlock t i) k = (set_owner 0 k, Returned CELL_OK, None) ->
  refines (Unlock t i) k [].
Proof.
  intros Hok Ho Hnz Hc E. unfold refines. rewrite E. exists [].
  split; [by apply set_owner_ok|]. do 3 (split; [done|]).
  rewrite (abs_held k), Hc, Ho, (abs_free (set_owner 0 k)) by done. apply a_release.
Qed.

(** What reown does when threads wait. *)
Lemma reown_ok k l :
  mutex_ok k l -> l <> [] ->
  exists x n k', reown k = Some (k', Some x)
    /\ selects (mthr k) (m_protocol (mx k)) l x /\ mthr k !! x = Some n
    /\ (again n = true -> k' = k)
    /\ (again n = false -> owner (mx k') = th_id n /\ waits (mqueue k') (without x l)
          /\ relinked l (mthr k) (mthr k')
          /\ lock_count (mx k') = lock_count (mx k)
          /\ m_protocol (mx k') = m_protocol (mx k) /\ m_recursive (mx k') = m_recursive (mx k)
          /\ exists n', mthr k' !! x = Some n' /\ again n' = false).
Proof.
  intros Hok Hl. destruct (schedule_ok (m_protocol (mx k)) false (mqueue k) l (mo_queue _ _ Hok))
    as [_ S]. destruct (S Hl) as (x & n & q & E & Hsel & Hn & R).
  unfold reown. destruct (msq (mx k)) as [p|] eqn:Ep.
  2: { pose proof (mo_queue _ _ Hok) as Hw. unfold waits in Hw. cbn in Hw. rewrite Ep in Hw.
       destruct l; [done|by destruct Hw]. }
  rewrite E. cbn [mbind option_bind]. destruct (again n) eqn:Ea.
  - subst q. rewrite Hn. cbn [mbind option_bind]. rewrite Ea, decide_True by done.
    exists x, n, k. split; [by destruct k as [[] ? ?]|].
    split; [exact Hsel|]. split; [exact Hn|]. rewrite Ea. done.
  - destruct R as [R1 R2 (m & Hm & Em)]. rewrite Hn in Hm. injection Hm as <-.
    rewrite Em. cbn [mbind option_bind].
    set (n' := set_next _ n).
    assert (Hn' : again n' = false /\ th_id n' = th_id n) by done. destruct Hn' as [Ha' Hi'].
    exists x, n, (on_thread (set_next None) x (set_control (th_id n) q k)).
    split; [rewrite Ha', Hi'; by destruct (decide (Some p = first q))|].
    split; [exact Hsel|]. split; [exact Hn|]. split; [by rewrite Ea|]. intros _.
    split; [done|]. split.
    { destruct q. apply seg_alter; [by intros [_ []]%without_elem_of|exact R1]. }
    split; [etransitivity; [exact R2|]; apply relinked_alter; by eapply selects_elem|].
    do 3 (split; [done|]). exists (set_next None n'). split; [|done].
    cbn. by rewrite lookup_alter_eq, Em.
Qed.

Lemma unlock_refines k l t i :
  mutex_ok k l -> is_Some (mthr k !! t) -> refines (Unlock t i) k l.
Proof.
  intros Hok Ht. pose proof (id_of_pos k l t Hok Ht) as Hid.
  pose proof (mo_range _ _ Hok) as Hr.
  destruct (Z.eqb_spec (owner (mx k)) (id_of (mthr k) t)) as [Ho|Ho].
  2: { unfold refines, mexec, sys_mutex_unlock, try_unlock.
       destruct (Z.eqb_spec (owner (mx k)) (id_of (mthr k) t)); [done|]. cbn [negb].
       exists l. do 4 (split; [done|]). apply a_not_owner. intros d w.
       unfold abs. case_match; [done|]. congruence. }
  assert (Hnz : owner (mx k) <> 0) by congruence.
  destruct (Z.eqb_spec (lock_count (mx k)) 0) as [Hc|Hc].
  2: { unfold refines, mexec, sys_mutex_unlock, try_unlock. rewrite Ho, Z.eqb_refl. cbn [negb].
       destruct (Z.eqb_spec (lock_count (mx k)) 0); [done|]. cbn [negb].
       rewrite wrap_id by (unfold urange; lia). exists l. split.
       { eapply mutex_ok_update; [exact Hok|apply Hok|done|done|cbn; lia|].
         intros x Hx. exact (mo_self_id k l x Hok Hx). }
       do 3 (split; [done|]). rewrite !abs_held by done. cbn. rewrite Ho.
       apply a_leave. lia. }
  destruct (decide (l = [])) as [->|Hl].
  { apply release_refines; try done.
    pose proof (mo_queue _ _ Hok) as Hw. unfold waits in Hw. cbn in Hw.
    unfold mexec, sys_mutex_unlock, try_unlock. rewrite Ho, Z.eqb_refl, Hc. cbn [negb Z.eqb].
    rewrite Hw. destruct i; [|done]. unfold reown. by rewrite Hw. }
  destruct (reown_ok k l Hok Hl) as (x & n & k' & E & Hsel & Hn & Hag & Hno).
  assert (Eu : try_unlock i (id_of (mthr k) t) k = (k, CELL_EBUSY)).
  { pose proof (mo_queue _ _ Hok) as Hw. unfold waits in Hw. cbn in Hw.
    unfold try_unlock. rewrite Ho, Z.eqb_refl, Hc. cbn [negb Z.eqb].
    destruct l; [done|]. destruct Hw as [-> _]. done. }
  unfold refines, mexec, sys_mutex_unlock. rewrite Eu, E.
  rewrite (abs_held k), Hc, Ho by done. destruct (again n) eqn:Ea.
  - rewrite (Hag eq_refl). rewrite Hn, Ea. exists l. split; [by apply on_thread_ok|].
    do 2 (split; [done|]). split; [by apply same_ids_alter|].
    replace (abs _ l) with (AHeld (id_of (mthr k) t) 0 l).
    2: { rewrite <- Ho, <- Hc. symmetry. exact (abs_held (on_thread _ t k) l Hnz). }
    by eapply a_restart.
  - destruct (Hno eq_refl) as (E1 & E2 & E3%same_ids_relinked & E4 & E5 & E6 & n' & En & Ean).
    rewrite En, Ean. exists (without x l).
    assert (Hx : th_id n <> 0) by (by eapply mo_ids).
    split; [|do 3 (split; [done|])].
    + eapply mutex_ok_update; [exact Hok|exact E2|exact E3|congruence|lia|].
      intros y [Hy Hyx]%without_elem_of. rewrite E1. intros Heq. apply Hyx.
      destruct (seg_dom _ _ _ _ (mo_queue _ _ Hok) Hy) as [m Hm]. cbn in Hm.
      unfold id_of in Heq. rewrite Hm in Heq. by eapply (mo_inj _ _ Hok).
    + rewrite abs_held, E1, E4, Hc by congruence. by eapply a_handoff.
Qed.

Lemma mexec_refines k l e : mutex_ok k l -> menabled e k l -> refines e k l.
Proof.
  intros Hok He. pose proof He as [Ht Hcond].
  destruct e; cbn [event_thread] in Ht.
  - by apply lock_try_refines.
  - by apply lock_own_refines.
  - by apply signaled_refines.
  - by apply stopped_refines.
  - by apply timed_out_refines.
  - by apply trylock_refines.
  - by apply unlock_refines.
Qed.

(** A region changes no thread but its own and, for an unlock or a timeout,
    links of waiters. *)
Lemma mexec_frame k l e x :
  mutex_ok k l -> x ∉ l -> x <> event_thread e ->
  mthr (fst (fst (mexec e k))) !! x = mthr k !! x.
Proof.
  intros Hok Hx Ht. destruct e as [t i|t r|t|t|t|t i|t i]; cbn [event_thread mexec] in *.
  - unfold lock_try, try_lock. by repeat case_match; simplify_eq.
  - unfold lock_own, try_own.
    destruct (negb (owner (mx k) =? 0)); cbn; by rewrite !lookup_alter_ne.
  - cbn. by rewrite lookup_alter_ne.
  - unfold lock_stopped. destruct (any_waiting _ _) as [[]|]; cbn; by rewrite ?lookup_alter_ne.
  - unfold lock_timed_out. destruct (msq (mx k)); [|done].
    destruct (unqueue_ok false (mqueue k) l t (mo_queue _ _ Hok)) as [U1 U2].
    destruct (decide (t ∈ l)) as [Hin|Hin]; [|by rewrite (U1 Hin)].
    destruct (U2 Hin) as (q & -> & [_ R2 _]). cbn. rewrite !lookup_alter_ne by done. by apply R2.
  - unfold sys_mutex_trylock, try_lock. by repeat case_match; simplify_eq.
  - unfold sys_mutex_unlock. destruct (try_unlock _ _ k) as [k1 er] eqn:E.
    assert (Hk1 : mthr k1 = mthr k /\ (er = CELL_EBUSY -> k1 = k)).
    { unfold try_unlock in E. by repeat case_match; simplify_eq. }
    destruct Hk1 as [Hk1 Hb]. destruct er; try (cbn [fst snd]; by rewrite Hk1).
    rewrite (Hb eq_refl). destruct (decide (l = [])) as [->|Hl].
    { pose proof (mo_queue _ _ Hok) as Hw. unfold waits in Hw. cbn in Hw.
      unfold reown. by rewrite Hw. }
    destruct (reown_ok k l Hok Hl) as (y & n & k2 & -> & _ & Hn & Hag & Hno).
    destruct (again n) eqn:Ea.
    + rewrite (Hag eq_refl), Hn. cbn beta iota. rewrite Ea. cbn. by rewrite lookup_alter_ne.
    + destruct (Hno eq_refl) as (_ & _ & R & _ & _ & _ & n' & -> & ->). cbn. by apply R.
Qed.

(** ** Reachable states

    [ins t] is how many times thread [t] holds the mutex by the results of its
    own syscalls and the hand-overs it was awakened for. *)
Definition account (e : mevent) (r : reply) (aw : ptr) (ins : tid -> Z) (x : tid) : Z :=
  ins x +
  match e, r with
  | LockTry t _, Returned CELL_OK | TryLock t _, Returned CELL_OK
  | LockOwn t _, Returned CELL_OK => b2z (bool_decide (x = t))
  | Unlock t _, Returned CELL_OK =>
      (match aw with Some y => b2z (bool_decide (x = y)) | None => 0 end)
      - b2z (bool_decide (x = t))
  | _, _ => 0
  end.

Inductive mreach (k0 : mstate) : mstate -> list tid -> (tid -> Z) -> Prop :=
| mreach_init : mreach k0 k0 [] (fun _ => 0)
| mreach_step k l ins e k' r aw l' :
    mreach k0 k l ins -> menabled e k l -> mexec e k = (k', r, aw) ->
    waits (mqueue k') l' -> mreach k0 k' l' (account e r aw ins).

(** The holder of a lock, by id, and its depth. *)
Definition holds (a : alock) (id : Z) : Z :=
  match a with
  | AFree => 0
  | AHeld o d _ => if o =? id then d + 1 else 0
  end.

Lemma holds_abs k l id :
  id <> 0 -> holds (abs k l) id = if owner (mx k) =? id then lock_count (mx k) + 1 else 0.
Proof.
  intros Hid. unfold abs. destruct (Z.eqb_spec (owner (mx k)) 0) as [E|E]; [|done].
  cbn. rewrite E. by destruct (Z.eqb_spec 0 id).
Qed.

(** The accounting follows the abstract holder, where ids tell threads apart
    and the holder does not wait. *)
Lemma account_astep h p rec e a r aw a' ins x :
  is_Some (h !! x) ->
  (forall y z, is_Some (h !! y) -> is_Some (h !! z) -> id_of h y = id_of h z -> y = z) ->
  (forall y o d w, a = AHeld o d w -> y ∈ w -> id_of h y <> o) ->
  is_Some (h !! event_thread e) -> astep h p rec e a r aw a' ->
  account e r aw ins x - ins x = holds a' (id_of h x) - holds a (id_of h x).
Proof.
  intros Hx Hinj Hself Hev Hstep. unfold account.
  assert (Hid : forall y, is_Some (h !! y) -> (id_of h y =? id_of h x) = bool_decide (x = y)).
  { intros y Hy. destruct (Z.eqb_spec (id_of h y) (id_of h x)) as [E|E].
    - rewrite bool_decide_true; [done|]. auto.
    - rewrite bool_decide_false; [done|]. congruence. }
  destruct Hstep as [t e He|t e i d w He|t e i w He|t e i d w He|t i a He|t i a He|
    t r' o d w He|t o d w He|t r a Hr|t r a Hr|t r a Hn Hr|t i a He|t i d w He|t i|t i w y n Hs Hn Hg|t i w y n Hs Hn Hg];
    cbn [holds event_thread] in *.
  - assert (Hev' : is_Some (h !! t)) by (destruct He as [->|[->|[? ->]]]; done).
    rewrite (Hid t Hev'). destruct He as [->|[->|[? ->]]]; destruct (bool_decide (x = t)); cbn; lia.
  - assert (Hev' : is_Some (h !! t)) by (destruct He as [->| ->]; done).
    rewrite (Hid t Hev'). destruct He as [->| ->]; destruct (bool_decide (x = t)); cbn; lia.
  - destruct He as [->| ->]; lia.
  - destruct He as [->| ->]; lia.
  - lia.
  - lia.
  - lia.
  - lia.
  - lia.
  - lia.
  - lia.
  - lia.
  - rewrite (Hid t Hev). destruct (bool_decide (x = t)); cbn; lia.
  - rewrite (Hid t Hev). destruct (bool_decide (x = t)); cbn; lia.
  - assert (Hy : th_id n = id_of h y) by (unfold id_of; by rewrite Hn).
    rewrite (Hid t Hev), Hy, (Hid y ltac:(eauto)).
    assert (t <> y).
    { intros ->. apply selects_elem in Hs. by apply (Hself y _ _ _ eq_refl Hs). }
    destruct (bool_decide_reflect (x = t)), (bool_decide_reflect (x = y));
      cbn; congruence || lia.
  - lia.
Qed.

Lemma mutex_ids k l x y :
  mutex_ok k l -> is_Some (mthr k !! x) -> is_Some (mthr k !! y) ->
  id_of (mthr k) x = id_of (mthr k) y -> x = y.
Proof.
  intros Hok [n Hn] [n' Hn']. unfold id_of. rewrite Hn, Hn'. intros E. by eapply (mo_inj _ _ Hok).
Qed.

Lemma abs_self k l y o d w : mutex_ok k l -> abs k l = AHeld o d w -> y ∈ w -> id_of (mthr k) y <> o.
Proof.
  intros Hok E Hy. unfold abs in E. case_match; [done|]. injection E as <- <- <-.
  by eapply mo_self_id.
Qed.

(** ** Properties *)

(** C19: each atomic region of the mutex syscalls implements one step of the
    abstract lock [astep], with the same result and the same thread resumed: a
    free mutex is taken, its owner re-enters (up to 2^32 - 1 times) or gets
    CELL_EDEADLK, other threads are refused or queued, a timed-out waiter
    leaves the queue, only the owner can unlock, an inner unlock decreases the
    depth, the last one frees the mutex when nobody waits and otherwise hands
    it to the waiter the protocol selects.  The regions never fail or follow a
    dangling pointer ([Fatal] is no abstract result), and keep the control
    word, the count and the queue consistent. *)
Theorem mutex_refines (k : mstate) (l : list tid) (e : mevent) :
  mutex_ok k l -> menabled e k l ->
  let '(k', r, aw) := mexec e k in
  exists l', mutex_ok k' l'
    /\ astep (mthr k) (m_protocol (mx k)) (m_recursive (mx k)) e (abs k l) r aw (abs k' l').
Proof.
  intros Hok He. pose proof (mexec_refines k l e Hok He) as H. unfold refines in H.
  destruct (mexec e k) as [[k' r] aw]. destruct H as (l' & H1 & _ & _ & _ & H2). eauto.
Qed.

(** Thread 4 owns the mutex, threads 3, 2, 1 wait. *)
Definition sample_mutex : mstate :=
  mk_mstate (mk_mutex SYS_SYNC_PRIORITY SYS_SYNC_RECURSIVE 0 0 0 0 0 0x1000003 (Some 3%positive))
    (threads sample_queue4) 4.

Lemma sample_mutex_ok : mutex_ok sample_mutex [3; 2; 1]%positive.
Proof.
  split; try done.
  - repeat (split; [done|]; eexists; split; [done|]). done.
  - intros x n Hx Hn. set_unfold in Hx. destruct_or! Hx; subst x; vm_compute in Hn;
      injection Hn as <-; done.
  - intros t n Hn. unfold sample_mutex, sample_queue4, sample_queue in Hn. cbn in Hn.
    rewrite !lookup_insert_Some, lookup_empty in Hn. naive_solver.
  - intros t t' n n' Hn Hn'. unfold sample_mutex, sample_queue4, sample_queue in Hn, Hn'.
    cbn in Hn, Hn'. rewrite !lookup_insert_Some, lookup_empty in Hn, Hn'. naive_solver.
Qed.

Lemma mutex_refines_witness :
  exists k' l', mexec (Unlock 4 false) sample_mutex = (k', Returned CELL_OK, Some 2%positive)
    /\ mutex_ok k' l' /\ owner (mx k') = 0x1000001.
Proof.
  pose proof (mutex_refines sample_mutex [3; 2; 1]%positive (Unlock 4 false) sample_mutex_ok) as H.
  destruct (mexec (Unlock 4 false) sample_mutex) as [[k' r] aw] eqn:E.
  destruct H as (l' & Hok & _); [split; [by eexists|set_solver]|].
  exists k', l'. vm_compute in E. injection E as <- <- <-. done.
Defined.

(** C1: mutual exclusion.  In every state reachable from a free mutex by any
    interleaving of the regions, a thread that holds the mutex - it got CELL_OK
    from a lock or was awakened as the next owner more often than it unlocked -
    is the recorded owner and holds it lock_count + 1 times, and every other
    thread holds it not at all; so two threads never hold it together. *)
Theorem mutual_exclusion (k0 k : mstate) (l : list tid) (ins : tid -> Z) (t t' : tid) :
  mutex_ok k0 [] -> owner (mx k0) = 0 -> mreach k0 k l ins ->
  is_Some (mthr k !! t) -> is_Some (mthr k !! t') ->
  mutex_ok k l
  /\ ins t = (if owner (mx k) =? id_of (mthr k) t then lock_count (mx k) + 1 else 0)
  /\ (0 < ins t -> 0 < ins t' -> t = t').
Proof.
  intros H0 Ho Hr.
  assert (H : mutex_ok k l /\ forall x, is_Some (mthr k !! x) ->
            ins x = holds (abs k l) (id_of (mthr k) x)).
  { induction Hr as [|k l ins e k' r aw l' Hr IH He E Hw].
    - split; [done|]. intros x _. by rewrite abs_free.
    - destruct IH as [Hok Hins]. pose proof (mexec_refines k l e Hok He) as R.
      unfold refines in R. rewrite E in R. destruct R as (l1 & Hok1 & _ & _ & Hs & Ha).
      pose proof (seg_inj _ _ _ _ Hw (mo_queue _ _ Hok1)) as ->. split; [done|].
      intros x Hx. rewrite (id_of_same _ _ _ Hs).
      assert (Hx' : is_Some (mthr k !! x)).
      { specialize (Hs x). destruct Hx as [n Hn]. rewrite Hn in Hs.
        destruct (mthr k !! x); [by eexists|done]. }
      pose proof (account_astep (mthr k) _ _ e _ _ _ _ ins x Hx'
        ltac:(intros y z Hy Hz; by eapply mutex_ids) ltac:(intros y o d w; by apply abs_self)
        (proj1 He) Ha) as Hd.
      specialize (Hins x Hx'). lia. }
  destruct H as [Hok Hins]. intros Ht Ht'.
  pose proof (id_of_pos k l t Hok Ht). pose proof (id_of_pos k l t' Hok Ht').
  split; [done|]. rewrite (Hins t Ht), (Hins t' Ht'), !holds_abs by done.
  split; [done|]. intros P P'.
  destruct (Z.eqb_spec (owner (mx k)) (id_of (mthr k) t)) as [E|]; [|lia].
  destruct (Z.eqb_spec (owner (mx k)) (id_of (mthr k) t')) as [E'|]; [|lia].
  destruct Ht as [n Hn], Ht' as [n' Hn']. unfold id_of in E, E'. rewrite Hn in E.
  rewrite Hn' in E'. eapply (mo_inj _ _ Hok); eauto. congruence.
Qed.

Definition free_mutex : mstate :=
  mk_mstate (mk_mutex SYS_SYNC_FIFO SYS_SYNC_RECURSIVE 0 0 0 0 0 0 None)
    (threads sample_queue4) 4.

Lemma free_mutex_ok : mutex_ok free_mutex [].
Proof.
  destruct sample_mutex_ok as [_ _ _ _ H5 H6]. split; try done.
  by intros x n ?%not_elem_of_nil.
Qed.

Lemma mutual_exclusion_witness :
  exists k ins, mreach free_mutex k [2]%positive ins /\ ins 4%positive = 1 /\ ins 2%positive = 0.
Proof.
  set (k1 := fst (fst (mexec (LockTry 4 false) free_mutex))).
  set (k2 := fst (fst (mexec (LockOwn 2 0) k1))).
  assert (R1 : mreach free_mutex k1 [] (account (LockTry 4 false) (Returned CELL_OK) None (fun _ => 0))).
  { eapply mreach_step; [apply mreach_init| |reflexivity|done].
    split; [by eexists|set_solver]. }
  assert (R2 : mreach free_mutex k2 [2]%positive
    (account (LockOwn 2 0) Blocked None
       (account (LockTry 4 false) (Returned CELL_OK) None (fun _ => 0)))).
  { eapply mreach_step; [exact R1| |reflexivity|].
    - split; [by eexists|]. split; [set_solver|]. vm_compute. discriminate.
    - split; [done|]. eexists. split; [vm_compute; reflexivity|]. done. }
  destruct (mutual_exclusion free_mutex k2 [2]%positive _ 4 2 free_mutex_ok eq_refl R2
    ltac:(by eexists) ltac:(by eexists)) as (_ & E & _).
  eexists _, _. split; [exact R2|]. split; [rewrite E|]; vm_compute; reflexivity.
Defined.
