(* ===== verification/Lv2RwLock.v ===== *)
(** * LV2 read-write locks

    kernel/cellos/src/sys_rwlock.cpp.  One signed 64-bit word, [owner], encodes
    the lock: 0 is free, a negative value is minus twice the number of readers,
    a positive one twice the id of the writer, and bit 0 says that threads may
    be waiting.  Readers and writers sleep in two queues threaded through the
    same thread links.  Each definition is one atomic region of a syscall: an
    operation on [owner], or a critical section of [mutex].  [interfered] says
    that another thread changed [owner] between the load and the
    compare-and-swap of a region, which then fails. *)

From stdpp Require Import base numbers list gmap tactics.
From Stdlib Require Import Lia.
From S2P Require Import Prelude Lv2Obj Lv2Mutex.

Open Scope Z_scope.

(** struct lv2_rwlock *)
Record lv2_rwlock := mk_rwlock {
  rw_protocol : Z;
  rw_key : Z;
  rw_name : Z;
  rw_owner : Z;
  rq : ptr;
  wq : ptr
}.

(** The state the regions share; [rwrun] are the threads the scheduler may
    run: sleep takes a thread out, awake and awake_all put threads in. *)
Record rwstate := mk_rwstate {
  rw : lv2_rwlock;
  rwthr : store;
  rwtag : Z;
  rwrun : gset tid
}.

Definition set_rw_owner (o : Z) (k : rwstate) : rwstate :=
  let r := rw k in
  mk_rwstate (mk_rwlock (rw_protocol r) (rw_key r) (rw_name r) o (rq r) (wq r))
    (rwthr k) (rwtag k) (rwrun k).

Definition rqueue (k : rwstate) : queue := mk_queue (rq (rw k)) (rwthr k).

Definition wqueue (k : rwstate) : queue := mk_queue (wq (rw k)) (rwthr k).

Definition set_rqueue (q : queue) (k : rwstate) : rwstate :=
  let r := rw k in
  mk_rwstate (mk_rwlock (rw_protocol r) (rw_key r) (rw_name r) (rw_owner r) (first q) (wq r))
    (threads q) (rwtag k) (rwrun k).

Definition set_wqueue (q : queue) (k : rwstate) : rwstate :=
  let r := rw k in
  mk_rwstate (mk_rwlock (rw_protocol r) (rw_key r) (rw_name r) (rw_owner r) (rq r) (first q))
    (threads q) (rwtag k) (rwrun k).

Definition rw_thread (f : ppu_thread -> ppu_thread) (t : tid) (k : rwstate) : rwstate :=
  mk_rwstate (rw k) (alter f t (rwthr k)) (rwtag k) (rwrun k).

(** rwlock.sleep(ppu, timeout) takes the thread from the scheduler; the
    emplace that follows takes the next order tag. *)
Definition rw_sleep (t : tid) (k : rwstate) : rwstate :=
  mk_rwstate (rw k) (rwthr k) (wrap 64 (rwtag k + 1)) (rwrun k ∖ {[t]}).

(** awake of one thread, or append of several and awake_all. *)
Definition rw_awake (l : list tid) (k : rwstate) : rwstate :=
  mk_rwstate (rw k) (rwthr k) (rwtag k) (rwrun k ∪ list_to_set l).

(** The test of the read paths: no writer and no waiting threads. *)
Definition readable (v : Z) : bool := (v <=? 0) && negb (Z.testbit v 0).

(** ppu.id << 1, a 32-bit value. *)
Definition writer_word (id : Z) : Z := wrap 32 (Z.shiftl id 1).

Definition waiting (p : ptr) : Z := match p with Some _ => 1 | None => 0 end.

(** The end of the wait loops: not_an_error(ppu.gpr[3]). *)
Definition rw_result (t : tid) (k : rwstate) : reply :=
  match rwthr k !! t with
  | Some n =>
      if gpr3 n =? error_value CELL_OK then Returned CELL_OK
      else Returned CELL_ETIMEDOUT
  | None => Fatal
  end.

Definition rw_signaled (t : tid) (k : rwstate) : rwstate * reply :=
  let k1 := rw_thread (set_state (del_flag cf_signal)) t k in
  (k1, rw_result t k1).

(** ** sys_rwlock_rlock *)

Definition rlock_try (interfered : bool) (k : rwstate) : rwstate * reply :=
  let val := rw_owner (rw k) in
  if readable val && negb interfered
  then (set_rw_owner (sext 64 (val - 2)) k, Returned CELL_OK)
  else (k, Retry).

(** The critical section; gpr[3] is CELL_OK when the thread goes to sleep. *)
Definition rlock_locked (t : tid) (k : rwstate) : rwstate * reply :=
  let old := rw_owner (rw k) in
  let k1 := set_rw_owner (if readable old then sext 64 (old - 2) else Z.lor old 1) k in
  if (0 <? old) || Z.testbit old 0 then
    let k2 := rw_sleep t k1 in
    (rw_thread (set_gpr3 CELL_OK) t (set_rqueue (emplace (rqueue k2) t (rwtag k2)) k2), Blocked)
  else (k1, Returned CELL_OK).

Definition rlock_stopped (t : tid) (k : rwstate) : rwstate * reply :=
  match any_waiting (is_thread t) (rqueue k) with
  | None => (k, Fatal)
  | Some true => (rw_thread (set_state (add_flag cf_again)) t k, Again)
  | Some false => (k, rw_result t k)
  end.

Definition rlock_timed_out (t : tid) (k : rwstate) : rwstate * reply :=
  match rq (rw k) with
  | None => (k, rw_result t k)
  | Some _ =>
      match unqueue true (rqueue k) t with
      | None => (k, Fatal)
      | Some (None, _) => (k, rw_result t k)
      | Some (Some _, q) =>
          (rw_thread (set_gpr3 CELL_ETIMEDOUT) t (set_rqueue q k), Returned CELL_ETIMEDOUT)
      end
  end.

(** ** sys_rwlock_tryrlock *)
Definition tryrlock (k : rwstate) : rwstate * reply :=
  let val := rw_owner (rw k) in
  if readable val then (set_rw_owner (sext 64 (val - 2)) k, Returned CELL_OK)
  else (k, Returned CELL_EBUSY).

(** ** sys_rwlock_runlock *)

Definition runlock_try (interfered : bool) (k : rwstate) : rwstate * reply :=
  let val := rw_owner (rw k) in
  if (val <? 0) && negb (Z.testbit val 0) && negb interfered
  then (set_rw_owner (sext 64 (val + 2)) k, Returned CELL_OK)
  else (k, Retry).

(** owner = cpu->id << 1 | !!wq | !!rq *)
Definition grant_word (n : ppu_thread) (k : rwstate) : Z :=
  Z.lor (Z.lor (writer_word (th_id n)) (waiting (wq (rw k)))) (waiting (rq (rw k))).

(** The critical section of thread [t]; the last component is the list of
    awakened threads. *)
Definition runlock_locked (t : tid) (k : rwstate) : rwstate * reply * list tid :=
  let old := rw_owner (rw k) in
  let k1 := if old <? -1 then set_rw_owner (sext 64 (old + 2)) k else k in
  if 0 <=? old then (k1, Returned CELL_EPERM, [])
  else if old =? -1 then
    match schedule (wqueue k1) (rw_protocol (rw k1)) true with
    | None => (k1, Fatal, [])
    | Some (None, _) =>
        let k2 := set_rw_owner 0 k1 in
        match rq (rw k2) with
        | None => (k2, Returned CELL_OK, [])
        | Some _ => (k2, Fatal, [])
        end
    | Some (Some x, q) =>
        match threads q !! x with
        | None => (k1, Fatal, [])
        | Some n =>
            if again n then (rw_thread (set_state (add_flag cf_again)) t k1, Again, [])
            else
              let k2 := set_wqueue q k1 in
              (rw_awake [x] (set_rw_owner (grant_word n k2) k2), Returned CELL_OK, [x])
        end
    end
  else (k1, Returned CELL_OK, []).

(** ** sys_rwlock_wlock; [id] is ppu.id *)

Definition wlock_try (interfered : bool) (id : Z) (k : rwstate) : rwstate * reply :=
  let val := rw_owner (rw k) in
  if val =? 0 then
    if interfered then (k, Retry)
    else (set_rw_owner (writer_word id) k, Returned CELL_OK)
  else if Z.shiftr val 1 =? id then (k, Returned CELL_EDEADLK)
  else (k, Retry).

Definition wlock_locked (t : tid) (id : Z) (k : rwstate) : rwstate * reply :=
  let old := rw_owner (rw k) in
  if old =? 0 then (set_rw_owner (writer_word id) k, Returned CELL_OK)
  else
    let k1 := rw_sleep t (set_rw_owner (Z.lor old 1) k) in
    let k2 := set_wqueue (emplace (wqueue k1) t (rwtag k1)) k1 in
    if Z.shiftr old 1 =? id then (k2, Returned CELL_EDEADLK)
    else (rw_thread (set_gpr3 CELL_OK) t k2, Blocked).

Definition wlock_stopped (t : tid) (k : rwstate) : rwstate * reply :=
  match any_waiting (is_thread t) (wqueue k) with
  | None => (k, Fatal)
  | Some true => (rw_thread (set_state (add_flag cf_again)) t k, Again)
  | Some false => (k, rw_result t k)
  end.

(** The expired timeout: when the last waiting writer leaves a lock held by
    readers, the sleeping readers join them. *)
Definition wlock_timed_out (t : tid) (k : rwstate) : rwstate * reply * list tid :=
  match unqueue true (wqueue k) t with
  | None => (k, Fatal, [])
  | Some (None, _) => (k, rw_result t k, [])
  | Some (Some _, q) =>
      let k1 := set_wqueue q k in
      match rq (rw k1), wq (rw k1), rw_owner (rw k1) <? 0 with
      | Some _, None, true =>
          match drain (rqueue k1) with
          | None => (k1, Fatal, [])
          | Some (q2, l) =>
              let size := Z.of_nat (length l) in
              let k2 := set_rqueue q2 k1 in
              let k3 := set_rw_owner (Z.land (sext 64 (rw_owner (rw k2) - 2 * size)) (-2)) k2 in
              (rw_thread (set_gpr3 CELL_ETIMEDOUT) t (rw_awake l k3),
               Returned CELL_ETIMEDOUT, l)
          end
      | None, None, _ =>
          let k2 := set_rw_owner (Z.land (rw_owner (rw k1)) (-2)) k1 in
          (rw_thread (set_gpr3 CELL_ETIMEDOUT) t k2, Returned CELL_ETIMEDOUT, [])
      | _, _, _ =>
          (rw_thread (set_gpr3 CELL_ETIMEDOUT) t k1, Returned CELL_ETIMEDOUT, [])
      end
  end.

(** ** sys_rwlock_trywlock: the load or, when it sees 0, the
    compare-and-swap decides. *)
Definition trywlock (id : Z) (k : rwstate) : rwstate * reply :=
  let old := rw_owner (rw k) in
  let k1 := if old =? 0 then set_rw_owner (writer_word id) k else k in
  if negb (old =? 0) then
    if Z.shiftr old 1 =? id then (k1, Returned CELL_EDEADLK) else (k1, Returned CELL_EBUSY)
  else (k1, Returned CELL_OK).

(** ** sys_rwlock_wunlock *)

Definition wunlock_try (id : Z) (k : rwstate) : rwstate * reply :=
  let old := rw_owner (rw k) in
  let k1 := if old =? writer_word id then set_rw_owner 0 k else k in
  if negb (Z.shiftr old 1 =? id) then (k1, Returned CELL_EPERM)
  else if Z.testbit old 0 then (k1, Retry) else (k1, Returned CELL_OK).

Definition wunlock_locked (t : tid) (k : rwstate) : rwstate * reply * list tid :=
  match schedule (wqueue k) (rw_protocol (rw k)) true with
  | None => (k, Fatal, [])
  | Some (Some x, q) =>
      match threads q !! x with
      | None => (k, Fatal, [])
      | Some n =>
          if again n then (rw_thread (set_state (add_flag cf_again)) t k, Again, [])
          else
            let k1 := set_wqueue q k in
            (rw_awake [x] (set_rw_owner (grant_word n k1) k1), Returned CELL_OK, [x])
      end
  | Some (None, _) =>
      match rq (rw k) with
      | None => (set_rw_owner 0 k, Returned CELL_OK, [])
      | Some _ =>
          match any_waiting is_again (rqueue k) with
          | None => (k, Fatal, [])
          | Some true => (rw_thread (set_state (add_flag cf_again)) t k, Again, [])
          | Some false =>
              match drain (rqueue k) with
              | None => (k, Fatal, [])
              | Some (q, l) =>
                  let k1 := set_rqueue q k in
                  (rw_awake l (set_rw_owner (sext 64 (-2 * Z.of_nat (length l))) k1),
                   Returned CELL_OK, l)
              end
          end
      end
  end.

(** The test of sys_rwlock_destroy. *)
Definition rwlock_destroy_test (r : lv2_rwlock) : option error_code :=
  if negb (rw_owner r =? 0) then Some CELL_EBUSY else None.

(** ** The regions as events *)
Inductive rwevent :=
| RLockTry (t : tid) (interfered : bool)
| RLockLocked (t : tid)
| RSignaled (t : tid)
| RStopped (t : tid)
| RTimedOut (t : tid)
| TryRLock (t : tid)
| RUnlockTry (t : tid) (interfered : bool)
| RUnlockLocked (t : tid)
| WLockTry (t : tid) (interfered : bool)
| WLockLocked (t : tid)
| WSignaled (t : tid)
| WStopped (t : tid)
| WTimedOut (t : tid)
| TryWLock (t : tid)
| WUnlockTry (t : tid)
| WUnlockLocked (t : tid).

Definition rwexec (e : rwevent) (k : rwstate) : rwstate * reply * list tid :=
  match e with
  | RLockTry _ i => (rlock_try i k, [])
  | RLockLocked t => (rlock_locked t k, [])
  | RSignaled t | WSignaled t => (rw_signaled t k, [])
  | RStopped t => (rlock_stopped t k, [])
  | RTimedOut t => (rlock_timed_out t k, [])
  | TryRLock _ => (tryrlock k, [])
  | RUnlockTry _ i => (runlock_try i k, [])
  | RUnlockLocked t => runlock_locked t k
  | WLockTry t i => (wlock_try i (id_of (rwthr k) t) k, [])
  | WLockLocked t => (wlock_locked t (id_of (rwthr k) t) k, [])
  | WStopped t => (wlock_stopped t k, [])
  | WTimedOut t => wlock_timed_out t k
  | TryWLock t => (trywlock (id_of (rwthr k) t) k, [])
  | WUnlockTry t => (wunlock_try (id_of (rwthr k) t) k, [])
  | WUnlockLocked t => wunlock_locked t k
  end.

(** ** The lock the word implements *)

Inductive amode :=
| Idle
| Reading (n : Z)
| Writing (id : Z).

#[global] Instance amode_eq_dec : EqDecision amode.
Proof. solve_decision. Defined.

(** Who holds the lock, and who sleeps, most recent first. *)
Record arw := mk_arw {
  a_mode : amode;
  a_readers : list tid;
  a_writers : list tid
}.

(** A reader gets in when no writer holds the lock or waits for it. *)
Definition admits (a : arw) : bool :=
  match a_mode a, a_writers a with
  | Idle, _ | Reading _, [] => true
  | _, _ => false
  end.

(** [n] more readers, one reader less. *)
Definition entered (n : Z) (m : amode) : amode :=
  match m with
  | Idle => Reading n
  | Reading k => Reading (k + n)
  | Writing id => Writing id
  end.

Definition left_by_one (n : Z) : amode := if n =? 1 then Idle else Reading (n - 1).

Definition with_mode (m : amode) (a : arw) : arw := mk_arw m (a_readers a) (a_writers a).

(** One region as the users of the lock see it: [h] gives the priorities, ids
    and flags of the threads, the list the threads that are resumed. *)
Inductive rwstep (h : store) (protocol : Z) :
    rwevent -> arw -> reply -> list tid -> arw -> Prop :=
| s_enter t e a :
    e = RLockTry t false \/ e = RLockLocked t \/ e = TryRLock t -> admits a = true ->
    rwstep h protocol e a (Returned CELL_OK) [] (with_mode (entered 1 (a_mode a)) a)
| s_enter_retry t i a :
    i = true \/ admits a = false -> rwstep h protocol (RLockTry t i) a Retry [] a
| s_enter_busy t a :
    admits a = false -> rwstep h protocol (TryRLock t) a (Returned CELL_EBUSY) [] a
| s_enter_block t a :
    admits a = false ->
    rwstep h protocol (RLockLocked t) a Blocked []
      (mk_arw (a_mode a) (t :: a_readers a) (a_writers a))
| s_leave t e a n :
    a_mode a = Reading n ->
    e = RUnlockTry t false /\ a_writers a = [] \/ e = RUnlockLocked t /\ (n <> 1 \/ a_writers a = []) ->
    rwstep h protocol e a (Returned CELL_OK) [] (with_mode (left_by_one n) a)
| s_leave_retry t i a :
    i = true \/ (forall n, a_mode a <> Reading n) \/ a_writers a <> [] ->
    rwstep h protocol (RUnlockTry t i) a Retry [] a
| s_leave_perm t a :
    (forall n, a_mode a <> Reading n) ->
    rwstep h protocol (RUnlockLocked t) a (Returned CELL_EPERM) [] a
| s_leave_last t a x n :
    a_mode a = Reading 1 -> selects h protocol (a_writers a) x -> h !! x = Some n ->
    again n = false ->
    rwstep h protocol (RUnlockLocked t) a (Returned CELL_OK) [x]
      (mk_arw (Writing (th_id n)) (a_readers a) (without x (a_writers a)))
| s_leave_again t a x n :
    a_mode a = Reading 1 -> selects h protocol (a_writers a) x -> h !! x = Some n ->
    again n = true -> rwstep h protocol (RUnlockLocked t) a Again [] a
| s_take t e a :
    e = WLockTry t false \/ e = WLockLocked t \/ e = TryWLock t -> a_mode a = Idle ->
    rwstep h protocol e a (Returned CELL_OK) [] (with_mode (Writing (id_of h t)) a)
| s_take_deadlock t e i a :
    e = WLockTry t i \/ e = TryWLock t -> a_mode a = Writing (id_of h t) ->
    rwstep h protocol e a (Returned CELL_EDEADLK) [] a
| s_take_retry t i a :
    a_mode a <> Writing (id_of h t) -> i = true \/ a_mode a <> Idle ->
    rwstep h protocol (WLockTry t i) a Retry [] a
| s_take_busy t a :
    a_mode a <> Writing (id_of h t) -> a_mode a <> Idle ->
    rwstep h protocol (TryWLock t) a (Returned CELL_EBUSY) [] a
| s_take_block t a :
    a_mode a <> Writing (id_of h t) -> a_mode a <> Idle ->
    rwstep h protocol (WLockLocked t) a Blocked []
      (mk_arw (a_mode a) (a_readers a) (t :: a_writers a))
| s_drop_perm t a :
    a_mode a <> Writing (id_of h t) ->
    rwstep h protocol (WUnlockTry t) a (Returned CELL_EPERM) [] a
| s_drop t a :
    a_mode a = Writing (id_of h t) -> a_readers a = [] -> a_writers a = [] ->
    rwstep h protocol (WUnlockTry t) a (Returned CELL_OK) [] (with_mode Idle a)
| s_drop_retry t a :
    a_mode a = Writing (id_of h t) -> rwstep h protocol (WUnlockTry t) a Retry [] a
| s_drop_writer t a x n :
    a_mode a = Writing (id_of h t) -> selects h protocol (a_writers a) x ->
    h !! x = Some n -> again n = false ->
    rwstep h protocol (WUnlockLocked t) a (Returned CELL_OK) [x]
      (mk_arw (Writing (th_id n)) (a_readers a) (without x (a_writers a)))
| s_drop_readers t a :
    a_mode a = Writing (id_of h t) -> a_writers a = [] -> a_readers a <> [] ->
    no_again h (a_readers a) ->
    rwstep h protocol (WUnlockLocked t) a (Returned CELL_OK) (rev (a_readers a))
      (mk_arw (Reading (Z.of_nat (length (a_readers a)))) [] [])
| s_drop_free t a :
    a_mode a = Writing (id_of h t) -> a_readers a = [] -> a_writers a = [] ->
    rwstep h protocol (WUnlockLocked t) a (Returned CELL_OK) [] (with_mode Idle a)
| s_drop_again t a x n :
    a_mode a = Writing (id_of h t) -> x ∈ a_readers a ++ a_writers a ->
    h !! x = Some n -> again n = true -> rwstep h protocol (WUnlockLocked t) a Again [] a
| s_rtimeout t a :
    t ∈ a_readers a ->
    rwstep h protocol (RTimedOut t) a (Returned CELL_ETIMEDOUT) []
      (mk_arw (a_mode a) (without t (a_readers a)) (a_writers a))
| s_wtimeout t a :
    t ∈ a_writers a ->
    without t (a_writers a) <> [] \/ a_readers a = [] \/ (forall n, a_mode a <> Reading n) ->
    rwstep h protocol (WTimedOut t) a (Returned CELL_ETIMEDOUT) []
      (mk_arw (a_mode a) (a_readers a) (without t (a_writers a)))
| s_wtimeout_readers t a n :
    t ∈ a_writers a -> without t (a_writers a) = [] -> a_readers a <> [] ->
    a_mode a = Reading n ->
    rwstep h protocol (WTimedOut t) a (Returned CELL_ETIMEDOUT) (rev (a_readers a))
      (mk_arw (Reading (n + Z.of_nat (length (a_readers a)))) [] [])
| s_signaled t e r a :
    e = RSignaled t \/ e = WSignaled t -> wait_end r -> rwstep h protocol e a r [] a
| s_rstopped t r a :
    (if decide (t ∈ a_readers a) then r = Again else wait_end r) ->
    rwstep h protocol (RStopped t) a r [] a
| s_wstopped t r a :
    (if decide (t ∈ a_writers a) then r = Again else wait_end r) ->
    rwstep h protocol (WStopped t) a r [] a
| s_rlate t r a :
    t ∉ a_readers a -> wait_end r -> rwstep h protocol (RTimedOut t) a r [] a
| s_wlate t r a :
    t ∉ a_writers a -> wait_end r -> rwstep h protocol (WTimedOut t) a r [] a.

(** ** Invariant *)

Definition mode_of (o : Z) : amode :=
  if o =? 0 then Idle
  else if o <? 0 then Reading (- Z.shiftr o 1)
  else Writing (Z.shiftr o 1).

Definition abs_rw (k : rwstate) (lr lw : list tid) : arw :=
  mk_arw (mode_of (rw_owner (rw k))) lr lw.

(** What the word says about the queues: nobody sleeps at a free lock or
    without the waiting bit, readers sleep behind readers only when a writer
    waits, and a writer is an existing thread that does not wait as a writer. *)
Definition word_ok (h : store) (o : Z) (lr lw : list tid) : Prop :=
  match mode_of o with
  | Idle => lr = [] /\ lw = []
  | Reading _ => if Z.testbit o 0 then lw <> [] else lr = [] /\ lw = []
  | Writing id =>
      (exists t n, h !! t = Some n /\ th_id n = id /\ t ∉ lw)
      /\ (Z.testbit o 0 = false -> lr = [] /\ lw = [])
  end.

Record rw_ok (k : rwstate) (lr lw : list tid) : Prop := {
  ro_rq : waits (rqueue k) lr;
  ro_wq : waits (wqueue k) lw;
  ro_disj : forall t, t ∈ lr -> t ∉ lw;
  ro_low : - 2 ^ 63 <= rw_owner (rw k);
  ro_word : word_ok (rwthr k) (rw_owner (rw k)) lr lw;
  ro_ids : forall t n, rwthr k !! t = Some n -> 0 < th_id n < 2 ^ 31;
  ro_inj : forall t t' n n', rwthr k !! t = Some n -> rwthr k !! t' = Some n' ->
    th_id n = th_id n' -> t = t';
  ro_size : Z.of_nat (size (rwthr k)) < 2 ^ 31;
  ro_run : forall t, t ∈ rwrun k -> (t ∉ lr) /\ (t ∉ lw) /\ is_Some (rwthr k !! t)
}.

(** A thread starts a syscall only while the scheduler runs it, wlock and
    wunlock reach their critical sections with the result of the attempt
    before; fewer than 2^61 read locks are held when one is added. *)
Definition rwenabled (e : rwevent) (k : rwstate) (lr lw : list tid) : Prop :=
  match e with
  | RLockTry t _ | RLockLocked t | TryRLock t =>
      t ∈ rwrun k /\ - 2 ^ 62 <= rw_owner (rw k)
  | RUnlockTry t _ | RUnlockLocked t | WLockTry t _ | TryWLock t | WUnlockTry t => t ∈ rwrun k
  | WLockLocked t => t ∈ rwrun k /\ mode_of (rw_owner (rw k)) <> Writing (id_of (rwthr k) t)
  | WUnlockLocked t => t ∈ rwrun k /\ mode_of (rw_owner (rw k)) = Writing (id_of (rwthr k) t)
  | WTimedOut t =>
      is_Some (rwthr k !! t) /\ - 2 ^ 62 <= rw_owner (rw k)
  | RSignaled t | RStopped t | RTimedOut t | WSignaled t | WStopped t =>
      is_Some (rwthr k !! t)
  end.

(** The region that does not end: the last waiting writer times out while
    readers hold the lock, and one of the readers that sleep is being saved
    (cpu_flag::again). *)
Definition rw_stuck (e : rwevent) (k : rwstate) (lr lw : list tid) : Prop :=
  exists t x n, e = WTimedOut t /\ lw = [t] /\ rw_owner (rw k) < 0
    /\ x ∈ lr /\ rwthr k !! x = Some n /\ again n = true.

(** ** The word *)

Lemma word_split o : o = 2 * Z.shiftr o 1 + b2z (Z.testbit o 0).
Proof.
  rewrite Z.bit0_odd, <- Z.div2_spec. pose proof (Z.div2_odd o) as H.
  destruct (Z.odd o); cbn in *; lia.
Qed.

Lemma word_bit h b : Z.testbit (2 * h + b2z b) 0 = b.
Proof. rewrite Z.bit0_odd, Z.add_comm, Z.odd_add_mul_2. by destruct b. Qed.

Lemma word_half h b : Z.shiftr (2 * h + b2z b) 1 = h.
Proof. pose proof (word_split (2 * h + b2z b)) as H. rewrite word_bit in H. lia. Qed.

Lemma word_set h b : Z.lor (2 * h + b2z b) 1 = 2 * h + b2z true.
Proof.
  rewrite (word_split (Z.lor _ _)). rewrite Z.shiftr_lor, Z.lor_spec, word_half, word_bit.
  cbn. rewrite Z.lor_0_r, orb_true_r. done.
Qed.

Lemma word_clear h b : Z.land (2 * h + b2z b) (-2) = 2 * h + b2z false.
Proof.
  rewrite (word_split (Z.land _ _)). rewrite Z.shiftr_land, Z.land_spec, word_half, word_bit.
  change (Z.shiftr (-2) 1) with (-1). rewrite Z.land_m1_r.
  change (Z.testbit (-2) 0) with false. by rewrite andb_false_r.
Qed.

Lemma writer_word_eq id : 0 < id < 2 ^ 31 -> writer_word id = 2 * id + b2z false.
Proof.
  intros H. unfold writer_word. rewrite Z.shiftl_mul_pow2 by lia.
  rewrite wrap_id by (unfold urange; lia). cbn. lia.
Qed.

Definition waiting_bit (p q : ptr) : bool :=
  match p, q with None, None => false | _, _ => true end.

Lemma grant_word_eq n k :
  0 < th_id n < 2 ^ 31 ->
  grant_word n k = 2 * th_id n + b2z (waiting_bit (wq (rw k)) (rq (rw k))).
Proof.
  intros H. unfold grant_word. rewrite writer_word_eq by done.
  destruct (wq (rw k)), (rq (rw k)); cbn [waiting waiting_bit];
    repeat (rewrite word_set || rewrite Z.lor_0_r); done.
Qed.

(** The three shapes of the word. *)
Lemma mode_idle o : mode_of o = Idle <-> o = 0.
Proof. unfold mode_of. zbool; split; try done; lia. Qed.

Lemma mode_reading n b : 0 < n -> mode_of (2 * - n + b2z b) = Reading n.
Proof.
  intros H. unfold mode_of. rewrite word_half. pose proof (b2z_range b).
  zbool; try lia. f_equal. lia.
Qed.

Lemma mode_writing id b : 0 < id -> mode_of (2 * id + b2z b) = Writing id.
Proof.
  intros H. unfold mode_of. rewrite word_half. pose proof (b2z_range b). zbool; try lia. done.
Qed.

Lemma mode_reading_inv o n :
  mode_of o = Reading n -> 0 < n /\ o = 2 * - n + b2z (Z.testbit o 0).
Proof.
  unfold mode_of. pose proof (word_split o). pose proof (b2z_range (Z.testbit o 0)).
  zbool; try done. intros [= <-]. lia.
Qed.

Lemma mode_writing_inv o id :
  mode_of o = Writing id -> 0 <= id /\ o = 2 * id + b2z (Z.testbit o 0).
Proof.
  unfold mode_of. pose proof (word_split o). pose proof (b2z_range (Z.testbit o 0)).
  zbool; try done. intros [= <-]. lia.
Qed.

(** The states of a lock, with the word spelt out. *)
Inductive shape (k : rwstate) (lr lw : list tid) : Prop :=
| sh_idle : rw_owner (rw k) = 0 -> lr = [] -> lw = [] -> shape k lr lw
| sh_readers n : 0 < n -> rw_owner (rw k) = 2 * - n + b2z false -> lr = [] -> lw = [] ->
    shape k lr lw
| sh_readers_wait n : 0 < n -> rw_owner (rw k) = 2 * - n + b2z true -> lw <> [] ->
    shape k lr lw
| sh_writer t n b : rwthr k !! t = Some n -> rw_owner (rw k) = 2 * th_id n + b2z b ->
    t ∉ lw -> (b = false -> lr = [] /\ lw = []) -> shape k lr lw.

Lemma rw_shape k lr lw : rw_ok k lr lw -> shape k lr lw.
Proof.
  intros Hok. pose proof (ro_word _ _ _ Hok) as H. unfold word_ok in H.
  destruct (mode_of (rw_owner (rw k))) as [|n|id] eqn:E.
  - apply mode_idle in E. destruct H. by apply sh_idle.
  - apply mode_reading_inv in E as [Hn E]. destruct (Z.testbit _ 0) eqn:Eb.
    + by eapply sh_readers_wait.
    + destruct H. by eapply sh_readers.
  - apply mode_writing_inv in E as [Hn E]. destruct H as [(t & n & Ht & Hi & Hw) Hb].
    eapply (sh_writer _ _ _ t n (Z.testbit (rw_owner (rw k)) 0)); [done|by rewrite Hi|done|done].
Qed.

(** ** The invariant after a region *)

Lemma word_ok_ids h h' o lr lw : same_ids h h' -> word_ok h o lr lw -> word_ok h' o lr lw.
Proof.
  intros Hs. unfold word_ok. destruct (mode_of o) as [|n|id]; try done.
  intros [(t & n & Ht & Hi & Hw) Hb]. split; [|done]. specialize (Hs t). rewrite Ht in Hs.
  destruct (h' !! t) as [n'|] eqn:E; [|done]. injection Hs as Hs. exists t, n'. by rewrite Hs.
Qed.

Lemma word_ok_writer k lr lw t n b lr' lw' :
  rw_ok k lr lw -> rwthr k !! t = Some n -> t ∉ lw' -> (b = false -> lr' = [] /\ lw' = []) ->
  word_ok (rwthr k) (2 * th_id n + b2z b) lr' lw'.
Proof.
  intros Hok Hn Hw Hb. pose proof (ro_ids _ _ _ Hok t n Hn). unfold word_ok.
  rewrite mode_writing by lia. rewrite word_bit. split; [by exists t, n|done].
Qed.

Lemma word_ok_readers h n (b : bool) lr lw :
  0 < n -> (if b then lw <> [] else lr = [] /\ lw = []) ->
  word_ok h (2 * - n + b2z b) lr lw.
Proof. intros Hn Hb. unfold word_ok. rewrite mode_reading, word_bit by done. done. Qed.

(** Both queues and the ids after a region. *)
Record requeued (k k' : rwstate) (lr lw : list tid) : Prop := {
  re_rq : waits (rqueue k') lr;
  re_wq : waits (wqueue k') lw;
  re_ids : same_ids (rwthr k) (rwthr k')
}.

Lemma rw_ok_update k lr lw k' lr' lw' :
  rw_ok k lr lw -> requeued k k' lr' lw' -> (forall t, t ∈ lr' -> t ∉ lw') ->
  - 2 ^ 63 <= rw_owner (rw k') -> word_ok (rwthr k) (rw_owner (rw k')) lr' lw' ->
  (forall t, t ∈ rwrun k' -> (t ∉ lr') /\ (t ∉ lw') /\ is_Some (rwthr k !! t)) ->
  rw_ok k' lr' lw'.
Proof.
  intros [H1 H2 H3 H4 H5 H6 H7 H8 H9] [Hr Hw Hs] Hd Hl Hword Hrun. split; try done.
  - by eapply word_ok_ids.
  - intros t n Hn. destruct (same_ids_lookup _ _ _ _ Hs Hn) as (m & Hm & <-). eauto.
  - intros t t' n n' Hn Hn' E.
    destruct (same_ids_lookup _ _ _ _ Hs Hn) as (m & Hm & Em).
    destruct (same_ids_lookup _ _ _ _ Hs Hn') as (m' & Hm' & Em').
    eapply H7; eauto. congruence.
  - erewrite size_dom_eq; [exact H8|]. apply set_eq. intros t. rewrite !elem_of_dom.
    specialize (Hs t). destruct (rwthr k !! t), (rwthr k' !! t); try done;
      split; by intros [? ?].
  - intros t Ht. destruct (Hrun t Ht) as (? & ? & [n Hn]). split; [done|]. split; [done|].
    specialize (Hs t). rewrite Hn in Hs. by destruct (rwthr k' !! t).
Qed.

Lemma requeued_refl k lr lw : rw_ok k lr lw -> requeued k k lr lw.
Proof. intros []. by split. Qed.

Lemma requeued_owner o k k' lr lw :
  requeued k k' lr lw -> requeued k (set_rw_owner o k') lr lw.
Proof. by intros []. Qed.

Lemma requeued_awake l k k' lr lw :
  requeued k k' lr lw -> requeued k (rw_awake l k') lr lw.
Proof. by intros []. Qed.

Lemma requeued_sleep t k k' lr lw :
  requeued k k' lr lw -> requeued k (rw_sleep t k') lr lw.
Proof. by intros []. Qed.

Lemma requeued_thread f t k k' lr lw :
  (forall n, next_cpu (f n) = next_cpu n) -> (forall n, th_id (f n) = th_id n) ->
  requeued k k' lr lw -> requeued k (rw_thread f t k') lr lw.
Proof.
  intros Hf Hi [Hr Hw Hs]. split; try by apply seg_alter_data.
  etransitivity; [exact Hs|]. by apply same_ids_alter.
Qed.

Lemma seg_other l h h' p l' :
  relinked l h h' -> (forall t, t ∈ l' -> t ∉ l) -> seg h p l' -> seg h' p l'.
Proof. intros Hl Hd. apply seg_frame. intros t Ht. apply Hl. auto. Qed.

Lemma requeued_set_w k k' lr lw l q lw' :
  requeued k k' lr lw -> (forall t, t ∈ lr -> t ∉ l) ->
  relinked l (rwthr k') (threads q) -> waits q lw' -> requeued k (set_wqueue q k') lr lw'.
Proof.
  intros [Hr Hw Hs] Hd Hl Hq. split.
  - eapply seg_other; eauto.
  - by destruct q.
  - etransitivity; [exact Hs|]. by eapply same_ids_relinked.
Qed.

Lemma requeued_set_r k k' lr lw l q lr' :
  requeued k k' lr lw -> (forall t, t ∈ lw -> t ∉ l) ->
  relinked l (rwthr k') (threads q) -> waits q lr' -> requeued k (set_rqueue q k') lr' lw.
Proof.
  intros [Hr Hw Hs] Hd Hl Hq. split.
  - by destruct q.
  - eapply seg_other; eauto.
  - etransitivity; [exact Hs|]. by eapply same_ids_relinked.
Qed.

(** A thread that sleeps in neither queue enters one of them. *)
Lemma emplace_ids q t tag : same_ids (threads q) (threads (emplace q t tag)).
Proof.
  unfold emplace. cbn. etransitivity; [apply (same_ids_alter _ (set_next (first q)) t); done|].
  apply same_ids_alter. intros n. unfold stamp. by case_match.
Qed.

Lemma requeued_emplace_r k k' lr lw t tag :
  requeued k k' lr lw -> t ∉ lr -> t ∉ lw -> is_Some (rwthr k' !! t) ->
  requeued k (set_rqueue (emplace (rqueue k') t tag) k') (t :: lr) lw.
Proof.
  intros [Hr Hw Hs] Hnr Hnw [n Hn].
  destruct (emplace_ok (rqueue k') lr t n tag Hr Hnr Hn) as (E1 & _ & E3). split.
  - exact E1.
  - eapply seg_frame; [|exact Hw]. intros x Hx. apply E3. by intros ->.
  - etransitivity; [exact Hs|]. exact (emplace_ids (rqueue k') t tag).
Qed.

Lemma requeued_emplace_w k k' lr lw t tag :
  requeued k k' lr lw -> t ∉ lr -> t ∉ lw -> is_Some (rwthr k' !! t) ->
  requeued k (set_wqueue (emplace (wqueue k') t tag) k') lr (t :: lw).
Proof.
  intros [Hr Hw Hs] Hnr Hnw [n Hn].
  destruct (emplace_ok (wqueue k') lw t n tag Hw Hnw Hn) as (E1 & _ & E3). split.
  - eapply seg_frame; [|exact Hr]. intros x Hx. apply E3. by intros ->.
  - exact E1.
  - etransitivity; [exact Hs|]. exact (emplace_ids (wqueue k') t tag).
Qed.

Create HintDb rwlock.
#[export] Hint Resolve requeued_refl requeued_owner requeued_awake requeued_sleep : rwlock.
#[export] Hint Extern 2 (requeued _ (rw_thread _ _ _) _ _) =>
  (apply requeued_thread; [done|done|]) : rwlock.

(** ** Each region implements a step *)

Definition rw_refines (e : rwevent) (k : rwstate) (lr lw : list tid) : Prop :=
  let '(k', r, aw) := rwexec e k in
  exists lr' lw', rw_ok k' lr' lw' /\ same_ids (rwthr k) (rwthr k')
    /\ rw_protocol (rw k') = rw_protocol (rw k)
    /\ list_to_set aw ⊆ rwrun k'
    /\ rwstep (rwthr k) (rw_protocol (rw k)) e (abs_rw k lr lw) r aw (abs_rw k' lr' lw').

(** Regions that leave both queues alone. *)
Lemma refines_word e k lr lw o r a :
  rw_ok k lr lw -> rwexec e k = (set_rw_owner o k, r, []) ->
  - 2 ^ 63 <= o -> word_ok (rwthr k) o lr lw ->
  a = mk_arw (mode_of o) lr lw ->
  rwstep (rwthr k) (rw_protocol (rw k)) e (abs_rw k lr lw) r [] a ->
  rw_refines e k lr lw.
Proof.
  intros Hok E Hl Hw -> Hs. unfold rw_refines. rewrite E. exists lr, lw.
  split; [|done]. eapply rw_ok_update; eauto with rwlock; apply Hok.
Qed.

Lemma refines_same e k lr lw r f t :
  rw_ok k lr lw -> (forall n, next_cpu (f n) = next_cpu n) -> (forall n, th_id (f n) = th_id n) ->
  rwexec e k = (rw_thread f t k, r, []) ->
  rwstep (rwthr k) (rw_protocol (rw k)) e (abs_rw k lr lw) r [] (abs_rw k lr lw) ->
  rw_refines e k lr lw.
Proof.
  intros Hok Hf Hi E Hs. unfold rw_refines. rewrite E. exists lr, lw.
  split; [|split; [by apply same_ids_alter|done]].
  eapply rw_ok_update; eauto with rwlock; apply Hok.
Qed.

Lemma refines_stay e k lr lw r :
  rw_ok k lr lw -> rwexec e k = (k, r, []) ->
  rwstep (rwthr k) (rw_protocol (rw k)) e (abs_rw k lr lw) r [] (abs_rw k lr lw) ->
  rw_refines e k lr lw.
Proof. intros Hok E Hs. unfold rw_refines. rewrite E. exists lr, lw. split; done. Qed.

Lemma readable_admits k lr lw :
  rw_ok k lr lw -> readable (rw_owner (rw k)) = admits (abs_rw k lr lw).
Proof.
  intros Hok. unfold readable, admits, abs_rw. cbn [a_mode a_writers].
  destruct (rw_shape k lr lw Hok) as [-> -> ->|n Hn -> -> ->|n Hn -> Hw|t n b Ht -> Hw Hb].
  - done.
  - rewrite mode_reading, word_bit by done. cbn. zbool; lia || done.
  - rewrite mode_reading, word_bit by done. rewrite andb_false_r. by destruct lw.
  - pose proof (ro_ids _ _ _ Hok t n Ht). rewrite mode_writing by lia.
    pose proof (b2z_range b). zbool; lia || done.
Qed.

(** One more reader. *)
Lemma enter_refines e k lr lw t :
  rw_ok k lr lw -> - 2 ^ 62 <= rw_owner (rw k) -> readable (rw_owner (rw k)) = true ->
  e = RLockTry t false \/ e = RLockLocked t \/ e = TryRLock t ->
  rwexec e k = (set_rw_owner (sext 64 (rw_owner (rw k) - 2)) k, Returned CELL_OK, []) ->
  rw_refines e k lr lw.
Proof.
  intros Hok Hb Hr He E. pose proof Hr as Ha. rewrite (readable_admits k lr lw Hok) in Ha.
  assert (Hlt : rw_owner (rw k) <= 0).
  { unfold readable in Hr. apply andb_prop in Hr as [Hr _]. lia. }
  rewrite sext_id in E by (unfold srange; lia).
  eapply refines_word; [exact Hok|exact E|lia| |reflexivity|].
  - destruct (rw_shape k lr lw Hok) as [Ew -> ->|n Hn Ew -> ->|n Hn Ew Hw|x n b Ht Ew Hw Hc];
      rewrite Ew in *.
    + apply (word_ok_readers _ 1 false); [lia|done].
    + replace (2 * - n + b2z false - 2) with (2 * - (n + 1) + b2z false) by (cbn; lia).
      by apply word_ok_readers; [lia|].
    + unfold readable in Hr. by rewrite word_bit, andb_false_r in Hr.
    + pose proof (ro_ids _ _ _ Hok x n Ht). destruct b; cbn in *; lia.
  - pose proof (s_enter (rwthr k) (rw_protocol (rw k)) t e (abs_rw k lr lw) He Ha) as S.
    replace (mk_arw (mode_of (rw_owner (rw k) - 2)) lr lw)
      with (with_mode (entered 1 (a_mode (abs_rw k lr lw))) (abs_rw k lr lw)); [exact S|].
    unfold abs_rw, with_mode. cbn [a_mode a_readers a_writers]. f_equal.
    destruct (rw_shape k lr lw Hok) as [Ew _ _|n Hn Ew _ _|n Hn Ew Hw|x n b Ht Ew Hw Hc];
      rewrite Ew in *; try done.
    + replace (2 * - n + b2z false - 2) with (2 * - (n + 1) + b2z false) by (cbn; lia).
      by rewrite !mode_reading by lia.
    + unfold readable in Hr. by rewrite word_bit, andb_false_r in Hr.
    + pose proof (ro_ids _ _ _ Hok x n Ht). destruct b; cbn in *; lia.
Qed.

Lemma rlock_try_refines k lr lw t i :
  rw_ok k lr lw -> rwenabled (RLockTry t i) k lr lw -> rw_refines (RLockTry t i) k lr lw.
Proof.
  intros Hok [_ Hb]. pose proof (readable_admits k lr lw Hok) as Ha.
  destruct (readable (rw_owner (rw k))) eqn:Er; [destruct i|].
  - apply refines_stay with (r := Retry); [done| |apply s_enter_retry; by left].
    cbn. unfold rlock_try. by rewrite Er.
  - apply enter_refines with (t := t); auto. cbn. unfold rlock_try. by rewrite Er.
  - apply refines_stay with (r := Retry); [done| |apply s_enter_retry; by right].
    cbn. unfold rlock_try. by rewrite Er.
Qed.

Lemma tryrlock_refines k lr lw t :
  rw_ok k lr lw -> rwenabled (TryRLock t) k lr lw -> rw_refines (TryRLock t) k lr lw.
Proof.
  intros Hok [_ Hb]. pose proof (readable_admits k lr lw Hok) as Ha.
  destruct (readable (rw_owner (rw k))) eqn:Er.
  - apply enter_refines with (t := t); auto. cbn. unfold tryrlock. by rewrite Er.
  - apply refines_stay with (r := Returned CELL_EBUSY); [done| |by apply s_enter_busy].
    cbn. unfold tryrlock. by rewrite Er.
Qed.

(** Setting the waiting bit of a lock that is held changes neither the mode
    nor the meaning of the word. *)
Lemma wait_bit_mode k lr lw :
  rw_ok k lr lw -> rw_owner (rw k) <> 0 ->
  mode_of (Z.lor (rw_owner (rw k)) 1) = mode_of (rw_owner (rw k)).
Proof.
  intros Hok Hz.
  destruct (rw_shape k lr lw Hok) as [Ew _ _|n Hn -> _ _|n Hn -> Hw|x n b Ht -> Hw Hc].
  - done.
  - by rewrite word_set, !mode_reading.
  - by rewrite word_set, !mode_reading.
  - pose proof (ro_ids _ _ _ Hok x n Ht). by rewrite word_set, !mode_writing by lia.
Qed.

Lemma lor_low o : o <= Z.lor o 1.
Proof. rewrite (word_split o), word_set. pose proof (b2z_range (Z.testbit o 0)). cbn [b2z]. lia. Qed.

Lemma rlock_locked_refines k lr lw t :
  rw_ok k lr lw -> rwenabled (RLockLocked t) k lr lw -> rw_refines (RLockLocked t) k lr lw.
Proof.
  intros Hok [Ht Hb]. pose proof (readable_admits k lr lw Hok) as Ha.
  assert (Hneg : (0 <? rw_owner (rw k)) || Z.testbit (rw_owner (rw k)) 0
                 = negb (readable (rw_owner (rw k)))).
  { unfold readable. rewrite negb_andb, negb_involutive, <- Z.ltb_antisym. done. }
  destruct (readable (rw_owner (rw k))) eqn:Er.
  { apply enter_refines with (t := t); auto. cbn. unfold rlock_locked. by rewrite Er, Hneg. }
  assert (Hnz : rw_owner (rw k) <> 0) by (intros E; by rewrite E in Er).
  destruct (ro_run _ _ _ Hok t Ht) as (Hnr & Hnw & Hth).
  unfold rw_refines. cbn [rwexec]. unfold rlock_locked. rewrite Er, Hneg. cbn [negb].
  exists (t :: lr), lw.
  assert (Hq : requeued k (set_rqueue (emplace (rqueue (rw_sleep t (set_rw_owner
      (Z.lor (rw_owner (rw k)) 1) k))) t (wrap 64 (rwtag k + 1)))
      (rw_sleep t (set_rw_owner (Z.lor (rw_owner (rw k)) 1) k))) (t :: lr) lw).
  { apply requeued_emplace_r; auto with rwlock. }
  split; [|split; [|split; [done|split; [done|]]]].
  - eapply rw_ok_update; [exact Hok|apply requeued_thread; [done|done|exact Hq]| | | |].
    + intros x [->|Hx]%elem_of_cons; [done|]. by apply Hok.
    + cbn. pose proof (lor_low (rw_owner (rw k))). pose proof (ro_low _ _ _ Hok). lia.
    + cbn. destruct (rw_shape k lr lw Hok) as [Ew -> ->|n Hn Ew -> ->|n Hn Ew Hw|x n b Hx Ew Hw Hc].
      * done.
      * rewrite Ew in Er. unfold readable in Er. rewrite word_bit in Er.
        destruct (Z.leb_spec (2 * - n + b2z false) 0); cbn in *; lia || done.
      * rewrite Ew, word_set. by apply word_ok_readers.
      * rewrite Ew, word_set. by eapply word_ok_writer.
    + cbn. intros x [Hx Hne]%elem_of_difference. destruct (ro_run _ _ _ Hok x Hx) as (? & ? & ?).
      split; [set_solver|done].
  - eapply re_ids. apply requeued_thread; [done|done|exact Hq].
  - unfold abs_rw. cbn. rewrite (wait_bit_mode k lr lw) by done.
    apply (s_enter_block _ _ t (abs_rw k lr lw)). congruence.
Qed.

Lemma rw_result_ok t k : is_Some (rwthr k !! t) -> wait_end (rw_result t k).
Proof.
  intros [n Hn]. unfold rw_result, wait_end. rewrite Hn. case_match; [by left|by right].
Qed.

Lemma rw_signaled_refines e k lr lw t :
  rw_ok k lr lw -> is_Some (rwthr k !! t) -> e = RSignaled t \/ e = WSignaled t ->
  rw_refines e k lr lw.
Proof.
  intros Hok Ht He. set (f := set_state (del_flag cf_signal)).
  apply refines_same with (f := f) (t := t) (r := rw_result t (rw_thread f t k)); try done.
  - by destruct He as [-> | ->].
  - eapply s_signaled; [exact He|]. apply rw_result_ok. cbn. by rewrite lookup_alter_eq, fmap_is_Some.
Qed.

Lemma rstopped_refines k lr lw t :
  rw_ok k lr lw -> is_Some (rwthr k !! t) -> rw_refines (RStopped t) k lr lw.
Proof.
  intros Hok Ht. pose proof (any_waiting_thread _ _ t (ro_rq _ _ _ Hok)) as E.
  destruct (bool_decide_reflect (t ∈ lr)) as [Hin|Hin].
  - eapply refines_same with (f := set_state (add_flag cf_again)) (t := t); try done.
    + cbn. unfold rlock_stopped. by rewrite E.
    + apply s_rstopped. by rewrite decide_True.
  - eapply refines_stay; [done| |].
    + cbn. unfold rlock_stopped. by rewrite E.
    + apply s_rstopped. rewrite decide_False by done. by apply rw_result_ok.
Qed.

Lemma wstopped_refines k lr lw t :
  rw_ok k lr lw -> is_Some (rwthr k !! t) -> rw_refines (WStopped t) k lr lw.
Proof.
  intros Hok Ht. pose proof (any_waiting_thread _ _ t (ro_wq _ _ _ Hok)) as E.
  destruct (bool_decide_reflect (t ∈ lw)) as [Hin|Hin].
  - eapply refines_same with (f := set_state (add_flag cf_again)) (t := t); try done.
    + cbn. unfold wlock_stopped. by rewrite E.
    + apply s_wstopped. by rewrite decide_True.
  - eapply refines_stay; [done| |].
    + cbn. unfold wlock_stopped. by rewrite E.
    + apply s_wstopped. rewrite decide_False by done. by apply rw_result_ok.
Qed.

Lemma rq_head k lr lw : rw_ok k lr lw -> rq (rw k) = None <-> lr = [].
Proof.
  intros Hok. pose proof (ro_rq _ _ _ Hok) as H. unfold waits in H. cbn in H.
  destruct lr as [|x lr]; [done|]. destruct H as [-> _]. done.
Qed.

Lemma rtimed_out_refines k lr lw t :
  rw_ok k lr lw -> is_Some (rwthr k !! t) -> rw_refines (RTimedOut t) k lr lw.
Proof.
  intros Hok Ht. destruct (unqueue_ok true (rqueue k) lr t (ro_rq _ _ _ Hok)) as [U1 U2].
  destruct (decide (t ∈ lr)) as [Hin|Hin].
  2: { eapply refines_stay; [done| |by apply s_rlate; [|apply (rw_result_ok t k)]].
       cbn. unfold rlock_timed_out. rewrite U1 by done. by destruct (rq (rw k)). }
  destruct (U2 Hin) as (q & E & [R1 R2 R3]).
  unfold rw_refines. cbn [rwexec]. unfold rlock_timed_out. rewrite E.
  destruct (rq (rw k)) eqn:Eq.
  2: { apply (rq_head k lr lw Hok) in Eq. subst lr. by apply not_elem_of_nil in Hin. }
  assert (Hq : requeued k (rw_thread (set_gpr3 CELL_ETIMEDOUT) t (set_rqueue q k)) (without t lr) lw).
  { apply requeued_thread; [done|done|]. eapply requeued_set_r; eauto with rwlock.
    intros x Hx Hl. by apply (ro_disj _ _ _ Hok x Hl). }
  exists (without t lr), lw. split; [|split; [apply Hq|split; [done|split; [done|]]]].
  - eapply rw_ok_update; [exact Hok|exact Hq| |apply Hok| |].
    + intros x [Hx _]%without_elem_of. by apply Hok.
    + cbn. pose proof (ro_word _ _ _ Hok) as W. unfold word_ok in *.
      destruct (mode_of _); [|destruct (Z.testbit _ 0)|].
      * destruct W as [-> ->]. done.
      * done.
      * destruct W as [-> ->]. done.
      * destruct W as [W1 W2]. split; [done|]. intros B. destruct (W2 B) as [-> ->]. done.
    + intros x Hx. destruct (ro_run _ _ _ Hok x Hx) as (? & ? & ?).
      rewrite without_elem_of. tauto.
  - exact (s_rtimeout _ _ t (abs_rw k lr lw) Hin).
Qed.

(** One reader less. *)
Lemma leave_refines e k lr lw t n b :
  rw_ok k lr lw -> 0 < n -> rw_owner (rw k) = 2 * - n + b2z b ->
  e = RUnlockTry t false /\ b = false \/ e = RUnlockLocked t /\ (n <> 1 \/ b = false) ->
  rwexec e k = (set_rw_owner (sext 64 (rw_owner (rw k) + 2)) k, Returned CELL_OK, []) ->
  rw_refines e k lr lw.
Proof.
  intros Hok Hn Eo He E. pose proof (ro_low _ _ _ Hok) as Hlow.
  pose proof (b2z_range b) as Hb.
  rewrite sext_id in E by (unfold srange; lia). rewrite Eo in E.
  replace (2 * - n + b2z b + 2) with (2 * - (n - 1) + b2z b) in E by lia.
  pose proof (ro_word _ _ _ Hok) as W. unfold word_ok in W.
  rewrite Eo, mode_reading, word_bit in W by done.
  assert (Hm : mode_of (2 * - (n - 1) + b2z b) = left_by_one n).
  { unfold left_by_one. destruct (Z.eqb_spec n 1) as [->|].
    - by replace b with false by (destruct He as [[_ ->]|[_ [?| ->]]]; done).
    - by rewrite mode_reading by lia. }
  eapply refines_word; [exact Hok|exact E|lia| |reflexivity|].
  - destruct (Z.eqb_spec n 1) as [->|].
    + replace b with false in * by (destruct He as [[_ ->]|[_ [?| ->]]]; done). done.
    + apply word_ok_readers; [lia|]. by destruct b.
  - assert (Ea : a_mode (abs_rw k lr lw) = Reading n).
    { unfold abs_rw. cbn. by rewrite Eo, mode_reading. }
    assert (Hlw : b = false -> lw = []) by (by intros ->; destruct W).
    rewrite Hm. apply (s_leave _ _ t e (abs_rw k lr lw) n Ea). cbn [a_writers abs_rw].
    destruct He as [[-> Hf]|[-> [?|Hf]]]; auto.
Qed.

Lemma runlock_try_refines k lr lw t i :
  rw_ok k lr lw -> rw_refines (RUnlockTry t i) k lr lw.
Proof.
  intros Hok.
  destruct (rw_shape k lr lw Hok) as [Ew -> ->|n Hn Ew -> ->|n Hn Ew Hw|x n b Hx Ew Hw Hc];
    cycle 1.
  - destruct i.
    + apply refines_stay with (r := Retry); [done| |apply s_leave_retry; by left].
      cbn. unfold runlock_try. by rewrite andb_false_r.
    + apply leave_refines with (t := t) (n := n) (b := false); auto.
      cbn. unfold runlock_try. rewrite Ew, word_bit.
      destruct (Z.ltb_spec (2 * - n + b2z false) 0); [done|cbn in *; lia].
  - apply refines_stay with (r := Retry); [done| |apply s_leave_retry; by right; right].
    cbn. unfold runlock_try. by rewrite Ew, word_bit, !andb_false_r.
  - pose proof (ro_ids _ _ _ Hok x n Hx). pose proof (b2z_range b).
    apply refines_stay with (r := Retry); [done| |apply s_leave_retry; right; left].
    + cbn. unfold runlock_try. rewrite Ew. destruct (Z.ltb_spec (2 * th_id n + b2z b) 0); [lia|done].
    + intros m. cbn. rewrite Ew, mode_writing by lia. done.
  - apply refines_stay with (r := Retry); [done| |apply s_leave_retry; right; left].
    + cbn. unfold runlock_try. by rewrite Ew.
    + intros m. cbn. by rewrite Ew.
Qed.

(** The word of the next writer after [x] left the queue. *)
Lemma grant_ok k lr lw x n q :
  rw_ok k lr lw -> x ∈ lw -> rwthr k !! x = Some n -> removed true (wqueue k) lw x q ->
  exists n', threads q !! x = Some n' /\ again n' = again n /\
  let k1 := set_wqueue q k in
  let k' := rw_awake [x] (set_rw_owner (grant_word n' k1) k1) in
  rw_ok k' lr (without x lw) /\ same_ids (rwthr k) (rwthr k')
  /\ abs_rw k' lr (without x lw) = mk_arw (Writing (th_id n)) lr (without x lw).
Proof.
  intros Hok Hx Hn [R1 R2 (m & Hm & Em)]. cbn in Hm. rewrite Hn in Hm. injection Hm as <-.
  exists (set_next None n). split; [exact Em|]. split; [done|]. intros k1 k'.
  pose proof (ro_ids _ _ _ Hok x n Hn) as Hid.
  assert (Hd : forall t, t ∈ lr -> t ∉ lw) by apply Hok.
  assert (Hq : requeued k k1 lr (without x lw)).
  { eapply requeued_set_w; eauto with rwlock. }
  assert (Eo : rw_owner (rw k') = 2 * th_id n + b2z (waiting_bit (wq (rw k1)) (rq (rw k1)))).
  { exact (grant_word_eq (set_next None n) k1 Hid). }
  split; [|split; [apply Hq|]].
  - eapply rw_ok_update; [exact Hok|unfold k'; eauto with rwlock| | | |].
    + intros t Ht [Hw _]%without_elem_of. by apply (Hd t).
    + rewrite Eo. pose proof (b2z_range (waiting_bit (wq (rw k1)) (rq (rw k1)))). lia.
    + rewrite Eo. eapply word_ok_writer; [exact Hok|exact Hn|by intros [_ []]%without_elem_of|].
      intros Hb. pose proof (re_rq _ _ _ _ Hq) as H1. pose proof (re_wq _ _ _ _ Hq) as H2.
      unfold waits in H1, H2. cbn [rqueue wqueue first] in H1, H2.
      destruct (wq (rw k1)), (rq (rw k1)); try done. cbn [first] in *.
      split; [destruct lr|destruct (without x lw)]; try done; by destruct H1 || destruct H2.
    + intros t [Ht|Ht]%elem_of_union.
      * destruct (ro_run _ _ _ Hok t Ht) as (? & ? & ?). rewrite without_elem_of. tauto.
      * assert (t = x) as -> by set_solver. rewrite without_elem_of. split; [|split].
        -- intros Hr. by apply (Hd x).
        -- tauto.
        -- eauto.
  - unfold abs_rw. rewrite Eo, mode_writing by lia. done.
Qed.

Lemma schedule_writer k lr lw :
  rw_ok k lr lw -> lw <> [] ->
  exists x n q, schedule (wqueue k) (rw_protocol (rw k)) true = Some (Some x, q)
    /\ selects (rwthr k) (rw_protocol (rw k)) lw x /\ rwthr k !! x = Some n
    /\ (if again n then q = wqueue k else removed true (wqueue k) lw x q).
Proof.
  intros Hok Hl.
  destruct (schedule_ok (rw_protocol (rw k)) true (wqueue k) lw (ro_wq _ _ _ Hok)) as [_ S].
  destruct (S Hl) as (x & n & q & ? & ? & ? & ?). exists x, n, q. done.
Qed.

Lemma runlock_last_refines k lr lw t :
  rw_ok k lr lw -> rw_owner (rw k) = -1 -> lw <> [] -> rw_refines (RUnlockLocked t) k lr lw.
Proof.
  intros Hok Eo Hw. destruct (schedule_writer k lr lw Hok Hw) as (x & n & q & E & Hsel & Hn & R).
  assert (Ea : a_mode (abs_rw k lr lw) = Reading 1) by (cbn; by rewrite Eo).
  destruct (again n) eqn:Eg.
  - subst q. eapply refines_same with (f := set_state (add_flag cf_again)) (t := t); try done.
    + cbn [rwexec]. unfold runlock_locked. rewrite Eo.
      change (-1 <? -1) with false. change (0 <=? -1) with false. change (-1 =? -1) with true.
      cbv iota zeta. rewrite E. cbn [threads wqueue]. by rewrite Hn, Eg.
    + by eapply s_leave_again.
  - pose proof (selects_elem _ _ _ _ Hsel) as Hx.
    destruct (grant_ok k lr lw x n q Hok Hx Hn R) as (n' & En & Eg' & G1 & G2 & G3).
    unfold rw_refines. cbn [rwexec]. unfold runlock_locked. rewrite Eo.
    change (-1 <? -1) with false. change (0 <=? -1) with false. change (-1 =? -1) with true.
    cbv iota zeta. rewrite E, En, Eg', Eg. exists lr, (without x lw).
    split; [exact G1|]. split; [exact G2|]. split; [done|]. split; [cbn; set_solver|].
    rewrite G3. by eapply (s_leave_last _ _ t (abs_rw k lr lw) x n).
Qed.

Lemma runlock_locked_refines k lr lw t :
  rw_ok k lr lw -> rw_refines (RUnlockLocked t) k lr lw.
Proof.
  intros Hok.
  destruct (rw_shape k lr lw Hok) as [Ew -> ->|n Hn Ew -> ->|n Hn Ew Hw|x n b Hx Ew Hw Hc].
  - apply refines_stay with (r := Returned CELL_EPERM); [done| |apply s_leave_perm].
    + cbn. unfold runlock_locked. by rewrite Ew.
    + intros m. cbn. by rewrite Ew.
  - apply leave_refines with (t := t) (n := n) (b := false); auto.
    cbn. unfold runlock_locked. rewrite Ew. cbn [b2z].
    destruct (Z.ltb_spec (2 * - n + 0) (-1)), (Z.leb_spec 0 (2 * - n + 0)),
      (Z.eqb_spec (2 * - n + 0) (-1)); lia || done.
  - destruct (Z.eq_dec n 1) as [->|Hn1]; [by apply runlock_last_refines|].
    apply leave_refines with (t := t) (n := n) (b := true); auto.
    cbn. unfold runlock_locked. rewrite Ew. cbn [b2z].
    destruct (Z.ltb_spec (2 * - n + 1) (-1)), (Z.leb_spec 0 (2 * - n + 1)),
      (Z.eqb_spec (2 * - n + 1) (-1)); lia || done.
  - pose proof (ro_ids _ _ _ Hok x n Hx). pose proof (b2z_range b).
    apply refines_stay with (r := Returned CELL_EPERM); [done| |apply s_leave_perm].
    + cbn. unfold runlock_locked. rewrite Ew.
      destruct (Z.ltb_spec (2 * th_id n + b2z b) (-1)), (Z.leb_spec 0 (2 * th_id n + b2z b));
        lia || done.
    + intros m. cbn. rewrite Ew, mode_writing by lia. done.
Qed.

(** *** The write side *)

Lemma id_of_range k lr lw t :
  rw_ok k lr lw -> is_Some (rwthr k !! t) -> 0 < id_of (rwthr k) t < 2 ^ 31.
Proof. intros Hok [n Hn]. unfold id_of. rewrite Hn. by eapply ro_ids. Qed.

Lemma take_refines e k lr lw t :
  rw_ok k lr lw -> t ∈ rwrun k -> rw_owner (rw k) = 0 ->
  e = WLockTry t false \/ e = WLockLocked t \/ e = TryWLock t -> rw_refines e k lr lw.
Proof.
  intros Hok Ht Eo He. destruct (ro_run _ _ _ Hok t Ht) as (Hnr & Hnw & [n Hn]).
  pose proof (ro_ids _ _ _ Hok t n Hn) as Hid.
  assert (Hidn : id_of (rwthr k) t = th_id n) by (unfold id_of; by rewrite Hn).
  assert (E : rwexec e k = (set_rw_owner (2 * th_id n + b2z false) k, Returned CELL_OK, [])).
  { rewrite <- writer_word_eq, <- Hidn by done. destruct He as [->|[->| ->]]; cbn [rwexec];
      unfold wlock_try, wlock_locked, trywlock; rewrite Eo; done. }
  destruct (rw_shape k lr lw Hok) as [_ -> ->|m Hm Ew _ _|m Hm Ew Hw|x m b Hx Ew Hw Hc].
  - eapply refines_word; [exact Hok|exact E|cbn; lia| |reflexivity|].
    + by eapply word_ok_writer.
    + rewrite mode_writing, <- Hidn by lia.
      apply (s_take _ _ t e (abs_rw k [] [])); [done|]. cbn. by rewrite Eo.
  - cbn in Ew. lia.
  - cbn in Ew. lia.
  - pose proof (ro_ids _ _ _ Hok x m Hx). pose proof (b2z_range b). lia.
Qed.

Lemma deadlock_refines e k lr lw t i :
  rw_ok k lr lw -> is_Some (rwthr k !! t) -> mode_of (rw_owner (rw k)) = Writing (id_of (rwthr k) t) ->
  e = WLockTry t i \/ e = TryWLock t -> rw_refines e k lr lw.
Proof.
  intros Hok Ht Em He. pose proof (id_of_range k lr lw t Hok Ht) as Hid.
  apply mode_writing_inv in Em as Eo. destruct Eo as [_ Eo].
  eapply refines_stay with (r := Returned CELL_EDEADLK); [done| |].
  - assert (Hh : Z.shiftr (rw_owner (rw k)) 1 = id_of (rwthr k) t) by (by rewrite Eo, word_half).
    destruct He as [->| ->]; cbn [rwexec]; unfold wlock_try, trywlock;
      rewrite Hh, Z.eqb_refl; (destruct (Z.eqb_spec (rw_owner (rw k)) 0) as [E|]; [|done]);
      rewrite E in Em; done.
  - by eapply (s_take_deadlock _ _ t e i (abs_rw k lr lw)).
Qed.

(** Not the writer: the comparison of the ids fails. *)
Lemma other_half k lr lw t :
  rw_ok k lr lw -> is_Some (rwthr k !! t) -> mode_of (rw_owner (rw k)) <> Writing (id_of (rwthr k) t) ->
  (Z.shiftr (rw_owner (rw k)) 1 =? id_of (rwthr k) t) = false.
Proof.
  intros Hok Ht Hm. pose proof (id_of_range k lr lw t Hok Ht) as Hid. apply Z.eqb_neq.
  intros E. apply Hm. rewrite (word_split (rw_owner (rw k))), E. apply mode_writing. lia.
Qed.

Lemma wlock_try_refines k lr lw t i :
  rw_ok k lr lw -> t ∈ rwrun k -> rw_refines (WLockTry t i) k lr lw.
Proof.
  intros Hok Ht. destruct (ro_run _ _ _ Hok t Ht) as (_ & _ & Hth).
  destruct (decide (mode_of (rw_owner (rw k)) = Writing (id_of (rwthr k) t))) as [Em|Em].
  { eapply deadlock_refines; eauto. }
  pose proof (other_half k lr lw t Hok Hth Em) as Hh.
  destruct (Z.eqb_spec (rw_owner (rw k)) 0) as [Eo|Eo]; [destruct i|].
  - apply refines_stay with (r := Retry); [done| |apply s_take_retry; [exact Em|by left]].
    cbn. unfold wlock_try. by rewrite Eo.
  - eapply take_refines; eauto.
  - apply refines_stay with (r := Retry); [done| |apply s_take_retry; [exact Em|right]].
    + cbn. unfold wlock_try. destruct (Z.eqb_spec (rw_owner (rw k)) 0); [done|]. by rewrite Hh.
    + cbn. by rewrite mode_idle.
Qed.

Lemma trywlock_refines k lr lw t :
  rw_ok k lr lw -> t ∈ rwrun k -> rw_refines (TryWLock t) k lr lw.
Proof.
  intros Hok Ht. destruct (ro_run _ _ _ Hok t Ht) as (_ & _ & Hth).
  destruct (decide (mode_of (rw_owner (rw k)) = Writing (id_of (rwthr k) t))) as [Em|Em].
  { eapply (deadlock_refines _ _ _ _ _ false); eauto. }
  pose proof (other_half k lr lw t Hok Hth Em) as Hh.
  destruct (Z.eqb_spec (rw_owner (rw k)) 0) as [Eo|Eo].
  - eapply take_refines; eauto.
  - apply refines_stay with (r := Returned CELL_EBUSY); [done| |apply s_take_busy; [exact Em|]].
    + cbn. unfold trywlock. destruct (Z.eqb_spec (rw_owner (rw k)) 0); [done|]. by rewrite Hh.
    + cbn. by rewrite mode_idle.
Qed.

Lemma wlock_locked_refines k lr lw t :
  rw_ok k lr lw -> rwenabled (WLockLocked t) k lr lw -> rw_refines (WLockLocked t) k lr lw.
Proof.
  intros Hok [Ht Em]. destruct (ro_run _ _ _ Hok t Ht) as (Hnr & Hnw & Hth).
  pose proof (other_half k lr lw t Hok Hth Em) as Hh.
  destruct (Z.eqb_spec (rw_owner (rw k)) 0) as [Eo|Eo]; [eapply take_refines; eauto|].
  unfold rw_refines. cbn [rwexec]. unfold wlock_locked. rewrite Hh.
  destruct (Z.eqb_spec (rw_owner (rw k)) 0) as [|_]; [done|].
  exists lr, (t :: lw).
  assert (Hq : requeued k (set_wqueue (emplace (wqueue (rw_sleep t (set_rw_owner
      (Z.lor (rw_owner (rw k)) 1) k))) t (wrap 64 (rwtag k + 1)))
      (rw_sleep t (set_rw_owner (Z.lor (rw_owner (rw k)) 1) k))) lr (t :: lw)).
  { apply requeued_emplace_w; auto with rwlock. }
  split; [|split; [|split; [done|split; [done|]]]].
  - eapply rw_ok_update; [exact Hok|apply requeued_thread; [done|done|exact Hq]| | | |].
    + intros x Hx [->|Hw]%elem_of_cons; [done|]. by apply (ro_disj _ _ _ Hok x).
    + cbn. pose proof (lor_low (rw_owner (rw k))). pose proof (ro_low _ _ _ Hok). lia.
    + cbn. destruct (rw_shape k lr lw Hok) as [Ew _ _|n Hn Ew _ _|n Hn Ew Hw|x n b Hx Ew Hw Hc];
        rewrite Ew; rewrite ?word_set.
      * done.
      * by apply word_ok_readers.
      * by apply word_ok_readers.
      * eapply word_ok_writer; [exact Hok|exact Hx| |done].
        intros [->|?]%elem_of_cons; [|done]. apply Em. pose proof (ro_ids _ _ _ Hok t n Hx).
        rewrite Ew, mode_writing by lia. unfold id_of. by rewrite Hx.
    + cbn. intros x [Hx Hne]%elem_of_difference. destruct (ro_run _ _ _ Hok x Hx) as (? & ? & ?).
      split; [done|]. split; [set_solver|done].
  - eapply re_ids. apply requeued_thread; [done|done|exact Hq].
  - unfold abs_rw. cbn. rewrite (wait_bit_mode k lr lw) by done.
    apply (s_take_block _ _ t (abs_rw k lr lw)); [done|]. cbn. by rewrite mode_idle.
Qed.

(** Emptying the reader queue. *)
Lemma drain_readers k k1 lr lw lw1 :
  rw_ok k lr lw -> requeued k k1 lr lw1 -> (forall t, t ∈ lw1 -> t ∈ lw) ->
  no_again (rwthr k1) lr ->
  exists q, drain (rqueue k1) = Some (q, rev lr) /\ requeued k (set_rqueue q k1) [] lw1.
Proof.
  intros Hok Hq Hsub Ha. destruct (drain_ok (rqueue k1) lr (re_rq _ _ _ _ Hq) Ha) as (q & E & W & R).
  exists q. split; [done|]. eapply requeued_set_r; [exact Hq| |exact R|done].
  intros t Ht Hl. by apply (ro_disj _ _ _ Hok t Hl), Hsub.
Qed.

Lemma queue_len k lr lw : rw_ok k lr lw -> Z.of_nat (length lr) < 2 ^ 31.
Proof.
  intros Hok. pose proof (seg_length _ _ _ (ro_rq _ _ _ Hok)) as H. cbn in H.
  pose proof (ro_size _ _ _ Hok). lia.
Qed.

(** The state in which all readers of [lr] were let in beside [n] others. *)
Lemma let_in_ok k lr lw k' n :
  rw_ok k lr lw -> requeued k k' [] [] -> 0 < n < 2 ^ 62 ->
  rw_owner (rw k') = 2 * - n + b2z false -> rwrun k' = rwrun k ∪ list_to_set (rev lr) ->
  rw_ok k' [] [] /\ abs_rw k' [] [] = mk_arw (Reading n) [] [].
Proof.
  intros Hok Hq Hn Eo Er. split.
  - eapply rw_ok_update; [exact Hok|exact Hq|by intros t ?%not_elem_of_nil| | |].
    + rewrite Eo. cbn. lia.
    + rewrite Eo. by apply word_ok_readers; [lia|].
    + rewrite Er. intros t Ht. do 2 (split; [apply not_elem_of_nil|]).
      apply elem_of_union in Ht as [Ht|Ht]; [by apply Hok|].
      apply elem_of_list_to_set, list_elem_of_In, in_rev, list_elem_of_In in Ht.
      exact (seg_dom _ _ _ _ (ro_rq _ _ _ Hok) Ht).
  - unfold abs_rw. by rewrite Eo, mode_reading by lia.
Qed.

Lemma wq_head (k : rwstate) lw : waits (wqueue k) lw -> wq (rw k) = None <-> lw = [].
Proof.
  intros H. unfold waits in H. cbn in H.
  destruct lw as [|x lw]; [done|]. destruct H as [-> _]. done.
Qed.

(** A writer left the queue and the word is unchanged or only lost its
    waiting bit. *)
Lemma wtimeout_refines k lr lw t o k' :
  rw_ok k lr lw -> t ∈ lw -> requeued k k' lr (without t lw) ->
  rwrun k' = rwrun k -> rw_protocol (rw k') = rw_protocol (rw k) -> rw_owner (rw k') = o ->
  rwexec (WTimedOut t) k = (k', Returned CELL_ETIMEDOUT, []) ->
  - 2 ^ 63 <= o -> mode_of o = mode_of (rw_owner (rw k)) ->
  word_ok (rwthr k) o lr (without t lw) ->
  without t lw <> [] \/ lr = [] \/ (forall n, mode_of o <> Reading n) ->
  rw_refines (WTimedOut t) k lr lw.
Proof.
  intros Hok Ht Hq Hr Hp Eo E Hl Hm Hw Hc. unfold rw_refines. rewrite E.
  exists lr, (without t lw). split; [|split; [apply Hq|split; [done|split; [done|]]]].
  - eapply rw_ok_update; [exact Hok|exact Hq| |by rewrite Eo|by rewrite Eo|].
    + intros x Hx [Hxw _]%without_elem_of. by apply (ro_disj _ _ _ Hok x).
    + rewrite Hr. intros x Hx. destruct (ro_run _ _ _ Hok x Hx) as (? & ? & ?).
      rewrite without_elem_of. tauto.
  - unfold abs_rw. rewrite Eo, Hm. rewrite Hm in Hc.
    exact (s_wtimeout _ _ t (abs_rw k lr lw) Ht Hc).
Qed.

Lemma land_even k lr lw :
  rw_ok k lr lw -> - 2 ^ 63 <= Z.land (rw_owner (rw k)) (-2).
Proof.
  intros Hok. pose proof (ro_low _ _ _ Hok) as H. revert H.
  rewrite (word_split (rw_owner (rw k))), word_clear.
  pose proof (b2z_range (Z.testbit (rw_owner (rw k)) 0)). cbn [b2z].
  set (h := Z.shiftr _ 1). intros H'. assert (- 2 ^ 62 <= h) by lia. lia.
Qed.

(** A lock at which a writer waits is held, with the waiting bit. *)
Lemma waited_shape k lr lw t :
  rw_ok k lr lw -> t ∈ lw ->
  (exists n, 0 < n /\ rw_owner (rw k) = 2 * - n + b2z true)
  \/ (exists x n, rwthr k !! x = Some n /\ rw_owner (rw k) = 2 * th_id n + b2z true
        /\ (x ∉ lw) /\ 0 < th_id n).
Proof.
  intros Hok Ht.
  destruct (rw_shape k lr lw Hok) as [_ _ ->|n _ _ _ ->|n Hn Ew Hw|x n b Hx Ew Hw Hc].
  - by apply not_elem_of_nil in Ht.
  - by apply not_elem_of_nil in Ht.
  - left. eauto.
  - right. exists x, n. pose proof (ro_ids _ _ _ Hok x n Hx). destruct b.
    + repeat split; try done; lia.
    + destruct Hc as [_ ->]; [done|]. by apply not_elem_of_nil in Ht.
Qed.

Lemma wtimed_out_readers k lr lw t q n :
  rw_ok k lr lw -> - 2 ^ 62 <= rw_owner (rw k) -> no_again (rwthr k) lr -> t ∈ lw ->
  unqueue true (wqueue k) t = Some (Some t, q) -> removed true (wqueue k) lw t q ->
  requeued k (set_wqueue q k) lr [] -> without t lw = [] -> first q = None -> lr <> [] ->
  0 < n -> rw_owner (rw k) = 2 * - n + b2z true -> rw_refines (WTimedOut t) k lr lw.
Proof.
  intros Hok Hb Ha Ht E [_ R2 _] Hq Hl Ef Hr Hn Eo. pose proof (queue_len k lr lw Hok) as Hlen.
  cbn [b2z] in Eo.
  destruct (drain_readers k (set_wqueue q k) lr lw [] Hok Hq) as (q2 & Ed & Hq2).
  { by intros x ?%not_elem_of_nil. }
  { eapply (no_again_relinked lw (rwthr k) (threads q) lr); [exact R2|done|done]. }
  set (m := n + Z.of_nat (length lr)).
  assert (Em : Z.land (sext 64 (rw_owner (rw k) - 2 * Z.of_nat (length (rev lr)))) (-2)
               = 2 * - m + b2z false).
  { rewrite length_rev, Eo, sext_id by (unfold srange; lia).
    replace (2 * - n + 1 - 2 * Z.of_nat (length lr)) with (2 * - m + b2z true) by (cbn; lia).
    apply word_clear. }
  assert (Erq : exists y, rq (rw k) = Some y).
  { destruct (rq (rw k)) eqn:Eq; [eauto|]. by apply (rq_head k lr lw Hok) in Eq. }
  destruct Erq as [y Ey].
  unfold rw_refines. cbn [rwexec]. unfold wlock_timed_out. rewrite E.
  cbn [rw set_wqueue rq wq rw_owner]. rewrite Ey, Ef.
  destruct (Z.ltb_spec (rw_owner (rw k)) 0); [|lia]. rewrite Ed.
  cbn [rw set_wqueue set_rqueue rw_owner]. rewrite Em.
  assert (Hq3 : requeued k (rw_thread (set_gpr3 CELL_ETIMEDOUT) t (rw_awake (rev lr)
    (set_rw_owner (2 * - m + b2z false) (set_rqueue q2 (set_wqueue q k))))) [] []).
  { apply requeued_thread; auto with rwlock. }
  destruct (let_in_ok k lr lw _ m Hok Hq3) as [O1 O2]; try done.
  - unfold m. lia.
  - exists [], []. split; [exact O1|]. rewrite O2. split; [apply Hq3|].
    split; [done|]. split; [cbn; set_solver|].
    apply (s_wtimeout_readers _ _ t (abs_rw k lr lw) n); try done.
    cbn. rewrite Eo. exact (mode_reading n true Hn).
Qed.

Lemma without_nil t l : NoDup l -> t ∈ l -> without t l = [] -> l = [t].
Proof.
  intros Hnd Ht Hn. apply without_nil_iff in Hn; [|done..]. destruct l as [|y [|]]; try done.
  by apply list_elem_of_singleton in Ht as ->.
Qed.

Lemma wtimed_out_refines k lr lw t :
  rw_ok k lr lw -> rwenabled (WTimedOut t) k lr lw -> ~ rw_stuck (WTimedOut t) k lr lw ->
  rw_refines (WTimedOut t) k lr lw.
Proof.
  intros Hok (Hth & Hb) Hst.
  destruct (unqueue_ok true (wqueue k) lw t (ro_wq _ _ _ Hok)) as [U1 U2].
  destruct (decide (t ∈ lw)) as [Hin|Hin].
  2: { eapply refines_stay; [done| |by apply s_wlate; [|apply (rw_result_ok t k)]].
       cbn. unfold wlock_timed_out. rewrite U1 by done. done. }
  destruct (U2 Hin) as (q & E & R).
  assert (Hq : requeued k (set_wqueue q k) lr (without t lw)).
  { destruct R as [R1 R2 _]. eapply requeued_set_w; eauto with rwlock. apply Hok. }
  pose proof (wq_head _ _ (re_wq _ _ _ _ Hq)) as Hw. cbn in Hw.
  pose proof (rq_head k lr lw Hok) as Hr.
  pose proof (waited_shape k lr lw t Hok Hin) as Hs.
  assert (Hcase : (lr <> [] /\ without t lw = [] /\ rw_owner (rw k) < 0)
    \/ (lr = [] /\ without t lw = [])
    \/ (without t lw <> [] \/ (lr <> [] /\ 0 <= rw_owner (rw k)))).
  { destruct lr, (without t lw), (Z.lt_ge_cases (rw_owner (rw k)) 0); naive_solver. }
  destruct Hcase as [(H1 & H2 & H3)|[[H1 H2]|Hc]].
  - destruct Hs as [(n & Hn & Eo)|(x & n & _ & Eo & _ & Hp)]; [|cbn in Eo; lia].
    apply (wtimed_out_readers k lr lw t q n); try done; [|by rewrite <- H2|by apply Hw].
    intros x m Hx Hm. destruct (again m) eqn:Eg; [|done]. destruct Hst. exists t, x, m.
    split; [done|]. split; [|done]. apply (without_nil t); [by apply (seg_NoDup _ _ _ (ro_wq _ _ _ Hok))|done..].
  - eapply (wtimeout_refines k lr lw t (Z.land (rw_owner (rw k)) (-2))
      (rw_thread (set_gpr3 CELL_ETIMEDOUT) t
         (set_rw_owner (Z.land (rw_owner (rw k)) (-2)) (set_wqueue q k)))); try done.
    + apply requeued_thread; auto with rwlock.
    + cbn [rwexec]. unfold wlock_timed_out. rewrite E. cbn [rw set_wqueue rq wq rw_owner].
      by rewrite (proj2 Hr H1), (proj2 Hw H2).
    + exact (land_even k lr lw Hok).
    + destruct Hs as [(n & Hn & ->)|(x & n & _ & -> & _ & Hp)]; rewrite word_clear.
      * by rewrite !mode_reading.
      * by rewrite !mode_writing.
    + destruct Hs as [(n & Hn & ->)|(x & n & Hx & -> & Hxw & Hp)]; rewrite word_clear, H1, H2.
      * by apply word_ok_readers.
      * eapply word_ok_writer; [exact Hok|exact Hx|apply not_elem_of_nil|done].
    + by right; left.
  - eapply (wtimeout_refines k lr lw t (rw_owner (rw k))
      (rw_thread (set_gpr3 CELL_ETIMEDOUT) t (set_wqueue q k))); try done.
    + apply requeued_thread; auto with rwlock.
    + cbn [rwexec]. unfold wlock_timed_out. rewrite E. cbn [rw set_wqueue rq wq rw_owner].
      destruct (rq (rw k)) eqn:Er, (first q) eqn:Ef; try done.
      * destruct (Z.ltb_spec (rw_owner (rw k)) 0); [|done]. exfalso.
        destruct Hc as [Hc|[_ Hc]]; [|lia]. apply Hc. by apply Hw.
      * exfalso. destruct Hc as [Hc|[Hc _]]; apply Hc; [by apply Hw|by apply Hr].
    + apply Hok.
    + destruct Hs as [(n & Hn & Eo)|(x & n & Hx & -> & Hxw & Hp)].
      * rewrite Eo. apply word_ok_readers; [done|]. destruct Hc as [Hc|[_ Hc]]; [done|].
        cbn in Eo. lia.
      * eapply word_ok_writer; [exact Hok|exact Hx| |done]. rewrite without_elem_of. tauto.
    + destruct Hs as [(n & Hn & Eo)|(x & n & Hx & -> & Hxw & Hp)].
      * left. destruct Hc as [Hc|[_ Hc]]; [done|]. cbn in Eo. lia.
      * right. right. intros m. by rewrite mode_writing.
Qed.

Lemma wunlock_try_refines k lr lw t :
  rw_ok k lr lw -> t ∈ rwrun k -> rw_refines (WUnlockTry t) k lr lw.
Proof.
  intros Hok Ht. destruct (ro_run _ _ _ Hok t Ht) as (Hnr & Hnw & Hth).
  pose proof (id_of_range k lr lw t Hok Hth) as Hid.
  destruct (decide (mode_of (rw_owner (rw k)) = Writing (id_of (rwthr k) t))) as [Em|Em].
  2: { pose proof (other_half k lr lw t Hok Hth Em) as Hh.
       apply refines_stay with (r := Returned CELL_EPERM); [done| |by apply s_drop_perm].
       cbn [rwexec]. unfold wunlock_try. rewrite Hh. cbn [negb].
       destruct (Z.eqb_spec (rw_owner (rw k)) (writer_word (id_of (rwthr k) t))) as [E|]; [|done].
       rewrite E, writer_word_eq, word_half, Z.eqb_refl in Hh by done. done. }
  pose proof (ro_word _ _ _ Hok) as W. unfold word_ok in W. rewrite Em in W.
  destruct W as [_ Wb]. pose proof Em as Eo. apply mode_writing_inv in Eo as [_ Eo].
  assert (Hh : Z.shiftr (rw_owner (rw k)) 1 = id_of (rwthr k) t) by (by rewrite Eo, word_half).
  destruct (Z.testbit (rw_owner (rw k)) 0) eqn:Eb.
  - apply refines_stay with (r := Retry); [done| |by apply s_drop_retry].
    cbn [rwexec]. unfold wunlock_try. rewrite Hh, Z.eqb_refl, Eb. cbn [negb].
    destruct (Z.eqb_spec (rw_owner (rw k)) (writer_word (id_of (rwthr k) t))) as [E|]; [|done].
    rewrite E, writer_word_eq, word_bit in Eb by done. done.
  - destruct (Wb eq_refl) as [-> ->].
    eapply refines_word with (o := 0); [done| |lia|done|reflexivity|].
    + cbn [rwexec]. unfold wunlock_try. rewrite Hh, Z.eqb_refl, Eb. cbn [negb].
      destruct (Z.eqb_spec (rw_owner (rw k)) (writer_word (id_of (rwthr k) t))) as [|E];
        [reflexivity|]. rewrite writer_word_eq in E by done. congruence.
    + by apply (s_drop _ _ t (abs_rw k [] [])).
Qed.

Lemma wunlock_readers_refines k lr t :
  rw_ok k lr [] -> mode_of (rw_owner (rw k)) = Writing (id_of (rwthr k) t) -> lr <> [] ->
  rw_refines (WUnlockLocked t) k lr [].
Proof.
  intros Hok Em Hr.
  destruct (schedule_ok (rw_protocol (rw k)) true (wqueue k) [] (ro_wq _ _ _ Hok)) as [Es _].
  specialize (Es eq_refl).
  assert (exists y, rq (rw k) = Some y) as [y Ey].
  { destruct (rq (rw k)) eqn:Eq; [eauto|]. by apply (rq_head k lr [] Hok) in Eq. }
  destruct (any_waiting_ok is_again (rqueue k) lr (ro_rq _ _ _ Hok)) as (b & Ea & Hb).
  destruct b.
  - destruct (proj1 Hb eq_refl) as (x & n & Hx & Hn & Hg).
    eapply refines_same with (f := set_state (add_flag cf_again)) (t := t); try done.
    + cbn [rwexec]. unfold wunlock_locked. by rewrite Es, Ey, Ea.
    + apply (s_drop_again _ _ t (abs_rw k lr []) x n); try done. cbn. by rewrite app_nil_r.
  - assert (Hna : no_again (rwthr k) lr).
    { intros x n Hx Hn. destruct (again n) eqn:Eg; [|done].
      assert (false = true); [apply Hb|done]. by exists x, n. }
    pose proof (queue_len k lr [] Hok) as Hlen.
    destruct (drain_readers k k lr [] [] Hok (requeued_refl _ _ _ Hok)) as (q & Ed & Hq);
      [done|done|].
    assert (Hl : 0 < Z.of_nat (length lr)) by (destruct lr; [done|cbn; lia]).
    assert (Eo : sext 64 (-2 * Z.of_nat (length (rev lr)))
                 = 2 * - Z.of_nat (length lr) + b2z false).
    { rewrite length_rev, sext_id by (unfold srange; lia). cbn. lia. }
    unfold rw_refines. cbn [rwexec]. unfold wunlock_locked. rewrite Es, Ey, Ea, Ed, Eo.
    assert (Hq2 : requeued k (rw_awake (rev lr) (set_rw_owner
      (2 * - Z.of_nat (length lr) + b2z false) (set_rqueue q k))) [] []) by auto with rwlock.
    destruct (let_in_ok k lr [] _ (Z.of_nat (length lr)) Hok Hq2) as [O1 O2]; try done; [lia|].
    exists [], []. split; [exact O1|]. rewrite O2. split; [apply Hq2|].
    split; [done|]. split; [cbn; set_solver|]. by apply (s_drop_readers _ _ t (abs_rw k lr [])).
Qed.

Lemma wunlock_locked_refines k lr lw t :
  rw_ok k lr lw -> rwenabled (WUnlockLocked t) k lr lw -> rw_refines (WUnlockLocked t) k lr lw.
Proof.
  intros Hok [_ Em]. destruct (decide (lw = [])) as [->|Hw].
  - destruct (decide (lr = [])) as [->|Hr]; [|by apply wunlock_readers_refines].
    destruct (schedule_ok (rw_protocol (rw k)) true (wqueue k) [] (ro_wq _ _ _ Hok)) as [Es _].
    eapply refines_word with (o := 0); [done| |lia|done|reflexivity|].
    + cbn [rwexec]. unfold wunlock_locked. rewrite Es by done.
      by rewrite (proj2 (rq_head k [] [] Hok) eq_refl).
    + by apply (s_drop_free _ _ t (abs_rw k [] [])).
  - destruct (schedule_writer k lr lw Hok Hw) as (x & n & q & E & Hsel & Hn & R).
    pose proof (selects_elem _ _ _ _ Hsel) as Hx. destruct (again n) eqn:Eg.
    + subst q. eapply refines_same with (f := set_state (add_flag cf_again)) (t := t); try done.
      * cbn [rwexec]. unfold wunlock_locked. rewrite E. cbn [threads wqueue]. by rewrite Hn, Eg.
      * apply (s_drop_again _ _ t (abs_rw k lr lw) x n); try done. cbn. set_solver.
    + destruct (grant_ok k lr lw x n q Hok Hx Hn R) as (n' & En & Eg' & G1 & G2 & G3).
      unfold rw_refines. cbn [rwexec]. unfold wunlock_locked. rewrite E, En, Eg', Eg.
      exists lr, (without x lw). split; [exact G1|]. split; [exact G2|]. split; [done|].
      split; [cbn; set_solver|]. rewrite G3. by apply (s_drop_writer _ _ t (abs_rw k lr lw) x n).
Qed.

Lemma rwexec_refines e k lr lw :
  rw_ok k lr lw -> rwenabled e k lr lw -> ~ rw_stuck e k lr lw -> rw_refines e k lr lw.
Proof.
  intros Hok He Hst. destruct e; cbn [rwenabled] in He.
  - by apply rlock_try_refines.
  - by apply rlock_locked_refines.
  - eapply rw_signaled_refines; eauto.
  - by apply rstopped_refines.
  - by apply rtimed_out_refines.
  - by apply tryrlock_refines.
  - by apply runlock_try_refines.
  - by apply runlock_locked_refines.
  - by apply wlock_try_refines.
  - by apply wlock_locked_refines.
  - eapply rw_signaled_refines; eauto.
  - by apply wstopped_refines.
  - by apply wtimed_out_refines.
  - by apply trywlock_refines.
  - by apply wunlock_try_refines.
  - by apply wunlock_locked_refines.
Qed.

(** ** Reachable states

    [rd] counts the read locks granted and not yet released and [wr t] the
    write locks of thread [t], by the results of the syscalls and the wake-ups:
    a thread awakened from a queue was granted what it waited for. *)
Definition raccount (e : rwevent) (r : reply) (aw lr : list tid) (rd : Z) : Z :=
  rd + match e, r with
       | RLockTry _ _, Returned CELL_OK | RLockLocked _, Returned CELL_OK
       | TryRLock _, Returned CELL_OK => 1
       | RUnlockTry _ _, Returned CELL_OK | RUnlockLocked _, Returned CELL_OK => -1
       | _, _ => 0
       end
  + Z.of_nat (length (filter (fun t => t ∈ lr) aw)).

Definition waccount (e : rwevent) (r : reply) (aw lw : list tid) (wr : tid -> Z) (x : tid) : Z :=
  wr x + match e, r with
         | WLockTry t _, Returned CELL_OK | WLockLocked t, Returned CELL_OK
         | TryWLock t, Returned CELL_OK => b2z (bool_decide (x = t))
         | WUnlockTry t, Returned CELL_OK | WUnlockLocked t, Returned CELL_OK =>
             - b2z (bool_decide (x = t))
         | _, _ => 0
         end
  + b2z (bool_decide (x ∈ aw /\ x ∈ lw)).

Inductive rwreach (k0 : rwstate) : rwstate -> list tid -> list tid -> Z -> (tid -> Z) -> Prop :=
| rwreach_init : rwreach k0 k0 [] [] 0 (fun _ => 0)
| rwreach_step k lr lw rd wr e k' r aw lr' lw' :
    rwreach k0 k lr lw rd wr -> rwenabled e k lr lw -> ~ rw_stuck e k lr lw -> rwexec e k = (k', r, aw) ->
    waits (rqueue k') lr' -> waits (wqueue k') lw' ->
    rwreach k0 k' lr' lw' (raccount e r aw lr rd) (waccount e r aw lw wr).

Definition readers_of (m : amode) : Z := match m with Reading n => n | _ => 0 end.

Definition writes (m : amode) (id : Z) : Z :=
  match m with Writing o => if o =? id then 1 else 0 | _ => 0 end.

Lemma filter_all (P : tid -> Prop) `{forall x, Decision (P x)} (l : list tid) :
  (forall x, x ∈ l -> P x) -> filter P l = l.
Proof.
  induction l as [|x l IH]; intros Hl; [done|].
  rewrite filter_cons_True by (apply Hl; left). f_equal. apply IH. intros y Hy.
  apply Hl. by right.
Qed.

Lemma elem_of_rev (l : list tid) x : x ∈ rev l <-> x ∈ l.
Proof. by rewrite !list_elem_of_In, <- in_rev. Qed.

Lemma no_awakened_writers (x : tid) (lr lw : list tid) :
  (forall t, t ∈ lr -> t ∉ lw) -> bool_decide (x ∈ rev lr /\ x ∈ lw) = false.
Proof. intros Hd. apply bool_decide_eq_false. rewrite elem_of_rev. naive_solver. Qed.

Lemma all_awakened_readers (lr : list tid) :
  Z.of_nat (length (filter (fun t => t ∈ lr) (rev lr))) = Z.of_nat (length lr).
Proof. rewrite filter_all, length_rev; [done|]. intros x. by rewrite elem_of_rev. Qed.

Lemma awakened_writer (x y : tid) (lr lw : list tid) :
  (forall t, t ∈ lr -> t ∉ lw) -> y ∈ lw ->
  filter (fun t => t ∈ lr) [y] = [] /\ bool_decide (x ∈ [y] /\ x ∈ lw) = bool_decide (x = y).
Proof.
  intros Hd Hy. split.
  - rewrite filter_cons_False by (intros Hl; by apply (Hd y)). done.
  - apply bool_decide_ext. rewrite list_elem_of_singleton. naive_solver.
Qed.

(** The accounting follows the abstract lock. *)
Lemma raccount_step h p e a r aw a' rd :
  (forall t, t ∈ a_readers a -> t ∉ a_writers a) ->
  rwstep h p e a r aw a' -> rd = readers_of (a_mode a) ->
  raccount e r aw (a_readers a) rd = readers_of (a_mode a').
Proof.
  intros Hd Hs ->. unfold raccount.
  destruct Hs as [t e a He Ha|t i a|t a|t a|t e a n Em He|t i a|t a Hm|t a x n Em Hs _ _|t a x n Em Hs _ _
    |t e a He Em|t e i a He Em|t i a|t a|t a|t a|t a Em|t a Em|t a x n Em Hs _ _|t a Em Hw Hr Hn
    |t a Em|t a x n Em|t a Ht|t a Ht Hc|t a n Ht Hc Hr Em|t e r a He|t r a|t r a|t r a|t r a];
    rewrite ?filter_nil; cbn [a_mode with_mode length Z.of_nat readers_of] in *; try lia.
  - destruct (a_mode a) eqn:E; destruct He as [->|[->| ->]]; cbn; try lia;
      unfold admits in Ha; rewrite E in Ha; done.
  - rewrite Em. unfold left_by_one. cbn.
    destruct He as [[-> _]|[-> _]]; destruct (Z.eqb_spec n 1); cbn; lia.
  - destruct (awakened_writer x x (a_readers a) (a_writers a) Hd (selects_elem _ _ _ _ Hs)) as [-> _].
    rewrite Em. cbn. lia.
  - rewrite Em. destruct He as [->|[->| ->]]; cbn; lia.
  - destruct He as [->| ->]; lia.
  - rewrite Em. cbn. lia.
  - destruct (awakened_writer x x (a_readers a) (a_writers a) Hd (selects_elem _ _ _ _ Hs)) as [-> _].
    rewrite Em. cbn. lia.
  - rewrite all_awakened_readers, Em. cbn. lia.
  - rewrite Em. cbn. lia.
  - rewrite all_awakened_readers, Em. cbn. lia.
  - destruct He as [->| ->]; lia.
Qed.

Lemma waccount_step k lr lw e r aw a' wr x :
  rw_ok k lr lw -> rwstep (rwthr k) (rw_protocol (rw k)) e (abs_rw k lr lw) r aw a' ->
  rwenabled e k lr lw -> is_Some (rwthr k !! x) ->
  wr x = writes (mode_of (rw_owner (rw k))) (id_of (rwthr k) x) ->
  waccount e r aw lw wr x = writes (a_mode a') (id_of (rwthr k) x).
Proof.
  intros Hok Hs He Hx Hw. unfold waccount. rewrite Hw. clear Hw wr.
  pose proof (ro_disj _ _ _ Hok) as Hd.
  assert (Hid : forall y, is_Some (rwthr k !! y) ->
            (id_of (rwthr k) y =? id_of (rwthr k) x) = bool_decide (x = y)).
  { intros y [m Hm]. destruct Hx as [n Hn]. unfold id_of. rewrite Hn, Hm.
    destruct (Z.eqb_spec (th_id m) (th_id n)) as [E|E].
    - rewrite bool_decide_true; [done|]. by eapply (ro_inj _ _ _ Hok).
    - rewrite bool_decide_false; [done|]. congruence. }
  assert (Hrun : forall y, y ∈ rwrun k -> is_Some (rwthr k !! y)) by apply Hok.
  assert (Hnil : bool_decide (x ∈ [] /\ x ∈ lw) = false).
  { apply bool_decide_eq_false. intros [?%not_elem_of_nil _]. done. }
  remember (abs_rw k lr lw) as a eqn:Ea.
  assert (Em0 : a_mode a = mode_of (rw_owner (rw k))) by (by subst a).
  assert (Er0 : a_readers a = lr /\ a_writers a = lw) by (by subst a). destruct Er0 as [Er0 Ew0].
  rewrite <- Em0. clear Ea.
  destruct Hs as [t e a He0 Ha|t i a|t a|t a|t e a n Em He0|t i a|t a Hm|t a y n Em Hs Hn _|t a y n Em Hs _ _
    |t e a He0 Em|t e i a He0 Em|t i a|t a|t a|t a|t a Em|t a Em|t a y n Em Hs Hn _|t a Em Hwr Hr Hna
    |t a Em|t a y n Em|t a Ht|t a Ht Hc|t a n Ht Hc Hr Em|t e r a He0|t r a|t r a|t r a|t r a];
    cbn [a_mode with_mode] in *; rewrite ?Hnil; cbn [b2z]; try lia.
  - destruct (a_mode a) eqn:E; destruct He0 as [->|[->| ->]]; cbn; lia.
  - rewrite Em. unfold left_by_one. destruct He0 as [[-> _]|[-> _]]; case_match; cbn; lia.
  - rewrite Ew0 in Hs. destruct (awakened_writer x y lr lw Hd (selects_elem _ _ _ _ Hs)) as [_ ->].
    rewrite Em. cbn. replace (th_id n) with (id_of (rwthr k) y) by (unfold id_of; by rewrite Hn).
    rewrite Hid by eauto. by case_match.
  - assert (Ht : is_Some (rwthr k !! t)).
    { destruct He0 as [->|[->| ->]]; cbn in He; [..|]; (apply Hrun; tauto). }
    rewrite Em. cbn. rewrite Hid by done. destruct He0 as [->|[->| ->]]; by case_match.
  - destruct He0 as [->| ->]; lia.
  - cbn in He. rewrite Em. cbn. rewrite Hid by auto. by case_match.
  - cbn in He. destruct He as [Ht _]. rewrite Ew0 in Hs.
    destruct (awakened_writer x y lr lw Hd (selects_elem _ _ _ _ Hs)) as [_ ->].
    rewrite Em. cbn. replace (th_id n) with (id_of (rwthr k) y) by (unfold id_of; by rewrite Hn).
    rewrite !Hid by eauto. destruct (bool_decide (x = t)), (bool_decide (x = y)); done.
  - cbn in He. destruct He as [Ht _]. rewrite Er0, (no_awakened_writers x lr lw Hd), Em. cbn.
    rewrite Hid by auto. by case_match.
  - cbn in He. destruct He as [Ht _]. rewrite Em. cbn. rewrite Hid by auto. by case_match.
  - rewrite Er0, (no_awakened_writers x lr lw Hd), Em. done.
  - destruct He0 as [->| ->]; lia.
Qed.

(** In a reachable state the invariant holds and the word counts the locks. *)
Lemma rwreach_ok k0 k lr lw rd wr :
  rw_ok k0 [] [] -> rw_owner (rw k0) = 0 -> rwreach k0 k lr lw rd wr ->
  rw_ok k lr lw /\ rd = readers_of (mode_of (rw_owner (rw k)))
  /\ forall x, is_Some (rwthr k !! x) ->
       wr x = writes (mode_of (rw_owner (rw k))) (id_of (rwthr k) x).
Proof.
  intros H0 Ho Hr. induction Hr as [|k lr lw rd wr e k' r aw lr' lw' Hr IH He Hst E Hwr Hww].
  { rewrite Ho. done. }
  destruct IH as (Hok & Hrd & Hwt). pose proof (rwexec_refines e k lr lw Hok He Hst) as R.
  unfold rw_refines in R. rewrite E in R. destruct R as (l1 & l2 & Hok1 & Hids & _ & _ & Hs).
  pose proof (seg_inj _ _ _ _ Hwr (ro_rq _ _ _ Hok1)) as ->.
  pose proof (seg_inj _ _ _ _ Hww (ro_wq _ _ _ Hok1)) as ->.
  split; [done|]. split.
  - exact (raccount_step _ _ _ (abs_rw k lr lw) _ _ _ rd (ro_disj _ _ _ Hok) Hs Hrd).
  - intros x Hx. rewrite (id_of_same _ _ _ Hids).
    assert (Hx0 : is_Some (rwthr k !! x)).
    { specialize (Hids x). destruct Hx as [n Hn]. rewrite Hn in Hids. by destruct (rwthr k !! x). }
    exact (waccount_step k lr lw e r aw _ wr x Hok Hs He Hx0 (Hwt x Hx0)).
Qed.

(** ** Progress

    A successful unlock by a thread that may perform it: any thread while the
    lock is read, the writer while it is written. *)
Definition unlock_step (k k' : rwstate) : Prop :=
  exists t e aw, t ∈ rwrun k
    /\ (e = RUnlockLocked t /\ readers_of (mode_of (rw_owner (rw k))) <> 0
        \/ e = WUnlockLocked t
           /\ mode_of (rw_owner (rw k)) = Writing (id_of (rwthr k) t))
    /\ rwexec e k = (k', Returned CELL_OK, aw).

Inductive unlocks : rwstate -> nat -> rwstate -> Prop :=
| unlocks_none k : unlocks k 0 k
| unlocks_more k k' n k'' : unlock_step k k' -> unlocks k' n k'' -> unlocks k (S n) k''.

(** The scheduler runs some thread, and the writer if there is one; no thread
    is being saved. *)
Record rw_live (k : rwstate) (lr lw : list tid) : Prop := {
  lv_ok : rw_ok k lr lw;
  lv_again : no_again (rwthr k) (lr ++ lw);
  lv_some : exists u, u ∈ rwrun k;
  lv_writer : forall id, mode_of (rw_owner (rw k)) = Writing id ->
    exists t, t ∈ rwrun k /\ id_of (rwthr k) t = id
}.

(** What the unlocks use up. *)
Definition held (m : amode) : Z :=
  match m with Idle => 0 | Reading n => n | Writing _ => 1 end.

Definition rw_weight (k : rwstate) (lr lw : list tid) : Z :=
  held (mode_of (rw_owner (rw k))) + 2 * Z.of_nat (length lr + length lw).

Lemma schedule_relinks p mn q l r q' :
  waits q l -> schedule q p mn = Some (r, q') -> relinked l (threads q) (threads q').
Proof.
  intros Hw E. destruct (schedule_ok p mn q l Hw) as [S1 S2].
  destruct (decide (l = [])) as [Hl|Hl].
  - rewrite (S1 Hl) in E. by injection E as _ <-.
  - destruct (S2 Hl) as (x & n & q1 & E1 & _ & _ & R). rewrite E1 in E. injection E as _ <-.
    destruct (again n); [by subst q1|]. by destruct R.
Qed.

(** Unlocking wakes threads and changes only links. *)
Lemma unlock_frame k lr lw t e k' aw :
  rw_ok k lr lw -> no_again (rwthr k) lr -> e = RUnlockLocked t \/ e = WUnlockLocked t ->
  rwexec e k = (k', Returned CELL_OK, aw) ->
  rwrun k ⊆ rwrun k' /\ relinked (lr ++ lw) (rwthr k) (rwthr k').
Proof.
  intros Hok Ha He E.
  assert (Hq : forall r q, schedule (wqueue k) (rw_protocol (rw k)) true = Some (r, q) ->
                relinked (lr ++ lw) (rwthr k) (threads q)).
  { intros r q Es. eapply relinked_mono; [|exact (schedule_relinks _ _ _ _ _ _ (ro_wq _ _ _ Hok) Es)].
    set_solver. }
  destruct He as [->| ->]; cbn [rwexec] in E.
  - unfold runlock_locked in E. destruct (0 <=? rw_owner (rw k)); [done|].
    destruct (rw_owner (rw k) =? -1) eqn:Eo.
    + assert (Elt : (rw_owner (rw k) <? -1) = false) by lia. rewrite Elt in E.
      destruct (schedule (wqueue k) (rw_protocol (rw k)) true) as [[[x|] q]|] eqn:Es; [..|done].
      * destruct (threads q !! x) as [n|]; [|done]. destruct (again n); [done|].
        injection E as <- _. cbn. split; [set_solver|]. exact (Hq _ _ eq_refl).
      * destruct (rq _); [done|]. by injection E as <- _.
    + injection E as <- _. by case_match.
  - unfold wunlock_locked in E.
    destruct (schedule (wqueue k) (rw_protocol (rw k)) true) as [[[x|] q]|] eqn:Es; [..|done].
    + destruct (threads q !! x) as [n|]; [|done]. destruct (again n); [done|].
      injection E as <- _. cbn. split; [set_solver|]. exact (Hq _ _ eq_refl).
    + destruct (rq _); [|by injection E as <- _].
      destruct (any_waiting _ _) as [[]|]; [done| |done].
      destruct (drain_ok (rqueue k) lr (ro_rq _ _ _ Hok) Ha) as (q2 & Ed & _ & R).
      rewrite Ed in E. injection E as <- _. cbn. split; [set_solver|].
      eapply relinked_mono; [|exact R]. set_solver.
Qed.

(** The effect of one unlock on the abstract lock. *)
Lemma unlock_effect h p t e a aw a' :
  e = RUnlockLocked t \/ e = WUnlockLocked t -> NoDup (a_writers a) ->
  rwstep h p e a (Returned CELL_OK) aw a' ->
  (forall x, x ∈ a_readers a' ++ a_writers a' -> x ∈ a_readers a ++ a_writers a)
  /\ (forall x, x ∈ a_readers a ++ a_writers a -> x ∈ aw \/ x ∈ a_readers a' ++ a_writers a')
  /\ (forall id, a_mode a' = Writing id -> exists x n, x ∈ aw /\ h !! x = Some n /\ th_id n = id).
Proof.
  intros He Hnd Hs.
  assert (Hcut : forall y, y ∈ a_writers a ->
    (forall x, x ∈ a_readers a ++ without y (a_writers a) -> x ∈ a_readers a ++ a_writers a)
    /\ (forall x, x ∈ a_readers a ++ a_writers a ->
          x ∈ [y] \/ x ∈ a_readers a ++ without y (a_writers a))).
  { intros y Hy. split; intros x; rewrite !elem_of_app, without_elem_of; [tauto|].
    destruct (decide (x = y)) as [->|]; [left; set_solver|tauto]. }
  destruct He as [->| ->].
  - inversion Hs as [? ? ? He|?|?|?|? ? ? n Em He|?|?|? ? x n Em Hsel Hn _|?|? ? ? He|? ? ? ? He|?|?|?|?|?|?|?|?
      |?|?|?|?|?|? ? ? ? He|?|?|?|?]; subst; try (destruct_or!; discriminate);
      cbn [a_readers a_writers a_mode with_mode].
    + split; [done|]. split; [auto|]. intros id. unfold left_by_one. by case_match.
    + destruct (Hcut x (selects_elem _ _ _ _ Hsel)) as [C1 C2]. split; [done|]. split; [done|].
      intros id [= <-]. exists x, n. split; [set_solver|done].
  - inversion Hs as [? ? ? He|?|?|?|? ? ? n Em He|?|?|?|?|? ? ? He|? ? ? ? He|?|?|?|?|?|?
      |? ? x n Em Hsel Hn _|? ? Em Hw Hr|? ? Em Hr Hw|?|?|?|?|? ? ? ? He|?|?|?|?]; subst;
      try (destruct_or!; destruct_and?; discriminate); cbn [a_readers a_writers a_mode with_mode].
    + destruct (Hcut x (selects_elem _ _ _ _ Hsel)) as [C1 C2]. split; [done|]. split; [done|].
      intros id [= <-]. exists x, n. split; [set_solver|done].
    + rewrite Hw. split; [by intros ? ?%not_elem_of_nil|]. split; [|done].
      intros x Hx. left. apply elem_of_rev. by rewrite app_nil_r in Hx.
    + rewrite Hr, Hw. split; [done|]. split; [auto|done].
Qed.

Lemma unlock_weight h p t e a aw a' :
  e = RUnlockLocked t \/ e = WUnlockLocked t -> NoDup (a_writers a) ->
  (forall n, a_mode a = Reading n -> 0 < n) ->
  rwstep h p e a (Returned CELL_OK) aw a' ->
  held (a_mode a') + 2 * Z.of_nat (length (a_readers a') + length (a_writers a'))
  < held (a_mode a) + 2 * Z.of_nat (length (a_readers a) + length (a_writers a)).
Proof.
  intros He Hnd Hpos Hs.
  assert (Hcut : forall y, y ∈ a_writers a ->
    length (a_writers a) = S (length (without y (a_writers a)))).
  { intros y Hy. by apply length_without. }
  destruct He as [->| ->].
  - inversion Hs as [? ? ? He|?|?|?|? ? ? n Em He|?|?|? ? x n Em Hsel Hn _|?|? ? ? He|? ? ? ? He|?|?|?|?|?|?|?|?
      |?|?|?|?|?|? ? ? ? He|?|?|?|?]; subst; try (destruct_or!; discriminate);
      cbn [a_readers a_writers a_mode with_mode]; rewrite Em.
    + specialize (Hpos n Em). unfold left_by_one. destruct (Z.eqb_spec n 1); cbn [held]; lia.
    + rewrite (Hcut x (selects_elem _ _ _ _ Hsel)). cbn [held]. lia.
  - inversion Hs as [? ? ? He|?|?|?|? ? ? n Em He|?|?|?|?|? ? ? He|? ? ? ? He|?|?|?|?|?|?
      |? ? x n Em Hsel Hn _|? ? Em Hw Hr|? ? Em Hr Hw|?|?|?|?|? ? ? ? He|?|?|?|?]; subst;
      try (destruct_or!; destruct_and?; discriminate);
      cbn [a_readers a_writers a_mode with_mode]; rewrite Em.
    + rewrite (Hcut x (selects_elem _ _ _ _ Hsel)). cbn [held]. lia.
    + cbn [length held]. lia.
    + cbn [held]. lia.
Qed.

(** An unlock keeps the situation and uses up weight; every waiting thread
    goes on waiting or runs. *)
Lemma unlock_step_live k lr lw k' :
  rw_live k lr lw -> unlock_step k k' ->
  exists lr' lw', rw_live k' lr' lw' /\ rw_weight k' lr' lw' < rw_weight k lr lw
    /\ rwrun k ⊆ rwrun k'
    /\ forall t, t ∈ lr ++ lw -> t ∈ rwrun k' \/ t ∈ lr' ++ lw'.
Proof.
  intros [Hok Ha [u Hu] Hwr] (t & e & aw & Ht & He & E).
  assert (He' : e = RUnlockLocked t \/ e = WUnlockLocked t) by tauto.
  assert (Hen : rwenabled e k lr lw) by (by destruct He as [[-> _]|[-> ?]]).
  assert (Ha1 : no_again (rwthr k) lr) by (intros x m Hx; apply Ha; set_solver).
  destruct (unlock_frame k lr lw t e k' aw Hok Ha1 He' E) as [Hrun Hlink].
  assert (Hst : ~ rw_stuck e k lr lw) by (by intros (? & ? & ? & -> & _); destruct He').
  pose proof (rwexec_refines e k lr lw Hok Hen Hst) as R. unfold rw_refines in R. rewrite E in R.
  destruct R as (lr' & lw' & Hok' & Hids & _ & Haw & Hs). exists lr', lw'.
  pose proof (seg_NoDup _ _ _ (ro_wq _ _ _ Hok)) as Hnd.
  destruct (unlock_effect _ _ t e (abs_rw k lr lw) aw (abs_rw k' lr' lw') He' Hnd Hs)
    as (F1 & F2 & F3).
  split; [split|split; [|split]].
  - done.
  - eapply no_again_relinked; [exact Hlink|exact F1|exact Ha].
  - exists u. auto.
  - intros id Hid. destruct (F3 id Hid) as (x & n & Hx & Hn & Hi). exists x.
    split; [apply Haw; set_solver|]. rewrite (id_of_same _ _ _ Hids). unfold id_of. by rewrite Hn.
  - apply (unlock_weight (rwthr k) (rw_protocol (rw k)) t e (abs_rw k lr lw) aw (abs_rw k' lr' lw') He' Hnd); [|exact Hs].
    intros n Hm. by apply mode_reading_inv in Hm as [? _].
  - done.
  - intros x Hx. destruct (F2 x Hx) as [Hx'|Hx']; [left; apply Haw; set_solver|by right].
Qed.

(** While the lock is held, somebody can unlock it. *)
Lemma unlock_possible k lr lw :
  rw_live k lr lw -> rw_owner (rw k) <> 0 -> exists k', unlock_step k k'.
Proof.
  intros [Hok Ha [u Hu] Hwr] Hz.
  assert (Hf : exists t e, t ∈ rwrun k /\ rwenabled e k lr lw /\
    (e = RUnlockLocked t /\ readers_of (mode_of (rw_owner (rw k))) <> 0
     \/ e = WUnlockLocked t /\ mode_of (rw_owner (rw k)) = Writing (id_of (rwthr k) t))).
  { destruct (mode_of (rw_owner (rw k))) as [|n|id] eqn:Em.
    - by apply mode_idle in Em.
    - exists u, (RUnlockLocked u). split; [done|]. split; [done|]. left. split; [done|].
      apply mode_reading_inv in Em. cbn. lia.
    - destruct (Hwr id eq_refl) as (t & Ht & Hi). exists t, (WUnlockLocked t).
      split; [done|]. rewrite <- Hi. split; [|by right]. split; [done|]. by rewrite Hi. }
  destruct Hf as (t & e & Ht & Hen & He).
  assert (Hst : ~ rw_stuck e k lr lw) by (by intros (? & ? & ? & -> & _); destruct He as [[? _]|[? _]]).
  pose proof (rwexec_refines e k lr lw Hok Hen Hst) as R. unfold rw_refines in R.
  destruct (rwexec e k) as [[k' r] aw] eqn:E. destruct R as (lr' & lw' & _ & _ & _ & _ & Hs).
  exists k', t, e, aw. split; [done|]. split; [done|]. rewrite E. do 2 f_equal.
  destruct He as [[-> Hm]|[-> Hm]]; inversion Hs as [? ? ? C|?|?|?|?|?|? ? C|?|? ? x n Em Hsel Hn Hg|? ? ? C|? ? ? ? C|?|?|?|?|?
    |?|?|?|?|? ? x n Em Hx Hn Hg|?|?|?|? ? ? ? C|?|?|?|?]; subst; try (destruct_or!; discriminate); try done.
  - destruct (mode_of (rw_owner (rw k))) as [|m|id] eqn:Em; try done. by destruct (C m).
  - apply selects_elem in Hsel. by rewrite (Ha x n) in Hg by set_solver.
  - by rewrite (Ha x n) in Hg by done.
Qed.

(** ** Properties *)

(** The loop that lets the sleeping readers in when a writer times out
    does not check for readers that are being saved.  schedule returns a
    thread with cpu_flag::again without removing it, so if one of the sleeping
    readers has the flag the loop never ends, whatever the number of rounds;
    sys_rwlock_wunlock tests for such readers first, sys_rwlock_wlock does
    not. *)
Lemma wlock_timeout_stuck (k : rwstate) (lr lw : list tid) (t x : tid) (n : ppu_thread) :
  rw_ok k lr lw -> lw = [t] -> x ∈ lr -> rwthr k !! x = Some n -> again n = true ->
  rw_owner (rw k) < 0 ->
  exists q, unqueue true (wqueue k) t = Some (Some t, q) /\ first q = None
    /\ (exists y, rq (rw k) = Some y)
    /\ forall fuel, drain_loop fuel (rqueue (set_wqueue q k)) [] = None.
Proof.
  intros Hok -> Hx Hn Ha Ho.
  destruct (unqueue_ok true (wqueue k) [t] t (ro_wq _ _ _ Hok)) as [_ U].
  destruct U as (q & E & [R1 R2 _]); [set_solver|]. exists q. split; [exact E|].
  assert (El : without t [t] = []) by (by apply (without_split [] t []), NoDup_singleton).
  rewrite El in R1. split; [exact R1|]. split.
  { destruct (rq (rw k)) as [y|] eqn:Eq; [eauto|]. apply (rq_head k lr _ Hok) in Eq. subst lr.
    by apply not_elem_of_nil in Hx. }
  intros fuel. assert (Hq : requeued k (set_wqueue q k) lr []).
  { eapply requeued_set_w; eauto with rwlock. apply Hok. }
  destruct (relinked_lookup _ _ _ _ _ R2 Hn) as [p Hp].
  eapply (drain_stuck fuel _ lr [] x); [exact (re_rq _ _ _ _ Hq)|exact Hx|exact Hp|exact Ha].
Qed.

(** C2: each atomic region of the read-write lock syscalls implements one
    step of the abstract lock [rwstep], with the same result and the same
    threads resumed: readers get in while no writer holds the lock or waits,
    and are refused or queued otherwise; a thread gets a free lock for
    writing, CELL_EDEADLK when it already writes, and is refused or queued
    otherwise; the last reader hands the lock to the waiting writer the
    protocol selects; the writer hands it to the next writer, or to all
    sleeping readers at once, or frees it; only the writer can unlock writing
    and reading can be unlocked only while it is read; a timed-out thread
    leaves its queue, and when it was the last writer in front of sleeping
    readers those join the readers that hold the lock.  The regions keep the
    word and both queues consistent and never fail ([Fatal] is no result of
    [rwstep]).  There is exactly one exception, [rw_stuck]: when the last
    waiting writer times out while readers hold the lock and a sleeping reader
    is being saved (cpu_flag::again), the loop that lets the readers in does
    not end, whatever the number of rounds, with the mutex held. *)
Theorem rwlock_refines (e : rwevent) (k : rwstate) (lr lw : list tid) :
  rw_ok k lr lw -> rwenabled e k lr lw ->
  (~ rw_stuck e k lr lw ->
   let '(k', r, aw) := rwexec e k in
   exists lr' lw', rw_ok k' lr' lw' /\ list_to_set aw ⊆ rwrun k'
     /\ rwstep (rwthr k) (rw_protocol (rw k)) e (abs_rw k lr lw) r aw (abs_rw k' lr' lw'))
  /\ (rw_stuck e k lr lw ->
      exists t q, e = WTimedOut t /\ unqueue true (wqueue k) t = Some (Some t, q) /\ first q = None
        /\ (exists y, rq (rw k) = Some y) /\ rw_owner (rw k) < 0
        /\ forall fuel, drain_loop fuel (rqueue (set_wqueue q k)) [] = None).
Proof.
  intros Hok He. split.
  - intros Hst. pose proof (rwexec_refines e k lr lw Hok He Hst) as H. unfold rw_refines in H.
    destruct (rwexec e k) as [[k' r] aw]. destruct H as (lr' & lw' & H1 & _ & _ & H2 & H3). eauto 6.
  - intros (t & x & n & -> & Hlw & Ho & Hx & Hn & Ha).
    destruct (wlock_timeout_stuck k lr lw t x n Hok Hlw Hx Hn Ha Ho) as (q & H1 & H2 & H3 & H4). by exists t, q.
Qed.

(** Thread 4 writes; thread 3 sleeps as a reader, 2 and 1 as writers. *)
Definition sample_rw : rwstate :=
  mk_rwstate (mk_rwlock SYS_SYNC_PRIORITY 0 0 (2 * 0x1000003 + 1) (Some 3%positive) (Some 2%positive))
    (<[4%positive := sample_thread 0x1000003 None 900 4]>
     (<[3%positive := sample_thread 0x1000002 None 1000 3]>
      (<[2%positive := sample_thread 0x1000001 (Some 1%positive) 500 2]>
       {[1%positive := sample_thread 0x1000000 None 1000 1]}))) 4 {[4%positive]}.

Lemma sample_rw_ok : rw_ok sample_rw [3]%positive [2; 1]%positive.
Proof.
  split; try done.
  - split; [done|]. eexists. done.
  - repeat (split; [done|]; eexists; split; [done|]). done.
  - intros t Ht Hw. set_solver.
  - split; [|done]. exists 4%positive. eexists. split; [reflexivity|]. split; [done|]. set_solver.
  - intros t n Hn. cbn in Hn. rewrite !lookup_insert_Some, lookup_singleton_Some in Hn. naive_solver.
  - intros t t' n n' Hn Hn'. cbn in Hn, Hn'.
    rewrite !lookup_insert_Some, lookup_singleton_Some in Hn, Hn'. naive_solver.
  - intros t Ht. assert (t = 4%positive) as -> by set_solver.
    split; [set_solver|]. split; [set_solver|]. by eexists.
Qed.

Lemma rwlock_refines_witness :
  exists k', rwexec (WUnlockLocked 4) sample_rw = (k', Returned CELL_OK, [2%positive])
    /\ rw_owner (rw k') = 2 * 0x1000001 + 1 /\ rw_ok k' [3]%positive [1]%positive.
Proof.
  pose proof (rwlock_refines (WUnlockLocked 4) sample_rw _ _ sample_rw_ok) as H.
  destruct (rwexec (WUnlockLocked 4) sample_rw) as [[k' r] aw] eqn:E.
  destruct H as [H _]; [split; [vm_compute; done|done]|].
  destruct H as (lr' & lw' & Hok & _ & _); [by intros (? & ? & ? & ? & _)|].
  exists k'. vm_compute in E. injection E as <- <- <-. split; [done|]. split; [done|].
  assert (lr' = [3]%positive) as <-.
  { eapply seg_inj; [apply (ro_rq _ _ _ Hok)|]. split; [done|]. eexists. done. }
  assert (lw' = [1]%positive) as <-; [|exact Hok].
  eapply seg_inj; [apply (ro_wq _ _ _ Hok)|]. split; [done|]. eexists. done.
Defined.

(** C25: readers and writers exclude each other.  In every state reachable
    from a free lock by any interleaving of the regions, the word counts the
    read locks granted and not released and names the thread to which the
    write lock was granted; so while somebody reads nobody writes, and two
    threads never write together.  Moreover nobody sleeps at a free lock, and
    readers sleep behind readers only while a writer waits. *)
Theorem rw_exclusion (k0 k : rwstate) (lr lw : list tid) (rd : Z) (wr : tid -> Z) (t t' : tid) :
  rw_ok k0 [] [] -> rw_owner (rw k0) = 0 -> rwreach k0 k lr lw rd wr ->
  is_Some (rwthr k !! t) -> is_Some (rwthr k !! t') ->
  rd = readers_of (mode_of (rw_owner (rw k)))
  /\ wr t = writes (mode_of (rw_owner (rw k))) (id_of (rwthr k) t)
  /\ (0 < rd -> wr t = 0) /\ (0 < wr t -> 0 < wr t' -> t = t')
  /\ (rd = 0 -> (forall x, is_Some (rwthr k !! x) -> wr x = 0) -> lr = [] /\ lw = [])
  /\ (0 < rd -> lr <> [] -> lw <> []).
Proof.
  intros H0 Ho Hr Ht Ht'. destruct (rwreach_ok k0 k lr lw rd wr H0 Ho Hr) as (Hok & -> & Hw).
  rewrite (Hw t Ht), (Hw t' Ht'). split; [done|]. split; [done|].
  destruct (mode_of (rw_owner (rw k))) as [|n|id] eqn:Em; cbn [readers_of writes] in *.
  - apply mode_idle in Em. pose proof (ro_word _ _ _ Hok) as W. rewrite Em in W.
    repeat split; try lia; apply W.
  - pose proof (ro_word _ _ _ Hok) as W. unfold word_ok in W. rewrite Em in W.
    apply mode_reading_inv in Em as [Hn _].
    split; [done|]. split; [lia|]. split; [lia|]. intros _ Hlr.
    destruct (Z.testbit _ 0); [done|]. by destruct W.
  - split; [lia|]. split; [|split; [|lia]].
    + destruct (Z.eqb_spec id (id_of (rwthr k) t)) as [E|]; [|lia].
      destruct (Z.eqb_spec id (id_of (rwthr k) t')) as [E'|]; [|lia]. intros _ _.
      destruct Ht as [n Hn], Ht' as [n' Hn']. unfold id_of in E, E'. rewrite Hn in E.
      rewrite Hn' in E'. eapply (ro_inj _ _ _ Hok); eauto. congruence.
    + intros _ Hnone. pose proof (ro_word _ _ _ Hok) as W. unfold word_ok in W. rewrite Em in W.
      destruct W as [(x & n & Hx & Hi & _) _]. specialize (Hnone x ltac:(eauto)).
      rewrite (Hw x ltac:(eauto)) in Hnone. unfold id_of in Hnone.
      by rewrite Hx, Hi, Z.eqb_refl in Hnone.
Qed.

(** C39: progress.  From a state in which some thread and the writer, if there
    is one, are run and no thread is being saved, every sequence of successful
    unlocks is at most as long as the locks held plus twice the sleeping
    threads; as long as the lock is held another unlock succeeds; and when the
    lock is free every thread that slept is runnable.  So as long as the
    holders unlock, every waiting reader and writer gets the lock. *)
Theorem rw_waiters_served (k : rwstate) (lr lw : list tid) (n : nat) (k' : rwstate) :
  rw_live k lr lw -> unlocks k n k' ->
  Z.of_nat n <= rw_weight k lr lw
  /\ (rw_owner (rw k') <> 0 -> exists k'', unlock_step k' k'')
  /\ (rw_owner (rw k') = 0 -> forall t, t ∈ lr ++ lw -> t ∈ rwrun k').
Proof.
  intros Hl Hu. revert lr lw Hl.
  induction Hu as [k|k k1 n k' Hs Hu IH]; intros lr lw Hl.
  - split; [|split; [by eapply unlock_possible|]].
    + unfold rw_weight, held. destruct (mode_of (rw_owner (rw k))) as [|m|] eqn:E; [lia| |lia].
      apply mode_reading_inv in E. lia.
    + intros Ho t Ht. destruct Hl as [Hok _ _ _]. pose proof (ro_word _ _ _ Hok) as W.
      rewrite Ho in W. destruct W as [-> ->]. by apply not_elem_of_nil in Ht.
  - destruct (unlock_step_live k lr lw k1 Hl Hs) as (lr1 & lw1 & Hl1 & Hw & Hrun & Hq).
    destruct (IH lr1 lw1 Hl1) as (I1 & I2 & I3). split; [lia|]. split; [done|].
    intros Ho t Ht. destruct (Hq t Ht) as [Hr|Hr]; [|by apply I3].
    assert (Hmono : forall a m b la lb, rw_live a la lb -> unlocks a m b -> rwrun a ⊆ rwrun b).
    { clear. intros a m b la lb Hl Hu. revert la lb Hl.
      induction Hu as [|a a1 m b Hs _ IH]; intros la lb Hl; [done|].
      destruct (unlock_step_live a la lb a1 Hl Hs) as (la1 & lb1 & Hl1 & _ & Hr & _).
      specialize (IH _ _ Hl1). set_solver. }
    by apply (Hmono k1 n k' lr1 lw1 Hl1 Hu).
Qed.

Lemma rw_waiters_served_witness :
  rw_live sample_rw [3]%positive [2; 1]%positive
  /\ exists k', unlocks sample_rw 1 k' /\ exists k'', unlock_step k' k''.
Proof.
  assert (Hl : rw_live sample_rw [3]%positive [2; 1]%positive).
  { split; [exact sample_rw_ok| | |].
    - intros x m Hx Hm. cbn in Hm. rewrite !lookup_insert_Some, lookup_singleton_Some in Hm.
      naive_solver.
    - exists 4%positive. vm_compute. done.
    - intros id Hid. exists 4%positive. vm_compute in Hid. injection Hid as <-.
      split; vm_compute; done. }
  split; [exact Hl|]. set (k' := fst (fst (rwexec (WUnlockLocked 4) sample_rw))). exists k'.
  assert (Hu : unlocks sample_rw 1 k').
  { eapply unlocks_more; [|apply unlocks_none]. exists 4%positive, (WUnlockLocked 4), [2%positive].
    split; [vm_compute; done|]. split; [right; split; vm_compute; done|reflexivity]. }
  split; [exact Hu|]. apply (rw_waiters_served sample_rw _ _ 1 k' Hl Hu). vm_compute. done.
Defined.

(** A free lock with the same threads, all of them running. *)
Definition free_rw : rwstate :=
  mk_rwstate (mk_rwlock SYS_SYNC_PRIORITY 0 0 0 None None) (rwthr sample_rw) 4
    {[1%positive; 2%positive; 3%positive; 4%positive]}.

Lemma free_rw_ok : rw_ok free_rw [] [].
Proof.
  destruct sample_rw_ok as [_ _ _ _ _ H6 H7 H8 _]. split; try done.
  - by intros t ?%not_elem_of_nil.
  - intros t Ht. split; [apply not_elem_of_nil|]. split; [apply not_elem_of_nil|].
    cbn in Ht. set_unfold in Ht. destruct_or! Ht; subst t; by eexists.
Qed.

Lemma rw_exclusion_witness :
  exists k rd wr, rwreach free_rw k [] [2]%positive rd wr /\ rd = 1 /\ wr 2%positive = 0.
Proof.
  set (k1 := fst (fst (rwexec (RLockTry 1 false) free_rw))).
  set (k2 := fst (fst (rwexec (WLockLocked 2) k1))).
  assert (R1 : rwreach free_rw k1 [] []
    (raccount (RLockTry 1 false) (Returned CELL_OK) [] [] 0)
    (waccount (RLockTry 1 false) (Returned CELL_OK) [] [] (fun _ => 0))).
  { eapply rwreach_step; [apply rwreach_init| |by intros (? & ? & ? & ? & _)|reflexivity|done|done].
    split; [vm_compute; done|cbn; lia]. }
  assert (R2 : rwreach free_rw k2 [] [2]%positive
    (raccount (WLockLocked 2) Blocked [] []
       (raccount (RLockTry 1 false) (Returned CELL_OK) [] [] 0))
    (waccount (WLockLocked 2) Blocked [] []
       (waccount (RLockTry 1 false) (Returned CELL_OK) [] [] (fun _ => 0)))).
  { eapply rwreach_step; [exact R1| |by intros (? & ? & ? & ? & _)|reflexivity|done|].
    - split; [vm_compute; done|]. vm_compute. discriminate.
    - split; [done|]. eexists. split; [vm_compute; reflexivity|done]. }
  destruct (rw_exclusion free_rw k2 [] [2]%positive _ _ 2 1 free_rw_ok eq_refl R2
    ltac:(by eexists) ltac:(by eexists)) as (E1 & E2 & _).
  eexists _, _, _. split; [exact R2|]. split; [exact E1|exact E2].
Defined.

(** One reader; thread 2 waits as a writer, and the sleeping reader 3 is being
    saved. *)
Definition stuck_rw : rwstate :=
  mk_rwstate (mk_rwlock SYS_SYNC_FIFO 0 0 (-1) (Some 3%positive) (Some 2%positive))
    (<[3%positive := mk_thread 0x1000002 None 1000 3 false (add_flag cf_again 0) 0]>
     {[2%positive := sample_thread 0x1000001 None 500 2]}) 4 ∅.

Lemma wlock_timeout_stuck_witness :
  exists q, unqueue true (wqueue stuck_rw) 2 = Some (Some 2%positive, q)
    /\ forall fuel, drain_loop fuel (rqueue (set_wqueue q stuck_rw)) [] = None.
Proof.
  assert (Hok : rw_ok stuck_rw [3]%positive [2]%positive).
  { split; try done.
    - split; [done|]. eexists. done.
    - split; [done|]. eexists. done.
    - intros t Ht Hw. set_solver.
    - intros t m Hm. cbn in Hm. rewrite !lookup_insert_Some, lookup_singleton_Some in Hm. naive_solver.
    - intros t t' m m' Hm Hm'. cbn in Hm, Hm'.
      rewrite !lookup_insert_Some, lookup_singleton_Some in Hm, Hm'. naive_solver. }
  destruct (wlock_timeout_stuck stuck_rw _ _ 2 3
    (mk_thread 0x1000002 None 1000 3 false (add_flag cf_again 0) 0) Hok eq_refl
    ltac:(set_solver) eq_refl eq_refl ltac:(cbn; lia)) as (q & E & _ & _ & H).
  exists q. split; [exact E|exact H].
Defined.
