(* ===== verification/Lv2EventFlag.v ===== *)
(** * LV2 event flags

    kernel/cellos/include/cellos/sys_event_flag.h and src/sys_event_flag.cpp.
    An event flag is a 64-bit pattern; a thread waits until all (AND) or some
    (OR) of its bits are set and may then clear its bits or the whole pattern.
    The pattern is also read and changed without the mutex, by
    sys_event_flag_trywait, sys_event_flag_clear and the first attempt of
    sys_event_flag_wait; sys_event_flag_set therefore computes on a copy of the
    pattern which waiters it can serve, and commits with one atomic operation
    that fails, and starts over, when a bit it depends on has changed.
    [x &~ y] of the source is [Z.ldiff x y]. *)

From stdpp Require Import base numbers list gmap tactics.
From Stdlib Require Import Lia.
From S2P Require Import Prelude Lv2Obj.

Open Scope Z_scope.

Definition SYS_SYNC_WAITER_SINGLE : Z := 0x10000.
Definition SYS_SYNC_WAITER_MULTIPLE : Z := 0x20000.
Definition SYS_EVENT_FLAG_WAIT_AND : Z := 0x01.
Definition SYS_EVENT_FLAG_WAIT_OR : Z := 0x02.
Definition SYS_EVENT_FLAG_WAIT_CLEAR : Z := 0x10.
Definition SYS_EVENT_FLAG_WAIT_CLEAR_ALL : Z := 0x20.

(** ** lv2_event_flag::check_mode and check_pattern *)

Definition check_mode (mode : Z) : bool :=
  ((Z.land mode 0xf =? SYS_EVENT_FLAG_WAIT_AND) || (Z.land mode 0xf =? SYS_EVENT_FLAG_WAIT_OR))
  && ((Z.ldiff mode 0xf =? 0) || (Z.ldiff mode 0xf =? SYS_EVENT_FLAG_WAIT_CLEAR)
      || (Z.ldiff mode 0xf =? SYS_EVENT_FLAG_WAIT_CLEAR_ALL)).

(** The test of check_pattern. *)
Definition satisfied (pattern bitptn mode : Z) : bool :=
  negb ((Z.land mode 0xf =? SYS_EVENT_FLAG_WAIT_AND) && negb (Z.land pattern bitptn =? bitptn)
        || (Z.land mode 0xf =? SYS_EVENT_FLAG_WAIT_OR) && (Z.land pattern bitptn =? 0)).

(** The new pattern and whether the test succeeded; *result is always the old
    pattern. *)
Definition check_pattern (pattern bitptn mode : Z) : Z * bool :=
  if negb (satisfied pattern bitptn mode) then (pattern, false)
  else if Z.ldiff mode 0xf =? SYS_EVENT_FLAG_WAIT_CLEAR then (Z.ldiff pattern bitptn, true)
  else if Z.ldiff mode 0xf =? SYS_EVENT_FLAG_WAIT_CLEAR_ALL then (0, true)
  else (pattern, true).

(** ** State *)

(** struct lv2_event_flag *)
Record lv2_event_flag := mk_eflag {
  ef_protocol : Z;
  ef_key : Z;
  ef_type : Z;
  ef_name : Z;
  pattern : Z;
  esq : ptr
}.

(** gpr[4] to gpr[7] of a waiting thread: the bits it waits for, the mode, the
    result and the mark of sys_event_flag_set. *)
Record wait_regs := mk_regs { g4 : Z; g5 : Z; g6 : Z; g7 : Z }.

Record estate := mk_estate {
  ef : lv2_event_flag;
  ethr : store;
  eregs : gmap tid wait_regs;
  etag : Z;
  erun : gset tid
}.

Definition set_pattern (p : Z) (k : estate) : estate :=
  let e := ef k in
  mk_estate (mk_eflag (ef_protocol e) (ef_key e) (ef_type e) (ef_name e) p (esq e))
    (ethr k) (eregs k) (etag k) (erun k).

Definition equeue (k : estate) : queue := mk_queue (esq (ef k)) (ethr k).

Definition set_equeue (q : queue) (k : estate) : estate :=
  let e := ef k in
  mk_estate (mk_eflag (ef_protocol e) (ef_key e) (ef_type e) (ef_name e) (pattern e) (first q))
    (threads q) (eregs k) (etag k) (erun k).

Definition set_eregs (r : gmap tid wait_regs) (k : estate) : estate :=
  mk_estate (ef k) (ethr k) r (etag k) (erun k).

Definition e_thread (f : ppu_thread -> ppu_thread) (t : tid) (k : estate) : estate :=
  mk_estate (ef k) (alter f t (ethr k)) (eregs k) (etag k) (erun k).

(** flag.sleep(ppu, timeout); the emplace that follows takes the next tag. *)
Definition e_sleep (t : tid) (k : estate) : estate :=
  mk_estate (ef k) (ethr k) (eregs k) (wrap 64 (etag k + 1)) (erun k ∖ {[t]}).

(** append of the threads, then awake_all. *)
Definition e_awake (l : list tid) (k : estate) : estate :=
  mk_estate (ef k) (ethr k) (eregs k) (etag k) (erun k ∪ list_to_set l).

(** ppu.gpr[3] = v *)
Definition put_gpr3 (v : Z) (t : ppu_thread) : ppu_thread :=
  mk_thread (th_id t) (next_cpu t) (prio t) (order t) (preserve_bit t) (th_state t) v.

(** gpr[3] = -1. *)
Definition pending_code : Z := 2 ^ 64 - 1.

Definition set_g6 (v : Z) (r : wait_regs) : wait_regs := mk_regs (g4 r) (g5 r) v (g7 r).

Definition set_g7 (v : Z) (r : wait_regs) : wait_regs := mk_regs (g4 r) (g5 r) (g6 r) v.

(** ** sys_event_flag_wait

    A result is the reply and the value stored through the result pointer,
    which is 0 on every error. *)

(** The arguments as the other threads see them; gpr[7] keeps its value. *)
Definition wait_args (t : tid) (bitptn mode : Z) (k : estate) : estate :=
  let g := match eregs k !! t with Some r => g7 r | None => 0 end in
  e_thread (put_gpr3 pending_code) t (set_eregs (<[t := mk_regs bitptn mode 0 g]> (eregs k)) k).

(** One fetch_op with check_pattern on the flag; gpr[6] receives the pattern. *)
Definition take_pattern (t : tid) (bitptn mode : Z) (k : estate) : estate * bool :=
  let '(p, ok) := check_pattern (pattern (ef k)) bitptn mode in
  (set_pattern p (set_eregs (alter (set_g6 (pattern (ef k))) t (eregs k)) k), ok).

Definition g6_of (t : tid) (k : estate) : Z :=
  match eregs k !! t with Some r => g6 r | None => 0 end.

Definition ef_wait_try (t : tid) (bitptn mode : Z) (k : estate) : estate * reply * Z :=
  let k0 := wait_args t bitptn mode k in
  if negb (check_mode mode) then (k0, Returned CELL_EINVAL, 0)
  else
    match take_pattern t bitptn mode k0 with
    | (k1, true) => (k1, Returned CELL_OK, g6_of t k1)
    | (k1, false) => (k1, Retry, 0)
    end.

Definition ef_wait_locked (t : tid) (bitptn mode : Z) (k : estate) : estate * reply * Z :=
  match take_pattern t bitptn mode k with
  | (k1, true) => (k1, Returned CELL_OK, g6_of t k1)
  | (k1, false) =>
      if (ef_type (ef k1) =? SYS_SYNC_WAITER_SINGLE) && bool_decide (esq (ef k1) <> None)
      then (k1, Returned CELL_EPERM, 0)
      else
        let k2 := e_sleep t k1 in
        (set_equeue (emplace (equeue k2) t (etag k2)) k2, Blocked, 0)
  end.

(** The end of the wait loop: gpr[3] and gpr[6]. *)
Definition ef_result (t : tid) (k : estate) : reply * Z :=
  match ethr k !! t with
  | None => (Fatal, 0)
  | Some n =>
      if gpr3 n =? error_value CELL_OK then (Returned CELL_OK, g6_of t k)
      else if gpr3 n =? error_value CELL_ETIMEDOUT then (Returned CELL_ETIMEDOUT, g6_of t k)
      else if gpr3 n =? error_value CELL_ECANCELED then (Returned CELL_ECANCELED, g6_of t k)
      else (Fatal, 0)
  end.

Definition ef_signaled (t : tid) (k : estate) : estate * reply * Z :=
  let k1 := e_thread (set_state (del_flag cf_signal)) t k in
  let '(r, v) := ef_result t k1 in (k1, r, v).

Definition ef_stopped (t : tid) (k : estate) : estate * reply * Z :=
  match any_waiting (is_thread t) (equeue k) with
  | None => (k, Fatal, 0)
  | Some true => (e_thread (set_state (add_flag cf_again)) t k, Again, 0)
  | Some false => let '(r, v) := ef_result t k in (k, r, v)
  end.

Definition ef_timed_out (t : tid) (k : estate) : estate * reply * Z :=
  match esq (ef k) with
  | None => let '(r, v) := ef_result t k in (k, r, v)
  | Some _ =>
      match unqueue true (equeue k) t with
      | None => (k, Fatal, 0)
      | Some (None, _) => let '(r, v) := ef_result t k in (k, r, v)
      | Some (Some _, q) =>
          let k1 := e_thread (put_gpr3 (error_value CELL_ETIMEDOUT)) t (set_equeue q k) in
          let k2 := set_eregs (alter (set_g6 (pattern (ef k1))) t (eregs k1)) k1 in
          let '(r, v) := ef_result t k2 in (k2, r, v)
      end
  end.

(** ** sys_event_flag_trywait *)
Definition ef_trywait (bitptn mode : Z) (k : estate) : estate * reply * Z :=
  if negb (check_mode mode) then (k, Returned CELL_EINVAL, 0)
  else
    match check_pattern (pattern (ef k)) bitptn mode with
    | (p, true) => (set_pattern p k, Returned CELL_OK, pattern (ef k))
    | (p, false) => (set_pattern p k, Returned CELL_EBUSY, 0)
    end.

(** ** sys_event_flag_clear and sys_event_flag_get *)
Definition ef_clear (bitptn : Z) (k : estate) : estate * reply :=
  (set_pattern (Z.land (pattern (ef k)) bitptn) k, Returned CELL_OK).

Definition ef_get (flags : bool) (k : estate) : reply * Z :=
  if flags then (Returned CELL_OK, pattern (ef k)) else (Returned CELL_EFAULT, 0).

(** ** sys_event_flag_set *)

(** The test before the mutex is taken. *)
Definition ef_set_check (bitptn : Z) (k : estate) : reply :=
  if Z.land (pattern (ef k)) bitptn =? bitptn then Returned CELL_OK else Retry.

(** A walk along the queue that folds [f] over the threads. *)
Fixpoint fold_loop {A} (fuel : nat) (f : A -> tid -> ppu_thread -> A) (h : store) (it : ptr)
    (acc : A) : run A :=
  match it with
  | None => Some acc
  | Some c =>
      match fuel with
      | O => None
      | S fuel' => n ← h !! c; fold_loop fuel' f h (next_cpu n) (f acc c n)
      end
  end.

Definition walk {A} (f : A -> tid -> ppu_thread -> A) (q : queue) (acc : A) : run A :=
  fold_loop (size (threads q)) f (threads q) (first q) acc.

(** for (ppu = sq; ppu; ppu = ppu->next_cpu) ppu->gpr[7] = 0 *)
Definition unmark (r : gmap tid wait_regs) (c : tid) (_ : ppu_thread) : gmap tid wait_regs :=
  alter (set_g7 0) c r.

Definition unmark_all (k : estate) : run estate :=
  r ← walk unmark (equeue k) (eregs k);
  Some (set_eregs r k).

Definition smax32 : Z := 2 ^ 31 - 1.

(** The lambda get_next: the unmarked thread to process now; [best] is the
    pair (prio, it). *)
Definition better (protocol : Z) (r : gmap tid wait_regs) (best : Z * ptr) (c : tid)
    (n : ppu_thread) : Z * ptr :=
  let unmarked := match r !! c with Some g => g7 g =? 0 | None => false end in
  if unmarked && (negb (protocol =? SYS_SYNC_PRIORITY) || (prio n <=? fst best))
  then (prio n, Some c) else best.

Definition get_next (k : estate) : run (estate * ptr) :=
  '(_, it) ← walk (better (ef_protocol (ef k)) (eregs k)) (equeue k) (smax32, None);
  match it with
  | None => Some (k, None)
  | Some t => Some (set_eregs (alter (set_g7 1) t (eregs k)) k, Some t)
  end.

(** The variables of one round. *)
Record round := mk_round { to_write : Z; dependant_mask : Z; count : Z }.

Definition dependant_mask_or (bitptn pattern mode to_write : Z) : Z :=
  if (Z.land mode 0xf =? SYS_EVENT_FLAG_WAIT_OR)
     || (Z.land (Z.land bitptn pattern) to_write =? pattern)
  then 0 else pattern.

(** The loop over the waiters; [fuel] bounds its rounds. *)
Fixpoint serve_loop (fuel : nat) (bitptn : Z) (k : estate) (v : round) : run (estate * round) :=
  match fuel with
  | O => None
  | S fuel' =>
      '(k1, it) ← get_next k;
      match it with
      | None => Some (k1, v)
      | Some t =>
          g ← eregs k1 !! t;
          let dep := dependant_mask_or bitptn (g4 g) (g5 g) (to_write v) in
          let '(w, ok) := check_pattern (to_write v) (g4 g) (g5 g) in
          let k2 := set_eregs (alter (set_g6 (to_write v)) t (eregs k1)) k1 in
          if ok then
            let k3 := e_thread (put_gpr3 (error_value CELL_OK)) t k2 in
            let v' := mk_round w (Z.lor (dependant_mask v) dep) (wrap 32 (count v + 1)) in
            if w =? 0 then Some (k3, v') else serve_loop fuel' bitptn k3 v'
          else
            serve_loop fuel' bitptn (e_thread (put_gpr3 pending_code) t k2)
              (mk_round w (dependant_mask v) (count v))
      end
  end.

(** One round of the outer loop on the pattern [seen]. *)
Definition set_round (bitptn seen : Z) (k : estate) : run (estate * round) :=
  k1 ← unmark_all k;
  '(k2, v) ← serve_loop (S (size (ethr k))) bitptn k1 (mk_round (Z.lor seen bitptn) 0 0);
  Some (k2, mk_round (to_write v) (Z.ldiff (dependant_mask v) bitptn) (count v)).

(** The fetch_op that commits a round; [x] is the pattern it finds. *)
Definition set_commit (bitptn seen x : Z) (v : round) : option Z :=
  if negb (Z.land (Z.lxor x seen) (dependant_mask v) =? 0) then None
  else Some (Z.ldiff (Z.lor x bitptn) (Z.ldiff (Z.lor seen bitptn) (to_write v))).

(** The outer loop.  [xs] are the patterns that the commits find, one for each
    round: what the operations that do not take the mutex leave. *)
Fixpoint set_loop (bitptn seen : Z) (xs : list Z) (k : estate) : run (estate * Z * Z) :=
  match xs with
  | [] => None
  | x :: xs' =>
      '(k1, v) ← set_round bitptn seen k;
      match set_commit bitptn seen x v with
      | Some p => Some (k1, p, count v)
      | None => set_loop bitptn x xs' k1
      end
  end.

(** The threads with gpr[3] == CELL_OK leave the queue; [s] is next_cpu. *)
Definition deref (q : queue) (s : slot) : run ptr :=
  match s with
  | s_first => Some (first q)
  | s_next t => n ← threads q !! t; Some (next_cpu n)
  end.

Fixpoint remove_loop (fuel : nat) (q : queue) (s : slot) (appended : list tid)
    : run (queue * list tid) :=
  match fuel with
  | O => None
  | S fuel' =>
      it ← deref q s;
      match it with
      | None => Some (q, appended)
      | Some t =>
          n ← threads q !! t;
          if gpr3 n =? error_value CELL_OK then
            let q1 := release q s (next_cpu n) in
            remove_loop fuel' (release q1 (s_next t) None) s (appended ++ [t])
          else remove_loop fuel' q (s_next t) appended
      end
  end.

(** The critical section of thread [t]; the list are the awakened threads. *)
Definition ef_set_locked (t : tid) (bitptn : Z) (xs : list Z) (k : estate)
    : estate * reply * list tid :=
  match any_waiting is_again (equeue k) with
  | None => (k, Fatal, [])
  | Some true => (e_thread (set_state (add_flag cf_again)) t k, Again, [])
  | Some false =>
      match set_loop bitptn (pattern (ef k)) xs k with
      | None => (k, Fatal, [])
      | Some (k1, p, count) =>
          let k2 := set_pattern p k1 in
          if count =? 0 then (k2, Returned CELL_OK, [])
          else
            match remove_loop (S (size (ethr k2))) (equeue k2) s_first [] with
            | None => (k2, Fatal, [])
            | Some (q, l) => (e_awake l (set_equeue q k2), Returned CELL_OK, l)
            end
      end
  end.

(** ** sys_event_flag_cancel

    schedule reads only links and flags, so gpr[3] and gpr[6] of the threads it
    takes are set after the loop; the last component is *num. *)
Fixpoint cancel_all (l : list tid) (p : Z) (k : estate) : estate :=
  match l with
  | [] => k
  | t :: l' =>
      cancel_all l' p
        (set_eregs (alter (set_g6 p) t (eregs k))
           (e_thread (put_gpr3 (error_value CELL_ECANCELED)) t k))
  end.

Definition ef_cancel (t : tid) (k : estate) : estate * reply * list tid * Z :=
  match any_waiting is_again (equeue k) with
  | None => (k, Fatal, [], 0)
  | Some true => (e_thread (set_state (add_flag cf_again)) t k, Again, [], 0)
  | Some false =>
      match drain (equeue k) with
      | None => (k, Fatal, [], 0)
      | Some (q, l) =>
          let k1 := cancel_all l (pattern (ef k)) (set_equeue q k) in
          (e_awake l k1, Returned CELL_OK, l, wrap 32 (Z.of_nat (length l)))
      end
  end.

(** The test of sys_event_flag_destroy. *)
Definition eflag_destroy_test (e : lv2_event_flag) : option error_code :=
  match esq e with Some _ => Some CELL_EBUSY | None => None end.

(** ** Patterns as sets of bits *)

Definition bits_in (x y : Z) : Prop := forall i, Z.testbit x i = true -> Z.testbit y i = true.

#[global] Instance bits_in_refl : Reflexive bits_in.
Proof. by intros x i. Qed.

#[global] Instance bits_in_trans : Transitive bits_in.
Proof. intros x y z Hxy Hyz i Hi. auto. Qed.

Lemma bits_in_0 x : bits_in 0 x.
Proof. intros i. by rewrite Z.bits_0. Qed.

Lemma bits_in_ldiff x y : bits_in (Z.ldiff x y) x.
Proof. intros i. rewrite Z.ldiff_spec. by intros [? _]%andb_prop. Qed.

Lemma bits_in_land x y : bits_in (Z.land x y) x.
Proof. intros i. rewrite Z.land_spec. by intros [? _]%andb_prop. Qed.

Lemma land_eq_r x b : Z.land x b = b <-> bits_in b x.
Proof.
  split.
  - intros E i Hi. rewrite <- E, Z.land_spec in Hi. by apply andb_prop in Hi as [? _].
  - intros H. apply Z.bits_inj'. intros i _. rewrite Z.land_spec.
    destruct (Z.testbit b i) eqn:Eb; [by rewrite (H i Eb)|apply andb_false_r].
Qed.

Lemma land_eq_0 x b : Z.land x b = 0 <-> forall i, Z.testbit x i = true -> Z.testbit b i = false.
Proof.
  split.
  - intros E i Hi. assert (H : Z.testbit (Z.land x b) i = false) by (rewrite E; apply Z.bits_0).
    by rewrite Z.land_spec, Hi in H.
  - intros H. apply Z.bits_inj_0. intros i. rewrite Z.land_spec.
    destruct (Z.testbit x i) eqn:E; [by rewrite (H i E)|done].
Qed.

Lemma bits_in_eq x y : bits_in x y -> bits_in y x -> x = y.
Proof.
  intros H1 H2. apply Z.bits_inj'. intros i _.
  destruct (Z.testbit x i) eqn:E; [by rewrite (H1 i E)|].
  destruct (Z.testbit y i) eqn:E'; [|done]. by rewrite (H2 i E') in E.
Qed.

(** More bits satisfy more waiters. *)
Lemma satisfied_mono x y b m : bits_in x y -> satisfied x b m = true -> satisfied y b m = true.
Proof.
  intros Hs. unfold satisfied. rewrite !negb_true_iff, !orb_false_iff, !andb_false_iff.
  rewrite !negb_false_iff, !Z.eqb_eq, !land_eq_r. intros [H1 H2]. split.
  - destruct H1 as [?|H1]; [by left|right]. by transitivity x.
  - destruct H2 as [?|H2]; [by left|right]. apply Z.eqb_neq. apply Z.eqb_neq in H2.
    rewrite land_eq_0 in *. intros E. apply H2. intros i Hi. auto.
Qed.

Lemma unsatisfied_sub x y b m : bits_in x y -> satisfied y b m = false -> satisfied x b m = false.
Proof.
  intros Hs H. destruct (satisfied x b m) eqn:E; [|done].
  by rewrite (satisfied_mono x y) in H.
Qed.

Lemma check_pattern_ok p b m : snd (check_pattern p b m) = satisfied p b m.
Proof. unfold check_pattern. destruct (satisfied p b m); cbn; by repeat case_match. Qed.

Lemma check_pattern_sub p b m : bits_in (fst (check_pattern p b m)) p.
Proof.
  unfold check_pattern. repeat case_match; cbn; auto using bits_in_0, bits_in_ldiff; done.
Qed.

Lemma check_pattern_fail p b m : satisfied p b m = false -> check_pattern p b m = (p, false).
Proof. intros H. unfold check_pattern. by rewrite H. Qed.

(** The bits a successful check clears do not depend on the pattern. *)
Definition cleared (b m : Z) : Z -> Z :=
  if Z.ldiff m 0xf =? SYS_EVENT_FLAG_WAIT_CLEAR then fun p => Z.ldiff p b
  else if Z.ldiff m 0xf =? SYS_EVENT_FLAG_WAIT_CLEAR_ALL then fun _ => 0
  else fun p => p.

Lemma check_pattern_success p b m :
  satisfied p b m = true -> check_pattern p b m = (cleared b m p, true).
Proof. intros H. unfold check_pattern, cleared. rewrite H. by repeat case_match. Qed.

Lemma cleared_mask b m p q : cleared b m (Z.land p q) = Z.land (cleared b m p) q.
Proof.
  unfold cleared. repeat case_match; try done.
  apply Z.bits_inj'. intros i _. rewrite Z.land_spec, !Z.ldiff_spec, Z.land_spec.
  destruct (Z.testbit p i), (Z.testbit q i), (Z.testbit b i); done.
Qed.

(** ** Walks *)

Definition fold_nodes {A} (f : A -> tid -> ppu_thread -> A) (h : store) (l : list tid) (acc : A) : A :=
  foldl (fun acc c => match h !! c with Some n => f acc c n | None => acc end) acc l.

Lemma fold_loop_ok {A} fuel (f : A -> tid -> ppu_thread -> A) h p l acc :
  seg h p l -> (length l <= fuel)%nat -> fold_loop fuel f h p acc = Some (fold_nodes f h l acc).
Proof.
  revert fuel p acc; induction l as [|c l IH]; intros fuel p acc Hs Hf.
  - cbn in Hs. subst p. by destruct fuel.
  - destruct Hs as (-> & n & Hn & Hs). destruct fuel as [|fuel]; cbn [length] in Hf; [lia|].
    cbn [fold_loop]. rewrite Hn. cbn [mbind option_bind]. rewrite (IH fuel) by (done || lia).
    unfold fold_nodes. cbn [foldl]. by rewrite Hn.
Qed.

Lemma walk_ok {A} (f : A -> tid -> ppu_thread -> A) q l acc :
  waits q l -> walk f q acc = Some (fold_nodes f (threads q) l acc).
Proof. intros Hw. apply fold_loop_ok; [done|]. exact (seg_length _ _ _ Hw). Qed.

(** ** The order in which the waiters are served *)

Definition unmarked (r : gmap tid wait_regs) (c : tid) : bool :=
  match r !! c with Some g => g7 g =? 0 | None => false end.

(** The choice of get_next without the marks. *)
Definition choose (protocol : Z) (best : Z * ptr) (c : tid) (n : ppu_thread) : Z * ptr :=
  if negb (protocol =? SYS_SYNC_PRIORITY) || (prio n <=? fst best)
  then (prio n, Some c) else best.

Definition pick (protocol : Z) (h : store) (l : list tid) : ptr :=
  snd (fold_nodes (choose protocol) h l (smax32, None)).

Fixpoint order_of (fuel : nat) (protocol : Z) (h : store) (l : list tid) : list tid :=
  match fuel with
  | O => []
  | S fuel' =>
      match pick protocol h l with
      | None => []
      | Some x => x :: order_of fuel' protocol h (without x l)
      end
  end.

(** All waiters in the order of sys_event_flag_set. *)
Definition ef_order (protocol : Z) (h : store) (l : list tid) : list tid :=
  order_of (length l) protocol h l.

Lemma better_choose p r h l acc :
  fold_nodes (better p r) h l acc
  = fold_nodes (choose p) h (filter (fun c => unmarked r c = true) l) acc.
Proof.
  revert acc; induction l as [|c l IH]; intros acc; [done|].
  change (fold_nodes (better p r) h (c :: l) acc) with
    (fold_nodes (better p r) h l (match h !! c with Some n => better p r acc c n | None => acc end)).
  rewrite IH. destruct (unmarked r c) eqn:E.
  - rewrite filter_cons_True by done. unfold fold_nodes. cbn [foldl].
    destruct (h !! c) as [n|]; [|done]. unfold better. unfold unmarked in E. by rewrite E.
  - rewrite filter_cons_False by congruence.
    destruct (h !! c) as [n|]; [|done]. unfold better. unfold unmarked in E. by rewrite E.
Qed.

(** The threads exist and their priorities are below the initial bound. *)
Definition prios_ok (h : store) (l : list tid) : Prop :=
  forall x, x ∈ l -> exists n, h !! x = Some n /\ prio n <= smax32.

(** [x] is picked from [l]: under SYS_SYNC_PRIORITY no thread has a smaller
    priority and none that was enqueued before has the same one; otherwise [x]
    was enqueued first. *)
Definition picked (p : Z) (h : store) (l : list tid) (x : tid) : Prop :=
  exists l1 l2 n, l = l1 ++ x :: l2 /\ h !! x = Some n
    /\ if p =? SYS_SYNC_PRIORITY
       then (forall y m, y ∈ l1 -> h !! y = Some m -> prio n <= prio m)
            /\ (forall y m, y ∈ l2 -> h !! y = Some m -> prio n < prio m)
       else l2 = [].

Lemma pick_fold p h l :
  prios_ok h l ->
  match fold_nodes (choose p) h l (smax32, None) with
  | (b, None) => l = [] /\ b = smax32
  | (b, Some x) => picked p h l x /\ exists n, h !! x = Some n /\ b = prio n
  end.
Proof.
  induction l as [|y l IH] using rev_ind; intros Hp; [done|].
  destruct (Hp y) as (m & Hm & Hle); [set_solver|].
  assert (Hp' : prios_ok h l) by (intros x Hx; apply Hp; set_solver). specialize (IH Hp').
  unfold fold_nodes in *. rewrite foldl_app. cbn [foldl].
  destruct (foldl _ (smax32, None) l) as [b it]. rewrite Hm. unfold choose. cbn [fst].
  destruct (Z.eqb_spec p SYS_SYNC_PRIORITY) as [Ep|Ep]; cbn [negb orb].
  - destruct (Z.leb_spec (prio m) b) as [Hb|Hb].
    + split; [|eauto]. exists l, [], m. split; [done|]. split; [done|].
      rewrite (proj2 (Z.eqb_eq _ _) Ep). split; [|by intros ? ? ?%not_elem_of_nil].
      intros z o Hz Ho. destruct it as [x|].
      * destruct IH as [(l1 & l2 & n & -> & Hn & Hc) (n' & Hn' & ->)].
        rewrite (proj2 (Z.eqb_eq _ _) Ep) in Hc. destruct Hc as [C1 C2]. simplify_eq.
        apply elem_of_app in Hz as [Hz|[->|Hz]%elem_of_cons].
        -- specialize (C1 z o Hz Ho). lia.
        -- simplify_eq. lia.
        -- specialize (C2 z o Hz Ho). lia.
      * destruct IH as [-> _]. by apply not_elem_of_nil in Hz.
    + destruct it as [x|].
      * destruct IH as [(l1 & l2 & n & -> & Hn & Hc) (n' & Hn' & ->)]. split; [|eauto].
        exists l1, (l2 ++ [y]), n. split; [by rewrite <- app_assoc|]. split; [done|].
        rewrite (proj2 (Z.eqb_eq _ _) Ep) in *. destruct Hc as [C1 C2]. split; [done|].
        intros z o [Hz|Hz]%elem_of_app Ho; [by eapply C2|].
        apply list_elem_of_singleton in Hz as ->. simplify_eq. lia.
      * destruct IH as [-> ->]. lia.
  - split; [|eauto]. exists l, [], m. split; [done|]. split; [done|].
    by rewrite (proj2 (Z.eqb_neq _ _) Ep).
Qed.

Lemma pick_ok p h l :
  prios_ok h l -> (l = [] /\ pick p h l = None) \/ exists x, pick p h l = Some x /\ picked p h l x.
Proof.
  intros Hp. pose proof (pick_fold p h l Hp) as H. unfold pick.
  destruct (fold_nodes _ _ _ _) as [b [x|]]; cbn.
  - right. exists x. by destruct H.
  - left. by destruct H.
Qed.

Lemma picked_elem p h l x : picked p h l x -> x ∈ l.
Proof. intros (l1 & l2 & n & -> & _). set_solver. Qed.

Lemma fold_choose_ext p h h' l acc :
  (forall x, prio <$> h' !! x = prio <$> h !! x) ->
  fold_nodes (choose p) h' l acc = fold_nodes (choose p) h l acc.
Proof.
  intros He. revert acc; induction l as [|c l IH]; intros acc; [done|].
  unfold fold_nodes in *. cbn [foldl]. rewrite IH. f_equal. specialize (He c).
  destruct (h !! c), (h' !! c); try done. cbn in He. injection He as He.
  unfold choose. by rewrite He.
Qed.

Lemma order_of_ext fuel p h h' l :
  (forall x, prio <$> h' !! x = prio <$> h !! x) -> order_of fuel p h' l = order_of fuel p h l.
Proof.
  intros He. revert l; induction fuel as [|fuel IH]; intros l; [done|]. cbn.
  unfold pick. rewrite (fold_choose_ext p h h') by done. case_match; [|done]. by rewrite IH.
Qed.

Lemma prios_ok_sub h l l' : (forall x, x ∈ l' -> x ∈ l) -> prios_ok h l -> prios_ok h l'.
Proof. intros Hs Hp x Hx. auto. Qed.

Lemma without_sub x l y : y ∈ without x l -> y ∈ l.
Proof. rewrite without_elem_of. tauto. Qed.

(** The order lists every waiter once. *)
Lemma order_of_perm fuel p h l :
  NoDup l -> prios_ok h l -> (length l <= fuel)%nat -> order_of fuel p h l ≡ₚ l.
Proof.
  revert l; induction fuel as [|fuel IH]; intros l Hnd Hp Hf.
  { destruct l; [done|]. cbn in Hf. lia. }
  cbn. destruct (pick_ok p h l Hp) as [[-> ->]|(x & -> & Hx)]; [done|].
  pose proof (picked_elem _ _ _ _ Hx) as Hin.
  rewrite IH.
  - apply list_elem_of_split in Hin as (l1 & l2 & ->).
    rewrite without_split by done. by rewrite Permutation_middle.
  - by apply list.NoDup_filter.
  - by eapply prios_ok_sub; [apply without_sub|].
  - pose proof (length_without x l Hnd Hin). lia.
Qed.

Lemma ef_order_perm p h l : NoDup l -> prios_ok h l -> ef_order p h l ≡ₚ l.
Proof. intros. by apply order_of_perm. Qed.

Lemma ef_order_cons p h l x :
  NoDup l -> x ∈ l -> pick p h l = Some x -> ef_order p h l = x :: ef_order p h (without x l).
Proof.
  intros Hnd Hin E. unfold ef_order. rewrite (length_without x l Hnd Hin). cbn. by rewrite E.
Qed.

(** Without priorities the waiters are served first in, first out. *)
Lemma ef_order_fifo p h l :
  p <> SYS_SYNC_PRIORITY -> NoDup l -> prios_ok h l -> ef_order p h l = rev l.
Proof.
  intros Hp. induction l as [|y l IH] using rev_ind; intros Hnd Hok; [done|].
  destruct (pick_ok p h (l ++ [y]) Hok) as [[E _]|(x & E & Hx)]; [by destruct l|].
  pose proof (picked_elem _ _ _ _ Hx) as Hin. destruct Hx as (l1 & l2 & n & El & _ & Hc).
  rewrite (proj2 (Z.eqb_neq _ _) Hp) in Hc. subst l2. apply app_inj_tail in El as [<- <-].
  rewrite (ef_order_cons _ _ _ y), rev_app_distr by done. cbn. f_equal.
  rewrite without_split, app_nil_r by done. apply IH.
  - by apply list.NoDup_app in Hnd as [? _].
  - eapply prios_ok_sub; [|exact Hok]. set_solver.
Qed.

(** ** One round of set *)

(** What happened to a waiter: the pattern it saw and whether it is woken. *)
Abbreviation verdict := (tid * Z * bool)%type.

Definition serve_one (k : estate) (s : verdict) : estate :=
  let '(t, w, ok) := s in
  e_thread (put_gpr3 (if ok then error_value CELL_OK else pending_code)) t
    (set_eregs (alter (set_g6 w) t (alter (set_g7 1) t (eregs k))) k).

(** The waiters [o] are checked one after the other; the loop stops when no
    bit is left. *)
Fixpoint serve (bitptn : Z) (r : gmap tid wait_regs) (o : list tid) (v : round)
    : list verdict * round :=
  match o with
  | [] => ([], v)
  | t :: o' =>
      match r !! t with
      | None => ([], v)
      | Some g =>
          let w := to_write v in
          if satisfied w (g4 g) (g5 g) then
            let v' := mk_round (cleared (g4 g) (g5 g) w)
              (Z.lor (dependant_mask v) (dependant_mask_or bitptn (g4 g) (g5 g) w))
              (wrap 32 (count v + 1)) in
            if to_write v' =? 0 then ([(t, w, true)], v')
            else let '(ss, v'') := serve bitptn r o' v' in ((t, w, true) :: ss, v'')
          else let '(ss, v'') := serve bitptn r o' v in ((t, w, false) :: ss, v'')
      end
  end.

Definition args (g : wait_regs) : Z * Z := (g4 g, g5 g).

Lemma serve_ext b r r' o v :
  (forall t, t ∈ o -> args <$> r' !! t = args <$> r !! t) -> serve b r' o v = serve b r o v.
Proof.
  revert v; induction o as [|t o IH]; intros v He; [done|].
  assert (IH' : forall v, serve b r' o v = serve b r o v).
  { intros v'. apply IH. intros x Hx. apply He. by right. }
  cbn [serve]. specialize (He t ltac:(by left)).
  destruct (r !! t) as [g|], (r' !! t) as [g'|]; try done.
  injection He as E4 E5. rewrite E4, E5, !IH'. done.
Qed.

(** The invariant data of the waiters while a round runs. *)
Record waiters_ok (k : estate) (l : list tid) : Prop := {
  wo_queue : waits (equeue k) l;
  wo_regs : forall t, t ∈ l -> is_Some (eregs k !! t);
  wo_prio : prios_ok (ethr k) l
}.

Lemma serve_one_args k s t : args <$> eregs (serve_one k s) !! t = args <$> eregs k !! t.
Proof.
  destruct s as [[x w] ok]. cbn. destruct (decide (t = x)) as [->|Hne].
  - rewrite !lookup_alter_eq. by destruct (eregs k !! x).
  - by rewrite !lookup_alter_ne.
Qed.

Lemma serve_one_prio k s t : prio <$> ethr (serve_one k s) !! t = prio <$> ethr k !! t.
Proof.
  destruct s as [[x w] ok]. cbn. destruct (decide (t = x)) as [->|Hne].
  - rewrite lookup_alter_eq. by destruct (ethr k !! x).
  - by rewrite lookup_alter_ne.
Qed.

Lemma waiters_ok_data k k' l :
  (forall p, seg (ethr k) p l -> seg (ethr k') p l) -> esq (ef k') = esq (ef k) ->
  (forall t, args <$> eregs k' !! t = args <$> eregs k !! t) ->
  (forall t, prio <$> ethr k' !! t = prio <$> ethr k !! t) ->
  waiters_ok k l -> waiters_ok k' l.
Proof.
  intros Hs Eq Ha Hp [H1 H2 H3]. split.
  - unfold waits. cbn. rewrite Eq. by apply Hs.
  - intros t Ht. specialize (Ha t). destruct (H2 t Ht) as [g Hg]. rewrite Hg in Ha.
    by destruct (eregs k' !! t).
  - intros t Ht. destruct (H3 t Ht) as (n & Hn & Hle). specialize (Hp t). rewrite Hn in Hp.
    destruct (ethr k' !! t) as [n'|]; [|done]. injection Hp as Hp. exists n'. split; [done|lia].
Qed.

Lemma serve_one_ok k l s : waiters_ok k l -> waiters_ok (serve_one k s) l.
Proof.
  apply waiters_ok_data; [|by destruct s as [[? ?] ?]|apply serve_one_args|apply serve_one_prio].
  intros p. destruct s as [[x w] ok]. by apply seg_alter_data.
Qed.

Lemma get_next_ok k l :
  waiters_ok k l ->
  let rest := filter (fun c => unmarked (eregs k) c = true) l in
  get_next k = Some (match pick (ef_protocol (ef k)) (ethr k) rest with
                     | None => (k, None)
                     | Some t => (set_eregs (alter (set_g7 1) t (eregs k)) k, Some t)
                     end).
Proof.
  intros [H1 _ _] rest. unfold get_next. rewrite (walk_ok _ _ l) by done.
  cbn [mbind option_bind]. rewrite better_choose. unfold pick. fold rest.
  change (threads (equeue k)) with (ethr k).
  destruct (fold_nodes (choose _) _ rest _) as [b [x|]]; done.
Qed.

(** Serving [t] takes it out of the unmarked waiters. *)
Lemma serve_one_rest k l t w ok :
  is_Some (eregs k !! t) ->
  filter (fun c => unmarked (eregs (serve_one k (t, w, ok))) c = true) l
  = without t (filter (fun c => unmarked (eregs k) c = true) l).
Proof.
  intros [g Hg].
  assert (Hu : forall c, unmarked (eregs (serve_one k (t, w, ok))) c
                    = unmarked (eregs k) c && bool_decide (c <> t)).
  { intros c. unfold unmarked. cbn. destruct (decide (c = t)) as [->|Hne].
    - rewrite !lookup_alter_eq, Hg. cbn. rewrite bool_decide_false by tauto. by rewrite andb_false_r.
    - rewrite !lookup_alter_ne by done. rewrite bool_decide_true by done. by rewrite andb_true_r. }
  induction l as [|c l IH]; [done|]. unfold without in *. rewrite !filter_cons, IH, Hu.
  destruct (unmarked (eregs k) c); cbn [andb].
  - rewrite (decide_True (P := true = true)), filter_cons by done.
    destruct (decide (c = t)) as [->|Hne].
    + rewrite bool_decide_false by tauto.
      rewrite (decide_False (P := false = true)), (decide_False (P := t <> t)) by (done || tauto).
      done.
    + rewrite bool_decide_true by done.
      by rewrite (decide_True (P := true = true)), (decide_True (P := c <> t)).
  - by rewrite !decide_False.
Qed.

Lemma serve_loop_ok fuel b k l v :
  waiters_ok k l -> NoDup l ->
  let rest := filter (fun c => unmarked (eregs k) c = true) l in
  (length rest < fuel)%nat ->
  let '(ss, v') := serve b (eregs k) (ef_order (ef_protocol (ef k)) (ethr k) rest) v in
  serve_loop fuel b k v = Some (foldl serve_one k ss, v').
Proof.
  revert k v; induction fuel as [|fuel IH]; intros k v Hok Hnd rest Hf; [lia|].
  cbn [serve_loop]. rewrite (get_next_ok k l Hok). fold rest. cbn [mbind option_bind].
  assert (Hpr : prios_ok (ethr k) rest).
  { eapply prios_ok_sub; [|apply Hok]. intros x. unfold rest. rewrite list_elem_of_filter. tauto. }
  assert (Hndr : NoDup rest) by (by apply list.NoDup_filter).
  destruct (pick_ok (ef_protocol (ef k)) (ethr k) rest Hpr) as [[-> ->]|(t & E & Hx)]; [done|].
  rewrite E. pose proof (picked_elem _ _ _ _ Hx) as Hin.
  rewrite (ef_order_cons _ _ _ t) by done.
  assert (Hr : is_Some (eregs k !! t)).
  { apply Hok. unfold rest in Hin. by apply list_elem_of_filter in Hin as [_ ?]. }
  destruct Hr as [g Hg]. cbn [serve mbind option_bind]. rewrite Hg. cbn [eregs set_eregs].
  rewrite lookup_alter_eq, Hg. cbn [fmap option_fmap option_map mbind option_bind].
  change (g4 (set_g7 1 g)) with (g4 g). change (g5 (set_g7 1 g)) with (g5 g).
  pose proof (length_without t rest Hndr Hin) as Hlen.
  assert (Hstep : forall w ok v0,
    let '(ss, v') := serve b (eregs k) (ef_order (ef_protocol (ef k)) (ethr k) (without t rest)) v0 in
    serve_loop fuel b (serve_one k (t, w, ok)) v0
    = Some (foldl serve_one (serve_one k (t, w, ok)) ss, v')).
  { intros w ok v0. pose proof (IH (serve_one k (t, w, ok)) v0 (serve_one_ok _ _ _ Hok) Hnd) as S.
    cbv zeta in S. rewrite serve_one_rest in S by eauto. specialize (S ltac:(fold rest; lia)).
    fold rest in S. change (ef_protocol (ef (serve_one k (t, w, ok)))) with (ef_protocol (ef k)) in S.
    unfold ef_order in *. rewrite (order_of_ext _ _ (ethr k)) in S by apply serve_one_prio.
    rewrite (serve_ext b (eregs k)) in S; [exact S|]. intros x _. apply serve_one_args. }
  destruct (satisfied (to_write v) (g4 g) (g5 g)) eqn:Es.
  - rewrite check_pattern_success by done. cbn [to_write].
    destruct (cleared (g4 g) (g5 g) (to_write v) =? 0) eqn:Ez; [done|].
    specialize (Hstep (to_write v) true (mk_round (cleared (g4 g) (g5 g) (to_write v))
      (Z.lor (dependant_mask v) (dependant_mask_or b (g4 g) (g5 g) (to_write v)))
      (wrap 32 (count v + 1)))).
    destruct (serve b (eregs k) _ _) as [ss v']. exact Hstep.
  - rewrite check_pattern_fail by done.
    specialize (Hstep (to_write v) false v). destruct (serve b (eregs k) _ _) as [ss v'].
    destruct v. exact Hstep.
Qed.

(** Registers that agree but for the mark. *)
Lemma marks_args (a b : option wait_regs) :
  set_g7 0 <$> a = set_g7 0 <$> b -> args <$> a = args <$> b.
Proof. destruct a as [[]|], b as [[]|]; try done. unfold set_g7, args. cbn. congruence. Qed.

(** Unmarking keeps everything but the marks. *)
Lemma unmark_lookup h l r c :
  (forall x, x ∈ l -> is_Some (h !! x)) ->
  fold_nodes unmark h l r !! c
  = if decide (c ∈ l) then set_g7 0 <$> r !! c else r !! c.
Proof.
  revert r; induction l as [|x l IH]; intros r Hd; [by rewrite decide_False by apply not_elem_of_nil|].
  unfold fold_nodes in *. cbn [foldl]. destruct (Hd x ltac:(by left)) as [n ->]. unfold unmark at 2.
  rewrite IH by (intros y Hy; apply Hd; by right).
  destruct (decide (c = x)) as [->|Hne].
  - rewrite lookup_alter_eq, (decide_True (P := x ∈ x :: l)) by (by left).
    destruct (decide (x ∈ l)); [|done]. by destruct (r !! x).
  - rewrite lookup_alter_ne by done. destruct (decide (c ∈ l)) as [Hl|Hl].
    + by rewrite decide_True by (by right).
    + by rewrite decide_False by (by intros [?|?]%elem_of_cons).
Qed.

Lemma unmark_all_ok k l :
  waiters_ok k l ->
  exists r, unmark_all k = Some (set_eregs r k)
    /\ waiters_ok (set_eregs r k) l
    /\ filter (fun c => unmarked r c = true) l = l
    /\ forall c, set_g7 0 <$> r !! c = set_g7 0 <$> eregs k !! c.
Proof.
  intros Hok. pose proof Hok as [H1 H2 H3]. unfold unmark_all.
  rewrite (walk_ok _ _ l) by done. cbn [mbind option_bind]. eexists. split; [reflexivity|].
  assert (Hd : forall x, x ∈ l -> is_Some (threads (equeue k) !! x)).
  { intros x Hx. exact (seg_dom _ _ _ _ H1 Hx). }
  assert (Hl : forall c, set_g7 0 <$> fold_nodes unmark
      (threads (equeue k)) l (eregs k) !! c = set_g7 0 <$> eregs k !! c).
  { intros c. rewrite unmark_lookup by done. case_decide; [|done]. by destruct (eregs k !! c). }
  split; [|split; [|exact Hl]].
  - eapply (waiters_ok_data k); try done. intros t. specialize (Hl t). cbn [eregs set_eregs].
    by apply marks_args.
  - assert (Hf : forall c, c ∈ l -> unmarked (fold_nodes unmark
      (threads (equeue k)) l (eregs k)) c = true).
    { intros c Hc. unfold unmarked. rewrite unmark_lookup, decide_True by done.
      by destruct (H2 c Hc) as [g ->]. }
    revert Hf. generalize (fold_nodes unmark
      (threads (equeue k)) l (eregs k)). intros r. clear. induction l as [|c l IH]; intros Hf; [done|].
    rewrite filter_cons_True by (apply Hf; by left). f_equal. apply IH. intros x Hx.
    apply Hf. by right.
Qed.

(** The order of the round that starts in [k]. *)
Definition line (k : estate) (l : list tid) : list tid := ef_order (ef_protocol (ef k)) (ethr k) l.

Lemma set_round_ok b seen k l :
  waiters_ok k l ->
  exists r, (forall c, set_g7 0 <$> r !! c = set_g7 0 <$> eregs k !! c)
  /\ let '(ss, v) := serve b (eregs k) (line k l) (mk_round (Z.lor seen b) 0 0) in
     set_round b seen k
     = Some (foldl serve_one (set_eregs r k) ss,
             mk_round (to_write v) (Z.ldiff (dependant_mask v) b) (count v)).
Proof.
  intros Hok. destruct (unmark_all_ok k l Hok) as (r & E & Hok1 & Hf & Hr).
  exists r. split; [exact Hr|]. unfold set_round. rewrite E. cbn [mbind option_bind].
  pose proof (seg_NoDup _ _ _ (wo_queue _ _ Hok)) as Hnd.
  pose proof (seg_length _ _ _ (wo_queue _ _ Hok)) as Hlen. cbn in Hlen.
  pose proof (serve_loop_ok (S (size (ethr k))) b (set_eregs r k) l (mk_round (Z.lor seen b) 0 0)
    Hok1 Hnd) as S. cbv zeta in S. change (eregs (set_eregs r k)) with r in S. rewrite Hf in S.
  specialize (S ltac:(lia)).
  change (ef_order (ef_protocol (ef (set_eregs r k))) (ethr (set_eregs r k)) l) with (line k l) in S.
  rewrite (serve_ext b (eregs k)) in S.
  - destruct (serve b (eregs k) (line k l) _) as [ss v]. rewrite S. done.
  - intros t _. by apply marks_args.
Qed.

(** ** What a round does *)

Definition v_tid (s : verdict) : tid := fst (fst s).

Definition woken (ss : list verdict) : list tid := v_tid <$> filter (fun s => snd s = true) ss.

Section Serve.

Context (bitptn : Z) (r : gmap tid wait_regs).

Implicit Types (o : list tid) (v : round) (ss : list verdict).

Lemma cleared_sub b m p : bits_in (cleared b m p) p.
Proof. unfold cleared. repeat case_match; auto using bits_in_0, bits_in_ldiff; done. Qed.

(** Reasoning about [serve] by cases. *)
Lemma serve_cases t g o v (P : list verdict * round -> Prop) :
  r !! t = Some g ->
  let w := to_write v in
  let v' := mk_round (cleared (g4 g) (g5 g) w)
              (Z.lor (dependant_mask v) (dependant_mask_or bitptn (g4 g) (g5 g) w))
              (wrap 32 (count v + 1)) in
  (satisfied w (g4 g) (g5 g) = true -> to_write v' = 0 -> P ([(t, w, true)], v')) ->
  (satisfied w (g4 g) (g5 g) = true -> to_write v' <> 0 ->
     P ((t, w, true) :: fst (serve bitptn r o v'), snd (serve bitptn r o v'))) ->
  (satisfied w (g4 g) (g5 g) = false ->
     P ((t, w, false) :: fst (serve bitptn r o v), snd (serve bitptn r o v))) ->
  P (serve bitptn r (t :: o) v).
Proof.
  intros Hg w v' H1 H2 H3. cbn [serve]. rewrite Hg. fold w. fold v'.
  destruct (satisfied w (g4 g) (g5 g)).
  - destruct (Z.eqb_spec (to_write v') 0) as [E|E]; [auto|].
    specialize (H2 eq_refl E). by destruct (serve bitptn r o v').
  - specialize (H3 eq_refl). by destruct (serve bitptn r o v).
Qed.

Lemma serve_sub o v : bits_in (to_write (snd (serve bitptn r o v))) (to_write v).
Proof.
  revert v; induction o as [|t o IH]; intros v; [done|].
  destruct (r !! t) as [g|] eqn:Hg; [|cbn [serve]; by rewrite Hg].
  apply serve_cases with (g := g); [done|intros _ _..|intros _]; cbn [snd].
  - apply cleared_sub.
  - etransitivity; [apply IH|apply cleared_sub].
  - apply IH.
Qed.

(** The verdicts are about a prefix of the line. *)
Lemma serve_tids o v : exists o2, o = (v_tid <$> fst (serve bitptn r o v)) ++ o2.
Proof.
  revert v; induction o as [|t o IH]; intros v; [by exists []|].
  destruct (r !! t) as [g|] eqn:Hg; [|cbn [serve]; rewrite Hg; by eexists].
  apply serve_cases with (g := g); [done|intros _ _..|intros _]; cbn [fst fmap list_fmap].
  - by exists o.
  - destruct (IH (mk_round (cleared (g4 g) (g5 g) (to_write v))
      (Z.lor (dependant_mask v) (dependant_mask_or bitptn (g4 g) (g5 g) (to_write v)))
      (wrap 32 (count v + 1)))) as [o2 E]. exists o2. cbn. f_equal. exact E.
  - destruct (IH v) as [o2 E]. exists o2. cbn. f_equal. exact E.
Qed.

(** A waiter that is not woken is not satisfied by what is left. *)
Lemma serve_unwoken o v t g :
  (forall x, x ∈ o -> is_Some (r !! x)) -> t ∈ o -> r !! t = Some g ->
  (forall w ok, (t, w, ok) ∈ fst (serve bitptn r o v) -> ok = false) ->
  satisfied 0 (g4 g) (g5 g) = false ->
  satisfied (to_write (snd (serve bitptn r o v))) (g4 g) (g5 g) = false.
Proof.
  revert v; induction o as [|x o IH]; intros v Hd Ht Hg; [by apply not_elem_of_nil in Ht|].
  destruct (Hd x ltac:(by left)) as [gx Hx].
  assert (Hd' : forall x, x ∈ o -> is_Some (r !! x)) by (intros y Hy; apply Hd; by right).
  apply serve_cases with (g := gx); [done|intros Hs E..|intros Hs]; cbn [fst snd]; intros Hn H0.
  - rewrite E. done.
  - apply elem_of_cons in Ht as [->|Ht].
    + specialize (Hn (to_write v) true ltac:(by left)). done.
    + apply IH; try done. intros w ok Hin. apply (Hn w). by right.
  - destruct (decide (t = x)) as [->|Hne].
    + simplify_eq. eapply unsatisfied_sub; [apply serve_sub|done].
    + apply elem_of_cons in Ht as [->|Ht]; [done|]. apply IH; try done.
      intros w ok Hin. apply (Hn w). by right.
Qed.

(** While a bit is left every waiter is looked at. *)
Lemma serve_all o v :
  (forall x, x ∈ o -> is_Some (r !! x)) -> to_write (snd (serve bitptn r o v)) <> 0 ->
  v_tid <$> fst (serve bitptn r o v) = o.
Proof.
  revert v; induction o as [|x o IH]; intros v Hd; [done|].
  destruct (Hd x ltac:(by left)) as [gx Hx].
  assert (Hd' : forall x, x ∈ o -> is_Some (r !! x)) by (intros y Hy; apply Hd; by right).
  apply serve_cases with (g := gx); [done|intros Hs E..|intros Hs]; cbn [fst snd]; intros Hn.
  - done.
  - cbn. f_equal. exact (IH _ Hd' Hn).
  - cbn. f_equal. exact (IH _ Hd' Hn).
Qed.

End Serve.

(** The threads after a round: only gpr[3], gpr[6] and the marks of the served
    waiters changed. *)
Definition verdict_code (ok : bool) : Z := if ok then error_value CELL_OK else pending_code.

Lemma served_lookup ss k t :
  NoDup (v_tid <$> ss) ->
  (t ∉ v_tid <$> ss -> ethr (foldl serve_one k ss) !! t = ethr k !! t
     /\ eregs (foldl serve_one k ss) !! t = eregs k !! t)
  /\ (forall w ok, (t, w, ok) ∈ ss ->
     ethr (foldl serve_one k ss) !! t = put_gpr3 (verdict_code ok) <$> ethr k !! t
     /\ eregs (foldl serve_one k ss) !! t = (fun g => set_g6 w (set_g7 1 g)) <$> eregs k !! t).
Proof.
  revert k; induction ss as [|[[x w0] ok0] ss IH]; intros k Hnd.
  { split; [done|]. by intros w ok ?%not_elem_of_nil. }
  cbn [fmap list_fmap] in Hnd. apply list.NoDup_cons in Hnd as [Hx Hnd].
  destruct (IH (serve_one k (x, w0, ok0)) Hnd) as [I1 I2]. cbn [foldl]. split.
  - intros Hn. change (t ∉ x :: (v_tid <$> ss)) in Hn. rewrite not_elem_of_cons in Hn.
    destruct Hn as [Hne Hn]. destruct (I1 Hn) as [-> ->]. cbn.
    by rewrite !lookup_alter_ne by done.
  - intros w ok [E|Hin]%elem_of_cons.
    + injection E as -> -> ->. destruct (I1 Hx) as [-> ->]. cbn.
      rewrite !lookup_alter_eq. split; [done|]. by destruct (eregs k !! x).
    + assert (t <> x).
      { intros ->. apply Hx. apply list_elem_of_fmap. by exists (x, w, ok). }
      destruct (I2 w ok Hin) as [-> ->]. cbn. by rewrite !lookup_alter_ne by done.
Qed.

Lemma served_frame ss k :
  ef (foldl serve_one k ss) = ef k /\ etag (foldl serve_one k ss) = etag k
  /\ erun (foldl serve_one k ss) = erun k.
Proof. revert k; induction ss as [|[[x w] ok] ss IH]; intros k; [done|]. exact (IH (serve_one k (x, w, ok))). Qed.

Lemma served_seg ss k p l : seg (ethr k) p l -> seg (ethr (foldl serve_one k ss)) p l.
Proof.
  revert k; induction ss as [|[[x w] ok] ss IH]; intros k Hs; [done|]. cbn [foldl].
  apply IH. by apply seg_alter_data.
Qed.

Lemma served_ok ss k l : waiters_ok k l -> waiters_ok (foldl serve_one k ss) l.
Proof. revert k; induction ss as [|s ss IH]; intros k Hok; [done|]. apply IH, serve_one_ok, Hok. Qed.

(** ** The removal of the woken threads *)

Definition code_ok (h : store) (t : tid) : bool :=
  match h !! t with Some n => gpr3 n =? error_value CELL_OK | None => false end.

Lemma code_ok_relinked l h h' t : relinked l h h' -> code_ok h' t = code_ok h t.
Proof.
  intros H. unfold code_ok. destruct (H t) as [E _].
  destruct (h !! t) as [n|], (h' !! t) as [n'|]; try done. cbn in E.
  destruct n, n'. unfold set_next in E. cbn in *. congruence.
Qed.

Lemma deref_ok q l1 l2 : waits q (l1 ++ l2) -> deref q (slot_before l1) = Some (head l2).
Proof.
  intros Hw. unfold slot_before. destruct (list.last l1) as [y|] eqn:El.
  - apply last_Some in El as [l0 ->]. rewrite <- app_assoc in Hw. cbn in Hw.
    apply seg_app in Hw. destruct Hw as (_ & n & Hn & Hs). cbn [deref]. rewrite Hn. cbn.
    destruct l2 as [|x l2]; [by rewrite Hs|]. by destruct Hs as [-> _].
  - apply last_None in El as ->. cbn. destruct l2 as [|x l2]; [by rewrite Hw|].
    by destruct Hw as [-> _].
Qed.

Lemma remove_loop_ok fuel q l1 l2 acc :
  waits q (l1 ++ l2) -> (length l2 < fuel)%nat ->
  exists q', remove_loop fuel q (slot_before l1) acc
    = Some (q', acc ++ filter (fun t => code_ok (threads q) t = true) l2)
    /\ waits q' (l1 ++ filter (fun t => code_ok (threads q) t = false) l2)
    /\ relinked (l1 ++ l2) (threads q) (threads q').
Proof.
  revert q l1 l2 acc; induction fuel as [|fuel IH]; intros q l1 l2 acc Hw Hf; [lia|].
  cbn [remove_loop]. rewrite (deref_ok q l1 l2 Hw). cbn [mbind option_bind].
  destruct l2 as [|t l2]; cbn [head].
  { exists q. rewrite !filter_nil, !app_nil_r in *. by repeat split. }
  pose proof (seg_app _ _ _ _ _ Hw) as (_ & n & Hn & _). rewrite Hn. cbn [length] in Hf.
  assert (Ec : code_ok (threads q) t = (gpr3 n =? error_value CELL_OK)).
  { unfold code_ok. by rewrite Hn. }
  destruct (gpr3 n =? error_value CELL_OK) eqn:Eg; cbn [mbind option_bind]; rewrite Eg.
  - pose proof (seg_NoDup _ _ _ Hw) as Hnd.
    destruct (removal_ok true q l1 t l2 n Hw Hn) as [R1 R2 _]. rewrite without_split in R1 by done.
    set (q1 := release (release q (slot_before l1) (next_cpu n)) (s_next t) None) in *.
    destruct (IH q1 l1 l2 (acc ++ [t]) R1 ltac:(lia)) as (q' & E & W & R).
    exists q'. rewrite E. rewrite filter_cons_True, filter_cons_False by congruence.
    assert (Hfil : forall b, filter (fun t => code_ok (threads q1) t = b) l2
                      = filter (fun t => code_ok (threads q) t = b) l2).
    { intros b. apply list_filter_iff. intros x. by rewrite (code_ok_relinked _ _ _ x R2). }
    rewrite !Hfil in *. split; [by rewrite <- app_assoc|]. split; [done|].
    etransitivity; [exact R2|]. eapply relinked_mono; [|exact R]. set_solver.
  - replace (s_next t) with (slot_before (l1 ++ [t])) by (unfold slot_before; by rewrite last_snoc).
    destruct (IH q (l1 ++ [t]) l2 acc) as (q' & E & W & R).
    { by rewrite <- app_assoc. }
    { lia. }
    exists q'. rewrite E. rewrite filter_cons_False, filter_cons_True by congruence.
    rewrite <- app_assoc in W, R. done.
Qed.

(** ** The sequential meaning of set

    The waiters take what they need from the pattern [w], in line. *)
Fixpoint serve_seq (r : gmap tid wait_regs) (o : list tid) (w : Z) : list tid * Z :=
  match o with
  | [] => ([], w)
  | t :: o' =>
      match r !! t with
      | None => ([], w)
      | Some g =>
          if satisfied w (g4 g) (g5 g)
          then let '(ws, w') := serve_seq r o' (cleared (g4 g) (g5 g) w) in (t :: ws, w')
          else serve_seq r o' w
      end
  end.

Lemma serve_seq_ext r r' o w :
  (forall t, args <$> r' !! t = args <$> r !! t) -> serve_seq r' o w = serve_seq r o w.
Proof.
  intros He. revert w; induction o as [|t o IH]; intros w; [done|]. cbn [serve_seq].
  specialize (He t). destruct (r !! t) as [g|], (r' !! t) as [g'|]; try done.
  injection He as E4 E5. by rewrite E4, E5, !IH.
Qed.

(** A waiter with valid arguments that the pattern [p] does not satisfy. *)
Definition idle_at (r : gmap tid wait_regs) (p : Z) (t : tid) : Prop :=
  exists g, r !! t = Some g /\ check_mode (g5 g) = true /\ satisfied p (g4 g) (g5 g) = false.

Lemma idle_at_sub r p q t : bits_in q p -> idle_at r p t -> idle_at r q t.
Proof.
  intros Hs (g & Hg & Hm & Hu). exists g. do 2 (split; [done|]). by eapply unsatisfied_sub.
Qed.

Lemma serve_seq_zero r o : (forall t, t ∈ o -> idle_at r 0 t) -> serve_seq r o 0 = ([], 0).
Proof.
  induction o as [|t o IH]; intros Hd; [done|].
  destruct (Hd t ltac:(by left)) as (g & Hg & _ & Hu). cbn. rewrite Hg, Hu.
  apply IH. intros x Hx. apply Hd. by right.
Qed.

Lemma check_mode_cases m :
  check_mode m = true ->
  (Z.land m 0xf =? SYS_EVENT_FLAG_WAIT_AND) = true /\ (Z.land m 0xf =? SYS_EVENT_FLAG_WAIT_OR) = false
  \/ (Z.land m 0xf =? SYS_EVENT_FLAG_WAIT_AND) = false
     /\ (Z.land m 0xf =? SYS_EVENT_FLAG_WAIT_OR) = true.
Proof.
  unfold check_mode, SYS_EVENT_FLAG_WAIT_AND, SYS_EVENT_FLAG_WAIT_OR.
  intros [H _]%andb_prop. apply orb_prop in H. lia.
Qed.

(** A waiter that the copy of the pattern satisfies is also satisfied when the
    bits that [x] lost are missing: it waits for new bits, or the bits it
    depends on are those of [x]. *)
Lemma satisfied_transfer b p x w pt md :
  check_mode md = true -> satisfied p pt md = false -> satisfied w pt md = true ->
  bits_in w (Z.lor p b) ->
  (forall i, Z.testbit (dependant_mask_or b pt md w) i = true -> Z.testbit b i = false ->
     Z.testbit x i = Z.testbit p i) ->
  satisfied (Z.land w (Z.lor x b)) pt md = true.
Proof.
  intros Hm Hp Hw Hs Hd. unfold satisfied, dependant_mask_or in *.
  destruct (check_mode_cases md Hm) as [[E1 E2]|[E1 E2]]; rewrite E1, E2 in *;
    cbn [andb orb negb] in *.
  - rewrite orb_false_r, negb_involutive, Z.eqb_eq, land_eq_r in *. intros i Hi.
    rewrite Z.land_spec, Z.lor_spec, (Hw i Hi). cbn [andb].
    destruct (Z.testbit b i) eqn:Eb; [by rewrite orb_true_r|]. rewrite orb_false_r.
    destruct (Z.land (Z.land b pt) w =? pt) eqn:Ed.
    + apply Z.eqb_eq in Ed. rewrite <- Ed, !Z.land_spec, Eb in Hi. done.
    + rewrite Hd by done. specialize (Hs i (Hw i Hi)). rewrite Z.lor_spec, Eb, orb_false_r in Hs. done.
  - apply negb_true_iff, Z.eqb_neq. apply negb_true_iff, Z.eqb_neq in Hw.
    apply negb_false_iff, Z.eqb_eq in Hp. rewrite land_eq_0 in *. intros H. apply Hw.
    intros i Hi. destruct (Z.testbit pt i) eqn:Ep; [|done]. exfalso.
    assert (Hpi : Z.testbit p i = false).
    { destruct (Z.testbit p i) eqn:E; [|done]. by rewrite (Hp i E) in Ep. }
    specialize (Hs i Hi). rewrite Z.lor_spec, Hpi in Hs. cbn in Hs.
    rewrite (H i) in Ep; [done|]. by rewrite Z.land_spec, Z.lor_spec, Hi, Hs, orb_true_r.
Qed.

Lemma serve_dep_sub b r o v :
  bits_in (dependant_mask v) (dependant_mask (snd (serve b r o v))).
Proof.
  revert v; induction o as [|t o IH]; intros v; [done|].
  destruct (r !! t) as [g|] eqn:Hg; [|cbn [serve]; by rewrite Hg].
  assert (Hl : forall d, bits_in (dependant_mask v) (Z.lor (dependant_mask v) d)).
  { intros d i Hi. by rewrite Z.lor_spec, Hi. }
  apply serve_cases with (g := g); [done|intros _ _..|intros _]; cbn [snd].
  - apply Hl.
  - etransitivity; [apply Hl|]. apply (IH (mk_round _ _ _)).
  - apply IH.
Qed.

Lemma woken_true t w ss : woken ((t, w, true) :: ss) = t :: woken ss.
Proof. done. Qed.

Lemma woken_false t w ss : woken ((t, w, false) :: ss) = woken ss.
Proof. done. Qed.

(** The round on the copy [p] of the pattern, seen from the pattern [x] found
    by the commit, served the waiters as if it had run on [x]. *)
Lemma serve_linear b r p x o v :
  (forall t, t ∈ o -> idle_at r p t) -> bits_in (to_write v) (Z.lor p b) ->
  (forall i, Z.testbit (dependant_mask (snd (serve b r o v))) i = true ->
     Z.testbit b i = false -> Z.testbit x i = Z.testbit p i) ->
  serve_seq r o (Z.land (to_write v) (Z.lor x b))
  = (woken (fst (serve b r o v)), Z.land (to_write (snd (serve b r o v))) (Z.lor x b)).
Proof.
  revert v; induction o as [|t o IH]; intros v Hd Hs; [done|].
  destruct (Hd t ltac:(by left)) as (g & Hg & Hm & Hu).
  assert (Hd' : forall t, t ∈ o -> idle_at r p t) by (intros y Hy; apply Hd; by right).
  cbn [serve_seq]. rewrite Hg.
  apply serve_cases with (g := g); [done|intros Hw E..|intros Hw]; cbn [fst snd]; intros Hdep.
  - cbn [dependant_mask to_write] in *.
    rewrite (satisfied_transfer b p x); try done.
    2: { intros i Hi Hb. apply Hdep; [|done]. by rewrite Z.lor_spec, Hi, orb_true_r. }
    rewrite cleared_mask, E, Z.land_0_l, serve_seq_zero; [done|].
    intros y Hy. eapply idle_at_sub; [apply bits_in_0|auto].
  - set (v' := mk_round _ _ _) in *. cbn [dependant_mask to_write] in *.
    rewrite (satisfied_transfer b p x); try done.
    2: { intros i Hi Hb. apply Hdep; [|done]. apply (serve_dep_sub b r o v').
         cbn. by rewrite Z.lor_spec, Hi, orb_true_r. }
    rewrite cleared_mask. change (cleared (g4 g) (g5 g) (to_write v)) with (to_write v').
    rewrite (IH v' Hd'); [done| |exact Hdep].
    etransitivity; [apply cleared_sub|exact Hs].
  - rewrite (unsatisfied_sub (Z.land (to_write v) (Z.lor x b)) (to_write v));
      [|apply bits_in_land|done].
    by rewrite (IH v Hd' Hs Hdep).
Qed.

Lemma serve_count b r o v :
  (forall t, t ∈ o -> is_Some (r !! t)) ->
  0 <= count v -> count v + Z.of_nat (length o) < 2 ^ 32 ->
  count (snd (serve b r o v)) = count v + Z.of_nat (length (woken (fst (serve b r o v)))).
Proof.
  revert v; induction o as [|t o IH]; intros v Hd H0 Hlt; [cbn; lia|].
  destruct (Hd t ltac:(by left)) as [g Hg]. cbn [length] in Hlt.
  assert (Hd' : forall t, t ∈ o -> is_Some (r !! t)) by (intros y Hy; apply Hd; by right).
  assert (Hc : wrap 32 (count v + 1) = count v + 1) by (apply wrap_id; unfold urange; lia).
  apply serve_cases with (g := g); [done|intros _ _..|intros _]; cbn [fst snd].
  - rewrite woken_true. cbn. rewrite Hc. lia.
  - rewrite woken_true. cbn [length]. rewrite IH; cbn [count]; rewrite ?Hc; try done; lia.
  - rewrite woken_false. rewrite IH by (done || lia). lia.
Qed.

(** The commit stores what is left of the pattern it finds. *)
Lemma set_commit_ok b seen x v p :
  bits_in x seen -> bits_in (to_write v) (Z.lor seen b) -> set_commit b seen x v = Some p ->
  p = Z.land (to_write v) (Z.lor x b)
  /\ forall i, Z.testbit (dependant_mask v) i = true -> Z.testbit x i = Z.testbit seen i.
Proof.
  intros Hs Hw. unfold set_commit. destruct (Z.eqb_spec (Z.land (Z.lxor x seen) (dependant_mask v)) 0)
    as [E|E]; [|done]. cbn [negb]. intros [= <-]. split.
  - apply Z.bits_inj'. intros i _. rewrite Z.land_spec, !Z.ldiff_spec, !Z.lor_spec.
    specialize (Hs i). specialize (Hw i). rewrite Z.lor_spec in Hw.
    destruct (Z.testbit x i), (Z.testbit seen i), (Z.testbit b i), (Z.testbit (to_write v) i);
      naive_solver.
  - intros i Hi. rewrite Z.land_comm, land_eq_0 in E. specialize (E i Hi). rewrite Z.lxor_spec in E.
    by destruct (Z.testbit x i), (Z.testbit seen i).
Qed.

(** ** The invariant *)

(** No sleeping thread is satisfied by the pattern, its arguments are valid and
    gpr[3] is -1 or was set by sys_event_flag_set. *)
Record ef_ok (k : estate) (l : list tid) : Prop := {
  eo_queue : waits (equeue k) l;
  eo_pat : urange 64 (pattern (ef k));
  eo_idle : forall t, t ∈ l -> idle_at (eregs k) (pattern (ef k)) t;
  eo_code : forall t n, t ∈ l -> ethr k !! t = Some n ->
    gpr3 n = pending_code \/ gpr3 n = error_value CELL_OK;
  eo_prio : forall t n, ethr k !! t = Some n -> prio n <= smax32;
  eo_single : ef_type (ef k) = SYS_SYNC_WAITER_SINGLE -> (length l <= 1)%nat;
  eo_size : Z.of_nat (size (ethr k)) < 2 ^ 32 - 1;
  eo_run : forall t, t ∈ erun k -> (t ∉ l) /\ is_Some (ethr k !! t)
}.

Lemma ef_waiters_ok k l : ef_ok k l -> waiters_ok k l.
Proof.
  intros Hok. split; [apply Hok| |].
  - intros t Ht. destruct (eo_idle _ _ Hok t Ht) as (g & -> & _). eauto.
  - intros t Ht. destruct (seg_dom _ _ _ _ (eo_queue _ _ Hok) Ht) as [n Hn]. exists n.
    split; [done|]. by eapply (eo_prio _ _ Hok).
Qed.

(** What the rounds of set leave alone. *)
Record same_waiters (k k' : estate) (l : list tid) : Prop := {
  sw_ok : waiters_ok k' l;
  sw_ef : ef k' = ef k;
  sw_run : erun k' = erun k;
  sw_args : forall t, args <$> eregs k' !! t = args <$> eregs k !! t;
  sw_thr : forall t, put_gpr3 0 <$> ethr k' !! t = put_gpr3 0 <$> ethr k !! t
}.

Lemma same_waiters_trans k1 k2 k3 l :
  same_waiters k1 k2 l -> same_waiters k2 k3 l -> same_waiters k1 k3 l.
Proof.
  intros [] []. split; try done; try congruence; intros t; etransitivity; eauto.
Qed.

Lemma same_prio k k' l t : same_waiters k k' l -> prio <$> ethr k' !! t = prio <$> ethr k !! t.
Proof.
  intros H. pose proof (sw_thr _ _ _ H t) as E.
  destruct (ethr k !! t) as [[]|], (ethr k' !! t) as [[]|]; try done.
  unfold put_gpr3 in E. cbn in *. congruence.
Qed.

Lemma same_line k k' l : same_waiters k k' l -> line k' l = line k l.
Proof.
  intros H. unfold line, ef_order. rewrite (sw_ef _ _ _ H). apply order_of_ext. intros x.
  by eapply same_prio.
Qed.

Lemma same_idle k k' l p t : same_waiters k k' l -> idle_at (eregs k) p t -> idle_at (eregs k') p t.
Proof.
  intros H (g & Hg & Hm & Hu). pose proof (sw_args _ _ _ H t) as E. rewrite Hg in E.
  destruct (eregs k' !! t) as [g'|] eqn:Eg; [|done]. injection E as E4 E5.
  exists g'. by rewrite E4, E5.
Qed.

Lemma same_lookup k k' l t n' :
  same_waiters k k' l -> ethr k' !! t = Some n' ->
  exists n, ethr k !! t = Some n /\ put_gpr3 0 n' = put_gpr3 0 n.
Proof.
  intros H Hn. pose proof (sw_thr _ _ _ H t) as E. rewrite Hn in E.
  destruct (ethr k !! t) as [n|]; [|done]. exists n. split; [done|]. exact (inj Some _ _ E).
Qed.

Lemma served_same r ss k l :
  (forall c, set_g7 0 <$> r !! c = set_g7 0 <$> eregs k !! c) -> waiters_ok k l ->
  same_waiters k (foldl serve_one (set_eregs r k) ss) l.
Proof.
  intros Hr Hok. assert (Hok1 : waiters_ok (set_eregs r k) l).
  { eapply (waiters_ok_data k); try done. intros t. by apply marks_args. }
  destruct (served_frame ss (set_eregs r k)) as (E1 & _ & E3).
  split; [by apply served_ok|done|done|..]; clear Hok Hok1 E1 E3.
  - intros t. transitivity (args <$> r !! t); [|by apply marks_args].
    change r with (eregs (set_eregs r k)) at 2. generalize (set_eregs r k). clear.
    induction ss as [|s ss IH]; intros k; [done|]. cbn [foldl]. rewrite IH. apply serve_one_args.
  - intros t. change (ethr k) with (ethr (set_eregs r k)). generalize (set_eregs r k). clear.
    induction ss as [|[[x w] ok] ss IH]; intros k; [done|]. cbn [foldl]. rewrite IH. cbn.
    destruct (decide (t = x)) as [->|]; [|by rewrite lookup_alter_ne by done].
    rewrite lookup_alter_eq. by destruct (ethr k !! x).
Qed.

Lemma serve_NoDup b k l v :
  waiters_ok k l -> NoDup (v_tid <$> fst (serve b (eregs k) (line k l) v)).
Proof.
  intros Hok. destruct (serve_tids b (eregs k) (line k l) v) as [o2 E].
  pose proof (seg_NoDup _ _ _ (wo_queue _ _ Hok)) as Hnd.
  assert (Hl : NoDup (line k l)).
  { unfold line. rewrite ef_order_perm; [done|done|apply Hok]. }
  rewrite E in Hl. by apply list.NoDup_app in Hl as [? _].
Qed.

Lemma line_elem k l t : waiters_ok k l -> t ∈ line k l <-> t ∈ l.
Proof.
  intros Hok. unfold line. rewrite ef_order_perm; [done| |apply Hok].
  exact (seg_NoDup _ _ _ (wo_queue _ _ Hok)).
Qed.

Lemma woken_elem ss t : t ∈ woken ss <-> exists w, (t, w, true) ∈ ss.
Proof.
  unfold woken. rewrite list_elem_of_fmap. split.
  - intros ([[x w] ok] & -> & [E Hin]%list_elem_of_filter). cbn in E. subst ok. by exists w.
  - intros [w Hin]. exists (t, w, true). split; [done|]. by apply list_elem_of_filter.
Qed.

(** The codes after a round. *)
Lemma round_codes b r k l v t n' :
  (forall c, set_g7 0 <$> r !! c = set_g7 0 <$> eregs k !! c) -> waiters_ok k l -> t ∈ l ->
  let ss := fst (serve b (eregs k) (line k l) v) in
  ethr (foldl serve_one (set_eregs r k) ss) !! t = Some n' ->
  exists n, ethr k !! t = Some n
    /\ (t ∈ woken ss -> gpr3 n' = error_value CELL_OK)
    /\ (t ∉ woken ss -> gpr3 n' = pending_code \/ (gpr3 n' = gpr3 n /\ t ∉ v_tid <$> ss)).
Proof.
  intros Hr Hok Ht ss Hn'. pose proof (serve_NoDup b k l v Hok) as Hnd. fold ss in Hnd.
  destruct (served_lookup ss (set_eregs r k) t Hnd) as [L1 L2].
  destruct (seg_dom _ _ _ _ (wo_queue _ _ Hok) Ht) as [n Hn]. cbn in Hn. exists n.
  split; [done|]. split.
  - intros [w Hw]%woken_elem. destruct (L2 w true Hw) as [E _]. rewrite Hn' in E. cbn in E.
    rewrite Hn in E. injection E as ->. done.
  - intros Hw. destruct (decide (t ∈ v_tid <$> ss)) as [Hin|Hin].
    + left. apply list_elem_of_fmap in Hin as ([[x w] ok] & -> & Hin). cbn in *.
      destruct ok; [exfalso; apply Hw, woken_elem; by exists w|].
      destruct (L2 w false Hin) as [E _]. rewrite Hn' in E. cbn in E. rewrite Hn in E.
      injection E as ->. done.
    + right. split; [|done]. destruct (L1 Hin) as [E _]. rewrite Hn' in E. cbn in E. congruence.
Qed.

Lemma bits_in_urange n p x : 0 <= n -> urange n p -> bits_in x p -> urange n x.
Proof.
  intros Hn Hp Hs.
  assert (Hb : forall i, n <= i -> Z.testbit x i = false).
  { intros i Hi. destruct (Z.testbit x i) eqn:E; [|done]. apply Hs in E.
    by rewrite (urange_testbit n p i) in E by (done || lia). }
  apply urange_bits; [done| |exact Hb].
  destruct (Z.lt_ge_cases x 0) as [Hx|]; [exfalso|done].
  pose proof (Z.log2_nonneg (Z.pred (- x))) as H0.
  assert (E : Z.testbit x (Z.max n (Z.log2 (Z.pred (- x)) + 1)) = true).
  { apply Z.bits_above_log2_neg; [done|]. lia. }
  rewrite Hb in E by lia. done.
Qed.

(** The waiters that a round and its commit leave asleep. *)
Lemma unwoken_idle b k l p x t v :
  waiters_ok k l -> (forall t, t ∈ l -> idle_at (eregs k) p t) -> t ∈ l ->
  bits_in (to_write v) (Z.lor p b) ->
  t ∉ woken (fst (serve b (eregs k) (line k l) v)) ->
  idle_at (eregs k) (Z.land (to_write (snd (serve b (eregs k) (line k l) v))) x) t.
Proof.
  intros Hok Hi Ht Hs Hw. destruct (Hi t Ht) as (g & Hg & Hm & Hu).
  exists g. split; [done|]. split; [done|].
  eapply unsatisfied_sub; [apply bits_in_land|].
  apply (serve_unwoken b (eregs k) (line k l) v t g); try done.
  - intros y Hy%(line_elem k l y Hok). destruct (Hi y Hy) as (gy & -> & _). eauto.
  - by apply line_elem.
  - intros w ok Hin. destruct ok; [|done]. exfalso. apply Hw, woken_elem. by exists w.
  - eapply unsatisfied_sub; [apply bits_in_0|exact Hu].
Qed.

(** One round whose commit succeeds. *)
Lemma commit_ok b seen x k l k1 v p :
  waiters_ok k l -> (forall t, t ∈ l -> idle_at (eregs k) seen t) ->
  Z.of_nat (size (ethr k)) < 2 ^ 32 - 1 -> bits_in x seen ->
  set_round b seen k = Some (k1, v) -> set_commit b seen x v = Some p ->
  let ws := fst (serve_seq (eregs k) (line k l) (Z.lor x b)) in
  same_waiters k k1 l /\ p = snd (serve_seq (eregs k) (line k l) (Z.lor x b))
  /\ count v = Z.of_nat (length ws)
  /\ forall t n', t ∈ l -> ethr k1 !! t = Some n' ->
       (t ∈ ws -> gpr3 n' = error_value CELL_OK)
       /\ (t ∉ ws -> idle_at (eregs k) p t /\ (p <> 0 -> gpr3 n' = pending_code)
             /\ exists n, ethr k !! t = Some n /\ (gpr3 n' = pending_code \/ gpr3 n' = gpr3 n)).
Proof.
  intros Hok Hi Hsz Hx Er Ec ws. destruct (set_round_ok b seen k l Hok) as (r & Hr & E).
  set (v0 := mk_round (Z.lor seen b) 0 0) in *.
  pose proof (fun t n' Ht => round_codes b r k l v0 t n' Hr Hok Ht) as Hcode.
  pose proof (served_same r (fst (serve b (eregs k) (line k l) v0)) k l Hr Hok) as Hsame.
  pose proof (serve_sub b (eregs k) (line k l) v0) as Hsub.
  assert (Hil : forall t, t ∈ line k l -> idle_at (eregs k) seen t).
  { intros t Ht%(line_elem k l t Hok). auto. }
  pose proof (serve_linear b (eregs k) seen x (line k l) v0 Hil ltac:(done)) as Hlin.
  pose proof (serve_count b (eregs k) (line k l) v0) as Hcnt.
  pose proof (fun t Ht => unwoken_idle b k l seen (Z.lor x b) t v0 Hok Hi Ht ltac:(done)) as Hun.
  pose proof (serve_all b (eregs k) (line k l) v0) as Hall.
  assert (Hlen : length (line k l) = length l).
  { apply Permutation_length, ef_order_perm; [|apply Hok].
    exact (seg_NoDup _ _ _ (wo_queue _ _ Hok)). }
  pose proof (seg_length _ _ _ (wo_queue _ _ Hok)) as Hl. cbn in Hl.
  destruct (serve b (eregs k) (line k l) v0) as [ss v1]. cbn [fst snd] in *.
  rewrite E in Er. injection Er as <- <-. cbn [count] in *.
  destruct (set_commit_ok b seen x (mk_round (to_write v1) (Z.ldiff (dependant_mask v1) b) (count v1))
    p Hx Hsub Ec) as [-> Hd]. cbn [to_write dependant_mask] in *.
  assert (Hbits : Z.land (Z.lor seen b) (Z.lor x b) = Z.lor x b).
  { apply land_eq_r. intros i. rewrite !Z.lor_spec. intros [H|H]%orb_prop.
    - by rewrite (Hx i H).
    - rewrite H. apply orb_true_r. }
  assert (Hd' : forall i, Z.testbit (dependant_mask v1) i = true -> Z.testbit b i = false ->
            Z.testbit x i = Z.testbit seen i).
  { intros i H1 H2. apply Hd. by rewrite Z.ldiff_spec, H1, H2. }
  specialize (Hlin Hd').
  unfold v0 in Hlin at 1. cbn [to_write] in Hlin. rewrite Hbits in Hlin.
  unfold ws. rewrite Hlin. cbn [fst snd].
  split; [exact Hsame|]. split; [done|]. split.
  { rewrite Hcnt; [done| |done|].
    - intros t Ht. destruct (Hil t Ht) as (g & -> & _). eauto.
    - cbn. rewrite Hlen. lia. }
  intros t n' Ht Hn'. destruct (Hcode t n' Ht Hn') as (n & Hn & C1 & C2). split; [exact C1|].
  intros Hw. split; [exact (Hun t Ht Hw)|]. split.
  - intros Hp. destruct (C2 Hw) as [?|[_ Hv]]; [done|]. destruct Hv. rewrite Hall; [by apply line_elem| |].
    + intros y Hy. destruct (Hil y Hy) as (g & -> & _). eauto.
    + intros Hz. apply Hp. by rewrite Hz.
  - exists n. split; [done|]. destruct (C2 Hw) as [?|[? _]]; auto.
Qed.

(** The patterns that operations without the mutex leave behind only lose
    bits. *)
Fixpoint shrinks (p : Z) (xs : list Z) : Prop :=
  match xs with
  | [] => True
  | x :: xs' => bits_in x p /\ shrinks x xs'
  end.

(** The bits of a pattern. *)

Definition bitcount (p : Z) : nat :=
  length (filter (fun i : nat => Z.testbit p (Z.of_nat i) = true) (seq 0 64)).

Lemma filter_less {A} (P Q : A -> Prop) `{forall x, Decision (P x)} `{forall x, Decision (Q x)} l x :
  (forall y, P y -> Q y) -> x ∈ l -> Q x -> ~ P x -> (length (filter P l) < length (filter Q l))%nat.
Proof.
  intros Hs. assert (Hle : forall l, (length (filter P l) <= length (filter Q l))%nat).
  { clear -Hs. induction l as [|y l IH]; [done|]. rewrite !filter_cons.
    destruct (decide (P y)) as [Hp|]; [rewrite decide_True by auto; cbn; lia|].
    destruct (decide (Q y)); cbn; lia. }
  induction l as [|y l IH]; intros Hin HQ HP; [by apply not_elem_of_nil in Hin|].
  rewrite !filter_cons. apply elem_of_cons in Hin as [->|Hin].
  - rewrite decide_False, decide_True by done. cbn. specialize (Hle l). lia.
  - specialize (IH Hin HQ HP).
    destruct (decide (P y)); [rewrite decide_True by auto; cbn; lia|].
    destruct (decide (Q y)); cbn; lia.
Qed.

Lemma filter_ext_in {A} (P Q : A -> Prop) `{forall x, Decision (P x)} `{forall x, Decision (Q x)}
    (l : list A) :
  (forall x, x ∈ l -> P x <-> Q x) -> filter P l = filter Q l.
Proof.
  induction l as [|x l IH]; intros He; [done|]. rewrite !filter_cons.
  rewrite IH by (intros y Hy; apply He; by right). specialize (He x ltac:(by left)).
  destruct (decide (P x)), (decide (Q x)); tauto || done.
Qed.

Lemma bitcount_less x p : urange 64 p -> bits_in x p -> x <> p -> (bitcount x < bitcount p)%nat.
Proof.
  intros Hp Hs Hne.
  assert (Hi : exists i : nat, (i < 64)%nat /\ Z.testbit p (Z.of_nat i) = true
                 /\ Z.testbit x (Z.of_nat i) <> true).
  { destruct (decide (Exists (fun i : nat => Z.testbit p (Z.of_nat i) = true
      /\ Z.testbit x (Z.of_nat i) <> true) (seq 0 64))) as [He|He].
    - apply list.Exists_exists in He as (i & Hin & H1 & H2). apply elem_of_seq in Hin.
      exists i. split; [lia|done].
    - exfalso. apply Hne, bits_in_eq; [done|]. intros i Hpi.
      assert (Hr : 0 <= i < 64).
      { destruct (Z.lt_ge_cases i 0); [by rewrite Z.testbit_neg_r in Hpi|].
        destruct (Z.lt_ge_cases i 64); [done|]. by rewrite (urange_testbit 64) in Hpi by (done || lia). }
      destruct (Z.testbit x i) eqn:Ex; [done|]. exfalso. apply He. apply list.Exists_exists.
      exists (Z.to_nat i). split; [apply elem_of_seq; lia|]. rewrite Z2Nat.id by lia.
      by rewrite Ex. }
  destruct Hi as (i & Hlt & H1 & H2). unfold bitcount.
  assert (Hin : i ∈ seq 0 64) by (apply elem_of_seq; lia). revert Hin. generalize (seq 0 64).
  intros s Hin. apply (filter_less (fun j : nat => Z.testbit x (Z.of_nat j) = true)
    (fun j : nat => Z.testbit p (Z.of_nat j) = true) s i); [|exact Hin|exact H1|exact H2].
  intros y Hy. by apply Hs.
Qed.

Lemma bitcount_sub x p : urange 64 p -> bits_in x p -> (bitcount x <= bitcount p)%nat.
Proof.
  intros Hp Hx. destruct (decide (x = p)) as [->|Hne]; [done|]. pose proof (bitcount_less x p Hp Hx Hne). lia.
Qed.

(** The committing round [i], on the pattern [x]: each round before it lost a
    bit, and the patterns after it are not looked at. *)
Lemma set_loop_ok b seen xs k l k' p c :
  waiters_ok k l -> (forall t, t ∈ l -> idle_at (eregs k) seen t) ->
  Z.of_nat (size (ethr k)) < 2 ^ 32 - 1 -> urange 64 seen -> shrinks seen xs ->
  (forall t n, t ∈ l -> ethr k !! t = Some n ->
     gpr3 n = pending_code \/ gpr3 n = error_value CELL_OK) ->
  set_loop b seen xs k = Some (k', p, c) ->
  exists i x, xs !! i = Some x /\ (i + bitcount x <= bitcount seen)%nat
    /\ (forall ys, take (S i) ys = take (S i) xs -> set_loop b seen ys k = Some (k', p, c))
    /\ bits_in x seen /\ same_waiters k k' l
    /\ let ws := fst (serve_seq (eregs k) (line k l) (Z.lor x b)) in
       p = snd (serve_seq (eregs k) (line k l) (Z.lor x b))
       /\ c = Z.of_nat (length ws)
       /\ forall t n', t ∈ l -> ethr k' !! t = Some n' ->
            (gpr3 n' = pending_code \/ gpr3 n' = error_value CELL_OK)
            /\ (t ∈ ws -> gpr3 n' = error_value CELL_OK)
            /\ (t ∉ ws -> idle_at (eregs k) p t)
            /\ (t ∉ ws -> p <> 0 \/ i = O /\ (forall n, ethr k !! t = Some n -> gpr3 n = pending_code) ->
                 gpr3 n' = pending_code).
Proof.
  revert seen k; induction xs as [|x xs IH]; intros seen k Hok Hi Hsz Hse Hs Hc E; [done|].
  destruct Hs as [Hx Hs]. cbn [set_loop] in E.
  destruct (set_round b seen k) as [[k1 v]|] eqn:Er; [|done]. cbn [mbind option_bind] in E.
  destruct (set_commit b seen x v) as [p0|] eqn:Ec.
  - injection E as -> -> <-.
    destruct (commit_ok b seen x k l k' v p Hok Hi Hsz Hx Er Ec) as (H1 & H2 & H3 & H4).
    exists O, x. split; [done|]. split; [by apply bitcount_sub|]. split.
    { intros [|y ys] Hy; [done|]. injection Hy as ->. cbn [set_loop]. rewrite Er. cbn. by rewrite Ec. }
    split; [done|]. split; [done|]. split; [done|]. split; [done|].
    intros t n' Ht Hn'. destruct (H4 t n' Ht Hn') as [C1 C2]. split; [|split; [|split]].
    + destruct (decide (t ∈ fst (serve_seq (eregs k) (line k l) (Z.lor x b)))) as [Hw|Hw]; [auto|].
      destruct (C2 Hw) as (_ & _ & n & Hn & [?|Eg]); [auto|]. rewrite Eg. eauto.
    + exact C1.
    + intros Hw. by destruct (C2 Hw).
    + intros Hw [Hp|[_ Hp]]; [by apply C2|]. destruct (C2 Hw) as (_ & _ & n & Hn & [?|Eg]); [done|].
      rewrite Eg. by apply Hp.
  - destruct (set_round_ok b seen k l Hok) as (r & Hr & Er').
    pose proof (served_same r (fst (serve b (eregs k) (line k l) (mk_round (Z.lor seen b) 0 0)))
      k l Hr Hok) as Hsame.
    pose proof (fun t n' Ht => round_codes b r k l (mk_round (Z.lor seen b) 0 0) t n' Hr Hok Ht) as Hcode.
    destruct (serve b (eregs k) (line k l) _) as [ss v1]. cbn [fst] in *.
    pose proof Er as Er2. rewrite Er in Er'. injection Er' as Ek _. rewrite <- Ek in Hsame, Hcode. clear Er Ek.
    assert (Hne : x <> seen).
    { intros ->. unfold set_commit in Ec. by rewrite Z.lxor_nilpotent, Z.land_0_l in Ec. }
    pose proof (bitcount_less x seen Hse Hx Hne) as Hless.
    destruct (IH x k1) as (i & y & Hiy & Hcnt & Hys & Hy & S & R); try done.
    + apply Hsame.
    + intros t Ht. eapply (same_idle k); [done|]. eapply idle_at_sub; [done|auto].
    + erewrite size_dom_eq; [exact Hsz|]. apply set_eq. intros t. rewrite !elem_of_dom.
      pose proof (sw_thr _ _ _ Hsame t) as E'.
      destruct (ethr k !! t), (ethr k1 !! t); try done; split; by intros [? ?].
    + by eapply bits_in_urange; [lia|exact Hse|].
    + intros t n' Ht Hn'. destruct (Hcode t n' Ht Hn') as (n & Hn & C1 & C2).
      destruct (decide (t ∈ woken ss)) as [Hw|Hw]; [auto|].
      destruct (C2 Hw) as [?|[Eg _]]; [auto|]. rewrite Eg. eauto.
    + exists (Datatypes.S i), y. split; [done|]. split; [lia|]. split.
      { intros [|y0 ys] Hy0; [done|]. injection Hy0 as -> Hy0. cbn [set_loop]. rewrite Er2.
        cbn [mbind option_bind]. rewrite Ec. by apply Hys. }
      split; [by transitivity x|]. split; [by eapply same_waiters_trans|].
      rewrite (same_line k k1) in R by done.
      rewrite (serve_seq_ext (eregs k)) in R by apply Hsame. destruct R as (R1 & R2 & R3). split; [done|]. split; [done|].
      intros t n' Ht Hn'. destruct (R3 t n' Ht Hn') as (C1 & C2 & C3 & C4). split; [done|].
      split; [done|]. split; [|by intros Hw [Hp|[? _]]; [apply C4; [|left]|]].
      intros Hw. destruct (C3 Hw) as (g1 & Hg & Hm & Hu).
      pose proof (sw_args _ _ _ Hsame t) as Ea. rewrite Hg in Ea.
      destruct (eregs k !! t) as [g|] eqn:Eg; [|done]. injection Ea as E4 E5.
      exists g. by rewrite <- E4, <- E5.
Qed.

(** ** Termination of the outer loop *)

(** A failed commit means that the pattern lost a bit. *)
Lemma set_loop_total b seen xs k l :
  waiters_ok k l -> urange 64 seen -> shrinks seen xs -> (bitcount seen < length xs)%nat ->
  is_Some (set_loop b seen xs k).
Proof.
  revert seen k; induction xs as [|x xs IH]; intros seen k Hok Hp Hs Hlen;
    [cbn [length] in Hlen; lia|].
  destruct Hs as [Hx Hs]. cbn [set_loop length] in *.
  destruct (set_round_ok b seen k l Hok) as (r & Hr & Er).
  pose proof (served_same r (fst (serve b (eregs k) (line k l) (mk_round (Z.lor seen b) 0 0)))
    k l Hr Hok) as Hsame.
  destruct (serve b (eregs k) (line k l) _) as [ss v]. rewrite Er. cbn [mbind option_bind fst] in *.
  destruct (set_commit b seen x _) as [p|] eqn:Ec; [by eexists|].
  apply IH; [apply Hsame|by eapply bits_in_urange; [..|exact Hx]|done|].
  assert (x <> seen).
  { intros ->. unfold set_commit in Ec. by rewrite Z.lxor_nilpotent, Z.land_0_l in Ec. }
  pose proof (bitcount_less x seen Hp Hx H). lia.
Qed.

(** ** The regions as events *)
Inductive eevent :=
| EfWaitTry (t : tid) (bitptn mode : Z)
| EfWaitLocked (t : tid) (bitptn mode : Z)
| EfSignaled (t : tid)
| EfStopped (t : tid)
| EfTimedOut (t : tid)
| EfTryWait (t : tid) (bitptn mode : Z)
| EfSet (t : tid) (bitptn : Z) (xs : list Z)
| EfClear (t : tid) (bitptn : Z)
| EfCancel (t : tid).

Definition eexec (e : eevent) (k : estate) : estate * reply :=
  match e with
  | EfWaitTry t b m => fst (ef_wait_try t b m k)
  | EfWaitLocked t b m => fst (ef_wait_locked t b m k)
  | EfSignaled t => fst (ef_signaled t k)
  | EfStopped t => fst (ef_stopped t k)
  | EfTimedOut t => fst (ef_timed_out t k)
  | EfTryWait _ b m => fst (ef_trywait b m k)
  | EfSet t b xs => fst (ef_set_locked t b xs k)
  | EfClear _ b => ef_clear b k
  | EfCancel t => let '(k', r, _, _) := ef_cancel t k in (k', r)
  end.

(** A thread starts a syscall only while the scheduler runs it; wait reaches
    the critical section with the registers the attempt before left; the
    patterns that a set finds have lost bits only, and 65 rounds are enough. *)
Definition eenabled (e : eevent) (k : estate) : Prop :=
  match e with
  | EfWaitTry t _ _ | EfTryWait t _ _ | EfClear t _ | EfCancel t => t ∈ erun k
  | EfWaitLocked t b m =>
      t ∈ erun k /\ check_mode m = true /\ args <$> eregs k !! t = Some (b, m)
      /\ gpr3 <$> ethr k !! t = Some pending_code
  | EfSet t b xs =>
      t ∈ erun k /\ urange 64 b /\ shrinks (pattern (ef k)) xs /\ (64 < length xs)%nat
  | EfSignaled t => is_Some (ethr k !! t)
  | EfStopped t | EfTimedOut t => is_Some (ethr k !! t)
  end.

(** ** The invariant after each region *)

Lemma shrink_ok k l p :
  ef_ok k l -> bits_in p (pattern (ef k)) -> ef_ok (set_pattern p k) l.
Proof.
  intros [] Hs. split; cbn; try done.
  - by eapply bits_in_urange; [..|exact Hs].
  - intros t Ht. eapply idle_at_sub; [exact Hs|auto].
Qed.

(** Registers of threads that do not sleep. *)
Lemma outside_ok k l r f t :
  ef_ok k l -> t ∉ l -> (forall x, x <> t -> r !! x = eregs k !! x) ->
  (forall n, prio (f n) = prio n) -> ef_ok (e_thread f t (set_eregs r k)) l.
Proof.
  intros [H1 H2 H3 H4 H5 H6 H7 H8] Ht Hr Hf.
  assert (Hne : forall x, x ∈ l -> x <> t) by (intros x Hx ->; done).
  split; cbn; try done.
  - by apply seg_alter.
  - intros x Hx. destruct (H3 x Hx) as (g & Hg & Hm). exists g. by rewrite Hr by auto.
  - intros x n Hx Hn. rewrite lookup_alter_ne in Hn by (symmetry; auto). eauto.
  - intros x n Hn. destruct (decide (x = t)) as [->|Hxt].
    + rewrite lookup_alter_eq in Hn. destruct (ethr k !! t) as [m|] eqn:Em; [|done].
      injection Hn as <-. rewrite Hf. eauto.
    + rewrite lookup_alter_ne in Hn by done. eauto.
  - erewrite size_dom_eq; [exact H7|apply dom_alter_L].
  - intros x Hx. destruct (H8 x Hx) as [? Hs]. split; [done|].
    apply elem_of_dom. rewrite dom_alter_L. by apply elem_of_dom.
Qed.

(** Flags of any thread. *)
Lemma flags_ok k l f t :
  ef_ok k l -> ef_ok (e_thread (set_state f) t k) l.
Proof.
  intros [H1 H2 H3 H4 H5 H6 H7 H8].
  assert (Hlk : forall x n, alter (set_state f) t (ethr k) !! x = Some n ->
            exists m, ethr k !! x = Some m /\ gpr3 n = gpr3 m /\ prio n = prio m).
  { intros x n Hn. destruct (decide (x = t)) as [->|Hxt].
    - rewrite lookup_alter_eq in Hn. destruct (ethr k !! t) as [m|] eqn:Em; [|done].
      injection Hn as <-. by exists m.
    - rewrite lookup_alter_ne in Hn by done. eauto. }
  split; cbn; try done.
  - by apply seg_alter_data.
  - intros x n Hx Hn. destruct (Hlk x n Hn) as (m & Hm & -> & _). eauto.
  - intros x n Hn. destruct (Hlk x n Hn) as (m & Hm & _ & ->). eauto.
  - erewrite size_dom_eq; [exact H7|apply dom_alter_L].
  - intros x Hx. destruct (H8 x Hx) as [? Hs]. split; [done|].
    apply elem_of_dom. rewrite dom_alter_L. by apply elem_of_dom.
Qed.

Lemma take_pattern_ok k l t b m :
  ef_ok k l -> t ∉ l -> ef_ok (fst (take_pattern t b m k)) l.
Proof.
  intros Hok Ht. unfold take_pattern. pose proof (check_pattern_sub (pattern (ef k)) b m) as Hs.
  destruct (check_pattern (pattern (ef k)) b m) as [p ok]. cbn [fst] in *.
  apply shrink_ok; [|exact Hs].
  assert (Ho : ef_ok (e_thread (fun n => n) t
    (set_eregs (alter (set_g6 (pattern (ef k))) t (eregs k)) k)) l).
  { apply outside_ok; try done. intros x Hx. by rewrite lookup_alter_ne. }
  unfold e_thread in Ho. cbn in Ho. rewrite alter_id in Ho; done.
Qed.

Lemma wait_try_ok k l t b m :
  ef_ok k l -> t ∈ erun k -> ef_ok (fst (fst (ef_wait_try t b m k))) l.
Proof.
  intros Hok Ht. destruct (eo_run _ _ Hok t Ht) as [Hn _].
  assert (H0 : ef_ok (wait_args t b m k) l).
  { apply outside_ok; try done. intros x Hx. by rewrite lookup_insert_ne. }
  unfold ef_wait_try. destruct (check_mode m); [|done]. cbn [negb].
  pose proof (take_pattern_ok _ l t b m H0 Hn) as H1.
  destruct (take_pattern t b m (wait_args t b m k)) as [k1 []]; done.
Qed.

Lemma removed_flag_ok k l t q r f :
  ef_ok k l -> t ∈ l -> removed true (equeue k) l t q ->
  (forall x, x <> t -> r !! x = eregs k !! x) -> (forall n, prio (f n) = prio n) ->
  (forall n, next_cpu (f n) = next_cpu n) ->
  ef_ok (set_eregs r (e_thread f t (set_equeue q k))) (without t l).
Proof.
  intros [H1 H2 H3 H4 H5 H6 H7 H8] Ht [R1 R2 _] Hr Hf Hx. cbn in R2.
  assert (Hlk : forall x n, x <> t -> threads q !! x = Some n ->
            exists m, ethr k !! x = Some m /\ gpr3 n = gpr3 m /\ prio n = prio m).
  { intros x n _ Hn. destruct (relinked_lookup _ _ _ _ _ (relinked_sym _ _ _ R2) Hn) as [p Hp].
    eexists. split; [exact Hp|done]. }
  split; cbn; try done.
  - destruct q. by apply seg_alter_data.
  - intros x [Hl Hne]%without_elem_of. destruct (H3 x Hl) as (g & Hg & Hm). exists g.
    by rewrite Hr.
  - intros x n [Hl Hne]%without_elem_of Hn. rewrite lookup_alter_ne in Hn by done.
    destruct (Hlk x n Hne Hn) as (m & Hm & -> & _). eauto.
  - intros x n Hn. destruct (decide (x = t)) as [->|Hne].
    + rewrite lookup_alter_eq in Hn. destruct (threads q !! t) as [m|] eqn:Em; [|done].
      injection Hn as <-. rewrite Hf.
      destruct (relinked_lookup _ _ _ _ _ (relinked_sym _ _ _ R2) Em) as [p Hp].
      exact (H5 t _ Hp).
    + rewrite lookup_alter_ne in Hn by done. destruct (Hlk x n Hne Hn) as (m & Hm & _ & ->). eauto.
  - intros E. specialize (H6 E). unfold without. pose proof (length_filter (fun y => y <> t) l). lia.
  - erewrite size_dom_eq; [exact H7|]. rewrite dom_alter_L. exact (relinked_dom _ _ _ R2).
  - intros x Hxr. destruct (H8 x Hxr) as [? Hs]. split; [rewrite without_elem_of; tauto|].
    apply elem_of_dom. rewrite dom_alter_L, (relinked_dom _ _ _ R2). by apply elem_of_dom.
Qed.

Lemma esq_head k l : ef_ok k l -> esq (ef k) = None <-> l = [].
Proof.
  intros Hok. pose proof (eo_queue _ _ Hok) as H. unfold waits in H. cbn in H.
  destruct l as [|x l]; [done|]. destruct H as [-> _]. done.
Qed.

(** A thread that is not satisfied goes to sleep. *)
Lemma e_sleep_ok k l t b m :
  ef_ok k l -> t ∈ erun k -> check_mode m = true -> args <$> eregs k !! t = Some (b, m) ->
  gpr3 <$> ethr k !! t = Some pending_code -> satisfied (pattern (ef k)) b m = false ->
  (ef_type (ef k) = SYS_SYNC_WAITER_SINGLE -> l = []) ->
  ef_ok (set_equeue (emplace (equeue (e_sleep t k)) t (etag (e_sleep t k))) (e_sleep t k)) (t :: l).
Proof.
  intros [H1 H2 H3 H4 H5 H6 H7 H8] Ht Hm Ha Hc Hu Hs. destruct (H8 t Ht) as [Hn [n Hth]].
  destruct (emplace_ok (equeue (e_sleep t k)) l t n (etag (e_sleep t k)) H1 Hn Hth) as (E1 & E2 & E3).
  assert (Hd : dom (threads (emplace (equeue (e_sleep t k)) t (etag (e_sleep t k)))) = dom (ethr k)).
  { apply emplace_dom. }
  assert (Hstamp : forall tag q, gpr3 (stamp tag (set_next q n)) = gpr3 n
                      /\ prio (stamp tag (set_next q n)) = prio n).
  { intros tag q. unfold stamp. by case_match. }
  split; cbn [ef ethr eregs erun set_equeue e_sleep ef_type pattern].
  - exact E1.
  - done.
  - intros x [->|Hx]%elem_of_cons; [|by apply H3].
    destruct (eregs k !! t) as [g|] eqn:Eg; [|done]. injection Ha as <- <-. by exists g.
  - intros x m' [->|Hx]%elem_of_cons Hm'.
    + rewrite E2 in Hm'. apply (inj Some) in Hm' as <-. left.
      rewrite (proj1 (Hstamp _ _)). rewrite Hth in Hc. by injection Hc.
    + rewrite E3 in Hm' by (by intros ->). eauto.
  - intros x m' Hm'. destruct (decide (x = t)) as [->|Hne].
    + rewrite E2 in Hm'. apply (inj Some) in Hm' as <-. rewrite (proj2 (Hstamp _ _)). eauto.
    + rewrite E3 in Hm' by done. eauto.
  - intros E. rewrite (Hs E). cbn. lia.
  - erewrite size_dom_eq; [exact H7|exact Hd].
  - intros x [Hx Hne]%elem_of_difference. destruct (H8 x Hx) as [? Hsx]. split; [set_solver|].
    apply elem_of_dom. rewrite Hd. by apply elem_of_dom.
Qed.

Lemma wait_locked_ok k l t b m :
  ef_ok k l -> eenabled (EfWaitLocked t b m) k ->
  exists l', ef_ok (fst (fst (ef_wait_locked t b m k))) l'.
Proof.
  intros Hok (Ht & Hm & Ha & Hc). destruct (eo_run _ _ Hok t Ht) as [Hn _].
  pose proof (take_pattern_ok k l t b m Hok Hn) as H1.
  unfold ef_wait_locked. destruct (take_pattern t b m k) as [k1 ok] eqn:E. cbn [fst] in H1.
  destruct ok; [by exists l|].
  destruct (ef_type (ef k1) =? SYS_SYNC_WAITER_SINGLE) eqn:Et; cbn [andb].
  - destruct (bool_decide_reflect (esq (ef k1) <> None)) as [Hq|Hq]; [by exists l|].
    exists (t :: l). cbn [fst]. unfold take_pattern in E.
    destruct (check_pattern (pattern (ef k)) b m) as [p ok] eqn:Ec. injection E as <- ->.
    pose proof (check_pattern_ok (pattern (ef k)) b m) as Hk. rewrite Ec in Hk. cbn in Hk.
    rewrite check_pattern_fail in Ec by done. injection Ec as <-.
    apply (e_sleep_ok _ _ _ b m); try done.
    + cbn. rewrite lookup_alter_eq. by destruct (eregs k !! t).
    + intros _. apply (esq_head _ _ H1). by destruct (esq _); [destruct Hq|].
  - exists (t :: l). cbn [fst]. unfold take_pattern in E.
    destruct (check_pattern (pattern (ef k)) b m) as [p ok] eqn:Ec. injection E as <- ->.
    pose proof (check_pattern_ok (pattern (ef k)) b m) as Hk. rewrite Ec in Hk. cbn in Hk.
    rewrite check_pattern_fail in Ec by done. injection Ec as <-.
    apply (e_sleep_ok _ _ _ b m); try done.
    + cbn. rewrite lookup_alter_eq. by destruct (eregs k !! t).
    + intros E. by rewrite E in Et.
Qed.

Lemma timed_out_ok k l t :
  ef_ok k l -> exists l', ef_ok (fst (fst (ef_timed_out t k))) l'.
Proof.
  intros Hok. unfold ef_timed_out.
  destruct (esq (ef k)); [|exists l; by destruct (ef_result t k)].
  destruct (unqueue_ok true (equeue k) l t (eo_queue _ _ Hok)) as [U1 U2].
  destruct (decide (t ∈ l)) as [Hin|Hin].
  - destruct (U2 Hin) as (q & -> & R). exists (without t l).
    destruct (ef_result _ _) as [r v]. cbn [fst].
    apply removed_flag_ok; try done. intros x Hx. by rewrite lookup_alter_ne.
  - rewrite U1 by done. exists l. by destruct (ef_result t k).
Qed.

(** Waking the drained threads of cancel. *)
Lemma cancel_all_frame ts p k :
  ef (cancel_all ts p k) = ef k /\ erun (cancel_all ts p k) = erun k
  /\ dom (ethr (cancel_all ts p k)) = dom (ethr k)
  /\ (forall x n, ethr (cancel_all ts p k) !! x = Some n ->
        exists m, ethr k !! x = Some m /\ prio n = prio m).
Proof.
  revert k; induction ts as [|t ts IH]; intros k; [by eauto 6|]. cbn [cancel_all].
  set (k1 := set_eregs _ _). destruct (IH k1) as (-> & -> & -> & I). subst k1. cbn in *.
  split; [done|]. split; [done|]. split; [apply dom_alter_L|].
  intros x n Hn. destruct (I x n Hn) as (m & Hm & ->). destruct (decide (x = t)) as [->|Hne].
  - rewrite lookup_alter_eq in Hm. destruct (ethr k !! t) as [o|]; [|done].
    injection Hm as <-. by exists o.
  - rewrite lookup_alter_ne in Hm by done. eauto.
Qed.

Lemma cancel_ok k l t :
  ef_ok k l -> exists l', ef_ok (fst (fst (fst (ef_cancel t k)))) l'.
Proof.
  intros Hok. unfold ef_cancel.
  destruct (any_waiting_ok is_again (equeue k) l (eo_queue _ _ Hok)) as (b & -> & Hb).
  destruct b; [exists l; by apply flags_ok|].
  destruct (drain_ok (equeue k) l (eo_queue _ _ Hok)) as (q & -> & W & R).
  { intros x m Hx Hm. destruct (again m) eqn:E; [|done].
    assert (false = true); [apply Hb; by exists x, m|done]. }
  exists []. cbn [fst]. destruct Hok as [H1 H2 H3 H4 H5 H6 H7 H8]. cbn in R.
  destruct (cancel_all_frame (rev l) (pattern (ef k)) (set_equeue q k)) as (F1 & F2 & F3 & F4).
  change (ethr (set_equeue q k)) with (threads q) in F3.
  split; unfold e_awake; cbn [ef ethr eregs erun]; rewrite ?F1, ?F2.
  - exact W.
  - done.
  - by intros x ?%not_elem_of_nil.
  - by intros x n ?%not_elem_of_nil.
  - intros x n Hn. destruct (F4 x n Hn) as (m & Hm & ->). cbn in Hm.
    destruct (relinked_lookup _ _ _ _ _ (relinked_sym _ _ _ R) Hm) as [p Hp]. exact (H5 x _ Hp).
  - cbn. lia.
  - erewrite size_dom_eq; [exact H7|]. rewrite F3. exact (relinked_dom _ _ _ R).
  - intros x Hx. split; [apply not_elem_of_nil|]. apply elem_of_dom. rewrite F3.
    rewrite (relinked_dom _ _ _ R), elem_of_dom. cbn in Hx.
    apply elem_of_union in Hx as [Hx|Hx]; [by apply H8|].
    apply elem_of_list_to_set, list_elem_of_In, in_rev, list_elem_of_In in Hx.
    exact (seg_dom _ _ _ _ H1 Hx).
Qed.

(** The state after a set: the waiters [l'] stay, others of [l] run. *)
Lemma after_set_ok k l k1 k' l' :
  ef_ok k l -> same_waiters k k1 l -> waits (equeue k') l' ->
  (forall x, x ∈ l' -> x ∈ l) -> (length l' <= length l)%nat ->
  relinked l (ethr k1) (ethr k') -> ef_type (ef k') = ef_type (ef k) -> eregs k' = eregs k1 ->
  urange 64 (pattern (ef k')) -> (forall t, t ∈ l' -> idle_at (eregs k) (pattern (ef k')) t) ->
  (forall t n, t ∈ l' -> ethr k1 !! t = Some n ->
     gpr3 n = pending_code \/ gpr3 n = error_value CELL_OK) ->
  (forall t, t ∈ erun k' -> t ∈ erun k \/ (t ∈ l /\ t ∉ l')) -> ef_ok k' l'.
Proof.
  intros [H1 H2 H3 H4 H5 H6 H7 H8] Hs Hw Hsub Hlen Hl Ht Hr Hp Hi Hc Hrun.
  assert (Hd : dom (ethr k') = dom (ethr k)).
  { rewrite (relinked_dom _ _ _ Hl). apply set_eq. intros t. rewrite !elem_of_dom.
    pose proof (sw_thr _ _ _ Hs t) as E.
    destruct (ethr k !! t), (ethr k1 !! t); try done; split; by intros [? ?]. }
  split; try done.
  - intros t Hin. rewrite Hr. eapply (same_idle k); [done|auto].
  - intros t n Hin Hn. destruct (relinked_lookup _ _ _ _ _ (relinked_sym _ _ _ Hl) Hn) as [p Hpn].
    destruct (Hc t _ Hin Hpn); auto.
  - intros t n Hn. destruct (relinked_lookup _ _ _ _ _ (relinked_sym _ _ _ Hl) Hn) as [p Hpn].
    destruct (same_lookup _ _ _ _ _ Hs Hpn) as (m & Hm & E). specialize (H5 t m Hm).
    assert (prio n = prio m) by (destruct n, m; unfold put_gpr3, set_next in E; cbn in *; congruence).
    lia.
  - rewrite Ht. intros E. specialize (H6 E). lia.
  - erewrite size_dom_eq; [exact H7|exact Hd].
  - intros t Hin. rewrite <- elem_of_dom, Hd, elem_of_dom. destruct (Hrun t Hin) as [Hk|[Hk Hk']].
    + destruct (H8 t Hk) as [? ?]. split; [auto|done].
    + split; [done|]. exact (seg_dom _ _ _ _ H1 Hk).
Qed.

Lemma serve_seq_sub r o w : bits_in (snd (serve_seq r o w)) w.
Proof.
  revert w; induction o as [|t o IH]; intros w; [done|]. cbn [serve_seq].
  destruct (r !! t) as [g|]; [|done]. case_match; [|apply IH].
  specialize (IH (cleared (g4 g) (g5 g) w)). destruct (serve_seq r o _) as [ws w'].
  cbn in *. etransitivity; [exact IH|apply cleared_sub].
Qed.

Lemma serve_seq_line k l w t :
  waiters_ok k l -> t ∈ fst (serve_seq (eregs k) (line k l) w) -> t ∈ l.
Proof.
  intros Hok. rewrite <- (line_elem k l t Hok). revert w. generalize (line k l). intros o.
  induction o as [|x o IH]; intros w; [done|]. cbn [serve_seq].
  destruct (eregs k !! x) as [g|]; [|by intros ?%not_elem_of_nil]. case_match.
  - specialize (IH (cleared (g4 g) (g5 g) w)). destruct (serve_seq _ o _) as [ws w'].
    cbn in *. rewrite !elem_of_cons. tauto.
  - rewrite elem_of_cons. intros Hin. right. by eapply IH.
Qed.

(** The end of the critical section of set, once a round has committed. *)
Lemma set_finish k l t b xs k1 p (ws : list tid) :
  ef_ok k l -> no_again (ethr k) l ->
  set_loop b (pattern (ef k)) xs k = Some (k1, p, Z.of_nat (length ws)) ->
  same_waiters k k1 l -> urange 64 p -> (forall y, y ∈ ws -> y ∈ l) ->
  (forall y n, y ∈ l -> ethr k1 !! y = Some n ->
     (gpr3 n = pending_code \/ gpr3 n = error_value CELL_OK)
     /\ (y ∈ ws -> gpr3 n = error_value CELL_OK) /\ (y ∉ ws -> idle_at (eregs k) p y)) ->
  exists k', let aw := if decide (ws = []) then []
                       else filter (fun y => code_ok (ethr k1) y = true) l in
    ef_set_locked t b xs k = (k', Returned CELL_OK, aw) /\ pattern (ef k') = p
    /\ relinked l (ethr k1) (ethr k') /\ list_to_set aw ⊆ erun k'
    /\ ef_ok k' (filter (fun y => y ∉ aw) l).
Proof.
  intros Hok Ha E Hsame Hrange Hsub Hcodes. pose proof (ef_waiters_ok k l Hok) as Hw.
  unfold ef_set_locked.
  destruct (any_waiting_ok is_again (equeue k) l (eo_queue _ _ Hok)) as (a & -> & Hb').
  destruct a.
  { destruct (proj1 Hb' eq_refl) as (x & n & Hx & Hn & Eg). unfold is_again in Eg.
    by rewrite (Ha x n Hx Hn) in Eg. }
  rewrite E.
  assert (Hdom : forall y, y ∈ l -> exists n, ethr k1 !! y = Some n).
  { intros y Hy. destruct (seg_dom _ _ _ _ (wo_queue _ _ (sw_ok _ _ _ Hsame)) Hy) as [n Hn]. eauto. }
  destruct (decide (ws = [])) as [->|Hws]; cbn [length Z.of_nat].
  - exists (set_pattern p k1). split; [done|]. split; [done|]. split; [done|]. split; [done|].
    rewrite (filter_ext_in _ (fun _ => True)) by (split; [done|intros _; apply not_elem_of_nil]).
    replace (filter (fun _ => True) l) with l.
    2: { clear. induction l as [|y l IH]; [done|]. rewrite filter_cons_True by done. by f_equal. }
    eapply (after_set_ok k l k1); try done.
    + exact (wo_queue _ _ (sw_ok _ _ _ Hsame)).
    + cbn. by rewrite (sw_ef _ _ _ Hsame).
    + intros y Hy. destruct (Hdom y Hy) as [n Hn]. destruct (Hcodes y n Hy Hn) as (_ & _ & C).
      apply C, not_elem_of_nil.
    + intros y n Hy Hn. by destruct (Hcodes y n Hy Hn).
    + cbn. rewrite (sw_run _ _ _ Hsame). auto.
  - destruct (Z.eqb_spec (Z.of_nat (length ws)) 0) as [Ec|Ec].
    { destruct ws; [done|]. cbn in Ec. lia. }
    destruct (remove_loop_ok (S (size (ethr (set_pattern p k1)))) (equeue (set_pattern p k1)) [] l [])
      as (q & Eq & W & R).
    { exact (wo_queue _ _ (sw_ok _ _ _ Hsame)). }
    { pose proof (seg_length _ _ _ (wo_queue _ _ (sw_ok _ _ _ Hsame))). cbn in *. lia. }
    change (slot_before []) with s_first in Eq. rewrite Eq. cbn [app] in *.
    change (threads (equeue (set_pattern p k1))) with (ethr k1) in *.
    set (aw := filter (fun y => code_ok (ethr k1) y = true) l) in *.
    assert (Hstay : filter (fun y => y ∉ aw) l = filter (fun y => code_ok (ethr k1) y = false) l).
    { apply filter_ext_in. intros y Hy. unfold aw.
      rewrite list_elem_of_filter. destruct (code_ok (ethr k1) y); split; naive_solver. }
    eexists. split; [reflexivity|]. split; [done|]. split; [exact R|]. split; [cbn; set_solver|].
    rewrite Hstay. eapply (after_set_ok k l k1); try done.
    + intros y. rewrite list_elem_of_filter. tauto.
    + apply length_filter.
    + cbn. by rewrite (sw_ef _ _ _ Hsame).
    + intros y [C Hyl]%list_elem_of_filter. destruct (Hdom y Hyl) as [n Hn].
      destruct (Hcodes y n Hyl Hn) as (_ & C1 & C2). apply C2. intros Hy.
      unfold code_ok in C. rewrite Hn, (C1 Hy) in C. done.
    + intros y n [_ Hyl]%list_elem_of_filter Hn. by destruct (Hcodes y n Hyl Hn).
    + cbn. rewrite (sw_run _ _ _ Hsame). intros y [Hy|Hy]%elem_of_union; [by left|right].
      apply elem_of_list_to_set, list_elem_of_filter in Hy as [C Hyl]. split; [done|].
      rewrite list_elem_of_filter. intros [C' _]. congruence.
Qed.

Lemma committed_range b p x k l :
  urange 64 p -> urange 64 b -> bits_in x p ->
  urange 64 (snd (serve_seq (eregs k) (line k l) (Z.lor x b))).
Proof.
  intros Hp Hb Hx. eapply bits_in_urange; [lia| |apply serve_seq_sub].
  apply lor_urange; [lia| |done]. by eapply bits_in_urange; [lia| |exact Hx].
Qed.

Definition all_pending (k : estate) (l : list tid) : Prop :=
  forall t n, t ∈ l -> ethr k !! t = Some n -> gpr3 n = pending_code.

Lemma set_locked_ext t b xs ys k :
  set_loop b (pattern (ef k)) xs k = set_loop b (pattern (ef k)) ys k ->
  ef_set_locked t b xs k = ef_set_locked t b ys k.
Proof. intros E. unfold ef_set_locked. by rewrite E. Qed.

(** What the critical section does when it commits on the pattern [x]: all
    that serving the waiters in line on [x] wakes is woken; and nothing else
    when a bit is left, or in the first round [i] = 0 from waiters whose gpr[3]
    is -1. *)
Definition set_done (k : estate) (l : list tid) (b x : Z) (i : nat) (k' : estate) (aw : list tid) : Prop :=
  let '(ws, p) := serve_seq (eregs k) (line k l) (Z.lor x b) in
  pattern (ef k') = p /\ (forall y, y ∈ ws -> y ∈ aw) /\ (forall y, y ∈ aw -> y ∈ l)
  /\ list_to_set aw ⊆ erun k' /\ ef_ok k' (filter (fun y => y ∉ aw) l)
  /\ (forall y, y ∈ aw -> code_ok (ethr k') y = true)
  /\ (p <> 0 \/ i = O /\ all_pending k l ->
      aw = filter (fun y => y ∈ ws) l /\ all_pending k' (filter (fun y => y ∉ ws) l)).

(** The critical section of set, whatever the operations without the mutex
    do. *)
Lemma ef_set_ok k l t b xs :
  ef_ok k l -> urange 64 b -> shrinks (pattern (ef k)) xs -> (64 < length xs)%nat ->
  no_again (ethr k) l ->
  exists k' aw i x, xs !! i = Some x /\ (i + bitcount x <= bitcount (pattern (ef k)))%nat
    /\ bits_in x (pattern (ef k))
    /\ (forall ys, take (S i) ys = take (S i) xs -> ef_set_locked t b ys k = (k', Returned CELL_OK, aw))
    /\ set_done k l b x i k' aw.
Proof.
  intros Hok Hb Hs Hlen Ha. pose proof (ef_waiters_ok k l Hok) as Hw.
  destruct (set_loop_total b (pattern (ef k)) xs k l Hw (eo_pat _ _ Hok) Hs) as [[[k1 p] c] E].
  { pose proof (length_filter (fun i : nat => Z.testbit (pattern (ef k)) (Z.of_nat i) = true) (seq 0 64))
      as Hc. rewrite length_seq in Hc. unfold bitcount. lia. }
  destruct (set_loop_ok b (pattern (ef k)) xs k l k1 p c Hw (eo_idle _ _ Hok) (eo_size _ _ Hok) (eo_pat _ _ Hok) Hs
    (eo_code _ _ Hok) E) as (i & x & Hi & Hcn & Hys & Hx & Hsame & Hp & Hcnt & Hcodes).
  assert (Hr : urange 64 p) by (rewrite Hp; eapply committed_range; [apply Hok|done|done]).
  pose proof (fun y => serve_seq_line k l (Z.lor x b) y Hw) as Hline.
  rewrite Hcnt in E. destruct (serve_seq (eregs k) (line k l) (Z.lor x b)) as [ws p1] eqn:Es.
  cbn [fst snd] in *. subst p1.
  assert (Hdom : forall y, y ∈ l -> exists n, ethr k1 !! y = Some n).
  { intros y Hy. destruct (seg_dom _ _ _ _ (wo_queue _ _ (sw_ok _ _ _ Hsame)) Hy) as [n Hn]. eauto. }
  destruct (set_finish k l t b xs k1 p ws Hok Ha E Hsame Hr Hline) as (k' & Ek & Hpk & Hl & Hrun & Hok').
  { intros y n Hy Hn. destruct (Hcodes y n Hy Hn) as (C1 & C2 & C3 & _). done. }
  cbv zeta in Ek, Hrun, Hok'.
  set (aw := if decide (ws = []) then [] else filter (fun y => code_ok (ethr k1) y = true) l) in *.
  assert (Haw : forall y, y ∈ aw -> y ∈ l /\ code_ok (ethr k1) y = true).
  { intros y Hy. unfold aw in Hy. destruct (decide (ws = [])); [by apply not_elem_of_nil in Hy|].
    apply list_elem_of_filter in Hy. tauto. }
  assert (Hin : forall y, y ∈ ws -> y ∈ aw).
  { intros y Hy. unfold aw. destruct (decide (ws = [])) as [En|_]; [rewrite En in Hy; by apply not_elem_of_nil in Hy|].
    apply list_elem_of_filter. split; [|by apply Hline]. destruct (Hdom y (Hline y Hy)) as [n Hn].
    destruct (Hcodes y n (Hline y Hy) Hn) as (_ & C & _). unfold code_ok. by rewrite Hn, (C Hy). }
  exists k', aw, i, x. split; [done|]. split; [done|]. split; [done|]. split.
  { intros ys Hy. rewrite <- Ek. apply set_locked_ext. rewrite Hys, (Hys xs) by done. done. }
  unfold set_done. rewrite Es. split; [done|]. split; [done|]. split; [by intros y [? _]%Haw|]. split; [done|]. split; [done|]. split.
  { intros y Hy. rewrite (code_ok_relinked _ _ _ y Hl). by apply Haw. }
  intros Hex.
  assert (Hcode : forall y n, y ∈ l -> ethr k1 !! y = Some n -> y ∉ ws -> gpr3 n = pending_code).
  { intros y n Hy Hn Hyw. destruct (Hcodes y n Hy Hn) as (_ & _ & _ & C). apply C; [done|].
    destruct Hex as [?|[? Hpend]]; [by left|]. right. split; [done|]. intros m Hm. by apply (Hpend y). }
  split.
  - unfold aw. destruct (decide (ws = [])) as [->|_].
    + clear. induction l as [|y l IH]; [done|]. by rewrite filter_cons_False by apply not_elem_of_nil.
    + apply filter_ext_in. intros y Hy. destruct (Hdom y Hy) as [n Hn]. unfold code_ok. rewrite Hn.
      destruct (decide (y ∈ ws)) as [Hyw|Hyw].
      * destruct (Hcodes y n Hy Hn) as (_ & C1 & _). by rewrite (C1 Hyw).
      * by rewrite (Hcode y n Hy Hn Hyw).
  - intros y n [Hyw Hy]%list_elem_of_filter Hn.
    destruct (relinked_lookup _ _ _ _ _ (relinked_sym _ _ _ Hl) Hn) as [q Hq].
    exact (Hcode y _ Hy Hq Hyw).
Qed.

Lemma eexec_ok e k l :
  ef_ok k l -> eenabled e k -> exists l', ef_ok (fst (eexec e k)) l'.
Proof.
  intros Hok He. destruct e as [t b m|t b m|t|t|t|t b m|t b xs|t b|t]; cbn [eexec eenabled] in *.
  - exists l. by apply wait_try_ok.
  - by apply wait_locked_ok with (l := l).
  - exists l. unfold ef_signaled. destruct (ef_result _ _). by apply flags_ok.
  - exists l. unfold ef_stopped. destruct (any_waiting _ _) as [[]|]; [by apply flags_ok| |done].
    by destruct (ef_result _ _).
  - by apply timed_out_ok with (l := l).
  - exists l. unfold ef_trywait. destruct (check_mode m); [|done]. cbn [negb].
    pose proof (check_pattern_sub (pattern (ef k)) b m) as Hs.
    destruct (check_pattern _ _ _) as [p []]; by apply shrink_ok.
  - destruct He as (_ & Hb & Hs & Hlen).
    destruct (any_waiting_ok is_again (equeue k) l (eo_queue _ _ Hok)) as (a & E & Ha). destruct a.
    + exists l. unfold ef_set_locked. rewrite E. by apply flags_ok.
    + destruct (ef_set_ok k l t b xs Hok Hb Hs Hlen) as (k' & aw & i & x & _ & _ & _ & Ek & Hd).
      { intros x m Hx Hm. destruct (again m) eqn:Eg; [|done].
        assert (false = true); [apply Ha; by exists x, m|done]. }
      rewrite Ek by done. unfold set_done in Hd. destruct (serve_seq _ _ _). eexists. apply Hd.
  - exists l. by apply shrink_ok, bits_in_land.
  - pose proof (cancel_ok k l t Hok) as H. by destruct (ef_cancel t k) as [[[k' r] aw] num].
Qed.

Inductive ereach (k0 : estate) : estate -> Prop :=
| ereach_init : ereach k0 k0
| ereach_step k e : ereach k0 k -> eenabled e k -> ereach k0 (fst (eexec e k)).

(** ** Properties *)

(** C26: no wake-up is lost.  In every state reachable from an event flag
    without waiters by any interleaving of the regions - waits, timeouts, sets
    whose rounds race with the operations that do not take the mutex, clears
    and cancels - the sleep queue is well formed, no thread sleeps in it whose
    bits and mode the pattern satisfies, and a SYS_SYNC_WAITER_SINGLE flag has
    at most one sleeping thread. *)
Theorem ef_no_lost_wakeup (k0 k : estate) :
  ef_ok k0 [] -> ereach k0 k ->
  exists l, waits (equeue k) l
    /\ (forall t, t ∈ l -> exists g, eregs k !! t = Some g
          /\ satisfied (pattern (ef k)) (g4 g) (g5 g) = false)
    /\ (ef_type (ef k) = SYS_SYNC_WAITER_SINGLE -> (length l <= 1)%nat).
Proof.
  intros H0 Hr. assert (H : exists l, ef_ok k l).
  { induction Hr as [|k e Hr [l Hl] He]; [eauto|]. by eapply eexec_ok. }
  destruct H as [l Hok]. exists l. split; [apply Hok|]. split; [|apply Hok].
  intros t Ht. destruct (eo_idle _ _ Hok t Ht) as (g & Hg & _ & Hu). eauto.
Qed.

(** Thread 1 waits for bits 0 and 1 and clears them, thread 2 for bit 0 and
    clears the pattern, thread 3 for bit 2; bit 1 is set; thread 4 runs. *)
Definition sample_ef : estate :=
  mk_estate (mk_eflag SYS_SYNC_FIFO 0 SYS_SYNC_WAITER_MULTIPLE 0 0x2 (Some 3%positive))
    (<[4%positive := sample_thread 0x1000003 None 900 4]>
     (<[3%positive := mk_thread 0x1000002 (Some 2%positive) 1000 3 false 0 pending_code]>
      (<[2%positive := mk_thread 0x1000001 (Some 1%positive) 500 2 false 0 pending_code]>
       {[1%positive := mk_thread 0x1000000 None 1000 1 false 0 pending_code]})))
    (<[3%positive := mk_regs 0x4 0x01 0 0]>
     (<[2%positive := mk_regs 0x1 0x21 0 0]> {[1%positive := mk_regs 0x3 0x11 0 0]}))
    4 {[4%positive]}.

Lemma sample_ef_ok : ef_ok sample_ef [3; 2; 1]%positive /\ all_pending sample_ef [3; 2; 1]%positive
  /\ no_again (ethr sample_ef) [3; 2; 1]%positive.
Proof.
  assert (Hl : forall t n, t ∈ [3; 2; 1]%positive -> ethr sample_ef !! t = Some n ->
            gpr3 n = pending_code /\ again n = false).
  { intros t n Ht Hn. set_unfold in Ht. destruct_or! Ht; subst t; vm_compute in Hn;
      injection Hn as <-; done. }
  split; [|split; [by intros t n Ht Hn; destruct (Hl t n Ht Hn)..]]. split; try done.
  - repeat (split; [done|]; eexists; split; [done|]). done.
  - intros t Ht. set_unfold in Ht. destruct_or! Ht; subst t; eexists; (split; [reflexivity|done]).
  - intros t n Ht Hn. left. by destruct (Hl t n Ht Hn).
  - intros t n Hn. cbn in Hn. rewrite !lookup_insert_Some, lookup_singleton_Some in Hn.
    assert (Hp : prio n = 900 \/ prio n = 1000 \/ prio n = 500) by naive_solver.
    unfold smax32. lia.
  - intros t Ht. assert (t = 4%positive) as -> by set_solver. split; [set_solver|]. by eexists.
Qed.

Lemma ef_no_lost_wakeup_witness :
  exists k0 k, ef_ok k0 [] /\ ereach k0 k /\ esq (ef k) = Some 4%positive
    /\ exists l, waits (equeue k) l
    /\ (forall t, t ∈ l -> exists g, eregs k !! t = Some g
          /\ satisfied (pattern (ef k)) (g4 g) (g5 g) = false)
    /\ (ef_type (ef k) = SYS_SYNC_WAITER_SINGLE -> (length l <= 1)%nat).
Proof.
  set (k0 := mk_estate (mk_eflag SYS_SYNC_FIFO 0 SYS_SYNC_WAITER_SINGLE 0 0x2 None)
    {[4%positive := sample_thread 0x1000003 None 900 4]} ∅ 4 {[4%positive]}).
  assert (H0 : ef_ok k0 []).
  { split; try done.
    - by intros t ?%not_elem_of_nil.
    - by intros t n ?%not_elem_of_nil.
    - intros t n Hn. cbn in Hn. apply lookup_singleton_Some in Hn as [_ <-]. unfold smax32. cbn. lia.
    - cbn. lia.
    - intros t Ht. assert (t = 4%positive) as -> by set_solver.
      split; [apply not_elem_of_nil|]. by eexists. }
  set (k1 := fst (eexec (EfWaitTry 4 0x1 0x01) k0)).
  set (k2 := fst (eexec (EfWaitLocked 4 0x1 0x01) k1)).
  assert (R : ereach k0 k2).
  { apply (ereach_step k0 k1 (EfWaitLocked 4 0x1 0x01)).
    - apply (ereach_step k0 k0 (EfWaitTry 4 0x1 0x01)); [apply ereach_init|]. vm_compute. done.
    - split; [vm_compute; done|]. split; [done|]. split; vm_compute; done. }
  exists k0, k2. split; [exact H0|]. split; [exact R|]. split; [vm_compute; done|].
  exact (ef_no_lost_wakeup k0 k2 H0 R).
Defined.

(** C3: sys_event_flag_set is linearizable in the pattern and the threads it
    serves.  Whatever the operations without the mutex do, one of its rounds,
    number [i], commits on the pattern [x] it finds there, and the new pattern
    is that of serving the waiters one after the other on [x] with the new bits:
    in queue order (under SYS_SYNC_PRIORITY by priority) each waiter that is
    satisfied takes its bits.  Every waiter so served is woken with CELL_OK,
    leaves the queue and runs, and nobody whose bits are there stays asleep.
    When a bit of the pattern is left, or when the first round commits and the
    waiters' gpr[3] was -1, exactly the waiters served are woken and the others
    stay with gpr[3] = -1.  In the remaining case, a repeated round that clears
    the whole pattern, a waiter with the result of an earlier round can be woken
    as well ([ef_set_stale_wakeup]). *)
Theorem ef_set_linearizable (k : estate) (l : list tid) (t : tid) (b : Z) (xs : list Z) :
  ef_ok k l -> no_again (ethr k) l -> urange 64 b ->
  shrinks (pattern (ef k)) xs -> (64 < length xs)%nat ->
  (exists k' aw i x, ef_set_locked t b xs k = (k', Returned CELL_OK, aw)
     /\ xs !! i = Some x /\ bits_in x (pattern (ef k)) /\ set_done k l b x i k' aw)
  /\ line k l ≡ₚ l /\ (ef_protocol (ef k) <> SYS_SYNC_PRIORITY -> line k l = rev l).
Proof.
  intros Hok Ha Hb Hs Hlen. pose proof (ef_waiters_ok k l Hok) as Hw.
  pose proof (seg_NoDup _ _ _ (eo_queue _ _ Hok)) as Hnd. split; [|split].
  - destruct (ef_set_ok k l t b xs Hok Hb Hs Hlen Ha) as (k' & aw & i & x & H1 & _ & H2 & H3 & H4).
    exists k', aw, i, x. split; [by apply H3|]. done.
  - apply ef_order_perm; [done|apply Hw].
  - intros Hp. apply ef_order_fifo; [done|done|apply Hw].
Qed.

(** Thread 4 sets bits 0 and 2 while nothing else happens: 1 and 3 are served in
    the first round. *)
Lemma ef_set_linearizable_witness :
  exists k' aw i x, ef_set_locked 4 0x5 (replicate 65 0x2) sample_ef = (k', Returned CELL_OK, aw)
    /\ replicate 65 0x2 !! i = Some x /\ bits_in x 0x2
    /\ set_done sample_ef [3; 2; 1]%positive 0x5 x i k' aw.
Proof.
  destruct sample_ef_ok as (Hok & _ & Ha).
  assert (Hs : shrinks (pattern (ef sample_ef)) (replicate 65 0x2)) by (cbn; done).
  exact (proj1 (ef_set_linearizable sample_ef [3; 2; 1]%positive 4 0x5 (replicate 65 0x2) Hok Ha
    ltac:(unfold urange; lia) Hs ltac:(rewrite length_replicate; lia))).
Defined.

(** C40: sys_event_flag_set terminates.  The outer loop goes round again only
    when an operation without the mutex has removed a bit the round depends on:
    the number [i] of failed rounds is at most the number of bits that the
    pattern lost since the first one, so at most 64.  The result is decided by
    the patterns the first [i + 1] rounds find, whatever comes after them, and
    it is CELL_OK. *)
Theorem ef_set_terminates (k : estate) (l : list tid) (t : tid) (b : Z) (xs : list Z) :
  ef_ok k l -> urange 64 b -> no_again (ethr k) l ->
  shrinks (pattern (ef k)) xs -> (64 < length xs)%nat ->
  exists k' aw i x, xs !! i = Some x
    /\ (i <= bitcount (pattern (ef k)) - bitcount x)%nat /\ (i <= 64)%nat
    /\ forall ys, take (S i) ys = take (S i) xs -> ef_set_locked t b ys k = (k', Returned CELL_OK, aw).
Proof.
  intros Hok Hb Ha Hs Hlen.
  destruct (ef_set_ok k l t b xs Hok Hb Hs Hlen Ha) as (k' & aw & i & x & H1 & H2 & _ & H3 & _).
  exists k', aw, i, x. split; [done|]. split; [lia|]. split; [|done].
  pose proof (length_filter (fun i : nat => Z.testbit (pattern (ef k)) (Z.of_nat i) = true) (seq 0 64)) as Hc.
  rewrite length_seq in Hc. unfold bitcount in *. lia.
Qed.

Lemma ef_set_terminates_witness :
  exists k' aw i x, replicate 65 0x2 !! i = Some x /\ (i <= 1 - bitcount x)%nat /\ (i <= 64)%nat
    /\ forall ys, take (S i) ys = take (S i) (replicate 65 0x2) ->
         ef_set_locked 4 0x5 ys sample_ef = (k', Returned CELL_OK, aw).
Proof.
  destruct sample_ef_ok as (Hok & _ & Ha).
  assert (Hs : shrinks (pattern (ef sample_ef)) (replicate 65 0x2)) by (cbn; done).
  exact (ef_set_terminates sample_ef [3; 2; 1]%positive 4 0x5 (replicate 65 0x2) Hok
    ltac:(unfold urange; lia) Ha Hs ltac:(rewrite length_replicate; lia)).
Defined.

(** A repeated round leaves stale results.  Thread 4 sets bits 0 and 2
    while bit 1 is set.  The first round serves thread 1 (bits 0 and 1) and
    then thread 3 (bit 2) and puts CELL_OK in their gpr[3]; meanwhile another
    thread clears bit 1, so the commit fails.  The second round serves thread
    2, which clears the pattern, and stops; thread 3 is not looked at again,
    but its gpr[3] is still CELL_OK, so it is woken too, and its
    sys_event_flag_wait returns CELL_OK although serving the waiters in line
    wakes thread 2 only. *)
Lemma ef_set_stale_wakeup :
  ef_ok sample_ef [3; 2; 1]%positive /\ shrinks (pattern (ef sample_ef)) [0; 0]
  /\ serve_seq (eregs sample_ef) (line sample_ef [3; 2; 1]%positive) (Z.lor 0 0x5) = ([2]%positive, 0)
  /\ exists k', ef_set_locked 4 0x5 [0; 0] sample_ef = (k', Returned CELL_OK, [3; 2]%positive)
     /\ pattern (ef k') = 0 /\ ef_result 3 k' = (Returned CELL_OK, 0x4).
Proof.
  split; [apply sample_ef_ok|]. split.
  { split; [apply bits_in_0|]. split; [apply bits_in_0|done]. }
  split; [vm_compute; reflexivity|]. eexists. split; [vm_compute; reflexivity|].
  split; vm_compute; reflexivity.
Qed.
