(* ===== verification/Lv2Cond.v ===== *)
(** * LV2 condition variables

    kernel/cellos/src/sys_cond.cpp.  A condition variable belongs to a mutex:
    sys_cond_wait puts the calling thread into the queue of the condition
    variable and passes the mutex on; the signals move threads from that queue
    to the mutex, which a thread either gets at once or is queued for; a thread
    returns from sys_cond_wait as the owner, with the recursion count it had.
    The mutex is used through the interface [CondMutex], whose laws the mutexes
    of Lv2Mutex satisfy; both objects link the same threads.  Each definition
    is one critical section of the mutex's lock; resuming a savestate is not
    modelled. *)

From stdpp Require Import base numbers list gmap tactics.
From Stdlib Require Import Lia.
From S2P Require Import Prelude Lv2Obj Lv2Mutex.

Open Scope Z_scope.

(** ** What a condition variable uses of its mutex *)

Class CondMutex (M : Type) := {
  cm_threads : M -> store;
  cm_tag : M -> Z;
  cm_put : store -> Z -> M -> M;
  cm_owner : M -> Z;
  cm_count : M -> Z;
  cm_set_count : Z -> M -> M;
  cm_protocol : M -> Z;
  cm_queue : M -> queue;
  cm_try_own : Z -> tid -> Z -> M -> M * bool;
  cm_reown : M -> run (M * ptr);
  cm_exec : mevent -> M -> M * reply * ptr;
  cm_recursive : M -> Z;
  cm_ok : M -> list tid -> Prop
}.

(** The lock the mutex implements. *)
Definition cm_abs {M : Type} `{CondMutex M} (m : M) (l : list tid) : alock :=
  if cm_owner m =? 0 then AFree else AHeld (cm_owner m) (cm_count m) l.

(** The promises: the mutex is independent of the threads it does not queue,
    try_own gives a free mutex to the thread and queues it otherwise, reown
    passes the mutex to the waiter that the protocol selects or frees it, and
    the regions of the mutex syscalls implement the abstract lock. *)
Class CondMutexLaws (M : Type) `{CondMutex M} := {
  law_waits : forall m l, cm_ok m l -> waits (cm_queue m) l /\ threads (cm_queue m) = cm_threads m;
  law_ids : forall m l t n, cm_ok m l -> cm_threads m !! t = Some n -> th_id n <> 0;
  law_inj : forall m l t t', cm_ok m l -> is_Some (cm_threads m !! t) ->
    is_Some (cm_threads m !! t') -> id_of (cm_threads m) t = id_of (cm_threads m) t' -> t = t';
  law_self : forall m l t, cm_ok m l -> t ∈ l -> id_of (cm_threads m) t <> cm_owner m;
  law_free : forall m l, cm_ok m l -> cm_owner m = 0 -> l = [] /\ cm_count m = 0;
  law_range : forall m l, cm_ok m l -> 0 <= cm_count m < 2 ^ 32;
  law_put : forall m l h tag, cm_ok m l -> same_ids (cm_threads m) h ->
    seg h (first (cm_queue m)) l -> cm_ok (cm_put h tag m) l;
  law_put_fields : forall m h tag, cm_threads (cm_put h tag m) = h /\ cm_tag (cm_put h tag m) = tag
    /\ cm_owner (cm_put h tag m) = cm_owner m /\ cm_count (cm_put h tag m) = cm_count m
    /\ cm_protocol (cm_put h tag m) = cm_protocol m
    /\ first (cm_queue (cm_put h tag m)) = first (cm_queue m);
  law_set_count : forall m l c, cm_ok m l -> cm_owner m <> 0 -> 0 <= c < 2 ^ 32 ->
    cm_ok (cm_set_count c m) l;
  law_set_fields : forall m c, cm_threads (cm_set_count c m) = cm_threads m
    /\ cm_owner (cm_set_count c m) = cm_owner m /\ cm_count (cm_set_count c m) = c
    /\ cm_protocol (cm_set_count c m) = cm_protocol m;
  law_try_own : forall m l r t, cm_ok m l -> t ∉ l -> is_Some (cm_threads m !! t) ->
    id_of (cm_threads m) t <> cm_owner m ->
    let '(m', got) := cm_try_own r t (id_of (cm_threads m) t) m in
    same_ids (cm_threads m) (cm_threads m')
    /\ (forall x, x <> t -> cm_threads m' !! x = cm_threads m !! x)
    /\ gpr3 <$> cm_threads m' !! t = gpr3 <$> cm_threads m !! t
    /\ cm_count m' = cm_count m /\ cm_protocol m' = cm_protocol m
    /\ if cm_owner m =? 0
       then got = true /\ cm_owner m' = id_of (cm_threads m) t /\ cm_ok m' []
       else got = false /\ cm_owner m' = cm_owner m /\ cm_ok m' (t :: l);
  law_reown : forall m l, cm_ok m l -> cm_owner m <> 0 -> cm_count m = 0 ->
    (l = [] -> exists m', cm_reown m = Some (m', None) /\ cm_owner m' = 0
       /\ cm_threads m' = cm_threads m /\ cm_ok m' [] /\ cm_protocol m' = cm_protocol m)
    /\ (l <> [] -> exists x n m', cm_reown m = Some (m', Some x)
       /\ selects (cm_threads m) (cm_protocol m) l x /\ cm_threads m !! x = Some n
       /\ (again n = true -> m' = m)
       /\ (again n = false -> cm_owner m' = th_id n /\ cm_ok m' (without x l)
             /\ relinked l (cm_threads m) (cm_threads m') /\ cm_count m' = 0
             /\ cm_protocol m' = cm_protocol m
             /\ exists n', cm_threads m' !! x = Some n' /\ again n' = false));
  law_exec : forall m l e, cm_ok m l -> is_Some (cm_threads m !! event_thread e) ->
    match e with
    | LockTry t _ | TryLock t _ | Unlock t _ => t ∉ l
    | LockOwn t _ => (t ∉ l) /\ cm_owner m <> id_of (cm_threads m) t
    | _ => True
    end ->
    let '(m', r, aw) := cm_exec e m in
    exists l', cm_ok m' l' /\ same_ids (cm_threads m) (cm_threads m')
      /\ (forall x, x ∉ l -> x <> event_thread e -> cm_threads m' !! x = cm_threads m !! x)
      /\ astep (cm_threads m) (cm_protocol m) (cm_recursive m) e (cm_abs m l) r aw (cm_abs m' l')
}.

(** ** State *)

Section Cond.

Context {M : Type} `{CondMutexLaws M}.

(** lv2_cond with its mutex; [csaved] holds the recursion count that a thread
    inside sys_cond_wait keeps in cond.ret, [crun] the threads the scheduler
    may run. *)
Record cstate := mk_cstate {
  cmx : M;
  csq : ptr;
  csaved : gmap tid Z;
  crun : gset tid
}.

Implicit Types (k : cstate) (m : M).

Definition cqueue k : queue := mk_queue (csq k) (cm_threads (cmx k)).

Definition set_cmx m k : cstate := mk_cstate m (csq k) (csaved k) (crun k).

Definition set_cqueue (q : queue) k : cstate :=
  mk_cstate (cm_put (threads q) (cm_tag (cmx k)) (cmx k)) (first q) (csaved k) (crun k).

Definition c_thread (f : ppu_thread -> ppu_thread) (t : tid) k : cstate :=
  set_cmx (cm_put (alter f t (cm_threads (cmx k))) (cm_tag (cmx k)) (cmx k)) k.

Definition set_csaved (s : gmap tid Z) k : cstate := mk_cstate (cmx k) (csq k) s (crun k).

Definition set_crun (r : gset tid) k : cstate := mk_cstate (cmx k) (csq k) (csaved k) r.

Definition cid (t : tid) k : Z := id_of (cm_threads (cmx k)) t.

Definition c_suspended (t : tid) k : bool :=
  match cm_threads (cmx k) !! t with
  | Some n => has_flag cf_suspend (th_state n)
  | None => false
  end.

(** try_own for a thread taken from the queue, and awake when it got the
    mutex. *)
Definition hand_over (retries : Z) (x : tid) k : cstate * list tid :=
  match cm_try_own retries x (cid x k) (cmx k) with
  | (m, true) => (set_crun (crun k ∪ {[x]}) (set_cmx m k), [x])
  | (m, false) => (set_cmx m k, [])
  end.

(** ** sys_cond_signal *)
Definition cond_signal (retries : Z) (t : tid) k : cstate * reply * list tid :=
  if c_suspended t k then (k, Retry, [])
  else
    match csq k with
    | None => (k, Returned CELL_OK, [])
    | Some _ =>
        match schedule (cqueue k) (cm_protocol (cmx k)) true with
        | None => (k, Fatal, [])
        | Some (None, _) => (k, Returned CELL_OK, [])
        | Some (Some x, q) =>
            match threads q !! x with
            | None => (k, Fatal, [])
            | Some n =>
                if again n then (c_thread (set_state (add_flag cf_again)) t k, Again, [])
                else let '(k1, l) := hand_over retries x (set_cqueue q k) in
                     (k1, Returned CELL_OK, l)
            end
        end
    end.

(** ** sys_cond_signal_all *)

(** while (cpu = schedule(sq, SYS_SYNC_PRIORITY)) if (try_own( *cpu))
    ensure(!std::exchange(result, cpu)); [sq] is the local copy of the head. *)
Fixpoint own_loop (fuel : nat) (retries : tid -> Z) (sq : ptr) (result : ptr) k
    : run (cstate * ptr) :=
  match fuel with
  | O => None
  | S fuel' =>
      '(x, q) ← schedule (mk_queue sq (cm_threads (cmx k))) SYS_SYNC_PRIORITY true;
      match x with
      | None => Some (k, result)
      | Some x =>
          let k1 := set_cmx (cm_put (threads q) (cm_tag (cmx k)) (cmx k)) k in
          match cm_try_own (retries x) x (cid x k1) (cmx k1), result with
          | (m, true), None => own_loop fuel' retries (first q) (Some x) (set_cmx m k1)
          | (m, true), Some _ => None
          | (m, false), _ => own_loop fuel' retries (first q) result (set_cmx m k1)
          end
      end
  end.

Definition cond_signal_all (retries : tid -> Z) (t : tid) k : cstate * reply * list tid :=
  if c_suspended t k then (k, Retry, [])
  else
    match csq k with
    | None => (k, Returned CELL_OK, [])
    | Some _ =>
        match any_waiting is_again (cqueue k) with
        | None => (k, Fatal, [])
        | Some true => (c_thread (set_state (add_flag cf_again)) t k, Again, [])
        | Some false =>
            let k1 := mk_cstate (cmx k) None (csaved k) (crun k) in
            match own_loop (S (size (cm_threads (cmx k)))) retries (csq k) None k1 with
            | None => (k1, Fatal, [])
            | Some (k2, Some x) => (set_crun (crun k2 ∪ {[x]}) k2, Returned CELL_OK, [x])
            | Some (k2, None) => (k2, Returned CELL_OK, [])
            end
        end
    end.

(** ** sys_cond_signal_to; [thread_exists] is the lookup of the thread id. *)

(** for (cpu = sq; cpu; cpu = cpu->next_cpu) if (cpu->id == thread_id) ... *)
Fixpoint find_loop (fuel : nat) (thread_id : Z) (h : store) (it : ptr) : run ptr :=
  match it with
  | None => Some None
  | Some c =>
      match fuel with
      | O => None
      | S fuel' =>
          n ← h !! c;
          if th_id n =? thread_id then Some (Some c)
          else find_loop fuel' thread_id h (next_cpu n)
      end
  end.

Definition cond_signal_to (thread_exists : bool) (retries : Z) (t : tid) (thread_id : Z) k
    : cstate * reply * list tid :=
  if negb thread_exists then (k, Returned CELL_ESRCH, [])
  else if c_suspended t k then (k, Retry, [])
  else
    match csq k with
    | None => (k, Returned CELL_EPERM, [])
    | Some _ =>
        match find_loop (size (cm_threads (cmx k))) thread_id (cm_threads (cmx k)) (csq k) with
        | None => (k, Fatal, [])
        | Some None => (k, Returned CELL_EPERM, [])
        | Some (Some x) =>
            match cm_threads (cmx k) !! x with
            | None => (k, Fatal, [])
            | Some n =>
                if again n then (c_thread (set_state (add_flag cf_again)) t k, Again, [])
                else
                  match unqueue true (cqueue k) x with
                  | Some (Some _, q) =>
                      let '(k1, l) := hand_over retries x (set_cqueue q k) in
                      (k1, Returned CELL_OK, l)
                  | _ => (k, Fatal, [])
                  end
            end
        end
    end.

(** ** sys_cond_wait *)

(** Register the waiter and pass the mutex on. *)
Definition cond_wait (t : tid) k : cstate * reply * list tid :=
  let k0 := c_thread (set_gpr3 CELL_OK) t k in
  if negb (cm_owner (cmx k0) =? cid t k0) then (k0, Returned CELL_EPERM, [])
  else
    let tag := wrap 64 (cm_tag (cmx k0) + 1) in
    let q := emplace (cqueue k0) t tag in
    let k1 := mk_cstate (cm_put (threads q) tag (cmx k0)) (first q) (csaved k0) (crun k0) in
    let count := cm_count (cmx k1) in
    let k2 := set_cmx (cm_set_count 0 (cmx k1)) k1 in
    match cm_reown (cmx k2) with
    | None => (k2, Fatal, [])
    | Some (m, None) =>
        (set_csaved (<[t := count]> (csaved k2)) (set_crun (crun k2 ∖ {[t]}) (set_cmx m k2)),
         Blocked, [])
    | Some (m, Some x) =>
        let k3 := set_cmx m k2 in
        match cm_threads m !! x with
        | None => (k3, Fatal, [])
        | Some n =>
            if again n then
              match unqueue true (cqueue k3) t with
              | Some (Some _, q2) =>
                  (c_thread (set_state (add_flag cf_again)) t (set_cqueue q2 k3), Again, [])
              | _ => (k3, Fatal, [])
              end
            else
              (set_csaved (<[t := count]> (csaved k3))
                 (set_crun ((crun k3 ∖ {[t]}) ∪ {[x]}) k3), Blocked, [x])
        end
    end.

(** The end of the syscall: the ownership is verified, the recursion count
    restored, gpr[3] returned, and the thread runs on. *)
Definition cond_finish (t : tid) k : cstate * reply :=
  match csaved k !! t, cm_threads (cmx k) !! t with
  | Some c, Some n =>
      if cm_owner (cmx k) =? th_id n then
        (mk_cstate (cm_set_count c (cmx k)) (csq k) (delete t (csaved k)) (crun k ∪ {[t]}),
         if gpr3 n =? error_value CELL_OK then Returned CELL_OK else Returned CELL_ETIMEDOUT)
      else (k, Fatal)
  | _, _ => (k, Fatal)
  end.

(** The wake-up by cpu_flag::signal. *)
Definition cond_signaled (t : tid) k : cstate * reply :=
  cond_finish t (c_thread (set_state (del_flag cf_signal)) t k).

(** The expired timeout: leave the queue and get or queue for the mutex; a
    thread that a signal has moved to the mutex goes on waiting for it. *)
Definition cond_timed_out (retries : Z) (t : tid) k : cstate * reply :=
  match unqueue true (cqueue k) t with
  | None => (k, Fatal)
  | Some (Some _, q) =>
      let k1 := c_thread (set_gpr3 CELL_ETIMEDOUT) t (set_cqueue q k) in
      match cm_try_own retries t (cid t k1) (cmx k1) with
      | (m, true) => cond_finish t (set_cmx m k1)
      | (m, false) => (set_cmx m k1, Blocked)
      end
  | Some (None, _) =>
      if cm_owner (cmx k) =? cid t k then cond_finish t k else (k, Blocked)
  end.

(** The branch for a stopped thread. *)
Definition cond_stopped (t : tid) k : cstate * reply :=
  match any_waiting (is_thread t) (cqueue k), any_waiting (is_thread t) (cm_queue (cmx k)) with
  | Some false, Some false => cond_finish t k
  | Some _, Some _ => (c_thread (set_state (add_flag cf_again)) t k, Again)
  | _, _ => (k, Fatal)
  end.

(** ** The regions as events, those of the mutex syscalls included *)
Inductive cevent :=
| CMutex (e : mevent)
| CSignal (t : tid) (retries : Z)
| CSignalAll (t : tid) (retries : tid -> Z)
| CSignalTo (t : tid) (thread_id : Z) (thread_exists : bool) (retries : Z)
| CWait (t : tid)
| CSignaled (t : tid)
| CTimedOut (t : tid) (retries : Z)
| CStopped (t : tid).

Definition after_mutex (t : tid) (r : reply) (aw : ptr) (run : gset tid) : gset tid :=
  match r with
  | Blocked => run ∖ {[t]}
  | Returned _ => run ∪ {[t]}
  | _ => run
  end ∪ list_to_set (option_list aw).

Definition cexec (e : cevent) k : cstate * reply * list tid :=
  match e with
  | CMutex e =>
      let '(m, r, aw) := cm_exec e (cmx k) in
      (set_crun (after_mutex (event_thread e) r aw (crun k)) (set_cmx m k), r, option_list aw)
  | CSignal t r => cond_signal r t k
  | CSignalAll t r => cond_signal_all r t k
  | CSignalTo t id ex r => cond_signal_to ex r t id k
  | CWait t => cond_wait t k
  | CSignaled t => (cond_signaled t k, [])
  | CTimedOut t r => (cond_timed_out r t k, [])
  | CStopped t => (cond_stopped t k, [])
  end.

(** ** The monitor a condition variable implements *)

(** The lock, the waiting threads and the depths to restore. *)
Record acond := mk_acond {
  ac_lock : alock;
  ac_wait : list tid;
  ac_saved : gmap tid Z
}.

(** Thread [x] asks for the lock: it holds it now or waits for it. *)
Definition give (h : store) (x : tid) (a : alock) : alock * list tid :=
  match a with
  | AFree => (AHeld (id_of h x) 0 [], [x])
  | AHeld o d w => (AHeld o d (x :: w), [])
  end.

Fixpoint give_all (h : store) (ws : list tid) (a : alock) : alock * list tid :=
  match ws with
  | [] => (a, [])
  | x :: ws' =>
      let '(a1, aw1) := give h x a in
      let '(a2, aw2) := give_all h ws' a1 in (a2, aw1 ++ aw2)
  end.

Definition suspended (h : store) (t : tid) : bool :=
  match h !! t with Some n => has_flag cf_suspend (th_state n) | None => false end.

Definition has_again (h : store) (x : tid) : bool :=
  match h !! x with Some n => again n | None => false end.

Inductive cstep (h : store) (protocol recursive : Z)
  : cevent -> acond -> reply -> list tid -> acond -> Prop :=
| cs_mutex e a r aw a' w s :
    astep h protocol recursive e a r aw a' ->
    cstep h protocol recursive (CMutex e) (mk_acond a w s) r (option_list aw) (mk_acond a' w s)
| cs_suspended t e a :
    (exists r, e = CSignal t r) \/ (exists r, e = CSignalAll t r)
      \/ (exists id r, e = CSignalTo t id true r) ->
    suspended h t = true -> cstep h protocol recursive e a Retry [] a
| cs_signal_none t e a s :
    (exists r, e = CSignal t r) \/ (exists r, e = CSignalAll t r) ->
    cstep h protocol recursive e (mk_acond a [] s) (Returned CELL_OK) [] (mk_acond a [] s)
| cs_signal t r x a w s a' aw :
    selects h protocol w x -> has_again h x = false -> give h x a = (a', aw) ->
    cstep h protocol recursive (CSignal t r) (mk_acond a w s) (Returned CELL_OK) aw
      (mk_acond a' (without x w) s)
| cs_signal_restart t r x a :
    selects h protocol (ac_wait a) x -> has_again h x = true ->
    cstep h protocol recursive (CSignal t r) a Again [] a
| cs_all t r ws a w s a' aw :
    picks h SYS_SYNC_PRIORITY w ws [] -> (forall x, x ∈ w -> has_again h x = false) ->
    give_all h ws a = (a', aw) ->
    cstep h protocol recursive (CSignalAll t r) (mk_acond a w s) (Returned CELL_OK) aw
      (mk_acond a' [] s)
| cs_all_restart t r x a :
    x ∈ ac_wait a -> has_again h x = true ->
    cstep h protocol recursive (CSignalAll t r) a Again [] a
| cs_to_nobody t id r a :
    cstep h protocol recursive (CSignalTo t id false r) a (Returned CELL_ESRCH) [] a
| cs_to_none t id r a :
    (forall x, x ∈ ac_wait a -> id_of h x <> id) ->
    cstep h protocol recursive (CSignalTo t id true r) a (Returned CELL_EPERM) [] a
| cs_to t r x a w s a' aw :
    x ∈ w -> has_again h x = false -> give h x a = (a', aw) ->
    cstep h protocol recursive (CSignalTo t (id_of h x) true r) (mk_acond a w s)
      (Returned CELL_OK) aw (mk_acond a' (without x w) s)
| cs_to_restart t r x a :
    x ∈ ac_wait a -> has_again h x = true ->
    cstep h protocol recursive (CSignalTo t (id_of h x) true r) a Again [] a
| cs_wait_perm t a :
    (forall d w, ac_lock a <> AHeld (id_of h t) d w) ->
    cstep h protocol recursive (CWait t) a (Returned CELL_EPERM) [] a
| cs_wait t d w s :
    cstep h protocol recursive (CWait t) (mk_acond (AHeld (id_of h t) d []) w s) Blocked []
      (mk_acond AFree (t :: w) (<[t := d]> s))
| cs_wait_pass t d l x w s :
    selects h protocol l x -> has_again h x = false ->
    cstep h protocol recursive (CWait t) (mk_acond (AHeld (id_of h t) d l) w s) Blocked [x]
      (mk_acond (AHeld (id_of h x) 0 (without x l)) (t :: w) (<[t := d]> s))
| cs_wait_restart t d l x w s :
    selects h protocol l x -> has_again h x = true ->
    cstep h protocol recursive (CWait t) (mk_acond (AHeld (id_of h t) d l) w s) Again []
      (mk_acond (AHeld (id_of h t) 0 l) w s)
| cs_finish t e c d l w s r :
    e = CSignaled t \/ e = CStopped t \/ (exists r', e = CTimedOut t r') ->
    s !! t = Some c -> wait_end r ->
    cstep h protocol recursive e (mk_acond (AHeld (id_of h t) d l) w s) r []
      (mk_acond (AHeld (id_of h t) c l) w (delete t s))
| cs_timeout t r c w s :
    t ∈ w -> s !! t = Some c ->
    cstep h protocol recursive (CTimedOut t r) (mk_acond AFree w s) (Returned CELL_ETIMEDOUT) []
      (mk_acond (AHeld (id_of h t) c []) (without t w) (delete t s))
| cs_timeout_queue t r o d l w s :
    t ∈ w ->
    cstep h protocol recursive (CTimedOut t r) (mk_acond (AHeld o d l) w s) Blocked []
      (mk_acond (AHeld o d (t :: l)) (without t w) s)
| cs_timeout_late t r a :
    t ∈ waiters_of (ac_lock a) ->
    cstep h protocol recursive (CTimedOut t r) a Blocked [] a
| cs_stopped t a :
    t ∈ ac_wait a \/ t ∈ waiters_of (ac_lock a) ->
    cstep h protocol recursive (CStopped t) a Again [] a.

(** ** Invariant *)

(** [lm] waits for the mutex, [lc] for the condition variable: a thread in
    sys_cond_wait is in one of the queues or owns the mutex, and the owner
    waits for nothing. *)
Record cond_ok k (lm lc : list tid) : Prop := {
  co_mutex : cm_ok (cmx k) lm;
  co_queue : waits (cqueue k) lc;
  co_disj : forall t, t ∈ lc -> t ∉ lm;
  co_owner : forall t, t ∈ lc -> cid t k <> cm_owner (cmx k);
  co_wait : forall t, t ∈ lc -> is_Some (csaved k !! t);
  co_saved : forall t c, csaved k !! t = Some c ->
    0 <= c < 2 ^ 32 /\ is_Some (cm_threads (cmx k) !! t)
    /\ (t ∈ lc \/ t ∈ lm \/ cm_owner (cmx k) = cid t k);
  co_run : forall t, t ∈ crun k -> (t ∉ lc) /\ (t ∉ lm) /\ is_Some (cm_threads (cmx k) !! t)
}.

Definition cabs k (lm lc : list tid) : acond := mk_acond (cm_abs (cmx k) lm) lc (csaved k).

(** The thread of the event runs, and is inside sys_cond_wait exactly for the
    events of its wait loop. *)
Definition cenabled (e : cevent) k : Prop :=
  match e with
  | CMutex e =>
      let t := event_thread e in
      csaved k !! t = None /\ is_Some (cm_threads (cmx k) !! t)
      /\ match e with
         | LockStopped _ | LockTimedOut _ => True
         | LockOwn _ _ => t ∈ crun k /\ cm_owner (cmx k) <> cid t k
         | _ => t ∈ crun k
         end
  | CSignal t _ | CSignalAll t _ | CSignalTo t _ _ _ | CWait t =>
      t ∈ crun k /\ csaved k !! t = None
  | CSignaled t => t ∈ crun k /\ is_Some (csaved k !! t)
  | CTimedOut t _ | CStopped t => is_Some (csaved k !! t)
  end.

Definition with_csq (sq : ptr) k : cstate := mk_cstate (cmx k) sq (csaved k) (crun k).

Lemma cid_same k k' t :
  same_ids (cm_threads (cmx k)) (cm_threads (cmx k')) -> cid t k' = cid t k.
Proof. intros Hs. unfold cid. by apply id_of_same. Qed.

Lemma same_ids_some h h' t : same_ids h h' -> is_Some (h !! t) -> is_Some (h' !! t).
Proof. intros Hs [n Hn]. specialize (Hs t). rewrite Hn in Hs. by destruct (h' !! t). Qed.

Lemma cid_nonzero k lm lc t : cond_ok k lm lc -> is_Some (cm_threads (cmx k) !! t) -> cid t k <> 0.
Proof.
  intros Hok [n Hn]. unfold cid, id_of. rewrite Hn. by eapply law_ids; [apply Hok|].
Qed.

(** A change of the flags or gpr[3] of a thread. *)
Lemma c_thread_ok k lm lc f t :
  (forall n, next_cpu (f n) = next_cpu n) -> (forall n, th_id (f n) = th_id n) ->
  cond_ok k lm lc -> cond_ok (c_thread f t k) lm lc.
Proof.
  intros Hf Hi Hok. pose proof (co_mutex _ _ _ Hok) as Hm.
  destruct (law_waits _ _ Hm) as [Hw Et].
  assert (Hs : same_ids (cm_threads (cmx k)) (alter f t (cm_threads (cmx k)))) by (by apply same_ids_alter).
  destruct (law_put_fields (cmx k) (alter f t (cm_threads (cmx k))) (cm_tag (cmx k)))
    as (F1 & F2 & F3 & F4 & F5 & F6).
  destruct Hok as [H1 H2 H3 H4 H5 H6 H7].
  split; unfold c_thread, set_cmx, cqueue, cid in *; cbn [cmx csq csaved crun] in *; rewrite ?F1, ?F3.
  - apply law_put; [done|done|]. apply seg_alter_data; [done|]. rewrite <- Et. exact Hw.
  - by apply seg_alter_data.
  - done.
  - intros x Hx. rewrite (id_of_same _ _ _ Hs). auto.
  - done.
  - intros x c Hx. destruct (H6 x c Hx) as (? & ? & ?). rewrite (id_of_same _ _ _ Hs).
    split; [done|]. split; [by eapply same_ids_some|done].
  - intros x Hx. destruct (H7 x Hx) as (? & ? & ?). do 2 (split; [done|]). by eapply same_ids_some.
Qed.

(** [x] has left the queue of the condition variable, nothing else moved. *)
Record leaving k (lm lc : list tid) (x : tid) k1 : Prop := {
  lv_mutex : cm_ok (cmx k1) lm;
  lv_queue : waits (cqueue k1) (without x lc);
  lv_ids : same_ids (cm_threads (cmx k)) (cm_threads (cmx k1));
  lv_owner : cm_owner (cmx k1) = cm_owner (cmx k);
  lv_count : cm_count (cmx k1) = cm_count (cmx k);
  lv_saved : csaved k1 = csaved k;
  lv_run : crun k1 = crun k
}.

Lemma leaving_removed k lm lc x q :
  cond_ok k lm lc -> x ∈ lc -> removed true (cqueue k) lc x q ->
  leaving k lm lc x (set_cqueue q k).
Proof.
  intros Hok Hx [R1 R2 _]. pose proof (co_mutex _ _ _ Hok) as Hm.
  destruct (law_waits _ _ Hm) as [Hw Et]. cbn in R2.
  pose proof (same_ids_relinked _ _ _ R2) as Hs.
  destruct (law_put_fields (cmx k) (threads q) (cm_tag (cmx k))) as (F1 & F2 & F3 & F4 & F5 & F6).
  split; unfold set_cqueue, cqueue; cbn [cmx csq csaved crun]; rewrite ?F1; try done.
  apply law_put; [done|done|]. eapply seg_frame; [|rewrite <- Et in R2; exact Hw].
  intros y Hy. rewrite Et. apply R2. intros Hl. by apply (co_disj _ _ _ Hok y).
Qed.

Lemma leaving_data k lm lc x k1 f t :
  (forall n, next_cpu (f n) = next_cpu n) -> (forall n, th_id (f n) = th_id n) ->
  leaving k lm lc x k1 -> leaving k lm lc x (c_thread f t k1).
Proof.
  intros Hf Hi [L1 L2 L3 L4 L5 L6 L7]. destruct (law_waits _ _ L1) as [Hw Et].
  destruct (law_put_fields (cmx k1) (alter f t (cm_threads (cmx k1))) (cm_tag (cmx k1)))
    as (F1 & F2 & F3 & F4 & F5 & F6).
  assert (Hs : same_ids (cm_threads (cmx k1)) (alter f t (cm_threads (cmx k1))))
    by (by apply same_ids_alter).
  split; unfold c_thread, set_cmx, cqueue; cbn [cmx csq csaved crun]; rewrite ?F1, ?F3, ?F4; try done.
  - apply law_put; [done|done|]. apply seg_alter_data; [done|]. rewrite <- Et. exact Hw.
  - by apply seg_alter_data.
  - by etransitivity.
Qed.

(** A thread leaves the queue of the condition variable for the mutex. *)
Lemma moved_ok k lm lc x r k1 :
  cond_ok k lm lc -> x ∈ lc -> leaving k lm lc x k1 ->
  let '(m, got) := cm_try_own r x (cid x k1) (cmx k1) in
  let k' := set_cmx m k1 in
  same_ids (cm_threads (cmx k)) (cm_threads m)
  /\ (forall y, y ∈ without x lc -> cm_threads m !! y = cm_threads (cmx k1) !! y)
  /\ gpr3 <$> cm_threads m !! x = gpr3 <$> cm_threads (cmx k1) !! x
  /\ cm_count m = cm_count (cmx k)
  /\ if cm_owner (cmx k) =? 0
     then got = true /\ cm_owner m = cid x k /\ cond_ok k' [] (without x lc)
     else got = false /\ cm_owner m = cm_owner (cmx k) /\ cond_ok k' (x :: lm) (without x lc).
Proof.
  intros Hok Hx [L1 L2 L3 L4 L5 L6 L7]. pose proof (co_mutex _ _ _ Hok) as Hm.
  assert (Hxm : x ∉ lm) by (by apply Hok).
  assert (Hxk : is_Some (cm_threads (cmx k1) !! x)).
  { eapply same_ids_some; [exact L3|]. exact (seg_dom _ _ _ _ (co_queue _ _ _ Hok) Hx). }
  pose proof (law_try_own (cmx k1) lm r x L1 Hxm) as T. fold (cid x k1) in T.
  rewrite L4, L5, (cid_same _ _ _ L3) in T. specialize (T Hxk (co_owner _ _ _ Hok x Hx)).
  rewrite (cid_same _ _ _ L3).
  destruct (cm_try_own r x (cid x k) (cmx k1)) as [m got].
  destruct T as (T1 & T2 & Tg & T3 & T4 & T5).
  assert (Hids : same_ids (cm_threads (cmx k)) (cm_threads m)) by (by etransitivity).
  split; [done|]. split.
  { intros y [_ Hne]%without_elem_of. by apply T2. }
  do 2 (split; [done|]).
  assert (Hq : seg (cm_threads m) (csq k1) (without x lc)).
  { eapply seg_frame; [|exact L2]. intros y [_ Hne]%without_elem_of. by apply T2. }
  destruct k1 as [m1 sq1 sv1 rn1]. cbn [cmx csq csaved crun] in *. subst sv1 rn1.
  destruct Hok as [H1 H2 H3 H4 H5 H6 H7].
  destruct (Z.eqb_spec (cm_owner (cmx k)) 0) as [Eo|Eo].
  - destruct T5 as (-> & To & Tok). split; [done|]. split; [done|].
    destruct (law_free _ _ Hm Eo) as [-> _].
    split; unfold cqueue, cid, set_cmx in *; cbn [cmx csq csaved crun] in *.
    + done.
    + exact Hq.
    + intros y _. apply not_elem_of_nil.
    + intros y [Hy Hne]%without_elem_of. rewrite (id_of_same _ _ _ Hids), To. intros E.
      apply Hne. eapply law_inj; [exact Hm| | |exact E].
      * exact (seg_dom _ _ _ _ H2 Hy).
      * exact (seg_dom _ _ _ _ H2 Hx).
    + intros y [Hy _]%without_elem_of. auto.
    + intros y c Hy. destruct (H6 y c Hy) as (? & Hk & Hl). split; [done|].
      split; [by eapply same_ids_some|]. rewrite (id_of_same _ _ _ Hids), To.
      destruct (decide (y = x)) as [->|Hne]; [by right; right|].
      destruct Hl as [Hl|[Hl|Hl]].
      * left. by apply without_elem_of.
      * by apply not_elem_of_nil in Hl.
      * exfalso. destruct Hk as [ny Hny]. apply (law_ids _ _ _ _ Hm Hny).
        rewrite Eo in Hl. unfold id_of in Hl. by rewrite Hny in Hl.
    + intros y Hy. destruct (H7 y Hy) as (? & _ & ?). rewrite without_elem_of.
      split; [tauto|]. split; [apply not_elem_of_nil|by eapply same_ids_some].
  - destruct T5 as (-> & To & Tok). split; [done|]. split; [done|].
    split; unfold cqueue, cid, set_cmx in *; cbn [cmx csq csaved crun] in *.
    + done.
    + exact Hq.
    + intros y [Hy Hne]%without_elem_of [->|Hl]%elem_of_cons; [done|]. by apply (H3 y).
    + intros y [Hy Hne]%without_elem_of. rewrite (id_of_same _ _ _ Hids), To. auto.
    + intros y [Hy _]%without_elem_of. auto.
    + intros y c Hy. destruct (H6 y c Hy) as (? & Hk & Hl). split; [done|].
      split; [by eapply same_ids_some|]. rewrite (id_of_same _ _ _ Hids), To, elem_of_cons, without_elem_of.
      destruct (decide (y = x)); tauto.
    + intros y Hy. destruct (H7 y Hy) as (? & ? & ?). rewrite without_elem_of, elem_of_cons.
      split; [tauto|]. split; [|by eapply same_ids_some]. intros [->|?]; tauto.
Qed.

Lemma set_crun_ok k lm lc r :
  cond_ok k lm lc ->
  (forall t, t ∈ r -> (t ∉ lc) /\ (t ∉ lm) /\ is_Some (cm_threads (cmx k) !! t)) ->
  cond_ok (set_crun r k) lm lc.
Proof. intros [] Hr. by split. Qed.

Lemma cm_abs_free m l : cm_owner m = 0 -> cm_abs m l = AFree.
Proof. unfold cm_abs. by intros ->. Qed.

Lemma cm_abs_held m l : cm_owner m <> 0 -> cm_abs m l = AHeld (cm_owner m) (cm_count m) l.
Proof. unfold cm_abs. by destruct (Z.eqb_spec (cm_owner m) 0). Qed.

Lemma cm_abs_waiters m l : cm_ok m l -> waiters_of (cm_abs m l) = l.
Proof.
  intros Hm. unfold cm_abs. destruct (Z.eqb_spec (cm_owner m) 0) as [E|]; [|done].
  by destruct (law_free _ _ Hm E) as [-> _].
Qed.

(** Moving [x] to the mutex, as the abstract lock sees it. *)
Lemma moved_give k lm lc x r k1 :
  cond_ok k lm lc -> x ∈ lc -> leaving k lm lc x k1 ->
  let '(m, got) := cm_try_own r x (cid x k1) (cmx k1) in
  exists lm', cond_ok (set_cmx m k1) lm' (without x lc)
    /\ give (cm_threads (cmx k)) x (cm_abs (cmx k) lm)
       = (cm_abs m lm', if got then [x] else [])
    /\ same_ids (cm_threads (cmx k)) (cm_threads m)
    /\ (forall y, y ∈ without x lc -> cm_threads m !! y = cm_threads (cmx k1) !! y)
    /\ gpr3 <$> cm_threads m !! x = gpr3 <$> cm_threads (cmx k1) !! x
    /\ (if got then cm_owner (cmx k) = 0 /\ cm_owner m = cid x k /\ lm' = []
        else cm_owner (cmx k) <> 0 /\ lm' = x :: lm)
    /\ cm_owner m <> 0.
Proof.
  intros Hok Hx Hlv. pose proof (moved_ok k lm lc x r k1 Hok Hx Hlv) as Hm.
  pose proof (co_mutex _ _ _ Hok) as Hmx.
  assert (Hid : cid x k <> 0).
  { eapply cid_nonzero; [exact Hok|]. exact (seg_dom _ _ _ _ (co_queue _ _ _ Hok) Hx). }
  destruct (cm_try_own r x (cid x k1) (cmx k1)) as [m got].
  destruct Hm as (Hs & Hf & Hgp & Hc & Hm). destruct (Z.eqb_spec (cm_owner (cmx k)) 0) as [Eo|Eo].
  - destruct Hm as (-> & Ho & Hok'). exists []. split; [done|].
    rewrite cm_abs_free, (cm_abs_held m) by congruence.
    destruct (law_free _ _ Hmx Eo) as [_ Hz]. rewrite Ho, Hc, Hz.
    split; [done|]. do 4 (split; [done|]). done.
  - destruct Hm as (-> & Ho & Hok'). exists (x :: lm). split; [done|].
    rewrite !cm_abs_held by congruence. rewrite Ho, Hc.
    split; [done|]. do 4 (split; [done|]). congruence.
Qed.

Lemma hand_over_ok k lm lc x q r :
  cond_ok k lm lc -> x ∈ lc -> removed true (cqueue k) lc x q ->
  let '(k', aw) := hand_over r x (set_cqueue q k) in
  exists lm', cond_ok k' lm' (without x lc)
    /\ give (cm_threads (cmx k)) x (cm_abs (cmx k) lm) = (cm_abs (cmx k') lm', aw)
    /\ csaved k' = csaved k /\ same_ids (cm_threads (cmx k)) (cm_threads (cmx k')).
Proof.
  intros Hok Hx R.
  pose proof (moved_give k lm lc x r _ Hok Hx (leaving_removed k lm lc x q Hok Hx R)) as Hm.
  unfold hand_over. destruct (cm_try_own r x _ _) as [m got].
  destruct Hm as (lm' & Hok' & Hg & Hs & _ & _ & Hl & _). destruct got; exists lm'; [|done].
  destruct Hl as (_ & _ & ->). split; [|done].
  apply set_crun_ok; [done|]. intros t [Ht|Ht]%elem_of_union.
  - by apply (co_run _ _ _ Hok').
  - apply elem_of_singleton in Ht as ->. split; [by intros [_ []]%without_elem_of|].
    split; [apply not_elem_of_nil|]. eapply same_ids_some; [exact Hs|].
    exact (seg_dom _ _ _ _ (co_queue _ _ _ Hok) Hx).
Qed.

Lemma csq_head k lm lc : cond_ok k lm lc -> csq k = None <-> lc = [].
Proof.
  intros Hok. pose proof (co_queue _ _ _ Hok) as Hw. unfold waits in Hw. cbn in Hw.
  destruct lc as [|x lc]; [done|]. destruct Hw as [-> _]. done.
Qed.

(** ** Each region implements the monitor *)

Definition crefines (e : cevent) k (lm lc : list tid) : Prop :=
  let '(k', r, aw) := cexec e k in
  exists lm' lc', cond_ok k' lm' lc' /\ same_ids (cm_threads (cmx k)) (cm_threads (cmx k'))
    /\ cstep (cm_threads (cmx k)) (cm_protocol (cmx k)) (cm_recursive (cmx k)) e
         (cabs k lm lc) r aw (cabs k' lm' lc').

(** A region that changes no more than a field of a thread. *)
Lemma quiet_refines k lm lc e f t r :
  (forall n, next_cpu (f n) = next_cpu n) -> (forall n, th_id (f n) = th_id n) ->
  cond_ok k lm lc -> cexec e k = (c_thread f t k, r, []) ->
  cstep (cm_threads (cmx k)) (cm_protocol (cmx k)) (cm_recursive (cmx k)) e
    (cabs k lm lc) r [] (cabs k lm lc) ->
  crefines e k lm lc.
Proof.
  intros Hf Hi Hok E Hs. unfold crefines. rewrite E. exists lm, lc.
  split; [by apply c_thread_ok|].
  destruct (law_put_fields (cmx k) (alter f t (cm_threads (cmx k))) (cm_tag (cmx k)))
    as (F1 & F2 & F3 & F4 & F5 & F6).
  split; [cbn; rewrite F1; by apply same_ids_alter|].
  replace (cabs (c_thread f t k) lm lc) with (cabs k lm lc); [done|].
  unfold cabs, cm_abs, c_thread. cbn. by rewrite F3, F4.
Qed.

Lemma same_refines k lm lc e r :
  cond_ok k lm lc -> cexec e k = (k, r, []) ->
  cstep (cm_threads (cmx k)) (cm_protocol (cmx k)) (cm_recursive (cmx k)) e
    (cabs k lm lc) r [] (cabs k lm lc) ->
  crefines e k lm lc.
Proof. intros Hok E Hs. unfold crefines. rewrite E. exists lm, lc. done. Qed.

Lemma has_again_lookup h x n : h !! x = Some n -> has_again h x = again n.
Proof. intros Hn. unfold has_again. by rewrite Hn. Qed.

Lemma signal_refines k lm lc r t :
  cond_ok k lm lc -> crefines (CSignal t r) k lm lc.
Proof.
  intros Hok. destruct (c_suspended t k) eqn:Es.
  { eapply same_refines; [done|cbn; unfold cond_signal; by rewrite Es|].
    eapply cs_suspended; [left; eauto|exact Es]. }
  destruct (csq k) as [y|] eqn:Eq.
  2: { eapply same_refines; [done|cbn; unfold cond_signal; by rewrite Es, Eq|].
       apply (csq_head k lm lc Hok) in Eq as ->. eapply cs_signal_none. left. eauto. }
  assert (Hl : lc <> []) by (intros Hl; by apply (csq_head k lm lc Hok) in Hl; congruence).
  destruct (schedule_ok (cm_protocol (cmx k)) true (cqueue k) lc (co_queue _ _ _ Hok)) as [_ S2].
  destruct (S2 Hl) as (x & n & q & E & Hsel & Hn & R). cbn [cqueue threads] in Hn, Hsel.
  pose proof (has_again_lookup _ _ _ Hn) as Hg. destruct (again n) eqn:Ea.
  - subst q. eapply (quiet_refines k lm lc _ (set_state (add_flag cf_again)) t); try done.
    + cbn [cexec]. unfold cond_signal. rewrite Es, Eq, E. cbn [cqueue threads].
      by rewrite Hn, Ea.
    + by eapply cs_signal_restart.
  - pose proof (selects_elem _ _ _ _ Hsel) as Hx. cbn [orb] in R.
    pose proof (hand_over_ok k lm lc x q r Hok Hx R) as Hh.
    destruct R as [_ _ (n' & Hn' & En)]. cbn [cqueue threads] in Hn'. rewrite Hn in Hn'.
    injection Hn' as <-. unfold crefines. cbn [cexec]. unfold cond_signal.
    rewrite Es, Eq, E, En. change (again (set_next None n)) with (again n). rewrite Ea.
    destruct (hand_over r x (set_cqueue q k)) as [k' aw].
    destruct Hh as (lm' & Hok' & Hgive & Hsv & Hs). exists lm', (without x lc).
    split; [done|]. split; [done|]. unfold cabs. rewrite Hsv. by eapply cs_signal.
Qed.

(** *** sys_cond_signal_to *)

Lemma find_loop_ok fuel id h p l :
  seg h p l -> (length l <= fuel)%nat ->
  exists r, find_loop fuel id h p = Some r
    /\ match r with
       | Some x => x ∈ l /\ id_of h x = id
       | None => forall x, x ∈ l -> id_of h x <> id
       end.
Proof.
  revert fuel p; induction l as [|c l IH]; intros fuel p Hs Hf.
  { cbn in Hs. subst p. exists None. split; [by destruct fuel|]. by intros x ?%not_elem_of_nil. }
  destruct Hs as (-> & n & Hn & Hs). destruct fuel as [|fuel]; cbn [length] in Hf; [lia|].
  cbn [find_loop]. rewrite Hn. cbn [mbind option_bind].
  destruct (Z.eqb_spec (th_id n) id) as [E|E].
  - exists (Some c). split; [done|]. split; [by left|]. unfold id_of. by rewrite Hn.
  - destruct (IH fuel _ Hs ltac:(lia)) as (r & -> & Hr). exists r. split; [done|].
    destruct r as [x|].
    + destruct Hr. split; [by right|done].
    + intros x [->|Hx]%elem_of_cons; [unfold id_of; by rewrite Hn|auto].
Qed.

Lemma signal_to_refines k lm lc r t id ex :
  cond_ok k lm lc -> crefines (CSignalTo t id ex r) k lm lc.
Proof.
  intros Hok. destruct ex.
  2: { eapply same_refines; [done|reflexivity|]. apply cs_to_nobody. }
  destruct (c_suspended t k) eqn:Es.
  { eapply same_refines; [done|cbn; unfold cond_signal_to; by rewrite Es|].
    eapply cs_suspended; [right; right; eauto|exact Es]. }
  destruct (csq k) as [y|] eqn:Eq.
  2: { eapply same_refines; [done|cbn; unfold cond_signal_to; by rewrite Es, Eq|].
       apply (csq_head k lm lc Hok) in Eq as ->. eapply cs_to_none. by intros x ?%not_elem_of_nil. }
  pose proof (seg_length _ _ _ (co_queue _ _ _ Hok)) as Hlen.
  destruct (find_loop_ok (size (cm_threads (cmx k))) id _ _ _ (co_queue _ _ _ Hok) Hlen)
    as (res & E & Hr). cbn [cqueue threads first] in E. destruct res as [x|].
  2: { eapply same_refines; [done|cbn; unfold cond_signal_to; by rewrite Es, Eq, <- Eq, E|].
       by apply cs_to_none. }
  destruct Hr as [Hx <-]. destruct (seg_dom _ _ _ _ (co_queue _ _ _ Hok) Hx) as [n Hn].
  cbn [cqueue threads] in Hn, E |- *. pose proof (has_again_lookup _ _ _ Hn) as Hg.
  destruct (again n) eqn:Ea.
  - eapply (quiet_refines k lm lc _ (set_state (add_flag cf_again)) t); try done.
    + cbn [cexec]. unfold cond_signal_to. cbn [negb]. by rewrite Es, Eq, <- Eq, E, Hn, Ea.
    + by apply cs_to_restart.
  - destruct (unqueue_ok true (cqueue k) lc x (co_queue _ _ _ Hok)) as [_ U].
    destruct (U Hx) as (q & Eu & R). pose proof (hand_over_ok k lm lc x q r Hok Hx R) as Hh.
    unfold crefines. cbn [cexec]. unfold cond_signal_to. cbn [negb].
    rewrite Es, Eq, <- Eq, E, Hn, Ea, Eu.
    destruct (hand_over r x (set_cqueue q k)) as [k' aw].
    destruct Hh as (lm' & Hok' & Hgive & Hsv & Hs). exists lm', (without x lc).
    split; [done|]. split; [done|]. unfold cabs. rewrite Hsv. by eapply cs_to.
Qed.

(** *** sys_cond_signal_all *)

Lemma give_same h h' x a : same_ids h h' -> give h' x a = give h x a.
Proof. intros Hs. destruct a; cbn; [by rewrite (id_of_same _ _ _ Hs)|done]. Qed.

Lemma give_all_same h h' ws a : same_ids h h' -> give_all h' ws a = give_all h ws a.
Proof.
  intros Hs. revert a; induction ws as [|x ws IH]; intros a; [done|]. cbn.
  rewrite (give_same _ _ _ _ Hs). destruct (give h x a) as [a1 aw]. by rewrite IH.
Qed.

(** The loop over the detached queue [ls]: every thread asks for the mutex in
    the order of the priorities; only the first can get it. *)
Lemma own_loop_ok fuel retries sq res k lm ls :
  cond_ok (with_csq sq k) lm ls -> no_again (cm_threads (cmx k)) ls ->
  (length ls < fuel)%nat -> (is_Some res -> cm_owner (cmx k) <> 0) ->
  exists k' res' ws lm' aw,
    own_loop fuel retries sq res k = Some (k', res')
    /\ picks (cm_threads (cmx k)) SYS_SYNC_PRIORITY ls ws []
    /\ give_all (cm_threads (cmx k)) ws (cm_abs (cmx k) lm) = (cm_abs (cmx k') lm', aw)
    /\ option_list res' = option_list res ++ aw
    /\ cond_ok (with_csq None k') lm' [] /\ same_ids (cm_threads (cmx k)) (cm_threads (cmx k'))
    /\ csq k' = csq k /\ csaved k' = csaved k /\ crun k' = crun k.
Proof.
  revert sq res k lm ls; induction fuel as [|fuel IH]; intros sq res k lm ls Hok Hna Hf Hres; [lia|].
  cbn [own_loop]. pose proof (co_queue _ _ _ Hok) as Hw. unfold cqueue, with_csq in Hw. cbn in Hw.
  destruct (schedule_ok SYS_SYNC_PRIORITY true _ ls Hw) as [S1 S2].
  destruct (decide (ls = [])) as [->|Hl].
  { rewrite (S1 eq_refl). cbn [mbind option_bind]. exists k, res, [], lm, [].
    split; [done|]. split; [done|]. split; [done|]. split; [by rewrite app_nil_r|].
    split. { destruct Hok; split; try done. }
    done. }
  destruct (S2 Hl) as (x & n & q & E & Hsel & Hn & R). rewrite E. cbn [mbind option_bind].
  cbn [threads] in Hn, Hsel. pose proof (selects_elem _ _ _ _ Hsel) as Hx.
  rewrite (Hna x n Hx Hn) in R. cbn [orb] in R.
  pose proof (moved_give (with_csq sq k) lm ls x (retries x) _ Hok Hx
    (leaving_removed _ lm ls x q Hok Hx R)) as Hm.
  set (k1 := set_cmx (cm_put (threads q) (cm_tag (cmx k)) (cmx k)) k).
  change (cmx (set_cqueue q (with_csq sq k))) with (cmx k1) in Hm.
  change (cid x (set_cqueue q (with_csq sq k))) with (cid x k1) in Hm.
  destruct (cm_try_own (retries x) x (cid x k1) (cmx k1)) as [m got].
  destruct Hm as (lm1 & Hok1 & Hg & Hs & Hfr & _ & Hgot & Hnz). destruct R as [R1 R2 _].
  destruct (law_put_fields (cmx k) (threads q) (cm_tag (cmx k))) as (F1 & _).
  cbn [k1 set_cmx cmx] in Hfr. rewrite F1 in Hfr.
  assert (Hag : agree (without x ls) (cm_threads m) (cm_threads (cmx k))).
  { intros y Hy. rewrite (Hfr y Hy). symmetry. apply R2. }
  assert (Hna1 : no_again (cm_threads m) (without x ls)).
  { intros y p Hy Hp. rewrite (Hfr y Hy) in Hp. apply without_elem_of in Hy as [Hy _].
    by eapply (no_again_relinked _ _ _ ls ls R2). }
  assert (Hf1 : (length (without x ls) < fuel)%nat).
  { rewrite (length_without x ls) in Hf; [lia|exact (seg_NoDup _ _ _ Hw)|done]. }
  cbn [with_csq cmx] in Hg, Hs.
  assert (Hcont : forall res1, (is_Some res1 -> cm_owner m <> 0) ->
    option_list res1 = option_list res ++ (if got then [x] else []) ->
    exists k' res' ws lm' aw,
    own_loop fuel retries (first q) res1 (set_cmx m k1) = Some (k', res')
    /\ picks (cm_threads (cmx k)) SYS_SYNC_PRIORITY ls ws []
    /\ give_all (cm_threads (cmx k)) ws (cm_abs (cmx k) lm) = (cm_abs (cmx k') lm', aw)
    /\ option_list res' = option_list res ++ aw
    /\ cond_ok (with_csq None k') lm' [] /\ same_ids (cm_threads (cmx k)) (cm_threads (cmx k'))
    /\ csq k' = csq k /\ csaved k' = csaved k /\ crun k' = crun k).
  { intros res1 Hr1 El.
    destruct (IH (first q) res1 (set_cmx m k1) lm1 (without x ls) Hok1 Hna1 Hf1 Hr1)
      as (k' & res' & ws & lm' & aw & I1 & I2 & I3 & I4 & I5 & I6 & I7 & I8 & I9).
    exists k', res', (x :: ws), lm', ((if got then [x] else []) ++ aw).
    split; [done|]. split; [split; [done|by eapply picks_agree]|].
    split.
    { cbn [give_all]. rewrite Hg, <- (give_all_same _ _ _ _ Hs).
      cbn [set_cmx cmx] in I3. by rewrite I3. }
    split; [by rewrite I4, El, app_assoc|]. split; [done|].
    split; [by etransitivity|done]. }
  destruct got, res as [z|].
  - destruct Hgot as [Ho _]. by destruct (Hres ltac:(eauto)).
  - apply Hcont; done.
  - apply Hcont; [done|by rewrite app_nil_r].
  - apply Hcont; [done|by rewrite app_nil_r].
Qed.

Lemma give_all_held h ws o d l :
  give_all h ws (AHeld o d l) = (AHeld o d (rev ws ++ l), []).
Proof.
  revert l; induction ws as [|x ws IH]; intros l; [done|]. cbn. by rewrite IH, <- app_assoc.
Qed.

(** Only a free lock has a new holder, the first thread that asks. *)
Lemma give_all_awake h ws a a' aw x :
  give_all h ws a = (a', aw) -> x ∈ aw ->
  a = AFree /\ aw = [x] /\ x ∈ ws /\ exists w, a' = AHeld (id_of h x) 0 w.
Proof.
  destruct ws as [|y ws]; cbn.
  { intros [= <- <-] Hx. by apply not_elem_of_nil in Hx. }
  destruct a as [|o d l]; cbn; rewrite give_all_held; intros [= <- <-] Hx.
  - apply list_elem_of_singleton in Hx as ->. split; [done|]. split; [done|].
    split; [by left|eauto].
  - by apply not_elem_of_nil in Hx.
Qed.

Lemma cond_ok_eta k lm : csq k = None -> cond_ok (with_csq None k) lm [] -> cond_ok k lm [].
Proof. destruct k. cbn. by intros ->. Qed.

Lemma awake_ok k lm x :
  cond_ok k lm [] -> is_Some (cm_threads (cmx k) !! x) -> cm_owner (cmx k) = cid x k ->
  cond_ok (set_crun (crun k ∪ {[x]}) k) lm [].
Proof.
  intros Hok Hx Ho. apply set_crun_ok; [done|]. intros t [Ht|Ht]%elem_of_union.
  - by apply (co_run _ _ _ Hok).
  - apply elem_of_singleton in Ht as ->. split; [apply not_elem_of_nil|]. split; [|done].
    intros Hl. by apply (law_self _ _ _ (co_mutex _ _ _ Hok) Hl).
Qed.

Lemma signal_all_refines k lm lc r t :
  cond_ok k lm lc -> crefines (CSignalAll t r) k lm lc.
Proof.
  intros Hok. destruct (c_suspended t k) eqn:Es.
  { eapply same_refines; [done|cbn; unfold cond_signal_all; by rewrite Es|].
    eapply cs_suspended; [right; left; eauto|exact Es]. }
  destruct (csq k) as [y|] eqn:Eq.
  2: { eapply same_refines; [done|cbn; unfold cond_signal_all; by rewrite Es, Eq|].
       apply (csq_head k lm lc Hok) in Eq as ->. eapply cs_signal_none. right. eauto. }
  destruct (any_waiting_ok is_again (cqueue k) lc (co_queue _ _ _ Hok)) as (b & Ea & Hb). destruct b.
  { destruct (proj1 Hb eq_refl) as (x & n & Hx & Hn & Eg).
    eapply (quiet_refines k lm lc _ (set_state (add_flag cf_again)) t); try done.
    - cbn [cexec]. unfold cond_signal_all. by rewrite Es, Eq, Ea.
    - eapply cs_all_restart; [exact Hx|]. unfold has_again. cbn in Hn. by rewrite Hn. }
  assert (Hna : no_again (cm_threads (cmx k)) lc).
  { intros x n Hx Hn. destruct (again n) eqn:E; [|done]. destruct (proj2 Hb); [|done]. eauto. }
  set (k1 := mk_cstate (cmx k) None (csaved k) (crun k)).
  pose proof (seg_length _ _ _ (co_queue _ _ _ Hok)) as Hlen. cbn [cqueue threads] in Hlen.
  destruct (own_loop_ok (S (size (cm_threads (cmx k)))) r (csq k) None k1 lm lc)
    as (k2 & res & ws & lm' & aw & E & Hp & Hg & El & Hok2 & Hs & E1 & E2 & E3).
  { by destruct k. } { done. } { lia. } { by intros []. }
  cbn [k1 cmx csaved crun] in Hp, Hg, Hs, E2, E3. apply (cond_ok_eta _ _ E1) in Hok2.
  assert (Hst : cstep (cm_threads (cmx k)) (cm_protocol (cmx k)) (cm_recursive (cmx k))
    (CSignalAll t r) (cabs k lm lc) (Returned CELL_OK) aw (cabs k2 lm' [])).
  { unfold cabs. rewrite E2. eapply cs_all; [exact Hp| |exact Hg].
    intros x Hx. destruct (seg_dom _ _ _ _ (co_queue _ _ _ Hok) Hx) as [n Hn].
    cbn in Hn. unfold has_again. rewrite Hn. exact (Hna x n Hx Hn). }
  unfold crefines. cbn [cexec]. unfold cond_signal_all. rewrite Es, Eq, Ea. fold k1.
  rewrite <- Eq, E. cbn in El. destruct res as [x|]; cbn in El; subst aw.
  2: { exists lm', []. done. }
  exists lm', []. split; [|done].
  destruct (give_all_awake _ _ _ _ _ x Hg ltac:(by left)) as (Ef & _ & Hx & w & Eh).
  assert (Hxk : is_Some (cm_threads (cmx k) !! x)).
  { eapply seg_dom; [exact (co_queue _ _ _ Hok)|]. apply (picks_elem _ _ _ _ _ x Hp). by left. }
  apply awake_ok; [done|by eapply same_ids_some|].
  unfold cm_abs in Eh. destruct (cm_owner (cmx k2) =? 0); [done|]. injection Eh as -> _ _.
  symmetry. by apply cid_same.
Qed.

(** *** sys_cond_wait *)

(** The invariant after a region over a store with the same ids. *)
Lemma cond_ok_update k lm lc k' lm' lc' :
  cond_ok k lm lc -> cm_ok (cmx k') lm' -> waits (cqueue k') lc' ->
  same_ids (cm_threads (cmx k)) (cm_threads (cmx k')) ->
  (forall t, t ∈ lc' -> (t ∉ lm') /\ cid t k <> cm_owner (cmx k') /\ is_Some (csaved k' !! t)) ->
  (forall t c, csaved k' !! t = Some c ->
     0 <= c < 2 ^ 32 /\ is_Some (cm_threads (cmx k) !! t)
     /\ (t ∈ lc' \/ t ∈ lm' \/ cm_owner (cmx k') = cid t k)) ->
  (forall t, t ∈ crun k' -> (t ∉ lc') /\ (t ∉ lm') /\ is_Some (cm_threads (cmx k) !! t)) ->
  cond_ok k' lm' lc'.
Proof.
  intros Hok Hm Hw Hs Hlc Hsv Hr. split; try done.
  - intros t Ht. by apply Hlc.
  - intros t Ht. rewrite (cid_same _ _ _ Hs). by apply Hlc.
  - intros t Ht. by apply Hlc.
  - intros t c Hc. destruct (Hsv t c Hc) as (? & ? & ?). rewrite (cid_same _ _ _ Hs).
    split; [done|]. split; [by eapply same_ids_some|done].
  - intros t Ht. destruct (Hr t Ht) as (? & ? & ?). do 2 (split; [done|]). by eapply same_ids_some.
Qed.

Lemma owner_not_waiting k lm lc t :
  cond_ok k lm lc -> cm_owner (cmx k) = cid t k -> (t ∉ lc) /\ (t ∉ lm).
Proof.
  intros Hok Ho. split; intros Ht.
  - by apply (co_owner _ _ _ Hok t Ht).
  - by apply (law_self _ _ _ (co_mutex _ _ _ Hok) Ht).
Qed.

(** The end of the wait by the owner [t]. *)
Lemma finish_ok k lm lc t c :
  cond_ok k lm lc -> csaved k !! t = Some c -> cm_owner (cmx k) = cid t k ->
  exists k' r, cond_finish t k = (k', r) /\ wait_end r
    /\ (gpr3 <$> cm_threads (cmx k) !! t = Some (error_value CELL_ETIMEDOUT) ->
         r = Returned CELL_ETIMEDOUT)
    /\ cond_ok k' lm lc /\ same_ids (cm_threads (cmx k)) (cm_threads (cmx k'))
    /\ cabs k lm lc = mk_acond (AHeld (cid t k) (cm_count (cmx k)) lm) lc (csaved k)
    /\ cabs k' lm lc = mk_acond (AHeld (cid t k) c lm) lc (delete t (csaved k)).
Proof.
  intros Hok Hc Ho. destruct (co_saved _ _ _ Hok t c Hc) as (Hr & [n Hn] & _).
  pose proof (cid_nonzero k lm lc t Hok ltac:(eauto)) as Hid.
  destruct (owner_not_waiting k lm lc t Hok Ho) as [Hlc Hlm].
  destruct (law_set_fields (cmx k) c) as (F1 & F2 & F3 & F4).
  assert (Eid : cid t k = th_id n) by (unfold cid, id_of; by rewrite Hn).
  unfold cond_finish. rewrite Hc, Hn, Ho, Eid, Z.eqb_refl.
  eexists _, _. split; [reflexivity|].
  split; [unfold wait_end; case_match; auto|].
  split. { cbn. intros [= ->]. done. }
  split; [|split; [cbn; by rewrite F1|]].
  - eapply cond_ok_update; [exact Hok|..]; cbn [cmx csaved crun]; rewrite ?F1, ?F2; try done.
    + apply law_set_count; [apply Hok|congruence|done].
    + unfold cqueue. cbn. rewrite F1. apply Hok.
    + intros x Hx. split; [by apply Hok|]. split; [by apply Hok|].
      rewrite lookup_delete_ne by (by intros ->). by apply Hok.
    + intros x d [? Hx]%lookup_delete_Some. by apply Hok.
    + intros x [Hx|Hx]%elem_of_union; [by apply Hok|].
      apply elem_of_singleton in Hx as ->. eauto.
  - unfold cabs. cbn [cmx csaved]. rewrite !cm_abs_held by congruence. by rewrite F2, F3, Ho, Eid.
Qed.

Lemma finish_refines k lm lc e t c k0 :
  e = CSignaled t \/ e = CStopped t \/ (exists r, e = CTimedOut t r) ->
  cond_ok k lm lc -> csaved k !! t = Some c -> cm_owner (cmx k) = cid t k ->
  same_ids (cm_threads (cmx k0)) (cm_threads (cmx k)) -> cabs k0 lm lc = cabs k lm lc ->
  cexec e k0 = (cond_finish t k, []) -> crefines e k0 lm lc.
Proof.
  intros He Hok Hc Ho Hs Ea E.
  destruct (finish_ok k lm lc t c Hok Hc Ho) as (k' & r & Ef & Hr & _ & Hok' & Hs' & A1 & A2).
  unfold crefines. rewrite E, Ef. exists lm, lc. split; [done|]. split; [by etransitivity|].
  rewrite Ea, A1, A2. rewrite (cid_same _ _ _ Hs). by eapply cs_finish.
Qed.

(** A running thread inside sys_cond_wait owns the mutex. *)
Lemma running_owner k lm lc t c :
  cond_ok k lm lc -> t ∈ crun k -> csaved k !! t = Some c -> cm_owner (cmx k) = cid t k.
Proof.
  intros Hok Ht Hc. destruct (co_saved _ _ _ Hok t c Hc) as (_ & _ & Hl).
  destruct (co_run _ _ _ Hok t Ht) as (? & ? & _). tauto.
Qed.

Lemma c_thread_same k f t :
  (forall n, th_id (f n) = th_id n) ->
  same_ids (cm_threads (cmx k)) (cm_threads (cmx (c_thread f t k)))
  /\ cm_owner (cmx (c_thread f t k)) = cm_owner (cmx k)
  /\ (forall lm lc, cabs (c_thread f t k) lm lc = cabs k lm lc).
Proof.
  intros Hi. unfold c_thread. cbn [set_cmx cmx].
  destruct (law_put_fields (cmx k) (alter f t (cm_threads (cmx k))) (cm_tag (cmx k)))
    as (F1 & F2 & F3 & F4 & F5 & F6).
  rewrite F1. split; [by apply same_ids_alter|]. split; [done|].
  intros lm lc. unfold cabs, cm_abs. cbn. by rewrite F3, F4.
Qed.

Lemma csignaled_refines k lm lc t :
  cond_ok k lm lc -> t ∈ crun k -> is_Some (csaved k !! t) -> crefines (CSignaled t) k lm lc.
Proof.
  intros Hok Ht [c Hc].
  destruct (c_thread_same k (set_state (del_flag cf_signal)) t ltac:(done)) as (S1 & S2 & S3).
  eapply (finish_refines _ lm lc _ t c k); [by left| | | |exact S1|by rewrite S3|reflexivity].
  - by apply c_thread_ok.
  - done.
  - rewrite S2, (cid_same _ _ _ S1). by eapply running_owner.
Qed.

Lemma signaled_count k lm lc t c :
  cond_ok k lm lc -> t ∈ crun k -> csaved k !! t = Some c ->
  cm_count (cmx (fst (cond_signaled t k))) = c.
Proof.
  intros Hok Ht Hc.
  destruct (c_thread_same k (set_state (del_flag cf_signal)) t ltac:(done)) as (S1 & S2 & _).
  destruct (finish_ok (c_thread (set_state (del_flag cf_signal)) t k) lm lc t c)
    as (k' & r & E & _ & _ & _ & _ & _ & A).
  { by apply c_thread_ok. } { done. }
  { rewrite S2, (cid_same _ _ _ S1). by eapply running_owner. }
  unfold cond_signaled. rewrite E. cbn [fst]. apply (f_equal ac_lock) in A. cbn in A.
  unfold cm_abs in A. case_match; [done|]. by injection A.
Qed.

Lemma cstopped_refines k lm lc t :
  cond_ok k lm lc -> is_Some (csaved k !! t) -> crefines (CStopped t) k lm lc.
Proof.
  intros Hok [c Hc]. destruct (law_waits _ _ (co_mutex _ _ _ Hok)) as [Hw _].
  pose proof (any_waiting_thread (cqueue k) lc t (co_queue _ _ _ Hok)) as E1.
  pose proof (any_waiting_thread (cm_queue (cmx k)) lm t Hw) as E2.
  destruct (co_saved _ _ _ Hok t c Hc) as (_ & _ & Hl).
  destruct (decide (t ∈ lc \/ t ∈ lm)) as [Hin|Hin].
  - eapply (quiet_refines k lm lc _ (set_state (add_flag cf_again)) t); try done.
    + cbn [cexec]. unfold cond_stopped. rewrite E1, E2.
      destruct (bool_decide_reflect (t ∈ lc)), (bool_decide_reflect (t ∈ lm)); tauto || done.
    + apply cs_stopped. cbn. rewrite cm_abs_waiters by apply Hok. done.
  - eapply (finish_refines k lm lc _ t c k); try done; [tauto|tauto|].
    cbn [cexec]. unfold cond_stopped. rewrite E1, E2.
    rewrite !bool_decide_false by tauto. done.
Qed.

Lemma ctimed_out_refines k lm lc t r :
  cond_ok k lm lc -> is_Some (csaved k !! t) -> crefines (CTimedOut t r) k lm lc.
Proof.
  intros Hok [c Hc]. destruct (unqueue_ok true (cqueue k) lc t (co_queue _ _ _ Hok)) as [U1 U2].
  destruct (co_saved _ _ _ Hok t c Hc) as (_ & Hk & Hl). destruct (decide (t ∈ lc)) as [Hin|Hin].
  2: { destruct (decide (cm_owner (cmx k) = cid t k)) as [Ho|Ho].
       - eapply (finish_refines k lm lc _ t c k); try done; [eauto|].
         cbn [cexec]. unfold cond_timed_out. by rewrite (U1 Hin), Ho, Z.eqb_refl.
       - eapply same_refines; [done| |].
         + cbn [cexec]. unfold cond_timed_out. rewrite (U1 Hin).
           by destruct (Z.eqb_spec (cm_owner (cmx k)) (cid t k)).
         + apply cs_timeout_late. cbn. rewrite cm_abs_waiters by apply Hok. tauto. }
  destruct (U2 Hin) as (q & E & R).
  pose proof (leaving_data _ _ _ _ _ (set_gpr3 CELL_ETIMEDOUT) t ltac:(done) ltac:(done)
    (leaving_removed k lm lc t q Hok Hin R)) as Hlv.
  set (k1 := c_thread (set_gpr3 CELL_ETIMEDOUT) t (set_cqueue q k)) in Hlv.
  pose proof (moved_give k lm lc t r k1 Hok Hin Hlv) as Hm.
  unfold crefines. cbn [cexec]. unfold cond_timed_out. rewrite E. fold k1.
  destruct (cm_try_own r t (cid t k1) (cmx k1)) as [m got].
  destruct Hm as (lm' & Hok' & Hg & Hs & _ & Hgp & Hgot & Hnz).
  pose proof (lv_saved _ _ _ _ _ Hlv) as Esv. destruct got.
  - destruct Hgot as (Ef & Ho & ->).
    assert (Ho' : cm_owner (cmx (set_cmx m k1)) = cid t (set_cmx m k1)).
    { by rewrite (cid_same k (set_cmx m k1) t Hs). }
    assert (Hc' : csaved (set_cmx m k1) !! t = Some c) by (change (csaved k1 !! t = Some c); by rewrite Esv).
    destruct (finish_ok _ [] _ t c Hok' Hc' Ho')
      as (k' & rr & -> & _ & Hrr & Hok2 & Hs2 & _ & A2).
    exists [], (without t lc). split; [done|]. split; [by etransitivity|].
    rewrite A2, Hrr.
    + unfold cabs. rewrite (cm_abs_free _ _ Ef), (cid_same k (set_cmx m k1) t Hs).
      change (csaved (set_cmx m k1)) with (csaved k1). rewrite Esv. by apply cs_timeout.
    + cbn [set_cmx cmx]. rewrite Hgp. unfold k1, c_thread. cbn [set_cmx cmx].
      rewrite (proj1 (law_put_fields _ _ _)), lookup_alter_eq.
      destruct (same_ids_some _ _ _ (lv_ids _ _ _ _ _ (leaving_removed k lm lc t q Hok Hin R)) Hk)
        as [n ->]. done.
  - destruct Hgot as (Ef & ->). exists (t :: lm), (without t lc). split; [done|]. split; [done|].
    unfold cabs. change (csaved (set_cmx m k1)) with (csaved k1). rewrite Esv.
    rewrite (cm_abs_held (cmx k)) in * by done. cbn [give] in Hg. apply (f_equal fst) in Hg.
    cbn [fst] in Hg. cbn [set_cmx cmx]. rewrite <- Hg. by apply cs_timeout_queue.
Qed.

(** The waiter is registered and the recursion count taken. *)
Lemma register_ok k lm lc t tag :
  cond_ok k lm lc -> t ∉ lc -> t ∉ lm -> is_Some (cm_threads (cmx k) !! t) ->
  cm_owner (cmx k) <> 0 ->
  let q := emplace (cqueue k) t tag in
  let m := cm_set_count 0 (cm_put (threads q) tag (cmx k)) in
  cm_ok m lm /\ cm_threads m = threads q /\ cm_owner m = cm_owner (cmx k) /\ cm_count m = 0
  /\ cm_protocol m = cm_protocol (cmx k) /\ waits q (t :: lc)
  /\ same_ids (cm_threads (cmx k)) (threads q)
  /\ (forall y, y <> t -> threads q !! y = cm_threads (cmx k) !! y).
Proof.
  intros Hok Hlc Hlm [n Hn] Ho q m. pose proof (co_mutex _ _ _ Hok) as Hm.
  destruct (law_waits _ _ Hm) as [Hw Et].
  destruct (emplace_ok (cqueue k) lc t n tag (co_queue _ _ _ Hok) Hlc Hn) as (E1 & E2 & E3).
  fold q in E1, E2, E3. cbn [cqueue threads first] in E2, E3.
  destruct (law_put_fields (cmx k) (threads q) tag) as (F1 & F2 & F3 & F4 & F5 & F6).
  destruct (law_set_fields (cm_put (threads q) tag (cmx k)) 0) as (G1 & G2 & G3 & G4).
  assert (Hs : same_ids (cm_threads (cmx k)) (threads q)).
  { intros y. destruct (decide (y = t)) as [->|Hne]; [|by rewrite (E3 y Hne)].
    rewrite E2, Hn. cbn. unfold stamp. by destruct (preserve_bit _). }
  split.
  { apply law_set_count; [|by rewrite F3|lia]. apply law_put; [done|done|].
    eapply seg_frame; [|exact Hw]. intros y Hy. rewrite Et. apply E3. by intros ->. }
  unfold m. by rewrite G1, G2, G3, G4, F1, F3, F5.
Qed.

(** Thread [t] waits and the mutex goes to nobody or to a waiter. *)
Lemma wait_ok k lm lc t c m q lm' rn :
  cond_ok k lm lc -> t ∈ crun k -> cm_owner (cmx k) = cid t k -> 0 <= c < 2 ^ 32 ->
  cm_ok m lm' -> seg (cm_threads m) q (t :: lc) ->
  same_ids (cm_threads (cmx k)) (cm_threads m) ->
  (lm = [] /\ lm' = [] /\ cm_owner m = 0 /\ rn = crun k ∖ {[t]}
   \/ exists x, x ∈ lm /\ lm' = without x lm /\ cm_owner m = cid x k
        /\ rn = (crun k ∖ {[t]}) ∪ {[x]}) ->
  cond_ok (mk_cstate m q (<[t := c]> (csaved k)) rn) lm' (t :: lc).
Proof.
  intros Hok Ht Ho Hr Hm Hq Hs Hcase. pose proof (co_mutex _ _ _ Hok) as Hmx.
  destruct (co_run _ _ _ Hok t Ht) as (Hlc & Hlm & Hk).
  assert (Hinj : forall y, is_Some (cm_threads (cmx k) !! y) -> cid y k = cid t k -> y = t).
  { intros y Hy E. by eapply law_inj. }
  assert (Hdis : forall y, y ∈ t :: lc -> y ∉ lm).
  { intros y [->|Hy]%elem_of_cons; [done|]. by apply Hok. }
  assert (Hdom : forall y, y ∈ t :: lc -> is_Some (cm_threads (cmx k) !! y)).
  { intros y [->|Hy]%elem_of_cons; [done|]. exact (seg_dom _ _ _ _ (co_queue _ _ _ Hok) Hy). }
  assert (Hlm' : forall y, y ∈ lm' -> y ∈ lm).
  { destruct Hcase as [(-> & -> & _)|(x & _ & -> & _)]; [done|].
    by intros y [? _]%without_elem_of. }
  eapply cond_ok_update; [exact Hok|done|done|done|..]; cbn [cmx csaved crun].
  - intros y Hy. split; [intros Hl; by apply (Hdis y Hy), Hlm'|]. split.
    + destruct Hcase as [(_ & _ & -> & _)|(x & Hx & _ & -> & _)].
      * eapply cid_nonzero; [exact Hok|by apply Hdom].
      * intros E. destruct (law_waits _ _ Hmx) as [Hw Et].
        assert (y = x) as ->.
        { eapply law_inj; [exact Hmx|by apply Hdom| |exact E]. rewrite <- Et.
          exact (seg_dom _ _ _ _ Hw Hx). }
        by apply (Hdis x).
    + destruct (decide (y = t)) as [->|Hne]; [by rewrite lookup_insert_eq|].
      rewrite lookup_insert_ne by done. apply elem_of_cons in Hy as [?|Hy]; [done|]. by apply Hok.
  - intros y d Hy. destruct (decide (y = t)) as [->|Hne].
    { rewrite lookup_insert_eq in Hy. injection Hy as <-. split; [done|]. split; [done|]. left. by left. }
    rewrite lookup_insert_ne in Hy by done.
    destruct (co_saved _ _ _ Hok y d Hy) as (? & Hky & Hl). do 2 (split; [done|]).
    destruct Hl as [Hl|[Hl|Hl]]; [left; by right| |].
    + destruct Hcase as [(-> & _)|(x & Hx & -> & -> & _)]; [by apply not_elem_of_nil in Hl|].
      destruct (decide (y = x)) as [->|]; [by right; right|]. right; left. by apply without_elem_of.
    + exfalso. apply Hne, Hinj; congruence.
  - intros y Hy.
    assert (Hrun : y ∈ crun k ∖ {[t]} -> (y ∉ t :: lc) /\ (y ∉ lm') /\ is_Some (cm_threads (cmx k) !! y)).
    { intros [Hy1 Hy2]%elem_of_difference. destruct (co_run _ _ _ Hok y Hy1) as (? & ? & ?).
      split; [set_solver|]. split; [auto|done]. }
    destruct Hcase as [(_ & _ & _ & ->)|(x & Hx & -> & _ & ->)]; [auto|].
    apply elem_of_union in Hy as [Hy|Hy]; [auto|]. apply elem_of_singleton in Hy as ->.
    split; [intros Hy; by apply (Hdis x)|]. split; [by intros [_ []]%without_elem_of|].
    destruct (law_waits _ _ Hmx) as [Hw Et]. rewrite <- Et. exact (seg_dom _ _ _ _ Hw Hx).
Qed.

(** The attempt to wait is undone: the waiter leaves the queue again. *)
Lemma unwait_ok k lm lc t tag m q :
  cond_ok k lm lc -> t ∈ crun k -> cm_owner (cmx k) = cid t k ->
  q = emplace (cqueue k) t tag -> m = cm_set_count 0 (cm_put (threads q) tag (cmx k)) ->
  exists q2, unqueue true (mk_queue (first q) (cm_threads m)) t = Some (Some t, q2)
    /\ cond_ok (set_cqueue q2 (mk_cstate m (first q) (csaved k) (crun k))) lm lc
    /\ same_ids (cm_threads (cmx k)) (threads q2).
Proof.
  intros Hok Ht Ho Eq Em. destruct (co_run _ _ _ Hok t Ht) as (Hlc & Hlm & Hk).
  assert (Hnz : cm_owner (cmx k) <> 0) by (rewrite Ho; by eapply cid_nonzero).
  destruct (register_ok k lm lc t tag Hok Hlc Hlm Hk Hnz) as (R1 & R2 & R3 & R4 & R5 & R6 & R7 & R8).
  rewrite <- Eq in R1, R2, R3, R4, R5, R6, R7, R8. rewrite <- Em in R1, R2, R3, R4, R5.
  assert (Hw : waits (mk_queue (first q) (cm_threads m)) (t :: lc)) by (rewrite R2; by destruct q).
  destruct (unqueue_ok true _ _ t Hw) as [_ U]. destruct (U ltac:(by left)) as (q2 & E & [U1 U2 _]).
  exists q2. split; [done|]. cbn [threads] in U2.
  assert (Ew : without t (t :: lc) = lc).
  { unfold without. rewrite filter_cons_False by tauto. by apply without_notin. }
  rewrite Ew in U1.
  assert (Hs : same_ids (cm_threads (cmx k)) (threads q2)).
  { etransitivity; [exact R7|]. rewrite <- R2. by eapply same_ids_relinked. }
  destruct (law_put_fields m (threads q2) (cm_tag m)) as (F1 & F2 & F3 & F4 & F5 & F6).
  destruct (law_waits _ _ R1) as [Hwm Et]. split; [|done].
  eapply cond_ok_update; [exact Hok|..]; unfold set_cqueue, cqueue; cbn [cmx csq csaved crun];
    rewrite ?F1, ?F3, ?R3; try done.
  - apply law_put; [done|by eapply same_ids_relinked|]. eapply seg_frame; [|exact Hwm].
    intros y Hy. rewrite Et. apply U2. intros [->|Hl]%elem_of_cons; [done|].
    by apply (co_disj _ _ _ Hok y).
  - intros y Hy. split; [by apply Hok|]. split; by apply Hok.
  - apply Hok.
  - apply Hok.
Qed.

(** The state in which sys_cond_wait passes the mutex on: [q] is the queue with
    the new waiter, [m] the mutex with the count taken. *)
Record registered k (lm lc : list tid) (t : tid) m (q : queue) : Prop := {
  rg_ok : cond_ok (c_thread (set_gpr3 CELL_OK) t k) lm lc;
  rg_run : t ∈ crun k;
  rg_self : cm_owner (cmx k) = cid t k;
  rg_mutex : cm_ok m lm;
  rg_threads : cm_threads m = threads q;
  rg_owner : cm_owner m = cm_owner (cmx k);
  rg_count : cm_count m = 0;
  rg_protocol : cm_protocol m = cm_protocol (cmx k);
  rg_queue : waits q (t :: lc);
  rg_ids : same_ids (cm_threads (cmx k)) (threads q);
  rg_frame : forall y, y <> t -> threads q !! y = cm_threads (cmx k) !! y;
  rg_not : t ∉ lm;
  rg_abs : cabs k lm lc = mk_acond (AHeld (cid t k) (cm_count (cmx k)) lm) lc (csaved k);
  rg_undo : exists q2, unqueue true (mk_queue (first q) (cm_threads m)) t = Some (Some t, q2)
    /\ cond_ok (set_cqueue q2 (mk_cstate m (first q) (csaved k) (crun k))) lm lc
    /\ same_ids (cm_threads (cmx k)) (threads q2);
  rg_exec : cond_wait t k =
    let k2 := mk_cstate m (first q) (csaved k) (crun k) in
    match cm_reown m with
    | None => (k2, Fatal, [])
    | Some (m', None) =>
        (mk_cstate m' (first q) (<[t := cm_count (cmx k)]> (csaved k)) (crun k ∖ {[t]}), Blocked, [])
    | Some (m', Some x) =>
        let k3 := mk_cstate m' (first q) (csaved k) (crun k) in
        match cm_threads m' !! x with
        | None => (k3, Fatal, [])
        | Some n =>
            if again n then
              match unqueue true (mk_queue (first q) (cm_threads m')) t with
              | Some (Some _, q2) =>
                  (c_thread (set_state (add_flag cf_again)) t (set_cqueue q2 k3), Again, [])
              | _ => (k3, Fatal, [])
              end
            else (mk_cstate m' (first q) (<[t := cm_count (cmx k)]> (csaved k))
                    ((crun k ∖ {[t]}) ∪ {[x]}), Blocked, [x])
        end
    end
}.

Lemma registered_wait k lm lc t :
  cond_ok k lm lc -> t ∈ crun k -> cm_owner (cmx k) = cid t k ->
  exists m q, registered k lm lc t m q.
Proof.
  intros Hok Ht Ho. set (k0 := c_thread (set_gpr3 CELL_OK) t k).
  destruct (c_thread_same k (set_gpr3 CELL_OK) t ltac:(done)) as (S1 & S2 & S3).
  fold k0 in S1, S2, S3.
  assert (Hok0 : cond_ok k0 lm lc) by (by apply c_thread_ok).
  assert (Ho0 : cm_owner (cmx k0) = cid t k0) by (by rewrite S2, (cid_same _ _ _ S1)).
  destruct (co_run _ _ _ Hok0 t Ht) as (Hlc & Hlm & Hk).
  assert (Hnz : cm_owner (cmx k0) <> 0) by (rewrite Ho0; by eapply cid_nonzero).
  set (tag := wrap 64 (cm_tag (cmx k0) + 1)).
  destruct (register_ok k0 lm lc t tag Hok0 Hlc Hlm Hk Hnz) as (R1 & R2 & R3 & R4 & R5 & R6 & R7 & R8).
  destruct (unwait_ok k0 lm lc t tag _ _ Hok0 Ht Ho0 eq_refl eq_refl) as (q2 & U1 & U2 & U3).
  set (q := emplace (cqueue k0) t tag) in *.
  destruct (law_put_fields (cmx k) (alter (set_gpr3 CELL_OK) t (cm_threads (cmx k))) (cm_tag (cmx k)))
    as (F1 & _ & _ & F4 & F5 & _).
  exists (cm_set_count 0 (cm_put (threads q) tag (cmx k0))), q. split; try done.
  - by rewrite R3.
  - by rewrite R5.
  - by etransitivity.
  - intros y Hy. rewrite (R8 y Hy). unfold k0, c_thread. cbn [set_cmx cmx].
    by rewrite F1, lookup_alter_ne.
  - unfold cabs. rewrite cm_abs_held by congruence. by rewrite Ho.
  - exists q2. split; [done|]. split; [done|]. by etransitivity.
  - unfold cond_wait. fold k0. rewrite Ho0, Z.eqb_refl.
    cbn [negb cmx csq csaved crun set_cmx]. fold tag. fold q.
    replace (cm_count (cm_put (threads q) tag (cmx k0))) with (cm_count (cmx k)); [done|].
    destruct (law_put_fields (cmx k0) (threads q) tag) as (_ & _ & _ & -> & _). by rewrite <- F4.
Qed.

(** Nobody waits for the mutex: it becomes free. *)
Lemma wait_free_refines k lc t m q :
  cond_ok k [] lc -> registered k [] lc t m q -> crefines (CWait t) k [] lc.
Proof.
  intros Hok Rg. assert (Hnz : cm_owner m <> 0).
  { rewrite (rg_owner _ _ _ _ _ _ Rg), (rg_self _ _ _ _ _ _ Rg).
    by eapply cid_nonzero, (co_run _ _ _ Hok), Rg. }
  destruct (law_reown m [] (rg_mutex _ _ _ _ _ _ Rg) Hnz (rg_count _ _ _ _ _ _ Rg)) as [L _].
  destruct (L eq_refl) as (m' & E & M1 & M2 & M3 & _).
  unfold crefines. cbn [cexec]. rewrite (rg_exec _ _ _ _ _ _ Rg), (rg_abs _ _ _ _ _ _ Rg), E.
  assert (Hs : same_ids (cm_threads (cmx k)) (cm_threads m')).
  { rewrite M2, (rg_threads _ _ _ _ _ _ Rg). apply Rg. }
  exists [], (t :: lc). split; [|split; [done|]].
  - apply (wait_ok k [] lc t (cm_count (cmx k)) m'); try done; try apply Rg.
    + apply (law_range _ _ (co_mutex _ _ _ Hok)).
    + rewrite M2, (rg_threads _ _ _ _ _ _ Rg). apply Rg.
    + by left.
  - unfold cabs. cbn [cmx csaved]. rewrite (cm_abs_free _ _ M1). apply cs_wait.
Qed.

(** The mutex goes to a waiter, or the waiter is being restarted. *)
Lemma wait_pass_refines k lm lc t m q :
  cond_ok k lm lc -> lm <> [] -> registered k lm lc t m q -> crefines (CWait t) k lm lc.
Proof.
  intros Hok Hl Rg. assert (Hnz : cm_owner m <> 0).
  { rewrite (rg_owner _ _ _ _ _ _ Rg), (rg_self _ _ _ _ _ _ Rg).
    by eapply cid_nonzero, (co_run _ _ _ Hok), Rg. }
  destruct (law_reown m lm (rg_mutex _ _ _ _ _ _ Rg) Hnz (rg_count _ _ _ _ _ _ Rg)) as [_ L].
  destruct (L Hl) as (x & n & m' & E & Hsel & Hn & Hya & Hna).
  pose proof Rg as [G1 G2 G3 G4 G5 G6 G7 G8 G9 G10 G11 G12 G13 (q2 & U1 & U2 & U3) G15].
  unfold crefines. cbn [cexec]. rewrite G15, G13, E.
  pose proof (selects_elem _ _ _ _ Hsel) as Hx. assert (Hxt : x <> t) by (by intros ->).
  pose proof Hn as Hxm. rewrite G5, G8 in Hsel. rewrite G5, (G11 x Hxt) in Hn.
  assert (Hsel' : selects (cm_threads (cmx k)) (cm_protocol (cmx k)) lm x).
  { eapply selects_agree; [|exact Hsel]. intros y Hy. rewrite G11; [done|]. by intros ->. }
  pose proof (has_again_lookup _ _ _ Hn) as Hg. destruct (again n) eqn:Ea.
  - rewrite (Hya eq_refl). cbn zeta. rewrite Hxm, Ea, U1.
    exists lm, lc. split; [by apply c_thread_ok|].
    destruct (c_thread_same (set_cqueue q2 (mk_cstate m (first q) (csaved k) (crun k)))
      (set_state (add_flag cf_again)) t ltac:(done)) as (T1 & T2 & T3).
    destruct (law_put_fields m (threads q2) (cm_tag m)) as (F1 & F2 & F3 & F4 & F5 & F6).
    split; [etransitivity; [|exact T1]; cbn [set_cqueue cmx]; by rewrite F1|].
    rewrite T3. unfold cabs. cbn [set_cqueue cmx csaved].
    rewrite cm_abs_held by congruence. rewrite F3, F4, G6, G7, G3. by eapply cs_wait_restart.
  - destruct (Hna eq_refl) as (M1 & M2 & M3 & M4 & M5 & n' & Hn' & Ea').
    cbn zeta. rewrite Hn', Ea'. exists (without x lm), (t :: lc).
    assert (Hs : same_ids (cm_threads (cmx k)) (cm_threads m')).
    { etransitivity; [exact G10|]. rewrite <- G5. by eapply same_ids_relinked. }
    assert (Eid : th_id n = id_of (cm_threads (cmx k)) x) by (unfold id_of; by rewrite Hn).
    split; [|split; [done|]].
    + apply (wait_ok k lm lc t (cm_count (cmx k)) m'); try done.
      * apply (law_range _ _ (co_mutex _ _ _ Hok)).
      * eapply seg_frame; [|unfold waits in G9; rewrite <- G5 in G9; exact G9]. intros y Hy.
        apply M3. intros Hyl. apply elem_of_cons in Hy as [->|Hy]; [done|].
        by apply (co_disj _ _ _ Hok y).
      * right. exists x. by rewrite M1, Eid.
    + unfold cabs. cbn [cmx csaved].
      rewrite cm_abs_held by (rewrite M1; by eapply (law_ids _ _ _ _ (co_mutex _ _ _ Hok))).
      rewrite M1, M4, Eid. by apply cs_wait_pass.
Qed.

Lemma wait_refines k lm lc t :
  cond_ok k lm lc -> t ∈ crun k -> crefines (CWait t) k lm lc.
Proof.
  intros Hok Ht. destruct (decide (cm_owner (cmx k) = cid t k)) as [Ho|Ho].
  - destruct (registered_wait k lm lc t Hok Ht Ho) as (m & q & Rg).
    destruct (decide (lm = [])) as [->|Hl]; [by eapply wait_free_refines|by eapply wait_pass_refines].
  - destruct (c_thread_same k (set_gpr3 CELL_OK) t ltac:(done)) as (S1 & S2 & _).
    eapply (quiet_refines k lm lc _ (set_gpr3 CELL_OK) t); try done.
    + cbn [cexec]. unfold cond_wait. rewrite S2, (cid_same _ _ _ S1).
      by destruct (Z.eqb_spec (cm_owner (cmx k)) (cid t k)).
    + apply cs_wait_perm. intros d w E. cbn in E. unfold cm_abs in E. case_match; [done|].
      injection E as E _ _. done.
Qed.

(** *** The regions of the mutex syscalls *)

Definition holder (a : alock) : option Z :=
  match a with AFree => None | AHeld o _ _ => Some o end.

(** How a step of the lock by thread [t] moves the other threads. *)
Record lock_move (h : store) (e : mevent) (a : alock) (r : reply) (aw : ptr) (a' : alock)
  : Prop := {
  mv_enter : forall y, y ∈ waiters_of a' -> y ∈ waiters_of a \/ y = event_thread e /\ r = Blocked;
  mv_leave : forall y, y ∈ waiters_of a -> y <> event_thread e ->
    y ∈ waiters_of a' \/ holder a' = Some (id_of h y);
  mv_holder : forall o, holder a' = Some o ->
    holder a = Some o \/ o = id_of h (event_thread e)
    \/ exists x, x ∈ waiters_of a /\ o = id_of h x /\ aw = Some x;
  mv_keep : forall o, holder a = Some o -> o <> id_of h (event_thread e) -> holder a' = Some o;
  mv_awake : forall x, aw = Some x -> x ∈ waiters_of a /\ (x ∉ waiters_of a');
  mv_return : forall c, r = Returned c ->
    match e with
    | LockTimedOut t | LockStopped t => t ∉ waiters_of a'
    | _ => True
    end
}.

Lemma astep_move h p rec e a r aw a' : astep h p rec e a r aw a' -> lock_move h e a r aw a'.
Proof.
  destruct 1 as [t e He|t e i d w He|t e i w He|t e i d w He|t i a He|t i a He|
    t r' o d w He|t o d w He|t r a Hr|t r a Hr|t r a Hn Hr|t i a He|t i d w He|t i|
    t i w y n Hs Hn Hg|t i w y n Hs Hn Hg].
  all: try (destruct He as [->|[->|[? ->]]]).
  all: try (destruct He as [->| ->]).
  all: split; cbn [waiters_of holder event_thread]; try (intros; tauto || congruence || naive_solver).
  all: try (intros ? ?%without_elem_of; naive_solver).
  all: try (intros ? ? ?; left; by apply without_elem_of).
  all: try (intros ? ? [_ []]%without_elem_of; done).
  all: try (intros c ->; by destruct (decide (t ∈ waiters_of a)) in Hr).
  - intros y [->|?]%elem_of_cons; [by right|by left].
  - intros y ? _. left. by right.
  - intros z Hz _. destruct (decide (z = y)) as [->|]; [|left; by apply without_elem_of].
    right. unfold id_of. by rewrite Hn.
  - intros o [= <-]. right; right. exists y. split; [by eapply selects_elem|].
    unfold id_of. by rewrite Hn.
  - intros x [= <-]. split; [by eapply selects_elem|]. by intros [_ []]%without_elem_of.
Qed.

Lemma holder_abs m l o : holder (cm_abs m l) = Some o -> cm_owner m = o.
Proof. unfold cm_abs. case_match; [done|]. by intros [= <-]. Qed.

Lemma abs_holder m l : cm_owner m <> 0 -> holder (cm_abs m l) = Some (cm_owner m).
Proof. intros Hm. by rewrite cm_abs_held. Qed.

Lemma cmutex_refines k lm lc e :
  cond_ok k lm lc -> cenabled (CMutex e) k -> crefines (CMutex e) k lm lc.
Proof.
  intros Hok (Hsv & Hk & He). pose proof (co_mutex _ _ _ Hok) as Hm.
  set (t := event_thread e) in *.
  assert (Htlc : t ∉ lc).
  { intros Ht. destruct (co_wait _ _ _ Hok t Ht) as [? E]. congruence. }
  assert (Hrun : t ∈ crun k -> t ∉ lm) by (intros Ht; by apply (co_run _ _ _ Hok t Ht)).
  pose proof (law_exec (cmx k) lm e Hm Hk) as Hx.
  assert (Hpre : match e with
    | LockTry t _ | TryLock t _ | Unlock t _ => t ∉ lm
    | LockOwn t _ => (t ∉ lm) /\ cm_owner (cmx k) <> id_of (cm_threads (cmx k)) t
    | _ => True
    end) by (destruct e; subst t; cbn [event_thread] in *; try done; naive_solver).
  specialize (Hx Hpre). unfold crefines. cbn [cexec]. fold t.
  destruct (cm_exec e (cmx k)) as [[m' r] aw]. destruct Hx as (lm' & Hm' & Hs & Hfr & Hst).
  pose proof (astep_move _ _ _ _ _ _ _ _ Hst) as [V1 V2 V3 V4 V5 V6].
  rewrite (cm_abs_waiters (cmx k)) in V1, V2, V3, V5 by done.
  rewrite (cm_abs_waiters m') in V1, V2, V5, V6 by done.
  fold t in V1, V2, V3, V4. exists lm', lc. split; [|split; [done|]].
  2: { unfold cabs. cbn. by apply cs_mutex. }
  eapply cond_ok_update; [exact Hok|..]; cbn [set_crun set_cmx cmx csaved crun]; try done.
  - unfold cqueue. cbn. eapply seg_frame; [|exact (co_queue _ _ _ Hok)]. intros y Hy.
    apply Hfr; [by apply (co_disj _ _ _ Hok)|]. by intros ->.
  - intros y Hy. split; [|split; [|by apply Hok]].
    + intros [Hl|[-> _]]%V1; [|done]. by apply (co_disj _ _ _ Hok y).
    + intros E. pose proof (seg_dom _ _ _ _ (co_queue _ _ _ Hok) Hy) as Hky. cbn in Hky.
      assert (Hnz : cm_owner m' <> 0) by (rewrite <- E; by eapply cid_nonzero).
      destruct (V3 _ (abs_holder m' lm' Hnz)) as [Ho%holder_abs|[Ho|(x & Hx & Ho & _)]].
      * apply (co_owner _ _ _ Hok y Hy). congruence.
      * apply Htlc. replace t with y; [done|]. eapply law_inj; [exact Hm|done|done|].
        rewrite <- Ho. exact E.
      * destruct (law_waits _ _ Hm) as [Hw Et].
        assert (Hkx : is_Some (cm_threads (cmx k) !! x)) by (rewrite <- Et; exact (seg_dom _ _ _ _ Hw Hx)).
        apply (co_disj _ _ _ Hok y Hy). replace y with x; [done|].
        eapply law_inj; [exact Hm|done|done|]. rewrite <- Ho. by symmetry.
  - intros y c Hc. destruct (co_saved _ _ _ Hok y c Hc) as (? & Hky & Hl). do 2 (split; [done|]).
    assert (Hyt : y <> t) by (intros ->; congruence).
    destruct Hl as [Hl|[Hl|Hl]]; [by left| |].
    + destruct (V2 y Hl Hyt) as [?|Hh%holder_abs]; [by right; left|]. by right; right.
    + right; right.
      assert (Hnz : cm_owner (cmx k) <> 0) by (rewrite Hl; by eapply cid_nonzero).
      rewrite <- Hl. apply (holder_abs m' lm'). apply V4; [by apply abs_holder|].
      rewrite Hl. intros E. apply Hyt. eapply law_inj; [exact Hm|done|done|exact E].
  - assert (Hold : forall y, y ∈ crun k -> (y = t -> r <> Blocked) ->
      (y ∉ lc) /\ (y ∉ lm') /\ is_Some (cm_threads (cmx k) !! y)).
    { intros y Hy Hb. destruct (co_run _ _ _ Hok y Hy) as (? & ? & ?). split; [done|].
      split; [|done]. intros [?|[? ?]]%V1; [done|]. by apply Hb. }
    intros y Hy. unfold after_mutex in Hy. apply elem_of_union in Hy as [Hy|Hy].
    + destruct r as [c| | | |]; [|apply elem_of_difference in Hy as [? ?%not_elem_of_singleton]| | |];
        try (apply Hold; done).
      apply elem_of_union in Hy as [Hy|Hy]; [by apply Hold|]. apply elem_of_singleton in Hy as ->.
      split; [done|]. split; [|done]. specialize (V6 c eq_refl).
      intros Hl'. destruct (V1 t Hl') as [Hl|[_ ?]]; [|done].
      destruct e; subst t; cbn [event_thread] in *;
        solve [exact (V6 Hl') | exact (Hrun He Hl) | exact (Hrun (proj1 He) Hl)].
    + destruct aw as [x|]; cbn in Hy; [|set_solver].
      destruct (V5 x eq_refl) as [Hxl Hxl']. replace y with x by set_solver.
      split; [intros Hxc; by apply (co_disj _ _ _ Hok x)|]. split; [done|].
      destruct (law_waits _ _ Hm) as [Hw Et]. rewrite <- Et. exact (seg_dom _ _ _ _ Hw Hxl).
Qed.

Lemma cexec_refines k lm lc e :
  cond_ok k lm lc -> cenabled e k -> crefines e k lm lc.
Proof.
  intros Hok He. destruct e; cbn [cenabled] in He.
  - by apply cmutex_refines.
  - by apply signal_refines.
  - by apply signal_all_refines.
  - by apply signal_to_refines.
  - apply wait_refines; tauto.
  - apply csignaled_refines; tauto.
  - by apply ctimed_out_refines.
  - by apply cstopped_refines.
Qed.

(** ** Reachable states

    [ins x] is how many times thread [x] holds the mutex by its own syscalls:
    a wait for the condition variable leaves it as it is, and one that is
    interrupted by a restart leaves the mutex held once, whatever the depth
    was. *)
Definition caccount (e : cevent) (r : reply) (aw : list tid) (saved : gmap tid Z)
    (ins : tid -> Z) (x : tid) : Z :=
  match saved !! x with
  | Some _ => ins x
  | None =>
      match e, r with
      | CMutex e, _ => account e r (head aw) ins x
      | CWait t, Again => if bool_decide (x = t) then 1 else ins x
      | _, _ => ins x + b2z (bool_decide (x ∈ aw))
      end
  end.

Inductive creach (k0 : cstate) : cstate -> list tid -> list tid -> (tid -> Z) -> Prop :=
| creach_init : creach k0 k0 [] [] (fun _ => 0)
| creach_step k lm lc ins e k' r aw lm' lc' :
    creach k0 k lm lc ins -> cenabled e k -> cexec e k = (k', r, aw) ->
    waits (cm_queue (cmx k')) lm' -> waits (cqueue k') lc' ->
    creach k0 k' lm' lc' (caccount e r aw (csaved k) ins).

(** What the accounting needs of a monitor. *)
Record monitor_wf (h : store) (s : acond) : Prop := {
  mw_inj : forall y z, is_Some (h !! y) -> is_Some (h !! z) -> id_of h y = id_of h z -> y = z;
  mw_self : forall y o d w, ac_lock s = AHeld o d w -> y ∈ w -> id_of h y <> o;
  mw_lock : forall y, y ∈ waiters_of (ac_lock s) -> is_Some (h !! y);
  mw_wait : forall y, y ∈ ac_wait s -> is_Some (h !! y) /\ is_Some (ac_saved s !! y);
  mw_saved : forall y c, ac_saved s !! y = Some c -> is_Some (h !! y)
}.

Definition depth_of (h : store) (s : acond) (x : tid) : Z :=
  match ac_saved s !! x with
  | Some c => c + 1
  | None => holds (ac_lock s) (id_of h x)
  end.

Lemma cond_ok_wf k lm lc : cond_ok k lm lc -> monitor_wf (cm_threads (cmx k)) (cabs k lm lc).
Proof.
  intros Hok. pose proof (co_mutex _ _ _ Hok) as Hm. destruct (law_waits _ _ Hm) as [Hw Et].
  split; cbn [cabs ac_lock ac_wait ac_saved].
  - intros y z. by eapply law_inj.
  - intros y o d w E Hy. unfold cm_abs in E. case_match; [done|]. injection E as <- <- <-.
    by eapply law_self.
  - rewrite cm_abs_waiters by done. intros y Hy. rewrite <- Et. exact (seg_dom _ _ _ _ Hw Hy).
  - intros y Hy. split; [exact (seg_dom _ _ _ _ (co_queue _ _ _ Hok) Hy)|by apply Hok].
  - intros y c Hy. by apply (co_saved _ _ _ Hok y c Hy).
Qed.

(** A lock given to threads other than [x] does not change what [x] holds. *)
Lemma holds_given h x ws a a' aw :
  (forall y, y ∈ ws -> id_of h y <> id_of h x) -> give_all h ws a = (a', aw) ->
  holds a' (id_of h x) = holds a (id_of h x).
Proof.
  intros Hne E. destruct ws as [|y ws]; [by injection E as <- <-|].
  destruct a as [|o d l]; cbn in E; rewrite give_all_held in E; injection E as <- <-; [|done].
  cbn. destruct (Z.eqb_spec (id_of h y) (id_of h x)) as [E|]; [|done].
  destruct (Hne y ltac:(by left) E).
Qed.

Lemma give_one h x a : give h x a = give_all h [x] a.
Proof. cbn. destruct (give h x a). by rewrite app_nil_r. Qed.

Lemma head_option_list (aw : ptr) : head (option_list aw) = aw.
Proof. by destruct aw. Qed.

(** The threads [ws] that leave the condition variable keep their depth. *)
Lemma depth_given h a w w' s a' aw ws e r ins x :
  monitor_wf h (mk_acond a w s) -> (forall y, y ∈ ws -> y ∈ w) ->
  give_all h ws a = (a', aw) -> (forall e', e <> CMutex e') -> (forall t, e <> CWait t) -> is_Some (h !! x) ->
  ins x = depth_of h (mk_acond a w s) x ->
  caccount e r aw s ins x = depth_of h (mk_acond a' w' s) x.
Proof.
  intros Hwf Hsub Hg He He2 Hx Hi. unfold caccount, depth_of in *. cbn [ac_saved ac_lock] in *.
  destruct (s !! x) as [c|] eqn:Es; [done|].
  assert (Hxw : x ∉ ws).
  { intros Hxs%Hsub. destruct (mw_wait _ _ Hwf x Hxs) as [_ [c Hc]]. cbn in Hc. congruence. }
  rewrite (holds_given h x ws a a' aw), <- Hi; [|intros y Hy E|exact Hg].
  - assert (Hxa : x ∉ aw).
    { intros Hxa. by destruct (give_all_awake _ _ _ _ _ _ Hg Hxa) as (_ & _ & ? & _). }
    rewrite bool_decide_false by done. destruct e as [e| | | |t| | |]; cbn; try lia; [by destruct (He e)|by destruct (He2 t)].
  - apply Hxw. replace x with y; [done|]. eapply (mw_inj _ _ Hwf); [|done|done].
    by apply (mw_wait _ _ Hwf), Hsub.
Qed.

(** The depths of the threads follow the monitor. *)
Lemma caccount_cstep h p rec e s r aw s' ins x :
  monitor_wf h s -> cstep h p rec e s r aw s' ->
  (forall t, e = CWait t -> is_Some (h !! t) /\ ac_saved s !! t = None) ->
  (forall e', e = CMutex e' ->
     is_Some (h !! event_thread e') /\ ac_saved s !! event_thread e' = None) ->
  is_Some (h !! x) -> ins x = depth_of h s x ->
  caccount e r aw (ac_saved s) ins x = depth_of h s' x.
Proof.
  intros Hwf Hst Hw Hm Hx Hi.
  assert (Hinj : forall y, is_Some (h !! y) -> (id_of h y =? id_of h x) = bool_decide (x = y)).
  { intros y Hy. destruct (Z.eqb_spec (id_of h y) (id_of h x)) as [E|E].
    - rewrite bool_decide_true; [done|]. symmetry. by eapply (mw_inj _ _ Hwf).
    - rewrite bool_decide_false; [done|]. congruence. }
  assert (Hq : s' = s -> aw = [] -> (forall e', e <> CMutex e') -> (forall t, e = CWait t -> r <> Again) ->
    caccount e r aw (ac_saved s) ins x = depth_of h s' x).
  { intros -> -> He He2. unfold caccount. rewrite <- Hi. destruct (ac_saved s !! x); [done|].
    rewrite bool_decide_false by apply not_elem_of_nil.
    destruct e as [e'| | | |t| | | ]; cbn; try lia; [by destruct (He e')|].
    destruct r; try lia. by destruct (He2 t eq_refl). }
  destruct Hst as [e a r aw a' w s Ha|t e a He|t e a s He|t r0 y a w s a' aw Hsel _ Hg|t r0 y a|
    t r0 ws a w s a' aw Hp _ Hg|t r0 y a|t i r0 a|t i r0 a|t r0 y a w s a' aw Hy _ Hg|t r0 y a|t a|
    t d w s|t d l y w s Hsel _|t d l y w s|t e c d l w s r He Hc Hr|t r0 c w s Hy Hc|
    t r0 o d l w s Hy|t r0 a|t a]; try (by apply Hq).
  - unfold caccount, depth_of in *. cbn [ac_saved ac_lock] in *.
    destruct (s !! x) as [c|]; [done|]. rewrite head_option_list.
    pose proof (account_astep h p rec e a r aw a' ins x Hx (mw_inj _ _ Hwf) (mw_self _ _ Hwf)
      (proj1 (Hm e eq_refl)) Ha). lia.
  - apply Hq; [done|done| |done]. by intros e' ->; destruct He as [[? ?]|[[? ?]|[? [? ?]]]].
  - apply Hq; [done|done| |done]. by intros e' ->; destruct He as [[? ?]|[? ?]].
  - rewrite give_one in Hg. apply (depth_given h a w _ s a' aw [y]); try done.
    intros z ->%list_elem_of_singleton. by eapply selects_elem.
  - apply (depth_given h a w _ s a' aw ws); try done. intros z Hz. apply (picks_elem _ _ _ _ _ z Hp). by left.
  - rewrite give_one in Hg. apply (depth_given h a w _ s a' aw [y]); try done. by intros z ->%list_elem_of_singleton.
  - destruct (Hw t eq_refl) as [Ht Hs]. unfold caccount, depth_of in *.
    cbn [ac_saved ac_lock holds] in *. rewrite (Hinj t Ht) in Hi.
    rewrite bool_decide_false by apply not_elem_of_nil.
    destruct (bool_decide_reflect (x = t)) as [->|Hne].
    + rewrite Hs in *. rewrite lookup_insert_eq. cbn. lia.
    + rewrite lookup_insert_ne by done. destruct (s !! x); [done|]. cbn. lia.
  - destruct (Hw t eq_refl) as [Ht Hs]. unfold caccount, depth_of in *.
    cbn [ac_saved ac_lock holds] in *. pose proof (selects_elem _ _ _ _ Hsel) as Hy.
    pose proof (mw_lock _ _ Hwf y Hy) as Hky.
    assert (Hyt : y <> t) by (intros ->; by apply (mw_self _ _ Hwf t _ _ _ eq_refl Hy)).
    rewrite (Hinj t Ht) in Hi. rewrite (Hinj y Hky).
    destruct (bool_decide_reflect (x = t)) as [->|Hne].
    + rewrite Hs in *. rewrite lookup_insert_eq, bool_decide_false by set_solver. cbn. lia.
    + rewrite lookup_insert_ne by done. destruct (s !! x); [done|].
      destruct (bool_decide_reflect (x = y)) as [->|Hxy].
      * rewrite bool_decide_true by (by left). cbn. lia.
      * rewrite bool_decide_false by set_solver. cbn. lia.
  - destruct (Hw t eq_refl) as [Ht Hs]. unfold caccount, depth_of in *.
    cbn [ac_saved ac_lock holds] in *. rewrite (Hinj t Ht) in *.
    destruct (bool_decide_reflect (x = t)) as [->|Hne]; [by rewrite Hs|]. by destruct (s !! x).
  - unfold caccount, depth_of in *. cbn [ac_saved ac_lock holds] in *.
    pose proof (mw_saved _ _ Hwf t c Hc) as Ht. rewrite (Hinj t Ht) in *.
    destruct (bool_decide_reflect (x = t)) as [->|Hne].
    + rewrite lookup_delete_eq. by rewrite Hc in *.
    + rewrite lookup_delete_ne by done. destruct (s !! x); [done|].
      rewrite bool_decide_false by apply not_elem_of_nil. 
      destruct He as [->|[->|[? ->]]]; cbn; lia.
  - unfold caccount, depth_of in *. cbn [ac_saved ac_lock holds] in *.
    pose proof (mw_saved _ _ Hwf t c Hc) as Ht. rewrite (Hinj t Ht) in *.
    destruct (bool_decide_reflect (x = t)) as [->|Hne].
    + rewrite lookup_delete_eq. by rewrite Hc in *.
    + rewrite lookup_delete_ne by done. destruct (s !! x); [done|].
      rewrite bool_decide_false by apply not_elem_of_nil. cbn. lia.
  - unfold caccount, depth_of in *. cbn [ac_saved ac_lock holds] in *.
    destruct (s !! x); [done|]. rewrite bool_decide_false by apply not_elem_of_nil. cbn. lia.
Qed.

(** Runs keep the invariant and the depths. *)
Lemma creach_ok k0 k lm lc ins :
  cond_ok k0 [] [] -> cm_owner (cmx k0) = 0 -> csaved k0 = ∅ -> creach k0 k lm lc ins ->
  cond_ok k lm lc /\ forall x, is_Some (cm_threads (cmx k) !! x) ->
    ins x = depth_of (cm_threads (cmx k)) (cabs k lm lc) x.
Proof.
  intros Hk0 Ho Hs Hr. induction Hr as [|k lm lc ins e k' r aw lm' lc' Hr IH He E W1 W2].
  { split; [done|]. intros x Hx. unfold depth_of. cbn. rewrite Hs, lookup_empty.
    by rewrite cm_abs_free. }
  destruct IH as [Hok Hins]. pose proof (cexec_refines k lm lc e Hok He) as Hrf.
  unfold crefines in Hrf. rewrite E in Hrf. destruct Hrf as (lm1 & lc1 & Hok1 & Hids & Hst).
  pose proof (seg_inj _ _ _ _ W2 (co_queue _ _ _ Hok1)) as <-.
  destruct (law_waits _ _ (co_mutex _ _ _ Hok1)) as [W3 _].
  pose proof (seg_inj _ _ _ _ W1 W3) as <-. split; [done|]. intros x Hx.
  assert (Hx' : is_Some (cm_threads (cmx k) !! x)).
  { specialize (Hids x). destruct Hx as [n Hn]. rewrite Hn in Hids.
    destruct (cm_threads (cmx k) !! x); [eauto|done]. }
  replace (depth_of (cm_threads (cmx k')) (cabs k' lm' lc') x)
    with (depth_of (cm_threads (cmx k)) (cabs k' lm' lc') x)
    by (unfold depth_of; by rewrite (id_of_same _ _ _ Hids)).
  eapply (caccount_cstep _ _ _ _ (cabs k lm lc)); try done.
  - by apply cond_ok_wf.
  - intros t ->. destruct He as [Ht Hc]. split; [|done]. by apply (co_run _ _ _ Hok t Ht).
  - intros e' ->. by destruct He as (? & ? & _).
  - auto.
Qed.

Lemma creach_exec k0 k lm lc ins e :
  cond_ok k0 [] [] -> cm_owner (cmx k0) = 0 -> csaved k0 = ∅ -> creach k0 k lm lc ins ->
  cenabled e k ->
  exists lm' lc' ins', creach k0 (fst (fst (cexec e k))) lm' lc' ins'.
Proof.
  intros Hk0 Ho Hs Hr He. destruct (creach_ok _ _ _ _ _ Hk0 Ho Hs Hr) as [Hok _].
  pose proof (cexec_refines k lm lc e Hok He) as Hrf. unfold crefines in Hrf.
  destruct (cexec e k) as [[k' r] aw] eqn:E. destruct Hrf as (lm' & lc' & Hok' & _).
  exists lm', lc', (caccount e r aw (csaved k) ins). eapply creach_step; try done.
  - by apply law_waits, Hok'.
  - apply Hok'.
Qed.

End Cond.

(** ** The mutexes of sys_mutex.h provide the interface *)

#[global] Instance lv2_mutex_cond : CondMutex mstate := {
  cm_threads := mthr;
  cm_tag := mtag;
  cm_put h tag k := mk_mstate (mx k) h tag;
  cm_owner k := owner (mx k);
  cm_count k := lock_count (mx k);
  cm_set_count := set_lock_count;
  cm_protocol k := m_protocol (mx k);
  cm_queue := mqueue;
  cm_try_own := try_own;
  cm_reown := reown;
  cm_exec := mexec;
  cm_recursive k := m_recursive (mx k);
  cm_ok := mutex_ok
}.

Lemma mutex_try_own m l r t :
  mutex_ok m l -> t ∉ l -> is_Some (mthr m !! t) -> id_of (mthr m) t <> owner (mx m) ->
  let '(m', got) := try_own r t (id_of (mthr m) t) m in
  same_ids (mthr m) (mthr m') /\ (forall x, x <> t -> mthr m' !! x = mthr m !! x)
  /\ gpr3 <$> mthr m' !! t = gpr3 <$> mthr m !! t
  /\ lock_count (mx m') = lock_count (mx m) /\ m_protocol (mx m') = m_protocol (mx m)
  /\ if owner (mx m) =? 0
     then got = true /\ owner (mx m') = id_of (mthr m) t /\ mutex_ok m' []
     else got = false /\ owner (mx m') = owner (mx m) /\ mutex_ok m' (t :: l).
Proof.
  intros Hok Hl [n Hn] Hne. unfold try_own. destruct (Z.eqb_spec (owner (mx m)) 0) as [E|E]; cbn [negb].
  - destruct (mo_free _ _ Hok E) as [-> Hc].
    assert (Hs : same_ids (mthr m) (alter (set_next None) t (mthr m))) by (by apply same_ids_alter).
    split; [exact Hs|]. split; [intros x Hx; cbn; by rewrite lookup_alter_ne|].
    split; [cbn; by rewrite lookup_alter_eq, Hn|]. do 4 (split; [done|]).
    eapply mutex_ok_update; [exact Hok|exact (mo_queue _ _ Hok)|exact Hs|done|apply Hok|].
    by intros x ?%not_elem_of_nil.
  - set (h := alter (set_next (msq (mx m))) t (alter (set_order (wrap 64 (mtag m + r + 1))) t (mthr m))).
    assert (Hs : same_ids (mthr m) h).
    { unfold h. do 2 (etransitivity; [|by apply same_ids_alter]). done. }
    split; [exact Hs|]. split; [intros x Hx; cbn; by rewrite !lookup_alter_ne|].
    split; [cbn; by rewrite !lookup_alter_eq, Hn|]. do 4 (split; [done|]).
    eapply mutex_ok_update; [exact Hok| |exact Hs|done|apply Hok|].
    + split; [done|]. eexists. cbn. split; [by rewrite !lookup_alter_eq, Hn|].
      cbn. do 2 (apply seg_alter; [done|]). apply Hok.
    + intros x [->|Hx]%elem_of_cons; [done|]. exact (mo_self_id m l x Hok Hx).
Qed.

Lemma mutex_reown m l :
  mutex_ok m l -> owner (mx m) <> 0 -> lock_count (mx m) = 0 ->
  (l = [] -> exists m', reown m = Some (m', None) /\ owner (mx m') = 0
     /\ mthr m' = mthr m /\ mutex_ok m' [] /\ m_protocol (mx m') = m_protocol (mx m))
  /\ (l <> [] -> exists x n m', reown m = Some (m', Some x)
     /\ selects (mthr m) (m_protocol (mx m)) l x /\ mthr m !! x = Some n
     /\ (again n = true -> m' = m)
     /\ (again n = false -> owner (mx m') = th_id n /\ mutex_ok m' (without x l)
           /\ relinked l (mthr m) (mthr m') /\ lock_count (mx m') = 0
           /\ m_protocol (mx m') = m_protocol (mx m)
           /\ exists n', mthr m' !! x = Some n' /\ again n' = false)).
Proof.
  intros Hok Ho Hc. split.
  - intros ->. exists (set_owner 0 m). pose proof (mo_queue _ _ Hok) as Hw.
    unfold waits in Hw. cbn in Hw. unfold reown. rewrite Hw.
    split; [done|]. do 2 (split; [done|]). split; [by apply set_owner_ok|done].
  - intros Hl. destruct (reown_ok m l Hok Hl) as (x & n & m' & E & Hsel & Hn & Hy & Hno).
    exists x, n, m'. do 4 (split; [done|]). intros Ha.
    destruct (Hno Ha) as (E1 & E2 & E3 & E4 & E5 & E6 & E7). split; [done|]. split.
    { pose proof (mo_ids _ _ Hok x n Hn) as Hx.
      eapply mutex_ok_update; [exact Hok|exact E2|by eapply same_ids_relinked|congruence|lia|].
      intros y [Hyl Hyx]%without_elem_of. rewrite E1. intros Heq. apply Hyx.
      eapply mutex_ids; [exact Hok|exact (seg_dom _ _ _ _ (mo_queue _ _ Hok) Hyl)|eauto|].
      unfold id_of at 2. by rewrite Hn. }
    split; [done|]. split; [by rewrite E4|]. done.
Qed.

#[global] Instance lv2_mutex_cond_laws : CondMutexLaws mstate.
Proof.
  split; cbn [cm_threads cm_tag cm_put cm_owner cm_count cm_set_count cm_protocol cm_queue
    cm_try_own cm_reown cm_exec cm_recursive cm_ok lv2_mutex_cond].
  - intros m l Hok. split; [apply Hok|done].
  - intros m l t n Hok. apply Hok.
  - intros m l t t' Hok. by apply mutex_ids with l.
  - intros m l t. apply mo_self_id.
  - intros m l Hok. apply Hok.
  - intros m l Hok. apply Hok.
  - intros m l h tag Hok Hs Hq.
    eapply mutex_ok_update; [exact Hok|exact Hq|exact Hs|apply Hok|apply Hok|].
    intros x Hx. exact (mo_self_id m l x Hok Hx).
  - done.
  - intros m l c Hok Ho Hc.
    eapply mutex_ok_update; [exact Hok|apply Hok|done|done|done|].
    intros x Hx. exact (mo_self_id m l x Hok Hx).
  - done.
  - exact mutex_try_own.
  - exact mutex_reown.
  - intros m l e Hok Hk He.
    pose proof (mexec_refines m l e Hok (conj Hk He)) as R. unfold refines in R.
    pose proof (mexec_frame m l e) as F.
    destruct (mexec e m) as [[m' r] aw]. destruct R as (l' & R1 & _ & _ & R2 & R3).
    exists l'. split; [done|]. split; [done|]. split; [|exact R3].
    intros x Hx Ht. by apply (F x).
Qed.

(** ** Properties *)

(** C4: every region of sys_cond_wait, sys_cond_signal, sys_cond_signal_all and
    sys_cond_signal_to, interleaved with the regions of the mutex syscalls,
    implements one step of a monitor: a wait by the owner releases the mutex
    completely, hands it to the waiter the protocol selects and keeps the
    recursion depth; a signal moves the thread the protocol selects (all of
    them in priority order, or the named one) to the mutex, which it gets if it
    is free and is queued for otherwise; an expired wait asks for the mutex
    itself; a wait that ends does so as the owner with the depth restored.  No
    region fails an ensure, loops forever or follows a dangling pointer, and
    every one keeps the queues disjoint and consistent. *)
Theorem cond_refines (k : cstate (M := mstate)) (lm lc : list tid) (e : cevent) :
  cond_ok k lm lc -> cenabled e k ->
  let '(k', r, aw) := cexec e k in
  exists lm' lc', cond_ok k' lm' lc'
    /\ cstep (mthr (cmx k)) (m_protocol (mx (cmx k))) (m_recursive (mx (cmx k))) e
         (cabs k lm lc) r aw (cabs k' lm' lc').
Proof.
  intros Hok He. pose proof (cexec_refines k lm lc e Hok He) as H. unfold crefines in H.
  destruct (cexec e k) as [[k' r] aw]. destruct H as (lm' & lc' & H1 & _ & H2). eauto.
Qed.

(** A free mutex and a condition variable nobody waits for; the threads 1 to 4
    run. *)
Definition sample_cond : cstate (M := mstate) :=
  mk_cstate free_mutex None ∅ (list_to_set [1; 2; 3; 4]%positive).

Lemma sample_cond_ok : cond_ok sample_cond [] [].
Proof.
  split; try done; try (by intros t ?%not_elem_of_nil).
  - exact free_mutex_ok.
  - intros t Ht. split; [apply not_elem_of_nil|]. split; [apply not_elem_of_nil|].
    cbn in Ht. set_unfold in Ht. destruct_or! Ht; subst; by eexists.
Qed.

Fixpoint cexec_all (es : list cevent) (k : cstate (M := mstate)) : cstate :=
  match es with
  | [] => k
  | e :: es' => cexec_all es' (fst (fst (cexec e k)))
  end.

(** Thread 4 takes the mutex twice and waits; thread 2 takes it and signals:
    thread 4 queues for the mutex. *)
Definition sample_wait : cstate (M := mstate) :=
  cexec_all [CMutex (LockTry 4 false); CMutex (LockTry 4 false); CWait 4;
             CMutex (LockTry 2 false); CSignal 2 0] sample_cond.

(** One more step of a concrete run. *)
Ltac crun_step H e :=
  let lm := fresh "lm" in let lc := fresh "lc" in let ins := fresh "ins" in
  eapply (creach_exec _ _ _ _ _ e sample_cond_ok eq_refl eq_refl) in H as (lm & lc & ins & H);
  [|repeat split; first [by eexists | by apply (bool_decide_unpack _); vm_compute]].

Lemma sample_wait_reach : exists lm lc ins, creach sample_cond sample_wait lm lc ins.
Proof.
  pose proof (creach_init sample_cond) as H.
  crun_step H (CMutex (LockTry 4 false)). crun_step H (CMutex (LockTry 4 false)).
  crun_step H (CWait 4). crun_step H (CMutex (LockTry 2 false)). crun_step H (CSignal 2 0).
  eauto.
Qed.

Lemma cond_refines_witness :
  exists k lm lc, cexec (CMutex (Unlock 2 false)) sample_wait = (k, Returned CELL_OK, [4%positive])
    /\ cond_ok k lm lc /\ owner (mx (cmx k)) = 0x1000003.
Proof.
  destruct sample_wait_reach as (lm & lc & ins & H).
  destruct (creach_ok _ _ _ _ _ sample_cond_ok eq_refl eq_refl H) as [Hok _].
  pose proof (cond_refines sample_wait lm lc (CMutex (Unlock 2 false)) Hok) as R.
  destruct (cexec (CMutex (Unlock 2 false)) sample_wait) as [[k r] aw] eqn:E.
  destruct R as (lm' & lc' & Hok' & _).
  { split; [reflexivity|]. split; [by eexists|]. by apply (bool_decide_unpack _); vm_compute. }
  exists k, lm', lc'. vm_compute in E. injection E as <- <- <-. done.
Defined.

(** C24: the monitor keeps mutual exclusion and recursion depths.  In every
    state reachable from a free mutex by any interleaving of the regions of the
    mutex and condition variable syscalls: a thread outside sys_cond_wait holds
    the mutex as often as its own locks, hand-overs and unlocks say; a thread
    inside keeps the depth it came with, and when it runs again - woken by a
    signal or an unlock - it is the owner, at that depth; so of the running
    threads at most one holds the mutex.  A sys_cond_wait that is interrupted by
    a restart does not keep the depth: its caller then owns the mutex once
    ([caccount], [cond_wait_again_loses_count]). *)
Theorem monitor_exclusion (k0 k : cstate (M := mstate)) (lm lc : list tid) (ins : tid -> Z)
    (t t' : tid) :
  cond_ok k0 [] [] -> owner (mx (cmx k0)) = 0 -> csaved k0 = ∅ -> creach k0 k lm lc ins ->
  t ∈ crun k -> t' ∈ crun k ->
  (csaved k !! t = None ->
     ins t = if owner (mx (cmx k)) =? cid t k then lock_count (mx (cmx k)) + 1 else 0)
  /\ (forall c, csaved k !! t = Some c -> owner (mx (cmx k)) = cid t k /\ ins t = c + 1
       /\ lock_count (mx (cmx (fst (fst (cexec (CSignaled t) k))))) = c)
  /\ (0 < ins t -> 0 < ins t' -> t = t').
Proof.
  intros Hk0 Ho Hs Hr Ht Ht'. destruct (creach_ok _ _ _ _ _ Hk0 Ho Hs Hr) as [Hok Hins].
  assert (Hin : forall x, x ∈ crun k -> 0 < ins x -> owner (mx (cmx k)) = cid x k).
  { intros x Hx Hp. destruct (csaved k !! x) as [c|] eqn:Ex; [exact (running_owner k lm lc x c Hok Hx Ex)|].
    destruct (co_run _ _ _ Hok x Hx) as (_ & _ & Hk). pose proof (cid_nonzero k lm lc x Hok Hk) as Hnz.
    rewrite (Hins x Hk) in Hp. unfold depth_of in Hp. cbn [cabs ac_saved ac_lock] in Hp.
    rewrite Ex in Hp. change (cm_abs (cmx k) lm) with (abs (cmx k) lm) in Hp.
    rewrite holds_abs in Hp by exact Hnz. change (id_of _ x) with (cid x k) in Hp.
    destruct (Z.eqb_spec (owner (mx (cmx k))) (cid x k)); [done|lia]. }
  destruct (co_run _ _ _ Hok t Ht) as (_ & _ & Hk). destruct (co_run _ _ _ Hok t' Ht') as (_ & _ & Hk').
  pose proof (cid_nonzero k lm lc t Hok Hk) as Hnz. split; [|split].
  - intros E. rewrite (Hins t Hk). unfold depth_of. cbn [cabs ac_saved ac_lock]. rewrite E.
    change (cm_abs (cmx k) lm) with (abs (cmx k) lm). by apply holds_abs.
  - intros c E. pose proof (running_owner k lm lc t c Hok Ht E) as Hw. split; [exact Hw|].
    split; [rewrite (Hins t Hk); unfold depth_of; cbn [cabs ac_saved]; by rewrite E|].
    exact (signaled_count k lm lc t c Hok Ht E).
  - intros P P'. eapply (mutex_ids (cmx k) lm); [exact (co_mutex _ _ _ Hok)|exact Hk|exact Hk'|].
    pose proof (Hin t Ht P) as E1. pose proof (Hin t' Ht' P') as E2.
    change (cid t k = cid t' k). congruence.
Qed.

Lemma monitor_exclusion_witness :
  let k := fst (fst (cexec (CMutex (Unlock 2 false)) sample_wait)) in
  exists lm lc ins, creach sample_cond k lm lc ins
    /\ csaved k !! 4%positive = Some 1 /\ ins 4%positive = 2
    /\ lock_count (mx (cmx (fst (fst (cexec (CSignaled 4) k))))) = 1.
Proof.
  intros k. destruct sample_wait_reach as (lm0 & lc0 & ins0 & H).
  crun_step H (CMutex (Unlock 2 false)). exists lm, lc, ins. split; [exact H|].
  split; [reflexivity|].
  destruct (monitor_exclusion sample_cond _ lm lc ins 4 4 sample_cond_ok eq_refl eq_refl H)
    as (_ & A & _).
  { by apply (bool_decide_unpack _); vm_compute. } { by apply (bool_decide_unpack _); vm_compute. }
  destruct (A 1 eq_refl) as (_ & B & C). split; [exact B|exact C].
Defined.

(** An interrupted sys_cond_wait loses the recursion depth.  When the
    waiter that the mutex would be handed to is itself being restarted
    (cpu_flag::again), sys_cond_wait undoes its registration and is restarted
    too, but the lock_count it has exchanged with 0 is not written back: the
    caller still owns the mutex, at depth 0 whatever its depth was. *)
Lemma cond_wait_again_loses_count (k : cstate (M := mstate)) (lm lc : list tid) (t x : tid)
    (n : ppu_thread) :
  cond_ok k lm lc -> t ∈ crun k -> owner (mx (cmx k)) = cid t k ->
  (forall y, selects (mthr (cmx k)) (m_protocol (mx (cmx k))) lm y -> y = x) -> x ∈ lm ->
  mthr (cmx k) !! x = Some n -> again n = true ->
  exists k', cond_wait t k = (k', Again, [])
    /\ cond_ok k' lm lc /\ csaved k' = csaved k
    /\ owner (mx (cmx k')) = cid t k /\ lock_count (mx (cmx k')) = 0.
Proof.
  intros Hok Ht Ho Hsel Hx Hn Ha. pose proof (wait_refines k lm lc t Hok Ht) as R.
  unfold crefines in R. cbn [cexec] in R. destruct (cond_wait t k) as [[k' r] aw].
  destruct R as (lm' & lc' & Hok' & Hids & Hst).
  destruct (co_run _ _ _ Hok t Ht) as (_ & _ & Hk). pose proof (cid_nonzero k lm lc t Hok Hk) as Hnz.
  assert (Habs : cm_abs (cmx k) lm = AHeld (cid t k) (lock_count (mx (cmx k))) lm).
  { assert (Hz : cm_owner (cmx k) <> 0) by (cbn; congruence). rewrite <- Ho.
    pose proof (cm_abs_held (cmx k) lm Hz) as E. exact E. }
  assert (Hno : forall y, selects (mthr (cmx k)) (m_protocol (mx (cmx k))) lm y ->
    has_again (mthr (cmx k)) y = false -> False).
  { intros y Hy Hg. rewrite (Hsel y Hy) in Hg. unfold has_again in Hg.
    rewrite Hn in Hg. congruence. }
  unfold cabs in Hst. rewrite Habs in Hst.
  inversion Hst; subst.
  - match goal with H : _ \/ _ |- _ => by destruct H as [[? ?]|[[? ?]|[? [? ?]]]] end.
  - match goal with H : _ \/ _ |- _ => by destruct H as [[? ?]|[? ?]] end.
  - match goal with H : context [_ <> AHeld _ _ _] |- _ => by destruct (H _ _ eq_refl) end.
  - by apply not_elem_of_nil in Hx.
  - match goal with H : selects _ _ lm ?y |- _ => by destruct (Hno y) end.
  - exists k'. split; [done|].
    match goal with E : AHeld _ 0 _ = cm_abs _ lm' |- _ => rename E into Ea end.
    unfold cm_abs in Ea. destruct (cm_owner (cmx k') =? 0); [done|]. injection Ea as E1 E2 E3.
    subst lm'. split; [done|]. split; [done|]. split; [by symmetry|by symmetry].
  - match goal with H : _ \/ _ |- _ => by destruct H as [?|[?|[? ?]]] end.
Qed.

(** Thread 4 owns the mutex twice, thread 2 waits for it and is being
    restarted. *)
Definition sample_restart : cstate (M := mstate) :=
  c_thread (set_state (add_flag cf_again)) 2
    (cexec_all [CMutex (LockTry 4 false); CMutex (LockTry 4 false); CMutex (LockOwn 2 0)] sample_cond).

Lemma sample_restart_ok : cond_ok sample_restart [2]%positive [].
Proof.
  apply c_thread_ok; [done|done|]. pose proof (creach_init sample_cond) as H.
  crun_step H (CMutex (LockTry 4 false)). crun_step H (CMutex (LockTry 4 false)).
  crun_step H (CMutex (LockOwn 2 0)).
  destruct (creach_ok _ _ _ _ _ sample_cond_ok eq_refl eq_refl H) as [Hok _].
  assert (lm1 = [2]%positive) as <-.
  { eapply seg_inj; [apply (mo_queue _ _ (co_mutex _ _ _ Hok))|].
    split; [done|]. eexists. split; [vm_compute; reflexivity|]. done. }
  assert (lc1 = []) as <-; [|exact Hok].
  eapply seg_inj; [apply (co_queue _ _ _ Hok)|done].
Qed.

Lemma cond_wait_again_loses_count_witness :
  lock_count (mx (cmx sample_restart)) = 1
  /\ exists k', cond_wait 4 sample_restart = (k', Again, []) /\ lock_count (mx (cmx k')) = 0.
Proof.
  split; [reflexivity|].
  destruct (cond_wait_again_loses_count sample_restart [2]%positive [] 4 2
    (match mthr (cmx sample_restart) !! 2%positive with Some n => n | None => sample_thread 0 None 0 0 end)
    sample_restart_ok) as (k' & E & _ & _ & _ & C).
  - by apply (bool_decide_unpack _); vm_compute.
  - reflexivity.
  - intros y Hy%selects_elem. by apply list_elem_of_singleton in Hy.
  - by left.
  - vm_compute. reflexivity.
  - vm_compute. reflexivity.
  - exists k'. split; [exact E|exact C].
Defined.
