(* ===== verification/Lv2Syscalls.v ===== *)
(** * Creation and destruction syscalls

    sys_semaphore_create and sys_semaphore_destroy
    (kernel/cellos/src/sys_semaphore.cpp), sys_mutex_create and
    sys_mutex_destroy (src/sys_mutex.cpp), sys_rwlock_create and
    sys_rwlock_destroy (src/sys_rwlock.cpp), sys_event_flag_create and
    sys_event_flag_destroy (src/sys_event_flag.cpp): the argument checks, in the
    order of the code, in front of lv2_obj::create and idm::withdraw.  A guest pointer
    argument is modelled by whether it is null and by the structure it points
    to; the last component of a result is the id stored through the id
    pointer. *)

From stdpp Require Import base numbers list gmap tactics.
From Stdlib Require Import Lia.
From S2P Require Import Prelude IdManager Lv2Obj Lv2Sema Lv2Create Lv2Mutex Lv2RwLock Lv2EventFlag.

Open Scope Z_scope.

(** id_base of lv2_sema, lv2_mutex, lv2_rwlock and lv2_event_flag. *)
Definition sema_traits : id_traits := lv2_traits 0x96000000.
Definition mutex_traits : id_traits := lv2_traits 0x85000000.
Definition rwlock_traits : id_traits := lv2_traits 0x88000000.
Definition eflag_traits : id_traits := lv2_traits 0x98000000.

(** The attribute structures of the create syscalls. *)
Record sys_semaphore_attribute_t := mk_sema_attr {
  sa_protocol : Z;
  sa_pshared : Z;
  sa_ipc_key : Z;
  sa_flags : Z;
  sa_name : Z
}.

Record sys_mutex_attribute_t := mk_mutex_attr {
  ma_protocol : Z;
  ma_recursive : Z;
  ma_pshared : Z;
  ma_adaptive : Z;
  ma_ipc_key : Z;
  ma_flags : Z;
  ma_name : Z
}.

Record sys_rwlock_attribute_t := mk_rwlock_attr {
  ra_protocol : Z;
  ra_pshared : Z;
  ra_ipc_key : Z;
  ra_flags : Z;
  ra_name : Z
}.

Record sys_event_flag_attribute_t := mk_eflag_attr {
  ea_protocol : Z;
  ea_pshared : Z;
  ea_ipc_key : Z;
  ea_flags : Z;
  ea_type : Z;
  ea_name : Z
}.

(** lv2_obj::get_key *)
Definition get_key (pshared ipc_key : Z) : Z :=
  if pshared =? SYS_SYNC_PROCESS_SHARED then ipc_key else 0.

(** The tests in front of on_id_destroy: a semaphore with sleeping threads is
    busy, and so is a mutex with an owner or condition variables. *)
Definition sema_destroy_test (sem : lv2_sema) : option error_code :=
  if val sem <? 0 then Some CELL_EBUSY else None.

#[global] Instance sema_object : Lv2Object lv2_sema :=
  {| key_of := key; destroy_test := sema_destroy_test |}.

#[global] Instance mutex_object : Lv2Object lv2_mutex :=
  {| key_of := m_key; destroy_test := mutex_destroy_test |}.

#[global] Instance rwlock_object : Lv2Object lv2_rwlock :=
  {| key_of := rw_key; destroy_test := rwlock_destroy_test |}.

#[global] Instance eflag_object : Lv2Object lv2_event_flag :=
  {| key_of := ef_key; destroy_test := eflag_destroy_test |}.

(** The end of a create syscall: the id is stored on success. *)
Definition store_id {A} (r : option (space A * error_code))
    : option (space A * error_code * option Z) :=
  match r with
  | None => None
  | Some (s, CELL_OK) => Some (s, CELL_OK, Some (last_id s))
  | Some (s, e) => Some (s, e, None)
  end.

(** The argument checks of sys_semaphore_create. *)
Definition sema_args (sem_id : bool) (attr : option sys_semaphore_attribute_t)
    (initial_val max_val : Z) : error_code + sys_semaphore_attribute_t :=
  match sem_id, attr with
  | true, Some a =>
      if (max_val <=? 0) || (max_val <? initial_val) || (initial_val <? 0)
      then inl CELL_EINVAL
      else if negb (sa_protocol a =? SYS_SYNC_FIFO)
              && negb (sa_protocol a =? SYS_SYNC_PRIORITY)
      then inl CELL_EINVAL
      else inr a
  | _, _ => inl CELL_EFAULT
  end.

(** make_shared<lv2_sema>(protocol, ipc_key, name_u64, max_val, initial_val);
    the constructor keeps the low byte of the protocol. *)
Definition make_sema (a : sys_semaphore_attribute_t) (initial_val max_val : Z) : lv2_sema :=
  mk_sema (wrap 8 (sa_protocol a)) (get_key (sa_pshared a) (sa_ipc_key a)) (sa_name a)
    max_val initial_val None.

Definition sys_semaphore_create (sem_id : bool) (attr : option sys_semaphore_attribute_t)
    (initial_val max_val : Z) (s : space lv2_sema)
    : option (space lv2_sema * error_code * option Z) :=
  match sema_args sem_id attr initial_val max_val with
  | inl e => Some (s, e, None)
  | inr a =>
      store_id (create sema_traits (sa_pshared a) (get_key (sa_pshared a) (sa_ipc_key a))
        (sa_flags a) (make_sema a initial_val max_val) true s)
  end.

Definition sys_semaphore_destroy (sem_id : Z) (s : space lv2_sema)
    : space lv2_sema * error_code :=
  destroy sema_traits sem_id s.

(** The argument checks of sys_mutex_create. *)
Definition mutex_args (mutex_id : bool) (attr : option sys_mutex_attribute_t)
    : error_code + sys_mutex_attribute_t :=
  match mutex_id, attr with
  | true, Some a =>
      if negb ((ma_protocol a =? SYS_SYNC_FIFO) || (ma_protocol a =? SYS_SYNC_PRIORITY)
               || (ma_protocol a =? SYS_SYNC_PRIORITY_INHERIT))
      then inl CELL_EINVAL
      else if negb ((ma_recursive a =? SYS_SYNC_RECURSIVE)
                    || (ma_recursive a =? SYS_SYNC_NOT_RECURSIVE))
      then inl CELL_EINVAL
      else inr a
  | _, _ => inl CELL_EFAULT
  end.

Definition make_mutex (a : sys_mutex_attribute_t) : lv2_mutex :=
  mk_mutex (wrap 8 (ma_protocol a)) (ma_recursive a) (ma_adaptive a)
    (get_key (ma_pshared a) (ma_ipc_key a)) (ma_name a) 0 0 0 None.

Definition sys_mutex_create (mutex_id : bool) (attr : option sys_mutex_attribute_t)
    (s : space lv2_mutex) : option (space lv2_mutex * error_code * option Z) :=
  match mutex_args mutex_id attr with
  | inl e => Some (s, e, None)
  | inr a =>
      store_id (create mutex_traits (ma_pshared a) (ma_ipc_key a) (ma_flags a)
        (make_mutex a) true s)
  end.

Definition sys_mutex_destroy (mutex_id : Z) (s : space lv2_mutex)
    : space lv2_mutex * error_code :=
  destroy mutex_traits mutex_id s.

(** The argument checks of sys_rwlock_create. *)
Definition rwlock_args (rw_lock_id : bool) (attr : option sys_rwlock_attribute_t)
    : error_code + sys_rwlock_attribute_t :=
  match rw_lock_id, attr with
  | true, Some a =>
      if negb (ra_protocol a =? SYS_SYNC_FIFO) && negb (ra_protocol a =? SYS_SYNC_PRIORITY)
      then inl CELL_EINVAL
      else inr a
  | _, _ => inl CELL_EFAULT
  end.

Definition make_rwlock (a : sys_rwlock_attribute_t) : lv2_rwlock :=
  mk_rwlock (wrap 8 (ra_protocol a)) (get_key (ra_pshared a) (ra_ipc_key a)) (ra_name a)
    0 None None.

Definition sys_rwlock_create (rw_lock_id : bool) (attr : option sys_rwlock_attribute_t)
    (s : space lv2_rwlock) : option (space lv2_rwlock * error_code * option Z) :=
  match rwlock_args rw_lock_id attr with
  | inl e => Some (s, e, None)
  | inr a =>
      store_id (create rwlock_traits (ra_pshared a) (get_key (ra_pshared a) (ra_ipc_key a))
        (ra_flags a) (make_rwlock a) true s)
  end.

Definition sys_rwlock_destroy (rw_lock_id : Z) (s : space lv2_rwlock)
    : space lv2_rwlock * error_code :=
  destroy rwlock_traits rw_lock_id s.

(** The argument checks of sys_event_flag_create. *)
Definition eflag_args (id : bool) (attr : option sys_event_flag_attribute_t)
    : error_code + sys_event_flag_attribute_t :=
  match id, attr with
  | true, Some a =>
      if negb (ea_protocol a =? SYS_SYNC_FIFO) && negb (ea_protocol a =? SYS_SYNC_PRIORITY)
      then inl CELL_EINVAL
      else if negb (ea_type a =? SYS_SYNC_WAITER_SINGLE)
              && negb (ea_type a =? SYS_SYNC_WAITER_MULTIPLE)
      then inl CELL_EINVAL
      else inr a
  | _, _ => inl CELL_EFAULT
  end.

Definition make_eflag (a : sys_event_flag_attribute_t) (init : Z) : lv2_event_flag :=
  mk_eflag (wrap 8 (ea_protocol a)) (get_key (ea_pshared a) (ea_ipc_key a)) (ea_type a)
    (ea_name a) init None.

Definition sys_event_flag_create (id : bool) (attr : option sys_event_flag_attribute_t)
    (init : Z) (s : space lv2_event_flag)
    : option (space lv2_event_flag * error_code * option Z) :=
  match eflag_args id attr with
  | inl e => Some (s, e, None)
  | inr a =>
      store_id (create eflag_traits (ea_pshared a) (get_key (ea_pshared a) (ea_ipc_key a))
        (ea_flags a) (make_eflag a init) true s)
  end.

Definition sys_event_flag_destroy (id : Z) (s : space lv2_event_flag)
    : space lv2_event_flag * error_code :=
  destroy eflag_traits id s.

(** ** Lemmas *)

Lemma store_id_ok {A} (s : space A) e :
  store_id (Some (s, e))
  = Some (s, e, if decide (e = CELL_OK) then Some (last_id s) else None).
Proof. by destruct e. Qed.

(** What a create syscall whose arguments passed the checks has done. *)
Definition created {A} {LO : Lv2Object A} (tys : list id_traits) (tr : id_traits)
    (pshared key : Z) (make : A) (s s' : space A) (e : error_code) (w : option Z) : Prop :=
  space_ok tys 8192 s' /\ (is_Some w <-> e = CELL_OK)
  /\ forall id, w = Some id -> exists r,
       find_id tr (ids s') id = Some r /\ find_id tr (ids s) id = None
       /\ (existing pshared key s = None ->
             fst <$> objs s' !! r = Some make /\ snd (destroy tr id s') = CELL_OK).

Lemma create_syscall_ok {A} {LO : Lv2Object A} (tys : list id_traits) (tr : id_traits)
    (pshared ipc_key flags : Z) (make : A) (s : space A) :
  wf_types tys 8192 -> tr ∈ tys -> space_ok tys 8192 s ->
  key_of make = get_key pshared ipc_key -> destroy_test make = None ->
  exists s' e w,
    store_id (create tr pshared (get_key pshared ipc_key) flags make true s) = Some (s', e, w)
    /\ created tys tr pshared (get_key pshared ipc_key) make s s' e w.
Proof.
  intros Ht Hin Hs Hk Hd.
  destruct (create_ok tys 8192 tr pshared (get_key pshared ipc_key) flags make s Ht Hin Hs)
    as (s' & e & E & Hs' & _ & _ & _ & Hok).
  { rewrite Hk. unfold get_key. by case_match. }
  rewrite E, store_id_ok.
  exists s', e, (if decide (e = CELL_OK) then Some (last_id s') else None).
  split; [done|]. split; [done|].
  destruct (decide (e = CELL_OK)) as [He|He].
  2: { split; [|done]. split; [by intros [? ?]|done]. }
  split; [split; [done|by eexists]|]. intros id [= <-].
  destruct (Hok He) as (r & Hex & Hfree & Hfind). exists r.
  assert (Hf : find_id tr (ids s') (last_id s') = Some r).
  { rewrite (Hfind tr (last_id s') Hin), !Z.eqb_refl. done. }
  split; [done|]. split; [done|]. intros Hnone. rewrite Hnone in Hex.
  destruct Hex as [_ Hobj]. split; [done|].
  destruct (objs s' !! r) as [[b n]|] eqn:Eo; [|done]. injection Hobj as ->.
  pose proof (destroy_ok tys 8192 s' tr (last_id s') r _ n Ht Hin Hs' Hf Eo) as D.
  rewrite Hd in D. specialize (D eq_refl). destruct (destroy _ _ _). by destruct D as [-> _].
Qed.

(** Fresh objects satisfy the invariants of their syscalls. *)
Lemma make_sema_ok a initial_val max_val thr tag (run : gset tid) :
  0 < max_val < 2 ^ 31 -> 0 <= initial_val <= max_val ->
  Z.of_nat (size thr) < 2 ^ 31 -> (forall t, t ∈ run -> is_Some (thr !! t)) ->
  sema_ok (mk_kernel (make_sema a initial_val max_val) thr tag run) [].
Proof.
  intros Hm Hi Hs Hr. split; cbn; auto. intros t Ht. split; [apply not_elem_of_nil|auto].
Qed.

Lemma make_eflag_ok a init thr regs tag (run : gset tid) :
  urange 64 init -> Z.of_nat (size thr) < 2 ^ 32 - 1 ->
  (forall t n, thr !! t = Some n -> prio n <= smax32) ->
  (forall t, t ∈ run -> is_Some (thr !! t)) ->
  ef_ok (mk_estate (make_eflag a init) thr regs tag run) [].
Proof.
  intros Hi Hs Hp Hr. split; cbn; try done; try (by intros t ?%not_elem_of_nil).
  - by intros t n ?%not_elem_of_nil.
  - intros _. lia.
  - intros t Ht. split; [apply not_elem_of_nil|auto].
Qed.

(** ** Properties *)

(** Sys_semaphore_create with s32 arguments.  The errors come in the order
    of the code: CELL_EFAULT for a null pointer, CELL_EINVAL for a maximum that
    is not positive or an initial value outside 0..max, CELL_EINVAL for another
    protocol than FIFO or PRIORITY, then those of lv2_obj::create; the id
    pointer is written exactly on CELL_OK.  On CELL_OK with no object
    registered under the key the written id names a semaphore with the given
    protocol, key, maximum and initial value, on which the semaphore invariant
    holds; sys_semaphore_destroy of that id then succeeds. *)
Theorem sema_create_spec (tys : list id_traits) (sem_id : bool)
    (attr : option sys_semaphore_attribute_t) (initial_val max_val : Z) (s : space lv2_sema) :
  wf_types tys 8192 -> sema_traits ∈ tys -> space_ok tys 8192 s -> max_val < 2 ^ 31 ->
  exists s' e w, sys_semaphore_create sem_id attr initial_val max_val s = Some (s', e, w)
  /\ space_ok tys 8192 s'
  /\ (forall err, sema_args sem_id attr initial_val max_val = inl err -> e = err /\ s' = s)
  /\ (is_Some w <-> e = CELL_OK)
  /\ (forall id, w = Some id -> exists a r,
        attr = Some a /\ find_id sema_traits (ids s') id = Some r
        /\ find_id sema_traits (ids s) id = None
        /\ (existing (sa_pshared a) (get_key (sa_pshared a) (sa_ipc_key a)) s = None ->
              fst <$> objs s' !! r = Some (make_sema a initial_val max_val)
              /\ sema_ok (mk_kernel (make_sema a initial_val max_val) ∅ 0 ∅) []
              /\ snd (sys_semaphore_destroy id s') = CELL_OK)).
Proof.
  intros Ht Hin Hs Hmax. unfold sys_semaphore_create.
  destruct (sema_args sem_id attr initial_val max_val) as [err|a] eqn:Ea.
  { exists s, err, None. split; [done|]. split; [done|]. split; [by intros ? [= ->]|].
    split; [|done]. split; [by intros [? ?]|]. intros ->. exfalso.
    unfold sema_args in Ea. by destruct sem_id, attr; repeat case_match. }
  assert (Hattr : attr = Some a /\ 0 < max_val /\ 0 <= initial_val <= max_val).
  { unfold sema_args in Ea. destruct sem_id, attr as [b|]; try done.
    destruct (Z.leb_spec max_val 0), (Z.ltb_spec max_val initial_val),
      (Z.ltb_spec initial_val 0); cbn in Ea; try done.
    case_match; [done|]. injection Ea as ->. done. }
  destruct Hattr as (-> & Hm & Hi).
  destruct (create_syscall_ok tys sema_traits (sa_pshared a) (sa_ipc_key a) (sa_flags a)
    (make_sema a initial_val max_val) s Ht Hin Hs eq_refl) as (s' & e & w & E & H1 & H2 & H3).
  { cbn. unfold sema_destroy_test. cbn. by destruct (Z.ltb_spec initial_val 0); [lia|]. }
  exists s', e, w. split; [done|]. split; [done|]. split; [done|]. split; [done|].
  intros id Hid. destruct (H3 id Hid) as (r & F1 & F2 & F3). exists a, r.
  do 3 (split; [done|]). intros Hnone. destruct (F3 Hnone) as [F4 F5]. split; [done|].
  split; [by apply make_sema_ok|done].
Qed.

Lemma sema_create_spec_witness :
  exists s' w, sys_semaphore_create true
      (Some (mk_sema_attr SYS_SYNC_PRIORITY SYS_SYNC_NOT_PROCESS_SHARED 0 0 0)) 1 4
      (mk_space (empty_map 8192) ∅ ∅ 1%positive 0) = Some (s', CELL_OK, Some w)
    /\ snd (sys_semaphore_destroy w s') = CELL_OK.
Proof.
  assert (Ht : wf_types [sema_traits] 8192).
  { apply (lv2_types_wf [0x96000000]). repeat constructor; lia. }
  assert (Hs : space_ok (A := lv2_sema) [sema_traits] 8192 (mk_space (empty_map 8192) ∅ ∅ 1%positive 0)).
  { split; cbn [ids objs ipc next_ref]; try done.
    - exact (empty_map_wf [sema_traits] 8192).
    - intros i r Hi. by apply lookup_replicate in Hi as [? _].
    - intros k r. split; [by rewrite lookup_empty|]. intros (_ & a & n & E & _).
      by rewrite lookup_empty in E.
    - intros r [x E]. by rewrite lookup_empty in E. }
  destruct (sema_create_spec [sema_traits] true
    (Some (mk_sema_attr SYS_SYNC_PRIORITY SYS_SYNC_NOT_PROCESS_SHARED 0 0 0)) 1 4
    (mk_space (empty_map 8192) ∅ ∅ 1%positive 0) Ht ltac:(set_solver) Hs ltac:(lia))
    as (s' & e & w & E & _ & _ & Hw & Hid).
  assert (Ee : (let '(_, e, _) := default (mk_space (empty_map 0) ∅ ∅ 1%positive 0, CELL_EFAULT, None)
    (Some (s', e, w)) in e) = CELL_OK).
  { rewrite <- E. vm_compute. reflexivity. }
  cbn in Ee. subst e. destruct (proj2 Hw eq_refl) as [id ->]. exists s', id. split; [exact E|].
  destruct (Hid id eq_refl) as (a & r & [= <-] & _ & _ & H). apply H. reflexivity.
Defined.
