(* ===== verification/Lv2EventQueue.v ===== *)
(** * LV2 event queues

    kernel/cellos/include/cellos/sys_event.h and src/sys_event.cpp.  An event
    queue is a bounded buffer of events: a receiver takes the oldest event or
    sleeps in [pq], and an event sent while receivers sleep goes into the
    registers of one of them instead of the buffer.  Each definition is one
    critical section of the queue's mutex; the id manager is represented by
    [q_exists], the number of ids that name the queue.  Queues of SPU threads
    share the buffer; their sleeping receivers, which belong to thread groups,
    are parameters. *)

From stdpp Require Import base numbers list gmap tactics.
From Stdlib Require Import Lia.
From S2P Require Import Prelude Lv2Obj.

Open Scope Z_scope.

Definition SYS_PPU_QUEUE : Z := 1.
Definition SYS_SPU_QUEUE : Z := 2.
Definition SYS_EVENT_QUEUE_DESTROY_FORCE : Z := 1.

(** Source, data1, data2, data3. *)
Definition lv2_event : Type := Z * Z * Z * Z.

(** ** State *)

(** struct lv2_event_queue *)
Record lv2_event_queue := mk_evq {
  q_id : Z;
  q_protocol : Z;
  q_type : Z;
  q_size : Z;
  q_name : Z;
  q_key : Z;
  events : list lv2_event;
  pq : ptr;
  spq : ptr
}.

(** The state the critical sections share: the queue, its [exists] counter,
    the threads, their gpr[4] to gpr[7], the order tag and the threads the
    scheduler may run. *)
Record qstate := mk_qstate {
  evq : lv2_event_queue;
  q_exists : Z;
  qthr : store;
  qregs : gmap tid lv2_event;
  qtag : Z;
  qrun : gset tid
}.

Definition set_events (l : list lv2_event) (k : qstate) : qstate :=
  let e := evq k in
  mk_qstate (mk_evq (q_id e) (q_protocol e) (q_type e) (q_size e) (q_name e) (q_key e) l (pq e) (spq e))
    (q_exists k) (qthr k) (qregs k) (qtag k) (qrun k).

Definition pqueue (k : qstate) : queue := mk_queue (pq (evq k)) (qthr k).

Definition set_pqueue (q : queue) (k : qstate) : qstate :=
  let e := evq k in
  mk_qstate (mk_evq (q_id e) (q_protocol e) (q_type e) (q_size e) (q_name e) (q_key e) (events e) (first q) (spq e))
    (q_exists k) (threads q) (qregs k) (qtag k) (qrun k).

Definition set_exists (n : Z) (k : qstate) : qstate :=
  mk_qstate (evq k) n (qthr k) (qregs k) (qtag k) (qrun k).

(** The event in gpr[4] to gpr[7] of [t]. *)
Definition set_regs (t : tid) (ev : lv2_event) (k : qstate) : qstate :=
  mk_qstate (evq k) (q_exists k) (qthr k) (<[t := ev]> (qregs k)) (qtag k) (qrun k).

Definition q_thread (f : ppu_thread -> ppu_thread) (t : tid) (k : qstate) : qstate :=
  mk_qstate (evq k) (q_exists k) (alter f t (qthr k)) (qregs k) (qtag k) (qrun k).

(** queue.sleep(ppu, timeout); the emplace that follows takes the next tag. *)
Definition q_sleep (t : tid) (k : qstate) : qstate :=
  mk_qstate (evq k) (q_exists k) (qthr k) (qregs k) (wrap 64 (qtag k + 1)) (qrun k ∖ {[t]}).

(** awake, or append and awake_all. *)
Definition q_awake (l : list tid) (k : qstate) : qstate :=
  mk_qstate (evq k) (q_exists k) (qthr k) (qregs k) (qtag k) (qrun k ∪ list_to_set l).

Section Regions.

(** The SPU side: the branch of send that wakes an SPU thread, whether a
    sleeping SPU thread is marked cpu_flag::again, and the branch of destroy
    that cancels them. *)
Context (spu_send : lv2_event -> qstate -> qstate * reply).
Context (spu_again : qstate -> bool).
Context (spu_cancel : qstate -> qstate).

(** ** lv2_event_queue::send

    [cur] is the current thread when it is a PPU thread; [port] tells whether
    a port was given.  The last component of the result is
    [*notified_thread], set together with the increment of [is_busy]. *)

(** A thread marked cpu_flag::again was selected: the sender is marked too. *)
Definition send_again (cur : option tid) (k : qstate) : qstate :=
  match cur with
  | Some c => q_thread (set_state (fun st => add_flag cf_exit (add_flag cf_again st))) c k
  | None => k
  end.

(** port && ppu.prio < ensure(get_current<ppu_thread>())->prio *)
Definition send_blocks (cur : option tid) (port : bool) (n : ppu_thread) (k : qstate) : option bool :=
  if port then
    c ← cur;
    m ← qthr k !! c;
    Some (prio n <? prio m)
  else Some false.

Definition send (cur : option tid) (port : bool) (event : lv2_event) (k : qstate) : qstate * reply * bool :=
  let e := evq k in
  if q_exists k =? 0 then (k, Returned CELL_ENOTCONN, false)
  else if bool_decide (pq e = None) && bool_decide (spq e = None) then
    if Z.of_nat (length (events e)) <? q_size e
    then (set_events (events e ++ [event]) k, Returned CELL_OK, false)
    else (k, Returned CELL_EBUSY, false)
  else if q_type e =? SYS_PPU_QUEUE then
    match schedule (pqueue k) (q_protocol e) true with
    | Some (Some t, q) =>
        match threads q !! t with
        | None => (k, Fatal, false)
        | Some n =>
            if again n then (send_again cur (set_pqueue q k), Returned CELL_EAGAIN, false)
            else
              let k1 := q_awake [t] (set_regs t event (set_pqueue q k)) in
              match send_blocks cur port n k1 with
              | Some b => (k1, Returned CELL_OK, b)
              | None => (k1, Fatal, false)
              end
        end
    | _ => (k, Fatal, false)
    end
  else (spu_send event k, false).

(** ** sys_event_queue_receive *)

Definition receive (t : tid) (k : qstate) : qstate * reply :=
  let k0 := q_thread (set_gpr3 CELL_OK) t k in
  if q_exists k =? 0 then (k0, Returned CELL_ESRCH)
  else if negb (q_type (evq k) =? SYS_PPU_QUEUE) then (k0, Returned CELL_EINVAL)
  else
    match events (evq k) with
    | [] => let k1 := q_sleep t k0 in (set_pqueue (emplace (pqueue k1) t (qtag k1)) k1, Blocked)
    | ev :: rest => (set_events rest (set_regs t ev k0), Returned CELL_OK)
    end.

(** The end of the wait loop: not_an_error(ppu.gpr[3]). *)
Definition receive_result (t : tid) (k : qstate) : reply :=
  match qthr k !! t with
  | None => Fatal
  | Some n =>
      if gpr3 n =? error_value CELL_OK then Returned CELL_OK
      else if gpr3 n =? error_value CELL_ECANCELED then Returned CELL_ECANCELED
      else if gpr3 n =? error_value CELL_ETIMEDOUT then Returned CELL_ETIMEDOUT
      else Fatal
  end.

(** The signal was received. *)
Definition receive_signaled (t : tid) (k : qstate) : qstate * reply :=
  let k1 := q_thread (set_state (del_flag cf_signal)) t k in (k1, receive_result t k1).

(** The branch for a stopped thread. *)
Definition receive_stopped (t : tid) (k : qstate) : qstate * reply :=
  match any_waiting (is_thread t) (pqueue k) with
  | None => (k, Fatal)
  | Some true => (q_thread (set_state (add_flag cf_again)) t k, Again)
  | Some false => (k, receive_result t k)
  end.

(** The branch for an expired timeout, after the scheduler let the thread run
    again; an empty queue, tested without the mutex, leaves the loop too. *)
Definition receive_timed_out (t : tid) (k : qstate) : qstate * reply :=
  let k0 := q_awake [t] k in
  match unqueue true (pqueue k0) t with
  | None => (k0, Fatal)
  | Some (None, _) => (k0, receive_result t k0)
  | Some (Some _, q) =>
      let k1 := q_thread (set_gpr3 CELL_ETIMEDOUT) t (set_pqueue q k0) in (k1, receive_result t k1)
  end.

(** ** sys_event_queue_tryreceive *)

(** while (count < size && !events.empty()) events[count++] = front, pop;
    [None] is a write past the array of 127. *)
Fixpoint try_loop (count size : Z) (dest l : list lv2_event) : option (list lv2_event * list lv2_event) :=
  match l with
  | [] => Some (dest, [])
  | ev :: l' =>
      if count <? size then
        if count <? 127 then try_loop (count + 1) size (dest ++ [ev]) l' else None
      else Some (dest, l)
  end.

(** After the queue was found; the list is copied to the caller's array and
    its length to *number. *)
Definition tryreceive (size : Z) (k : qstate) : qstate * reply * list lv2_event :=
  if negb (q_type (evq k) =? SYS_PPU_QUEUE) then (k, Returned CELL_EINVAL, [])
  else if q_exists k =? 0 then (k, Returned CELL_ESRCH, [])
  else
    match try_loop 0 size [] (events (evq k)) with
    | None => (k, Fatal, [])
    | Some (dest, rest) => (set_events rest k, Returned CELL_OK, dest)
    end.

(** ** sys_event_queue_drain *)
Definition queue_drain (k : qstate) : qstate * reply :=
  if q_exists k =? 0 then (k, Returned CELL_ESRCH) else (set_events [] k, Returned CELL_OK).

(** ** sys_event_queue_destroy *)

(** for (auto cpu = +queue->pq; cpu; cpu = cpu->next_cpu)
    { gpr[3] = CELL_ECANCELED; append(cpu); } *)
Fixpoint cancel_loop (fuel : nat) (h : store) (it : ptr) (appended : list tid) : run (store * list tid) :=
  match it with
  | None => Some (h, appended)
  | Some c =>
      match fuel with
      | O => None
      | S fuel' =>
          n ← h !! c;
          cancel_loop fuel' (alter (set_gpr3 CELL_ECANCELED) c h) (next_cpu n) (appended ++ [c])
      end
  end.

Definition head_waiting (k : qstate) : bool :=
  if q_type (evq k) =? SYS_PPU_QUEUE then bool_decide (pq (evq k) <> None) else bool_decide (spq (evq k) <> None).

Definition head_again (k : qstate) : run bool :=
  if q_type (evq k) =? SYS_PPU_QUEUE then any_waiting is_again (pqueue k) else Some (spu_again k).

Definition queue_destroy (t : tid) (mode : Z) (k : qstate) : qstate * reply :=
  if negb (mode =? 0) && negb (mode =? SYS_EVENT_QUEUE_DESTROY_FORCE) then (k, Returned CELL_EINVAL)
  else if q_exists k =? 0 then (k, Returned CELL_ESRCH)
  else if (mode =? 0) && head_waiting k then (k, Returned CELL_EBUSY)
  else
    match head_again k with
    | None => (k, Fatal)
    | Some true => (q_thread (set_state (add_flag cf_again)) t k, Again)
    | Some false =>
        let k1 := set_exists (wrap 32 (q_exists k - 1)) k in
        if negb (head_waiting k) then (k1, Returned CELL_OK)
        else if q_type (evq k) =? SYS_PPU_QUEUE then
          match cancel_loop (size (qthr k)) (qthr k) (pq (evq k)) [] with
          | None => (k1, Fatal)
          | Some (h, l) => (q_awake l (set_pqueue (mk_queue None h) k1), Returned CELL_OK)
          end
        else (spu_cancel k1, Returned CELL_OK)
    end.

(** ** The regions as steps *)

Inductive eq_region :=
| Send (cur : option tid) (port : bool) (ev : lv2_event)
| Receive (t : tid)
| Signaled (t : tid)
| Stopped (t : tid)
| TimedOut (t : tid)
| TryReceive (t : tid) (size : Z)
| Drain (t : tid)
| Destroy (t : tid) (mode : Z).

(** gpr[3] of a thread in the wait loop of receive: CELL_OK from its start, or
    what destroy or the timeout wrote. *)
Definition in_receive (t : tid) (k : qstate) : bool :=
  match qthr k !! t with
  | Some n => bool_decide (gpr3 n ∈ error_value <$> [CELL_OK; CELL_ECANCELED; CELL_ETIMEDOUT])
  | None => false
  end.

(** A thread enters a syscall only while the scheduler runs it, and leaves the
    wait loop on a signal only after it was made runnable.  send gets a port
    only from a running PPU thread. *)
Definition eq_enabled (r : eq_region) (k : qstate) : bool :=
  match r with
  | Send cur port _ =>
      match cur with Some c => bool_decide (c ∈ qrun k) | None => negb port end
  | Receive t | TryReceive t _ | Drain t | Destroy t _ => bool_decide (t ∈ qrun k)
  | Signaled t => bool_decide (t ∈ qrun k) && in_receive t k
  | Stopped t | TimedOut t => in_receive t k
  end.

Definition eq_exec (r : eq_region) (k : qstate) : qstate * reply :=
  match r with
  | Send cur port ev => fst (send cur port ev k)
  | Receive t => receive t k
  | Signaled t => receive_signaled t k
  | Stopped t => receive_stopped t k
  | TimedOut t => receive_timed_out t k
  | TryReceive _ size => fst (tryreceive size k)
  | Drain _ => queue_drain k
  | Destroy t mode => queue_destroy t mode k
  end.

(** A run: the regions that are enabled when their turn comes. *)
Fixpoint eq_run (rs : list eq_region) (k : qstate) : qstate * list (eq_region * reply) :=
  match rs with
  | [] => (k, [])
  | r :: rs' =>
      if eq_enabled r k then
        let '(k1, rep) := eq_exec r k in
        let '(k2, log) := eq_run rs' k1 in (k2, (r, rep) :: log)
      else eq_run rs' k
  end.

End Regions.

(** ** The abstract mailbox *)

(** A buffer, the sleeping receivers (most recent first) and the number of ids
    that name the queue. *)
Record mailbox := mk_mailbox { buf : list lv2_event; sleepers : list tid; live : Z }.

Inductive mb_label :=
| Put (ev : lv2_event)
| Hand (t : tid) (ev : lv2_event)
| Take (t : tid) (ev : lv2_event)
| TakeMany (l : list lv2_event)
| Clear (l : list lv2_event)
| Sleep (t : tid)
| Leave (t : tid)
| Cancel (l : list tid)
| Quiet.

(** What a label does to a mailbox of [size] events whose receivers are served
    by [protocol] and the priorities in [h]. *)
Inductive mb_step (size protocol : Z) (h : store) : mailbox -> mb_label -> mailbox -> Prop :=
| mb_put b ev n : n <> 0 -> Z.of_nat (length b) < size ->
    mb_step size protocol h (mk_mailbox b [] n) (Put ev) (mk_mailbox (b ++ [ev]) [] n)
| mb_hand l t ev n : n <> 0 -> selects h protocol l t ->
    mb_step size protocol h (mk_mailbox [] l n) (Hand t ev) (mk_mailbox [] (without t l) n)
| mb_take b t ev n : n <> 0 ->
    mb_step size protocol h (mk_mailbox (ev :: b) [] n) (Take t ev) (mk_mailbox b [] n)
| mb_many b b' l n : n <> 0 ->
    mb_step size protocol h (mk_mailbox (b ++ b') l n) (TakeMany b) (mk_mailbox b' l n)
| mb_clear b l n : n <> 0 -> mb_step size protocol h (mk_mailbox b l n) (Clear b) (mk_mailbox [] l n)
| mb_sleep t l n : n <> 0 -> t ∉ l ->
    mb_step size protocol h (mk_mailbox [] l n) (Sleep t) (mk_mailbox [] (t :: l) n)
| mb_leave b t l n : t ∈ l -> mb_step size protocol h (mk_mailbox b l n) (Leave t) (mk_mailbox b (without t l) n)
| mb_cancel b l n : n <> 0 -> mb_step size protocol h (mk_mailbox b l n) (Cancel l) (mk_mailbox b [] (n - 1))
| mb_quiet m : mb_step size protocol h m Quiet m.

(** The reply a region gives for a label, from the mailbox [m]. *)
Definition explains (size : Z) (m : mailbox) (r : eq_region) (lbl : mb_label) (rep : reply) : Prop :=
  match r, lbl with
  | Send _ _ ev, Put ev' | Send _ _ ev, Hand _ ev' => ev' = ev /\ rep = Returned CELL_OK
  | Send _ _ _, Quiet =>
      (live m = 0 /\ rep = Returned CELL_ENOTCONN)
      \/ (sleepers m = [] /\ Z.of_nat (length (buf m)) = size /\ rep = Returned CELL_EBUSY)
      \/ (sleepers m <> [] /\ rep = Returned CELL_EAGAIN)
  | Receive t, Take t' _ => t' = t /\ rep = Returned CELL_OK
  | Receive t, Sleep t' => t' = t /\ rep = Blocked
  | Signaled _, Quiet => exists e, rep = Returned e
  | Stopped t, Quiet => (t ∈ sleepers m /\ rep = Again) \/ ((t ∉ sleepers m) /\ exists e, rep = Returned e)
  | TimedOut t, Leave t' => t' = t /\ rep = Returned CELL_ETIMEDOUT
  | TimedOut t, Quiet => (t ∉ sleepers m) /\ exists e, rep = Returned e
  | TryReceive _ n, TakeMany l => l = take (Z.to_nat n) (buf m) /\ rep = Returned CELL_OK
  | Drain _, Clear _ => rep = Returned CELL_OK
  | Destroy _ mode, Cancel l => rep = Returned CELL_OK /\ (mode = 0 -> l = [])
  | Destroy _ mode, Quiet =>
      (mode <> 0 /\ mode <> SYS_EVENT_QUEUE_DESTROY_FORCE /\ rep = Returned CELL_EINVAL)
      \/ (live m = 0 /\ rep = Returned CELL_ESRCH)
      \/ (mode = 0 /\ sleepers m <> [] /\ rep = Returned CELL_EBUSY)
      \/ (sleepers m <> [] /\ rep = Again)
  | Receive _, Quiet | TryReceive _ _, Quiet | Drain _, Quiet => live m = 0 /\ rep = Returned CELL_ESRCH
  | _, _ => False
  end.

(** The registers after a label: an event given to a thread, and nothing
    else. *)
Definition mb_regs (lbl : mb_label) (regs : gmap tid lv2_event) : gmap tid lv2_event :=
  match lbl with
  | Hand t ev | Take t ev => <[t := ev]> regs
  | _ => regs
  end.

(** ** Invariant

    [l] is the list of sleeping receivers, most recent first. *)
Record eq_ok (k : qstate) (l : list tid) : Prop := {
  eq_waits : waits (pqueue k) l;
  eq_type : q_type (evq k) = SYS_PPU_QUEUE;
  eq_spq : spq (evq k) = None;
  eq_excl : events (evq k) <> [] -> l = [];
  eq_cap : Z.of_nat (length (events (evq k))) <= q_size (evq k) <= 127;
  eq_live : urange 32 (q_exists k);
  eq_dead : q_exists k = 0 -> l = [];
  eq_running : forall t, t ∈ qrun k -> (t ∉ l) /\ is_Some (qthr k !! t)
}.

Definition mb_of (k : qstate) (l : list tid) : mailbox := mk_mailbox (events (evq k)) l (q_exists k).

(** What no region changes. *)
Definition eq_fixed (k k' : qstate) : Prop :=
  q_size (evq k') = q_size (evq k) /\ q_protocol (evq k') = q_protocol (evq k) /\ dom (qthr k') = dom (qthr k).

(** A region does what some label does. *)
Definition eq_simulates (k : qstate) (l : list tid) (r : eq_region) (out : qstate * reply) : Prop :=
  exists lbl l',
    mb_step (q_size (evq k)) (q_protocol (evq k)) (qthr k) (mb_of k l) lbl (mb_of (fst out) l')
    /\ explains (q_size (evq k)) (mb_of k l) r lbl (snd out)
    /\ qregs (fst out) = mb_regs lbl (qregs k) /\ eq_ok (fst out) l' /\ eq_fixed k (fst out).

Lemma q_thread_ok k l f t :
  (forall n, next_cpu (f n) = next_cpu n) -> eq_ok k l -> eq_ok (q_thread f t k) l.
Proof.
  intros Hf [H1 H2 H3 H4 H5 H6 H7 H8]. split; cbn; try done; [by apply seg_alter_data|].
  intros x Hx. destruct (H8 x Hx) as [? Hs]. split; [done|].
  apply elem_of_dom. rewrite dom_alter_L. by apply elem_of_dom.
Qed.

Lemma q_thread_fixed k f t : eq_fixed k (q_thread f t k).
Proof. repeat split. cbn. apply dom_alter_L. Qed.

(** A region that leaves queue and registers alone. *)
Lemma quiet_ok k l r rep f t :
  (forall n, next_cpu (f n) = next_cpu n) -> eq_ok k l ->
  explains (q_size (evq k)) (mb_of k l) r Quiet rep -> eq_simulates k l r (q_thread f t k, rep).
Proof.
  intros Hf Hok He. exists Quiet, l. split; [apply mb_quiet|]. split; [done|]. split; [done|].
  split; [by apply q_thread_ok|apply q_thread_fixed].
Qed.

Lemma same_ok k l r rep :
  eq_ok k l -> explains (q_size (evq k)) (mb_of k l) r Quiet rep -> eq_simulates k l r (k, rep).
Proof.
  intros Hok He. exists Quiet, l. split; [apply mb_quiet|]. split; [done|]. split; [done|].
  split; [done|by repeat split].
Qed.

(** A receiver leaves the queue and runs. *)
Lemma removed_eq_ok k l t q ex f :
  (forall n, next_cpu (f n) = next_cpu n) -> eq_ok k l -> t ∈ l -> removed true (pqueue k) l t q ->
  eq_ok (q_awake [t] (q_thread f ex (set_pqueue q k))) (without t l)
  /\ eq_fixed k (q_awake [t] (q_thread f ex (set_pqueue q k))).
Proof.
  intros Hf [H1 H2 H3 H4 H5 H6 H7 H8] Ht [R1 R2 R3]. pose proof (relinked_dom _ _ _ R2) as Hd. cbn in Hd.
  assert (Hdom : dom (alter f ex (threads q)) = dom (qthr k)) by (by rewrite dom_alter_L).
  split; [|by repeat split]. split; cbn; try done.
  - by apply seg_alter_data.
  - intros He. specialize (H4 He). subst l. by apply not_elem_of_nil in Ht.
  - intros He. specialize (H7 He). subst l. by apply not_elem_of_nil in Ht.
  - intros x Hx. rewrite without_elem_of. assert (x = t \/ x ∈ qrun k) as [->|Hx'] by set_solver.
    + split; [tauto|]. apply elem_of_dom. rewrite Hdom. apply elem_of_dom. by eapply seg_dom.
    + destruct (H8 x Hx') as [? ?]. split; [tauto|]. apply elem_of_dom. rewrite Hdom. by apply elem_of_dom.
Qed.

Lemma q_thread_id k t : q_thread id t k = k.
Proof.
  unfold q_thread. destruct k as [e n h rg tg rn]. cbn. f_equal. apply map_eq. intros x.
  destruct (decide (x = t)) as [->|]; [rewrite lookup_alter_eq; by destruct (h !! t)|by rewrite lookup_alter_ne].
Qed.

Lemma set_regs_ok k l t ev : eq_ok k l -> eq_ok (set_regs t ev k) l.
Proof. by intros []. Qed.

(** send_blocks has its current thread. *)
Lemma send_blocks_ok cur port n k l k' :
  eq_ok k l -> eq_enabled (Send cur port (0, 0, 0, 0)) k = true -> dom (qthr k') = dom (qthr k) ->
  exists b, send_blocks cur port n k' = Some b.
Proof.
  intros Hok He Hd. unfold send_blocks. destruct port; [|by eexists]. destruct cur as [c|]; [|done].
  cbn in He. apply bool_decide_eq_true in He. destruct (eq_running _ _ Hok c He) as [_ Hs].
  cbn [mbind option_bind]. assert (is_Some (qthr k' !! c)) as [m ->]; [|by eexists].
  apply elem_of_dom. rewrite Hd. by apply elem_of_dom.
Qed.

Section Simulation.

Context (spu_send : lv2_event -> qstate -> qstate * reply).
Context (spu_again : qstate -> bool).
Context (spu_cancel : qstate -> qstate).

#[local] Abbreviation send := (send spu_send).
#[local] Abbreviation queue_destroy := (queue_destroy spu_again spu_cancel).
#[local] Abbreviation eq_exec := (eq_exec spu_send spu_again spu_cancel).
#[local] Abbreviation eq_run := (eq_run spu_send spu_again spu_cancel).

Lemma send_ok k l cur port ev :
  eq_ok k l -> eq_enabled (Send cur port ev) k = true ->
  eq_simulates k l (Send cur port ev) (fst (send cur port ev k)).
Proof.
  intros Hok He. pose proof Hok as [H1 H2 H3 H4 H5 H6 H7 H8]. unfold send. rewrite H2, H3.
  destruct (Z.eqb_spec (q_exists k) 0) as [E0|E0]; [apply same_ok; [done|]; left; done|].
  rewrite (bool_decide_true (None = None)), andb_true_r by done.
  destruct l as [|x l].
  { cbn in H1. rewrite H1, bool_decide_true by done. destruct (Z.ltb_spec (Z.of_nat (length (events (evq k)))) (q_size (evq k))).
    - exists (Put ev), []. split; [by apply mb_put|]. split; [done|]. split; [done|]. split; [|by repeat split].
      split; cbn; try done. rewrite length_app. cbn. lia.
    - apply same_ok; [done|]. right; left. cbn. split_and!; [done|lia|done]. }
  assert (bool_decide (pq (evq k) = None) = false) as -> by (destruct H1 as [E _]; apply bool_decide_eq_false; cbn in E; congruence).
  change (SYS_PPU_QUEUE =? SYS_PPU_QUEUE) with true. cbn iota.
  destruct (schedule_ok (q_protocol (evq k)) true (pqueue k) (x :: l) H1) as [_ S].
  destruct (S ltac:(done)) as (t & n & q & -> & Hsel & Hn & R). destruct (again n) eqn:Ea.
  { subst q. rewrite Hn, Ea.
    assert (set_pqueue (pqueue k) k = k) as -> by (by destruct k as [[] ? ? ? ? ?]).
    assert (explains (q_size (evq k)) (mb_of k (x :: l)) (Send cur port ev) Quiet (Returned CELL_EAGAIN)) as Hx by (right; right; done).
    destruct cur as [c|]; [by apply quiet_ok|by apply same_ok]. }
  pose proof (selects_elem _ _ _ _ Hsel) as Ht. pose proof R as [R1 R2 R3].
  destruct (relinked_lookup _ _ _ _ _ R2 Hn) as [p Hp]. cbn [threads] in *. rewrite Hp.
  change (again (set_next p n)) with (again n). rewrite Ea.
  destruct (removed_eq_ok k (x :: l) t q t id ltac:(done) Hok Ht R) as [O F]. rewrite q_thread_id in O, F.
  set (k1 := q_awake [t] (set_regs t ev (set_pqueue q k))).
  destruct (send_blocks_ok cur port (set_next p n) k (x :: l) k1 Hok He ltac:(apply F)) as [b ->].
  assert (events (evq k) = []) as Eb by (destruct (events (evq k)); [done|]; discriminate (H4 ltac:(done))).
  exists (Hand t ev), (without t (x :: l)). cbn [fst snd]. split; [|split; [done|split; [done|split; [exact (set_regs_ok _ _ t ev O)|exact F]]]].
  unfold mb_of. cbn [k1 q_awake set_regs set_pqueue evq events q_exists]. rewrite Eb. by apply mb_hand.
Qed.

Lemma receive_ok k l t :
  eq_ok k l -> t ∈ qrun k -> eq_simulates k l (Receive t) (receive t k).
Proof.
  intros Hok Ht. pose proof (q_thread_ok k l (set_gpr3 CELL_OK) t ltac:(done) Hok) as Hok0.
  pose proof (q_thread_fixed k (set_gpr3 CELL_OK) t) as Hf0.
  pose proof Hok as [H1 H2 H3 H4 H5 H6 H7 H8]. destruct (H8 t Ht) as [Hl Hs]. unfold receive. rewrite H2.
  destruct (Z.eqb_spec (q_exists k) 0) as [E0|E0]; [by apply quiet_ok|].
  change (negb (SYS_PPU_QUEUE =? SYS_PPU_QUEUE)) with false. cbn iota.
  destruct (events (evq k)) as [|ev rest] eqn:Ee.
  - set (k0 := q_thread (set_gpr3 CELL_OK) t k) in *. destruct (eq_running _ _ Hok0 t Ht) as [_ [n Hn]].
    destruct (emplace_ok (pqueue (q_sleep t k0)) l t n (qtag (q_sleep t k0)) (eq_waits _ _ Hok0) Hl Hn) as (W & _ & Hfr).
    exists (Sleep t), (t :: l). cbn [fst snd]. split.
    { unfold mb_of. cbn. rewrite Ee. by apply mb_sleep. }
    split; [done|]. split; [done|].
    assert (Hd : dom (qthr (set_pqueue (emplace (pqueue (q_sleep t k0)) t (qtag (q_sleep t k0))) (q_sleep t k0))) = dom (qthr k)).
    { cbn [set_pqueue qthr]. rewrite emplace_dom. apply Hf0. }
    split; [|by repeat split]. split; cbn [set_pqueue evq q_type spq events q_size q_exists pqueue qrun]; try done.
    + cbn. by rewrite Ee.
    + intros x Hx. cbn in Hx. assert (x <> t /\ x ∈ qrun k) as [Hne Hx'] by set_solver. destruct (H8 x Hx') as [? ?].
      split; [set_solver|]. apply elem_of_dom. rewrite Hd. by apply elem_of_dom.
  - assert (l = []) as -> by (by apply H4). exists (Take t ev), []. cbn [fst snd]. split.
    { unfold mb_of. cbn. rewrite Ee. by apply mb_take. }
    split; [done|]. split; [done|]. split; [|exact Hf0].
    destruct Hok0 as [O1 O2 O3 O4 O5 O6 O7 O8]. split; cbn; try done. cbn in H5. lia.
Qed.

(** A thread in its wait loop has a result. *)
Lemma receive_result_ok t k : in_receive t k = true -> exists e, receive_result t k = Returned e.
Proof.
  unfold in_receive, receive_result. destruct (qthr k !! t) as [n|]; [|done]. intros H%bool_decide_eq_true.
  destruct (Z.eqb_spec (gpr3 n) (error_value CELL_OK)); [by eexists|].
  destruct (Z.eqb_spec (gpr3 n) (error_value CELL_ECANCELED)); [by eexists|].
  destruct (Z.eqb_spec (gpr3 n) (error_value CELL_ETIMEDOUT)); [by eexists|]. cbn in H. set_solver.
Qed.

Lemma signaled_ok k l t :
  eq_ok k l -> in_receive t k = true -> eq_simulates k l (Signaled t) (receive_signaled t k).
Proof.
  intros Hok Hi. apply quiet_ok; [done|done|]. apply receive_result_ok. unfold in_receive in *. cbn.
  rewrite lookup_alter_eq. by destruct (qthr k !! t).
Qed.

Lemma stopped_ok k l t :
  eq_ok k l -> in_receive t k = true -> eq_simulates k l (Stopped t) (receive_stopped t k).
Proof.
  intros Hok Hi. unfold receive_stopped. rewrite (any_waiting_thread _ _ _ (eq_waits _ _ Hok)).
  destruct (bool_decide (t ∈ l)) eqn:E.
  - apply bool_decide_eq_true in E. apply quiet_ok; [done|done|]. by left.
  - apply bool_decide_eq_false in E. apply same_ok; [done|]. right. split; [done|]. by apply receive_result_ok.
Qed.

Lemma receive_timed_out_ok k l t :
  eq_ok k l -> in_receive t k = true -> eq_simulates k l (TimedOut t) (receive_timed_out t k).
Proof.
  intros Hok Hi. unfold receive_timed_out. change (pqueue (q_awake [t] k)) with (pqueue k).
  assert (is_Some (qthr k !! t)) as Ht by (unfold in_receive in Hi; by destruct (qthr k !! t)).
  destruct (unqueue_ok true (pqueue k) l t (eq_waits _ _ Hok)) as [Hout Hin].
  destruct (decide (t ∈ l)) as [Hl|Hl].
  - destruct (Hin Hl) as (q & -> & R).
    destruct (removed_eq_ok k l t q t (set_gpr3 CELL_ETIMEDOUT) ltac:(done) Hok Hl R) as [O F].
    exists (Leave t), (without t l). split; [by apply mb_leave|]. split; [|split; [done|split; [exact O|exact F]]].
    cbn [snd]. split; [done|]. unfold receive_result. cbn. rewrite lookup_alter_eq.
    destruct Ht as [n Hn]. destruct (relinked_lookup _ _ _ _ _ (rm_links _ _ _ _ _ R) Hn) as [p ->]. done.
  - rewrite (Hout Hl). exists Quiet, l. split; [apply mb_quiet|].
    split; [split; [done|]; by apply receive_result_ok|]. split; [done|]. split; [|by repeat split].
    destruct Hok as [H1 H2 H3 H4 H5 H6 H7 H8]. split; cbn; try done. intros x Hx.
    assert (x = t \/ x ∈ qrun k) as [->|Hx'] by set_solver; [done|by apply H8].
Qed.

(** The loop of tryreceive moves a prefix and stays inside the array. *)
Lemma try_loop_ok size l count dest :
  0 <= count -> count + Z.of_nat (length l) <= 127 ->
  try_loop count size dest l
  = Some (dest ++ take (Z.to_nat (size - count)) l, drop (Z.to_nat (size - count)) l).
Proof.
  revert count dest; induction l as [|ev l IH]; intros count dest H0 H; cbn [try_loop].
  - by rewrite take_nil, drop_nil, app_nil_r.
  - cbn [length] in H. destruct (Z.ltb_spec count size).
    + destruct (Z.ltb_spec count 127); [|lia]. rewrite IH by lia. rewrite <- app_assoc.
      replace (Z.to_nat (size - count)) with (S (Z.to_nat (size - (count + 1)))) by lia. done.
    + replace (Z.to_nat (size - count)) with 0%nat by lia. by rewrite app_nil_r.
Qed.

Lemma set_events_ok k l evs :
  eq_ok k l -> (evs <> [] -> l = []) -> (length evs <= length (events (evq k)))%nat ->
  eq_ok (set_events evs k) l.
Proof. intros [H1 H2 H3 H4 H5 H6 H7 H8] He Hl. split; cbn; try done. lia. Qed.

Lemma tryreceive_ok k l t n :
  eq_ok k l -> eq_simulates k l (TryReceive t n) (fst (tryreceive n k)).
Proof.
  intros Hok. unfold tryreceive. rewrite (eq_type _ _ Hok). cbn [negb Z.eqb].
  change (negb (SYS_PPU_QUEUE =? SYS_PPU_QUEUE)) with false. cbn iota.
  destruct (Z.eqb_spec (q_exists k) 0) as [E0|E0]; [by apply same_ok|].
  pose proof (eq_cap _ _ Hok). rewrite try_loop_ok by lia. rewrite app_nil_l, Z.sub_0_r. cbn [fst snd].
  set (m := Z.to_nat n). exists (TakeMany (take m (events (evq k)))), l. split.
  { unfold mb_of. cbn. rewrite <- (take_drop m (events (evq k))) at 1. by apply mb_many. }
  split; [done|]. split; [done|]. split; [|by repeat split].
  apply set_events_ok; [done| |rewrite length_drop; lia]. intros Hd. apply (eq_excl _ _ Hok).
  intros E. by rewrite E, drop_nil in Hd.
Qed.

Lemma queue_drain_ok k l t : eq_ok k l -> eq_simulates k l (Drain t) (queue_drain k).
Proof.
  intros Hok. unfold queue_drain. destruct (Z.eqb_spec (q_exists k) 0) as [E0|E0]; [by apply same_ok|].
  exists (Clear (events (evq k))), l. split; [by apply mb_clear|]. split; [done|]. split; [done|].
  split; [|by repeat split]. apply set_events_ok; [done|done|cbn; lia].
Qed.

(** The loop of destroy appends every sleeper and changes only results. *)
Lemma cancel_loop_ok fuel h p l acc :
  seg h p l -> NoDup l -> (length l <= fuel)%nat ->
  exists h', cancel_loop fuel h p acc = Some (h', acc ++ l) /\ dom h' = dom h
    /\ forall x, h' !! x = (if decide (x ∈ l) then set_gpr3 CELL_ECANCELED else id) <$> h !! x.
Proof.
  revert fuel h p acc; induction l as [|c l IH]; intros fuel h p acc Hs Hn Hf.
  - cbn in Hs. subst p. exists h. destruct fuel; cbn; rewrite app_nil_r; (split; [done|split; [done|]]);
      intros x; by destruct (h !! x).
  - destruct Hs as (-> & n & Hc & Hs). destruct fuel as [|fuel]; [cbn in Hf; lia|]. inversion Hn as [|? ? Hx Hn']; subst.
    cbn [cancel_loop]. rewrite Hc. cbn [mbind option_bind].
    destruct (IH fuel (alter (set_gpr3 CELL_ECANCELED) c h) (next_cpu n) (acc ++ [c])) as (h' & E & D & L);
      [by apply seg_alter|done|cbn in Hf; lia|].
    exists h'. rewrite E, <- app_assoc. split; [done|]. split; [by rewrite D, dom_alter_L|]. intros x. rewrite L.
    destruct (decide (x = c)) as [->|Hne].
    + rewrite lookup_alter_eq, Hc, decide_False, decide_True by set_solver. done.
    + rewrite lookup_alter_ne by done. destruct (decide (x ∈ l)); [rewrite decide_True by set_solver|rewrite decide_False by set_solver]; done.
Qed.

Lemma live_dec k l : eq_ok k l -> q_exists k <> 0 -> wrap 32 (q_exists k - 1) = q_exists k - 1.
Proof. intros Hok E. pose proof (eq_live _ _ Hok) as [? ?]. apply wrap_id. split; lia. Qed.

Lemma head_waiting_ok k l : eq_ok k l -> head_waiting k = bool_decide (l <> []).
Proof.
  intros Hok. unfold head_waiting. rewrite (eq_type _ _ Hok). cbn. pose proof (eq_waits _ _ Hok) as H.
  destruct l as [|x l]; cbn in H; [rewrite H|destruct H as [-> _]]; by rewrite ?bool_decide_true, ?bool_decide_false by naive_solver.
Qed.

Lemma queue_destroy_ok k l t mode : eq_ok k l -> eq_simulates k l (Destroy t mode) (queue_destroy t mode k).
Proof.
  intros Hok. unfold queue_destroy, head_again. rewrite (head_waiting_ok k l Hok), (eq_type _ _ Hok).
  change (SYS_PPU_QUEUE =? SYS_PPU_QUEUE) with true. cbn iota.
  destruct (Z.eqb_spec mode 0) as [Em|Em], (Z.eqb_spec mode SYS_EVENT_QUEUE_DESTROY_FORCE) as [Ef|Ef]; cbn [negb andb];
    [by subst mode| | |apply same_ok; [done|]; left; done].
  all: destruct (Z.eqb_spec (q_exists k) 0) as [E0|E0]; [apply same_ok; [done|]; right; left; done|].
  all: destruct l as [|x l]; [rewrite bool_decide_false by naive_solver|rewrite bool_decide_true by done]; cbn [andb negb].
  all: try (apply same_ok; [done|]; right; right; left; done).
  all: destruct (any_waiting_ok is_again (pqueue k) _ (eq_waits _ _ Hok)) as (b & -> & Hb).
  all: destruct b; [destruct (proj1 Hb eq_refl) as (y & n & Hy & _);
    first [by apply not_elem_of_nil in Hy | apply quiet_ok; [done|done|]; right; right; right; done]|].
  all: rewrite (live_dec k _ Hok E0).
  all: pose proof Hok as [H1 H2 H3 H4 H5 H6 H7 H8]; destruct H6 as [L1 L2].
  all: assert (urange 32 (q_exists k - 1)) as HL by (split; lia).
  1,2: exists (Cancel []), []; split; [by apply mb_cancel|]; split; [done|]; split; [done|];
    split; [by split; cbn|by repeat split].
  destruct (cancel_loop_ok (size (qthr k)) (qthr k) (pq (evq k)) (x :: l) [] H1 (seg_NoDup _ _ _ H1) (seg_length _ _ _ H1))
    as (h & -> & D & L).
  exists (Cancel (x :: l)), []. split; [by apply mb_cancel|]. split; [split; [done|]; intros ->; done|]. split; [done|].
  split; [|by repeat split]. split; cbn; try done. intros y Hy. split; [apply not_elem_of_nil|].
  apply elem_of_dom. rewrite D. apply elem_of_dom.
  assert (y ∈ (x :: l) \/ y ∈ qrun k) as [Hy'|Hy'] by set_solver; [by eapply seg_dom|by apply H8].
Qed.

(** Every region. *)
Lemma eq_exec_ok k l r : eq_ok k l -> eq_enabled r k = true -> eq_simulates k l r (eq_exec r k).
Proof.
  intros Hok He. destruct r; cbn [eq_exec].
  - by apply send_ok.
  - apply receive_ok; [done|]. by apply bool_decide_eq_true in He.
  - apply andb_true_iff in He as [_ He]. by apply signaled_ok.
  - by apply stopped_ok.
  - by apply receive_timed_out_ok.
  - by apply tryreceive_ok.
  - by apply queue_drain_ok.
  - by apply queue_destroy_ok.
Qed.

(** ** Runs *)

(** A run of the mailbox with the regions and replies it explains. *)
Inductive mb_trace (size protocol : Z) : mailbox -> list (eq_region * reply) -> list mb_label -> mailbox -> Prop :=
| trace_nil m : mb_trace size protocol m [] [] m
| trace_cons h m r rep lbl m1 log lbls m2 :
    mb_step size protocol h m lbl m1 -> explains size m r lbl rep -> mb_trace size protocol m1 log lbls m2 ->
    mb_trace size protocol m ((r, rep) :: log) (lbl :: lbls) m2.

(** The events that left the buffer, or passed it. *)
Definition outs (lbl : mb_label) : list lv2_event :=
  match lbl with
  | Hand _ ev | Take _ ev => [ev]
  | TakeMany l | Clear l => l
  | _ => []
  end.

(** The events whose send returned CELL_OK. *)
Definition accepted (x : eq_region * reply) : list lv2_event :=
  match x with (Send _ _ ev, Returned CELL_OK) => [ev] | _ => [] end.

(** One step moves events through the buffer in order. *)
Lemma mb_step_fifo size protocol h m r lbl rep m1 :
  mb_step size protocol h m lbl m1 -> explains size m r lbl rep ->
  buf m ++ accepted (r, rep) = outs lbl ++ buf m1 /\ rep <> Fatal.
Proof.
  intros Hs He. destruct Hs; destruct r; cbn in He |- *; try done; rewrite ?app_nil_r; try naive_solver.
  destruct He as [[_ ->]|[(_ & _ & ->)|[_ ->]]]; by rewrite app_nil_r.
Qed.

Lemma mb_trace_fifo size protocol m log lbls m' :
  mb_trace size protocol m log lbls m' ->
  buf m ++ concat (accepted <$> log) = concat (outs <$> lbls) ++ buf m' /\ Forall (fun x => snd x <> Fatal) log.
Proof.
  induction 1 as [m|h m r rep lbl m1 log lbls m2 Hs He _ [IH IF]]; [by rewrite app_nil_r|].
  destruct (mb_step_fifo _ _ _ _ _ _ _ _ Hs He) as [E F]. split; [|by constructor]. cbn [fmap list_fmap concat].
  rewrite (assoc_L app), E, <- (assoc_L app), IH, (assoc_L app). done.
Qed.

Lemma eq_run_trace rs k l :
  eq_ok k l ->
  let '(k', log) := eq_run rs k in
  exists lbls l', eq_ok k' l' /\ eq_fixed k k'
    /\ mb_trace (q_size (evq k)) (q_protocol (evq k)) (mb_of k l) log lbls (mb_of k' l')
    /\ qregs k' = foldl (fun regs lbl => mb_regs lbl regs) (qregs k) lbls.
Proof.
  revert k l; induction rs as [|r rs IH]; intros k l Hok; cbn [eq_run].
  - exists [], l. split_and!; try done. constructor.
  - destruct (eq_enabled r k) eqn:He; [|by apply IH].
    destruct (eq_exec_ok k l r Hok He) as (lbl & l1 & Hs & Hx & Hr & Hok1 & (F1 & F2 & F3)).
    destruct (eq_exec r k) as [k1 rep]. cbn [fst snd] in *.
    specialize (IH k1 l1 Hok1). destruct (eq_run rs k1) as [k2 log].
    destruct IH as (lbls & l2 & O2 & (G1 & G2 & G3) & T & R). exists (lbl :: lbls), l2. rewrite F1, F2 in *.
    split_and!; [done|by repeat split; congruence|by econstructor|]. cbn. by rewrite <- Hr.
Qed.

(** C6: Every critical section of the event queue syscalls (send, receive, the
    three ways out of its wait loop, tryreceive, drain and destroy) does one
    step of an abstract mailbox: a bounded buffer with sleeping receivers, in
    which an event goes to the receiver the protocol selects, if one sleeps,
    and to the end of the buffer otherwise.  The reply tells which step it was,
    the registers of a thread change exactly when it is given an event, and
    the invariant (threads sleep only on an empty buffer of a live queue, the
    buffer fits the array of 127) is kept. *)
Theorem event_queue_refines (k : qstate) (l : list tid) (r : eq_region) :
  eq_ok k l -> eq_enabled r k = true -> eq_simulates k l r (eq_exec r k).
Proof. apply eq_exec_ok. Qed.

(** C7: Events are delivered once and in order.  In every run of the critical
    sections, by any threads, no step is fatal (no null receiver, no failed
    ensure, no write past the array of tryreceive, no endless walk), and the
    events accepted by send are, in order, the events handed to receivers,
    taken or drained, followed by what is left in the buffer; each thread's
    registers hold the last event it was given, and the buffer never exceeds
    the size of the queue. *)
Theorem event_queue_fifo (rs : list eq_region) (k : qstate) (l : list tid) :
  eq_ok k l ->
  let '(k', log) := eq_run rs k in
  Forall (fun x => snd x <> Fatal) log
  /\ Z.of_nat (length (events (evq k'))) <= q_size (evq k)
  /\ exists lbls l',
       mb_trace (q_size (evq k)) (q_protocol (evq k)) (mb_of k l) log lbls (mb_of k' l')
       /\ events (evq k) ++ concat (accepted <$> log) = concat (outs <$> lbls) ++ events (evq k')
       /\ qregs k' = foldl (fun regs lbl => mb_regs lbl regs) (qregs k) lbls.
Proof.
  intros Hok. pose proof (eq_run_trace rs k l Hok) as H. destruct (eq_run rs k) as [k' log].
  destruct H as (lbls & l' & O & (F & _) & T & R). destruct (mb_trace_fifo _ _ _ _ _ _ T) as [E N].
  split; [done|]. split; [rewrite <- F; apply (eq_cap _ _ O)|]. exists lbls, l'. done.
Qed.

End Simulation.

(** ** Examples *)

(** A queue of two events; thread 1 sleeps in it, 2 and 3 run. *)
Definition sample_qstate : qstate :=
  mk_qstate (mk_evq 0x8d000100 SYS_SYNC_PRIORITY SYS_PPU_QUEUE 2 0 0 [] (Some 1%positive) None) 1
    (list_to_map [(1%positive, sample_thread 1 None 100 1); (2%positive, sample_thread 2 None 500 2);
                  (3%positive, sample_thread 3 None 600 3)])
    ∅ 3 {[2%positive; 3%positive]}.

Lemma sample_qstate_ok : eq_ok sample_qstate [1%positive].
Proof.
  split; cbn; try done.
  - split; [done|]. by eexists.
  - intros t Ht. assert (t = 2%positive \/ t = 3%positive) as [->| ->] by set_solver;
      (split; [set_solver|by eexists]).
Qed.

(** No SPU thread waits. *)
Definition no_spu (_ : lv2_event) (k : qstate) : qstate * reply := (k, Fatal).

Lemma event_queue_refines_witness :
  eq_simulates sample_qstate [1%positive] (Send (Some 2%positive) true (9, 1, 2, 3))
    (eq_exec no_spu (fun _ => false) id (Send (Some 2%positive) true (9, 1, 2, 3)) sample_qstate)
  /\ snd (eq_exec no_spu (fun _ => false) id (Send (Some 2%positive) true (9, 1, 2, 3)) sample_qstate) = Returned CELL_OK.
Proof.
  split; [|vm_compute; reflexivity].
  apply (event_queue_refines no_spu (fun _ => false) id sample_qstate [1%positive]);
    [exact sample_qstate_ok|vm_compute; reflexivity].
Defined.

(** The first event wakes thread 1, two are buffered, the fourth is refused;
    thread 1 leaves its wait, and thread 3 takes the second event. *)
Lemma event_queue_fifo_witness :
  let rs := [Send (Some 2%positive) true (9, 1, 1, 1); Send None false (9, 2, 2, 2); Send None false (9, 3, 3, 3);
             Send None false (9, 4, 4, 4); Signaled 1%positive; Receive 3%positive] in
  let '(k', log) := eq_run no_spu (fun _ => false) id rs sample_qstate in
  Forall (fun x => snd x <> Fatal) log
  /\ snd <$> log = [Returned CELL_OK; Returned CELL_OK; Returned CELL_OK; Returned CELL_EBUSY; Returned CELL_OK; Returned CELL_OK]
  /\ qregs k' !! 1%positive = Some (9, 1, 1, 1) /\ qregs k' !! 3%positive = Some (9, 2, 2, 2)
  /\ events (evq k') = [(9, 3, 3, 3)].
Proof.
  intros rs.
  pose proof (event_queue_fifo no_spu (fun _ => false) id rs sample_qstate [1%positive] sample_qstate_ok) as H.
  assert (E : let '(k', log) := eq_run no_spu (fun _ => false) id rs sample_qstate in
    (snd <$> log, qregs k' !! 1%positive, qregs k' !! 3%positive, events (evq k')) =
    ([Returned CELL_OK; Returned CELL_OK; Returned CELL_OK; Returned CELL_EBUSY; Returned CELL_OK; Returned CELL_OK],
     Some (9, 1, 1, 1), Some (9, 2, 2, 2), [(9, 3, 3, 3)])) by (vm_compute; reflexivity).
  destruct (eq_run _ _ _ rs sample_qstate) as [k' log]. destruct H as [N _]. injection E as E1 E2 E3 E4. done.
Defined.
