(* ===== verification/Lv2EventPort.v ===== *)
(** * LV2 event ports

    The port syscalls of kernel/cellos/src/sys_event.cpp, the creation of
    event queues and the path of an event from sys_event_port_send to a
    receiver.  A port holds a reference to a queue, which may have been
    destroyed ([exists] is 0) while the port keeps it; [is_busy] counts the
    senders that wait to be rescheduled and still use the port. *)

From stdpp Require Import base numbers list gmap tactics.
From Stdlib Require Import Lia.
From S2P Require Import Prelude IdManager Lv2Obj Lv2Sema Lv2Create Lv2Mutex Lv2RwLock Lv2EventFlag Lv2Syscalls Lv2EventQueue.

Open Scope Z_scope.

Definition SYS_EVENT_QUEUE_LOCAL : Z := 0.
Definition SYS_EVENT_PORT_LOCAL : Z := 1.
Definition SYS_EVENT_PORT_IPC : Z := 3.

(** id_base of lv2_event_queue and lv2_event_port. *)
Definition equeue_traits : id_traits := lv2_traits 0x8d000000.
Definition eport_traits : id_traits := lv2_traits 0x0e000000.

(** struct lv2_event_port *)
Record lv2_event_port := mk_eport {
  p_type : Z;
  p_name : Z;
  is_busy : Z;
  p_queue : option oref
}.

(** ** sys_event_queue_create *)

Record sys_event_queue_attribute_t := mk_equeue_attr {
  qa_protocol : Z;
  qa_type : Z;
  qa_name : Z
}.

(** The test of sys_event_queue_destroy without force. *)
Definition equeue_destroy_test (q : lv2_event_queue) : option error_code :=
  if bool_decide ((if q_type q =? SYS_PPU_QUEUE then pq q else spq q) = None) then None else Some CELL_EBUSY.

#[global] Instance equeue_object : Lv2Object lv2_event_queue :=
  {| key_of := q_key; destroy_test := equeue_destroy_test |}.

(** The constructor keeps the low bytes of protocol, type and size. *)
Definition make_equeue (id : Z) (a : sys_event_queue_attribute_t) (ipc_key size : Z) : lv2_event_queue :=
  mk_evq id (wrap 8 (qa_protocol a)) (wrap 8 (qa_type a)) (wrap 8 size) (qa_name a) ipc_key [] None None.

Definition equeue_args (a : sys_event_queue_attribute_t) (size : Z) : option error_code :=
  if (size <=? 0) || (127 <? size) then Some CELL_EINVAL
  else if negb (qa_protocol a =? SYS_SYNC_FIFO) && negb (qa_protocol a =? SYS_SYNC_PRIORITY) then Some CELL_EINVAL
  else if negb (qa_type a =? SYS_PPU_QUEUE) && negb (qa_type a =? SYS_SPU_QUEUE) then Some CELL_EINVAL
  else None.

(** [id] is idm::last_id() in the constructor. *)
Definition sys_event_queue_create (id : Z) (a : sys_event_queue_attribute_t) (ipc_key size : Z)
    (s : space lv2_event_queue) : option (space lv2_event_queue * error_code * option Z) :=
  match equeue_args a size with
  | Some e => Some (s, e, None)
  | None =>
      let pshared := if ipc_key =? SYS_EVENT_QUEUE_LOCAL then SYS_SYNC_NOT_PROCESS_SHARED
                     else SYS_SYNC_PROCESS_SHARED in
      store_id (create equeue_traits pshared ipc_key SYS_SYNC_NEWLY_CREATED (make_equeue id a ipc_key size) true s)
  end.

(** ** State *)

(** Queues with their ids and counters, ports with theirs, and the threads. *)
Record ev_kernel := mk_evk {
  kq : space lv2_event_queue;
  pids : id_map oref;
  pobjs : gmap oref lv2_event_port;
  pnext : oref;
  plast : Z;
  kthr : store;
  kregs : gmap tid lv2_event;
  ktag : Z;
  krun : gset tid
}.

Definition with_ports (o : gmap oref lv2_event_port) (k : ev_kernel) : ev_kernel :=
  mk_evk (kq k) (pids k) o (pnext k) (plast k) (kthr k) (kregs k) (ktag k) (krun k).

Definition set_busy (f : Z -> Z) (p : lv2_event_port) : lv2_event_port :=
  mk_eport (p_type p) (p_name p) (f (is_busy p)) (p_queue p).

Definition set_pqref (r : option oref) (p : lv2_event_port) : lv2_event_port :=
  mk_eport (p_type p) (p_name p) (is_busy p) r.

(** The queue [r] with the threads, and its replacement. *)
Definition focus (r : oref) (k : ev_kernel) : option qstate :=
  '(q, n) ← objs (kq k) !! r; Some (mk_qstate q n (kthr k) (kregs k) (ktag k) (krun k)).

Definition unfocus (r : oref) (s : qstate) (k : ev_kernel) : ev_kernel :=
  mk_evk (with_objs (<[r := (evq s, q_exists s)]> (objs (kq k))) (kq k)) (pids k) (pobjs k) (pnext k) (plast k)
    (qthr s) (qregs s) (qtag s) (qrun s).

(** lv2_obj::check(port.queue) *)
Definition connected (p : lv2_event_port) (k : ev_kernel) : bool :=
  match p_queue p ≫= fun r => focus r k with
  | Some s => negb (q_exists s =? 0)
  | None => false
  end.

(** ** Port syscalls *)

Definition sys_event_port_create (port_type name : Z) (k : ev_kernel) : option (ev_kernel * error_code * option Z) :=
  if negb (port_type =? SYS_EVENT_PORT_LOCAL) && negb (port_type =? SYS_EVENT_PORT_IPC)
  then Some (k, CELL_EINVAL, None)
  else
    match create_id eport_traits (pids k) (Some (pnext k)) (tr_invalid eport_traits) (plast k) with
    | None => None
    | Some (m, Some r, g) =>
        Some (mk_evk (kq k) m (<[r := mk_eport port_type name 0 None]> (pobjs k)) (Pos.succ (pnext k)) g
                (kthr k) (kregs k) (ktag k) (krun k), CELL_OK, Some g)
    | Some (m, None, g) =>
        Some (mk_evk (kq k) m (pobjs k) (pnext k) g (kthr k) (kregs k) (ktag k) (krun k), CELL_EAGAIN, None)
    end.

(** The id manager holds the only reference, so the port withdrawn is freed. *)
Definition sys_event_port_destroy (eport_id : Z) (k : ev_kernel) : ev_kernel * reply :=
  match check_id eport_traits (pids k) eport_id with
  | None => (k, Returned CELL_ESRCH)
  | Some pr =>
      match pobjs k !! pr with
      | None => (k, Fatal)
      | Some p =>
          if connected p k then (k, Returned CELL_EISCONN)
          else
            let '(m, _) := withdraw (E := error_code) eport_traits (pids k) eport_id (fun x => (x, None)) in
            (mk_evk (kq k) m (delete pr (pobjs k)) (pnext k) (plast k) (kthr k) (kregs k) (ktag k) (krun k),
             Returned CELL_OK)
      end
  end.

(** The common end of the two connect syscalls, under id_manager::g_mutex. *)
Definition port_connect (port_type eport_id : Z) (queue : option oref) (k : ev_kernel) : ev_kernel * reply :=
  match find_id eport_traits (pids k) eport_id, queue with
  | Some pr, Some r =>
      match pobjs k !! pr with
      | None => (k, Fatal)
      | Some p =>
          if negb (p_type p =? port_type) then (k, Returned CELL_EINVAL)
          else if connected p k then (k, Returned CELL_EISCONN)
          else (with_ports (<[pr := set_pqref (Some r) p]> (pobjs k)) k, Returned CELL_OK)
      end
  | _, _ => (k, Returned CELL_ESRCH)
  end.

Definition sys_event_port_connect_local (eport_id equeue_id : Z) (k : ev_kernel) : ev_kernel * reply :=
  port_connect SYS_EVENT_PORT_LOCAL eport_id (find_id equeue_traits (ids (kq k)) equeue_id) k.

(** lv2_event_queue::find *)
Definition queue_find (ipc_key : Z) (k : ev_kernel) : option oref :=
  if ipc_key =? SYS_EVENT_QUEUE_LOCAL then None else ipc_get ipc_key (kq k).

(** [queue] was found under the key before the lock is taken. *)
Definition sys_event_port_connect_ipc (eport_id ipc_key : Z) (queue : option oref) (k : ev_kernel) : ev_kernel * reply :=
  if ipc_key =? 0 then (k, Returned CELL_EINVAL) else port_connect SYS_EVENT_PORT_IPC eport_id queue k.

Definition sys_event_port_disconnect (eport_id : Z) (k : ev_kernel) : ev_kernel * reply :=
  match find_id eport_traits (pids k) eport_id with
  | None => (k, Returned CELL_ESRCH)
  | Some pr =>
      match pobjs k !! pr with
      | None => (k, Fatal)
      | Some p =>
          if negb (connected p k) then (k, Returned CELL_ENOTCONN)
          else if negb (is_busy p =? 0) then (k, Returned CELL_EBUSY)
          else (with_ports (<[pr := set_pqref None p]> (pobjs k)) k, Returned CELL_OK)
      end
  end.

(** sys_event_queue_destroy with the id manager: on success the id is
    withdrawn, and the key of the last id with it. *)
Definition sys_event_queue_destroy (spu_again : qstate -> bool) (spu_cancel : qstate -> qstate)
    (t : tid) (equeue_id mode : Z) (k : ev_kernel) : ev_kernel * reply :=
  if negb (mode =? 0) && negb (mode =? SYS_EVENT_QUEUE_DESTROY_FORCE) then (k, Returned CELL_EINVAL)
  else
    match check_id equeue_traits (ids (kq k)) equeue_id with
    | None => (k, Returned CELL_ESRCH)
    | Some r =>
        match focus r k with
        | None => (k, Fatal)
        | Some s =>
            let '(s', rep) := queue_destroy spu_again spu_cancel t mode s in
            let k1 := unfocus r s' k in
            match rep with
            | Returned CELL_OK =>
                let q1 := if (q_exists s =? 1) && negb (q_key (evq s) =? 0) then ipc_remove (q_key (evq s)) (kq k1) else kq k1 in
                let '(m, _) := withdraw (E := error_code) equeue_traits (ids q1) equeue_id (fun x => (x, None)) in
                (mk_evk (mk_space m (objs q1) (ipc q1) (next_ref q1) (last_id q1)) (pids k1) (pobjs k1) (pnext k1)
                   (plast k1) (kthr k1) (kregs k1) (ktag k1) (krun k1), rep)
            | _ => (k1, rep)
            end
        end
    end.

Section Send.

Context (spu_send : lv2_event -> qstate -> qstate * reply) (pid : Z).

(** The source of an event: the name of the port, or process and port id. *)
Definition port_source (eport_id : Z) (p : lv2_event_port) : Z :=
  if p_name p =? 0 then Z.lor (Z.shiftl (wrap 32 pid) 32) eport_id else p_name p.

(** sys_event_port_send up to the wait to be requeued; [cur] is the sender when
    it is a PPU thread, [loaded] its loaded_from_savestate.  A sender that woke
    a thread of higher priority blocks. *)
Definition sys_event_port_send (cur : option tid) (loaded : bool) (eport_id d1 d2 d3 : Z) (k : ev_kernel)
    : ev_kernel * reply :=
  match check_id eport_traits (pids k) eport_id with
  | None => (k, Returned CELL_ESRCH)
  | Some pr =>
      match pobjs k !! pr with
      | None => (k, Fatal)
      | Some p =>
          let ppu := bool_decide (cur <> None) in
          if ppu && loaded
          then (with_ports (<[pr := set_busy (fun n => wrap 64 (n + 1)) p]> (pobjs k)) k, Blocked)
          else
            match p_queue p ≫= fun r => s ← focus r k; Some (r, s) with
            | None => (k, Returned CELL_ENOTCONN)
            | Some (r, s) =>
                if q_exists s =? 0 then (k, Returned CELL_ENOTCONN)
                else
                  let '(s', rep, notified) :=
                    send spu_send cur (ppu && (q_type (evq s) =? SYS_PPU_QUEUE)) (port_source eport_id p, d1, d2, d3) s in
                  let k1 := unfocus r s' k in
                  if notified
                  then (with_ports (<[pr := set_busy (fun n => wrap 64 (n + 1)) p]> (pobjs k1)) k1, Blocked)
                  else (k1, rep)
            end
      end
  end.

(** The rest of the syscall for a sender that blocked, through the pointer
    [pr] it kept; [stopped] is test_stopped(). *)
Definition port_send_end (t : tid) (pr : oref) (stopped : bool) (k : ev_kernel) : ev_kernel * reply :=
  let k0 := if stopped
            then mk_evk (kq k) (pids k) (pobjs k) (pnext k) (plast k)
                   (alter (set_state (add_flag cf_again)) t (kthr k)) (kregs k) (ktag k) (krun k)
            else k in
  match pobjs k0 !! pr with
  | None => (k0, Fatal)
  | Some p => (with_ports (<[pr := set_busy (fun n => wrap 64 (n - 1)) p]> (pobjs k0)) k0, Returned CELL_OK)
  end.

End Send.

(** ** Lemmas *)

Lemma check_find {A} tr (m : id_map A) id x : check_id tr m id = Some x -> find_id tr m id = Some x.
Proof. unfold check_id. by destruct (_ <=? _). Qed.

Lemma focus_with_ports r o k : focus r (with_ports o k) = focus r k.
Proof. done. Qed.

Lemma focus_unfocus r s k : focus r (unfocus r s k) = Some s.
Proof. unfold focus, unfocus. cbn. rewrite lookup_insert_eq. cbn. by destruct s. Qed.

(** A port that holds [r]. *)
Lemma connected_focus p r s k : p_queue p = Some r -> focus r k = Some s -> connected p k = negb (q_exists s =? 0).
Proof. intros Hr Hs. unfold connected. rewrite Hr. cbn [mbind option_bind]. by rewrite Hs. Qed.

(** send to a live queue without sleepers appends. *)
Lemma send_appends spu cur port ev s :
  eq_ok s [] -> q_exists s <> 0 -> Z.of_nat (length (events (evq s))) < q_size (evq s) ->
  send spu cur port ev s = (set_events (events (evq s) ++ [ev]) s, Returned CELL_OK, false).
Proof.
  intros Hok He Hl. unfold send. destruct (Z.eqb_spec (q_exists s) 0); [done|].
  pose proof (eq_waits _ _ Hok) as Hw. cbn in Hw. rewrite Hw, (eq_spq _ _ Hok), !bool_decide_true by done.
  cbn [andb]. by destruct (Z.ltb_spec (Z.of_nat (length (events (evq s)))) (q_size (evq s))); [|lia].
Qed.

(** send from a thread of lower priority to sleepers hands over and blocks. *)
Lemma send_hands spu c ev s l m :
  eq_ok s l -> l <> [] -> q_exists s <> 0 -> c ∈ qrun s -> qthr s !! c = Some m ->
  (forall x n, x ∈ l -> qthr s !! x = Some n -> again n = false /\ prio n < prio m) ->
  exists s' l', send spu (Some c) true ev s = (s', Returned CELL_OK, true)
    /\ eq_ok s' l' /\ q_exists s' = q_exists s /\ no_again (qthr s') l'.
Proof.
  intros Hok Hne He Hc Hm Ha. unfold send. destruct (Z.eqb_spec (q_exists s) 0) as [|_]; [done|].
  pose proof (eq_waits _ _ Hok) as Hw. rewrite (eq_type _ _ Hok), (eq_spq _ _ Hok).
  assert (bool_decide (pq (evq s) = None) = false) as ->.
  { apply bool_decide_eq_false. destruct l; [done|]. destruct Hw as [Hw _]. cbn in Hw. congruence. }
  cbn [andb]. change (SYS_PPU_QUEUE =? SYS_PPU_QUEUE) with true. cbn iota.
  destruct (schedule_ok (q_protocol (evq s)) true (pqueue s) l Hw) as [_ S].
  destruct (S Hne) as (t & n & q & -> & Hsel & Hn & R). pose proof (selects_elem _ _ _ _ Hsel) as Ht.
  destruct (Ha t n Ht Hn) as [Hga Hp]. rewrite Hga in R. pose proof R as [R1 R2 R3].
  destruct (relinked_lookup _ _ _ _ _ R2 Hn) as [p1 Hp1]. cbn [threads] in Hp1. rewrite Hp1.
  change (again (set_next p1 n)) with (again n). rewrite Hga.
  destruct (relinked_lookup _ _ _ _ _ R2 Hm) as [p2 Hp2]. cbn [threads] in Hp2.
  unfold send_blocks. cbn [mbind option_bind q_awake set_regs set_pqueue qthr]. rewrite Hp2. cbn [mbind option_bind].
  change (prio (set_next p1 n)) with (prio n). change (prio (set_next p2 m)) with (prio m).
  destruct (Z.ltb_spec (prio n) (prio m)); [|lia].
  destruct (removed_eq_ok s l t q t id ltac:(done) Hok Ht R) as [O _]. rewrite q_thread_id in O.
  eexists _, (without t l). split; [reflexivity|]. split; [exact (set_regs_ok _ _ t ev O)|]. split; [done|].
  cbn [qthr q_awake set_regs set_pqueue]. eapply (no_again_relinked l (qthr s) (threads q) l); [exact R2| |].
  - intros x Hx. by apply without_elem_of in Hx as [? _].
  - intros x y Hx Hy. by destruct (Ha x y Hx Hy).
Qed.

(** A forced destroy of a queue without restarted sleepers. *)
Lemma queue_destroy_forced sa sc t s l :
  eq_ok s l -> q_exists s <> 0 -> no_again (qthr s) l ->
  exists s', queue_destroy sa sc t SYS_EVENT_QUEUE_DESTROY_FORCE s = (s', Returned CELL_OK)
    /\ q_exists s' = q_exists s - 1.
Proof.
  intros Hok He Ha. unfold queue_destroy, head_again. rewrite (eq_type _ _ Hok). cbn [negb andb Z.eqb SYS_EVENT_QUEUE_DESTROY_FORCE].
  destruct (Z.eqb_spec (q_exists s) 0); [done|]. change (SYS_PPU_QUEUE =? SYS_PPU_QUEUE) with true. cbn iota.
  destruct (any_waiting_ok is_again (pqueue s) _ (eq_waits _ _ Hok)) as (b & -> & Hb).
  destruct b; [destruct (proj1 Hb eq_refl) as (y & n0 & Hy & Hn & Hg); unfold is_again in Hg; by rewrite (Ha y n0 Hy Hn) in Hg|].
  rewrite (live_dec s l Hok He). destruct (head_waiting s); cbn [negb]; [|by eexists].
  destruct (cancel_loop_ok (size (qthr s)) (qthr s) (pq (evq s)) l [] (eq_waits _ _ Hok)
    (seg_NoDup _ _ _ (eq_waits _ _ Hok)) (seg_length _ _ _ (eq_waits _ _ Hok))) as (h & -> & _). by eexists.
Qed.

(** A sender whose queue is gone. *)
Lemma port_send_unconnected spu pid cur id d1 d2 d3 k pr p :
  check_id eport_traits (pids k) id = Some pr -> pobjs k !! pr = Some p -> connected p k = false ->
  sys_event_port_send spu pid cur false id d1 d2 d3 k = (k, Returned CELL_ENOTCONN).
Proof.
  intros Hc Hp Hn. unfold sys_event_port_send. rewrite Hc, Hp, andb_false_r. unfold connected in Hn.
  destruct (p_queue p) as [r|]; cbn [mbind option_bind] in *; [|done].
  destruct (focus r k) as [s|]; cbn [mbind option_bind]; [|done]. by destruct (_ =? _).
Qed.

(** A new queue satisfies the invariant. *)
Lemma make_equeue_ok id a ipc_key size n thr regs tag (run : gset tid) :
  equeue_args a size = None -> qa_type a = SYS_PPU_QUEUE -> urange 32 n ->
  (forall t, t ∈ run -> is_Some (thr !! t)) ->
  eq_ok (mk_qstate (make_equeue id a ipc_key size) n thr regs tag run) [].
Proof.
  intros Ha Ht Hn Hr. assert (0 < size <= 127) as Hsz.
  { unfold equeue_args in Ha. destruct (Z.leb_spec size 0), (Z.ltb_spec 127 size); cbn in Ha; done || lia. }
  split; cbn; try done.
  - by rewrite Ht.
  - rewrite wrap_id by (split; lia). lia.
  - intros t Hx. split; [apply not_elem_of_nil|by apply Hr].
Qed.

(** sys_event_queue_create: the errors of its checks, then those of
    lv2_obj::create; on success with a new key the id names an empty queue. *)
Lemma equeue_create_ok (tys : list id_traits) id a ipc_key size (s : space lv2_event_queue) :
  wf_types tys 8192 -> equeue_traits ∈ tys -> space_ok tys 8192 s ->
  exists s' e w, sys_event_queue_create id a ipc_key size s = Some (s', e, w) /\ space_ok tys 8192 s'
    /\ (is_Some w <-> e = CELL_OK)
    /\ (forall err, equeue_args a size = Some err -> e = err /\ s' = s)
    /\ (forall i, w = Some i -> exists r, find_id equeue_traits (ids s') i = Some r
          /\ (ipc_key = 0 \/ ipc_get ipc_key s = None -> fst <$> objs s' !! r = Some (make_equeue id a ipc_key size))).
Proof.
  intros Ht Hin Hs. unfold sys_event_queue_create. destruct (equeue_args a size) as [err|] eqn:Ea.
  { exists s, err, None. split_and!; try done; [|by intros ? [= ->]]. split; [by intros [? ?]|]. intros ->. exfalso.
    unfold equeue_args in Ea. by repeat case_match. }
  set (ps := if ipc_key =? SYS_EVENT_QUEUE_LOCAL then SYS_SYNC_NOT_PROCESS_SHARED else SYS_SYNC_PROCESS_SHARED).
  assert (Hk : get_key ps ipc_key = ipc_key).
  { unfold get_key, ps. destruct (Z.eqb_spec ipc_key SYS_EVENT_QUEUE_LOCAL) as [->|]; done. }
  destruct (create_syscall_ok tys equeue_traits ps ipc_key SYS_SYNC_NEWLY_CREATED (make_equeue id a ipc_key size) s
    Ht Hin Hs) as (s' & e & w & E & H1 & H2 & H3); [by rewrite Hk|cbn; unfold equeue_destroy_test; cbn; by destruct (_ =? SYS_PPU_QUEUE)|].
  rewrite Hk in *. exists s', e, w. split_and!; try done. intros i Hi. destruct (H3 i Hi) as (r & F1 & _ & F3).
  exists r. split; [done|]. intros Hnew. apply F3. unfold existing, ps.
  destruct (Z.eqb_spec ipc_key SYS_EVENT_QUEUE_LOCAL) as [->|Hne]; [done|]. destruct Hnew as [E0|E0]; [done|]. by rewrite E0.
Qed.

(** ** Properties *)

(** C37: The life of an event port.  Connecting a local port to a live queue
    succeeds; an event sent through it is then the last one a receiver takes
    from the queue, with the port's name, or process and port id, as its
    source; disconnecting succeeds, and a later send is refused with
    CELL_ENOTCONN. *)
Theorem event_port_roundtrip (spu : lv2_event -> qstate -> qstate * reply) (pid : Z) (k : ev_kernel)
    (eport equeue d1 d2 d3 : Z) (pr r : oref) (p : lv2_event_port) (s : qstate) (cur : option tid) :
  check_id eport_traits (pids k) eport = Some pr -> pobjs k !! pr = Some p ->
  p_type p = SYS_EVENT_PORT_LOCAL -> connected p k = false -> is_busy p = 0 ->
  find_id equeue_traits (ids (kq k)) equeue = Some r -> focus r k = Some s ->
  eq_ok s [] -> q_exists s <> 0 -> Z.of_nat (length (events (evq s))) < q_size (evq s) ->
  let ev := (port_source pid eport p, d1, d2, d3) in
  exists k1 k2 s2 s3 k4,
    sys_event_port_connect_local eport equeue k = (k1, Returned CELL_OK)
    /\ sys_event_port_send spu pid cur false eport d1 d2 d3 k1 = (k2, Returned CELL_OK)
    /\ focus r k2 = Some s2
    /\ tryreceive (Z.of_nat (length (events (evq s))) + 1) s2 = (s3, Returned CELL_OK, events (evq s) ++ [ev])
    /\ events (evq s3) = []
    /\ sys_event_port_disconnect eport k2 = (k4, Returned CELL_OK)
    /\ sys_event_port_send spu pid cur false eport d1 d2 d3 k4 = (k4, Returned CELL_ENOTCONN).
Proof.
  intros Hc Hp Ht Hn Hb Hf Hs Hok He Hl ev. pose proof (check_find _ _ _ _ Hc) as Hfp.
  set (p1 := set_pqref (Some r) p). set (k1 := with_ports (<[pr := p1]> (pobjs k)) k).
  set (s2 := set_events (events (evq s) ++ [ev]) s). set (k2 := unfocus r s2 k1).
  set (p4 := set_pqref None p1). set (k4 := with_ports (<[pr := p4]> (pobjs k2)) k2).
  assert (Hp1 : pobjs k1 !! pr = Some p1) by apply lookup_insert_eq.
  exists k1, k2, s2, (set_events [] s2), k4. split_and!.
  - unfold sys_event_port_connect_local, port_connect. rewrite Hf, Hfp, Hp, Ht, Z.eqb_refl, Hn. done.
  - unfold sys_event_port_send. change (pids k1) with (pids k). rewrite Hc, Hp1, andb_false_r.
    cbn [p_queue p1 set_pqref mbind option_bind]. change (focus r k1) with (focus r k). rewrite Hs. cbn [mbind option_bind].
    destruct (Z.eqb_spec (q_exists s) 0); [done|]. by rewrite send_appends.
  - apply focus_unfocus.
  - unfold tryreceive. change (q_type (evq s2)) with (q_type (evq s)). rewrite (eq_type _ _ Hok).
    change (q_exists s2) with (q_exists s). destruct (Z.eqb_spec (q_exists s) 0); [done|].
    pose proof (eq_cap _ _ Hok). change (events (evq s2)) with (events (evq s) ++ [ev]). cbn [negb Z.eqb].
    rewrite try_loop_ok by (rewrite ?length_app; cbn; lia). rewrite Z.sub_0_r.
    rewrite take_ge, drop_ge by (rewrite length_app; cbn; lia). done.
  - done.
  - unfold sys_event_port_disconnect. change (pids k2) with (pids k). change (pobjs k2) with (pobjs k1). rewrite Hfp, Hp1.
    rewrite (connected_focus p1 r s2 k2 eq_refl (focus_unfocus r s2 k1)). change (q_exists s2) with (q_exists s).
    destruct (Z.eqb_spec (q_exists s) 0); [done|]. change (is_busy p1) with (is_busy p). by rewrite Hb.
  - apply (port_send_unconnected _ _ _ _ _ _ _ k4 pr p4); [done|apply lookup_insert_eq|done].
Qed.

(** [is_busy] does not protect a port whose queue is destroyed.  A thread
    that wakes a receiver of higher priority through a port blocks, still using
    the port; disconnecting and destroying the port are then refused, as they
    should be, but once the queue is destroyed the port counts as unconnected
    and its destruction succeeds, and the blocked sender ends with a decrement
    through a pointer to the freed port. *)
Theorem port_freed_under_sender (spu : lv2_event -> qstate -> qstate * reply) (sa : qstate -> bool)
    (sc : qstate -> qstate) (pid : Z) (k : ev_kernel) (eport equeue d1 d2 d3 : Z) (pr r : oref)
    (p : lv2_event_port) (s : qstate) (l : list tid) (c t : tid) (m : ppu_thread) :
  check_id eport_traits (pids k) eport = Some pr -> pobjs k !! pr = Some p -> p_queue p = Some r ->
  is_busy p = 0 -> check_id equeue_traits (ids (kq k)) equeue = Some r -> focus r k = Some s ->
  eq_ok s l -> l <> [] -> q_exists s = 1 -> c ∈ krun k -> kthr k !! c = Some m ->
  (forall x n, x ∈ l -> kthr k !! x = Some n -> again n = false /\ prio n < prio m) ->
  exists k1 k2 k3,
    sys_event_port_send spu pid (Some c) false eport d1 d2 d3 k = (k1, Blocked)
    /\ sys_event_port_disconnect eport k1 = (k1, Returned CELL_EBUSY)
    /\ sys_event_port_destroy eport k1 = (k1, Returned CELL_EISCONN)
    /\ sys_event_queue_destroy sa sc t equeue SYS_EVENT_QUEUE_DESTROY_FORCE k1 = (k2, Returned CELL_OK)
    /\ sys_event_port_destroy eport k2 = (k3, Returned CELL_OK)
    /\ port_send_end c pr false k3 = (k3, Fatal).
Proof.
  intros Hc Hp Hr Hb Hq Hs Hok Hl He Hrun Hm Ha. pose proof (check_find _ _ _ _ Hc) as Hfp.
  assert (Hsk : qthr s = kthr k /\ qrun s = krun k).
  { unfold focus in Hs. destruct (objs (kq k) !! r) as [[q n]|]; [|done]. by injection Hs as <-. }
  destruct Hsk as [Ht Hu]. rewrite <- Ht in *. rewrite <- Hu in *.
  destruct (send_hands spu c (port_source pid eport p, d1, d2, d3) s l m Hok Hl ltac:(lia) Hrun Hm Ha)
    as (s1 & l1 & Es & Ok1 & Ex1 & Na1).
  destruct (queue_destroy_forced sa sc t s1 l1 Ok1 ltac:(lia) Na1) as (s2 & Ed & Ex2).
  set (p1 := set_busy (fun n => wrap 64 (n + 1)) p).
  set (k0 := unfocus r s1 k). set (k1 := with_ports (<[pr := p1]> (pobjs k0)) k0).
  assert (Hf1 : focus r k1 = Some s1) by apply (focus_unfocus r s1 k).
  assert (Hp1 : pobjs k1 !! pr = Some p1) by apply lookup_insert_eq.
  assert (Hc1 : connected p1 k1 = true).
  { rewrite (connected_focus p1 r s1 k1 Hr Hf1), Ex1, He. done. }
  set (k2 := fst (sys_event_queue_destroy sa sc t equeue SYS_EVENT_QUEUE_DESTROY_FORCE k1)).
  assert (Hd : sys_event_queue_destroy sa sc t equeue SYS_EVENT_QUEUE_DESTROY_FORCE k1 = (k2, Returned CELL_OK)
    /\ pids k2 = pids k /\ pobjs k2 = pobjs k1 /\ focus r k2 = Some s2).
  { unfold k2, sys_event_queue_destroy. cbn [negb andb Z.eqb SYS_EVENT_QUEUE_DESTROY_FORCE].
    change (ids (kq k1)) with (ids (kq k)). rewrite Hq, Hf1. change (queue_destroy sa sc t 1 s1) with (queue_destroy sa sc t SYS_EVENT_QUEUE_DESTROY_FORCE s1). rewrite Ed.
    destruct (withdraw _ _ _ _) as [mm ww]. cbn [fst]. split_and!; try done.
    rewrite <- (focus_unfocus r s2 k1). unfold focus. cbn [kq objs kthr kregs ktag krun]. by destruct (_ && _). }
  destruct Hd as (Hd & Hi2 & Ho2 & Hf2).
  exists k1, k2, (fst (sys_event_port_destroy eport k2)). split_and!.
  - unfold sys_event_port_send. rewrite Hc, Hp, Hr, bool_decide_true by done.
    cbn [andb mbind option_bind]. rewrite Hs. cbn [mbind option_bind]. rewrite He, (eq_type _ _ Hok). cbn [Z.eqb].
    change (SYS_PPU_QUEUE =? SYS_PPU_QUEUE) with true. by rewrite Es.
  - unfold sys_event_port_disconnect. change (pids k1) with (pids k). rewrite Hfp, Hp1, Hc1. cbn [negb].
    cbn [is_busy p1 set_busy]. rewrite Hb. done.
  - unfold sys_event_port_destroy. change (pids k1) with (pids k). by rewrite Hc, Hp1, Hc1.
  - exact Hd.
  - unfold sys_event_port_destroy. rewrite Hi2, Ho2, Hc, Hp1, (connected_focus p1 r s2 k2 Hr Hf2).
    replace (q_exists s2) with 0 by lia. cbn [negb Z.eqb]. by destruct (withdraw _ _ _ _).
  - unfold port_send_end, sys_event_port_destroy. rewrite Hi2, Ho2, Hc, Hp1, (connected_focus p1 r s2 k2 Hr Hf2).
    replace (q_exists s2) with 0 by lia. cbn [negb Z.eqb]. destruct (withdraw _ _ _ _) as [mm ww]. cbn [fst pobjs].
    by rewrite lookup_delete_eq.
Qed.

(** Port 0xe000000 and queue 0x8d000000, with the threads of [sample_qstate]. *)
Definition sample_evk (q : lv2_event_queue) (connected_to : option oref) : ev_kernel :=
  mk_evk (mk_space (mk_map [Some 1%positive] [mk_key 0x8d000000 0x8d000000] 1) {[1%positive := (q, 1)]} ∅ 2%positive 0)
    (mk_map [Some 1%positive] [mk_key 0x0e000000 0x0e000000] 1)
    {[1%positive := mk_eport SYS_EVENT_PORT_LOCAL 0 0 connected_to]} 2%positive 0
    (qthr sample_qstate) ∅ 3 (qrun sample_qstate).

Definition empty_equeue : lv2_event_queue := make_equeue 0x8d000000 (mk_equeue_attr SYS_SYNC_FIFO SYS_PPU_QUEUE 0) 0 4.

Lemma event_port_roundtrip_witness :
  exists k2 s2 s3,
    focus 1%positive k2 = Some s2
    /\ tryreceive 1 s2 = (s3, Returned CELL_OK, [(Z.lor (Z.shiftl 1 32) 0x0e000000, 5, 6, 7)]).
Proof.
  destruct (event_port_roundtrip no_spu 1 (sample_evk empty_equeue None) 0x0e000000 0x8d000000 5 6 7 1%positive 1%positive
    (mk_eport SYS_EVENT_PORT_LOCAL 0 0 None)
    (mk_qstate empty_equeue 1 (qthr sample_qstate) ∅ 3 (qrun sample_qstate)) None)
    as (k1 & k2 & s2 & s3 & k4 & _ & _ & F & T & _); try (vm_compute; reflexivity).
  - apply make_equeue_ok; [reflexivity|reflexivity|split; lia|]. intros t Ht.
    by destruct (eq_running _ _ sample_qstate_ok t Ht).
  - cbn. lia.
  - exists k2, s2, s3. split; [exact F|exact T].
Defined.

Lemma port_freed_under_sender_witness :
  exists k3, port_send_end 2%positive 1%positive false k3 = (k3, Fatal).
Proof.
  destruct (port_freed_under_sender no_spu (fun _ => false) id 1 (sample_evk (evq sample_qstate) (Some 1%positive))
    0x0e000000 0x8d000000 5 6 7 1%positive 1%positive (mk_eport SYS_EVENT_PORT_LOCAL 0 0 (Some 1%positive)) sample_qstate
    [1%positive] 2%positive 3%positive (sample_thread 2 None 500 2))
    as (k1 & k2 & k3 & _ & _ & _ & _ & _ & H).
  1-6: reflexivity.
  - exact sample_qstate_ok.
  - done.
  - done.
  - apply elem_of_union_l, elem_of_singleton. done.
  - reflexivity.
  - intros x n Hx Hn. apply list_elem_of_singleton in Hx as ->. injection Hn as <-. done.
  - exists k3. exact H.
Defined.
