(* ===== verification/Lv2LwMutex.v ===== *)
(** * LV2 lightweight mutexes

    kernel/cellos/include/cellos/sys_lwmutex.h and src/sys_lwmutex.cpp.  A
    lightweight mutex lives in guest memory; the kernel object only parks the
    threads that found it taken.  [signaled] holds the unlocks nobody waited
    for (bit 0: _sys_lwmutex_unlock, sign bit: _sys_lwmutex_unlock2), [sq] the
    sleeping threads; both are one atomic word, changed by compare-and-swap, and
    only removals from [sq] take [mutex].  Each definition is one atomic region.
    try_own and the sleep after it are one region: a thread woken in between
    finds its sleep cancelled (cancel_sleep).  A lookup that runs a syscall's
    lambda keeps the object from being withdrawn meanwhile. *)

From stdpp Require Import base numbers list gmap tactics.
From Stdlib Require Import Lia.
From S2P Require Import Prelude Lv2Obj Lv2Mutex.

Open Scope Z_scope.

(** The least s32. *)
Definition smin : Z := - 2 ^ 31.

(** struct lv2_lwmutex *)
Record lv2_lwmutex := mk_lwmutex {
  lw_protocol : Z;
  lw_control : Z;
  lw_name : Z;
  lwcond_waiters : Z;
  signaled : Z;
  lw_sq : ptr
}.

(** The state the regions share; [lw_exists] tells whether the id manager
    still holds the mutex. *)
Record lwstate := mk_lws {
  lw : lv2_lwmutex;
  lw_exists : bool;
  lthr : store;
  ltag : Z;
  lrun : gset tid
}.

Definition set_signaled (v : Z) (k : lwstate) : lwstate :=
  let m := lw k in
  mk_lws (mk_lwmutex (lw_protocol m) (lw_control m) (lw_name m) (lwcond_waiters m) v (lw_sq m))
    (lw_exists k) (lthr k) (ltag k) (lrun k).

Definition set_waiters (v : Z) (k : lwstate) : lwstate :=
  let m := lw k in
  mk_lws (mk_lwmutex (lw_protocol m) (lw_control m) (lw_name m) v (signaled m) (lw_sq m))
    (lw_exists k) (lthr k) (ltag k) (lrun k).

Definition lqueue (k : lwstate) : queue := mk_queue (lw_sq (lw k)) (lthr k).

Definition set_lqueue (q : queue) (k : lwstate) : lwstate :=
  let m := lw k in
  mk_lws (mk_lwmutex (lw_protocol m) (lw_control m) (lw_name m) (lwcond_waiters m) (signaled m) (first q))
    (lw_exists k) (threads q) (ltag k) (lrun k).

Definition l_thread (f : ppu_thread -> ppu_thread) (t : tid) (k : lwstate) : lwstate :=
  mk_lws (lw k) (lw_exists k) (alter f t (lthr k)) (ltag k) (lrun k).

Definition l_sleep (t : tid) (k : lwstate) : lwstate :=
  mk_lws (lw k) (lw_exists k) (lthr k) (ltag k) (lrun k ∖ {[t]}).

Definition l_awake (t : tid) (k : lwstate) : lwstate :=
  mk_lws (lw k) (lw_exists k) (lthr k) (ltag k) (lrun k ∪ {[t]}).

Definition set_ltag (n : Z) (k : lwstate) : lwstate :=
  mk_lws (lw k) (lw_exists k) (lthr k) n (lrun k).

(** ** Operations of lv2_lwmutex *)

(** lv2_lwmutex::try_own on lv2_control: the signal taken, or 0 when the
    thread was enqueued; [None] is the failed ensure(!wait_only).  [retries]
    counts the failed rounds of the compare-and-swap, which took tags. *)
Definition lw_try_own (retries : Z) (wait_only : bool) (t : tid) (k : lwstate) : option (Z * lwstate) :=
  if signaled (lw k) =? 0 then
    let tag := wrap 64 (ltag k + retries + 1) in
    let k1 := l_thread (set_order tag) t (set_ltag tag k) in
    let q := release (lqueue k1) (s_next t) (lw_sq (lw k1)) in
    Some (0, set_lqueue (release q s_first (Some t)) k1)
  else if wait_only then None
  else Some (signaled (lw k), l_thread (set_next None) t (set_signaled 0 k)).

(** The operation on lwcond_waiters after it: an lwmutex waiter clears the
    mark of a destroyer that waits for lwcond waiters. *)
Definition lw_notify (k : lwstate) : lwstate :=
  let val := lwcond_waiters (lw k) in
  if wrap 32 val <=? 2 ^ 31 then k else set_waiters (sext 32 (Z.land val 0x7fffffff)) k.

(** The bit an unlock stores. *)
Definition unlock_bit (unlock2 : bool) : Z := if unlock2 then smin else 1.

(** lv2_lwmutex::try_unlock, with the signal [seen] read before the
    compare-and-swap, which expects an empty queue. *)
Definition lw_try_unlock (seen : Z) (unlock2 : bool) (k : lwstate) : option lwstate :=
  match lw_sq (lw k) with
  | None => if signaled (lw k) =? seen then Some (set_signaled (Z.lor seen (unlock_bit unlock2)) k) else None
  | Some _ => None
  end.

(** lv2_lwmutex::reown: the thread taken from the queue, or the signal stored;
    the new head is stored back only when it changed. *)
Definition lw_reown (unlock2 : bool) (k : lwstate) : run (ptr * lwstate) :=
  match lw_sq (lw k) with
  | None => Some (None, set_signaled (Z.lor (signaled (lw k)) (unlock_bit unlock2)) k)
  | Some _ =>
      '(res, q) ← schedule (lqueue k) (lw_protocol (lw k)) false;
      r ← res;
      n ← threads q !! r;
      let k1 := set_lqueue q k in
      Some (Some r, if again n then k1 else l_thread (set_next None) r k1)
  end.

(** ** _sys_lwmutex_lock *)

(** gpr[3] for the signal taken. *)
Definition signal_result (signal : Z) : error_code := if Z.testbit signal 0 then CELL_OK else CELL_EBUSY.

(** The first attempt. *)
Definition lw_lock_try (t : tid) (k : lwstate) : lwstate * reply :=
  let k0 := l_thread (set_gpr3 CELL_OK) t k in
  if negb (lw_exists k) then (k0, Returned CELL_ESRCH)
  else
    let signal := signaled (lw k) in
    if signal =? 0 then (k0, Retry)
    else
      (l_thread (set_gpr3 (signal_result signal)) t (set_signaled 0 k0), Returned (signal_result signal)).

(** try_own, and the sleep of a thread that was enqueued. *)
Definition lw_lock_own (retries : Z) (t : tid) (k : lwstate) : lwstate * reply :=
  match lw_try_own retries false t k with
  | None => (k, Fatal)
  | Some (signal, k1) =>
      if signal =? 0 then (l_sleep t k1, Blocked)
      else if Z.testbit signal 0 then (k1, Returned CELL_OK)
      else (l_thread (set_gpr3 CELL_EBUSY) t k1, Returned CELL_EBUSY)
  end.

(** The end of the wait loop: not_an_error(ppu.gpr[3]). *)
Definition lw_result (t : tid) (k : lwstate) : reply :=
  match lthr k !! t with
  | None => Fatal
  | Some n =>
      if gpr3 n =? error_value CELL_OK then Returned CELL_OK
      else if gpr3 n =? error_value CELL_EBUSY then Returned CELL_EBUSY
      else if gpr3 n =? error_value CELL_ETIMEDOUT then Returned CELL_ETIMEDOUT
      else Fatal
  end.

Definition lw_lock_signaled (t : tid) (k : lwstate) : lwstate * reply :=
  let k1 := l_thread (set_state (del_flag cf_signal)) t k in (k1, lw_result t k1).

Definition lw_lock_stopped (t : tid) (k : lwstate) : lwstate * reply :=
  match any_waiting (is_thread t) (lqueue k) with
  | None => (k, Fatal)
  | Some true => (l_thread (set_state (add_flag cf_again)) t k, Again)
  | Some false => (k, lw_result t k)
  end.

(** The removal of a timed-out thread: unqueue<false> on a copy of the head,
    stored back when the head itself left. *)
Definition lw_unqueue (t : tid) (k : lwstate) : run (bool * lwstate) :=
  '(r, q) ← unqueue false (lqueue k) t;
  match r with
  | None => Some (false, k)
  | Some _ => Some (true, l_thread (set_next None) t (set_lqueue q k))
  end.

(** The expired timeout, after the scheduler let the thread run again. *)
Definition lw_lock_timed_out (t : tid) (k : lwstate) : lwstate * reply :=
  let k0 := l_awake t k in
  match lw_sq (lw k0) with
  | None => (k0, lw_result t k0)
  | Some _ =>
      match lw_unqueue t k0 with
      | None => (k0, Fatal)
      | Some (false, k1) => (k1, lw_result t k1)
      | Some (true, k1) => let k2 := l_thread (set_gpr3 CELL_ETIMEDOUT) t k1 in (k2, lw_result t k2)
      end
  end.

(** ** _sys_lwmutex_trylock *)
Definition lw_trylock (k : lwstate) : lwstate * reply :=
  if negb (lw_exists k) then (k, Returned CELL_ESRCH)
  else if Z.testbit (signaled (lw k)) 0 then (set_signaled 0 k, Returned CELL_OK)
  else (k, Returned CELL_EBUSY).

(** ** _sys_lwmutex_unlock and _sys_lwmutex_unlock2 *)

Definition lw_unlock_cas (seen : Z) (unlock2 : bool) (k : lwstate) : lwstate * reply :=
  if negb (lw_exists k) then (k, Returned CELL_ESRCH)
  else
    match lw_try_unlock seen unlock2 k with
    | Some k1 => (k1, Returned CELL_OK)
    | None => (k, Retry)
    end.

(** The critical section, by thread [t]. *)
Definition lw_unlock_locked (t : tid) (unlock2 : bool) (k : lwstate) : lwstate * reply :=
  match lw_reown unlock2 k with
  | None => (k, Fatal)
  | Some (None, k1) => (k1, Returned CELL_OK)
  | Some (Some r, k1) =>
      match lthr k1 !! r with
      | None => (k1, Fatal)
      | Some n =>
          if again n then (l_thread (set_state (add_flag cf_again)) t k1, Again)
          else
            let k2 := if unlock2 then l_thread (set_gpr3 CELL_EBUSY) r k1 else k1 in
            (l_awake r k2, Returned CELL_OK)
      end
  end.

(** ** _sys_lwmutex_destroy *)

(** The attempt to withdraw the mutex; with lwcond waiters inside the
    destroyer marks lwcond_waiters and sleeps. *)
Definition lw_destroy_try (t : tid) (k : lwstate) : lwstate * reply :=
  if negb (lw_exists k) then (k, Returned CELL_ESRCH)
  else
    match lw_sq (lw k) with
    | Some _ => (k, Returned CELL_EBUSY)
    | None =>
        let old_val := Z.lor (lwcond_waiters (lw k)) smin in
        let k1 := set_waiters old_val k in
        if negb (old_val =? smin) then (l_sleep t k1, Blocked)
        else (mk_lws (lw k1) false (lthr k1) (ltag k1) (lrun k1), Returned CELL_OK)
    end.

(** A turn of its wait: the mark was cleared by an lwmutex waiter or the last
    lwcond waiter left, and the loop begins again. *)
Definition lw_destroy_wait (stopped : bool) (t : tid) (k : lwstate) : lwstate * reply :=
  if stopped then (l_thread (set_state (add_flag cf_again)) t k, Again)
  else if 2 ^ 31 <? wrap 32 (lwcond_waiters (lw k)) then (k, Blocked)
  else (l_awake t k, Retry).

(** ** The regions as steps *)

Inductive lw_region :=
| LwLockTry (t : tid)
| LwLockOwn (retries : Z) (t : tid)
| LwNotify (t : tid)
| LwSignaled (t : tid)
| LwStopped (t : tid)
| LwTimedOut (t : tid)
| LwTryLock (t : tid)
| LwUnlockCas (t : tid) (seen : Z) (unlock2 : bool)
| LwUnlockLocked (t : tid) (unlock2 : bool)
| LwDestroyTry (t : tid)
| LwDestroyWait (stopped : bool) (t : tid).

Definition gpr3_of (t : tid) (k : lwstate) : option Z := gpr3 <$> lthr k !! t.

(** gpr[3] of a thread in the wait loop. *)
Definition in_lwlock (t : tid) (k : lwstate) : bool :=
  match gpr3_of t k with
  | Some v => bool_decide (v ∈ error_value <$> [CELL_OK; CELL_EBUSY; CELL_ETIMEDOUT])
  | None => false
  end.

(** A thread enters a syscall only while the scheduler runs it; try_own and the
    critical section of unlock run inside a lookup that found the mutex, the
    former with gpr[3] set at the start of the syscall.  A destroyer that waits
    is in no queue. *)
Definition lw_enabled (r : lw_region) (k : lwstate) : bool :=
  match r with
  | LwLockTry t | LwTryLock t | LwUnlockCas t _ _ | LwDestroyTry t => bool_decide (t ∈ lrun k)
  | LwLockOwn _ t => bool_decide (t ∈ lrun k) && lw_exists k && bool_decide (gpr3_of t k = Some (error_value CELL_OK))
  | LwUnlockLocked t _ => bool_decide (t ∈ lrun k) && lw_exists k
  | LwNotify _ => lw_exists k
  | LwSignaled t => bool_decide (t ∈ lrun k) && in_lwlock t k
  | LwStopped t | LwTimedOut t => in_lwlock t k
  | LwDestroyWait _ t =>
      match any_waiting (is_thread t) (lqueue k) with
      | Some b => negb b && bool_decide (is_Some (lthr k !! t))
      | None => false
      end
  end.

Definition lw_exec (r : lw_region) (k : lwstate) : lwstate * reply :=
  match r with
  | LwLockTry t => lw_lock_try t k
  | LwLockOwn retries t => lw_lock_own retries t k
  | LwNotify _ => (lw_notify k, Blocked)
  | LwSignaled t => lw_lock_signaled t k
  | LwStopped t => lw_lock_stopped t k
  | LwTimedOut t => lw_lock_timed_out t k
  | LwTryLock _ => lw_trylock k
  | LwUnlockCas _ seen u => lw_unlock_cas seen u k
  | LwUnlockLocked t u => lw_unlock_locked t u k
  | LwDestroyTry t => lw_destroy_try t k
  | LwDestroyWait stopped t => lw_destroy_wait stopped t k
  end.

Fixpoint lw_run (rs : list lw_region) (k : lwstate) : lwstate * list (lw_region * reply) :=
  match rs with
  | [] => (k, [])
  | r :: rs' =>
      if lw_enabled r k then
        let '(k1, rep) := lw_exec r k in
        let '(k2, log) := lw_run rs' k1 in (k2, (r, rep) :: log)
      else lw_run rs' k
  end.

(** ** The abstract parking place *)

(** The stored signals, the parked threads (most recent first), and whether
    the mutex exists. *)
Record parking := mk_parking { tok : Z; parked : list tid; alive : bool }.

Inductive lw_label :=
| PTake (t : tid)
| PJoin (t : tid)
| PPut (unlock2 : bool)
| PHand (t : tid) (unlock2 : bool)
| PLeave (t : tid)
| PGone
| PQuiet.

Inductive lw_step (protocol : Z) (h : store) : parking -> lw_label -> parking -> Prop :=
| p_take v t : v <> 0 -> lw_step protocol h (mk_parking v [] true) (PTake t) (mk_parking 0 [] true)
| p_join t l : t ∉ l -> lw_step protocol h (mk_parking 0 l true) (PJoin t) (mk_parking 0 (t :: l) true)
| p_put v u : lw_step protocol h (mk_parking v [] true) (PPut u) (mk_parking (Z.lor v (unlock_bit u)) [] true)
| p_hand l t u : selects h protocol l t ->
    lw_step protocol h (mk_parking 0 l true) (PHand t u) (mk_parking 0 (without t l) true)
| p_leave l t : t ∈ l -> lw_step protocol h (mk_parking 0 l true) (PLeave t) (mk_parking 0 (without t l) true)
| p_gone v : lw_step protocol h (mk_parking v [] true) PGone (mk_parking v [] false)
| p_quiet p : lw_step protocol h p PQuiet p.

(** The reply of a region for a label. *)
Definition lw_explains (p : parking) (r : lw_region) (lbl : lw_label) (rep : reply) : Prop :=
  match r, lbl with
  | LwLockTry t, PTake t' | LwLockOwn _ t, PTake t' => t' = t /\ rep = Returned (signal_result (tok p))
  | LwLockTry _, PQuiet => (alive p = false /\ rep = Returned CELL_ESRCH) \/ (alive p = true /\ tok p = 0 /\ rep = Retry)
  | LwLockOwn _ t, PJoin t' => t' = t /\ rep = Blocked
  | LwNotify _, PQuiet => rep = Blocked
  | LwSignaled _, PQuiet => exists e, rep = Returned e
  | LwStopped t, PQuiet => (t ∈ parked p /\ rep = Again) \/ ((t ∉ parked p) /\ exists e, rep = Returned e)
  | LwTimedOut t, PLeave t' => t' = t /\ rep = Returned CELL_ETIMEDOUT
  | LwTimedOut t, PQuiet => (t ∉ parked p) /\ exists e, rep = Returned e
  | LwTryLock t, PTake t' => t' = t /\ Z.testbit (tok p) 0 = true /\ rep = Returned CELL_OK
  | LwTryLock _, PQuiet =>
      (alive p = false /\ rep = Returned CELL_ESRCH)
      \/ (alive p = true /\ Z.testbit (tok p) 0 = false /\ rep = Returned CELL_EBUSY)
  | LwUnlockCas _ _ u, PPut u' => u' = u /\ rep = Returned CELL_OK
  | LwUnlockCas _ seen _, PQuiet =>
      (alive p = false /\ rep = Returned CELL_ESRCH)
      \/ (alive p = true /\ (tok p <> seen \/ parked p <> []) /\ rep = Retry)
  | LwUnlockLocked _ u, PPut u' | LwUnlockLocked _ u, PHand _ u' => u' = u /\ rep = Returned CELL_OK
  | LwUnlockLocked _ _, PQuiet => parked p <> [] /\ rep = Again
  | LwDestroyTry _, PGone => rep = Returned CELL_OK
  | LwDestroyTry _, PQuiet =>
      (alive p = false /\ rep = Returned CELL_ESRCH) \/ (parked p <> [] /\ rep = Returned CELL_EBUSY) \/ rep = Blocked
  | LwDestroyWait _ _, PQuiet => rep = Again \/ rep = Blocked \/ rep = Retry
  | _, _ => False
  end.

(** gpr[3] of [x] after a region that did [lbl] with the signals [v]. *)
Definition lw_gpr3 (r : lw_region) (lbl : lw_label) (v : Z) (x : tid) (old : Z) : Z :=
  match r, lbl with
  | LwLockTry t, PTake _ => if decide (x = t) then error_value (signal_result v) else old
  | LwLockTry t, _ => if decide (x = t) then error_value CELL_OK else old
  | LwLockOwn _ t, PTake _ => if decide (x = t) then error_value (signal_result v) else old
  | _, PHand t true => if decide (x = t) then error_value CELL_EBUSY else old
  | _, PLeave t => if decide (x = t) then error_value CELL_ETIMEDOUT else old
  | _, _ => old
  end.

(** The thread that executes a region. *)
Definition lw_actor (r : lw_region) : tid :=
  match r with
  | LwLockTry t | LwLockOwn _ t | LwNotify t | LwSignaled t | LwStopped t | LwTimedOut t | LwTryLock t
  | LwUnlockCas t _ _ | LwUnlockLocked t _ | LwDestroyTry t | LwDestroyWait _ t => t
  end.

(** The threads the scheduler may run after it. *)
Definition lw_runnable (r : lw_region) (lbl : lw_label) (rep : reply) (run : gset tid) : gset tid :=
  match r, lbl with
  | _, PJoin t => run ∖ {[t]}
  | _, PHand t _ => run ∪ {[t]}
  | LwTimedOut t, _ => run ∪ {[t]}
  | LwDestroyTry t, _ => if decide (rep = Blocked) then run ∖ {[t]} else run
  | LwDestroyWait _ t, _ => if decide (rep = Retry) then run ∪ {[t]} else run
  | _, _ => run
  end.

(** ** Invariant *)

Record lw_ok (k : lwstate) (l : list tid) : Prop := {
  lo_waits : waits (lqueue k) l;
  lo_excl : signaled (lw k) <> 0 -> l = [];
  lo_sig : signaled (lw k) ∈ [0; 1; smin; smin + 1];
  lo_dead : lw_exists k = false -> l = [];
  lo_run : forall t, t ∈ lrun k -> (t ∉ l) /\ is_Some (lthr k !! t)
}.

Definition lw_abs (k : lwstate) (l : list tid) : parking := mk_parking (signaled (lw k)) l (lw_exists k).

Definition lw_fixed (k k' : lwstate) : Prop :=
  lw_protocol (lw k') = lw_protocol (lw k) /\ dom (lthr k') = dom (lthr k).

Definition lw_simulates (k : lwstate) (l : list tid) (r : lw_region) (out : lwstate * reply) : Prop :=
  exists lbl l',
    lw_step (lw_protocol (lw k)) (lthr k) (lw_abs k l) lbl (lw_abs (fst out) l')
    /\ lw_explains (lw_abs k l) r lbl (snd out)
    /\ (forall x, gpr3_of x (fst out) = lw_gpr3 r lbl (signaled (lw k)) x <$> gpr3_of x k)
    /\ lw_ok (fst out) l' /\ lw_fixed k (fst out)
    /\ lrun (fst out) = lw_runnable r lbl (snd out) (lrun k)
    /\ (forall y, y ∉ l -> y <> lw_actor r -> lthr (fst out) !! y = lthr k !! y).

(** *** Frames *)

Lemma gpr3_relinked l k k' x : relinked l (lthr k) (lthr k') -> gpr3_of x k' = gpr3_of x k.
Proof.
  intros H. destruct (H x) as [E _]. unfold gpr3_of. destruct (lthr k !! x), (lthr k' !! x); cbn in *; try done.
  by injection E as _ _ _ _ _ ->.
Qed.

(** A change of one thread that keeps gpr[3], and the change of gpr[3]. *)
Lemma gpr3_thread f t x k : (forall n, gpr3 (f n) = gpr3 n) -> gpr3_of x (l_thread f t k) = gpr3_of x k.
Proof.
  intros Hf. unfold gpr3_of, l_thread. cbn. destruct (decide (x = t)) as [->|]; [|by rewrite lookup_alter_ne].
  rewrite lookup_alter_eq. destruct (lthr k !! t); cbn; by rewrite ?Hf.
Qed.

Lemma gpr3_set e t x k :
  gpr3_of x (l_thread (set_gpr3 e) t k) = (fun old => if decide (x = t) then error_value e else old) <$> gpr3_of x k.
Proof.
  unfold gpr3_of, l_thread. cbn. destruct (decide (x = t)) as [->|].
  - rewrite lookup_alter_eq. by destruct (lthr k !! t).
  - rewrite lookup_alter_ne by done. by destruct (lthr k !! x).
Qed.

Lemma fmap_same (x : option Z) : x = (fun old => old) <$> x.
Proof. by destruct x. Qed.

Lemma l_thread_ok k l f t :
  (forall n, next_cpu (f n) = next_cpu n) -> lw_ok k l -> lw_ok (l_thread f t k) l.
Proof.
  intros Hf [H1 H2 H3 H4 H5]. split; cbn; try done; [by apply seg_alter_data|].
  intros x Hx. destruct (H5 x Hx) as [? Hs]. split; [done|].
  apply elem_of_dom. rewrite dom_alter_L. by apply elem_of_dom.
Qed.

Lemma l_thread_fixed k f t : lw_fixed k (l_thread f t k).
Proof. split; [done|]. cbn. apply dom_alter_L. Qed.

#[global] Instance lw_fixed_refl : Reflexive lw_fixed.
Proof. by intros k. Qed.

#[global] Instance lw_fixed_trans : Transitive lw_fixed.
Proof. intros k1 k2 k3 [A B] [C D]. split; congruence. Qed.

(** The link of a thread in no queue. *)
Lemma l_unlink_ok k l t : lw_ok k l -> t ∉ l -> lw_ok (l_thread (set_next None) t k) l.
Proof.
  intros [H1 H2 H3 H4 H5] Ht. split; cbn; try done; [by apply seg_alter|].
  intros x Hx. destruct (H5 x Hx) as [? Hs]. split; [done|].
  apply elem_of_dom. rewrite dom_alter_L. by apply elem_of_dom.
Qed.

Lemma set_signaled_ok k v : lw_ok k [] -> v ∈ [0; 1; smin; smin + 1] -> lw_ok (set_signaled v k) [].
Proof. intros [H1 H2 H3 H4 H5] Hv. by split. Qed.

Lemma unlock_signal v u : v ∈ [0; 1; smin; smin + 1] -> Z.lor v (unlock_bit u) ∈ [0; 1; smin; smin + 1].
Proof.
  intros H. repeat (apply elem_of_cons in H as [->|H]); [..|by apply not_elem_of_nil in H]; destruct u; vm_compute;
    repeat (first [by left|right]).
Qed.

Lemma l_sleep_ok k l t : lw_ok k l -> lw_ok (l_sleep t k) l.
Proof. intros [H1 H2 H3 H4 H5]. split; cbn; try done. intros x Hx. apply H5. set_solver. Qed.

Lemma l_awake_ok k l t : lw_ok k l -> t ∉ l -> is_Some (lthr k !! t) -> lw_ok (l_awake t k) l.
Proof.
  intros [H1 H2 H3 H4 H5] Ht Hs. split; cbn; try done. intros x Hx.
  assert (x = t \/ x ∈ lrun k) as [->|Hx'] by set_solver; [done|by apply H5].
Qed.

(** Regions that leave the parking place alone. *)
Lemma lw_quiet k l r rep k' :
  lw_ok k' l -> lw_fixed k k' -> lw_abs k' l = lw_abs k l -> lw_explains (lw_abs k l) r PQuiet rep ->
  (forall x, gpr3_of x k' = lw_gpr3 r PQuiet (signaled (lw k)) x <$> gpr3_of x k) ->
  lrun k' = lw_runnable r PQuiet rep (lrun k) -> (forall y, y <> lw_actor r -> lthr k' !! y = lthr k !! y) ->
  lw_simulates k l r (k', rep).
Proof.
  intros Hok Hf Ha He Hg Hr Hy. exists PQuiet, l. cbn [fst snd]. rewrite Ha. split; [apply p_quiet|]. split_and!; auto.
Qed.

Ltac lw_quiet := apply lw_quiet; [..|done|intros ? ?; cbn; by rewrite ?lookup_alter_ne by done].

(** *** try_own and reown *)

(** A thread that is in no queue joins. *)
Lemma lw_own_join k l t retries w :
  lw_ok k l -> signaled (lw k) = 0 -> lw_exists k = true -> t ∉ l -> is_Some (lthr k !! t) ->
  exists k', lw_try_own retries w t k = Some (0, k') /\ lw_ok (l_sleep t k') (t :: l)
    /\ (t ∉ lrun k -> lw_ok k' (t :: l)) /\ lw_fixed k k'
    /\ lw_abs k' (t :: l) = mk_parking 0 (t :: l) true /\ (forall x, gpr3_of x k' = gpr3_of x k)
    /\ lrun k' = lrun k /\ (forall x, x <> t -> lthr k' !! x = lthr k !! x).
Proof.
  intros [H1 H2 H3 H4 H5] Hs He Ht [n Hn]. unfold lw_try_own. rewrite Hs. cbn [Z.eqb].
  set (tag := wrap 64 _). eexists. split; [reflexivity|].
  set (h := alter (set_next (lw_sq (lw k))) t (alter (set_order tag) t (lthr k))).
  assert (Hh : h !! t = Some (set_next (lw_sq (lw k)) (set_order tag n))) by (unfold h; by rewrite !lookup_alter_eq, Hn).
  assert (Hd : dom h = dom (lthr k)) by (unfold h; by rewrite !dom_alter_L).
  assert (Hw : seg h (Some t) (t :: l)).
  { split; [done|]. exists (set_next (lw_sq (lw k)) (set_order tag n)). split; [exact Hh|]. cbn. by apply seg_alter, seg_alter. }
  assert (Hr : forall x, x ∈ lrun k -> x <> t -> (x ∉ t :: l) /\ is_Some (h !! x)).
  { intros x Hx Hne. destruct (H5 x Hx) as [? Hsx]. split; [set_solver|]. apply elem_of_dom. rewrite Hd. by apply elem_of_dom. }
  split_and!; try done.
  - split; cbn; try done; [by rewrite He|]. intros x Hx. apply Hr; set_solver.
  - intros Hnr. split; cbn; try done; [by rewrite He|]. intros x Hx. apply Hr; [done|]. by intros ->.
  - unfold lw_abs. cbn. by rewrite Hs, He.
  - intros x. unfold gpr3_of. cbn. change (gpr3 <$> h !! x = gpr3 <$> lthr k !! x).
    destruct (decide (x = t)) as [->|Hne]; [by rewrite Hh, Hn|]. unfold h. by rewrite !lookup_alter_ne.
  - intros x Hne. cbn. by rewrite !lookup_alter_ne.
Qed.

(** A stored signal is taken. *)
Lemma lw_own_take k t retries :
  signaled (lw k) <> 0 ->
  lw_try_own retries false t k = Some (signaled (lw k), l_thread (set_next None) t (set_signaled 0 k)).
Proof. intros H. unfold lw_try_own. by destruct (Z.eqb_spec (signaled (lw k)) 0). Qed.

(** Removal of a thread from the queue, with its link reset afterwards. *)
Lemma lw_removed k l t q reset :
  lw_ok k l -> t ∈ l -> removed reset (lqueue k) l t q ->
  let k' := l_thread (set_next None) t (set_lqueue q k) in
  lw_ok (l_awake t k') (without t l) /\ lw_fixed k k' /\ (forall x, gpr3_of x k' = gpr3_of x k)
  /\ lw_abs k' (without t l) = lw_abs k (without t l)
  /\ lrun k' = lrun k /\ (forall y, y ∉ l -> lthr k' !! y = lthr k !! y).
Proof.
  intros [H1 H2 H3 H4 H5] Ht [R1 R2 (n & Hn & Hq)] k'. pose proof (relinked_dom _ _ _ R2) as Hd. cbn [lqueue threads] in Hd.
  assert (Hdk : dom (lthr k') = dom (lthr k)) by (cbn; rewrite dom_alter_L; exact Hd).
  assert (Hno : t ∉ without t l) by (rewrite without_elem_of; tauto).
  split_and!; try done.
  - split; cbn; try done.
    + by apply seg_alter.
    + intros Hs. rewrite (H2 Hs) in Ht. by apply not_elem_of_nil in Ht.
    + intros Hs. rewrite (H4 Hs) in Ht. by apply not_elem_of_nil in Ht.
    + intros x Hx. rewrite without_elem_of. assert (x = t \/ x ∈ lrun k) as [->|Hx'] by set_solver.
      * split; [tauto|]. apply elem_of_dom. fold (lthr k'). change (t ∈ dom (lthr k')). rewrite Hdk. apply elem_of_dom. by eexists.
      * destruct (H5 x Hx') as [? ?]. split; [tauto|]. apply elem_of_dom. change (x ∈ dom (lthr k')). rewrite Hdk. by apply elem_of_dom.
  - intros x. unfold k'. rewrite gpr3_thread by done. by apply (gpr3_relinked l).
  - intros y Hy. cbn. rewrite lookup_alter_ne by (intros ->; done). by destruct (R2 y) as [_ ->].
Qed.

Lemma lw_reown_empty k u : lw_ok k [] ->
  lw_reown u k = Some (None, set_signaled (Z.lor (signaled (lw k)) (unlock_bit u)) k).
Proof. intros Hok. pose proof (lo_waits _ _ Hok) as Hw. cbn in Hw. unfold lw_reown. by rewrite Hw. Qed.

Lemma lw_reown_ok k l u : lw_ok k l -> l <> [] ->
  exists x n k', lw_reown u k = Some (Some x, k') /\ selects (lthr k) (lw_protocol (lw k)) l x /\ lthr k !! x = Some n
    /\ (if again n then k' = k
        else lw_ok (l_awake x k') (without x l) /\ lw_fixed k k' /\ (forall y, gpr3_of y k' = gpr3_of y k)
             /\ lw_abs k' (without x l) = lw_abs k (without x l)
             /\ (exists p, lthr k' !! x = Some (set_next p n))
             /\ lrun k' = lrun k /\ (forall y, y ∉ l -> lthr k' !! y = lthr k !! y)).
Proof.
  intros Hok Hl. pose proof (lo_waits _ _ Hok) as Hw. unfold lw_reown.
  assert (exists p, lw_sq (lw k) = Some p) as [p Ep].
  { destruct l as [|c l]; [done|]. destruct Hw as [Hw _]. by exists c. }
  rewrite Ep. destruct (schedule_ok (lw_protocol (lw k)) false (lqueue k) l Hw) as [_ S].
  destruct (S Hl) as (x & n & q & -> & Hsel & Hn & R). cbn [mbind option_bind].
  exists x, n. destruct (again n) eqn:Ea.
  - subst q. rewrite Hn. cbn [mbind option_bind]. rewrite Ea. exists k. split; [|done]. do 2 f_equal. by destruct k as [[] ? ? ? ?].
  - pose proof (selects_elem _ _ _ _ Hsel) as Hx. pose proof R as [_ R2 _].
    destruct (relinked_lookup _ _ _ _ _ R2 Hn) as [p' Hp']. cbn [threads lqueue] in *. rewrite Hp'. cbn [mbind option_bind].
    change (again (set_next p' n)) with (again n). rewrite Ea. eexists. split; [reflexivity|]. split; [done|]. split; [done|].
    destruct (lw_removed k l x q _ Hok Hx R) as (A & B & C & D & E & F). split_and!; try done.
    exists None. cbn. by rewrite lookup_alter_eq, Hp'.
Qed.

(** ** The regions *)

Lemma lw_lock_try_ok k l t : lw_ok k l -> t ∈ lrun k -> lw_simulates k l (LwLockTry t) (lw_lock_try t k).
Proof.
  intros Hok Ht. unfold lw_lock_try. pose proof (l_thread_ok k l (set_gpr3 CELL_OK) t ltac:(done) Hok) as O0.
  destruct (lw_exists k) eqn:He; cbn [negb].
  - destruct (Z.eqb_spec (signaled (lw k)) 0) as [Hs|Hs].
    + lw_quiet; [done|apply l_thread_fixed|done|right; done|]. intros x. apply gpr3_set.
    + assert (l = []) as -> by (by apply (lo_excl _ _ Hok)). exists (PTake t), []. cbn [fst snd].
      split; [unfold lw_abs; cbn; rewrite He; by apply p_take|]. split; [done|]. split_and!.
      * intros x. rewrite gpr3_set. change (gpr3_of x (set_signaled 0 _)) with (gpr3_of x (l_thread (set_gpr3 CELL_OK) t k)).
        rewrite gpr3_set. destruct (gpr3_of x k); cbn; [|done]. by destruct (decide (x = t)).
      * apply l_thread_ok; [done|]. apply set_signaled_ok; [done|by left].
      * split; [done|]. cbn. by rewrite !dom_alter_L.
      * done.
      * intros y _ Hy. cbn in *. by rewrite !lookup_alter_ne.
  - lw_quiet; [done|apply l_thread_fixed|done|by left|]. intros x. apply gpr3_set.
Qed.

Lemma lw_lock_own_ok k l t retries :
  lw_ok k l -> t ∈ lrun k -> lw_exists k = true -> gpr3_of t k = Some (error_value CELL_OK) ->
  lw_simulates k l (LwLockOwn retries t) (lw_lock_own retries t k).
Proof.
  intros Hok Ht He Hg. destruct (lo_run _ _ Hok t Ht) as [Hl Hn]. unfold lw_lock_own.
  destruct (Z.eqb_spec (signaled (lw k)) 0) as [Hs|Hs].
  - destruct (lw_own_join k l t retries false Hok Hs He Hl Hn) as (k' & -> & O & _ & F & A & G & Hr & Hy). cbn [Z.eqb].
    exists (PJoin t), (t :: l). cbn [fst snd]. split.
    { change (lw_abs (l_sleep t k') (t :: l)) with (lw_abs k' (t :: l)). rewrite A. unfold lw_abs. rewrite Hs, He. by apply p_join. }
    split; [done|]. split; [intros x; change (gpr3_of x (l_sleep t k')) with (gpr3_of x k'); rewrite G; apply fmap_same|].
    split; [done|]. split; [done|]. split; [cbn; by rewrite Hr|auto].
  - assert (l = []) as -> by (by apply (lo_excl _ _ Hok)). rewrite lw_own_take by done.
    destruct (Z.eqb_spec (signaled (lw k)) 0); [done|]. set (k1 := l_thread (set_next None) t (set_signaled 0 k)).
    assert (O1 : lw_ok k1 []) by (apply l_unlink_ok; [apply set_signaled_ok; [done|by left]|apply not_elem_of_nil]).
    assert (F1 : lw_fixed k k1) by (split; [done|cbn; apply dom_alter_L]).
    assert (S1 : lw_step (lw_protocol (lw k)) (lthr k) (lw_abs k []) (PTake t) (lw_abs k1 [])).
    { unfold lw_abs. cbn. rewrite He. by apply p_take. }
    assert (G1 : forall x, gpr3_of x k1 = gpr3_of x k) by (intros x; unfold k1; by rewrite gpr3_thread).
    assert (Y1 : forall y, y <> t -> lthr k1 !! y = lthr k !! y) by (intros y Hy; cbn; by rewrite lookup_alter_ne).
    exists (PTake t), []. destruct (Z.testbit (signaled (lw k)) 0) eqn:Eb; cbn [fst snd].
    + split; [done|]. split; [cbn; unfold signal_result; by rewrite Eb|]. split; [|split_and!; auto].
      intros x. rewrite G1. unfold lw_gpr3, signal_result. rewrite Eb. destruct (decide (x = t)) as [->|]; [by rewrite Hg|apply fmap_same].
    + split; [done|]. split; [cbn; unfold signal_result; by rewrite Eb|]. split_and!.
      * intros x. rewrite gpr3_set, G1. unfold lw_gpr3, signal_result. by rewrite Eb.
      * by apply l_thread_ok.
      * etrans; [exact F1|apply l_thread_fixed].
      * done.
      * intros y _ Hy. cbn in *. by rewrite !lookup_alter_ne.
Qed.

Lemma lw_result_ok t k : in_lwlock t k = true -> exists e, lw_result t k = Returned e.
Proof.
  unfold in_lwlock, lw_result, gpr3_of. destruct (lthr k !! t) as [n|]; [|done]. cbn [fmap option_fmap option_map]. intros H%bool_decide_eq_true.
  destruct (Z.eqb_spec (gpr3 n) (error_value CELL_OK)); [by eexists|].
  destruct (Z.eqb_spec (gpr3 n) (error_value CELL_EBUSY)); [by eexists|].
  destruct (Z.eqb_spec (gpr3 n) (error_value CELL_ETIMEDOUT)); [by eexists|]. cbn in H. set_solver.
Qed.

Lemma in_lwlock_same t k k' : gpr3_of t k' = gpr3_of t k -> in_lwlock t k' = in_lwlock t k.
Proof. unfold in_lwlock. by intros ->. Qed.

Lemma lw_signaled_ok k l t : lw_ok k l -> in_lwlock t k = true -> lw_simulates k l (LwSignaled t) (lw_lock_signaled t k).
Proof.
  intros Hok Hi. assert (G : forall x, gpr3_of x (l_thread (set_state (del_flag cf_signal)) t k) = gpr3_of x k).
  { intros x. by apply gpr3_thread. }
  lw_quiet; [by apply l_thread_ok|apply l_thread_fixed|done| |intros x; rewrite G; apply fmap_same].
  apply lw_result_ok. by rewrite (in_lwlock_same t k).
Qed.

Lemma lw_stopped_ok k l t : lw_ok k l -> in_lwlock t k = true -> lw_simulates k l (LwStopped t) (lw_lock_stopped t k).
Proof.
  intros Hok Hi. unfold lw_lock_stopped. rewrite (any_waiting_thread _ _ _ (lo_waits _ _ Hok)).
  destruct (bool_decide (t ∈ l)) eqn:E.
  - apply bool_decide_eq_true in E. lw_quiet; [by apply l_thread_ok|apply l_thread_fixed|done|by left|].
    intros x. rewrite gpr3_thread by done. apply fmap_same.
  - apply bool_decide_eq_false in E. lw_quiet; [done|done|done| |intros x; apply fmap_same].
    right. split; [done|]. by apply lw_result_ok.
Qed.

(** The removal of a timed-out thread. *)
Lemma lw_unqueue_ok k l t : lw_ok k l ->
  (t ∉ l -> lw_unqueue t k = Some (false, k))
  /\ (t ∈ l -> exists k', lw_unqueue t k = Some (true, k') /\ lw_ok (l_awake t k') (without t l) /\ lw_fixed k k'
        /\ (forall x, gpr3_of x k' = gpr3_of x k) /\ lw_abs k' (without t l) = lw_abs k (without t l)
        /\ lrun k' = lrun k /\ (forall y, y ∉ l -> lthr k' !! y = lthr k !! y)).
Proof.
  intros Hok. unfold lw_unqueue. destruct (unqueue_ok false (lqueue k) l t (lo_waits _ _ Hok)) as [Hout Hin].
  split; intros Hl; [by rewrite (Hout Hl)|]. destruct (Hin Hl) as (q & -> & R). cbn [mbind option_bind].
  eexists. split; [reflexivity|]. exact (lw_removed k l t q _ Hok Hl R).
Qed.

Lemma lw_unqueue_awake k t b k' : lw_unqueue t k = Some (b, k') -> lw_unqueue t (l_awake t k) = Some (b, l_awake t k').
Proof.
  unfold lw_unqueue. change (lqueue (l_awake t k)) with (lqueue k).
  destruct (unqueue false (lqueue k) t) as [[[?|] q]|]; cbn [mbind option_bind]; intros E; try done; by injection E as <- <-.
Qed.

Lemma lw_timed_out_ok k l t : lw_ok k l -> in_lwlock t k = true -> lw_simulates k l (LwTimedOut t) (lw_lock_timed_out t k).
Proof.
  intros Hok Hi. assert (Ht : is_Some (lthr k !! t)) by (unfold in_lwlock, gpr3_of in Hi; by destruct (lthr k !! t)).
  unfold lw_lock_timed_out. change (lw_sq (lw (l_awake t k))) with (lw_sq (lw k)).
  assert (Hq : t ∉ l -> lw_simulates k l (LwTimedOut t) (l_awake t k, lw_result t (l_awake t k))).
  { intros Hl. lw_quiet; [by apply l_awake_ok|done|done| |intros x; apply fmap_same].
    split; [done|]. by apply lw_result_ok. }
  destruct (lw_sq (lw k)) as [p|] eqn:Ep.
  2:{ apply Hq. pose proof (lo_waits _ _ Hok) as Hw. destruct l as [|c l]; [apply not_elem_of_nil|].
      destruct Hw as [Hw _]. cbn in Hw. congruence. }
  destruct (decide (t ∈ l)) as [Hl|Hl].
  - destruct (lw_unqueue_ok k l t Hok) as [_ H]. destruct (H Hl) as (k' & E & O & F & G & A & Hr & Hy).
    rewrite (lw_unqueue_awake _ _ _ _ E).
    exists (PLeave t), (without t l). cbn [fst snd].
    assert (Hz : signaled (lw k) = 0).
    { destruct (Z.eqb_spec (signaled (lw k)) 0); [done|]. rewrite (lo_excl _ _ Hok n) in Hl. by apply not_elem_of_nil in Hl. }
    assert (Hx : lw_exists k = true) by (destruct (lw_exists k) eqn:Ed; [done|]; rewrite (lo_dead _ _ Hok Ed) in Hl; by apply not_elem_of_nil in Hl).
    split_and!.
    + change (lw_abs (l_thread _ t (l_awake t k')) (without t l)) with (lw_abs k' (without t l)). rewrite A.
      unfold lw_abs. rewrite Hz, Hx. by apply p_leave.
    + split; [done|]. unfold lw_result. cbn. rewrite lookup_alter_eq. specialize (G t). unfold gpr3_of in G. destruct (lthr k' !! t); [done|].
      destruct Ht as [n Hn]. by rewrite Hn in G.
    + intros x. rewrite gpr3_set. change (gpr3_of x (l_awake t k')) with (gpr3_of x k'). by rewrite G.
    + by apply l_thread_ok.
    + destruct F as [F1 F2]. split; [exact F1|]. cbn. by rewrite dom_alter_L.
    + cbn. by rewrite Hr.
    + intros y Hyl Hne. cbn in *. rewrite lookup_alter_ne by done. by apply Hy.
  - assert (lw_unqueue t (l_awake t k) = Some (false, l_awake t k)) as ->; [|by apply Hq].
    apply (lw_unqueue_ok _ l); [by apply l_awake_ok|done].
Qed.

Lemma lw_trylock_ok k l t : lw_ok k l -> lw_simulates k l (LwTryLock t) (lw_trylock k).
Proof.
  intros Hok. unfold lw_trylock. destruct (lw_exists k) eqn:He; cbn [negb].
  - destruct (Z.testbit (signaled (lw k)) 0) eqn:Eb.
    + assert (Hs : signaled (lw k) <> 0) by (intros E; by rewrite E in Eb).
      assert (l = []) as -> by (by apply (lo_excl _ _ Hok)). exists (PTake t), []. cbn [fst snd].
      split; [unfold lw_abs; cbn; rewrite He; by apply p_take|]. split; [done|].
      split; [intros x; apply fmap_same|]. split; [apply set_signaled_ok; [done|by left]|done].
    + lw_quiet; [done|done|done|right; done|intros x; apply fmap_same].
  - lw_quiet; [done|done|done|left; done|intros x; apply fmap_same].
Qed.

(** Storing a signal in an empty parking place. *)
Lemma lw_put_ok k u r :
  lw_ok k [] -> lw_exists k = true -> lw_explains (lw_abs k []) r (PPut u) (Returned CELL_OK) ->
  (forall x old, lw_gpr3 r (PPut u) (signaled (lw k)) x old = old) ->
  lw_runnable r (PPut u) (Returned CELL_OK) (lrun k) = lrun k ->
  lw_simulates k [] r (set_signaled (Z.lor (signaled (lw k)) (unlock_bit u)) k, Returned CELL_OK).
Proof.
  intros Hok He Hx Hg Hr. exists (PPut u), []. cbn [fst snd]. split.
  { unfold lw_abs. cbn. rewrite He. apply p_put. }
  split; [done|]. split; [|split; [|split_and!; done]].
  - intros x. change (gpr3_of x (set_signaled _ k)) with (gpr3_of x k). destruct (gpr3_of x k); cbn; by rewrite ?Hg.
  - apply set_signaled_ok; [done|]. apply unlock_signal. apply (lo_sig _ _ Hok).
Qed.

Lemma lw_unlock_cas_ok k l t seen u : lw_ok k l -> lw_simulates k l (LwUnlockCas t seen u) (lw_unlock_cas seen u k).
Proof.
  intros Hok. unfold lw_unlock_cas, lw_try_unlock. pose proof (lo_waits _ _ Hok) as Hw. destruct (lw_exists k) eqn:He; cbn [negb].
  - destruct l as [|c l].
    + cbn in Hw. rewrite Hw. destruct (Z.eqb_spec (signaled (lw k)) seen) as [<-|Hne]; [by apply lw_put_ok|].
      lw_quiet; [done|done|done|right; split_and!; [done|by left|done]|intros x; apply fmap_same].
    + destruct Hw as [Hw _]. cbn in Hw. rewrite Hw.
      lw_quiet; [done|done|done|right; split_and!; [done|by right|done]|intros x; apply fmap_same].
  - lw_quiet; [done|done|done|left; done|intros x; apply fmap_same].
Qed.

Lemma lw_unlock_locked_ok k l t u :
  lw_ok k l -> t ∈ lrun k -> lw_exists k = true ->
  lw_simulates k l (LwUnlockLocked t u) (lw_unlock_locked t u k).
Proof.
  intros Hok Ht He. unfold lw_unlock_locked. destruct (decide (l = [])) as [->|Hl].
  { rewrite lw_reown_empty by done. by apply lw_put_ok. }
  destruct (lw_reown_ok k l u Hok Hl) as (x & n & k' & -> & Hsel & Hn & H). destruct (again n) eqn:Ea.
  - subst k'. rewrite Hn, Ea. lw_quiet; [by apply l_thread_ok|apply l_thread_fixed|done|done|].
    intros y. rewrite gpr3_thread by done. apply fmap_same.
  - destruct H as (O & F & G & A & (p & Hp) & Hr & Hy). rewrite Hp. change (again (set_next p n)) with (again n). rewrite Ea.
    assert (Hz : signaled (lw k) = 0) by (destruct (Z.eqb_spec (signaled (lw k)) 0) as [|n0]; [done|]; by rewrite (lo_excl _ _ Hok n0) in Hl).
    exists (PHand x u), (without x l). cbn [fst snd]. split.
    { assert (lw_abs (l_awake x (if u then l_thread (set_gpr3 CELL_EBUSY) x k' else k')) (without x l) = lw_abs k' (without x l)) as -> by (by destruct u).
      rewrite A. unfold lw_abs. rewrite Hz, He. by apply p_hand. }
    split; [done|]. destruct u.
    + split_and!.
      * intros y. change (gpr3_of y (l_awake x ?k2)) with (gpr3_of y k2). rewrite gpr3_set, G. done.
      * exact (l_thread_ok _ _ (set_gpr3 CELL_EBUSY) x ltac:(done) O).
      * destruct F as [F1 F2]. split; [exact F1|]. cbn. by rewrite dom_alter_L.
      * cbn. by rewrite Hr.
      * intros y Hyl Hne. cbn. rewrite lookup_alter_ne; [by apply Hy|]. intros ->. by apply selects_elem in Hsel.
    + split_and!; [|exact O|exact F|cbn; by rewrite Hr|auto]. intros y. change (gpr3_of y (l_awake x k')) with (gpr3_of y k'). rewrite G. apply fmap_same.
Qed.

Lemma lw_destroy_try_ok k l t : lw_ok k l -> lw_simulates k l (LwDestroyTry t) (lw_destroy_try t k).
Proof.
  intros Hok. unfold lw_destroy_try. pose proof (lo_waits _ _ Hok) as Hw. destruct (lw_exists k) eqn:He; cbn [negb].
  - destruct l as [|c l].
    + cbn in Hw. rewrite Hw. set (v := Z.lor _ _). set (k1 := set_waiters v k).
      assert (O1 : lw_ok k1 []) by (destruct Hok; by split).
      destruct (negb (v =? smin)).
      * lw_quiet; [by apply l_sleep_ok|done|done|right; right; done|intros x; apply fmap_same].
      * exists PGone, []. cbn [fst snd]. split; [unfold lw_abs; cbn; rewrite He; apply p_gone|]. split; [done|].
        split; [intros x; apply fmap_same|]. split; [destruct O1; by split|split_and!; done].
    + destruct Hw as [Hw _]. cbn in Hw. rewrite Hw.
      lw_quiet; [done|done|done|right; left; done|intros x; apply fmap_same].
  - lw_quiet; [done|done|done|left; done|intros x; apply fmap_same].
Qed.

Lemma lw_destroy_wait_ok k l t b :
  lw_ok k l -> t ∉ l -> is_Some (lthr k !! t) -> lw_simulates k l (LwDestroyWait b t) (lw_destroy_wait b t k).
Proof.
  intros Hok Hl Hs. unfold lw_destroy_wait. destruct b; [|destruct (_ <? _)].
  - lw_quiet; [by apply l_thread_ok|apply l_thread_fixed|done|by left|]. intros x. rewrite gpr3_thread by done. apply fmap_same.
  - lw_quiet; [done|done|done|right; by left|intros x; apply fmap_same].
  - lw_quiet; [by apply l_awake_ok|done|done|right; by right|intros x; apply fmap_same].
Qed.

Lemma lw_notify_ok k l t : lw_ok k l -> lw_simulates k l (LwNotify t) (lw_notify k, Blocked).
Proof.
  intros Hok. unfold lw_notify. destruct (_ <=? _); lw_quiet; try done; try (intros x; apply fmap_same).
  destruct Hok; by split.
Qed.

Lemma lw_exec_ok k l r : lw_ok k l -> lw_enabled r k = true -> lw_simulates k l r (lw_exec r k).
Proof.
  intros Hok He. destruct r; cbn [lw_exec lw_enabled] in *.
  - apply lw_lock_try_ok; [done|]. by apply bool_decide_eq_true in He.
  - apply andb_true_iff in He as [He H3%bool_decide_eq_true]. apply andb_true_iff in He as [H1%bool_decide_eq_true H2].
    by apply lw_lock_own_ok.
  - by apply lw_notify_ok.
  - apply andb_true_iff in He as [_ He]. by apply lw_signaled_ok.
  - by apply lw_stopped_ok.
  - by apply lw_timed_out_ok.
  - by apply lw_trylock_ok.
  - by apply lw_unlock_cas_ok.
  - apply andb_true_iff in He as [H1%bool_decide_eq_true H2]. by apply lw_unlock_locked_ok.
  - by apply lw_destroy_try_ok.
  - rewrite (any_waiting_thread _ _ _ (lo_waits _ _ Hok)) in He. apply andb_true_iff in He as [H1 H2%bool_decide_eq_true].
    apply lw_destroy_wait_ok; [done| |done]. apply negb_true_iff in H1. by apply bool_decide_eq_false in H1.
Qed.

(** What a region does to the lists of parked and runnable threads: only the
    caller can be added to the first or taken from the second, and a parked
    thread that leaves, other than the caller, runs. *)
Lemma lw_step_lists protocol h p r lbl rep p1 R :
  lw_step protocol h p lbl p1 -> lw_explains p r lbl rep ->
  let R1 := lw_runnable r lbl rep R in
  (forall y, y ∈ parked p1 -> y ∈ parked p \/ y = lw_actor r)
  /\ (forall y, y <> lw_actor r -> y ∈ parked p -> y ∈ parked p1 \/ y ∈ R1)
  /\ (forall y, y <> lw_actor r -> y ∈ R -> y ∈ R1)
  /\ (forall y, y ∈ R1 -> y ∈ R \/ y = lw_actor r \/ y ∈ parked p).
Proof.
  intros Hs He R1. subst R1.
  destruct Hs as [v t Hv|t l Ht|v u|l t u Hsel|l t Ht|v|p]; destruct r; cbn [lw_explains] in He; try done;
    cbn [lw_actor lw_runnable parked]; repeat case_decide; try (apply selects_elem in Hsel).
  all: split_and!; intros y; rewrite ?without_elem_of, ?elem_of_union, ?elem_of_difference, ?elem_of_singleton, ?elem_of_cons;
    try (destruct (decide (y = t))); naive_solver.
Qed.

(** ** Runs *)

Inductive lw_trace (protocol : Z) : parking -> list (lw_region * reply) -> list lw_label -> parking -> Prop :=
| lw_nil p : lw_trace protocol p [] [] p
| lw_cons h p r rep lbl p1 log lbls p2 :
    lw_step protocol h p lbl p1 -> lw_explains p r lbl rep -> lw_trace protocol p1 log lbls p2 ->
    lw_trace protocol p ((r, rep) :: log) (lbl :: lbls) p2.

(** The threads a label lets through, and the unlocks that were accepted. *)
Definition lets_through (lbl : lw_label) : Z := match lbl with PTake _ | PHand _ _ => 1 | _ => 0 end.

Definition unlocks (x : lw_region * reply) : Z :=
  match x with (LwUnlockCas _ _ _, Returned CELL_OK) | (LwUnlockLocked _ _, Returned CELL_OK) => 1 | _ => 0 end.

Definition stored_signal (v : Z) : Z := b2z (negb (v =? 0)).

Lemma stored_signal_range v : 0 <= stored_signal v <= 1.
Proof. apply b2z_range. Qed.

Lemma lw_step_bound protocol h p r lbl rep p1 :
  lw_step protocol h p lbl p1 -> lw_explains p r lbl rep ->
  lets_through lbl + stored_signal (tok p1) <= unlocks (r, rep) + stored_signal (tok p) /\ rep <> Fatal.
Proof.
  assert (Hu : forall x, 0 <= unlocks x) by (intros [[] []]; cbn; try lia; destruct e; lia).
  assert (H1 : forall v, v <> 0 -> stored_signal v = 1) by (intros v Hv; unfold stored_signal; by destruct (Z.eqb_spec v 0)).
  intros Hs He. pose proof (Hu (r, rep)).
  destruct Hs as [v t Hv|t l Ht|v u|l t u Hsel|l t Ht|v|p]; cbn [tok lets_through] in *.
  - rewrite (H1 v Hv). change (stored_signal 0) with 0. split; [lia|]. destruct r; cbn in He; naive_solver.
  - split; [lia|]. destruct r; cbn in He; naive_solver.
  - pose proof (stored_signal_range (Z.lor v (unlock_bit u))). pose proof (stored_signal_range v).
    destruct r; cbn in He; try done; destruct He as [_ ->]; cbn; (split; [lia|done]).
  - destruct r; cbn in He; try done. destruct He as [_ ->]. cbn. split; [lia|done].
  - split; [lia|]. destruct r; cbn in He; naive_solver.
  - split; [lia|]. destruct r; cbn in He; naive_solver.
  - split; [lia|]. destruct r; cbn in He; naive_solver.
Qed.

Definition total (l : list Z) : Z := foldr Z.add 0 l.

Lemma lw_trace_bound protocol p log lbls p' :
  lw_trace protocol p log lbls p' ->
  total (lets_through <$> lbls) + stored_signal (tok p') <= total (unlocks <$> log) + stored_signal (tok p)
  /\ Forall (fun x => snd x <> Fatal) log.
Proof.
  induction 1 as [p|h p r rep lbl p1 log lbls p2 Hs He _ [IH IF]]; [cbn; split; [lia|done]|].
  destruct (lw_step_bound _ _ _ _ _ _ _ Hs He) as [E F]. split; [|by constructor].
  unfold total in *. cbn [fmap list_fmap foldr]. lia.
Qed.

Lemma lw_run_trace rs k l :
  lw_ok k l ->
  let '(k', log) := lw_run rs k in
  exists lbls l', lw_ok k' l' /\ lw_fixed k k' /\ lw_trace (lw_protocol (lw k)) (lw_abs k l) log lbls (lw_abs k' l').
Proof.
  revert k l; induction rs as [|r rs IH]; intros k l Hok; cbn [lw_run].
  - exists [], l. split_and!; try done. constructor.
  - destruct (lw_enabled r k) eqn:He; [|by apply IH].
    destruct (lw_exec_ok k l r Hok He) as (lbl & l1 & Hs & Hx & Hr & Hok1 & F & _).
    destruct (lw_exec r k) as [k1 rep]. cbn [fst snd] in *.
    specialize (IH k1 l1 Hok1). destruct (lw_run rs k1) as [k2 log]. destruct IH as (lbls & l2 & O2 & G & T).
    exists (lbl :: lbls), l2. split; [done|]. split; [by etrans|]. destruct F as [F _]. rewrite F in T. by econstructor.
Qed.

(** ** Properties *)

(** C9: Every atomic region of the lightweight mutex syscalls does one step of
    an abstract parking place: it takes the stored signals, parks the calling
    thread, stores the signal of an unlock when nobody is parked, or hands it
    to the parked thread the protocol selects.  The replies and the results in
    gpr[3] are those of the step (CELL_EBUSY exactly for the signals of
    _sys_lwmutex_unlock2, CELL_ETIMEDOUT for a thread that left the queue),
    and threads are never parked while a signal is stored. *)
Theorem lwmutex_refines (k : lwstate) (l : list tid) (r : lw_region) :
  lw_ok k l -> lw_enabled r k = true -> lw_simulates k l r (lw_exec r k).
Proof. apply lw_exec_ok. Qed.

(** C10: In every run of the regions, by any threads, no step is fatal, no
    thread is parked while a signal is stored, and the threads let through,
    together with the signal still stored, are at most the accepted unlocks and
    the signal stored at the beginning: the kernel never admits two threads for
    one unlock. *)
Theorem lwmutex_run_safe (rs : list lw_region) (k : lwstate) (l : list tid) :
  lw_ok k l ->
  let '(k', log) := lw_run rs k in
  Forall (fun x => snd x <> Fatal) log
  /\ (signaled (lw k') <> 0 -> lw_sq (lw k') = None)
  /\ exists lbls l', lw_trace (lw_protocol (lw k)) (lw_abs k l) log lbls (lw_abs k' l')
       /\ total (lets_through <$> lbls) + stored_signal (signaled (lw k'))
          <= total (unlocks <$> log) + stored_signal (signaled (lw k)).
Proof.
  intros Hok. pose proof (lw_run_trace rs k l Hok) as H. destruct (lw_run rs k) as [k' log].
  destruct H as (lbls & l' & O & _ & T). destruct (lw_trace_bound _ _ _ _ _ T) as [B N]. split; [done|]. split.
  - intros Hs. pose proof (lo_waits _ _ O) as W. rewrite (lo_excl _ _ O Hs) in W. exact W.
  - by exists lbls, l'.
Qed.

(** Thread 1 is parked, 2 and 3 run. *)
Definition sample_lwstate : lwstate :=
  mk_lws (mk_lwmutex SYS_SYNC_PRIORITY 0x10000 0 0 0 (Some 1%positive)) true
    (list_to_map [(1%positive, sample_thread 1 None 100 1); (2%positive, sample_thread 2 None 500 2);
                  (3%positive, sample_thread 3 None 600 3)])
    3 {[2%positive; 3%positive]}.

Lemma sample_lwstate_ok : lw_ok sample_lwstate [1%positive].
Proof.
  split; cbn; try done.
  - split; [done|]. by eexists.
  - by left.
  - intros t Ht. assert (t = 2%positive \/ t = 3%positive) as [->| ->] by set_solver;
      (split; [set_solver|by eexists]).
Qed.

Lemma lwmutex_refines_witness :
  lw_simulates sample_lwstate [1%positive] (LwUnlockLocked 2%positive true)
    (lw_exec (LwUnlockLocked 2%positive true) sample_lwstate)
  /\ gpr3_of 1%positive (fst (lw_exec (LwUnlockLocked 2%positive true) sample_lwstate)) = Some (error_value CELL_EBUSY).
Proof.
  split; [|vm_compute; reflexivity].
  apply (lwmutex_refines sample_lwstate [1%positive]); [exact sample_lwstate_ok|vm_compute; reflexivity].
Defined.

(** An unlock wakes thread 1, a second one is stored, thread 3 takes it and
    thread 2 is parked. *)
Lemma lwmutex_run_safe_witness :
  let rs := [LwUnlockCas 2%positive 0 false; LwUnlockLocked 2%positive false; LwUnlockCas 2%positive 0 false; LwSignaled 1%positive;
             LwLockTry 3%positive; LwLockTry 2%positive; LwLockOwn 0 2%positive] in
  let '(k', log) := lw_run rs sample_lwstate in
  Forall (fun x => snd x <> Fatal) log
  /\ snd <$> log = [Retry; Returned CELL_OK; Returned CELL_OK; Returned CELL_OK; Returned CELL_OK; Retry; Blocked]
  /\ lw_sq (lw k') = Some 2%positive.
Proof.
  intros rs. pose proof (lwmutex_run_safe rs sample_lwstate [1%positive] sample_lwstate_ok) as H.
  assert (E : let '(k', log) := lw_run rs sample_lwstate in (snd <$> log, lw_sq (lw k')) =
    ([Retry; Returned CELL_OK; Returned CELL_OK; Returned CELL_OK; Returned CELL_OK; Retry; Blocked], Some 2%positive))
    by (vm_compute; reflexivity).
  destruct (lw_run rs sample_lwstate) as [k' log]. destruct H as [N _]. by injection E as E1 E2.
Defined.
