(* ===== verification/Lv2LwCond.v ===== *)
(** * LV2 lightweight condition variables

    kernel/cellos/src/sys_lwcond.cpp over the lightweight mutexes of
    Lv2LwMutex.  A waiter sleeps in the queue of the condition and is moved to
    the queue of the mutex (mode 1), woken (mode 2), or competes with the
    parked threads (mode 3).  Every definition is one region under the mutex of
    the condition that acts on the lwmutex once; what happens before that step
    (the counters, the entry into the condition's queue) is not seen by the
    regions of the lwmutex.  A region that acts on the lwmutex more than once -
    a signal in mode 3, signal_all in mode 1 - is several definitions, and
    [lc_hold] says where a thread is between them: it keeps the mutex of the
    condition, and the lwmutex goes on.  Restarts from savestates are not
    modelled. *)

From stdpp Require Import base numbers list gmap tactics.
From Stdlib Require Import Lia.
From S2P Require Import Prelude Lv2Obj Lv2Mutex Lv2LwMutex.

Open Scope Z_scope.

(** struct lv2_lwcond *)
Record lv2_lwcond := mk_lwcond {
  lc_name : Z;
  lwid : Z;
  lc_protocol : Z;
  lc_control : Z;
  lc_sq : ptr;
  lwmutex_waiters : Z
}.

(** The condition, whether its id exists, and its lwmutex with the threads. *)
Record lcstate := mk_lcs { lcond : lv2_lwcond; lc_exists : bool; lcm : lwstate }.

Definition cqueue (k : lcstate) : queue := mk_queue (lc_sq (lcond k)) (lthr (lcm k)).

Definition with_threads (h : store) (m : lwstate) : lwstate := mk_lws (lw m) (lw_exists m) h (ltag m) (lrun m).

Definition set_cqueue (q : queue) (k : lcstate) : lcstate :=
  let c := lcond k in
  mk_lcs (mk_lwcond (lc_name c) (lwid c) (lc_protocol c) (lc_control c) (first q) (lwmutex_waiters c)) (lc_exists k)
    (with_threads (threads q) (lcm k)).

Definition set_cwaiters (v : Z) (k : lcstate) : lcstate :=
  let c := lcond k in
  mk_lcs (mk_lwcond (lc_name c) (lwid c) (lc_protocol c) (lc_control c) (lc_sq c) v) (lc_exists k) (lcm k).

Definition set_lcm (m : lwstate) (k : lcstate) : lcstate := mk_lcs (lcond k) (lc_exists k) m.

Definition c_thread (f : ppu_thread -> ppu_thread) (t : tid) (k : lcstate) : lcstate := set_lcm (l_thread f t (lcm k)) k.

(** mutex->lwcond_waiters += d, cond.lwmutex_waiters += d *)
Definition add_waiters (d : Z) (k : lcstate) : lcstate :=
  set_cwaiters (sext 32 (lwmutex_waiters (lcond k) + d))
    (set_lcm (set_waiters (sext 32 (lwcond_waiters (lw (lcm k)) + d)) (lcm k)) k).

(** lv2_obj::emplace(cond.sq, &ppu) *)
Definition c_emplace (t : tid) (k : lcstate) : lcstate :=
  let tag := wrap 64 (ltag (lcm k) + 1) in
  set_cqueue (emplace (cqueue k) t tag) (set_lcm (set_ltag tag (lcm k)) k).

(** try_own, without failed rounds of its compare-and-swap, and the operation
    on lwcond_waiters after it. *)
Definition c_try_own (t : tid) (k : lcstate) : option lcstate :=
  '(_, m) ← lw_try_own 0 true t (lcm k);
  Some (set_lcm (lw_notify m) k).

(** ** _sys_lwcond_queue_wait *)

(** [cas] tells whether the compare-and-swap of try_unlock sees no
    interference. *)
Definition lc_wait (cas : bool) (t : tid) (k : lcstate) : lcstate * reply :=
  let k0 := c_thread (set_gpr3 CELL_OK) t k in
  if negb (lc_exists k && lw_exists (lcm k)) then (k0, Returned CELL_ESRCH)
  else
    let k1 := c_emplace t (add_waiters 1 k0) in
    match (if cas then lw_try_unlock (signaled (lw (lcm k1))) false (lcm k1) else None) with
    | Some m => (set_lcm (l_sleep t m) k1, Blocked)
    | None =>
        match lw_reown false (lcm k1) with
        | None => (k1, Fatal)
        | Some (None, m) => (set_lcm (l_sleep t m) k1, Blocked)
        | Some (Some r, m) =>
            let k2 := set_lcm m k1 in
            match lthr m !! r with
            | None => (k2, Fatal)
            | Some n =>
                if again n then
                  match unqueue true (cqueue k2) t with
                  | Some (Some _, q) =>
                      (add_waiters (-1) (c_thread (set_state (add_flag cf_again)) t (set_cqueue q k2)), Again)
                  | _ => (k2, Fatal)
                  end
                else (set_lcm (l_sleep t (l_awake r m)) k2, Blocked)
            end
        end
    end.

(** The end of the syscall: the counters, and not_an_error(ppu.gpr[3]). *)
Definition lc_finish (t : tid) (k : lcstate) : lcstate * reply := (add_waiters (-1) k, lw_result t (lcm k)).

Definition lc_wait_signaled (t : tid) (k : lcstate) : lcstate * reply :=
  lc_finish t (c_thread (set_state (del_flag cf_signal)) t k).

(** The branch for a stopped thread: it sleeps in one of the two queues, or it
    was signaled. *)
Definition lc_wait_stopped (t : tid) (k : lcstate) : lcstate * reply :=
  match any_waiting (is_thread t) (lqueue (lcm k)), any_waiting (is_thread t) (cqueue k) with
  | Some mutex_sleep, Some cond_sleep =>
      if negb cond_sleep && negb mutex_sleep then lc_finish t k
      else (fst (lc_finish t (c_thread (set_state (add_flag cf_again)) t k)), Again)
  | _, _ => (k, Fatal)
  end.

(** The expired timeout, after the scheduler let the thread run again. *)
Definition lc_wait_timed_out (t : tid) (k : lcstate) : lcstate * reply :=
  let k0 := set_lcm (l_awake t (lcm k)) k in
  match unqueue true (cqueue k0) t with
  | None => (k0, Fatal)
  | Some (Some _, q) => lc_finish t (c_thread (set_gpr3 CELL_ETIMEDOUT) t (set_cqueue q k0))
  | Some (None, _) =>
      match lw_unqueue t (lcm k0) with
      | None => (k0, Fatal)
      | Some (true, m) => lc_finish t (c_thread (set_gpr3 CELL_ETIMEDOUT) t (set_lcm m k0))
      | Some (false, m) => lc_finish t (set_lcm m k0)
      end
  end.

(** ** _sys_lwcond_signal *)

(** The reply when no thread was signaled. *)
Definition signal_none (target : bool) (mode : Z) : error_code :=
  if target then CELL_EPERM
  else if mode =? 3 then CELL_ENOENT
  else if mode =? 2 then CELL_OK
  else CELL_EPERM.

(** Where the thread [t] that holds the mutex of the condition is: before the
    try_own of mode 3 for the thread [r] it took, before the reown that follows
    under the mutex of the lwmutex, or in the loop of signal_all in mode 1 with
    the detached queue [sq]. *)
Inductive lc_hold :=
| HNone
| HOwn (t r : tid)
| HReown (t : tid)
| HAll (t : tid) (sq : ptr).

(** The thread [r] has left the condition's queue.  In mode 3 the test of
    load_sq decides, and the rest comes later ([Retry]). *)
Definition lc_pass (t r : tid) (mode : Z) (k : lcstate) : lcstate * reply * lc_hold :=
  if mode =? 2 then
    (set_lcm (l_awake r (l_thread (set_gpr3 CELL_EBUSY) r (lcm k))) k, Returned CELL_OK, HNone)
  else if (mode =? 3) && bool_decide (lw_sq (lw (lcm k)) <> None) then (k, Retry, HOwn t r)
  else if mode =? 1 then
    match c_try_own r k with
    | None => (k, Fatal, HNone)
    | Some k1 => (k1, Returned CELL_OK, HNone)
    end
  else (set_lcm (l_awake r (lcm k)) k, Returned CELL_OK, HNone).

(** mutex->try_own(result, true), under the mutex of the lwmutex. *)
Definition lc_pass_own (t r : tid) (k : lcstate) : lcstate * reply * lc_hold :=
  match c_try_own r k with
  | None => (k, Fatal, HNone)
  | Some k1 => (k1, Retry, HReown t)
  end.

(** result2 = mutex->reown(), and the rest. *)
Definition lc_pass_reown (t : tid) (k : lcstate) : lcstate * reply :=
  match lw_reown false (lcm k) with
  | Some (Some r2, m) =>
      match lthr m !! r2 with
      | None => (k, Fatal)
      | Some n =>
          if again n then (c_thread (set_state (add_flag cf_again)) t (set_lcm m k), Again)
          else (set_lcm (l_awake r2 m) k, Returned CELL_OK)
      end
  | _ => (k, Fatal)
  end.

(** [target] is the thread named by ppu_thread_id, when it is not umax and
    exists; an id that names no thread answers CELL_ESRCH before.  [Retry] is a
    caller suspended meanwhile, which begins again. *)
Definition lc_signal (t : tid) (target : option tid) (mode : Z) (k : lcstate) : lcstate * reply * lc_hold :=
  if (mode <? 1) || (3 <? mode) then (k, Fatal, HNone)
  else if negb (lc_exists k) || (negb (mode =? 2) && negb (lw_exists (lcm k))) then (k, Returned CELL_ESRCH, HNone)
  else
    match lthr (lcm k) !! t with
    | None => (k, Fatal, HNone)
    | Some caller =>
        if has_flag cf_suspend (th_state caller) then (k, Retry, HNone)
        else if bool_decide (lc_sq (lcond k) = None)
        then (k, Returned (signal_none (bool_decide (target <> None)) mode), HNone)
        else
          let marked := match target with
                        | Some c => match lthr (lcm k) !! c with Some n => again n | None => false end
                        | None => false
                        end in
          if marked then (c_thread (set_state (add_flag cf_again)) t k, Again, HNone)
          else
            match (match target with
                   | Some c => unqueue true (cqueue k) c
                   | None => schedule (cqueue k) (lc_protocol (lcond k)) true
                   end) with
            | None => (k, Fatal, HNone)
            | Some (None, _) => (k, Returned (signal_none (bool_decide (target <> None)) mode), HNone)
            | Some (Some r, q) =>
                let k1 := set_cqueue q k in
                match threads q !! r with
                | None => (k1, Fatal, HNone)
                | Some n =>
                    if again n then (c_thread (set_state (add_flag cf_again)) t k1, Again, HNone)
                    else lc_pass t r mode k1
                end
            end
    end.

(** ** _sys_lwcond_signal_all *)

(** The region up to the loop: the queue that was detached, or the result. *)
Definition lc_all_begin (t : tid) (mode : Z) (k : lcstate) : lcstate * reply * option ptr :=
  if (mode <? 1) || (2 <? mode) then (k, Fatal, None)
  else if negb (lc_exists k) || (negb (mode =? 2) && negb (lw_exists (lcm k))) then (k, Returned CELL_ESRCH, None)
  else
    match lthr (lcm k) !! t with
    | None => (k, Fatal, None)
    | Some caller =>
        if has_flag cf_suspend (th_state caller) then (k, Retry, None)
        else if bool_decide (lc_sq (lcond k) = None) then (k, Returned CELL_OK, None)
        else
          match any_waiting is_again (cqueue k) with
          | None => (k, Fatal, None)
          | Some true => (c_thread (set_state (add_flag cf_again)) t k, Again, None)
          | Some false => (set_cqueue (mk_queue None (lthr (lcm k))) k, Retry, Some (lc_sq (lcond k)))
          end
    end.

(** One turn of while (cpu = schedule(sq, protocol)) on the detached queue: the
    state, the queue and the thread taken. *)
Definition lc_all_step (mode : Z) (sq : ptr) (k : lcstate) : run (lcstate * ptr * ptr) :=
  '(r, q) ← schedule (mk_queue sq (lthr (lcm k))) (lc_protocol (lcond k)) true;
  let k1 := set_lcm (with_threads (threads q) (lcm k)) k in
  match r with
  | None => Some (k1, first q, None)
  | Some c =>
      let k2 := if mode =? 2 then c_thread (set_gpr3 CELL_EBUSY) c k1 else k1 in
      k3 ← (if mode =? 1 then c_try_own c k2 else Some k2);
      Some (k3, first q, Some c)
  end.

(** The loop with nothing in between; the threads in the order they were
    taken. *)
Fixpoint lc_all_loop (fuel : nat) (mode : Z) (sq : ptr) (k : lcstate) (taken : list tid) : run (lcstate * list tid) :=
  match fuel with
  | O => None
  | S fuel' =>
      '(k1, sq', r) ← lc_all_step mode sq k;
      match r with
      | None => Some (k1, taken)
      | Some c => lc_all_loop fuel' mode sq' k1 (taken ++ [c])
      end
  end.

(** awake_all over the threads appended. *)
Definition awake_list (l : list tid) (m : lwstate) : lwstate :=
  mk_lws (lw m) (lw_exists m) (lthr m) (ltag m) (lrun m ∪ list_to_set l).

(** The whole region; the last component is the number of threads, the result in
    mode 1. *)
Definition lc_signal_all (t : tid) (mode : Z) (k : lcstate) : lcstate * reply * nat :=
  let '(k1, rep, detached) := lc_all_begin t mode k in
  match detached with
  | None => (k1, rep, 0%nat)
  | Some sq =>
      match lc_all_loop (S (size (lthr (lcm k1)))) mode sq k1 [] with
      | None => (k1, Fatal, 0%nat)
      | Some (k2, l) =>
          (if mode =? 2 then set_lcm (awake_list l (lcm k2)) k2 else k2, Returned CELL_OK, length l)
      end
  end.

(** ** _sys_lwcond_destroy *)

Definition lc_destroy_try (t : tid) (k : lcstate) : lcstate * reply :=
  if negb (lc_exists k) then (k, Returned CELL_ESRCH)
  else
    match lc_sq (lcond k) with
    | Some _ => (k, Returned CELL_EBUSY)
    | None =>
        let old_val := Z.lor (lwmutex_waiters (lcond k)) smin in
        let k1 := set_cwaiters old_val k in
        if negb (old_val =? smin) then (set_lcm (l_sleep t (lcm k1)) k1, Blocked)
        else (mk_lcs (lcond k1) false (lcm k1), Returned CELL_OK)
    end.

Definition lc_destroy_wait (stopped : bool) (t : tid) (k : lcstate) : lcstate * reply :=
  if stopped then (c_thread (set_state (add_flag cf_again)) t k, Again)
  else if 2 ^ 31 <? wrap 32 (lwmutex_waiters (lcond k)) then (k, Blocked)
  else (set_lcm (l_awake t (lcm k)) k, Retry).

(** ** The regions as steps *)

Inductive lc_region :=
| OnMutex (r : lw_region)
| CWait (cas : bool) (t : tid)
| CSignaled (t : tid)
| CStopped (t : tid)
| CTimedOut (t : tid)
| CSignal (t : tid) (target : option tid) (mode : Z)
| CPassOwn
| CPassReown
| CSignalAll (t : tid) (mode : Z)
| CAllStep
| CDestroyTry (t : tid)
| CDestroyWait (stopped : bool) (t : tid).

(** The regions of the lwmutex that run while a thread holds the mutex of the
    condition: an id is not withdrawn while another is looked up, and the
    critical sections of the lwmutex exclude the reown of mode 3. *)
Definition lw_beside (h : lc_hold) (r : lw_region) : bool :=
  match h, r with
  | HNone, _ => true
  | _, LwDestroyTry _ => false
  | HReown _, (LwUnlockLocked _ _ | LwStopped _ | LwTimedOut _) => false
  | (HOwn t _ | HReown t | HAll t _), _ => bool_decide (lw_actor r <> t)
  end.

(** [inside] is the set of threads inside _sys_lwcond_queue_wait.  Other
    syscalls are entered by running threads that are not, with a valid mode; a
    target exists.  A destroyer that waits is in no queue.  The end of a wait
    and of a destroyer's wait do not take the mutex of the condition. *)
Definition lc_enabled (r : lc_region) (inside : gset tid) (h : lc_hold) (k : lcstate) : bool :=
  let free t := bool_decide (t ∈ lrun (lcm k)) && bool_decide (t ∉ inside) in
  let idle := match h with HNone => true | _ => false end in
  match r with
  | OnMutex r => lw_enabled r (lcm k) && bool_decide (lw_actor r ∉ inside) && lw_beside h r
  | CWait _ t => idle && free t
  | CSignaled t => bool_decide (t ∈ lrun (lcm k)) && bool_decide (t ∈ inside) && in_lwlock t (lcm k)
  | CStopped t | CTimedOut t => idle && bool_decide (t ∈ inside) && in_lwlock t (lcm k)
  | CSignal t target mode =>
      idle && free t && (1 <=? mode) && (mode <=? 3)
      && match target with Some c => bool_decide (is_Some (lthr (lcm k) !! c)) | None => true end
  | CPassOwn => match h with HOwn _ _ => true | _ => false end
  | CPassReown => match h with HReown _ => true | _ => false end
  | CSignalAll t mode => idle && free t && (1 <=? mode) && (mode <=? 2)
  | CAllStep => match h with HAll _ _ => true | _ => false end
  | CDestroyTry t => idle && free t
  | CDestroyWait _ t =>
      match any_waiting (is_thread t) (lqueue (lcm k)) with
      | Some b => negb b && bool_decide (is_Some (lthr (lcm k) !! t)) && bool_decide (t ∉ inside)
      | None => false
      end
  end.

Definition lc_exec (r : lc_region) (h : lc_hold) (k : lcstate) : lcstate * reply * lc_hold :=
  match r with
  | OnMutex r => let '(m, rep) := lw_exec r (lcm k) in (set_lcm m k, rep, h)
  | CWait cas t => (lc_wait cas t k, h)
  | CSignaled t => (lc_wait_signaled t k, h)
  | CStopped t => (lc_wait_stopped t k, h)
  | CTimedOut t => (lc_wait_timed_out t k, h)
  | CSignal t target mode => lc_signal t target mode k
  | CPassOwn => match h with HOwn t r => lc_pass_own t r k | _ => (k, Fatal, HNone) end
  | CPassReown => match h with HReown t => (lc_pass_reown t k, HNone) | _ => (k, Fatal, HNone) end
  | CSignalAll t mode =>
      if mode =? 2 then (fst (lc_signal_all t mode k), HNone)
      else
        let '(k1, rep, detached) := lc_all_begin t mode k in
        (k1, rep, match detached with Some sq => HAll t sq | None => HNone end)
  | CAllStep =>
      match h with
      | HAll t sq =>
          match lc_all_step 1 sq k with
          | None => (k, Fatal, HNone)
          | Some (k1, _, None) => (k1, Returned CELL_OK, HNone)
          | Some (k1, sq', Some _) => (k1, Retry, HAll t sq')
          end
      | _ => (k, Fatal, HNone)
      end
  | CDestroyTry t => (lc_destroy_try t k, h)
  | CDestroyWait stopped t => (lc_destroy_wait stopped t k, h)
  end.

(** The threads inside the wait after a region; a thread stopped in a queue
    stays there, to be restarted. *)
Definition lc_inside (r : lc_region) (rep : reply) (inside : gset tid) : gset tid :=
  match r with
  | CWait _ t => if decide (rep = Blocked) then inside ∪ {[t]} else inside
  | CSignaled t | CTimedOut t => inside ∖ {[t]}
  | CStopped t => if decide (rep = Again) then inside else inside ∖ {[t]}
  | _ => inside
  end.

(** A run ends at a failed ensure. *)
Fixpoint lc_run (rs : list lc_region) (inside : gset tid) (h : lc_hold) (k : lcstate)
    : lcstate * gset tid * lc_hold * list (lc_region * reply) :=
  match rs with
  | [] => (k, inside, h, [])
  | r :: rs' =>
      if lc_enabled r inside h k then
        let '(k1, rep, h1) := lc_exec r h k in
        if decide (rep = Fatal) then (k1, inside, h1, [(r, rep)])
        else
          let '(k2, i2, h2, log) := lc_run rs' (lc_inside r rep inside) h1 k1 in (k2, i2, h2, (r, rep) :: log)
      else lc_run rs' inside h k
  end.

(** ** Invariant

    [c] are the threads in the condition's queue, [l] those parked in the
    lwmutex, most recent first. *)
Record lc_ok (k : lcstate) (inside : gset tid) (c l : list tid) : Prop := {
  co_waits : waits (cqueue k) c;
  co_lw : lw_ok (lcm k) l;
  co_disj : forall x, x ∈ c -> x ∉ l;
  co_run : forall x, x ∈ lrun (lcm k) -> x ∉ c;
  co_dead : lc_exists k = false -> c = [];
  co_in : forall x, x ∈ c -> x ∈ inside;
  co_lost : forall x, x ∈ inside -> x ∈ c \/ x ∈ l \/ x ∈ lrun (lcm k)
}.

(** A region keeps the invariant and is not fatal. *)
Definition lc_good (inside : gset tid) (out : lcstate * reply) : Prop :=
  snd out <> Fatal /\ exists c l, lc_ok (fst out) inside c l.

(** The threads [d] have left the condition's queue and are in no queue yet. *)
Record passing (k : lcstate) (inside : gset tid) (d c l : list tid) : Prop := {
  pa_ok : lc_ok k (inside ∖ list_to_set d) c l;
  pa_out : forall x, x ∈ d ->
    x ∈ inside /\ (x ∉ c) /\ (x ∉ l) /\ (x ∉ lrun (lcm k)) /\ is_Some (lthr (lcm k) !! x)
}.

(** The invariant while a thread holds the mutex of the condition. *)
Definition lc_held (k : lcstate) (inside : gset tid) (h : lc_hold) (c l : list tid) : Prop :=
  match h with
  | HNone => lc_ok k inside c l
  | HOwn _ r => lw_exists (lcm k) = true /\ passing k inside [r] c l
  | HReown _ => lw_exists (lcm k) = true /\ lc_ok k inside c l /\ l <> []
  | HAll _ sq => lw_exists (lcm k) = true /\ exists d, waits (mk_queue sq (lthr (lcm k))) d
      /\ no_again (lthr (lcm k)) d /\ passing k inside d c l
  end.

(** The region whose try_own has wait_only set: the caller of these modes owns
    the lwmutex. *)
Definition lc_owns (r : lc_region) : Prop :=
  (exists t target, r = CSignal t target 1) \/ r = CPassOwn \/ r = CAllStep.

(** A region keeps the invariant; the only failure is that of
    ensure(!wait_only), with a signal stored. *)
Definition lc_fine (r : lc_region) (inside : gset tid) (out : lcstate * reply * lc_hold) : Prop :=
  let '(k, rep, h) := out in
  (rep <> Fatal /\ exists c l, lc_held k inside h c l)
  \/ (rep = Fatal /\ lc_owns r /\ signaled (lw (lcm k)) <> 0).

(** *** Frames *)

Lemma lw_ok_frame m l h :
  lw_ok m l -> (forall y, y ∈ l -> h !! y = lthr m !! y) -> dom h = dom (lthr m) -> lw_ok (with_threads h m) l.
Proof.
  intros [H1 H2 H3 H4 H5] Hh Hd. split; cbn; try done; [by eapply seg_frame|].
  intros x Hx. destruct (H5 x Hx) as [? Hs]. split; [done|]. apply elem_of_dom. rewrite Hd. by apply elem_of_dom.
Qed.

Lemma lw_ok_counter m l v : lw_ok m l -> lw_ok (set_waiters v m) l.
Proof. by intros []. Qed.

Lemma lw_ok_tag m l v : lw_ok m l -> lw_ok (set_ltag v m) l.
Proof. by intros []. Qed.

Lemma lw_notify_frame m l : lw_ok m l ->
  lw_ok (lw_notify m) l /\ lthr (lw_notify m) = lthr m /\ lrun (lw_notify m) = lrun m /\ lw_protocol (lw (lw_notify m)) = lw_protocol (lw m)
  /\ signaled (lw (lw_notify m)) = signaled (lw m) /\ lw_exists (lw_notify m) = lw_exists m.
Proof. intros H. unfold lw_notify. destruct (_ <=? _); split_and!; try done. by apply lw_ok_counter. Qed.

(** A change of the fields of one thread other than its link. *)
Lemma lcc_thread_ok k i c l f t :
  (forall n, next_cpu (f n) = next_cpu n) -> lc_ok k i c l -> lc_ok (c_thread f t k) i c l.
Proof.
  intros Hf [H1 H2 H3 H4 H5 H6 H7]. split; try done; [by apply seg_alter_data|by apply l_thread_ok].
Qed.

Lemma add_waiters_ok k i c l d : lc_ok k i c l -> lc_ok (add_waiters d k) i c l.
Proof. intros [H1 H2 H3 H4 H5 H6 H7]. split; try done. by apply lw_ok_counter. Qed.

(** A mutex operation that touches no thread of the condition's queue. *)
Lemma c_mutex_waits k c m :
  waits (cqueue k) c -> (forall y, y ∈ c -> lthr m !! y = lthr (lcm k) !! y) -> waits (cqueue (set_lcm m k)) c.
Proof. intros Hw Hy. by eapply seg_frame. Qed.

(** A thread leaves the condition's queue; it is in no queue then. *)
Lemma c_removed k i c l x q :
  lc_ok k i c l -> x ∈ c -> removed true (cqueue k) c x q ->
  waits (cqueue (set_cqueue q k)) (without x c) /\ lw_ok (lcm (set_cqueue q k)) l
  /\ dom (threads q) = dom (lthr (lcm k)) /\ (x ∉ l) /\ (x ∉ lrun (lcm k)) /\ is_Some (threads q !! x)
  /\ (forall y, gpr3_of y (lcm (set_cqueue q k)) = gpr3_of y (lcm k)).
Proof.
  intros [H1 H2 H3 H4 H5 H6 H7] Hx [R1 R2 (n & Hn & Hq)]. pose proof (relinked_dom _ _ _ R2) as Hd. cbn in Hd.
  split; [exact R1|]. split.
  { apply lw_ok_frame; [done| |exact Hd]. intros y Hy. destruct (R2 y) as [_ ->]; [done|]. intros Hc. by apply (H3 y Hc). }
  split; [done|]. split; [by apply H3|]. split; [intros Hr; by apply (H4 x Hr)|]. split; [by eexists|].
  intros y. by apply (gpr3_relinked c).
Qed.

(** ** The regions *)

(** What a region of the lwmutex leaves alone. *)
Lemma lw_step_stays protocol g p r lbl rep p1 h :
  lw_step protocol g p lbl p1 -> lw_explains p r lbl rep -> lw_beside h r = true -> h <> HNone ->
  alive p1 = alive p /\ ((exists t, h = HReown t) -> parked p <> [] -> parked p1 <> []).
Proof.
  intros Hs He Hb Hh. destruct Hs; destruct r; cbn [lw_explains] in He; try done; cbn [alive parked];
    destruct h; try done; cbn [lw_beside] in Hb; split; try done; by intros [? ?].
Qed.

Lemma on_mutex_ok k i c l r :
  lc_ok k i c l -> lw_enabled r (lcm k) = true -> lw_actor r ∉ i ->
  exists m rep l', lw_exec r (lcm k) = (m, rep) /\ rep <> Fatal /\ lc_ok (set_lcm m k) i c l'
    /\ (forall x, x ∈ l' -> x ∈ l \/ x = lw_actor r)
    /\ (forall x, x ∈ lrun m -> x ∈ lrun (lcm k) \/ x = lw_actor r \/ x ∈ l)
    /\ (forall y, y ∉ l -> y <> lw_actor r -> lthr m !! y = lthr (lcm k) !! y)
    /\ (forall h, lw_beside h r = true -> h <> HNone ->
         lw_exists m = lw_exists (lcm k) /\ ((exists t, h = HReown t) -> l <> [] -> l' <> [])).
Proof.
  intros [H1 H2 H3 H4 H5 H6 H7] He Ha.
  destruct (lw_exec_ok (lcm k) l r H2 He) as (lbl & l' & Hs & Hx & _ & O & F & R & Fr).
  destruct (lw_exec r (lcm k)) as [m rep]. cbn [fst snd] in *.
  destruct (lw_step_bound _ _ _ _ _ _ _ Hs Hx) as [_ Hf].
  destruct (lw_step_lists _ _ _ _ _ _ _ (lrun (lcm k)) Hs Hx) as (L1 & L2 & L3 & L4). rewrite <- R in *. cbn [parked lw_abs] in *.
  assert (Hac : forall y, y ∈ i -> y <> lw_actor r) by (intros y Hy ->; done).
  exists m, rep, l'. split; [done|]. split; [done|]. split.
  2:{ split; [done|]. split; [done|]. split; [done|]. intros h Hb Hh. exact (lw_step_stays _ _ _ _ _ _ _ h Hs Hx Hb Hh). }
  split; try done.
  - apply c_mutex_waits; [done|]. intros y Hy. apply Fr; [by apply H3|by apply Hac, H6].
  - intros x Hxc Hl. destruct (L1 x Hl) as [Hl'| ->]; [by apply (H3 x)|]. by apply Ha, H6.
  - intros x Hr Hxc. destruct (L4 x Hr) as [Hr'|[->|Hl]]; [by apply (H4 x)|by apply Ha, H6|by apply (H3 x)].
  - intros x Hi. destruct (H7 x Hi) as [Hc|[Hl|Hr]]; [by left| |].
    + right. apply L2; [by apply Hac|done].
    + right; right. apply L3; [by apply Hac|done].
Qed.

(** The entry into the condition's queue. *)
Lemma c_emplace_ok k i c l t :
  lc_ok k i c l -> t ∈ lrun (lcm k) -> t ∉ c ->
  let k1 := c_emplace t k in
  waits (cqueue k1) (t :: c) /\ lw_ok (lcm k1) l /\ lrun (lcm k1) = lrun (lcm k)
  /\ lc_exists k1 = lc_exists k /\ lw_exists (lcm k1) = lw_exists (lcm k).
Proof.
  intros [H1 H2 H3 H4 H5 H6 H7] Ht Hc k1. destruct (lo_run _ _ H2 t Ht) as [Hl [n Hn]].
  destruct (emplace_ok (cqueue k) c t n (wrap 64 (ltag (lcm k) + 1)) H1 Hc Hn) as (W & _ & Fr).
  split_and!; try done. apply lw_ok_frame; [by apply lw_ok_tag| |].
  - intros y Hy. apply Fr. by intros ->.
  - cbn [set_lcm lcm set_ltag lthr]. apply emplace_dom.
Qed.

(** A waiter that is in the condition's queue goes to sleep. *)
Lemma c_sleeps k i c l t k' m l' :
  lc_ok k i c l -> t ∈ lrun (lcm k) -> t ∉ c ->
  waits (cqueue k') (t :: c) -> lc_exists k' = true -> lw_ok m l' -> (forall y, y ∈ t :: c -> lthr m !! y = lthr (lcm k') !! y) ->
  (forall y, y ∈ l' -> y ∈ l) -> (forall y, y ∈ l -> y ∈ l' \/ y ∈ lrun m) ->
  (forall y, y ∈ lrun (lcm k) -> y ∈ lrun m) -> (forall y, y ∈ lrun m -> y ∈ lrun (lcm k) \/ y ∈ l) ->
  lc_good (i ∪ {[t]}) (set_lcm (l_sleep t m) k', Blocked).
Proof.
  intros [H1 H2 H3 H4 H5 H6 H7] Ht Hc Hw Hx Hm Hy L1 L2 L3 L4. destruct (lo_run _ _ H2 t Ht) as [Hl _].
  split; [done|]. exists (t :: c), l'. cbn [fst]. split.
  - by apply c_mutex_waits.
  - by apply l_sleep_ok.
  - intros x [->|Hxc]%elem_of_cons Hl'; apply L1 in Hl'; [done|by apply (H3 x)].
  - cbn. intros x Hr [->|Hxc]%elem_of_cons; [set_solver|]. assert (x ∈ lrun m) as Hr' by set_solver.
    destruct (L4 x Hr') as [?|?]; [by apply (H4 x)|by apply (H3 x)].
  - cbn. by rewrite Hx.
  - intros x [->|Hxc]%elem_of_cons; [set_solver|]. apply elem_of_union_l. by apply H6.
  - cbn. intros x Hxi. destruct (decide (x = t)) as [->|Hne]; [left; by left|].
    destruct (H7 x ltac:(set_solver)) as [?|[?|?]].
    + left. by right.
    + destruct (L2 x) as [?|?]; [done|right; by left|right; right; set_solver].
    + right; right. apply L3 in H. set_solver.
Qed.

Lemma lc_wait_ok k i c l cas t :
  lc_ok k i c l -> t ∈ lrun (lcm k) -> t ∉ i ->
  lc_good (lc_inside (CWait cas t) (snd (lc_wait cas t k)) i) (lc_wait cas t k).
Proof.
  intros Hok Ht Hi. unfold lc_wait. pose proof (lcc_thread_ok k i c l (set_gpr3 CELL_OK) t ltac:(done) Hok) as O0.
  set (k0 := c_thread _ t k) in *. destruct (lc_exists k && lw_exists (lcm k)) eqn:Ex; cbn [negb].
  2:{ split; [done|]. exists c, l. cbn [fst snd lc_inside]. by rewrite decide_False. }
  apply andb_true_iff in Ex as [Ex1 Ex2].
  assert (Hc : t ∉ c) by (intros Hc; by apply Hi, (co_in _ _ _ _ Hok)).
  pose proof (add_waiters_ok _ _ _ _ 1 O0) as O1. set (ka := add_waiters 1 k0) in *.
  destruct (c_emplace_ok ka i c l t O1 Ht Hc) as (W & M & R & E1 & E2). set (k1 := c_emplace t ka) in *.
  change (lrun (lcm ka)) with (lrun (lcm k)) in R. change (lc_exists ka) with (lc_exists k) in E1.
  change (lw_exists (lcm ka)) with (lw_exists (lcm k)) in E2. rewrite Ex1 in E1. rewrite Ex2 in E2.
  assert (Hput : l = [] -> forall v, v ∈ [0; 1; smin; smin + 1] -> lc_good (i ∪ {[t]}) (set_lcm (l_sleep t (set_signaled v (lcm k1))) k1, Blocked)).
  { intros -> v Hv. apply (c_sleeps k i c [] t k1 _ [] Hok Ht Hc W E1); [by apply set_signaled_ok|done|done| |..].
    - intros y Hy. by apply not_elem_of_nil in Hy.
    - intros y Hy. rewrite <- R in Hy. exact Hy.
    - intros y Hy. left. rewrite <- R. exact Hy. }
  destruct (if cas then lw_try_unlock (signaled (lw (lcm k1))) false (lcm k1) else None) as [m|] eqn:Eu.
  { destruct cas; [|done]. unfold lw_try_unlock in Eu. destruct (lw_sq (lw (lcm k1))) eqn:Eq; [done|]. rewrite Z.eqb_refl in Eu.
    injection Eu as <-. cbn [snd lc_inside]. rewrite decide_True by done. apply Hput; [|exact (unlock_signal _ false (lo_sig _ _ M))].
    pose proof (lo_waits _ _ M) as Hw. unfold waits, lqueue in Hw. cbn [first] in Hw. rewrite Eq in Hw. destruct l; [done|]. by destruct Hw. }
  destruct (decide (l = [])) as [->|Hl].
  { rewrite lw_reown_empty by done. cbn [snd lc_inside]. rewrite decide_True by done.
    apply Hput; [done|]. exact (unlock_signal _ false (lo_sig _ _ M)). }
  destruct (lw_reown_ok (lcm k1) l false M Hl) as (r & n & m & -> & Hsel & Hn & H). destruct (again n) eqn:Ea.
  - subst m. rewrite Hn, Ea. change (set_lcm (lcm k1) k1) with k1.
    destruct (unqueue_ok true (cqueue k1) (t :: c) t W) as [_ Hin]. destruct (Hin ltac:(by left)) as (q & -> & R').
    cbn [snd lc_inside]. rewrite decide_False by done. split; [done|]. exists c, l. cbn [fst].
    apply add_waiters_ok, lcc_thread_ok; [done|]. pose proof R' as [Q1 Q2 _].
    assert (without t (t :: c) = c) as Ew by exact (without_split [] t c (seg_NoDup _ _ _ W)). rewrite Ew in Q1.
    destruct Hok as [H1 H2 H3 H4 H5 H6 H7]. split; cbn [set_cqueue lcm with_threads lrun lc_exists]; try done.
    apply lw_ok_frame; [done| |exact (relinked_dom _ _ _ Q2)]. intros y Hy. destruct (Q2 y) as [_ ->]; [done|].
    intros [->|Hyc]%elem_of_cons; [by apply (lo_run _ _ H2 t Ht)|by apply (H3 y)].
  - destruct H as (O & F & G & A & (p & Hp) & Hr & Hy). rewrite Hp. change (again (set_next p n)) with (again n). rewrite Ea.
    cbn [snd lc_inside]. rewrite decide_True by done. pose proof (selects_elem _ _ _ _ Hsel) as Hrl.
    change (set_lcm (l_sleep t (l_awake r m)) (set_lcm m k1)) with (set_lcm (l_sleep t (l_awake r m)) k1).
    apply (c_sleeps k i c l t k1 (l_awake r m) (without r l) Hok Ht Hc W E1 O).
    + intros y Hyc. cbn. apply Hy. apply elem_of_cons in Hyc as [->|Hyc]; [by apply (lo_run _ _ (co_lw _ _ _ _ Hok) t Ht)|by apply (co_disj _ _ _ _ Hok)].
    + intros y Hyl. by apply without_elem_of in Hyl as [? _].
    + intros y Hyl. destruct (decide (y = r)) as [->|]; [right; apply elem_of_union_r; by apply elem_of_singleton|left; by apply without_elem_of].
    + intros y Hyr. apply elem_of_union_l. by rewrite Hr, R.
    + intros y Hyr. change (y ∈ lrun m ∪ {[r]}) in Hyr. rewrite Hr, R in Hyr. apply elem_of_union in Hyr as [?|?%elem_of_singleton]; [by left|right; by subst].
Qed.

(** A thread in no queue of the condition leaves the wait. *)
Lemma lc_leave k i c l t : lc_ok k i c l -> t ∉ c -> lc_ok k (i ∖ {[t]}) c l.
Proof.
  intros [H1 H2 H3 H4 H5 H6 H7] Ht. split; try done.
  - intros x Hx. apply elem_of_difference. split; [by apply H6|]. intros ->%elem_of_singleton. done.
  - intros x [Hx _]%elem_of_difference. by apply H7.
Qed.

Lemma lc_finish_ok k i c l t :
  lc_ok k i c l -> t ∉ c -> in_lwlock t (lcm k) = true -> lc_good (i ∖ {[t]}) (lc_finish t k).
Proof.
  intros Hok Ht Hi. unfold lc_finish. destruct (lw_result_ok t (lcm k) Hi) as [e ->]. split; [done|].
  exists c, l. cbn [fst]. by apply add_waiters_ok, lc_leave.
Qed.

Lemma lc_signaled_ok k i c l t :
  lc_ok k i c l -> t ∈ lrun (lcm k) -> in_lwlock t (lcm k) = true -> lc_good (i ∖ {[t]}) (lc_wait_signaled t k).
Proof.
  intros Hok Ht Hi. apply (lc_finish_ok _ _ c l); [by apply lcc_thread_ok|by apply (co_run _ _ _ _ Hok)|].
  rewrite <- Hi. apply in_lwlock_same. by apply gpr3_thread.
Qed.

Lemma lc_stopped_ok k i c l t :
  lc_ok k i c l -> in_lwlock t (lcm k) = true ->
  lc_good (lc_inside (CStopped t) (snd (lc_wait_stopped t k)) i) (lc_wait_stopped t k).
Proof.
  intros Hok Hi. unfold lc_wait_stopped.
  rewrite (any_waiting_thread _ _ _ (co_waits _ _ _ _ Hok)), (any_waiting_thread _ _ _ (lo_waits _ _ (co_lw _ _ _ _ Hok))).
  destruct (bool_decide (t ∈ c)) eqn:Ec; cbn [negb andb]; [|destruct (bool_decide (t ∈ l)); cbn [negb]].
  1,2: cbn [snd lc_inside]; rewrite decide_True by done; split; [done|]; exists c, l; cbn [fst lc_finish];
    by apply add_waiters_ok, lcc_thread_ok.
  apply bool_decide_eq_false in Ec. pose proof (lc_finish_ok k i c l t Hok Ec Hi) as H.
  assert (E : snd (lc_finish t k) <> Again) by (unfold lc_finish; destruct (lw_result_ok t (lcm k) Hi) as [e ->]; done).
  cbn [lc_inside]. by rewrite decide_False.
Qed.

(** The scheduler lets a thread run that is in no queue. *)
Lemma lc_awake_ok k i c l t :
  lc_ok k i c l -> t ∉ c -> t ∉ l -> is_Some (lthr (lcm k) !! t) -> lc_ok (set_lcm (l_awake t (lcm k)) k) i c l.
Proof.
  intros [H1 H2 H3 H4 H5 H6 H7] Hc Hl Hs. split; try done.
  - by apply l_awake_ok.
  - cbn. intros x [Hx|Hx%elem_of_singleton]%elem_of_union; [by apply H4|by subst].
  - cbn. intros x Hx. destruct (H7 x Hx) as [?|[?|?]]; [by left|right; by left|right; right; by apply elem_of_union_l].
Qed.

Lemma lc_timed_out_ok k i c l t :
  lc_ok k i c l -> in_lwlock t (lcm k) = true -> lc_good (i ∖ {[t]}) (lc_wait_timed_out t k).
Proof.
  intros Hok Hi. assert (Ht : is_Some (lthr (lcm k) !! t)) by (unfold in_lwlock, gpr3_of in Hi; by destruct (lthr (lcm k) !! t)).
  assert (Hset : forall k', is_Some (lthr (lcm k') !! t) -> in_lwlock t (lcm (c_thread (set_gpr3 CELL_ETIMEDOUT) t k')) = true).
  { intros k' [n Hn]. unfold in_lwlock. cbn [c_thread set_lcm lcm]. rewrite gpr3_set. unfold gpr3_of. rewrite Hn. cbn [fmap option_fmap option_map].
    rewrite decide_True by done. apply bool_decide_eq_true. cbn. set_solver. }
  unfold lc_wait_timed_out. change (cqueue (set_lcm (l_awake t (lcm k)) k)) with (cqueue k).
  destruct (unqueue_ok true (cqueue k) c t (co_waits _ _ _ _ Hok)) as [Hout Hin].
  destruct (decide (t ∈ c)) as [Hc|Hc].
  - destruct (Hin Hc) as (q & -> & R). destruct (c_removed k i c l t q Hok Hc R) as (W & M & D & Hl & Hr & Hs & _).
    assert (Hno : t ∉ without t c) by (rewrite without_elem_of; tauto).
    apply (lc_finish_ok _ i (without t c) l); [|done|by apply Hset].
    apply lcc_thread_ok; [done|]. destruct Hok as [H1 H2 H3 H4 H5 H6 H7]. split; cbn [set_cqueue set_lcm lcm l_awake lc_exists lrun with_threads].
    + exact W.
    + exact (l_awake_ok _ _ t M Hl Hs).
    + intros x [Hx _]%without_elem_of. by apply H3.
    + intros x [Hx|Hx%elem_of_singleton]%elem_of_union; [|by subst]. rewrite without_elem_of. intros [? _]. by apply (H4 x).
    + intros E. rewrite (H5 E) in Hc. by apply not_elem_of_nil in Hc.
    + intros x [Hx _]%without_elem_of. by apply H6.
    + intros x Hx. destruct (decide (x = t)) as [->|Hne]; [right; right; set_solver|].
      destruct (H7 x Hx) as [?|[?|?]]; [left; by apply without_elem_of|right; by left|right; right; set_solver].
  - rewrite (Hout Hc). change (lcm (set_lcm (l_awake t (lcm k)) k)) with (l_awake t (lcm k)).
    destruct (lw_unqueue_ok (lcm k) l t (co_lw _ _ _ _ Hok)) as [Uout Uin]. destruct (decide (t ∈ l)) as [Hl|Hl].
    + destruct (Uin Hl) as (m & E & O & F & G & A & Hr & Hy). rewrite (lw_unqueue_awake _ _ _ _ E).
      apply (lc_finish_ok _ i c (without t l)); [|done|].
      2:{ apply Hset. cbn. specialize (G t). unfold gpr3_of in G. destruct (lthr m !! t); [done|]. destruct Ht as [n Hn]. by rewrite Hn in G. }
      apply lcc_thread_ok; [done|]. destruct Hok as [H1 H2 H3 H4 H5 H6 H7]. split; cbn [set_lcm lcm l_awake lc_exists lrun]; try done.
      * apply c_mutex_waits; [done|]. intros y Hyc. apply Hy. by apply H3.
      * intros x Hx Hx'. apply without_elem_of in Hx' as [? _]. by apply (H3 x).
      * rewrite Hr. intros x [Hx|Hx%elem_of_singleton]%elem_of_union; [by apply H4|by subst].
      * rewrite Hr. intros x Hx. destruct (decide (x = t)) as [->|Hne]; [right; right; set_solver|].
        destruct (H7 x Hx) as [?|[?|?]]; [by left|right; left; by apply without_elem_of|right; right; set_solver].
    + rewrite (lw_unqueue_awake _ _ _ _ (Uout Hl)).
      apply (lc_finish_ok _ i c l); [|done|done]. by apply (lc_awake_ok k i c l t).
Qed.

(** try_own for a thread that is in no queue, with no signal stored. *)
Lemma c_try_own_ok k l r :
  lw_ok (lcm k) l -> signaled (lw (lcm k)) = 0 -> lw_exists (lcm k) = true -> r ∉ l -> r ∉ lrun (lcm k) -> is_Some (lthr (lcm k) !! r) ->
  exists m, c_try_own r k = Some (set_lcm m k) /\ lw_ok m (r :: l) /\ lrun m = lrun (lcm k) /\ dom (lthr m) = dom (lthr (lcm k))
    /\ signaled (lw m) = 0 /\ lw_exists m = true /\ (forall x, gpr3_of x m = gpr3_of x (lcm k))
    /\ (forall y, y <> r -> lthr m !! y = lthr (lcm k) !! y).
Proof.
  intros Hok Hs He Hl Hr Ht. destruct (lw_own_join (lcm k) l r 0 true Hok Hs He Hl Ht) as (m & E & _ & O & F & A & G & Hrun & Hy).
  unfold c_try_own. rewrite E. cbn [mbind option_bind]. specialize (O Hr).
  destruct (lw_notify_frame m _ O) as (N1 & N2 & N3 & _ & N5 & N6). injection A as A1 A2.
  exists (lw_notify m). split; [done|]. split; [done|]. rewrite N2, N3, N5, N6. split_and!; try done; [by destruct F|].
  intros x. unfold gpr3_of. rewrite N2. apply G.
Qed.

Lemma c_try_own_signaled k r : signaled (lw (lcm k)) <> 0 -> c_try_own r k = None.
Proof. intros Hs. unfold c_try_own, lw_try_own. apply Z.eqb_neq in Hs. by rewrite Hs. Qed.

Lemma passing_nil k i c l : passing k i [] c l -> lc_ok k i c l.
Proof. intros [H _]. rewrite list_to_set_nil, difference_empty_L in H. exact H. Qed.

(** A thread that was taken from the condition's queue. *)
Lemma c_passing k i c l r q :
  lc_ok k i c l -> r ∈ c -> removed true (cqueue k) c r q -> passing (set_cqueue q k) i [r] (without r c) l.
Proof.
  intros Hok Hr R. destruct (c_removed k i c l r q Hok Hr R) as (W & M & D & _ & _ & Hs & _).
  destruct Hok as [H1 H2 H3 H4 H5 H6 H7]. split.
  - split; try done.
    + intros x [Hx _]%without_elem_of. by apply H3.
    + intros x Hx [Hxc _]%without_elem_of. by apply (H4 x).
    + cbn. intros E. rewrite (H5 E) in Hr. by apply not_elem_of_nil in Hr.
    + intros x [Hx Hne]%without_elem_of. apply elem_of_difference. split; [by apply H6|]. set_solver.
    + cbn. intros x [Hx Hne]%elem_of_difference. destruct (H7 x Hx) as [?|[?|?]]; auto.
      left. apply without_elem_of. split; [done|]. set_solver.
  - intros x ->%list_elem_of_singleton. split_and!; try done; [by apply H6|rewrite without_elem_of; tauto|by apply H3|].
    intros Hrr. by apply (H4 r).
Qed.

(** One of the threads [d] is placed: [m] has the lists [l'] and the running
    threads. *)
Lemma passing_place k i d c l x m l' :
  passing k i d c l -> x ∈ d -> lw_ok m l' -> (forall y, y ∉ x :: l -> lthr m !! y = lthr (lcm k) !! y) ->
  dom (lthr m) = dom (lthr (lcm k)) ->
  (forall y, y ∈ l' -> y ∈ x :: l) -> (forall y, y ∈ lrun m -> y ∈ lrun (lcm k) \/ y = x) ->
  (forall y, y ∈ lrun (lcm k) -> y ∈ lrun m) -> (forall y, y ∈ x :: l -> y ∈ l' \/ y ∈ lrun m) ->
  passing (set_lcm m k) i (without x d) c l'.
Proof.
  intros [[H1 H2 H3 H4 H5 H6 H7] Hd] Hx M Hy D L1 L2 L3 L4. destruct (Hd x Hx) as (_ & Hxc & _). split.
  - split; cbn [set_lcm lcm lc_exists]; try done.
    + apply c_mutex_waits; [done|]. intros y Hyc. apply Hy. intros [->|Hl]%elem_of_cons; [done|by apply (H3 y)].
    + intros y Hyc Hl. apply L1, elem_of_cons in Hl as [->|Hl]; [done|by apply (H3 y)].
    + intros y Hyr Hyc. destruct (L2 y Hyr) as [?| ->]; [by apply (H4 y)|done].
    + intros y Hyc. specialize (H6 y Hyc). apply elem_of_difference in H6 as [? Hn]. apply elem_of_difference.
      split; [done|]. intros [? _]%elem_of_list_to_set%without_elem_of. apply Hn. by apply elem_of_list_to_set.
    + intros y [Hyi Hn]%elem_of_difference. destruct (decide (y = x)) as [->|Hne]; [right; apply L4; by left|].
      assert (y ∉ d) as Hyd.
      { intros Hyd. apply Hn, elem_of_list_to_set, without_elem_of. done. }
      destruct (H7 y) as [?|[?|?]]; [|by left|right; apply L4; by right|right; right; by apply L3].
      apply elem_of_difference. split; [done|]. by intros ?%elem_of_list_to_set.
  - intros y [Hyd Hne]%without_elem_of. destruct (Hd y Hyd) as (? & ? & Hl & Hr & Hs). cbn [set_lcm lcm]. split_and!; try done.
    + intros [->|?]%L1%elem_of_cons; done.
    + intros [?| ->]%L2; done.
    + apply elem_of_dom. rewrite D. by apply elem_of_dom.
Qed.

Lemma passing_own k i d c l x :
  passing k i d c l -> x ∈ d -> signaled (lw (lcm k)) = 0 -> lw_exists (lcm k) = true ->
  exists m, c_try_own x k = Some (set_lcm m k) /\ passing (set_lcm m k) i (without x d) c (x :: l)
    /\ lw_exists m = true /\ (forall y, y <> x -> lthr m !! y = lthr (lcm k) !! y).
Proof.
  intros Hp Hx Hs He. destruct (pa_out _ _ _ _ _ Hp x Hx) as (_ & _ & Hl & Hr & Ht).
  destruct (c_try_own_ok k l x (co_lw _ _ _ _ (pa_ok _ _ _ _ _ Hp)) Hs He Hl Hr Ht) as (m & E & O & Rm & D & _ & Em & _ & Hy).
  exists m. split; [exact E|]. split; [|done]. apply (passing_place k i d c l x m); try done; [|rewrite Rm; auto..|by left].
  intros y Hyn. apply Hy. intros ->. set_solver.
Qed.

Lemma without_one (r : tid) : without r [r] = [].
Proof. by apply (without_split [] r []), NoDup_singleton. Qed.

Lemma passing_wake k i c l r f :
  passing k i [r] c l -> (forall n, next_cpu (f n) = next_cpu n) ->
  lc_ok (set_lcm (l_awake r (l_thread f r (lcm k))) k) i c l.
Proof.
  intros Hp Hf. apply passing_nil. rewrite <- (without_one r). destruct (pa_out _ _ _ _ _ Hp r ltac:(by left)) as (_ & _ & Hl & Hr & Ht).
  apply (passing_place k i [r] c l r); cbn [l_awake l_thread lthr lrun]; try done; [by left| | | |set_solver..].
  - apply l_awake_ok; [|done|].
    + apply l_thread_ok; [exact Hf|exact (co_lw _ _ _ _ (pa_ok _ _ _ _ _ Hp))].
    + cbn. rewrite lookup_alter_eq. destruct Ht as [n ->]. by eexists.
  - intros y Hy. apply lookup_alter_ne. intros ->. set_solver.
  - apply dom_alter_L.
Qed.

(** The thread that left the condition's queue is woken, parked, or waits for
    the rest of mode 3. *)
Lemma lc_pass_ok k i c l t tg r mode :
  passing k i [r] c l -> 1 <= mode <= 3 -> (mode <> 2 -> lw_exists (lcm k) = true) ->
  lc_fine (CSignal t tg mode) i (lc_pass t r mode k).
Proof.
  intros Hp Hm He. unfold lc_pass. destruct (Z.eqb_spec mode 2) as [->|Hn2].
  { left. split; [done|]. exists c, l. by apply passing_wake. }
  destruct ((mode =? 3) && _) eqn:E3.
  { left. split; [done|]. exists c, l. split; [by apply He|done]. }
  destruct (Z.eqb_spec mode 1) as [->|Hn1].
  - destruct (decide (signaled (lw (lcm k)) = 0)) as [Hs|Hs].
    + destruct (passing_own k i [r] c l r Hp ltac:(by left) Hs) as (m & -> & Hm' & _); [by apply He|]. left. split; [done|].
      exists c, (r :: l). rewrite without_one in Hm'. by apply passing_nil.
    + rewrite c_try_own_signaled by done. right. split; [done|]. split; [|done]. left. eauto.
  - left. split; [done|]. exists c, l. pose proof (passing_wake k i c l r id Hp ltac:(done)) as H.
    unfold l_thread in H. cbn in H. replace (alter id r (lthr (lcm k))) with (lthr (lcm k)) in H; [exact H|].
    symmetry. apply alter_id. by intros.
Qed.

Lemma lc_pass_own_ok k i c l t r :
  lc_held k i (HOwn t r) c l -> lc_fine CPassOwn i (lc_pass_own t r k).
Proof.
  intros [He Hp]. unfold lc_pass_own. destruct (decide (signaled (lw (lcm k)) = 0)) as [Hs|Hs].
  - destruct (passing_own k i [r] c l r Hp ltac:(by left) Hs He) as (m & -> & Hm' & Em & _). left. split; [done|].
    exists c, (r :: l). rewrite without_one in Hm'. split; [done|]. split; [by apply passing_nil|done].
  - rewrite c_try_own_signaled by done. right. split; [done|]. split; [|done]. right. by left.
Qed.

Lemma lc_pass_reown_ok k i c l t :
  lc_held k i (HReown t) c l -> lc_good i (lc_pass_reown t k).
Proof.
  intros (He & Hok & Hl). unfold lc_pass_reown. pose proof (co_lw _ _ _ _ Hok) as M.
  destruct (lw_reown_ok (lcm k) l false M Hl) as (r2 & n & m2 & -> & Hsel & Hn & H). destruct (again n) eqn:Ea.
  - subst m2. rewrite Hn, Ea. split; [done|]. exists c, l. by apply lcc_thread_ok; [|by destruct k].
  - destruct H as (O2 & F & G & A & (p & Hp) & Hrn & Hy2). rewrite Hp. change (again (set_next p n)) with (again n). rewrite Ea.
    pose proof (selects_elem _ _ _ _ Hsel) as Hr2. destruct Hok as [H1 H2 H3 H4 H5 H6 H7]. split; [done|].
    exists c, (without r2 l). cbn [fst]. split; cbn [set_lcm lcm lc_exists l_awake lrun lthr]; try done.
    + apply c_mutex_waits; [done|]. intros y Hy. apply Hy2. by apply H3.
    + intros x Hx [? _]%without_elem_of. by apply (H3 x).
    + rewrite Hrn. intros x [Hx|Hx%elem_of_singleton]%elem_of_union Hc; [by apply (H4 x)|subst x; by apply (H3 r2)].
    + rewrite Hrn. intros x Hx. destruct (H7 x Hx) as [?|[?|?]]; [by left| |right; right; set_solver].
      destruct (decide (x = r2)) as [->|]; [right; right; set_solver|right; left; by apply without_elem_of].
Qed.

Lemma lc_same k i c l rep : lc_ok k i c l -> rep <> Fatal -> lc_good i (k, rep).
Proof. intros Hok Hr. split; [done|]. by exists c, l. Qed.

Lemma lc_restart k i c l t : lc_ok k i c l -> lc_good i (c_thread (set_state (add_flag cf_again)) t k, Again).
Proof. intros Hok. apply (lc_same _ _ c l); [|done]. by apply lcc_thread_ok. Qed.

Lemma fine_good r i h k rep c l :
  rep <> Fatal -> lc_held k i h c l -> lc_fine r i (k, rep, h).
Proof. intros Hr Hh. left. split; [done|]. by exists c, l. Qed.

Lemma good_fine r i out : lc_good i out -> lc_fine r i (out, HNone).
Proof. destruct out as [k rep]. intros [Hr (c & l & H)]. left. split; [done|]. by exists c, l. Qed.

Lemma lc_signal_ok k i c l t target mode :
  lc_ok k i c l -> is_Some (lthr (lcm k) !! t) -> 1 <= mode <= 3 ->
  (forall x, target = Some x -> is_Some (lthr (lcm k) !! x)) -> lc_fine (CSignal t target mode) i (lc_signal t target mode k).
Proof.
  intros Hok [nt Hnt] Hm Htg. unfold lc_signal. pose proof (co_waits _ _ _ _ Hok) as W.
  assert (Same : forall rep, rep <> Fatal -> lc_fine (CSignal t target mode) i (k, rep, HNone)).
  { intros rep Hr. by apply (fine_good _ _ HNone _ _ c l). }
  assert (Restart : lc_fine (CSignal t target mode) i (c_thread (set_state (add_flag cf_again)) t k, Again, HNone)).
  { apply (fine_good _ _ HNone _ _ c l); [done|]. by apply lcc_thread_ok. }
  destruct (Z.ltb_spec mode 1), (Z.ltb_spec 3 mode); try lia. cbn [orb].
  destruct (negb (lc_exists k) || _) eqn:Ex; [by apply Same|]. apply orb_false_iff in Ex as [Ex1 Ex2].
  rewrite Hnt. destruct (has_flag cf_suspend _); [by apply Same|].
  case_bool_decide as Eq; [by apply Same|].
  destruct (match target with Some c0 => _ | None => false end) eqn:Emk; [done|].
  assert (He : mode <> 2 -> lw_exists (lcm k) = true).
  { intros Hn. apply Z.eqb_neq in Hn. rewrite Hn in Ex2. cbn in Ex2. by apply negb_false_iff in Ex2. }
  assert (Pass : forall r q, r ∈ c -> removed true (cqueue k) c r q ->
    lc_fine (CSignal t target mode) i (lc_pass t r mode (set_cqueue q k))).
  { intros r q Hr R. by apply (lc_pass_ok _ i (without r c) l); [apply c_passing|..]. }
  destruct target as [x|].
  - destruct (Htg x eq_refl) as [n Hn]. rewrite Hn in Emk.
    destruct (unqueue_ok true (cqueue k) c x W) as [Hout Hin]. destruct (decide (x ∈ c)) as [Hx|Hx].
    + destruct (Hin Hx) as (q & -> & R). pose proof R as [_ R2 _]. destruct (relinked_lookup _ _ _ _ _ R2 Hn) as [p Hp].
      rewrite Hp. change (again (set_next p n)) with (again n). rewrite Emk. by apply Pass.
    + rewrite (Hout Hx). by apply Same.
  - destruct (schedule_ok (lc_protocol (lcond k)) true (cqueue k) c W) as [_ S].
    destruct S as (x & n & q & -> & Hsel & Hn & R); [intros ->; by cbn in W|]. pose proof (selects_elem _ _ _ _ Hsel) as Hx.
    destruct (again n) eqn:Ea.
    + subst q. rewrite Hn, Ea. assert (set_cqueue (cqueue k) k = k) as -> by (by destruct k as [[] ? []]). done.
    + pose proof R as [_ R2 _]. destruct (relinked_lookup _ _ _ _ _ R2 Hn) as [p Hp]. rewrite Hp.
      change (again (set_next p n)) with (again n). rewrite Ea. by apply Pass.
Qed.

(** The beginning of signal_all: the queue is detached. *)
Lemma lc_all_begin_ok k i c l t mode :
  lc_ok k i c l -> is_Some (lthr (lcm k) !! t) -> 1 <= mode <= 2 ->
  let '(k1, rep, detached) := lc_all_begin t mode k in
  match detached with
  | None => lc_good i (k1, rep)
  | Some sq => rep = Retry /\ (mode <> 2 -> lc_held k1 i (HAll t sq) [] l)
  end.
Proof.
  intros Hok [n Hn] Hm. unfold lc_all_begin. destruct (Z.ltb_spec mode 1), (Z.ltb_spec 2 mode); try lia. cbn [orb].
  destruct (negb (lc_exists k) || _) eqn:Ex; [by apply (lc_same _ _ c l)|]. apply orb_false_iff in Ex as [_ Ex2]. rewrite Hn.
  destruct (has_flag cf_suspend _); [by apply (lc_same _ _ c l)|]. case_bool_decide as Eq; [by apply (lc_same _ _ c l)|].
  destruct (any_waiting_ok is_again (cqueue k) c (co_waits _ _ _ _ Hok)) as (b & -> & Hb). destruct b; [by apply (lc_restart _ _ c l)|].
  split; [done|]. intros Hn2. split.
  { apply Z.eqb_neq in Hn2. rewrite Hn2 in Ex2. cbn in Ex2. by apply negb_false_iff in Ex2. }
  destruct Hok as [H1 H2 H3 H4 H5 H6 H7]. exists c. split; [done|]. split.
  { intros x m Hx Hxm. destruct (again m) eqn:Ea; [|done]. enough (false = true) by done. apply Hb. by exists x, m. }
  split.
  - split; try done; [by apply lw_ok_frame|by intros x Hx%not_elem_of_nil|intros x _; apply not_elem_of_nil|by intros x Hx%not_elem_of_nil|].
    intros x [Hx Hn']%elem_of_difference. destruct (H7 x Hx) as [?|?]; [|by right]. destruct Hn'. by apply elem_of_list_to_set.
  - intros x Hx. split_and!; [by apply H6|apply not_elem_of_nil|by apply H3|by intros Hr; apply (H4 x)|].
    exact (seg_dom _ _ _ _ H1 Hx).
Qed.

(** A turn of its loop in mode 1. *)
Lemma lc_all_step_ok k i c l t sq :
  lc_held k i (HAll t sq) c l -> lc_fine CAllStep i (lc_exec CAllStep (HAll t sq) k).
Proof.
  intros (He & d & W & Ha & Hp). cbn [lc_exec]. unfold lc_all_step.
  destruct (schedule_ok (lc_protocol (lcond k)) true (mk_queue sq (lthr (lcm k))) d W) as [S0 S].
  destruct d as [|d0 d1].
  { rewrite S0 by done. cbn [mbind option_bind threads]. apply (fine_good _ _ HNone _ _ c l); [done|].
    assert (set_lcm (with_threads (lthr (lcm k)) (lcm k)) k = k) as -> by (by destruct k as [? ? []]). by apply passing_nil. }
  set (d := d0 :: d1) in *. destruct (S ltac:(done)) as (x & n & q & -> & Hsel & Hn & R). pose proof (selects_elem _ _ _ _ Hsel) as Hx.
  cbn [threads] in Hn. rewrite (Ha x n Hx Hn) in R. destruct R as [R1 R2 _]. cbn [threads] in R2. cbn [mbind option_bind Z.eqb Pos.eqb].
  set (k1 := set_lcm (with_threads (threads q) (lcm k)) k). pose proof (relinked_dom _ _ _ R2) as Hdom.
  assert (Hp1 : passing k1 i d c l).
  { destruct Hp as [[H1 H2 H3 H4 H5 H6 H7] Hd]. assert (Hout : forall y, y ∉ d -> threads q !! y = lthr (lcm k) !! y).
    { intros y Hy. by destruct (R2 y) as [_ ->]. }
    split; [|intros y Hy; destruct (Hd y Hy) as (? & ? & ? & ? & ?); split_and!; try done; apply elem_of_dom; cbn; rewrite Hdom; by apply elem_of_dom].
    split; try done.
    - apply (c_mutex_waits k); [done|]. intros y Hy. apply Hout. intros Hyd. by destruct (Hd y Hyd) as (_ & ? & _).
    - apply lw_ok_frame; [done| |done]. intros y Hy. apply Hout. intros Hyd. by destruct (Hd y Hyd) as (_ & _ & ? & _). }
  destruct (decide (signaled (lw (lcm k1)) = 0)) as [Hs|Hs].
  2:{ rewrite c_try_own_signaled by done. right. split; [done|]. split; [right; by right|exact Hs]. }
  destruct (passing_own k1 i d c l x Hp1 Hx Hs He) as (m & -> & Hm & Em & Hy). cbn [mbind option_bind].
  apply (fine_good _ _ (HAll t (first q)) _ _ c (x :: l)); [done|]. split; [done|]. exists (without x d). split; [|split; [|exact Hm]].
  - eapply (seg_frame (threads q)); [|exact R1]. intros y [_ Hne]%without_elem_of. by apply Hy.
  - intros y ny [Hyd Hne]%without_elem_of Hny. cbn in Hny. rewrite Hy in Hny by done.
    destruct (relinked_lookup _ _ _ _ _ (relinked_sym _ _ _ R2) Hny) as [p Hpp]. exact (Ha y _ Hyd Hpp).
Qed.

(** The loop of signal_all: the threads of the detached queue [c], in the order
    the protocol takes them, are parked (mode 1) or get CELL_EBUSY (mode 2). *)
Lemma lc_all_loop_ok fuel mode sq k c l taken :
  waits (mk_queue sq (lthr (lcm k))) c -> no_again (lthr (lcm k)) c -> (length c < fuel)%nat -> mode = 1 \/ mode = 2 ->
  lw_ok (lcm k) l -> (forall x, x ∈ c -> (x ∉ l) /\ (x ∉ lrun (lcm k))) ->
  (mode = 1 -> signaled (lw (lcm k)) = 0 /\ lw_exists (lcm k) = true) ->
  exists m ws, lc_all_loop fuel mode sq k taken = Some (set_lcm m k, taken ++ ws)
    /\ picks (lthr (lcm k)) (lc_protocol (lcond k)) c ws [] /\ lrun m = lrun (lcm k) /\ dom (lthr m) = dom (lthr (lcm k))
    /\ lw_ok m (if mode =? 1 then rev ws ++ l else l)
    /\ (forall y, gpr3_of y m = (fun old => if decide (mode = 2 /\ y ∈ c) then error_value CELL_EBUSY else old) <$> gpr3_of y (lcm k)).
Proof.
  revert sq k c l taken; induction fuel as [|fuel IH]; intros sq k c l taken W Ha Hf Hmode M Hd Hs1; [lia|]. cbn [lc_all_loop]. unfold lc_all_step.
  destruct (schedule_ok (lc_protocol (lcond k)) true (mk_queue sq (lthr (lcm k))) c W) as [S0 S].
  destruct c as [|c0 c1].
  { rewrite S0 by done. cbn [mbind option_bind threads]. exists (with_threads (lthr (lcm k)) (lcm k)), [].
    rewrite app_nil_r. assert (with_threads (lthr (lcm k)) (lcm k) = lcm k) as -> by (by destruct (lcm k)).
    split_and!; try done; [by destruct (mode =? 1)|]. intros y. destruct (gpr3_of y (lcm k)); [|done]. cbn.
    by rewrite decide_False by (intros [_ H]; by apply not_elem_of_nil in H). }
  set (c := c0 :: c1) in *. destruct (S ltac:(done)) as (x & n & q & -> & Hsel & Hn & R). pose proof (selects_elem _ _ _ _ Hsel) as Hx.
  cbn [threads] in Hn, Hsel. rewrite (Ha x n Hx Hn) in R. destruct R as [R1 R2 (n' & Hn' & Hq)]. cbn [threads] in R2.
  cbn [mbind option_bind]. set (k1 := set_lcm (with_threads (threads q) (lcm k)) k).
  pose proof (relinked_dom _ _ _ R2) as Hdom. pose proof (seg_NoDup _ _ _ W) as Hnd. pose proof (length_without x c Hnd Hx) as Hlen.
  assert (M1 : lw_ok (lcm k1) l).
  { apply lw_ok_frame; [done| |done]. intros y Hy. destruct (R2 y) as [_ ->]; [done|]. intros Hc. by destruct (Hd y Hc). }
  assert (G1 : forall y, gpr3_of y (lcm k1) = gpr3_of y (lcm k)) by (intros y; by apply (gpr3_relinked c)).
  (* the rest of the loop, from a state that differs from [k1] in [x] *)
  assert (Rest : forall m l', lw_ok m l' -> lrun m = lrun (lcm k) -> dom (lthr m) = dom (lthr (lcm k)) ->
    (forall y, y <> x -> lthr m !! y = threads q !! y) -> (forall y, y ∈ l' -> y = x \/ y ∈ l) ->
    (mode = 1 -> signaled (lw m) = 0 /\ lw_exists m = true) ->
    exists m' ws, lc_all_loop fuel mode (first q) (set_lcm m k1) (taken ++ [x]) = Some (set_lcm m' k, taken ++ x :: ws)
      /\ picks (lthr (lcm k)) (lc_protocol (lcond k)) c (x :: ws) [] /\ lrun m' = lrun (lcm k) /\ dom (lthr m') = dom (lthr (lcm k))
      /\ lw_ok m' (if mode =? 1 then rev ws ++ l' else l')
      /\ (forall y, gpr3_of y m' = (fun old => if decide (mode = 2 /\ y ∈ without x c) then error_value CELL_EBUSY else old) <$> gpr3_of y m)).
  { intros m l' Hm Hr Hdm Hy Hl' Hs'.
    destruct (IH (first q) (set_lcm m k1) (without x c) l' (taken ++ [x])) as (m' & ws & E & P & I1 & I2 & I3 & I4).
    - eapply (seg_frame (threads q)); [|exact R1]. intros y [_ Hne]%without_elem_of. by apply Hy.
    - intros y ny [Hyc Hne]%without_elem_of Hny. cbn in Hny. rewrite Hy in Hny by done.
      destruct (relinked_lookup _ _ _ _ _ (relinked_sym _ _ _ R2) Hny) as [p Hp]. exact (Ha y _ Hyc Hp).
    - lia.
    - done.
    - done.
    - intros y [Hyc Hne]%without_elem_of. destruct (Hd y Hyc) as [D1 D2]. cbn. rewrite Hr. split; [|done].
      intros Hyl. destruct (Hl' y Hyl) as [?|?]; done.
    - done.
    - exists m', ws. rewrite E, <- app_assoc. split; [done|]. cbn in I1, I2. split_and!; try done; [|by rewrite I1|by rewrite I2].
      cbn [picks]. split; [done|]. apply (picks_agree _ (lthr m)); [|exact P].
      intros y [Hyc Hne]%without_elem_of. rewrite Hy by done. destruct (R2 y) as [-> _]. done. }
  assert (Hsx : is_Some (threads q !! x)) by (by rewrite Hq).
  destruct Hmode as [->| ->]; cbn [Z.eqb Pos.eqb].
  - destruct (Hs1 eq_refl) as [Hz Hex]. destruct (Hd x Hx) as [Dx1 Dx2].
    destruct (c_try_own_ok k1 l x M1 Hz Hex Dx1 Dx2 Hsx) as (m & -> & O & Rm & Dm & Zm & Em & Gm & Ym). cbn [mbind option_bind].
    destruct (Rest m (x :: l) O Rm ltac:(by rewrite Dm) Ym) as (m' & ws & E & P & I1 & I2 & I3 & I4).
    { intros y [->|?]%elem_of_cons; auto. }
    { done. }
    exists m', (x :: ws). split; [done|]. split_and!; try done.
    + cbn [rev]. rewrite <- app_assoc. exact I3.
    + intros y. rewrite I4, Gm, G1. destruct (gpr3_of y (lcm k)); [|done]. cbn. by rewrite !decide_False by (by intros [? _]).
  - cbn [mbind option_bind].
    destruct (Rest (l_thread (set_gpr3 CELL_EBUSY) x (lcm k1)) l) as (m' & ws & E & P & I1 & I2 & I3 & I4).
    { by apply l_thread_ok. }
    { done. }
    { cbn. by rewrite dom_alter_L. }
    { intros y Hy. cbn. by rewrite lookup_alter_ne. }
    { auto. }
    { done. }
    exists m', (x :: ws). split; [exact E|]. split_and!; try done.
    intros y. rewrite I4, gpr3_set, G1. destruct (gpr3_of y (lcm k)); [|done]. cbn [fmap option_fmap option_map]. f_equal.
    destruct (decide (y = x)) as [->|Hne].
    + rewrite (decide_True (P := 2 = 2 /\ x ∈ c)) by done. destruct (decide (2 = 2 /\ x ∈ without x c)); done.
    + destruct (decide (2 = 2 /\ y ∈ c)) as [[_ Hc]|Hc].
      * rewrite decide_True; [done|]. split; [done|]. by apply without_elem_of.
      * rewrite decide_False; [done|]. intros [_ [? _]%without_elem_of]. by apply Hc.
Qed.

(** signal_all on a condition with waiters, none of them to be restarted. *)
Lemma lc_signal_all_wakes k i c l t n mode :
  lc_ok k i c l -> lthr (lcm k) !! t = Some n -> has_flag cf_suspend (th_state n) = false -> c <> [] ->
  no_again (lthr (lcm k)) c -> mode = 1 \/ mode = 2 -> lc_exists k = true ->
  (mode = 1 -> signaled (lw (lcm k)) = 0 /\ lw_exists (lcm k) = true) ->
  exists k' ws, lc_signal_all t mode k = (k', Returned CELL_OK, length c)
    /\ picks (lthr (lcm k)) (lc_protocol (lcond k)) c ws []
    /\ lc_ok k' i [] (if mode =? 1 then rev ws ++ l else l)
    /\ lrun (lcm k') = (if mode =? 1 then lrun (lcm k) else lrun (lcm k) ∪ list_to_set ws)
    /\ (forall y, gpr3_of y (lcm k') = (fun old => if decide (mode = 2 /\ y ∈ c) then error_value CELL_EBUSY else old) <$> gpr3_of y (lcm k)).
Proof.
  intros Hok Hn Hsu Hc Ha Hm He Hs. pose proof Hok as [H1 H2 H3 H4 H5 H6 H7]. unfold lc_signal_all, lc_all_begin. rewrite He, Hn, Hsu. cbn [negb orb].
  assert ((mode <? 1) || (2 <? mode) = false) as -> by (by destruct Hm as [->| ->]).
  assert (negb (mode =? 2) && negb (lw_exists (lcm k)) = false) as ->.
  { destruct Hm as [->| ->]; [|done]. cbn. by rewrite (proj2 (Hs eq_refl)). }
  rewrite bool_decide_false by (destruct c; [done|]; destruct H1 as [E _]; cbn in E; congruence).
  destruct (any_waiting_ok is_again (cqueue k) c H1) as (b & -> & Hb).
  destruct b; [destruct (proj1 Hb eq_refl) as (y & ny & Hy & Hny & Eg); unfold is_again in Eg; by rewrite (Ha y ny Hy Hny) in Eg|].
  set (k1 := set_cqueue (mk_queue None (lthr (lcm k))) k). pose proof (seg_length _ _ _ H1) as Hlen. cbn [cqueue threads] in Hlen.
  assert (Hd : forall x, x ∈ c -> (x ∉ l) /\ (x ∉ lrun (lcm k1))) by (intros x Hx; split; [by apply H3|intros Hr; by apply (H4 x)]).
  assert (M1 : lw_ok (lcm k1) l) by (by apply lw_ok_frame).
  destruct (lc_all_loop_ok (S (size (lthr (lcm k)))) mode (lc_sq (lcond k)) k1 c l [] H1 Ha ltac:(lia) Hm M1 Hd Hs)
    as (m & ws & E & P & R & D & M & G).
  change (lthr (lcm k1)) with (lthr (lcm k)). rewrite E. cbn [app]. pose proof (picks_length _ _ _ _ _ (seg_NoDup _ _ _ H1) P) as Hl. cbn in Hl.
  replace (length ws) with (length c) by lia.
  assert (Hws : forall y, y ∈ ws <-> y ∈ c) by (intros y; rewrite (picks_elem _ _ _ _ _ y P); set_solver).
  change (lrun (lcm k1)) with (lrun (lcm k)) in R.
  eexists _, ws. split; [reflexivity|]. split; [exact P|].
  destruct Hm as [->| ->]; cbn [Z.eqb Pos.eqb] in *; (split; [|split; [|exact G]]); try done.
  - split; cbn [set_lcm lcm lc_exists]; try done; try (intros x Hx; by apply not_elem_of_nil in Hx);
      try (intros x Hx; apply not_elem_of_nil).
    intros x Hx. right. rewrite R. destruct (H7 x Hx) as [?|[?|?]]; [left|left|by right].
    + apply elem_of_app. left. apply list_elem_of_In, in_rev, list_elem_of_In. rewrite rev_involutive. by apply Hws.
    + apply elem_of_app. by right.
  - split; cbn [set_lcm lcm lc_exists awake_list lrun]; try done; try (intros x Hx; by apply not_elem_of_nil in Hx);
      try (intros x Hx; apply not_elem_of_nil).
    + destruct M as [O1 O2 O3 O4 O5]. split; cbn; try done. rewrite R. intros x [Hx|Hx]%elem_of_union; [rewrite <- R in Hx; by apply O5|].
      apply elem_of_list_to_set, Hws in Hx. split; [by apply H3|]. apply elem_of_dom. rewrite D. apply elem_of_dom. by eapply (seg_dom _ _ _ _ H1).
    + intros x Hx. right. rewrite R. destruct (H7 x Hx) as [?|[?|?]]; [right|by left|right; by apply elem_of_union_l].
      apply elem_of_union_r, elem_of_list_to_set. by apply Hws.
  - cbn. by rewrite R.
Qed.

Lemma lc_signal_all_ok k i c l t :
  lc_ok k i c l -> is_Some (lthr (lcm k) !! t) -> lc_good i (fst (lc_signal_all t 2 k)).
Proof.
  intros Hok Ht. pose proof (lc_all_begin_ok k i c l t 2 Hok Ht ltac:(lia)) as H.
  destruct (lc_all_begin t 2 k) as [[k1 rep] [sq|]] eqn:E; [|unfold lc_signal_all; by rewrite E].
  unfold lc_all_begin in E. cbn [Z.ltb Z.eqb Pos.eqb orb negb andb] in E. destruct (lc_exists k) eqn:He; [|done]. cbn [negb orb] in E.
  destruct Ht as [n Hn]. rewrite Hn in E. destruct (has_flag cf_suspend (th_state n)) eqn:Hsu; [done|].
  case_bool_decide as Eq; [done|]. destruct (any_waiting_ok is_again (cqueue k) c (co_waits _ _ _ _ Hok)) as (b & Eb & Hb).
  rewrite Eb in E. destruct b; [done|].
  destruct (lc_signal_all_wakes k i c l t n 2 Hok Hn Hsu) as (k' & ws & -> & _ & O & _); try done.
  - intros ->. apply Eq. exact (co_waits _ _ _ _ Hok).
  - intros x m Hxc Hxm. destruct (again m) eqn:Ea; [|done]. enough (false = true) by done. apply Hb. by exists x, m.
  - by right.
  - split; [done|]. eexists _, _. exact O.
Qed.

Lemma lc_destroy_try_ok k i c l t :
  lc_ok k i c l -> t ∉ i -> lc_good i (lc_destroy_try t k).
Proof.
  intros Hok Ht. unfold lc_destroy_try. destruct (lc_exists k) eqn:Ex; cbn [negb]; [|by apply (lc_same _ _ c l)].
  destruct (lc_sq (lcond k)) eqn:Eq; [by apply (lc_same _ _ c l)|].
  assert (c = []) as ->.
  { pose proof (co_waits _ _ _ _ Hok) as W. destruct c; [done|]. destruct W as [W _]. cbn in W. congruence. }
  destruct Hok as [H1 H2 H3 H4 H5 H6 H7]. destruct (negb _); (split; [done|]); exists [], l; cbn [fst]; split; try done.
  - by apply l_sleep_ok.
  - cbn. intros x Hx. apply not_elem_of_nil.
  - cbn. intros x Hx. destruct (H7 x Hx) as [?|[?|?]]; [by left|right; by left|right; right].
    apply elem_of_difference. split; [done|]. intros ->%elem_of_singleton. done.
Qed.

Lemma lc_destroy_wait_ok k i c l t b :
  lc_ok k i c l -> t ∉ i -> t ∉ l -> is_Some (lthr (lcm k) !! t) -> lc_good i (lc_destroy_wait b t k).
Proof.
  intros Hok Ht Hl Hs. assert (Hc : t ∉ c) by (intros Hc; by apply Ht, (co_in _ _ _ _ Hok)).
  unfold lc_destroy_wait. destruct b; [by apply (lc_restart _ _ c l)|]. destruct (_ <? _); [by apply (lc_same _ _ c l)|].
  apply (lc_same _ _ c l); [|done]. by apply lc_awake_ok.
Qed.

(** The regions that run beside a thread in the middle of a signal. *)
Lemma held_inside k i h c l : lc_held k i h c l -> exists d, passing k i d c l
  /\ forall x, x ∈ d -> match h with
     | HOwn _ r => x = r
     | HAll _ sq => exists d, waits (mk_queue sq (lthr (lcm k))) d /\ x ∈ d
     | _ => False
     end.
Proof.
  assert (Hn : lc_ok k i c l -> passing k i [] c l).
  { intros Hok. split; [|by intros x Hx%not_elem_of_nil]. by rewrite list_to_set_nil, difference_empty_L. }
  destruct h; cbn [lc_held].
  - intros Hok. exists []. split; [auto|]. by intros x Hx%not_elem_of_nil.
  - intros [_ Hp]. exists [r]. split; [done|]. by intros x ->%list_elem_of_singleton.
  - intros (_ & Hok & _). exists []. split; [auto|]. by intros x Hx%not_elem_of_nil.
  - intros (_ & d & W & _ & Hp). exists d. split; [done|]. intros x Hx. by exists d.
Qed.

Lemma held_mutex_ok k i h c l r :
  lc_held k i h c l -> lw_enabled r (lcm k) = true -> lw_actor r ∉ i -> lw_beside h r = true ->
  lc_fine (OnMutex r) i (lc_exec (OnMutex r) h k).
Proof.
  intros Hh He Ha Hb. cbn [lc_exec].
  (* the threads [d] on their way are not touched *)
  assert (Keep : forall d, passing k i d c l -> exists m rep l', lw_exec r (lcm k) = (m, rep) /\ rep <> Fatal
    /\ passing (set_lcm m k) i d c l' /\ (forall y, y ∈ d -> lthr m !! y = lthr (lcm k) !! y)
    /\ (h <> HNone -> lw_exists m = lw_exists (lcm k) /\ ((exists t, h = HReown t) -> l <> [] -> l' <> []))).
  { intros d [Hok Hd]. destruct (on_mutex_ok k _ c l r Hok He) as (m & rep & l' & E & Hf & O & L1 & L2 & Fr & St); [set_solver|].
    assert (Hac : forall y, y ∈ d -> y <> lw_actor r) by (intros y Hy ->; by destruct (Hd _ Hy)).
    exists m, rep, l'. split; [done|]. split; [done|]. split; [|split; [|by apply St]].
    - split; [done|]. intros y Hy. destruct (Hd y Hy) as (? & ? & Hl & Hr & Hs). pose proof (Hac y Hy). cbn [set_lcm lcm]. split_and!; try done.
      + intros [?|?]%L1; done.
      + intros [?|[?|?]]%L2; done.
      + by rewrite Fr.
    - intros y Hy. destruct (Hd y Hy) as (? & ? & Hl & _). apply Fr; [done|by apply Hac]. }
  destruct h as [|t x|t|t sq]; cbn [lc_held] in Hh.
  - destruct (Keep []) as (m & rep & l' & -> & Hf & Hp & _).
    { split; [by rewrite list_to_set_nil, difference_empty_L|by intros x Hx%not_elem_of_nil]. }
    apply (fine_good _ _ HNone _ _ c l'); [done|by apply passing_nil].
  - destruct Hh as [Hx Hp]. destruct (Keep [x] Hp) as (m & rep & l' & -> & Hf & Hp' & _ & St). destruct (St ltac:(done)) as [Se _].
    apply (fine_good _ _ (HOwn t x) _ _ c l'); [done|]. split; [by rewrite <- Hx|done].
  - destruct Hh as (Hx & Hok & Hl). destruct (Keep []) as (m & rep & l' & -> & Hf & Hp & _ & St).
    { split; [by rewrite list_to_set_nil, difference_empty_L|by intros x Hx'%not_elem_of_nil]. }
    destruct (St ltac:(done)) as [Se Sl]. apply (fine_good _ _ (HReown t) _ _ c l'); [done|].
    split; [by rewrite <- Hx|]. split; [by apply passing_nil|]. apply Sl; [by exists t|done].
  - destruct Hh as (Hx & d & W & Hna & Hp). destruct (Keep d Hp) as (m & rep & l' & -> & Hf & Hp' & Fr & St). destruct (St ltac:(done)) as [Se _].
    apply (fine_good _ _ (HAll t sq) _ _ c l'); [done|]. split; [by rewrite <- Hx|]. exists d. split; [|split; [|done]].
    + eapply (seg_frame (lthr (lcm k))); [|exact W]. intros y Hy. by apply Fr.
    + intros y ny Hy Hny. cbn in Hny. rewrite Fr in Hny by done. exact (Hna y ny Hy Hny).
Qed.

(** A step that keeps the lists and does not touch the threads [d]. *)
Lemma held_frame k k' i i' h c l :
  lc_held k i h c l -> (forall j, lc_ok k (i ∖ j) c l -> lc_ok k' (i' ∖ j) c l) ->
  (forall y, y ∈ i -> y ∉ lrun (lcm k) -> (y ∉ lrun (lcm k')) /\ y ∈ i') ->
  (forall y f, y ∈ i -> y ∉ lrun (lcm k) -> lthr (lcm k) !! y = Some f -> lthr (lcm k') !! y = Some f) ->
  lw_exists (lcm k') = lw_exists (lcm k) -> lc_held k' i' h c l.
Proof.
  intros Hh Hok Hr Hf He.
  assert (Hn : lc_ok k i c l -> lc_ok k' i' c l).
  { intros H. specialize (Hok ∅). rewrite !difference_empty_L in Hok. auto. }
  assert (Hp : forall d, passing k i d c l -> passing k' i' d c l /\ forall y, y ∈ d -> lthr (lcm k') !! y = lthr (lcm k) !! y).
  { intros d [Hd1 Hd2]. split; [split; [by apply Hok|]|]; intros y Hy; destruct (Hd2 y Hy) as (? & ? & ? & ? & [f Hyf]).
    - destruct (Hr y) as [? ?]; try done. split_and!; try done. exists f. by apply Hf.
    - rewrite Hyf. by apply Hf. }
  destruct h as [|t x|t|t sq]; cbn [lc_held] in *; rewrite ?He.
  - auto.
  - destruct Hh as [? Hx]. split; [done|]. by apply Hp.
  - destruct Hh as (? & ? & ?). auto.
  - destruct Hh as (? & d & W & Ha & Hd). split; [done|]. destruct (Hp d Hd) as [Hp1 Hp2]. exists d. split; [|split; [|done]].
    + eapply (seg_frame (lthr (lcm k))); [|exact W]. exact Hp2.
    + intros y n Hy Hn'. rewrite Hp2 in Hn' by done. by apply (Ha y).
Qed.

Lemma held_signaled_ok k i h c l t :
  lc_held k i h c l -> t ∈ lrun (lcm k) -> in_lwlock t (lcm k) = true ->
  lc_fine (CSignaled t) (i ∖ {[t]}) (lc_wait_signaled t k, h).
Proof.
  intros Hh Ht Hi. unfold lc_wait_signaled, lc_finish. set (k1 := c_thread _ t k).
  assert (Hi1 : in_lwlock t (lcm k1) = true) by (rewrite <- Hi; apply in_lwlock_same; by apply gpr3_thread).
  destruct (lw_result_ok t (lcm k1) Hi1) as [e ->]. apply (fine_good _ _ h _ _ c l); [done|].
  apply (held_frame k _ i _ h c l Hh); try done.
  - intros j Hok. replace ((i ∖ {[t]}) ∖ j) with ((i ∖ j) ∖ {[t]}) by set_solver.
    apply add_waiters_ok, lc_leave; [by apply lcc_thread_ok|]. by apply (co_run _ _ _ _ Hok).
  - intros y Hy Hr. split; [done|]. set_solver.
  - intros y f Hy Hr Hf. cbn. rewrite lookup_alter_ne; [done|]. by intros ->.
Qed.

Lemma held_destroy_wait_ok k i h c l t b :
  lc_held k i h c l -> t ∉ i -> t ∉ l -> is_Some (lthr (lcm k) !! t) ->
  lc_fine (CDestroyWait b t) i (lc_destroy_wait b t k, h).
Proof.
  intros Hh Ht Hl Hs. assert (Hne : forall y, y ∈ i -> y <> t) by (by intros y Hy ->).
  unfold lc_destroy_wait. destruct b; [|destruct (_ <? _)].
  - apply (fine_good _ _ h _ _ c l); [done|]. apply (held_frame k _ i _ h c l Hh); try done.
    + intros j Hok. by apply lcc_thread_ok.
    + intros y f Hy Hr Hf. cbn. rewrite lookup_alter_ne; [done|]. by apply not_eq_sym, Hne.
  - by apply (fine_good _ _ h _ _ c l).
  - apply (fine_good _ _ h _ _ c l); [done|]. apply (held_frame k _ i _ h c l Hh); try done.
    + intros j Hok. apply lc_awake_ok; try done. intros Hc. apply Ht. by apply (co_in _ _ _ _ Hok), elem_of_difference in Hc as [? _].
    + intros y Hy Hr. split; [|done]. cbn. specialize (Hne y Hy). set_solver.
Qed.

(** Every region. *)
Lemma lc_exec_ok k i h c l r :
  lc_held k i h c l -> lc_enabled r i h k = true ->
  lc_fine r (lc_inside r (snd (fst (lc_exec r h k))) i) (lc_exec r h k).
Proof.
  intros Hh He. assert (Hidle : forall b, (match h with HNone => true | _ => false end && b = true) -> h = HNone /\ b = true).
  { intros b Hb. by destruct h. }
  assert (M : lw_ok (lcm k) l) by (destruct (held_inside _ _ _ _ _ Hh) as (d & [Hok _] & _); exact (co_lw _ _ _ _ Hok)).
  destruct r; cbn [lc_enabled] in He; rewrite <- ?andb_assoc in He.
  - rewrite !andb_true_iff, bool_decide_eq_true in He. destruct He as (H1 & H2 & H3).
    pose proof (held_mutex_ok k i h c l r Hh H1 H2 H3) as H. exact H.
  - apply Hidle in He as [-> He]. rewrite andb_true_iff, !bool_decide_eq_true in He. destruct He as [H1 H2].
    apply good_fine. by apply (lc_wait_ok k i c l).
  - rewrite !andb_true_iff, !bool_decide_eq_true in He. destruct He as (H1 & _ & H2). by apply (held_signaled_ok k i h c l).
  - apply Hidle in He as [-> He]. rewrite andb_true_iff in He. destruct He as [_ H2]. apply good_fine. by apply (lc_stopped_ok k i c l).
  - apply Hidle in He as [-> He]. rewrite andb_true_iff in He. destruct He as [_ H2]. apply good_fine. by apply (lc_timed_out_ok k i c l).
  - apply Hidle in He as [-> He]. rewrite !andb_true_iff, !bool_decide_eq_true in He. destruct He as (H1 & _ & H3 & H4 & H5).
    apply Z.leb_le in H3, H4. apply (lc_signal_ok k i c l); [done|by apply (lo_run _ _ M t)|done|].
    intros x ->. by apply bool_decide_eq_true in H5.
  - destruct h as [|t x| |]; try done. by apply (lc_pass_own_ok k i c l t x).
  - destruct h as [| |t|]; try done. apply good_fine. by apply (lc_pass_reown_ok k i c l t).
  - apply Hidle in He as [-> He]. rewrite !andb_true_iff, !bool_decide_eq_true in He. destruct He as (H1 & _ & H3 & H4).
    apply Z.leb_le in H3, H4. assert (Ht : is_Some (lthr (lcm k) !! t)) by (by apply (lo_run _ _ M t)). cbn [lc_exec].
    destruct (Z.eqb_spec mode 2) as [->|Hn]; [apply good_fine; by apply (lc_signal_all_ok k i c l)|].
    pose proof (lc_all_begin_ok k i c l t mode Hh Ht ltac:(lia)) as H. destruct (lc_all_begin t mode k) as [[k1 rep] [sq|]].
    + destruct H as [-> H]. apply (fine_good _ _ (HAll t sq) _ _ [] l); [done|]. by apply H.
    + by apply good_fine.
  - destruct h as [| | |t sq]; try done. by apply (lc_all_step_ok k i c l).
  - apply Hidle in He as [-> He]. rewrite andb_true_iff, !bool_decide_eq_true in He. destruct He as [_ H2].
    apply good_fine. by apply (lc_destroy_try_ok k i c l).
  - rewrite (any_waiting_thread _ _ _ (lo_waits _ _ M)) in He. rewrite !andb_true_iff, !bool_decide_eq_true in He.
    destruct He as [[H1 H2] H3]. apply (held_destroy_wait_ok k i h c l); try done. apply negb_true_iff in H1. by apply bool_decide_eq_false in H1.
Qed.

(** ** Runs *)

Lemma lc_run_ok rs i h k c l :
  lc_held k i h c l ->
  let '(k', i', h', log) := lc_run rs i h k in
  (Forall (fun x => snd x <> Fatal) log /\ exists c' l', lc_held k' i' h' c' l')
  \/ exists log0 r, log = log0 ++ [(r, Fatal)] /\ Forall (fun x => snd x <> Fatal) log0
       /\ lc_owns r /\ signaled (lw (lcm k')) <> 0.
Proof.
  revert i h k c l; induction rs as [|r rs IH]; intros i h k c l Hh; cbn [lc_run]; [left; split; [constructor|by exists c, l]|].
  destruct (lc_enabled r i h k) eqn:He; [|by eapply IH].
  pose proof (lc_exec_ok k i h c l r Hh He) as Hf. destruct (lc_exec r h k) as [[k1 rep] h1]. cbn [fst snd lc_fine] in Hf.
  destruct (decide (rep = Fatal)) as [->|Hn].
  - right. exists [], r. destruct Hf as [[? _]|(_ & ? & ?)]; [done|]. split; [done|]. split; [constructor|done].
  - destruct Hf as [[_ (c1 & l1 & H1)]|[? _]]; [|done]. specialize (IH _ _ _ _ _ H1).
    destruct (lc_run rs _ h1 k1) as [[[k2 i2] h2] log]. destruct IH as [[HF H]|(log0 & r0 & -> & HF & H)].
    + left. split; [by constructor|done].
    + right. exists ((r, rep) :: log0), r0. split; [done|]. split; [by constructor|done].
Qed.

(** The threads that a signal has taken from the condition and not placed yet. *)
Definition on_the_way (h : lc_hold) (k : lcstate) (x : tid) : Prop :=
  match h with
  | HOwn _ r => x = r
  | HAll _ sq => exists d, waits (mk_queue sq (lthr (lcm k))) d /\ x ∈ d
  | _ => False
  end.

(** ** Properties *)

(** C8: No waiter is lost between a lightweight condition and its mutex.  In
    every run of the syscalls of both, by any threads, in which each atomic
    operation on the mutex is a step of its own - so that others come between
    the test, the try_own and the reown of a signal in mode 3, and between the
    turns of signal_all in mode 1 - the two queues are disjoint lists of
    sleeping threads; every thread inside _sys_lwcond_queue_wait sleeps in one
    of them, runs, or is in the hands of the thread that signals; and a signal
    is stored in the mutex only when nobody is parked.  No step walks a broken
    queue, and the only ensure that can fail is ensure(!wait_only) of try_own: a
    caller of mode 1 or 3, who is to own the mutex, meets a signal stored in it,
    that is, the mutex was unlocked by another thread. *)
Theorem lwcond_run_safe (rs : list lc_region) (i : gset tid) (k : lcstate) (c l : list tid) :
  lc_ok k i c l ->
  let '(k', i', h', log) := lc_run rs i HNone k in
  (Forall (fun x => snd x <> Fatal) log
   /\ exists c' l', waits (cqueue k') c' /\ waits (lqueue (lcm k')) l'
        /\ (forall x, x ∈ c' -> x ∉ l') /\ (forall x, x ∈ lrun (lcm k') -> (x ∉ c') /\ (x ∉ l'))
        /\ (forall x, x ∈ i' -> x ∈ c' \/ x ∈ l' \/ x ∈ lrun (lcm k') \/ on_the_way h' k' x)
        /\ (signaled (lw (lcm k')) <> 0 -> l' = []))
  \/ exists log0 r, log = log0 ++ [(r, Fatal)] /\ Forall (fun x => snd x <> Fatal) log0
       /\ lc_owns r /\ signaled (lw (lcm k')) <> 0.
Proof.
  intros Hok. pose proof (lc_run_ok rs i HNone k c l Hok) as H. destruct (lc_run rs i HNone k) as [[[k' i'] h'] log].
  destruct H as [[HF (c' & l' & O)]|H]; [|by right]. left. split; [done|]. exists c', l'.
  destruct (held_inside _ _ _ _ _ O) as (d & [[H1 H2 H3 H4 H5 H6 H7] Hd] & Hw).
  split_and!; try done; [apply H2| | |apply H2].
  - intros x Hx. split; [by apply H4|by apply (lo_run _ _ H2)].
  - intros x Hx. destruct (decide (x ∈ d)) as [Hxd|Hxd]; [by right; right; right; apply Hw|].
    destruct (H7 x) as [?|[?|?]]; auto. apply elem_of_difference. split; [done|]. by intros ?%elem_of_list_to_set.
Qed.

(** C38: _sys_lwcond_signal_all empties the condition's queue.  It takes the
    waiters in the order of the protocol; in mode 1 they are parked in the
    lwmutex in that order, behind the threads already there, and none of them
    runs; in mode 2 all of them run, with CELL_EBUSY as their result, and the
    lwmutex is unchanged.  The number of threads is reported. *)
Theorem lwcond_signal_all_spec (k : lcstate) (i : gset tid) (c l : list tid) (t : tid) (n : ppu_thread) (mode : Z) :
  lc_ok k i c l -> lthr (lcm k) !! t = Some n -> has_flag cf_suspend (th_state n) = false -> c <> [] ->
  no_again (lthr (lcm k)) c -> mode = 1 \/ mode = 2 -> lc_exists k = true ->
  (mode = 1 -> signaled (lw (lcm k)) = 0 /\ lw_exists (lcm k) = true) ->
  exists k' ws, lc_signal_all t mode k = (k', Returned CELL_OK, length c)
    /\ picks (lthr (lcm k)) (lc_protocol (lcond k)) c ws []
    /\ waits (cqueue k') [] /\ waits (lqueue (lcm k')) (if mode =? 1 then rev ws ++ l else l)
    /\ lrun (lcm k') = (if mode =? 1 then lrun (lcm k) else lrun (lcm k) ∪ list_to_set ws)
    /\ (forall y, gpr3_of y (lcm k')
          = (fun old => if decide (mode = 2 /\ y ∈ c) then error_value CELL_EBUSY else old) <$> gpr3_of y (lcm k)).
Proof.
  intros Hok Hn Hsu Hc Ha Hm He Hs.
  destruct (lc_signal_all_wakes k i c l t n mode Hok Hn Hsu Hc Ha Hm He Hs) as (k' & ws & E & P & O & R & G).
  exists k', ws. split_and!; try done; [apply O|apply (lo_waits _ _ (co_lw _ _ _ _ O))].
Qed.

(** Threads 1 and 2 wait in the condition, 3 is parked in the mutex, 4 runs. *)
Definition sample_lcstate : lcstate :=
  mk_lcs (mk_lwcond 0 0x95000000 SYS_SYNC_PRIORITY 0x20000 (Some 1%positive) 2) true
    (mk_lws (mk_lwmutex SYS_SYNC_PRIORITY 0x10000 0 2 0 (Some 3%positive)) true
       (list_to_map [(1%positive, sample_thread 1 (Some 2%positive) 200 2); (2%positive, sample_thread 2 None 100 1);
                     (3%positive, sample_thread 3 None 600 3); (4%positive, sample_thread 4 None 700 4)])
       4 {[4%positive]}).

Lemma sample_lcstate_ok : lc_ok sample_lcstate {[1%positive; 2%positive]} [1%positive; 2%positive] [3%positive].
Proof.
  split; try done; [| |cbn; set_solver ..].
  - split; [set_solver|]. eexists. split; [reflexivity|]. split; [set_solver|]. by eexists.
  - split; cbn; try done.
    + split; [done|]. by eexists.
    + by left.
    + intros t ->%elem_of_singleton. split; [set_solver|by eexists].
Qed.

(** Thread 4 signals in mode 1, unlocks the mutex twice and waits itself. *)
Lemma lwcond_run_safe_witness :
  let rs := [CSignal 4%positive None 1; OnMutex (LwUnlockLocked 4%positive false); CSignaled 2%positive;
             CWait false 4%positive] in
  let '(k', i', h', log) := lc_run rs {[1%positive; 2%positive]} HNone sample_lcstate in
  Forall (fun x => snd x <> Fatal) log
  /\ snd <$> log = [Returned CELL_OK; Returned CELL_OK; Returned CELL_OK; Blocked]
  /\ lw_sq (lw (lcm k')) = None /\ lc_sq (lcond k') = Some 4%positive.
Proof.
  intros rs. pose proof (lwcond_run_safe rs {[1%positive; 2%positive]} sample_lcstate _ _ sample_lcstate_ok) as H.
  assert (E : let '(k', i', h', log) := lc_run rs {[1%positive; 2%positive]} HNone sample_lcstate in
    (snd <$> log, lw_sq (lw (lcm k')), lc_sq (lcond k')) =
    ([Returned CELL_OK; Returned CELL_OK; Returned CELL_OK; Blocked], None, Some 4%positive)) by (vm_compute; reflexivity).
  destruct (lc_run rs _ HNone sample_lcstate) as [[[k' i'] h'] log]. injection E as E1 E2 E3.
  destruct H as [[N _]|(log0 & r & -> & _)]; [done|]. rewrite fmap_app in E1.
  by destruct log0 as [|? [|? [|? [|? [|? ?]]]]].
Defined.

(** The race of mode 3: thread 5 is parked when thread 4 tests load_sq; before
    its try_own, 3 unlocks the mutex twice, which hands it to 5 and stores a
    signal. *)
Definition race_lcstate : lcstate :=
  mk_lcs (mk_lwcond 0 0x95000000 SYS_SYNC_PRIORITY 0x20000 (Some 1%positive) 1) true
    (mk_lws (mk_lwmutex SYS_SYNC_PRIORITY 0x10000 0 1 0 (Some 5%positive)) true
       (list_to_map [(1%positive, sample_thread 1 None 200 2); (3%positive, sample_thread 3 None 600 3);
                     (4%positive, sample_thread 4 None 700 4); (5%positive, sample_thread 5 None 700 5)])
       4 {[3%positive; 4%positive]}).

Lemma lwcond_mode3_race :
  snd (lc_run [CSignal 4%positive None 3; OnMutex (LwUnlockLocked 3%positive false);
               OnMutex (LwUnlockCas 3%positive 0 false); CPassOwn] {[1%positive]} HNone race_lcstate)
  = [(CSignal 4%positive None 3, Retry); (OnMutex (LwUnlockLocked 3%positive false), Returned CELL_OK);
     (OnMutex (LwUnlockCas 3%positive 0 false), Returned CELL_OK); (CPassOwn, Fatal)].
Proof. vm_compute. reflexivity. Qed.

(** And mode 3 when nobody interferes: the waiter 1 is parked behind 5, and 5
    gets the mutex or 1 by priority. *)
Lemma lwcond_mode3_run :
  let '(k, _, h, log) := lc_run [CSignal 4%positive None 3; CPassOwn; CPassReown] {[1%positive]} HNone race_lcstate in
  snd <$> log = [Retry; Retry; Returned CELL_OK] /\ h = HNone /\ 1%positive ∈ lrun (lcm k)
  /\ lw_sq (lw (lcm k)) = Some 5%positive.
Proof. vm_compute. repeat split. Qed.

Lemma lwcond_signal_all_spec_witness :
  exists k', lc_signal_all 4%positive 1 sample_lcstate = (k', Returned CELL_OK, 2%nat) /\ waits (cqueue k') [].
Proof.
  destruct (lwcond_signal_all_spec sample_lcstate {[1%positive; 2%positive]} [1%positive; 2%positive] [3%positive] 4%positive
    (sample_thread 4 None 700 4) 1 sample_lcstate_ok) as (k' & ws & E & _ & W & _); try done.
  - intros x m Hx Hm. apply elem_of_cons in Hx as [->|Hx]; [by injection Hm as <-|].
    apply list_elem_of_singleton in Hx as ->. by injection Hm as <-.
  - by left.
  - exists k'. split; [exact E|exact W].
Defined.
