(* ===== verification/Lv2LwCreate.v ===== *)
(** * Creation of lightweight mutexes and conditions

    _sys_lwmutex_create (kernel/cellos/src/sys_lwmutex.cpp) and
    _sys_lwcond_create (src/sys_lwcond.cpp) over the id manager: the argument
    checks, the constructors and idm::make.  The container of the id manager
    holds objects of both types; the last component of a result is the id
    stored through the id pointer. *)

From stdpp Require Import base numbers list gmap tactics.
From Stdlib Require Import Lia.
From S2P Require Import Prelude IdManager Lv2Obj Lv2Mutex Lv2LwMutex Lv2LwCond.

Open Scope Z_scope.

(** id_base of lv2_lwmutex and lv2_lwcond. *)
Definition lwmutex_traits : id_traits := lv2_traits 0x95000000.
Definition lwcond_traits : id_traits := lv2_traits 0x97000000.

(** An object of the container, by its type. *)
Inductive lw_object :=
| LwMutexObj (m : lv2_lwmutex)
| LwCondObj (c : lv2_lwcond).

(** The constructors keep the low byte of the protocol. *)
Definition make_lwmutex (protocol control name : Z) : lv2_lwmutex :=
  mk_lwmutex (wrap 8 protocol) control name 0 0 None.

Definition make_lwcond (name lwmutex_id protocol control : Z) : lv2_lwcond :=
  mk_lwcond name lwmutex_id (wrap 8 protocol) control None 0.

(** idm::make, and the end of both syscalls: the id is stored, or no slot was
    free. *)
Definition lw_make (tr : id_traits) (o : lw_object) (m : id_map lw_object) (g_id : Z)
    : option (id_map lw_object * error_code * option Z) :=
  match import_id tr m (Some o) (tr_invalid tr) g_id with
  | None => None
  | Some (m', id) => if id =? 0 then Some (m', CELL_EAGAIN, None) else Some (m', CELL_OK, Some id)
  end.

Definition lwmutex_protocol_ok (protocol : Z) : bool :=
  (protocol =? SYS_SYNC_FIFO) || (protocol =? SYS_SYNC_RETRY) || (protocol =? SYS_SYNC_PRIORITY).

(** [has_name] is signed; a name is kept only when it is negative. *)
Definition sys_lwmutex_create (protocol control has_name name : Z) (m : id_map lw_object) (g_id : Z)
    : option (id_map lw_object * error_code * option Z) :=
  if negb (lwmutex_protocol_ok protocol) then Some (m, CELL_EINVAL, None)
  else
    let name := if has_name <? 0 then name else 0 in
    lw_make lwmutex_traits (LwMutexObj (make_lwmutex protocol control name)) m g_id.

(** The protocol of a condition over a mutex. *)
Definition lwcond_protocol (protocol : Z) : Z :=
  if protocol =? SYS_SYNC_RETRY then SYS_SYNC_PRIORITY else protocol.

(** An object under an id of lv2_lwmutex that is not one is a type confusion of
    the container. *)
Definition sys_lwcond_create (lwmutex_id control name : Z) (m : id_map lw_object) (g_id : Z)
    : option (id_map lw_object * error_code * option Z) :=
  match check_id lwmutex_traits m lwmutex_id with
  | None => Some (m, CELL_ESRCH, None)
  | Some (LwCondObj _) => None
  | Some (LwMutexObj x) =>
      lw_make lwcond_traits (LwCondObj (make_lwcond name lwmutex_id (lwcond_protocol (lw_protocol x)) control)) m g_id
  end.

(** ** Properties *)

(** What a container with objects of both types holds under their ids. *)
Record lw_typed (tys : list id_traits) (m : id_map lw_object) : Prop := {
  wl_map : wf_map tys 8192 m;
  wl_mutex : forall id o, find_id lwmutex_traits m id = Some o ->
    exists x, o = LwMutexObj x /\ lwmutex_protocol_ok (lw_protocol x) = true;
  wl_cond : forall id o, find_id lwcond_traits m id = Some o ->
    exists c, o = LwCondObj c /\ (lc_protocol c = SYS_SYNC_FIFO \/ lc_protocol c = SYS_SYNC_PRIORITY)
}.

(** The result of a creation of [o]: a free id names the object, or every slot
    is taken and no lookup changes. *)
Definition lw_created (tys : list id_traits) (tr : id_traits) (o : lw_object) (m m' : id_map lw_object)
    (e : error_code) (w : option Z) : Prop :=
  match w with
  | Some id => e = CELL_OK /\ find_id tr m id = None
      /\ forall tr' id', tr' ∈ tys -> find_id tr' m' id'
           = if (tr_type tr' =? tr_type tr) && (id' =? id) then Some o else find_id tr' m id'
  | None => e = CELL_EAGAIN /\ Forall is_Some (vec_data m)
      /\ forall tr' id', tr' ∈ tys -> find_id tr' m' id' = find_id tr' m id'
  end.

Section Created.

Context (tys : list id_traits) (Ht : wf_types tys 8192).

Lemma find_zero tr (m : id_map lw_object) :
  wf_map tys 8192 m -> 8192 <= get_index tr 0 -> find_id tr m 0 = None.
Proof.
  intros Hm Hi. unfold find_id, find_index. pose proof (wm_high _ _ _ Hm).
  by destruct (Z.leb_spec (highest_index m) (get_index tr 0)); [|lia].
Qed.

Lemma lw_make_ok tr o m g_id :
  tr ∈ tys -> tr_invalid tr = 0 -> 8192 <= get_index tr 0 -> wf_map tys 8192 m ->
  exists m' e w, lw_make tr o m g_id = Some (m', e, w) /\ wf_map tys 8192 m' /\ lw_created tys tr o m m' e w.
Proof.
  intros Hin H0 Hi Hm. unfold lw_make, import_id.
  destruct (create_id_refines tys 8192 m tr (Some o) (tr_invalid tr) g_id Ht Hin Hm) as [[[[m' r] id] E] H]; [done|].
  rewrite E. destruct (H _ _ _ E) as [Hm' C]. destruct r as [obj|].
  - destruct C as ([= ->] & Hf & C). destruct (Z.eqb_spec id 0) as [->|].
    + pose proof (C tr 0 Hin) as Hz. rewrite !Z.eqb_refl, find_zero in Hz by done. done.
    + by exists m', CELL_OK, (Some id).
  - destruct C as [C F]. rewrite H0. exists m', CELL_EAGAIN, None. split; [done|]. split; [done|]. split; [done|]. split; [|exact C].
    apply Forall_lookup. intros i d Hd. exact (F eq_refl ltac:(by eexists) i d Hd).
Qed.

Context (Hmx : lwmutex_traits ∈ tys) (Hcd : lwcond_traits ∈ tys).

(** _sys_lwmutex_create: an unknown protocol is CELL_EINVAL and changes
    nothing; otherwise the new mutex keeps the protocol, is not signaled and
    has no waiters, or all ids are taken.  The container keeps its types. *)
Lemma lwmutex_create_ok protocol control has_name name m g_id :
  lw_typed tys m ->
  exists m' e w, sys_lwmutex_create protocol control has_name name m g_id = Some (m', e, w) /\ lw_typed tys m'
    /\ if lwmutex_protocol_ok protocol
       then lw_created tys lwmutex_traits
              (LwMutexObj (mk_lwmutex protocol control (if has_name <? 0 then name else 0) 0 0 None)) m m' e w
       else m' = m /\ e = CELL_EINVAL /\ w = None.
Proof.
  intros Hm. unfold sys_lwmutex_create. destruct (lwmutex_protocol_ok protocol) eqn:Ep; cbn [negb].
  2:{ by exists m, CELL_EINVAL, None. }
  assert (Hw : wrap 8 protocol = protocol).
  { unfold lwmutex_protocol_ok in Ep. apply wrap_id. split.
    all: apply orb_true_iff in Ep as [[Ep|Ep]%orb_true_iff|Ep]; apply Z.eqb_eq in Ep; subst; done. }
  unfold make_lwmutex. rewrite Hw.
  destruct (lw_make_ok lwmutex_traits (LwMutexObj (mk_lwmutex protocol control (if has_name <? 0 then name else 0) 0 0 None))
    m g_id Hmx eq_refl ltac:(done) (wl_map _ _ Hm)) as (m' & e & w & -> & Hm' & C).
  exists m', e, w. split; [done|]. split; [|done]. destruct Hm as [_ HM HC]. split; [done| |]; intros id o; destruct w as [i|].
  - destruct C as (_ & _ & C). rewrite C by done. destruct (_ && _); [intros E; injection E as <-; by eexists|apply HM].
  - destruct C as (_ & _ & C). rewrite C by done. apply HM.
  - destruct C as (_ & _ & C). rewrite C by done. apply HC.
  - destruct C as (_ & _ & C). rewrite C by done. apply HC.
Qed.

(** _sys_lwcond_create: CELL_ESRCH and no change when the id names no mutex;
    otherwise the new condition is bound to it, has no waiters and never the
    RETRY protocol, or all ids are taken. *)
Lemma lwcond_create_ok lwmutex_id control name m g_id :
  lw_typed tys m ->
  exists m' e w, sys_lwcond_create lwmutex_id control name m g_id = Some (m', e, w) /\ lw_typed tys m'
    /\ match find_id lwmutex_traits m lwmutex_id with
       | Some (LwMutexObj x) => lw_created tys lwcond_traits
           (LwCondObj (mk_lwcond name lwmutex_id (lwcond_protocol (lw_protocol x)) control None 0)) m m' e w
       | _ => m' = m /\ e = CELL_ESRCH /\ w = None
       end.
Proof.
  intros Hm. unfold sys_lwcond_create. rewrite (check_id_find tys 8192) by (done || apply Hm).
  destruct (find_id lwmutex_traits m lwmutex_id) as [o|] eqn:Ef; [|by exists m, CELL_ESRCH, None].
  destruct (wl_mutex _ _ Hm _ _ Ef) as (x & -> & Hp).
  assert (Hc : lwcond_protocol (lw_protocol x) = SYS_SYNC_FIFO \/ lwcond_protocol (lw_protocol x) = SYS_SYNC_PRIORITY).
  { unfold lwmutex_protocol_ok in Hp. unfold lwcond_protocol. destruct (Z.eqb_spec (lw_protocol x) SYS_SYNC_RETRY); [by right|].
    rewrite orb_false_r in Hp. apply orb_true_iff in Hp as [Hp|Hp]; apply Z.eqb_eq in Hp; auto. }
  unfold make_lwcond. rewrite wrap_id by (destruct Hc as [-> | ->]; done).
  destruct (lw_make_ok lwcond_traits (LwCondObj (mk_lwcond name lwmutex_id (lwcond_protocol (lw_protocol x)) control None 0))
    m g_id Hcd eq_refl ltac:(done) (wl_map _ _ Hm)) as (m' & e & w & -> & Hm' & C).
  exists m', e, w. split; [done|]. split; [|done]. destruct Hm as [_ HM HC].
  assert (S : forall tr' id', tr' ∈ tys -> tr_type tr' <> tr_type lwcond_traits \/ w = None ->
    find_id tr' m' id' = find_id tr' m id').
  { intros tr' id' Hin Hd. destruct w; destruct C as (_ & _ & C); rewrite C by done; [|done].
    destruct Hd as [Hd|]; [|done]. by rewrite (proj2 (Z.eqb_neq _ _) Hd). }
  split; [done| |]; intros id o.
  - rewrite S by (done || by left). apply HM.
  - destruct w as [i|]; [|rewrite S by (done || by right); apply HC].
    destruct C as (_ & _ & C). rewrite C by done. destruct (_ && _); [intros E; injection E as <-; by eexists|apply HC].
Qed.

End Created.

(** A new mutex and a new condition over it satisfy the invariants of the
    regions. *)
Lemma make_lwcond_ok name lwmutex_id x control thr tag (run inside : gset tid) :
  lw_ok (mk_lws x true thr tag run) [] -> inside ⊆ run ->
  lc_ok (mk_lcs (make_lwcond name lwmutex_id (lwcond_protocol (lw_protocol x)) control) true
           (mk_lws x true thr tag run)) inside [] [].
Proof. intros Hok Hs. split; cbn; try done; set_solver. Qed.

Lemma make_lwmutex_ok protocol control name thr tag (run : gset tid) :
  (forall t, t ∈ run -> is_Some (thr !! t)) ->
  lw_ok (mk_lws (make_lwmutex protocol control name) true thr tag run) [].
Proof.
  intros Hr. split; cbn; try done; [by left|]. intros t Hx. split; [apply not_elem_of_nil|by apply Hr].
Qed.

(** A condition over a mutex with the RETRY protocol, in an empty container. *)
Example lw_create_example :
  match sys_lwmutex_create SYS_SYNC_RETRY 0x10000 (-1) 7 (empty_map (Z.to_nat 8192)) 0 with
  | Some (m, CELL_OK, Some id) =>
      match sys_lwcond_create id 0x20000 9 m id with
      | Some (m', CELL_OK, Some cid) =>
          id = 0x95000000 /\ cid = 0x97000100
          /\ find_id lwcond_traits m' cid = Some (LwCondObj (mk_lwcond 9 id SYS_SYNC_PRIORITY 0x20000 None 0))
          /\ sys_lwcond_create (id + 1) 0x20000 9 m' cid = Some (m', CELL_ESRCH, None)
      | _ => False
      end
  | _ => False
  end.
Proof. vm_compute. repeat split. Qed.
