(* ===== verification/StdMap.v ===== *)
(** * Ordered maps

    std::map with 64-bit keys, as the tables of rx/MemoryTable.hpp use it: a
    list of pairs with increasing keys.  An iterator is the key of its element
    ([None] is end()).  The lemmas give the operations on a table split at an
    address. *)

From stdpp Require Import base numbers list tactics.
From Stdlib Require Import Lia.
From S2P Require Import Prelude.

Open Scope Z_scope.

Abbreviation below k := (Forall (fun q : Z * _ => fst q < k)).
Abbreviation above k := (Forall (fun q : Z * _ => k < fst q)).
Abbreviation atleast k := (Forall (fun q : Z * _ => k <= fst q)).
Abbreviation atmost k := (Forall (fun q : Z * _ => fst q <= k)).

Section StdMap.

Context {V : Type}.

Abbreviation table := (list (Z * V)).

Implicit Types l : table.

Fixpoint find_pt (k : Z) (l : table) : option V :=
  match l with
  | [] => None
  | (x, v) :: l' => if x =? k then Some v else find_pt k l'
  end.

(** emplace: does nothing when the key is present. *)
Fixpoint emplace_pt (k : Z) (v : V) (l : table) : table * bool :=
  match l with
  | [] => ([(k, v)], true)
  | (x, w) :: l' =>
      if k <? x then ((k, v) :: l, true)
      else if x =? k then (l, false)
      else let '(r, ins) := emplace_pt k v l' in ((x, w) :: r, ins)
  end.

Fixpoint erase_pt (k : Z) (l : table) : table :=
  match l with
  | [] => []
  | (x, w) :: l' => if x =? k then l' else (x, w) :: erase_pt k l'
  end.

(** An assignment through an iterator. *)
Fixpoint set_pt (k : Z) (v : V) (l : table) : table :=
  match l with
  | [] => []
  | (x, w) :: l' => if x =? k then (x, v) :: l' else (x, w) :: set_pt k v l'
  end.

(** lower_bound: the first element with a key not below [k]. *)
Fixpoint lower_bound (k : Z) (l : table) : option (Z * V) :=
  match l with
  | [] => None
  | (x, w) :: l' => if x <? k then lower_bound k l' else Some (x, w)
  end.

(** std::next and std::prev of the element with key [k]. *)
Fixpoint next_pt (k : Z) (l : table) : option (Z * V) :=
  match l with
  | [] => None
  | (x, w) :: l' => if x <=? k then next_pt k l' else Some (x, w)
  end.

Fixpoint prev_from (k : Z) (l : table) (acc : option (Z * V)) : option (Z * V) :=
  match l with
  | [] => acc
  | (x, w) :: l' => if x <? k then prev_from k l' (Some (x, w)) else acc
  end.

Definition prev_pt (k : Z) (l : table) : option (Z * V) := prev_from k l None.

(** ** Lemmas *)

(** Keys increase. *)
Fixpoint sorted (l : table) : Prop :=
  match l with
  | [] => True
  | p :: l' => Forall (fun q => fst p < fst q) l' /\ sorted l'
  end.

Lemma above_atleast k l : above k l -> atleast k l.
Proof. apply Forall_impl. intros ? ?. lia. Qed.

Lemma below_atmost k l : below k l -> atmost k l.
Proof. apply Forall_impl. intros ? ?. lia. Qed.

Lemma above_mono k k' l : k' <= k -> above k l -> above k' l.
Proof. intros ?. apply Forall_impl. intros ? ?. lia. Qed.

Lemma atmost_below k k' l : k < k' -> atmost k l -> below k' l.
Proof. intros ?. apply Forall_impl. intros ? ?. lia. Qed.

Lemma below_mono k k' l : k <= k' -> below k l -> below k' l.
Proof. intros ?. apply Forall_impl. intros ? ?. lia. Qed.

Lemma sorted_app l1 l2 :
  sorted (l1 ++ l2) <->
  sorted l1 /\ sorted l2 /\ Forall (fun p => above (fst p) l2) l1.
Proof.
  induction l1 as [|p l1 IH]; cbn.
  - split; [by intros ?|tauto].
  - rewrite IH, list.Forall_app, list.Forall_cons. tauto.
Qed.

Lemma sorted_join l1 l2 k : sorted l1 -> sorted l2 -> atmost k l1 -> above k l2 -> sorted (l1 ++ l2).
Proof.
  intros H1 H2 H3 H4. apply sorted_app. split_and!; [done..|]. revert H3. apply Forall_impl. intros p Hp.
  by apply (above_mono k); [lia|].
Qed.

Lemma sorted_mid l1 k v l2 :
  sorted (l1 ++ (k, v) :: l2) <-> sorted l1 /\ sorted l2 /\ below k l1 /\ above k l2.
Proof.
  rewrite sorted_app. cbn [sorted fst]. split.
  - intros (H1 & [H2 H3] & H4). do 2 (split; [done|]). split; [|done].
    revert H4. apply Forall_impl. intros p Hp. by apply Forall_inv in Hp.
  - intros (H1 & H2 & H3 & H4). split; [done|]. split; [done|].
    revert H3. apply Forall_impl. intros p Hp. constructor; [done|].
    revert H4. apply above_mono. lia.
Qed.

Lemma emplace_new k v l1 l2 :
  below k l1 -> above k l2 -> emplace_pt k v (l1 ++ l2) = (l1 ++ (k, v) :: l2, true).
Proof.
  intros H1 H2. induction l1 as [|[x w] l1 IH]; cbn.
  - destruct l2 as [|[y u] l2]; [done|]. cbn. apply Forall_inv in H2. cbn in H2.
    by destruct (Z.ltb_spec k y); [|lia].
  - apply Forall_cons_1 in H1 as [Hx H1]. cbn in Hx.
    destruct (Z.ltb_spec k x); [lia|]. destruct (Z.eqb_spec x k); [lia|]. by rewrite IH.
Qed.

Lemma emplace_old k v w l1 l2 :
  below k l1 -> emplace_pt k v (l1 ++ (k, w) :: l2) = (l1 ++ (k, w) :: l2, false).
Proof.
  intros H1. induction l1 as [|[x u] l1 IH]; cbn.
  - rewrite Z.ltb_irrefl, Z.eqb_refl. done.
  - apply Forall_cons_1 in H1 as [Hx H1]. cbn in Hx.
    destruct (Z.ltb_spec k x); [lia|]. destruct (Z.eqb_spec x k); [lia|]. by rewrite IH.
Qed.

Lemma erase_mid k v l1 l2 : below k l1 -> erase_pt k (l1 ++ (k, v) :: l2) = l1 ++ l2.
Proof.
  intros H1. induction l1 as [|[x u] l1 IH]; cbn.
  - by rewrite Z.eqb_refl.
  - apply Forall_cons_1 in H1 as [Hx H1]. cbn in Hx.
    destruct (Z.eqb_spec x k); [lia|]. by rewrite IH.
Qed.

Lemma set_mid k v w l1 l2 : below k l1 -> set_pt k w (l1 ++ (k, v) :: l2) = l1 ++ (k, w) :: l2.
Proof.
  intros H1. induction l1 as [|[x u] l1 IH]; cbn.
  - by rewrite Z.eqb_refl.
  - apply Forall_cons_1 in H1 as [Hx H1]. cbn in Hx.
    destruct (Z.eqb_spec x k); [lia|]. by rewrite IH.
Qed.

Lemma find_mid k v l1 l2 : below k l1 -> find_pt k (l1 ++ (k, v) :: l2) = Some v.
Proof.
  intros H1. induction l1 as [|[x u] l1 IH]; cbn.
  - by rewrite Z.eqb_refl.
  - apply Forall_cons_1 in H1 as [Hx H1]. cbn in Hx.
    destruct (Z.eqb_spec x k); [lia|]. by rewrite IH.
Qed.

Lemma lower_bound_split k l1 l2 :
  below k l1 -> atleast k l2 -> lower_bound k (l1 ++ l2) = head l2.
Proof.
  intros H1 H2. induction l1 as [|[x u] l1 IH]; cbn.
  - destruct l2 as [|[y w] l2]; [done|]. cbn. apply Forall_inv in H2. cbn in H2.
    by destruct (Z.ltb_spec y k); [lia|].
  - apply Forall_cons_1 in H1 as [Hx H1]. cbn in Hx.
    destruct (Z.ltb_spec x k); [|lia]. auto.
Qed.

Lemma next_split k l1 l2 : atmost k l1 -> above k l2 -> next_pt k (l1 ++ l2) = head l2.
Proof.
  intros H1 H2. induction l1 as [|[x u] l1 IH]; cbn.
  - destruct l2 as [|[y w] l2]; [done|]. cbn. apply Forall_inv in H2. cbn in H2.
    by destruct (Z.leb_spec y k); [lia|].
  - apply Forall_cons_1 in H1 as [Hx H1]. cbn in Hx.
    destruct (Z.leb_spec x k); [|lia]. auto.
Qed.

Lemma next_mid k v l1 l2 : below k l1 -> above k l2 -> next_pt k (l1 ++ (k, v) :: l2) = head l2.
Proof.
  intros H1 H2. replace (l1 ++ (k, v) :: l2) with ((l1 ++ [(k, v)]) ++ l2) by (by rewrite <- app_assoc).
  apply next_split; [|done]. apply list.Forall_app. split; [by apply below_atmost|].
  constructor; [cbn; lia|done].
Qed.

Lemma prev_from_split k l1 l2 acc :
  below k l1 -> atleast k l2 ->
  prev_from k (l1 ++ l2) acc = match list.last l1 with Some p => Some p | None => acc end.
Proof.
  intros H1 H2. revert acc; induction l1 as [|[x u] l1 IH]; intros acc; cbn.
  - destruct l2 as [|[y w] l2]; [done|]. cbn. apply Forall_inv in H2. cbn in H2.
    by destruct (Z.ltb_spec y k); [lia|].
  - apply Forall_cons_1 in H1 as [Hx H1]. cbn in Hx.
    destruct (Z.ltb_spec x k); [|lia]. rewrite IH by done. rewrite list.last_cons. by destruct (list.last l1).
Qed.

Lemma prev_split k l1 l2 :
  below k l1 -> atleast k l2 -> prev_pt k (l1 ++ l2) = list.last l1.
Proof.
  intros H1 H2. unfold prev_pt. rewrite prev_from_split by done. by destruct (list.last l1).
Qed.

(** A table splits at an address. *)
Lemma split_at k l :
  sorted l -> exists lo hi, l = lo ++ hi /\ below k lo /\ atleast k hi.
Proof.
  induction l as [|[x v] l IH]; intros Hs.
  - exists [], []. done.
  - destruct Hs as [Hx Hs]. destruct (IH Hs) as (lo & hi & -> & H1 & H2).
    destruct (Z.ltb_spec x k) as [H|H].
    + exists ((x, v) :: lo), hi. split; [done|]. split; [by constructor|done].
    + exists [], ((x, v) :: lo ++ hi). split; [done|]. split; [done|].
      constructor; [done|]. revert Hx. apply Forall_impl. cbn. intros ? ?. lia.
Qed.

(** The point at [k], if any, in front of a table that starts at [k]. *)
Lemma split_point k l :
  sorted l -> atleast k l ->
  (exists v l', l = (k, v) :: l' /\ above k l') \/ above k l.
Proof.
  destruct l as [|[x v] l]; intros Hs Ha; [by right|].
  apply Forall_cons_1 in Ha as [Hx Ha]. cbn in Hx. destruct Hs as [Hl Hs].
  destruct (decide (x = k)) as [->|Hne].
  - left. exists v, l. done.
  - right. constructor; [cbn; lia|]. revert Hl. apply Forall_impl. cbn. intros ? ?. lia.
Qed.

(** The five parts of a table around a range. *)
Record parts (l : table) (b e : Z) (lo ob mid oe hi : table) : Prop := {
  pa_eq : l = lo ++ ob ++ mid ++ oe ++ hi;
  pa_lo : below b lo;
  pa_ob : ob = [] \/ exists v, ob = [(b, v)];
  pa_mid : above b mid /\ below e mid;
  pa_oe : oe = [] \/ exists v, oe = [(e, v)];
  pa_hi : above e hi
}.

Lemma split_range l b e :
  sorted l -> b < e -> exists lo ob mid oe hi, parts l b e lo ob mid oe hi.
Proof.
  intros Hs Hbe. destruct (split_at b l Hs) as (lo & r & -> & Hlo & Hr).
  apply sorted_app in Hs as (_ & Hsr & _).
  assert (Hob : exists ob r', r = ob ++ r' /\ (ob = [] \/ exists v, ob = [(b, v)]) /\ above b r').
  { destruct (split_point b r Hsr Hr) as [(v & r' & -> & H)|H].
    - exists [(b, v)], r'. eauto.
    - exists [], r. auto. }
  destruct Hob as (ob & r1 & -> & Hob & Hr1). apply sorted_app in Hsr as (_ & Hs1 & _).
  destruct (split_at e r1 Hs1) as (mid & r2 & -> & Hmid & Hr2).
  apply sorted_app in Hs1 as (_ & Hs2 & _). apply list.Forall_app in Hr1 as [Hr1 Hr1'].
  destruct (split_point e r2 Hs2 Hr2) as [(v & r3 & -> & H)|H].
  - exists lo, ob, mid, [(e, v)], r3. split; eauto.
  - exists lo, ob, mid, [], r2. split; eauto.
Qed.

Lemma emplace_pt_forall (Q : Z * V -> Prop) k v l :
  Q (k, v) -> Forall Q l -> Forall Q (fst (emplace_pt k v l)).
Proof.
  intros Hq. induction l as [|[x w] l IH]; cbn; [by constructor|].
  intros H. pose proof H as [Hx Hl]%Forall_cons_1. case_match; [by constructor|].
  case_match; [done|]. specialize (IH Hl). destruct (emplace_pt k v l). by constructor.
Qed.

Lemma emplace_pt_sorted k v l : sorted l -> sorted (fst (emplace_pt k v l)).
Proof.
  induction l as [|[x w] l IH]; [done|]. intros [Hx Hs]. cbn.
  destruct (Z.ltb_spec k x).
  - cbn. split; [|done]. constructor; [done|]. revert Hx. apply Forall_impl. cbn.
    intros ? ?. lia.
  - destruct (Z.eqb_spec x k); [done|]. specialize (IH Hs).
    pose proof (emplace_pt_forall (fun q => x < fst q) k v l) as F.
    destruct (emplace_pt k v l) as [r ins]. cbn in *. split; [|done]. apply F; [lia|done].
Qed.

Lemma erase_pt_sorted k l : sorted l -> sorted (erase_pt k l).
Proof.
  induction l as [|[x w] l IH]; [done|]. intros [Hx Hs]. cbn.
  destruct (Z.eqb_spec x k); [done|]. cbn. split; [|auto].
  clear IH Hs. induction l as [|[y u] l IH]; [done|]. cbn in *.
  apply Forall_cons_1 in Hx as [Hy Hl]. case_match; [done|]. constructor; auto.
Qed.

End StdMap.

(** ** The state along a table

    A point [v] puts the address space from its key on into the state [f v];
    [R d v] tells which points may follow the state [d]. *)

Section States.

Context {V S : Type} (f : V -> S) (R : S -> V -> Prop).

Implicit Types l : list (Z * V).

(** The state at [a], [d] in front of the first point. *)
Fixpoint state_at (d : S) (l : list (Z * V)) (a : Z) : S :=
  match l with
  | [] => d
  | (k, v) :: l' => if k <=? a then state_at (f v) l' a else d
  end.

Fixpoint chained (d : S) (l : list (Z * V)) : Prop :=
  match l with
  | [] => True
  | (_, v) :: l' => R d v /\ chained (f v) l'
  end.

Fixpoint last_state (d : S) (l : list (Z * V)) : S :=
  match l with
  | [] => d
  | (_, v) :: l' => last_state (f v) l'
  end.

Lemma chained_app d l1 l2 : chained d (l1 ++ l2) <-> chained d l1 /\ chained (last_state d l1) l2.
Proof. revert d; induction l1 as [|[k v] l1 IH]; intros d; cbn; [tauto|]. rewrite IH. tauto. Qed.

Lemma last_state_app d l1 l2 : last_state d (l1 ++ l2) = last_state (last_state d l1) l2.
Proof. revert d; induction l1 as [|[k v] l1 IH]; intros d; cbn; auto. Qed.

Lemma state_at_app d l1 l2 a :
  atmost a l1 -> state_at d (l1 ++ l2) a = state_at (last_state d l1) l2 a.
Proof.
  revert d; induction l1 as [|[k v] l1 IH]; intros d; cbn; [done|].
  intros [H1 H2]%Forall_cons_1. destruct (Z.leb_spec k a); [auto|cbn in *; lia].
Qed.

Lemma state_at_above d l a : above a l -> state_at d l a = d.
Proof.
  destruct l as [|[k v] l]; cbn; [done|]. intros [H1 H2]%Forall_cons_1.
  destruct (Z.leb_spec k a); [cbn in *; lia|done].
Qed.

Lemma state_at_prefix d l1 l2 a : above a l2 -> state_at d (l1 ++ l2) a = state_at d l1 a.
Proof.
  intros H. revert d; induction l1 as [|[k v] l1 IH]; intros d; cbn; [by apply state_at_above|].
  destruct (Z.leb_spec k a); auto.
Qed.

(** A point that does not change the state can be dropped. *)
Lemma erase_same d l1 k v l2 a :
  sorted (l1 ++ (k, v) :: l2) -> f v = last_state d l1 ->
  state_at d (l1 ++ l2) a = state_at d (l1 ++ (k, v) :: l2) a
  /\ last_state d (l1 ++ l2) = last_state d (l1 ++ (k, v) :: l2)
  /\ (chained d (l1 ++ (k, v) :: l2) -> chained d (l1 ++ l2)).
Proof.
  intros (_ & _ & H1 & H2)%sorted_mid Hv. rewrite !last_state_app, !chained_app. cbn. rewrite Hv.
  split_and!; [|done|tauto]. destruct (Z.leb_spec k a).
  - rewrite !state_at_app by (apply below_atmost, (below_mono k); [lia|done]). cbn.
    destruct (Z.leb_spec k a); [by rewrite Hv|lia].
  - rewrite !state_at_prefix; [done|constructor; [cbn; lia|]|]; by apply (above_mono k); [lia|].
Qed.

End States.
