(* ===== verification/RxMemory.v ===== *)
(** * Address ranges and the memory area table

    rx/include/rx/AddressRange.hpp, align.hpp and the MemoryAreaTable of
    MemoryTable.hpp.  The table keeps the mapped addresses as a std::map from
    addresses to points: O opens an area, X closes it.  A std::map is a list
    of pairs with increasing keys (StdMap).  The theorems show that map and
    unmap implement union and difference of address sets.  Each operation also
    returns the addresses it passes to handleInvalidation, where [None] stands
    for reading before begin(). *)

From stdpp Require Import base numbers list tactics.
From Stdlib Require Import Lia.
From S2P Require Import Prelude StdMap.

Open Scope Z_scope.

(** ** AddressRange *)

Record AddressRange := mk_range { beginAddress : Z; endAddress : Z }.

(** The default range is empty: begin = -1, end = 0. *)
Definition default_range : AddressRange := mk_range (wrap 64 (-1)) 0.

Definition fromBeginSize (b size : Z) : AddressRange := mk_range b (wrap 64 (b + size)).

Definition fromBeginEnd (b e : Z) : AddressRange := mk_range b e.

Definition isValid (r : AddressRange) : bool := beginAddress r <? endAddress r.

Definition intersects (r o : AddressRange) : bool :=
  (beginAddress r <? endAddress o) && (beginAddress o <? endAddress r).

Definition contains_range (r o : AddressRange) : bool :=
  (beginAddress r <=? beginAddress o) && (endAddress o <=? endAddress r).

Definition contains (r : AddressRange) (a : Z) : bool :=
  (beginAddress r <=? a) && (a <? endAddress r).

Definition merge (r o : AddressRange) : AddressRange :=
  fromBeginEnd (Z.min (beginAddress r) (beginAddress o)) (Z.max (endAddress r) (endAddress o)).

Definition intersection (r o : AddressRange) : AddressRange :=
  fromBeginEnd (Z.max (beginAddress r) (beginAddress o)) (Z.min (endAddress r) (endAddress o)).

Definition range_size (r : AddressRange) : Z := wrap 64 (endAddress r - beginAddress r).

(** alignUp and alignDown at the width [n] of the common type. *)
Definition alignUp (n value alignment : Z) : Z :=
  Z.land (wrap n (value + wrap n (alignment - 1))) (lnot_w n (alignment - 1)).

Definition alignDown (n value alignment : Z) : Z :=
  Z.land value (lnot_w n (alignment - 1)).

(** ** std::map of points *)

Inductive Kind := KO | KX.

#[global] Instance Kind_eq_dec : EqDecision Kind.
Proof. solve_decision. Defined.

Abbreviation points := (list (Z * Kind)).

(** ** MemoryAreaTable *)

(** The argument of handleInvalidation(std::prev(it)->first). *)
Definition prev_key (k : Z) (l : points) : option Z := fst <$> prev_pt k l.

(** queryArea; [None] is a failed assertion. *)
Definition queryArea (l : points) (address : Z) : option (Z * Z) :=
  match lower_bound address l with
  | None => None
  | Some (k, v) =>
      if negb (k =? address) then
        match v with
        | KX => p ← prev_pt k l; Some (fst p, k)
        | KO => None
        end
      else
        match v with
        | KO => n ← next_pt k l; Some (k, fst n)
        | KX => None
        end
  end.

(** while (beginIt != endIt) { ...; beginIt = erase(beginIt); }: [it] is the
    element in front of beginIt. *)
Fixpoint eat_middle (fuel : nat) (it endk : Z) (l : points) (inv : list (option Z))
    : option (points * list (option Z)) :=
  match fuel with
  | O => None
  | S fuel' =>
      match next_pt it l with
      | None => None
      | Some (k, _) =>
          if k =? endk then Some (l, inv)
          else eat_middle fuel' it endk (erase_pt k l) (inv ++ [prev_key endk l])
      end
  end.

(** The adjustment of beginIt in map. *)
Definition map_begin (b : Z) (inserted : bool) (l : points)
    : option (points * Z * list (option Z)) :=
  if negb inserted then
    match find_pt b l with
    | Some KX => p ← prev_pt b l; Some (l, fst p, [])
    | _ => Some (l, b, [])
    end
  else
    match prev_pt b l with
    | Some (k, KO) => Some (erase_pt b l, k, [Some b])
    | _ => Some (l, b, [])
    end.

(** The adjustment of endIt in map. *)
Definition map_end (e : Z) (inserted : bool) (l : points)
    : option (points * Z * list (option Z)) :=
  if negb inserted then
    match find_pt e l with
    | Some KO => n ← next_pt e l; Some (l, fst n, [])
    | _ => Some (l, e, [])
    end
  else
    match next_pt e l with
    | Some (k, KX) => Some (erase_pt e l, k, [prev_key e l])
    | _ => Some (l, e, [])
    end.

Definition map_area (l : points) (range : AddressRange)
    : option (points * list (option Z)) :=
  let b := beginAddress range in
  let e := endAddress range in
  let '(l1, beginInserted) := emplace_pt b KO l in
  let '(l2, endInserted) := emplace_pt e KX l1 in
  '(l3, beginIt, inv1) ← map_begin b beginInserted l2;
  '(l4, endIt, inv2) ← map_end e endInserted l3;
  eat_middle (length l4) beginIt endIt l4 (inv1 ++ inv2).

(** The erase loop of unmap from [it] up to keys not above [e]. *)
Fixpoint unmap_loop (fuel : nat) (it : option (Z * Kind)) (e : Z) (l : points)
    (lastKind : Kind) (inv : list (option Z)) : points * Kind * list (option Z) :=
  match fuel with
  | O => (l, lastKind, inv)
  | S fuel' =>
      match it with
      | Some (k, v) =>
          if k <=? e then
            let inv' := match v with KO => inv ++ [prev_key k l] | KX => inv end in
            unmap_loop fuel' (next_pt k l) e (erase_pt k l) v inv'
          else (l, lastKind, inv)
      | None => (l, lastKind, inv)
      end
  end.

(** The second half of unmap, from beginIt = [(k, v)]. *)
Definition unmap_from (b e : Z) (k : Z) (v : Kind) (l : points) (inv : list (option Z))
    : points * list (option Z) :=
  let '(l1, it, inv1) :=
    match v with
    | KX =>
        if b <? k then
          let l1 := erase_pt k (fst (emplace_pt b KX l)) in
          (l1, next_pt b l1, inv ++ [prev_key k l])
        else (l, next_pt k l, inv)
    | KO => (l, Some (k, v), inv)
    end in
  let '(l2, lastKind, inv2) := unmap_loop (S (length l1)) it e l1 KX inv1 in
  match lastKind with
  | KO => (fst (emplace_pt e KO l2), inv2)
  | KX => (l2, inv2)
  end.

Definition unmap_area (l : points) (b e : Z) : option (points * list (option Z)) :=
  match lower_bound b l with
  | None => Some (l, [])
  | Some (k, v) =>
      if e <=? k then
        match v with
        | KO => Some (l, [])
        | KX =>
            '(pk, pv) ← prev_pt k l;
            if e <=? pk then Some (l, [])
            else
              let '(l1, bk, bv, inv) :=
                if pk <? b then (fst (emplace_pt b KX l), b, KX, [Some pk])
                else (l, pk, pv, []) in
              if e <? k then Some (fst (emplace_pt e KO l1), inv)
              else Some (unmap_from b e bk bv l1 inv)
        end
      else Some (unmap_from b e k v l [])
  end.

(** totalMemory: the points in pairs. *)
Fixpoint totalMemory (l : points) : Z :=
  match l with
  | (b, _) :: (e, _) :: l' => wrap 64 (wrap 64 (e - b) + totalMemory l')
  | _ => 0
  end.

(** ** What a table represents *)

(** The kind of the last point not above an address; opening and closing
    points alternate, the last is closing. *)
Abbreviation kind_at := (state_at (fun v : Kind => v)).
Abbreviation chain := (chained (fun v : Kind => v) (fun d v => v <> d)).
Abbreviation lastk := (last_state (fun v : Kind => v)).

Definition mapped (l : points) (a : Z) : bool := bool_decide (kind_at KX l a = KO).

Record wf_table (l : points) : Prop := {
  wt_sorted : sorted l;
  wt_chain : chain KX l;
  wt_last : lastk KX l = KX
}.

(** ** Ranges as sets of addresses *)

Lemma intersection_contains r o a :
  contains (intersection r o) a = contains r a && contains o a.
Proof. unfold contains, intersection, fromBeginEnd. cbn. zbool; cbn; lia || done. Qed.

Lemma intersects_iff r o :
  isValid r = true -> isValid o = true ->
  intersects r o = true <-> exists a, contains r a = true /\ contains o a = true.
Proof.
  unfold isValid, intersects, contains. intros Hr Ho. split.
  - intros H. exists (Z.max (beginAddress r) (beginAddress o)). zbool; cbn in *; lia || done.
  - intros (a & H1 & H2). zbool; cbn in *; lia || done.
Qed.

Lemma contains_range_iff r o :
  isValid o = true ->
  contains_range r o = true <-> forall a, contains o a = true -> contains r a = true.
Proof.
  unfold isValid, contains_range, contains. intros Ho. split.
  - intros H a. zbool; cbn in *; lia || done.
  - intros H. pose proof (H (beginAddress o)) as H1. pose proof (H (endAddress o - 1)) as H2.
    zbool; cbn in *; lia || done.
Qed.

Lemma merge_contains r o a :
  contains r a || contains o a = true -> contains (merge r o) a = true.
Proof. unfold contains, merge, fromBeginEnd. cbn. intros H. zbool; cbn in *; lia || done. Qed.

(** alignDown rounds down to a multiple of a power of two. *)
Lemma alignDown_spec n v k :
  0 <= k < n -> urange n v -> alignDown n v (2 ^ k) = v - v mod 2 ^ k.
Proof.
  intros Hk Hv. unfold alignDown, lnot_w. unfold urange in Hv.
  pose proof (pow2_pos k ltac:(lia)).
  replace (v - v mod 2 ^ k) with (Z.shiftl (Z.shiftr v k) k).
  2: { rewrite Z.shiftl_mul_pow2, Z.shiftr_div_pow2 by lia.
       pose proof (Z.div_mod v (2 ^ k) ltac:(lia)). lia. }
  apply Z.bits_inj'. intros i Hi. rewrite Z.land_spec. unfold wrap.
  rewrite Z.shiftl_spec by lia. destruct (Z.ltb_spec i n) as [Hin|Hin].
  - rewrite Z.mod_pow2_bits_low, Z.lnot_spec by lia.
    rewrite Z.sub_1_r, <- Z.ones_equiv. destruct (Z.ltb_spec i k).
    + rewrite Z.ones_spec_low by lia. rewrite andb_false_r.
      symmetry. apply Z.testbit_neg_r. lia.
    + rewrite Z.ones_spec_high by lia. rewrite andb_true_r, Z.shiftr_spec by lia.
      f_equal. lia.
  - rewrite Z.mod_pow2_bits_high by lia. rewrite andb_false_r, Z.shiftr_spec by lia.
    replace (i - k + k) with i by lia. symmetry.
    rewrite <- (Z.mod_small v (2 ^ n)) by lia. apply Z.mod_pow2_bits_high. lia.
Qed.

(** alignUp is the next multiple, when it does not leave the type. *)
Lemma alignUp_spec n v k :
  0 <= k < n -> 0 <= v -> v + (2 ^ k - 1) < 2 ^ n ->
  let r := alignUp n v (2 ^ k) in v <= r < v + 2 ^ k /\ r mod 2 ^ k = 0.
Proof.
  intros Hk Hv Hlt. pose proof (pow2_pos k ltac:(lia)) as Hp.
  assert (Hkn : 2 ^ k <= 2 ^ n) by (apply Z.pow_le_mono_r; lia).
  unfold alignUp. rewrite !(wrap_id n) by (unfold urange; rewrite ?(wrap_id n); unfold urange; lia).
  fold (alignDown n (v + (2 ^ k - 1)) (2 ^ k)).
  rewrite alignDown_spec by (unfold urange; lia). cbv zeta.
  pose proof (Z.mod_pos_bound (v + (2 ^ k - 1)) (2 ^ k) Hp). split; [lia|].
  rewrite Zminus_mod_idemp_r, Z.sub_diag. apply Z.mod_0_l. lia.
Qed.

(** ** Map operations on a split table *)

Lemma last_kind (l : points) :
  lastk KX l = KO -> exists l' k, l = l' ++ [(k, KO)].
Proof.
  destruct (list.last l) as [[k v]|] eqn:E.
  - apply last_Some in E as [l' ->]. rewrite last_state_app. cbn. intros ->. eauto.
  - apply last_None in E as ->. done.
Qed.

Lemma kind_cases (v d : Kind) : v <> d -> (v = KO /\ d = KX) \/ (v = KX /\ d = KO).
Proof. destruct v, d; auto; done. Qed.

(** ** map *)

(** What map leaves in front of and behind the mapped range. *)
Definition map_front (lo : points) (b : Z) : points :=
  match lastk KX lo with KX => lo ++ [(b, KO)] | KO => lo end.

Definition map_back (d : Kind) (hi : points) (e : Z) : points :=
  match d with KX => (e, KX) :: hi | KO => hi end.

Lemma map_begin_ok b ins w lo rest :
  below b lo -> above b rest ->
  (ins = true /\ w = KO) \/ (ins = false /\ w <> lastk KX lo) ->
  exists l3 P bi G inv,
    map_begin b ins (lo ++ (b, w) :: rest) = Some (l3, bi, inv)
    /\ map_front lo b = P ++ [(bi, KO)] /\ l3 = P ++ (bi, KO) :: G ++ rest
    /\ (G = [] \/ (G = [(b, KX)] /\ bi < b)).
Proof.
  intros Hlo Hr Hins. unfold map_begin, map_front.
  assert (Hprev : prev_pt b (lo ++ (b, w) :: rest) = list.last lo).
  { apply prev_split; [done|]. constructor; [cbn; lia|by apply above_atleast]. }
  destruct Hins as [[-> ->]|[-> Hw]]; cbn [negb].
  - rewrite Hprev. destruct (list.last lo) as [[k v]|] eqn:E.
    + apply last_Some in E as [lo' ->]. rewrite last_state_app. cbn [last_state].
      destruct v.
      * rewrite erase_mid by done. exists ((lo' ++ [(k, KO)]) ++ rest), lo', k, [], [Some b].
        split; [done|]. split; [done|]. rewrite <- app_assoc. auto.
      * eexists _, _, b, [], []. split; [reflexivity|]. split; [done|]. auto.
    + apply last_None in E as ->. eexists _, [], b, [], []. split; [reflexivity|]. auto.
  - rewrite find_mid by done. destruct (kind_cases _ _ Hw) as [[-> Ed]|[-> Ed]]; rewrite Ed.
    + eexists _, _, b, [], []. split; [reflexivity|]. auto.
    + rewrite Hprev. destruct (last_kind lo Ed) as (lo' & k & ->).
      rewrite last_snoc. cbn [mbind option_bind fst].
      eexists _, lo', k, [(b, KX)], []. split; [reflexivity|]. split; [done|].
      rewrite <- app_assoc. split; [done|]. right. split; [done|].
      apply list.Forall_app in Hlo as [_ Hk]. by apply Forall_inv in Hk.
Qed.

Lemma map_end_ok e ins w d Q hi :
  below e Q -> above e hi -> chain d hi -> lastk d hi = KX ->
  (ins = true /\ w = KX) \/ (ins = false /\ w = d) ->
  exists l4 ei G S inv,
    map_end e ins (Q ++ (e, w) :: hi) = Some (l4, ei, inv)
    /\ map_back d hi e = (ei, KX) :: S /\ l4 = Q ++ G ++ (ei, KX) :: S
    /\ e <= ei /\ (G = [] \/ (G = [(e, KO)] /\ e < ei)).
Proof.
  intros HQ Hhi Hc Hl Hins. unfold map_end, map_back.
  assert (Hnext : next_pt e (Q ++ (e, w) :: hi) = head hi).
  { replace (Q ++ (e, w) :: hi) with ((Q ++ [(e, w)]) ++ hi) by (by rewrite <- app_assoc).
    apply next_split; [|done]. apply list.Forall_app. split; [by apply below_atmost|].
    constructor; [cbn; lia|done]. }
  destruct d.
  - destruct hi as [|[k v] hi]; [done|]. destruct Hc as [Hv Hc].
    destruct v; [done|]. apply Forall_inv in Hhi as Hk. cbn in Hk.
    destruct Hins as [[-> ->]|[-> ->]]; cbn [negb].
    + rewrite Hnext. cbn [head]. rewrite erase_mid by done.
      eexists _, k, [], hi, _. split; [reflexivity|]. split; [done|]. split; [done|].
      split; [lia|auto].
    + rewrite find_mid, Hnext by done. cbn [mbind option_bind head fst].
      eexists _, k, [(e, KO)], hi, _. split; [reflexivity|]. split; [done|]. split; [done|].
      split; [lia|auto].
  - assert (Hw : w = KX) by (by destruct Hins as [[_ ?]|[_ ?]]). subst w.
    assert (Hh : match head hi with Some (_, KX) => False | _ => True end).
    { destruct hi as [|[k v] hi]; [done|]. destruct Hc as [Hv _]. by destruct v. }
    exists (Q ++ (e, KX) :: hi), e, [], hi, []. destruct Hins as [[-> _]|[-> _]]; cbn [negb].
    + rewrite Hnext. split; [by destruct (head hi) as [[? []]|]|]. split; [done|].
      split; [done|]. split; [lia|auto].
    + rewrite find_mid by done. split; [done|]. split; [done|]. split; [done|]. split; [lia|auto].
Qed.

Lemma eat_middle_ok fuel P bi v G ei w H inv :
  sorted (P ++ (bi, v) :: G ++ (ei, w) :: H) -> (length G < fuel)%nat ->
  exists inv', eat_middle fuel bi ei (P ++ (bi, v) :: G ++ (ei, w) :: H) inv
               = Some (P ++ (bi, v) :: (ei, w) :: H, inv').
Proof.
  revert G inv; induction fuel as [|fuel IH]; intros G inv Hs Hf; [lia|].
  pose proof Hs as (HsP & HsG & HP & HG)%sorted_mid. cbn [eat_middle].
  assert (Hnext : next_pt bi (P ++ (bi, v) :: G ++ (ei, w) :: H) = head (G ++ (ei, w) :: H)).
  { replace (P ++ (bi, v) :: G ++ (ei, w) :: H) with ((P ++ [(bi, v)]) ++ G ++ (ei, w) :: H)
      by (by rewrite <- app_assoc).
    apply next_split; [|done]. apply list.Forall_app. split; [by apply below_atmost|].
    constructor; [cbn; lia|done]. }
  rewrite Hnext. destruct G as [|[k u] G]; cbn [app head].
  - rewrite Z.eqb_refl. eauto.
  - pose proof HsG as [Hk HsG']. apply list.Forall_app in Hk as [_ Hk].
    apply Forall_inv in Hk. cbn in Hk. destruct (Z.eqb_spec k ei); [lia|].
    assert (Ee : erase_pt k (P ++ (bi, v) :: (k, u) :: G ++ (ei, w) :: H)
                 = P ++ (bi, v) :: G ++ (ei, w) :: H).
    { replace (P ++ (bi, v) :: (k, u) :: G ++ (ei, w) :: H)
        with ((P ++ [(bi, v)]) ++ (k, u) :: G ++ (ei, w) :: H) by (by rewrite <- app_assoc).
      rewrite erase_mid.
      - by rewrite <- app_assoc.
      - apply Forall_inv in HG. cbn in HG. apply list.Forall_app. split.
        + revert HP. apply below_mono. lia.
        + constructor; [cbn; lia|done]. }
    rewrite Ee. apply IH; [|cbn in Hf; lia].
    apply sorted_mid. repeat split; try done. by apply Forall_cons_1 in HG as [_ HG].
Qed.

Lemma map_begin_sorted b ins l l3 bi inv :
  map_begin b ins l = Some (l3, bi, inv) -> sorted l -> sorted l3.
Proof.
  unfold map_begin. intros E Hs.
  repeat case_match; simplify_option_eq; try done; by apply erase_pt_sorted.
Qed.

Lemma map_end_sorted e ins l l4 ei inv :
  map_end e ins l = Some (l4, ei, inv) -> sorted l -> sorted l4.
Proof.
  unfold map_end. intros E Hs.
  repeat case_match; simplify_option_eq; try done; by apply erase_pt_sorted.
Qed.

(** The parts behind the range. *)
Lemma parts_back l b e lo ob mid oe hi :
  wf_table l -> parts l b e lo ob mid oe hi ->
  let d := lastk KX (lo ++ ob ++ mid ++ oe) in
  chain d hi /\ lastk d hi = KX /\ sorted hi.
Proof.
  intros [Hs Hc Hl] [-> _ _ _ _ _]. cbv zeta.
  rewrite !app_assoc in Hc, Hl, Hs. rewrite chained_app in Hc. rewrite last_state_app in Hl.
  rewrite sorted_app in Hs. rewrite <- !app_assoc in Hc, Hl. tauto.
Qed.

(** The two insertions of map. *)
Lemma map_emplace_ok l b e lo ob mid oe hi :
  wf_table l -> b < e -> parts l b e lo ob mid oe hi ->
  exists ins1 w1 ins2 w2,
    emplace_pt b KO l = (lo ++ (b, w1) :: mid ++ oe ++ hi, ins1)
    /\ emplace_pt e KX (lo ++ (b, w1) :: mid ++ oe ++ hi)
       = (lo ++ (b, w1) :: mid ++ (e, w2) :: hi, ins2)
    /\ (ins1 = true /\ w1 = KO \/ ins1 = false /\ w1 <> lastk KX lo)
    /\ (ins2 = true /\ w2 = KX \/ ins2 = false /\ w2 = lastk KX (lo ++ ob ++ mid ++ oe))
    /\ above b (mid ++ (e, w2) :: hi).
Proof.
  intros [Hs Hc Hl] Hbe [-> Hlo Hob [Hmb Hme] Hoe Hhi].
  assert (Hrest : forall w, above b (mid ++ (e, w) :: hi)).
  { intros w. apply list.Forall_app. split; [done|]. constructor; [cbn; lia|].
    revert Hhi. apply above_mono. lia. }
  assert (E1 : exists ins1 w1,
    emplace_pt b KO (lo ++ ob ++ mid ++ oe ++ hi) = (lo ++ (b, w1) :: mid ++ oe ++ hi, ins1)
    /\ (ins1 = true /\ w1 = KO \/ ins1 = false /\ w1 <> lastk KX lo)).
  { destruct Hob as [->|[v ->]].
    - exists true, KO. split; [|auto]. apply emplace_new; [done|].
      destruct Hoe as [->|[v ->]]; [|apply Hrest].
      apply list.Forall_app. split; [done|]. revert Hhi. apply above_mono. lia.
    - exists false, v. split; [by apply emplace_old|]. right. split; [done|].
      by apply chained_app in Hc as [_ [Hv _]]. }
  destruct E1 as (ins1 & w1 & E1 & Hw1).
  assert (HQ : below e (lo ++ (b, w1) :: mid)).
  { apply list.Forall_app. split; [revert Hlo; apply below_mono; lia|].
    constructor; [cbn; lia|done]. }
  exists ins1, w1. destruct Hoe as [->|[v ->]].
  - exists true, KX. split; [done|]. split; [|auto].
    pose proof (emplace_new e KX _ _ HQ Hhi) as E. rewrite <- !app_assoc in E. exact E.
  - exists false, v. split; [done|]. split; [|split; [done|split; [|done]]].
    + pose proof (emplace_old e KX v _ hi HQ) as E. rewrite <- !app_assoc in E. exact E.
    + right. split; [done|]. by rewrite !last_state_app.
Qed.

Lemma map_area_ok l b e lo ob mid oe hi :
  wf_table l -> b < e -> parts l b e lo ob mid oe hi ->
  exists inv, map_area l (mk_range b e)
    = Some (map_front lo b ++ map_back (lastk KX (lo ++ ob ++ mid ++ oe)) hi e, inv).
Proof.
  intros Hwf Hbe HP. destruct (parts_back _ _ _ _ _ _ _ _ Hwf HP) as (Hchi & Hlhi & _).
  destruct (map_emplace_ok _ _ _ _ _ _ _ _ Hwf Hbe HP)
    as (ins1 & w1 & ins2 & w2 & E1 & E2 & Hw1 & Hw2 & Hrest).
  set (d := lastk KX (lo ++ ob ++ mid ++ oe)) in *.
  assert (Hs2 : sorted (lo ++ (b, w1) :: mid ++ (e, w2) :: hi)).
  { replace (lo ++ (b, w1) :: mid ++ (e, w2) :: hi)
      with (fst (emplace_pt e KX (fst (emplace_pt b KO l))))
      by (rewrite E1; cbn [fst]; by rewrite E2).
    do 2 apply emplace_pt_sorted. apply Hwf. }
  unfold map_area. cbn [beginAddress endAddress]. rewrite E1, E2.
  destruct (map_begin_ok b ins1 w1 lo _ (pa_lo _ _ _ _ _ _ _ _ HP) Hrest Hw1)
    as (l3 & P & bi & G & inv1 & E3 & HF & -> & HG).
  rewrite E3. cbn [mbind option_bind].
  pose proof (map_begin_sorted _ _ _ _ _ _ E3 Hs2) as Hs3.
  replace (P ++ (bi, KO) :: G ++ mid ++ (e, w2) :: hi)
    with ((P ++ (bi, KO) :: G ++ mid) ++ (e, w2) :: hi) in *
    by (by rewrite <- !app_assoc; cbn; rewrite <- !app_assoc).
  pose proof Hs3 as (_ & _ & HQ3 & _)%sorted_mid.
  destruct (map_end_ok e ins2 w2 d _ hi HQ3 (pa_hi _ _ _ _ _ _ _ _ HP) Hchi Hlhi Hw2)
    as (l4 & ei & G' & S & inv2 & E4 & HS & -> & _ & _).
  rewrite E4. cbn [mbind option_bind].
  pose proof (map_end_sorted _ _ _ _ _ _ E4 Hs3) as Hs4.
  replace ((P ++ (bi, KO) :: G ++ mid) ++ G' ++ (ei, KX) :: S)
    with (P ++ (bi, KO) :: (G ++ mid ++ G') ++ (ei, KX) :: S) in *
    by (by rewrite <- !app_assoc; cbn; rewrite <- !app_assoc).
  destruct (eat_middle_ok (length (P ++ (bi, KO) :: (G ++ mid ++ G') ++ (ei, KX) :: S))
    P bi KO (G ++ mid ++ G') ei KX S (inv1 ++ inv2) Hs4) as [inv E5].
  { rewrite !length_app. cbn. rewrite !length_app. lia. }
  exists inv. rewrite E5, HF, HS. by rewrite <- app_assoc.
Qed.

(** ** unmap *)

Definition unmap_front (lo : points) (b : Z) : points :=
  match lastk KX lo with KO => lo ++ [(b, KX)] | KX => lo end.

Definition unmap_back (d : Kind) (hi : points) (e : Z) : points :=
  match d with KO => (e, KO) :: hi | KX => hi end.

Lemma unmap_loop_ok fuel F M hi e lk inv :
  sorted (F ++ M ++ hi) -> atmost e M -> above e hi -> (length M < fuel)%nat ->
  exists inv', unmap_loop fuel (head (M ++ hi)) e (F ++ M ++ hi) lk inv
               = (F ++ hi, lastk lk M, inv').
Proof.
  revert M lk inv; induction fuel as [|fuel IH]; intros M lk inv Hs HM Hhi Hf; [lia|].
  destruct M as [|[k v] M]; cbn [app head].
  - exists inv. destruct hi as [|[k v] hi]; [done|]. cbn. apply Forall_inv in Hhi. cbn in Hhi.
    by destruct (Z.leb_spec k e); [lia|].
  - cbn [unmap_loop]. apply Forall_cons_1 in HM as [Hk HM]. cbn in Hk.
    destruct (Z.leb_spec k e); [|lia].
    change (((k, v) :: M) ++ hi) with ((k, v) :: M ++ hi) in Hs.
    pose proof Hs as (HsF & HsM & HF & HMk)%sorted_mid.
    change (lastk lk ((k, v) :: M)) with (lastk v M).
    assert (Hnext : next_pt k (F ++ (k, v) :: M ++ hi) = head (M ++ hi)).
    { replace (F ++ (k, v) :: M ++ hi) with ((F ++ [(k, v)]) ++ M ++ hi)
        by (by rewrite <- app_assoc).
      apply next_split; [|done]. apply list.Forall_app. split; [by apply below_atmost|].
      constructor; [cbn; lia|done]. }
    rewrite Hnext, erase_mid by done. apply IH; [|done|done|cbn in Hf; lia].
    apply sorted_app. split; [done|]. split; [done|].
    apply sorted_app in Hs as (_ & _ & Hs). revert Hs. apply Forall_impl.
    intros p Hp. by apply Forall_cons_1 in Hp as [_ Hp].
Qed.

(** The end of unmap once the points to erase follow the new front. *)
Lemma unmap_tail F M hi e inv :
  sorted (F ++ M ++ hi) -> below e F -> atmost e M -> above e hi ->
  exists inv',
    (let '(l2, lastKind, inv2) :=
       unmap_loop (S (length (F ++ M ++ hi))) (head (M ++ hi)) e (F ++ M ++ hi) KX inv in
     match lastKind with
     | KO => (fst (emplace_pt e KO l2), inv2)
     | KX => (l2, inv2)
     end) = (F ++ unmap_back (lastk KX M) hi e, inv').
Proof.
  intros Hs HF HM Hhi.
  destruct (unmap_loop_ok (S (length (F ++ M ++ hi))) F M hi e KX inv Hs HM Hhi) as [inv' E].
  { rewrite !length_app. lia. }
  rewrite E. exists inv'. destruct (lastk KX M); [|done].
  by rewrite emplace_new.
Qed.

(** unmap_from on the three shapes of the first point. *)
Lemma unmap_from_ok b e lo k v r hi inv :
  b < e -> sorted (lo ++ (k, v) :: r ++ hi) -> below b lo -> b <= k <= e ->
  atmost e r -> above e hi -> v <> lastk KX lo ->
  exists inv', unmap_from b e k v (lo ++ (k, v) :: r ++ hi) inv
    = (unmap_front lo b ++ unmap_back (lastk v r) hi e, inv').
Proof.
  intros Hbe Hs Hlo Hk Hr Hhi Hv. unfold unmap_from, unmap_front.
  pose proof Hs as (HsF & HsM & HF & HMk)%sorted_mid.
  assert (Hloe : below e lo) by (revert Hlo; apply below_mono; lia).
  destruct (kind_cases _ _ Hv) as [[-> Hd]|[-> Hd]]; rewrite Hd.
  - pose proof (unmap_tail lo ((k, KO) :: r) hi e inv Hs Hloe) as T. apply T; [|done].
    by constructor; [cbn; lia|].
  - assert (HFb : below e (lo ++ [(b, KX)])).
    { apply list.Forall_app. split; [done|]. by constructor; [cbn; lia|]. }
    assert (Habove : above b (r ++ hi)) by (revert HMk; apply above_mono; lia).
    assert (Hs' : sorted ((lo ++ [(b, KX)]) ++ r ++ hi)).
    { rewrite <- app_assoc. apply sorted_mid. done. }
    assert (Hn : next_pt b ((lo ++ [(b, KX)]) ++ r ++ hi) = head (r ++ hi)).
    { apply next_split; [|done]. apply list.Forall_app. split; [by apply below_atmost|].
      by constructor; [cbn; lia|]. }
    destruct (Z.ltb_spec b k) as [Hbk|Hbk].
    + assert (E1 : erase_pt k (fst (emplace_pt b KX (lo ++ (k, KX) :: r ++ hi)))
                   = (lo ++ [(b, KX)]) ++ r ++ hi).
      { rewrite emplace_new; [|done|].
        2: { constructor; [done|]. revert HMk. apply above_mono. lia. }
        cbn [fst].
        replace (lo ++ (b, KX) :: (k, KX) :: r ++ hi)
          with ((lo ++ [(b, KX)]) ++ (k, KX) :: r ++ hi) by (by rewrite <- app_assoc).
        apply erase_mid. apply list.Forall_app. split; [done|]. by constructor. }
      rewrite E1, Hn. by apply unmap_tail.
    + assert (k = b) as -> by lia.
      replace (lo ++ (b, KX) :: r ++ hi) with ((lo ++ [(b, KX)]) ++ r ++ hi)
        by (by rewrite <- app_assoc).
      rewrite Hn. by apply unmap_tail.
Qed.

(** unmap inside one area, or up to its end. *)
Lemma unmap_inside_ok b e lo k hi' :
  b < e -> sorted (lo ++ (k, KX) :: hi') -> below b lo -> e <= k -> lastk KX lo = KO ->
  exists inv, unmap_area (lo ++ (k, KX) :: hi') b e
    = Some (lo ++ (b, KX) :: (if e <? k then (e, KO) :: (k, KX) :: hi' else hi'), inv).
Proof.
  intros Hbe Hs Hlo Hk Hd. pose proof Hs as (HsF & HsM & HF & HMk)%sorted_mid.
  unfold unmap_area.
  rewrite (lower_bound_split b lo ((k, KX) :: hi')); [|done|].
  2: { constructor; [cbn; lia|]. apply above_atleast. revert HMk. apply above_mono. lia. }
  cbn [head]. destruct (Z.leb_spec e k); [|lia].
  rewrite (prev_split k lo ((k, KX) :: hi')); [|done|].
  2: { constructor; [cbn; lia|]. by apply above_atleast. }
  destruct (last_kind lo Hd) as (lo' & pk & ->). rewrite last_snoc. cbn [mbind option_bind].
  assert (Hpk : pk < b). { apply list.Forall_app in Hlo as [_ H']. by apply Forall_inv in H'. }
  destruct (Z.leb_spec e pk); [lia|]. destruct (Z.ltb_spec pk b); [|lia].
  rewrite emplace_new; [|done|].
  2: { constructor; [cbn; lia|]. revert HMk. apply above_mono. lia. }
  cbn [fst]. destruct (Z.ltb_spec e k) as [Hek|Hek].
  - replace ((lo' ++ [(pk, KO)]) ++ (b, KX) :: (k, KX) :: hi')
      with (((lo' ++ [(pk, KO)]) ++ [(b, KX)]) ++ (k, KX) :: hi') by (by rewrite <- app_assoc).
    rewrite emplace_new.
    + cbn [fst]. rewrite <- app_assoc. by eexists.
    + apply list.Forall_app. split; [revert Hlo; apply below_mono; lia|]. by constructor.
    + constructor; [done|]. revert HMk. apply above_mono. lia.
  - assert (k = e) as -> by lia.
    set (lo := lo' ++ [(pk, KO)]) in *.
    destruct (unmap_from_ok b e lo b KX [(e, KX)] hi' [Some pk]) as [inv E]; try done.
    + cbn [app]. apply sorted_mid. split; [done|]. split; [by split|]. split; [done|].
      constructor; [done|]. revert HMk. apply above_mono. lia.
    + lia.
    + by constructor; [cbn; lia|].
    + by rewrite Hd.
    + cbn [app] in E. rewrite E. unfold unmap_front. rewrite Hd. cbn.
      rewrite <- app_assoc. by eexists.
Qed.

Lemma unmap_area_ok l b e lo ob mid oe hi :
  wf_table l -> b < e -> parts l b e lo ob mid oe hi ->
  exists inv, unmap_area l b e
    = Some (unmap_front lo b ++ unmap_back (lastk KX (lo ++ ob ++ mid ++ oe)) hi e, inv).
Proof.
  intros [Hs Hc Hl] Hbe [-> Hlo Hob [Hmb Hme] Hoe Hhi].
  assert (Hoee : atmost e oe) by (destruct Hoe as [->|[v ->]]; [done|by constructor; [cbn; lia|]]).
  assert (Hoeb : above b oe) by (destruct Hoe as [->|[v ->]]; [done|by constructor; [cbn; lia|]]).
  assert (Hhib : above b hi) by (revert Hhi; apply above_mono; lia).
  pose proof Hc as [_ Hc2]%chained_app.
  destruct (ob ++ mid) as [|[k v] r] eqn:Er.
  - apply app_eq_nil in Er as [-> ->]. cbn [app] in *.
    destruct (oe ++ hi) as [|[k v] r] eqn:Er.
    + apply app_eq_nil in Er as [-> ->]. rewrite !app_nil_r in *.
      exists []. unfold unmap_front, unmap_area.
      rewrite <- (app_nil_r lo) at 1. rewrite (lower_bound_split b lo []) by done. cbn.
      by rewrite Hl, app_nil_r.
    + destruct Hc2 as [Hv Hc2].
      assert (Hk : e <= k).
      { destruct Hoe as [->|[w ->]]; cbn in Er; [subst hi; apply Forall_inv in Hhi; cbn in Hhi; lia
          |injection Er as -> _ _; lia]. }
      destruct (kind_cases _ _ Hv) as [[-> Hd]|[-> Hd]].
      * exists []. unfold unmap_area, unmap_front. rewrite Hd.
        rewrite (lower_bound_split b lo ((k, KO) :: r)); [|done|].
        2: { rewrite <- Er. apply above_atleast, list.Forall_app. done. }
        cbn [head]. destruct (Z.leb_spec e k); [|lia]. do 2 f_equal.
        destruct Hoe as [->|[w ->]]; cbn in Er |- *; rewrite last_state_app, Hd; cbn; [by rewrite Er|].
        injection Er as -> -> ->. done.
      * destruct (unmap_inside_ok b e lo k r Hbe) as [inv E]; try done. exists inv. rewrite E.
        unfold unmap_front. rewrite Hd. rewrite last_state_app, Hd.
        destruct Hoe as [->|[w ->]]; cbn in Er |- *.
        -- subst hi. apply Forall_inv in Hhi. cbn in Hhi. destruct (Z.ltb_spec e k); [|lia].
           by rewrite <- app_assoc.
        -- injection Er as -> -> ->. rewrite Z.ltb_irrefl. by rewrite <- app_assoc.
  - assert (Hkr : b <= k <= e /\ k < e /\ atmost e r).
    { destruct Hob as [->|[w ->]]; cbn in Er.
      - subst mid. apply Forall_cons_1 in Hmb as [H1 _]. apply Forall_cons_1 in Hme as [H2 H3].
        cbn in *. split; [lia|]. split; [lia|]. by apply below_atmost.
      - injection Er as <- <- <-. split; [lia|]. split; [lia|]. by apply below_atmost. }
    destruct Hkr as (Hk & Hke & Hr).
    assert (El : lo ++ ob ++ mid ++ oe ++ hi = lo ++ (k, v) :: (r ++ oe) ++ hi).
    { rewrite (app_assoc ob), Er. cbn. by rewrite <- app_assoc. }
    rewrite El in *. rewrite (app_assoc ob mid), Er in Hc2. destruct Hc2 as [Hv _].
    pose proof Hs as (HsF & HsM & HF & HMk)%sorted_mid.
    destruct (unmap_from_ok b e lo k v (r ++ oe) hi []) as [inv E]; try done.
    { apply list.Forall_app. done. }
    exists inv. unfold unmap_area. rewrite (lower_bound_split b lo); [|done|].
    2: { constructor; [cbn; lia|]. apply above_atleast. revert HMk. apply above_mono. lia. }
    cbn [head]. destruct (Z.leb_spec e k); [lia|]. rewrite E. do 2 f_equal.
    by rewrite (app_assoc ob), Er, !last_state_app.
Qed.

(** ** The new table *)

Lemma front_back_wf F B :
  sorted (F ++ B) -> chain KX F -> chain (lastk KX F) B -> lastk (lastk KX F) B = KX ->
  wf_table (F ++ B).
Proof. intros. split; [done|by apply chained_app|by rewrite last_state_app]. Qed.

Lemma map_front_props lo b :
  chain KX lo -> chain KX (map_front lo b) /\ lastk KX (map_front lo b) = KO.
Proof.
  intros Hc. unfold map_front. destruct (lastk KX lo) eqn:E; [done|].
  rewrite chained_app, last_state_app, E. done.
Qed.

Lemma unmap_front_props lo b :
  chain KX lo -> chain KX (unmap_front lo b) /\ lastk KX (unmap_front lo b) = KX.
Proof.
  intros Hc. unfold unmap_front. destruct (lastk KX lo) eqn:E; [|done].
  rewrite chained_app, last_state_app, E. done.
Qed.

Lemma front_atmost (F lo : points) (b : Z) v :
  below b lo -> F = lo \/ F = lo ++ [(b, v)] -> atmost b F.
Proof.
  intros Hlo [->| ->]; [by apply below_atmost|]. apply list.Forall_app.
  split; [by apply below_atmost|]. by constructor; [cbn; lia|].
Qed.

Lemma back_atleast (B hi : points) (e : Z) v :
  above e hi -> B = hi \/ B = (e, v) :: hi -> atleast e B.
Proof.
  intros Hhi [->| ->]; [by apply above_atleast|].
  constructor; [cbn; lia|by apply above_atleast].
Qed.

Lemma parts_sorted_app (F B lo hi : points) b e v w :
  b < e -> sorted lo -> sorted hi -> below b lo -> above e hi ->
  F = lo \/ F = lo ++ [(b, v)] -> B = hi \/ B = (e, w) :: hi -> sorted (F ++ B).
Proof.
  intros Hbe Hl Hh Hlo Hhi HF HB. apply sorted_app.
  pose proof (front_atmost F lo b v Hlo HF) as HF'.
  pose proof (back_atleast B hi e w Hhi HB) as HB'. split; [|split].
  - destruct HF as [->| ->]; [done|]. apply sorted_app. split; [done|]. split; [done|].
    revert Hlo. apply Forall_impl. intros p Hp. by constructor.
  - by destruct HB as [->| ->].
  - revert HF'. apply Forall_impl. intros p Hp. revert HB'. apply Forall_impl.
    intros q Hq. lia.
Qed.

(** The kinds around a replaced range: [vf] inside, unchanged outside. *)
Lemma replaced_kind l b e lo ob mid oe hi F B vf a :
  b < e -> parts l b e lo ob mid oe hi ->
  (F = lo /\ lastk KX lo = vf \/ F = lo ++ [(b, vf)]) ->
  (B = hi /\ lastk KX (lo ++ ob ++ mid ++ oe) = vf
   \/ exists w, B = (e, w) :: hi /\ lastk KX (lo ++ ob ++ mid ++ oe) = w) ->
  kind_at KX (F ++ B) a
  = if (b <=? a) && (a <? e) then vf else kind_at KX l a.
Proof.
  intros Hbe [-> Hlo Hob [Hmb Hme] Hoe Hhi] HF HB.
  assert (HFb : atmost b F).
  { eapply (front_atmost F lo b vf); [done|]. by destruct HF as [[? _]|?]; auto. }
  assert (HBe : atleast e B).
  { destruct HB as [[-> _]|(w & -> & _)]; [by apply above_atleast|].
    constructor; [cbn; lia|by apply above_atleast]. }
  assert (HlF : lastk KX F = vf) by (destruct HF as [[-> ?]| ->]; [done|by rewrite last_state_app]).
  destruct (Z.leb_spec b a) as [Hba|Hba]; [destruct (Z.ltb_spec a e) as [Hae|Hae]|]; cbn [andb].
  - rewrite state_at_app, HlF.
    + apply state_at_above. revert HBe. apply Forall_impl. intros ? ?. lia.
    + revert HFb. apply Forall_impl. intros ? ?. lia.
  - rewrite state_at_app by (revert HFb; apply Forall_impl; intros ? ?; lia).
    replace (lo ++ ob ++ mid ++ oe ++ hi) with ((lo ++ ob ++ mid ++ oe) ++ hi)
      by (by rewrite <- !app_assoc).
    rewrite state_at_app, HlF.
    + destruct HB as [[-> ->]|(w & -> & ->)]; [done|]. cbn. by destruct (Z.leb_spec e a); [|lia].
    + rewrite !list.Forall_app. repeat split.
      * revert Hlo. apply Forall_impl. intros ? ?. lia.
      * destruct Hob as [->|[v ->]]; [done|]. by constructor; [cbn; lia|].
      * revert Hme. apply Forall_impl. intros ? ?. lia.
      * destruct Hoe as [->|[v ->]]; [done|]. by constructor; [cbn; lia|].
  - rewrite (state_at_prefix _ KX lo (ob ++ mid ++ oe ++ hi)).
    + assert (HB' : above a B) by (revert HBe; apply Forall_impl; intros ? ?; lia).
      rewrite state_at_prefix by done. destruct HF as [[-> _]| ->]; [done|].
      apply state_at_prefix. by constructor; [cbn; lia|].
    + rewrite !list.Forall_app. repeat split.
      * destruct Hob as [->|[v ->]]; [done|]. by constructor; [cbn; lia|].
      * revert Hmb. apply above_mono. lia.
      * destruct Hoe as [->|[v ->]]; [done|]. by constructor; [cbn; lia|].
      * revert Hhi. apply above_mono. lia.
Qed.

Lemma map_area_spec l b e :
  wf_table l -> b < e ->
  exists l' inv, map_area l (mk_range b e) = Some (l', inv) /\ wf_table l'
    /\ forall a, mapped l' a = mapped l a || contains (mk_range b e) a.
Proof.
  intros Hwf Hbe. destruct (split_range l b e (wt_sorted _ Hwf) Hbe) as (lo & ob & mid & oe & hi & HP).
  destruct (map_area_ok l b e lo ob mid oe hi Hwf Hbe HP) as [inv E].
  eexists _, inv. split; [exact E|]. set (d := lastk KX (lo ++ ob ++ mid ++ oe)).
  pose proof HP as [-> Hlo Hob Hm Hoe Hhi]. pose proof Hwf as [Hs Hc Hl].
  pose proof Hc as [Hclo _]%chained_app.
  destruct (map_front_props lo b Hclo) as [HcF HlF].
  assert (HF : map_front lo b = lo /\ lastk KX lo = KO \/ map_front lo b = lo ++ [(b, KO)]).
  { unfold map_front. destruct (lastk KX lo); auto. }
  assert (HB : map_back d hi e = hi /\ d = KO \/ map_back d hi e = (e, KX) :: hi /\ d = KX).
  { unfold map_back. destruct d; auto. }
  destruct (parts_back _ _ _ _ _ _ _ _ Hwf HP) as (Hd1 & Hd2 & Hd3).
  fold d in Hd1, Hd2. split.
  - apply front_back_wf; [|done|rewrite HlF..].
    + eapply (parts_sorted_app _ _ lo hi b e KO KX); try done.
      * by apply sorted_app in Hs as [? _].
      * by destruct HF as [[? _]|?]; auto.
      * destruct HB as [[? _]|[? _]]; auto.
    + destruct HB as [[-> Ed]|[-> Ed]]; rewrite Ed in *; done.
    + destruct HB as [[-> Ed]|[-> Ed]]; rewrite Ed in *; done.
  - intros a. unfold mapped.
    rewrite (replaced_kind _ b e lo ob mid oe hi (map_front lo b) (map_back d hi e) KO a Hbe HP HF).
    + unfold contains. cbn. destruct ((b <=? a) && (a <? e)); [by rewrite orb_true_r|by rewrite orb_false_r].
    + destruct HB as [[? ?]|[? ?]]; [by left|right; by exists KX].
Qed.

Lemma unmap_area_spec l b e :
  wf_table l -> b < e ->
  exists l' inv, unmap_area l b e = Some (l', inv) /\ wf_table l'
    /\ forall a, mapped l' a = mapped l a && negb (contains (mk_range b e) a).
Proof.
  intros Hwf Hbe. destruct (split_range l b e (wt_sorted _ Hwf) Hbe) as (lo & ob & mid & oe & hi & HP).
  destruct (unmap_area_ok l b e lo ob mid oe hi Hwf Hbe HP) as [inv E].
  eexists _, inv. split; [exact E|]. set (d := lastk KX (lo ++ ob ++ mid ++ oe)).
  pose proof HP as [-> Hlo Hob Hm Hoe Hhi]. pose proof Hwf as [Hs Hc Hl].
  pose proof Hc as [Hclo _]%chained_app.
  destruct (unmap_front_props lo b Hclo) as [HcF HlF].
  assert (HF : unmap_front lo b = lo /\ lastk KX lo = KX \/ unmap_front lo b = lo ++ [(b, KX)]).
  { unfold unmap_front. destruct (lastk KX lo); auto. }
  assert (HB : unmap_back d hi e = hi /\ d = KX \/ unmap_back d hi e = (e, KO) :: hi /\ d = KO).
  { unfold unmap_back. destruct d; auto. }
  destruct (parts_back _ _ _ _ _ _ _ _ Hwf HP) as (Hd1 & Hd2 & Hd3).
  fold d in Hd1, Hd2. split.
  - apply front_back_wf; [|done|rewrite HlF..].
    + eapply (parts_sorted_app _ _ lo hi b e KX KO); try done.
      * by apply sorted_app in Hs as [? _].
      * by destruct HF as [[? _]|?]; auto.
      * destruct HB as [[? _]|[? _]]; auto.
    + destruct HB as [[-> Ed]|[-> Ed]]; rewrite Ed in *; done.
    + destruct HB as [[-> Ed]|[-> Ed]]; rewrite Ed in *; done.
  - intros a. unfold mapped.
    rewrite (replaced_kind _ b e lo ob mid oe hi (unmap_front lo b) (unmap_back d hi e) KX a Hbe HP HF).
    + unfold contains. cbn. destruct ((b <=? a) && (a <? e)); cbn; [by rewrite andb_false_r|by rewrite andb_true_r].
    + destruct HB as [[? ?]|[? ?]]; [by left|right; by exists KO].
Qed.

(** ** queryArea *)

(** The maximal mapped interval around an address. *)
Definition enclosing (l : points) (a x y : Z) : Prop :=
  x <= a < y /\ (forall z, x <= z < y -> mapped l z = true)
  /\ mapped l (x - 1) = false /\ mapped l y = false.

Lemma area_enclosing lo x y hi a :
  wf_table (lo ++ (x, KO) :: (y, KX) :: hi) -> x <= a < y ->
  enclosing (lo ++ (x, KO) :: (y, KX) :: hi) a x y.
Proof.
  intros [Hs Hc Hl] Ha. apply sorted_mid in Hs as (_ & [Hy _] & Hlo & Hx).
  apply chained_app in Hc as [_ [Hv _]].
  assert (Hlast : lastk KX lo = KX) by (by destruct (lastk KX lo)).
  assert (Hk : forall z, x <= z -> kind_at KX (lo ++ (x, KO) :: (y, KX) :: hi) z
                     = kind_at KO ((y, KX) :: hi) z).
  { intros z Hz. rewrite state_at_app; [|revert Hlo; apply Forall_impl; intros ? ?; lia].
    cbn. by destruct (Z.leb_spec x z); [|lia]. }
  unfold enclosing, mapped. split; [done|]. split; [|split].
  - intros z Hz. rewrite Hk by lia. cbn. by destruct (Z.leb_spec y z); [lia|].
  - rewrite state_at_app, Hlast; [|revert Hlo; apply Forall_impl; intros ? ?; lia].
    cbn. by destruct (Z.leb_spec x (x - 1)); [lia|].
  - rewrite Hk by lia. cbn. destruct (Z.leb_spec y y); [|lia]. by rewrite state_at_above.
Qed.

Lemma queryArea_ok l a :
  wf_table l ->
  (mapped l a = true -> exists x y, queryArea l a = Some (x, y) /\ enclosing l a x y)
  /\ (mapped l a = false -> queryArea l a = None).
Proof.
  intros Hwf. pose proof Hwf as [Hs Hc Hl].
  destruct (split_at a l Hs) as (lo & hi & -> & Hlo & Hhi).
  pose proof Hc as [_ Hchi]%chained_app. rewrite last_state_app in Hl.
  pose proof Hs as (_ & Hshi & _)%sorted_app.
  assert (Hka : atmost a lo) by by apply below_atmost.
  unfold queryArea. rewrite lower_bound_split by done.
  unfold mapped. rewrite state_at_app by done.
  destruct (split_point a hi Hshi Hhi) as [(v & hi' & -> & Hab)|Hab].
  - cbn [head state_at]. destruct (Z.leb_spec a a); [|lia]. rewrite (state_at_above _ v) by done.
    rewrite Z.eqb_refl. cbn [negb]. destruct v; [|split; [by rewrite bool_decide_false|done]].
    split; [|by rewrite bool_decide_true]. intros _.
    destruct hi' as [|[y w] hi']; [done|]. destruct Hchi as [_ [Hw _]].
    destruct w; [done|].
    assert (Hn : next_pt a (lo ++ (a, KO) :: (y, KX) :: hi') = Some (y, KX)).
    { replace (lo ++ (a, KO) :: (y, KX) :: hi') with ((lo ++ [(a, KO)]) ++ (y, KX) :: hi')
        by (by rewrite <- app_assoc).
      rewrite next_split; [done| |done]. apply list.Forall_app. split; [done|].
      by constructor; [cbn; lia|]. }
    rewrite Hn. cbn [mbind option_bind fst].
    exists a, y. split; [done|]. apply area_enclosing; [done|].
    apply Forall_inv in Hab. cbn in Hab. lia.
  - rewrite state_at_above by done. destruct hi as [|[k v] hi].
    { cbn [head]. cbn in Hl. rewrite Hl. split; [by rewrite bool_decide_false|done]. }
    cbn [head]. destruct Hchi as [Hv _]. pose proof Hab as [Hk Hab']%Forall_cons_1. cbn in Hk.
    destruct (Z.eqb_spec k a); [lia|]. cbn [negb].
    destruct (kind_cases _ _ Hv) as [[-> Hd]|[-> Hd]]; rewrite Hd.
    + split; [by rewrite bool_decide_false|done].
    + split; [|by rewrite bool_decide_true]. intros _.
      pose proof Hs as (_ & _ & Hlok & Hhik)%sorted_mid.
      rewrite prev_split; [|done|constructor; [cbn; lia|by apply above_atleast]].
      destruct (last_kind lo Hd) as (lo' & x & ->). rewrite last_snoc. cbn.
      exists x, k. split; [done|]. rewrite <- app_assoc in *. cbn [app] in *.
      apply area_enclosing; [done|]. rewrite list.Forall_app in Hlo. destruct Hlo as [_ Hx].
      apply Forall_inv in Hx. cbn in Hx. lia.
Qed.

(** ** Properties *)

(** C35: MemoryAreaTable implements a set of addresses: on a well-formed table
    (increasing addresses, alternating opening and closing points) and a
    non-empty range, map and unmap finish without a failed assertion, keep the
    table well formed, and make exactly the addresses of the range mapped, or
    unmapped, in addition to what was; queryArea of a mapped address returns
    the maximal mapped area around it, and asserts for an unmapped one. *)
Theorem area_table_refines (l : points) (b e : Z) :
  wf_table l -> b < e ->
  (exists l' inv, map_area l (fromBeginEnd b e) = Some (l', inv) /\ wf_table l'
     /\ forall a, mapped l' a = mapped l a || contains (fromBeginEnd b e) a)
  /\ (exists l' inv, unmap_area l b e = Some (l', inv) /\ wf_table l'
     /\ forall a, mapped l' a = mapped l a && negb (contains (fromBeginEnd b e) a))
  /\ (forall a, mapped l a = true ->
        exists x y, queryArea l a = Some (x, y) /\ x <= a < y
          /\ (forall z, x <= z < y -> mapped l z = true)
          /\ mapped l (x - 1) = false /\ mapped l y = false)
  /\ (forall a, mapped l a = false -> queryArea l a = None).
Proof.
  intros Hwf Hbe. split; [by apply map_area_spec|]. split; [by apply unmap_area_spec|].
  split; intros a Ha; destruct (queryArea_ok l a Hwf) as [Q1 Q2]; auto.
Qed.

Lemma area_table_refines_witness :
  exists l' inv, unmap_area [(10, KO); (30, KX); (40, KO); (50, KX)] 20 45 = Some (l', inv)
    /\ wf_table l' /\ mapped l' 15 = true /\ mapped l' 20 = false /\ mapped l' 45 = true.
Proof.
  destruct (area_table_refines [(10, KO); (30, KX); (40, KO); (50, KX)] 20 45)
    as (_ & (l' & inv & E & W & H) & _).
  - split; [|by repeat split|done]. cbn. repeat split; repeat constructor; cbn; lia.
  - lia.
  - exists l', inv. split; [done|]. split; [done|]. rewrite !H. vm_compute. done.
Defined.

(** Unmap reads before the first element of the map: when the range
    starts at or before the first point and reaches it, the first point is an
    opening one and std::prev(beginIt) is applied to begin() for the argument
    of handleInvalidation. *)
Theorem unmap_reads_before_begin (k : Z) (l : points) (b e : Z) :
  wf_table ((k, KO) :: l) -> b <= k < e ->
  exists l' inv, unmap_area ((k, KO) :: l) b e = Some (l', None :: inv).
Proof.
  intros [Hs Hc Hl] Hk. unfold unmap_area. cbn [lower_bound].
  destruct (Z.ltb_spec k b); [lia|]. destruct (Z.leb_spec e k); [lia|].
  unfold unmap_from. cbn [length]. generalize (S (length l)) as fuel. intros fuel.
  cbn [unmap_loop]. destruct (Z.leb_spec k e); [|lia].
  assert (Hp : prev_key k ((k, KO) :: l) = None).
  { unfold prev_key, prev_pt. cbn. by rewrite Z.ltb_irrefl. }
  rewrite Hp. cbn [app].
  assert (Hinv : forall n it l0 lk inv, exists r lk' inv',
    unmap_loop n it e l0 lk (None :: inv) = (r, lk', None :: inv')).
  { clear. intros n; induction n as [|n IH]; intros it l0 lk inv; cbn; [eauto|].
    destruct it as [[x v]|]; [|eauto]. case_match; [|eauto]. destruct v; apply IH. }
  destruct (Hinv fuel (next_pt k ((k, KO) :: l)) (erase_pt k ((k, KO) :: l)) KO [])
    as (r & lk' & inv' & E).
  rewrite E. destruct lk'; eauto.
Qed.

Lemma unmap_reads_before_begin_witness :
  unmap_area [(10, KO); (30, KX)] 0 20 = Some ([(20, KO); (30, KX)], [None]).
Proof.
  destruct (unmap_reads_before_begin 10 [(30, KX)] 0 20) as (l' & inv & E).
  - split; [|by repeat split|done]. cbn. repeat split; repeat constructor; cbn; lia.
  - lia.
  - rewrite E. vm_compute in E. injection E as <- <-. reflexivity.
Defined.
