(* ===== verification/MemTable.v ===== *)
(** * The memory table with payloads

    rx::Payload and rx::MemoryTableWithPayload of
    rx/include/rx/MemoryTable.hpp.  The table is a std::map from addresses to
    points: O opens an area and carries its payload, X closes one, XO closes an
    area and opens the next.  [None] results are failed assertions, iterators
    outside the map, or an exhausted loop.  The theorems show that map and
    unmap replace the payload of exactly the given addresses, and that
    iterators visit the areas in order.

    lastRemovedOpenPayload is read only when lastRemovedIsOpen is true; the two
    variables are one [option]. *)

From stdpp Require Import base numbers list tactics.
From Stdlib Require Import Lia.
From S2P Require Import Prelude StdMap RxMemory.

Open Scope Z_scope.

Section Table.

Context {T : Type} `{EqDecision T}.

(** ** Payload *)

Inductive Payload :=
| PO (data : T)
| PX
| PXO (data : T).

#[global] Instance Payload_eq_dec : EqDecision Payload.
Proof. solve_decision. Defined.

Abbreviation mtable := (list (Z * Payload)).

Definition isOpen (x : Payload) : bool := match x with PO _ => true | _ => false end.
Definition isClose (x : Payload) : bool := match x with PX => true | _ => false end.
Definition isCloseOpen (x : Payload) : bool := match x with PXO _ => true | _ => false end.

Definition get (x : Payload) : option T :=
  match x with
  | PO v | PXO v => Some v
  | PX => None
  end.

(** The point with the new payload, and the old payload. *)
Definition exchange (data : T) (x : Payload) : option (Payload * T) :=
  match x with
  | PO v => Some (PO data, v)
  | PXO v => Some (PXO data, v)
  | PX => None
  end.

Definition setCloseOpen (x : Payload) : option Payload :=
  match x with
  | PO v | PXO v => Some (PXO v)
  | PX => None
  end.

Definition setOpen (x : Payload) : option Payload :=
  match x with
  | PO v | PXO v => Some (PO v)
  | PX => None
  end.

(** it->second.setCloseOpen() *)
Definition set_close_open (k : Z) (l : mtable) : option mtable :=
  x ← find_pt k l; y ← setCloseOpen x; Some (set_pt k y l).

(** ** map *)

(** The begin point was there: the table, seenOpen and the removed payload. *)
Definition map_at_begin (b : Z) (p : T) (l : mtable) : option (mtable * bool * option T) :=
  x ← find_pt b l;
  if isClose x then Some (set_pt b (PXO p) l, false, None)
  else '(y, old) ← exchange p x; Some (set_pt b y l, true, Some old).

(** The end point was there: the table and endCollision. *)
Definition map_at_end (e : Z) (l : mtable) : option (mtable * bool) :=
  x ← find_pt e l;
  if isOpen x then l1 ← set_close_open e l; Some (l1, false) else Some (l, true).

(** Both points are new: the area in front of the begin point. *)
Definition map_after_prev (b : Z) (l : mtable) : option (mtable * bool * option T) :=
  match prev_pt b l with
  | None => Some (l, false, None)
  | Some (_, q) =>
      if isClose q then Some (l, false, None)
      else l1 ← set_close_open b l; v ← get q; Some (l1, true, Some v)
  end.

(** The table, seenOpen, endCollision and the removed payload. *)
Definition map_ends (b e : Z) (p : T) (beginInserted endInserted : bool) (l : mtable)
    : option (mtable * bool * bool * option T) :=
  if negb beginInserted || negb endInserted then
    '(l1, seen, last) ← (if negb beginInserted then map_at_begin b p l else Some (l, false, None));
    if negb endInserted then '(l2, collision) ← map_at_end e l1; Some (l2, seen, collision, None)
    else Some (l1, seen, false, last)
  else
    '(l1, seen, last) ← map_after_prev b l; Some (l1, seen, false, last).

(** The loop over the points between the begin and the end point. *)
Fixpoint map_loop (fuel : nat) (b e : Z) (l : mtable) (seen : bool) (last : option T)
    : option (mtable * bool * option T) :=
  match fuel with
  | O => None
  | S fuel' =>
      '(k, x) ← next_pt b l;
      if k =? e then Some (l, seen, last)
      else if isClose x then
        l1 ← (if seen then Some l else set_close_open b l);
        map_loop fuel' b e (erase_pt k l1) seen None
      else
        l1 ← (if negb seen && isCloseOpen x then set_close_open b l else Some l);
        v ← get x;
        map_loop fuel' b e (erase_pt k l1) true (Some v)
  end.

Definition map_finish (b e : Z) (seen collision : bool) (last : option T) (l : mtable) : option mtable :=
  if collision && negb seen then set_close_open b l
  else
    match last with
    | Some v => Some (if collision then l else set_pt e (PXO v) l)
    | None => Some l
    end.

(** The merging with an equal area in front; the table and origBegin. *)
Definition merge_prev (b : Z) (l : mtable) : option (mtable * Z) :=
  x ← find_pt b l;
  if isCloseOpen x then
    '(k, q) ← prev_pt b l; v ← get q; w ← get x;
    Some (if decide (v = w) then (erase_pt b l, k) else (l, b))
  else Some (l, b).

(** The merging with an equal area behind. *)
Definition merge_next (o e : Z) (l : mtable) : option mtable :=
  y ← find_pt e l;
  if isCloseOpen y then
    v ← get y; z ← find_pt o l; w ← get z;
    Some (if decide (v = w) then erase_pt e l else l)
  else Some l.

Definition map_merge (b e : Z) (l : mtable) : option (mtable * Z) :=
  '(l1, o) ← merge_prev b l; l2 ← merge_next o e l1; Some (l2, o).

(** MemoryTableWithPayload::map: the table and the iterator returned. *)
Definition mt_map (range : AddressRange) (p : T) (merge noOverride : bool) (l : mtable) : option (mtable * Z) :=
  let b := beginAddress range in
  let e := endAddress range in
  if negb (isValid range) then None
  else
    let '(l1, bi) := emplace_pt b (PO p) l in
    let '(l2, ei) := emplace_pt e PX l1 in
    x ← find_pt b l2;
    '(k, _) ← next_pt b l2;
    if noOverride && negb bi && negb ei && (k =? e) && negb (isClose x) then Some (l2, b)
    else
      '(l3, seen, collision, last) ← map_ends b e p bi ei l2;
      '(l4, seen, last) ← map_loop (length l3) b e l3 seen last;
      l5 ← map_finish b e seen collision last l4;
      if merge then map_merge b e l5 else Some (l5, b).

(** ** unmap *)

(** unmap(iterator): the table, and the iterator behind the area. *)
Definition unmap_it (it : Z) (l : mtable) : option (mtable * option Z) :=
  x ← find_pt it l;
  '(c, y) ← next_pt it l;
  let l1 := if isCloseOpen x then set_pt it PX l else erase_pt it l in
  if isCloseOpen y then z ← setOpen y; Some (set_pt c z l1, Some c)
  else Some (erase_pt c l1, fst <$> next_pt c l1).

(** unmap(range); [d] is PayloadT{}. *)
Definition mt_unmap (d : T) (range : AddressRange) (l : mtable) : option (mtable * option Z) :=
  '(l1, it) ← mt_map range d false false l; unmap_it it l1.

(** ** Iterators and queries *)

Definition mt_begin (l : mtable) : option Z := fst <$> head l.

(** operator++, from the element [it]. *)
Definition it_next (it : Z) (l : mtable) : option (option Z) :=
  '(k, x) ← next_pt it l;
  Some (if isCloseOpen x then Some k else fst <$> next_pt k l).

(** operator--, from an element or end(). *)
Definition it_prev (it : option Z) (l : mtable) : option Z :=
  '(k, x) ← match it with Some i => prev_pt i l | None => list.last l end;
  if isClose x then fst <$> prev_pt k l else Some k.

(** range() *)
Definition it_range (it : Z) (l : mtable) : option AddressRange :=
  '(k, _) ← next_pt it l; Some (fromBeginEnd it k).

Definition it_get (it : Z) (l : mtable) : option T := find_pt it l ≫= get.

(** lowerBound; the outer [None] is a decrement of begin(). *)
Definition lowerBound (address : Z) (l : mtable) : option (option Z) :=
  match lower_bound address l with
  | None => Some None
  | Some (k, x) =>
      if k =? address then Some (if isClose x then fst <$> next_pt k l else Some k)
      else if negb (isOpen x) then '(j, _) ← prev_pt k l; Some (Some j)
      else Some (Some k)
  end.

Definition mt_queryArea (address : Z) (l : mtable) : option (option Z) :=
  match lower_bound address l with
  | None => Some None
  | Some (k, x) =>
      if k =? address then
        if isClose x then Some None
        else '(n, _) ← next_pt k l; Some (if n <? address then None else Some k)
      else if isOpen x then Some None
      else '(j, _) ← prev_pt k l; Some (if k <? address then None else Some j)
  end.

(** for (auto area : *this): begin, end and payload of the areas. *)
Fixpoint iterate (fuel : nat) (it : option Z) (l : mtable) : option (list (Z * Z * T)) :=
  match it with
  | None => Some []
  | Some k =>
      match fuel with
      | O => None
      | S fuel' =>
          v ← it_get k l; r ← it_range k l; it' ← it_next k l; rest ← iterate fuel' it' l;
          Some ((beginAddress r, endAddress r, v) :: rest)
      end
  end.

Definition mt_areas (l : mtable) : option (list (Z * Z * T)) := iterate (length l) (mt_begin l) l.

(** ** What a table represents *)

(** The points that may follow an address without area ([None]) or inside one. *)
Definition link (s : option T) (x : Payload) : Prop :=
  match s with
  | None => isOpen x = true
  | Some _ => isOpen x = false
  end.

Abbreviation state := (last_state get).

(** The payload at an address. *)
Definition mt_at (l : mtable) (a : Z) : option T := state_at get None l a.

Record wf_mt (l : mtable) : Prop := {
  wm_sorted : sorted l;
  wm_chain : chained get link None l;
  wm_last : state None l = None
}.

(** The point between the states [s] and [s']. *)
Definition pt (s s' : option T) : Payload :=
  match s', s with
  | None, _ => PX
  | Some v, None => PO v
  | Some v, Some _ => PXO v
  end.

(** The table after map without merging. *)
Definition mapped_points (lo : mtable) (b e : Z) (p : T) (s : option T) (hi : mtable) : mtable :=
  lo ++ (b, pt (state None lo) (Some p)) :: (e, pt (Some p) s) :: hi.

(** ** The steps of map on a split table *)

Lemma link_pt s x : link s x -> x = pt s (get x).
Proof. by destruct s, x. Qed.

Lemma get_pt s s' : get (pt s s') = s'.
Proof. by destruct s, s'. Qed.

Lemma set_close_open_mid b y p lo r :
  below b lo -> get y = Some p -> set_close_open b (lo ++ (b, y) :: r) = Some (lo ++ (b, PXO p) :: r).
Proof.
  intros Hb Hy. unfold set_close_open. rewrite find_mid by done. cbn.
  destruct y; simplify_eq/=; by rewrite set_mid.
Qed.

(** The begin point after the loop. *)
Definition loop_begin (seen : bool) (p : T) (mid : mtable) (y : Payload) : Payload :=
  match mid with
  | (_, x) :: _ => if seen || isOpen x then y else PXO p
  | [] => y
  end.

Definition opens (mid : mtable) : bool := existsb (fun q => negb (isClose (snd q))) mid.

Lemma loop_begin_seen p mid y : loop_begin true p mid y = y.
Proof. by destruct mid as [|[]]. Qed.

Lemma loop_begin_xo seen p mid : loop_begin seen p mid (PXO p) = PXO p.
Proof. destruct mid as [|[]]; cbn; [done|]. by destruct (_ || _). Qed.

Lemma map_loop_ok fuel lo b y mid e ye hi seen last p s :
  sorted (lo ++ (b, y) :: mid ++ (e, ye) :: hi) -> chained get link s mid -> get y = Some p ->
  (length mid < fuel)%nat ->
  map_loop fuel b e (lo ++ (b, y) :: mid ++ (e, ye) :: hi) seen last
  = Some (lo ++ (b, loop_begin seen p mid y) :: (e, ye) :: hi, seen || opens mid,
          match mid with [] => last | _ => state s mid end).
Proof.
  revert fuel y seen last s. induction mid as [|[k x] mid IH]; intros [|fuel] y seen last s Hs Hc Hy Hf; cbn in Hf; try lia.
  all: pose proof Hs as (_ & _ & Hlo & Hhi)%sorted_mid; cbn [map_loop].
  all: rewrite next_mid by done; cbn [app head mbind option_bind].
  - rewrite Z.eqb_refl. cbn. by rewrite orb_false_r.
  - apply sorted_mid in Hs as (S1 & S2 & _). cbn [app] in S2. pose proof S2 as S3.
    apply (sorted_mid [] k x) in S3 as (_ & S3 & _ & Hk).
    assert (k < e) as Hke. { apply list.Forall_app in Hk as [_ Hk]. by apply Forall_inv in Hk. }
    destruct (Z.eqb_spec k e); [lia|]. destruct Hc as [Hl Hc].
    assert (Hs' : forall z, sorted (lo ++ (b, z) :: mid ++ (e, ye) :: hi)).
    { intros z. apply sorted_mid. split_and!; try done. by apply Forall_cons_1 in Hhi as [_ Hhi]. }
    assert (He : forall z, erase_pt k (lo ++ (b, z) :: (k, x) :: mid ++ (e, ye) :: hi) = lo ++ (b, z) :: mid ++ (e, ye) :: hi).
    { intros z. replace (lo ++ (b, z) :: (k, x) :: mid ++ (e, ye) :: hi)
        with ((lo ++ [(b, z)]) ++ (k, x) :: mid ++ (e, ye) :: hi) by (by rewrite <- app_assoc).
      rewrite erase_mid; [by rewrite <- app_assoc|]. apply Forall_cons_1 in Hhi as [Hbk _]. cbn in Hbk.
      apply list.Forall_app. split; [by apply (below_mono b); [lia|]|by constructor]. }
    assert (Hst : match mid with [] => get x | _ => state (get x) mid end = state (get x) mid) by (by destruct mid).
    destruct x, seen; cbn [isClose isCloseOpen negb andb mbind option_bind get] in *;
      rewrite ?(set_close_open_mid b y p) by done; cbn [mbind option_bind];
      rewrite He; erewrite IH by (done || (cbn; lia)); do 3 f_equal;
      rewrite ?Hst, ?orb_true_r, ?orb_false_r, ?loop_begin_seen, ?loop_begin_xo; done.
Qed.

(** Inserting the two end points. *)
Definition point_or (d : Payload) (o : mtable) : Payload := match o with (_, x) :: _ => x | [] => d end.

Definition is_nil (o : mtable) : bool := match o with [] => true | _ => false end.

Lemma emplace_opt k d lo o hi :
  (o = [] \/ exists v, o = [(k, v)]) -> below k lo -> above k hi ->
  emplace_pt k d (lo ++ o ++ hi) = (lo ++ (k, point_or d o) :: hi, is_nil o).
Proof. intros [->|[v ->]] Hlo Hhi; cbn; [by rewrite emplace_new|by rewrite emplace_old]. Qed.

Lemma below_front b e (lo mid : mtable) y : b < e -> below b lo -> below e mid -> below e (lo ++ (b, y) :: mid).
Proof.
  intros Hbe H1 H2. apply list.Forall_app. split; [by apply (below_mono b); [lia|]|by constructor].
Qed.

Section Ends.

Context (lo mid hi : mtable) (b e : Z) (p : T).
Context (Hbe : b < e) (Hlo : below b lo) (Hmb : above b mid) (Hme : below e mid) (Hhi : above e hi).

Lemma find_end y z : find_pt e (lo ++ (b, y) :: mid ++ (e, z) :: hi) = Some z.
Proof.
  replace (lo ++ (b, y) :: mid ++ (e, z) :: hi) with ((lo ++ (b, y) :: mid) ++ (e, z) :: hi) by (by rewrite <- app_assoc).
  by apply find_mid, below_front.
Qed.

Lemma set_end y z w : set_pt e w (lo ++ (b, y) :: mid ++ (e, z) :: hi) = lo ++ (b, y) :: mid ++ (e, w) :: hi.
Proof.
  replace (lo ++ (b, y) :: mid ++ (e, z) :: hi) with ((lo ++ (b, y) :: mid) ++ (e, z) :: hi) by (by rewrite <- app_assoc).
  rewrite set_mid by (by apply below_front). by rewrite <- app_assoc.
Qed.

(** The tests at the end point. *)
Lemma map_at_end_ok y z :
  map_at_end e (lo ++ (b, y) :: mid ++ (e, z) :: hi)
  = Some (lo ++ (b, y) :: mid ++ (e, match z with PO v => PXO v | _ => z end) :: hi, negb (isOpen z)).
Proof.
  unfold map_at_end, set_close_open. rewrite find_end. cbn. destruct z; cbn; [|done..]. by rewrite set_end.
Qed.

(** The tests at a begin point that was there, after the state [s]. *)
Lemma map_at_begin_ok s y r :
  link s y ->
  map_at_begin b p (lo ++ (b, y) :: r) = Some (lo ++ (b, pt s (Some p)) :: r, negb (isClose y), get y).
Proof.
  intros Hl. unfold map_at_begin. rewrite find_mid by done. cbn.
  destruct y, s; try done; cbn; by rewrite set_mid.
Qed.

Lemma map_after_prev_ok r :
  above b r -> let s := state None lo in
  map_after_prev b (lo ++ (b, PO p) :: r) = Some (lo ++ (b, pt s (Some p)) :: r, match s with Some _ => true | None => false end, s).
Proof.
  intros Hr s. unfold map_after_prev. rewrite prev_split by (done || (constructor; [cbn; lia|by apply above_atleast])).
  subst s. destruct (list.last lo) as [[k q]|] eqn:E.
  - apply last_Some in E as [lo' ->]. rewrite last_state_app. cbn [last_state].
    destruct q; cbn [isClose]; [|done|]; rewrite (set_close_open_mid b (PO p) p) by done; done.
  - by apply last_None in E as ->.
Qed.

End Ends.

(** A table with the points in a range replaced stays sorted. *)
Lemma replaced_sorted b e (lo ob mid oe hi m : mtable) y z :
  b < e -> sorted (lo ++ ob ++ mid ++ oe ++ hi) -> below b lo -> above e hi ->
  sorted m -> above b m -> below e m -> sorted (lo ++ (b, y) :: m ++ (e, z) :: hi).
Proof.
  intros Hbe Hs Hlo Hhi Hm Hb He. apply sorted_app in Hs as (H1 & H2 & _).
  assert (Hh : sorted hi). { rewrite !sorted_app in H2. tauto. }
  apply sorted_mid. split_and!; try done.
  - apply sorted_mid. done.
  - apply list.Forall_app. split; [done|]. constructor; [done|]. by apply (above_mono e); [lia|].
Qed.

Lemma finish_ends (lo hi : mtable) b e p y z seen coll last s :
  b < e -> below b lo -> above e hi -> get y = Some p ->
  (if coll && negb seen then PXO p else y) = pt (state None lo) (Some p) ->
  match last with
  | Some v => if coll then z else if coll && negb seen then z else PXO v
  | None => z
  end = pt (Some p) s ->
  map_finish b e seen coll last (lo ++ (b, y) :: (e, z) :: hi) = Some (mapped_points lo b e p s hi).
Proof.
  intros Hbe Hlo Hhi Hy H1 H2. unfold map_finish, mapped_points. rewrite <- H1, <- H2.
  destruct (coll && negb seen) eqn:E.
  - rewrite (set_close_open_mid b y p) by done. apply andb_true_iff in E as [-> _]. by destruct last.
  - destruct last; [|done]. destruct coll; [done|].
    change (lo ++ (b, y) :: (e, z) :: hi) with (lo ++ (b, y) :: [] ++ (e, z) :: hi). by rewrite set_end.
Qed.

Lemma emplace_both l b e p lo ob mid oe hi :
  b < e -> parts l b e lo ob mid oe hi ->
  emplace_pt b (PO p) l = (lo ++ (b, point_or (PO p) ob) :: mid ++ oe ++ hi, is_nil ob)
  /\ emplace_pt e PX (lo ++ (b, point_or (PO p) ob) :: mid ++ oe ++ hi)
     = (lo ++ (b, point_or (PO p) ob) :: mid ++ (e, point_or PX oe) :: hi, is_nil oe).
Proof.
  intros Hbe [-> Hlo Hob [Hmb Hme] Hoe Hhi]. split.
  - apply emplace_opt; [done|done|]. apply list.Forall_app. split; [done|]. apply list.Forall_app.
    split; [destruct Hoe as [->|[? ->]]; by constructor|by apply (above_mono e); [lia|]].
  - replace (lo ++ (b, point_or (PO p) ob) :: mid ++ oe ++ hi)
      with ((lo ++ (b, point_or (PO p) ob) :: mid) ++ oe ++ hi) by (by rewrite <- app_assoc).
    rewrite emplace_opt; [by rewrite <- app_assoc|done|by apply below_front|done].
Qed.

Lemma get_loop_begin seen p mid y : get y = Some p -> get (loop_begin seen p mid y) = Some p.
Proof. destruct mid as [|[]]; cbn; [done|]. by destruct (_ || _). Qed.

(** The begin point, when it is new and the end point is not. *)
Lemma begin_new s p mid y :
  chained get link s mid -> link (state s mid) y ->
  (if negb (isOpen y) && negb (opens mid) then PXO p else loop_begin false p mid (PO p)) = pt s (Some p).
Proof.
  destruct mid as [|[k x] mid]; cbn.
  - intros _ L. by destruct s, y.
  - intros [L _] _. destruct s, x; try done; cbn; rewrite ?andb_false_r; try done. by destruct (_ && _).
Qed.

(** The begin point, when it was there. *)
Lemma begin_old s p mid x (c : bool) :
  link s x ->
  (if c && negb (negb (isClose x) || opens mid) then PXO p else loop_begin (negb (isClose x)) p mid (pt s (Some p)))
  = pt s (Some p).
Proof.
  intros L. destruct (isClose x) eqn:E; cbn.
  - destruct x, s; try done. cbn. rewrite loop_begin_xo. by destruct (_ && _).
  - rewrite andb_false_r. apply loop_begin_seen.
Qed.

(** The end point, when it was there, after the state [s]. *)
Lemma end_old s p y (mid : mtable) (c : bool) :
  link (state s mid) y ->
  match match mid with [] => None | _ => state s mid end with
  | Some v => if negb (isOpen y) then match y with PO w => PXO w | _ => y end
              else if c then match y with PO w => PXO w | _ => y end else PXO v
  | None => match y with PO w => PXO w | _ => y end
  end = pt (Some p) (get y).
Proof.
  intros L. destruct y; cbn; by destruct mid; [|destruct (state _ _)].
Qed.

(** map without merging. *)
Lemma mt_map_exec l b e p lo ob mid oe hi :
  wf_mt l -> b < e -> parts l b e lo ob mid oe hi ->
  mt_map (mk_range b e) p false false l
  = Some (mapped_points lo b e p (state None (lo ++ ob ++ mid ++ oe)) hi, b).
Proof.
  intros [Hs Hc _] Hbe HP. unfold mt_map. cbn [beginAddress endAddress].
  pose proof HP as [-> Hlo Hob [Hmb Hme] Hoe Hhi].
  replace (isValid _) with true by (symmetry; by apply Z.ltb_lt). cbn [negb andb].
  assert (Hhi' : above b hi) by (by apply (above_mono e); [lia|]).
  destruct (emplace_both _ b e p _ _ _ _ _ Hbe HP) as [-> ->].
  rewrite find_mid by done. cbn [mbind option_bind].
  rewrite next_mid; [|done|apply list.Forall_app; split; [done|by constructor]].
  assert (Hh : exists k x, head (mid ++ (e, point_or PX oe) :: hi) = Some (k, x)).
  { destruct mid as [|[]]; cbn; eauto. }
  destruct Hh as (k0 & x0 & ->). cbn [mbind option_bind].
  assert (Hsm : sorted mid). { rewrite !sorted_app in Hs. tauto. }
  assert (S : forall y z, sorted (lo ++ (b, y) :: mid ++ (e, z) :: hi)).
  { intros y z. by eapply replaced_sorted. }
  rewrite !chained_app in Hc. destruct Hc as (C1 & C2 & C3 & C4 & _).
  assert (Hf : forall y z, (length mid < length (lo ++ (b, y) :: mid ++ (e, z) :: hi))%nat).
  { intros y z. rewrite length_app. cbn. rewrite length_app. lia. }
  unfold map_ends. destruct Hob as [->|[x ->]], Hoe as [->|[y ->]]; cbn [is_nil point_or negb orb mbind option_bind].
  - rewrite map_after_prev_ok by (done || (apply list.Forall_app; split; [done|by constructor])).
    cbn [mbind option_bind]. rewrite (map_loop_ok _ _ _ _ _ _ _ _ _ _ p (state None lo)) by (done || apply get_pt).
    cbn [mbind option_bind app]. rewrite app_nil_r, last_state_app.
    erewrite finish_ends; [done|done|done|done|apply get_loop_begin; by rewrite ?get_pt| |]; cbn [andb].
    + destruct (state None lo); [apply loop_begin_seen|]. destruct mid as [|[k x] mid]; [done|].
      cbn. destruct C3 as [L _]. cbn in L. by rewrite L.
    + destruct mid as [|q mid]; [by destruct (state None lo)|]. by destruct (state _ (q :: mid)).
  - destruct C4 as [L _]. rewrite map_at_end_ok by done. cbn [mbind option_bind].
    rewrite (map_loop_ok _ _ _ _ _ _ _ _ _ _ p (state None lo)) by (done || apply get_pt). cbn [mbind option_bind app].
    rewrite !last_state_app. cbn [last_state orb].
    erewrite finish_ends; [done|done|done|done|apply get_loop_begin; by rewrite ?get_pt| |].
    + by apply begin_new.
    + by apply end_old.
  - destruct C2 as [L _]. cbn [last_state] in C3. rewrite (map_at_begin_ok lo b p Hlo (state None lo)) by done. cbn [mbind option_bind].
    rewrite (map_loop_ok _ _ _ _ _ _ _ _ _ _ p (get x)) by (done || apply get_pt). cbn [mbind option_bind app].
    rewrite app_nil_r, last_state_app. cbn [last_state].
    erewrite finish_ends; [done|done|done|done|apply get_loop_begin; by rewrite ?get_pt| |].
    + by apply (begin_old _ _ _ _ false).
    + destruct mid as [|q mid]; [by destruct x|]. by destruct (state _ (q :: mid)).
  - destruct C2 as [L _], C4 as [L' _]. cbn [last_state] in C3, L'.
    rewrite (map_at_begin_ok lo b p Hlo (state None lo)) by done. cbn [mbind option_bind].
    rewrite map_at_end_ok by done. cbn [mbind option_bind].
    rewrite (map_loop_ok _ _ _ _ _ _ _ _ _ _ p (get x)) by (done || apply get_pt). cbn [mbind option_bind app].
    rewrite last_state_app. cbn [last_state]. rewrite last_state_app. cbn [last_state].
    erewrite finish_ends; [done|done|done|done|apply get_loop_begin; by rewrite ?get_pt| |].
    + by apply begin_old.
    + by apply end_old.
Qed.


(** ** The table after map *)

#[local] Arguments link : simpl never.
#[local] Arguments pt : simpl never.

Lemma link_pt_intro s v : link s (pt s (Some v)).
Proof. by destruct s. Qed.

Lemma link_pt_some v s : link (Some v) (pt (Some v) s).
Proof. by destruct s. Qed.

(** A well-formed table around one of its areas. *)
Lemma mapped_points_wf lo b e p s hi :
  wf_mt (mapped_points lo b e p s hi) <->
  sorted (mapped_points lo b e p s hi) /\ chained get link None lo /\ chained get link s hi /\ state s hi = None.
Proof.
  split.
  - intros [H1 H2 H3]. unfold mapped_points in *. rewrite chained_app in H2. rewrite last_state_app in H3.
    cbn in H2, H3. rewrite !get_pt in *. tauto.
  - intros (H1 & H2 & H3 & H4). split; [done| |]; unfold mapped_points.
    + rewrite chained_app. cbn. rewrite !get_pt. split_and!; try done; [apply link_pt_intro|apply link_pt_some].
    + rewrite last_state_app. cbn. by rewrite !get_pt.
Qed.

Lemma mapped_points_bounds lo b e p s hi :
  sorted (mapped_points lo b e p s hi) ->
  b < e /\ below b lo /\ above e hi /\ above b hi /\ sorted lo /\ sorted hi.
Proof.
  intros (H1 & H2 & H3 & H4)%sorted_mid. destruct H2 as [H5 H6]. cbn in H5.
  apply Forall_cons_1 in H4 as [H7 H8]. done.
Qed.

(** The addresses in front of an area, in it and behind it. *)
Lemma mapped_points_at lo b e p s hi a :
  sorted (mapped_points lo b e p s hi) ->
  mt_at (mapped_points lo b e p s hi) a
  = if a <? b then state_at get None lo a else if a <? e then Some p else state_at get s hi a.
Proof.
  intros (Hbe & Hlo & Hhi & Hhb & _)%mapped_points_bounds. unfold mt_at, mapped_points.
  destruct (Z.ltb_spec a b).
  - apply state_at_prefix. constructor; [done|]. constructor; [cbn; lia|]. by apply (above_mono b); [lia|].
  - rewrite state_at_app by (apply below_atmost, (below_mono b); [lia|done]). cbn. rewrite !get_pt.
    destruct (Z.leb_spec b a); [|lia]. by destruct (Z.leb_spec e a), (Z.ltb_spec a e); try lia.
Qed.

(** Replacing the points of a range. *)
Lemma parts_at l b e lo ob mid oe hi a :
  b < e -> parts l b e lo ob mid oe hi ->
  (a < b -> mt_at l a = state_at get None lo a)
  /\ (e <= a -> mt_at l a = state_at get (state None (lo ++ ob ++ mid ++ oe)) hi a).
Proof.
  intros Hbe [-> Hlo Hob [Hmb Hme] Hoe Hhi]. unfold mt_at. split; intros Ha.
  - apply state_at_prefix. rewrite !list.Forall_app. split_and!.
    + destruct Hob as [->|[v ->]]; by constructor.
    + by apply (above_mono b); [lia|].
    + destruct Hoe as [->|[v ->]]; constructor; [cbn; lia|done].
    + by apply (above_mono e); [lia|].
  - replace (lo ++ ob ++ mid ++ oe ++ hi) with ((lo ++ ob ++ mid ++ oe) ++ hi) by (by rewrite <- !app_assoc).
    apply state_at_app. rewrite !list.Forall_app. split_and!.
    + apply below_atmost, (below_mono b); [lia|done].
    + destruct Hob as [->|[v ->]]; constructor; [cbn; lia|done].
    + apply below_atmost, (below_mono e); [lia|done].
    + destruct Hoe as [->|[v ->]]; constructor; [cbn; lia|done].
Qed.

Definition in_range (b e a : Z) : bool := (b <=? a) && (a <? e).

Lemma mapped_points_ok l b e p lo ob mid oe hi :
  wf_mt l -> b < e -> parts l b e lo ob mid oe hi ->
  let l' := mapped_points lo b e p (state None (lo ++ ob ++ mid ++ oe)) hi in
  wf_mt l' /\ forall a, mt_at l' a = if in_range b e a then Some p else mt_at l a.
Proof.
  intros [Hs Hc Hl] Hbe HP l'. pose proof HP as [-> Hlo Hob [Hmb Hme] Hoe Hhi].
  assert (Hs' : sorted l'). { subst l'. by eapply (replaced_sorted b e lo ob mid oe hi []). }
  split.
  - apply mapped_points_wf. split; [exact Hs'|]. rewrite !chained_app in Hc. destruct Hc as (C1 & _ & _ & _ & C5).
    rewrite !last_state_app in Hl. rewrite !last_state_app. done.
  - intros a. destruct (parts_at _ _ _ _ _ _ _ _ a Hbe HP) as [A1 A2]. subst l'.
    rewrite mapped_points_at by done. unfold in_range.
    destruct (Z.ltb_spec a b), (Z.leb_spec b a), (Z.ltb_spec a e); try lia; cbn; auto; symmetry; auto.
Qed.

(** ** Areas *)

Definition area (l : mtable) (b e : Z) (p : T) : Prop := exists lo s hi, l = mapped_points lo b e p s hi.

Lemma mapped_points_find lo b e p s hi :
  below b lo -> find_pt b (mapped_points lo b e p s hi) = Some (pt (state None lo) (Some p)).
Proof. apply find_mid. Qed.

Lemma mapped_points_next lo b e p s hi :
  below b lo -> b < e -> above b hi -> next_pt b (mapped_points lo b e p s hi) = Some (e, pt (Some p) s).
Proof. intros. unfold mapped_points. rewrite next_mid by (done || by constructor). done. Qed.

Lemma mapped_points_prev lo b e p s hi :
  below b lo -> b < e -> above b hi -> prev_pt b (mapped_points lo b e p s hi) = list.last lo.
Proof.
  intros. unfold mapped_points. apply prev_split; [done|]. constructor; [cbn; lia|]. constructor; [cbn; lia|].
  by apply above_atleast.
Qed.

Lemma area_facts l b e p :
  sorted l -> area l b e p ->
  b < e /\ it_get b l = Some p /\ it_range b l = Some (mk_range b e)
  /\ forall a, b <= a < e -> mt_at l a = Some p.
Proof.
  intros Hs (lo & s & hi & ->). pose proof Hs as (Hbe & Hlo & Hhi & Hhb & _)%mapped_points_bounds.
  split; [done|]. unfold it_get, it_range. rewrite mapped_points_find, mapped_points_next by done. cbn.
  rewrite get_pt. split_and!; [done..|]. intros a Ha. rewrite mapped_points_at by done.
  by destruct (Z.ltb_spec a b), (Z.ltb_spec a e); try lia.
Qed.

(** The area in front of a point, when the state there is not [None]. *)
Lemma state_last (lo : mtable) p : chained get link None lo -> state None lo = Some p ->
  exists lo' k, lo = lo' ++ [(k, pt (state None lo') (Some p))].
Proof.
  intros Hc Hp. destruct (list.last lo) as [[k q]|] eqn:E.
  - apply last_Some in E as [lo' ->]. rewrite last_state_app in Hp. cbn in Hp.
    apply chained_app in Hc as (_ & L & _). exists lo', k. rewrite <- Hp. by rewrite <- (link_pt _ _ L).
  - by apply last_None in E as ->.
Qed.

(** ** Merging *)

Definition merged_points (lo : mtable) (b e : Z) (p : T) (s : option T) (hi : mtable) : mtable :=
  lo ++ (if decide (state None lo = Some p) then [] else [(b, pt (state None lo) (Some p))])
     ++ (if decide (s = Some p) then [] else [(e, pt (Some p) s)]) ++ hi.

Lemma drop_point l1 k x l2 :
  wf_mt (l1 ++ (k, x) :: l2) -> get x = state None l1 ->
  wf_mt (l1 ++ l2) /\ forall a, mt_at (l1 ++ l2) a = mt_at (l1 ++ (k, x) :: l2) a.
Proof.
  intros [Hs Hc Hl] Hx. pose proof (fun a => erase_same get link None l1 k x l2 a Hs Hx) as H.
  split; [|intros a; apply H]. destruct (H 0) as (_ & H2 & H3). split; [|by apply H3|by rewrite H2].
  rewrite <- (erase_mid k x) by (by apply sorted_mid in Hs as (_ & _ & ? & _)). by apply erase_pt_sorted.
Qed.

Lemma merged_points_ok lo b e p s hi :
  wf_mt (mapped_points lo b e p s hi) ->
  wf_mt (merged_points lo b e p s hi)
  /\ forall a, mt_at (merged_points lo b e p s hi) a = mt_at (mapped_points lo b e p s hi) a.
Proof.
  intros Hwf. unfold merged_points.
  set (r := (if decide (s = Some p) then [] else [(e, pt (Some p) s)]) ++ hi).
  assert (H1 : wf_mt (lo ++ (b, pt (state None lo) (Some p)) :: r)
    /\ forall a, mt_at (lo ++ (b, pt (state None lo) (Some p)) :: r) a = mt_at (mapped_points lo b e p s hi) a).
  { subst r. destruct (decide (s = Some p)) as [->|]; [|done]. cbn [app]. unfold mapped_points in *.
    pose proof (drop_point (lo ++ [(b, pt (state None lo) (Some p))]) e (pt (Some p) (Some p)) hi) as D.
    rewrite <- !app_assoc in D. apply D; [done|]. rewrite last_state_app. cbn. by rewrite !get_pt. }
  destruct H1 as [H1 H2]. destruct (decide (state None lo = Some p)) as [E|]; [|done]. cbn [app].
  destruct (drop_point _ _ _ _ H1) as [H3 H4]; [by rewrite get_pt|]. split; [done|]. intros a. by rewrite H4.
Qed.

Lemma merge_prev_ok lo b e p s hi :
  wf_mt (mapped_points lo b e p s hi) ->
  exists o lo', merge_prev b (mapped_points lo b e p s hi) = Some (mapped_points lo' o e p s hi, o) /\ o <= b
    /\ lo' ++ [(o, pt (state None lo') (Some p))]
       = lo ++ (if decide (state None lo = Some p) then [] else [(b, pt (state None lo) (Some p))]).
Proof.
  intros (Hs & Hc & _)%mapped_points_wf. pose proof Hs as (Hbe & Hlo & Hhi & Hhb & _)%mapped_points_bounds.
  unfold merge_prev. rewrite mapped_points_find by done. cbn [mbind option_bind].
  destruct (state None lo) as [v|] eqn:E; cycle 1.
  { exists b, lo. rewrite E. split_and!; [done|lia|]. by rewrite decide_False. }
  change (isCloseOpen (pt (Some v) (Some p))) with true. cbn iota.
  destruct (state_last lo v Hc E) as (lo' & k & ->).
  rewrite mapped_points_prev, last_snoc by done. cbn [mbind option_bind]. rewrite !get_pt. cbn [mbind option_bind].
  destruct (decide (v = p)) as [->|Hne].
  - exists k, lo'. rewrite decide_True, app_nil_r by done. apply list.Forall_app in Hlo as [_ Hk%Forall_inv].
    cbn in Hk. split_and!; [|lia|done]. unfold mapped_points. rewrite erase_mid; [by rewrite <- app_assoc|].
    apply list.Forall_app. split; [|by constructor].
    apply sorted_mid in Hs as (Hs & _). apply sorted_mid in Hs as (_ & _ & H1 & _). by apply (below_mono k); [lia|].
  - exists b, (lo' ++ [(k, pt (state None lo') (Some v))]). rewrite decide_False by congruence.
    split_and!; [done|lia|]. by rewrite E.
Qed.

Lemma merge_next_ok lo o e p s hi :
  wf_mt (mapped_points lo o e p s hi) ->
  exists e', e <= e' /\ let l' := lo ++ (o, pt (state None lo) (Some p)) :: (if decide (s = Some p) then [] else [(e, pt (Some p) s)]) ++ hi in
    merge_next o e (mapped_points lo o e p s hi) = Some l' /\ area l' o e' p.
Proof.
  intros (Hs & _ & Hc & Hl)%mapped_points_wf. pose proof Hs as (Hbe & Hlo & Hhi & Hhb & _)%mapped_points_bounds.
  assert (Hr : forall z, mapped_points lo o e p z hi = (lo ++ [(o, pt (state None lo) (Some p))]) ++ (e, pt (Some p) z) :: hi)
    by (intros z; by rewrite <- app_assoc).
  assert (Hb : below e (lo ++ [(o, pt (state None lo) (Some p))])) by (by apply (below_front o e lo [])).
  unfold merge_next. rewrite Hr, find_mid, <- Hr by done. cbn [mbind option_bind].
  destruct s as [v|]; cycle 1.
  { exists e. split; [lia|]. rewrite decide_False by done. split; [done|]. by exists lo, None, hi. }
  change (isCloseOpen (pt (Some p) (Some v))) with true. cbn iota. rewrite get_pt. cbn [mbind option_bind].
  rewrite mapped_points_find by done. cbn [mbind option_bind]. rewrite get_pt. cbn [mbind option_bind].
  destruct (decide (v = p)) as [->|Hne].
  - rewrite decide_True by done. cbn [app]. destruct hi as [|[c y] hi]; [done|]. exists c.
    apply Forall_cons_1 in Hhi as [Hce _]. cbn in Hce. split; [lia|]. rewrite Hr, erase_mid, <- app_assoc by done.
    split; [done|]. exists lo, (get y), hi. destruct Hc as [L _]. unfold mapped_points. by rewrite <- (link_pt _ _ L).
  - exists e. split; [lia|]. rewrite decide_False by congruence. split; [done|]. by exists lo, (Some v), hi.
Qed.

(** Merging returns the iterator of the area that contains the range. *)
Lemma map_merge_ok lo b e p s hi :
  wf_mt (mapped_points lo b e p s hi) ->
  exists o e', map_merge b e (mapped_points lo b e p s hi) = Some (merged_points lo b e p s hi, o)
    /\ area (merged_points lo b e p s hi) o e' p /\ o <= b /\ e <= e'.
Proof.
  intros Hwf. destruct (merge_prev_ok _ _ _ _ _ _ Hwf) as (o & lo' & E1 & Ho & E2).
  assert (Hwf' : wf_mt (mapped_points lo' o e p s hi)).
  { assert (E : mapped_points lo' o e p s hi
      = lo ++ (if decide (state None lo = Some p) then [] else [(b, pt (state None lo) (Some p))]) ++ (e, pt (Some p) s) :: hi).
    { unfold mapped_points. rewrite app_assoc, <- E2, <- app_assoc. done. }
    rewrite E. destruct (decide _) as [Es|]; [|done]. apply (drop_point lo b (pt (state None lo) (Some p))); [done|]. by rewrite get_pt. }
  destruct (merge_next_ok _ _ _ _ _ _ Hwf') as (e' & He & E3 & A). unfold map_merge. rewrite E1. cbn [mbind option_bind].
  rewrite E3. cbn [mbind option_bind].
  assert (Hm : merged_points lo b e p s hi
    = lo' ++ (o, pt (state None lo') (Some p)) :: (if decide (s = Some p) then [] else [(e, pt (Some p) s)]) ++ hi).
  { unfold merged_points. rewrite app_assoc, <- E2, <- app_assoc. done. }
  rewrite Hm. by exists o, e'.
Qed.

(** ** map *)

Lemma mt_map_merge_eq range p l :
  mt_map range p true false l
  = ('(l', _) ← mt_map range p false false l; map_merge (beginAddress range) (endAddress range) l').
Proof.
  unfold mt_map. destruct (negb _); [done|]. destruct (emplace_pt _ _ l) as [l1 bi].
  destruct (emplace_pt _ _ l1) as [l2 ei]. destruct (find_pt _ l2); [|done]. cbn [mbind option_bind].
  destruct (next_pt _ l2) as [[k y]|]; [|done]. cbn [mbind option_bind andb].
  destruct (map_ends _ _ _ _ _ _) as [[[[l3 seen] c] last]|]; [|done]. cbn [mbind option_bind].
  destruct (map_loop _ _ _ _ _ _) as [[[l4 seen'] last']|]; [|done]. cbn [mbind option_bind].
  by destruct (map_finish _ _ _ _ _ _).
Qed.

(** map, with or without merging: the table, the iterator and its area. *)
Lemma mt_map_ok l b e p mrg :
  wf_mt l -> b < e ->
  exists l' o e', mt_map (mk_range b e) p mrg false l = Some (l', o) /\ wf_mt l'
    /\ (forall a, mt_at l' a = if in_range b e a then Some p else mt_at l a)
    /\ area l' o e' p /\ o <= b /\ e <= e' /\ (mrg = false -> o = b /\ e' = e).
Proof.
  intros Hwf Hbe. destruct (split_range l b e (wm_sorted _ Hwf) Hbe) as (lo & ob & mid & oe & hi & HP).
  destruct (mapped_points_ok l b e p lo ob mid oe hi Hwf Hbe HP) as [Hwf' Hat].
  pose proof (mt_map_exec l b e p lo ob mid oe hi Hwf Hbe HP) as E. destruct mrg.
  - rewrite mt_map_merge_eq, E. cbn [mbind option_bind beginAddress endAddress].
    destruct (map_merge_ok _ _ _ _ _ _ Hwf') as (o & e' & -> & A & H1 & H2).
    destruct (merged_points_ok _ _ _ _ _ _ Hwf') as [W1 W2].
    eexists _, o, e'. split_and!; try done. intros a. by rewrite W2.
  - eexists _, b, e. split_and!; [exact E|done|done| |lia|lia|done]. eexists _, _, _. reflexivity.
Qed.

(** A point that opens an area, and the next one. *)
Lemma area_at_point lo k x hi v :
  wf_mt (lo ++ (k, x) :: hi) -> get x = Some v ->
  exists c y hi', hi = (c, y) :: hi' /\ lo ++ (k, x) :: hi = mapped_points lo k c v (get y) hi'.
Proof.
  intros [Hs Hc Hl] Hx. rewrite chained_app in Hc. rewrite last_state_app in Hl. destruct Hc as (_ & L & Hc).
  cbn in Hl. rewrite Hx in Hc, Hl. destruct hi as [|[c y] hi]; [done|]. exists c, y, hi. split; [done|].
  unfold mapped_points. destruct Hc as [L2 _]. by rewrite <- Hx, <- (link_pt _ _ L), Hx, <- (link_pt _ _ L2).
Qed.

(** map with noOverride leaves an area with exactly this range alone. *)
Lemma mt_map_keeps l b e p v mrg :
  wf_mt l -> area l b e v -> mt_map (mk_range b e) p mrg true l = Some (l, b).
Proof.
  intros Hwf (lo & s & hi & ->). pose proof (wm_sorted _ Hwf) as (Hbe & Hlo & Hhi & Hhb & _)%mapped_points_bounds.
  unfold mt_map. cbn [beginAddress endAddress]. replace (isValid _) with true by (symmetry; by apply Z.ltb_lt).
  cbn [negb]. unfold mapped_points. rewrite emplace_old by done.
  replace (lo ++ (b, pt (state None lo) (Some v)) :: (e, pt (Some v) s) :: hi)
    with ((lo ++ [(b, pt (state None lo) (Some v))]) ++ (e, pt (Some v) s) :: hi) by (by rewrite <- app_assoc).
  rewrite emplace_old by (by apply (below_front b e lo [])). rewrite <- app_assoc. cbn [app].
  rewrite find_mid, next_mid by (done || by constructor). cbn [mbind option_bind head negb andb].
  rewrite Z.eqb_refl. by destruct (state None lo).
Qed.

Lemma mt_map_overrides l b e p mrg :
  wf_mt l -> b < e -> (forall v, ~ area l b e v) -> mt_map (mk_range b e) p mrg true l = mt_map (mk_range b e) p mrg false l.
Proof.
  intros Hwf Hbe Hno. destruct (split_range l b e (wm_sorted _ Hwf) Hbe) as (lo & ob & mid & oe & hi & HP).
  unfold mt_map. cbn [beginAddress endAddress]. destruct (negb (isValid _)); [done|].
  destruct (emplace_both _ b e p _ _ _ _ _ Hbe HP) as [-> ->]. destruct HP as [-> Hlo Hob [Hmb Hme] Hoe Hhi].
  assert (Hhi' : above b hi) by (by apply (above_mono e); [lia|]).
  rewrite find_mid by done. cbn [mbind option_bind].
  rewrite next_mid; [|done|apply list.Forall_app; split; [done|by constructor]].
  destruct Hob as [->|[x ->]]; [done|]. destruct Hoe as [->|[y ->]]; [by destruct (head _) as [[]|]|].
  cbn [is_nil point_or negb andb]. destruct mid as [|[k z] mid]; cbn [app head mbind option_bind].
  - destruct x as [v| |v]; [|by rewrite andb_false_r|]; destruct (Hno v).
    all: destruct (area_at_point lo b _ _ v Hwf eq_refl) as (c & y' & hi' & [= <- <- <-] & E).
    all: by exists lo, (get y), hi.
  - apply Forall_inv in Hme. cbn in Hme. destruct (Z.eqb_spec k e); [lia|]. done.
Qed.


(** ** unmap *)

Definition unmapped_points (lo : mtable) (b e : Z) (s : option T) (hi : mtable) : mtable :=
  lo ++ match state None lo with Some _ => [(b, PX)] | None => [] end
     ++ match s with Some v => [(e, PO v)] | None => [] end ++ hi.

Lemma unmap_it_exec lo b e p s hi :
  sorted (mapped_points lo b e p s hi) ->
  unmap_it b (mapped_points lo b e p s hi)
  = Some (unmapped_points lo b e s hi, match s with Some _ => Some e | None => fst <$> head hi end).
Proof.
  intros (Hbe & Hlo & Hhi & Hhb & _)%mapped_points_bounds. unfold unmap_it.
  rewrite mapped_points_find, mapped_points_next by done. cbn [mbind option_bind].
  set (f := match state None lo with Some _ => [(b, PX)] | None => [] end).
  assert (E : (if isCloseOpen (pt (state None lo) (Some p)) then set_pt b PX (mapped_points lo b e p s hi)
              else erase_pt b (mapped_points lo b e p s hi)) = (lo ++ f) ++ (e, pt (Some p) s) :: hi).
  { subst f. unfold mapped_points. rewrite <- app_assoc.
    destruct (state None lo); cbn -[set_pt erase_pt]; [by rewrite set_mid|by rewrite erase_mid]. }
  rewrite E. clear E. assert (Hf : below e (lo ++ f)).
  { apply list.Forall_app. split; [by apply (below_mono b); [lia|]|]. subst f. destruct (state None lo); by constructor. }
  unfold unmapped_points. fold f.
  destruct s as [v|]; [change (pt (Some p) (Some v)) with (PXO v)|change (pt (Some p) None) with PX];
    cbn [isCloseOpen setOpen mbind option_bind].
  - rewrite set_mid by done. by rewrite <- app_assoc.
  - rewrite erase_mid, next_mid by done. by rewrite <- app_assoc.
Qed.

Lemma unmapped_points_ok lo b e p s hi :
  wf_mt (mapped_points lo b e p s hi) ->
  wf_mt (unmapped_points lo b e s hi)
  /\ forall a, mt_at (unmapped_points lo b e s hi) a
       = if in_range b e a then None else mt_at (mapped_points lo b e p s hi) a.
Proof.
  intros (Hs & Hc1 & Hc2 & Hl)%mapped_points_wf. pose proof Hs as (Hbe & Hlo & Hhi & Hhb & Hs1 & Hs2)%mapped_points_bounds.
  set (f := match state None lo with Some _ => [(b, PX)] | None => [] end).
  assert (Hf : atmost b f /\ state None (lo ++ f) = None /\ chained get link None (lo ++ f) /\ sorted (lo ++ f)).
  { subst f. rewrite last_state_app, chained_app. destruct (state None lo); cbn.
    - split_and!; try done; [by constructor|]. by apply sorted_mid.
    - by rewrite app_nil_r. }
  destruct Hf as (F1 & F2 & F3 & F4).
  assert (Hb : atmost b (lo ++ f)) by (apply list.Forall_app; split; [by apply below_atmost|done]).
  assert (E : unmapped_points lo b e s hi = (lo ++ f) ++ match s with Some v => [(e, PO v)] | None => [] end ++ hi)
    by (unfold unmapped_points; by rewrite <- app_assoc).
  split; [split|].
  - rewrite E. destruct s as [v|]; cbn [app].
    + apply sorted_mid. split_and!; try done. by apply (atmost_below b).
    + apply (sorted_join _ _ b); try done. 
  - rewrite E, chained_app, F2. destruct s as [v|]; cbn; done.
  - rewrite E, last_state_app, F2. by destruct s as [v|]; cbn.
  - intros a. rewrite mapped_points_at, E by done. unfold mt_at, in_range. destruct (Z.ltb_spec a b).
    + destruct (Z.leb_spec b a); [lia|]. cbn. rewrite <- app_assoc. apply state_at_prefix. subst f.
      rewrite !list.Forall_app. split_and!; [|destruct s; by repeat constructor; cbn; lia|by apply (above_mono b); [lia|]].
      destruct (state None lo); by repeat constructor.
    + destruct (Z.leb_spec b a); [|lia]. cbn [andb].
      rewrite state_at_app, F2 by (revert Hb; apply Forall_impl; intros ? ?; lia).
      destruct s as [v|]; cbn.
      * by destruct (Z.leb_spec e a), (Z.ltb_spec a e); try lia.
      * destruct (Z.ltb_spec a e); [|done]. apply state_at_above. by apply (above_mono e); [lia|].
Qed.

(** ** Iteration *)

(** The areas in order. *)
Fixpoint areas (l : mtable) : list (Z * Z * T) :=
  match l with
  | [] => []
  | (k, x) :: l' =>
      match get x, l' with
      | Some v, (c, _) :: _ => (k, c, v) :: areas l'
      | _, _ => areas l'
      end
  end.

Lemma it_next_ok lo b e p s hi :
  sorted (mapped_points lo b e p s hi) ->
  it_next b (mapped_points lo b e p s hi) = Some (match s with Some _ => Some e | None => fst <$> head hi end).
Proof.
  intros (Hbe & Hlo & Hhi & Hhb & _)%mapped_points_bounds. unfold it_next. rewrite mapped_points_next by done.
  cbn [mbind option_bind]. destruct s; [done|]. change (isCloseOpen (pt (Some p) None)) with false. cbn iota.
  replace (mapped_points lo b e p None hi) with ((lo ++ [(b, pt (state None lo) (Some p))]) ++ (e, pt (Some p) None) :: hi)
    by (by unfold mapped_points; rewrite <- app_assoc).
  rewrite next_mid; [done| |done]. by apply (below_front b e lo []).
Qed.

Lemma iterate_ok fuel lo r :
  wf_mt (lo ++ r) -> (forall k x r', r = (k, x) :: r' -> isClose x = false) -> (length r <= fuel)%nat ->
  iterate fuel (fst <$> head r) (lo ++ r) = Some (areas r).
Proof.
  revert fuel lo r. induction fuel as [|fuel IH]; intros lo r Hwf Hr Hf.
  - destruct r; [done|cbn in Hf; lia].
  - destruct r as [|[k x] r]; [done|]. cbn [head fmap option_fmap option_map fst iterate].
    destruct (get x) as [v|] eqn:Ex; [|by specialize (Hr _ _ _ eq_refl); destruct x].
    destruct (area_at_point lo k x r v Hwf Ex) as (c & y & hi & -> & E). cbn in Hf.
    pose proof Hwf as Hwf'. rewrite E in Hwf' |- *.
    destruct (area_facts _ k c v (wm_sorted _ Hwf')) as (_ & -> & -> & _); [by eexists _, _, _|].
    rewrite it_next_ok by apply Hwf'. cbn [mbind option_bind beginAddress endAddress areas]. rewrite Ex.
    destruct (get y) as [w|] eqn:Ey.
    + specialize (IH (lo ++ [(k, x)]) ((c, y) :: hi)). rewrite <- app_assoc in IH. cbn [app] in IH.
      rewrite <- E. cbn [head fmap option_fmap option_map fst] in IH. rewrite IH; [|done| |cbn; lia].
      { cbn. by rewrite Ey. }
      intros ? ? ? [= <- <- <-]. by destruct y.
    + specialize (IH (lo ++ [(k, x); (c, y)]) hi). rewrite <- app_assoc in IH. cbn [app] in IH.
      rewrite <- E, IH; [|done| |lia].
      * done.
      * intros z w r' ->. destruct Hwf as [_ Hc _]. rewrite chained_app in Hc. cbn in Hc.
        destruct Hc as (_ & _ & _ & L & _). rewrite Ey in L. unfold link in L. by destruct w.
Qed.

(** The range-for loop visits the areas in order. *)
Lemma mt_areas_ok l : wf_mt l -> mt_areas l = Some (areas l).
Proof.
  intros Hwf. apply (iterate_ok (length l) [] l); [done| |lia].
  intros k x r ->. destruct Hwf as [_ [L _] _]. unfold link in L. by destruct x.
Qed.

(** ** Queries *)

(** A table splits at an address, with the state there. *)
Lemma split_state l a :
  wf_mt l -> exists lo hi, l = lo ++ hi /\ below a lo /\ atleast a hi /\ lower_bound a l = head hi
    /\ mt_at l a = match hi with
                   | (k, x) :: _ => if k =? a then get x else state None lo
                   | [] => None
                   end.
Proof.
  intros Hwf. destruct (split_at a l (wm_sorted _ Hwf)) as (lo & hi & -> & H1 & H2). exists lo, hi.
  split_and!; try done; [by apply lower_bound_split|]. unfold mt_at.
  rewrite state_at_app by (by apply below_atmost). destruct hi as [|[k x] hi].
  - pose proof (wm_last _ Hwf) as Hl. by rewrite app_nil_r in Hl.
  - pose proof (wm_sorted _ Hwf) as (_ & _ & _ & Hk)%sorted_mid. apply Forall_inv in H2. cbn in H2. cbn.
    destruct (Z.leb_spec k a), (Z.eqb_spec k a); try lia; [|done]. apply state_at_above. by subst.
Qed.

(** The area that ends at a point. *)
Lemma area_before lo k x hi :
  wf_mt (lo ++ (k, x) :: hi) -> isOpen x = false ->
  exists j v, prev_pt k (lo ++ (k, x) :: hi) = Some (j, pt (state None (removelast lo)) (Some v))
    /\ area (lo ++ (k, x) :: hi) j k v /\ state None lo = Some v /\ forall a, below a lo -> j < a.
Proof.
  intros [Hs Hc _] Hx. pose proof Hs as (_ & _ & H1 & H2)%sorted_mid. rewrite chained_app in Hc.
  destruct Hc as (Hc & L & _). unfold link in L. destruct (state None lo) as [v|] eqn:E; [|congruence].
  destruct (state_last lo v Hc E) as (lo' & j & ->). exists j, v.
  rewrite prev_split by (done || (constructor; [cbn; lia|by apply above_atleast])).
  rewrite last_snoc, removelast_last. split_and!; try done.
  - exists lo', (get x), hi. unfold mapped_points. rewrite <- app_assoc. cbn. do 3 f_equal. by destruct x.
  - intros a [_ Ha%Forall_inv]%list.Forall_app. done.
Qed.

(** queryArea finds the area of an address. *)
Lemma mt_queryArea_ok l a :
  wf_mt l ->
  exists r, mt_queryArea a l = Some r
    /\ match r with
       | Some k => exists c v, area l k c v /\ k <= a < c
       | None => mt_at l a = None
       end.
Proof.
  intros Hwf. destruct (split_state l a Hwf) as (lo & hi & -> & H1 & H2 & H3 & H4).
  unfold mt_queryArea. rewrite H3. destruct hi as [|[k x] hi]; cbn [head]; [by exists None|].
  pose proof (wm_sorted _ Hwf) as (_ & _ & _ & Hk)%sorted_mid. apply Forall_inv in H2. cbn in H2.
  destruct (Z.eqb_spec k a) as [->|Hne].
  - destruct (get x) as [v|] eqn:Ex; cycle 1.
    { destruct x; try done. by exists None. }
    destruct (area_at_point lo a x hi v Hwf Ex) as (c & y & hi' & -> & E).
    rewrite next_mid by done. apply Forall_inv in Hk. cbn in Hk.
    exists (Some a). split; [|exists c, v; split; [by rewrite E; eexists _, _, _|lia]].
    cbn. destruct (Z.ltb_spec c a); [lia|]. by destruct x.
  - destruct (isOpen x) eqn:Ex.
    + exists None. split; [done|]. rewrite H4. destruct Hwf as [_ Hc _]. rewrite chained_app in Hc.
      destruct Hc as (_ & L & _). unfold link in L. destruct (state None lo); [congruence|done].
    + destruct (area_before lo k x hi Hwf Ex) as (j & v & -> & A & _ & Hj). specialize (Hj a H1). cbn.
      destruct (Z.ltb_spec k a); [lia|]. exists (Some j). split; [done|]. exists k, v. split; [done|lia].
Qed.

(** No address is mapped from the end of an area to the next point. *)
Lemma gap_at lo hi a :
  wf_mt (lo ++ hi) -> state None lo = None -> atmost a lo -> above a hi -> mt_at (lo ++ hi) a = None.
Proof. intros Hwf Hn H1 H2. unfold mt_at. by rewrite state_at_app, Hn, state_at_above. Qed.

(** The first area that ends above [a], or none. *)
Definition first_from (l : mtable) (a : Z) (r : option Z) : Prop :=
  match r with
  | Some k => exists c v, area l k c v /\ a < c /\ forall a', a <= a' < k -> mt_at l a' = None
  | None => forall a', a <= a' -> mt_at l a' = None
  end.

Lemma after_close lo a hi : wf_mt (lo ++ (a, PX) :: hi) -> first_from (lo ++ (a, PX) :: hi) a (fst <$> head hi).
Proof.
  intros Hwf. pose proof (wm_sorted _ Hwf) as (_ & Hs & Hlo & Hk)%sorted_mid.
  assert (Hr : lo ++ (a, PX) :: hi = (lo ++ [(a, PX)]) ++ hi) by (by rewrite <- app_assoc).
  assert (G : forall a', a <= a' -> above a' hi -> mt_at (lo ++ (a, PX) :: hi) a' = None).
  { intros a' Ha Hi. rewrite Hr in Hwf |- *. apply gap_at; [done|by rewrite last_state_app| |done].
    apply list.Forall_app. split; [by apply below_atmost, (below_mono a)|by constructor]. }
  destruct hi as [|[c y] hi]; [by intros a' Ha; apply G|].
  destruct (get y) as [v|] eqn:Ey.
  - pose proof Hwf as Hwf'. rewrite Hr in Hwf'. destruct (area_at_point _ c y hi v Hwf' Ey) as (d & z & hi' & -> & E).
    rewrite <- Hr in E. destruct Hs as [Hs _]. pose proof (Forall_inv Hs) as Hd. apply Forall_inv in Hk. cbn in Hd, Hk.
    exists d, v. split_and!; [rewrite E; by eexists _, _, _|lia|]. intros a' Ha. cbn in Ha. apply G; [lia|].
    constructor; [cbn; lia|]. by apply (above_mono c); [lia|].
  - pose proof (wm_chain _ Hwf) as Hc. rewrite chained_app in Hc. destruct Hc as (_ & _ & L & _). unfold link in L. by destruct y.
Qed.

Lemma at_open lo a k x hi v :
  wf_mt (lo ++ (k, x) :: hi) -> get x = Some v -> isOpen x = true \/ k = a -> below a lo -> a <= k ->
  first_from (lo ++ (k, x) :: hi) a (Some k).
Proof.
  intros Hwf Ex Ho Hlo Ha. pose proof (wm_sorted _ Hwf) as (_ & _ & _ & Hk)%sorted_mid.
  destruct (area_at_point lo k x hi v Hwf Ex) as (c & y & hi' & -> & E). exists c, v.
  split_and!; [rewrite E; by eexists _, _, _|apply Forall_inv in Hk; cbn in Hk; lia|]. intros a' Ha'.
  destruct Ho as [Ho|]; [|lia]. apply gap_at; [done| |by apply below_atmost, (below_mono a); [lia|]|].
  - pose proof (wm_chain _ Hwf) as Hc. rewrite chained_app in Hc. destruct Hc as (_ & L & _). unfold link in L.
    destruct (state None lo); [congruence|done].
  - constructor; [cbn; lia|]. by apply (above_mono k); [lia|].
Qed.

(** lowerBound finds the first area that ends above an address. *)
Lemma lowerBound_ok l a : wf_mt l -> exists r, lowerBound a l = Some r /\ first_from l a r.
Proof.
  intros Hwf. destruct (split_state l a Hwf) as (lo & hi & -> & H1 & H2 & H3 & _).
  unfold lowerBound. rewrite H3. destruct hi as [|[k x] hi]; cbn [head].
  { exists None. split; [done|]. intros a' Ha. apply gap_at; [done| |by apply below_atmost, (below_mono a)|done].
    pose proof (wm_last _ Hwf) as Hl. by rewrite app_nil_r in Hl. }
  pose proof (wm_sorted _ Hwf) as (_ & _ & _ & Hk)%sorted_mid. apply Forall_inv in H2. cbn in H2.
  assert (B : isOpen x = false -> a < k -> exists j, prev_pt k (lo ++ (k, x) :: hi) = Some j
    /\ first_from (lo ++ (k, x) :: hi) a (Some (fst j))).
  { intros Eo Hne. destruct (area_before lo k x hi Hwf Eo) as (j & w & -> & A' & _ & Hj). specialize (Hj a H1).
    eexists. split; [done|]. exists k, w. split_and!; [done|lia|cbn; intros; lia]. }
  destruct (Z.eqb_spec k a) as [->|Hne].
  - destruct (get x) as [v|] eqn:Ex.
    + exists (Some a). split; [by destruct x|]. by apply (at_open _ _ _ _ _ v); auto.
    + destruct x; try done. cbn. rewrite next_mid by done. eexists. split; [done|]. by apply after_close.
  - destruct (isOpen x) eqn:Eo; cbn [negb].
    + exists (Some k). split; [done|]. destruct x; try done. by apply (at_open _ _ _ _ _ data); auto.
    + destruct B as ([j q] & -> & F); [done|lia|]. by exists (Some j).
Qed.

(** ** Areas and contents *)

Lemma areas_mid lo k x c y hi v : get x = Some v -> (k, c, v) ∈ areas (lo ++ (k, x) :: (c, y) :: hi).
Proof.
  intros Hx. induction lo as [|[j z] lo IH].
  - cbn. rewrite Hx. left.
  - cbn. destruct (get z); [|done]. destruct (lo ++ _) as [|[]]; [inversion IH|]. by right.
Qed.

Lemma areas_suffix lo r k c v : wf_mt (lo ++ r) -> (k, c, v) ∈ areas r -> area (lo ++ r) k c v.
Proof.
  revert lo. induction r as [|[j z] r IH]; intros lo Hwf Hin; [inversion Hin|].
  assert (N : (k, c, v) ∈ areas r -> area (lo ++ (j, z) :: r) k c v).
  { replace (lo ++ (j, z) :: r) with ((lo ++ [(j, z)]) ++ r) in * by (by rewrite <- app_assoc). by apply IH. }
  cbn in Hin. destruct (get z) as [w|] eqn:Ez; [|by apply N].
  destruct (area_at_point lo j z r w Hwf Ez) as (d & y & hi & -> & E).
  apply elem_of_cons in Hin as [[= -> -> ->]|Hin]; [|by apply N]. rewrite E. by eexists _, _, _.
Qed.

Lemma areas_in l k c v : wf_mt l -> area l k c v <-> (k, c, v) ∈ areas l.
Proof.
  intros Hwf. split; [|by apply (areas_suffix [])].
  intros (lo & s & hi & ->). apply areas_mid, get_pt.
Qed.

(** Every mapped address is in one of the areas. *)
Lemma areas_at l a v : wf_mt l -> mt_at l a = Some v <-> exists k c, (k, c, v) ∈ areas l /\ k <= a < c.
Proof.
  intros Hwf. split.
  - intros Ha. destruct (mt_queryArea_ok l a Hwf) as ([k|] & _ & H); [|congruence].
    destruct H as (c & w & A & Hk). exists k, c. split; [|done]. apply areas_in; [done|].
    destruct (area_facts l k c w (wm_sorted _ Hwf) A) as (_ & _ & _ & H). specialize (H a Hk).
    rewrite Ha in H. by injection H as ->.
  - intros (k & c & Hin & Hk). apply areas_in in Hin; [|done].
    destruct (area_facts l k c v (wm_sorted _ Hwf) Hin) as (_ & _ & _ & H). by apply H.
Qed.

(** ** Canonical tables *)

(** No two adjacent areas have the same payload. *)
Definition tight (s : option T) (x : Payload) : Prop := link s x /\ get x <> s.

Abbreviation canonical := (chained get tight None).

Lemma merged_canonical lo b e p s hi :
  chained get tight None lo -> chained get tight s hi -> canonical (merged_points lo b e p s hi).
Proof.
  intros H1 H2. unfold merged_points. rewrite chained_app. split; [done|].
  assert (H3 : chained get tight (Some p) ((if decide (s = Some p) then [] else [(e, pt (Some p) s)]) ++ hi)).
  { destruct (decide (s = Some p)) as [->|]; [done|]. cbn. rewrite get_pt. split; [|done].
    split; [apply link_pt_some|by rewrite get_pt]. }
  destruct (decide (state None lo = Some p)) as [->|]; [done|]. cbn. rewrite get_pt. split; [|done].
  split; [apply link_pt_intro|rewrite get_pt; congruence].
Qed.

(** A canonical table is determined by its contents. *)
Lemma canonical_ext (l1 l2 : mtable) s :
  sorted l1 -> sorted l2 -> chained get tight s l1 -> chained get tight s l2 ->
  (forall a, state_at get s l1 a = state_at get s l2 a) -> l1 = l2.
Proof.
  revert l2 s. induction l1 as [|[k x] l1 IH]; intros l2 s S1 S2 C1 C2 H.
  - destruct l2 as [|[k y] l2]; [done|]. destruct C2 as [[_ Hy] _]. specialize (H k). cbn in H.
    destruct (Z.leb_spec k k); [|lia]. rewrite state_at_above in H by apply S2. congruence.
  - destruct C1 as [[Lx Hx] C1]. destruct S1 as [A1 S1]. destruct l2 as [|[j y] l2].
    { specialize (H k). cbn in H. destruct (Z.leb_spec k k); [|lia]. rewrite state_at_above in H by done. congruence. }
    destruct C2 as [[Ly Hy] C2]. destruct S2 as [A2 S2]. cbn in A1, A2.
    assert (k = j) as <-.
    { destruct (Z.lt_trichotomy k j) as [Hl|[?|Hl]]; [|done|].
      - specialize (H k). cbn in H. destruct (Z.leb_spec k k), (Z.leb_spec j k); try lia.
        rewrite state_at_above in H by done. congruence.
      - specialize (H j). cbn in H. destruct (Z.leb_spec j j), (Z.leb_spec k j); try lia.
        rewrite state_at_above in H by done. congruence. }
    assert (get x = get y) as E.
    { specialize (H k). cbn in H. destruct (Z.leb_spec k k); [|lia]. by rewrite !state_at_above in H by done. }
    assert (x = y) as <- by (rewrite (link_pt _ _ Lx), (link_pt _ _ Ly); congruence).
    f_equal. apply (IH _ (get x)); try done. intros a. destruct (Z.le_gt_cases k a).
    + specialize (H a). cbn in H. by destruct (Z.leb_spec k a); [|lia].
    + rewrite !state_at_above; [done|..]; by apply (above_mono k); [lia|].
Qed.

(** unmap(range) *)
Lemma mt_unmap_ok d l b e :
  wf_mt l -> b < e ->
  exists l' r, mt_unmap d (mk_range b e) l = Some (l', r) /\ wf_mt l'
    /\ forall a, mt_at l' a = if in_range b e a then None else mt_at l a.
Proof.
  intros Hwf Hbe. destruct (split_range l b e (wm_sorted _ Hwf) Hbe) as (lo & ob & mid & oe & hi & HP).
  destruct (mapped_points_ok l b e d lo ob mid oe hi Hwf Hbe HP) as [Hwf' Hat].
  unfold mt_unmap. rewrite (mt_map_exec l b e d lo ob mid oe hi) by done. cbn [mbind option_bind].
  rewrite unmap_it_exec by apply Hwf'. destruct (unmapped_points_ok _ _ _ _ _ _ Hwf') as [W1 W2].
  eexists _, _. split_and!; [done|done|]. intros a. rewrite W2, Hat. by destruct (in_range b e a).
Qed.

(** map with merging keeps a canonical table canonical. *)
Lemma mt_map_canonical l b e p l' o :
  wf_mt l -> b < e -> canonical l -> mt_map (mk_range b e) p true false l = Some (l', o) -> canonical l'.
Proof.
  intros Hwf Hbe Hc E. destruct (split_range l b e (wm_sorted _ Hwf) Hbe) as (lo & ob & mid & oe & hi & HP).
  destruct (mapped_points_ok l b e p lo ob mid oe hi Hwf Hbe HP) as [Hwf' _].
  rewrite mt_map_merge_eq, (mt_map_exec l b e p lo ob mid oe hi) in E by done. cbn [mbind option_bind beginAddress endAddress] in E.
  destruct (map_merge_ok _ _ _ _ _ _ Hwf') as (o' & e' & E' & _). rewrite E' in E. injection E as <- _.
  destruct HP as [-> _ _ _ _ _]. rewrite !chained_app in Hc. destruct Hc as (C1 & _ & _ & _ & C5).
  apply merged_canonical; [done|]. by rewrite !last_state_app.
Qed.

End Table.

(** ** Properties *)

Abbreviation canonical := (chained get tight None).

(** C15: On a well-formed table and a valid range, map never fails an assertion
    and changes the payload of exactly the addresses of the range; the iterator
    it returns is that of the area around the range, which is the range itself
    without merging; with merging, a table without equal neighbours stays one,
    and such a table is determined by its contents.  unmap removes exactly the
    addresses of the range; queryArea finds the area of a mapped address and
    lowerBound the first area that ends above an address; the iterators visit
    the areas, and the areas are the contents. *)
Theorem memtable_refines {T : Type} `{EqDecision T} (l : list (Z * Payload (T := T))) (b e : Z) (p d : T) :
  wf_mt l -> b < e ->
  (forall mrg, exists l' o e', mt_map (mk_range b e) p mrg false l = Some (l', o) /\ wf_mt l'
     /\ (forall a, mt_at l' a = if in_range b e a then Some p else mt_at l a)
     /\ it_get o l' = Some p /\ it_range o l' = Some (mk_range o e') /\ o <= b /\ e <= e'
     /\ (mrg = false -> o = b /\ e' = e)
     /\ (mrg = true -> canonical l -> canonical l' /\ forall l2, wf_mt l2 -> canonical l2 ->
           (forall a, mt_at l2 a = mt_at l' a) -> l2 = l'))
  /\ (exists l' r, mt_unmap d (mk_range b e) l = Some (l', r) /\ wf_mt l'
       /\ forall a, mt_at l' a = if in_range b e a then None else mt_at l a)
  /\ (forall a, exists q f, mt_queryArea a l = Some q /\ lowerBound a l = Some f /\ first_from l a f
       /\ match q with Some k => exists c v, area l k c v /\ k <= a < c | None => mt_at l a = None end)
  /\ exists as_, mt_areas l = Some as_
       /\ forall a v, mt_at l a = Some v <-> exists k c, (k, c, v) ∈ as_ /\ k <= a < c.
Proof.
  intros Hwf Hbe. split_and!.
  - intros mrg. destruct (mt_map_ok l b e p mrg Hwf Hbe) as (l' & o & e' & E & W & A & Ar & H1 & H2 & H3).
    destruct (area_facts l' o e' p (wm_sorted _ W) Ar) as (_ & G & R & _). exists l', o, e'. split_and!; try done.
    intros -> Hc. pose proof (mt_map_canonical l b e p l' o Hwf Hbe Hc E) as Hc'. split; [done|].
    intros l2 W2 C2 H. apply (canonical_ext l2 l' None); try done; [apply W2|apply W].
  - by apply mt_unmap_ok.
  - intros a. destruct (mt_queryArea_ok l a Hwf) as (q & Eq & Q), (lowerBound_ok l a Hwf) as (f & Ef & F).
    by exists q, f.
  - exists (areas l). split; [by apply mt_areas_ok|]. intros a v. by apply areas_at.
Qed.

(** Two adjacent areas and a gap. *)
Definition sample_table : list (Z * Payload (T := Z)) := [(0, PO 1); (4, PXO 2); (8, PX); (16, PO 3); (32, PX)].

Lemma sample_table_wf : wf_mt sample_table.
Proof. split; cbn; repeat (constructor || split); lia. Qed.

Lemma memtable_refines_witness :
  mt_map (mk_range 2 16) 3 true false sample_table = Some ([(0, PO 1); (2, PXO 3); (32, PX)], 2)
  /\ mt_areas sample_table = Some [(0, 4, 1); (4, 8, 2); (16, 32, 3)]
  /\ exists l' o e', mt_map (mk_range 2 16) 3 true false sample_table = Some (l', o) /\ it_range o l' = Some (mk_range o e')
     /\ mt_at l' 9 = Some 3.
Proof.
  split; [reflexivity|]. split; [reflexivity|].
  destruct (memtable_refines sample_table 2 16 3 0 sample_table_wf ltac:(lia)) as [H _].
  destruct (H true) as (l' & o & e' & E & _ & A & _ & R & _). exists l', o, e'. split_and!; [done|done|]. by rewrite A.
Defined.
