(* ===== verification/MemResource.v ===== *)
(** * Allocation in an address space

    kernel::AllocableResource of kernel/include/kernel/MemoryResource.hpp over
    MemTable: the table of areas covers the resource without gaps, and each
    area is allocated or free.  [None] results are failed assertions and
    iterators outside the table.  Resources whose allocations listen to
    truncations are not modelled. *)

From stdpp Require Import base numbers list tactics.
From Stdlib Require Import Lia.
From S2P Require Import Prelude StdMap RxMemory MemTable.

Open Scope Z_scope.

(** AllocationFlags as bit positions of EnumBitSet. *)
Definition NoOverwrite : Z := 0.
Definition NoMerge : Z := 1.
Definition Fixed : Z := 2.
Definition Stack : Z := 3.
Definition Dry : Z := 4.

(** The std::errc values used. *)
Inductive errc :=
| errc_ok
| invalid_argument
| not_enough_memory
| file_exists.

#[global] Instance errc_eq_dec : EqDecision errc.
Proof. solve_decision. Defined.

(** The concept AllocationInfo, with the default value of the type. *)
Class AllocationInfo (T : Type) := {
  isAllocated : T -> bool;
  isRelated : T -> T -> AddressRange -> AddressRange -> bool;
  merge_info : T -> T -> AddressRange -> AddressRange -> T;
  default_info : T
}.

(** Merging keeps the state of two areas with the same state. *)
Class AllocationLaws (T : Type) `{AllocationInfo T} := {
  merge_allocated x y r r' : isAllocated x = isAllocated y -> isAllocated (merge_info x y r r') = isAllocated x
}.

Section Resource.

Context {T : Type} `{EqDecision T} `{AllocationInfo T}.

Abbreviation table := (list (Z * Payload (T := T))).

(** ** merge *)

(** The merging with the area in front of [it]. *)
Definition res_merge_prev (it : Z) (l : table) : option (table * Z) :=
  if bool_decide (mt_begin l = Some it) then Some (l, it)
  else
    prevIt ← it_prev (Some it) l;
    x ← it_get prevIt l; y ← it_get it l; r ← it_range prevIt l; r' ← it_range it l;
    if (if isAllocated x then isAllocated y && isRelated x y r r' else negb (isAllocated y))
    then mt_map (fromBeginEnd (beginAddress r) (endAddress r')) (merge_info x y r r') true false l
    else Some (l, it).

(** The merging with the area behind it. *)
Definition res_merge_next (it : Z) (l : table) : option (table * Z) :=
  nx ← it_next it l;
  match nx with
  | None => Some (l, it)
  | Some nextIt =>
      x ← it_get it l; y ← it_get nextIt l; r ← it_range it l; r' ← it_range nextIt l;
      if (if isAllocated y then isAllocated x && isRelated x y r r' else negb (isAllocated x))
      then mt_map (fromBeginEnd (beginAddress r) (endAddress r')) (merge_info x y r r') true false l
      else Some (l, it)
  end.

Definition res_merge (it : Z) (l : table) : option (table * Z) :=
  '(l1, it1) ← res_merge_prev it l; res_merge_next it1 l1.

(** ** map *)

(** The hint aligned in the direction of the search. *)
Definition align_hint (stack : bool) (addressHint alignment : Z) : Z :=
  if stack then alignDown 64 addressHint alignment else alignUp 64 addressHint alignment.

(** The area the search begins at. *)
Definition start_area (fixed stack : bool) (addressHint : Z) (l : table) : option (option Z) :=
  if fixed then mt_queryArea addressHint l
  else if (addressHint =? 0) && stack then
    match l with
    | [] => Some None
    | _ => it ← it_prev None l; Some (Some it)
    end
  else lowerBound addressHint l.

(** hasEnoughSpace *)
Definition hasEnoughSpace (stack : bool) (addressHint size alignment : Z) (range : AddressRange) : bool :=
  let range :=
    if negb (addressHint =? 0) && contains range addressHint then
      if stack then fromBeginEnd (alignDown 64 (beginAddress range) alignment) addressHint
      else fromBeginEnd addressHint (endAddress range)
    else if stack then
      intersection range (fromBeginEnd (alignDown 64 (wrap 64 (endAddress range - size)) alignment) (endAddress range))
    else range in
  let aligned := fromBeginEnd (alignUp 64 (beginAddress range) alignment) (endAddress range) in
  isValid aligned && (size <=? range_size aligned).

(** !it->isAllocated() && hasEnoughSpace(it.range()) *)
Definition suitable (stack : bool) (addressHint size alignment : Z) (it : Z) (l : table) : option bool :=
  x ← it_get it l; r ← it_range it l;
  Some (negb (isAllocated x) && hasEnoughSpace stack addressHint size alignment r).

(** The search towards lower addresses. *)
Fixpoint search_down (fuel : nat) (addressHint size alignment : Z) (it : Z) (l : table) : option (option Z) :=
  match fuel with
  | O => None
  | S fuel' =>
      match suitable true addressHint size alignment it l with
      | None => None
      | Some true => Some (Some it)
      | Some false =>
          if bool_decide (mt_begin l = Some it) then Some None
          else it' ← it_prev (Some it) l; search_down fuel' addressHint size alignment it' l
      end
  end.

(** The search towards higher addresses. *)
Fixpoint search_up (fuel : nat) (addressHint size alignment : Z) (it : option Z) (l : table) : option (option Z) :=
  match it, fuel with
  | None, _ => Some None
  | Some _, O => None
  | Some k, S fuel' =>
      match suitable false addressHint size alignment k l with
      | None => None
      | Some true => Some (Some k)
      | Some false => it' ← it_next k l; search_up fuel' addressHint size alignment it' l
      end
  end.

(** The range in the area found. *)
Definition place (stack : bool) (addressHint size alignment : Z) (range : AddressRange) : AddressRange :=
  if negb (addressHint =? 0) && contains range addressHint then
    if stack then fromBeginSize (alignDown 64 (wrap 64 (addressHint - size)) alignment) size
    else fromBeginEnd addressHint (endAddress range)
  else if stack then fromBeginSize (alignDown 64 (wrap 64 (endAddress range - size)) alignment) size
  else fromBeginSize (alignUp 64 (beginAddress range) alignment) size.

(** A range longer than needed is cut. *)
Definition cut_range (stack : bool) (size alignment : Z) (range : AddressRange) : AddressRange :=
  if size <? range_size range then
    if stack then fromBeginSize (alignDown 64 (wrap 64 (endAddress range - size)) alignment) size
    else fromBeginSize (beginAddress range) size
  else range.

(** The range of a fixed allocation that begins in the area [it]. *)
Definition fixed_range (flags addressHint size : Z) (it : Z) (l : table) : option (errc + AddressRange) :=
  let range := fromBeginSize addressHint size in
  endIt ← mt_queryArea (wrap 64 (wrap 64 (addressHint + size) - 1)) l;
  match endIt with
  | None => Some (inl not_enough_memory)
  | Some _ =>
      if Z.testbit flags NoOverwrite then
        x ← it_get it l; r ← it_range it l;
        Some (if isAllocated x || negb (contains_range r range) then inl file_exists else inr range)
      else Some (inr range)
  end.

(** The range of a searched allocation, and its area. *)
Definition free_range (stack : bool) (addressHint size alignment : Z) (it : Z) (l : table)
    : option (errc + Z * AddressRange) :=
  found ← (if stack then search_down (length l) addressHint size alignment it l
           else search_up (length l) addressHint size alignment (Some it) l);
  match found with
  | None => Some (inl not_enough_memory)
  | Some k => r ← it_range k l; Some (inr (k, place stack addressHint size alignment r))
  end.

(** The result of map: the iterator ([None] is end()), the error, the range. *)
Record AllocationResult := mk_result { res_it : option Z; res_errc : errc; res_range : AddressRange }.

(** it.get() = allocationInfo *)
Definition set_info (it : Z) (info : T) (l : table) : option table :=
  x ← find_pt it l; '(y, _) ← exchange info x; Some (set_pt it y l).

(** The table with the range [range], found in the area [it], replaced. *)
Definition store_info (flags : Z) (info : T) (it : Z) (range : AddressRange) (l : table)
    : option (table * AllocationResult) :=
  if Z.testbit flags Dry then Some (l, mk_result None errc_ok range)
  else
    r ← it_range it l;
    '(l1, it1) ←
      (if bool_decide (beginAddress r = beginAddress range /\ endAddress r = endAddress range)
       then l1 ← set_info it info l; Some (l1, it)
       else mt_map range info false false l);
    if Z.testbit flags NoMerge then Some (l1, mk_result (Some it1) errc_ok range)
    else '(l2, it2) ← res_merge it1 l1; Some (l2, mk_result (Some it2) errc_ok range).

Definition failed_result (e : errc) (l : table) : option (table * AllocationResult) :=
  Some (l, mk_result None e default_range).

(** AllocableResource::map *)
Definition res_map (addressHint size : Z) (info : T) (flags alignment : Z) (l : table)
    : option (table * AllocationResult) :=
  let stack := Z.testbit flags Stack in
  let fixed := Z.testbit flags Fixed in
  let hint := align_hint stack addressHint alignment in
  it ← start_area fixed stack hint l;
  match it with
  | None => failed_result invalid_argument l
  | Some it =>
      if fixed then
        found ← fixed_range flags hint size it l;
        match found with
        | inl e => failed_result e l
        | inr range => store_info flags info it (cut_range stack size alignment range) l
        end
      else
        found ← free_range stack hint size alignment it l;
        match found with
        | inl e => failed_result e l
        | inr (k, range) => store_info flags info k (cut_range stack size alignment range) l
        end
  end.

(** AllocableResource::create over an ExternalResource, and destroy. *)
Definition res_create (range : AddressRange) (l : table) : option (table * errc) :=
  '(l1, _) ← mt_map range default_info true false l; Some (l1, errc_ok).

Definition res_destroy (l : table) : table := [].

End Resource.

(** ** Resources without gaps *)

Section Tiled.

Context {T : Type} `{EqDecision T}.

Abbreviation table := (list (Z * Payload (T := T))).

Abbreviation state := (last_state get).

Implicit Types l : table.

#[local] Arguments link : simpl never.
#[local] Arguments pt : simpl never.

(** The areas cover exactly [b0] to [e0]. *)
Record tiled (l : table) (b0 e0 : Z) : Prop := {
  ti_wf : wf_mt l;
  ti_range : b0 < e0;
  ti_at : forall a, is_Some (mt_at l a) <-> b0 <= a < e0
}.

Lemma tiled_area l b0 e0 b e p : tiled l b0 e0 -> area l b e p -> b0 <= b < e /\ e <= e0.
Proof.
  intros [W R A] Ar. destruct (area_facts l b e p (wm_sorted _ W) Ar) as (Hbe & _ & _ & H).
  assert (b0 <= b < e0) by (apply A; rewrite H; [done|lia]).
  assert (b0 <= e - 1 < e0) by (apply A; rewrite H; [done|lia]). lia.
Qed.

(** The area in front of an area. *)
Lemma tiled_prev lo b e p s hi b0 e0 :
  tiled (mapped_points lo b e p s hi) b0 e0 ->
  (lo = [] /\ b = b0)
  \/ exists lo' j v, lo = lo' ++ [(j, pt (state None lo') (Some v))] /\ b0 <= j < b
       /\ mapped_points lo b e p s hi = mapped_points lo' j b v (Some p) ((e, pt (Some p) s) :: hi)
       /\ it_prev (Some b) (mapped_points lo b e p s hi) = Some j.
Proof.
  intros Ht. pose proof Ht as [W R A]. pose proof W as (Hs & Hc & _)%mapped_points_wf.
  pose proof Hs as (Hbe & Hlo & Hhi & Hhb & _)%mapped_points_bounds.
  destruct (tiled_area _ _ _ b e p Ht) as [Hb He]; [by eexists _, _, _|].
  destruct (state None lo) as [v|] eqn:E.
  - right. destruct (state_last lo v Hc E) as (lo' & j & ->). exists lo', j, v.
    assert (Em : mapped_points (lo' ++ [(j, pt (state None lo') (Some v))]) b e p s hi
      = mapped_points lo' j b v (Some p) ((e, pt (Some p) s) :: hi)).
    { unfold mapped_points. rewrite E, <- app_assoc. done. }
    split_and!; try done.
    + destruct (tiled_area _ _ _ j b v Ht) as [Hj _]; [rewrite Em; by eexists _, _, _|lia].
    + apply list.Forall_app in Hlo as [_ Hj%Forall_inv]. done.
    + unfold it_prev. rewrite mapped_points_prev, last_snoc by done. cbn. by destruct (state None lo').
  - left. destruct (list.last lo) as [[c q]|] eqn:El.
    + exfalso. apply last_Some in El as [lo' ->]. rewrite last_state_app in E. cbn in E.
      destruct q; try done.
      assert (Em : mapped_points (lo' ++ [(c, PX)]) b e p s hi
        = lo' ++ (c, PX) :: (b, pt (state None (lo' ++ [(c, PX)])) (Some p)) :: (e, pt (Some p) s) :: hi)
        by (unfold mapped_points; by rewrite <- app_assoc).
      destruct (area_before lo' c PX ((b, pt (state None (lo' ++ [(c, PX)])) (Some p)) :: (e, pt (Some p) s) :: hi))
        as (j & v & _ & Ar & _); [by rewrite <- Em|done|]. rewrite <- Em in Ar.
      destruct (tiled_area _ _ _ j c v Ht Ar) as [Hj _]. apply list.Forall_app in Hlo as [Hlo Hc'%Forall_inv]. cbn in Hc'.
      destruct (proj2 (A c)) as [x Hx]; [lia|]. unfold mapped_points in Hx. rewrite (gap_at (lo' ++ [(c, PX)])) in Hx; [done|done|by rewrite last_state_app| |].
      * apply list.Forall_app. split; [|by constructor].
        apply sorted_mid in Hs as (Hs & _). apply sorted_mid in Hs as (_ & _ & H1 & _). by apply below_atmost.
      * constructor; [done|]. constructor; [cbn; lia|]. by apply (above_mono b); [lia|].
    + apply last_None in El as ->. split; [done|].
      assert (b0 < b \/ b0 = b) as [Hlt|] by lia; [|done]. exfalso.
      destruct (proj2 (A b0)) as [x Hx]; [lia|]. rewrite mapped_points_at in Hx by done.
      by destruct (Z.ltb_spec b0 b); [|lia].
Qed.

(** The area behind an area. *)
Lemma tiled_next lo b e p s hi b0 e0 :
  tiled (mapped_points lo b e p s hi) b0 e0 ->
  (s = None /\ hi = [] /\ e = e0 /\ it_next b (mapped_points lo b e p s hi) = Some None)
  \/ exists v c s' hi', s = Some v /\ hi = (c, pt (Some v) s') :: hi' /\ b < e < e0
       /\ mapped_points lo b e p s hi = mapped_points (lo ++ [(b, pt (state None lo) (Some p))]) e c v s' hi'
       /\ it_next b (mapped_points lo b e p s hi) = Some (Some e).
Proof.
  intros Ht. pose proof Ht as [W R A]. pose proof W as (Hs & _ & Hc & Hl)%mapped_points_wf.
  pose proof Hs as (Hbe & Hlo & Hhi & Hhb & _)%mapped_points_bounds.
  destruct (tiled_area _ _ _ b e p Ht) as [Hb He]; [by eexists _, _, _|]. rewrite it_next_ok by done.
  destruct s as [v|].
  - right. destruct hi as [|[c y] hi]; [done|]. destruct Hc as [L _]. exists v, c, (get y), hi.
    rewrite <- (link_pt _ _ L). split_and!; try done.
    + destruct (proj1 (A e)); [|lia]. rewrite mapped_points_at by done.
      destruct (Z.ltb_spec e b), (Z.ltb_spec e e); try lia.
      rewrite state_at_above by done. done.
    + unfold mapped_points. rewrite last_state_app, <- app_assoc. cbn. rewrite get_pt. by rewrite <- (link_pt _ _ L).
  - left. destruct hi as [|[c y] hi]; cycle 1.
    { exfalso. destruct Hc as [L _]. unfold link in L. destruct y as [w| |]; try done.
      pose proof W as W'. replace (mapped_points lo b e p None ((c, PO w) :: hi))
        with ((lo ++ [(b, pt (state None lo) (Some p)); (e, PX)]) ++ (c, PO w) :: hi) in W' by (by rewrite <- app_assoc).
      destruct (area_at_point _ c (PO w) hi w W' eq_refl) as (d & y & hi' & -> & Em).
      rewrite <- app_assoc in Em. destruct (tiled_area _ _ _ c d w Ht) as [Hc' Hd].
      { unfold mapped_points at 1. cbn in Em. change (pt (Some p) None) with (PX (T := T)). rewrite Em. by eexists _, _, _. }
      apply Forall_inv in Hhi. cbn in Hhi. destruct (proj2 (A e)) as [x Hx]; [lia|].
      rewrite mapped_points_at in Hx by done. destruct (Z.ltb_spec e b), (Z.ltb_spec e e); try lia.
      cbn in Hx. by destruct (Z.leb_spec c e); [lia|]. }
    split_and!; try done. assert (e < e0 \/ e = e0) as [Hlt|] by lia; [|done]. exfalso.
    destruct (proj2 (A e)) as [x Hx]; [lia|]. rewrite mapped_points_at in Hx by done.
    by destruct (Z.ltb_spec e b), (Z.ltb_spec e e); try lia.
Qed.

(** An area is known by its first address, and areas are in order. *)
Lemma area_same l k c v c' v' : sorted l -> area l k c v -> area l k c' v' -> c = c' /\ v = v'.
Proof.
  intros Hs A1 A2. destruct (area_facts l k c v Hs A1) as (_ & G1 & R1 & _).
  destruct (area_facts l k c' v' Hs A2) as (_ & G2 & R2 & _). split; congruence.
Qed.

Lemma area_order l k c v k' c' v' : wf_mt l -> area l k c v -> area l k' c' v' -> k < k' -> c <= k'.
Proof.
  intros W (lo & s & hi & ->) (lo' & s' & hi' & E) Hk. pose proof (wm_sorted _ W) as (Hbe & Hlo & Hhi & Hhb & _)%mapped_points_bounds.
  assert (Hin : (k', pt (state None lo') (Some v')) ∈ mapped_points lo k c v s hi).
  { rewrite E. unfold mapped_points. apply elem_of_app. right. left. }
  unfold mapped_points in Hin. rewrite elem_of_app, !elem_of_cons in Hin.
  destruct Hin as [Hin|[[= ? _]|[[= ? _]|Hin]]]; [|lia|lia|].
  - rewrite list.Forall_forall in Hlo. specialize (Hlo _ Hin). cbn in Hlo. lia.
  - rewrite list.Forall_forall in Hhi. specialize (Hhi _ Hin). cbn in Hhi. lia.
Qed.

(** The area of an address. *)
Lemma tiled_find l b0 e0 a :
  tiled l b0 e0 -> b0 <= a < e0 -> exists k c v, mt_queryArea a l = Some (Some k) /\ area l k c v /\ k <= a < c.
Proof.
  intros [W R A] Ha. destruct (mt_queryArea_ok l a W) as ([k|] & E & H).
  - destruct H as (c & v & Ar & Hk). by exists k, c, v.
  - destruct (proj2 (A a) Ha) as [x Hx]. congruence.
Qed.

Lemma tiled_begin l b0 e0 : tiled l b0 e0 -> mt_begin l = Some b0.
Proof.
  intros Ht. pose proof (ti_range _ _ _ Ht). destruct (tiled_find l b0 e0 b0 Ht) as (k & c & v & _ & Ar & Hk); [lia|].
  destruct (tiled_area _ _ _ _ _ _ Ht Ar) as [Hb _]. assert (k = b0) as -> by lia.
  destruct Ar as (lo & s & hi & ->). destruct (tiled_prev _ _ _ _ _ _ _ _ Ht) as [[-> _]|(lo' & j & w & _ & Hj & _)]; [done|lia].
Qed.

Lemma tiled_last l b0 e0 : tiled l b0 e0 -> exists j v, it_prev None l = Some j /\ area l j e0 v.
Proof.
  intros Ht. pose proof (ti_range _ _ _ Ht). destruct (tiled_find l b0 e0 (e0 - 1) Ht) as (k & c & v & _ & Ar & Hk); [lia|].
  destruct (tiled_area _ _ _ _ _ _ Ht Ar) as [Hb Hc]. assert (c = e0) as -> by lia. exists k, v. split; [|done].
  destruct Ar as (lo & s & hi & ->). destruct (tiled_next _ _ _ _ _ _ _ _ Ht) as [(-> & -> & _)|(w & d & s' & hi' & _ & _ & He & _)]; [|lia].
  pose proof (wm_sorted _ (ti_wf _ _ _ Ht)) as (Hbe & Hlo & _)%mapped_points_bounds.
  assert (E : mapped_points lo k e0 v None [] = (lo ++ [(k, pt (state None lo) (Some v))]) ++ [(e0, PX)])
    by (unfold mapped_points; by rewrite <- app_assoc).
  unfold it_prev. rewrite E, last_snoc. cbn [mbind option_bind isClose].
  rewrite prev_split by (by apply (below_front k e0 lo []) || by constructor). by rewrite last_snoc.
Qed.

(** Replacing the payloads of a range inside keeps the areas without gaps. *)
Lemma tiled_replace l l' b0 e0 b e p :
  tiled l b0 e0 -> wf_mt l' -> b0 <= b -> e <= e0 ->
  (forall a, mt_at l' a = if in_range b e a then Some p else mt_at l a) -> tiled l' b0 e0.
Proof.
  intros [W R A] W' Hb He H. split; [done|done|]. intros a. rewrite H. unfold in_range.
  destruct (Z.leb_spec b a), (Z.ltb_spec a e); cbn; [|apply A..]. split; [lia|by eexists].
Qed.

Lemma tiled_map l b0 e0 b e p mrg :
  tiled l b0 e0 -> b0 <= b -> b < e -> e <= e0 ->
  exists l' o e', mt_map (mk_range b e) p mrg false l = Some (l', o) /\ tiled l' b0 e0 /\ area l' o e' p
    /\ forall a, mt_at l' a = if in_range b e a then Some p else mt_at l a.
Proof.
  intros Ht Hb Hbe He. destruct (mt_map_ok l b e p mrg (ti_wf _ _ _ Ht) Hbe) as (l' & o & e' & E & W & A & Ar & _).
  exists l', o, e'. split_and!; try done. by apply (tiled_replace l l' b0 e0 b e p).
Qed.

End Tiled.

(** ** Room in an area *)

Section Room.

Context (k size : Z) (Hk : 0 <= k < 64) (Hsize : 0 < size < 2 ^ 64).

Lemma multiple_gap x y : x mod 2 ^ k = 0 -> y mod 2 ^ k = 0 -> x < y -> x + 2 ^ k <= y.
Proof.
  intros Hx Hy Hl. pose proof (pow2_pos k ltac:(lia)) as Hp.
  pose proof (Z.div_mod x (2 ^ k) ltac:(lia)) as Ex. pose proof (Z.div_mod y (2 ^ k) ltac:(lia)) as Ey.
  rewrite Hx, Z.add_0_r in Ex. rewrite Hy, Z.add_0_r in Ey. rewrite Ex, Ey in Hl |- *.
  apply (Z.mul_lt_mono_pos_l _ _ _ Hp) in Hl. nia.
Qed.

(** The aligned address is the least one. *)
Lemma alignUp_least v x :
  0 <= v -> v + 2 ^ k <= 2 ^ 64 -> x mod 2 ^ k = 0 -> v <= x -> v <= alignUp 64 v (2 ^ k) <= x.
Proof.
  intros Hv Hb Hx Hvx. destruct (alignUp_spec 64 v k Hk Hv ltac:(lia)) as [H1 H2]. split; [lia|].
  destruct (Z.le_gt_cases (alignUp 64 v (2 ^ k)) x) as [|Hl]; [done|]. pose proof (multiple_gap _ _ Hx H2 Hl). lia.
Qed.

Lemma alignUp_fixed v : 0 <= v -> v + 2 ^ k <= 2 ^ 64 -> v mod 2 ^ k = 0 -> alignUp 64 v (2 ^ k) = v.
Proof. intros Hv Hb Hm. pose proof (alignUp_least v v Hv Hb Hm). lia. Qed.

(** The aligned address below is the greatest one. *)
Lemma alignDown_greatest v x :
  0 <= v < 2 ^ 64 -> x mod 2 ^ k = 0 -> x <= v -> x <= alignDown 64 v (2 ^ k) <= v.
Proof.
  intros Hv Hx Hvx. rewrite (alignDown_spec 64 v k Hk) by done. pose proof (pow2_pos k ltac:(lia)) as Hp.
  pose proof (Z.mod_pos_bound v (2 ^ k) Hp). split; [|lia].
  destruct (Z.le_gt_cases x (v - v mod 2 ^ k)) as [|Hl]; [done|]. apply multiple_gap in Hl; [lia| |done].
  rewrite Zminus_mod_idemp_r, Z.sub_diag. by apply Z.mod_0_l; lia.
Qed.

Lemma alignDown_mod v : 0 <= v < 2 ^ 64 -> 0 <= alignDown 64 v (2 ^ k) <= v /\ alignDown 64 v (2 ^ k) mod 2 ^ k = 0.
Proof.
  intros Hv. rewrite (alignDown_spec 64 v k Hk) by done. pose proof (pow2_pos k ltac:(lia)) as Hp.
  pose proof (Z.mod_pos_bound v (2 ^ k) Hp). pose proof (Z.mod_le v (2 ^ k)).
  split; [lia|]. rewrite Zminus_mod_idemp_r, Z.sub_diag. by apply Z.mod_0_l; lia.
Qed.

(** The last test of hasEnoughSpace. *)
Lemma room_test u c :
  0 <= u -> c < 2 ^ 64 -> isValid (mk_range u c) && (size <=? range_size (mk_range u c)) = (u + size <=? c).
Proof.
  intros Hu Hc. unfold isValid, range_size. cbn. destruct (Z.ltb_spec u c); cbn.
  - rewrite wrap_id by (split; lia). destruct (Z.leb_spec size (c - u)), (Z.leb_spec (u + size) c); lia || done.
  - destruct (Z.leb_spec (u + size) c); [lia|done].
Qed.

Context (b c : Z) (Hb : 0 <= b < c) (Hc : c + 2 ^ k <= 2 ^ 64).

(** The first address a search upwards may use in the area. *)
Definition room_from (hint : Z) : Z := if negb (hint =? 0) && contains (mk_range b c) hint then hint else b.

Lemma room_from_bounds hint : 0 <= hint -> b <= room_from hint < c /\ (hint <= room_from hint \/ c <= hint).
Proof.
  intros Hh. unfold room_from, contains. cbn.
  destruct (Z.eqb_spec hint 0), (Z.leb_spec b hint), (Z.ltb_spec hint c); cbn; lia.
Qed.

Lemma enough_up hint :
  0 <= hint ->
  hasEnoughSpace false hint size (2 ^ k) (mk_range b c) = (alignUp 64 (room_from hint) (2 ^ k) + size <=? c).
Proof.
  intros Hh. pose proof (pow2_pos k ltac:(lia)) as Hp. unfold hasEnoughSpace.
  pose proof (room_from_bounds hint Hh) as [H1 _].
  destruct (alignUp_spec 64 (room_from hint) k Hk ltac:(lia) ltac:(lia)) as [H2 _].
  rewrite <- room_test by lia. unfold room_from. by destruct (negb _ && _).
Qed.

(** A range placed upwards is the first aligned one. *)
Lemma place_up hint :
  0 <= hint -> hint mod 2 ^ k = 0 -> hasEnoughSpace false hint size (2 ^ k) (mk_range b c) = true ->
  exists x, cut_range false size (2 ^ k) (place false hint size (2 ^ k) (mk_range b c)) = mk_range x (x + size)
    /\ x mod 2 ^ k = 0 /\ b <= x /\ x + size <= c.
Proof.
  intros Hh Hm He. rewrite enough_up in He by done. apply Z.leb_le in He. pose proof (pow2_pos k ltac:(lia)) as Hp.
  pose proof (room_from_bounds hint Hh) as [H1 _].
  destruct (alignUp_spec 64 (room_from hint) k Hk ltac:(lia) ltac:(lia)) as [H2 H3].
  exists (alignUp 64 (room_from hint) (2 ^ k)). split_and!; try lia. unfold place, cut_range.
  unfold room_from in *. destruct (negb _ && _) eqn:E; cbn [beginAddress endAddress].
  - rewrite alignUp_fixed in * by (done || lia). unfold range_size, fromBeginSize, fromBeginEnd. cbn.
    rewrite (wrap_id 64 (c - hint)), (wrap_id 64 (hint + size)) by (split; lia).
    destruct (Z.ltb_spec size (c - hint)); [done|]. f_equal. lia.
  - unfold range_size, fromBeginSize. cbn. rewrite (wrap_id 64 (_ + size)) by (split; lia).
    replace (alignUp 64 b (2 ^ k) + size - alignUp 64 b (2 ^ k)) with size by lia.
    rewrite wrap_id by (split; lia). by rewrite Z.ltb_irrefl.
Qed.

(** The search downwards without a hint: the last aligned range. *)
Lemma enough_down :
  hasEnoughSpace true 0 size (2 ^ k) (mk_range b c) = (size <=? c) && (b <=? alignDown 64 (c - size) (2 ^ k)).
Proof.
  pose proof (pow2_pos k ltac:(lia)) as Hp. unfold hasEnoughSpace. cbn [Z.eqb negb andb].
  unfold intersection, fromBeginEnd. cbn [beginAddress endAddress]. rewrite Z.min_id.
  set (d := alignDown 64 (wrap 64 (c - size)) (2 ^ k)).
  assert (Hd : 0 <= d). { apply alignDown_mod. apply wrap_range. lia. }
  destruct (Z.leb_spec size c) as [Hsc|Hsc]; cbn [andb].
  - assert (Ed : d = alignDown 64 (c - size) (2 ^ k)) by (subst d; by rewrite wrap_id by (split; lia)). rewrite <- Ed.
    destruct (alignDown_mod (c - size) ltac:(lia)) as [D1 D2]. rewrite <- Ed in D1, D2.
    destruct (alignUp_spec 64 (Z.max b d) k Hk ltac:(lia) ltac:(lia)) as [U1 U2]. rewrite room_test by lia.
    destruct (Z.leb_spec b d).
    + replace (Z.max b d) with d by lia. rewrite alignUp_fixed by (done || lia). by apply Z.leb_le; lia.
    + apply Z.leb_gt. destruct (Z.lt_ge_cases c (alignUp 64 (Z.max b d) (2 ^ k) + size)) as [|Hge]; [done|].
      pose proof (alignDown_greatest (c - size) _ ltac:(lia) U2 ltac:(lia)). lia.
  - apply andb_false_iff. unfold isValid, range_size. cbn [beginAddress endAddress].
    set (u := alignUp 64 (Z.max b d) (2 ^ k)). assert (Hu : 0 <= u).
    { subst u. unfold alignUp. apply Z.land_nonneg. left. apply wrap_range. lia. }
    destruct (Z.ltb_spec u c); [right|by left]. apply Z.leb_gt. rewrite wrap_id by (split; lia). lia.
Qed.

Lemma place_down :
  hasEnoughSpace true 0 size (2 ^ k) (mk_range b c) = true ->
  exists x, cut_range true size (2 ^ k) (place true 0 size (2 ^ k) (mk_range b c)) = mk_range x (x + size)
    /\ x mod 2 ^ k = 0 /\ b <= x /\ x + size <= c.
Proof.
  rewrite enough_down. intros [H1%Z.leb_le H2%Z.leb_le]%andb_true_iff. pose proof (pow2_pos k ltac:(lia)) as Hp.
  destruct (alignDown_mod (c - size) ltac:(lia)) as [D1 D2]. exists (alignDown 64 (c - size) (2 ^ k)).
  split_and!; try lia. unfold place, cut_range, range_size, fromBeginSize. cbn [Z.eqb negb andb beginAddress endAddress].
  rewrite (wrap_id 64 (c - size)), (wrap_id 64 (_ + size)) by (split; lia).
  replace (alignDown 64 (c - size) (2 ^ k) + size - alignDown 64 (c - size) (2 ^ k)) with size by lia.
  rewrite wrap_id by (split; lia). by rewrite Z.ltb_irrefl.
Qed.

(** The search downwards with a hint: below the hint in the area that holds it,
    which must begin at an aligned address, and as without one elsewhere. *)
Definition hint_inside (hint : Z) : bool := negb (hint =? 0) && contains (mk_range b c) hint.

Lemma hint_inside_true hint : hint_inside hint = true -> hint <> 0 /\ b <= hint < c.
Proof.
  unfold hint_inside, contains. cbn. destruct (Z.eqb_spec hint 0), (Z.leb_spec b hint), (Z.ltb_spec hint c); cbn; done || lia.
Qed.

Lemma hint_inside_false hint : hint_inside hint = false -> hint = 0 \/ hint < b \/ c <= hint.
Proof.
  unfold hint_inside, contains. cbn. destruct (Z.eqb_spec hint 0), (Z.leb_spec b hint), (Z.ltb_spec hint c); cbn; done || lia.
Qed.

Lemma enough_outside hint :
  hint_inside hint = false -> hasEnoughSpace true hint size (2 ^ k) (mk_range b c) = hasEnoughSpace true 0 size (2 ^ k) (mk_range b c).
Proof. unfold hint_inside, hasEnoughSpace. by intros ->. Qed.

Lemma enough_inside hint :
  hint_inside hint = true -> b mod 2 ^ k = 0 -> hasEnoughSpace true hint size (2 ^ k) (mk_range b c) = (b + size <=? hint).
Proof.
  intros Hi Hm. pose proof (hint_inside_true hint Hi). pose proof (pow2_pos k ltac:(lia)) as Hp.
  unfold hint_inside in Hi. unfold hasEnoughSpace. rewrite Hi. cbn [beginAddress endAddress fromBeginEnd].
  rewrite (alignDown_spec 64 b k Hk) by (split; lia). rewrite Hm, Z.sub_0_r, alignUp_fixed by (done || lia).
  apply room_test; lia.
Qed.

Lemma place_stack hint :
  0 <= hint -> (b <= hint < c -> b mod 2 ^ k = 0) -> hasEnoughSpace true hint size (2 ^ k) (mk_range b c) = true ->
  exists x, cut_range true size (2 ^ k) (place true hint size (2 ^ k) (mk_range b c)) = mk_range x (x + size)
    /\ x mod 2 ^ k = 0 /\ b <= x /\ x + size <= c.
Proof.
  intros Hh Ha He. destruct (hint_inside hint) eqn:Hi; cycle 1.
  { rewrite enough_outside in He by done. replace (place true hint _ _ _) with (place true 0 size (2 ^ k) (mk_range b c)); [by apply place_down|].
    unfold hint_inside in Hi. unfold place. by rewrite Hi. }
  destruct (hint_inside_true hint Hi) as [Hn Hin]. rewrite enough_inside in He by auto. apply Z.leb_le in He.
  pose proof (pow2_pos k ltac:(lia)) as Hp. destruct (alignDown_mod (hint - size) ltac:(lia)) as [D1 D2].
  pose proof (alignDown_greatest (hint - size) b ltac:(lia) (Ha Hin) ltac:(lia)) as D3.
  exists (alignDown 64 (hint - size) (2 ^ k)). split_and!; try lia. unfold hint_inside in Hi. unfold place. rewrite Hi.
  unfold cut_range, range_size, fromBeginSize. cbn [beginAddress endAddress].
  rewrite (wrap_id 64 (hint - size)), (wrap_id 64 (_ + size)) by (split; lia).
  replace (alignDown 64 (hint - size) (2 ^ k) + size - alignDown 64 (hint - size) (2 ^ k)) with size by lia.
  rewrite wrap_id by (split; lia). by rewrite Z.ltb_irrefl.
Qed.

(** Whether the block at [x] is on the side of the hint that is searched. *)
Definition searched (stack : bool) (hint x : Z) : Prop :=
  if stack then hint = 0 \/ x + size <= hint else hint <= x.

(** An area without room has no aligned range. *)
Lemma no_room stack hint x :
  0 <= hint -> (stack = true -> b <= hint < c -> b mod 2 ^ k = 0) -> hasEnoughSpace stack hint size (2 ^ k) (mk_range b c) = false ->
  x mod 2 ^ k = 0 -> searched stack hint x -> b <= x -> x + size <= c -> False.
Proof.
  intros Hh Hst He Hx Hhx Hbx Hxc. pose proof (pow2_pos k ltac:(lia)) as Hp. destruct stack; cbn in Hhx.
  - destruct (hint_inside hint) eqn:Hi.
    + destruct (hint_inside_true hint Hi). rewrite enough_inside in He by auto. apply Z.leb_gt in He. lia.
    + rewrite enough_outside, enough_down in He by done.
      pose proof (alignDown_greatest (c - size) x ltac:(lia) Hx ltac:(lia)).
      destruct (Z.leb_spec size c), (Z.leb_spec b (alignDown 64 (c - size) (2 ^ k))); lia || done.
  - rewrite enough_up in He by done. apply Z.leb_gt in He. pose proof (room_from_bounds hint Hh) as [H1 _].
    assert (room_from hint <= x) by (unfold room_from in *; destruct (negb _ && _); lia).
    pose proof (alignUp_least (room_from hint) x ltac:(lia) ltac:(lia) Hx ltac:(lia)). lia.
Qed.

End Room.

(** ** The operations on a resource without gaps *)

Section Laws.

Context {T : Type} `{EqDecision T} `{AllocationInfo T} `{!AllocationLaws T}.

Abbreviation table := (list (Z * Payload (T := T))).

Implicit Types l : table.

(** Whether an address is allocated; [None] outside the resource. *)
Definition status (l : table) (a : Z) : option bool := isAllocated <$> mt_at l a.

(** *** Searching *)

Definition fits (stack : bool) (hint size alignment : Z) (v : T) (r : AddressRange) : bool :=
  negb (isAllocated v) && hasEnoughSpace stack hint size alignment r.

Lemma suitable_area stack hint size alignment l k c v :
  sorted l -> area l k c v -> suitable stack hint size alignment k l = Some (fits stack hint size alignment v (mk_range k c)).
Proof. intros Hs A. destruct (area_facts l k c v Hs A) as (_ & G & R & _). unfold suitable. by rewrite G, R. Qed.

Lemma search_up_ok fuel hint size alignment lo b e p s hi b0 e0 :
  let l := mapped_points lo b e p s hi in
  tiled l b0 e0 -> (length hi < fuel)%nat ->
  exists r, search_up fuel hint size alignment (Some b) l = Some r
    /\ match r with
       | Some k => exists c v, area l k c v /\ b <= k /\ fits false hint size alignment v (mk_range k c) = true
       | None => forall k c v, area l k c v -> b <= k -> fits false hint size alignment v (mk_range k c) = false
       end.
Proof.
  revert lo b e p s hi. induction fuel as [|fuel IH]; intros lo b e p s hi l Ht Hf; [lia|].
  pose proof (wm_sorted _ (ti_wf _ _ _ Ht)) as Hs. assert (A : area l b e p) by (by eexists _, _, _).
  cbn [search_up]. rewrite (suitable_area _ _ _ _ l b e p Hs A).
  destruct (fits false hint size alignment p (mk_range b e)) eqn:F; [exists (Some b); split; [done|]; exists e, p; split_and!; [done|lia|done]|].
  assert (Hb : forall k c v, area l k c v -> b <= k -> e <= k \/ fits false hint size alignment v (mk_range k c) = false).
  { intros k c v A' Hk. destruct (decide (k = b)) as [->|].
    - right. by destruct (area_same l b c v e p Hs A' A) as [-> ->].
    - left. apply (area_order l b e p k c v); [apply Ht|done|done|lia]. }
  destruct (tiled_next _ _ _ _ _ _ _ _ Ht) as [(-> & -> & -> & E)|(v & c & s' & hi' & -> & -> & He & Em & E)];
    fold l in E; rewrite E; cbn [mbind option_bind].
  - exists None. split; [by destruct fuel|]. intros k c v A' Hk. destruct (Hb k c v A' Hk) as [Hk'|]; [|done].
    destruct (tiled_area _ _ _ _ _ _ Ht A'). lia.
  - fold l in Em. rewrite Em. destruct (IH (lo ++ [(b, pt (last_state get None lo) (Some p))]) e c v s' hi') as (r & Er & H1); [by rewrite <- Em|cbn in Hf; lia|].
    rewrite <- Em in *. exists r. split; [done|]. destruct r as [k|].
    + destruct H1 as (d & w & A' & Hk & F'). exists d, w. split_and!; [done|lia|done].
    + intros k d w A' Hk. destruct (Hb k d w A' Hk) as [Hk'|]; [by apply H1|done].
Qed.

Lemma search_down_ok fuel hint size alignment lo b e p s hi b0 e0 :
  let l := mapped_points lo b e p s hi in
  tiled l b0 e0 -> (length lo < fuel)%nat ->
  exists r, search_down fuel hint size alignment b l = Some r
    /\ match r with
       | Some k => exists c v, area l k c v /\ k <= b /\ fits true hint size alignment v (mk_range k c) = true
       | None => forall k c v, area l k c v -> k <= b -> fits true hint size alignment v (mk_range k c) = false
       end.
Proof.
  revert lo b e p s hi. induction fuel as [|fuel IH]; intros lo b e p s hi l Ht Hf; [lia|].
  pose proof (wm_sorted _ (ti_wf _ _ _ Ht)) as Hs. assert (A : area l b e p) by (by eexists _, _, _).
  cbn [search_down]. rewrite (suitable_area _ _ _ _ l b e p Hs A).
  destruct (fits true hint size alignment p (mk_range b e)) eqn:F; [exists (Some b); split; [done|]; exists e, p; split_and!; [done|lia|done]|].
  rewrite (tiled_begin l b0 e0 Ht).
  assert (Hb : forall c v, area l b c v -> fits true hint size alignment v (mk_range b c) = false).
  { intros c v A'. by destruct (area_same l b c v e p Hs A' A) as [-> ->]. }
  destruct (tiled_prev _ _ _ _ _ _ _ _ Ht) as [[-> ->]|(lo' & j & v & -> & Hj & Em & E)].
  - rewrite bool_decide_true by done. exists None. split; [done|]. intros k c v A' Hk.
    destruct (tiled_area _ _ _ _ _ _ Ht A') as [Hk' _]. assert (k = b0) as -> by lia. by apply Hb.
  - rewrite bool_decide_false by (intros [= ->]; lia). fold l in E, Em. rewrite E. cbn [mbind option_bind].
    rewrite length_app in Hf. cbn in Hf. rewrite Em.
    destruct (IH lo' j b v (Some p) ((e, pt (Some p) s) :: hi)) as (r & Er & H1); [by rewrite <- Em|lia|].
    rewrite <- Em in *. exists r. split; [done|]. destruct r as [k|].
    + destruct H1 as (d & w & A' & Hk & F'). exists d, w. split_and!; [done|lia|done].
    + intros k d w A' Hk. destruct (decide (k = b)) as [->|]; [by apply Hb|]. apply H1; [done|].
      assert (Aj : area l j b v) by (rewrite Em; by eexists _, _, _).
      destruct (Z.le_gt_cases k j); [done|]. pose proof (area_order l j b v k d w (ti_wf _ _ _ Ht) Aj A'). lia.
Qed.

(** *** Merging *)

Lemma status_same l l' b e p :
  (forall a, mt_at l' a = if in_range b e a then Some p else mt_at l a) ->
  (forall a, b <= a < e -> status l a = Some (isAllocated p)) -> forall a, status l' a = status l a.
Proof.
  intros E H1 a. specialize (H1 a). unfold status in *. rewrite E. unfold in_range.
  destruct (Z.leb_spec b a), (Z.ltb_spec a e); cbn; try done. by rewrite H1.
Qed.

(** Two adjacent areas with the same state become one. *)
Lemma merge_areas l b0 e0 j b e x y r r' :
  tiled l b0 e0 -> area l j b x -> area l b e y -> isAllocated x = isAllocated y ->
  exists l' it e', mt_map (mk_range j e) (merge_info x y r r') true false l = Some (l', it)
    /\ tiled l' b0 e0 /\ area l' it e' (merge_info x y r r') /\ forall a, status l' a = status l a.
Proof.
  intros Ht A1 A2 Hx. destruct (tiled_area _ _ _ _ _ _ Ht A1) as [B1 B2], (tiled_area _ _ _ _ _ _ Ht A2) as [B3 B4].
  destruct (tiled_map l b0 e0 j e (merge_info x y r r') true Ht) as (l' & o & e' & E & Ht' & Ar & A); [lia..|].
  exists l', o, e'. split_and!; try done. apply (status_same l l' j e (merge_info x y r r') A). intros a Ha.
  pose proof (wm_sorted _ (ti_wf _ _ _ Ht)) as Hs. unfold status. rewrite (merge_allocated x y r r' Hx).
  destruct (area_facts l j b x Hs A1) as (_ & _ & _ & F1), (area_facts l b e y Hs A2) as (_ & _ & _ & F2).
  destruct (Z.lt_ge_cases a b); [by rewrite F1 by lia|]. rewrite F2 by lia. cbn. by rewrite Hx.
Qed.

Lemma res_merge_prev_ok l b0 e0 it e p :
  tiled l b0 e0 -> area l it e p ->
  exists l' it' e' p', res_merge_prev it l = Some (l', it') /\ tiled l' b0 e0 /\ area l' it' e' p'
    /\ forall a, status l' a = status l a.
Proof.
  intros Ht A. unfold res_merge_prev. rewrite (tiled_begin l b0 e0 Ht).
  pose proof (wm_sorted _ (ti_wf _ _ _ Ht)) as Hs. destruct (area_facts l it e p Hs A) as (_ & G & R & _).
  case_bool_decide as Hd; [by exists l, it, e, p|]. destruct A as (lo & s & hi & El). rewrite El in Ht.
  destruct (tiled_prev _ _ _ _ _ _ _ _ Ht) as [[_ ->]|(lo' & j & v & _ & Hj & Em & E)]; [done|].
  rewrite <- El in *. assert (Aj : area l j it v) by (rewrite Em; by eexists _, _, _).
  assert (A : area l it e p) by (rewrite El; by eexists _, _, _).
  destruct (area_facts l j it v Hs Aj) as (_ & G' & R' & _). rewrite E. cbn [mbind option_bind].
  rewrite G', G, R', R. cbn [mbind option_bind beginAddress endAddress fromBeginEnd].
  destruct (if isAllocated v then _ else _) eqn:Er; [|by exists l, it, e, p].
  destruct (merge_areas l b0 e0 j it e v p (mk_range j it) (mk_range it e) Ht Aj A) as (l' & o & e' & E' & T' & A' & S').
  - destruct (isAllocated v), (isAllocated p); done.
  - by exists l', o, e', (merge_info v p (mk_range j it) (mk_range it e)).
Qed.

Lemma res_merge_next_ok l b0 e0 it e p :
  tiled l b0 e0 -> area l it e p ->
  exists l' it', res_merge_next it l = Some (l', it') /\ tiled l' b0 e0 /\ forall a, status l' a = status l a.
Proof.
  intros Ht A. unfold res_merge_next. pose proof (wm_sorted _ (ti_wf _ _ _ Ht)) as Hs.
  destruct (area_facts l it e p Hs A) as (_ & G & R & _). destruct A as (lo & s & hi & El). rewrite El in Ht.
  destruct (tiled_next _ _ _ _ _ _ _ _ Ht) as [(_ & _ & _ & E)|(v & c & s' & hi' & _ & _ & He & Em & E)];
    rewrite <- El in *; rewrite E; cbn [mbind option_bind]; [by exists l, it|].
  assert (An : area l e c v) by (rewrite Em; by eexists _, _, _).
  assert (A : area l it e p) by (rewrite El; by eexists _, _, _).
  destruct (area_facts l e c v Hs An) as (_ & G' & R' & _).
  rewrite G', G, R', R. cbn [mbind option_bind beginAddress endAddress fromBeginEnd].
  destruct (if isAllocated v then _ else _) eqn:Er; [|by exists l, it].
  destruct (merge_areas l b0 e0 it e c p v (mk_range it e) (mk_range e c) Ht A An) as (l' & o & e' & E' & T' & _ & S').
  - destruct (isAllocated v), (isAllocated p); done.
  - by exists l', o.
Qed.

(** merge changes the areas but not what is allocated. *)
Lemma res_merge_ok l b0 e0 it e p :
  tiled l b0 e0 -> area l it e p ->
  exists l' it', res_merge it l = Some (l', it') /\ tiled l' b0 e0 /\ forall a, status l' a = status l a.
Proof.
  intros Ht A. unfold res_merge. destruct (res_merge_prev_ok l b0 e0 it e p Ht A) as (l1 & i1 & e1 & p1 & -> & T1 & A1 & S1).
  cbn [mbind option_bind]. destruct (res_merge_next_ok l1 b0 e0 i1 e1 p1 T1 A1) as (l2 & i2 & -> & T2 & S2).
  exists l2, i2. split_and!; try done. intros a. by rewrite S2.
Qed.

(** *** Storing *)

Lemma set_info_ok l b0 e0 b e v info :
  tiled l b0 e0 -> area l b e v ->
  exists l', set_info b info l = Some l' /\ tiled l' b0 e0 /\ area l' b e info
    /\ forall a, mt_at l' a = if in_range b e a then Some info else mt_at l a.
Proof.
  intros Ht (lo & s & hi & ->). destruct (tiled_area _ _ _ b e v Ht) as [Hb He]; [by eexists _, _, _|].
  pose proof (ti_wf _ _ _ Ht) as (Hs & C1 & C2 & C3)%mapped_points_wf.
  pose proof Hs as (Hbe & Hlo & Hhi & Hhb & S1 & S2)%mapped_points_bounds.
  assert (Hs' : sorted (mapped_points lo b e info s hi)).
  { unfold mapped_points in *. apply sorted_mid in Hs as (? & ? & ? & ?). by apply sorted_mid. }
  assert (W : wf_mt (mapped_points lo b e info s hi)) by (by apply mapped_points_wf).
  assert (A : forall a, mt_at (mapped_points lo b e info s hi) a
    = if in_range b e a then Some info else mt_at (mapped_points lo b e v s hi) a).
  { intros a. rewrite !mapped_points_at by done. unfold in_range.
    by destruct (Z.ltb_spec a b), (Z.ltb_spec a e), (Z.leb_spec b a); try lia. }
  exists (mapped_points lo b e info s hi). split_and!; [|apply (tiled_replace _ _ b0 e0 b e info Ht W); [lia|lia|done]|by eexists _, _, _|done].
  unfold set_info. rewrite mapped_points_find by done. unfold mapped_points.
  destruct (last_state get None lo); cbn; rewrite set_mid by done; by destruct s.
Qed.

Lemma store_info_ok flags info l b0 e0 it c v x y :
  tiled l b0 e0 -> area l it c v -> b0 <= x -> x < y -> y <= e0 -> Z.testbit flags Dry = false ->
  exists l' r, store_info flags info it (mk_range x y) l = Some (l', mk_result r errc_ok (mk_range x y))
    /\ tiled l' b0 e0 /\ forall a, status l' a = if in_range x y a then Some (isAllocated info) else status l a.
Proof.
  intros Ht A Hx Hxy Hy Hd. unfold store_info. rewrite Hd.
  destruct (area_facts l it c v (wm_sorted _ (ti_wf _ _ _ Ht)) A) as (_ & _ & -> & _). cbn [mbind option_bind beginAddress endAddress].
  assert (H1 : exists l1 i1 e1, (if bool_decide (it = x /\ c = y) then l1 ← set_info it info l; Some (l1, it)
      else mt_map (mk_range x y) info false false l) = Some (l1, i1)
    /\ tiled l1 b0 e0 /\ area l1 i1 e1 info /\ forall a, mt_at l1 a = if in_range x y a then Some info else mt_at l a).
  { case_bool_decide as Hb.
    - destruct Hb as [-> ->]. destruct (set_info_ok l b0 e0 x y v info Ht A) as (l1 & -> & T1 & A1 & M1). by exists l1, x, y.
    - destruct (tiled_map l b0 e0 x y info false Ht) as (l1 & o & e' & E & T1 & A1 & M1); [lia..|]. by exists l1, o, e'. }
  destruct H1 as (l1 & i1 & e1 & -> & T1 & A1 & M1). cbn [mbind option_bind].
  assert (S1 : forall a, status l1 a = if in_range x y a then Some (isAllocated info) else status l a).
  { intros a. unfold status. rewrite M1. by destruct (in_range x y a). }
  destruct (Z.testbit flags NoMerge); [by exists l1, (Some i1)|].
  destruct (res_merge_ok l1 b0 e0 i1 e1 info T1 A1) as (l2 & i2 & -> & T2 & S2). exists l2, (Some i2).
  split_and!; try done. intros a. by rewrite S2.
Qed.

(** *** map *)

Context (k size : Z) (Hk : 0 <= k < 64) (Hsize : 0 < size < 2 ^ 64).
Context (l : table) (b0 e0 : Z) (Ht : tiled l b0 e0) (Hb0 : 0 <= b0) (He0 : e0 + 2 ^ k <= 2 ^ 64).

(** The range [x] to [y] becomes [info]. *)
Definition stored (l' : table) (x y : Z) (info : T) : Prop :=
  forall a, status l' a = if in_range x y a then Some (isAllocated info) else status l a.

(** A search downwards needs the free area that holds the hint to begin aligned. *)
Definition hint_area_aligned (stack : bool) (hint : Z) : Prop :=
  stack = true -> forall b e p, area l b e p -> isAllocated p = false -> b <= hint < e -> b mod 2 ^ k = 0.

(** The searched range is aligned, free and inside the resource. *)
Lemma free_range_ok stack hint it c v :
  area l it c v -> 0 <= hint -> hint mod 2 ^ k = 0 -> hint_area_aligned stack hint ->
  exists r, free_range stack hint size (2 ^ k) it l = Some r
    /\ match r with
       | inr (i, range) => exists x d w, cut_range stack size (2 ^ k) range = mk_range x (x + size)
           /\ area l i d w /\ isAllocated w = false /\ x mod 2 ^ k = 0 /\ i <= x /\ x + size <= d
       | inl e => e = not_enough_memory
           /\ forall i d w x, area l i d w -> isAllocated w = false -> (if stack then i <= it else it <= i) ->
                x mod 2 ^ k = 0 -> searched size stack hint x -> i <= x -> x + size <= d -> False
       end.
Proof.
  intros A Hh Hm Hst. pose proof (ti_wf _ _ _ Ht) as W.
  assert (S : exists r, (if stack then search_down (length l) hint size (2 ^ k) it l
      else search_up (length l) hint size (2 ^ k) (Some it) l) = Some r
    /\ match r with
       | Some i => exists d w, area l i d w /\ fits stack hint size (2 ^ k) w (mk_range i d) = true
       | None => forall i d w, area l i d w -> (if stack then i <= it else it <= i) -> fits stack hint size (2 ^ k) w (mk_range i d) = false
       end).
  { destruct A as (lo & s & hi & El). pose proof Ht as Ht'. rewrite El in Ht'.
    assert (Hlen : (length lo < length l)%nat /\ (length hi < length l)%nat).
    { rewrite El. unfold mapped_points. rewrite length_app. cbn. lia. }
    destruct stack.
    - destruct (search_down_ok (length l) hint size (2 ^ k) lo it c v s hi b0 e0 Ht') as (r & E & H1); [lia|].
      rewrite <- El in *. exists r. split; [done|]. destruct r as [i|]; [|done].
      destruct H1 as (d & w & A & _ & F). by exists d, w.
    - destruct (search_up_ok (length l) hint size (2 ^ k) lo it c v s hi b0 e0 Ht') as (r & E & H1); [lia|].
      rewrite <- El in *. exists r. split; [done|]. destruct r as [i|]; [|done].
      destruct H1 as (d & w & A & _ & F). by exists d, w. }
  destruct S as (r & E & H1). unfold free_range. rewrite E. cbn [mbind option_bind]. destruct r as [i|].
  - destruct H1 as (d & w & A' & [F1%negb_true_iff F2]%andb_true_iff).
    destruct (tiled_area _ _ _ _ _ _ Ht A') as [Bi Bd].
    destruct (area_facts l i d w (wm_sorted _ W) A') as (_ & _ & -> & _). cbn [mbind option_bind].
    eexists. split; [done|]. destruct stack.
    + destruct (place_stack k size Hk Hsize i d ltac:(lia) ltac:(lia) hint Hh (Hst eq_refl i d w A' F1) F2) as (x & E' & X1 & X2 & X3).
      by exists x, d, w.
    + destruct (place_up k size Hk Hsize i d ltac:(lia) ltac:(lia) hint Hh Hm F2) as (x & E' & X1 & X2 & X3). by exists x, d, w.
  - eexists. split; [done|]. split; [done|]. intros i d w x A' Hw Hi X1 X2 X3 X4.
    specialize (H1 i d w A' Hi). unfold fits in H1. rewrite Hw in H1. cbn in H1.
    destruct (tiled_area _ _ _ _ _ _ Ht A') as [Bi Bd].
    eapply (no_room k size Hk Hsize i d ltac:(lia) ltac:(lia) stack hint x); try done. intros Es. by apply (Hst Es i d w).
Qed.

(** The area a search with a hint begins at. *)
Lemma start_bound (stack : bool) hint :
  0 <= hint -> (stack = true -> hint <> 0) ->
  exists r, lowerBound hint l = Some r
    /\ match r with
       | Some it => exists c v, area l it c v
           /\ forall i d w x, area l i d w -> searched size stack hint x -> i <= x < d -> if stack then i <= it else it <= i
       | None => e0 <= hint
       end.
Proof.
  intros Hh Hst. pose proof (ti_wf _ _ _ Ht) as W. pose proof (ti_range _ _ _ Ht) as R.
  destruct (lowerBound_ok l hint W) as (r & -> & F). exists r. split; [done|]. destruct r as [it|]; cbn in F.
  - destruct F as (c & v & A & Hc & F). exists c, v. split; [done|]. intros i d w x A' Hx Hi. destruct stack; cbn in Hx.
    + specialize (Hst eq_refl). destruct (Z.le_gt_cases i it) as [|Hl]; [done|].
      pose proof (area_order l it c v i d w W A A' Hl). lia.
    + destruct (Z.le_gt_cases it i) as [|Hl]; [done|]. pose proof (area_order l i d w it c v W A' A Hl).
      destruct (area_facts l i d w (wm_sorted _ W) A') as (_ & _ & _ & G). specialize (G x Hi). rewrite F in G by lia. done.
  - destruct (Z.le_gt_cases e0 hint) as [|Hl]; [done|]. destruct (proj2 (ti_at _ _ _ Ht (Z.max hint b0))) as [x Hx]; [lia|].
    rewrite F in Hx by lia. done.
Qed.

(** The area a search begins at, and what lies outside the search. *)
Lemma start_area_ok stack hint :
  0 <= hint ->
  exists r, start_area false stack hint l = Some r
    /\ match r with
       | Some it => exists c v, area l it c v
           /\ forall i d w x, area l i d w -> searched size stack hint x -> i <= x < d -> if stack then i <= it else it <= i
       | None => e0 <= hint
       end.
Proof.
  intros Hh. pose proof (ti_wf _ _ _ Ht) as W. pose proof (ti_range _ _ _ Ht) as R. unfold start_area.
  destruct (Z.eqb_spec hint 0) as [->|Hn], stack; cbn [andb].
  - destruct (tiled_last l b0 e0 Ht) as (j & v & E & A). rewrite E. cbn [mbind option_bind].
    exists (Some j). split; [destruct l; [by destruct A as ([] & ? & ? & ?)|done]|]. exists e0, v. split; [done|].
    intros i d w x A' _ _. destruct (Z.le_gt_cases i j); [done|].
    pose proof (area_order l j e0 v i d w W A A'). destruct (tiled_area _ _ _ _ _ _ Ht A'). lia.
  - by apply start_bound.
  - by apply start_bound.
  - by apply start_bound.
Qed.

(** A block of [n] addresses from [x] on, free and inside one area. *)
Definition free_block (x n : Z) : Prop := exists i d w, area l i d w /\ isAllocated w = false /\ i <= x /\ x + n <= d.

Lemma free_block_status x n a : free_block x n -> x <= a < x + n -> status l a = Some false.
Proof.
  clear Hk Hsize Hb0 He0. intros (i & d & w & A & Hw & H1 & H2) Ha. destruct (area_facts l i d w (wm_sorted _ (ti_wf _ _ _ Ht)) A) as (_ & _ & _ & G).
  unfold status. rewrite G by lia. cbn. by rewrite Hw.
Qed.

Lemma res_alloc_ok hint info flags :
  let stack := Z.testbit flags Stack in
  let h := align_hint stack hint (2 ^ k) in
  Z.testbit flags Fixed = false -> Z.testbit flags Dry = false ->
  0 <= hint -> hint + 2 ^ k <= 2 ^ 64 -> hint_area_aligned stack h ->
  exists l' res, res_map hint size info flags (2 ^ k) l = Some (l', res) /\ tiled l' b0 e0
    /\ match res_errc res with
       | errc_ok => exists x, res_range res = mk_range x (x + size) /\ x mod 2 ^ k = 0 /\ free_block x size
           /\ b0 <= x /\ x + size <= e0 /\ stored l' x (x + size) info
       | invalid_argument => l' = l /\ e0 <= h
       | not_enough_memory => l' = l /\ forall x, x mod 2 ^ k = 0 -> searched size stack h x -> ~ free_block x size
       | file_exists => False
       end.
Proof.
  intros stack h Hf Hd Hh Hh2 Hst. pose proof (pow2_pos k ltac:(lia)) as Hp. unfold res_map. rewrite Hf. fold stack. fold h.
  assert (H1 : 0 <= h /\ h mod 2 ^ k = 0).
  { subst h. unfold align_hint. destruct stack.
    - destruct (alignDown_mod k Hk hint ltac:(lia)). split; [lia|done].
    - destruct (alignUp_spec 64 hint k Hk Hh ltac:(lia)). split; [lia|done]. }
  destruct H1 as [Hh0 Hhm]. destruct (start_area_ok stack h Hh0) as (r & -> & H1).
  cbn [mbind option_bind]. destruct r as [it|]; [|by eexists l, _].
  destruct H1 as (c & v & A & H1). destruct (free_range_ok stack h it c v A Hh0 Hhm Hst) as (r & -> & H2).
  cbn [mbind option_bind]. destruct r as [e|[i range]].
  - destruct H2 as [-> H2]. eexists l, _. split; [done|]. split; [done|]. split; [done|].
    intros x X1 X2 (i & d & w & A' & Hw & X3 & X4). apply (H2 i d w x); try done. apply (H1 i d w x); try done. lia.
  - destruct H2 as (x & d & w & -> & A' & Hw & X1 & X2 & X3). destruct (tiled_area _ _ _ _ _ _ Ht A') as [Bi Bd].
    destruct (store_info_ok flags info l b0 e0 i d w x (x + size) Ht A') as (l' & ro & -> & T' & S'); [lia|lia|lia|done|].
    eexists l', _. split; [done|]. split; [done|]. exists x. split_and!; try done; try lia. by exists i, d, w.
Qed.

(** Without a hint nothing is asked of the areas. *)
Lemma no_hint_aligned stack : hint_area_aligned stack (align_hint stack 0 (2 ^ k)).
Proof.
  intros -> b e p A _ Hb. unfold align_hint in Hb. destruct (alignDown_mod k Hk 0 ltac:(lia)) as [D _].
  destruct (tiled_area _ _ _ _ _ _ Ht A). assert (b = 0) as -> by lia. apply Z.mod_0_l. pose proof (pow2_pos k). lia.
Qed.

(** A fixed range. *)
Lemma res_fixed_ok hint info flags :
  Z.testbit flags Fixed = true -> Z.testbit flags Dry = false ->
  0 <= hint -> hint + 2 ^ k <= 2 ^ 64 -> hint mod 2 ^ k = 0 -> hint + size < 2 ^ 64 ->
  exists l' res, res_map hint size info flags (2 ^ k) l = Some (l', res) /\ tiled l' b0 e0
    /\ match res_errc res with
       | errc_ok => res_range res = mk_range hint (hint + size) /\ b0 <= hint /\ hint + size <= e0
           /\ (Z.testbit flags NoOverwrite = true -> free_block hint size) /\ stored l' hint (hint + size) info
       | invalid_argument => l' = l /\ ~ b0 <= hint < e0
       | not_enough_memory => l' = l /\ b0 <= hint < e0 /\ e0 < hint + size
       | file_exists => l' = l /\ Z.testbit flags NoOverwrite = true /\ ~ free_block hint size
       end.
Proof.
  intros Hf Hd Hh Hh2 Hm Hs. pose proof (pow2_pos k ltac:(lia)) as Hp. pose proof (ti_wf _ _ _ Ht) as W. unfold res_map. rewrite Hf.
  set (stack := Z.testbit flags Stack). assert (align_hint stack hint (2 ^ k) = hint) as ->.
  { unfold align_hint. destruct stack; [|by apply alignUp_fixed]. rewrite (alignDown_spec 64 hint k Hk) by (split; lia). lia. }
  unfold start_area. destruct (mt_queryArea_ok l hint W) as (r & -> & H1). cbn [mbind option_bind]. destruct r as [it|]; cycle 1.
  { eexists l, _. split; [done|]. split; [done|]. split; [done|]. intros Hc. destruct (proj2 (ti_at _ _ _ Ht hint) Hc). congruence. }
  destruct H1 as (c & v & A & Hc). destruct (tiled_area _ _ _ _ _ _ Ht A) as [Bi Bd].
  destruct (area_facts l it c v (wm_sorted _ W) A) as (_ & G & R & _).
  assert (Hcut : cut_range stack size (2 ^ k) (fromBeginSize hint size) = mk_range hint (hint + size)).
  { unfold cut_range, range_size, fromBeginSize. cbn [beginAddress endAddress]. rewrite (wrap_id 64 (hint + size)) by (split; lia).
    replace (hint + size - hint) with size by lia. rewrite wrap_id by (split; lia). by rewrite Z.ltb_irrefl. }
  unfold fixed_range. rewrite (wrap_id 64 (hint + size)), wrap_id by (split; lia).
  destruct (mt_queryArea_ok l (hint + size - 1) W) as (r & -> & H1). cbn [mbind option_bind]. destruct r as [en|]; cycle 1.
  { eexists l, _. split; [done|]. split; [done|]. split; [done|]. split; [lia|].
    destruct (Z.lt_ge_cases e0 (hint + size)) as [|Hge]; [done|].
    destruct (proj2 (ti_at _ _ _ Ht (hint + size - 1))); [lia|]. congruence. }
  destruct H1 as (c' & v' & A' & Hc'). destruct (tiled_area _ _ _ _ _ _ Ht A') as [Bi' Bd'].
  destruct (store_info_ok flags info l b0 e0 it c v hint (hint + size) Ht A) as (l' & ro & Es & T' & S'); [lia|lia|lia|done|].
  destruct (Z.testbit flags NoOverwrite) eqn:En; cycle 1.
  { cbn [mbind option_bind]. rewrite Hcut, Es. eexists l', _. split; [done|]. split; [done|]. split_and!; try done; lia. }
  rewrite G, R. cbn [mbind option_bind]. unfold contains_range, fromBeginSize. cbn [beginAddress endAddress].
  rewrite (wrap_id 64 (hint + size)) by (split; lia). destruct (isAllocated v || _) eqn:Ea; cbn [mbind option_bind].
  - eexists l, _. split; [done|]. split; [done|]. split_and!; try done. intros (i & d & w & A2 & Hw & X1 & X2).
    assert (i = it) as ->.
    { destruct (Z.lt_trichotomy i it) as [Hl|[?|Hl]]; [|done|].
      - pose proof (area_order l i d w it c v W A2 A Hl). lia.
      - pose proof (area_order l it c v i d w W A A2 Hl). lia. }
    destruct (area_same l it d w c v (wm_sorted _ W) A2 A) as [-> ->]. rewrite Hw in Ea.
    destruct (Z.leb_spec it hint), (Z.leb_spec (hint + size) c); cbn in Ea; done || lia.
  - apply orb_false_iff in Ea as [Ea [X1%Z.leb_le X2%Z.leb_le]%negb_false_iff%andb_true_iff].
    unfold fromBeginSize in Hcut. rewrite (wrap_id 64 (hint + size)) in Hcut by (split; lia). rewrite Hcut, Es.
    eexists l', _. split; [done|]. split; [done|]. split_and!; try done; try lia. by exists it, c, v.
Qed.

End Laws.

(** ** Properties *)


(** C36: A fixed allocation at an aligned address answers invalid_argument when
    it begins outside the resource, not_enough_memory when it ends behind it,
    and file_exists when it must not overwrite and its range is not free inside
    one area; nothing changes then.  Otherwise exactly the addresses of the range
    change their state, whatever was there. *)
Theorem res_fixed_spec {T : Type} `{EqDecision T} `{AllocationInfo T} `{!AllocationLaws T}
    (k size : Z) (l : list (Z * Payload (T := T))) (b0 e0 hint : Z) (info : T) (flags : Z) :
  0 <= k < 64 -> 0 < size < 2 ^ 64 -> tiled l b0 e0 -> 0 <= b0 ->
  Z.testbit flags Fixed = true -> Z.testbit flags Dry = false ->
  0 <= hint -> hint + 2 ^ k <= 2 ^ 64 -> hint mod 2 ^ k = 0 -> hint + size < 2 ^ 64 ->
  exists l' res, res_map hint size info flags (2 ^ k) l = Some (l', res) /\ tiled l' b0 e0
    /\ match res_errc res with
       | errc_ok => res_range res = mk_range hint (hint + size) /\ b0 <= hint /\ hint + size <= e0
           /\ (Z.testbit flags NoOverwrite = true -> free_block l hint size)
           /\ forall a, status l' a = if in_range hint (hint + size) a then Some (isAllocated info) else status l a
       | invalid_argument => l' = l /\ ~ b0 <= hint < e0
       | not_enough_memory => l' = l /\ b0 <= hint < e0 /\ e0 < hint + size
       | file_exists => l' = l /\ Z.testbit flags NoOverwrite = true /\ ~ free_block l hint size
       end.
Proof. intros. by apply res_fixed_ok. Qed.

(** Areas that are allocated or not, merged when they agree. *)
#[local] Instance bool_info : AllocationInfo bool :=
  {| isAllocated x := x; isRelated x y _ _ := eqb x y; merge_info _ y _ _ := y; default_info := false |}.

#[local] Instance bool_laws : AllocationLaws bool.
Proof. by split. Qed.

(** A resource of 64 KB with its second page allocated. *)
Definition sample_resource : list (Z * Payload (T := bool)) :=
  [(0, PO false); (0x4000, PXO true); (0x8000, PXO false); (0x10000, PX)].

Lemma sample_resource_tiled : tiled sample_resource 0 0x10000.
Proof.
  split; [|lia|].
  - split; cbn; repeat (constructor || split); lia.
  - intros a. unfold mt_at, sample_resource. cbn.
    repeat match goal with |- context [?x <=? a] => destruct (Z.leb_spec x a) end; try lia;
      split; intros; try lia; try done; by match goal with H : is_Some None |- _ => destruct H end.
Qed.

(** The free area that holds the address 0xc000. *)
Lemma sample_hint_aligned b e p : area sample_resource b e p -> b <= 0xc000 < e -> b = 0x8000.
Proof.
  intros A Hb. pose proof (ti_wf _ _ _ sample_resource_tiled) as W.
  assert (A' : area sample_resource 0x8000 0x10000 false) by (by exists [(0, PO false); (0x4000, PXO true)], None, []).
  destruct (Z.lt_trichotomy b 0x8000) as [Hl|[?|Hl]]; [|done|].
  - pose proof (area_order _ _ _ _ _ _ _ W A A' Hl). lia.
  - pose proof (area_order _ _ _ _ _ _ _ W A' A Hl). lia.
Qed.


Lemma res_fixed_spec_witness :
  exists l' res, res_map 0x4000 0x8000 true 5 (2 ^ 14) sample_resource = Some (l', res) /\ tiled l' 0 0x10000
    /\ res_errc res = file_exists.
Proof.
  destruct (res_fixed_spec 14 0x8000 sample_resource 0 0x10000 0x4000 true 5) as (l' & res & E & T' & _);
    [lia|lia|exact sample_resource_tiled|lia|reflexivity|reflexivity|lia|lia|reflexivity|lia|].
  exists l', res. split; [done|]. split; [done|]. vm_compute in E. by injection E as <- <-.
Defined.

(** A stack allocation with a hint may begin below the area it was searched in:
    hasEnoughSpace aligns the first address of the area downwards.  Here the first 4 KB are
    allocated, and the range returned for 32 KB below 0x8000 contains them. *)
Lemma stack_hint_overlaps :
  exists l, mt_map (mk_range 0 0x1000) true false false [(0, PO false); (0x20000, PX)] = Some (l, 0)
    /\ status l 0 = Some true
    /\ (snd <$> res_map 0x8000 0x8000 true 8 0x4000 l)
       = Some (mk_result (Some 0) errc_ok (mk_range 0 0x8000)).
Proof. eexists. split; [reflexivity|]. split; [reflexivity|]. vm_compute. reflexivity. Qed.
