(* ===== verification/OrbisMem.v ===== *)
(** * Physical and flexible memory

    orbis::pmem (kernel/orbis/src/pmem.cpp) and orbis::fmem
    (kernel/orbis/src/fmem.cpp): the physical memory is a resource over
    MemResource, and the flexible memory another one over a range allocated from
    the first.  Errors are the std::errc values before toErrorCode.  Mapping
    into the host's address space is not modelled. *)

From stdpp Require Import base numbers list tactics.
From Stdlib Require Import Lia.
From S2P Require Import Prelude StdMap RxMemory MemTable MemResource.

Open Scope Z_scope.

(** vmem::kPageSize *)
Definition kPageSize : Z := 16 * 1024.

(** ** Allocations *)

Record PhysicalMemoryAllocation := mk_pmem_alloc { p_allocated : bool }.

#[global] Instance pmem_alloc_eq_dec : EqDecision PhysicalMemoryAllocation.
Proof. solve_decision. Defined.

#[global] Instance pmem_info : AllocationInfo PhysicalMemoryAllocation :=
  {| isAllocated := p_allocated;
     isRelated x y _ _ := eqb (p_allocated x) (p_allocated y);
     merge_info _ y _ _ := y;
     default_info := mk_pmem_alloc false |}.

Record FlexibleMemoryAllocation := mk_fmem_alloc { f_allocated : bool }.

#[global] Instance fmem_alloc_eq_dec : EqDecision FlexibleMemoryAllocation.
Proof. solve_decision. Defined.

#[global] Instance fmem_info : AllocationInfo FlexibleMemoryAllocation :=
  {| isAllocated := f_allocated;
     isRelated _ _ _ _ := true;
     merge_info _ y _ _ := y;
     default_info := mk_fmem_alloc false |}.

#[global] Instance pmem_laws : AllocationLaws PhysicalMemoryAllocation.
Proof. by split. Qed.

#[global] Instance fmem_laws : AllocationLaws FlexibleMemoryAllocation.
Proof. by split. Qed.

Abbreviation ptable := (list (Z * Payload (T := PhysicalMemoryAllocation))).
Abbreviation ftable := (list (Z * Payload (T := FlexibleMemoryAllocation))).

(** ** pmem *)

(** The allocations and the size of PhysicalMemoryResource. *)
Record pmem := mk_pmem { p_table : ptable; p_size : Z }.

(** PhysicalMemoryResource::create and pmem::initialize; [mappable] tells
    whether the memory of the host is there. *)
Definition pmem_initialize (mappable : bool) (size : Z) (p : pmem) : option (pmem * errc) :=
  if (size =? 0) || negb mappable then Some (p, invalid_argument)
  else
    '(l, e) ← res_create (fromBeginSize 0 size) (p_table p);
    Some (if decide (e = errc_ok) then (mk_pmem l size, errc_ok) else (mk_pmem l (p_size p), e)).

Definition pmem_destroy (p : pmem) : pmem := mk_pmem (res_destroy (p_table p)) (p_size p).

Definition pmem_allocate (addressHint size flags alignment : Z) (p : pmem) : option (pmem * AddressRange * errc) :=
  '(l, r) ← res_map addressHint size (mk_pmem_alloc true) flags alignment (p_table p);
  Some (if decide (res_errc r = errc_ok) then (mk_pmem l (p_size p), res_range r, errc_ok)
        else (mk_pmem l (p_size p), default_range, res_errc r)).

Definition pmem_deallocate (range : AddressRange) (p : pmem) : option (pmem * errc) :=
  '(l, r) ← res_map (beginAddress range) (range_size range) (mk_pmem_alloc false) (2 ^ Fixed) 1 (p_table p);
  Some (mk_pmem l (p_size p), res_errc r).

Definition pmem_query (address : Z) (p : pmem) : option (option AddressRange) :=
  it ← mt_queryArea address (p_table p);
  match it with
  | None => Some None
  | Some k => r ← it_range k (p_table p); Some (Some r)
  end.

(** ** fmem *)

(** Both resources. *)
Record memory := mk_memory { phys : pmem; flex : ftable }.

Definition fmem_initialize (size : Z) (m : memory) : option (memory * errc) :=
  '(p, range, e) ← pmem_allocate 0 size (2 ^ Stack) kPageSize (phys m);
  if decide (e = errc_ok) then
    '(l, e') ← res_create range (flex m); Some (mk_memory p l, e')
  else Some (mk_memory p (flex m), e).

(** The loop of fmem::destroy; the result of deallocate is not used. *)
Fixpoint deallocate_all (areas : list (Z * Z * FlexibleMemoryAllocation)) (p : pmem) : option pmem :=
  match areas with
  | [] => Some p
  | (b, e, _) :: areas' => '(p1, _) ← pmem_deallocate (mk_range b e) p; deallocate_all areas' p1
  end.

Definition fmem_destroy (m : memory) : option memory :=
  areas ← mt_areas (flex m);
  p ← deallocate_all areas (phys m);
  Some (mk_memory p (res_destroy (flex m))).

Definition fmem_allocate (size : Z) (l : ftable) : option (ftable * AddressRange * errc) :=
  '(l', r) ← res_map 0 size (mk_fmem_alloc true) (2 ^ NoMerge) kPageSize l;
  Some (if decide (res_errc r = errc_ok) then (l', res_range r, errc_ok) else (l', default_range, res_errc r)).

Definition fmem_deallocate (range : AddressRange) (l : ftable) : option (ftable * errc) :=
  '(l', r) ← res_map (beginAddress range) (range_size range) (mk_fmem_alloc false) (2 ^ Fixed) 1 l;
  Some (l', res_errc r).

(** ** Sequences of operations on the flexible memory *)

Inductive fmem_op :=
| FAllocate (size : Z)
| FDeallocate (b e : Z).

(** Sizes and ranges of 64 bits that are not empty. *)
Definition fop_ok (o : fmem_op) : Prop :=
  match o with
  | FAllocate n => 0 < n < 2 ^ 64
  | FDeallocate b e => 0 <= b < e /\ e < 2 ^ 64
  end.

Definition fmem_exec (o : fmem_op) (l : ftable) : option (ftable * errc) :=
  match o with
  | FAllocate n => '(l', _, e) ← fmem_allocate n l; Some (l', e)
  | FDeallocate b e => fmem_deallocate (mk_range b e) l
  end.

Fixpoint fmem_run (os : list fmem_op) (l : ftable) : option ftable :=
  match os with
  | [] => Some l
  | o :: os' => '(l', _) ← fmem_exec o l; fmem_run os' l'
  end.

(** ** Lemmas *)

Lemma page_pow : kPageSize = 2 ^ 14.
Proof. done. Qed.

Lemma create_tiled {T} `{EqDecision T} `{AllocationInfo T} b e :
  b < e ->
  exists l : list (Z * Payload (T := T)), res_create (mk_range b e) [] = Some (l, errc_ok) /\ tiled l b e
    /\ forall a, mt_at l a = if in_range b e a then Some default_info else None.
Proof.
  intros Hbe. destruct (mt_map_ok (T := T) [] b e default_info true) as (l & o & e' & E & W & A & _); [by split|done|].
  exists l. unfold res_create. rewrite E. split_and!; [done| |done]. split; [done|done|]. intros a. rewrite A. unfold in_range.
  destruct (Z.leb_spec b a), (Z.ltb_spec a e); cbn; split; intros; try lia; try done.
  all: by match goal with H : is_Some None |- _ => destruct H end.
Qed.

Section Bounded.

Context {T : Type} `{EqDecision T} `{AllocationInfo T} `{!AllocationLaws T}.

(** A deallocation inside the resource. *)
Lemma dealloc_ok (l : list (Z * Payload (T := T))) b0 e0 b e info :
  tiled l b0 e0 -> 0 <= b0 -> 0 <= b < e -> e < 2 ^ 64 ->
  exists l' r, res_map b (range_size (mk_range b e)) info (2 ^ Fixed) 1 l = Some (l', r) /\ tiled l' b0 e0
    /\ (b0 <= b -> e <= e0 -> forall a, status l' a = if in_range b e a then Some (isAllocated info) else status l a).
Proof.
  intros Ht Hb0 Hbe He. unfold range_size. cbn [beginAddress endAddress]. rewrite wrap_id by (split; lia).
  destruct (res_fixed_ok 0 (e - b) ltac:(lia) ltac:(lia) l b0 e0 Ht Hb0 b info (2 ^ Fixed))
    as (l' & r & E & T' & H1); [done|done|lia|lia|by rewrite Z.mod_1_r|lia|].
  exists l', r. split_and!; [done|done|]. intros Hb1 He1. replace (b + (e - b)) with e in H1 by lia.
  destruct (res_errc r).
  - by destruct H1 as (_ & _ & _ & _ & S').
  - destruct H1; lia.
  - destruct H1; lia.
  - by destruct H1 as (_ & ? & _).
Qed.

End Bounded.

(** The loop of destroy frees exactly the areas. *)
Lemma deallocate_all_ok as_ p b0 e0 :
  tiled (p_table p) b0 e0 -> 0 <= b0 -> e0 < 2 ^ 64 ->
  (forall b e v, (b, e, v) ∈ as_ -> b0 <= b < e /\ e <= e0) ->
  exists p', deallocate_all as_ p = Some p' /\ tiled (p_table p') b0 e0
    /\ forall a, status (p_table p') a
         = if existsb (fun x => in_range (fst (fst x)) (snd (fst x)) a) as_ then Some false else status (p_table p) a.
Proof.
  revert p. induction as_ as [|[[b e] v] as_ IH]; intros p Ht Hb0 He0 Hin.
  - by exists p.
  - destruct (Hin b e v) as [Hb He]; [left|]. cbn [deallocate_all]. unfold pmem_deallocate. cbn [beginAddress].
    destruct (dealloc_ok (p_table p) b0 e0 b e (mk_pmem_alloc false) Ht Hb0) as (l' & r & -> & T' & S'); [lia|lia|].
    cbn [mbind option_bind]. specialize (S' ltac:(lia) He).
    destruct (IH (mk_pmem l' (p_size p))) as (p' & -> & T2 & S2); [done|done|done|intros; apply (Hin _ _ v0); by right|].
    exists p'. split_and!; [done|done|]. intros a. rewrite S2. cbn [existsb p_table fst snd].
    destruct (existsb _ as_); [by rewrite orb_true_r|]. rewrite S', orb_false_r. by destruct (in_range b e a).
Qed.

(** One operation on the flexible memory keeps it without gaps. *)
Lemma fmem_exec_ok o l b0 e0 :
  tiled l b0 e0 -> 0 <= b0 -> e0 + kPageSize <= 2 ^ 64 -> fop_ok o ->
  exists l' e, fmem_exec o l = Some (l', e) /\ tiled l' b0 e0.
Proof.
  intros Ht Hb0 He0 Ho. destruct o as [n|b e]; cbn [fop_ok fmem_exec] in *.
  - unfold fmem_allocate. rewrite page_pow in *.
    destruct (res_alloc_ok 14 n ltac:(lia) Ho l b0 e0 Ht Hb0 He0 0 (mk_fmem_alloc true) (2 ^ NoMerge))
      as (l' & r & -> & T' & _); [done|done|lia|lia|by eapply no_hint_aligned|]. cbn [mbind option_bind]. by destruct (decide _); eauto.
  - unfold fmem_deallocate. cbn [beginAddress].
    destruct (dealloc_ok l b0 e0 b e (mk_fmem_alloc false) Ht Hb0) as (l' & r & -> & T' & _); [lia|lia|]. eauto.
Qed.

Lemma fmem_run_ok os l b0 e0 :
  tiled l b0 e0 -> 0 <= b0 -> e0 + kPageSize <= 2 ^ 64 -> Forall fop_ok os ->
  exists l', fmem_run os l = Some l' /\ tiled l' b0 e0.
Proof.
  intros Ht Hb0 He0. revert l Ht. induction os as [|o os IH]; intros l Ht Hos; [by exists l|].
  apply Forall_cons_1 in Hos as [Ho Hos]. cbn [fmem_run].
  destruct (fmem_exec_ok o l b0 e0 Ht Hb0 He0 Ho) as (l' & e & -> & T'). cbn [mbind option_bind]. by apply IH.
Qed.

(** destroy gives the whole range back. *)
Lemma fmem_destroy_ok m b0 e0 x y :
  tiled (p_table (phys m)) b0 e0 -> tiled (flex m) x y -> 0 <= b0 -> b0 <= x -> y <= e0 -> e0 < 2 ^ 64 ->
  exists p, fmem_destroy m = Some (mk_memory p []) /\ tiled (p_table p) b0 e0
    /\ forall a, status (p_table p) a = if in_range x y a then Some false else status (p_table (phys m)) a.
Proof.
  intros Tp Tf Hb0 Hx Hy He0. pose proof (ti_wf _ _ _ Tf) as W. unfold fmem_destroy. rewrite mt_areas_ok by done. cbn [mbind option_bind].
  destruct (deallocate_all_ok (areas (flex m)) (phys m) b0 e0 Tp Hb0 He0) as (p & -> & Tp' & S').
  { intros b e v Hin. apply areas_in in Hin; [|done]. destruct (tiled_area _ _ _ _ _ _ Tf Hin). lia. }
  exists p. split_and!; [done|done|]. intros a. rewrite S'. f_equal.
  replace (existsb _ _) with (in_range x y a); [done|]. symmetry. apply eq_true_iff_eq. rewrite existsb_exists. unfold in_range at 2.
  rewrite andb_true_iff, Z.leb_le, Z.ltb_lt, <- (ti_at _ _ _ Tf a). split.
  - intros ([[b e] v] & Hin & [H1%Z.leb_le H2%Z.ltb_lt]%andb_true_iff). cbn in H1, H2. exists v.
    apply areas_at; [done|]. exists b, e. split; [by apply list_elem_of_In|lia].
  - intros [v Hv]. apply areas_at in Hv as (b & e & Hin & Hb & He); [|done]. exists (b, e, v).
    split; [by apply list_elem_of_In|]. apply andb_true_iff. cbn. rewrite Z.leb_le, Z.ltb_lt. done.
Qed.

(** ** Properties *)

(** C17: fmem::initialize takes a free, page-aligned range of the physical
    memory, or fails without a change when no page-aligned block of that size is
    free.  Whatever is allocated and deallocated in the flexible memory
    afterwards, no operation fails an assertion, and fmem::destroy gives back
    exactly that range: the physical memory is allocated as it was before. *)
Theorem fmem_roundtrip (p : pmem) (size sz : Z) (os : list fmem_op) :
  tiled (p_table p) 0 sz -> sz + kPageSize <= 2 ^ 64 -> 0 < size < 2 ^ 64 -> Forall fop_ok os ->
  exists m e, fmem_initialize size (mk_memory p []) = Some (m, e)
    /\ match e with
       | errc_ok => exists x, x mod kPageSize = 0 /\ 0 <= x /\ x + size <= sz
           /\ (forall a, x <= a < x + size -> status (p_table p) a = Some false)
           /\ (forall a, status (p_table (phys m)) a
                 = if in_range x (x + size) a then Some true else status (p_table p) a)
           /\ exists l p', fmem_run os (flex m) = Some l /\ tiled l x (x + size)
                /\ fmem_destroy (mk_memory (phys m) l) = Some (mk_memory p' [])
                /\ forall a, status (p_table p') a = status (p_table p) a
       | _ => e = not_enough_memory /\ p_table (phys m) = p_table p /\ flex m = []
           /\ forall x, x mod kPageSize = 0 -> 0 <= x -> ~ free_block (p_table p) x size
       end.
Proof.
  intros Ht Hsz Hsize Hos. unfold fmem_initialize, pmem_allocate. rewrite page_pow in *.
  destruct (res_alloc_ok 14 size ltac:(lia) Hsize (p_table p) 0 sz Ht ltac:(lia) Hsz 0 (mk_pmem_alloc true) (2 ^ Stack))
    as (l1 & r & E & T1 & H1); [done|done|lia|lia|by eapply no_hint_aligned|]. cbn [phys flex]. rewrite E. cbn [mbind option_bind].
  destruct (decide (res_errc r = errc_ok)) as [Er|Hne]; cbn [mbind option_bind].
  - rewrite Er in H1. destruct H1 as (x & -> & X1 & F & X2 & X3 & S1).
    destruct (create_tiled (T := FlexibleMemoryAllocation) x (x + size)) as (lf & -> & Tf & _); [lia|]. cbn [mbind option_bind].
    eexists _, errc_ok. split; [done|]. exists x. cbn [phys flex p_table]. split_and!; try done.
    { intros a Ha. eapply free_block_status; [exact Ht|exact F|exact Ha]. }
    destruct (fmem_run_ok os lf x (x + size) Tf X2) as (l & -> & Tl); [rewrite page_pow; lia|done|].
    destruct (fmem_destroy_ok (mk_memory (mk_pmem l1 (p_size p)) l) 0 sz x (x + size)) as (p' & Ed & _ & S'); try done; [lia|].
    exists l, p'. split_and!; try done. intros a. rewrite S'. cbn [phys p_table]. rewrite S1.
    destruct (in_range x (x + size) a) eqn:Ei; [|done]. symmetry. eapply free_block_status; try done.
    unfold in_range in Ei. apply andb_true_iff in Ei as [?%Z.leb_le ?%Z.ltb_lt]. lia.
  - rewrite decide_False by done. eexists _, (res_errc r). split; [reflexivity|]. cbn [phys flex p_table].
    assert (H0 : align_hint (Z.testbit (2 ^ Stack) Stack) 0 (2 ^ 14) = 0) by reflexivity. rewrite H0 in H1.
    destruct (res_errc r); [done| |destruct H1 as [-> H1]|done].
    + destruct H1 as [_ H1]. pose proof (ti_range _ _ _ Ht). lia.
    + split_and!; try done. intros x X1 _. apply H1; [done|]. by left.
Qed.

(** Sixteen pages, all free. *)
Definition sample_pmem : pmem := mk_pmem [(0, PO (mk_pmem_alloc false)); (0x40000, PX)] 0x40000.

Lemma sample_pmem_tiled : tiled (p_table sample_pmem) 0 0x40000.
Proof.
  split; [|lia|].
  - split; cbn; repeat (constructor || split); lia.
  - intros a. unfold mt_at, sample_pmem. cbn.
    destruct (Z.leb_spec 0 a), (Z.leb_spec 0x40000 a); try lia; split; intros; try lia; try done.
    all: by match goal with H : is_Some None |- _ => destruct H end.
Qed.

Lemma fmem_roundtrip_witness :
  let os := [FAllocate 0x5000; FAllocate 0x4000; FDeallocate 0x20000 0x25000] in
  exists m, fmem_initialize 0x20000 (mk_memory sample_pmem []) = Some (m, errc_ok)
    /\ exists l p', fmem_run os (flex m) = Some l /\ fmem_destroy (mk_memory (phys m) l) = Some (mk_memory p' [])
         /\ status (p_table p') 0x28000 = status (p_table sample_pmem) 0x28000.
Proof.
  intros os.
  destruct (fmem_roundtrip sample_pmem 0x20000 0x40000 os sample_pmem_tiled) as (m & e & E & H1); [done|lia|by repeat constructor|].
  assert (e = errc_ok) as -> by (vm_compute in E; by injection E as _ <-).
  exists m. split; [done|]. destruct H1 as (x & _ & _ & _ & _ & _ & l & p' & R & _ & D & S').
  exists l, p'. split; [exact R|]. split; [exact D|]. apply S'.
Defined.
