(* ===== verification/FileStream.v ===== *)
(** * In-memory file streams

    fs::container_stream<std::vector<u8>> of rpcs3/util/File.h and the typed
    reads and writes of fs::file over it.  Bytes are integers below 256; the
    position is a u64 and may lie past the end of the data. *)

From stdpp Require Import base numbers list tactics.
From Stdlib Require Import Lia.
From S2P Require Import Prelude.

Open Scope Z_scope.

Abbreviation bytes := (list Z).

(** ** container_stream *)

Record container_stream := mk_stream { obj : bytes; spos : Z }.

Inductive seek_mode := seek_set | seek_cur | seek_end.

Definition stream_size (s : container_stream) : Z := Z.of_nat (length (obj s)).

(** container_stream::trunc: obj.resize(length). *)
Definition trunc (length : Z) (s : container_stream) : container_stream :=
  mk_stream (resize (Z.to_nat length) 0 (obj s)) (spos s).

(** container_stream::read: the bytes copied to the buffer. *)
Definition stream_read (size : Z) (s : container_stream) : bytes * container_stream :=
  let last := stream_size s in
  if spos s <? last then
    let max := Z.min size (last - spos s) in
    if max =? 0 then ([], s)
    else (take (Z.to_nat max) (drop (Z.to_nat (spos s)) (obj s)), mk_stream (obj s) (spos s + max))
  else ([], s).

(** container_stream::write; [None] is the exception of xovfl. *)
Definition stream_write (buffer : bytes) (s : container_stream) : option container_stream :=
  let size := Z.of_nat (length buffer) in
  let old_size := stream_size s in
  if (wrap 64 (old_size + size) <? old_size) || (wrap 64 (spos s + size) <? spos s) then None
  else
    let obj1 := if old_size <? spos s then resize (Z.to_nat (spos s)) 0 (obj s) else obj s in
    let overlap := Z.to_nat (Z.min (Z.of_nat (length obj1) - spos s) size) in
    let p := Z.to_nat (spos s) in
    Some (mk_stream (take p obj1 ++ take overlap buffer ++ drop (p + overlap) obj1 ++ drop overlap buffer) (spos s + size)).

(** container_stream::seek: the result and the new state. *)
Definition seek (offset : Z) (whence : seek_mode) (s : container_stream) : Z * container_stream :=
  let new_pos := sext 64 (match whence with
                          | seek_set => offset
                          | seek_cur => offset + spos s
                          | seek_end => offset + stream_size s
                          end) in
  if new_pos <? 0 then (2 ^ 64 - 1, s) else (new_pos, mk_stream (obj s) new_pos).

(** ** fs::file *)

(** file::pos *)
Definition file_pos (s : container_stream) : Z := fst (seek 0 seek_cur s).

(** file::strict_read_check *)
Definition strict_read_check (offset size type_size : Z) (s : container_stream) : bool :=
  let size0 := stream_size s in
  negb ((if size0 <=? offset then 0 else size0 - offset) / type_size <? size).

(** file::read(T&): the bytes of the object, [None] for a short read. *)
Definition read_pod (size : Z) (s : container_stream) : option (bytes * container_stream) :=
  let '(b, s') := stream_read size s in
  if Z.of_nat (length b) =? size then Some (b, s') else None.

(** file::read(std::vector<T>&, n) and file::read(std::basic_string<T>&, n)
    with an element of [type_size] bytes. *)
Definition read_vec (type_size n : Z) (s : container_stream) : option (bytes * container_stream) :=
  if (1048576 / type_size <=? n) && negb (strict_read_check (file_pos s) n type_size s) then None
  else read_pod (type_size * n) s.

(** ** Lemmas *)

(** Reading what is there. *)
Lemma read_pod_ok l b r p :
  p = Z.of_nat (length l) ->
  read_pod (Z.of_nat (length b)) (mk_stream (l ++ b ++ r) p) = Some (b, mk_stream (l ++ b ++ r) (p + Z.of_nat (length b))).
Proof.
  intros ->. unfold read_pod, stream_read, stream_size. cbn [obj spos]. rewrite !length_app.
  destruct b as [|x b].
  { cbn [length]. rewrite Z.add_0_r. destruct (_ <? _); [|done].
    replace (Z.min _ _) with 0 by lia. done. }
  remember (length (x :: b)) as n eqn:En. assert (0 < n)%nat by (subst n; cbn; lia).
  destruct (Z.ltb_spec (Z.of_nat (length l)) (Z.of_nat (length l + (n + length r)))) as [_|]; [|lia].
  replace (Z.min _ _) with (Z.of_nat n) by lia. destruct (Z.eqb_spec (Z.of_nat n) 0); [lia|].
  rewrite !Nat2Z.id, drop_app_length. subst n. rewrite take_app_length, Z.eqb_refl. done.
Qed.

(** A read returns the bytes at the position and moves it behind them. *)
Lemma read_pod_inv n s b s' :
  0 <= n -> 0 <= spos s -> read_pod n s = Some (b, s') ->
  Z.of_nat (length b) = n /\ b = take (Z.to_nat n) (drop (Z.to_nat (spos s)) (obj s))
  /\ s' = mk_stream (obj s) (spos s + n).
Proof.
  intros Hn Hp. unfold read_pod, stream_read, stream_size. intros E. destruct s as [o p]. cbn [obj spos] in *.
  assert (Hz : n = 0 -> Some ([], mk_stream o p) = Some (b, s') ->
    Z.of_nat (length b) = n /\ b = take (Z.to_nat n) (drop (Z.to_nat p) o) /\ s' = mk_stream o (p + n)).
  { intros -> [= <- <-]. rewrite Z.add_0_r. done. }
  destruct (Z.ltb_spec p (Z.of_nat (length o))).
  - destruct (Z.eqb_spec (Z.min n (Z.of_nat (length o) - p)) 0); case_match eqn:E3; try done; apply Z.eqb_eq in E3.
    + apply Hz; [cbn in E3; lia|done].
    + injection E as <- <-. rewrite length_take, length_drop in E3.
      replace (Z.min n (Z.of_nat (length o) - p)) with n in * by lia. split_and!; try done. rewrite length_take, length_drop. lia.
  - case_match eqn:E3; [|done]. apply Z.eqb_eq in E3. apply Hz; [cbn in E3; lia|done].
Qed.

Lemma read_vec_inv k n s b s' :
  0 <= k -> 0 <= n -> 0 <= spos s -> read_vec k n s = Some (b, s') ->
  Z.of_nat (length b) = k * n /\ b = take (Z.to_nat (k * n)) (drop (Z.to_nat (spos s)) (obj s))
  /\ s' = mk_stream (obj s) (spos s + k * n).
Proof. intros Hk Hn Hp. unfold read_vec. destruct (_ && _); [done|]. apply read_pod_inv; lia. Qed.

(** seek from the start, within the range of s64. *)
Lemma seek_set_ok p s : 0 <= p < 2 ^ 63 -> seek p seek_set s = (p, mk_stream (obj s) p).
Proof.
  intros Hp. unfold seek. rewrite sext_id by (unfold srange; lia). by destruct (Z.ltb_spec p 0); [lia|].
Qed.

Lemma seek_cur_ok n s : 0 <= spos s -> 0 <= n -> n + spos s < 2 ^ 63 ->
  seek n seek_cur s = (n + spos s, mk_stream (obj s) (n + spos s)).
Proof.
  intros Hp Hn Hs. unfold seek. rewrite sext_id by (unfold srange; lia). by destruct (Z.ltb_spec (n + spos s) 0); [lia|].
Qed.

(** Reading the elements that are there, also past the limit from which the
    size is checked first. *)
Lemma read_vec_ok k n l b r p :
  0 < k -> p = Z.of_nat (length l) -> Z.of_nat (length b) = k * n -> p < 2 ^ 63 ->
  read_vec k n (mk_stream (l ++ b ++ r) p) = Some (b, mk_stream (l ++ b ++ r) (p + k * n)).
Proof.
  intros Hk Hp Hb Hs. unfold read_vec. assert (0 <= n) by nia.
  assert (file_pos (mk_stream (l ++ b ++ r) p) = p) as ->.
  { unfold file_pos. rewrite seek_cur_ok; cbn; lia. }
  assert (strict_read_check p n k (mk_stream (l ++ b ++ r) p) = true) as ->.
  { unfold strict_read_check, stream_size. cbn [obj]. rewrite !length_app.
    destruct (Z.leb_spec (Z.of_nat (length l + (length b + length r))) p).
    - assert (n = 0) by nia. subst n. rewrite Z.div_0_l by lia. done.
    - apply negb_true_iff, Z.ltb_ge. apply Z.div_le_lower_bound; lia. }
  rewrite andb_false_r, <- Hb. by apply read_pod_ok.
Qed.

(** A write at the end of [w] with [rest] behind it. *)
Lemma stream_write_ok w rest b p :
  p = Z.of_nat (length w) -> p + Z.of_nat (length b) + Z.of_nat (length rest) < 2 ^ 64 ->
  stream_write b (mk_stream (w ++ rest) p)
    = Some (mk_stream ((w ++ b) ++ drop (length b) rest) (p + Z.of_nat (length b))).
Proof.
  intros -> Hs. unfold stream_write, stream_size. cbn [obj spos]. rewrite length_app.
  rewrite !wrap_id by (unfold urange; lia).
  destruct (Z.ltb_spec (Z.of_nat (length w + length rest) + Z.of_nat (length b)) (Z.of_nat (length w + length rest))); [lia|].
  destruct (Z.ltb_spec (Z.of_nat (length w) + Z.of_nat (length b)) (Z.of_nat (length w))); [lia|].
  destruct (Z.ltb_spec (Z.of_nat (length w + length rest)) (Z.of_nat (length w))); [lia|]. cbn [orb].
  f_equal. f_equal. rewrite Nat2Z.id, take_app_length, length_app, <- app_assoc. f_equal.
  set (o := Z.to_nat _). assert (o = Nat.min (length rest) (length b)) as -> by (unfold o; lia).
  rewrite <- (drop_drop (w ++ rest)), drop_app_length.
  destruct (Nat.le_gt_cases (length b) (length rest)).
  - rewrite Nat.min_r, take_ge, (drop_ge b), app_nil_r by lia. done.
  - rewrite Nat.min_l, (drop_ge rest (length rest)), (drop_ge rest (length b)) by lia. cbn. by rewrite take_drop, app_nil_r.
Qed.

(** trunc behind [w]. *)
Lemma trunc_ok w rest n p :
  Z.of_nat (length w) <= n ->
  trunc n (mk_stream (w ++ rest) p) = mk_stream (w ++ resize (Z.to_nat n - length w) 0 rest) p.
Proof.
  intros Hn. unfold trunc. cbn [obj spos]. f_equal. rewrite resize_app_ge by lia. done.
Qed.
