(* ===== verification/Psf.v ===== *)
(** * PARAM.SFO registries

    rpcs3/Loader/PSF.h and PSF.cpp: the typed entries of a registry, the
    reader and the writer of the binary format, over the streams of
    FileStream.  [None] stands for a failed ensure, narrow or an exception,
    which end the process or leave the function. *)

From Stdlib Require Import Lia String Ascii.
From stdpp Require Import base numbers list tactics.
From S2P Require Import Prelude RxMemory FileStream.

Open Scope Z_scope.

(** The characters of a literal. *)
Definition chars (s : string) : bytes := (fun c => Z.of_N (N_of_ascii c)) <$> list_ascii_of_string s.

(** enum class format *)
Definition fmt_array : Z := 0x0004.
Definition fmt_string : Z := 0x0204.
Definition fmt_integer : Z := 0x0404.

(** enum class error *)
Inductive error := error_ok | error_stream | error_not_psf | error_corrupt.

(** ** entry *)

Record entry := mk_entry {
  m_type : Z;
  m_max_size : Z;
  m_value_integer : Z;
  m_value_string : bytes
}.

(** type == format::string || type == format::array *)
Definition is_text (type : Z) : bool := (type =? fmt_string) || (type =? fmt_array).

(** entry::max *)
Definition entry_max (with_nts : bool) (e : entry) : Z :=
  wrap 32 (m_max_size e - (if negb with_nts && (m_type e =? fmt_string) then 1 else 0)).

(** entry::entry(format, u32, std::string_view, bool), which is noexcept. *)
Definition entry_of_string (type max_size : Z) (value : bytes) (allow_truncate : bool) : option entry :=
  if negb (is_text type) then None
  else if negb ((if type =? fmt_string then 1 else 0) <? max_size) then None
  else
    let e := mk_entry type max_size 0 value in
    if allow_truncate && (entry_max false e <? Z.of_nat (length value))
    then Some (mk_entry type max_size 0 (resize (Z.to_nat (entry_max false e)) 0 value))
    else Some e.

(** entry::entry(u32) *)
Definition entry_of_integer (value : Z) : entry := mk_entry fmt_integer 4 value [].

Definition as_string (e : entry) : option bytes := if is_text (m_type e) then Some (m_value_string e) else None.

Definition as_integer (e : entry) : option Z := if m_type e =? fmt_integer then Some (m_value_integer e) else None.

(** entry::operator=(std::string_view) and operator=(u32) *)
Definition assign_string (value : bytes) (e : entry) : option entry :=
  if is_text (m_type e) then Some (mk_entry (m_type e) (m_max_size e) (m_value_integer e) value) else None.

Definition assign_integer (value : Z) (e : entry) : option entry :=
  if m_type e =? fmt_integer then Some (mk_entry (m_type e) (m_max_size e) value (m_value_string e)) else None.

(** narrow<u32> of a usz *)
Definition narrow32 (x : Z) : option Z := if wrap 32 x =? x then Some x else None.

(** entry::size *)
Definition entry_size (e : entry) : option Z :=
  if is_text (m_type e) then
    n ← narrow32 (Z.of_nat (length (m_value_string e)) + (if m_type e =? fmt_string then 1 else 0));
    Some (Z.min (m_max_size e) n)
  else if m_type e =? fmt_integer then Some 4
  else None.

(** entry::is_valid *)
Definition is_valid (e : entry) : option bool :=
  if is_text (m_type e) then Some (Z.of_nat (length (m_value_string e)) <=? entry_max false e)
  else if m_type e =? fmt_integer then Some true
  else None.

(** ** registry: std::map<std::string, entry, std::less<>> *)

Abbreviation registry := (list (bytes * entry)).

(** std::string::compare, by bytes. *)
Fixpoint bytes_compare (a b : bytes) : comparison :=
  match a, b with
  | [], [] => Eq
  | [], _ :: _ => Lt
  | _ :: _, [] => Gt
  | x :: a', y :: b' => match x ?= y with Eq => bytes_compare a' b' | c => c end
  end.

Fixpoint reg_find (key : bytes) (r : registry) : option entry :=
  match r with
  | [] => None
  | (k, e) :: r' => match bytes_compare key k with Eq => Some e | Lt => None | Gt => reg_find key r' end
  end.

Definition reg_contains (key : bytes) (r : registry) : bool := bool_decide (is_Some (reg_find key r)).

(** std::map::emplace: nothing when the key is there. *)
Fixpoint reg_emplace (key : bytes) (e : entry) (r : registry) : registry :=
  match r with
  | [] => [(key, e)]
  | (k, x) :: r' =>
      match bytes_compare key k with
      | Lt => (key, e) :: r
      | Eq => r
      | Gt => (k, x) :: reg_emplace key e r'
      end
  end.

(** found->second = e *)
Fixpoint reg_replace (key : bytes) (e : entry) (r : registry) : registry :=
  match r with
  | [] => []
  | (k, x) :: r' => match bytes_compare key k with Eq => (k, e) :: r' | _ => (k, x) :: reg_replace key e r' end
  end.

(** psf::assign *)
Definition assign (r : registry) (key : bytes) (e : entry) : registry :=
  match reg_find key r with
  | None => reg_emplace key e r
  | Some _ => reg_replace key e r
  end.

(** psf::string and psf::array *)
Definition psf_string (max_size : Z) (value : bytes) (allow_truncate : bool) : option entry :=
  entry_of_string fmt_string max_size value allow_truncate.

Definition psf_array (max_size : Z) (value : bytes) : option entry := entry_of_string fmt_array max_size value false.

(** psf::get_string, psf::get_integer *)
Definition get_string (r : registry) (key def : bytes) : bytes :=
  match reg_find key r with
  | Some e => if is_text (m_type e) then m_value_string e else def
  | None => def
  end.

Definition get_integer (r : registry) (key : bytes) (def : Z) : Z :=
  match reg_find key r with
  | Some e => if m_type e =? fmt_integer then m_value_integer e else def
  | None => def
  end.

(** psf::is_cat_hdd *)
Definition is_cat_hdd (cat : bytes) : bool :=
  match cat with
  | [_; c] => negb (c =? 68) && negb (bool_decide (cat = chars "DG")) && negb (bool_decide (cat = chars "MS"))
  | _ => false
  end.

(** psf::check_registry with [validate], whose call is the empty function or a
    condition on the entry.  An entry that is not ok is logged with its string. *)
Fixpoint check_entries (validate : option (bool -> bytes -> entry -> bool)) (r : registry) (psf_ok : bool) : option bool :=
  match r with
  | [] => Some psf_ok
  | (key, value) :: r' =>
      valid ← is_valid value;
      let entry_ok := match validate with
                      | Some f => if negb (f valid key value) then false else valid
                      | None => valid
                      end in
      if entry_ok then check_entries validate r' psf_ok
      else
        _ ← as_string value;
        check_entries validate r' false
  end.

Definition check_registry (r : registry) (validate : option (bool -> bytes -> entry -> bool)) : option bool :=
  check_entries validate r true.

(** ** The binary format *)

Record header_t := mk_header {
  magic : Z;
  version : Z;
  off_key_table : Z;
  off_data_table : Z;
  entries_num : Z
}.

Record def_table_t := mk_def {
  key_off : Z;
  param_fmt : Z;
  param_len : Z;
  param_max : Z;
  data_off : Z
}.

(** "\0PSF"_u32 *)
Definition psf_magic : Z := le_val (0 :: chars "PSF").

(** The structures as little-endian bytes, and read from bytes. *)
Definition u32_at (i : nat) (b : bytes) : Z := le_val (take 4 (drop i b)).
Definition u16_at (i : nat) (b : bytes) : Z := le_val (take 2 (drop i b)).

Definition header_bytes (h : header_t) : bytes :=
  le_split 8 4 (magic h) ++ le_split 8 4 (version h) ++ le_split 8 4 (off_key_table h)
  ++ le_split 8 4 (off_data_table h) ++ le_split 8 4 (entries_num h).

Definition parse_header (b : bytes) : header_t :=
  mk_header (u32_at 0 b) (u32_at 4 b) (u32_at 8 b) (u32_at 12 b) (u32_at 16 b).

Definition def_bytes (d : def_table_t) : bytes :=
  le_split 8 2 (key_off d) ++ le_split 8 2 (param_fmt d) ++ le_split 8 4 (param_len d)
  ++ le_split 8 4 (param_max d) ++ le_split 8 4 (data_off d).

Definition parse_def (b : bytes) : def_table_t :=
  mk_def (u16_at 0 b) (u16_at 2 b) (u32_at 4 b) (u32_at 8 b) (u32_at 12 b).

(** std::vector<def_table_t> of [n] elements. *)
Fixpoint parse_defs (n : nat) (b : bytes) : list def_table_t :=
  match n with
  | O => []
  | S n' => parse_def (take 16 b) :: parse_defs n' (drop 16 b)
  end.

(** strlen: the bytes before the first NUL. *)
Fixpoint cstr (b : bytes) : bytes :=
  match b with
  | [] => []
  | c :: b' => if c =? 0 then [] else c :: cstr b'
  end.

(** ** psf::load *)

Record load_result_t := mk_load { sfo : registry; errc : error }.

(** One turn of the loop over the entries: the registry and the stream, or a
    failed PSF_CHECK; [None] when the constructor of the entry fails. *)
Definition load_entry (h : header_t) (keys : bytes) (d : def_table_t) (r : registry) (s : container_stream)
    : option (registry * container_stream + error) :=
  let key := cstr (drop (Z.to_nat (key_off d)) keys) in
  if negb (key_off d <? wrap 32 (off_data_table h - off_key_table h)) then Some (inr error_corrupt)
  else if reg_contains key r then Some (inr error_corrupt)
  else if negb (param_len d <=? param_max d) then Some (inr error_corrupt)
  else if negb (data_off d <? wrap 64 (stream_size s - off_data_table h)) then Some (inr error_corrupt)
  else if negb (param_max d <? wrap 64 (stream_size s - data_off d)) then Some (inr error_corrupt)
  else
    let s1 := snd (seek (wrap 32 (off_data_table h + data_off d)) seek_set s) in
    if (param_fmt d =? fmt_integer) && (param_max d =? 4) && (param_len d =? 4) then
      match read_pod 4 s1 with
      | None => Some (inr error_corrupt)
      | Some (b, s2) => Some (inl (reg_emplace key (entry_of_integer (le_val b)) r, s2))
      end
    else if is_text (param_fmt d) then
      match read_vec 1 (param_len d) s1 with
      | None => Some (inr error_corrupt)
      | Some (b, s2) =>
          let value := if param_fmt d =? fmt_string then cstr b else b in
          e ← entry_of_string (param_fmt d) (param_max d) value false;
          Some (inl (reg_emplace key e r, s2))
      end
    else Some (inl (r, s1)).

Fixpoint load_entries (h : header_t) (keys : bytes) (ds : list def_table_t) (r : registry) (s : container_stream)
    : option (registry + error) :=
  match ds with
  | [] => Some (inl r)
  | d :: ds' =>
      match load_entry h keys d r s with
      | None => None
      | Some (inr e) => Some (inr e)
      | Some (inl (r', s')) => load_entries h keys ds' r' s'
      end
  end.

Definition valid_cats : list bytes :=
  chars <$> ["GD"; "DG"; "HG"; "AM"; "AP"; "AS"; "AT"; "AV"; "BV"; "WT"; "HM"; "CB"; "SF"; "2P"; "2G"; "1P"; "PP"; "MN";
             "PE"; "2D"; "SD"; "MS"]%string.

(** The checks of the header. *)
Definition check_header (h : header_t) (size : Z) : option error :=
  if negb (magic h =? psf_magic) then Some error_not_psf
  else if negb (version h =? 0x101) then Some error_not_psf
  else if negb (20 <=? off_key_table h) then Some error_corrupt
  else if negb (off_key_table h <=? off_data_table h) then Some error_corrupt
  else if negb (off_data_table h <=? size) then Some error_corrupt
  else None.

Definition failed (e : error) : load_result_t := mk_load [] e.

(** [stream] is null when the file could not be opened. *)
Definition load (stream : option container_stream) : option load_result_t :=
  match stream with
  | None => Some (failed error_stream)
  | Some s =>
      match read_pod 20 (snd (seek 0 seek_set s)) with
      | None => Some (failed error_not_psf)
      | Some (b, s1) =>
          let h := parse_header b in
          match check_header h (stream_size s1) with
          | Some e => Some (failed e)
          | None =>
              match read_vec 16 (entries_num h) s1 with
              | None => Some (failed error_corrupt)
              | Some (ib, s2) =>
                  let '(p, s3) := seek (off_key_table h) seek_set s2 in
                  if negb (p =? off_key_table h) then Some (failed error_corrupt)
                  else
                    match read_vec 1 (wrap 32 (off_data_table h - off_key_table h)) s3 with
                    | None => Some (failed error_corrupt)
                    | Some (keys, s4) =>
                        res ← load_entries h keys (parse_defs (Z.to_nat (entries_num h)) ib) [] s4;
                        Some (match res with
                              | inr e => failed e
                              | inl r =>
                                  if bool_decide (get_string r (chars "CATEGORY") [] ∈ valid_cats)
                                  then mk_load r error_ok else failed error_corrupt
                              end)
                    end
              end
          end
      end
  end.

(** ** psf::save_object *)

(** The loop that generates the indices; [key_off] is a u16. *)
Fixpoint make_indices (r : registry) (key_offset data_offset : Z) : option (list def_table_t * Z) :=
  match r with
  | [] => Some ([], key_offset)
  | (key, e) :: r' =>
      ko ← narrow32 key_offset;
      len ← entry_size e;
      dof ← narrow32 data_offset;
      kn ← narrow32 (Z.of_nat (length key) + 1);
      let d := mk_def (wrap 16 ko) (m_type e) len (entry_max true e) dof in
      '(ds, last) ← make_indices r' (wrap 64 (key_offset + kn)) (wrap 64 (data_offset + param_max d));
      Some (d :: ds, last)
  end.

(** Save key table *)
Fixpoint write_keys (r : registry) (s : container_stream) : option container_stream :=
  match r with
  | [] => Some s
  | (key, _) :: r' =>
      s1 ← stream_write key s;
      s2 ← stream_write [0] s1;
      write_keys r' s2
  end.

(** stream.trunc(stream.seek(offset, whence)) *)
Definition trunc_seek (offset : Z) (whence : seek_mode) (s : container_stream) : container_stream :=
  let '(p, s1) := seek offset whence s in trunc p s1.

(** One turn of the loop that saves the data. *)
Definition write_value (e : entry) (s : container_stream) : option container_stream :=
  let max := entry_max true e in
  if (m_type e =? fmt_integer) && (max =? 4) then
    v ← as_integer e;
    stream_write (le_split 8 4 v) s
  else if is_text (m_type e) then
    v ← as_string e;
    valid ← is_valid e;
    let value : bytes := if (valid : bool) then v else take (Z.to_nat (entry_max false e)) v in
    s1 ← stream_write value s;
    Some (trunc_seek (sext 64 (max - Z.of_nat (length value))) seek_cur s1)
  else None.

Fixpoint write_data (r : registry) (s : container_stream) : option container_stream :=
  match r with
  | [] => Some s
  | (_, e) :: r' => s1 ← write_value e s; write_data r' s1
  end.

Definition save_object (r : registry) (init : bytes) : option bytes :=
  '(indices, key_offset) ← make_indices r 0 0;
  let key_offset' := alignUp 64 key_offset 4 in
  let n := Z.of_nat (length r) in
  okt ← narrow32 (20 + 16 * n);
  odt ← narrow32 (wrap 64 (okt + key_offset'));
  num ← narrow32 n;
  s1 ← stream_write (header_bytes (mk_header psf_magic 0x101 okt odt num)) (mk_stream init 0);
  s2 ← stream_write (concat (def_bytes <$> indices)) s1;
  s3 ← write_keys r s2;
  s4 ← write_data r (trunc_seek odt seek_set s3);
  Some (obj s4).

(** ** What the format keeps *)

(** An entry as it is read back: strings up to the first NUL or the limit. *)
Definition stored (e : entry) : entry :=
  let v := take (Z.to_nat (entry_max false e)) (m_value_string e) in
  if m_type e =? fmt_string then mk_entry fmt_string (m_max_size e) 0 (cstr v)
  else if m_type e =? fmt_array then mk_entry fmt_array (m_max_size e) 0 v
  else mk_entry fmt_integer 4 (m_value_integer e) [].

Definition stored_registry (r : registry) : registry := (fun x => (fst x, stored (snd x))) <$> r.
