(* ===== verification/PsfSpec.v ===== *)
(** * What the PARAM.SFO format keeps

    The image save_object writes, its reading by load, and the behaviour of
    load on arbitrary bytes. *)

From Stdlib Require Import Lia String Ascii.
From stdpp Require Import sorting base numbers list tactics.
From S2P Require Import Prelude RxMemory FileStream Psf.

Open Scope Z_scope.

(** ** Keys in order *)

Abbreviation key_before := (fun x y : bytes * entry => bytes_compare (fst x) (fst y) = Lt).

Lemma bytes_compare_refl a : bytes_compare a a = Eq.
Proof. induction a as [|x a IH]; cbn; [done|]. by rewrite Z.compare_refl. Qed.

Lemma bytes_compare_eq a b : bytes_compare a b = Eq -> a = b.
Proof.
  revert b. induction a as [|x a IH]; intros [|y b]; cbn; try done.
  destruct (Z.compare_spec x y) as [->| |]; try done. intros H. f_equal. by apply IH.
Qed.

Lemma bytes_compare_antisym a b : bytes_compare b a = CompOpp (bytes_compare a b).
Proof.
  revert b. induction a as [|x a IH]; intros [|y b]; cbn; try done.
  rewrite (Z.compare_antisym x y). destruct (x ?= y); cbn; [apply IH|done|done].
Qed.

Lemma bytes_compare_trans a b c : bytes_compare a b = Lt -> bytes_compare b c = Lt -> bytes_compare a c = Lt.
Proof.
  revert b c. induction a as [|x a IH]; intros [|y b] [|z c]; cbn; try done.
  destruct (Z.compare_spec x y) as [->|Hxy|]; [|intros _|done].
  - destruct (y ?= z); [apply IH|done|done].
  - destruct (Z.compare_spec y z) as [->|Hyz|]; [intros _|intros _|done];
      by replace (x ?= _) with Lt by (symmetry; apply Z.compare_lt_iff; lia).
Qed.

(** A key behind all keys of the registry. *)
Lemma emplace_last k e r :
  Forall (fun x => bytes_compare (fst x) k = Lt) r -> reg_emplace k e r = r ++ [(k, e)].
Proof.
  induction 1 as [|[k' e'] r H HF IH]; cbn; [done|]. rewrite (bytes_compare_antisym k' k). cbn in H. rewrite H.
  cbn. by rewrite IH.
Qed.

Lemma find_last k r : Forall (fun x => bytes_compare (fst x) k = Lt) r -> reg_find k r = None.
Proof.
  induction 1 as [|[k' e'] r H HF IH]; cbn; [done|]. rewrite (bytes_compare_antisym k' k). cbn in H. by rewrite H.
Qed.

(** reg_emplace of a new key keeps the order and what holds of all entries. *)
Lemma emplace_Forall (P : bytes * entry -> Prop) k e r : Forall P r -> P (k, e) -> Forall P (reg_emplace k e r).
Proof.
  intros HF Hk. induction HF as [|[k' e'] r H HF IH]; cbn; [by constructor|].
  destruct (bytes_compare k k'); constructor; done || by constructor.
Qed.

Lemma emplace_sorted k e r : StronglySorted key_before r -> StronglySorted key_before (reg_emplace k e r).
Proof.
  induction 1 as [|[k' e'] r HS IH HF]; cbn; [by repeat constructor|].
  destruct (bytes_compare k k') eqn:E; constructor; try done.
  - by constructor.
  - constructor; [done|]. eapply Forall_impl; [|exact HF]. intros x Hx. by eapply bytes_compare_trans.
  - apply emplace_Forall; [done|]. cbn. rewrite (bytes_compare_antisym k k'), E. done.
Qed.

Lemma find_emplace k e k' r :
  StronglySorted key_before r -> reg_find k r = None ->
  reg_find k' (reg_emplace k e r) = (if bool_decide (k' = k) then Some e else reg_find k' r).
Proof.
  induction 1 as [|[k1 e1] r HS IH HF]; cbn [reg_emplace reg_find].
  - intros _. case_bool_decide as E; [subst; by rewrite bytes_compare_refl|].
    destruct (bytes_compare k' k) eqn:C; [by apply bytes_compare_eq in C|done|done].
  - destruct (bytes_compare k k1) eqn:C1; [done| |]; cbn [reg_find].
    + intros _. case_bool_decide as E; [subst; by rewrite bytes_compare_refl|].
      destruct (bytes_compare k' k) eqn:C; [by apply bytes_compare_eq in C| |done].
      by rewrite (bytes_compare_trans k' k k1).
    + intros Hn. rewrite IH by done. case_bool_decide as E; [subst; by rewrite C1|done].
Qed.

Lemma find_replace k e k' r :
  StronglySorted key_before r -> is_Some (reg_find k r) ->
  reg_find k' (reg_replace k e r) = (if bool_decide (k' = k) then Some e else reg_find k' r).
Proof.
  induction 1 as [|[k1 e1] r HS IH HF]; cbn [reg_replace reg_find]; [by intros [? ?]|].
  destruct (bytes_compare k k1) eqn:C1; [|by intros [? ?]|]; cbn [reg_find].
  - apply bytes_compare_eq in C1 as ->. intros _. case_bool_decide as E; [subst; by rewrite bytes_compare_refl|].
    destruct (bytes_compare k' k1) eqn:C; [by apply bytes_compare_eq in C|done|done].
  - intros Hn. rewrite IH by done. case_bool_decide as E; [subst; by rewrite C1|done].
Qed.

(** assign sets one key. *)
Lemma find_assign k e k' r :
  StronglySorted key_before r -> reg_find k' (assign r k e) = (if bool_decide (k' = k) then Some e else reg_find k' r).
Proof.
  intros Hs. unfold assign. destruct (reg_find k r) eqn:E; [apply find_replace|apply find_emplace]; done.
Qed.

(** ** Strings *)

Lemma cstr_app_nul b r : Forall (fun c => c <> 0) b -> cstr (b ++ 0 :: r) = b.
Proof. induction 1 as [|c b Hc HF IH]; cbn; [done|]. destruct (Z.eqb_spec c 0); [done|]. by rewrite IH. Qed.

Lemma cstr_nul_end b : cstr (b ++ [0]) = cstr b.
Proof. induction b as [|c b IH]; cbn; [done|]. by rewrite IH. Qed.

Lemma cstr_id b : Forall (fun c => c <> 0) b -> cstr b = b.
Proof. intros H. rewrite <- cstr_nul_end. by apply cstr_app_nul. Qed.

Lemma cstr_no_nul b : Forall (fun c => c <> 0) (cstr b).
Proof. induction b as [|c b IH]; cbn; [done|]. destruct (Z.eqb_spec c 0); by constructor. Qed.

Lemma cstr_length b : (length (cstr b) <= length b)%nat.
Proof. induction b as [|c b IH]; cbn; [lia|]. destruct (_ =? _); cbn; lia. Qed.

(** ** Structures *)

Lemma le_val_split n v : urange (8 * Z.of_nat n) v -> le_val (le_split 8 n v) = v.
Proof. intros H. unfold le_val. rewrite le_radix_split by lia. by apply wrap_id. Qed.

(** Field [i] behind the fields [l]. *)
Lemma u32_at_ok l v r i : length l = i -> urange 32 v -> u32_at i (l ++ le_split 8 4 v ++ r) = v.
Proof.
  intros <- Hv. unfold u32_at. rewrite drop_app_length, take_app_length' by (by rewrite le_split_length).
  by apply le_val_split.
Qed.

Lemma u16_at_ok l v r i : length l = i -> urange 16 v -> u16_at i (l ++ le_split 8 2 v ++ r) = v.
Proof.
  intros <- Hv. unfold u16_at. rewrite drop_app_length, take_app_length' by (by rewrite le_split_length).
  by apply le_val_split.
Qed.

Ltac field l r :=
  match goal with
  | |- u32_at _ _ = ?v => etrans; [|apply (u32_at_ok l v r)]; [by rewrite ?app_nil_r, <- ?app_assoc|by rewrite ?length_app, ?le_split_length|done]
  | |- u16_at _ _ = ?v => etrans; [|apply (u16_at_ok l v r)]; [by rewrite ?app_nil_r, <- ?app_assoc|by rewrite ?length_app, ?le_split_length|done]
  end.

Definition wf_header (h : header_t) : Prop :=
  urange 32 (magic h) /\ urange 32 (version h) /\ urange 32 (off_key_table h) /\ urange 32 (off_data_table h)
  /\ urange 32 (entries_num h).

Definition wf_def (d : def_table_t) : Prop :=
  urange 16 (key_off d) /\ urange 16 (param_fmt d) /\ urange 32 (param_len d) /\ urange 32 (param_max d)
  /\ urange 32 (data_off d).

Lemma header_roundtrip h : wf_header h -> parse_header (header_bytes h) = h.
Proof.
  destruct h as [a b c d e]. intros (Ha & Hb & Hc & Hd & He). unfold parse_header, header_bytes. cbn [magic version off_key_table off_data_table entries_num] in *.
  set (s := le_split 8 4). f_equal.
  - field ([] : bytes) (s b ++ s c ++ s d ++ s e).
  - field (s a) (s c ++ s d ++ s e).
  - field (s a ++ s b) (s d ++ s e).
  - field (s a ++ s b ++ s c) (s e).
  - field (s a ++ s b ++ s c ++ s d) ([] : bytes).
Qed.

Lemma def_roundtrip d : wf_def d -> parse_def (def_bytes d) = d.
Proof.
  destruct d as [a b c d e]. intros (Ha & Hb & Hc & Hd & He). unfold parse_def, def_bytes. cbn [key_off param_fmt param_len param_max data_off] in *.
  set (s := le_split 8 4). set (u := le_split 8 2). f_equal.
  - field ([] : bytes) (u b ++ s c ++ s d ++ s e).
  - field (u a) (s c ++ s d ++ s e).
  - field (u a ++ u b) (s d ++ s e).
  - field (u a ++ u b ++ s c) (s e).
  - field (u a ++ u b ++ s c ++ s d) ([] : bytes).
Qed.

Lemma header_length h : length (header_bytes h) = 20%nat.
Proof. unfold header_bytes. by rewrite !length_app, !le_split_length. Qed.

Lemma def_length d : length (def_bytes d) = 16%nat.
Proof. unfold def_bytes. by rewrite !length_app, !le_split_length. Qed.

Lemma defs_length ds : length (concat (def_bytes <$> ds)) = (16 * length ds)%nat.
Proof. induction ds as [|d ds IH]; cbn [fmap list_fmap concat length]; [done|]. rewrite length_app, def_length, IH. lia. Qed.

Lemma defs_roundtrip ds : Forall wf_def ds -> parse_defs (length ds) (concat (def_bytes <$> ds)) = ds.
Proof.
  induction 1 as [|d ds Hd HF IH]; cbn [fmap list_fmap concat length parse_defs]; [done|].
  rewrite take_app_length', drop_app_length', def_roundtrip by (done || apply def_length). f_equal. apply IH.
Qed.

(** ** The image of a registry *)

(** What the constructors of an entry establish; a string may later be
    assigned beyond its limit. *)
Definition entry_ok (e : entry) : Prop :=
  (m_type e = fmt_integer /\ m_max_size e = 4 /\ urange 32 (m_value_integer e))
  \/ (m_type e = fmt_string /\ 1 < m_max_size e < 2 ^ 32 /\ Z.of_nat (length (m_value_string e)) + 1 < 2 ^ 32)
  \/ (m_type e = fmt_array /\ 0 < m_max_size e < 2 ^ 32 /\ Z.of_nat (length (m_value_string e)) < 2 ^ 32).

(** The bytes kept of a string, and the field of an entry in the data table. *)
Definition kept (e : entry) : bytes := take (Z.to_nat (entry_max false e)) (m_value_string e).

Definition entry_data (e : entry) : bytes :=
  if m_type e =? fmt_integer then le_split 8 4 (m_value_integer e)
  else resize (Z.to_nat (m_max_size e)) 0 (kept e).

Definition entry_len (e : entry) : Z :=
  if m_type e =? fmt_integer then 4
  else Z.min (m_max_size e) (Z.of_nat (length (m_value_string e)) + (if m_type e =? fmt_string then 1 else 0)).

Definition key_table (r : registry) : bytes := concat ((fun x => fst x ++ [0]) <$> r).
Definition data_table (r : registry) : bytes := concat ((fun x => entry_data (snd x)) <$> r).

Fixpoint index_list (r : registry) (ko dof : Z) : list def_table_t :=
  match r with
  | [] => []
  | (k, e) :: r' =>
      mk_def ko (m_type e) (entry_len e) (m_max_size e) dof
      :: index_list r' (ko + Z.of_nat (length k) + 1) (dof + m_max_size e)
  end.

Definition header_of (r : registry) (pad : nat) : header_t :=
  let okt := 20 + 16 * Z.of_nat (length r) in
  mk_header psf_magic 0x101 okt (okt + Z.of_nat (length (key_table r)) + Z.of_nat pad) (Z.of_nat (length r)).

Definition image (r : registry) (pad : bytes) : bytes :=
  header_bytes (header_of r (length pad)) ++ concat (def_bytes <$> index_list r 0 0) ++ (key_table r ++ pad) ++ data_table r.

(** The fields of an entry, by its type. *)
Lemma entry_ok_cases e : entry_ok e ->
  (m_type e = fmt_integer /\ m_max_size e = 4 /\ urange 32 (m_value_integer e) /\ is_text (m_type e) = false)
  \/ (is_text (m_type e) = true /\ (m_type e =? fmt_integer) = false /\ (m_type e = fmt_string \/ m_type e = fmt_array)
      /\ (if m_type e =? fmt_string then 1 else 0) < m_max_size e < 2 ^ 32
      /\ Z.of_nat (length (m_value_string e)) + (if m_type e =? fmt_string then 1 else 0) < 2 ^ 32).
Proof. intros [(-> & H)|[(-> & H)|(-> & H)]]; [left; by destruct H|right|right]; cbn; split_and!; try lia; auto. Qed.

Lemma entry_max_true e : entry_ok e -> entry_max true e = m_max_size e.
Proof.
  intros H. unfold entry_max. cbn [negb andb]. rewrite Z.sub_0_r. apply wrap_id. unfold urange.
  destruct H as [(_ & -> & _)|[(_ & H & _)|(_ & H & _)]]; lia.
Qed.

Lemma entry_max_false e : entry_ok e ->
  entry_max false e = m_max_size e - (if m_type e =? fmt_string then 1 else 0).
Proof.
  intros H. unfold entry_max. cbn [negb andb]. apply wrap_id. unfold urange.
  destruct H as [(-> & -> & _)|[(-> & H & _)|(-> & H & _)]]; cbn; lia.
Qed.

Lemma entry_size_ok e : entry_ok e -> entry_size e = Some (entry_len e).
Proof.
  intros H. unfold entry_size, entry_len, narrow32.
  destruct (entry_ok_cases e H) as [(Ht & _ & _ & ->)|(-> & -> & _ & _ & Hl)]; [by rewrite Ht|].
  rewrite wrap_id, Z.eqb_refl; [done|]. unfold urange. destruct (_ =? fmt_string); lia.
Qed.

Lemma entry_len_range e : entry_ok e -> 0 <= entry_len e <= m_max_size e /\ 0 < m_max_size e < 2 ^ 32.
Proof.
  intros H. unfold entry_len. destruct (entry_ok_cases e H) as [(-> & -> & _)|(_ & -> & _ & Hm & _)]; [done|].
  destruct (_ =? fmt_string); lia.
Qed.

Lemma entry_type_range e : entry_ok e -> urange 16 (m_type e).
Proof. by intros [(-> & _)|[(-> & _)|(-> & _)]]. Qed.

Lemma entry_data_length e : entry_ok e -> Z.of_nat (length (entry_data e)) = m_max_size e.
Proof.
  intros H. unfold entry_data. destruct (entry_ok_cases e H) as [(-> & -> & _)|(_ & -> & _ & Hm & _)].
  - by rewrite Z.eqb_refl, le_split_length.
  - rewrite length_resize. destruct (_ =? fmt_string); lia.
Qed.

Lemma key_table_cons k e r : key_table ((k, e) :: r) = (k ++ [0]) ++ key_table r.
Proof. done. Qed.

Lemma data_table_cons k e r : data_table ((k, e) :: r) = entry_data e ++ data_table r.
Proof. done. Qed.

Lemma key_table_app r r' : key_table (r ++ r') = key_table r ++ key_table r'.
Proof. unfold key_table. by rewrite fmap_app, concat_app. Qed.

Lemma data_table_app r r' : data_table (r ++ r') = data_table r ++ data_table r'.
Proof. unfold data_table. by rewrite fmap_app, concat_app. Qed.

Abbreviation klen r := (Z.of_nat (length (key_table r))).
Abbreviation dlen r := (Z.of_nat (length (data_table r))).

Lemma klen_cons k e r : klen ((k, e) :: r) = Z.of_nat (length k) + 1 + klen r.
Proof. rewrite key_table_cons, !length_app. cbn. lia. Qed.

Lemma dlen_cons k e r : entry_ok e -> dlen ((k, e) :: r) = m_max_size e + dlen r.
Proof. intros H. rewrite data_table_cons, length_app. pose proof (entry_data_length e H). lia. Qed.

(** ** Writing *)

Abbreviation all_ok r := (Forall (fun x => entry_ok (snd x)) r).

Lemma make_indices_ok r ko dof :
  all_ok r -> 0 <= ko -> 0 <= dof -> ko + klen r <= 2 ^ 16 -> dof + dlen r < 2 ^ 32 ->
  make_indices r ko dof = Some (index_list r ko dof, ko + klen r).
Proof.
  intros HF. revert ko dof. induction HF as [|[k e] r He HF IH]; intros ko dof H1 H2 H3 H4; cbn [make_indices index_list].
  { cbn. by rewrite Z.add_0_r. }
  cbn [snd] in He. rewrite klen_cons, dlen_cons in * by done. pose proof (entry_len_range e He).
  unfold narrow32. rewrite entry_size_ok, entry_max_true by done. cbn [param_max].
  rewrite !wrap_id by (unfold urange; lia). rewrite !Z.eqb_refl. cbn [mbind option_bind].
  rewrite !(wrap_id 64), !(wrap_id 16), Z.add_assoc, IH by (unfold urange; lia). cbn [mbind option_bind].
  do 2 f_equal. lia.
Qed.

Lemma index_list_length r ko dof : length (index_list r ko dof) = length r.
Proof. revert ko dof. induction r as [|[k e] r IH]; intros; cbn; [done|]. by rewrite IH. Qed.

Lemma index_list_wf r ko dof :
  all_ok r -> 0 <= ko -> 0 <= dof -> ko + klen r <= 2 ^ 16 -> dof + dlen r < 2 ^ 32 ->
  Forall wf_def (index_list r ko dof).
Proof.
  intros HF. revert ko dof. induction HF as [|[k e] r He HF IH]; intros ko dof H1 H2 H3 H4; cbn [index_list]; [done|].
  cbn [snd] in He. rewrite klen_cons, dlen_cons in * by done. pose proof (entry_len_range e He).
  constructor; [|apply IH; lia]. pose proof (entry_type_range e He).
  split_and!; cbn; unfold urange; done || lia.
Qed.

Lemma write_keys_ok r w rest :
  Z.of_nat (length w) + klen r + Z.of_nat (length rest) < 2 ^ 64 ->
  write_keys r (mk_stream (w ++ rest) (Z.of_nat (length w)))
  = Some (mk_stream ((w ++ key_table r) ++ drop (length (key_table r)) rest) (Z.of_nat (length w) + klen r)).
Proof.
  revert w rest. induction r as [|[k e] r IH]; intros w rest H; cbn [write_keys].
  { cbn. by rewrite app_nil_r, Z.add_0_r. }
  rewrite klen_cons in *. rewrite stream_write_ok by lia. cbn [mbind option_bind].
  rewrite stream_write_ok by (rewrite ?length_app, ?length_drop; cbn; lia). cbn [mbind option_bind].
  replace (Z.of_nat (length w) + Z.of_nat (length k) + Z.of_nat (length [0])) with (Z.of_nat (length ((w ++ k) ++ [0])))
    by (rewrite !length_app; lia).
  rewrite IH by (rewrite !length_app, !length_drop; cbn; lia).
  rewrite key_table_cons, !drop_drop, !length_app, <- !app_assoc. do 2 f_equal.
  - by rewrite <- Nat.add_assoc.
  - cbn. lia.
Qed.

(** seek and trunc behind the data. *)
Lemma trunc_seek_set w rest n p :
  Z.of_nat (length w) <= n < 2 ^ 63 ->
  trunc_seek n seek_set (mk_stream (w ++ rest) p) = mk_stream (w ++ resize (Z.to_nat n - length w) 0 rest) n.
Proof. intros H. unfold trunc_seek. rewrite seek_set_ok by lia. cbn [obj]. by rewrite trunc_ok by lia. Qed.

Lemma write_value_ok e w :
  entry_ok e -> Z.of_nat (length w) + m_max_size e < 2 ^ 63 ->
  write_value e (mk_stream w (Z.of_nat (length w)))
  = Some (mk_stream (w ++ entry_data e) (Z.of_nat (length (w ++ entry_data e)))).
Proof.
  intros He Hs. pose proof (entry_data_length e He) as Hd. pose proof (entry_len_range e He) as [_ Hm].
  assert (Hw : forall b, Z.of_nat (length b) <= m_max_size e -> stream_write b (mk_stream w (Z.of_nat (length w)))
    = Some (mk_stream (w ++ b) (Z.of_nat (length w) + Z.of_nat (length b)))).
  { intros b Hb. pose proof (stream_write_ok w [] b _ eq_refl) as E. rewrite drop_nil, !app_nil_r in E. apply E. cbn. lia. }
  unfold write_value. rewrite entry_max_true by done. unfold entry_data in *.
  destruct (entry_ok_cases e He) as [(Ht & H4 & Hv & _)|(Ht & Hi & _ & Hx & Hl)].
  { unfold as_integer. rewrite Ht in *. cbn [Z.eqb fmt_integer andb] in *. rewrite H4. cbn [Z.eqb mbind option_bind Pos.eqb].
    rewrite Hw by (rewrite le_split_length; lia). by rewrite length_app, Nat2Z.inj_add. }
  unfold as_string, is_valid. rewrite Hi, Ht. cbn [andb mbind option_bind].
  set (v := if _ <=? _ then _ else _). assert (v = kept e) as ->.
  { unfold v, kept. destruct (Z.leb_spec (Z.of_nat (length (m_value_string e))) (entry_max false e)); [|done].
    by rewrite take_ge by lia. }
  assert (Hk : Z.of_nat (length (kept e)) <= m_max_size e).
  { unfold kept. rewrite length_take, entry_max_false by done. destruct (_ =? fmt_string); lia. }
  rewrite Hw by done. cbn [mbind option_bind]. unfold trunc_seek. rewrite sext_id by (unfold srange; lia).
  rewrite seek_cur_ok by (cbn; lia). cbn [obj spos]. rewrite Hi in Hd.
  unfold trunc. cbn [obj spos]. do 2 f_equal.
  - rewrite resize_app_ge by lia. do 2 f_equal. lia.
  - rewrite length_app, Nat2Z.inj_add, Hd. lia.
Qed.

Lemma write_data_ok r w :
  all_ok r -> Z.of_nat (length w) + dlen r < 2 ^ 63 ->
  write_data r (mk_stream w (Z.of_nat (length w)))
  = Some (mk_stream (w ++ data_table r) (Z.of_nat (length (w ++ data_table r)))).
Proof.
  intros HF. revert w. induction HF as [|[k e] r He HF IH]; intros w Hs; cbn [write_data].
  { by rewrite app_nil_r. }
  cbn [snd] in He. rewrite dlen_cons in Hs by done. rewrite write_value_ok by (done || lia). cbn [mbind option_bind].
  rewrite IH by (rewrite length_app, Nat2Z.inj_add, entry_data_length by done; lia). by rewrite data_table_cons, app_assoc.
Qed.

(** The number of bytes that align the key table. *)
Definition padding (r : registry) : nat := Z.to_nat (alignUp 64 (klen r) 4 - klen r).

Lemma padding_spec r : klen r <= 2 ^ 16 -> alignUp 64 (klen r) 4 = klen r + Z.of_nat (padding r) /\ (padding r < 4)%nat.
Proof.
  intros H. pose proof (alignUp_spec 64 (klen r) 2) as A. cbv zeta in A. change (2 ^ 2) with 4 in A.
  unfold padding. lia.
Qed.

(** The sizes that the fields of the format can hold. *)
Record reg_fits (r : registry) : Prop := {
  fit_entries : all_ok r;
  fit_keys : klen r <= 2 ^ 16;
  fit_total : 24 + 16 * Z.of_nat (length r) + klen r + dlen r < 2 ^ 32
}.

(** save_object writes the image; what was in the buffer survives only in the
    padding of the key table. *)
Lemma save_image r init :
  reg_fits r -> Z.of_nat (length init) < 2 ^ 63 ->
  exists pad, length pad = padding r /\ save_object r init = Some (image r pad).
Proof.
  intros [He Hk Ht] Hi. destruct (padding_spec r Hk) as [Hp Hp4]. unfold save_object.
  rewrite make_indices_ok by (done || lia). cbn [mbind option_bind]. rewrite Z.add_0_l, Hp. unfold narrow32.
  rewrite !(wrap_id 32 (20 + _)), Z.eqb_refl by (unfold urange; lia). cbn [mbind option_bind].
  rewrite (wrap_id 64), (wrap_id 32), Z.eqb_refl by (unfold urange; lia). cbn [mbind option_bind].
  rewrite (wrap_id 32), Z.eqb_refl by (unfold urange; lia). cbn [mbind option_bind].
  set (h := header_bytes _). pose proof (header_length (mk_header psf_magic 257 (20 + 16 * Z.of_nat (length r))
    (20 + 16 * Z.of_nat (length r) + (klen r + Z.of_nat (padding r))) (Z.of_nat (length r)))) as Hh. fold h in Hh.
  set (x := concat (def_bytes <$> index_list r 0 0)).
  assert (Hx : length x = (16 * length r)%nat) by (unfold x; by rewrite defs_length, index_list_length).
  pose proof (stream_write_ok [] init h 0 eq_refl) as W1. cbn [app] in W1. rewrite W1 by lia. clear W1. cbn [mbind option_bind].
  rewrite stream_write_ok by (rewrite ?length_drop; lia). cbn [mbind option_bind].
  replace (0 + Z.of_nat (length h) + Z.of_nat (length x)) with (Z.of_nat (length (h ++ x))) by (rewrite length_app; lia).
  rewrite write_keys_ok by (rewrite length_app, !length_drop; lia). cbn [mbind option_bind].
  rewrite trunc_seek_set by (rewrite !length_app; lia).
  set (rest := drop _ (drop _ _)). set (pad := resize _ 0 rest).
  assert (Hpad : length pad = padding r) by (unfold pad; rewrite length_resize, !length_app; lia).
  exists pad. split; [done|].
  replace (20 + 16 * Z.of_nat (length r) + (klen r + Z.of_nat (padding r))) with (Z.of_nat (length (((h ++ x) ++ key_table r) ++ pad)))
    by (rewrite !length_app; lia).
  rewrite write_data_ok by (done || (rewrite !length_app; lia)). cbn [mbind option_bind obj]. unfold image.
  f_equal. rewrite <- !app_assoc. f_equal. unfold h, header_of. rewrite Hpad. by rewrite Z.add_assoc.
Qed.

(** ** Reading back *)

(** The field of a string, cut at the length in the index. *)
Lemma text_data e : entry_ok e -> (m_type e =? fmt_integer) = false ->
  take (Z.to_nat (entry_len e)) (entry_data e) = kept e ++ (if m_type e =? fmt_string then [0] else []).
Proof.
  intros He Hi. destruct (entry_ok_cases e He) as [(Ht & _)|(_ & _ & _ & Hm & _)]; [by rewrite Ht in Hi|].
  unfold entry_data, entry_len. rewrite Hi. pose proof (entry_max_false e He) as Hf.
  assert (Hk : Z.of_nat (length (kept e)) = Z.min (entry_max false e) (Z.of_nat (length (m_value_string e)))).
  { unfold kept. rewrite length_take. destruct (_ =? fmt_string); lia. }
  rewrite resize_spec. destruct (_ =? fmt_string) eqn:E.
  - rewrite (take_ge (kept e)), take_app_ge by lia. f_equal.
    replace (Z.to_nat _ - length (kept e))%nat with 1%nat by lia.
    destruct (Z.to_nat (m_max_size e) - length (kept e))%nat eqn:E2; [lia|done].
  - rewrite (take_ge (kept e)), take_app_le, take_ge, app_nil_r by lia. done.
Qed.

Lemma stored_text e : entry_ok e -> is_text (m_type e) = true ->
  stored e = mk_entry (m_type e) (m_max_size e) 0 (if m_type e =? fmt_string then cstr (kept e) else kept e).
Proof. intros [(E & _)|[(E & _)|(E & _)]] Ht; unfold stored; rewrite E in *; done. Qed.

Lemma entry_of_string_ok e v : entry_ok e -> is_text (m_type e) = true ->
  entry_of_string (m_type e) (m_max_size e) v false = Some (mk_entry (m_type e) (m_max_size e) 0 v).
Proof.
  intros He Ht. unfold entry_of_string. rewrite Ht. cbn [negb].
  destruct (entry_ok_cases e He) as [(H & _)|(_ & _ & _ & Hm & _)]; [by rewrite H in Ht|].
  by destruct (Z.ltb_spec (if m_type e =? fmt_string then 1 else 0) (m_max_size e)); [|lia].
Qed.

Lemma stored_before k r : Forall (fun x => bytes_compare (fst x) k = Lt) r ->
  Forall (fun x => bytes_compare (fst x) k = Lt) (stored_registry r).
Proof. intros H. apply Forall_fmap. exact H. Qed.

Lemma load_entry_ok h keys pre done k e todo pad s :
  keys = key_table (done ++ (k, e) :: todo) ++ pad -> obj s = pre ++ data_table (done ++ (k, e) :: todo) ->
  off_data_table h = Z.of_nat (length pre) -> 0 < off_data_table h -> stream_size s < 2 ^ 32 ->
  off_data_table h - off_key_table h = Z.of_nat (length keys) -> 0 <= off_key_table h ->
  Forall (fun c => c <> 0) k -> entry_ok e -> Forall (fun x => bytes_compare (fst x) k = Lt) done ->
  exists s', load_entry h keys (mk_def (klen done) (m_type e) (entry_len e) (m_max_size e) (dlen done)) (stored_registry done) s
      = Some (inl (stored_registry (done ++ [(k, e)]), s')) /\ obj s' = obj s.
Proof.
  intros Hkeys Hobj Hodt Hpos Hsz Hdiff Hokt Hk He Hb. set (l := pre ++ data_table done).
  assert (Hso : obj s = l ++ entry_data e ++ data_table todo).
  { unfold l. by rewrite Hobj, data_table_app, data_table_cons, <- app_assoc. }
  pose proof (entry_data_length e He) as Hd. pose proof (entry_len_range e He) as [Hl Hm].
  assert (Hll : Z.of_nat (length l) = off_data_table h + dlen done) by (unfold l; rewrite length_app; lia).
  assert (Hss : stream_size s = off_data_table h + dlen done + m_max_size e + dlen todo).
  { unfold stream_size. rewrite Hso, !length_app. lia. }
  assert (Hkl : klen done < Z.of_nat (length keys)).
  { rewrite Hkeys, length_app, key_table_app, length_app, key_table_cons, !length_app. cbn. lia. }
  unfold load_entry. cbn [key_off param_fmt param_len param_max data_off].
  assert (cstr (drop (Z.to_nat (klen done)) keys) = k) as ->.
  { rewrite Nat2Z.id, Hkeys, key_table_app, <- app_assoc, drop_app_length, key_table_cons, <- !app_assoc. by apply cstr_app_nul. }
  rewrite Hdiff, !wrap_id by (unfold urange; lia).
  destruct (Z.ltb_spec (klen done) (Z.of_nat (length keys))); [|lia]. cbn [negb].
  unfold reg_contains. rewrite find_last by (by apply stored_before). rewrite bool_decide_false by (by intros [? ?]).
  destruct (Z.leb_spec (entry_len e) (m_max_size e)); [|lia].
  destruct (Z.ltb_spec (dlen done) (stream_size s - off_data_table h)); [|lia].
  destruct (Z.ltb_spec (m_max_size e) (stream_size s - dlen done)); [|lia]. cbn [negb].
  rewrite seek_set_ok by lia. cbn [snd]. rewrite Hso. unfold stored_registry. rewrite fmap_app. cbn [fmap list_fmap].
  cbn [fst snd]. pose proof (emplace_last k (stored e) _ (stored_before k done Hb)) as Hem.
  unfold stored_registry in Hem. rewrite <- Hem. clear Hem.
  destruct (entry_ok_cases e He) as [(Ht & H4 & Hv & _)|(Ht & Hi & _)].
  - unfold entry_len, entry_data, stored. rewrite Ht, H4. cbn [Z.eqb andb fmt_integer fmt_string fmt_array Pos.eqb].
    change 4 with (Z.of_nat (length (le_split 8 4 (m_value_integer e)))) at 1.
    rewrite read_pod_ok by done. rewrite le_val_split by done. eexists. split; [reflexivity|done].
  - rewrite Hi, Ht. cbn [andb].
    replace (entry_data e) with (take (Z.to_nat (entry_len e)) (entry_data e) ++ drop (Z.to_nat (entry_len e)) (entry_data e))
      by apply take_drop.
    rewrite <- app_assoc, read_vec_ok by (rewrite ?length_take; lia). rewrite text_data by done.
    rewrite entry_of_string_ok by done. cbn [mbind option_bind]. rewrite stored_text by done.
    destruct (m_type e =? fmt_string); [rewrite cstr_nul_end|rewrite app_nil_r]; by eexists.
Qed.

Lemma load_entries_ok h keys pre pad todo done s :
  keys = key_table (done ++ todo) ++ pad -> obj s = pre ++ data_table (done ++ todo) ->
  off_data_table h = Z.of_nat (length pre) -> 0 < off_data_table h -> stream_size s < 2 ^ 32 ->
  off_data_table h - off_key_table h = Z.of_nat (length keys) -> 0 <= off_key_table h ->
  Forall (fun x => Forall (fun c => c <> 0) (fst x)) todo -> all_ok todo -> StronglySorted key_before (done ++ todo) ->
  load_entries h keys (index_list todo (klen done) (dlen done)) (stored_registry done) s
  = Some (inl (stored_registry (done ++ todo))).
Proof.
  revert done s. induction todo as [|[k e] todo IH]; intros done s Hkeys Hobj Hodt Hpos Hsz Hdiff Hokt Hk He Hs;
    cbn [index_list load_entries]; [by rewrite app_nil_r|].
  apply Forall_cons_1 in Hk as [Hk Hks]. apply Forall_cons_1 in He as [He Hes]. cbn [fst snd] in *.
  destruct (load_entry_ok h keys pre done k e todo pad s) as (s' & -> & Ho); try done.
  { apply Forall_forall. intros x Hin%list_elem_of_In.
    apply (StronglySorted_app_1_elem_of key_before done ((k, e) :: todo) x (k, e) Hs Hin). by left. }
  assert (Happ : done ++ (k, e) :: todo = (done ++ [(k, e)]) ++ todo) by by rewrite <- app_assoc.
  rewrite Happ in *. replace (klen done + Z.of_nat (length k) + 1) with (klen (done ++ [(k, e)]))
    by (rewrite key_table_app, length_app, key_table_cons, !length_app; cbn; lia).
  replace (dlen done + m_max_size e) with (dlen (done ++ [(k, e)]))
    by (rewrite data_table_app, length_app, Nat2Z.inj_add, (dlen_cons k e []) by done; cbn; lia).
  apply IH; try done; [by rewrite Ho|]. unfold stream_size in *. by rewrite Ho.
Qed.

(** The first steps of load on a file that starts with the header [h]. *)
Lemma read_header_ok h rest :
  read_pod 20 (mk_stream (header_bytes h ++ rest) 0) = Some (header_bytes h, mk_stream (header_bytes h ++ rest) 20).
Proof. pose proof (read_pod_ok [] (header_bytes h) rest 0 eq_refl) as E. rewrite header_length in E. exact E. Qed.

Lemma check_header_ok h n :
  magic h = psf_magic -> version h = 257 -> 20 <= off_key_table h <= off_data_table h -> off_data_table h <= n ->
  check_header h n = None.
Proof.
  intros Hm Hv Hk Hd. unfold check_header. rewrite Hm, Hv, !Z.eqb_refl. cbn [negb].
  destruct (Z.leb_spec 20 (off_key_table h)), (Z.leb_spec (off_key_table h) (off_data_table h)); try lia. cbn [negb].
  by destruct (Z.leb_spec (off_data_table h) n); [|lia].
Qed.

(** load reads the image of a registry. *)
Lemma load_image r pad p :
  reg_fits r -> length pad = padding r -> StronglySorted key_before r ->
  Forall (fun x => Forall (fun c => c <> 0) (fst x)) r ->
  get_string (stored_registry r) (chars "CATEGORY") [] ∈ valid_cats ->
  load (Some (mk_stream (image r pad) p)) = Some (mk_load (stored_registry r) error_ok).
Proof.
  intros [He Hk Ht] Hpad Hs Hn Hc. destruct (padding_spec r Hk) as [_ Hp4]. rewrite <- Hpad in Hp4.
  unfold load. rewrite seek_set_ok by lia. cbn [snd obj].
  set (h := header_of r (length pad)). set (hb := header_bytes h). set (x := concat (def_bytes <$> index_list r 0 0)).
  assert (Hh : length hb = 20%nat) by apply header_length.
  assert (Hx : length x = (16 * length r)%nat) by (unfold x; by rewrite defs_length, index_list_length).
  assert (Hi : image r pad = hb ++ x ++ (key_table r ++ pad) ++ data_table r) by done.
  assert (Hsz : length (image r pad) = (20 + (16 * length r + (length (key_table r) + length pad + length (data_table r))))%nat)
    by (rewrite Hi, !length_app; lia).
  assert (Hwf : wf_header h) by (unfold h, header_of; split_and!; cbn; unfold urange; done || lia).
  assert (Ho : off_key_table h = 20 + 16 * Z.of_nat (length r)) by done.
  assert (Hd : off_data_table h = 20 + 16 * Z.of_nat (length r) + klen r + Z.of_nat (length pad)) by done.
  rewrite Hi. unfold hb at 1. rewrite read_header_ok. fold hb. rewrite <- Hi.
  assert (parse_header hb = h) as -> by (by apply header_roundtrip).
  rewrite check_header_ok by (done || (unfold stream_size; cbn [obj]; lia)).
  change (entries_num h) with (Z.of_nat (length r)). rewrite Hi. rewrite read_vec_ok by lia.
  rewrite seek_set_ok by lia. cbn [obj]. rewrite Z.eqb_refl. cbn [negb].
  rewrite (app_assoc hb x) at 1. rewrite wrap_id by (unfold urange; lia).
  assert (Hdiff : off_data_table h - off_key_table h = Z.of_nat (length (key_table r ++ pad))) by (rewrite length_app; lia).
  rewrite read_vec_ok by (rewrite ?length_app in *; lia).
  rewrite Nat2Z.id. unfold x at 1. rewrite <- (index_list_length r 0 0) at 1.
  rewrite defs_roundtrip by (apply index_list_wf; done || lia).
  pose proof (load_entries_ok h (key_table r ++ pad) ((hb ++ x) ++ key_table r ++ pad) pad r []) as L.
  cbn [app] in L. change (klen []) with 0 in L. change (dlen []) with 0 in L. change (stored_registry []) with ([] : registry) in L.
  rewrite L; clear L; try done.
  - cbn [mbind option_bind]. by rewrite bool_decide_true.
  - cbn [obj]. by rewrite <- !app_assoc.
  - rewrite !length_app. lia.
  - lia.
  - unfold stream_size. cbn [obj]. rewrite !length_app. lia.
  - lia.
Qed.

(** An entry within its limit, as the constructors leave it. *)
Definition storable (e : entry) : Prop :=
  is_valid e = Some true
  /\ (if m_type e =? fmt_integer then m_value_string e = [] else m_value_integer e = 0)
  /\ (m_type e = fmt_string -> Forall (fun c => c <> 0) (m_value_string e)).

Lemma stored_id e : entry_ok e -> storable e -> stored e = e.
Proof.
  intros He (Hv & Hx & Hz). destruct (entry_ok_cases e He) as [(Ht & H4 & _ & Hn)|(Ht & Hi & _)].
  - destruct e as [ty mx vi vs]. cbn in *. subst ty mx. cbn in Hx. subst vs. done.
  - rewrite stored_text by done. unfold is_valid in Hv. rewrite Ht in Hv. injection Hv as Hv. apply Z.leb_le in Hv.
    assert (kept e = m_value_string e) as -> by (unfold kept; rewrite take_ge by lia; done).
    rewrite Hi in Hx. destruct e as [ty mx vi vs]. cbn in *. subst vi. f_equal.
    destruct (Z.eqb_spec ty fmt_string) as [->|]; [|done]. by apply cstr_id, Hz.
Qed.

(** ** Properties *)

(** C18: Saving and loading a registry.  For every registry whose sizes fit the
    fields of the format, with keys free of NUL and a known CATEGORY,
    save_object succeeds whatever buffer it is given, and load reads from its
    result, at any position of the stream, each entry as far as its limit (and
    a string as far as its first NUL); a registry of valid entries is read back
    unchanged. *)
Theorem psf_roundtrip (r : registry) (init : bytes) :
  StronglySorted key_before r -> Forall (fun x => Forall (fun c => c <> 0) (fst x)) r -> reg_fits r ->
  Z.of_nat (length init) < 2 ^ 63 -> get_string (stored_registry r) (chars "CATEGORY") [] ∈ valid_cats ->
  exists b, save_object r init = Some b
    /\ (forall p, load (Some (mk_stream b p)) = Some (mk_load (stored_registry r) error_ok))
    /\ (Forall (fun x => storable (snd x)) r -> stored_registry r = r).
Proof.
  intros Hs Hn Hf Hi Hc. destruct (save_image r init Hf Hi) as (pad & Hp & E). exists (image r pad). split_and!; [done| |].
  - intros p. by apply load_image.
  - intros Hv. unfold stored_registry. rewrite <- (list_fmap_id r) at 2. apply list_fmap_ext. intros i [k e] Hl.
    cbn. f_equal. pose proof (Forall_lookup_1 _ _ _ _ (fit_entries _ Hf) Hl).
    pose proof (Forall_lookup_1 _ _ _ _ Hv Hl). by apply stored_id.
Qed.

Definition sample_registry : registry :=
  [(chars "CATEGORY", mk_entry fmt_string 4 0 (chars "DG")); (chars "PARENTAL_LEVEL", entry_of_integer 5);
   (chars "TITLE", mk_entry fmt_string 6 0 (chars "abcdefgh"))].

Lemma psf_roundtrip_witness :
  exists b, save_object sample_registry [1; 2; 3] = Some b
    /\ load (Some (mk_stream b 7)) = Some (mk_load (stored_registry sample_registry) error_ok).
Proof.
  destruct (psf_roundtrip sample_registry [1; 2; 3]) as (b & E & L & _).
  - repeat constructor.
  - repeat constructor; done.
  - split; [|vm_compute; done|vm_compute; done].
    constructor; [right; left; by vm_compute|]. constructor; [left; by vm_compute|]. constructor; [right; left; by vm_compute|done].
  - done.
  - apply (bool_decide_unpack (get_string (stored_registry sample_registry) (chars "CATEGORY") [] ∈ valid_cats)). vm_compute. exact I.
  - exists b. split; [exact E|exact (L 7)].
Defined.
