(* ===== verification/PsfLoad.v ===== *)
(** * load on arbitrary bytes, and check_registry

    What a successful load guarantees, which files make it fail and which make
    it end the process. *)

From Stdlib Require Import Lia String Ascii.
From stdpp Require Import sorting base numbers list tactics.
From S2P Require Import Prelude RxMemory FileStream Psf PsfSpec.

Open Scope Z_scope.

(** The limit the constructor of a string or array entry asks for. *)
Definition undersized (d : def_table_t) : Prop :=
  (param_fmt d = fmt_string /\ param_max d <= 1) \/ (param_fmt d = fmt_array /\ param_max d <= 0).

(** An entry as load builds it: of a known type, no longer than its limit, and
    a string without NUL. *)
Definition loaded_entry (e : entry) : Prop :=
  Forall (urange 8) (m_value_string e)
  /\ ((m_type e = fmt_integer /\ m_max_size e = 4 /\ urange 32 (m_value_integer e) /\ m_value_string e = [])
      \/ (m_type e = fmt_string /\ 1 < m_max_size e < 2 ^ 32 /\ Z.of_nat (length (m_value_string e)) <= m_max_size e
          /\ Forall (fun c => c <> 0) (m_value_string e))
      \/ (m_type e = fmt_array /\ 0 < m_max_size e < 2 ^ 32 /\ Z.of_nat (length (m_value_string e)) <= m_max_size e)).

Definition loaded (r : registry) : Prop :=
  StronglySorted key_before r
  /\ Forall (fun x => Forall (fun c => c <> 0) (fst x) /\ loaded_entry (snd x)) r.

Lemma loaded_emplace k e r : loaded r -> Forall (fun c => c <> 0) k -> loaded_entry e -> loaded (reg_emplace k e r).
Proof. intros [Hs HF] Hk He. split; [by apply emplace_sorted|by apply emplace_Forall]. Qed.

Lemma le_val_range b : Forall (urange 8) b -> urange (8 * Z.of_nat (length b)) (le_val b).
Proof. intros H. unfold le_val. apply le_radix_range; [lia|done]. Qed.

(** The index table of a file. *)
Definition index_table (b : bytes) : list def_table_t :=
  parse_defs (Z.to_nat (entries_num (parse_header (take 20 b)))) (drop 20 b).

Lemma parse_defs_take n m b : (16 * n <= m)%nat -> parse_defs n (take m b) = parse_defs n b.
Proof.
  revert m b. induction n as [|n IH]; intros m b H; cbn [parse_defs]; [done|].
  rewrite take_take, Nat.min_l, skipn_firstn_comm, IH by lia. done.
Qed.

Lemma parse_def_wf b : Forall (urange 8) b -> wf_def (parse_def b).
Proof.
  intros H. assert (Hf : forall i n, Forall (urange 8) (take n (drop i b))) by (intros; by apply Forall_take, Forall_drop).
  assert (Hr : forall i n, urange (8 * Z.of_nat n) (le_val (take n (drop i b)))).
  { intros i n. eapply urange_mono; [|by apply le_val_range]. rewrite length_take. lia. }
  unfold parse_def, wf_def, u16_at, u32_at. cbn [key_off param_fmt param_len param_max data_off].
  split_and!; [apply (Hr _ 2%nat)|apply (Hr _ 2%nat)|apply (Hr _ 4%nat)..].
Qed.

Lemma parse_defs_wf n b : Forall (urange 8) b -> Forall wf_def (parse_defs n b).
Proof.
  revert b. induction n as [|n IH]; intros b H; cbn [parse_defs]; [done|].
  constructor; [apply parse_def_wf; by apply Forall_take|apply IH; by apply Forall_drop].
Qed.

Lemma parse_header_wf b : Forall (urange 8) b -> wf_header (parse_header b).
Proof.
  intros H. assert (Hr : forall i, urange 32 (u32_at i b)).
  { intros i. unfold u32_at. eapply (urange_mono (8 * Z.of_nat (length (take 4 (drop i b))))).
    - rewrite length_take. lia.
    - apply le_val_range. by apply Forall_take, Forall_drop. }
  unfold parse_header, wf_header. cbn [magic version off_key_table off_data_table entries_num]. split_and!; apply Hr.
Qed.

(** The entry of a string or array. *)
Lemma entry_of_string_cases d b :
  wf_def d -> is_text (param_fmt d) = true -> Forall (urange 8) b -> Z.of_nat (length b) = param_len d ->
  param_len d <= param_max d ->
  match entry_of_string (param_fmt d) (param_max d) (if param_fmt d =? fmt_string then cstr b else b) false with
  | None => undersized d
  | Some e => loaded_entry e
  end.
Proof.
  intros (_ & _ & _ & Hm & _) Ht Hb Hl Hle. unfold entry_of_string. rewrite Ht. cbn [negb].
  assert (Hcases : param_fmt d = fmt_string \/ param_fmt d = fmt_array).
  { unfold is_text in Ht. apply orb_true_iff in Ht as [?%Z.eqb_eq|?%Z.eqb_eq]; auto. }
  pose proof (cstr_length b). assert (Hcb : Forall (urange 8) (cstr b)).
  { clear -Hb. induction Hb as [|c b Hc Hb IH]; cbn; [done|]. destruct (_ =? 0); by constructor. }
  unfold loaded_entry, undersized. unfold urange in Hm.
  destruct Hcases as [E|E]; rewrite E in *; cbn [Z.eqb fmt_string fmt_array Pos.eqb].
  - destruct (Z.ltb_spec 1 (param_max d)); cbn [negb andb m_type m_max_size m_value_string m_value_integer]; [|auto].
    split; [done|]. right; left. split_and!; try (done || lia). apply cstr_no_nul.
  - destruct (Z.ltb_spec 0 (param_max d)); cbn [negb andb m_type m_max_size m_value_string m_value_integer]; [|auto].
    split; [done|]. right; right. split_and!; (done || lia).
Qed.

Lemma load_entry_cases h keys d r s :
  wf_def d -> Forall (urange 8) (obj s) -> loaded r ->
  match load_entry h keys d r s with
  | None => undersized d
  | Some (inr e) => e <> error_ok
  | Some (inl (r', s')) => loaded r' /\ obj s' = obj s
  end.
Proof.
  intros Hd Hs Hr. unfold load_entry.
  destruct (negb (key_off d <? _)); [done|]. destruct (reg_contains _ _); [done|].
  destruct (Z.leb_spec (param_len d) (param_max d)) as [Hle|]; [|done]. cbn [negb].
  destruct (negb (data_off d <? _)); [done|]. destruct (negb (param_max d <? _)); [done|].
  set (s1 := snd _). assert (Hs1 : obj s1 = obj s /\ 0 <= spos s1).
  { pose proof (wrap_range 32 (off_data_table h + data_off d) ltac:(lia)) as W. unfold urange in W.
    unfold s1. rewrite seek_set_ok by lia. split; [done|cbn; lia]. }
  destruct Hs1 as [Ho Hp]. pose proof (cstr_no_nul (drop (Z.to_nat (key_off d)) keys)) as Hk.
  pose proof Hd as (_ & _ & Hl & _).
  destruct (_ && _ && _).
  - destruct (read_pod 4 s1) as [[b s2]|] eqn:E; [|done]. apply read_pod_inv in E as (El & Eb & ->); [|lia|done].
    split; [|done]. apply loaded_emplace; [done|done|].
    assert (Ef : Forall (urange 8) b) by (rewrite Eb, Ho; by apply Forall_take, Forall_drop).
    unfold loaded_entry. split; [done|]. left. split_and!; try done. cbn.
    apply (urange_mono (8 * Z.of_nat (length b))); [lia|by apply le_val_range].
  - destruct (is_text (param_fmt d)) eqn:Et; [|done]. destruct (read_vec 1 (param_len d) s1) as [[b s2]|] eqn:E; [|done].
    unfold urange in Hl. apply read_vec_inv in E as (El & Eb & ->); [|lia|lia|done].
    assert (Ef : Forall (urange 8) b) by (rewrite Eb, Ho; by apply Forall_take, Forall_drop).
    pose proof (entry_of_string_cases d b Hd Et Ef ltac:(lia) Hle) as C.
    destruct (entry_of_string _ _ _ _) as [e|]; cbn [mbind option_bind]; [|done].
    split; [by apply loaded_emplace|done].
Qed.

Lemma load_entries_cases h keys ds r s :
  Forall wf_def ds -> Forall (urange 8) (obj s) -> loaded r ->
  match load_entries h keys ds r s with
  | None => Exists undersized ds
  | Some (inr e) => e <> error_ok
  | Some (inl r') => loaded r'
  end.
Proof.
  intros HF. revert r s. induction HF as [|d ds Hd HF IH]; intros r s Hs Hr; cbn [load_entries]; [done|].
  pose proof (load_entry_cases h keys d r s Hd Hs Hr) as C.
  destruct (load_entry h keys d r s) as [[[r' s']|e]|]; [|done|by left]. destruct C as [Hr' Ho].
  specialize (IH r' s'). rewrite Ho in IH. specialize (IH Hs Hr'). destruct (load_entries _ _ _ _ _) as [[?|?]|]; [done|done|by right].
Qed.

Lemma check_header_error h n e : check_header h n = Some e -> e <> error_ok.
Proof. unfold check_header. repeat case_match; by intros [= <-]. Qed.

(** ** Properties *)

(** C28: load on arbitrary bytes.  It either fails with an error code and an
    empty registry, or returns a registry in key order, with distinct keys free
    of NUL, entries of known types no longer than their limits and a known
    CATEGORY; the process ends only when the index table has a string entry
    with a limit of at most one byte or an array entry with a limit of none. *)
Theorem psf_load_sound (s : container_stream) :
  Forall (urange 8) (obj s) ->
  match load (Some s) with
  | Some res =>
      (errc res <> error_ok /\ sfo res = [])
      \/ (errc res = error_ok /\ loaded (sfo res) /\ get_string (sfo res) (chars "CATEGORY") [] ∈ valid_cats)
  | None => Exists undersized (index_table (obj s))
  end.
Proof.
  intros Hs. unfold load. rewrite seek_set_ok by lia. cbn [snd].
  destruct (read_pod 20 (mk_stream (obj s) 0)) as [[b s1]|] eqn:E1; [|by left].
  apply read_pod_inv in E1 as (_ & Hb & ->); [|done|done]. cbn [obj spos] in *. rewrite drop_0 in Hb. change (Z.to_nat 20) with 20%nat in Hb.
  assert (Hh : wf_header (parse_header b)) by (apply parse_header_wf; rewrite Hb; by apply Forall_take).
  destruct Hh as (_ & _ & Hk & Hd & Hn). unfold index_table. rewrite <- Hb. set (h := parse_header b) in *. unfold urange in *.
  destruct (check_header h _) as [e|] eqn:E2; [left; split; [by eapply check_header_error|done]|].
  destruct (read_vec 16 (entries_num h) _) as [[ib s2]|] eqn:E3; [|by left].
  apply read_vec_inv in E3 as (_ & Hib & ->); [|lia|lia|done]. cbn [obj spos] in *.
  rewrite seek_set_ok by lia. rewrite Z.eqb_refl. cbn [negb obj].
  destruct (read_vec 1 _ _) as [[keys s4]|] eqn:E4; [|by left].
  pose proof (wrap_range 32 (off_data_table h - off_key_table h) ltac:(lia)) as W. unfold urange in W.
  apply read_vec_inv in E4 as (_ & _ & ->); [|lia|lia|cbn [spos]; lia]. cbn [obj spos] in *.
  assert (Hds : parse_defs (Z.to_nat (entries_num h)) ib = parse_defs (Z.to_nat (entries_num h)) (drop 20 (obj s))).
  { rewrite Hib. apply parse_defs_take. lia. }
  rewrite Hds. match goal with |- context [load_entries h keys ?ds [] ?st] =>
    pose proof (load_entries_cases h keys ds [] st) as C; destruct (load_entries h keys ds [] st) as [[r|e]|] end;
    cbn [mbind option_bind].
  all: specialize (C ltac:(by apply parse_defs_wf, Forall_drop) Hs ltac:(split; constructor)).
  - case_bool_decide; [by right|by left].
  - by left.
  - done.
Qed.

(** A file with one text entry. *)
Definition one_entry_file (fmt max : Z) (key data : bytes) : bytes :=
  let odt := 36 + Z.of_nat (length key) + 1 in
  header_bytes (mk_header psf_magic 0x101 36 odt 1) ++ def_bytes (mk_def 0 fmt 0 max 0) ++ (key ++ [0]) ++ data.

(** A malformed entry ends the process.  In a file whose header and sizes
    pass every check of load, a string entry with a limit of one byte or less,
    or an array entry with a limit of zero, is not reported as corrupt: the
    constructor of the entry, which is noexcept, fails its ensure. *)
Theorem psf_undersized_terminates (fmt max p : Z) (key data : bytes) :
  (fmt = fmt_string /\ 0 <= max <= 1) \/ (fmt = fmt_array /\ max = 0) ->
  data <> [] -> Z.of_nat (length key) + Z.of_nat (length data) < 2 ^ 31 ->
  load (Some (mk_stream (one_entry_file fmt max key data) p)) = None.
Proof.
  intros Hf Hd Hl. unfold one_entry_file. set (odt := 36 + Z.of_nat (length key) + 1). set (h := mk_header _ _ _ _ _).
  set (d := mk_def _ _ _ _ _). set (b := header_bytes h ++ _).
  pose proof (header_length h) as Hh. pose proof (def_length d) as Hdl.
  assert (0 < length data)%nat by (destruct data; [done|cbn; lia]).
  assert (Hb : length b = (20 + (16 + (length key + 1 + length data)))%nat) by (unfold b; rewrite !length_app, Hh, Hdl; done).
  unfold load. rewrite seek_set_ok by lia. cbn [snd obj].
  assert (Ho : off_key_table h = 36) by done. assert (Ht : off_data_table h = 37 + Z.of_nat (length key)) by (cbn; unfold odt; lia).
  unfold b at 1. rewrite read_header_ok. fold b.
  assert (parse_header (header_bytes h) = h) as ->.
  { apply header_roundtrip. unfold h, odt. split_and!; cbn; unfold urange; done || lia. }
  rewrite check_header_ok by (done || (unfold stream_size; cbn [obj]; lia)).
  change (entries_num h) with 1. unfold b at 1. rewrite read_vec_ok by lia.
  change (off_key_table h) with 36. rewrite seek_set_ok by lia. cbn [negb obj Z.eqb Pos.eqb].
  change (off_data_table h) with odt. rewrite wrap_id by (unfold urange, odt; lia).
  rewrite (app_assoc (header_bytes h) (def_bytes d)). rewrite read_vec_ok by (unfold odt; rewrite ?length_app; cbn; lia).
  assert (parse_defs (Z.to_nat 1) (def_bytes d) = [d]) as ->.
  { pose proof (defs_roundtrip [d]) as E. cbn [fmap list_fmap concat] in E. rewrite app_nil_r in E. apply E. constructor; [|done].
    unfold d. destruct Hf as [(-> & ?)|(-> & ->)]; split_and!; cbn; unfold urange; done || lia. }
  cbn [load_entries]. unfold load_entry. cbn [key_off d param_len param_max data_off param_fmt].
  change (reg_contains _ []) with false. change (off_data_table h) with odt. change (off_key_table h) with 36.
  unfold stream_size. cbn [obj]. rewrite <- (app_assoc (header_bytes h)). fold b. rewrite Hb.
  rewrite !wrap_id by (unfold urange, odt; lia).
  destruct (Z.ltb_spec 0 (odt - 36)); [|unfold odt in *; lia].
  destruct (Z.leb_spec 0 max); [|lia].
  set (n := Z.of_nat (20 + _)). assert (odt < n) by (unfold n, odt; lia).
  destruct (Z.ltb_spec 0 (n - odt)); [|lia]. destruct (Z.ltb_spec max (n - 0)); [|lia]. cbn [negb].
  assert (Hr : forall st, read_vec 1 0 st = Some ([], st)).
  { intros [o q]. unfold read_vec. change (1048576 / 1 <=? 0) with false. cbn [andb Z.mul]. unfold read_pod, stream_read.
    destruct (_ <? _) eqn:E; [|done]. apply Z.ltb_lt in E. rewrite Z.min_l by lia. done. }
  rewrite Hr. destruct Hf as [(-> & ?)|(-> & ->)]; cbn [Z.eqb fmt_string fmt_array fmt_integer Pos.eqb andb is_text orb]; [|done].
  unfold entry_of_string. cbn [is_text Z.eqb fmt_string Pos.eqb orb negb]. by destruct (Z.ltb_spec 1 max); [lia|].
Qed.

Lemma psf_undersized_terminates_witness :
  load (Some (mk_stream (one_entry_file fmt_string 1 (chars "TITLE") [0]) 0)) = None.
Proof. apply psf_undersized_terminates; [left; done|done|cbn; lia]. Defined.

Lemma psf_load_sound_witness :
  match load (Some (mk_stream (chars "not a registry") 0)) with
  | Some res => errc res <> error_ok /\ sfo res = []
  | None => False
  end.
Proof.
  pose proof (psf_load_sound (mk_stream (chars "not a registry") 0)) as H. destruct H as [H|H].
  - repeat constructor; done.
  - exact H.
  - destruct H as [H _]. vm_compute in H. done.
Defined.

(** What check_registry asks of an entry. *)
Definition passes (validate : option (bool -> bytes -> entry -> bool)) (x : bytes * entry) : bool :=
  let valid := bool_decide (is_valid (snd x) = Some true) in
  match validate with Some f => f valid (fst x) (snd x) && valid | None => valid end.

Lemma is_valid_some e : entry_ok e -> is_valid e = Some (bool_decide (is_valid e = Some true)).
Proof.
  intros H. unfold is_valid. destruct (entry_ok_cases e H) as [(-> & _)|(-> & _)]; [done|].
  destruct (_ <=? _); done.
Qed.

(** check_registry tells whether all entries are valid and pass the
    caller's condition, but when the condition rejects an integer entry it does
    not return: the report of the error asks the entry for its string. *)
Theorem psf_check_registry_spec (validate : option (bool -> bytes -> entry -> bool)) (r : registry) :
  Forall (fun x => entry_ok (snd x)) r ->
  check_registry r validate
  = (if existsb (fun x => negb (passes validate x) && (m_type (snd x) =? fmt_integer)) r then None
     else Some (forallb (passes validate) r)).
Proof.
  intros HF. unfold check_registry.
  assert (G : forall b, check_entries validate r b
    = (if existsb (fun x => negb (passes validate x) && (m_type (snd x) =? fmt_integer)) r then None
       else Some (b && forallb (passes validate) r))); [|by rewrite G].
  induction HF as [|[k e] r He HF IH]; intros b; cbn [check_entries existsb forallb]; [by rewrite andb_true_r|].
  cbn [snd] in He. rewrite is_valid_some by done. cbn [mbind option_bind].
  set (v := bool_decide _). assert (Hp : passes validate (k, e) = match validate with Some f => if negb (f v k e) then false else v | None => v end).
  { unfold passes. cbn [fst snd]. fold v. destruct validate as [f|]; [|done]. by destruct (f v k e). }
  rewrite <- Hp. destruct (passes validate (k, e)); cbn [negb andb orb]; [apply IH|].
  unfold as_string. destruct (entry_ok_cases e He) as [(Ht & _ & _ & ->)|(-> & Hi & _)]; cbn [mbind option_bind snd].
  - by rewrite Ht.
  - rewrite Hi, IH. cbn [orb andb]. by rewrite andb_false_r.
Qed.

Lemma psf_check_registry_spec_witness :
  check_registry sample_registry None = Some false
  /\ check_registry sample_registry (Some (fun _ _ e => negb (m_type e =? fmt_integer))) = None.
Proof.
  assert (H : Forall (fun x => entry_ok (snd x)) sample_registry).
  { constructor; [right; left; by vm_compute|]. constructor; [left; by vm_compute|]. constructor; [right; left; by vm_compute|done]. }
  split.
  - rewrite (psf_check_registry_spec None sample_registry H). vm_compute. reflexivity.
  - rewrite (psf_check_registry_spec _ sample_registry H). vm_compute. reflexivity.
Defined.
